(* ===== verification/_CoqProject ===== *)
-Q . S2P
Prelude.v
Js.v
JsDate.v
BillingPeriod.v
Sql.v
SqlTime.v
Tenants.v
TenantStore.v
TenantLeases.v
JobDriver.v
Http.v
Text.v
Regex.v
AuthStore.v
Auth.v
OperatorAuth.v
TokenCrypto.v
KekRotation.v
Routing.v
LlmRollup.v
AiGatewayLogs.v
Credits.v
LedgerIface.v
Ledger.v
MeterDebit.v
LlmStore.v
LlmRuns.v
LlmRead.v
Settlement.v
PaymentRail.v
PayPalRail.v
PaymentRoutes.v
CreditViews.v
RunpodJobs.v
RunpodProxy.v
RunpodPool.v
RunpodRoutes.v
Reconcile.v
Cron.v
Trace.v
Migrate.v
TenantModules.v
ModuleReadiness.v
TenantStudio.v
TenantTypes.v
R2Empty.v
Teardown.v
Provision.v
ProvisionPolicy.v
Converge.v
ConvergePolicy.v
StudioUpgrade.v
SmokeStore.v
Wiring.v
Sso.v
ApiToken.v
SmokeRender.v
SmokePolicy.v
Entry.v
AdminDispatch.v
AdminReads.v
Onboarding.v
Usage.v
OnboardingPolicy.v
AdminStudios.v
TenantRoutes.v
WizardChecks.v
Console.v
WizardPage.v
FrontDoor.v
AdminPolicy.v
LeverPolicy.v
Witnesses.v
PlaneWitnesses.v
AuthWitnesses.v
ProvisionWitnesses.v
RouteWitnesses.v
OpsWitnesses.v
FrontWitnesses.v
