(* ===== verification/Prelude.v ===== *)
(** * The hosted control plane: a verification development

    The control plane (src/src/) is a Cloudflare Worker that sells hosted video studios.  An account
    signs in, takes a slug and gets a tenant: a database, a bucket, a studio worker and its modules,
    all made by the provisioner.  The tenant's GPU calls go through the plane's RunPod proxy, its
    language-model calls are metered from a gateway's log, and both are paid from a prepaid ledger that
    a payment rail fills.  State lives in one SQL database (src/store-d1.ts); everything else is an
    outside service.  This library models that program and proves what it promises.

    ** How the parts meet

    - The store is a set of tables, each a list of rows, and every method of the store is a
      transformer of them that may throw (Prelude.v: [M], Sql.v).  Handlers that run beside other
      requests are proved against an interface of the store whose other users may run anything
      between two statements (LedgerIface.v, RunpodJobs.v, AuthStore.v), or as histories of statements
      (TenantLeases.v, LlmRuns.v).
    - The provisioner, the teardown and the studio operations are programs over a [world] (Trace.v)
      that answers every call however it likes, given everything asked so far; a theorem about their
      traces ([safe], [lawful], [only]) therefore holds for whatever the store, the cloud or other
      invocations do.
    - The clients of outside services (log endpoint, PayPal, RunPod) take the network as a parameter.

    ** The files, and the code each models

    - Language: Js.v (numbers, strings, JSON values), JsDate.v, SqlTime.v, Text.v (crypto.ts,
      constant-time.ts), Regex.v, Http.v, Sql.v.
    - Money: Credits.v (credits.ts), LedgerIface.v and Ledger.v (meter-settle.ts, the credit statements
      of store-d1.ts), MeterDebit.v (meter-window.ts, meter-debit.ts), BillingPeriod.v
      (meter-period.ts), Settlement.v (meter-settle-run.ts and its route), PaymentRail.v
      (payment-rail.ts), PayPalRail.v (paypal-rail.ts), PaymentRoutes.v and CreditViews.v (the money
      routes of index.ts, credits-api.ts).
    - Language-model spend: AiGatewayLogs.v (ai-gateway-logs.ts), LlmRollup.v (llm-spend-rollup.ts),
      LlmStore.v (llm-spend-window.ts, llm-spend-ingest.ts and its statements), LlmRuns.v (overlapping
      and dying runs), LlmRead.v (the windowed read).
    - Usage: Usage.v (tenant-usage.ts, spend-pricebook.ts, tenant-r2-usage.ts and their routes).
    - Tenants: Tenants.v (the row of store.ts, tenants.ts, tenant-resolver.ts), TenantStore.v (the
      statements), TenantLeases.v (histories of them), TenantTypes.v (the type of every table's rows),
      JobDriver.v (driveJobIfNeeded of index.ts), Routing.v (routing.ts).
    - RunPod: RunpodJobs.v (the job index), RunpodProxy.v and RunpodRoutes.v (the proxy and its sweep),
      RunpodPool.v (runpod-pool.ts, the key probes).
    - People: AuthStore.v, Auth.v (auth.ts, aup.ts), Sso.v (oauth.ts and the sign-in routes), ApiToken.v
      (tenant-api-token.ts and its routes), OperatorAuth.v (operator-auth.ts, the admin gate of index.ts).
    - Keys: TokenCrypto.v (token-crypto.ts), KekRotation.v (kek-rotation.ts).
    - Provisioning: Trace.v (the seams), Migrate.v (migrate.ts), TenantModules.v (tenant-modules.ts),
      ModuleReadiness.v (its readiness probes), TenantStudio.v (tenant-studio-env.ts, the projections of
      tenant-storage-quota.ts, tenant-abuse-report.ts and video-finish-tier-state.ts), R2Empty.v
      (r2-empty.ts), Teardown.v (teardownTenant of provisioner.ts), Provision.v (the rest of
      provisioner.ts), ProvisionPolicy.v (theorems about it).
    - Live studios: Converge.v (tenant-studio-bindings.ts and the operations of tenant-storage-quota.ts,
      tenant-abuse-report.ts and video-finish-tier-state.ts), ConvergePolicy.v (theorems about them),
      StudioUpgrade.v (tenant-studio-upgrade.ts).
    - Smoke renders: SmokeStore.v (the statements; also the settings and the audit trail), SmokeRender.v
      (smoke-render.ts, its client of deps.ts, its routes), SmokePolicy.v (histories of them).
    - Operations: Reconcile.v (reconcile-runpod.ts and its route), Cron.v (the scheduled tick of index.ts,
      cron-heartbeat.ts).
    - The door and the routes of index.ts: Wiring.v (what deps.ts builds from the variables), Entry.v
      ([handle] up to the session), AdminDispatch.v and TenantRoutes.v (which handler answers, and for
      whom), AdminReads.v (the operators' reads, settings, meter and key routes), Onboarding.v (taking
      and giving a name, going live), AdminStudios.v (teardown, holds, suspension, upgrades, bringing a
      studio in line); OnboardingPolicy.v, AdminPolicy.v and LeverPolicy.v hold their theorems.
    - The pages (src/public/): WizardChecks.v (onboarding-checks.js), WizardPage.v (onboarding.js, and the
      wizard against the routes it calls), FrontDoor.v (front-door.js, front-door-checks.js,
      credits-checks.js, api-token-checks.js), Console.v (admin-checks.js).
    - Witnesses.v, PlaneWitnesses.v, AuthWitnesses.v, ProvisionWitnesses.v, RouteWitnesses.v,
      OpsWitnesses.v and FrontWitnesses.v apply the properties at concrete inputs.

    A definition carries the name of the function or type it models; one with no counterpart by name is
    a piece of a longer function, cut where the code has its own steps.

    ** What the theorems show

    - Money: a captured hold is one debit; a rail's money is credited once; a settled window is frozen
      and settling again charges nobody twice; the reports are true.
    - Metering: the record of a run is true under every interleaving; the read refines the window; the
      cursor never passes what was not stored; a storage alert is sound in both directions.
    - Tenants: leases exclude each other, owners keep their resources, a name that served is gone, and
      every table keeps the type its readers rely on.
    - Proxy: it spends only for live tenants, asks RunPod only what it serves, and a job is closed only
      by what RunPod itself reported.
    - People: a link, a state or a session works once and for one account; a provider signs in only an
      address it vouches for; a minted studio token is the only one; an operator acts only within an
      unrevoked credential's scopes.
    - The doors: an operator's handler runs only for a caller the gate admitted, a tenant's only for the
      owner of the tenant its path names.
    - Provisioning: what is made is recorded, a tenant goes live only verified, a resume keeps to its
      release and repeats nothing that was recorded but the minting of the bucket's credential; a
      teardown touches nothing another row points at, reports what it reaped and revokes what it minted.
    - The routes of a studio's life: a name is taken only when claimed, a studio is live only on evidence,
      nothing is destroyed without the lease, every lever is recorded.
    - Live studios: a change is the one its route and body ask for, carries everything that was bound but
      what it is about, and is said to have taken only when it was read back (the refresh of a studio's
      bindings takes the video-finish binding off, where its comments say it attaches it); an upgrade
      records its release only for a studio that moved whole.
    - Smoke renders: they are rationed under every interleaving, and verified means fetched.
    - Operations: a clean reconciliation is in step; a tick always leaves its mark; the answer of a key
      rotation is what stands.
    - The pages: consent names what it destroys; the wizard's go-live and build screens, the front page,
      the credit panel and the console say what the routes answered.

    ** Bounds

    Recursion that follows no data takes fuel.  The page walks have the page caps of the code; the
    token probe has [PROBE_FUEL] rounds and the wait for a credential [AWAIT_FUEL], enough for their
    deadlines at the sleeps between two rounds under a clock that does not run backwards
    (token_probe_ends); the wait for a tenant's modules has [READY_FUEL] rounds and the wait for a
    studio's own answer [CONFIRM_FUEL], enough in the same way (readiness_wait_ends,
    readback_wait_ends); the drive of one pending provision has [DRIVE_FUEL] rounds, enough for its
    budget (provision_drive_ends); emptying a bucket takes a number of pages as an argument and the
    theorems hold for every number; stripping comments has the length of the text plus one.

    ** Parameters

    The network, the clock, random bytes, SHA-256, HMAC, AES-GCM ([seal], [open]), [JSON.parse],
    [JSON.stringify] of arbitrary values, [new RegExp] on a served text, [String] of a value that is no
    text, [Number] and [String] of numbers where their text matters, the sum SQLite makes of
    non-integers, and the [world] of the provisioner.  What is assumed of one (that [open] undoes
    [seal], say) is a named hypothesis with a concrete instance in the witnesses.

    ** Not modelled

    Log lines, timers that only measure, and the heartbeat that renews a lease in the background (to a
    run it is the world's).  The signature of an S3 request (sigv4.ts) and the transport of the
    Cloudflare and RunPod REST clients (cf-api.ts, runpod.ts) are the services' own protocol.  Of the
    pages, what is only painted (admin.js, api-token.js, the rendering of the others), the transport and
    the preview of onboarding-api.js, and the timing of the wizard's poll; of onboarding-checks.js, the
    representative plan and the cost and quota sums nothing calls.  Scripts and tests are not part of
    the program.  The components of the manifest say which modules are left. *)

From Stdlib Require Export ZArith Lia.
From stdpp Require Export prelude strings.

#[export] Set Default Goal Selector "!".
#[export] Unset Program Cases.

Declare Scope plane_scope.
Delimit Scope plane_scope with plane.

(** ** Results: a value or a thrown error

    [Ok a] is a normal return, [Err e] a throw.  The error type is a parameter: most operations
    throw a message, the payment rail throws a coded refusal. *)
Inductive result (E A : Type) : Type :=
| Ok (a : A)
| Err (e : E).
Arguments Ok {E A} a.
Arguments Err {E A} e.

#[export] Instance result_ret E : MRet (result E) := λ A a, Ok a.
#[export] Instance result_bind E : MBind (result E) := λ A B f m,
  match m with Ok a => f a | Err e => Err e end.

#[export] Instance result_fmap E : FMap (result E) := λ A B f m,
  match m with Ok a => Ok (f a) | Err e => Err e end.

Lemma Ok_inj {E A} (a b : A) : @Ok E A a = Ok b → a = b.
Proof. by intros [= ->]. Qed.

Definition is_ok {E A} (r : result E A) : bool :=
  match r with Ok _ => true | Err _ => false end.

Definition of_option {E A} (e : E) (o : option A) : result E A :=
  match o with Some a => Ok a | None => Err e end.

(** ** Stateful code

    [M S E A] reads and writes a state and may throw.  A throw keeps the writes already made, as a
    JavaScript exception does. *)
Definition M (S E A : Type) : Type := S → result E A * S.

#[export] Instance M_ret S E : MRet (M S E) := λ A a s, (Ok a, s).
#[export] Instance M_bind S E : MBind (M S E) := λ A B f m s,
  match m s with
  | (Ok a, s') => f a s'
  | (Err e, s') => (Err e, s')
  end.

Definition throw {S E A} (e : E) : M S E A := λ s, (Err e, s).
Definition gets {S E A} (f : S → A) : M S E A := λ s, (Ok (f s), s).
Definition query {S E A} (f : S → result E A) : M S E A := λ s, (f s, s).
Definition modify {S E} (f : S → S) : M S E unit := λ s, (Ok tt, f s).
Definition lift {S E A} (r : result E A) : M S E A := λ s, (r, s).
Definition catch {S E A} (m : M S E A) (h : E → M S E A) : M S E A := λ s,
  match m s with
  | (Ok a, s') => (Ok a, s')
  | (Err e, s') => h e s'
  end.
Definition run {S E A} (m : M S E A) (s : S) : result E A * S := m s.
Definition exec {S E A} (m : M S E A) (s : S) : S := (m s).2.
Definition eval {S E A} (m : M S E A) (s : S) : result E A := (m s).1.

Lemma M_bind_ok {S E A B} (m : M S E A) (f : A → M S E B) s a s' :
  m s = (Ok a, s') → (m ≫= f) s = f a s'.
Proof. intros H. unfold mbind, M_bind. by rewrite H. Qed.

Lemma M_bind_err {S E A B} (m : M S E A) (f : A → M S E B) s e s' :
  m s = (Err e, s') → (m ≫= f) s = (Err e, s').
Proof. intros H. unfold mbind, M_bind. by rewrite H. Qed.

Lemma M_bind_inv {S E A B} (m : M S E A) (f : A → M S E B) s b s' :
  (m ≫= f) s = (Ok b, s') → ∃ a s1, m s = (Ok a, s1) ∧ f a s1 = (Ok b, s').
Proof. unfold mbind, M_bind. destruct (m s) as [[a|e] s1]; [by eauto|done]. Qed.

(** [try { .. } catch (e) { .. }] whose two outcomes are told apart afterwards. *)
Definition attempt {S E A} (m : M S E A) : M S E (E + A) := λ s,
  match m s with
  | (Ok a, s') => (Ok (inr a), s')
  | (Err e, s') => (Ok (inl e), s')
  end.

Lemma attempt_bind {S E A B} (m : M S E A) (f : E + A → M S E B) s :
  (attempt m ≫= f) s = match m s with (Ok a, s') => f (inr a) s' | (Err e, s') => f (inl e) s' end.
Proof. unfold attempt, mbind, M_bind. by destruct (m s) as [[a|e] s']. Qed.
Lemma bind_run {S E A B} (m : M S E A) (f : A → M S E B) s :
  (m ≫= f) s = match m s with (Ok a, s') => f a s' | (Err e, s') => (Err e, s') end.
Proof. done. Qed.

Lemma bind_assoc_run {S E A B C} (m : M S E A) (f : A → M S E B) (g : B → M S E C) s :
  ((m ≫= f) ≫= g) s = (m ≫= λ a, f a ≫= g) s.
Proof. rewrite !bind_run. by destruct (m s) as [[a|e] s']. Qed.

(** ** What a computation keeps: an assertion on the state true before it is true after it, thrown or not. *)
Definition preserves {S E A} (I : S → Prop) (m : M S E A) : Prop := ∀ s, I s → I (exec m s).

Section preserves.
Context {S E : Type} (I : S → Prop).

Lemma preserves_ret {A} (a : A) : preserves I (mret a : M S E A).
Proof. intros s H. exact H. Qed.
Lemma preserves_throw {A} (e : E) : preserves I (throw e : M S E A).
Proof. intros s H. exact H. Qed.
Lemma preserves_bind {A B} (m : M S E A) (f : A → M S E B) :
  preserves I m → (∀ a, preserves I (f a)) → preserves I (m ≫= f).
Proof.
  intros Hm Hf s Hs. specialize (Hm s Hs). unfold exec, mbind, M_bind in *. destruct (m s) as [[a|e] s']; [|exact Hm].
  exact (Hf a s' Hm).
Qed.
Lemma preserves_attempt {A} (m : M S E A) : preserves I m → preserves I (attempt m).
Proof. intros Hm s Hs. specialize (Hm s Hs). unfold exec, attempt in *. by destruct (m s) as [[a|e] s']. Qed.
Lemma preserves_catch {A} (m : M S E A) h : preserves I m → (∀ e, preserves I (h e)) → preserves I (catch m h).
Proof.
  intros Hm Hh s Hs. specialize (Hm s Hs). unfold exec, catch in *. destruct (m s) as [[a|e] s']; [exact Hm|]. exact (Hh e s' Hm).
Qed.
Lemma preserves_gets {A} (f : S → A) : preserves I (gets f : M S E A).
Proof. intros s H. exact H. Qed.
Lemma preserves_lift {A} (r : result E A) : preserves I (lift r).
Proof. intros s H. exact H. Qed.
End preserves.

(** Walk a handler: sequence, recovery and branches, leaving its calls. *)
Ltac preserve :=
  repeat first
    [ simple apply preserves_ret | simple apply preserves_throw | simple apply preserves_gets
    | simple apply preserves_lift
    | simple apply preserves_bind; [|intros ?] | simple apply preserves_attempt
    | simple apply preserves_catch; [|intros ?]
    | match goal with |- preserves _ (match ?x with _ => _ end) => destruct x end
    | assumption ].

(** ** Reachability: the reflexive transitive closure of a step relation *)
Section reach.
Context {S : Type} (step : S → S → Prop).

Inductive steps : S → S → Prop :=
| steps_refl s : steps s s
| steps_next s t u : step s t → steps t u → steps s u.

Lemma steps_one s t : step s t → steps s t.
Proof. intros. eapply steps_next; [done|constructor]. Qed.

Lemma steps_trans s t u : steps s t → steps t u → steps s u.
Proof. induction 1; [done|]. intros. eapply steps_next; eauto. Qed.

(** An invariant kept by each step holds wherever the steps lead. *)
Lemma steps_invariant (I : S → Prop) s t :
  (∀ x y, I x → step x y → I y) → I s → steps s t → I t.
Proof. intros Hpres HI Hs. induction Hs; eauto. Qed.
End reach.

(** From one state to another along what is known to have run between them. *)
Ltac chain := first [assumption | simple apply steps_refl |
  match goal with H : steps _ ?a _ |- steps _ ?a _ => apply (steps_trans _ _ _ _ H); clear H; chain end].

(** ** Sums over lists *)
Definition sumZ {A} (f : A → Z) (l : list A) : Z := foldr (λ x acc, (f x + acc)%Z) 0%Z l.

Section sums.
Open Scope Z_scope.
Context {A : Type}.
Implicit Types (f g : A → Z) (l : list A).

Lemma sumZ_nil f : sumZ f [] = 0.
Proof. done. Qed.
Lemma sumZ_cons f x l : sumZ f (x :: l) = f x + sumZ f l.
Proof. done. Qed.
Lemma sumZ_app f l1 l2 : sumZ f (l1 ++ l2) = sumZ f l1 + sumZ f l2.
Proof. induction l1 as [|x l1 IH]; [done|]. rewrite <- app_comm_cons, !sumZ_cons, IH. lia. Qed.
Lemma sumZ_snoc f l x : sumZ f (l ++ [x]) = sumZ f l + f x.
Proof. rewrite sumZ_app, sumZ_cons, sumZ_nil. lia. Qed.
Lemma sumZ_ext f g l : (∀ x, x ∈ l → f x = g x) → sumZ f l = sumZ g l.
Proof.
  induction l as [|x l IH]; intros H; [done|].
  rewrite !sumZ_cons, H, IH; [done| |left]. intros y Hy. apply H. by right.
Qed.
Lemma sumZ_nonneg f l : (∀ x, x ∈ l → 0 <= f x) → 0 <= sumZ f l.
Proof.
  induction l as [|x l IH]; intros H; [done|]. rewrite sumZ_cons.
  assert (0 <= f x) by (apply H; left).
  assert (0 <= sumZ f l) by (apply IH; intros; apply H; by right). lia.
Qed.
Lemma sumZ_perm f l1 l2 : l1 ≡ₚ l2 → sumZ f l1 = sumZ f l2.
Proof.
  induction 1 as [|x l1 l2 _ IH|x y l|l1 l2 l3 _ IH1 _ IH2];
    rewrite ?sumZ_cons; [done|lia|lia|lia].
Qed.
Lemma sumZ_map {B} (h : B → A) f (l : list B) : sumZ f (h <$> l) = sumZ (f ∘ h) l.
Proof. unfold sumZ. induction l as [|x l IH]; cbn; [done|by rewrite IH]. Qed.
Lemma sumZ_opp f l : sumZ (λ x, - f x) l = - sumZ f l.
Proof. induction l as [|x l IH]; [done|]. rewrite !sumZ_cons, IH. lia. Qed.
End sums.
Create Rewrite HintDb sums.
#[export] Hint Rewrite @sumZ_nil @sumZ_cons @sumZ_app @sumZ_snoc : sums.

(** ** Filtering with a boolean test, as [Array.prototype.filter] does *)
Definition jfilter {A} (f : A → bool) (l : list A) : list A := List.filter f l.

Section jfilter.
Context {A : Type}.
Implicit Types (f : A → bool) (l : list A).

Lemma jfilter_app f l1 l2 : jfilter f (l1 ++ l2) = jfilter f l1 ++ jfilter f l2.
Proof. apply List.filter_app. Qed.
Lemma elem_of_jfilter f l x : x ∈ jfilter f l ↔ x ∈ l ∧ f x = true.
Proof. rewrite !list_elem_of_In. apply filter_In. Qed.
Lemma jfilter_nil_iff f l : jfilter f l = [] ↔ ∀ x, x ∈ l → f x = false.
Proof.
  split.
  - intros H x Hx. destruct (f x) eqn:E; [|done].
    assert (x ∈ jfilter f l) as Hin by (by apply elem_of_jfilter).
    rewrite H in Hin. by apply elem_of_nil in Hin.
  - unfold jfilter; induction l as [|y l IH]; intros H; [done|]. cbn.
    rewrite (H y) by left. apply IH. intros x Hx. apply H. by right.
Qed.
Lemma jfilter_length_split f l :
  length (jfilter f l) + length (jfilter (λ x, negb (f x)) l) = length l.
Proof. unfold jfilter; induction l as [|x l IH]; [done|]. cbn. destruct (f x); cbn in *; lia. Qed.
Lemma jfilter_ext f g l : (∀ x, x ∈ l → f x = g x) → jfilter f l = jfilter g l.
Proof.
  unfold jfilter; induction l as [|x l IH]; intros H; [done|]. cbn.
  rewrite (H x) by left. rewrite IH; [done|]. intros y Hy. apply H. by right.
Qed.
Lemma jfilter_perm f l l' : l ≡ₚ l' → jfilter f l ≡ₚ jfilter f l'.
Proof. unfold jfilter. induction 1; cbn; repeat case_match; [done|auto..|by etrans]. apply Permutation_swap. Qed.
Lemma sumZ_jfilter (h : A → Z) f l :
  sumZ h (jfilter f l) = sumZ (λ x, if f x then h x else 0%Z) l.
Proof. unfold sumZ, jfilter; induction l as [|x l IH]; cbn; [done|]. rewrite <- IH. by destruct (f x). Qed.
Lemma jfilter_NoDup_fmap {B} (h : A → B) f l : NoDup (h <$> l) → NoDup (h <$> jfilter f l).
Proof.
  induction l as [|x l IH]; cbn; [done|]. intros [Hx Hl]%NoDup_cons.
  destruct (f x); cbn; [|by apply IH]. apply NoDup_cons. split; [|by apply IH].
  intros [y [Heq Hy]]%list_elem_of_fmap. apply Hx. rewrite Heq.
  apply list_elem_of_fmap_2. by apply (elem_of_jfilter f) in Hy as [Hy _].
Qed.
End jfilter.

Lemma find_fmap {A} (p : A → bool) (g : A → A) l :
  (∀ x, p (g x) = p x) → List.find p (g <$> l) = g <$> List.find p l.
Proof. intros H. induction l as [|x l IH]; [done|]. cbn. rewrite H. by destruct (p x). Qed.

(** ** Proof automation

    [split_ifs] does the case analysis of a handler: it destructs the guards of the goal and of the
    hypotheses, innermost first, and closes the contradictory branches. *)
Ltac split_if :=
  match goal with
  | H : context [if ?b then _ else _] |- _ =>
      lazymatch b with context [if _ then _ else _] => fail | _ => destruct b eqn:? end
  | |- context [if ?b then _ else _] =>
      lazymatch b with context [if _ then _ else _] => fail | _ => destruct b eqn:? end
  end.
Ltac split_ifs := repeat (split_if; simplify_eq/=).

Ltac split_match :=
  match goal with
  | H : context [match ?b with _ => _ end] |- _ =>
      lazymatch b with context [match _ with _ => _ end] => fail | _ => destruct b eqn:? end
  | |- context [match ?b with _ => _ end] =>
      lazymatch b with context [match _ with _ => _ end] => fail | _ => destruct b eqn:? end
  end.
Ltac split_matches := repeat (split_match; simplify_eq/=).

(** Boolean tests of the code as propositions. *)
Ltac bool_hyps :=
  repeat match goal with
  | H : (_ && _)%bool = true |- _ => apply andb_true_iff in H as [? ?]
  | H : (_ || _)%bool = false |- _ => apply orb_false_iff in H as [? ?]
  | H : negb _ = true |- _ => apply negb_true_iff in H
  | H : negb _ = false |- _ => apply negb_false_iff in H
  | H : (_ <? _)%Z = true |- _ => apply Z.ltb_lt in H
  | H : (_ <? _)%Z = false |- _ => apply Z.ltb_ge in H
  | H : (_ <=? _)%Z = true |- _ => apply Z.leb_le in H
  | H : (_ <=? _)%Z = false |- _ => apply Z.leb_gt in H
  | H : (_ =? _)%Z = true |- _ => apply Z.eqb_eq in H
  | H : (_ =? _)%Z = false |- _ => apply Z.eqb_neq in H
  | H : (_ =? _)%string = true |- _ => apply String.eqb_eq in H
  | H : (_ =? _)%string = false |- _ => apply String.eqb_neq in H
  | H : bool_decide _ = true |- _ => apply bool_decide_eq_true in H
  | H : bool_decide _ = false |- _ => apply bool_decide_eq_false in H
  end.

Create HintDb plane.
#[export] Hint Resolve sumZ_nonneg : plane.
