(* ===== verification/Js.v ===== *)
(** * JavaScript values: numbers, strings, JSON

    The parts of the language the control plane's decisions rest on: binary64 numbers with their
    rounding, strings as sequences of code units with [trim], [toLowerCase] and the lexicographic
    order, decimal printing and parsing, and dynamically typed values (what [JSON.parse] returns).

    A string is a [String.string] whose characters are code units 0..255; a code unit above 255 has
    no counterpart here, so the whitespace of [trim] is the Latin-1 part of the language's list and
    [toLowerCase] maps the Latin-1 capitals. *)

From S2P Require Export Prelude.
From stdpp Require Export pretty.
From Stdlib Require Import Ascii String.
Open Scope Z_scope.

(** ** Numbers *)
Module Num.
Definition max_safe : Z := 2 ^ 53 - 1.
Definition is_safe (z : Z) : bool := Z.abs z <=? max_safe.

(** [rne z k]: the multiple of [2^k] nearest to [z], ties to the even one. *)
Definition rne (z k : Z) : Z :=
  let q := z / 2 ^ k in
  let r := z mod 2 ^ k in
  let q' := if 2 * r <? 2 ^ k then q
            else if 2 ^ k <? 2 * r then q + 1
            else if Z.even q then q else q + 1 in
  q' * 2 ^ k.

(** How many low bits do not fit in the 53-bit significand of [z]. *)
Definition excess (z : Z) : Z := Z.max 0 (Z.log2 (Z.abs z) - 52).

(** The binary64 number nearest to the integer [z], for [|z| < 2^1024]. *)
Definition rnd (z : Z) : Z := if excess z =? 0 then z else rne z (excess z).

Definition add (a b : Z) : Z := rnd (a + b).
Definition sub (a b : Z) : Z := rnd (a - b).
Definition mul (a b : Z) : Z := rnd (a * b).

(** An arbitrary number: an integer, a dyadic fraction [m / 2^e] that is not an integer, an
    infinity or NaN.  Negative zero is [NInt 0]: no test of the code tells them apart. *)
Inductive num :=
| NInt (z : Z)
| NFrac (m : Z) (e : positive)
| NInf (negative : bool)
| NNaN.

#[export] Instance num_eq_dec : EqDecision num.
Proof. solve_decision. Defined.

(** Drop common factors of two, so that a fraction is in lowest terms. *)
Fixpoint lowest (m : Z) (e : positive) (fuel : nat) : num :=
  match fuel with
  | O => NFrac m e
  | S fuel =>
      if Z.even m then
        match e with
        | 1%positive => NInt (m / 2)
        | _ => lowest (m / 2) (Pos.pred e) fuel
        end
      else NFrac m e
  end.

Definition finite (z : Z) : num := if Z.abs z <? 2 ^ 1024 then NInt z else NInf (z <? 0).

(** The number nearest to [m / 2^e], with overflow and the subnormal spacing [2^-1074]. *)
Definition make (m : Z) (e : Z) : num :=
  let k := Z.max (excess m) (e - 1074) in
  let m' := if k <=? 0 then m else rne m k / 2 ^ k in
  let e' := if k <=? 0 then e else e - k in
  if e' <=? 0 then finite (m' * 2 ^ (- e'))
  else lowest m' (Z.to_pos e') (Pos.to_nat (Z.to_pos e')).

Definition is_integer (n : num) : bool := match n with NInt _ => true | _ => false end.
Definition is_safe_integer (n : num) : bool :=
  match n with NInt z => is_safe z | _ => false end.
Definition is_finite (n : num) : bool :=
  match n with NInt _ | NFrac _ _ => true | _ => false end.
(** [n < 0]; false on NaN. *)
Definition is_neg (n : num) : bool :=
  match n with NInt z => z <? 0 | NFrac m _ => m <? 0 | NInf b => b | NNaN => false end.

(** [n * c] for an integer constant [c > 0]. *)
Definition scale (n : num) (c : Z) : num :=
  match n with
  | NInt z => make (z * c) 0
  | NFrac m e => make (m * c) (Zpos e)
  | n => n
  end.

(** [Math.round]: the nearest integer, ties towards plus infinity. *)
Definition round (n : num) : num :=
  match n with
  | NFrac m e => NInt ((m + 2 ^ (Zpos e - 1)) / 2 ^ Zpos e)
  | n => n
  end.

(** [Math.trunc]. *)
Definition trunc (n : num) : num :=
  match n with
  | NFrac m e => NInt (Z.quot m (2 ^ Zpos e))
  | n => n
  end.
End Num.
Export (hints) Num.

Section rounding.
Import Num.

Lemma excess_small z : Z.abs z < 2 ^ 53 → excess z = 0.
Proof.
  intros H. unfold excess. destruct (Z.eq_dec (Z.abs z) 0) as [->|Hz]; [done|].
  assert (Z.log2 (Z.abs z) < 53); [|lia]. apply Z.log2_lt_pow2; lia.
Qed.

(** Integers of at most 53 bits are exact. *)
Lemma rnd_exact z : Z.abs z <= max_safe → rnd z = z.
Proof. intros H. unfold rnd. rewrite excess_small; [done|]. unfold max_safe in H. lia. Qed.

Lemma add_exact a b : Z.abs (a + b) <= max_safe → add a b = a + b.
Proof. apply rnd_exact. Qed.
Lemma sub_exact a b : Z.abs (a - b) <= max_safe → sub a b = a - b.
Proof. apply rnd_exact. Qed.

Lemma excess_nonneg z : 0 <= excess z.
Proof. unfold excess. lia. Qed.

(** Rounding moves a number by at most half a unit in the last place. *)
Lemma rne_error z k : 0 <= k → 2 * Z.abs (rne z k - z) <= 2 ^ k.
Proof.
  intros Hk. unfold rne. assert (0 < 2 ^ k) as Hp by lia.
  pose proof (Z.div_mod z (2 ^ k)) as Hd. pose proof (Z.mod_pos_bound z (2 ^ k) Hp) as Hb.
  set (q := z / 2 ^ k) in *. set (r := z mod 2 ^ k) in *.
  assert (z = 2 ^ k * q + r) as Hz by lia.
  repeat case_match; bool_hyps; nia.
Qed.

Lemma rne_divide z k : (2 ^ k | rne z k).
Proof. unfold rne. eexists. done. Qed.

Lemma rnd_sign z : 0 <= z → 0 <= rnd z.
Proof.
  intros Hz. unfold rnd. case_match; [done|]. unfold rne.
  pose proof (excess_nonneg z).
  assert (0 <= z / 2 ^ excess z) by (apply Z.div_pos; lia).
  repeat case_match; nia.
Qed.

(** A sum that leaves the safe range does not round back into it. *)
Lemma rnd_safe z : 0 <= z → rnd z <= max_safe → rnd z = z.
Proof.
  intros Hz Hr. destruct (Z.lt_ge_cases z (2 ^ 53)) as [Hlt|Hge].
  { apply rnd_exact. unfold max_safe. lia. }
  exfalso. unfold rnd in Hr. assert (53 <= Z.log2 z) as Hlog.
  { apply Z.log2_le_pow2; lia. }
  assert (1 <= excess z) as He by (unfold excess; rewrite Z.abs_eq by done; lia).
  case_match eqn:E; bool_hyps; [lia|]. clear E.
  assert (excess z = Z.log2 z - 52) as Hk by (unfold excess; rewrite Z.abs_eq by done; lia).
  assert (2 ^ 52 <= z / 2 ^ excess z) as Hq.
  { apply Z.div_le_lower_bound; [lia|]. rewrite <- Z.pow_add_r by lia.
    replace (excess z + 52) with (Z.log2 z) by lia. apply Z.log2_spec. lia. }
  assert (2 ^ 1 <= 2 ^ excess z) as Hp by (apply Z.pow_le_mono_r; lia).
  unfold rne, max_safe in Hr. set (q := z / 2 ^ excess z) in *. set (t := 2 ^ excess z) in *.
  repeat case_match; nia.
Qed.

Lemma rnd_pos z : 0 < z → 0 < rnd z.
Proof.
  intros Hz. destruct (Z.le_gt_cases (rnd z) max_safe) as [Hle|Hgt]; [|unfold max_safe in *; lia].
  rewrite rnd_safe by lia. done.
Qed.

(** Operations on nonnegative numbers stay nonnegative. *)
Lemma make_nonneg p e : 0 <= p → is_neg (make p e) = false.
Proof.
  intros Hp. unfold make. set (k := Z.max _ _).
  assert (0 <= (if k <=? 0 then p else rne p k / 2 ^ k)) as Hm.
  { destruct (k <=? 0) eqn:E; [done|]. bool_hyps. apply Z.div_pos; [|lia]. unfold rne.
    assert (0 <= p / 2 ^ k) by (apply Z.div_pos; lia). repeat case_match; nia. }
  set (m' := if k <=? 0 then p else _) in *. set (e' := if k <=? 0 then e else _).
  destruct (e' <=? 0) eqn:E; bool_hyps.
  - unfold finite. assert (0 <= m' * 2 ^ (- e')) by (apply Z.mul_nonneg_nonneg; lia).
    destruct (_ <? 2 ^ 1024); cbn [is_neg]; apply Z.ltb_ge; lia.
  - clear E. generalize (Z.to_pos e'), (Pos.to_nat (Z.to_pos e')). intros e0 fuel. clearbody m'. clear -Hm.
    revert m' e0 Hm. induction fuel as [|fuel IH]; intros m e0 Hm; cbn [lowest]; [by apply Z.ltb_ge|].
    assert (0 <= m / 2) by (apply Z.div_pos; lia).
    destruct (Z.even m); [|by apply Z.ltb_ge]. destruct e0; auto. by apply Z.ltb_ge.
Qed.

Lemma make_int z : Z.abs z <= max_safe → make z 0 = NInt z.
Proof.
  intros Hz. unfold make. rewrite excess_small by (unfold max_safe in Hz; lia). cbn [Z.max Z.sub Z.add Z.opp Z.compare].
  change (Z.max 0 (0 - 1074) <=? 0) with true. cbn beta iota. change (0 <=? 0) with true. cbn beta iota.
  rewrite Z.mul_1_r. unfold finite. rewrite (proj2 (Z.ltb_lt _ _)); [done|].
  apply (Z.le_lt_trans _ max_safe); [done|]. reflexivity.
Qed.

Lemma round_nonneg n : is_neg n = false → is_neg (round n) = false.
Proof.
  destruct n as [z|m e|b|]; cbn; try done. rewrite !Z.ltb_ge. intros Hm. apply Z.div_pos; [|lia].
  assert (0 <= 2 ^ (Zpos e - 1)) by (apply Z.pow_nonneg; lia). lia.
Qed.
End rounding.
#[export] Hint Resolve rnd_exact add_exact sub_exact : plane.

(** ** Strings *)
Module Str.
(** The double quote character, which no literal here holds. *)
Definition dq : string := String (ascii_of_N 34) EmptyString.

Definition code (c : ascii) : N := N_of_ascii c.
Definition chars (s : string) : list ascii := list_ascii_of_string s.
Definition of_chars (l : list ascii) : string := string_of_list_ascii l.

Definition is_space (c : ascii) : bool :=
  let n := code c in
  ((9 <=? n) && (n <=? 13) || (n =? 32) || (n =? 160))%N.
Definition is_digit (c : ascii) : bool := let n := code c in ((48 <=? n) && (n <=? 57))%N.

Fixpoint drop_space (l : list ascii) : list ascii :=
  match l with
  | [] => []
  | c :: l' => if is_space c then drop_space l' else l
  end.
Definition trim_chars (l : list ascii) : list ascii :=
  rev (drop_space (rev (drop_space l))).
Definition trim (s : string) : string := of_chars (trim_chars (chars s)).

Definition lower_char (c : ascii) : ascii :=
  let n := code c in
  if ((65 <=? n) && (n <=? 90) || (192 <=? n) && (n <=? 222) && negb (n =? 215))%N
  then ascii_of_N (n + 32)%N else c.
Definition to_lower (s : string) : string := of_chars (lower_char <$> chars s).

(** [a < b] on strings: lexicographic by code unit. *)
Fixpoint ltb (a b : string) : bool :=
  match a, b with
  | _, EmptyString => false
  | EmptyString, String _ _ => true
  | String x a', String y b' =>
      (code x <? code y)%N || ((code x =? code y)%N && ltb a' b')
  end.
Definition leb (a b : string) : bool := negb (ltb b a).

(** A nonempty string is truthy. *)
Definition truthy (s : string) : bool := match s with EmptyString => false | _ => true end.

(** [String.prototype.slice(0, n)]. *)
Definition take (n : nat) (s : string) : string := of_chars (firstn n (chars s)).

Fixpoint repeat_char (c : ascii) (n : nat) : string :=
  match n with O => EmptyString | S n => String c (repeat_char c n) end.
Definition pad_start (w : nat) (c : ascii) (s : string) : string :=
  append (repeat_char c (w - String.length s)) s.

(** [/^[0-9]+$/.test(s)] *)
Definition all_digits (s : string) : bool :=
  truthy s && forallb is_digit (chars s).
(** [Number(s)] before rounding, for a string of digits. *)
Definition digit_val (c : ascii) : Z := Z.of_N (code c) - 48.
Definition digits_val (l : list ascii) : Z := fold_left (λ acc c, acc * 10 + digit_val c) l 0.
Definition parse_digits (s : string) : Z := digits_val (chars s).

(** [String(n)] for an integer of magnitude below [1e21], where printing is positional. *)
Definition of_int (z : Z) : string := pretty z.

Fixpoint join (sep : string) (l : list string) : string :=
  match l with
  | [] => EmptyString
  | [x] => x
  | x :: l' => append x (append sep (join sep l'))
  end.
End Str.

(** Tests of the code on strings: [===], [<] and [>=]. *)
Notation "a =s? b" := (String.eqb a b) (at level 70, no associativity) : plane_scope.
Notation "a <s? b" := (Str.ltb a b) (at level 70, no associativity) : plane_scope.
Notation "a <=s? b" := (Str.leb a b) (at level 70, no associativity) : plane_scope.

(** ** Dynamically typed values *)
Inductive js :=
| JUndef
| JNull
| JBool (b : bool)
| JNum (n : Num.num)
| JStr (s : string)
| JArr (l : list js)
| JObj (fields : list (string * js)).

Fixpoint field_of (l : list (string * js)) (k : string) : js :=
  match l with
  | [] => JUndef
  | (k', v) :: l' => if (k =? k')%string then v else field_of l' k
  end.

(** [v.k] where [v] is known not to be null or undefined. *)
Definition js_field (v : js) (k : string) : js :=
  match v with JObj l => field_of l k | _ => JUndef end.

(** [v && typeof v === "object"] *)
Definition js_is_object (v : js) : bool :=
  match v with JArr _ | JObj _ => true | _ => false end.

(** [typeof v === "string" ? v.trim() : ""] *)
Definition js_trimmed (v : js) : string :=
  match v with JStr s => Str.trim s | _ => EmptyString end.

(** ** Lemmas on strings *)
Section strings.
Import Str.

Lemma code_inj x y : code x = code y → x = y.
Proof. intros H. rewrite <- (ascii_N_embedding x), <- (ascii_N_embedding y). by f_equal. Qed.

Lemma ltb_irrefl a : ltb a a = false.
Proof. induction a as [|x a IH]; cbn; [done|]. by rewrite N.ltb_irrefl, IH, andb_false_r. Qed.

Lemma ltb_trans a b c : ltb a b = true → ltb b c = true → ltb a c = true.
Proof.
  revert b c; induction a as [|x a IH]; intros [|y b] [|z c]; cbn; try done.
  rewrite !orb_true_iff, !andb_true_iff, !N.ltb_lt, !N.eqb_eq.
  intros Hab Hbc. destruct Hab as [|Hab], Hbc as [|Hbc]; [left; lia|left; lia|left; lia|].
  destruct Hab as [Hab Ha], Hbc as [Hbc Hb]. right. split; [lia|]. eauto.
Qed.

Lemma ltb_total a b : ltb a b = false → ltb b a = false → a = b.
Proof.
  revert b; induction a as [|x a IH]; intros [|y b]; cbn; try done.
  rewrite !orb_false_iff, !andb_false_iff, !N.ltb_ge, !N.eqb_neq.
  intros [H1 Hab] [H2 Hba]. assert (code x = code y) as Hc by lia.
  apply code_inj in Hc as ->. f_equal. apply IH; naive_solver.
Qed.

Lemma leb_refl a : leb a a = true.
Proof. unfold leb. by rewrite ltb_irrefl. Qed.
Lemma leb_antisym a b : leb a b = true → leb b a = true → a = b.
Proof. unfold leb. intros ?%negb_true_iff ?%negb_true_iff. by apply ltb_total. Qed.
Lemma ltb_leb a b : ltb a b = true → leb a b = true.
Proof.
  unfold leb. intros H. apply negb_true_iff. destruct (ltb b a) eqn:E; [|done].
  pose proof (ltb_trans _ _ _ H E) as Hx. by rewrite ltb_irrefl in Hx.
Qed.
Lemma leb_ltb_trans a b c : leb a b = true → ltb b c = true → ltb a c = true.
Proof.
  intros Hab Hbc. destruct (ltb a c) eqn:E; [done|].
  destruct (ltb c a) eqn:E2.
  - unfold leb in Hab. apply negb_true_iff in Hab.
    by rewrite (ltb_trans _ _ _ Hbc E2) in Hab.
  - rewrite <- (ltb_total _ _ E E2) in Hbc. unfold leb in Hab. by rewrite Hbc in Hab.
Qed.
Lemma ltb_leb_trans a b c : ltb a b = true → leb b c = true → ltb a c = true.
Proof.
  intros Hab Hbc. destruct (ltb b c) eqn:E; [by eapply ltb_trans|].
  rewrite (leb_antisym b c Hbc) in Hab; [done|]. unfold leb. by rewrite E.
Qed.
Lemma leb_trans a b c : leb a b = true → leb b c = true → leb a c = true.
Proof.
  intros Hab Hbc. unfold leb in *. apply negb_true_iff. apply negb_true_iff in Hab, Hbc.
  destruct (ltb c a) eqn:E; [|done].
  assert (ltb c b = true) as H; [|by rewrite H in Hbc].
  eapply ltb_leb_trans; [done|]. unfold leb. by rewrite Hab.
Qed.
Lemma leb_total a b : leb a b = true ∨ leb b a = true.
Proof. destruct (leb a b) eqn:E; [by left|right]. apply ltb_leb. unfold leb in E. by apply negb_false_iff in E. Qed.
Lemma leb_false a b : leb a b = false ↔ ltb b a = true.
Proof. unfold leb. apply negb_false_iff. Qed.

Lemma chars_of_chars l : chars (of_chars l) = l.
Proof. apply list_ascii_of_string_of_list_ascii. Qed.
Lemma of_chars_chars s : of_chars (chars s) = s.
Proof. apply string_of_list_ascii_of_string. Qed.
Lemma chars_append a b : chars (append a b) = chars a ++ chars b.
Proof. induction a as [|x a IH]; [done|]. exact (f_equal (cons x) IH). Qed.

Lemma drop_space_id l : match l with [] => True | c :: _ => is_space c = false end → drop_space l = l.
Proof. destruct l as [|c l]; cbn; [done|]. by intros ->. Qed.

(** A string with no whitespace at its ends is its own trim. *)
Lemma trim_id s :
  match chars s with [] => True | c :: _ => is_space c = false end →
  match rev (chars s) with [] => True | c :: _ => is_space c = false end →
  trim s = s.
Proof.
  intros H1 H2. unfold trim, trim_chars.
  rewrite (drop_space_id (chars s)), (drop_space_id (rev _)), rev_involutive; [|done..].
  apply of_chars_chars.
Qed.

Lemma is_digit_not_space c : is_digit c = true → is_space c = false.
Proof.
  unfold is_digit, is_space. intros [H1%N.leb_le H2%N.leb_le]%andb_true_iff.
  apply orb_false_iff; split; [apply orb_false_iff; split|].
  - apply andb_false_iff. right. apply N.leb_gt. lia.
  - apply N.eqb_neq. lia.
  - apply N.eqb_neq. lia.
Qed.

Lemma all_digits_trim s : all_digits s = true → trim s = s.
Proof.
  unfold all_digits. intros [_ H]%andb_true_iff. rewrite forallb_forall in H.
  apply trim_id.
  - destruct (chars s) as [|c l] eqn:E; [done|]. apply is_digit_not_space, H. by left.
  - destruct (rev (chars s)) as [|c l] eqn:E; [done|]. apply is_digit_not_space, H.
    apply in_rev. rewrite E. by left.
Qed.

Lemma digits_val_snoc l c : digits_val (l ++ [c]) = digits_val l * 10 + digit_val c.
Proof. unfold digits_val. by rewrite fold_left_app. Qed.
End strings.

(** Printing an integer in decimal and reading the digits back. *)
Section decimal.
Import Str.

Lemma pretty_N_char_digit x : (x < 10)%N →
  is_digit (pretty_N_char x) = true ∧ digit_val (pretty_N_char x) = Z.of_N x.
Proof.
  intros H. assert (x = 0 ∨ x = 1 ∨ x = 2 ∨ x = 3 ∨ x = 4 ∨ x = 5 ∨ x = 6 ∨ x = 7 ∨ x = 8 ∨ x = 9)%N by lia.
  by destruct_or?; subst.
Qed.

Definition acc_val (a : Z) (l : list ascii) : Z := fold_left (λ acc c, acc * 10 + digit_val c) l a.

Lemma pretty_N_go_chars x s :
  ∃ p, chars (pretty_N_go x s) = p ++ chars s ∧ forallb is_digit p = true ∧
       digits_val p = Z.of_N x ∧ ((0 < x)%N → p ≠ []) ∧
       (∀ w, Z.of_N x < 10 ^ Z.of_nat w → (List.length p <= w)%nat).
Proof.
  revert s. induction (N.lt_wf_0 x) as [x _ IH]; intros s.
  destruct (decide (0 < x)%N) as [Hx|Hx].
  - rewrite pretty_N_go_step by done.
    assert (x / 10 < x)%N as Hlt by (apply N.div_lt; lia).
    destruct (IH _ Hlt (String (pretty_N_char (x `mod` 10)) s)) as (p & Hc & Hd & Hv & _ & Hlen).
    assert (x mod 10 < 10)%N as Hm by (by apply N.mod_lt).
    destruct (pretty_N_char_digit _ Hm) as [Hd1 Hd2].
    exists (p ++ [pretty_N_char (x `mod` 10)]). split_and!.
    + rewrite Hc. cbn. by rewrite <- (assoc_L (++)).
    + rewrite forallb_app, Hd. cbn. by rewrite Hd1.
    + rewrite digits_val_snoc, Hv, Hd2. pose proof (N.div_mod x 10). lia.
    + intros _. by destruct p.
    + intros w Hw. rewrite length_app. cbn. destruct w as [|w]; [cbn in Hw; lia|].
      rewrite Nat2Z.inj_succ, Z.pow_succ_r in Hw by lia.
      assert (List.length p <= w)%nat; [|lia]. apply Hlen. rewrite N2Z.inj_div.
      apply Z.div_lt_upper_bound; lia.
  - assert (x = 0)%N as -> by lia. exists []. rewrite pretty_N_go_0. split_and!; [done..|lia|intros; apply Nat.le_0_l].
Qed.

Lemma of_int_spec_length z : 0 <= z →
  all_digits (of_int z) = true ∧ parse_digits (of_int z) = z ∧
  (∀ w, z < 10 ^ Z.of_nat w → (0 < w → List.length (chars (of_int z)) <= w)%nat).
Proof.
  intros Hz. unfold all_digits, parse_digits. destruct z as [|p|p]; [by split_and!; [done..|intros w _ Hw; exact Hw]| |lia].
  assert (of_int (Z.pos p) = pretty_N_go (N.pos p) "") as -> by done.
  destruct (pretty_N_go_chars (N.pos p) "") as (l & Hc & Hd & Hv & Hn & Hlen).
  generalize dependent (pretty_N_go (N.pos p) ""); intros s Hc.
  rewrite app_nil_r in Hc. rewrite Hc, Hd, Hv. split_and!; [|done|intros w Hw _; by apply Hlen].
  assert (l ≠ []) as Hl by (apply Hn; lia). by destruct s.
Qed.

Lemma of_int_spec z : 0 <= z → all_digits (of_int z) = true ∧ parse_digits (of_int z) = z.
Proof. intros Hz. by destruct (of_int_spec_length z Hz) as (? & ? & _). Qed.

Lemma of_int_inj a b : of_int a = of_int b → a = b.
Proof. apply (inj pretty). Qed.

Lemma parse_digits_nonneg s : all_digits s = true → 0 <= parse_digits s.
Proof.
  unfold all_digits, parse_digits. intros [_ H]%andb_true_iff.
  induction (chars s) as [|c l IH] using rev_ind; [done|].
  rewrite forallb_app in H. apply andb_true_iff in H as [Hl Hc]. rewrite digits_val_snoc.
  cbn in Hc. unfold is_digit in Hc. rewrite andb_true_r in Hc.
  apply andb_true_iff in Hc as [Hc _]. apply N.leb_le in Hc. specialize (IH Hl).
  unfold digit_val. lia.
Qed.
End decimal.
