(* ===== verification/JsDate.v ===== *)
(** * Dates: time values, calendar fields, ISO strings

    The algorithms of the language specification for UTC: a time value is an integer number of
    milliseconds since the epoch, at most [8.64e15] in magnitude.  [to_iso] is
    [Date.prototype.toISOString], [parse_iso] is [Date.parse] on the strings [to_iso] makes. *)

From S2P Require Export Js.
From Stdlib Require Import Ascii.
Open Scope string_scope.
Open Scope list_scope.
Open Scope Z_scope.
Open Scope plane_scope.

Ltac dm := Z.div_mod_to_equations; lia.

Ltac split_goal_ifs :=
  repeat match goal with |- context [if ?b then _ else _] => destruct b eqn:? end.

Module Date.
Definition ms_per_day : Z := 86400000.
Definition max_time : Z := 8640000000000000.
Definition valid (t : Z) : bool := Z.abs t <=? max_time.

Definition day (t : Z) : Z := t / ms_per_day.
Definition time_within_day (t : Z) : Z := t mod ms_per_day.

Definition day_from_year (y : Z) : Z :=
  365 * (y - 1970) + (y - 1969) / 4 - (y - 1901) / 100 + (y - 1601) / 400.
Definition leap (y : Z) : bool :=
  (y mod 4 =? 0) && (negb (y mod 100 =? 0) || (y mod 400 =? 0)).

(** The year whose first day is the last one not after [d]. *)
Definition year_from_day (d : Z) : Z :=
  let y := 1970 + 400 * d / 146097 in
  if d <? day_from_year y then y - 1
  else if day_from_year (y + 1) <=? d then y + 1 else y.

(** Days before month [m] (0-based; 12 is the next January). *)
Definition month_start (leap : bool) (m : Z) : Z :=
  let l := if leap then 1 else 0 in
  if m <=? 0 then 0 else if m <=? 1 then 31 else
  (if m <=? 2 then 59 else if m <=? 3 then 90 else if m <=? 4 then 120 else if m <=? 5 then 151
   else if m <=? 6 then 181 else if m <=? 7 then 212 else if m <=? 8 then 243
   else if m <=? 9 then 273 else if m <=? 10 then 304 else if m <=? 11 then 334 else 365) + l.

Definition month_of_day (leap : bool) (d : Z) : Z :=
  if d <? month_start leap 1 then 0 else if d <? month_start leap 2 then 1
  else if d <? month_start leap 3 then 2 else if d <? month_start leap 4 then 3
  else if d <? month_start leap 5 then 4 else if d <? month_start leap 6 then 5
  else if d <? month_start leap 7 then 6 else if d <? month_start leap 8 then 7
  else if d <? month_start leap 9 then 8 else if d <? month_start leap 10 then 9
  else if d <? month_start leap 11 then 10 else 11.

Definition utc_year (t : Z) : Z := year_from_day (day t).
Definition day_in_year (t : Z) : Z := day t - day_from_year (utc_year t).
Definition utc_month (t : Z) : Z := month_of_day (leap (utc_year t)) (day_in_year t).
Definition utc_date (t : Z) : Z :=
  day_in_year t - month_start (leap (utc_year t)) (utc_month t) + 1.

Definition make_day (y m d : Z) : Z :=
  let ym := y + m / 12 in
  let mn := m mod 12 in
  day_from_year ym + month_start (leap ym) mn + d - 1.

(** [Date.UTC(y, m, d)]: two-digit years are of the twentieth century; [None] is an invalid date. *)
Definition utc (y m d : Z) : option Z :=
  let yr := if (0 <=? y) && (y <=? 99) then 1900 + y else y in
  let t := make_day yr m d * ms_per_day in
  if valid t then Some t else None.

(** [w] decimal digits of [n], the most significant first. *)
Fixpoint digits (w : nat) (n : Z) : list ascii :=
  match w with
  | O => []
  | S w => digits w (n / 10) ++ [ascii_of_N (Z.to_N (n mod 10) + 48)]
  end.

Definition iso_year (y : Z) : list ascii :=
  if (0 <=? y) && (y <=? 9999) then digits 4 y
  else (if y <? 0 then "-"%char else "+"%char) :: digits 6 (Z.abs y).

Definition iso_chars (t : Z) : list ascii :=
  let s := time_within_day t in
  iso_year (utc_year t) ++ "-"%char :: digits 2 (utc_month t + 1) ++
  "-"%char :: digits 2 (utc_date t) ++ "T"%char :: digits 2 (s / 3600000) ++
  ":"%char :: digits 2 (s / 60000 mod 60) ++ ":"%char :: digits 2 (s / 1000 mod 60) ++
  "."%char :: digits 3 (s mod 1000) ++ ["Z"%char].

Definition to_iso (t : Z) : string := Str.of_chars (iso_chars t).

Definition lit (c : ascii) (l : list ascii) : option (list ascii) :=
  match l with c' :: l' => if Ascii.eqb c c' then Some l' else None | [] => None end.
Definition num (w : nat) (l : list ascii) : option (Z * list ascii) :=
  let d := firstn w l in
  if (length d =? w)%nat && forallb Str.is_digit d then Some (Str.digits_val d, skipn w l) else None.

Definition parse_year (l : list ascii) : option (Z * list ascii) :=
  match l with
  | c :: l' =>
      if Ascii.eqb c "+" then num 6 l'
      else if Ascii.eqb c "-" then
        r ← num 6 l';
        if r.1 =? 0 then None else Some (- r.1, r.2)
      else num 4 l
  | [] => None
  end.

(** [Date.parse] on the full date-time form ending in [Z]. *)
Definition parse_chars (l : list ascii) : option Z :=
  '(y, l) ← parse_year l; l ← lit "-" l;
  '(mo, l) ← num 2 l; l ← lit "-" l;
  '(d, l) ← num 2 l; l ← lit "T" l;
  '(h, l) ← num 2 l; l ← lit ":" l;
  '(mi, l) ← num 2 l; l ← lit ":" l;
  '(s, l) ← num 2 l; l ← lit "." l;
  '(ms, l) ← num 3 l;
  match l with
  | ["Z"%char] =>
      let dim := month_start (leap y) mo - month_start (leap y) (mo - 1) in
      if (1 <=? mo) && (mo <=? 12) && (1 <=? d) && (d <=? dim) && (h <=? 23) && (mi <=? 59) && (s <=? 59)
      then let t := make_day y (mo - 1) d * ms_per_day + h * 3600000 + mi * 60000 + s * 1000 + ms in
           if valid t then Some t else None
      else None
  | _ => None
  end.
Definition parse_iso (s : string) : option Z := parse_chars (Str.chars s).
End Date.

(** ** The calendar *)
Section calendar.
Import Date.

Lemma day_from_year_step y :
  day_from_year (y + 1) = day_from_year y + 365 + (if leap y then 1 else 0).
Proof.
  unfold day_from_year, leap.
  assert ((y + 1 - 1969) / 4 = (y - 1969) / 4 + (if y mod 4 =? 0 then 1 else 0)) as ->
    by (destruct (y mod 4 =? 0) eqn:E; bool_hyps; dm).
  assert ((y + 1 - 1901) / 100 = (y - 1901) / 100 + (if y mod 100 =? 0 then 1 else 0)) as ->
    by (destruct (y mod 100 =? 0) eqn:E; bool_hyps; dm).
  assert ((y + 1 - 1601) / 400 = (y - 1601) / 400 + (if y mod 400 =? 0 then 1 else 0)) as ->
    by (destruct (y mod 400 =? 0) eqn:E; bool_hyps; dm).
  destruct (y mod 4 =? 0) eqn:E4, (y mod 100 =? 0) eqn:E100, (y mod 400 =? 0) eqn:E400;
    cbn; bool_hyps; dm.
Qed.

Lemma day_from_year_mono y1 y2 : y1 <= y2 → day_from_year y1 <= day_from_year y2.
Proof. intros. unfold day_from_year. dm. Qed.

Lemma year_from_day_spec d :
  day_from_year (year_from_day d) <= d < day_from_year (year_from_day d + 1).
Proof.
  unfold year_from_day. set (y := 1970 + 400 * d / 146097).
  assert (day_from_year (y - 1) <= d < day_from_year (y + 2)) as [H1 H2].
  { unfold day_from_year, y. dm. }
  destruct (d <? day_from_year y) eqn:E1; [|destruct (day_from_year (y + 1) <=? d) eqn:E2]; bool_hyps.
  - by replace (y - 1 + 1) with y by lia.
  - by replace (y + 1 + 1) with (y + 2) by lia.
  - lia.
Qed.

Lemma year_from_day_unique d y : day_from_year y <= d < day_from_year (y + 1) → year_from_day d = y.
Proof.
  intros Hy. pose proof (year_from_day_spec d) as Hs.
  destruct (Z.lt_trichotomy (year_from_day d) y) as [Hl|[He|Hg]]; [|done|].
  - pose proof (day_from_year_mono (year_from_day d + 1) y). lia.
  - pose proof (day_from_year_mono (y + 1) (year_from_day d)). lia.
Qed.

Definition year_length (l : bool) : Z := 365 + (if l then 1 else 0).

Lemma month_of_day_spec l d :
  0 <= d < year_length l →
  0 <= month_of_day l d <= 11 ∧ month_start l (month_of_day l d) <= d < month_start l (month_of_day l d + 1).
Proof.
  unfold year_length, month_of_day. intros H. split_goal_ifs;
    bool_hyps; destruct l; unfold month_start in *; cbn in *; split_goal_ifs; bool_hyps; lia.
Qed.

Lemma month_start_mono l m1 m2 : m1 <= m2 → month_start l m1 <= month_start l m2.
Proof.
  intros H. unfold month_start.
  split_goal_ifs; bool_hyps; lia.
Qed.

Lemma month_of_day_unique l d m :
  0 <= m <= 11 → month_start l m <= d < month_start l (m + 1) → month_of_day l d = m.
Proof.
  intros Hm Hd. assert (0 <= d < year_length l) as Hr.
  { pose proof (month_start_mono l 0 m). pose proof (month_start_mono l (m + 1) 12).
    unfold year_length. destruct l; cbn in *; lia. }
  destruct (month_of_day_spec l d Hr) as [Hr1 Hr2].
  destruct (Z.lt_trichotomy (month_of_day l d) m) as [Hl|[He|Hg]]; [|done|].
  - pose proof (month_start_mono l (month_of_day l d + 1) m). lia.
  - pose proof (month_start_mono l (m + 1) (month_of_day l d)). lia.
Qed.

Lemma day_in_year_range t : 0 <= day_in_year t < year_length (leap (utc_year t)).
Proof.
  unfold day_in_year, utc_year, year_length.
  pose proof (year_from_day_spec (day t)) as H. rewrite day_from_year_step in H. lia.
Qed.

Lemma utc_month_spec t :
  0 <= utc_month t <= 11 ∧
  month_start (leap (utc_year t)) (utc_month t) <= day_in_year t <
  month_start (leap (utc_year t)) (utc_month t + 1).
Proof. apply month_of_day_spec, day_in_year_range. Qed.

(** *** Months as an index *)

(** The first day of month number [k], counted from January of year 0. *)
Definition month_day (k : Z) : Z := day_from_year (k / 12) + month_start (leap (k / 12)) (k mod 12).
Definition month_time (k : Z) : Z := month_day k * ms_per_day.
Definition month_index (t : Z) : Z := 12 * utc_year t + utc_month t.

Lemma month_index_div t : month_index t / 12 = utc_year t.
Proof. unfold month_index. pose proof (utc_month_spec t). dm. Qed.
Lemma month_index_mod t : month_index t mod 12 = utc_month t.
Proof. unfold month_index. pose proof (utc_month_spec t). dm. Qed.

Lemma month_day_next k :
  month_day (k + 1) = day_from_year (k / 12) + month_start (leap (k / 12)) (k mod 12 + 1).
Proof.
  unfold month_day. destruct (Z.eq_dec (k mod 12) 11) as [E|E].
  - assert ((k + 1) / 12 = k / 12 + 1) as -> by dm. assert ((k + 1) mod 12 = 0) as -> by dm.
    rewrite E, day_from_year_step. change (11 + 1) with 12. destruct (leap (k / 12)); cbn; lia.
  - assert ((k + 1) / 12 = k / 12) as -> by dm. assert ((k + 1) mod 12 = k mod 12 + 1) as -> by dm.
    done.
Qed.

Lemma month_day_lt k : month_day k < month_day (k + 1).
Proof.
  rewrite month_day_next. unfold month_day. assert (0 <= k mod 12 <= 11) by dm.
  unfold month_start.
  split_goal_ifs; bool_hyps; lia.
Qed.

Lemma month_day_mono k1 k2 : k1 <= k2 → month_day k1 <= month_day k2.
Proof.
  intros H. replace k2 with (k1 + Z.of_nat (Z.to_nat (k2 - k1))) by lia.
  induction (Z.to_nat (k2 - k1)) as [|n IH]; [by rewrite Z.add_0_r|].
  pose proof (month_day_lt (k1 + Z.of_nat n)) as Hl.
  replace (k1 + Z.of_nat (S n)) with (k1 + Z.of_nat n + 1) by lia. lia.
Qed.

(** Every instant lies in exactly one month. *)
Lemma month_index_spec t : month_time (month_index t) <= t < month_time (month_index t + 1).
Proof.
  unfold month_time. rewrite month_day_next. unfold month_day.
  rewrite month_index_div, month_index_mod. pose proof (utc_month_spec t) as [_ H].
  unfold day_in_year, day, ms_per_day in *. dm.
Qed.

Lemma month_index_unique t k : month_time k <= t < month_time (k + 1) → month_index t = k.
Proof.
  intros Hk. pose proof (month_index_spec t) as Hs. unfold month_time, ms_per_day in *.
  destruct (Z.lt_trichotomy (month_index t) k) as [Hl|[He|Hg]]; [|done|].
  - pose proof (month_day_mono (month_index t + 1) k). lia.
  - pose proof (month_day_mono (k + 1) (month_index t)). lia.
Qed.

Lemma month_index_start k : month_index (month_time k) = k.
Proof. apply month_index_unique. unfold month_time, ms_per_day. pose proof (month_day_lt k). lia. Qed.

Lemma make_day_month y m : make_day y m 1 = month_day (12 * y + m).
Proof.
  unfold make_day, month_day. assert ((12 * y + m) / 12 = y + m / 12) as -> by dm.
  assert ((12 * y + m) mod 12 = m mod 12) as -> by dm. lia.
Qed.
End calendar.

(** ** ISO strings *)
Section iso.
Import Date.

Lemma digits_length w n : length (digits w n) = w.
Proof. revert n; induction w as [|w IH]; intros n; cbn; [done|]. rewrite length_app, IH. cbn. lia. Qed.

Lemma digit_char n : 0 <= n < 10 →
  Str.is_digit (ascii_of_N (Z.to_N n + 48)) = true ∧ Str.digit_val (ascii_of_N (Z.to_N n + 48)) = n.
Proof.
  intros H. assert (n = 0 ∨ n = 1 ∨ n = 2 ∨ n = 3 ∨ n = 4 ∨ n = 5 ∨ n = 6 ∨ n = 7 ∨ n = 8 ∨ n = 9) by lia.
  by destruct_or?; subst.
Qed.

Lemma digits_are_digits w n : forallb Str.is_digit (digits w n) = true.
Proof.
  revert n; induction w as [|w IH]; intros n; [done|]. cbn [digits].
  rewrite forallb_app, IH. cbn. rewrite andb_true_r. apply digit_char. dm.
Qed.

Lemma digits_val_digits w n : 0 <= n < 10 ^ Z.of_nat w → Str.digits_val (digits w n) = n.
Proof.
  revert n; induction w as [|w IH]; intros n Hn; [cbn in *; lia|]. cbn [digits].
  rewrite Nat2Z.inj_succ, Z.pow_succ_r in Hn by lia.
  rewrite digits_val_snoc, IH by dm. rewrite (proj2 (digit_char (n mod 10) ltac:(dm))). dm.
Qed.

Lemma num_digits w n l : 0 <= n < 10 ^ Z.of_nat w → num w (digits w n ++ l) = Some (n, l).
Proof.
  intros Hn. unfold num. rewrite firstn_app, digits_length, Nat.sub_diag. cbn [firstn].
  rewrite app_nil_r, firstn_all2 by (rewrite digits_length; lia).
  rewrite digits_length, Nat.eqb_refl, digits_are_digits, digits_val_digits by done. cbn.
  rewrite skipn_app, digits_length, Nat.sub_diag. cbn.
  by rewrite skipn_all2 by (rewrite digits_length; lia).
Qed.

Lemma parse_year_digits y l : 0 <= y <= 9999 → parse_year (digits 4 y ++ l) = Some (y, l).
Proof.
  intros Hy. pose proof (num_digits 4 y l ltac:(lia)) as Hn. pose proof (digits_are_digits 4 y) as Hd.
  destruct (digits 4 y) as [|c k] eqn:E; [by pose proof (digits_length 4 y) as Hl; rewrite E in Hl|].
  cbn in Hd. apply andb_true_iff in Hd as [Hd _]. cbn [app] in *. unfold parse_year.
  destruct (Ascii.eqb c "+") eqn:E1; [apply Ascii.eqb_eq in E1; by subst|].
  destruct (Ascii.eqb c "-") eqn:E2; [apply Ascii.eqb_eq in E2; by subst|]. done.
Qed.

Lemma lit_same c l : lit c (c :: l) = Some l.
Proof. cbn. by rewrite Ascii.eqb_refl. Qed.

Lemma utc_date_spec t :
  1 <= utc_date t <= month_start (leap (utc_year t)) (utc_month t + 1) - month_start (leap (utc_year t)) (utc_month t).
Proof. unfold utc_date. pose proof (utc_month_spec t). lia. Qed.

Lemma utc_date_small t : utc_date t <= 31.
Proof.
  pose proof (utc_date_spec t) as [_ H]. pose proof (utc_month_spec t) as [Hm _].
  assert (∀ l m, 0 <= m <= 11 → month_start l (m + 1) - month_start l m <= 31) as Hs.
  { intros l m Hr. unfold month_start. destruct l; split_goal_ifs; bool_hyps; lia. }
  specialize (Hs (leap (utc_year t)) (utc_month t) Hm). lia.
Qed.

Lemma make_day_fields t : make_day (utc_year t) (utc_month t) (utc_date t) = day t.
Proof.
  unfold make_day. pose proof (utc_month_spec t) as [Hm _].
  rewrite Z.div_small, Z.mod_small by lia. rewrite Z.add_0_r. unfold utc_date, day_in_year. lia.
Qed.

Definition four_digit_year (t : Z) : Prop := 0 <= utc_year t <= 9999.

(** [Date.parse] undoes [toISOString]. *)
Lemma parse_to_iso t : valid t = true → four_digit_year t → parse_iso (to_iso t) = Some t.
Proof.
  intros Hv [Hy1 Hy2]. unfold parse_iso, to_iso. rewrite chars_of_chars. unfold iso_chars, iso_year.
  rewrite (proj2 (Z.leb_le 0 _) Hy1), (proj2 (Z.leb_le _ 9999) Hy2). cbn [andb].
  pose proof (utc_month_spec t) as [Hm _]. pose proof (utc_date_spec t). pose proof (utc_date_small t).
  assert (0 <= time_within_day t < ms_per_day) as Hw by (unfold time_within_day, ms_per_day; dm).
  set (w := time_within_day t) in *. unfold ms_per_day in Hw.
  unfold parse_chars.
  rewrite parse_year_digits by lia. cbn [mbind option_bind]. rewrite lit_same. cbn [mbind option_bind].
  do 4 (rewrite num_digits by (cbn; dm); cbn [mbind option_bind]; rewrite lit_same; cbn [mbind option_bind]).
  rewrite num_digits by (cbn; dm). cbn [mbind option_bind]. rewrite lit_same. cbn [mbind option_bind].
  rewrite num_digits by (cbn; dm). cbn [mbind option_bind].
  rewrite (proj2 (Z.leb_le 1 (utc_month t + 1))), (proj2 (Z.leb_le (utc_month t + 1) 12)) by lia.
  replace (utc_month t + 1 - 1) with (utc_month t) by lia.
  repeat match goal with |- context [?a <=? ?b] => rewrite (proj2 (Z.leb_le a b)) by dm end. cbn [andb].
  rewrite make_day_fields.
  replace (day t * ms_per_day + w / 3600000 * 3600000 + w / 60000 mod 60 * 60000 + w / 1000 mod 60 * 1000 + w mod 1000) with t
    by (unfold w, time_within_day, day, ms_per_day; dm).
  by rewrite Hv.
Qed.
End iso.

(** ** The string order of ISO timestamps is the order of time

    The tables store timestamps as text and every comparison on them is lexicographic; for years
    0..9999 that is the order of the instants. *)
Section iso_order.
Import Date.

Lemma ltb_app a b x y :
  length a = length b →
  Str.ltb (Str.of_chars (a ++ x)) (Str.of_chars (b ++ y)) =
  Str.ltb (Str.of_chars a) (Str.of_chars b) || (bool_decide (a = b) && Str.ltb (Str.of_chars x) (Str.of_chars y)).
Proof.
  revert b; induction a as [|c a IH]; intros [|d b] Hl; try done.
  cbn in Hl. cbn [app].
  assert (∀ e l, Str.of_chars (e :: l) = String e (Str.of_chars l)) as Hcons by done.
  rewrite !Hcons. cbn [Str.ltb]. rewrite IH by lia.
  destruct (Str.code c <? Str.code d)%N eqn:E1; [done|]. cbn [orb].
  destruct (Str.code c =? Str.code d)%N eqn:E2; cbn [andb orb].
  - apply N.eqb_eq, code_inj in E2 as ->. f_equal. f_equal.
    apply bool_decide_ext. split; [by intros ->|congruence].
  - symmetry. apply andb_false_iff. left. apply bool_decide_eq_false_2. intros [= -> _].
    by rewrite N.eqb_refl in E2.
Qed.

Lemma ltb_lit c x y : Str.ltb (Str.of_chars (c :: x)) (Str.of_chars (c :: y)) = Str.ltb (Str.of_chars x) (Str.of_chars y).
Proof. cbn. by rewrite N.ltb_irrefl, N.eqb_refl. Qed.

Lemma digits_eq w n m : 0 <= n < 10 ^ Z.of_nat w → 0 <= m < 10 ^ Z.of_nat w → digits w n = digits w m ↔ n = m.
Proof.
  intros Hn Hm. split; [|by intros ->]. intros H.
  rewrite <- (digits_val_digits w n), <- (digits_val_digits w m) by done. by rewrite H.
Qed.

Lemma digit_ltb n m : 0 <= n < 10 → 0 <= m < 10 →
  Str.ltb (Str.of_chars [ascii_of_N (Z.to_N n + 48)]) (Str.of_chars [ascii_of_N (Z.to_N m + 48)]) = (n <? m).
Proof.
  intros Hn Hm. cbn. unfold Str.code. rewrite !N_ascii_embedding by lia. rewrite andb_false_r, orb_false_r.
  destruct (n <? m) eqn:E; bool_hyps; [apply N.ltb_lt|apply N.ltb_ge]; lia.
Qed.

Lemma ltb_digits w n m : 0 <= n < 10 ^ Z.of_nat w → 0 <= m < 10 ^ Z.of_nat w →
  Str.ltb (Str.of_chars (digits w n)) (Str.of_chars (digits w m)) = (n <? m).
Proof.
  revert n m; induction w as [|w IH]; intros n m Hn Hm.
  { cbn in *. symmetry. apply Z.ltb_ge. lia. }
  rewrite Nat2Z.inj_succ, Z.pow_succ_r in Hn, Hm by lia. cbn [digits].
  assert (0 <= n / 10 < 10 ^ Z.of_nat w ∧ 0 <= m / 10 < 10 ^ Z.of_nat w) as [Hn' Hm'] by dm.
  rewrite ltb_app by (by rewrite !digits_length). rewrite IH, digit_ltb by dm.
  destruct (n / 10 <? m / 10) eqn:E1; cbn; bool_hyps.
  { symmetry. apply Z.ltb_lt. dm. }
  destruct (Z.eq_dec (n / 10) (m / 10)) as [E|E].
  - rewrite bool_decide_eq_true_2 by (by rewrite E). cbn.
    destruct (n mod 10 <? m mod 10) eqn:E2; bool_hyps; symmetry; [apply Z.ltb_lt|apply Z.ltb_ge]; dm.
  - rewrite bool_decide_eq_false_2 by (by rewrite digits_eq). cbn. symmetry. apply Z.ltb_ge. dm.
Qed.

(** Comparing two strings that start with a number field of the same width. *)
Lemma ltb_field w n m x y : 0 <= n < 10 ^ Z.of_nat w → 0 <= m < 10 ^ Z.of_nat w →
  Str.ltb (Str.of_chars (digits w n ++ x)) (Str.of_chars (digits w m ++ y)) =
  (n <? m) || ((n =? m) && Str.ltb (Str.of_chars x) (Str.of_chars y)).
Proof.
  intros Hn Hm. rewrite ltb_app by (by rewrite !digits_length). rewrite ltb_digits by done.
  f_equal. f_equal. destruct (n =? m) eqn:E; bool_hyps.
  - subst. by apply bool_decide_eq_true_2.
  - apply bool_decide_eq_false_2. by rewrite digits_eq.
Qed.

Lemma day_lt_year t1 t2 : utc_year t1 < utc_year t2 → day t1 < day t2.
Proof.
  intros H. pose proof (day_in_year_range t1) as H1. pose proof (day_in_year_range t2) as H2.
  unfold day_in_year, year_length in *. pose proof (day_from_year_step (utc_year t1)).
  pose proof (day_from_year_mono (utc_year t1 + 1) (utc_year t2)). lia.
Qed.

Lemma day_lt_month t1 t2 : utc_year t1 = utc_year t2 → utc_month t1 < utc_month t2 → day t1 < day t2.
Proof.
  intros Hy Hm. pose proof (utc_month_spec t1) as [_ H1]. pose proof (utc_month_spec t2) as [_ H2].
  unfold day_in_year in *. rewrite <- Hy in *.
  pose proof (month_start_mono (leap (utc_year t1)) (utc_month t1 + 1) (utc_month t2)). lia.
Qed.

Lemma day_by_date t1 t2 : utc_year t1 = utc_year t2 → utc_month t1 = utc_month t2 →
  day t1 - day t2 = utc_date t1 - utc_date t2.
Proof. intros Hy Hm. unfold utc_date, day_in_year. rewrite Hy, Hm. lia. Qed.

(** The date fields, compared in order, compare the day numbers. *)
Lemma day_ltb t1 t2 :
  (utc_year t1 <? utc_year t2) || ((utc_year t1 =? utc_year t2) &&
    ((utc_month t1 + 1 <? utc_month t2 + 1) || ((utc_month t1 + 1 =? utc_month t2 + 1) &&
      ((utc_date t1 <? utc_date t2) || ((utc_date t1 =? utc_date t2) && false))))) = (day t1 <? day t2).
Proof.
  symmetry. rewrite andb_false_r, orb_false_r.
  destruct (Z.lt_trichotomy (utc_year t1) (utc_year t2)) as [Hy|[Hy|Hy]].
  - rewrite (proj2 (Z.ltb_lt _ _) Hy). apply Z.ltb_lt. by apply day_lt_year.
  - rewrite Hy, Z.ltb_irrefl, Z.eqb_refl. cbn.
    destruct (Z.lt_trichotomy (utc_month t1) (utc_month t2)) as [Hm|[Hm|Hm]].
    + rewrite (proj2 (Z.ltb_lt (utc_month t1 + 1) _)) by lia. apply Z.ltb_lt. by apply day_lt_month.
    + rewrite Hm, Z.ltb_irrefl, Z.eqb_refl. cbn. pose proof (day_by_date t1 t2 Hy Hm).
      destruct (utc_date t1 <? utc_date t2) eqn:E; bool_hyps; [apply Z.ltb_lt|apply Z.ltb_ge]; lia.
    + rewrite (proj2 (Z.ltb_ge (utc_month t1 + 1) _)), (proj2 (Z.eqb_neq (utc_month t1 + 1) _)) by lia.
      cbn. apply Z.ltb_ge. pose proof (day_lt_month t2 t1). lia.
  - rewrite (proj2 (Z.ltb_ge (utc_year t1) _)), (proj2 (Z.eqb_neq (utc_year t1) _)) by lia.
    cbn. apply Z.ltb_ge. pose proof (day_lt_year t2 t1). lia.
Qed.

Lemma day_eqb t1 t2 :
  (utc_year t1 =? utc_year t2) && ((utc_month t1 + 1 =? utc_month t2 + 1) && (utc_date t1 =? utc_date t2)) =
  (day t1 =? day t2).
Proof.
  destruct (day t1 =? day t2) eqn:E; bool_hyps.
  - assert (utc_year t1 = utc_year t2) as Hy by (unfold utc_year; by rewrite E).
    assert (utc_month t1 = utc_month t2) as Hm by (unfold utc_month, day_in_year; by rewrite Hy, E).
    pose proof (day_by_date t1 t2 Hy Hm). rewrite Hy, Hm, !Z.eqb_refl. cbn. apply Z.eqb_eq. lia.
  - destruct (utc_year t1 =? utc_year t2) eqn:Hy; [|done].
    destruct (utc_month t1 + 1 =? utc_month t2 + 1) eqn:Hm; [|done]. bool_hyps. cbn.
    pose proof (day_by_date t1 t2 Hy ltac:(lia)). apply Z.eqb_neq. lia.
Qed.

(** Splitting a chain of field comparisons at a prefix of the fields. *)
Lemma lex_split a b c a' b' c' r :
  a || (a' && (b || (b' && (c || (c' && r))))) =
  (a || (a' && (b || (b' && (c || (c' && false)))))) || ((a' && (b' && c')) && r).
Proof. by destruct a, b, c, a', b', c', r. Qed.

Lemma time_ltb w1 w2 :
  0 <= w1 < ms_per_day → 0 <= w2 < ms_per_day →
  (w1 / 3600000 <? w2 / 3600000) || ((w1 / 3600000 =? w2 / 3600000) &&
    ((w1 / 60000 mod 60 <? w2 / 60000 mod 60) || ((w1 / 60000 mod 60 =? w2 / 60000 mod 60) &&
      ((w1 / 1000 mod 60 <? w2 / 1000 mod 60) || ((w1 / 1000 mod 60 =? w2 / 1000 mod 60) &&
        (w1 mod 1000 <? w2 mod 1000)))))) = (w1 <? w2).
Proof.
  unfold ms_per_day. intros H1 H2. symmetry.
  destruct (w1 / 3600000 <? w2 / 3600000) eqn:E1; cbn; bool_hyps; [apply Z.ltb_lt; dm|].
  destruct (w1 / 3600000 =? w2 / 3600000) eqn:E2; cbn; bool_hyps; [|apply Z.ltb_ge; dm].
  destruct (w1 / 60000 mod 60 <? w2 / 60000 mod 60) eqn:E3; cbn; bool_hyps; [apply Z.ltb_lt; dm|].
  destruct (w1 / 60000 mod 60 =? w2 / 60000 mod 60) eqn:E4; cbn; bool_hyps; [|apply Z.ltb_ge; dm].
  destruct (w1 / 1000 mod 60 <? w2 / 1000 mod 60) eqn:E5; cbn; bool_hyps; [apply Z.ltb_lt; dm|].
  destruct (w1 / 1000 mod 60 =? w2 / 1000 mod 60) eqn:E6; cbn; bool_hyps; [|apply Z.ltb_ge; dm].
  destruct (w1 mod 1000 <? w2 mod 1000) eqn:E7; bool_hyps; [apply Z.ltb_lt; dm|apply Z.ltb_ge; dm].
Qed.

Theorem iso_ltb t1 t2 : four_digit_year t1 → four_digit_year t2 →
  Str.ltb (to_iso t1) (to_iso t2) = (t1 <? t2).
Proof.
  intros Hy1 Hy2. unfold to_iso, iso_chars, iso_year, four_digit_year in *.
  rewrite (proj2 (Z.leb_le 0 (utc_year t1))), (proj2 (Z.leb_le 0 (utc_year t2))),
    (proj2 (Z.leb_le (utc_year t1) 9999)), (proj2 (Z.leb_le (utc_year t2) 9999)) by lia. cbn [andb].
  pose proof (utc_month_spec t1) as [Hm1 _]. pose proof (utc_date_spec t1). pose proof (utc_date_small t1).
  pose proof (utc_month_spec t2) as [Hm2 _]. pose proof (utc_date_spec t2). pose proof (utc_date_small t2).
  assert (0 <= time_within_day t1 < ms_per_day) as Hw1 by (unfold time_within_day, ms_per_day; dm).
  assert (0 <= time_within_day t2 < ms_per_day) as Hw2 by (unfold time_within_day, ms_per_day; dm).
  pose proof (time_ltb _ _ Hw1 Hw2) as Htw.
  assert (t1 = day t1 * ms_per_day + time_within_day t1) as Ht1
    by (unfold day, time_within_day, ms_per_day; dm).
  assert (t2 = day t2 * ms_per_day + time_within_day t2) as Ht2
    by (unfold day, time_within_day, ms_per_day; dm).
  set (w1 := time_within_day t1) in *. set (w2 := time_within_day t2) in *.
  unfold ms_per_day in *.
  rewrite ltb_field, ltb_lit, ltb_field, ltb_lit, ltb_field, ltb_lit by (cbn; lia).
  rewrite ltb_field, ltb_lit, ltb_field, ltb_lit, ltb_field, ltb_lit, ltb_field by (cbn; dm).
  rewrite ltb_irrefl, andb_false_r, orb_false_r, Htw, lex_split, day_ltb, day_eqb.
  destruct (day t1 <? day t2) eqn:E1; cbn; bool_hyps; [symmetry; apply Z.ltb_lt; lia|].
  destruct (day t1 =? day t2) eqn:E2; cbn; bool_hyps; [|symmetry; apply Z.ltb_ge; lia].
  destruct (w1 <? w2) eqn:E3; bool_hyps; symmetry; [apply Z.ltb_lt|apply Z.ltb_ge]; lia.
Qed.

Lemma iso_leb t1 t2 : four_digit_year t1 → four_digit_year t2 →
  Str.leb (to_iso t1) (to_iso t2) = (t1 <=? t2).
Proof. intros. unfold Str.leb. rewrite iso_ltb by done. by rewrite Z.leb_antisym. Qed.
End iso_order.

(** ** Padding *)
Section padding.
Import Date.

Lemma chars_repeat c n : Str.chars (Str.repeat_char c n) = replicate n c.
Proof. induction n as [|n IH]; [done|]. exact (f_equal (cons c) IH). Qed.

Lemma digits_unique l : forallb Str.is_digit l = true → digits (length l) (Str.digits_val l) = l.
Proof.
  induction l as [|c l IH] using rev_ind; [done|]. rewrite forallb_app. intros [Hl Hc]%andb_true_iff.
  rewrite length_app, Nat.add_comm. cbn [digits length Nat.add]. rewrite digits_val_snoc.
  cbn in Hc. rewrite andb_true_r in Hc. unfold Str.is_digit in Hc.
  apply andb_true_iff in Hc as [H1%N.leb_le H2%N.leb_le].
  assert (0 <= Str.digit_val c <= 9) as Hd by (unfold Str.digit_val; lia).
  replace ((Str.digits_val l * 10 + Str.digit_val c) / 10) with (Str.digits_val l) by dm.
  replace ((Str.digits_val l * 10 + Str.digit_val c) mod 10) with (Str.digit_val c) by dm.
  rewrite IH by done. do 2 f_equal. unfold Str.digit_val, Str.code in *.
  replace (Z.to_N (Z.of_N (N_of_ascii c) - 48) + 48)%N with (N_of_ascii c) by lia.
  apply ascii_N_embedding.
Qed.

Lemma digits_val_zeros n l : Str.digits_val (replicate n "0"%char ++ l) = Str.digits_val l.
Proof.
  unfold Str.digits_val. rewrite fold_left_app. f_equal.
  induction n as [|n IH]; [done|]. exact IH.
Qed.

(** [String(n).padStart(w, "0")] is the [w] digits of [n]. *)
Lemma pad_digits w n : (0 < w)%nat → 0 <= n < 10 ^ Z.of_nat w →
  Str.pad_start w "0"%char (Str.of_int n) = Str.of_chars (digits w n).
Proof.
  intros Hw Hn. destruct (of_int_spec_length n) as (Hd & Hv & Hlen); [lia|].
  specialize (Hlen w (proj2 Hn) Hw). unfold Str.all_digits in Hd. apply andb_true_iff in Hd as [_ Hd].
  rewrite <- (of_chars_chars (Str.pad_start _ _ _)). f_equal. unfold Str.pad_start.
  rewrite chars_append, chars_repeat.
  assert (String.length (Str.of_int n) = length (Str.chars (Str.of_int n))) as ->.
  { generalize (Str.of_int n). intros s. induction s as [|c s IH]; [done|]. exact (f_equal S IH). }
  set (l := Str.chars (Str.of_int n)) in *.
  rewrite <- (digits_unique (replicate (w - length l) "0"%char ++ l)).
  - rewrite length_app, length_replicate, digits_val_zeros. fold (Str.parse_digits (Str.of_int n)).
    change (Str.digits_val l) with (Str.parse_digits (Str.of_int n)). rewrite Hv.
    by replace (w - length l + length l)%nat with w by lia.
  - rewrite forallb_app, Hd, andb_true_r. clear. induction (w - length l)%nat as [|k IH]; done.
Qed.
End padding.
