(* ===== verification/BillingPeriod.v ===== *)
(** * Billing periods (src/meter-period.ts)

    The UTC calendar month as a key and a half-open window of ISO timestamps.  A [Date] argument is a
    time value, [None] being an invalid date. *)

From S2P Require Export JsDate.
From Stdlib Require Import Ascii.
Open Scope string_scope.
Open Scope list_scope.
Open Scope Z_scope.
Open Scope plane_scope.

Record BillingPeriod := mkPeriod {
  key : string;
  windowStart : string;
  windowEnd : string;
}.

#[export] Instance BillingPeriod_eq_dec : EqDecision BillingPeriod.
Proof. solve_decision. Defined.

Definition pad (n : Z) : string := Str.pad_start 2 "0"%char (Str.of_int n).
Definition pad4 (n : Z) : string := Str.pad_start 4 "0"%char (Str.of_int n).

(** [toISOString] of an invalid date throws. *)
Definition iso_or_throw (t : option Z) : result string string :=
  of_option "RangeError: Invalid time value" (Date.to_iso <$> t).

Definition billingPeriodContaining (at_ : option Z) : result string BillingPeriod :=
  let y := Date.utc_year <$> at_ in
  let m := Date.utc_month <$> at_ in
  let start := y ← y; m ← m; Date.utc y m 1 in
  let end_ := y ← y; m ← m; Date.utc y (m + 1) 1 in
  s ← iso_or_throw start;
  e ← iso_or_throw end_;
  match y, m with
  | Some y, Some m => Ok (mkPeriod (pad4 y +:+ "-" +:+ pad (m + 1)) s e)
  | _, _ => Err "RangeError: Invalid time value"
  end.

(** [new Date(t)] *)
Definition new_date (t : Z) : option Z := if Date.valid t then Some t else None.

Definition lastClosedBillingPeriod (now : option Z) : result string BillingPeriod :=
  current ← billingPeriodContaining now;
  billingPeriodContaining
    (t ← Date.parse_iso (windowStart current); new_date (t - 1)).

(** [Date.parse(period.windowEnd) <= now.getTime()], false when either is NaN. *)
Definition billingPeriodIsClosed (period : BillingPeriod) (now : option Z) : bool :=
  match Date.parse_iso (windowEnd period), now with
  | Some e, Some n => e <=? n
  | _, _ => false
  end.

(** [/^(\d{4})-(\d{2})$/] *)
Definition match_key (s : string) : option (Z * Z) :=
  '(y, l) ← Date.num 4 (Str.chars s);
  l ← Date.lit "-"%char l;
  '(m, l) ← Date.num 2 l;
  match l with [] => Some (y, m) | _ => None end.

Definition parseBillingPeriodKey (key_ : string) : result string (option BillingPeriod) :=
  match match_key (Str.trim key_) with
  | None => Ok None
  | Some (year, month) =>
      if (month <? 1) || (12 <? month) then Ok None
      else
        period ← billingPeriodContaining (Date.utc year (month - 1) 1);
        Ok (if key period =s? Str.trim key_ then Some period else None)
  end.

(** ** Lemmas *)
Section periods.
Import Date.

(** Dates the plane can meet: years 100 to 9998. *)
Definition ordinary (t : Z) : Prop := 100 <= utc_year t <= 9998.
Definition ordinary_month (k : Z) : Prop := 1200 <= k < 119988.

Definition period_of_month (k : Z) : BillingPeriod :=
  mkPeriod (pad4 (k / 12) +:+ "-" +:+ pad (k mod 12 + 1)) (to_iso (month_time k)) (to_iso (month_time (k + 1))).

Lemma ordinary_month_index t : ordinary t ↔ ordinary_month (month_index t).
Proof. unfold ordinary, ordinary_month, month_index. pose proof (utc_month_spec t) as [Hm _]. lia. Qed.

Lemma month_time_valid k : 0 <= k <= 120000 → valid (month_time k) = true.
Proof.
  intros Hk. unfold valid. apply Z.leb_le. unfold month_time, ms_per_day, max_time.
  pose proof (month_day_mono 0 k) as H0. pose proof (month_day_mono k 120000) as H1.
  assert (month_day 0 = -719528) as E0 by reflexivity.
  assert (month_day 120000 = 2932897) as E1 by reflexivity. lia.
Qed.

Lemma utc_first_of_month y m : 100 <= y → 0 <= 12 * y + m <= 120000 →
  utc y m 1 = Some (month_time (12 * y + m)).
Proof.
  intros Hy Hk. unfold utc. rewrite (proj2 (Z.leb_gt y 99)) by lia. rewrite andb_false_r.
  rewrite make_day_month. fold (month_time (12 * y + m)). by rewrite month_time_valid.
Qed.

Lemma period_containing t : ordinary t →
  billingPeriodContaining (Some t) = Ok (period_of_month (month_index t)).
Proof.
  intros Ho. pose proof (utc_month_spec t) as [Hm _]. unfold ordinary in Ho.
  unfold billingPeriodContaining. cbn [fmap option_fmap option_map mbind option_bind].
  rewrite !utc_first_of_month by lia. cbn.
  rewrite <- (month_index_div t), <- (month_index_mod t).
  replace (12 * (month_index t / 12) + month_index t mod 12) with (month_index t) by dm.
  by replace (12 * (month_index t / 12) + (month_index t mod 12 + 1)) with (month_index t + 1) by dm.
Qed.

Lemma ordinary_month_time k : ordinary_month k → ordinary (month_time k).
Proof. intros. apply ordinary_month_index. by rewrite month_index_start. Qed.

Lemma month_time_four_digits k : 0 <= k < 120000 → four_digit_year (month_time k).
Proof.
  intros Hk. unfold four_digit_year. rewrite <- (month_index_div (month_time k)), month_index_start. dm.
Qed.

Lemma month_start_parses k : 0 <= k < 120000 → parse_iso (to_iso (month_time k)) = Some (month_time k).
Proof. intros. apply parse_to_iso; [apply month_time_valid; lia|by apply month_time_four_digits]. Qed.

Lemma previous_month k : month_index (month_time k - 1) = k - 1.
Proof.
  apply month_index_unique. replace (k - 1 + 1) with k by lia.
  unfold month_time, ms_per_day. pose proof (month_day_lt (k - 1)) as H.
  replace (k - 1 + 1) with k in H by lia. lia.
Qed.

Lemma valid_before_month k : 0 <= k <= 120000 → valid (month_time k - 1) = true.
Proof.
  intros Hk. pose proof (month_time_valid k Hk) as Hv. unfold valid in *. bool_hyps. apply Z.leb_le.
  unfold month_time, ms_per_day, max_time in *.
  pose proof (month_day_mono 0 k) as H0. assert (month_day 0 = -719528) as E0 by reflexivity. lia.
Qed.

Lemma period_of_month_inj k1 k2 : 0 <= k1 < 120000 → 0 <= k2 < 120000 →
  windowStart (period_of_month k1) = windowStart (period_of_month k2) → k1 = k2.
Proof.
  intros H1 H2 Heq. cbn in Heq. rewrite <- (month_index_start k1), <- (month_index_start k2). f_equal.
  apply (f_equal parse_iso) in Heq. rewrite !month_start_parses in Heq by done. by simplify_eq.
Qed.

Lemma key_digits k : ordinary_month k →
  key (period_of_month k) = Str.of_chars (digits 4 (k / 12) ++ "-"%char :: digits 2 (k mod 12 + 1)).
Proof.
  unfold ordinary_month. intros Hk. cbn. unfold pad4, pad. rewrite !pad_digits by (cbn; dm).
  rewrite <- (of_chars_chars (Str.of_chars (digits 4 _) +:+ _)). f_equal.
Qed.

Lemma match_key_digits y m : 0 <= y <= 9999 → 0 <= m <= 99 →
  match_key (Str.of_chars (digits 4 y ++ "-"%char :: digits 2 m)) = Some (y, m).
Proof.
  intros Hy Hm. unfold match_key. rewrite chars_of_chars, num_digits by (cbn; lia).
  cbn [mbind option_bind]. rewrite lit_same. cbn [mbind option_bind].
  rewrite <- (app_nil_r (digits 2 m)), num_digits by (cbn; lia). done.
Qed.

Lemma key_trim k : ordinary_month k → Str.trim (key (period_of_month k)) = key (period_of_month k).
Proof.
  intros Hk. rewrite key_digits by done. apply trim_id; rewrite chars_of_chars.
  - pose proof (digits_are_digits 4 (k / 12)) as Hd. pose proof (digits_length 4 (k / 12)) as Hl.
    destruct (digits 4 (k / 12)) as [|c l]; [done|]. cbn in *. apply is_digit_not_space.
    by apply andb_true_iff in Hd as [].
  - rewrite rev_app_distr. cbn [rev]. cbn [digits]. rewrite !rev_app_distr. cbn.
    apply is_digit_not_space. apply digit_char. dm.
Qed.

(** Conversion must not compute with the calendar: the lemmas carry it. *)
#[local] Opaque Date.to_iso Date.parse_iso month_time.

Lemma isClosed_month k n : 0 <= k < 119999 →
  billingPeriodIsClosed (period_of_month k) (Some n) = (month_time (k + 1) <=? n).
Proof.
  intros Hk. unfold billingPeriodIsClosed, period_of_month. cbn [windowEnd].
  by rewrite month_start_parses by lia.
Qed.

Lemma lastClosed_month now : ordinary now → 1200 < month_index now →
  lastClosedBillingPeriod (Some now) = Ok (period_of_month (month_index now - 1)).
Proof.
  intros Ho Hlow. pose proof (proj1 (ordinary_month_index now) Ho) as Hk. unfold ordinary_month in Hk.
  unfold lastClosedBillingPeriod. rewrite period_containing by done. cbn [mbind result_bind].
  unfold period_of_month at 1. cbn [windowStart]. rewrite month_start_parses by lia.
  cbn [mbind option_bind]. unfold new_date. rewrite valid_before_month by lia.
  rewrite period_containing; [by rewrite previous_month|].
  apply ordinary_month_index. rewrite previous_month. unfold ordinary_month. lia.
Qed.
End periods.

(** ** Properties *)

Section properties.
Import Date.

(** The billing period of an instant is the half-open UTC month around it, as timestamps: for
    any instants of the years 100 to 9998, the second falls between the period's two timestamps,
    compared as the text the tables compare, exactly when its own period is that one.  Periods
    therefore partition time: no instant is in two of them and none is in none. *)
Lemma instant_in_period t t' p :
  ordinary t → ordinary t' → billingPeriodContaining (Some t) = Ok p →
  ((windowStart p <=s? to_iso t') && (to_iso t' <s? windowEnd p) = true ↔
   billingPeriodContaining (Some t') = Ok p).
Proof.
  intros Ho Ho' Hp. rewrite period_containing in Hp by done. apply Ok_inj in Hp as <-.
  rewrite period_containing by done. pose proof (proj1 (ordinary_month_index t) Ho) as Hk.
  pose proof (proj1 (ordinary_month_index t') Ho') as Hk'. unfold ordinary_month in *. cbn.
  assert (four_digit_year t') by (unfold four_digit_year, ordinary in *; lia).
  rewrite iso_leb, iso_ltb by (done || (apply month_time_four_digits; lia)).
  rewrite andb_true_iff, Z.leb_le, Z.ltb_lt. split.
  - intros H'. by rewrite (month_index_unique t' (month_index t)).
  - intros Heq%Ok_inj. assert (month_index t' = month_index t) as <-; [|apply month_index_spec].
    apply period_of_month_inj; [lia..|]. by rewrite Heq.
Qed.

(** The period a settlement defaults to is closed, is not the one now running, and ends exactly
    where the current one starts: no instant falls between them. *)
Theorem lastClosed_adjacent now p :
  ordinary now → 1200 < month_index now → lastClosedBillingPeriod (Some now) = Ok p →
  billingPeriodIsClosed p (Some now) = true ∧
  ∃ cur, billingPeriodContaining (Some now) = Ok cur ∧ windowEnd p = windowStart cur ∧ p ≠ cur ∧
         billingPeriodIsClosed cur (Some now) = false.
Proof.
  intros Ho Hlow Hp. rewrite lastClosed_month in Hp by done. apply Ok_inj in Hp as <-.
  pose proof (proj1 (ordinary_month_index now) Ho) as Hk. unfold ordinary_month in Hk.
  pose proof (month_index_spec now) as Hs.
  rewrite isClosed_month by lia. rewrite Z.sub_add. split; [apply Z.leb_le; lia|].
  exists (period_of_month (month_index now)). rewrite period_containing, isClosed_month by (done || lia).
  split_and!; [done|..].
  - unfold period_of_month at 1 2. cbn [windowStart windowEnd]. by rewrite Z.sub_add.
  - intros Heq. apply (f_equal windowStart) in Heq. apply period_of_month_inj in Heq; lia.
  - apply Z.leb_gt. lia.
Qed.

(** Round trip: every key the generator emits parses back to its period, and a key that parses
    is the key of the period returned, up to surrounding whitespace. *)
Theorem parseKey_roundtrip t p :
  ordinary t → billingPeriodContaining (Some t) = Ok p → parseBillingPeriodKey (key p) = Ok (Some p).
Proof.
  intros Ho Hp. rewrite period_containing in Hp by done. apply Ok_inj in Hp as <-.
  pose proof (proj1 (ordinary_month_index t) Ho) as Hk. set (k := month_index t) in *.
  unfold parseBillingPeriodKey. rewrite key_trim by done. unfold ordinary_month in Hk.
  rewrite key_digits at 1 by done. rewrite match_key_digits by dm.
  rewrite (proj2 (Z.ltb_ge (k mod 12 + 1) 1)), (proj2 (Z.ltb_ge 12 (k mod 12 + 1))) by dm. cbn [orb].
  rewrite utc_first_of_month by dm. replace (12 * (k / 12) + (k mod 12 + 1 - 1)) with k by dm.
  rewrite period_containing by (by apply ordinary_month_time). rewrite month_index_start.
  cbn [mbind result_bind]. by rewrite String.eqb_refl.
Qed.

(** A parsed key is the (trimmed) text it was parsed from. *)
Theorem parseKey_faithful s p : parseBillingPeriodKey s = Ok (Some p) → key p = Str.trim s.
Proof.
  unfold parseBillingPeriodKey. destruct (match_key _) as [[y m]|]; [|done].
  destruct ((m <? 1) || (12 <? m)); [done|].
  destruct (billingPeriodContaining _) as [q|]; [|done]. cbn.
  destruct (key q =s? Str.trim s) eqn:E; [|done]. intros [= ->]. by bool_hyps.
Qed.

(** A calendar year below 100 does not survive [Date.UTC]: the period generated for such an
    instant carries its own four-digit key but the window of the same month in the twentieth
    century, and the parser refuses that key. *)
Theorem two_digit_year_keys_refused t :
  0 <= utc_year t <= 99 →
  ∃ p, billingPeriodContaining (Some t) = Ok p ∧
       windowStart p = to_iso (month_time (month_index t + 12 * 1900)) ∧
       parseBillingPeriodKey (key p) = Ok None.
Proof.
  intros Hy. pose proof (utc_month_spec t) as [Hm _].
  set (y := utc_year t) in *. set (m := utc_month t) in *.
  assert (∀ m', 0 <= m' <= 12 → utc y m' 1 = Some (month_time (12 * (1900 + y) + m'))) as Hutc.
  { intros m' Hm'. unfold utc. rewrite (proj2 (Z.leb_le 0 y)), (proj2 (Z.leb_le y 99)) by lia. cbn [andb].
    rewrite make_day_month. fold (month_time (12 * (1900 + y) + m')). by rewrite month_time_valid by lia. }
  eexists. split; [|split].
  - unfold billingPeriodContaining. cbn [fmap option_fmap option_map mbind option_bind]. fold y m.
    rewrite !Hutc by lia. reflexivity.
  - cbn. do 2 f_equal. unfold month_index. fold y m. lia.
  - cbn [key]. unfold pad4, pad. rewrite !pad_digits by (cbn; lia).
    set (kk := Str.of_chars (digits 4 y ++ "-"%char :: digits 2 (m + 1))).
    assert (Str.of_chars (digits 4 y) +:+ "-" +:+ Str.of_chars (digits 2 (m + 1)) = kk) as ->.
    { unfold kk. rewrite <- (of_chars_chars (Str.of_chars (digits 4 _) +:+ _)). f_equal. }
    assert (Str.trim kk = kk) as Htrim.
    { unfold kk. apply trim_id; rewrite chars_of_chars.
      - pose proof (digits_are_digits 4 y) as Hd. pose proof (digits_length 4 y) as Hl.
        destruct (digits 4 y) as [|c l]; [done|]. cbn in *. apply is_digit_not_space.
        by apply andb_true_iff in Hd as [].
      - rewrite rev_app_distr. cbn [rev digits]. rewrite !rev_app_distr. cbn.
        apply is_digit_not_space. apply digit_char. dm. }
    unfold parseBillingPeriodKey. rewrite Htrim. unfold kk at 1. rewrite match_key_digits by lia.
    rewrite (proj2 (Z.ltb_ge (m + 1) 1)), (proj2 (Z.ltb_ge 12 (m + 1))) by lia. cbn [orb].
    replace (m + 1 - 1) with m by lia. rewrite Hutc by lia.
    rewrite period_containing by (apply ordinary_month_time; unfold ordinary_month; lia).
    rewrite month_index_start. cbn [mbind result_bind].
    destruct (_ =s? kk) eqn:E; [|done]. exfalso. bool_hyps.
    rewrite key_digits in E by (unfold ordinary_month; lia).
    apply (f_equal match_key) in E. unfold kk in E. rewrite !match_key_digits in E by dm. injection E. dm.
Qed.
End properties.
