(* ===== verification/Sql.v ===== *)
(** * Statement semantics shared by the tables

    The D1 database runs SQLite: a table is a list of rows in insertion order, a statement a pass over
    it.  Here are the pieces every table's statements use, and the lemmas on them. *)

From S2P Require Export Js.
From stdpp Require Import sorting.
Open Scope string_scope.
Open Scope list_scope.
Open Scope Z_scope.
Open Scope plane_scope.

(** D1 runs a batch as one transaction: a throwing statement undoes the batch. *)
Definition transaction {S E A} (m : M S E A) : M S E A := λ s,
  match m s with
  | (Ok a, s') => (Ok a, s')
  | (Err e, _) => (Err e, s)
  end.

(** [UPDATE ... WHERE p]: the rows matching [p] go through [f]; the answer is [meta.changes]. *)
Definition update_where {A} (p : A → bool) (f : A → A) (l : list A) : list A :=
  (λ x, if p x then f x else x) <$> l.
Definition changes {A} (p : A → bool) (l : list A) : nat := length (jfilter p l).

(** [SUM] over integers: the engine throws when a running sum leaves the 64-bit range. *)
Definition in_int64 (z : Z) : bool := (- 2 ^ 63 <=? z) && (z <? 2 ^ 63).
Fixpoint sql_sum_from (acc : Z) (l : list Z) : result string Z :=
  match l with
  | [] => Ok acc
  | x :: l' =>
      if in_int64 (acc + x) then sql_sum_from (acc + x) l' else Err "integer overflow"
  end.
(** [COALESCE(SUM(..), 0)] read back as a number. *)
Definition sql_sum (l : list Z) : result string Z := Num.rnd <$> sql_sum_from 0 l.

(** [ORDER BY k1 DESC, k2 DESC] and [ORDER BY k1, k2], by insertion. *)
Definition desc_le (a b : string * string) : bool :=
  (b.1 <s? a.1) || ((a.1 =s? b.1) && (b.2 <=s? a.2)).
Fixpoint insert_by {A} (le : A → A → bool) (x : A) (l : list A) : list A :=
  match l with
  | [] => [x]
  | y :: l' => if le x y then x :: l else y :: insert_by le x l'
  end.
Definition order_by {A} (le : A → A → bool) (l : list A) : list A := foldr (insert_by le) [] l.
Definition order_desc {A} (key : A → string * string) : list A → list A :=
  order_by (λ x y, desc_le (key x) (key y)).
Definition order_asc {A} (key : A → string * string) : list A → list A :=
  order_by (λ x y, desc_le (key y) (key x)).

(** ** Lemmas *)

Lemma insert_by_perm {A} (le : A → A → bool) x l : insert_by le x l ≡ₚ x :: l.
Proof.
  induction l as [|y l IH]; cbn; [done|]. destruct (le x y); [done|]. rewrite IH. apply Permutation_swap.
Qed.
Lemma order_by_perm {A} (le : A → A → bool) l : order_by le l ≡ₚ l.
Proof. induction l as [|x l IH]; cbn; [done|]. by rewrite insert_by_perm, IH. Qed.
Lemma order_asc_perm {A} key (l : list A) : order_asc key l ≡ₚ l.
Proof. apply order_by_perm. Qed.

Lemma desc_le_total a b : desc_le a b = true ∨ desc_le b a = true.
Proof.
  unfold desc_le. destruct (b.1 <s? a.1) eqn:E1; [by left|]. destruct (a.1 <s? b.1) eqn:E2; [by right|].
  rewrite (ltb_total _ _ E1 E2), String.eqb_refl. cbn. destruct (leb_total b.2 a.2); auto.
Qed.
Lemma desc_le_antisym a b : desc_le a b = true → desc_le b a = true → a = b.
Proof.
  destruct a as [a1 a2], b as [b1 b2]. unfold desc_le. cbn.
  intros [H1|[<-%String.eqb_eq H1]%andb_true_iff]%orb_true_iff [H2|[E%String.eqb_eq H2]%andb_true_iff]%orb_true_iff.
  - pose proof (ltb_trans _ _ _ H1 H2) as H. by rewrite ltb_irrefl in H.
  - subst. by rewrite ltb_irrefl in H1.
  - by rewrite ltb_irrefl in H2.
  - f_equal. by apply leb_antisym.
Qed.
Lemma desc_le_trans a b c : desc_le a b = true → desc_le b c = true → desc_le a c = true.
Proof.
  unfold desc_le. destruct a as [a1 a2], b as [b1 b2], c as [c1 c2]. cbn.
  intros [H1|[<-%String.eqb_eq H1]%andb_true_iff]%orb_true_iff [H2|[<-%String.eqb_eq H2]%andb_true_iff]%orb_true_iff;
    apply orb_true_iff.
  - left. by eapply ltb_trans.
  - by left.
  - by left.
  - right. rewrite String.eqb_refl. cbn. by eapply leb_trans.
Qed.

(** Sorting with a comparison that is total and transitive: the result is sorted, and it is the only
    sorted arrangement when the comparison tells the elements apart. *)
Section sorting.
Context {A : Type} (le : A → A → bool).
Hypothesis le_total : ∀ x y, le x y = true ∨ le y x = true.
Hypothesis le_trans : ∀ x y z, le x y = true → le y z = true → le x z = true.

Lemma insert_by_sorted x l : StronglySorted (λ a b, le a b = true) l → StronglySorted (λ a b, le a b = true) (insert_by le x l).
Proof.
induction 1 as [|y l Hl IH Hy]; cbn; [repeat constructor|].
destruct (le x y) eqn:E.
- constructor; [by constructor|]. constructor; [done|]. eapply Forall_impl; [exact Hy|]. cbn. eauto.
- constructor; [done|]. rewrite insert_by_perm. constructor; [|done]. destruct (le_total x y); congruence.
Qed.
Lemma order_by_sorted l : StronglySorted (λ a b, le a b = true) (order_by le l).
Proof. induction l as [|x l IH]; cbn; [constructor|]. by apply insert_by_sorted. Qed.
Lemma order_by_unique l l' :
  (∀ x y, x ∈ l → y ∈ l → le x y = true → le y x = true → x = y) →
  l' ≡ₚ l → StronglySorted (λ a b, le a b = true) l' → l' = order_by le l.
Proof.
intros Hanti Hp Hs. apply (StronglySorted_unique_strong (λ a b, le a b = true)).
- intros x y Hx Hy. rewrite Hp in Hx. rewrite order_by_perm in Hy. by apply Hanti.
- done.
- apply order_by_sorted.
- by rewrite Hp, order_by_perm.
Qed.
End sorting.

(** The one row with a unique column's value. *)
Lemma jfilter_unique {A B} `{EqDecision B} (g : A → B) l x :
  NoDup (g <$> l) → x ∈ l → jfilter (λ y, bool_decide (g y = g x)) l = [x].
Proof.
induction l as [|y l IH]; cbn; [by intros _ ?%elem_of_nil|].
intros [Hy Hnd]%NoDup_cons [->|Hx]%elem_of_cons.
- rewrite bool_decide_eq_true_2 by done. f_equal. apply jfilter_nil_iff. intros z Hz.
  apply bool_decide_eq_false. intros Heq. apply Hy. rewrite <- Heq. by apply list_elem_of_fmap_2.
- rewrite bool_decide_eq_false_2; [by apply IH|]. intros Heq. apply Hy. rewrite Heq. by apply list_elem_of_fmap_2.
Qed.

Section tables.
Context {A : Type}.
Implicit Types (p : A → bool) (f : A → A) (l : list A).

Lemma elem_of_update_where p f l y :
  y ∈ update_where p f l ↔ ∃ x, x ∈ l ∧ y = if p x then f x else x.
Proof. unfold update_where. rewrite list_elem_of_fmap. naive_solver. Qed.

Lemma update_where_id p f l : (∀ x, x ∈ l → p x = false) → update_where p f l = l.
Proof.
  unfold update_where. induction l as [|x l IH]; intros H; cbn; [done|].
  rewrite (H x) by left. f_equal. apply IH. intros y Hy. apply H. by right.
Qed.

Lemma update_where_app p f l1 l2 : update_where p f (l1 ++ l2) = update_where p f l1 ++ update_where p f l2.
Proof. unfold update_where. by rewrite fmap_app. Qed.

(** A column the update does not touch. *)
Lemma update_where_column {B} (g : A → B) p f l :
  (∀ x, g (f x) = g x) → g <$> update_where p f l = g <$> l.
Proof.
  intros H. unfold update_where. rewrite <- list_fmap_compose. apply list_fmap_ext.
  intros i x _. cbn. by destruct (p x); rewrite ?H.
Qed.

Lemma changes_0 p l : (∀ x, x ∈ l → p x = false) → changes p l = 0%nat.
Proof. intros H. unfold changes. by rewrite (proj2 (jfilter_nil_iff p l) H). Qed.

(** A row found by a unique column splits the table around it. *)
Lemma unique_split {B} (g : A → B) l x :
  NoDup (g <$> l) → x ∈ l →
  ∃ l1 l2, l = l1 ++ x :: l2 ∧ (∀ y, y ∈ l1 → g y ≠ g x) ∧ (∀ y, y ∈ l2 → g y ≠ g x).
Proof.
  intros Hnd (l1 & l2 & ->)%list_elem_of_split. exists l1, l2. split; [done|].
  rewrite fmap_app, NoDup_app in Hnd. destruct Hnd as (_ & Hd & Hnd2).
  cbn in Hnd2. apply NoDup_cons in Hnd2 as [Hx _]. split; intros y Hy Heq.
  - apply (Hd (g x)); [rewrite <- Heq; by apply list_elem_of_fmap_2|left].
  - apply Hx. rewrite <- Heq. by apply list_elem_of_fmap_2.
Qed.

Lemma unique_eq {B} (g : A → B) l x y : NoDup (g <$> l) → x ∈ l → y ∈ l → g x = g y → x = y.
Proof.
  intros Hnd Hx Hy Heq. destruct (unique_split g l x Hnd Hx) as (l1 & l2 & -> & H1 & H2).
  apply elem_of_app in Hy as [Hy|[->|Hy]%elem_of_cons]; [|done|].
  - by destruct (H1 y Hy).
  - by destruct (H2 y Hy).
Qed.

Lemma NoDup_fmap_snoc {B} (g : A → B) l x :
  NoDup (g <$> l) → g x ∉ g <$> l → NoDup (g <$> (l ++ [x])).
Proof.
  intros Hl Hx. rewrite fmap_app. apply NoDup_app. split_and!; [done| |apply NoDup_singleton].
  intros y Hy ->%list_elem_of_singleton. done.
Qed.

Lemma existsb_false_iff p l : existsb p l = false ↔ ∀ x, x ∈ l → p x = false.
Proof.
  split.
  - intros H x Hx. destruct (p x) eqn:E; [|done].
    assert (existsb p l = true) as He; [|by rewrite H in He].
    apply existsb_exists. exists x. by rewrite <- list_elem_of_In.
  - intros H. destruct (existsb p l) eqn:E; [|done].
    apply existsb_exists in E as (x & Hx & Hp). rewrite <- list_elem_of_In in Hx.
    by rewrite H in Hp.
Qed.

Lemma existsb_true_iff p l : existsb p l = true ↔ ∃ x, x ∈ l ∧ p x = true.
Proof. rewrite existsb_exists. by setoid_rewrite list_elem_of_In. Qed.

Lemma find_Some_elem p l x : List.find p l = Some x → x ∈ l ∧ p x = true.
Proof. intros [Hx Hp]%find_some. by rewrite list_elem_of_In. Qed.

Lemma find_None_elem p l : List.find p l = None ↔ ∀ x, x ∈ l → p x = false.
Proof.
  split.
  - intros H x Hx. apply list_elem_of_In in Hx. exact (find_none _ _ H _ Hx).
  - induction l as [|x l IH]; intros H; cbn; [done|]. rewrite (H x) by left.
    apply IH. intros y Hy. apply H. by right.
Qed.
End tables.

Lemma transaction_ok {S E A} (m : M S E A) s a s' : m s = (Ok a, s') → transaction m s = (Ok a, s').
Proof. unfold transaction. by intros ->. Qed.
Lemma transaction_err {S E A} (m : M S E A) s e s' : m s = (Err e, s') → transaction m s = (Err e, s).
Proof. unfold transaction. by intros ->. Qed.

(** Within the safe range the engine's sum and its conversion to a number are exact. *)
Lemma sql_sum_from_exact l acc :
  Z.abs acc + sumZ Z.abs l <= Num.max_safe → sql_sum_from acc l = Ok (acc + sumZ (λ x, x) l).
Proof.
  revert acc; induction l as [|x l IH]; intros acc H; cbn; [f_equal; lia|].
  rewrite sumZ_cons in H. assert (0 <= sumZ Z.abs l) by (apply sumZ_nonneg; lia).
  unfold in_int64, Num.max_safe in *.
  destruct ((- 2 ^ 63 <=? acc + x) && (acc + x <? 2 ^ 63)) eqn:E.
  - rewrite IH by lia. f_equal. unfold sumZ. cbn. lia.
  - apply andb_false_iff in E as [E|E]; bool_hyps; lia.
Qed.

Lemma sumZ_abs_bound l : Z.abs (sumZ (λ x, x) l) <= sumZ Z.abs l.
Proof. induction l as [|x l IH]; [done|]. rewrite !sumZ_cons. lia. Qed.

Lemma sql_sum_exact l : sumZ Z.abs l <= Num.max_safe → sql_sum l = Ok (sumZ (λ x, x) l).
Proof.
  intros H. unfold sql_sum. rewrite sql_sum_from_exact by (cbn; lia). cbn.
  pose proof (sumZ_abs_bound l). by rewrite rnd_exact by lia.
Qed.

(** ** Statements of concurrent handlers

    A store operation runs its statement on whatever table [others] left, and one that throws may or
    may not have run it.  [dt] is the engine's clock at that statement. *)
Definition runs_as {S T A} (others : T → T → Prop) (tbl : S → T)
    (op : M S string A) (d1 : string → M T string A) : Prop :=
  ∀ s, ∃ mid dt, others (tbl s) mid ∧
    match op s with
    | (Ok a, s') => d1 dt mid = (Ok a, tbl s')
    | (Err _, s') => tbl s' = mid ∨ tbl s' = exec (d1 dt) mid
    end.

Lemma runs_as_quiet {T A} (others : T → T → Prop) (d1 : string → M T string A) :
  Reflexive others → runs_as (S:=T) others id (d1 "now") d1.
Proof.
  intros Hr s. exists s, "now". split; [apply Hr|]. unfold exec. destruct (d1 "now" s) as [[a|e] s']; [done|by right].
Qed.
Lemma runs_ok {S T A} (others : T → T → Prop) (tbl : S → T) (op : M S string A) (d1 : string → M T string A) s a s' :
  runs_as others tbl op d1 → op s = (Ok a, s') → ∃ mid dt, others (tbl s) mid ∧ d1 dt mid = (Ok a, tbl s').
Proof. intros Hop Hs. destruct (Hop s) as (mid & dt & Hm & Hr). rewrite Hs in Hr. eauto. Qed.
