(* ===== verification/SqlTime.v ===== *)
(** * Times as the database writes them

    [datetime('now')] and [datetime('now', '+n seconds')] are texts at one-second resolution, stored
    and compared as texts; src/store.ts reads them back with [Date.parse].  Here are the format, both
    readings, and that they agree. *)

From S2P Require Export JsDate Sql.
From Stdlib Require Import Ascii.
Open Scope string_scope.
Open Scope list_scope.
Open Scope Z_scope.
Open Scope plane_scope.

Module SqlTime.
Import Date.

(** [datetime(s, 'unixepoch')] for a year of four digits. *)
Definition date_chars (t : Z) : list ascii :=
  digits 4 (utc_year t) ++ "-"%char :: digits 2 (utc_month t + 1) ++ "-"%char :: digits 2 (utc_date t).
Definition time_chars (w : Z) : list ascii :=
  digits 2 (w / 3600000) ++ ":"%char :: digits 2 (w / 60000 mod 60) ++ ":"%char :: digits 2 (w / 1000 mod 60).
Definition datetime (s : Z) : string :=
  let t := s * 1000 in
  Str.of_chars (date_chars t ++ " "%char :: time_chars (time_within_day t)).

(** [Date.parse(text.replace(" ", "T") + "Z")]: the date-time form without a fraction. *)
Definition parse_chars_seconds (l : list ascii) : option Z :=
  '(y, l) ← parse_year l; l ← lit "-" l;
  '(mo, l) ← num 2 l; l ← lit "-" l;
  '(d, l) ← num 2 l; l ← lit "T" l;
  '(h, l) ← num 2 l; l ← lit ":" l;
  '(mi, l) ← num 2 l; l ← lit ":" l;
  '(s, l) ← num 2 l;
  match l with
  | ["Z"%char] =>
      let dim := month_start (leap y) mo - month_start (leap y) (mo - 1) in
      if (1 <=? mo) && (mo <=? 12) && (1 <=? d) && (d <=? dim) && (h <=? 23) && (mi <=? 59) && (s <=? 59)
      then let t := make_day y (mo - 1) d * ms_per_day + h * 3600000 + mi * 60000 + s * 1000 in
           if valid t then Some t else None
      else None
  | _ => None
  end.

(** [s.replace(" ", "T")]: the first space only. *)
Fixpoint replace_first (a b : ascii) (l : list ascii) : list ascii :=
  match l with
  | [] => []
  | c :: l => if Ascii.eqb c a then b :: l else c :: replace_first a b l
  end.
Definition parse_datetime (s : string) : option Z :=
  parse_chars_seconds (replace_first " " "T" (Str.chars s) ++ ["Z"%char]).

(** The seconds the format is exact on. *)
Definition in_range (s : Z) : Prop := valid (s * 1000) = true ∧ four_digit_year (s * 1000).

Section lemmas.
Implicit Types (s : Z).

Lemma second_fields s :
  let w := time_within_day (s * 1000) in
  0 <= w < ms_per_day ∧ w mod 1000 = 0 ∧ s * 1000 = day (s * 1000) * ms_per_day + w.
Proof. unfold time_within_day, day, ms_per_day. cbn. dm. Qed.

Lemma datetime_ltb s1 s2 : in_range s1 → in_range s2 → (datetime s1 <s? datetime s2) = (s1 <? s2).
Proof.
intros [_ Hy1] [_ Hy2]. unfold datetime, date_chars, time_chars, four_digit_year in *.
pose proof (utc_month_spec (s1 * 1000)) as [Hm1 _]. pose proof (utc_date_spec (s1 * 1000)). pose proof (utc_date_small (s1 * 1000)).
pose proof (utc_month_spec (s2 * 1000)) as [Hm2 _]. pose proof (utc_date_spec (s2 * 1000)). pose proof (utc_date_small (s2 * 1000)).
pose proof (second_fields s1) as (Hw1 & Hz1 & Ht1). pose proof (second_fields s2) as (Hw2 & Hz2 & Ht2).
pose proof (time_ltb _ _ Hw1 Hw2) as Htw. rewrite Hz1, Hz2, Z.ltb_irrefl, andb_false_r, orb_false_r in Htw.
set (w1 := time_within_day (s1 * 1000)) in *. set (w2 := time_within_day (s2 * 1000)) in *. unfold ms_per_day in *.
rewrite <- !app_assoc. rewrite <- !app_comm_cons. rewrite <- !app_assoc. rewrite <- !app_comm_cons.
rewrite ltb_field, ltb_lit, ltb_field, ltb_lit, ltb_field, ltb_lit by (cbn; lia).
rewrite ltb_field, ltb_lit, ltb_field, ltb_lit by (cbn; dm).
rewrite ltb_digits by (cbn; dm). rewrite Htw, lex_split, day_ltb, day_eqb.
destruct (day (s1 * 1000) <? day (s2 * 1000)) eqn:E1; cbn; bool_hyps; [symmetry; apply Z.ltb_lt; lia|].
destruct (day (s1 * 1000) =? day (s2 * 1000)) eqn:E2; cbn; bool_hyps; [|symmetry; apply Z.ltb_ge; lia].
destruct (w1 <? w2) eqn:E3; bool_hyps; symmetry; [apply Z.ltb_lt|apply Z.ltb_ge]; lia.
Qed.

Lemma digit_not_space c : Str.is_digit c = true → Ascii.eqb c " " = false.
Proof. intros H. destruct (Ascii.eqb_spec c " "); [by subst|done]. Qed.
Lemma replace_first_past a b l1 l2 :
  forallb (λ c, negb (Ascii.eqb c a)) l1 = true → replace_first a b (l1 ++ a :: l2) = l1 ++ b :: l2.
Proof.
induction l1 as [|c l1 IH]; cbn; [by rewrite Ascii.eqb_refl|].
intros [Hc%negb_true_iff Hl]%andb_true_iff. rewrite Hc. f_equal. by apply IH.
Qed.
Lemma digits_no_space w n : forallb (λ c, negb (Ascii.eqb c " ")) (digits w n) = true.
Proof.
pose proof (digits_are_digits w n) as H. rewrite forallb_forall in *. intros c Hc.
apply negb_true_iff, digit_not_space, H, Hc.
Qed.

(** [Date.parse] reads back the instant the engine wrote. *)
Lemma parse_datetime_of s : in_range s → parse_datetime (datetime s) = Some (s * 1000).
Proof.
intros [Hv [Hy1 Hy2]]. unfold parse_datetime, datetime. rewrite chars_of_chars, replace_first_past.
2: { unfold date_chars. rewrite forallb_app, digits_no_space. cbn [forallb andb].
     by rewrite forallb_app, digits_no_space; cbn [forallb]; rewrite digits_no_space. }
pose proof (utc_month_spec (s * 1000)) as [Hm _]. pose proof (utc_date_spec (s * 1000)). pose proof (utc_date_small (s * 1000)).
pose proof (second_fields s) as (Hw & Hz & Ht).
set (t := s * 1000) in *. set (w := time_within_day t) in *. unfold ms_per_day in Hw, Ht.
unfold date_chars, time_chars, parse_chars_seconds.
rewrite <- !app_assoc. rewrite <- !app_comm_cons. rewrite <- !app_assoc. rewrite <- !app_comm_cons.
rewrite <- !app_assoc. rewrite <- !app_comm_cons. rewrite <- ?app_assoc. rewrite <- ?app_comm_cons.
rewrite parse_year_digits by lia. cbn [mbind option_bind]. rewrite lit_same. cbn [mbind option_bind].
do 4 (rewrite num_digits by (cbn; dm); cbn [mbind option_bind]; rewrite lit_same; cbn [mbind option_bind]).
rewrite num_digits by (cbn; dm). cbn [mbind option_bind].
rewrite (proj2 (Z.leb_le 1 (utc_month t + 1))), (proj2 (Z.leb_le (utc_month t + 1) 12)) by lia.
replace (utc_month t + 1 - 1) with (utc_month t) by lia.
repeat match goal with |- context [?a <=? ?b] => rewrite (proj2 (Z.leb_le a b)) by dm end. cbn [andb].
rewrite make_day_fields.
replace (day t * ms_per_day + w / 3600000 * 3600000 + w / 60000 mod 60 * 60000 + w / 1000 mod 60 * 1000) with t
  by (unfold ms_per_day; dm).
by rewrite Hv.
Qed.
End lemmas.
End SqlTime.

#[global] Arguments SqlTime.datetime _ : simpl never.
#[global] Arguments SqlTime.parse_datetime _ : simpl never.
