(* ===== verification/Tenants.v ===== *)
(** * Tenants: the row, lifecycle, slugs, leases and projections

    The record of a row of the table [tenants] (src/store.ts, [Tenant]) with the update of each column a
    statement writes, then src/tenants.ts, src/tenant-resolver.ts and the pure rules of src/store.ts:
    which names are valid, who may take one, when a lease is live, and what the routes show of a tenant.
    [t_status] is a text, as in the table: the type [TenantLifecycle] is a claim about it that the
    readers of the column check. *)

From S2P Require Export SqlTime Js.
From Stdlib Require Import Ascii.
Open Scope string_scope.
Open Scope list_scope.
Open Scope Z_scope.
Open Scope plane_scope.

Record Tenant := mkTenant {
  t_id : string;
  t_slug : string;
  t_account_id : string;
  t_status : string;
  t_script_name : option string;
  t_d1_database_id : option string;
  t_r2_bucket_name : option string;
  t_endpoints_json : option string;
  t_r2_token_id : option string;
  t_studio_release : option string;
  t_modules_release : option string;
  t_studio_token_enc : option string;
  t_created_at : string;
  t_live_at : option string;
  t_suspended_at : option string;
  t_suspended_reason : option string;
  t_deleted_at : option string;
  t_api_token_rotated_at : option string;
  t_teardown_at : option string;
  t_teardown_failures : option string;
  t_reclaim_lease_until : option string;
  t_reclaim_lease_token : option string;
  t_video_finish_unreachable : Z;
  t_video_finish_unreachable_reason : option string;
  t_video_finish_unreachable_at : option string;
  t_r2_storage_quota_override : option string;
  t_r2_storage_quota_bytes : option string;
  t_runpod_mode : string;
}.

#[export] Instance Tenant_eq_dec : EqDecision Tenant.
Proof. solve_decision. Defined.

(** ** Column updates *)
Definition set_status (x : string) (t : Tenant) : Tenant :=
  mkTenant (t_id t) (t_slug t) (t_account_id t) x (t_script_name t) (t_d1_database_id t) (t_r2_bucket_name t)
    (t_endpoints_json t) (t_r2_token_id t) (t_studio_release t) (t_modules_release t) (t_studio_token_enc t)
    (t_created_at t) (t_live_at t) (t_suspended_at t) (t_suspended_reason t) (t_deleted_at t) (t_api_token_rotated_at
    t) (t_teardown_at t) (t_teardown_failures t) (t_reclaim_lease_until t) (t_reclaim_lease_token t)
    (t_video_finish_unreachable t) (t_video_finish_unreachable_reason t) (t_video_finish_unreachable_at t)
    (t_r2_storage_quota_override t) (t_r2_storage_quota_bytes t) (t_runpod_mode t).
Definition set_script_name (x : option string) (t : Tenant) : Tenant :=
  mkTenant (t_id t) (t_slug t) (t_account_id t) (t_status t) x (t_d1_database_id t) (t_r2_bucket_name t)
    (t_endpoints_json t) (t_r2_token_id t) (t_studio_release t) (t_modules_release t) (t_studio_token_enc t)
    (t_created_at t) (t_live_at t) (t_suspended_at t) (t_suspended_reason t) (t_deleted_at t) (t_api_token_rotated_at
    t) (t_teardown_at t) (t_teardown_failures t) (t_reclaim_lease_until t) (t_reclaim_lease_token t)
    (t_video_finish_unreachable t) (t_video_finish_unreachable_reason t) (t_video_finish_unreachable_at t)
    (t_r2_storage_quota_override t) (t_r2_storage_quota_bytes t) (t_runpod_mode t).
Definition set_d1_database_id (x : option string) (t : Tenant) : Tenant :=
  mkTenant (t_id t) (t_slug t) (t_account_id t) (t_status t) (t_script_name t) x (t_r2_bucket_name t)
    (t_endpoints_json t) (t_r2_token_id t) (t_studio_release t) (t_modules_release t) (t_studio_token_enc t)
    (t_created_at t) (t_live_at t) (t_suspended_at t) (t_suspended_reason t) (t_deleted_at t) (t_api_token_rotated_at
    t) (t_teardown_at t) (t_teardown_failures t) (t_reclaim_lease_until t) (t_reclaim_lease_token t)
    (t_video_finish_unreachable t) (t_video_finish_unreachable_reason t) (t_video_finish_unreachable_at t)
    (t_r2_storage_quota_override t) (t_r2_storage_quota_bytes t) (t_runpod_mode t).
Definition set_r2_bucket_name (x : option string) (t : Tenant) : Tenant :=
  mkTenant (t_id t) (t_slug t) (t_account_id t) (t_status t) (t_script_name t) (t_d1_database_id t) x
    (t_endpoints_json t) (t_r2_token_id t) (t_studio_release t) (t_modules_release t) (t_studio_token_enc t)
    (t_created_at t) (t_live_at t) (t_suspended_at t) (t_suspended_reason t) (t_deleted_at t) (t_api_token_rotated_at
    t) (t_teardown_at t) (t_teardown_failures t) (t_reclaim_lease_until t) (t_reclaim_lease_token t)
    (t_video_finish_unreachable t) (t_video_finish_unreachable_reason t) (t_video_finish_unreachable_at t)
    (t_r2_storage_quota_override t) (t_r2_storage_quota_bytes t) (t_runpod_mode t).
Definition set_endpoints_json (x : option string) (t : Tenant) : Tenant :=
  mkTenant (t_id t) (t_slug t) (t_account_id t) (t_status t) (t_script_name t) (t_d1_database_id t) (t_r2_bucket_name
    t) x (t_r2_token_id t) (t_studio_release t) (t_modules_release t) (t_studio_token_enc t) (t_created_at t)
    (t_live_at t) (t_suspended_at t) (t_suspended_reason t) (t_deleted_at t) (t_api_token_rotated_at t) (t_teardown_at
    t) (t_teardown_failures t) (t_reclaim_lease_until t) (t_reclaim_lease_token t) (t_video_finish_unreachable t)
    (t_video_finish_unreachable_reason t) (t_video_finish_unreachable_at t) (t_r2_storage_quota_override t)
    (t_r2_storage_quota_bytes t) (t_runpod_mode t).
Definition set_r2_token_id (x : option string) (t : Tenant) : Tenant :=
  mkTenant (t_id t) (t_slug t) (t_account_id t) (t_status t) (t_script_name t) (t_d1_database_id t) (t_r2_bucket_name
    t) (t_endpoints_json t) x (t_studio_release t) (t_modules_release t) (t_studio_token_enc t) (t_created_at t)
    (t_live_at t) (t_suspended_at t) (t_suspended_reason t) (t_deleted_at t) (t_api_token_rotated_at t) (t_teardown_at
    t) (t_teardown_failures t) (t_reclaim_lease_until t) (t_reclaim_lease_token t) (t_video_finish_unreachable t)
    (t_video_finish_unreachable_reason t) (t_video_finish_unreachable_at t) (t_r2_storage_quota_override t)
    (t_r2_storage_quota_bytes t) (t_runpod_mode t).
Definition set_studio_release (x : option string) (t : Tenant) : Tenant :=
  mkTenant (t_id t) (t_slug t) (t_account_id t) (t_status t) (t_script_name t) (t_d1_database_id t) (t_r2_bucket_name
    t) (t_endpoints_json t) (t_r2_token_id t) x (t_modules_release t) (t_studio_token_enc t) (t_created_at t)
    (t_live_at t) (t_suspended_at t) (t_suspended_reason t) (t_deleted_at t) (t_api_token_rotated_at t) (t_teardown_at
    t) (t_teardown_failures t) (t_reclaim_lease_until t) (t_reclaim_lease_token t) (t_video_finish_unreachable t)
    (t_video_finish_unreachable_reason t) (t_video_finish_unreachable_at t) (t_r2_storage_quota_override t)
    (t_r2_storage_quota_bytes t) (t_runpod_mode t).
Definition set_modules_release (x : option string) (t : Tenant) : Tenant :=
  mkTenant (t_id t) (t_slug t) (t_account_id t) (t_status t) (t_script_name t) (t_d1_database_id t) (t_r2_bucket_name
    t) (t_endpoints_json t) (t_r2_token_id t) (t_studio_release t) x (t_studio_token_enc t) (t_created_at t)
    (t_live_at t) (t_suspended_at t) (t_suspended_reason t) (t_deleted_at t) (t_api_token_rotated_at t) (t_teardown_at
    t) (t_teardown_failures t) (t_reclaim_lease_until t) (t_reclaim_lease_token t) (t_video_finish_unreachable t)
    (t_video_finish_unreachable_reason t) (t_video_finish_unreachable_at t) (t_r2_storage_quota_override t)
    (t_r2_storage_quota_bytes t) (t_runpod_mode t).
Definition set_studio_token_enc (x : option string) (t : Tenant) : Tenant :=
  mkTenant (t_id t) (t_slug t) (t_account_id t) (t_status t) (t_script_name t) (t_d1_database_id t) (t_r2_bucket_name
    t) (t_endpoints_json t) (t_r2_token_id t) (t_studio_release t) (t_modules_release t) x (t_created_at t) (t_live_at
    t) (t_suspended_at t) (t_suspended_reason t) (t_deleted_at t) (t_api_token_rotated_at t) (t_teardown_at t)
    (t_teardown_failures t) (t_reclaim_lease_until t) (t_reclaim_lease_token t) (t_video_finish_unreachable t)
    (t_video_finish_unreachable_reason t) (t_video_finish_unreachable_at t) (t_r2_storage_quota_override t)
    (t_r2_storage_quota_bytes t) (t_runpod_mode t).
Definition set_live_at (x : option string) (t : Tenant) : Tenant :=
  mkTenant (t_id t) (t_slug t) (t_account_id t) (t_status t) (t_script_name t) (t_d1_database_id t) (t_r2_bucket_name
    t) (t_endpoints_json t) (t_r2_token_id t) (t_studio_release t) (t_modules_release t) (t_studio_token_enc t)
    (t_created_at t) x (t_suspended_at t) (t_suspended_reason t) (t_deleted_at t) (t_api_token_rotated_at t)
    (t_teardown_at t) (t_teardown_failures t) (t_reclaim_lease_until t) (t_reclaim_lease_token t)
    (t_video_finish_unreachable t) (t_video_finish_unreachable_reason t) (t_video_finish_unreachable_at t)
    (t_r2_storage_quota_override t) (t_r2_storage_quota_bytes t) (t_runpod_mode t).
Definition set_suspended_at (x : option string) (t : Tenant) : Tenant :=
  mkTenant (t_id t) (t_slug t) (t_account_id t) (t_status t) (t_script_name t) (t_d1_database_id t) (t_r2_bucket_name
    t) (t_endpoints_json t) (t_r2_token_id t) (t_studio_release t) (t_modules_release t) (t_studio_token_enc t)
    (t_created_at t) (t_live_at t) x (t_suspended_reason t) (t_deleted_at t) (t_api_token_rotated_at t) (t_teardown_at
    t) (t_teardown_failures t) (t_reclaim_lease_until t) (t_reclaim_lease_token t) (t_video_finish_unreachable t)
    (t_video_finish_unreachable_reason t) (t_video_finish_unreachable_at t) (t_r2_storage_quota_override t)
    (t_r2_storage_quota_bytes t) (t_runpod_mode t).
Definition set_suspended_reason (x : option string) (t : Tenant) : Tenant :=
  mkTenant (t_id t) (t_slug t) (t_account_id t) (t_status t) (t_script_name t) (t_d1_database_id t) (t_r2_bucket_name
    t) (t_endpoints_json t) (t_r2_token_id t) (t_studio_release t) (t_modules_release t) (t_studio_token_enc t)
    (t_created_at t) (t_live_at t) (t_suspended_at t) x (t_deleted_at t) (t_api_token_rotated_at t) (t_teardown_at t)
    (t_teardown_failures t) (t_reclaim_lease_until t) (t_reclaim_lease_token t) (t_video_finish_unreachable t)
    (t_video_finish_unreachable_reason t) (t_video_finish_unreachable_at t) (t_r2_storage_quota_override t)
    (t_r2_storage_quota_bytes t) (t_runpod_mode t).
Definition set_deleted_at (x : option string) (t : Tenant) : Tenant :=
  mkTenant (t_id t) (t_slug t) (t_account_id t) (t_status t) (t_script_name t) (t_d1_database_id t) (t_r2_bucket_name
    t) (t_endpoints_json t) (t_r2_token_id t) (t_studio_release t) (t_modules_release t) (t_studio_token_enc t)
    (t_created_at t) (t_live_at t) (t_suspended_at t) (t_suspended_reason t) x (t_api_token_rotated_at t)
    (t_teardown_at t) (t_teardown_failures t) (t_reclaim_lease_until t) (t_reclaim_lease_token t)
    (t_video_finish_unreachable t) (t_video_finish_unreachable_reason t) (t_video_finish_unreachable_at t)
    (t_r2_storage_quota_override t) (t_r2_storage_quota_bytes t) (t_runpod_mode t).
Definition set_api_token_rotated_at (x : option string) (t : Tenant) : Tenant :=
  mkTenant (t_id t) (t_slug t) (t_account_id t) (t_status t) (t_script_name t) (t_d1_database_id t) (t_r2_bucket_name
    t) (t_endpoints_json t) (t_r2_token_id t) (t_studio_release t) (t_modules_release t) (t_studio_token_enc t)
    (t_created_at t) (t_live_at t) (t_suspended_at t) (t_suspended_reason t) (t_deleted_at t) x (t_teardown_at t)
    (t_teardown_failures t) (t_reclaim_lease_until t) (t_reclaim_lease_token t) (t_video_finish_unreachable t)
    (t_video_finish_unreachable_reason t) (t_video_finish_unreachable_at t) (t_r2_storage_quota_override t)
    (t_r2_storage_quota_bytes t) (t_runpod_mode t).
Definition set_teardown_at (x : option string) (t : Tenant) : Tenant :=
  mkTenant (t_id t) (t_slug t) (t_account_id t) (t_status t) (t_script_name t) (t_d1_database_id t) (t_r2_bucket_name
    t) (t_endpoints_json t) (t_r2_token_id t) (t_studio_release t) (t_modules_release t) (t_studio_token_enc t)
    (t_created_at t) (t_live_at t) (t_suspended_at t) (t_suspended_reason t) (t_deleted_at t) (t_api_token_rotated_at
    t) x (t_teardown_failures t) (t_reclaim_lease_until t) (t_reclaim_lease_token t) (t_video_finish_unreachable t)
    (t_video_finish_unreachable_reason t) (t_video_finish_unreachable_at t) (t_r2_storage_quota_override t)
    (t_r2_storage_quota_bytes t) (t_runpod_mode t).
Definition set_teardown_failures (x : option string) (t : Tenant) : Tenant :=
  mkTenant (t_id t) (t_slug t) (t_account_id t) (t_status t) (t_script_name t) (t_d1_database_id t) (t_r2_bucket_name
    t) (t_endpoints_json t) (t_r2_token_id t) (t_studio_release t) (t_modules_release t) (t_studio_token_enc t)
    (t_created_at t) (t_live_at t) (t_suspended_at t) (t_suspended_reason t) (t_deleted_at t) (t_api_token_rotated_at
    t) (t_teardown_at t) x (t_reclaim_lease_until t) (t_reclaim_lease_token t) (t_video_finish_unreachable t)
    (t_video_finish_unreachable_reason t) (t_video_finish_unreachable_at t) (t_r2_storage_quota_override t)
    (t_r2_storage_quota_bytes t) (t_runpod_mode t).
Definition set_reclaim_lease_until (x : option string) (t : Tenant) : Tenant :=
  mkTenant (t_id t) (t_slug t) (t_account_id t) (t_status t) (t_script_name t) (t_d1_database_id t) (t_r2_bucket_name
    t) (t_endpoints_json t) (t_r2_token_id t) (t_studio_release t) (t_modules_release t) (t_studio_token_enc t)
    (t_created_at t) (t_live_at t) (t_suspended_at t) (t_suspended_reason t) (t_deleted_at t) (t_api_token_rotated_at
    t) (t_teardown_at t) (t_teardown_failures t) x (t_reclaim_lease_token t) (t_video_finish_unreachable t)
    (t_video_finish_unreachable_reason t) (t_video_finish_unreachable_at t) (t_r2_storage_quota_override t)
    (t_r2_storage_quota_bytes t) (t_runpod_mode t).
Definition set_reclaim_lease_token (x : option string) (t : Tenant) : Tenant :=
  mkTenant (t_id t) (t_slug t) (t_account_id t) (t_status t) (t_script_name t) (t_d1_database_id t) (t_r2_bucket_name
    t) (t_endpoints_json t) (t_r2_token_id t) (t_studio_release t) (t_modules_release t) (t_studio_token_enc t)
    (t_created_at t) (t_live_at t) (t_suspended_at t) (t_suspended_reason t) (t_deleted_at t) (t_api_token_rotated_at
    t) (t_teardown_at t) (t_teardown_failures t) (t_reclaim_lease_until t) x (t_video_finish_unreachable t)
    (t_video_finish_unreachable_reason t) (t_video_finish_unreachable_at t) (t_r2_storage_quota_override t)
    (t_r2_storage_quota_bytes t) (t_runpod_mode t).
Definition set_video_finish_unreachable (x : Z) (t : Tenant) : Tenant :=
  mkTenant (t_id t) (t_slug t) (t_account_id t) (t_status t) (t_script_name t) (t_d1_database_id t) (t_r2_bucket_name
    t) (t_endpoints_json t) (t_r2_token_id t) (t_studio_release t) (t_modules_release t) (t_studio_token_enc t)
    (t_created_at t) (t_live_at t) (t_suspended_at t) (t_suspended_reason t) (t_deleted_at t) (t_api_token_rotated_at
    t) (t_teardown_at t) (t_teardown_failures t) (t_reclaim_lease_until t) (t_reclaim_lease_token t) x
    (t_video_finish_unreachable_reason t) (t_video_finish_unreachable_at t) (t_r2_storage_quota_override t)
    (t_r2_storage_quota_bytes t) (t_runpod_mode t).
Definition set_video_finish_unreachable_reason (x : option string) (t : Tenant) : Tenant :=
  mkTenant (t_id t) (t_slug t) (t_account_id t) (t_status t) (t_script_name t) (t_d1_database_id t) (t_r2_bucket_name
    t) (t_endpoints_json t) (t_r2_token_id t) (t_studio_release t) (t_modules_release t) (t_studio_token_enc t)
    (t_created_at t) (t_live_at t) (t_suspended_at t) (t_suspended_reason t) (t_deleted_at t) (t_api_token_rotated_at
    t) (t_teardown_at t) (t_teardown_failures t) (t_reclaim_lease_until t) (t_reclaim_lease_token t)
    (t_video_finish_unreachable t) x (t_video_finish_unreachable_at t) (t_r2_storage_quota_override t)
    (t_r2_storage_quota_bytes t) (t_runpod_mode t).
Definition set_video_finish_unreachable_at (x : option string) (t : Tenant) : Tenant :=
  mkTenant (t_id t) (t_slug t) (t_account_id t) (t_status t) (t_script_name t) (t_d1_database_id t) (t_r2_bucket_name
    t) (t_endpoints_json t) (t_r2_token_id t) (t_studio_release t) (t_modules_release t) (t_studio_token_enc t)
    (t_created_at t) (t_live_at t) (t_suspended_at t) (t_suspended_reason t) (t_deleted_at t) (t_api_token_rotated_at
    t) (t_teardown_at t) (t_teardown_failures t) (t_reclaim_lease_until t) (t_reclaim_lease_token t)
    (t_video_finish_unreachable t) (t_video_finish_unreachable_reason t) x (t_r2_storage_quota_override t)
    (t_r2_storage_quota_bytes t) (t_runpod_mode t).
Definition set_r2_storage_quota_override (x : option string) (t : Tenant) : Tenant :=
  mkTenant (t_id t) (t_slug t) (t_account_id t) (t_status t) (t_script_name t) (t_d1_database_id t) (t_r2_bucket_name
    t) (t_endpoints_json t) (t_r2_token_id t) (t_studio_release t) (t_modules_release t) (t_studio_token_enc t)
    (t_created_at t) (t_live_at t) (t_suspended_at t) (t_suspended_reason t) (t_deleted_at t) (t_api_token_rotated_at
    t) (t_teardown_at t) (t_teardown_failures t) (t_reclaim_lease_until t) (t_reclaim_lease_token t)
    (t_video_finish_unreachable t) (t_video_finish_unreachable_reason t) (t_video_finish_unreachable_at t) x
    (t_r2_storage_quota_bytes t) (t_runpod_mode t).
Definition set_r2_storage_quota_bytes (x : option string) (t : Tenant) : Tenant :=
  mkTenant (t_id t) (t_slug t) (t_account_id t) (t_status t) (t_script_name t) (t_d1_database_id t) (t_r2_bucket_name
    t) (t_endpoints_json t) (t_r2_token_id t) (t_studio_release t) (t_modules_release t) (t_studio_token_enc t)
    (t_created_at t) (t_live_at t) (t_suspended_at t) (t_suspended_reason t) (t_deleted_at t) (t_api_token_rotated_at
    t) (t_teardown_at t) (t_teardown_failures t) (t_reclaim_lease_until t) (t_reclaim_lease_token t)
    (t_video_finish_unreachable t) (t_video_finish_unreachable_reason t) (t_video_finish_unreachable_at t)
    (t_r2_storage_quota_override t) x (t_runpod_mode t).
Definition set_runpod_mode (x : string) (t : Tenant) : Tenant :=
  mkTenant (t_id t) (t_slug t) (t_account_id t) (t_status t) (t_script_name t) (t_d1_database_id t) (t_r2_bucket_name
    t) (t_endpoints_json t) (t_r2_token_id t) (t_studio_release t) (t_modules_release t) (t_studio_token_enc t)
    (t_created_at t) (t_live_at t) (t_suspended_at t) (t_suspended_reason t) (t_deleted_at t) (t_api_token_rotated_at
    t) (t_teardown_at t) (t_teardown_failures t) (t_reclaim_lease_until t) (t_reclaim_lease_token t)
    (t_video_finish_unreachable t) (t_video_finish_unreachable_reason t) (t_video_finish_unreachable_at t)
    (t_r2_storage_quota_override t) (t_r2_storage_quota_bytes t) x.

(** ** Identity *)

(** ** Lifecycle *)
Definition AWAITING_GO_LIVE_LEGACY : string := "awaiting_invoke_key".

Definition normalizeLifecycle (status : string) : string :=
  if status =s? AWAITING_GO_LIVE_LEGACY then "awaiting_go_live" else status.

Definition isAwaitingGoLive (status : option string) : bool :=
  match status with
  | Some s => (s =s? "awaiting_go_live") || (s =s? AWAITING_GO_LIVE_LEGACY)
  | None => false
  end.

Definition TIER_A_STATUSES : list string :=
  ["pending"; "provisioning"; "awaiting_go_live"; AWAITING_GO_LIVE_LEGACY; "failed"].
Definition tier_a (status : string) : bool := existsb (String.eqb status) TIER_A_STATUSES.

(** ** Jobs *)
Inductive JobKind := KProvision | KDeprovision | KModuleUpgrade | KStudioUpgrade.
Inductive JobStatus := JobQueued | JobRunning | JobSucceeded | JobFailed.

#[export] Instance JobKind_eq_dec : EqDecision JobKind.
Proof. solve_decision. Defined.
#[export] Instance JobStatus_eq_dec : EqDecision JobStatus.
Proof. solve_decision. Defined.

Record ProvisionJob := mkJob {
  p_id : string;
  p_tenant_id : string;
  p_kind : JobKind;
  p_status : JobStatus;
  p_step : option string;
  p_steps_done : string;
  p_error_step : option string;
  p_error_message : option string;
  p_attempts : Z;
  p_lease_until : option string;
  p_from_release : option string;
  p_to_release : option string;
  p_runpod_mode : option string;
  p_created_at : string;
  p_updated_at : string;
  p_finished_at : option string;
}.

#[export] Instance ProvisionJob_eq_dec : EqDecision ProvisionJob.
Proof. solve_decision. Defined.

(** ** Leases *)
Definition JOB_LEASE_SECONDS : Z := 60.
Definition RECLAIM_LEASE_SECONDS : Z := 300.

Definition leaseIsLive (leaseUntil : option string) (nowMs : Z) : bool :=
  match leaseUntil with
  | None => false
  | Some text => match SqlTime.parse_datetime text with Some t => nowMs <? t | None => false end
  end.

Definition unfinished (j : ProvisionJob) : bool :=
  match p_status j with JobQueued | JobRunning => true | _ => false end.
Definition jobHasLiveDriver (job : ProvisionJob) (nowMs : Z) : bool :=
  if negb (unfinished job) then false else leaseIsLive (p_lease_until job) nowMs.
Definition jobAwaitsFirstDriver (job : ProvisionJob) : bool := bool_decide (p_status job = JobQueued).

(** ** Slug claims *)
Definition SLUG_TAKEN_REASON : string := "that name is taken".

Record ReclaimHandle := mkReclaim {
  rh_tenant_id : string;
  rh_d1_database_id : option string;
  rh_r2_bucket_name : option string;
  rh_r2_token_id : option string;
  rh_script_name : option string;
}.

Inductive SlugClaim :=
| Available (reclaim : option ReclaimHandle)
| Unavailable (reason : string).

Definition classifySlugClaim (row : option Tenant) (accountId : string) (nowMs : Z) : SlugClaim :=
  match row with
  | None => Available None
  | Some row =>
      if negb (t_account_id row =s? accountId) then Unavailable SLUG_TAKEN_REASON
      else
        let neverLive := match t_live_at row with None => true | Some _ => false end in
        if neverLive && tier_a (t_status row) then
          if leaseIsLive (t_reclaim_lease_until row) nowMs
          then Unavailable "that name is being reset right now; try again in a few minutes"
          else Available (Some (mkReclaim (t_id row) (t_d1_database_id row) (t_r2_bucket_name row)
                                  (t_r2_token_id row) (t_script_name row)))
        else if negb neverLive && (t_status row =s? "deleted")
        then Unavailable "that name belonged to a studio that has been deleted, and cannot be reused"
        else Unavailable "you already have a studio at that name"
  end.

(** ** Slugs *)
Inductive SlugRejection := TooShort | TooLong | BadShape | ReservedName | Punycode.

Definition lower_alnum (c : ascii) : bool :=
  let n := Str.code c in ((97 <=? n) && (n <=? 122) || (48 <=? n) && (n <=? 57))%N.
Definition slug_char (c : ascii) : bool := lower_alnum c || Ascii.eqb c "-".

(** [SLUG_RE]: a letter or digit, one to thirty letters, digits or hyphens, a letter or digit. *)
Definition slug_shape (l : list ascii) : bool :=
  match l with
  | c :: rest =>
      match rev rest with
      | e :: mid =>
          lower_alnum c && lower_alnum e && forallb slug_char mid &&
          (1 <=? length mid)%nat && (length mid <=? 30)%nat
      | [] => false
      end
  | [] => false
  end.

Definition RESERVED : list string :=
  ["www"; "api"; "admin"; "administrator"; "root"; "demo"; "studio"; "mcp"; "studio-mcp";
   "app"; "status"; "mail"; "smtp"; "imap"; "ns"; "ns1"; "ns2"; "dns"; "cdn"; "static";
   "assets"; "support"; "help"; "docs"; "blog"; "billing"; "account"; "accounts"; "auth";
   "login"; "signup"; "security"; "abuse"; "postmaster"; "webmaster"; "test"; "staging";
   "dev"; "internal"; "vivijure"].

(** [None] is [{ ok: true }]. *)
Definition validateSlug (slug : string) : option SlugRejection :=
  let l := Str.chars slug in
  if (length l <? 3)%nat then Some TooShort
  else if (32 <? length l)%nat then Some TooLong
  else if negb (slug_shape l) then Some BadShape
  else if String.prefix "xn--" slug then Some Punycode
  else if existsb (String.eqb slug) RESERVED then Some ReservedName
  else None.

Definition slugRejectionMessage (reason : SlugRejection) : string :=
  match reason with
  | TooShort => "must be at least 3 characters"
  | TooLong => "must be at most 32 characters"
  | BadShape => "use lowercase letters, numbers, and hyphens; must start and end with a letter or number"
  | ReservedName => "that name is reserved"
  | Punycode => "use plain letters, numbers, and hyphens"
  end.

Definition tenantScriptName (slug : string) : string := "tenant-" +:+ slug +:+ "-studio".

(** ** Projections *)
Inductive RunPodMode := Dedicated | Shared.
Definition readRunPodMode (raw : option string) : RunPodMode :=
  match raw with Some s => if s =s? "shared" then Shared else Dedicated | None => Dedicated end.

Record TenantView := mkTenantView {
  tv_id : string;
  tv_slug : string;
  tv_status : string;
  tv_lifecycle : string;
  tv_url : option string;
  tv_studio_release : option string;
  tv_modules_release : option string;
  tv_created_at : string;
  tv_live_at : option string;
  tv_suspended_reason : option string;
  tv_runpod_mode : option RunPodMode;
}.

Definition is_suspended (t : Tenant) : bool := match t_suspended_at t with Some _ => true | None => false end.

Definition tenantView (tenant : Tenant) (domainSuffix : string) : TenantView :=
  let suspended := is_suspended tenant in
  let lifecycle := normalizeLifecycle (t_status tenant) in
  mkTenantView (t_id tenant) (t_slug tenant) (if suspended then "suspended" else lifecycle) lifecycle
    (if (t_status tenant =s? "live") && negb suspended
     then Some ("https://" +:+ t_slug tenant +:+ domainSuffix) else None)
    (t_studio_release tenant) (t_modules_release tenant) (t_created_at tenant) (t_live_at tenant)
    (t_suspended_reason tenant)
    (match t_endpoints_json tenant with
     | None => None
     | Some s => if s =s? "" then None else Some (readRunPodMode (Some (t_runpod_mode tenant)))
     end).

(** The endpoint lists.  [json_parse] is [JSON.parse]: [None] when it throws. *)
Record EndpointRecipe := mkRecipe { er_id : string; er_name : option string; er_label : option string }.
Definition js_str_opt (v : js) : option string := match v with JStr s => Some s | _ => None end.

Section endpoints.
Variable json_parse : string → option js.

Definition parsed_endpoints (tenant : Tenant) : list js :=
  match t_endpoints_json tenant with
  | Some s =>
      if Str.truthy s then match json_parse s with Some (JArr l) => l | _ => [] end else []
  | None => []
  end.

Definition recipe_of (v : js) : option EndpointRecipe :=
  match v with
  | JStr s => Some (mkRecipe s None None)
  | JArr _ | JObj _ =>
      match js_field v "id" with
      | JStr i => Some (mkRecipe i (js_str_opt (js_field v "name")) (js_str_opt (js_field v "label")))
      | _ => None
      end
  | _ => None
  end.
Definition tenantEndpointRecipe (tenant : Tenant) : list EndpointRecipe := omap recipe_of (parsed_endpoints tenant).

Definition id_of (v : js) : option string :=
  match v with
  | JStr s => Some s
  | JArr _ | JObj _ => js_str_opt (js_field v "id")
  | _ => None
  end.
Definition tenantEndpointIds (tenant : Tenant) : list string := omap id_of (parsed_endpoints tenant).
End endpoints.

(** ** The resolver's narrow status *)
Inductive RoutingStatus := RLive | RSuspended | RProvisioning | RUnknown.
Definition routingStatusFor (tenant : Tenant) : RoutingStatus :=
  if is_suspended tenant then RSuspended
  else if t_status tenant =s? "live" then RLive
  else if t_status tenant =s? "provisioning" then RProvisioning
  else RUnknown.

Record RoutingTenantRecord := mkRouting { rt_slug : string; rt_status : RoutingStatus; rt_script_name : string }.
(** [D1TenantResolver.resolve] on the row the store answered. *)
Definition resolve_tenant (row : option Tenant) : option RoutingTenantRecord :=
  (λ t, mkRouting (t_slug t) (routingStatusFor t) (default "" (t_script_name t))) <$> row.
