(* ===== verification/TenantStore.v ===== *)
(** * The statements on tenants, jobs and resources (src/store-d1.ts)

    The tables [tenants], [provision_jobs] and [tenant_resource_ownership] and every statement of
    [D1Store] that writes them.  [now] is the instant of the statement in seconds since the epoch; the
    tables keep the text [datetime('now')] makes of it.  Tokens of leases are arguments
    ([crypto.randomUUID()]). *)

From S2P Require Export Tenants.
Open Scope string_scope.
Open Scope list_scope.
Open Scope Z_scope.
Open Scope plane_scope.

Inductive TenantResourceKind := ResD1 | ResBucket | ResToken | ResWorker.
#[export] Instance TenantResourceKind_eq_dec : EqDecision TenantResourceKind.
Proof. solve_decision. Defined.

Record Ownership := mkOwnership {
  ow_kind : TenantResourceKind;
  ow_key : string;
  ow_tenant : string;
  ow_provisioned_at : string;
}.

Record plane_db := mkPlane {
  pd_accounts : list string;
  pd_tenants : list Tenant;
  pd_jobs : list ProvisionJob;
  pd_owners : list Ownership;
}.

Definition with_tenants (f : list Tenant → list Tenant) (db : plane_db) : plane_db :=
  mkPlane (pd_accounts db) (f (pd_tenants db)) (pd_jobs db) (pd_owners db).
Definition with_jobs (f : list ProvisionJob → list ProvisionJob) (db : plane_db) : plane_db :=
  mkPlane (pd_accounts db) (pd_tenants db) (f (pd_jobs db)) (pd_owners db).
Definition with_owners (f : list Ownership → list Ownership) (db : plane_db) : plane_db :=
  mkPlane (pd_accounts db) (pd_tenants db) (pd_jobs db) (f (pd_owners db)).

Definition has_id (i : string) (t : Tenant) : bool := t_id t =s? i.
Definition has_slug (s : string) (t : Tenant) : bool := t_slug t =s? s.
Definition job_id_is (i : string) (j : ProvisionJob) : bool := p_id j =s? i.

(** [datetime('now', '+n seconds')] *)
Definition from_now (now n : Z) : string := SqlTime.datetime (now + n).
Definition sql_now (now : Z) : string := SqlTime.datetime now.

(** ** Reads *)
Definition getTenantById (id : string) (db : plane_db) : option Tenant := List.find (has_id id) (pd_tenants db).
Definition getTenantBySlug (slug : string) (db : plane_db) : option Tenant := List.find (has_slug slug) (pd_tenants db).
Definition getTenantForAccount (accountId : string) (db : plane_db) : option Tenant :=
  head (order_desc (λ t, (t_created_at t, ""))
          (jfilter (λ t, (t_account_id t =s? accountId) && negb (t_status t =s? "deleted")) (pd_tenants db))).
Definition getJob (id : string) (db : plane_db) : option ProvisionJob := List.find (job_id_is id) (pd_jobs db).
Definition getLatestJobForTenant (tenantId : string) (db : plane_db) : option ProvisionJob :=
  head (order_desc (λ j, (p_created_at j, "")) (jfilter (λ j, p_tenant_id j =s? tenantId) (pd_jobs db))).

(** [lease_until IS NOT NULL AND lease_until > datetime('now')] and
    [lease_until IS NULL OR lease_until < datetime('now')], comparisons of texts. *)
Definition lease_live (now : Z) (l : option string) : bool :=
  match l with Some u => sql_now now <s? u | None => false end.
Definition lease_free (now : Z) (l : option string) : bool :=
  match l with Some u => u <s? sql_now now | None => true end.

Definition drives (now : Z) (tenantId : string) (j : ProvisionJob) : bool :=
  (p_tenant_id j =s? tenantId) && unfinished j && lease_live now (p_lease_until j).
Definition hasLiveProvisionLease (now : Z) (tenantId : string) (db : plane_db) : bool :=
  existsb (drives now tenantId) (pd_jobs db).

(** [nowMs] is [Date.now()] when the claim is classified, [now] the instant of the lease query. *)
Definition checkSlugAvailability (nowMs now : Z) (slug accountId : string) (db : plane_db) : SlugClaim :=
  match classifySlugClaim (getTenantBySlug slug db) accountId nowMs with
  | Available (Some h) =>
      if hasLiveProvisionLease now (rh_tenant_id h) db
      then Unavailable "that name is still being set up; try again in a minute"
      else Available (Some h)
  | claim => claim
  end.

(** ** The statements, with the clock as an argument *)
Section statements.
Variable now : Z.

(** [UPDATE tenants SET .. WHERE id = i AND p RETURNING *] *)
Definition update_tenant (i : string) (p : Tenant → bool) (f : Tenant → Tenant) : M plane_db string (option Tenant) := λ db,
  let sel t := has_id i t && p t in
  (Ok (f <$> List.find sel (pd_tenants db)), with_tenants (update_where sel f) db).
Definition set_tenant (i : string) (f : Tenant → Tenant) : M plane_db string unit :=
  _ ← update_tenant i (λ _, true) f; mret tt.

(** The half of the tier rule every reclaim statement repeats. *)
Definition reclaimable_row (accountId : string) (t : Tenant) : bool :=
  (t_account_id t =s? accountId) && (match t_live_at t with None => true | Some _ => false end) && tier_a (t_status t).
Definition undriven (db : plane_db) (t : Tenant) : bool := negb (existsb (drives now (t_id t)) (pd_jobs db)).

Definition lease_row (leaseSeconds : Z) (token : string) (t : Tenant) : Tenant :=
  set_reclaim_lease_token (Some token) (set_reclaim_lease_until (Some (from_now now leaseSeconds)) t).

Definition claimReclaim (tenantId accountId : string) (leaseSeconds : Z) (token : string) : M plane_db string (option Tenant) := λ db,
  update_tenant tenantId
    (λ t, reclaimable_row accountId t && lease_free now (t_reclaim_lease_until t) && undriven db t)
    (lease_row leaseSeconds token) db.

Definition blank_row (t : Tenant) : Tenant :=
  set_status "pending" (set_d1_database_id None (set_r2_bucket_name None (set_r2_token_id None
    (set_script_name None (set_endpoints_json None (set_studio_release None (set_studio_token_enc None
      (set_reclaim_lease_until None (set_reclaim_lease_token None t))))))))).

Definition holds_token (token : string) (t : Tenant) : bool := bool_decide (t_reclaim_lease_token t = Some token).

Definition reclaimSlug (tenantId accountId leaseToken : string) : M plane_db string (option Tenant) := λ db,
  update_tenant tenantId
    (λ t, reclaimable_row accountId t && holds_token leaseToken t && lease_live now (t_reclaim_lease_until t) && undriven db t)
    blank_row db.

Definition teardown_row (leaseSeconds : Z) (token : string) (t : Tenant) : Tenant :=
  set_status (if t_status t =s? "deleted" then "deleted" else "deleting") (lease_row leaseSeconds token t).

Definition beginTeardown (tenantId : string) (leaseSeconds : Z) (token : string) : M plane_db string (option Tenant) := λ db,
  update_tenant tenantId (λ t, lease_free now (t_reclaim_lease_until t) && undriven db t) (teardown_row leaseSeconds token) db.

Definition finished_row (reaped : bool) (t : Tenant) : Tenant :=
  set_status (if reaped then "deleted" else t_status t)
    (set_deleted_at (if reaped then Some (default (sql_now now) (t_deleted_at t)) else t_deleted_at t)
      (set_reclaim_lease_until None (set_reclaim_lease_token None t))).

Definition finishTeardown (tenantId leaseToken : string) (reaped : bool) : M plane_db string (option Tenant) :=
  update_tenant tenantId (holds_token leaseToken) (finished_row reaped).

Definition new_tenant (id slug accountId status : string) : Tenant :=
  mkTenant id slug accountId status None None None None None None None None (sql_now now) None None None None None
    None None None None 0 None None None None "dedicated".

Definition createTenant (id slug accountId status : string) : M plane_db string Tenant := λ db,
  if existsb (has_id id) (pd_tenants db) then (Err "UNIQUE constraint failed: tenants.id", db)
  else if existsb (has_slug slug) (pd_tenants db) then (Err "UNIQUE constraint failed: tenants.slug", db)
  else if negb (existsb (String.eqb accountId) (pd_accounts db)) then (Err "FOREIGN KEY constraint failed", db)
  else (Ok (new_tenant id slug accountId status), with_tenants (λ l, l ++ [new_tenant id slug accountId status]) db).

Definition status_row (status : string) (t : Tenant) : Tenant :=
  set_status status
    (set_live_at (if (status =s? "live") && match t_live_at t with None => true | _ => false end
                  then Some (sql_now now) else t_live_at t) t).
Definition setTenantStatus (id status : string) : M plane_db string unit := set_tenant id (status_row status).

Definition suspendTenant (id reason : string) : M plane_db string unit :=
  set_tenant id (λ t, set_suspended_at (Some (sql_now now)) (set_suspended_reason (Some reason) t)).
Definition resumeTenant (id : string) : M plane_db string unit :=
  set_tenant id (λ t, set_suspended_at None (set_suspended_reason None t)).

(** ** Resource ownership *)
Definition owns (kind : TenantResourceKind) (key : string) (o : Ownership) : bool :=
  bool_decide (ow_kind o = kind) && (ow_key o =s? key).
Definition getResourceOwner (kind : TenantResourceKind) (key : string) (db : plane_db) : option string :=
  if key =s? "" then None else ow_tenant <$> List.find (owns kind key) (pd_owners db).

(** [ON CONFLICT (resource_kind, resource_key) DO UPDATE] *)
Definition upsert_owner (kind : TenantResourceKind) (key tenantId : string) : M plane_db string unit := modify (with_owners (λ l,
  if existsb (owns kind key) l
  then update_where (owns kind key) (λ _, mkOwnership kind key tenantId (sql_now now)) l
  else l ++ [mkOwnership kind key tenantId (sql_now now)])).

Definition gone (t : Tenant) : bool := (t_status t =s? "deleted") || (t_status t =s? "failed").

Definition claimResourceOwnership (kind : TenantResourceKind) (key ownerTenantId : string) : M plane_db string unit :=
  if key =s? "" then mret tt
  else
    prior ← gets (getResourceOwner kind key);
    match prior with
    | Some p =>
        if Str.truthy p && negb (p =s? ownerTenantId) then
          priorRow ← gets (getTenantById p);
          match priorRow with
          | Some r => if negb (gone r) then mret tt else upsert_owner kind key ownerTenantId
          | None => upsert_owner kind key ownerTenantId
          end
        else upsert_owner kind key ownerTenantId
    | None => upsert_owner kind key ownerTenantId
    end.

Definition setTenantD1 (id databaseId : string) : M plane_db string unit :=
  _ ← set_tenant id (set_d1_database_id (Some databaseId)); claimResourceOwnership ResD1 databaseId id.
Definition setTenantBucket (id bucket : string) : M plane_db string unit :=
  _ ← set_tenant id (set_r2_bucket_name (Some bucket)); claimResourceOwnership ResBucket bucket id.
Definition setTenantR2Token (id tokenId : string) : M plane_db string unit :=
  _ ← set_tenant id (set_r2_token_id (Some tokenId)); claimResourceOwnership ResToken tokenId id.
Definition setTenantScript (id scriptName release : string) : M plane_db string unit :=
  _ ← set_tenant id (λ t, set_script_name (Some scriptName) (set_studio_release (Some release) t));
  claimResourceOwnership ResWorker scriptName id.

Definition column_of (resource : TenantResourceKind) : Tenant → option string :=
  match resource with
  | ResD1 => t_d1_database_id | ResBucket => t_r2_bucket_name | ResToken => t_r2_token_id | ResWorker => t_script_name
  end.
Definition clear_column (resource : TenantResourceKind) : Tenant → Tenant :=
  match resource with
  | ResD1 => set_d1_database_id None | ResBucket => set_r2_bucket_name None
  | ResToken => set_r2_token_id None | ResWorker => set_script_name None
  end.

Definition clearTenantResource (id : string) (resource : TenantResourceKind) : M plane_db string unit :=
  row ← gets (getTenantById id);
  let key := match row with Some t => column_of resource t | None => None end in
  _ ← set_tenant id (clear_column resource);
  match key with
  | Some k =>
      if Str.truthy k
      then modify (with_owners (jfilter (λ o, negb (owns resource k o && (ow_tenant o =s? id)))))
      else mret tt
  | None => mret tt
  end.

(** ** Provisioning writes of one column or one group of columns *)
Definition setTenantEndpoints (id endpointsJson : string) : M plane_db string unit := set_tenant id (set_endpoints_json (Some endpointsJson)).
Definition setTenantRunPodMode (id : string) (mode : RunPodMode) : M plane_db string unit :=
  set_tenant id (set_runpod_mode (match mode with Shared => "shared" | Dedicated => "dedicated" end)).
Definition setTenantStudioRelease (id : string) (release : option string) : M plane_db string unit := set_tenant id (set_studio_release release).
Definition setTenantModulesRelease (id : string) (release : option string) : M plane_db string unit := set_tenant id (set_modules_release release).
Definition setTenantStudioToken (id encValue : string) : M plane_db string unit := set_tenant id (set_studio_token_enc (Some encValue)).
Definition setApiTokenRotatedAt (id : string) : M plane_db string unit := set_tenant id (set_api_token_rotated_at (Some (sql_now now))).
(** [mark]: the reason and the time, or nothing to clear the three columns. *)
Definition setTenantVideoFinishUnreachable (id : string) (mark : option (string * string)) : M plane_db string unit :=
  set_tenant id (λ t, set_video_finish_unreachable (match mark with Some _ => 1 | None => 0 end)
                        (set_video_finish_unreachable_reason (fst <$> mark) (set_video_finish_unreachable_at (snd <$> mark) t))).

Inductive QuotaOverride := QuotaSet (bytes : string) | QuotaNone.
Definition setTenantStorageQuota (id : string) (override : option QuotaOverride) : M plane_db string unit :=
  set_tenant id (λ t,
    set_r2_storage_quota_override (match override with Some (QuotaSet _) => Some "set" | Some QuotaNone => Some "none" | None => None end)
      (set_r2_storage_quota_bytes (match override with Some (QuotaSet b) => Some b | _ => None end) t)).
(** [failures] is the JSON text of the failures. *)
Definition recordTeardown (id failures : string) : M plane_db string unit :=
  set_tenant id (λ t, set_teardown_at (Some (sql_now now)) (set_teardown_failures (Some failures) t)).

Record EncryptedToken := mkEncToken { et_id : string; et_slug : string; et_enc : string }.
Definition listEncryptedStudioTokens (db : plane_db) : list EncryptedToken :=
  omap (λ t, match t_studio_token_enc t with
             | Some e => if Str.truthy e then Some (mkEncToken (t_id t) (t_slug t) e) else None
             | None => None
             end) (order_asc (λ t, (t_id t, "")) (pd_tenants db)).

Definition setTenantStudioTokenIfUnchanged (id expectedEnc newEnc : string) : M plane_db string bool :=
  written ← update_tenant id (λ t, bool_decide (t_studio_token_enc t = Some expectedEnc)) (set_studio_token_enc (Some newEnc));
  mret (match written with Some _ => true | None => false end).

(** ** The jobs.  [UPDATE provision_jobs SET .. WHERE id = i AND p], answering [meta.changes = 1]. *)
Definition update_job (i : string) (p : ProvisionJob → bool) (f : ProvisionJob → ProvisionJob) : M plane_db string bool := λ db,
  let sel j := job_id_is i j && p j in
  (Ok (changes sel (pd_jobs db) =? 1)%nat, with_jobs (update_where sel f) db).

Definition job_lease (lease : option string) (j : ProvisionJob) : ProvisionJob :=
  mkJob (p_id j) (p_tenant_id j) (p_kind j) (p_status j) (p_step j) (p_steps_done j) (p_error_step j) (p_error_message j)
    (p_attempts j) lease (p_from_release j) (p_to_release j) (p_runpod_mode j) (p_created_at j) (p_updated_at j) (p_finished_at j).
Definition job_touched (j : ProvisionJob) : ProvisionJob :=
  mkJob (p_id j) (p_tenant_id j) (p_kind j) (p_status j) (p_step j) (p_steps_done j) (p_error_step j) (p_error_message j)
    (p_attempts j) (p_lease_until j) (p_from_release j) (p_to_release j) (p_runpod_mode j) (p_created_at j) (sql_now now) (p_finished_at j).
Definition job_running (j : ProvisionJob) : ProvisionJob :=
  mkJob (p_id j) (p_tenant_id j) (p_kind j) JobRunning (p_step j) (p_steps_done j) (p_error_step j) (p_error_message j)
    (p_attempts j + 1) (Some (from_now now JOB_LEASE_SECONDS)) (p_from_release j) (p_to_release j) (p_runpod_mode j)
    (p_created_at j) (sql_now now) (p_finished_at j).
Definition job_progress (step stepsDoneJson : string) (j : ProvisionJob) : ProvisionJob :=
  mkJob (p_id j) (p_tenant_id j) (p_kind j) (p_status j) (Some step) stepsDoneJson (p_error_step j) (p_error_message j)
    (p_attempts j) (Some (from_now now JOB_LEASE_SECONDS)) (p_from_release j) (p_to_release j) (p_runpod_mode j)
    (p_created_at j) (sql_now now) (p_finished_at j).
Definition job_finished (succeeded : bool) (errorStep errorMessage : option string) (j : ProvisionJob) : ProvisionJob :=
  mkJob (p_id j) (p_tenant_id j) (p_kind j) (if succeeded then JobSucceeded else JobFailed) (p_step j) (p_steps_done j)
    errorStep errorMessage (p_attempts j) None (p_from_release j) (p_to_release j) (p_runpod_mode j)
    (p_created_at j) (sql_now now) (Some (sql_now now)).

Definition insert_job (j : ProvisionJob) : M plane_db string ProvisionJob := λ db,
  if existsb (job_id_is (p_id j)) (pd_jobs db) then (Err "UNIQUE constraint failed: provision_jobs.id", db)
  else if negb (existsb (has_id (p_tenant_id j)) (pd_tenants db)) then (Err "FOREIGN KEY constraint failed", db)
  else (Ok j, with_jobs (λ l, l ++ [j]) db).

Definition new_job (id tenantId : string) (kind : JobKind) (fromRelease toRelease mode : option string) : ProvisionJob :=
  mkJob id tenantId kind JobQueued None "[]" None None 0 None fromRelease toRelease mode (sql_now now) (sql_now now) None.

Record ProvisionJobFacts := mkFacts { pf_runpodMode : RunPodMode; pf_toRelease : string }.
(** [kind] is [provision] or [deprovision]. *)
Definition createProvisionJob (id tenantId : string) (kind : JobKind) (facts : ProvisionJobFacts) : M plane_db string ProvisionJob :=
  insert_job (new_job id tenantId kind None (Some (pf_toRelease facts))
                (Some (match pf_runpodMode facts with Shared => "shared" | Dedicated => "dedicated" end))).
Definition insertUpgradeJob (kind : JobKind) (id tenantId : string) (fromRelease : option string) (toRelease : string) : M plane_db string ProvisionJob :=
  insert_job (new_job id tenantId kind fromRelease (Some toRelease) None).
Definition createModuleUpgradeJob := insertUpgradeJob KModuleUpgrade.
Definition createStudioUpgradeJob := insertUpgradeJob KStudioUpgrade.

Definition setJobRunning (id : string) : M plane_db string unit :=
  _ ← update_job id (λ j, lease_free now (p_lease_until j)) job_running; mret tt.
Definition claimJob (id : string) (leaseSeconds : Z) : M plane_db string bool :=
  update_job id (λ j, unfinished j && lease_free now (p_lease_until j))
    (λ j, job_touched (job_lease (Some (from_now now leaseSeconds)) j)).
Definition renewJobLease (id : string) (leaseSeconds : Z) : M plane_db string bool :=
  update_job id unfinished (job_lease (Some (from_now now leaseSeconds))).
Definition releaseJobLease (id : string) : M plane_db string bool := update_job id unfinished (job_lease None).
Definition updateJobProgress (id step stepsDoneJson : string) : M plane_db string unit :=
  _ ← update_job id unfinished (job_progress step stepsDoneJson); mret tt.
Definition finishJob (id : string) (succeeded : bool) (errorStep errorMessage : option string) : M plane_db string bool :=
  update_job id unfinished (job_finished succeeded errorStep errorMessage).
End statements.

(** ** The referential guard's question *)
Record TenantResourceRefs := mkRefs {
  rr_d1 : option string; rr_bucket : option string; rr_token : option string; rr_script : option string
}.
Record ResourceReferrer := mkReferrer {
  rf_tenant_id : string; rf_slug : string; rf_status : string; rf_resource : TenantResourceKind
}.
Definition ref_of (resource : TenantResourceKind) (refs : TenantResourceRefs) : option string :=
  match resource with ResD1 => rr_d1 refs | ResBucket => rr_bucket refs | ResToken => rr_token refs | ResWorker => rr_script refs end.
Definition refers (refs : TenantResourceRefs) (resource : TenantResourceKind) (t : Tenant) : bool :=
  match ref_of resource refs with Some k => bool_decide (column_of resource t = Some k) | None => false end.
Definition all_resources : list TenantResourceKind := [ResD1; ResBucket; ResToken; ResWorker].

Definition findResourceReferrers (exceptTenantId : string) (refs : TenantResourceRefs) (db : plane_db) : list ResourceReferrer :=
  concat ((λ t, omap (λ r, if refers refs r t then Some (mkReferrer (t_id t) (t_slug t) (t_status t) r) else None) all_resources)
    <$> jfilter (λ t, negb (has_id exceptTenantId t) && existsb (λ r, refers refs r t) all_resources) (pd_tenants db)).
