(* ===== verification/TenantLeases.v ===== *)
(** * Leases, jobs and names over time

    The statements of TenantStore.v run by any number of requests, cron ticks and teardowns at once:
    a history is a list of statements with their instants.  What holds of every history: who may tear
    a row down, whose lease it is, when a job is closed, and which names are gone for good. *)

From S2P Require Export TenantStore.
Open Scope string_scope.
Open Scope list_scope.
Open Scope Z_scope.
Open Scope plane_scope.

(** The writes that only touch columns no rule reads. *)
Inductive column_write :=
| WEndpoints (json : string) | WRunPodMode (mode : RunPodMode) | WStudioRelease (r : option string)
| WModulesRelease (r : option string) | WStudioToken (enc : string) | WTokenIfUnchanged (old new : string)
| WTokenRotated | WVideoFinish (mark : option (string * string)) | WQuota (q : option QuotaOverride)
| WTeardownRecord (failures : string).

Inductive store_op :=
| OpClaimReclaim (id account : string) (secs : Z) (token : string)
| OpReclaimSlug (id account token : string)
| OpBeginTeardown (id : string) (secs : Z) (token : string)
| OpFinishTeardown (id token : string) (reaped : bool)
| OpCreateTenant (id slug account status : string)
| OpSetStatus (id status : string)
| OpSuspend (id reason : string)
| OpResume (id : string)
| OpSetResource (kind : TenantResourceKind) (id key release : string)
| OpClearResource (id : string) (kind : TenantResourceKind)
| OpColumn (id : string) (w : column_write)
| OpCreateJob (kind : JobKind) (id tenant : string) (from to mode : option string)
| OpSetJobRunning (id : string)
| OpClaimJob (id : string) (secs : Z)
| OpRenewLease (id : string) (secs : Z)
| OpReleaseLease (id : string)
| OpProgress (id step done : string)
| OpFinishJob (id : string) (succeeded : bool) (errorStep errorMessage : option string).

Definition write_column (now : Z) (id : string) (w : column_write) (db : plane_db) : plane_db :=
  match w with
  | WEndpoints j => exec (setTenantEndpoints id j) db
  | WRunPodMode m => exec (setTenantRunPodMode id m) db
  | WStudioRelease r => exec (setTenantStudioRelease id r) db
  | WModulesRelease r => exec (setTenantModulesRelease id r) db
  | WStudioToken e => exec (setTenantStudioToken id e) db
  | WTokenIfUnchanged o n => exec (setTenantStudioTokenIfUnchanged id o n) db
  | WTokenRotated => exec (setApiTokenRotatedAt now id) db
  | WVideoFinish m => exec (setTenantVideoFinishUnreachable id m) db
  | WQuota q => exec (setTenantStorageQuota id q) db
  | WTeardownRecord f => exec (recordTeardown now id f) db
  end.

Definition set_resource (now : Z) (kind : TenantResourceKind) (id key release : string) : M plane_db string unit :=
  match kind with
  | ResD1 => setTenantD1 now id key
  | ResBucket => setTenantBucket now id key
  | ResToken => setTenantR2Token now id key
  | ResWorker => setTenantScript now id key release
  end.

Definition exec_store (now : Z) (op : store_op) (db : plane_db) : plane_db :=
  match op with
  | OpClaimReclaim i a s k => exec (claimReclaim now i a s k) db
  | OpReclaimSlug i a k => exec (reclaimSlug now i a k) db
  | OpBeginTeardown i s k => exec (beginTeardown now i s k) db
  | OpFinishTeardown i k r => exec (finishTeardown now i k r) db
  | OpCreateTenant i s a st => exec (createTenant now i s a st) db
  | OpSetStatus i st => exec (setTenantStatus now i st) db
  | OpSuspend i r => exec (suspendTenant now i r) db
  | OpResume i => exec (resumeTenant i) db
  | OpSetResource kind i key r => exec (set_resource now kind i key r) db
  | OpClearResource i kind => exec (clearTenantResource i kind) db
  | OpColumn i w => write_column now i w db
  | OpCreateJob kind i t from to mode => exec (insert_job (new_job now i t kind from to mode)) db
  | OpSetJobRunning i => exec (setJobRunning now i) db
  | OpClaimJob i s => exec (claimJob now i s) db
  | OpRenewLease i s => exec (renewJobLease now i s) db
  | OpReleaseLease i => exec (releaseJobLease i) db
  | OpProgress i st d => exec (updateJobProgress now i st d) db
  | OpFinishJob i ok es em => exec (finishJob now i ok es em) db
  end.

(** A history: each statement with its instant. *)
Definition history : Type := list (Z * store_op).
Definition replay (h : history) (db : plane_db) : plane_db := fold_left (λ db e, exec_store e.1 e.2 db) h db.

(** ** What a statement does to one row *)
Definition column_effect (now : Z) (w : column_write) (t : Tenant) : Tenant :=
  match w with
  | WEndpoints j => set_endpoints_json (Some j) t
  | WRunPodMode m => set_runpod_mode (match m with Shared => "shared" | Dedicated => "dedicated" end) t
  | WStudioRelease r => set_studio_release r t
  | WModulesRelease r => set_modules_release r t
  | WStudioToken e => set_studio_token_enc (Some e) t
  | WTokenIfUnchanged o n => if bool_decide (t_studio_token_enc t = Some o) then set_studio_token_enc (Some n) t else t
  | WTokenRotated => set_api_token_rotated_at (Some (sql_now now)) t
  | WVideoFinish m =>
      set_video_finish_unreachable (match m with Some _ => 1 | None => 0 end)
        (set_video_finish_unreachable_reason (fst <$> m) (set_video_finish_unreachable_at (snd <$> m) t))
  | WQuota q =>
      set_r2_storage_quota_override (match q with Some (QuotaSet _) => Some "set" | Some QuotaNone => Some "none" | None => None end)
        (set_r2_storage_quota_bytes (match q with Some (QuotaSet b) => Some b | _ => None end) t)
  | WTeardownRecord f => set_teardown_at (Some (sql_now now)) (set_teardown_failures (Some f) t)
  end.

Definition resource_effect (kind : TenantResourceKind) (key release : string) (t : Tenant) : Tenant :=
  match kind with
  | ResD1 => set_d1_database_id (Some key) t
  | ResBucket => set_r2_bucket_name (Some key) t
  | ResToken => set_r2_token_id (Some key) t
  | ResWorker => set_script_name (Some key) (set_studio_release (Some release) t)
  end.

Definition row_effect (now : Z) (op : store_op) (db : plane_db) (t : Tenant) : Tenant :=
  let on i p f := if has_id i t && p then f t else t in
  match op with
  | OpClaimReclaim i a s k =>
      on i (reclaimable_row a t && lease_free now (t_reclaim_lease_until t) && undriven now db t) (lease_row now s k)
  | OpReclaimSlug i a k =>
      on i (reclaimable_row a t && holds_token k t && lease_live now (t_reclaim_lease_until t) && undriven now db t) blank_row
  | OpBeginTeardown i s k => on i (lease_free now (t_reclaim_lease_until t) && undriven now db t) (teardown_row now s k)
  | OpFinishTeardown i k r => on i (holds_token k t) (finished_row now r)
  | OpSetStatus i st => on i true (status_row now st)
  | OpSuspend i r => on i true (λ t, set_suspended_at (Some (sql_now now)) (set_suspended_reason (Some r) t))
  | OpResume i => on i true (λ t, set_suspended_at None (set_suspended_reason None t))
  | OpSetResource kind i key r => on i true (resource_effect kind key r)
  | OpClearResource i kind => on i true (clear_column kind)
  | OpColumn i w => on i true (column_effect now w)
  | _ => t
  end.

Definition created_rows (now : Z) (op : store_op) (db : plane_db) : list Tenant :=
  match op with
  | OpCreateTenant i s a st =>
      if existsb (has_id i) (pd_tenants db) || existsb (has_slug s) (pd_tenants db) ||
         negb (existsb (String.eqb a) (pd_accounts db))
      then [] else [new_tenant now i s a st]
  | _ => []
  end.

Section effects.
Context (now : Z) (db : plane_db).

Lemma claim_owner_rest kind key i d :
  let d' := (claimResourceOwnership now kind key i d).2 in
  pd_tenants d' = pd_tenants d ∧ pd_jobs d' = pd_jobs d ∧ pd_accounts d' = pd_accounts d.
Proof.
unfold claimResourceOwnership, gets, upsert_owner, modify, mbind, M_bind, mret, M_ret, with_owners.
destruct (key =s? ""); [done|]. cbn. destruct (getResourceOwner kind key d) as [p|]; [|done].
destruct (Str.truthy p && negb (p =s? i)); [|done]. cbn. by destruct (getTenantById p d) as [r|]; [destruct (gone r)|].
Qed.

Lemma set_resource_rest kind i key r :
  let d' := exec (set_resource now kind i key r) db in
  pd_tenants d' = update_where (λ t, has_id i t && true) (resource_effect kind key r) (pd_tenants db) ∧
  pd_jobs d' = pd_jobs db ∧ pd_accounts d' = pd_accounts db.
Proof.
destruct kind; apply claim_owner_rest.
Qed.

Lemma clear_resource_rest i kind :
  let d' := exec (clearTenantResource i kind) db in
  pd_tenants d' = update_where (λ t, has_id i t && true) (clear_column kind) (pd_tenants db) ∧
  pd_jobs d' = pd_jobs db ∧ pd_accounts d' = pd_accounts db.
Proof.
unfold exec, clearTenantResource, gets, mbind, M_bind. cbn.
destruct (match getTenantById i db with Some t => column_of kind t | None => None end) as [k|]; [|done].
by destruct (Str.truthy k).
Qed.

(** The rows after a statement: each row through its effect, then the row it created. *)
Lemma exec_tenants op :
  pd_tenants (exec_store now op db) = (row_effect now op db <$> pd_tenants db) ++ created_rows now op db.
Proof.
assert (∀ l : list Tenant, (λ t, t) <$> l = l) as Hid by apply list_fmap_id.
destruct op as [| | | |i s a st| | | |kind i key r|i kind|i w| | | | | | |]; cbn [exec_store created_rows row_effect]; rewrite ?app_nil_r;
  try done; try by (rewrite Hid).
- unfold exec, createTenant. rewrite Hid.
  destruct (existsb (has_id i) _); [by rewrite app_nil_r|]. destruct (existsb (has_slug s) _); [by rewrite app_nil_r|].
  by destruct (negb _); [rewrite app_nil_r|].
- apply set_resource_rest.
- apply clear_resource_rest.
- destruct w; try done. apply list_fmap_ext. intros k t _. cbn. unfold has_id. by destruct (t_id t =s? i), (bool_decide _).
- unfold exec, insert_job. rewrite Hid. by repeat case_match.
Qed.

(** No statement changes the identity of a row. *)
Lemma row_effect_id op t :
  t_id (row_effect now op db t) = t_id t ∧ t_slug (row_effect now op db t) = t_slug t ∧
  t_account_id (row_effect now op db t) = t_account_id t ∧ t_created_at (row_effect now op db t) = t_created_at t.
Proof.
destruct op as [| | | | | | | |kind| kind kk|i w| | | | | | |]; cbn; try done; try (by destruct (_ && _)).
- destruct (_ && _); [|done]. by destruct kind.
- destruct (_ && _); [|done]. by destruct kk.
- destruct (_ && _); [|done]. destruct w; try done. cbn. by destruct (bool_decide _).
Qed.

Lemma row_after i op t :
  getTenantById i db = Some t → getTenantById i (exec_store now op db) = Some (row_effect now op db t).
Proof.
unfold getTenantById. rewrite exec_tenants.
assert (∀ x, has_id i (row_effect now op db x) = has_id i x) as Hhas.
{ intros x. unfold has_id. by rewrite (proj1 (row_effect_id op x)). }
revert Hhas. generalize (row_effect now op db) as g. intros g Hhas.
generalize (created_rows now op db). intros new.
induction (pd_tenants db) as [|x l IH]; [done|]. cbn. rewrite Hhas.
destruct (has_id i x); [by intros [= ->]|exact IH].
Qed.

Lemma find_by_id i t : getTenantById i db = Some t → t_id t = i ∧ t ∈ pd_tenants db.
Proof. intros [Hin Hid]%find_Some_elem. unfold has_id in Hid. by bool_hyps. Qed.
End effects.

(** ** Leases *)

(** An operation that gives the lease back under token [k]. *)
Definition completes (i k : string) (op : store_op) : bool :=
  match op with
  | OpReclaimSlug i' _ k' | OpFinishTeardown i' k' _ => (i' =s? i) && (k' =s? k)
  | _ => false
  end.

Definition leased (t : Tenant) (k : string) (until : Z) : Prop :=
  t_reclaim_lease_token t = Some k ∧ t_reclaim_lease_until t = Some (SqlTime.datetime until).

Section leases.
Context (i k : string) (until : Z).
Hypothesis Huntil : SqlTime.in_range until.

Lemma lease_not_free now t :
  SqlTime.in_range now → now <= until → leased t k until → lease_free now (t_reclaim_lease_until t) = false.
Proof.
intros Hn Hle [_ Hu]. unfold lease_free, sql_now. rewrite Hu, SqlTime.datetime_ltb by done. by apply Z.ltb_ge.
Qed.

(** A live lease survives every statement of everybody but its holder. *)
Lemma lease_step now op db t :
  SqlTime.in_range now → now <= until → t_id t = i → completes i k op = false → leased t k until →
  leased (row_effect now op db t) k until.
Proof.
intros Hn Hle Hi Hc Hl. pose proof (lease_not_free now t Hn Hle Hl) as Hf.
destruct op as [| | | | | | | |kind| ? kk|? w| | | | | | |]; cbn; rewrite ?Hf, ?andb_false_r; cbn; rewrite ?andb_false_r;
  try done; try (by destruct (_ && _)); unfold has_id, holds_token in *; rewrite ?Hi.
- cbn in Hc. destruct (i =s? id) eqn:E; [|done]. bool_hyps. subst id. rewrite String.eqb_refl in Hc. cbn in Hc. bool_hyps.
  rewrite bool_decide_eq_false_2; [by rewrite andb_false_r|]. rewrite (proj1 Hl). congruence.
- cbn in Hc. destruct (i =s? id) eqn:E; [|done]. bool_hyps. subst id. rewrite String.eqb_refl in Hc. cbn in Hc. bool_hyps.
  rewrite bool_decide_eq_false_2; [done|]. rewrite (proj1 Hl). congruence.
- destruct (_ && _); [|done]. by destruct kind.
- destruct (_ && _); [|done]. by destruct kk.
- destruct (_ && _); [|done]. destruct w; try done. cbn. by destruct (bool_decide _).
Qed.
End leases.

(** A history within which the lease stays live and its holder does not give it back. *)
Definition within (i k : string) (until : Z) (h : history) : Prop :=
  Forall (λ e, SqlTime.in_range e.1 ∧ e.1 <= until ∧ completes i k e.2 = false) h.

Lemma lease_kept i k until h db t :
  SqlTime.in_range until → within i k until h → getTenantById i db = Some t → leased t k until →
  ∃ t', getTenantById i (replay h db) = Some t' ∧ leased t' k until.
Proof.
  intros Hu Hh. revert db t. induction Hh as [|[now op] h (Hn & Hle & Hc) Hh IH]; intros db t Ht Hl; [by exists t|].
  cbn [replay fold_left fst snd]. eapply IH; [by apply row_after|].
  apply lease_step with (i := i); try done. by apply find_by_id in Ht as [? _].
Qed.

Lemma update_tenant_none i p f db :
  (∀ t, t ∈ pd_tenants db → t_id t = i → p t = false) → update_tenant i p f db = (Ok None, db).
Proof.
  intros H. assert (∀ t, t ∈ pd_tenants db → has_id i t && p t = false) as Hn.
  { intros t Ht. unfold has_id. destruct (t_id t =s? i) eqn:E; [|done]. bool_hyps. by apply H. }
  unfold update_tenant, with_tenants. rewrite (proj2 (find_None_elem _ _) Hn), update_where_id by done. by destruct db.
Qed.

(** ** The keys of the tables *)
Record plane_ok (db : plane_db) : Prop := {
  pk_ids : NoDup (t_id <$> pd_tenants db);
  pk_slugs : NoDup (t_slug <$> pd_tenants db);
  pk_jobs : NoDup (p_id <$> pd_jobs db);
}.

Lemma row_effect_column {B} (g : Tenant → B) now op db :
  (∀ t, g (row_effect now op db t) = g t) → g <$> (row_effect now op db <$> pd_tenants db) = g <$> pd_tenants db.
Proof. intros H. rewrite <- list_fmap_compose. apply list_fmap_ext. intros k t _. apply H. Qed.

(** The rows of [provision_jobs] likewise. *)
Definition job_effect (now : Z) (op : store_op) (j : ProvisionJob) : ProvisionJob :=
  let on i p f := if job_id_is i j && p then f j else j in
  match op with
  | OpSetJobRunning i => on i (lease_free now (p_lease_until j)) (job_running now)
  | OpClaimJob i s =>
      on i (unfinished j && lease_free now (p_lease_until j)) (λ j, job_touched now (job_lease (Some (from_now now s)) j))
  | OpRenewLease i s => on i (unfinished j) (job_lease (Some (from_now now s)))
  | OpReleaseLease i => on i (unfinished j) (job_lease None)
  | OpProgress i st d => on i (unfinished j) (job_progress now st d)
  | OpFinishJob i ok es em => on i (unfinished j) (job_finished now ok es em)
  | _ => j
  end.

Definition created_jobs (now : Z) (op : store_op) (db : plane_db) : list ProvisionJob :=
  match op with
  | OpCreateJob kind i t from to mode =>
      if existsb (job_id_is i) (pd_jobs db) || negb (existsb (has_id t) (pd_tenants db))
      then [] else [new_job now i t kind from to mode]
  | _ => []
  end.

Lemma exec_jobs now op db :
  pd_jobs (exec_store now op db) = (job_effect now op <$> pd_jobs db) ++ created_jobs now op db.
Proof.
  assert (∀ l : list ProvisionJob, (λ j, j) <$> l = l) as Hid by apply list_fmap_id.
  destruct op as [| | | |i s a st| | | |kind i key r|i kind|i w| | | | | | |]; cbn [exec_store created_jobs job_effect]; rewrite ?app_nil_r;
    try done; try by (rewrite Hid).
  - unfold exec, createTenant. rewrite Hid. by repeat case_match.
  - rewrite Hid. apply set_resource_rest.
  - rewrite Hid. apply clear_resource_rest.
  - rewrite Hid. by destruct w.
  - unfold exec, insert_job. rewrite Hid. cbn [p_id p_tenant_id new_job].
    destruct (existsb (job_id_is _) _); [by rewrite app_nil_r|]. by destruct (negb _); [rewrite app_nil_r|].
Qed.

Lemma job_effect_id now op j :
  p_id (job_effect now op j) = p_id j ∧ p_tenant_id (job_effect now op j) = p_tenant_id j ∧ p_kind (job_effect now op j) = p_kind j.
Proof. destruct op; cbn; try done; by destruct (_ && _). Qed.

Lemma job_after now i op db j :
  getJob i db = Some j → getJob i (exec_store now op db) = Some (job_effect now op j).
Proof.
  unfold getJob. rewrite exec_jobs.
  assert (∀ x, job_id_is i (job_effect now op x) = job_id_is i x) as Hhas.
  { intros x. unfold job_id_is. by rewrite (proj1 (job_effect_id now op x)). }
  revert Hhas. generalize (job_effect now op) as g. intros g Hhas.
  generalize (created_jobs now op db). intros new.
  induction (pd_jobs db) as [|x l IH]; [done|]. cbn. rewrite Hhas.
  destruct (job_id_is i x); [by intros [= ->]|exact IH].
Qed.

Lemma exec_ok now op db : plane_ok db → plane_ok (exec_store now op db).
Proof.
  intros [H1 H2 H3].
  assert (∀ (g : Tenant → string), (∀ t, g (row_effect now op db t) = g t) → NoDup (g <$> pd_tenants db) →
    (∀ t, t ∈ created_rows now op db → ∀ x, x ∈ pd_tenants db → g x ≠ g t) →
    NoDup (g <$> pd_tenants (exec_store now op db))) as Hrows.
  { intros g Hg Hnd Hnew. rewrite exec_tenants, fmap_app, (row_effect_column g) by done.
    destruct (created_rows now op db) as [|x l] eqn:E; [by rewrite app_nil_r|].
    assert (l = []) as -> by (unfold created_rows in E; repeat case_match; congruence).
    apply NoDup_app. split_and!; [done| |apply NoDup_singleton].
    intros y (z & -> & Hz)%list_elem_of_fmap Hy%list_elem_of_singleton. by apply (Hnew x ltac:(left) z Hz). }
  split.
  - apply Hrows; [intros t; apply row_effect_id|done|]. unfold created_rows.
    intros t Ht x Hx Heq. destruct op; try by apply elem_of_nil in Ht.
    destruct (existsb (has_id id) (pd_tenants db)) eqn:E; [by apply elem_of_nil in Ht|].
    rewrite existsb_false_iff in E. specialize (E x Hx). unfold has_id in E. bool_hyps. apply E.
    rewrite Heq. destruct (_ || _); [by apply elem_of_nil in Ht|]. apply list_elem_of_singleton in Ht as ->. done.
  - apply Hrows; [intros t; apply row_effect_id|done|]. unfold created_rows.
    intros t Ht x Hx Heq. destruct op; try by apply elem_of_nil in Ht.
    destruct (existsb (has_slug slug) (pd_tenants db)) eqn:E; [rewrite orb_true_r in Ht; by apply elem_of_nil in Ht|].
    rewrite existsb_false_iff in E. specialize (E x Hx). unfold has_slug in E. bool_hyps. apply E.
    rewrite Heq. destruct (_ || _); [by apply elem_of_nil in Ht|]. apply list_elem_of_singleton in Ht as ->. done.
  - rewrite exec_jobs, fmap_app, <- list_fmap_compose.
    assert (p_id ∘ job_effect now op <$> pd_jobs db = p_id <$> pd_jobs db) as ->
      by (apply list_fmap_ext; intros k j _; apply job_effect_id).
    destruct (created_jobs now op db) as [|x l] eqn:E; [by rewrite app_nil_r|].
    unfold created_jobs in E. destruct op; try done.
    destruct (existsb (job_id_is id) (pd_jobs db)) eqn:Ex; [done|]. destruct (negb _); [done|]. injection E as <- <-.
    apply NoDup_app. split_and!; [done| |apply NoDup_singleton].
    intros y (z & -> & Hz)%list_elem_of_fmap Hy%list_elem_of_singleton. rewrite existsb_false_iff in Ex.
    specialize (Ex z Hz). unfold job_id_is in Ex. bool_hyps. done.
Qed.

Lemma replay_ok h db : plane_ok db → plane_ok (replay h db).
Proof. revert db. induction h as [|[now op] h IH]; intros db H; [done|]. cbn. by apply IH, exec_ok. Qed.

Lemma unique_row db i t : plane_ok db → getTenantById i db = Some t → ∀ t', t' ∈ pd_tenants db → t_id t' = i → t' = t.
Proof.
  intros Hok [Hi Hin]%find_by_id t' Hin' Hi'. apply (unique_eq t_id (pd_tenants db)); [apply Hok|done|done|congruence].
Qed.

(** ** The two readings of a lease *)
Definition lease_ok (l : option string) : Prop := ∀ u, l = Some u → ∃ s, SqlTime.in_range s ∧ u = SqlTime.datetime s.

Lemma lease_halves_agree l nowMs :
  lease_ok l → SqlTime.in_range (nowMs / 1000) → leaseIsLive l nowMs = lease_live (nowMs / 1000) l.
Proof.
  intros Hl Hn. destruct l as [u|]; [|done]. destruct (Hl u eq_refl) as (s & Hs & ->).
  unfold leaseIsLive, lease_live, sql_now. rewrite SqlTime.parse_datetime_of, SqlTime.datetime_ltb by done.
  pose proof (Z.div_mod nowMs 1000 ltac:(done)) as Hd. pose proof (Z.mod_pos_bound nowMs 1000 ltac:(done)).
  destruct (nowMs / 1000 <? s) eqn:E; bool_hyps; [apply Z.ltb_lt|apply Z.ltb_ge]; lia.
Qed.

Lemma lease_trichotomy l now :
  lease_ok l → SqlTime.in_range now → lease_free now l = negb (lease_live now l) ∨ l = Some (sql_now now).
Proof.
  intros Hl Hn. destruct l as [u|]; [|by left]. destruct (Hl u eq_refl) as (s & Hs & ->).
  unfold lease_free, lease_live, sql_now. rewrite !SqlTime.datetime_ltb by done.
  destruct (Z.lt_trichotomy now s) as [H|[->|H]]; [left|by right|left].
  - by rewrite (proj2 (Z.ltb_lt _ _) H), (proj2 (Z.ltb_ge _ _)) by lia.
  - by rewrite (proj2 (Z.ltb_lt _ _) H), (proj2 (Z.ltb_ge _ _)) by lia.
Qed.
Lemma lease_free_live l now :
  lease_ok l → SqlTime.in_range now → lease_free now l = true → lease_live now l = false.
Proof.
  intros Hl Hn Hf. destruct l as [u|]; [|done]. destruct (Hl u eq_refl) as (s & Hs & ->).
  unfold lease_free, lease_live, sql_now in *. rewrite !SqlTime.datetime_ltb in * by done. bool_hyps. apply Z.ltb_ge. lia.
Qed.

Lemma update_tenant_some i p f db t :
  plane_ok db → getTenantById i db = Some t →
  (update_tenant i p f db).1 = Ok (if p t then Some (f t) else None).
Proof.
  intros Hok Ht. pose proof (unique_row db i t Hok Ht) as Huniq. pose proof (find_by_id db i t Ht) as [Hi Hin].
  unfold update_tenant. cbn [fst]. destruct (List.find _ _) as [x|] eqn:Hx.
  - apply find_Some_elem in Hx as [Hinx Hpx]. unfold has_id in Hpx. bool_hyps. rewrite (Huniq x) in * by done. by destruct (p t).
  - rewrite find_None_elem in Hx. specialize (Hx t Hin). unfold has_id in Hx. rewrite Hi, String.eqb_refl in Hx. cbn in Hx. by rewrite Hx.
Qed.

Lemma slug_is_row db s t : plane_ok db → getTenantBySlug s db = Some t → getTenantById (t_id t) db = Some t.
Proof.
  intros Hok [Hin Hs]%find_Some_elem. unfold getTenantById. destruct (List.find _ _) as [x|] eqn:Hx.
  - apply find_Some_elem in Hx as [Hinx Hpx]. unfold has_id in Hpx. bool_hyps. f_equal.
    apply (unique_eq t_id (pd_tenants db)); [apply Hok|done..].
  - rewrite find_None_elem in Hx. specialize (Hx t Hin). unfold has_id in Hx. by rewrite String.eqb_refl in Hx.
Qed.

Lemma row_by_slug db i t : plane_ok db → getTenantById i db = Some t → getTenantBySlug (t_slug t) db = Some t.
Proof.
  intros Hok Ht. apply find_by_id in Ht as [Hi Hin]. unfold getTenantBySlug. destruct (List.find _ _) as [x|] eqn:Hx.
  - apply find_Some_elem in Hx as [Hinx Hpx]. unfold has_slug in Hpx. bool_hyps. f_equal.
    apply (unique_eq t_slug (pd_tenants db)); [apply Hok|done..].
  - rewrite find_None_elem in Hx. specialize (Hx t Hin). unfold has_slug in Hx. by rewrite String.eqb_refl in Hx.
Qed.

(** [live_at] is a high-water mark. *)
Lemma live_at_step now op db t v : t_live_at t = Some v → t_live_at (row_effect now op db t) = Some v.
Proof.
  intros Hv. destruct op as [| | | | | | | |kind| ? kk|? w| | | | | | |]; cbn; try done; try (by destruct (_ && _)).
  - destruct (_ && _); [|done]. cbn. by rewrite Hv, andb_false_r.
  - destruct (_ && _); [|done]. by destruct kind.
  - destruct (_ && _); [|done]. by destruct kk.
  - destruct (_ && _); [|done]. destruct w; try done. cbn. by destruct (bool_decide _).
Qed.

Lemma live_at_kept i h db t v :
  getTenantById i db = Some t → t_live_at t = Some v →
  ∃ t', getTenantById i (replay h db) = Some t' ∧ t_live_at t' = Some v ∧ t_slug t' = t_slug t ∧ t_account_id t' = t_account_id t.
Proof.
  revert db t. induction h as [|[now op] h IH]; intros db t Ht Hv; [by exists t|]. cbn.
  destruct (IH _ _ (row_after now db i op t Ht) (live_at_step now op db t v Hv)) as (t' & H1 & H2 & H3 & H4).
  exists t'. rewrite H3, H4. by destruct (row_effect_id now db op t) as (_ & -> & -> & _).
Qed.

(** ** Jobs *)
Lemma find_job db i j : getJob i db = Some j → p_id j = i ∧ j ∈ pd_jobs db.
Proof. intros [Hin Hid]%find_Some_elem. unfold job_id_is in Hid. by bool_hyps. Qed.
Lemma unique_job db i j : plane_ok db → getJob i db = Some j → ∀ j', j' ∈ pd_jobs db → p_id j' = i → j' = j.
Proof. intros Hok [Hi Hin]%find_job j' Hin' Hi'. apply (unique_eq p_id (pd_jobs db)); [apply Hok|done|done|congruence]. Qed.

Lemma update_job_none i p f db : (∀ j, j ∈ pd_jobs db → p_id j = i → p j = false) → update_job i p f db = (Ok false, db).
Proof.
  intros H. assert (∀ j, j ∈ pd_jobs db → job_id_is i j && p j = false) as Hn.
  { intros j Hj. unfold job_id_is. destruct (p_id j =s? i) eqn:E; [|done]. bool_hyps. by apply H. }
  unfold update_job, with_jobs. rewrite changes_0, update_where_id by done. by destruct db.
Qed.

(** A finished job is changed by no statement but [setJobRunning]. *)
Lemma finished_step now op j :
  unfinished j = false → (∀ i, op = OpSetJobRunning i → p_id j ≠ i) → job_effect now op j = j.
Proof.
  intros Hu Hop. destruct op; cbn; rewrite ?Hu, ?andb_false_r; try done.
  unfold job_id_is. rewrite (proj2 (String.eqb_neq _ _)); [done|]. by apply Hop.
Qed.

Lemma finished_kept i h db j :
  getJob i db = Some j → unfinished j = false → Forall (λ e, e.2 ≠ OpSetJobRunning i) h → getJob i (replay h db) = Some j.
Proof.
  intros Hj Hu Hh. revert db Hj. induction Hh as [|[now op] h Hop Hh IH]; intros db Hj; [done|]. cbn. apply IH.
  rewrite (job_after now i op db j Hj), finished_step; [done|done|]. intros i' -> Hi. apply find_job in Hj as [Hi' _].
  apply Hop. cbn. congruence.
Qed.

(** A driver's job: unfinished, with a lease that lasts at least until [until]. *)
Definition driven_until (until : Z) (j : ProvisionJob) : Prop :=
  unfinished j = true ∧ ∃ s, SqlTime.in_range s ∧ until <= s ∧ p_lease_until j = Some (SqlTime.datetime s).

(** What may happen to a driven job without ending the drive: everything but handing the lease back
    and finishing; a renewal is for the length every caller uses. *)
Definition keeps_driving (i : string) (op : store_op) : Prop :=
  match op with
  | OpReleaseLease i' | OpFinishJob i' _ _ _ => i' ≠ i
  | OpRenewLease i' secs | OpClaimJob i' secs => i' = i → secs = JOB_LEASE_SECONDS
  | _ => True
  end.

Lemma driven_step now op i n0 j :
  SqlTime.in_range (now + JOB_LEASE_SECONDS) → n0 <= now → p_id j = i → keeps_driving i op →
  driven_until (n0 + JOB_LEASE_SECONDS) j → driven_until (n0 + JOB_LEASE_SECONDS) (job_effect now op j).
Proof.
  intros Hr Hle Hi Hop Hd.
  assert (∀ j', unfinished j' = true → p_lease_until j' = Some (from_now now JOB_LEASE_SECONDS) →
    driven_until (n0 + JOB_LEASE_SECONDS) j') as Hnew.
  { intros j' Hu Hl. split; [done|]. exists (now + JOB_LEASE_SECONDS). split_and!; [done|lia|done]. }
  pose proof Hd as [Hu _].
  destruct op; cbn in *; try done; destruct (job_id_is id j) eqn:E; cbn; try done; unfold job_id_is in E; bool_hyps; subst; try (by destruct Hop).
  - destruct (lease_free _ _); [|done]. by apply Hnew.
  - rewrite (Hop eq_refl). destruct (_ && _); [|done]. by apply Hnew.
  - rewrite (Hop eq_refl). rewrite Hu. by apply Hnew.
  - rewrite Hu. by apply Hnew.
Qed.

Definition drive_window (i : string) (n0 : Z) (h : history) : Prop :=
  Forall (λ e, SqlTime.in_range (e.1 + JOB_LEASE_SECONDS) ∧ n0 <= e.1 ∧ keeps_driving i e.2) h.

Lemma driven_kept i n0 h db j :
  drive_window i n0 h → getJob i db = Some j → driven_until (n0 + JOB_LEASE_SECONDS) j →
  ∃ j', getJob i (replay h db) = Some j' ∧ driven_until (n0 + JOB_LEASE_SECONDS) j'.
Proof.
  intros Hh. revert db j. induction Hh as [|[now op] h (Hr & Hle & Hop) Hh IH]; intros db j Hj Hd; [by exists j|]. cbn in *.
  eapply IH; [by apply job_after|]. apply (driven_step now op i); try done. by apply find_job in Hj as [? _].
Qed.

(** ** Properties *)

(** C7. One tenant, one teardown.  While the destructive lease on a row is live, whatever else happens
    (other reclaims, admin teardowns, provisioning drivers, any number of them), the row keeps that
    lease and its token until the holder completes: no second reclaim or teardown is ever granted,
    and nobody else can blank the row or close its teardown. *)
Theorem destructive_lease_is_exclusive i k until h db t :
  plane_ok db → SqlTime.in_range until → within i k until h → getTenantById i db = Some t → leased t k until →
  let db' := replay h db in
  (∃ t', getTenantById i db' = Some t' ∧ leased t' k until) ∧
  ∀ now, SqlTime.in_range now → now <= until →
    (∀ acct secs k', claimReclaim now i acct secs k' db' = (Ok None, db')) ∧
    (∀ secs k', beginTeardown now i secs k' db' = (Ok None, db')) ∧
    (∀ k', k' ≠ k → (∀ acct, reclaimSlug now i acct k' db' = (Ok None, db')) ∧
                    (∀ reaped, finishTeardown now i k' reaped db' = (Ok None, db'))).
Proof.
  intros Hok Hu Hh Ht Hl db'. destruct (lease_kept i k until h db t Hu Hh Ht Hl) as (t' & Ht' & Hl').
  fold db' in Ht'. split; [by exists t'|]. intros now Hn Hle.
  pose proof (unique_row db' i t' (replay_ok h db Hok) Ht') as Huniq.
  pose proof (lease_not_free k until Hu now t' Hn Hle Hl') as Hf.
  split_and!.
  - intros. apply update_tenant_none. intros x Hx Hid. rewrite (Huniq x Hx Hid), Hf. by rewrite andb_false_r.
  - intros. apply update_tenant_none. intros x Hx Hid. by rewrite (Huniq x Hx Hid), Hf.
  - intros k' Hk. assert (holds_token k' t' = false) as Htk
      by (unfold holds_token; rewrite (proj1 Hl'); apply bool_decide_eq_false; congruence).
    split; intros; apply update_tenant_none; intros x Hx Hid; rewrite (Huniq x Hx Hid), Htk; by rewrite ?andb_false_r.
Qed.

(** A name that was ever live is gone for good.  Once a studio has served at a name, no history of
    statements makes that name takeable again: no account is told it is available, its row is never
    granted to a reclaim and never blanked, and no second tenant can be created at it. *)
Theorem ever_live_name_is_gone i v h db t :
  plane_ok db → getTenantById i db = Some t → t_live_at t = Some v →
  let db' := replay h db in
  (∀ nowMs now acct, ∃ why, checkSlugAvailability nowMs now (t_slug t) acct db' = Unavailable why) ∧
  (∀ now acct secs k, claimReclaim now i acct secs k db' = (Ok None, db') ∧ reclaimSlug now i acct k db' = (Ok None, db')) ∧
  (∀ now id acct status, ∃ e, createTenant now id (t_slug t) acct status db' = (Err e, db')).
Proof.
  intros Hok Ht Hv db'. pose proof (replay_ok h db Hok) as Hok'. fold db' in Hok'.
  destruct (live_at_kept i h db t v Ht Hv) as (t' & Ht' & Hv' & Hs & Ha). fold db' in Ht'.
  pose proof (row_by_slug db' i t' Hok' Ht') as Hslug. rewrite Hs in Hslug.
  pose proof (unique_row db' i t' Hok' Ht') as Huniq. split_and!.
  - intros nowMs now acct. unfold checkSlugAvailability, classifySlugClaim. rewrite Hslug, Hv'. cbn [andb].
    destruct (negb _); [by eexists|]. by destruct (_ && _); eexists.
  - intros now acct secs k. split; apply update_tenant_none; intros x Hx Hid; rewrite (Huniq x Hx Hid);
      unfold reclaimable_row; by rewrite Hv', andb_false_r.
  - intros now id acct status. unfold createTenant. apply find_Some_elem in Hslug as [Hin Hhas].
    rewrite (proj2 (existsb_true_iff (has_slug (t_slug t)) (pd_tenants db'))) by eauto.
    by destruct (existsb (has_id id) _); eexists.
Qed.

(** The two copies of the tier rule agree.  The check that tells an owner a name can be retaken and
    the conditional write that takes it decide alike on every row, at every instant whose second is
    not the lease's own: the write succeeds exactly when the check offered the row, and then the
    resources the check named are those of the row taken.  A stranger learns nothing but that the
    name is taken. *)
Theorem check_agrees_with_claim db slug acct t nowMs secs k :
  plane_ok db → getTenantBySlug slug db = Some t → lease_ok (t_reclaim_lease_until t) → SqlTime.in_range (nowMs / 1000) →
  let now := nowMs / 1000 in
  let check := checkSlugAvailability nowMs now slug acct db in
  (∀ t', (claimReclaim now (t_id t) acct secs k db).1 = Ok (Some t') →
     check = Available (Some (mkReclaim (t_id t) (t_d1_database_id t) (t_r2_bucket_name t) (t_r2_token_id t) (t_script_name t))) ∧
     t' = lease_row now secs k t) ∧
  (∀ h, check = Available h → t_reclaim_lease_until t ≠ Some (sql_now now) →
     (claimReclaim now (t_id t) acct secs k db).1 = Ok (Some (lease_row now secs k t))) ∧
  (t_account_id t ≠ acct → check = Unavailable SLUG_TAKEN_REASON).
Proof.
  intros Hok Ht Hl Hn now check. pose proof (slug_is_row db slug t Hok Ht) as Hrow.
  unfold claimReclaim. rewrite (update_tenant_some _ _ _ _ t Hok Hrow).
  unfold check, checkSlugAvailability, classifySlugClaim. rewrite Ht. unfold reclaimable_row.
  rewrite (lease_halves_agree _ nowMs Hl Hn). fold now. unfold undriven, hasLiveProvisionLease.
  destruct (t_account_id t =s? acct) eqn:Ea; cbn [negb andb]; [|done]. bool_hyps.
  destruct (t_live_at t); cbn [andb]; [by destruct (_ =s? "deleted")|].
  destruct (tier_a (t_status t)); cbn [andb]; [|done].
  pose proof (lease_free_live _ now Hl Hn) as Hfl. pose proof (lease_trichotomy _ now Hl Hn) as Htri.
  destruct (lease_free now _) eqn:Ef; cbn [andb].
  - rewrite Hfl by done. cbn [rh_tenant_id]. destruct (existsb _ (pd_jobs db)); cbn [negb]; [done|].
    split_and!; [by intros t' [= <-]|done|done].
  - split_and!; [done| |done]. intros h Hh Hne. destruct Htri as [Htri|]; [|done].
    symmetry in Htri. apply negb_false_iff in Htri. by rewrite Htri in Hh.
Qed.

(** One job, one driver.  From the moment a claim of a job is won, and for the whole length of its
    lease, no other claim of that job is won and no new driver takes it, whatever else runs (renewals
    and progress marks included), unless somebody hands the lease back or finishes the job. *)
Theorem one_driver_per_job i n0 h db j :
  plane_ok db → getJob i db = Some j → driven_until (n0 + JOB_LEASE_SECONDS) j → drive_window i n0 h →
  let db' := replay h db in
  ∀ now, SqlTime.in_range now → now <= n0 + JOB_LEASE_SECONDS →
    (∀ secs, claimJob now i secs db' = (Ok false, db')) ∧ setJobRunning now i db' = (Ok tt, db').
Proof.
  intros Hok Hj Hd Hh db' now Hn Hle. destruct (driven_kept i n0 h db j Hh Hj Hd) as (j' & Hj' & Hu & s & Hs & Hus & Hl).
  fold db' in Hj'. pose proof (unique_job db' i j' (replay_ok h db Hok) Hj') as Huniq.
  assert (lease_free now (p_lease_until j') = false) as Hf.
  { unfold lease_free, sql_now. rewrite Hl, SqlTime.datetime_ltb by done. apply Z.ltb_ge. lia. }
  split.
  - intros secs. apply update_job_none. intros x Hx Hid. by rewrite (Huniq x Hx Hid), Hf, andb_false_r.
  - unfold setJobRunning, mbind, M_bind. rewrite update_job_none; [done|]. intros x Hx Hid. by rewrite (Huniq x Hx Hid).
Qed.

(** A finished job is a closed record.  Whatever claims, renewals, progress marks and second
    finishes a lost driver or a poll still sends, a job that succeeded or failed keeps every column,
    and the statement that would close it again answers that it closed nothing. *)
Theorem finished_job_is_closed i h db j :
  plane_ok db → getJob i db = Some j → unfinished j = false → Forall (λ e, e.2 ≠ OpSetJobRunning i) h →
  let db' := replay h db in
  getJob i db' = Some j ∧
  ∀ now secs ok es em step done,
    finishJob now i ok es em db' = (Ok false, db') ∧ claimJob now i secs db' = (Ok false, db') ∧
    renewJobLease now i secs db' = (Ok false, db') ∧ releaseJobLease i db' = (Ok false, db') ∧
    updateJobProgress now i step done db' = (Ok tt, db').
Proof.
  intros Hok Hj Hu Hh db'. pose proof (finished_kept i h db j Hj Hu Hh) as Hj'. fold db' in Hj'. split; [done|].
  pose proof (unique_job db' i j (replay_ok h db Hok) Hj') as Huniq.
  assert (∀ f, update_job i unfinished f db' = (Ok false, db')) as Hupd.
  { intros f. apply update_job_none. intros x Hx Hid. by rewrite (Huniq x Hx Hid). }
  intros. split_and!; try apply Hupd.
  - apply update_job_none. intros x Hx Hid. by rewrite (Huniq x Hx Hid), Hu.
  - unfold updateJobProgress, mbind, M_bind. by rewrite Hupd.
Qed.

(** Nothing is torn down under a live driver.  A reclaim or a teardown is granted, and a reclaimed
    row blanked, only at an instant when no job of that tenant has a live driver by the test the
    routes use; and a reclaim only of a row of that account that never went live and is still in
    the never-finished states. *)
Theorem teardown_never_starts_under_a_driver i nowMs db t :
  plane_ok db → getTenantById i db = Some t → SqlTime.in_range (nowMs / 1000) →
  (∀ j, j ∈ pd_jobs db → lease_ok (p_lease_until j)) →
  let now := nowMs / 1000 in
  let nobody_drives := ∀ j, j ∈ pd_jobs db → p_tenant_id j = i → jobHasLiveDriver j nowMs = false in
  let takeable acct := t_account_id t = acct ∧ t_live_at t = None ∧ t_status t ∈ TIER_A_STATUSES in
  (∀ acct secs k t', (claimReclaim now i acct secs k db).1 = Ok (Some t') → nobody_drives ∧ takeable acct) ∧
  (∀ secs k t', (beginTeardown now i secs k db).1 = Ok (Some t') → nobody_drives) ∧
  (∀ acct k t', (reclaimSlug now i acct k db).1 = Ok (Some t') →
     nobody_drives ∧ takeable acct ∧ t_reclaim_lease_token t = Some k).
Proof.
  intros Hok Ht Hn Hjobs now nobody_drives takeable. pose proof (find_by_id db i t Ht) as [Hi _].
  assert (undriven now db t = true → nobody_drives) as Hdriven.
  { unfold undriven, nobody_drives. rewrite negb_true_iff, existsb_false_iff. intros Hd j Hj Hjt. specialize (Hd j Hj).
    unfold jobHasLiveDriver. destruct (unfinished j) eqn:Hu; [|done]. cbn [negb].
    rewrite (lease_halves_agree _ nowMs (Hjobs j Hj) Hn). fold now.
    unfold drives in Hd. by rewrite Hjt, Hi, String.eqb_refl, Hu in Hd. }
  assert (∀ acct, reclaimable_row acct t = true → takeable acct) as Htake.
  { intros acct Hr. unfold reclaimable_row, tier_a in Hr. bool_hyps.
    destruct (t_live_at t) eqn:Hlive; [done|]. split_and!; [done|done|].
    match goal with H : existsb _ _ = true |- _ => apply existsb_true_iff in H as (x & Hx & Heq) end. by bool_hyps; subst. }
  split_and!; intros *; unfold claimReclaim, beginTeardown, reclaimSlug; rewrite (update_tenant_some _ _ _ _ t Hok Ht);
    destruct (_ && _) eqn:E; try done; intros _; bool_hyps.
  - by split; [apply Hdriven|apply Htake].
  - by apply Hdriven.
  - split_and!; [by apply Hdriven|by apply Htake..|]. unfold holds_token in *. by bool_hyps.
Qed.

(** ** Resource ownership *)
Lemma find_owner_clear kind key kind' k id (l : list Ownership) o :
  List.find (owns kind key) l = Some o → ¬ (kind' = kind ∧ ow_tenant o = id) →
  List.find (owns kind key) (jfilter (λ o, negb (owns kind' k o && (ow_tenant o =s? id))) l) = Some o.
Proof.
  intros Ho Hne. induction l as [|x l IH]; [done|]. cbn in *.
  destruct (owns kind key x) eqn:Ex.
  - injection Ho as ->. unfold owns in *. bool_hyps. subst.
    assert (bool_decide (ow_kind o = kind') && (ow_key o =s? k) && (ow_tenant o =s? id) = false) as ->.
    { destruct (bool_decide_reflect (ow_kind o = kind')); [|done]. cbn.
      destruct (ow_tenant o =s? id) eqn:E; [|by rewrite andb_false_r]. bool_hyps. destruct Hne. by subst. }
    cbn. unfold owns. by rewrite bool_decide_eq_true_2, String.eqb_refl.
  - destruct (negb _); cbn; rewrite ?Ex; by apply IH.
Qed.

Lemma find_owner_upsert now kind key kind' key' p l o :
  List.find (owns kind key) l = Some o → (kind = kind' → key = key' → p = ow_tenant o) →
  ow_tenant <$> List.find (owns kind key)
    (if existsb (owns kind' key') l then update_where (owns kind' key') (λ _, mkOwnership kind' key' p (sql_now now)) l
     else l ++ [mkOwnership kind' key' p (sql_now now)]) = Some (ow_tenant o).
Proof.
  intros Ho Hp. destruct (existsb (owns kind' key') l) eqn:Hex.
  - clear Hex. induction l as [|x l IH]; [done|]. cbn in *. destruct (owns kind key x) eqn:Ex.
    + injection Ho as ->. destruct (owns kind' key' o) eqn:Eo; [|by rewrite Ex].
      unfold owns in *. bool_hyps. subst. cbn. rewrite bool_decide_eq_true_2, String.eqb_refl by done. cbn.
      f_equal. by apply Hp.
    + destruct (owns kind' key' x) eqn:Eo; [|rewrite Ex; by apply IH].
      assert (owns kind key (mkOwnership kind' key' p (sql_now now)) = false) as ->; [|by apply IH].
      unfold owns in *. bool_hyps. subst. exact Ex.
  - replace (List.find (owns kind key) (l ++ _)) with (Some o); [done|].
    clear Hex Hp. induction l as [|x l IH]; [done|]. cbn in *. destruct (owns kind key x); [done|by apply IH].
Qed.

Lemma other_op_owners now op db :
  (∀ kind i key r, op ≠ OpSetResource kind i key r) → (∀ i kind, op ≠ OpClearResource i kind) →
  pd_owners (exec_store now op db) = pd_owners db.
Proof.
  intros H1 H2. destruct op as [| | | |i s a st| | | |kind i key r|i kind|i w|kind i t from to mode| | | | | |];
    try done; try (by destruct (H1 kind i key r)); try (by destruct (H2 i kind)).
  - cbn [exec_store]. unfold exec, createTenant. by repeat case_match.
  - by destruct w.
  - cbn [exec_store]. unfold exec, insert_job. by repeat case_match.
Qed.

(** The owners after the two statements that write them. *)
Lemma clear_owners i kind db :
  pd_owners (exec (clearTenantResource i kind) db) = pd_owners db ∨
  ∃ k, pd_owners (exec (clearTenantResource i kind) db) =
       jfilter (λ o, negb (owns kind k o && (ow_tenant o =s? i))) (pd_owners db).
Proof.
  unfold exec, clearTenantResource, gets, set_tenant, update_tenant, modify, mbind, M_bind, mret, M_ret.
  destruct (match getTenantById i db with Some r => column_of kind r | None => None end) as [k|]; [|by left].
  destruct (Str.truthy k); [by right; exists k|by left].
Qed.

Lemma claim_owners now kind key i db :
  pd_owners (exec (claimResourceOwnership now kind key i) db) = pd_owners db ∨
  pd_owners (exec (claimResourceOwnership now kind key i) db) = pd_owners (exec (upsert_owner now kind key i) db) ∧
  ∀ p, getResourceOwner kind key db = Some p → p ≠ "" → p = i ∨ ∀ t, getTenantById p db = Some t → gone t = true.
Proof.
  unfold exec, claimResourceOwnership, gets, mbind, M_bind, mret, M_ret. destruct (key =s? ""); [by left|].
  cbn. destruct (getResourceOwner kind key db) as [p|]; [|right; split; [done|by intros p]].
  destruct (Str.truthy p && negb (p =s? i)) eqn:E.
  - cbn. destruct (getTenantById p db) as [r|] eqn:Er; [destruct (gone r) eqn:Eg; [|by left]|];
      right; (split; [done|]); intros ? [= <-] _; right; intros t; congruence.
  - right. split; [done|]. intros ? [= <-] Hp. left. destruct p as [|c p]; [done|]. cbn [Str.truthy andb] in E. by bool_hyps.
Qed.

Lemma set_resource_owners now kind i key r db :
  ∃ d, pd_owners (exec (set_resource now kind i key r) db) = pd_owners (exec (claimResourceOwnership now kind key i) d) ∧
       pd_owners d = pd_owners db ∧ pd_tenants d = update_where (λ t, has_id i t && true) (resource_effect kind key r) (pd_tenants db).
Proof.
  destruct kind; cbn [set_resource]; unfold setTenantD1, setTenantBucket, setTenantR2Token, setTenantScript, set_tenant,
    update_tenant, exec, mbind, M_bind, mret, M_ret;
    (eexists; split; [reflexivity|]; by split).
Qed.

(** A resource is never taken from a live owner.  Whatever statement runs, the recorded owner of a
    database, bucket, token or worker stays the owner as long as its tenant is neither deleted nor
    failed, unless the owner itself gives that kind of resource up. *)
Theorem live_owner_keeps_its_resource now op db kind key p t :
  key ≠ "" → p ≠ "" → getResourceOwner kind key db = Some p →
  getTenantById p db = Some t → gone t = false → op ≠ OpClearResource p kind →
  getResourceOwner kind key (exec_store now op db) = Some p.
Proof.
  intros Hkey Hp Ho Ht Hgone Hop. unfold getResourceOwner in *. rewrite (proj2 (String.eqb_neq _ _) Hkey) in *.
  destruct (List.find (owns kind key) (pd_owners db)) as [o|] eqn:Hf; [|done]. injection Ho as Ho.
  destruct op as [| | | | | | | |kind' i key' r|i kind'| | | | | | | |]; try (rewrite other_op_owners, Hf by done; cbn; by rewrite Ho).
  - cbn [exec_store]. destruct (set_resource_owners now kind' i key' r db) as (d & -> & Hd & Hrows).
    destruct (claim_owners now kind' key' i d) as [->|[-> Hwhy]]; [by rewrite Hd, Hf; cbn; rewrite Ho|].
    unfold exec, upsert_owner, modify, with_owners. cbn [snd pd_owners]. rewrite <- Hd in Hf.
    rewrite (find_owner_upsert now kind key kind' key' i _ o Hf); [by rewrite Ho|]. intros <- <-. rewrite Ho.
    destruct (Hwhy p) as [->|Hg]; [unfold getResourceOwner; by rewrite (proj2 (String.eqb_neq _ _) Hkey), Hf; cbn; rewrite Ho|done|done|].
    exfalso. assert (∃ t', getTenantById p d = Some t' ∧ t_status t' = t_status t) as (t' & Ht' & Hst).
    { unfold getTenantById in *. rewrite Hrows. unfold update_where. rewrite find_fmap, Ht.
      - eexists. split; [reflexivity|]. destruct (_ && _); [|done]. by destruct kind.
      - intros x. unfold has_id. destruct (_ && _); [|done]. by destruct kind. }
    specialize (Hg t' Ht'). unfold gone in *. rewrite Hst in Hg. congruence.
  - cbn [exec_store]. destruct (clear_owners i kind' db) as [->|[k ->]]; [by rewrite Hf; cbn; rewrite Ho|].
    rewrite (find_owner_clear _ _ _ _ _ _ o Hf); [cbn; by rewrite Ho|]. intros [-> Hi]. apply Hop. by rewrite <- Hi, Ho.
Qed.
