(* ===== verification/JobDriver.v ===== *)
(** * Driving a provision job (src/index.ts, [driveJobIfNeeded])

    The one function both engines go through, the client's poll and the cron tick: when a job is
    reaped, when it is left alone, and when this caller wins the claim and dispatches a resume. *)

From S2P Require Export TenantLeases.
Open Scope string_scope.
Open Scope list_scope.
Open Scope Z_scope.
Open Scope plane_scope.

Definition MAX_JOB_STALE_MS : Z := 10 * 60 * 1000.
Definition MAX_PROVISION_JOB_AGE_MS : Z := 2 * 60 * 60 * 1000.
Definition JOB_CLAIM_SECONDS : Z := JOB_LEASE_SECONDS.

Definition TOO_OLD : string :=
  "provision did not complete within 120 minutes of being created; giving up rather than driving it forever".
Definition LOST_DRIVER : string :=
  "invocation lost: no progress for over 10 minutes; the provision did not complete".

(** What the caller is told: nothing to report, the job as re-read after a reap, or, with nothing to
    report either, that a resume was dispatched over the progress in [stepsDone]. *)
Inductive Drive :=
| LeftAlone
| Reaped (job : option ProvisionJob)
| Dispatched (job : ProvisionJob).

(** [Number.isFinite(t) && now - t > limit] of a stored time. *)
Definition older_than (text : string) (nowMs limit : Z) : bool :=
  match SqlTime.parse_datetime text with Some t => limit <? nowMs - t | None => false end.

Section drive.
(** [deps.provisioner] is configured or not; [nowLive], [nowAge] and [nowStale] are the three readings
    of [deps.now()], [now] the instant of the statements. *)
Variable provisioner : bool.
Variables nowLive nowAge nowStale now : Z.

Definition reap (tenant : Tenant) (job : ProvisionJob) (message : string) : M plane_db string Drive :=
  closed ← finishJob now (p_id job) false (p_step job) (Some message);
  _ ← (if closed : bool then setTenantStatus now (t_id tenant) "failed" else mret tt);
  again ← gets (getJob (p_id job));
  mret (Reaped again).

Definition driveJobIfNeeded (tenant : Tenant) (job : ProvisionJob) : M plane_db string Drive :=
  if negb (unfinished job) then mret LeftAlone
  else if negb provisioner then mret LeftAlone
  else if negb (bool_decide (p_kind job = KProvision)) then mret LeftAlone
  else if jobHasLiveDriver job nowLive then mret LeftAlone
  else if older_than (p_created_at job) nowAge MAX_PROVISION_JOB_AGE_MS then reap tenant job TOO_OLD
  else if older_than (p_updated_at job) nowStale MAX_JOB_STALE_MS then reap tenant job LOST_DRIVER
  else if jobAwaitsFirstDriver job then mret LeftAlone
  else
    won ← claimJob now (p_id job) JOB_CLAIM_SECONDS;
    mret (if won : bool then Dispatched job else LeftAlone).
End drive.

(** ** Lemmas *)
Lemma update_job_one i p f db j :
  plane_ok db → getJob i db = Some j →
  update_job i p f db = (Ok (p j), with_jobs (update_where (λ j, job_id_is i j && p j) f) db).
Proof.
  intros Hok Hj. pose proof (unique_job db i j Hok Hj) as Huniq. pose proof (find_job db i j Hj) as [Hi Hin].
  unfold update_job. f_equal. f_equal.
  assert (jfilter (λ j0, job_id_is i j0 && p j0) (pd_jobs db) = if p j then [j] else []) as Hf.
  { destruct (unique_split p_id (pd_jobs db) j (pk_jobs _ Hok) Hin) as (l1 & l2 & -> & H1 & H2).
    assert (∀ l, (∀ y, y ∈ l → p_id y ≠ p_id j) → jfilter (λ j0, job_id_is i j0 && p j0) l = []) as Hnil.
    { intros l Hl. apply jfilter_nil_iff. intros y Hy. unfold job_id_is.
      rewrite (proj2 (String.eqb_neq _ _)); [done|]. rewrite <- Hi. by apply Hl. }
    change (j :: l2) with ([j] ++ l2). rewrite !jfilter_app, (Hnil l1), (Hnil l2) by done.
    cbn. unfold job_id_is. rewrite Hi, String.eqb_refl. cbn. rewrite app_nil_r. by destruct (p j). }
  unfold changes. rewrite Hf. by destruct (p j).
Qed.

(** ** Properties *)

(** A live driver is never reaped and never doubled.  Whatever stale copy of a job a poll or the
    cron holds, if the job has a live driver the call writes nothing; a call that dispatches a
    resume has won the claim of an unfinished provision nobody was driving; and a call that reaps
    flips the tenant to failed only together with the job, never beside a job somebody else closed. *)
Theorem drive_writes_only_what_it_won provisioner n1 n2 n3 now tenant job stored db ans db' :
  plane_ok db → getJob (p_id job) db = Some stored →
  driveJobIfNeeded provisioner n1 n2 n3 now tenant job db = (Ok ans, db') →
  match ans with
  | LeftAlone => db' = db
  | Dispatched _ =>
      p_kind job = KProvision ∧ jobHasLiveDriver job n1 = false ∧ p_status job = JobRunning ∧
      unfinished stored = true ∧ lease_free now (p_lease_until stored) = true ∧
      claimJob now (p_id job) JOB_CLAIM_SECONDS db = (Ok true, db')
  | Reaped again =>
      jobHasLiveDriver job n1 = false ∧
      if unfinished stored
      then ∃ message, again = Some (job_finished now false (p_step job) (Some message) stored) ∧
             db' = exec (setTenantStatus now (t_id tenant) "failed") (exec (finishJob now (p_id job) false (p_step job) (Some message)) db)
      else db' = db ∧ again = Some stored
  end.
Proof.
  intros Hok Hst. unfold driveJobIfNeeded.
  assert (∀ message, jobHasLiveDriver job n1 = false → reap now tenant job message db = (Ok ans, db') →
    match ans with
    | Reaped again => jobHasLiveDriver job n1 = false ∧
        if unfinished stored
        then ∃ message, again = Some (job_finished now false (p_step job) (Some message) stored) ∧
               db' = exec (setTenantStatus now (t_id tenant) "failed") (exec (finishJob now (p_id job) false (p_step job) (Some message)) db)
        else db' = db ∧ again = Some stored
    | _ => False
    end) as Hreap.
  { intros message Hlive. unfold reap, finishJob. set (f := job_finished now false (p_step job) (Some message)).
    pose proof (update_job_one (p_id job) unfinished f db stored Hok Hst) as Hu.
    intros (closed & db1 & Hc & Hrest)%M_bind_inv. rewrite Hu in Hc. injection Hc as <- <-.
    destruct (unfinished stored) eqn:E.
    - apply M_bind_inv in Hrest as ([] & db2 & Hs & Hlast). injection Hlast as <- <-. split; [done|]. exists message.
      split.
      + pose proof (job_after now (p_id job) (OpFinishJob (p_id job) false (p_step job) (Some message)) db stored Hst) as Ha.
        cbn [exec_store job_effect] in Ha. unfold exec, finishJob in Ha. fold f in Ha. rewrite Hu in Ha. cbn [snd] in Ha.
        assert (pd_jobs db2 = pd_jobs (with_jobs (update_where (λ j, job_id_is (p_id job) j && unfinished j) f) db)) as Hj2
          by (apply (f_equal snd) in Hs; cbn in Hs; by subst).
        unfold getJob in *. rewrite Hj2, Ha. unfold job_id_is. apply find_job in Hst as [-> _]. by rewrite String.eqb_refl, E.
      + unfold exec, finishJob. fold f. rewrite Hu. cbn [snd]. by rewrite Hs.
    - injection Hrest as <- <-. split; [done|].
      rewrite (update_job_none _ _ _ db) in Hu; [by injection Hu as <-|].
      intros x Hx Hid. by rewrite (unique_job db _ stored Hok Hst x Hx Hid). }
  destruct (unfinished job) eqn:Eu; cbn [negb]; [|by intros [= <- <-]].
  destruct provisioner; cbn [negb]; [|by intros [= <- <-]].
  destruct (bool_decide_reflect (p_kind job = KProvision)) as [Hk|_]; cbn [negb]; [|by intros [= <- <-]].
  destruct (jobHasLiveDriver job n1) eqn:Hlive; [by intros [= <- <-]|].
  destruct (older_than (p_created_at job) _ _).
  { intros Hr. specialize (Hreap _ eq_refl Hr). by destruct ans. }
  destruct (older_than (p_updated_at job) _ _).
  { intros Hr. specialize (Hreap _ eq_refl Hr). by destruct ans. }
  unfold jobAwaitsFirstDriver. destruct (bool_decide_reflect (p_status job = JobQueued)) as [_|Hq]; [by intros [= <- <-]|].
  intros (won & db1 & Hc & Hlast)%M_bind_inv. pose proof Hc as Hclaim. unfold claimJob in Hc.
  pose proof (update_job_one (p_id job) (λ j, unfinished j && lease_free now (p_lease_until j))
    (λ j, job_touched now (job_lease (Some (from_now now JOB_CLAIM_SECONDS)) j)) db stored Hok Hst) as Hu.
  rewrite Hu in Hc. injection Hc as <- Hdb. injection Hlast as <- <-.
  destruct (unfinished stored && lease_free now (p_lease_until stored)) eqn:E.
  - bool_hyps. split_and!; try done. unfold unfinished in Eu. by destruct (p_status job).
  - rewrite update_job_none in Hu.
    + injection Hu as Hu. by rewrite <- Hdb, <- Hu.
    + intros x Hx Hid. by rewrite (unique_job db _ stored Hok Hst x Hx Hid).
Qed.

(** ** Two schedules the statements allow *)
Definition noon : Z := 1784073600.
Definition one_account : plane_db := mkPlane ["acct_1"] [] [] [].

(** A provision that created its database and whose driver then died. *)
Definition stalled_provision : history :=
  [(noon, OpCreateTenant "ten_a" "studio-a" "acct_1" "pending");
   (noon, OpCreateJob KProvision "job_a" "ten_a" None (Some "v1.13.0") (Some "shared"));
   (noon, OpSetJobRunning "job_a"); (noon, OpSetStatus "ten_a" "provisioning");
   (noon + 5, OpSetResource ResD1 "ten_a" "d1-old" ""); (noon + 5, OpProgress "job_a" "d1_create" "[d1_create]")].

Definition stalled_db : plane_db := replay stalled_provision one_account.
(** The owner takes the name back; a poll arrives while the old resources are being deleted. *)
Definition reclaimed_db : plane_db := exec (claimReclaim (noon + 100) "ten_a" "acct_1" RECLAIM_LEASE_SECONDS "tok") stalled_db.
Definition polled_db : plane_db :=
  match getTenantById "ten_a" reclaimed_db, getLatestJobForTenant "ten_a" reclaimed_db with
  | Some t, Some j => exec (driveJobIfNeeded true (1000 * (noon + 105)) (1000 * (noon + 105)) (1000 * (noon + 105)) (noon + 105) t j) reclaimed_db
  | _, _ => reclaimed_db
  end.
(** The resumed driver creates a database, records it, and yields. *)
Definition resumed : history :=
  [(noon + 106, OpSetResource ResD1 "ten_a" "d1-new" ""); (noon + 120, OpReleaseLease "job_a")].
Definition resumed_db : plane_db := replay resumed polled_db.

(** The exclusion is one-sided.  The claim of a job does not look at the destructive lease: a poll
    inside a granted reclaim wins the job and resumes the provision while the reclaim is deleting
    the tenant's resources, and when that driver yields, the reclaim still completes and blanks the
    row, which forgets the database the driver has just created and which still names the tenant as
    its owner. *)
Theorem driver_starts_inside_a_reclaim :
  (∃ row, (claimReclaim (noon + 100) "ten_a" "acct_1" RECLAIM_LEASE_SECONDS "tok" stalled_db).1 = Ok (Some row) ∧
          leased row "tok" (noon + 400)) ∧
  (∃ t j, getTenantById "ten_a" reclaimed_db = Some t ∧ leased t "tok" (noon + 400) ∧
          getLatestJobForTenant "ten_a" reclaimed_db = Some j ∧
          driveJobIfNeeded true (1000 * (noon + 105)) (1000 * (noon + 105)) (1000 * (noon + 105)) (noon + 105) t j reclaimed_db
            = (Ok (Dispatched j), polled_db)) ∧
  (t_d1_database_id <$> getTenantById "ten_a" resumed_db) = Some (Some "d1-new") ∧
  ∃ blank done_db, reclaimSlug (noon + 130) "ten_a" "acct_1" "tok" resumed_db = (Ok (Some blank), done_db) ∧
    t_d1_database_id blank = None ∧ getTenantById "ten_a" done_db = Some blank ∧
    getResourceOwner ResD1 "d1-new" done_db = Some "ten_a".
Proof.
  split_and!.
  - eexists. split; [vm_compute; reflexivity|]. split; vm_compute; reflexivity.
  - do 2 eexists. split_and!; [vm_compute; reflexivity|split; vm_compute; reflexivity|vm_compute; reflexivity..].
  - vm_compute. reflexivity.
  - do 2 eexists. split_and!; [vm_compute; reflexivity..].
Qed.

(** A provision whose first driver was slow to arrive: reaped as lost, and then the driver comes. *)
Definition late_driver : history :=
  [(noon, OpCreateTenant "ten_a" "studio-a" "acct_1" "pending");
   (noon, OpCreateJob KProvision "job_a" "ten_a" None (Some "v1.13.0") (Some "shared"))].
Definition reaped_db : plane_db :=
  match getTenantById "ten_a" (replay late_driver one_account), getJob "job_a" (replay late_driver one_account) with
  | Some t, Some j => exec (driveJobIfNeeded true (1000 * (noon + 601)) (1000 * (noon + 601)) (1000 * (noon + 601)) (noon + 601) t j)
                           (replay late_driver one_account)
  | _, _ => one_account
  end.

(** One statement reopens a closed record.  [setJobRunning] has no condition on the status: a driver
    that arrives after its job was declared lost sets the failed job back to running, with the error
    and the finish time of the failure still on it. *)
Theorem late_driver_reopens_a_failed_job :
  (∃ j, getJob "job_a" reaped_db = Some j ∧ p_status j = JobFailed ∧ p_error_message j = Some LOST_DRIVER) ∧
  (t_status <$> getTenantById "ten_a" reaped_db) = Some "failed" ∧
  ∃ j, getJob "job_a" (exec (setJobRunning (noon + 602) "job_a") reaped_db) = Some j ∧
       p_status j = JobRunning ∧ p_error_message j = Some LOST_DRIVER ∧ p_finished_at j ≠ None ∧
       jobHasLiveDriver j (1000 * (noon + 602)) = true.
Proof.
  split_and!.
  - eexists. split_and!; vm_compute; reflexivity.
  - vm_compute. reflexivity.
  - eexists. split_and!; [vm_compute; reflexivity|vm_compute; reflexivity|vm_compute; reflexivity|vm_compute; discriminate|vm_compute; reflexivity].
Qed.
