(* ===== verification/Http.v ===== *)
(** * Requests, responses and the text encodings around them

    The shapes every client of an HTTP service in the plane works with.  The network itself is a
    parameter of each model: a function from a request to a response. *)

From S2P Require Export Js.
From Stdlib Require Import Ascii.
Open Scope string_scope.
Open Scope list_scope.
Open Scope Z_scope.
Open Scope plane_scope.

Inductive http_body := BNone | BText (s : string) | BJson (v : js).

Record HttpRequest := mkRequest {
  rq_url : string;
  rq_method : string;
  rq_headers : list (string * string);
  rq_body : http_body;
}.

(** [rs_json] is what [res.json()] yields, [None] when the text is not JSON. *)
Record HttpResponse := mkResponse {
  rs_status : Z;
  rs_text : string;
  rs_json : option js;
}.

Definition rs_ok (r : HttpResponse) : bool := (200 <=? rs_status r) && (rs_status r <? 300).

(** [v.k] on any value: null and undefined throw. *)
Definition no_properties (v : js) (k : string) : string :=
  "Cannot read properties of " +:+ (match v with JUndef => "undefined" | _ => "null" end) +:+ " (reading '" +:+ k +:+ "')".
Definition js_get (v : js) (k : string) : result string js :=
  match v with
  | JUndef | JNull => Err ("TypeError: " +:+ no_properties v k)
  | _ => Ok (js_field v k)
  end.

(** [typeof v === "string" ? v : ""] *)
Definition js_string_or_empty (v : js) : string := match v with JStr s => s | _ => "" end.

(** [headers.get(name) ?? ""] *)
Definition header_or_empty (name : string) (headers : list (string * string)) : string :=
  match List.find (λ h, Str.to_lower h.1 =s? name) headers with Some h => h.2 | None => "" end.

(** [n + z] and [n > z] for a number and an integer. *)
Definition num_add_int (n : Num.num) (z : Z) : Num.num :=
  match n with
  | Num.NInt a => Num.make (a + z) 0
  | Num.NFrac m e => Num.make (m + z * 2 ^ Zpos e) (Zpos e)
  | n => n
  end.
Definition num_gt (n : Num.num) (z : Z) : bool :=
  match n with
  | Num.NInt a => z <? a
  | Num.NFrac m e => z * 2 ^ Zpos e <? m
  | Num.NInf negative => negb negative
  | Num.NNaN => false
  end.

(** ** [encodeURIComponent] *)
Definition hex_upper (n : N) : ascii := ascii_of_N (if (n <? 10)%N then 48 + n else 55 + n).
Definition percent (n : N) : list ascii := ["%"%char; hex_upper (n / 16); hex_upper (n mod 16)].
Definition is_unreserved (c : ascii) : bool :=
  let n := Str.code c in
  ((48 <=? n) && (n <=? 57) || (65 <=? n) && (n <=? 90) || (97 <=? n) && (n <=? 122))%N ||
  existsb (Ascii.eqb c) (Str.chars "-_.!~*'()").
(** Above ASCII a code unit is two UTF-8 bytes. *)
Definition encode_char (c : ascii) : list ascii :=
  let n := Str.code c in
  if is_unreserved c then [c]
  else if (n <? 128)%N then percent n
  else percent (192 + n / 64)%N ++ percent (128 + n mod 64)%N.
Definition encodeURIComponent (s : string) : string := Str.of_chars (concat (encode_char <$> Str.chars s)).

(** ** [btoa] *)
Definition base64_char (n : N) : ascii :=
  ascii_of_N (if (n <? 26)%N then 65 + n else if (n <? 52)%N then 71 + n
              else if (n <? 62)%N then n - 4 else if (n =? 62)%N then 43 else 47).
Fixpoint base64 (l : list ascii) : list ascii :=
  match l with
  | [] => []
  | [a] =>
      let n := (Str.code a * 16)%N in
      [base64_char (n / 64); base64_char (n mod 64); "="%char; "="%char]
  | [a; b] =>
      let n := ((Str.code a * 256 + Str.code b) * 4)%N in
      [base64_char (n / 4096); base64_char (n / 64 mod 64); base64_char (n mod 64); "="%char]
  | a :: b :: c :: l =>
      let n := ((Str.code a * 256 + Str.code b) * 256 + Str.code c)%N in
      base64_char (n / 262144) :: base64_char (n / 4096 mod 64) :: base64_char (n / 64 mod 64) ::
      base64_char (n mod 64) :: base64 l
  end.
Definition btoa (s : string) : string := Str.of_chars (base64 (Str.chars s)).

(** ** [JSON.stringify] on text and on an object of texts *)
Definition escape_char (c : ascii) : list ascii :=
  let n := Str.code c in
  let bs := "\"%char in
  if (n =? 34)%N then [bs; c]
  else if (n =? 92)%N then [bs; bs]
  else if (n =? 8)%N then [bs; "b"%char]
  else if (n =? 9)%N then [bs; "t"%char]
  else if (n =? 10)%N then [bs; "n"%char]
  else if (n =? 12)%N then [bs; "f"%char]
  else if (n =? 13)%N then [bs; "r"%char]
  else if (n <? 32)%N then
    let hex k := ascii_of_N (if (k <? 10)%N then 48 + k else 87 + k) in
    bs :: "u"%char :: "0"%char :: "0"%char :: [hex (n / 16)%N; hex (n mod 16)%N]
  else [c].
Definition json_string (s : string) : string :=
  Str.dq +:+ Str.of_chars (concat (escape_char <$> Str.chars s)) +:+ Str.dq.
Definition json_texts (fields : list (string * string)) : string :=
  "{" +:+ Str.join "," ((λ kv, json_string kv.1 +:+ ":" +:+ json_string kv.2) <$> fields) +:+ "}".

(** ** [URLSearchParams]: the form encoding of names and values *)
Definition is_form_plain (c : ascii) : bool :=
  let n := Str.code c in
  ((48 <=? n) && (n <=? 57) || (65 <=? n) && (n <=? 90) || (97 <=? n) && (n <=? 122))%N ||
  existsb (Ascii.eqb c) (Str.chars "*-._").
Definition form_char (c : ascii) : list ascii :=
  let n := Str.code c in
  if is_form_plain c then [c]
  else if (n =? 32)%N then ["+"%char]
  else if (n <? 128)%N then percent n
  else percent (192 + n / 64)%N ++ percent (128 + n mod 64)%N.
Definition form_encode (s : string) : string := Str.of_chars (concat (form_char <$> Str.chars s)).
Definition search_params (params : list (string * string)) : string :=
  Str.join "&" ((λ kv, form_encode kv.1 +:+ "=" +:+ form_encode kv.2) <$> params).
