(* ===== verification/Text.v ===== *)
(** * Text tools and the credential primitives

    [split], prefixes and slices of strings; the hex of a digest or of random bytes, [sha256Hex],
    [randomToken] and [newId] and the two constant-time comparisons (src/crypto.ts,
    src/constant-time.ts); the bearer of a request.  The SHA-256 digest and the random bytes are
    parameters. *)

From S2P Require Export Http Sql.
From Stdlib Require Import Ascii.
Open Scope string_scope.
Open Scope list_scope.
Open Scope Z_scope.
Open Scope plane_scope.

(** ** Strings: prefixes, [slice(n)] and [split(c)] *)
Definition starts_with (p s : string) : bool := String.prefix p s.
Definition slice_from (n : nat) (s : string) : string := Str.of_chars (skipn n (Str.chars s)).

(** The text before the first [mark] in [s], and the text after it. *)
Fixpoint cut (mark s : string) : option (string * string) :=
  if starts_with mark s then Some ("", slice_from (String.length mark) s)
  else match s with
  | EmptyString => None
  | String c s => match cut mark s with Some (before, after) => Some (String c before, after) | None => None end
  end.

Fixpoint split_chars (c : ascii) (l : list ascii) : list (list ascii) :=
  match l with
  | [] => [[]]
  | x :: l =>
      if Ascii.eqb x c then [] :: split_chars c l
      else match split_chars c l with
           | [] => [[x]]
           | w :: ws => (x :: w) :: ws
           end
  end.
Definition split (c : ascii) (s : string) : list string := Str.of_chars <$> split_chars c (Str.chars s).

(** [s.includes(".")] *)
Definition has_dot (s : string) : bool := existsb (Ascii.eqb ".") (Str.chars s).

(** Bytes as the text [b.toString(16).padStart(2, "0")] joins them; a [Uint8Array] is a list of bytes. *)
Definition hex_lower (n : N) : ascii := ascii_of_N (if (n <? 10)%N then 48 + n else 87 + n).
Definition hex_byte (b : ascii) : list ascii := [hex_lower (Str.code b / 16); hex_lower (Str.code b mod 16)].
Definition hex_bytes (l : list ascii) : string := Str.of_chars (concat (hex_byte <$> l)).

(** ** Constant-time comparison *)
Fixpoint xor_fold (diff : N) (a b : list ascii) : N :=
  match a, b with
  | x :: a, y :: b => xor_fold (N.lor diff (N.lxor (Str.code x) (Str.code y))) a b
  | _, _ => diff
  end.
Definition timingSafeEqual (a b : string) : bool :=
  if negb (length (Str.chars a) =? length (Str.chars b))%nat then false
  else (xor_fold 0 (Str.chars a) (Str.chars b) =? 0)%N.

Definition token_char (c : ascii) : bool :=
  let n := Str.code c in ((48 <=? n) && (n <=? 57) || (97 <=? n) && (n <=? 102))%N.

(** ** Digests and random values (src/crypto.ts) *)
Section digests.
(** [crypto.subtle.digest("SHA-256", utf8(s))] *)
Variable digest : string → list ascii.

Definition sha256Hex (s : string) : string := hex_bytes (digest s).
(** The fold runs over the bytes of the first digest. *)
Definition constantTimeEqual (a b : string) : bool := (xor_fold 0 (digest a) (digest b) =? 0)%N.
End digests.

(** [random] are the bytes [crypto.getRandomValues] filled in: 32 of a token, 12 of an id. *)
Definition randomToken (random : list ascii) : string := hex_bytes random.
Definition newId (prefix : string) (random : list ascii) : string := prefix +:+ "_" +:+ hex_bytes random.

(** ** [bearerFrom] (src/crypto.ts): [/^Bearer\s+(\S+)$/i] on the Authorization header, empty when absent *)
Definition bearerFrom (authorization : option string) : option string :=
  let l := Str.chars (default "" authorization) in
  if Str.of_chars (Str.lower_char <$> firstn 6 l) =s? "bearer" then
    match skipn 6 l with
    | c :: l' =>
        if Str.is_space c then
          match Str.drop_space l' with
          | [] => None
          | w => if forallb (λ x, negb (Str.is_space x)) w then Some (Str.of_chars w) else None
          end
        else None
    | [] => None
    end
  else None.

(** ** Lemmas *)
Section text.
Implicit Types (s p r : string) (l w : list ascii).

Lemma starts_with_spec p s : starts_with p s = true ↔ ∃ r, s = p +:+ r.
Proof.
unfold starts_with. revert s. induction p as [|c p IH]; intros s; cbn.
- split; [|by destruct s]. intros _. by exists s.
- destruct s as [|c' s]; cbn; [split; [done|by intros [r ?]]|].
  destruct (ascii_dec c c') as [<-|Hne].
  + rewrite IH. split; intros [r Hr]; exists r; [by rewrite Hr|by injection Hr].
  + split; [done|]. intros [r Hr]. by injection Hr as ->.
Qed.

Lemma slice_from_app p r : slice_from (String.length p) (p +:+ r) = r.
Proof.
unfold slice_from. rewrite chars_append. induction p as [|c p IH]; cbn; [apply of_chars_chars|exact IH].
Qed.

Definition no_sep (c : ascii) l : Prop := forallb (λ x, negb (Ascii.eqb x c)) l = true.

Lemma split_nonempty c l : split_chars c l ≠ [].
Proof. destruct l as [|x l]; cbn; [done|]. destruct (Ascii.eqb x c); [done|]. by destruct (split_chars c l). Qed.

Lemma split_plain c w : no_sep c w → split_chars c w = [w].
Proof.
unfold no_sep. induction w as [|x w IH]; cbn; [done|]. intros H. bool_hyps.
match goal with H : Ascii.eqb x c = false |- _ => rewrite H end. by rewrite IH.
Qed.
Lemma split_sep c w l : no_sep c w → split_chars c (w ++ c :: l) = w :: split_chars c l.
Proof.
unfold no_sep. induction w as [|x w IH]; cbn; [by rewrite Ascii.eqb_refl|]. intros H. bool_hyps.
match goal with H : Ascii.eqb x c = false |- _ => rewrite H end. by rewrite IH.
Qed.
Lemma split_inv c l w ws :
  split_chars c l = w :: ws →
  no_sep c w ∧ match ws with [] => l = w | _ => ∃ l', l = w ++ c :: l' ∧ split_chars c l' = ws end.
Proof.
revert w ws. induction l as [|x l IH]; intros w ws; cbn; [by intros [= <- <-]|].
destruct (Ascii.eqb x c) eqn:E.
- apply Ascii.eqb_eq in E as ->. intros [= <- <-]. split; [done|].
  destruct (split_chars c l) eqn:El; [by apply split_nonempty in El|]. by exists l.
- destruct (split_chars c l) as [|w' ws'] eqn:El; [by apply split_nonempty in El|].
  destruct (IH _ _ eq_refl) as [Hw Hws]. intros [= <- <-]. split.
  + unfold no_sep in *. cbn. by rewrite E.
  + destruct ws'; [by subst|]. destruct Hws as (l' & -> & Hl'). by exists l'.
Qed.

Lemma xor_fold_0 d a b : length a = length b → xor_fold d a b = 0%N ↔ d = 0%N ∧ a = b.
Proof.
revert d b. induction a as [|x a IH]; intros d [|y b]; cbn; try done.
- intros _. naive_solver.
- intros [= Hl]. rewrite IH, N.lor_eq_0_iff, N.lxor_eq_0_iff by done.
  split; [|naive_solver]. intros [[-> ->%code_inj] ->]. done.
Qed.
Lemma timingSafeEqual_eq a b : timingSafeEqual a b = (a =s? b).
Proof.
unfold timingSafeEqual. destruct (length (Str.chars a) =? length (Str.chars b))%nat eqn:E; cbn.
- apply Nat.eqb_eq in E. apply eq_true_iff_eq. rewrite N.eqb_eq, xor_fold_0, String.eqb_eq by done. split; [|by intros ->].
  intros [_ H]. by rewrite <- (of_chars_chars a), <- (of_chars_chars b), H.
- apply Nat.eqb_neq in E. symmetry. apply String.eqb_neq. by intros ->.
Qed.

(** SHA-256 digests are 32 bytes; [a] and [b] do not collide. *)
Lemma constantTimeEqual_eq digest a b :
  (∀ s, length (digest s) = 32%nat) → (digest a = digest b → a = b) → constantTimeEqual digest a b = (a =s? b).
Proof.
intros Hlen Hinj. unfold constantTimeEqual. apply eq_true_iff_eq. rewrite N.eqb_eq, xor_fold_0, String.eqb_eq by (by rewrite !Hlen).
split; [|by intros ->]. intros [_ H]. by apply Hinj.
Qed.

Lemma hex_byte_inj a b : hex_byte a = hex_byte b → a = b.
Proof.
assert (∀ n m, (n < 16)%N → (m < 16)%N → hex_lower n = hex_lower m → n = m) as Hl.
{ assert (∀ n, (n < 16)%N → n ∈ (N.of_nat <$> seq 0 16)) as Hs.
  { intros n Hn. apply list_elem_of_fmap. exists (N.to_nat n). split; [lia|]. apply elem_of_seq. lia. }
  intros n m Hn%Hs Hm%Hs. cbn in Hn, Hm. set_unfold. clear Hs. destruct_or?; subst; vm_compute; congruence. }
assert (∀ c, (Str.code c < 256)%N) as Hc by (intros [[] [] [] [] [] [] [] []]; vm_compute; done).
intros [= H1 H2]. apply Hl in H1; [|by apply N.Div0.div_lt_upper_bound, Hc..].
apply Hl in H2; [|by apply N.mod_lt..]. apply code_inj.
rewrite (N.div_mod (Str.code a) 16), (N.div_mod (Str.code b) 16) by done. by rewrite H1, H2.
Qed.
Lemma hex_bytes_inj a b : hex_bytes a = hex_bytes b → a = b.
Proof.
intros H%(f_equal Str.chars). unfold hex_bytes in H. rewrite !chars_of_chars in H.
revert b H. induction a as [|x a IH]; intros [|y b]; cbn [fmap list_fmap concat]; [done..|]. intros H.
apply (app_inj_1 (hex_byte x) (hex_byte y)) in H as [->%hex_byte_inj H]; [|done]. f_equal. by apply IH.
Qed.
Lemma sha256Hex_eq digest a b : sha256Hex digest a = sha256Hex digest b ↔ digest a = digest b.
Proof. split; [apply hex_bytes_inj|]. unfold sha256Hex. by intros ->. Qed.

Lemma hex_byte_token b : forallb token_char (hex_byte b) = true.
Proof. destruct b as [[] [] [] [] [] [] [] []]; reflexivity. Qed.
Lemma hex_bytes_token l : forallb token_char (Str.chars (hex_bytes l)) = true.
Proof.
unfold hex_bytes. rewrite chars_of_chars. induction l as [|b l IH]; cbn [fmap list_fmap concat]; [done|].
by rewrite forallb_app, hex_byte_token, IH.
Qed.
Lemma hex_bytes_length l : length (Str.chars (hex_bytes l)) = (2 * length l)%nat.
Proof.
unfold hex_bytes. rewrite chars_of_chars. induction l as [|b l IH]; cbn [fmap list_fmap concat]; [done|].
rewrite length_app, IH. cbn [length hex_byte]. lia.
Qed.

Lemma forallb_weaken (p q : ascii → bool) l : (∀ c, p c = true → q c = true) → forallb p l = true → forallb q l = true.
Proof. rewrite !forallb_forall. naive_solver. Qed.
Lemma token_no_sep l : forallb token_char l = true → no_sep "." l.
Proof. apply forallb_weaken. intros c. destruct c as [[] [] [] [] [] [] [] []]; done. Qed.
Lemma chars_inj (a b : string) : Str.chars a = Str.chars b → a = b.
Proof. intros H. by rewrite <- (of_chars_chars a), <- (of_chars_chars b), H. Qed.
Lemma append_nil s : s +:+ "" = s.
Proof. apply chars_inj. rewrite chars_append. apply app_nil_r. Qed.
Lemma append_assoc (a b c : string) : (a +:+ b) +:+ c = a +:+ (b +:+ c).
Proof. induction a as [|x a IH]; [done|]. exact (f_equal (String x) IH). Qed.

(** The segments of a path, put together and taken apart. *)
Lemma split_one c a : no_sep c (Str.chars a) → split c a = [a].
Proof. intros H. unfold split. rewrite split_plain by done. cbn. by rewrite of_chars_chars. Qed.
Lemma split_more c a b : no_sep c (Str.chars a) → split c (a +:+ String c b) = a :: split c b.
Proof. intros H. unfold split. rewrite chars_append. change (Str.chars (String c b)) with (c :: Str.chars b). rewrite split_sep by done. cbn. by rewrite of_chars_chars. Qed.
Lemma split_parts c s a ws :
  split c s = a :: ws →
  no_sep c (Str.chars a) ∧ match ws with [] => s = a | _ => ∃ s', s = a +:+ String c s' ∧ split c s' = ws end.
Proof.
  unfold split. destruct (split_chars c (Str.chars s)) as [|w l] eqn:E; [done|]. intros [= <- <-].
  destruct (split_inv _ _ _ _ E) as [Hw Hl]. rewrite chars_of_chars. split; [done|]. destruct l as [|v l].
  - by rewrite <- Hl, of_chars_chars.
  - destruct Hl as (l' & Hs & Hl'). exists (Str.of_chars l'). split; [|by rewrite chars_of_chars, Hl'].
    rewrite <- (of_chars_chars s), Hs. clear. induction w as [|x w IH]; [done|]. exact (f_equal (String x) IH).
Qed.

Lemma split_end c s a : split c s = [a] → s = a.
Proof. intros H. by destruct (split_parts _ _ _ _ H) as [_ ->]. Qed.
Lemma split_two c s a b : split c s = [a; b] → s = a +:+ String c b.
Proof. intros H. destruct (split_parts _ _ _ _ H) as (_ & s' & -> & H'). by rewrite (split_end _ _ _ H'). Qed.
Lemma split_three c s a b d : split c s = [a; b; d] → s = a +:+ String c (b +:+ String c d).
Proof. intros H. destruct (split_parts _ _ _ _ H) as (_ & s' & -> & H'). by rewrite (split_two _ _ _ _ H'). Qed.

Lemma prefix_false p q s : starts_with p (q +:+ s) = true → starts_with p q = false → starts_with q p = true.
Proof.
  unfold starts_with. revert q. induction p as [|c p IH]; intros [|c' q]; cbn; try done.
  change (String c' q +:+ s) with (String c' (q +:+ s)). cbn. destruct (ascii_dec c c') as [<-|]; [|done]. destruct (ascii_dec c c); [apply IH|done].
Qed.
End text.

(** ** Trimming and joining *)
Section trimming.
Implicit Types (l : list ascii) (s : string).

Lemma drop_space_suffix l : ∃ sp, l = sp ++ Str.drop_space l ∧ forallb Str.is_space sp = true.
Proof.
induction l as [|c l IH]; [by exists []|]. cbn. destruct (Str.is_space c) eqn:E; [|by exists []].
destruct IH as (sp & Hl & Hs). exists (c :: sp). cbn. rewrite E. split; [by f_equal|done].
Qed.
Lemma drop_space_head l : match Str.drop_space l with [] => True | c :: _ => Str.is_space c = false end.
Proof. induction l as [|c l IH]; cbn; [done|]. by destruct (Str.is_space c) eqn:E. Qed.

Lemma trim_chars_ends l :
  match Str.trim_chars l with [] => True | c :: _ => Str.is_space c = false end ∧
  match rev (Str.trim_chars l) with [] => True | c :: _ => Str.is_space c = false end.
Proof.
unfold Str.trim_chars. rewrite rev_involutive. split; [|apply drop_space_head].
pose proof (drop_space_head l) as Hh. set (l' := Str.drop_space l) in *.
destruct (drop_space_suffix (rev l')) as (sp & Hl & _). apply (f_equal (@rev ascii)) in Hl. rewrite rev_involutive, rev_app_distr in Hl.
destruct (rev (Str.drop_space (rev l'))) as [|c r]; [done|]. by rewrite Hl in Hh.
Qed.
Lemma trim_trim s : Str.trim (Str.trim s) = Str.trim s.
Proof.
destruct (trim_chars_ends (Str.chars s)) as [H1 H2]. apply trim_id; unfold Str.trim; by rewrite chars_of_chars.
Qed.
Lemma trim_space s : Str.trim (" " +:+ s) = Str.trim s.
Proof. done. Qed.

Lemma trim_no_sep c s : no_sep c (Str.chars s) → no_sep c (Str.chars (Str.trim s)).
Proof.
unfold no_sep, Str.trim. rewrite chars_of_chars, !forallb_forall. intros H x Hx. apply H. clear H. revert Hx.
unfold Str.trim_chars. destruct (drop_space_suffix (Str.chars s)) as (sp & Hl & _).
destruct (drop_space_suffix (rev (Str.drop_space (Str.chars s)))) as (sp2 & Hl2 & _).
rewrite <- in_rev. intros Hx. rewrite Hl. apply in_app_iff. right. apply in_rev. rewrite Hl2. apply in_app_iff. by right.
Qed.

Lemma split_all_no_sep c s p : p ∈ split c s → no_sep c (Str.chars p).
Proof.
remember (split c s) as ws eqn:E. revert s E. induction ws as [|w ws IH]; intros s E; [by intros ?%elem_of_nil|].
destruct (split_parts c s w ws (eq_sym E)) as [Hw Hs]. intros [->|Hp]%elem_of_cons; [done|]. destruct ws as [|v ws]; [by apply elem_of_nil in Hp|].
destruct Hs as (s' & _ & Hs'). by eapply IH.
Qed.

(** [l.join("; ").split(";")]: the parts, all but the first behind a space. *)
Lemma split_join w ws : Forall (λ p, no_sep ";" (Str.chars p)) (w :: ws) →
  split ";" (Str.join "; " (w :: ws)) = w :: ((λ p, " " +:+ p) <$> ws).
Proof.
revert w. induction ws as [|v ws IH]; intros w [Hw Hws]%Forall_cons; [by apply split_one|].
change (Str.join "; " (w :: v :: ws)) with (w +:+ String ";" (" " +:+ Str.join "; " (v :: ws))).
rewrite split_more by done. f_equal. cbn [fmap list_fmap].
specialize (IH v Hws). unfold split in *. change (Str.chars (" " +:+ Str.join "; " (v :: ws))) with (" "%char :: Str.chars (Str.join "; " (v :: ws))).
cbn [split_chars Ascii.eqb]. change (Ascii.eqb " " ";") with false. cbn iota.
destruct (split_chars ";" (Str.chars (Str.join "; " (v :: ws)))) as [|a l]; [done|]. cbn in *. injection IH as Ha Hl.
f_equal; [exact (f_equal (String " ") Ha)|exact Hl].
Qed.
End trimming.
