(* ===== verification/Regex.v ===== *)
(** * Anchored regular expressions

    [/^r$/.test(s)] of the source's patterns: expressions over sets of characters, their language, and
    a matcher by derivatives that decides it.  Captures of the patterns that have them are read off by
    the lemmas on the language. *)

From S2P Require Export Js.
From Stdlib Require Import Ascii.
Open Scope string_scope.
Open Scope list_scope.
Open Scope Z_scope.
Open Scope plane_scope.

Inductive regex :=
| RNone
| REmpty
| RSet (p : ascii → bool)
| RCat (r s : regex)
| RAlt (r s : regex)
| RStar (r : regex).

Definition RPlus (r : regex) : regex := RCat r (RStar r).
Definition RChar (c : ascii) : regex := RSet (Ascii.eqb c).
Fixpoint RText (l : list ascii) : regex :=
  match l with [] => REmpty | c :: l => RCat (RChar c) (RText l) end.
(** [{n}] and [{0,n}] *)
Fixpoint RTimes (n : nat) (r : regex) : regex := match n with O => REmpty | S n => RCat r (RTimes n r) end.
Fixpoint RUpTo (n : nat) (r : regex) : regex := match n with O => REmpty | S n => RAlt REmpty (RCat r (RUpTo n r)) end.

Fixpoint nullable (r : regex) : bool :=
  match r with
  | RNone | RSet _ => false
  | REmpty | RStar _ => true
  | RCat r s => nullable r && nullable s
  | RAlt r s => nullable r || nullable s
  end.

(** What is left to match after one character. *)
Fixpoint deriv (c : ascii) (r : regex) : regex :=
  match r with
  | RNone | REmpty => RNone
  | RSet p => if p c then REmpty else RNone
  | RCat r s => let d := RCat (deriv c r) s in if nullable r then RAlt d (deriv c s) else d
  | RAlt r s => RAlt (deriv c r) (deriv c s)
  | RStar r => RCat (deriv c r) (RStar r)
  end.

Fixpoint rmatch (r : regex) (l : list ascii) : bool :=
  match l with [] => nullable r | c :: l => rmatch (deriv c r) l end.
Definition test (r : regex) (s : string) : bool := rmatch r (Str.chars s).

(** ** The language *)
Inductive lang : regex → list ascii → Prop :=
| lang_empty : lang REmpty []
| lang_set p c : p c = true → lang (RSet p) [c]
| lang_cat r s l1 l2 : lang r l1 → lang s l2 → lang (RCat r s) (l1 ++ l2)
| lang_left r s l : lang r l → lang (RAlt r s) l
| lang_right r s l : lang s l → lang (RAlt r s) l
| lang_stop r : lang (RStar r) []
| lang_more r l1 l2 : lang r l1 → lang (RStar r) l2 → lang (RStar r) (l1 ++ l2).
Create HintDb regex.
#[export] Hint Constructors lang : regex.

Lemma lang_cat_inv r s l : lang (RCat r s) l ↔ ∃ l1 l2, l = l1 ++ l2 ∧ lang r l1 ∧ lang s l2.
Proof. split; [inversion 1; eauto|]. intros (l1 & l2 & -> & ? & ?). by constructor. Qed.
Lemma lang_alt_inv r s l : lang (RAlt r s) l ↔ lang r l ∨ lang s l.
Proof. split; [inversion 1; auto|]. intros [?|?]; auto with regex. Qed.
Lemma lang_set_inv p l : lang (RSet p) l ↔ ∃ c, l = [c] ∧ p c = true.
Proof. split; [inversion 1; eauto|]. intros (c & -> & ?). by constructor. Qed.
Lemma lang_empty_inv l : lang REmpty l ↔ l = [].
Proof. split; [by inversion 1|]. intros ->. constructor. Qed.

Lemma nullable_spec r : nullable r = true ↔ lang r [].
Proof.
  split.
  - induction r; cbn; try done; [constructor|intros ?; bool_hyps; apply (lang_cat _ _ [] []); auto| |constructor].
    intros [?|?]%orb_true_iff; auto with regex.
  - assert (∀ l, lang r l → l = [] → nullable r = true) as H; [|by intros; eapply H].
    induction 1 as [| |r s l1 l2 _ IH1 _ IH2|r s l _ IH|r s l _ IH| |]; cbn; try done.
    + intros [-> ->]%app_eq_nil. by rewrite IH1, IH2.
    + intros ->. by rewrite IH.
    + intros ->. rewrite IH by done. apply orb_true_r.
Qed.

Lemma star_cons r c l : lang (RStar r) (c :: l) → ∃ l1 l2, l = l1 ++ l2 ∧ lang r (c :: l1) ∧ lang (RStar r) l2.
Proof.
  remember (RStar r) as s eqn:Hs. remember (c :: l) as w eqn:Hw. intros H. revert l Hw.
  induction H as [| | | | | |r' l1 l2 H1 _ H2 IH2]; try done. injection Hs as ->. intros l Hw.
  destruct l1 as [|d l1]; cbn in Hw; [by apply IH2|]. injection Hw as -> <-. eauto.
Qed.

Lemma deriv_spec c r l : lang (deriv c r) l ↔ lang r (c :: l).
Proof.
  revert l. induction r as [| |p|r IHr s IHs|r IHr s IHs|r IHr]; intros l; cbn [deriv].
  - split; inversion 1.
  - split; inversion 1.
  - rewrite lang_set_inv. destruct (p c) eqn:E.
    + rewrite lang_empty_inv. split; [intros ->; eauto|]. by intros (d & [= <- ->] & _).
    + split; [inversion 1|]. intros (d & [= <- ->] & ?). congruence.
  - assert (lang (RCat (deriv c r) s) l ↔ ∃ l1 l2, l = l1 ++ l2 ∧ lang r (c :: l1) ∧ lang s l2) as Hd.
    { rewrite lang_cat_inv. setoid_rewrite IHr. done. }
    rewrite lang_cat_inv. destruct (nullable r) eqn:E.
    + apply nullable_spec in E. rewrite lang_alt_inv, Hd, IHs. split.
      * intros [(l1 & l2 & -> & ? & ?)|?]; [by exists (c :: l1), l2|by exists [], (c :: l)].
      * intros ([|d l1] & l2 & Hl & H1 & H2); cbn in Hl; [by right; subst|]. injection Hl as -> ->. left. eauto.
    + rewrite Hd. split.
      * intros (l1 & l2 & -> & ? & ?). by exists (c :: l1), l2.
      * intros ([|d l1] & l2 & Hl & H1 & H2); cbn in Hl; [|injection Hl as -> ->; eauto].
        apply nullable_spec in H1. congruence.
  - by rewrite !lang_alt_inv, IHr, IHs.
  - rewrite lang_cat_inv. setoid_rewrite IHr. split.
    + intros (l1 & l2 & -> & ? & ?). by apply (lang_more _ (c :: l1)).
    + apply star_cons.
Qed.

Lemma rmatch_spec r l : rmatch r l = true ↔ lang r l.
Proof. revert r. induction l as [|c l IH]; intros r; cbn; [apply nullable_spec|]. by rewrite IH, deriv_spec. Qed.

(** ** Languages of the common shapes *)
Lemma lang_star_set p l : lang (RStar (RSet p)) l ↔ forallb p l = true.
Proof.
  split.
  - induction l as [|c l IH]; [done|]. intros (l1 & l2 & -> & H1 & H2)%star_cons.
    apply lang_set_inv in H1 as (d & [= <- ->] & Hp). cbn in *. rewrite Hp. by apply IH.
  - induction l as [|c l IH]; cbn; intros H; [constructor|]. bool_hyps. apply (lang_more _ [c]); [by constructor|auto].
Qed.
Lemma lang_plus_set p l : lang (RPlus (RSet p)) l ↔ l ≠ [] ∧ forallb p l = true.
Proof.
  unfold RPlus. rewrite lang_cat_inv. setoid_rewrite lang_set_inv. setoid_rewrite lang_star_set. split.
  - intros (l1 & l2 & -> & (c & -> & Hp) & Hl). cbn. by rewrite Hp.
  - destruct l as [|c l]; [naive_solver|]. intros [_ Hl]. cbn in Hl. bool_hyps. exists [c], l. eauto.
Qed.
Lemma lang_char c l : lang (RChar c) l ↔ l = [c].
Proof.
  unfold RChar. rewrite lang_set_inv. split; [by intros (d & -> & ->%Ascii.eqb_eq)|].
  intros ->. exists c. by rewrite Ascii.eqb_refl.
Qed.
Lemma lang_text w l : lang (RText w) l ↔ l = w.
Proof.
  revert l. induction w as [|c w IH]; intros l; cbn [RText]; [apply lang_empty_inv|]. rewrite lang_cat_inv.
  setoid_rewrite lang_char. setoid_rewrite IH. split; [by intros (? & ? & -> & -> & ->)|]. intros ->. by exists [c], w.
Qed.
Lemma lang_upto_set p n l : lang (RUpTo n (RSet p)) l ↔ (length l <= n)%nat ∧ forallb p l = true.
Proof.
  revert l. induction n as [|n IH]; intros l; cbn [RUpTo].
  - rewrite lang_empty_inv. destruct l; cbn; [|split; [done|lia]]. naive_solver.
  - rewrite lang_alt_inv, lang_empty_inv, lang_cat_inv. setoid_rewrite lang_set_inv. setoid_rewrite IH. split.
    + intros [->|(l1 & l2 & -> & (c & -> & Hp) & Hn & Hl)]; cbn; [split; [lia|done]|]. rewrite Hp, Hl. split; [lia|done].
    + destruct l as [|c l]; [by left|]. cbn. intros [Hn Hl]. bool_hyps. right. exists [c], l. split_and!; [done|eauto|lia|done].
Qed.
Lemma lang_times_set p n l : lang (RTimes n (RSet p)) l ↔ length l = n ∧ forallb p l = true.
Proof.
  revert l. induction n as [|n IH]; intros l; cbn [RTimes].
  - rewrite lang_empty_inv. destruct l; cbn; naive_solver.
  - rewrite lang_cat_inv. setoid_rewrite lang_set_inv. setoid_rewrite IH. split.
    + intros (l1 & l2 & -> & (c & -> & Hp) & <- & Hl). cbn. by rewrite Hp, Hl.
    + destruct l as [|c l]; [naive_solver|]. cbn. intros [[= <-] Hl]. bool_hyps. exists [c], l. eauto 6.
Qed.

(** ** Segments behind a separator *)
Fixpoint behind (c : ascii) (ws : list (list ascii)) : list ascii :=
  match ws with [] => [] | w :: ws => c :: w ++ behind c ws end.
Lemma lang_star_behind c r l : lang (RStar (RCat (RChar c) r)) l ↔ ∃ ws, l = behind c ws ∧ Forall (lang r) ws.
Proof.
  split.
  - remember (RStar _) as s eqn:Hs. induction 1 as [| | | | | |r' l1 l2 H1 _ H2 IH]; try done.
    + exists []. by split.
    + injection Hs as ->. apply lang_cat_inv in H1 as (a & w & -> & Ha%lang_char & Hw). destruct IH as (ws & -> & Hws); [done|].
      exists (w :: ws). subst. split; [done|by constructor].
  - intros (ws & -> & Hws). induction Hws as [|w ws Hw _ IH]; cbn [behind]; [constructor|].
    change (c :: w ++ behind c ws) with ((c :: w) ++ behind c ws). constructor; [|done].
    apply lang_cat_inv. exists [c], w. split_and!; [done|by apply lang_char|done].
Qed.
