(* ===== verification/AuthStore.v ===== *)
(** * The tables of sign-in and operators (src/store-d1.ts)

    [accounts], [account_identities], [login_tokens], [sessions], [oauth_states], [aup_acceptances]
    and [operator_credentials] of migrations 0001, 0003 and 0016, with every statement of [D1Store]
    on them.  Instants the code passes are ISO texts; [dt] is [datetime('now')] of the engine.  The
    interface the handlers use is at the end. *)

From S2P Require Export Text JsDate.
From Stdlib Require Import Ascii.
Open Scope string_scope.
Open Scope list_scope.
Open Scope Z_scope.
Open Scope plane_scope.

(** ** Rows *)
Inductive AuthProvider := AEmail | AGoogle | AGithub | AApple.
#[export] Instance AuthProvider_eq_dec : EqDecision AuthProvider.
Proof. solve_decision. Defined.

Record Account := mkAccount {
  ac_id : string;
  ac_email : string;
  ac_created_at : string;
  ac_suspended_at : option string;
  ac_suspended_reason : option string;
  ac_deleted_at : option string;
}.

Record Identity := mkIdentity {
  id_provider : AuthProvider;
  id_subject : string;
  id_account_id : string;
  id_last_login_at : option string;
}.

Record LoginToken := mkLoginToken {
  lt_hash : string;
  lt_email : string;
  lt_expires_at : string;
  lt_consumed_at : option string;
}.

Record Session := mkSession {
  se_hash : string;
  se_account_id : string;
  se_expires_at : string;
  se_revoked_at : option string;
}.

Record OAuthState := mkOAuthState {
  oa_state : string;
  oa_provider : string;
  oa_verifier : option string;
  oa_redirect_to : option string;
  oa_expires_at : string;
  oa_consumed_at : option string;
}.

Record AupRow := mkAup {
  au_account_id : string;
  au_version : string;
  au_sha256 : string;
  au_ip_hash : option string;
  au_user_agent : option string;
  au_accepted_at : string;
}.

Record OperatorCredential := mkOperator {
  op_id : string;
  op_name : string;
  op_hash : string;
  op_scopes : string;
  op_created_at : string;
  op_created_by : string;
  op_last_used_at : option string;
  op_expires_at : option string;
  op_revoked_at : option string;
  op_revoked_by : option string;
}.

Record auth_db := mkAuth {
  ad_accounts : list Account;
  ad_identities : list Identity;
  ad_tokens : list LoginToken;
  ad_sessions : list Session;
  ad_states : list OAuthState;
  ad_aup : list AupRow;
  ad_operators : list OperatorCredential;
}.

Definition with_accounts f db := mkAuth (f (ad_accounts db)) (ad_identities db) (ad_tokens db) (ad_sessions db) (ad_states db) (ad_aup db) (ad_operators db).
Definition with_identities f db := mkAuth (ad_accounts db) (f (ad_identities db)) (ad_tokens db) (ad_sessions db) (ad_states db) (ad_aup db) (ad_operators db).
Definition with_tokens f db := mkAuth (ad_accounts db) (ad_identities db) (f (ad_tokens db)) (ad_sessions db) (ad_states db) (ad_aup db) (ad_operators db).
Definition with_sessions f db := mkAuth (ad_accounts db) (ad_identities db) (ad_tokens db) (f (ad_sessions db)) (ad_states db) (ad_aup db) (ad_operators db).
Definition with_states f db := mkAuth (ad_accounts db) (ad_identities db) (ad_tokens db) (ad_sessions db) (f (ad_states db)) (ad_aup db) (ad_operators db).
Definition with_aup f db := mkAuth (ad_accounts db) (ad_identities db) (ad_tokens db) (ad_sessions db) (ad_states db) (f (ad_aup db)) (ad_operators db).
Definition with_operators f db := mkAuth (ad_accounts db) (ad_identities db) (ad_tokens db) (ad_sessions db) (ad_states db) (ad_aup db) (f (ad_operators db)).

Definition is_null {A} (o : option A) : bool := match o with None => true | Some _ => false end.

(** ** Accounts and identities *)
Definition account_is (i : string) (a : Account) : bool := (ac_id a =s? i) && is_null (ac_deleted_at a).
Definition account_email (e : string) (a : Account) : bool := (ac_email a =s? e) && is_null (ac_deleted_at a).
Definition d1_getAccountById (id : string) : M auth_db string (option Account) :=
  gets (λ db, List.find (account_is id) (ad_accounts db)).
Definition d1_getAccountByEmail (email : string) : M auth_db string (option Account) :=
  gets (λ db, List.find (account_email email) (ad_accounts db)).

(** The primary key and the UNIQUE column hold on deleted rows too. *)
Definition d1_createAccount (dt id email : string) : M auth_db string Account := λ db,
  if existsb (λ a, ac_id a =s? id) (ad_accounts db) then (Err "UNIQUE constraint failed: accounts.id", db)
  else if existsb (λ a, ac_email a =s? email) (ad_accounts db) then (Err "UNIQUE constraint failed: accounts.email", db)
  else let a := mkAccount id email dt None None None in (Ok a, with_accounts (λ l, l ++ [a]) db).

Definition identity_is (p : AuthProvider) (s : string) (i : Identity) : bool :=
  bool_decide (id_provider i = p) && (id_subject i =s? s).
Definition d1_getAccountIdByIdentity (p : AuthProvider) (s : string) : M auth_db string (option string) :=
  gets (λ db, id_account_id <$> List.find (identity_is p s) (ad_identities db)).
Definition d1_linkIdentity (p : AuthProvider) (s accountId : string) : M auth_db string unit := λ db,
  if existsb (identity_is p s) (ad_identities db) then (Ok tt, db)
  else if negb (existsb (λ a, ac_id a =s? accountId) (ad_accounts db)) then (Err "FOREIGN KEY constraint failed", db)
  else (Ok tt, with_identities (λ l, l ++ [mkIdentity p s accountId None]) db).
Definition d1_touchIdentityLogin (dt : string) (p : AuthProvider) (s : string) : M auth_db string unit :=
  modify (with_identities (update_where (identity_is p s) (λ i, mkIdentity (id_provider i) (id_subject i) (id_account_id i) (Some dt)))).

(** ** Single-use rows *)
Definition token_is (h : string) (t : LoginToken) : bool := lt_hash t =s? h.
Definition d1_createLoginToken (hash email expiresAt : string) : M auth_db string unit := λ db,
  if existsb (token_is hash) (ad_tokens db) then (Err "UNIQUE constraint failed: login_tokens.token_hash", db)
  else (Ok tt, with_tokens (λ l, l ++ [mkLoginToken hash email expiresAt None]) db).

Definition token_open (h now : string) (t : LoginToken) : bool :=
  token_is h t && is_null (lt_consumed_at t) && (now <s? lt_expires_at t).
Definition token_spent (now : string) (t : LoginToken) : LoginToken := mkLoginToken (lt_hash t) (lt_email t) (lt_expires_at t) (Some now).
Definition d1_consumeLoginToken (hash now : string) : M auth_db string (option LoginToken) := λ db,
  (Ok (token_spent now <$> List.find (token_open hash now) (ad_tokens db)),
   with_tokens (update_where (token_open hash now) (token_spent now)) db).

Definition state_is (s : string) (o : OAuthState) : bool := oa_state o =s? s.
Definition d1_createOAuthState (row : OAuthState) : M auth_db string unit := λ db,
  if existsb (state_is (oa_state row)) (ad_states db) then (Err "UNIQUE constraint failed: oauth_states.state", db)
  else (Ok tt, with_states (λ l, l ++ [mkOAuthState (oa_state row) (oa_provider row) (oa_verifier row) (oa_redirect_to row) (oa_expires_at row) None]) db).
Definition state_open (s now : string) (o : OAuthState) : bool :=
  state_is s o && is_null (oa_consumed_at o) && (now <s? oa_expires_at o).
Definition state_spent (now : string) (o : OAuthState) : OAuthState :=
  mkOAuthState (oa_state o) (oa_provider o) (oa_verifier o) (oa_redirect_to o) (oa_expires_at o) (Some now).
Definition d1_consumeOAuthState (state now : string) : M auth_db string (option OAuthState) := λ db,
  (Ok (state_spent now <$> List.find (state_open state now) (ad_states db)),
   with_states (update_where (state_open state now) (state_spent now)) db).

(** ** Sessions *)
Definition session_is (h : string) (s : Session) : bool := se_hash s =s? h.
Definition d1_createSession (hash accountId expiresAt : string) : M auth_db string unit := λ db,
  if existsb (session_is hash) (ad_sessions db) then (Err "UNIQUE constraint failed: sessions.token_hash", db)
  else if negb (existsb (λ a, ac_id a =s? accountId) (ad_accounts db)) then (Err "FOREIGN KEY constraint failed", db)
  else (Ok tt, with_sessions (λ l, l ++ [mkSession hash accountId expiresAt None]) db).
Definition session_live (h now : string) (s : Session) : bool :=
  session_is h s && is_null (se_revoked_at s) && (now <s? se_expires_at s).
Definition d1_getSession (hash now : string) : M auth_db string (option Session) :=
  gets (λ db, List.find (session_live hash now) (ad_sessions db)).
Definition d1_revokeSession (hash now : string) : M auth_db string unit :=
  modify (with_sessions (update_where (λ s, session_is hash s && is_null (se_revoked_at s))
    (λ s, mkSession (se_hash s) (se_account_id s) (se_expires_at s) (Some now)))).

(** ** The policy *)
Definition aup_is (account version : string) (r : AupRow) : bool := (au_account_id r =s? account) && (au_version r =s? version).
Definition d1_hasAcceptedAup (account version : string) : M auth_db string bool :=
  gets (λ db, existsb (aup_is account version) (ad_aup db)).
(** [isoFromSqliteUtc]: an instant with a zone stays, SQLite's own form gets its T and its Z, and anything
    else stays.  In a shape, [d] is a digit. *)
Fixpoint shaped (shape l : list ascii) : bool :=
  match shape, l with
  | [], [] => true
  | p :: shape, c :: l => (if Ascii.eqb p "d"%char then Str.is_digit c else Ascii.eqb p c) && shaped shape l
  | _, _ => false
  end.
Definition tail_shaped (shape : string) (s : string) : bool :=
  shaped (Str.chars shape) (skipn (String.length s - String.length shape) (Str.chars s)).
Definition has_zone (s : string) : bool := existsb (λ shape, tail_shaped shape s) ["Z"; "z"; "+dd:dd"; "-dd:dd"; "+dddd"; "-dddd"].
Definition fraction_ok (l : list ascii) : bool :=
  match l with [] => true | c :: ds => Ascii.eqb c "."%char && negb (length ds =? 0)%nat && forallb Str.is_digit ds end.
Definition isoFromSqliteUtc (value : string) : string :=
  if has_zone value then value
  else
    let l := Str.chars value in
    let date := firstn 10 l in let time := firstn 8 (skipn 11 l) in let fraction := skipn 19 l in
    if shaped (Str.chars "dddd-dd-dd") date && existsb (λ sep, bool_decide (firstn 1 (skipn 10 l) = [sep])) [" "%char; "T"%char] &&
       shaped (Str.chars "dd:dd:dd") time && fraction_ok fraction
    then Str.of_chars (date ++ "T"%char :: time ++ fraction ++ ["Z"%char])
    else value.
(** [ORDER BY id DESC LIMIT 1]: the rows are in the order of their ids. *)
Definition d1_getLastAupAcceptance (account : string) : M auth_db string (option (string * string)) :=
  gets (λ db, (λ r, (au_version r, isoFromSqliteUtc (au_accepted_at r))) <$> last (jfilter (λ r, au_account_id r =s? account) (ad_aup db))).
(** [INSERT OR IGNORE]; an unknown account is still refused. *)
Definition d1_recordAupAcceptance (dt account version sha256 : string) (ipHash userAgent : option string) : M auth_db string unit := λ db,
  if existsb (aup_is account version) (ad_aup db) then (Ok tt, db)
  else if negb (existsb (λ a, ac_id a =s? account) (ad_accounts db)) then (Err "FOREIGN KEY constraint failed", db)
  else (Ok tt, with_aup (λ l, l ++ [mkAup account version sha256 ipHash userAgent dt]) db).

Lemma iso_from_sqlite_twice value : isoFromSqliteUtc (isoFromSqliteUtc value) = isoFromSqliteUtc value.
Proof.
unfold isoFromSqliteUtc at 2 3. destruct (has_zone value) eqn:Hz; [unfold isoFromSqliteUtc; by rewrite Hz|]. cbv zeta. destruct (_ && _) eqn:E.
- unfold isoFromSqliteUtc. set (l := firstn 10 _ ++ _). assert (has_zone (Str.of_chars l) = true) as ->; [|done].
  unfold has_zone, existsb. apply orb_true_iff. left. unfold tail_shaped. rewrite chars_of_chars. cbn [String.length].
  assert (∃ r, l = r ++ ["Z"%char]) as [r ->] by (subst l; eexists; rewrite app_comm_cons, !app_assoc; reflexivity).
  assert (String.length (Str.of_chars (r ++ ["Z"%char])) = length r + 1)%nat as ->.
  { rewrite <- (chars_of_chars (r ++ ["Z"%char])) at 2 || idtac. generalize (r ++ ["Z"%char]) (length_app r ["Z"%char]). cbn. intros k <-. induction k as [|c k IH]; [done|]. cbn. by rewrite <- IH. }
  rewrite Nat.add_sub, skipn_app, skipn_all, Nat.sub_diag. reflexivity.
- unfold isoFromSqliteUtc. rewrite Hz. cbv zeta. by rewrite E.
Qed.
Example sqlite_instant : isoFromSqliteUtc "2026-07-16 12:00:00" = "2026-07-16T12:00:00Z".
Proof. reflexivity. Qed.

(** ** Operators: the primary key, the digest's UNIQUE column and the index on live names *)
Definition live_name (n : string) (o : OperatorCredential) : bool := (op_name o =s? n) && is_null (op_revoked_at o).
Definition d1_createOperatorCredential (dt id name hash scopes createdBy : string) (expiresAt : option string) : M auth_db string unit := λ db,
  if existsb (λ o, op_id o =s? id) (ad_operators db) then (Err "UNIQUE constraint failed: operator_credentials.id", db)
  else if existsb (λ o, op_hash o =s? hash) (ad_operators db) then (Err "UNIQUE constraint failed: operator_credentials.token_sha256", db)
  else if existsb (live_name name) (ad_operators db) then (Err "UNIQUE constraint failed: operator_credentials.name", db)
  else (Ok tt, with_operators (λ l, l ++ [mkOperator id name hash scopes dt createdBy None expiresAt None None]) db).
Definition d1_getOperatorCredentialByHash (hash : string) : M auth_db string (option OperatorCredential) :=
  gets (λ db, List.find (λ o, op_hash o =s? hash) (ad_operators db)).
Definition d1_listOperatorCredentials : M auth_db string (list OperatorCredential) :=
  gets (λ db, order_desc (λ o, (op_created_at o, op_id o)) (ad_operators db)).
Definition op_revoke (by_ now : string) (o : OperatorCredential) : OperatorCredential :=
  mkOperator (op_id o) (op_name o) (op_hash o) (op_scopes o) (op_created_at o) (op_created_by o) (op_last_used_at o) (op_expires_at o) (Some now) (Some by_).
Definition d1_revokeOperatorCredential (id revokedBy now : string) : M auth_db string bool := λ db,
  let sel o := (op_id o =s? id) && is_null (op_revoked_at o) in
  (Ok (0 <? changes sel (ad_operators db))%nat, with_operators (update_where sel (op_revoke revokedBy now)) db).
Definition d1_touchOperatorCredential (id now : string) : M auth_db string unit :=
  modify (with_operators (update_where (λ o, op_id o =s? id)
    (λ o, mkOperator (op_id o) (op_name o) (op_hash o) (op_scopes o) (op_created_at o) (op_created_by o) (Some now) (op_expires_at o) (op_revoked_at o) (op_revoked_by o)))).

(** ** What anybody may do between two statements of a handler

    Every statement above, and an operator of the database suspending, resuming or deleting an
    account by hand: no code writes those three columns.  A revocation is dated: the code passes
    [toISOString]. *)
Inductive auth_step : auth_db → auth_db → Prop :=
| step_createAccount dt i e db : auth_step db (exec (d1_createAccount dt i e) db)
| step_linkIdentity p s a db : auth_step db (exec (d1_linkIdentity p s a) db)
| step_touchIdentity dt p s db : auth_step db (exec (d1_touchIdentityLogin dt p s) db)
| step_createToken h e x db : auth_step db (exec (d1_createLoginToken h e x) db)
| step_consumeToken h t db : auth_step db (exec (d1_consumeLoginToken h t) db)
| step_createState r db : auth_step db (exec (d1_createOAuthState r) db)
| step_consumeState s t db : auth_step db (exec (d1_consumeOAuthState s t) db)
| step_createSession h a x db : auth_step db (exec (d1_createSession h a x) db)
| step_revokeSession h t db : auth_step db (exec (d1_revokeSession h t) db)
| step_aup dt a v h ip ua db : auth_step db (exec (d1_recordAupAcceptance dt a v h ip ua) db)
| step_mint dt i n h s c x db : auth_step db (exec (d1_createOperatorCredential dt i n h s c x) db)
| step_revoke i b t db : Str.truthy t = true → auth_step db (exec (d1_revokeOperatorCredential i b t) db)
| step_touch i t db : auth_step db (exec (d1_touchOperatorCredential i t) db)
| step_account_flags i su de db : auth_step db (with_accounts (update_where (λ a, ac_id a =s? i)
    (λ a, mkAccount (ac_id a) (ac_email a) (ac_created_at a) su (ac_suspended_reason a) de)) db).

(** ** What never changes in a row

    A table evolves: its rows are mapped in place, keeping their key and standing in [R], and new rows
    are appended under keys not yet taken. *)
Section evolves.
Context {A K : Type} (key : A → K) (R : A → A → Prop).
Context `{!PreOrder R}.
Implicit Types (g : A → A) (l : list A).

Definition evolves (l l' : list A) : Prop :=
  ∃ g new, l' = (g <$> l) ++ new ∧ (∀ r, key (g r) = key r ∧ R r (g r)) ∧
           (NoDup (key <$> l) → NoDup (key <$> l')).

Lemma evolves_keys g l : (∀ r, key (g r) = key r) → key <$> (g <$> l) = key <$> l.
Proof. intros H. rewrite <- list_fmap_compose. apply list_fmap_ext. intros _ x _. apply H. Qed.

Lemma evolves_map g l : (∀ r, key (g r) = key r ∧ R r (g r)) → evolves l (g <$> l).
Proof.
intros H. exists g, []. rewrite app_nil_r. split_and!; [done|done|]. by rewrite evolves_keys by apply H.
Qed.
Lemma evolves_refl l : evolves l l.
Proof. exists id, []. rewrite list_fmap_id, app_nil_r. split_and!; [done| |done]. intros r. by split. Qed.
Lemma evolves_update p f l : (∀ r, p r = true → key (f r) = key r ∧ R r (f r)) → evolves l (update_where p f l).
Proof. intros H. apply evolves_map. intros r. destruct (p r) eqn:E; [by apply H|by split]. Qed.
Lemma evolves_snoc l x : (∀ y, y ∈ l → key y ≠ key x) → evolves l (l ++ [x]).
Proof.
intros H. exists id, [x]. rewrite list_fmap_id. split_and!; [done|by split|]. intros Hn. apply NoDup_fmap_snoc; [done|].
intros (y & Hk & Hy)%list_elem_of_fmap. by apply (H y).
Qed.
Lemma evolves_trans l1 l2 l3 : evolves l1 l2 → evolves l2 l3 → evolves l1 l3.
Proof.
intros (g1 & n1 & -> & H1 & K1) (g2 & n2 & -> & H2 & K2). exists (g2 ∘ g1), ((g2 <$> n1) ++ n2). split_and!.
- by rewrite fmap_app, <- app_assoc, list_fmap_compose.
- intros r. cbn. destruct (H1 r) as [E1 P1], (H2 (g1 r)) as [E2 P2]. split; [congruence|by etrans].
- intros H. apply K2, K1, H.
Qed.

(** A row persists, under its key. *)
Lemma evolves_row l l' r : evolves l l' → r ∈ l → ∃ r', r' ∈ l' ∧ key r' = key r ∧ R r r'.
Proof.
intros (g & new & -> & Hg & _) Hr. exists (g r). destruct (Hg r). split_and!; [|done..].
apply elem_of_app. left. by apply list_elem_of_fmap_2.
Qed.
(** With unique keys, what is under a taken key later is that row. *)
Lemma evolves_only l l' r x :
  NoDup (key <$> l) → evolves l l' → r ∈ l → x ∈ l' → key x = key r → R r x.
Proof.
intros Hn He Hr Hx Hk. assert (NoDup (key <$> l')) as Hn' by (destruct He as (g & new & -> & _ & Hl); by apply Hl).
destruct (evolves_row _ _ _ He Hr) as (r' & Hr' & Hk' & HR).
by rewrite (unique_eq key l' x r' Hn' Hx Hr') by congruence.
Qed.
End evolves.
#[global] Arguments evolves {A K} key R l l'.

(** ** The tables evolve under every statement *)
Definition stays {A} (o o' : option A) : Prop := ∀ x, o = Some x → o' = Some x.
#[export] Instance stays_preorder {A} : PreOrder (@stays A).
Proof. split; [by intros o x|intros o1 o2 o3 H1 H2 x H; apply H2, H1, H]. Qed.

Definition account_kept (a b : Account) : Prop := ac_id a = ac_id b ∧ ac_email a = ac_email b ∧ ac_created_at a = ac_created_at b.
Definition identity_kept (a b : Identity) : Prop := id_account_id a = id_account_id b.
Definition token_kept (a b : LoginToken) : Prop :=
  lt_email a = lt_email b ∧ lt_expires_at a = lt_expires_at b ∧ stays (lt_consumed_at a) (lt_consumed_at b).
Definition session_kept (a b : Session) : Prop :=
  se_account_id a = se_account_id b ∧ se_expires_at a = se_expires_at b ∧ stays (se_revoked_at a) (se_revoked_at b).
Definition state_kept (a b : OAuthState) : Prop :=
  oa_provider a = oa_provider b ∧ oa_verifier a = oa_verifier b ∧ oa_redirect_to a = oa_redirect_to b ∧
  oa_expires_at a = oa_expires_at b ∧ stays (oa_consumed_at a) (oa_consumed_at b).
Definition op_revocation (o : OperatorCredential) : option (string * option string) := t ← op_revoked_at o; Some (t, op_revoked_by o).
Definition operator_kept (a b : OperatorCredential) : Prop :=
  op_id a = op_id b ∧ op_name a = op_name b ∧ op_scopes a = op_scopes b ∧ op_created_by a = op_created_by b ∧
  op_expires_at a = op_expires_at b ∧ stays (op_revocation a) (op_revocation b).

#[export] Instance account_kept_pre : PreOrder account_kept.
Proof. split; [done|]. intros x y z (? & ? & ?) (? & ? & ?). split_and!; congruence. Qed.
#[export] Instance identity_kept_pre : PreOrder identity_kept.
Proof. split; [done|]. intros x y z ? ?. unfold identity_kept in *. congruence. Qed.
#[export] Instance token_kept_pre : PreOrder token_kept.
Proof. split; [done|]. intros x y z (? & ? & ?) (? & ? & ?). split_and!; [congruence..|by etrans]. Qed.
#[export] Instance session_kept_pre : PreOrder session_kept.
Proof. split; [done|]. intros x y z (? & ? & ?) (? & ? & ?). split_and!; [congruence..|by etrans]. Qed.
#[export] Instance state_kept_pre : PreOrder state_kept.
Proof. split; [done|]. intros x y z (? & ? & ? & ? & ?) (? & ? & ? & ? & ?). split_and!; [congruence..|by etrans]. Qed.
#[export] Instance operator_kept_pre : PreOrder operator_kept.
Proof. split; [done|]. intros x y z (? & ? & ? & ? & ? & ?) (? & ? & ? & ? & ? & ?). split_and!; congruence || by etrans. Qed.

Definition identity_key (i : Identity) : AuthProvider * string := (id_provider i, id_subject i).
Definition aup_key (r : AupRow) : string * string := (au_account_id r, au_version r).

(** What every run of the plane keeps of the sign-in tables. *)
Record auth_evolves (db db' : auth_db) : Prop := mkEvolves {
  ev_accounts : evolves ac_id account_kept (ad_accounts db) (ad_accounts db');
  ev_emails : evolves ac_email account_kept (ad_accounts db) (ad_accounts db');
  ev_identities : evolves identity_key identity_kept (ad_identities db) (ad_identities db');
  ev_tokens : evolves lt_hash token_kept (ad_tokens db) (ad_tokens db');
  ev_sessions : evolves se_hash session_kept (ad_sessions db) (ad_sessions db');
  ev_states : evolves oa_state state_kept (ad_states db) (ad_states db');
  ev_aup : evolves aup_key eq (ad_aup db) (ad_aup db');
  ev_hashes : evolves op_hash operator_kept (ad_operators db) (ad_operators db');
  ev_opids : evolves op_id operator_kept (ad_operators db) (ad_operators db');
}.

#[export] Instance auth_evolves_pre : PreOrder auth_evolves.
Proof.
  split.
  - intros db. split; apply evolves_refl; apply _.
  - intros d1 d2 d3 [] []. split; eapply evolves_trans; eauto; apply _.
Qed.

(** A key the statement's own test found free. *)
Lemma free_key {A K} (key : A → K) (p : A → bool) l x :
  existsb p l = false → (∀ y, key y = key x → p y = true) → ∀ y, y ∈ l → key y ≠ key x.
Proof. intros Hf Hp y Hy Hk%Hp. rewrite existsb_false_iff in Hf. by rewrite (Hf y Hy) in Hk. Qed.

Lemma stays_null {A} (o : option A) x : is_null o = true → stays o (Some x).
Proof. by destruct o. Qed.

Lemma revocation_null o x : is_null (op_revoked_at o) = true → stays (op_revocation o) x.
Proof. unfold op_revocation. by destruct (op_revoked_at o). Qed.

Ltac table_kept :=
  match goal with
  | |- evolves _ _ ?l ?l => apply evolves_refl; apply _
  | |- evolves _ _ ?l (update_where _ _ ?l) =>
      apply evolves_update; [apply _|]; intros r Hp; unfold token_open, state_open in Hp; bool_hyps;
      split; [done|]; repeat split; first [done | apply stays_null; done | by apply revocation_null]
  | Hf : existsb _ ?l = false |- evolves _ _ ?l (?l ++ [_]) =>
      apply evolves_snoc; [apply _|]; apply (free_key _ _ _ _ Hf); cbn; intros y Hk; simplify_eq/=;
      unfold identity_is, token_is, state_is, session_is, aup_is; try rewrite Hk; rewrite ?String.eqb_refl, ?bool_decide_eq_true_2 by done; done
  end.

(** Every statement keeps the rows already written: what identifies them, what they grant, and that
    they were consumed or revoked. *)
Lemma auth_step_evolves db db' : auth_step db db' → auth_evolves db db'.
Proof.
  intros Hs. destruct Hs; unfold exec, d1_createAccount, d1_linkIdentity, d1_createLoginToken, d1_createOAuthState,
    d1_createSession, d1_recordAupAcceptance, d1_createOperatorCredential; repeat case_match; cbn; try reflexivity.
  all: split; cbn; table_kept.
Qed.
Lemma auth_steps_evolve db db' : steps auth_step db db' → auth_evolves db db'.
Proof. apply steps_invariant; [|reflexivity]. intros x y Hx Hy. etrans; [exact Hx|]. by apply auth_step_evolves. Qed.

(** ** The interface of the handlers *)
Class AuthStore (W : Type) := {
  auth_tables : W → auth_db;
  getAccountById : string → M W string (option Account);
  getAccountByEmail : string → M W string (option Account);
  createAccount : string → string → M W string Account;
  getAccountIdByIdentity : AuthProvider → string → M W string (option string);
  linkIdentity : AuthProvider → string → string → M W string unit;
  touchIdentityLogin : AuthProvider → string → M W string unit;
  createLoginToken : string → string → string → M W string unit;
  consumeLoginToken : string → string → M W string (option LoginToken);
  createSession : string → string → string → M W string unit;
  getSession : string → string → M W string (option Session);
  revokeSession : string → string → M W string unit;
  createOAuthState : OAuthState → M W string unit;
  consumeOAuthState : string → string → M W string (option OAuthState);
  hasAcceptedAup : string → string → M W string bool;
  getLastAupAcceptance : string → M W string (option (string * string));
  recordAupAcceptance : string → string → string → option string → option string → M W string unit;
  createOperatorCredential : string → string → string → string → string → option string → M W string unit;
  getOperatorCredentialByHash : string → M W string (option OperatorCredential);
  revokeOperatorCredential : string → string → string → M W string bool;
}.

(** [others] is [steps auth_step] for the live plane and equality for a quiet one. *)
Class AuthStoreOk (W : Type) `{AuthStore W} (others : auth_db → auth_db → Prop) : Prop := {
  account_by_id_runs i : runs_as others auth_tables (getAccountById i) (λ _, d1_getAccountById i);
  account_by_email_runs e : runs_as others auth_tables (getAccountByEmail e) (λ _, d1_getAccountByEmail e);
  create_account_runs i e : runs_as others auth_tables (createAccount i e) (λ dt, d1_createAccount dt i e);
  by_identity_runs p s : runs_as others auth_tables (getAccountIdByIdentity p s) (λ _, d1_getAccountIdByIdentity p s);
  link_runs p s a : runs_as others auth_tables (linkIdentity p s a) (λ _, d1_linkIdentity p s a);
  touch_runs p s : runs_as others auth_tables (touchIdentityLogin p s) (λ dt, d1_touchIdentityLogin dt p s);
  create_token_runs h e x : runs_as others auth_tables (createLoginToken h e x) (λ _, d1_createLoginToken h e x);
  consume_token_runs h t : runs_as others auth_tables (consumeLoginToken h t) (λ _, d1_consumeLoginToken h t);
  create_session_runs h a x : runs_as others auth_tables (createSession h a x) (λ _, d1_createSession h a x);
  get_session_runs h t : runs_as others auth_tables (getSession h t) (λ _, d1_getSession h t);
  revoke_session_runs h t : runs_as others auth_tables (revokeSession h t) (λ _, d1_revokeSession h t);
  create_state_runs r : runs_as others auth_tables (createOAuthState r) (λ _, d1_createOAuthState r);
  consume_state_runs s t : runs_as others auth_tables (consumeOAuthState s t) (λ _, d1_consumeOAuthState s t);
  accepted_runs a v : runs_as others auth_tables (hasAcceptedAup a v) (λ _, d1_hasAcceptedAup a v);
  last_aup_runs a : runs_as others auth_tables (getLastAupAcceptance a) (λ _, d1_getLastAupAcceptance a);
  record_aup_runs a v h ip ua : runs_as others auth_tables (recordAupAcceptance a v h ip ua) (λ dt, d1_recordAupAcceptance dt a v h ip ua);
  mint_runs i n h s c x : runs_as others auth_tables (createOperatorCredential i n h s c x) (λ dt, d1_createOperatorCredential dt i n h s c x);
  operator_runs h : runs_as others auth_tables (getOperatorCredentialByHash h) (λ _, d1_getOperatorCredentialByHash h);
  revoke_operator_runs i b t : runs_as others auth_tables (revokeOperatorCredential i b t) (λ _, d1_revokeOperatorCredential i b t);
}.

(** The D1 tables themselves, quiet, with a clock for [datetime('now')]. *)
#[export] Instance d1_auth : AuthStore auth_db := {
  auth_tables := id;
  getAccountById := d1_getAccountById;
  getAccountByEmail := d1_getAccountByEmail;
  createAccount := d1_createAccount "now";
  getAccountIdByIdentity := d1_getAccountIdByIdentity;
  linkIdentity := d1_linkIdentity;
  touchIdentityLogin := d1_touchIdentityLogin "now";
  createLoginToken := d1_createLoginToken;
  consumeLoginToken := d1_consumeLoginToken;
  createSession := d1_createSession;
  getSession := d1_getSession;
  revokeSession := d1_revokeSession;
  createOAuthState := d1_createOAuthState;
  consumeOAuthState := d1_consumeOAuthState;
  hasAcceptedAup := d1_hasAcceptedAup;
  getLastAupAcceptance := d1_getLastAupAcceptance;
  recordAupAcceptance := d1_recordAupAcceptance "now";
  createOperatorCredential := d1_createOperatorCredential "now";
  getOperatorCredentialByHash := d1_getOperatorCredentialByHash;
  revokeOperatorCredential := d1_revokeOperatorCredential;
}.
#[export] Instance d1_auth_ok others : Reflexive others → AuthStoreOk auth_db others.
Proof.
  intros Hr. split; intros; match goal with |- runs_as _ _ _ ?d => exact (runs_as_quiet others d Hr) end.
Qed.
#[export] Instance auth_steps_preorder : PreOrder (steps auth_step).
Proof. split; [intros s; constructor|intros s t u; apply steps_trans]. Qed.

(** Whatever a store operation does, the tables get there by statements. *)
Section reached.
Context {W : Type} `{AuthStoreOk W (steps auth_step)}.
Definition reached (d0 : auth_db) (s : W) : Prop := steps auth_step d0 (auth_tables s).

Lemma runs_reached {A} (op : M W string A) (d1 : string → M auth_db string A) d0 :
  runs_as (steps auth_step) auth_tables op d1 → (∀ dt d, steps auth_step d (exec (d1 dt) d)) → preserves (reached d0) op.
Proof.
intros Hop Hd s Hs. destruct (Hop s) as (mid & dt & Hm & Hr). specialize (Hd dt mid). unfold reached, exec in *.
eapply steps_trans; [exact Hs|]. destruct (op s) as [[a|e] s']; cbn in *.
- rewrite Hr in Hd. by eapply steps_trans.
- destruct Hr as [->| ->]; [done|by eapply steps_trans].
Qed.
End reached.

Ltac auth_op :=
  first
  [ eapply runs_reached; [apply account_by_id_runs|] | eapply runs_reached; [apply account_by_email_runs|]
  | eapply runs_reached; [apply create_account_runs|] | eapply runs_reached; [apply by_identity_runs|]
  | eapply runs_reached; [apply link_runs|] | eapply runs_reached; [apply touch_runs|]
  | eapply runs_reached; [apply create_token_runs|] | eapply runs_reached; [apply consume_token_runs|]
  | eapply runs_reached; [apply create_session_runs|] | eapply runs_reached; [apply get_session_runs|]
  | eapply runs_reached; [apply revoke_session_runs|] | eapply runs_reached; [apply create_state_runs|]
  | eapply runs_reached; [apply consume_state_runs|] | eapply runs_reached; [apply accepted_runs|]
  | eapply runs_reached; [apply record_aup_runs|] | eapply runs_reached; [apply last_aup_runs|] | eapply runs_reached; [apply mint_runs|]
  | eapply runs_reached; [apply operator_runs|] ];
  intros; first [apply steps_refl | apply steps_one; constructor].

(** ** Rows followed through time

    The row under a key, as it was when [row] was read: its promises are fixed for ever. *)
Section kept_row.
Context {A K : Type} (key : A → K) (R : A → A → Prop) `{!PreOrder R}.
Implicit Types (l : list A) (row x : A).

Definition kept_row (k : K) l row : Prop :=
  NoDup (key <$> l) ∧ ∃ row', row' ∈ l ∧ key row' = k ∧ R row row'.

Lemma evolves_NoDup l l' : evolves key R l l' → NoDup (key <$> l) → NoDup (key <$> l').
Proof. by intros (g & new & -> & _ & H). Qed.

Lemma kept_row_evolves k l l' row : evolves key R l l' → kept_row k l row → kept_row k l' row.
Proof.
intros Ht (Hn & row' & Hr & Hk & HR). destruct (evolves_row _ _ _ _ row' Ht Hr) as (row2 & Hr2 & Hk2 & HR2).
split; [by eapply evolves_NoDup|]. exists row2. split_and!; [done|congruence|by etrans].
Qed.
Lemma kept_row_found k l row x : kept_row k l row → x ∈ l → key x = k → R row x.
Proof.
intros (Hn & row' & Hr & Hk & HR) Hx Hxk. by rewrite (unique_eq key l x row') by (done || congruence).
Qed.
Lemma kept_row_here l row : NoDup (key <$> l) → row ∈ l → kept_row (key row) l row.
Proof. intros Hn Hr. split; [done|]. by exists row. Qed.
Lemma kept_row_snoc l row : NoDup (key <$> l) → (∀ y, y ∈ l → key y ≠ key row) → kept_row (key row) (l ++ [row]) row.
Proof.
intros Hn Hf. apply kept_row_here; [|apply elem_of_app; right; by left]. apply NoDup_fmap_snoc; [done|].
intros (y & Hy & Hin)%list_elem_of_fmap. by apply (Hf y).
Qed.
Lemma kept_row_update l p f row :
  NoDup (key <$> l) → row ∈ l → p row = true → evolves key R l (update_where p f l) → key (f row) = key row →
  kept_row (key row) (update_where p f l) (f row).
Proof.
intros Hn Hr Hp He Hk. rewrite <- Hk. apply kept_row_here; [by eapply evolves_NoDup|].
apply elem_of_update_where. exists row. by rewrite Hp.
Qed.
End kept_row.

Section rows.
Implicit Types (d : auth_db) (h : string).
Definition token_row h d := kept_row lt_hash token_kept h (ad_tokens d).
Definition session_row h d := kept_row se_hash session_kept h (ad_sessions d).
Definition identity_row p s d := kept_row identity_key identity_kept (p, s) (ad_identities d).
Definition state_row h d := kept_row oa_state state_kept h (ad_states d).
Definition operator_row h d := kept_row op_hash operator_kept h (ad_operators d).

Lemma token_row_steps h d d' row : steps auth_step d d' → token_row h d row → token_row h d' row.
Proof. intros Hs%auth_steps_evolve. apply kept_row_evolves; [apply _|apply (ev_tokens _ _ Hs)]. Qed.
Lemma session_row_steps h d d' row : steps auth_step d d' → session_row h d row → session_row h d' row.
Proof. intros Hs%auth_steps_evolve. apply kept_row_evolves; [apply _|apply (ev_sessions _ _ Hs)]. Qed.
Lemma state_row_steps h d d' row : steps auth_step d d' → state_row h d row → state_row h d' row.
Proof. intros Hs%auth_steps_evolve. apply kept_row_evolves; [apply _|apply (ev_states _ _ Hs)]. Qed.
Lemma identity_row_steps p s d d' row : steps auth_step d d' → identity_row p s d row → identity_row p s d' row.
Proof. intros Hs%auth_steps_evolve. apply kept_row_evolves; [apply _|apply (ev_identities _ _ Hs)]. Qed.
Lemma operator_row_steps h d d' row : steps auth_step d d' → operator_row h d row → operator_row h d' row.
Proof. intros Hs%auth_steps_evolve. apply kept_row_evolves; [apply _|apply (ev_hashes _ _ Hs)]. Qed.

(** A row found open was never consumed, and the instant is before its expiry. *)
Lemma find_token_row h d row found now :
  token_row h d row → List.find (token_open h now) (ad_tokens d) = Some found →
  token_kept row found ∧ lt_consumed_at row = None ∧ (now <s? lt_expires_at row) = true.
Proof.
intros Hrow [Hf Ho]%find_Some_elem. unfold token_open, token_is in Ho. bool_hyps.
pose proof (kept_row_found _ _ _ _ _ _ Hrow Hf ltac:(done)) as Hk. split; [done|]. destruct Hk as (He & Hx & Hc).
split; [|congruence]. destruct (lt_consumed_at row) as [x|] eqn:E; [|done]. by rewrite (Hc x eq_refl) in *.
Qed.
Lemma consumed_row h d found now :
  NoDup (lt_hash <$> ad_tokens d) → List.find (token_open h now) (ad_tokens d) = Some found →
  token_row h (exec (d1_consumeLoginToken h now) d) (token_spent now found).
Proof.
intros Hn [Hin Ho]%find_Some_elem. pose proof Ho as Hh. unfold token_open, token_is in Hh. bool_hyps.
assert (lt_hash found = h) as <- by done. apply kept_row_update; try done; try apply _.
apply (ev_tokens d (exec (d1_consumeLoginToken (lt_hash found) now) d)), auth_step_evolves. constructor.
Qed.

Lemma find_state_row h d row found now :
  state_row h d row → List.find (state_open h now) (ad_states d) = Some found →
  state_kept row found ∧ oa_consumed_at row = None ∧ (now <s? oa_expires_at row) = true.
Proof.
intros Hrow [Hf Ho]%find_Some_elem. unfold state_open, state_is in Ho. bool_hyps.
pose proof (kept_row_found _ _ _ _ _ _ Hrow Hf ltac:(done)) as Hk. split; [done|]. destruct Hk as (_ & _ & _ & Hx & Hc).
split; [|congruence]. destruct (oa_consumed_at row) as [x|] eqn:E; [|done]. by rewrite (Hc x eq_refl) in *.
Qed.
Lemma consumed_state h d found now :
  NoDup (oa_state <$> ad_states d) → List.find (state_open h now) (ad_states d) = Some found →
  state_row h (exec (d1_consumeOAuthState h now) d) (state_spent now found).
Proof.
intros Hn [Hin Ho]%find_Some_elem. pose proof Ho as Hh. unfold state_open, state_is in Hh. bool_hyps.
assert (oa_state found = h) as <- by done. apply kept_row_update; try done; try apply _.
apply (ev_states d (exec (d1_consumeOAuthState (oa_state found) now) d)), auth_step_evolves. constructor.
Qed.

Lemma find_session_row h d row found now :
  session_row h d row → List.find (session_live h now) (ad_sessions d) = Some found →
  session_kept row found ∧ se_revoked_at row = None ∧ (now <s? se_expires_at row) = true.
Proof.
intros Hrow [Hf Ho]%find_Some_elem. unfold session_live, session_is in Ho. bool_hyps.
pose proof (kept_row_found _ _ _ _ _ _ Hrow Hf ltac:(done)) as Hk. split; [done|]. destruct Hk as (He & Hx & Hc).
split; [|congruence]. destruct (se_revoked_at row) as [x|] eqn:E; [|done]. by rewrite (Hc x eq_refl) in *.
Qed.

(** Once a session is revoked, or was never there, its digest finds nothing. *)
Lemma revoked_session h d now row :
  session_row h d row → ∃ row' x, session_row h (exec (d1_revokeSession h now) d) row' ∧ se_revoked_at row' = Some x.
Proof.
intros (Hn & row' & Hin & <- & _).
assert (evolves se_hash session_kept (ad_sessions d) (ad_sessions (exec (d1_revokeSession (se_hash row') now) d))) as He
  by (apply ev_sessions, auth_step_evolves; constructor).
destruct (se_revoked_at row') as [x|] eqn:E.
- exists row', x. split; [|done]. eapply kept_row_evolves; [apply _|exact He|by apply kept_row_here; [apply _|..]].
- exists (mkSession (se_hash row') (se_account_id row') (se_expires_at row') (Some now)), now. split; [|done].
  apply (kept_row_update _ _ _ _ (λ s, mkSession (se_hash s) (se_account_id s) (se_expires_at s) (Some now)) row'); try done; try apply _.
  unfold session_is. by rewrite String.eqb_refl, E.
Qed.
End rows.

(** A revocation recorded is a date, never the empty text. *)
Definition revocations_dated (d : auth_db) : Prop := ∀ o x, o ∈ ad_operators d → op_revoked_at o = Some x → Str.truthy x = true.
Lemma dated_steps d d' : steps auth_step d d' → revocations_dated d → revocations_dated d'.
Proof.
intros Hs Hd. revert Hs. apply steps_invariant; [|done]. clear. intros d d' Hd Hs.
destruct Hs; unfold exec, d1_createAccount, d1_linkIdentity, d1_createLoginToken, d1_createOAuthState, d1_createSession,
  d1_recordAupAcceptance, d1_createOperatorCredential; repeat case_match; try exact Hd; intros o y; cbn.
- intros [Ho| ->%list_elem_of_singleton]%elem_of_app; [by apply Hd|done].
- intros (o' & Ho & ->)%elem_of_update_where. case_match; [by intros [= <-]|by apply Hd].
- intros (o' & Ho & ->)%elem_of_update_where. case_match; exact (Hd o' y Ho).
Qed.
