(* ===== verification/Auth.v ===== *)
(** * Sign-in: links, sessions, accounts and the policy gate

    src/auth.ts, src/aup.ts, src/settings.ts and the mail of src/email.ts, over the interface of
    AuthStore.v: the store of the live plane runs anybody's statements between two of a handler's.
    The digest, the random bytes and the send door are parameters. *)

From S2P Require Export AuthStore Regex.
From Stdlib Require Import Ascii.
Open Scope string_scope.
Open Scope list_scope.
Open Scope Z_scope.
Open Scope plane_scope.

(** ** Addresses *)
Definition normalizeEmail (email : string) : string := Str.to_lower (Str.trim email).

(** [[^\s@.]] *)
Definition email_char (c : ascii) : bool := negb (Str.is_space c) && negb (Ascii.eqb c "@") && negb (Ascii.eqb c ".").
Definition email_segment : regex := RPlus (RSet email_char).
Definition dot_segment : regex := RCat (RChar ".") email_segment.
Definition EMAIL_RE : regex :=
  RCat email_segment (RCat (RStar dot_segment) (RCat (RChar "@") (RCat email_segment (RPlus dot_segment)))).
Definition EMAIL_MAX_LENGTH : nat := 254.
Definition looksLikeEmail (email : string) : bool :=
  (length (Str.chars email) <=? EMAIL_MAX_LENGTH)%nat && test EMAIL_RE email.

(** ** Settings: a switch is on only when its value says so *)
Definition settingEnabled (raw : option string) : bool :=
  match raw with
  | None => false
  | Some raw => let v := Str.to_lower (Str.trim raw) in (v =s? "true") || (v =s? "1")
  end.

(** ** The cookie *)
Definition SESSION_COOKIE : string := "__Secure-vp_session".
Definition LOGIN_TTL_MINUTES : Z := 15.
Definition SESSION_TTL_DAYS : Z := 30.

Definition sessionCookie (token : string) (maxAgeSeconds : Z) (domain : option string) : string :=
  Str.join "; " (
    [SESSION_COOKIE +:+ "=" +:+ token; "HttpOnly"; "Secure"; "SameSite=Lax"; "Path=/"] ++
    match domain with Some d => if Str.truthy d then ["Domain=" +:+ d] else [] | None => [] end ++
    ["Max-Age=" +:+ Str.of_int maxAgeSeconds]).
Definition clearedSessionCookie (domain : option string) : string := sessionCookie "" 0 domain.

(** [/^\d{1,3}(\.\d{1,3}){3}$/] *)
Definition octet : regex := RCat (RSet Str.is_digit) (RUpTo 2 (RSet Str.is_digit)).
Definition IPV4_RE : regex := RCat octet (RTimes 3 (RCat (RChar ".") octet)).
Definition sessionCookieDomain (host : string) : option string :=
  let h := Str.to_lower (Str.trim (default "" (head (Text.split ":" host)))) in
  if negb (Str.truthy h) || (h =s? "localhost") || test IPV4_RE h || negb (has_dot h) then None else Some h.

(** [None] is an absent header; an empty one reads the same. *)
Fixpoint find_cookie (parts : list string) : option string :=
  match parts with
  | [] => None
  | part :: parts =>
      match Text.split "=" (Str.trim part) with
      | k :: v => if k =s? SESSION_COOKIE
                  then let value := Str.join "=" v in if Str.truthy value then Some value else None
                  else find_cookie parts
      | [] => find_cookie parts
      end
  end.
Definition readSessionCookie (cookie : option string) : option string :=
  match cookie with
  | Some raw => if Str.truthy raw then find_cookie (Text.split ";" raw) else None
  | None => None
  end.

(** ** The confirm form *)
Fixpoint replace_char (c : ascii) (by_ : list ascii) (l : list ascii) : list ascii :=
  match l with [] => [] | x :: l => (if Ascii.eqb x c then by_ else [x]) ++ replace_char c by_ l end.
Definition replace_all (c : ascii) (by_ s : string) : string := Str.of_chars (replace_char c (Str.chars by_) (Str.chars s)).
Definition quote_char : ascii := ascii_of_N 34.
Definition escapeHtml (value : string) : string :=
  replace_all "'" "&#39;" (replace_all quote_char "&quot;" (replace_all ">" "&gt;" (replace_all "<" "&lt;" (replace_all "&" "&amp;" value)))).

(** [ct.includes(needle)] *)
Fixpoint includes_text (needle s : string) : bool :=
  starts_with needle s || match s with EmptyString => false | String _ s => includes_text needle s end.

(** [form.get("token")] of a parsed form; parsing may throw. *)
Inductive form_value := FormText (s : string) | FormFile.
Definition magicLinkTokenFromPost (contentType : option string) (form : result string (option form_value)) : string :=
  let ct := default "" contentType in
  if negb (includes_text "application/x-www-form-urlencoded" ct) && negb (includes_text "multipart/form-data" ct) then ""
  else match form with Ok (Some (FormText token)) => token | _ => "" end.

(** ** The mail *)
Definition newline : string := String (ascii_of_N 10) EmptyString.
Definition magicLinkMail (link : string) (ttlMinutes : Z) : string * string :=
  ("Your vivijure sign-in link",
   Str.join newline
     ["Here is your sign-in link for vivijure studio:"; ""; link; "";
      "It works once and expires in " +:+ Str.of_int ttlMinutes +:+ " minutes.";
      "If you did not ask for this link, you can ignore this mail; nothing was created."]).

(** [new Date(ms).toISOString()] *)
Definition iso (ms : Z) : result string string :=
  if Date.valid ms then Ok (Date.to_iso ms) else Err "RangeError: Invalid time value".

(** A column that is set: the tests [account.suspended_at || account.deleted_at]. *)
Definition is_set (o : option string) : bool := match o with Some s => Str.truthy s | None => false end.

Inductive UpsertResult :=
| UpOk (account : Account) (created : bool)
| UpUnavailable
| UpSignupsClosed.

Inductive AcceptResult := AupOk | AupStale (current : string) | AupUnverifiable.

Section handlers.
Context {W : Type} `{AuthStore W}.
Variable digest : string → list ascii.
(** The bytes [crypto.getRandomValues] fills in. *)
Variable random : nat → M W string (list ascii).

Definition startSession (accountId : string) (now : Z) : M W string (string * Z) :=
  bytes ← random 32;
  let token := randomToken bytes in
  let maxAge := SESSION_TTL_DAYS * 24 * 60 * 60 in
  expires ← lift (iso (now + maxAge * 1000));
  _ ← createSession (sha256Hex digest token) accountId expires;
  mret (token, maxAge).

Definition resolveSession (cookie : option string) (now : Z) : M W string (option Account) :=
  match readSessionCookie cookie with
  | None => mret None
  | Some token =>
      at_ ← lift (iso now);
      session ← getSession (sha256Hex digest token) at_;
      match session with
      | None => mret None
      | Some session =>
          account ← getAccountById (se_account_id session);
          match account with
          | Some a => if is_set (ac_suspended_at a) || is_set (ac_deleted_at a) then mret None else mret (Some a)
          | None => mret None
          end
      end
  end.

Definition endSession (cookie : option string) (now : Z) : M W string unit :=
  match readSessionCookie cookie with
  | Some token => at_ ← lift (iso now); revokeSession (sha256Hex digest token) at_
  | None => mret tt
  end.

(** [send to subject text] *)
Variable send : string → string → string → M W string unit.

Definition magic_link (origin token : string) : string := origin +:+ "/auth/email/callback?token=" +:+ token.
Definition sendMagicLink (publicOrigin email : string) (now : Z) : M W string unit :=
  bytes ← random 32;
  let token := randomToken bytes in
  expires ← lift (iso (now + LOGIN_TTL_MINUTES * 60 * 1000));
  _ ← createLoginToken (sha256Hex digest token) email expires;
  let mail := magicLinkMail (magic_link publicOrigin token) LOGIN_TTL_MINUTES in
  send email mail.1 mail.2.

Definition link_account (provider : AuthProvider) (subject : string) (account : Account) (created : bool) : M W string UpsertResult :=
  _ ← linkIdentity provider subject (ac_id account);
  _ ← touchIdentityLogin provider subject;
  mret (UpOk account created).

Definition upsertAccountForVerifiedEmail (provider : AuthProvider) (subject verifiedEmail : string) (allowCreate : bool) :
    M W string UpsertResult :=
  let email := normalizeEmail verifiedEmail in
  linkedId ← getAccountIdByIdentity provider subject;
  if is_set linkedId then
    account ← getAccountById (default "" linkedId);
    match account with
    | Some a =>
        if is_set (ac_suspended_at a) || is_set (ac_deleted_at a) then mret UpUnavailable
        else _ ← touchIdentityLogin provider subject; mret (UpOk a false)
    | None => mret UpUnavailable
    end
  else
    existing ← getAccountByEmail email;
    match existing with
    | Some a =>
        if is_set (ac_suspended_at a) || is_set (ac_deleted_at a) then mret UpUnavailable
        else link_account provider subject a false
    | None =>
        if negb allowCreate then mret UpSignupsClosed
        else
          bytes ← random 12;
          a ← createAccount (newId "acct" bytes) email;
          link_account provider subject a true
    end.

Definition redeemMagicLink (token : string) (allowCreate : bool) (now : Z) : M W string UpsertResult :=
  at_ ← lift (iso now);
  row ← consumeLoginToken (sha256Hex digest token) at_;
  match row with
  | None => mret UpUnavailable
  | Some row => upsertAccountForVerifiedEmail AEmail (lt_email row) (lt_email row) allowCreate
  end.

(** ** The policy *)
Definition hasAcceptedCurrent (accountId version : string) : M W string bool := hasAcceptedAup accountId version.

Definition acceptAup (accountId submittedVersion currentVersion : string) (ip userAgent : option string) (aupSha256 : option string) :
    M W string AcceptResult :=
  if negb (submittedVersion =s? currentVersion) then mret (AupStale currentVersion)
  else if negb (is_set aupSha256) then mret AupUnverifiable
  else
    let ipHash := match ip with Some i => if Str.truthy i then Some (sha256Hex digest i) else None | None => None end in
    let ua := match userAgent with Some u => if Str.truthy u then Some (Str.take 256 u) else None | None => None end in
    _ ← recordAupAcceptance accountId currentVersion (default "" aupSha256) ipHash ua;
    mret AupOk.
End handlers.

Definition AUP_EXEMPT : list string := ["/api/me"; "/api/aup/current"; "/api/aup/accept"; "/api/auth/logout"].
Definition isAupExempt (path : string) : bool := existsb (String.eqb path) AUP_EXEMPT.

(** ** Lemmas *)
Section reaching.
Context {W : Type} `{AuthStoreOk W (steps auth_step)}.
Context (digest : string → list ascii) (random : nat → M W string (list ascii)) (send : string → string → string → M W string unit).
Hypothesis random_reached : ∀ n d0, preserves (reached d0) (random n).
Hypothesis send_reached : ∀ to subject text d0, preserves (reached d0) (send to subject text).

Ltac handler := repeat first [progress preserve | apply random_reached | apply send_reached | auth_op].

Lemma startSession_reached a t d0 : preserves (reached d0) (startSession digest random a t).
Proof. unfold startSession. handler. Qed.
Lemma resolveSession_reached c t d0 : preserves (reached d0) (resolveSession digest c t).
Proof. unfold resolveSession. handler. Qed.
Lemma endSession_reached c t d0 : preserves (reached d0) (endSession digest c t).
Proof. unfold endSession. handler. Qed.
Lemma sendMagicLink_reached o e t d0 : preserves (reached d0) (sendMagicLink digest random send o e t).
Proof. unfold sendMagicLink. handler. Qed.
Lemma upsert_reached p sub e allow d0 : preserves (reached d0) (upsertAccountForVerifiedEmail random p sub e allow).
Proof. unfold upsertAccountForVerifiedEmail, link_account. handler. Qed.
Lemma redeem_reached tok allow t d0 : preserves (reached d0) (redeemMagicLink digest random tok allow t).
Proof. unfold redeemMagicLink. handler. apply upsert_reached. Qed.
Lemma acceptAup_reached a v1 v2 ip ua sha d0 : preserves (reached d0) (acceptAup digest a v1 v2 ip ua sha).
Proof. unfold acceptAup. handler. Qed.

Lemma reached_by {A} (m : M W string A) s r s' :
  (∀ d0, preserves (reached d0) m) → m s = (r, s') → steps auth_step (auth_tables s) (auth_tables s').
Proof. intros Hm Hr. specialize (Hm (auth_tables s) s (steps_refl _ _)). unfold reached, exec in Hm. by rewrite Hr in Hm. Qed.

Lemma send_writes_token origin email t0 bytes s0 s0' s1 :
  random 32 s0 = (Ok bytes, s0') → NoDup (lt_hash <$> ad_tokens (auth_tables s0)) →
  sendMagicLink digest random send origin email t0 s0 = (Ok tt, s1) →
  token_row (sha256Hex digest (randomToken bytes)) (auth_tables s1)
    (mkLoginToken (sha256Hex digest (randomToken bytes)) email (Date.to_iso (t0 + LOGIN_TTL_MINUTES * 60 * 1000)) None).
Proof.
intros Hr Hn Hs. unfold sendMagicLink in Hs. rewrite (M_bind_ok _ _ _ _ _ Hr) in Hs.
unfold iso in Hs. destruct (Date.valid _); [|done]. apply M_bind_inv in Hs as (x & s2 & [= <- <-] & Hs).
apply M_bind_inv in Hs as ([] & s3 & Hc & Hs). eapply token_row_steps; [by eapply (reached_by (send _ _ _))|].
apply (runs_ok _ _ _ _ _ _ _ (create_token_runs _ _ _)) in Hc as (mid & dt & Hm & Hc).
unfold d1_createLoginToken in Hc. destruct (existsb _ _) eqn:He; [done|]. injection Hc as Hc. rewrite <- Hc. cbn.
assert (NoDup (lt_hash <$> ad_tokens mid)) as Hn'.
{ eapply evolves_NoDup; [|exact Hn]. apply ev_tokens, auth_steps_evolve. etrans; [|exact Hm]. by eapply (reached_by (random 32)). }
apply (kept_row_snoc lt_hash token_kept _ (mkLoginToken _ email _ None)); [exact Hn'|].
eapply (free_key lt_hash); [exact He|]. intros y Hy. unfold token_is. by rewrite Hy, String.eqb_refl.
Qed.

(** A redemption consumes the row it answers from, or finds none. *)
Lemma redeem_consumes token allow t s r s' :
  redeemMagicLink digest random token allow t s = (Ok r, s') →
  ∃ mid, steps auth_step (auth_tables s) mid ∧
    match List.find (token_open (sha256Hex digest token) (Date.to_iso t)) (ad_tokens mid) with
    | None => r = UpUnavailable
    | Some row =>
        steps auth_step (exec (d1_consumeLoginToken (sha256Hex digest token) (Date.to_iso t)) mid) (auth_tables s') ∧
        ∃ s2, upsertAccountForVerifiedEmail random AEmail (lt_email row) (lt_email row) allow s2 = (Ok r, s')
    end.
Proof.
unfold redeemMagicLink, iso. destruct (Date.valid t); [|done]. intros (x & s1 & [= <- <-] & Hs)%M_bind_inv.
apply M_bind_inv in Hs as (row & s2 & Hc & Hs).
apply (runs_ok _ _ _ _ _ _ _ (consume_token_runs _ _)) in Hc as (mid & dt & Hm & Hc). exists mid. split; [done|].
unfold d1_consumeLoginToken in Hc. injection Hc as Hf Hc. destruct (List.find _ _) as [row'|]; cbn in Hf; subst row.
- cbn [lt_email token_spent] in Hs. split; [|eauto]. unfold exec, d1_consumeLoginToken. cbn [snd]. rewrite Hc.
  eapply (reached_by (upsertAccountForVerifiedEmail _ _ _ _ _)); [|exact Hs]. intros. by apply upsert_reached.
- by injection Hs.
Qed.

(** C32. A mailed link signs in at most once and only within fifteen minutes.  Whatever else the plane
    does between the mail and the click, the first redemption that signs somebody in happens before
    the link's expiry, and afterwards no redemption of the same link ever signs anybody in again:
    the one statement that looks for the row also consumes it. *)
Theorem magic_link_works_once origin email t0 bytes s0 s0' s1 s2 allow t account created s3 :
  NoDup (lt_hash <$> ad_tokens (auth_tables s0)) →
  random 32 s0 = (Ok bytes, s0') →
  sendMagicLink digest random send origin email t0 s0 = (Ok tt, s1) →
  steps auth_step (auth_tables s1) (auth_tables s2) →
  redeemMagicLink digest random (randomToken bytes) allow t s2 = (Ok (UpOk account created), s3) →
  four_digit_year t → four_digit_year (t0 + 15 * 60 * 1000) →
  t < t0 + 15 * 60 * 1000 ∧
  ∀ s4 allow' t' r s5, steps auth_step (auth_tables s3) (auth_tables s4) →
    redeemMagicLink digest random (randomToken bytes) allow' t' s4 = (Ok r, s5) → r = UpUnavailable.
Proof.
intros Hn Hr Hs H12 Hred Hy1 Hy2. pose proof (send_writes_token _ _ _ _ _ _ _ Hr Hn Hs) as Hrow.
apply (token_row_steps _ _ _ _ H12) in Hrow. apply redeem_consumes in Hred as (mid & Hm & Hred).
apply (token_row_steps _ _ _ _ Hm) in Hrow. destruct (List.find _ _) as [row|] eqn:Hf; [|done]. destruct Hred as [Hs3 _].
destruct (find_token_row _ _ _ _ _ Hrow Hf) as (_ & _ & Ht). cbn [lt_expires_at] in Ht. rewrite iso_ltb in Ht by done.
bool_hyps. split; [done|]. intros s4 allow' t' r s5 H34 Hred.
apply (consumed_row _ _ _ _ (proj1 Hrow)), (token_row_steps _ _ _ _ Hs3), (token_row_steps _ _ _ _ H34) in Hf as Hspent.
apply redeem_consumes in Hred as (mid' & Hm' & Hred). apply (token_row_steps _ _ _ _ Hm') in Hspent.
destruct (List.find (token_open _ (Date.to_iso t')) _) as [row'|] eqn:Hf'; [|done].
by destruct (find_token_row _ _ _ _ _ Hspent Hf') as (_ & Hc & _).
Qed.
End reaching.

(** ** The cookie, sent back *)
Section cookies.
Implicit Types (p raw token : string) (l : list string).

Lemma read_any raw : readSessionCookie (Some raw) = find_cookie (Text.split ";" raw).
Proof. by destruct raw. Qed.
Lemma find_cookie_spaces l : find_cookie ((λ p, " " +:+ p) <$> l) = find_cookie l.
Proof. induction l as [|p l IH]; [done|]. rewrite fmap_cons. cbn [find_cookie]. by rewrite trim_space, IH. Qed.
Lemma read_join l : Forall (λ p, no_sep ";" (Str.chars p)) l → readSessionCookie (Some (Str.join "; " l)) = find_cookie l.
Proof.
intros Hl. rewrite read_any. destruct l as [|w l]; [done|]. rewrite split_join by done.
assert (∀ w l l', find_cookie l = find_cookie l' → find_cookie (w :: l) = find_cookie (w :: l')) as Hc.
{ intros w0 l0 l' E. cbn. by rewrite E. }
apply Hc, find_cookie_spaces.
Qed.

(** The name a part of the header carries. *)
Definition cookie_name p : option string := head (Text.split "=" (Str.trim p)).
Lemma find_cookie_skip l l' : Forall (λ p, cookie_name p ≠ Some SESSION_COOKIE) l → find_cookie (l ++ l') = find_cookie l'.
Proof.
induction 1 as [|p l Hp _ IH]; [done|]. cbn. unfold cookie_name in Hp. destruct (Text.split "=" (Str.trim p)) as [|k v]; [done|].
cbn in Hp. destruct (String.eqb_spec k SESSION_COOKIE); [by subst|done].
Qed.

Definition cookie_pair token : string := SESSION_COOKIE +:+ "=" +:+ token.
Lemma pair_token token : Str.truthy token = true → forallb token_char (Str.chars token) = true →
  no_sep ";" (Str.chars (cookie_pair token)) ∧ ∀ l, find_cookie (cookie_pair token :: l) = Some token.
Proof.
intros Ht Hc.
assert (∀ c, no_sep c (Str.chars SESSION_COOKIE) → Ascii.eqb "=" c = false → (∀ x, token_char x = true → Ascii.eqb x c = false) →
  no_sep c (Str.chars (cookie_pair token))) as Hno.
{ intros c H1 H2 H3. unfold cookie_pair, no_sep in *. rewrite !chars_append, !forallb_app, H1. change (Str.chars "=") with ["="%char]. cbn [forallb]. rewrite H2. cbn.
  apply forallb_forall. intros x Hx. rewrite forallb_forall in Hc. by rewrite (H3 x (Hc x Hx)). }
split.
{ apply Hno; [vm_compute; reflexivity|done|]. intros x Hx. destruct x as [[] [] [] [] [] [] [] []]; vm_compute in Hx |- *; done. }
intros l. cbn [find_cookie].
assert (Str.trim (cookie_pair token) = cookie_pair token) as ->.
{ apply trim_id; [done|]. unfold cookie_pair. rewrite !chars_append, !rev_app_distr.
  destruct (rev (Str.chars token)) as [|c r] eqn:E; [by destruct token as [|c r]; [|cbn in E; destruct (rev _)]|]. cbn.
  rewrite forallb_forall in Hc. specialize (Hc c). rewrite in_rev, E in Hc. specialize (Hc (or_introl eq_refl)).
  destruct c as [[] [] [] [] [] [] [] []]; vm_compute in Hc |- *; done. }
unfold cookie_pair. change (SESSION_COOKIE +:+ "=" +:+ token) with (SESSION_COOKIE +:+ String "=" token).
rewrite split_more by (vm_compute; reflexivity). rewrite split_one.
- cbn [Str.join]. by rewrite String.eqb_refl, Ht.
- eapply forallb_weaken; [|exact Hc]. intros x Hx. destruct x as [[] [] [] [] [] [] [] []]; vm_compute in Hx |- *; done.
Qed.

Lemma set_cookie_pair token n domain : no_sep ";" (Str.chars (cookie_pair token)) →
  head (Text.split ";" (sessionCookie token n domain)) = Some (cookie_pair token).
Proof.
intros Hp. unfold sessionCookie. cbn [app Str.join].
match goal with |- context [Text.split ";" (?a +:+ "; " +:+ ?r)] => change (a +:+ "; " +:+ r) with (cookie_pair token +:+ String ";" (" " +:+ r)) end.
by rewrite split_more.
Qed.

Lemma token_truthy bytes : length bytes = 32%nat → Str.truthy (randomToken bytes) = true.
Proof. intros Hl. pose proof (hex_bytes_length bytes) as H. unfold randomToken. rewrite Hl in H. by destruct (hex_bytes bytes). Qed.

(** What a browser sends back: its other cookies, in any order around ours. *)
Lemma read_sent_back before after token :
  Str.truthy token = true → forallb token_char (Str.chars token) = true →
  Forall (λ p, no_sep ";" (Str.chars p)) (before ++ after) → Forall (λ p, cookie_name p ≠ Some SESSION_COOKIE) before →
  readSessionCookie (Some (Str.join "; " (before ++ cookie_pair token :: after))) = Some token.
Proof.
intros Ht Hc [Hb Ha]%Forall_app Hn. destruct (pair_token token Ht Hc) as [Hp Hf].
rewrite read_join, find_cookie_skip by (done || (apply Forall_app; split; [done|by constructor])). apply Hf.
Qed.
End cookies.

(** ** Sessions *)
Section sessions.
Context {W : Type} `{AuthStoreOk W (steps auth_step)}.
Context (digest : string → list ascii) (random : nat → M W string (list ascii)).
Hypothesis random_reached : ∀ n d0, preserves (reached d0) (random n).

(** What a resolved cookie rests on. *)
Lemma resolve_inv cookie t s a s' :
  resolveSession digest cookie t s = (Ok (Some a), s') →
  ∃ token session mid1 mid2, readSessionCookie cookie = Some token ∧
    steps auth_step (auth_tables s) mid1 ∧ List.find (session_live (sha256Hex digest token) (Date.to_iso t)) (ad_sessions mid1) = Some session ∧
    steps auth_step mid1 mid2 ∧ List.find (account_is (se_account_id session)) (ad_accounts mid2) = Some a ∧
    is_set (ac_suspended_at a) = false ∧ is_set (ac_deleted_at a) = false.
Proof.
unfold resolveSession, iso. destruct (readSessionCookie cookie) as [token|] eqn:Ht; [|done]. destruct (Date.valid t); [|done].
intros (x & s1 & [= <- <-] & Hs)%M_bind_inv. apply M_bind_inv in Hs as (session & s2 & Hg & Hs).
apply (runs_ok _ _ _ _ _ _ _ (get_session_runs _ _)) in Hg as (mid1 & dt & Hm1 & Hg). injection Hg as Hf Hm.
destruct session as [session|]; [|done]. apply M_bind_inv in Hs as (account & s3 & Hg & Hs).
apply (runs_ok _ _ _ _ _ _ _ (account_by_id_runs _)) in Hg as (mid2 & dt2 & Hm2 & Hg). injection Hg as Hf2 Hm'.
destruct account as [a'|]; [|done]. destruct (is_set (ac_suspended_at a') || is_set (ac_deleted_at a')) eqn:E; [done|].
injection Hs as -> ->. bool_hyps. exists token, session, mid1, mid2. rewrite <- Hm in Hm2. done.
Qed.

Lemma start_writes_session account t0 bytes s0 s0' token maxAge s1 :
  random 32 s0 = (Ok bytes, s0') → NoDup (se_hash <$> ad_sessions (auth_tables s0)) →
  startSession digest random account t0 s0 = (Ok (token, maxAge), s1) →
  token = randomToken bytes ∧ maxAge = 2592000 ∧
  session_row (sha256Hex digest token) (auth_tables s1) (mkSession (sha256Hex digest token) account (Date.to_iso (t0 + 2592000000)) None).
Proof.
intros Hr Hn Hs. unfold startSession in Hs. rewrite (M_bind_ok _ _ _ _ _ Hr) in Hs. cbv zeta in Hs.
change (SESSION_TTL_DAYS * 24 * 60 * 60) with 2592000 in Hs. change (2592000 * 1000) with 2592000000 in Hs.
unfold iso in Hs. destruct (Date.valid _); [|done]. apply M_bind_inv in Hs as (x & s2 & [= <- <-] & Hs).
apply M_bind_inv in Hs as ([] & s3 & Hc & Hs). injection Hs as <- <- <-. split_and!; [done..|].
apply (runs_ok _ _ _ _ _ _ _ (create_session_runs _ _ _)) in Hc as (mid & dt & Hm & Hc).
unfold d1_createSession in Hc. destruct (existsb _ _) eqn:He; [done|]. destruct (negb _); [done|].
injection Hc as Hc. rewrite <- Hc. unfold session_row. cbn.
assert (NoDup (se_hash <$> ad_sessions mid)) as Hn'.
{ eapply evolves_NoDup; [|exact Hn]. apply ev_sessions, auth_steps_evolve. etrans; [|exact Hm].
  eapply reached_by; [|exact Hr]. intros; apply random_reached. }
apply (kept_row_snoc se_hash session_kept _ (mkSession _ account _ None)); [exact Hn'|].
eapply (free_key se_hash); [exact He|]. intros y Hy. unfold session_is. by rewrite Hy, String.eqb_refl.
Qed.

(** A session names one account, for thirty days, until it is ended.  Whatever else runs, the token
    a sign-in minted resolves only to the account it was minted for, only while that account is neither
    suspended nor deleted, and only before its thirty days are over; once its holder has signed out, no
    later request with that cookie resolves to anybody. *)
Theorem session_names_one_account account t0 bytes s0 s0' token maxAge s1 cookie :
  NoDup (se_hash <$> ad_sessions (auth_tables s0)) →
  random 32 s0 = (Ok bytes, s0') →
  startSession digest random account t0 s0 = (Ok (token, maxAge), s1) →
  readSessionCookie cookie = Some token →
  (∀ s2 t a s3, steps auth_step (auth_tables s1) (auth_tables s2) → resolveSession digest cookie t s2 = (Ok (Some a), s3) →
     ac_id a = account ∧ is_set (ac_suspended_at a) = false ∧ ac_deleted_at a = None ∧
     (four_digit_year t → four_digit_year (t0 + 2592000000) → t < t0 + 2592000000)) ∧
  (∀ s2 t s3 s4 t' r s5, steps auth_step (auth_tables s1) (auth_tables s2) → endSession digest cookie t s2 = (Ok tt, s3) →
     steps auth_step (auth_tables s3) (auth_tables s4) → resolveSession digest cookie t' s4 = (Ok r, s5) → r = None).
Proof.
intros Hn Hr Hs Hc. destruct (start_writes_session _ _ _ _ _ _ _ _ Hr Hn Hs) as (-> & _ & Hrow). split.
- intros s2 t a s3 H12 Hres. destruct (resolve_inv _ _ _ _ _ Hres) as (tok & se & mid1 & mid2 & Htok & Hm1 & Hf & Hm2 & Ha & Hsus & Hdel).
  rewrite Hc in Htok. injection Htok as <-. apply (session_row_steps _ _ _ _ H12), (session_row_steps _ _ _ _ Hm1) in Hrow.
  destruct (find_session_row _ _ _ _ _ Hrow Hf) as ((Hacc & _ & _) & _ & Ht). cbn in Hacc, Ht.
  apply find_Some_elem in Ha as [_ Ha]. unfold account_is in Ha. bool_hyps. split_and!; [congruence|done|by destruct (ac_deleted_at a)|].
  intros Hy1 Hy2. rewrite iso_ltb in Ht by done. by bool_hyps.
- intros s2 t s3 s4 t' r s5 H12 He H34 Hres. destruct r as [a|]; [exfalso|done].
  destruct (resolve_inv _ _ _ _ _ Hres) as (tok & se & mid1 & mid2 & Htok & Hm1 & Hf & _). rewrite Hc in Htok. injection Htok as <-.
  unfold endSession in He. rewrite Hc in He. unfold iso in He. destruct (Date.valid t); [|done].
  apply M_bind_inv in He as (x & s2' & [= <- <-] & He).
  apply (runs_ok _ _ _ _ _ _ _ (revoke_session_runs _ _)) in He as (mid & dt & Hm & He).
  apply (session_row_steps _ _ _ _ H12), (session_row_steps _ _ _ _ Hm) in Hrow.
  destruct (revoked_session _ _ (Date.to_iso t) _ Hrow) as (row & y & Hrow' & Hy). unfold exec in Hrow'. rewrite He in Hrow'. cbn in Hrow'.
  apply (session_row_steps _ _ _ _ H34), (session_row_steps _ _ _ _ Hm1) in Hrow'.
  destruct (find_session_row _ _ _ _ _ Hrow' Hf) as (_ & Hnone & _). congruence.
Qed.
End sessions.

(** ** The cookie of a sign-in, sent back (on a store nobody else writes) *)
Section roundtrip.
Context (digest : string → list ascii) (random : nat → M auth_db string (list ascii)).

Lemma find_snoc {A} (p : A → bool) l x : existsb p l = false → p x = true → List.find p (l ++ [x]) = Some x.
Proof.
intros Hl Hx. induction l as [|y l IH]; cbn in *; [by rewrite Hx|]. apply orb_false_iff in Hl as [-> Hl]. by apply IH.
Qed.
Lemma existsb_weaken {A} (p q : A → bool) l : (∀ x, q x = true → p x = true) → existsb p l = false → existsb q l = false.
Proof. intros Hpq H. rewrite existsb_false_iff in *. intros x Hx. specialize (H x Hx). destruct (q x) eqn:E; [|done]. by rewrite Hpq in H. Qed.

(** The cookie a sign-in sets is the credential the next requests are resolved by.  What a browser
    keeps of the Set-Cookie line, sent back among any other cookies of other names, resolves to the
    account of the sign-in for as long as the session lasts. *)
Theorem session_cookie_roundtrip account row t0 bytes domain before after t db token maxAge db1 :
  random 32 db = (Ok bytes, db) → length bytes = 32%nat →
  startSession digest random account t0 db = (Ok (token, maxAge), db1) →
  List.find (account_is account) (ad_accounts db) = Some row → is_set (ac_suspended_at row) = false →
  Forall (λ p, no_sep ";" (Str.chars p)) (before ++ after) → Forall (λ p, cookie_name p ≠ Some SESSION_COOKIE) before →
  Date.valid t = true → four_digit_year t → four_digit_year (t0 + 2592000000) → t < t0 + 2592000000 →
  resolveSession digest
    (Some (Str.join "; " (before ++ default "" (head (Text.split ";" (sessionCookie token maxAge domain))) :: after))) t db1 =
  (Ok (Some row), db1).
Proof.
intros Hr Hlen Hs Hacc Hsus Hparts Hnames Hv Hy1 Hy2 Ht. unfold startSession in Hs. rewrite (M_bind_ok _ _ _ _ _ Hr) in Hs. cbv zeta in Hs.
change (SESSION_TTL_DAYS * 24 * 60 * 60) with 2592000 in Hs. change (2592000 * 1000) with 2592000000 in Hs.
unfold iso in Hs. destruct (Date.valid (t0 + 2592000000)); [|done]. apply M_bind_inv in Hs as (x & d2 & [= <- <-] & Hs).
apply M_bind_inv in Hs as ([] & d3 & Hc & Hs). injection Hs as <- <- <-. cbn [createSession d1_auth] in Hc.
unfold d1_createSession in Hc. destruct (existsb (session_is _) _) eqn:He; [done|]. destruct (negb _); [done|]. injection Hc as <-.
assert (forallb token_char (Str.chars (randomToken bytes)) = true) as Htok by apply hex_bytes_token.
rewrite set_cookie_pair by (apply pair_token; [by apply token_truthy|done]).
change (default "" (Some (cookie_pair (randomToken bytes)))) with (cookie_pair (randomToken bytes)).
unfold resolveSession. rewrite read_sent_back by (done || by apply token_truthy). unfold iso. rewrite Hv.
unfold lift. rewrite bind_run, bind_run. cbn [getSession d1_auth d1_getSession gets ad_sessions with_sessions].
rewrite (find_snoc _ _ (mkSession _ account _ None)).
- rewrite bind_run. cbn [getAccountById d1_auth d1_getAccountById gets ad_accounts with_sessions se_account_id]. rewrite Hacc.
  apply find_Some_elem in Hacc as [_ Ha]. unfold account_is in Ha. bool_hyps. rewrite Hsus. by destruct (ac_deleted_at row).
- eapply existsb_weaken; [|exact He]. intros s Hl. unfold session_live in Hl. by bool_hyps.
- unfold session_live, session_is. rewrite String.eqb_refl. cbn. rewrite iso_ltb by done. by apply Z.ltb_lt.
Qed.
End roundtrip.

(** ** Accounts *)
Definition linked_to (p : AuthProvider) (sub : string) (db : auth_db) : option string :=
  id_account_id <$> List.find (identity_is p sub) (ad_identities db).
Section linking.
Context {W : Type} `{AuthStoreOk W (steps auth_step)}.
Context (random : nat → M W string (list ascii)).
Hypothesis random_reached : ∀ n d0, preserves (reached d0) (random n).

Definition usable (a : Account) : Prop := is_set (ac_suspended_at a) = false ∧ ac_deleted_at a = None.
Lemma usable_found i a l : List.find (account_is i) l = Some a →
  is_set (ac_suspended_at a) || is_set (ac_deleted_at a) = false → ac_id a = i ∧ usable a.
Proof.
intros [_ Ha]%find_Some_elem Hs. unfold account_is in Ha. bool_hyps. split_and!; [done|split; [done|by destruct (ac_deleted_at a)]].
Qed.

Lemma link_account_inv p sub a c s r s' : link_account p sub a c s = (Ok r, s') → r = UpOk a c.
Proof. unfold link_account. intros ([] & s1 & _ & Hs)%M_bind_inv. apply M_bind_inv in Hs as ([] & s2 & _ & Hs). by injection Hs. Qed.

(** A sign-in reaches only the account its proof names.  Whatever else runs meanwhile, the account a
    verified identity ends in is neither suspended nor deleted, and it is the one this provider's
    subject was already linked to, or the one whose address is the verified address; a new account is
    made only while creation is allowed, at the verified address, when no account has it. *)
Theorem sign_in_reaches_its_own_account p sub email allow s a created s' :
  upsertAccountForVerifiedEmail random p sub email allow s = (Ok (UpOk a created), s') →
  usable a ∧ ∃ mid, steps auth_step (auth_tables s) mid ∧
    if created then
      allow = true ∧ ac_email a = normalizeEmail email ∧ (∀ b, b ∈ ad_accounts mid → ac_email b ≠ normalizeEmail email) ∧
      steps auth_step (with_accounts (λ l, l ++ [a]) mid) (auth_tables s')
    else
      (∃ i, i ∈ ad_identities mid ∧ identity_key i = (p, sub) ∧ id_account_id i = ac_id a) ∨
      (a ∈ ad_accounts mid ∧ ac_email a = normalizeEmail email).
Proof.
unfold upsertAccountForVerifiedEmail. cbv zeta. intros (linked & s1 & Hl & Hs)%M_bind_inv.
apply (runs_ok _ _ _ _ _ _ _ (by_identity_runs _ _)) in Hl as (mid & dt & Hm & Hl). injection Hl as Hl Hm1.
destruct (is_set linked) eqn:Eset.
- apply M_bind_inv in Hs as (acc & s2 & Ha & Hs). apply (runs_ok _ _ _ _ _ _ _ (account_by_id_runs _)) in Ha as (mid2 & dt2 & Hm2 & Ha).
  injection Ha as Ha Hm2'. destruct acc as [b|]; [|done]. destruct (is_set _ || _) eqn:E; [done|].
  apply M_bind_inv in Hs as ([] & s3 & _ & Hs). injection Hs as -> <- <-. destruct (usable_found _ _ _ Ha E) as [Hid Hu].
  split; [done|]. exists mid. split; [done|]. left. destruct linked as [i|]; [|done]. cbn in Hid.
  destruct (List.find (identity_is p sub) (ad_identities mid)) as [row|] eqn:Hf; [|done]. injection Hl as <-.
  apply find_Some_elem in Hf as [Hin Hk]. unfold identity_is in Hk. bool_hyps. exists row. split; [done|]. unfold identity_key. split; congruence.
- apply M_bind_inv in Hs as (ex & s2 & Hx & Hs). apply (runs_ok _ _ _ _ _ _ _ (account_by_email_runs _)) in Hx as (mid2 & dt2 & Hm2 & Hx).
  injection Hx as Hx Hm2'. assert (steps auth_step (auth_tables s) mid2) as Hmid2 by (etrans; [exact Hm|]; by rewrite Hm1).
  destruct ex as [b|].
  + destruct (is_set _ || _) eqn:E; [done|]. apply link_account_inv in Hs. injection Hs as -> ->.
    apply find_Some_elem in Hx as [Hin Hk]. unfold account_email in Hk. bool_hyps.
    split; [split; [done|by destruct (ac_deleted_at b)]|]. exists mid2. split; [done|]. by right.
  + destruct (negb allow) eqn:Eallow; [done|]. bool_hyps. apply M_bind_inv in Hs as (bytes & s3 & Hb & Hs).
    apply M_bind_inv in Hs as (b & s4 & Hc & Hs). pose proof (link_account_inv _ _ _ _ _ _ _ Hs) as [= -> ->].
    apply (runs_ok _ _ _ _ _ _ _ (create_account_runs _ _)) in Hc as (mid3 & dt3 & Hm3 & Hc).
    unfold d1_createAccount in Hc. destruct (existsb _ _); [done|]. destruct (existsb _ _) eqn:He in Hc; [done|]. injection Hc as <- Hc.
    split; [done|]. exists mid3. split; [|split_and!; [done..| |]].
    * etrans; [exact Hmid2|]. rewrite Hm2'. etrans; [|exact Hm3]. eapply reached_by; [|exact Hb]. intros; apply random_reached.
    * intros y Hy Heq. rewrite existsb_false_iff in He. specialize (He y Hy). cbn in He. by rewrite Heq, String.eqb_refl in He.
    * rewrite Hc. eapply reached_by; [|exact Hs]. intros d0. unfold link_account. repeat first [progress preserve|auth_op].
Qed.

(** The row a sign-in ends in, in the table: [links] at the reading of the links, [accounts] where the
    account's row is read or has just been made. *)
Lemma sign_in_account p sub email allow s a created s' :
  upsertAccountForVerifiedEmail random p sub email allow s = (Ok (UpOk a created), s') →
  ∃ links accounts, steps auth_step (auth_tables s) links ∧ steps auth_step links accounts ∧ steps auth_step accounts (auth_tables s') ∧
    a ∈ ad_accounts accounts ∧ usable a ∧ (created = true → allow = true) ∧
    if is_set (linked_to p sub links) then linked_to p sub links = Some (ac_id a) else ac_email a = normalizeEmail email.
Proof.
unfold upsertAccountForVerifiedEmail. cbv zeta. intros (linked & s1 & Hl & Hs)%M_bind_inv.
apply (runs_ok _ _ _ _ _ _ _ (by_identity_runs _ _)) in Hl as (mid & dt & Hm & Hl). injection Hl as Hl Hm1. fold (linked_to p sub mid) in Hl.
assert (∀ b c s2, link_account p sub b c s2 = (Ok (UpOk a created), s') → steps auth_step (auth_tables s2) (auth_tables s')) as Hlink.
{ intros b c s2 E. eapply reached_by; [|exact E]. intros d0. unfold link_account. repeat first [progress preserve|auth_op]. }
destruct (is_set linked) eqn:Eset.
- apply M_bind_inv in Hs as (acc & s2 & Ha & Hs). apply (runs_ok _ _ _ _ _ _ _ (account_by_id_runs _)) in Ha as (mid2 & dt2 & Hm2 & Ha).
  injection Ha as Ha Hm2'. destruct acc as [b|]; [|done]. destruct (is_set _ || _) eqn:E; [done|].
  apply M_bind_inv in Hs as ([] & s3 & Ht & Hs). injection Hs as -> <- <-. destruct (usable_found _ _ _ Ha E) as [Hid Hu].
  exists mid, mid2. rewrite Hl, Eset. split_and!; try done; [by rewrite Hm1| |by eapply find_Some_elem|].
  + rewrite Hm2'. eapply reached_by; [|exact Ht]. intros d0. auth_op.
  + destruct linked as [i|]; [|done]. cbn in Hid. congruence.
- apply M_bind_inv in Hs as (ex & s2 & Hx & Hs). apply (runs_ok _ _ _ _ _ _ _ (account_by_email_runs _)) in Hx as (mid2 & dt2 & Hm2 & Hx).
  injection Hx as Hx Hm2'. rewrite <- Hm1 in Hm2. destruct ex as [b|].
  + destruct (is_set _ || _) eqn:E; [done|]. pose proof (link_account_inv _ _ _ _ _ _ _ Hs) as [= -> ->].
    apply find_Some_elem in Hx as [Hin Hk]. unfold account_email in Hk. bool_hyps.
    exists mid, mid2. rewrite Hl, Eset. split_and!; try done; [rewrite Hm2'; by eapply Hlink|]. split; [done|by destruct (ac_deleted_at b)].
  + destruct (negb allow) eqn:Eallow; [done|]. bool_hyps. apply M_bind_inv in Hs as (bytes & s3 & Hb & Hs).
    apply M_bind_inv in Hs as (b & s4 & Hc & Hs). pose proof (link_account_inv _ _ _ _ _ _ _ Hs) as [= -> ->].
    apply (runs_ok _ _ _ _ _ _ _ (create_account_runs _ _)) in Hc as (mid3 & dt3 & Hm3 & Hc). assert (Hc' := Hc).
    unfold d1_createAccount in Hc. destruct (existsb _ _); [done|]. destruct (existsb _ _) eqn:He in Hc; [done|]. injection Hc as <- Hc.
    exists mid, (auth_tables s4). rewrite Hl, Eset. split_and!; try done; [|by eapply Hlink|rewrite <- Hc; apply elem_of_app; right; left].
    etrans; [exact Hm2|]. rewrite Hm2'. etrans; [eapply reached_by; [|exact Hb]; intros; apply random_reached|]. etrans; [exact Hm3|].
    apply steps_one. replace (auth_tables s4) with (exec (d1_createAccount dt3 (newId "acct" bytes) (normalizeEmail email)) mid3) by (unfold exec; by rewrite Hc').
    apply step_createAccount.
Qed.
End linking.

(** ** The linking rule, on a store nobody else writes *)
Section linking_rule.
Context (random : nat → M auth_db string (list ascii)) (bytes : list ascii).
Hypothesis random_bytes : ∀ d, random 12 d = (Ok bytes, d).

(** Ids are not empty, unique, and the only ones identities point to. *)
Definition accounts_ok (db : auth_db) : Prop :=
  NoDup (ac_id <$> ad_accounts db) ∧ (∀ a, a ∈ ad_accounts db → Str.truthy (ac_id a) = true) ∧
  (∀ i, i ∈ ad_identities db → ∃ a, a ∈ ad_accounts db ∧ ac_id a = id_account_id i).

Lemma linked_set p sub db : accounts_ok db → is_set (linked_to p sub db) = match linked_to p sub db with Some _ => true | None => false end.
Proof.
intros (_ & Ht & Hfk). unfold linked_to. destruct (List.find _ _) as [i|] eqn:E; [|done]. cbn.
apply find_Some_elem in E as [Hin _]. destruct (Hfk i Hin) as (a & Ha & <-). by apply Ht.
Qed.
Lemma account_by_id db a : accounts_ok db → a ∈ ad_accounts db → usable a → List.find (account_is (ac_id a)) (ad_accounts db) = Some a.
Proof.
intros (Hn & _) Hin [_ Hd]. destruct (List.find _ _) as [b|] eqn:E.
- apply find_Some_elem in E as [Hb Hk]. unfold account_is in Hk. bool_hyps. f_equal. by apply (unique_eq ac_id (ad_accounts db)).
- rewrite find_None_elem in E. specialize (E a Hin). unfold account_is in E. by rewrite String.eqb_refl, Hd in E.
Qed.
Lemma touch_links p sub dt db q s : linked_to q s (exec (d1_touchIdentityLogin dt p sub) db) = linked_to q s db.
Proof.
unfold linked_to, exec, d1_touchIdentityLogin, modify. cbn [snd ad_identities with_identities]. unfold update_where.
rewrite find_fmap by (intros x; cbn beta; by destruct (identity_is p sub x)). destruct (List.find _ _) as [i|]; [|done]. cbn. by destruct (identity_is _ _ _).
Qed.

Lemma touch_ok p sub dt db : accounts_ok db → accounts_ok (exec (d1_touchIdentityLogin dt p sub) db).
Proof.
intros (Hn & Ht & Hfk). split_and!; [done..|]. intros j (j' & Hj & ->)%elem_of_update_where. destruct (Hfk j' Hj) as (b & Hb & Hbj).
exists b. split; [done|]. by destruct (identity_is _ _ _).
Qed.

(** A subject linked to a usable account signs in to it, and only its login time is written. *)
Lemma linked_signs_in p sub e allow db a :
  accounts_ok db → linked_to p sub db = Some (ac_id a) → a ∈ ad_accounts db → usable a →
  upsertAccountForVerifiedEmail random p sub e allow db = (Ok (UpOk a false), exec (d1_touchIdentityLogin "now" p sub) db).
Proof.
intros Hok Hl Hin Hu. pose proof (linked_set p sub db Hok) as Hs. rewrite Hl in Hs.
unfold upsertAccountForVerifiedEmail. cbv zeta. rewrite bind_run. cbn [getAccountIdByIdentity d1_auth].
unfold d1_getAccountIdByIdentity, gets. change (id_account_id <$> _) with (linked_to p sub db). rewrite Hl, Hs.
rewrite bind_run. cbn [getAccountById d1_auth]. unfold d1_getAccountById, gets. cbn [default from_option].
change (id (ac_id a)) with (ac_id a). rewrite account_by_id by done. destruct Hu as [Hu1 Hu2]. by rewrite Hu1, Hu2.
Qed.

Lemma link_new p sub a c db :
  linked_to p sub db = None → a ∈ ad_accounts db → ∃ db', link_account p sub a c db = (Ok (UpOk a c), db') ∧
  ad_accounts db' = ad_accounts db ∧ linked_to p sub db' = Some (ac_id a) ∧
  (accounts_ok db → accounts_ok db').
Proof.
intros Hl Hin. unfold link_account. rewrite bind_run. cbn [linkIdentity touchIdentityLogin d1_auth]. unfold d1_linkIdentity.
assert (existsb (identity_is p sub) (ad_identities db) = false) as Hx.
{ unfold linked_to in Hl. destruct (List.find _ _) eqn:E; [done|]. rewrite existsb_false_iff. by apply find_None_elem. }
assert (existsb (λ b, ac_id b =s? ac_id a) (ad_accounts db) = true) as Ha.
{ apply existsb_true_iff. exists a. by rewrite String.eqb_refl. }
rewrite Hx, Ha. cbn [negb]. rewrite bind_run. set (db1 := with_identities _ db).
change (d1_touchIdentityLogin "now" p sub db1) with (Ok (E:=string) tt, exec (d1_touchIdentityLogin "now" p sub) db1).
eexists. split; [done|]. split; [done|]. split.
{ rewrite touch_links. unfold linked_to, db1. cbn. rewrite find_snoc; [done|done|]. unfold identity_is. cbn.
  by rewrite bool_decide_eq_true_2, String.eqb_refl. }
intros (Hn & Ht & Hfk). apply touch_ok. split_and!; [done..|]. intros i [Hi| ->%list_elem_of_singleton]%elem_of_app; [by apply Hfk|]. by exists a.
Qed.

(** One rule links verified identities to accounts.  A refused sign-in (closed signups, a suspended
    account, a failing insert) writes nothing at all; a successful one adds at most the account it
    announces as created, and afterwards the same identity signs in to the same account however
    signups are set, creating nothing; signups are reported closed exactly when they are and neither
    the identity nor the address has an account. *)
Theorem one_linking_rule p sub e allow db :
  accounts_ok db →
  let '(r, db') := upsertAccountForVerifiedEmail random p sub e allow db in
  match r with
  | Ok (UpOk a created) =>
      ad_accounts db' = ad_accounts db ++ (if created then [a] else []) ∧ usable a ∧
      (created = true → allow = true) ∧ accounts_ok db' ∧
      (∀ allow', ∃ db'', upsertAccountForVerifiedEmail random p sub e allow' db' = (Ok (UpOk a false), db'') ∧ ad_accounts db'' = ad_accounts db')
  | _ => db' = db
  end ∧
  (r = Ok UpSignupsClosed ↔ allow = false ∧ linked_to p sub db = None ∧
     List.find (account_email (normalizeEmail e)) (ad_accounts db) = None).
Proof.
intros Hok. destruct (upsertAccountForVerifiedEmail random p sub e allow db) as [r db'] eqn:Hrun. revert Hrun.
assert (∀ a, a ∈ ad_accounts db' → usable a → linked_to p sub db' = Some (ac_id a) → accounts_ok db' →
  ∀ allow', ∃ db'', upsertAccountForVerifiedEmail random p sub e allow' db' = (Ok (UpOk a false), db'') ∧ ad_accounts db'' = ad_accounts db') as Hagain.
{ intros a Ha Hu Hl Hok' allow'. eexists. split; [by apply linked_signs_in|done]. }
unfold upsertAccountForVerifiedEmail. cbv zeta. rewrite bind_run. cbn [getAccountIdByIdentity getAccountById getAccountByEmail createAccount d1_auth].
change (d1_getAccountIdByIdentity p sub db) with (Ok (E:=string) (linked_to p sub db), db).
unfold d1_getAccountById, d1_getAccountByEmail, gets. rewrite linked_set by done. destruct (linked_to p sub db) as [i|] eqn:Hl; cbn [default from_option].
- rewrite bind_run. change (id i) with i. destruct (List.find (account_is i) _) as [a|] eqn:Ha.
  2:{ intros [= <- <-]. split; [done|]. naive_solver. }
  pose proof Ha as Ha'. apply find_Some_elem in Ha' as [Hin _]. destruct (is_set _ || _) eqn:E; [intros [= <- <-]; naive_solver|].
  destruct (usable_found _ _ _ Ha E) as [<- Hu]. rewrite bind_run. cbn [touchIdentityLogin d1_auth].
  change (d1_touchIdentityLogin "now" p sub db) with (Ok (E:=string) tt, exec (d1_touchIdentityLogin "now" p sub) db).
  intros [= <- <-]. split; [|naive_solver]. rewrite app_nil_r. split_and!; [done..|by apply touch_ok|].
  apply Hagain; [done..|by rewrite touch_links|by apply touch_ok].
- rewrite bind_run. destruct (List.find (account_email _) _) as [a|] eqn:Ha.
  + pose proof Ha as [Hin He]%find_Some_elem. unfold account_email in He. bool_hyps.
    destruct (is_set _ || _) eqn:E; [intros [= <- <-]; naive_solver|]. bool_hyps.
    assert (usable a) as Hu by (split; [done|by destruct (ac_deleted_at a)]).
    destruct (link_new p sub a false db Hl Hin) as (db2 & -> & Hac & Hl2 & Hok2). intros [= <- <-].
    split; [|naive_solver]. rewrite app_nil_r. split_and!; [done..|by apply Hok2|]. apply Hagain; [by rewrite Hac|done..|by apply Hok2].
  + destruct allow; cbn [negb]; [|intros [= <- <-]; naive_solver]. rewrite bind_run, random_bytes, bind_run.
    unfold d1_createAccount. destruct (existsb _ _) eqn:Hi; [intros [= <- <-]; naive_solver|].
    destruct (existsb _ _) eqn:He in |- *; [intros [= <- <-]; naive_solver|].
    set (a := mkAccount _ _ _ _ _ _). set (db1 := with_accounts _ db).
    assert (accounts_ok db1) as Hok1.
    { destruct Hok as (Hn & Ht & Hfk). split_and!.
      - apply NoDup_fmap_snoc; [done|]. intros (y & Hy & Hin)%list_elem_of_fmap. rewrite existsb_false_iff in Hi.
        specialize (Hi y Hin). cbn in Hi, Hy. by rewrite <- Hy, String.eqb_refl in Hi.
      - intros y [Hy| ->%list_elem_of_singleton]%elem_of_app; [by apply Ht|done].
      - intros j Hj. destruct (Hfk j Hj) as (b & Hb & Hbj). exists b. split; [apply elem_of_app; by left|done]. }
    destruct (link_new p sub a true db1) as (db2 & -> & Hac & Hl2 & Hok2); [done|apply elem_of_app; right; by left|].
    intros [= <- <-]. split; [|naive_solver]. split_and!; [by rewrite Hac|done..|by apply Hok2|].
    apply Hagain; [rewrite Hac; apply elem_of_app; right; by left|done..|by apply Hok2].
Qed.
End linking_rule.

(** ** What an address looks like *)
Section addresses.
Implicit Types (l w : list ascii).
Definition segment w : Prop := w ≠ [] ∧ forallb email_char w = true.

Lemma segment_no_dot w : segment w → no_sep "." w.
Proof.
intros [_ H]. eapply forallb_weaken; [|exact H]. intros c Hc. unfold email_char in Hc. by bool_hyps; apply negb_true_iff.
Qed.
Lemma split_behind w ws : segment w → Forall segment ws → split_chars "." (w ++ behind "." ws) = w :: ws.
Proof.
intros Hw Hws. revert w Hw. induction Hws as [|v ws Hv _ IH]; intros w Hw; cbn [behind].
- rewrite app_nil_r. by apply split_plain, segment_no_dot.
- rewrite split_sep by (by apply segment_no_dot). by rewrite IH.
Qed.
Lemma behind_split l w ws : split_chars "." l = w :: ws → l = w ++ behind "." ws.
Proof.
revert l w. induction ws as [|v ws IH]; intros l w Hs; destruct (split_inv _ _ _ _ Hs) as [_ Hl]; cbn [behind].
- by rewrite app_nil_r.
- destruct Hl as (l' & -> & Hl'). by rewrite (IH _ _ Hl').
Qed.
Lemma dotted_spec l : lang (RCat email_segment (RStar dot_segment)) l ↔ Forall segment (split_chars "." l).
Proof.
rewrite lang_cat_inv. unfold email_segment, dot_segment. setoid_rewrite lang_plus_set. setoid_rewrite lang_star_behind.
assert (∀ ws, Forall (lang (RPlus (RSet email_char))) ws ↔ Forall segment ws) as Hf.
{ intros ws. apply Forall_iff. intros w. apply lang_plus_set. }
setoid_rewrite Hf. split.
- intros (w & r & -> & Hw & ws & -> & Hws). rewrite split_behind by done. by constructor.
- destruct (split_chars "." l) as [|w ws] eqn:E; [by apply split_nonempty in E|]. intros [Hw Hws]%Forall_cons.
  exists w, (behind "." ws). split_and!; [by apply behind_split|apply Hw|apply Hw|eauto].
Qed.

(** The pattern at the send door accepts exactly the plain addresses: at most 254 characters, one
    at-sign, and around it dot-separated labels that are not empty and hold no whitespace, at least two
    of them behind it; in particular two dots in a row are refused. *)
Theorem looksLikeEmail_exact email :
  looksLikeEmail email = true ↔
  (length (Str.chars email) <= 254)%nat ∧ ∃ l d, Str.chars email = l ++ "@"%char :: d ∧
    Forall segment (split_chars "." l) ∧ Forall segment (split_chars "." d) ∧ (2 <= length (split_chars "." d))%nat.
Proof.
unfold looksLikeEmail, test. rewrite andb_true_iff, Nat.leb_le, rmatch_spec.
assert (∀ d, lang (RCat email_segment (RPlus dot_segment)) d ↔ Forall segment (split_chars "." d) ∧ (2 <= length (split_chars "." d))%nat) as Hd.
{ intros d. rewrite <- dotted_spec. unfold RPlus. split.
  - intros (w & r & -> & Hw & (s & r' & -> & Hs & Hr)%lang_cat_inv)%lang_cat_inv.
    assert (lang (RCat email_segment (RStar dot_segment)) (w ++ s ++ r')) as H by (by repeat constructor). split; [done|].
    apply dotted_spec in H. apply lang_cat_inv in Hs as (c & s' & -> & ->%lang_char & Hs).
    cbn [app]. rewrite split_sep by (by apply segment_no_dot, lang_plus_set). cbn. pose proof (split_nonempty "." (s' ++ r')). destruct (split_chars "." (s' ++ r')); [done|cbn; lia].
  - intros [(w & r & -> & Hw & Hr)%lang_cat_inv Hlen]. apply lang_cat_inv. exists w, r. split_and!; [done..|].
    apply lang_star_behind in Hr as ([|v vs] & -> & Hv); [|]; cbn [behind] in *.
    + rewrite app_nil_r, split_plain in Hlen; [cbn in Hlen; lia|]. by apply segment_no_dot, lang_plus_set.
    + apply Forall_cons in Hv as [Hv Hvs]. apply lang_cat_inv. exists ("."%char :: v), (behind "." vs). split_and!; [done| |].
      * apply lang_cat_inv. exists ["."%char], v. split_and!; [done|by apply lang_char|done].
      * apply lang_star_behind. eauto. }
assert (∀ l, lang EMAIL_RE l ↔ ∃ a d, l = a ++ "@"%char :: d ∧ lang (RCat email_segment (RStar dot_segment)) a ∧ lang (RCat email_segment (RPlus dot_segment)) d) as He.
{ intros l. unfold EMAIL_RE. split.
  - intros (w & r & -> & Hw & (s & r' & -> & Hs & (c & d & -> & ->%lang_char & Hd')%lang_cat_inv)%lang_cat_inv)%lang_cat_inv.
    exists (w ++ s), d. rewrite <- app_assoc. split_and!; [done|by constructor|done].
  - intros (a & d & -> & (w & s & -> & Hw & Hs)%lang_cat_inv & Hd'). rewrite <- app_assoc. constructor; [done|]. constructor; [done|].
    change ("@"%char :: d) with (["@"%char] ++ d). constructor; [by apply lang_char|done]. }
rewrite He. setoid_rewrite dotted_spec. setoid_rewrite Hd. done.
Qed.
End addresses.
