(* ===== verification/OperatorAuth.v ===== *)
(** * Operators: credentials, scopes and the admin gate

    src/operator-auth.ts, the requirement table and the credential routes of src/index.ts.  Scopes are
    the catalogue's ids; the summaries shown beside them carry no decision.  [Date.parse] is the full
    ISO form, the only one the code writes; any other text counts as unreadable. *)

From S2P Require Export Auth.
From Stdlib Require Import Ascii.
Open Scope string_scope.
Open Scope list_scope.
Open Scope Z_scope.
Open Scope plane_scope.

(** ** The catalogue *)
Definition ALL_SCOPES : list string :=
  ["tenants:read"; "tenants:write"; "tenants:destroy"; "tenants:provision"; "studio:operate";
   "credits:write"; "platform:settings"; "meter:operate"; "keys:rotate"].
Definition mem (l : list string) (s : string) : bool := existsb (String.eqb s) l.
Definition isKnownScope (value : string) : bool := mem ALL_SCOPES value.

(** [s.split(/\s+/)]: [run] says the last character was a space of the separator being read. *)
Fixpoint split_spaces (run : bool) (word : list ascii) (l : list ascii) : list (list ascii) :=
  match l with
  | [] => [rev word]
  | c :: l =>
      if Str.is_space c then if run then split_spaces true word l else rev word :: split_spaces true [] l
      else split_spaces false (c :: word) l
  end.
Definition words (s : string) : list string := Str.of_chars <$> split_spaces false [] (Str.chars s).

Definition parseScopes (stored : string) : list string := jfilter isKnownScope (words stored).
Definition formatScopes (scopes : list string) : string := Str.join " " (jfilter (mem scopes) ALL_SCOPES).

(** The refusal carries what its message lists. *)
Inductive ScopesVerdict :=
| ScopesOk (scopes : list string)
| ScopesEmpty
| ScopesUnknown (unknown : list js).
Definition known_scope_value (v : js) : bool := match v with JStr s => isKnownScope s | _ => false end.
Definition js_text_is (s : string) (v : js) : bool := match v with JStr s' => s =? s' | _ => false end%string.
Definition canonicaliseScopes (input : js) : ScopesVerdict :=
  match input with
  | JArr (v :: l) =>
      match jfilter (λ s, negb (known_scope_value s)) (v :: l) with
      | [] => ScopesOk (jfilter (λ s, existsb (js_text_is s) (v :: l)) ALL_SCOPES)
      | unknown => ScopesUnknown unknown
      end
  | _ => ScopesEmpty
  end.

(** [/^[a-z0-9][a-z0-9_-]{0,31}$/] *)
Definition low_alnum (c : ascii) : bool := let n := Str.code c in ((97 <=? n) && (n <=? 122) || (48 <=? n) && (n <=? 57))%N.
Definition name_char (c : ascii) : bool := low_alnum c || Ascii.eqb c "_" || Ascii.eqb c "-".
Definition NAME_RE : regex := RCat (RSet low_alnum) (RUpTo 31 (RSet name_char)).
Definition isValidOperatorName (name : js) : bool := match name with JStr s => test NAME_RE s | _ => false end.

Definition isExpired (expires_at : option string) (nowIso : string) : bool :=
  match expires_at with
  | Some e =>
      if Str.truthy e then
        match Date.parse_iso e, Date.parse_iso nowIso with
        | Some at_, Some now => at_ <=? now
        | _, _ => true
        end
      else false
  | None => false
  end.

(** ** Principals *)
Inductive PrincipalKind := PRoot | PCredential.
#[export] Instance PrincipalKind_eq_dec : EqDecision PrincipalKind.
Proof. solve_decision. Defined.
Record OperatorPrincipal := mkPrincipal {
  pr_kind : PrincipalKind;
  pr_actor : string;
  pr_operator : option string;
  pr_credential_id : option string;
  pr_scopes : list string;
}.
Definition operatorActor (name : string) : string := "operator:" +:+ name.
Definition root_principal : OperatorPrincipal := mkPrincipal PRoot "admin-token" None None ALL_SCOPES.
Definition credential_principal (c : OperatorCredential) : OperatorPrincipal :=
  mkPrincipal PCredential (operatorActor (op_name c)) (Some (op_name c)) (Some (op_id c)) (parseScopes (op_scopes c)).
Definition hasScope (principal : OperatorPrincipal) (scope : string) : bool := mem (pr_scopes principal) scope.

(** ** What each admin route requires

    A pattern is a text with holes: an id of a given prefix and hexadecimal digits, or one of two verbs. *)
Inductive piece := PText (s : string) | PId (prefix : string) | PEither (a b : string).
Definition hex_char (c : ascii) : bool := let n := Str.code c in ((97 <=? n) && (n <=? 102) || (48 <=? n) && (n <=? 57))%N.
Definition piece_re (p : piece) : regex :=
  match p with
  | PText s => RText (Str.chars s)
  | PId prefix => RCat (RText (Str.chars prefix)) (RPlus (RSet hex_char))
  | PEither a b => RAlt (RText (Str.chars a)) (RText (Str.chars b))
  end.
Definition pattern_re (ps : list piece) : regex := foldr (λ p r, RCat (piece_re p) r) REmpty ps.

Inductive AdminRequirement := NeedsScope (scope : string) | NeedsAuthentication | NeedsRoot.
#[export] Instance AdminRequirement_eq_dec : EqDecision AdminRequirement.
Proof. solve_decision. Defined.
Record AdminRow := mkAdminRow { ar_method : string; ar_pattern : list piece; ar_requires : AdminRequirement }.

Definition TEN : piece := PId "ten_".
(** [^/api/admin/..$] and [^/api/admin/tenants/${TEN}..$] *)
Definition at_ (rest : list piece) : list piece := PText "/api/admin/" :: rest.
Definition of_tenant (rest : list piece) : list piece := at_ (PText "tenants/" :: TEN :: rest).

Definition ADMIN_REQUIREMENTS : list AdminRow :=
  [ mkAdminRow "GET" (at_ [PText "whoami"]) NeedsAuthentication;
    mkAdminRow "GET" (at_ [PText "operators"]) NeedsRoot;
    mkAdminRow "POST" (at_ [PText "operators"]) NeedsRoot;
    mkAdminRow "POST" (at_ [PText "operators/"; PId "opc_"; PText "/revoke"]) NeedsRoot;
    mkAdminRow "GET" (at_ [PText "audit"]) (NeedsScope "tenants:read");
    mkAdminRow "GET" (at_ [PText "tenants"]) (NeedsScope "tenants:read");
    mkAdminRow "GET" (of_tenant [PText "/usage"]) (NeedsScope "tenants:read");
    mkAdminRow "POST" (at_ [PText "tenants/provision"]) (NeedsScope "tenants:provision");
    mkAdminRow "GET" (at_ [PText "settings"]) (NeedsScope "tenants:read");
    mkAdminRow "POST" (at_ [PText "settings"]) (NeedsScope "platform:settings");
    mkAdminRow "GET" (at_ [PText "r2-usage"]) (NeedsScope "tenants:read");
    mkAdminRow "GET" (at_ [PText "cron"]) (NeedsScope "tenants:read");
    mkAdminRow "POST" (at_ [PText "reconcile/runpod"]) (NeedsScope "tenants:read");
    mkAdminRow "POST" (at_ [PText "llm-meter/run"]) (NeedsScope "meter:operate");
    mkAdminRow "POST" (at_ [PText "meter-settle"]) (NeedsScope "meter:operate");
    mkAdminRow "GET" (at_ [PText "llm-spend"]) (NeedsScope "tenants:read");
    mkAdminRow "GET" (at_ [PText "kek/status"]) (NeedsScope "keys:rotate");
    mkAdminRow "POST" (at_ [PText "kek/reencrypt"]) (NeedsScope "keys:rotate");
    mkAdminRow "GET" (of_tenant [PText "/credits"]) (NeedsScope "tenants:read");
    mkAdminRow "POST" (of_tenant [PText "/credits/manual"]) (NeedsScope "credits:write");
    mkAdminRow "GET" (of_tenant [PText "/module-readiness"]) (NeedsScope "tenants:read");
    mkAdminRow "GET" (of_tenant [PText "/preservation-holds"]) (NeedsScope "tenants:read");
    mkAdminRow "POST" (of_tenant [PText "/preservation-holds"]) (NeedsScope "tenants:write");
    mkAdminRow "POST" (of_tenant [PText "/preservation-holds/"; PId "hold_"; PText "/release"]) (NeedsScope "tenants:write");
    mkAdminRow "POST" (of_tenant [PText "/"; PEither "suspend" "resume"]) (NeedsScope "tenants:write");
    mkAdminRow "POST" (of_tenant [PText "/video-finish-binding"]) (NeedsScope "tenants:write");
    mkAdminRow "POST" (of_tenant [PText "/video-finish-tier-state"]) (NeedsScope "tenants:write");
    mkAdminRow "POST" (of_tenant [PText "/abuse-report-url"]) (NeedsScope "tenants:write");
    mkAdminRow "POST" (of_tenant [PText "/storage-quota"]) (NeedsScope "tenants:write");
    mkAdminRow "POST" (of_tenant [PText "/teardown"]) (NeedsScope "tenants:destroy");
    mkAdminRow "POST" (of_tenant [PText "/upgrade-modules"]) (NeedsScope "studio:operate");
    mkAdminRow "POST" (of_tenant [PText "/upgrade-studio"]) (NeedsScope "studio:operate");
    mkAdminRow "POST" (of_tenant [PText "/refresh-studio-bindings"]) (NeedsScope "studio:operate");
    mkAdminRow "POST" (of_tenant [PText "/smoke-render"]) (NeedsScope "studio:operate");
    mkAdminRow "GET" (of_tenant [PText "/smoke-render/"; PId "smk_"]) (NeedsScope "tenants:read");
    mkAdminRow "GET" (of_tenant [PText "/smoke-render/"; PId "smk_"; PText "/artifact"]) (NeedsScope "tenants:read") ].

Definition row_serves (method path : string) (row : AdminRow) : bool :=
  (ar_method row =s? method) && test (pattern_re (ar_pattern row)) path.
Definition adminRequirement (method path : string) : option AdminRequirement :=
  ar_requires <$> List.find (row_serves method path) ADMIN_REQUIREMENTS.

(** ** The gate of every admin request *)
Inductive AdminGate :=
| Unauthorized
| NoSuchRoute
| RootCredentialRequired
| InsufficientScope (required : string) (held : list string)
| AdmittedAs (principal : OperatorPrincipal).

Definition authorize (method path : string) (principal : OperatorPrincipal) : AdminGate :=
  match adminRequirement method path with
  | None => NoSuchRoute
  | Some NeedsRoot => if bool_decide (pr_kind principal = PRoot) then AdmittedAs principal else RootCredentialRequired
  | Some NeedsAuthentication => AdmittedAs principal
  | Some (NeedsScope s) => if hasScope principal s then AdmittedAs principal else InsufficientScope s (pr_scopes principal)
  end.

(** What a mint answers. *)
Inductive MintAnswer :=
| InvalidName
| InvalidScopes (why : ScopesVerdict)
| InvalidExpiry
| NameInUse
| MintFailed
| Minted (id name : string) (scopes : list string) (expires_at : option string) (token : string).

Section gate.
Context {W : Type} `{AuthStore W}.
Variable digest : string → list ascii.
Variable random : nat → M W string (list ascii).
(** [recordAdminAction actor action target detail], the detail as its fields. *)
Variable recordAdminAction : string → string → option string → list (string * js) → M W string unit.

Definition resolveOperator (presented : option string) (rootSecret : option string) (nowIso : string) : M W string (option OperatorPrincipal) :=
  if negb (is_set presented) then mret None
  else
    let p := default "" presented in
    credential ← getOperatorCredentialByHash (sha256Hex digest p);
    let root := if is_set rootSecret && constantTimeEqual digest p (default "" rootSecret) then Some root_principal else None in
    match credential with
    | Some c =>
        if negb (is_set (op_revoked_at c)) && negb (isExpired (op_expires_at c) nowIso)
        then mret (Some (credential_principal c)) else mret root
    | None => mret root
    end.

(** The head of [adminRoutes]: authenticate, then authorize. *)
Definition adminGate (method path : string) (authorization rootSecret : option string) (now : Z) : M W string AdminGate :=
  nowIso ← lift (iso now);
  principal ← resolveOperator (bearerFrom authorization) rootSecret nowIso;
  mret (match principal with None => Unauthorized | Some p => authorize method path p end).

(** [expires_in_days]: absent, or a whole number of days from 1 to 3650. *)
Definition expiry_days (v : js) : option (option Z) :=
  match v with
  | JUndef | JNull => Some None
  | JNum (Num.NInt d) => if Num.is_safe d && (0 <? d) && (d <=? 3650) then Some (Some d) else None
  | _ => None
  end.

(** [/unique|constraint/i.test(message)] *)
Definition constraint_failed (message : string) : bool :=
  let m := Str.to_lower message in includes_text "unique" m || includes_text "constraint" m.

(** [POST /api/admin/operators] *)
Definition mintOperator (actor : string) (body : js) (now : Z) : M W string MintAnswer :=
  match js_field body "name" with
  | JStr name =>
      if negb (test NAME_RE name) then mret InvalidName
      else match canonicaliseScopes (js_field body "scopes") with
      | ScopesOk scopes =>
          match expiry_days (js_field body "expires_in_days") with
          | None => mret InvalidExpiry
          | Some days =>
              expiresAt ← lift (match days with Some d => Some <$> iso (now + d * 24 * 60 * 60 * 1000) | None => Ok None end);
              tokenBytes ← random 32;
              idBytes ← random 12;
              let token := randomToken tokenBytes in
              let id := newId "opc" idBytes in
              created ← attempt (createOperatorCredential id name (sha256Hex digest token) (formatScopes scopes) actor expiresAt);
              match created with
              | inl e => mret (if constraint_failed e then NameInUse else MintFailed)
              | inr _ =>
                  _ ← recordAdminAction actor "operator.mint" (Some id)
                        [("name", JStr name); ("scopes", JArr (JStr <$> scopes));
                         ("expires_at", match expiresAt with Some e => JStr e | None => JNull end)];
                  mret (Minted id name scopes expiresAt token)
              end
          end
      | why => mret (InvalidScopes why)
      end
  | _ => mret InvalidName
  end.

(** [POST /api/admin/operators/:id/revoke]: whether a live credential was revoked. *)
Definition revokeOperator (actor id nowIso : string) : M W string bool :=
  revoked ← revokeOperatorCredential id actor nowIso;
  _ ← recordAdminAction actor "operator.revoke" (Some id) [("revoked", JBool revoked)];
  mret revoked.
End gate.

(** ** Scopes: what is stored is what was granted *)
Section scopes.
Implicit Types (l : list string) (s : string).

Lemma mem_spec l s : mem l s = true ↔ s ∈ l.
Proof.
unfold mem. rewrite existsb_true_iff. split; [by intros (x & Hx & ->%String.eqb_eq)|]. intros H. exists s. by rewrite String.eqb_refl.
Qed.

Definition no_space s : Prop := forallb (λ c, negb (Str.is_space c)) (Str.chars s) = true.
Lemma split_word (w : list ascii) run acc (l : list ascii) : forallb (λ c, negb (Str.is_space c)) w = true →
  split_spaces run acc (w ++ l) = match w with [] => split_spaces run acc l | _ => split_spaces false (rev w ++ acc) l end.
Proof.
revert run acc. induction w as [|c w IH]; intros run acc; [done|]. cbn. intros Hw. bool_hyps.
match goal with H : Str.is_space c = false |- _ => rewrite H end. rewrite IH by done.
destruct w as [|d w]; [done|]. cbn. by rewrite <- !app_assoc.
Qed.
Lemma words_join ws : ws ≠ [] → Forall (λ w, Str.truthy w = true ∧ no_space w) ws → words (Str.join " " ws) = ws.
Proof.
intros Hne Hws. destruct ws as [|w ws]; [done|]. unfold words. clear Hne.
assert (∀ ws w run, Forall (λ w, Str.truthy w = true ∧ no_space w) (w :: ws) →
  Str.of_chars <$> split_spaces run [] (Str.chars (Str.join " " (w :: ws))) = w :: ws) as H.
{ clear. induction ws as [|v ws IH]; intros w run [[Ht Hw] Hws]%Forall_cons.
  - cbn [Str.join]. rewrite <- (app_nil_r (Str.chars w)), split_word by done. destruct w as [|c w]; [done|].
    cbn [Str.chars String.list_ascii_of_string split_spaces fmap list_fmap]. rewrite app_nil_r, rev_involutive. f_equal. apply (of_chars_chars (String c w)).
  - change (Str.join " " (w :: v :: ws)) with (w +:+ String " " (Str.join " " (v :: ws))).
    rewrite chars_append, split_word by done. destruct w as [|c w]; [done|].
    change (Str.chars (String " " (Str.join " " (v :: ws)))) with (" "%char :: Str.chars (Str.join " " (v :: ws))).
    cbn [Str.chars String.list_ascii_of_string split_spaces]. change (Str.is_space " ") with true. cbn iota. rewrite fmap_cons, app_nil_r, rev_involutive.
    f_equal; [apply (of_chars_chars (String c w))|]. apply IH. exact Hws. }
by apply H.
Qed.

Lemma known_no_space s : isKnownScope s = true → Str.truthy s = true ∧ no_space s.
Proof.
unfold isKnownScope. rewrite mem_spec. intros Hs. assert (forallb (λ s, Str.truthy s && forallb (λ c, negb (Str.is_space c)) (Str.chars s)) ALL_SCOPES = true) as H by (vm_compute; reflexivity).
rewrite forallb_forall in H. apply list_elem_of_In in Hs. specialize (H s Hs). by bool_hyps.
Qed.
Lemma scopes_known (p : string → bool) s : s ∈ jfilter p ALL_SCOPES → isKnownScope s = true.
Proof. intros [Hs _]%elem_of_jfilter. by apply mem_spec. Qed.

Lemma parse_known l : Forall (λ s, isKnownScope s = true) l → parseScopes (Str.join " " l) = l.
Proof.
intros Hl. unfold parseScopes. destruct l as [|w l]; [reflexivity|]. rewrite words_join; [|done|].
- revert Hl. generalize (w :: l). clear. induction 1 as [|x xs Hx _ IH]; [done|]. unfold jfilter in *. cbn [List.filter]. by rewrite Hx, IH.
- eapply Forall_impl; [exact Hl|]. apply known_no_space.
Qed.

Lemma ScopesOk_inj a b : ScopesOk a = ScopesOk b → a = b.
Proof. congruence. Qed.

Lemma canonical_roundtrip input scopes : canonicaliseScopes input = ScopesOk scopes → parseScopes (formatScopes scopes) = scopes.
Proof.
unfold canonicaliseScopes. destruct input as [| | | | |[|v l]|]; try done. destruct (jfilter _ (v :: l)); [|done]. intros <-%ScopesOk_inj.
unfold formatScopes. set (got := jfilter (λ s, existsb (js_text_is s) (v :: l)) ALL_SCOPES).
assert (jfilter (mem got) ALL_SCOPES = got) as ->.
{ apply jfilter_ext. intros s Hs. apply eq_true_iff_eq. unfold got. rewrite mem_spec, elem_of_jfilter. naive_solver. }
apply parse_known, Forall_forall. intros s. apply scopes_known.
Qed.

(** Scopes survive storage unchanged, and nothing outside the catalogue ever grants anything.  The
    scopes a mint accepts are those of the request, each of them known; written to the table and read
    back they are the same list; and whatever text the table holds, reading it yields only catalogue
    scopes that stand in it. *)
Theorem scopes_roundtrip input scopes stored :
  canonicaliseScopes input = ScopesOk scopes →
  parseScopes (formatScopes scopes) = scopes ∧
  (∃ vs : list js, input = JArr vs ∧ vs ≠ [] ∧ ∀ v, v ∈ vs → ∃ s, v = JStr s ∧ isKnownScope s = true ∧ s ∈ scopes) ∧
  (∀ s, s ∈ scopes → match input with JArr vs => JStr s ∈ vs | _ => False end) ∧
  (∀ s, s ∈ parseScopes stored → s ∈ ALL_SCOPES ∧ s ∈ words stored).
Proof.
unfold canonicaliseScopes. destruct input as [| | | | |[|v l]|]; try done. destruct (jfilter _ (v :: l)) as [|u us] eqn:Hu; [|done].
intros <-%ScopesOk_inj. set (got := jfilter (λ s, existsb (js_text_is s) (v :: l)) ALL_SCOPES). rewrite jfilter_nil_iff in Hu.
assert (∀ s, s ∈ got ↔ isKnownScope s = true ∧ JStr s ∈ v :: l) as Hgot.
{ intros s. unfold got. rewrite elem_of_jfilter, existsb_true_iff. unfold isKnownScope. rewrite mem_spec. split.
  - intros [Hs (x & Hx & Ht)]. split; [done|]. destruct x; try done. cbn in Ht. bool_hyps. by subst.
  - intros [Hs Hx]. split; [done|]. exists (JStr s). split; [done|]. cbn. apply String.eqb_refl. }
split_and!.
- apply (canonical_roundtrip (JArr (v :: l))). unfold canonicaliseScopes. by rewrite (proj2 (jfilter_nil_iff _ _) Hu).
- exists (v :: l). split_and!; [done..|]. intros x Hx. specialize (Hu x Hx). apply negb_false_iff in Hu.
  destruct x as [| | | |s| |]; try done. exists s. cbn in Hu. split_and!; [done..|]. by apply Hgot.
- intros s Hs. by apply Hgot in Hs as [_ ?].
- intros s [Hw Hk]%elem_of_jfilter. split; [by apply mem_spec|done].
Qed.
End scopes.

(** ** The gate *)
Section patterns.
Implicit Types (ps : list piece) (l : list ascii).

(** The text every path of a pattern begins with. *)
Fixpoint pattern_head ps : list ascii :=
  match ps with PText s :: ps => Str.chars s ++ pattern_head ps | _ => [] end.
Lemma pattern_head_spec ps l : lang (pattern_re ps) l → ∃ r, l = pattern_head ps ++ r.
Proof.
revert l. induction ps as [|p ps IH]; intros l Hl; [by exists l|]. destruct p as [s| |]; [|by exists l..].
cbn in *. apply lang_cat_inv in Hl as (a & b & -> & ->%lang_text & Hb). destruct (IH _ Hb) as [r ->]. exists r. by rewrite app_assoc.
Qed.

(** Neither text begins with the other. *)
Fixpoint diverge (a b : list ascii) : bool :=
  match a, b with x :: a, y :: b => negb (Ascii.eqb x y) || diverge a b | _, _ => false end.
Lemma diverge_spec a b r r' : diverge a b = true → a ++ r ≠ b ++ r'.
Proof.
revert b. induction a as [|x a IH]; intros [|y b]; cbn; try done. intros [H|H]%orb_true_iff; [|intros [= -> Heq]; by apply (IH b)].
intros [= -> _]. by rewrite Ascii.eqb_refl in H.
Qed.

Definition OPERATORS_PATH : string := "/api/admin/operators".
Lemma operators_need_root method path req :
  starts_with OPERATORS_PATH path = true → adminRequirement method path = Some req → req = NeedsRoot.
Proof.
intros [tail ->]%starts_with_spec. unfold adminRequirement. destruct (List.find _ _) as [row|] eqn:Hf; [|done]. intros [= <-].
apply find_Some_elem in Hf as [Hin Hs]. unfold row_serves in Hs. apply andb_true_iff in Hs as [_ Hs]. unfold test in Hs.
apply rmatch_spec, pattern_head_spec in Hs as [r Hr]. rewrite chars_append in Hr.
assert (forallb (λ row, bool_decide (ar_requires row = NeedsRoot) || diverge (Str.chars OPERATORS_PATH) (pattern_head (ar_pattern row))) ADMIN_REQUIREMENTS = true)
  as Hall by (vm_compute; reflexivity).
rewrite forallb_forall in Hall. apply list_elem_of_In in Hin. specialize (Hall row Hin).
apply orb_true_iff in Hall as [Hn|Hd]; [by apply bool_decide_eq_true in Hn|]. by apply (diverge_spec _ _ (Str.chars tail) r) in Hd.
Qed.
End patterns.

Section gate_theorems.
Context {W : Type} `{AuthStoreOk W (steps auth_step)}.
Context (digest : string → list ascii) (random : nat → M W string (list ascii)).
Context (recordAdminAction : string → string → option string → list (string * js) → M W string unit).
Hypothesis random_reached : ∀ n d0, preserves (reached d0) (random n).
Hypothesis audit_reached : ∀ a b c d d0, preserves (reached d0) (recordAdminAction a b c d).

(** What a bearer stands for. *)
Inductive vouched (token : string) (rootSecret : option string) (nowIso : string) (d : auth_db) : OperatorPrincipal → Prop :=
| vouched_root : is_set rootSecret = true → constantTimeEqual digest token (default "" rootSecret) = true →
    vouched token rootSecret nowIso d root_principal
| vouched_credential c : c ∈ ad_operators d → op_hash c = sha256Hex digest token → is_set (op_revoked_at c) = false →
    isExpired (op_expires_at c) nowIso = false → vouched token rootSecret nowIso d (credential_principal c).

Lemma resolve_operator_inv presented rootSecret nowIso s p s' :
  resolveOperator digest presented rootSecret nowIso s = (Ok p, s') →
  match p with
  | None => is_set presented = false ∨ ∃ mid, steps auth_step (auth_tables s) mid ∧
      match List.find (λ o, op_hash o =s? sha256Hex digest (default "" presented)) (ad_operators mid) with
      | Some c => is_set (op_revoked_at c) = true ∨ isExpired (op_expires_at c) nowIso = true
      | None => True
      end
  | Some p => ∃ token mid, presented = Some token ∧ steps auth_step (auth_tables s) mid ∧ vouched token rootSecret nowIso mid p
  end.
Proof.
unfold resolveOperator. destruct (is_set presented) eqn:Hset; cbn [negb]; [|intros [= <- <-]; by left].
destruct presented as [token|]; [|done]. cbn [default from_option]. change (id token) with token.
intros (c & s1 & Hc & Hs)%M_bind_inv. apply (runs_ok _ _ _ _ _ _ _ (operator_runs _)) in Hc as (mid & dt & Hm & Hc).
injection Hc as Hf _. set (root := if is_set rootSecret && _ then _ else _) in Hs.
assert (∀ p, root = Some p → vouched token rootSecret nowIso mid p) as Hroot.
{ intros q. unfold root. destruct (is_set rootSecret && _) eqn:E; [|done]. bool_hyps. intros [= <-]. by constructor. }
assert (match List.find (λ o, op_hash o =s? sha256Hex digest token) (ad_operators mid) with
        | Some c => is_set (op_revoked_at c) = true ∨ isExpired (op_expires_at c) nowIso = true | None => True end →
  match root with
  | None => true = false ∨ ∃ mid, steps auth_step (auth_tables s) mid ∧
      match List.find (λ o, op_hash o =s? sha256Hex digest token) (ad_operators mid) with
      | Some c => is_set (op_revoked_at c) = true ∨ isExpired (op_expires_at c) nowIso = true | None => True end
  | Some p => ∃ t mid, Some token = Some t ∧ steps auth_step (auth_tables s) mid ∧ vouched t rootSecret nowIso mid p
  end) as Hno.
{ intros Hn. destruct root as [q|] eqn:Er; [exists token, mid; auto|right; exists mid; auto]. }
destruct c as [c|]; rewrite Hf in Hno.
- apply find_Some_elem in Hf as [Hin Hh]. bool_hyps. destruct (is_set (op_revoked_at c)) eqn:E1; cbn in Hs; [injection Hs as <- <-; apply Hno; by left|].
  destruct (isExpired (op_expires_at c) nowIso) eqn:E2; injection Hs as <- <-; [apply Hno; by right|].
  exists token, mid. split_and!; [done..|]. by constructor.
- injection Hs as <- <-. by apply Hno.
Qed.

(** C10. The admin gate admits only whom it can name for what they were granted.  A request passes only
    with a bearer that is the configured root secret or the token of an operator credential neither
    revoked nor past its expiry at that moment; only to a method and path the requirement table lists;
    only with the scope the table asks, a scope of the catalogue that the credential's stored grant
    contains; and the routes that mint, list and revoke credentials pass for the root secret alone. *)
Theorem admin_gate_is_sound method path authorization rootSecret now s p s' :
  adminGate digest method path authorization rootSecret now s = (Ok (AdmittedAs p), s') →
  ∃ token mid req,
    bearerFrom authorization = Some token ∧ steps auth_step (auth_tables s) mid ∧
    vouched token rootSecret (Date.to_iso now) mid p ∧
    adminRequirement method path = Some req ∧
    match req with
    | NeedsRoot => p = root_principal
    | NeedsScope scope => scope ∈ pr_scopes p ∧ scope ∈ ALL_SCOPES
    | NeedsAuthentication => True
    end ∧
    (starts_with OPERATORS_PATH path = true → p = root_principal).
Proof.
unfold adminGate, iso. destruct (Date.valid now); [|done]. intros (x & s1 & [= <- <-] & Hs)%M_bind_inv.
apply M_bind_inv in Hs as (q & s2 & Hq & Hs). apply resolve_operator_inv in Hq. injection Hs as Hs <-.
destruct q as [q|]; [|done]. destruct Hq as (token & mid & Hb & Hm & Hv). unfold authorize in Hs.
destruct (adminRequirement method path) as [req|] eqn:Hreq; [|done].
assert (pr_kind q = PRoot → q = root_principal) as Hroot by (by destruct Hv).
assert (pr_scopes q ⊆ ALL_SCOPES) as Hsub.
{ destruct Hv as [|c]; [done|]. cbn. intros sc [_ Hk]%elem_of_jfilter. by apply mem_spec. }
assert (q = p ∧ match req with NeedsRoot => p = root_principal | NeedsScope sc => sc ∈ pr_scopes p ∧ sc ∈ ALL_SCOPES | NeedsAuthentication => True end) as [-> Hr].
{ destruct req as [sc| |].
  - destruct (hasScope q sc) eqn:E; [|done]. injection Hs as <-. apply mem_spec in E. auto.
  - by injection Hs as <-.
  - destruct (bool_decide _) eqn:E; [|done]. apply bool_decide_eq_true in E. injection Hs as <-. auto. }
exists token, mid, req. split_and!; [done..|]. intros Hp. pose proof (operators_need_root _ _ _ Hp Hreq) as ->. done.
Qed.

(** ** The life of a credential *)
Lemma mint_inv actor body now s id name scopes exp token s' :
  NoDup (op_hash <$> ad_operators (auth_tables s)) →
  mintOperator digest random recordAdminAction actor body now s = (Ok (Minted id name scopes exp token), s') →
  js_field body "name" = JStr name ∧ test NAME_RE name = true ∧ canonicaliseScopes (js_field body "scopes") = ScopesOk scopes ∧
  ∃ dt, operator_row (sha256Hex digest token) (auth_tables s')
    (mkOperator id name (sha256Hex digest token) (formatScopes scopes) dt actor None exp None None) ∧
    steps auth_step (auth_tables s) (auth_tables s').
Proof.
intros Hn. unfold mintOperator. destruct (js_field body "name") as [| | | |n| |]; try done. destruct (test NAME_RE n) eqn:Hname; [|done]. cbn [negb].
destruct (canonicaliseScopes _) as [sc| |] eqn:Hsc; try done. destruct (expiry_days _) as [days|]; [|done].
intros (e & s1 & He & Hs)%M_bind_inv. apply M_bind_inv in Hs as (tb & s2 & Ht & Hs). apply M_bind_inv in Hs as (ib & s3 & Hi & Hs).
rewrite attempt_bind in Hs. destruct (createOperatorCredential _ _ _ _ _ _ s3) as [[[]|err] s4] eqn:Hc.
2:{ by destruct (constraint_failed err). }
apply M_bind_inv in Hs as ([] & s5 & Ha & Hs). injection Hs as <- <- <- <- <- <-.
assert (s1 = s) as -> by (unfold lift in He; by injection He).
split_and!; [done..|]. apply (runs_ok _ _ _ _ _ _ _ (mint_runs _ _ _ _ _ _)) in Hc as (mid & dt & Hm & Hc). exists dt.
assert (steps auth_step (auth_tables s4) (auth_tables s5)) as H45 by (eapply reached_by; [|exact Ha]; intros; apply audit_reached).
assert (steps auth_step (auth_tables s) mid) as H0m.
{ etrans; [|exact Hm]. etrans; eapply reached_by; [|exact Ht| |exact Hi]; intros; apply random_reached. }
pose proof (step_mint dt (newId "opc" ib) n (sha256Hex digest (randomToken tb)) (formatScopes sc) actor e mid) as Hstep.
unfold exec in Hstep. rewrite Hc in Hstep. cbn [snd] in Hstep.
split; [|etrans; [exact H0m|]; eapply steps_next; [exact Hstep|exact H45]].
eapply operator_row_steps; [exact H45|]. unfold d1_createOperatorCredential in Hc. destruct (existsb _ _); [done|].
destruct (existsb _ _) eqn:Hh in Hc; [done|]. destruct (existsb _ _) in Hc; [done|]. injection Hc as Hc. rewrite <- Hc.
unfold operator_row. cbn [ad_operators with_operators].
apply (kept_row_snoc op_hash operator_kept _ (mkOperator _ _ _ _ _ _ _ _ _ _)).
- eapply evolves_NoDup; [|exact Hn]. by apply ev_hashes, auth_steps_evolve.
- eapply (free_key op_hash); [exact Hh|]. cbn. intros y ->. apply String.eqb_refl.
Qed.

(** After a revocation of its id the row is dead, whoever revoked it. *)
Lemma revoked_operator h d row by_ now :
  operator_row h d row → revocations_dated d → Str.truthy now = true →
  ∃ row' x, operator_row h (exec (d1_revokeOperatorCredential (op_id row) by_ now) d) row' ∧
    op_revoked_at row' = Some x ∧ Str.truthy x = true.
Proof.
intros (Hn & row' & Hin & <- & Hk) Hd Hnow.
assert (evolves op_hash operator_kept (ad_operators d) (ad_operators (exec (d1_revokeOperatorCredential (op_id row) by_ now) d))) as He
  by (apply ev_hashes, auth_step_evolves; by constructor).
destruct (op_revoked_at row') as [x|] eqn:E.
- exists row', x. split_and!; [|done|by eapply Hd]. eapply kept_row_evolves; [apply _|exact He|by apply kept_row_here; [apply _|..]].
- exists (op_revoke by_ now row'), now. split_and!; [|done|done].
  apply (kept_row_update _ _ _ _ (op_revoke by_ now) row'); try done; try apply _.
  destruct Hk as (-> & _). by rewrite String.eqb_refl, E.
Qed.

Lemma row_vouches token rootSecret nowIso d row p :
  operator_row (sha256Hex digest token) d row → vouched token rootSecret nowIso d p →
  p = root_principal ∨
  (pr_actor p = operatorActor (op_name row) ∧ pr_operator p = Some (op_name row) ∧ pr_credential_id p = Some (op_id row) ∧
   pr_scopes p = parseScopes (op_scopes row) ∧ isExpired (op_expires_at row) nowIso = false ∧
   (∀ x, op_revoked_at row = Some x → Str.truthy x = false)).
Proof.
intros Hrow [_ _|c Hin Hh Hr Hx]; [by left|right]. pose proof (kept_row_found _ _ _ _ _ _ Hrow Hin Hh) as Hk.
pose proof Hk as (Hid & Hname & Hsc & _ & He & _). cbn. split_and!; [congruence..|].
intros x Hx'. destruct Hk as (_ & _ & _ & _ & _ & Hs). unfold op_revocation in Hs. rewrite Hx' in Hs. specialize (Hs _ eq_refl).
destruct (op_revoked_at c) as [y|]; [|done]. cbn in Hs, Hr. injection Hs as -> _. done.
Qed.

(** A minted token acts as exactly the operator and scopes of its mint, until it expires or is
    revoked.  Whatever else runs, the token resolves (the root secret apart) to the name and the scopes
    that were asked for, and never at or after its expiry; and once its id has been revoked, no request
    made with it is ever again taken for that operator. *)
Theorem credential_acts_until_revoked actor body now s0 id name scopes exp token s1 rootSecret :
  NoDup (op_hash <$> ad_operators (auth_tables s0)) → revocations_dated (auth_tables s0) →
  mintOperator digest random recordAdminAction actor body now s0 = (Ok (Minted id name scopes exp token), s1) →
  (∀ s2 nowIso p s3, steps auth_step (auth_tables s1) (auth_tables s2) →
     resolveOperator digest (Some token) rootSecret nowIso s2 = (Ok (Some p), s3) →
     p = root_principal ∨
     (p = mkPrincipal PCredential (operatorActor name) (Some name) (Some id) scopes ∧ isExpired exp nowIso = false)) ∧
  (∀ s2 by_ at_ b s3 s4 nowIso p s5, steps auth_step (auth_tables s1) (auth_tables s2) → Str.truthy at_ = true →
     revokeOperator recordAdminAction by_ id at_ s2 = (Ok b, s3) → steps auth_step (auth_tables s3) (auth_tables s4) →
     resolveOperator digest (Some token) rootSecret nowIso s4 = (Ok p, s5) → p = None ∨ p = Some root_principal).
Proof.
intros Hn Hdated Hmint. destruct (mint_inv _ _ _ _ _ _ _ _ _ _ Hn Hmint) as (_ & _ & Hsc & dt & Hrow & H01).
pose proof (canonical_roundtrip _ _ Hsc) as Hround. split.
- intros s2 nowIso p s3 H12 Hr. apply resolve_operator_inv in Hr as (t & mid & [= <-] & Hm & Hv).
  apply (operator_row_steps _ _ _ _ H12), (operator_row_steps _ _ _ _ Hm) in Hrow.
  destruct (row_vouches _ _ _ _ _ _ Hrow Hv) as [->|(Ha & Ho & Hi & Hp & Hx & _)]; [by left|right]. split; [|done].
  destruct Hv as [|c]; [done|]. unfold credential_principal in *. cbn in *. f_equal; [congruence..|]. by rewrite Hp.
- intros s2 by_ at_ b s3 s4 nowIso p s5 H12 Hat Hrev H34 Hr. destruct p as [p|]; [right|by left].
  apply resolve_operator_inv in Hr as (t & mid & [= <-] & Hm & Hv).
  unfold revokeOperator in Hrev. apply M_bind_inv in Hrev as (bb & s3' & Hrev & Haud). apply M_bind_inv in Haud as ([] & s6 & Haud & Hend). injection Hend as _ <-.
  apply (runs_ok _ _ _ _ _ _ _ (revoke_operator_runs _ _ _)) in Hrev as (mid2 & dt2 & Hm2 & Hrev).
  apply (operator_row_steps _ _ _ _ H12), (operator_row_steps _ _ _ _ Hm2) in Hrow.
  assert (revocations_dated mid2) as Hd2 by (eapply dated_steps; [|exact Hdated]; repeat (etrans; [eassumption|]); done).
  destruct (revoked_operator _ _ _ by_ at_ Hrow Hd2 Hat) as (row & x & Hrow' & Hx & Ht). cbn [op_id] in Hrow'.
  unfold exec in Hrow'. rewrite Hrev in Hrow'. cbn [snd] in Hrow'.
  assert (steps auth_step (auth_tables s3') (auth_tables s6)) as Ha by (eapply reached_by; [|exact Haud]; intros; apply audit_reached).
  apply (operator_row_steps _ _ _ _ Ha), (operator_row_steps _ _ _ _ H34), (operator_row_steps _ _ _ _ Hm) in Hrow'.
  destruct (row_vouches _ _ _ _ _ _ Hrow' Hv) as [->|(_ & _ & _ & _ & _ & Hdead)]; [done|]. by rewrite (Hdead x Hx) in Ht.
Qed.
End gate_theorems.

(** ** Attribution *)
Section attribution.
Implicit Types (d : auth_db) (l : list OperatorCredential).
Definition live_rows l : list OperatorCredential := jfilter (λ o, is_null (op_revoked_at o)) l.
Definition live_names_unique d : Prop := NoDup (op_name <$> live_rows (ad_operators d)).

Lemma live_revoke_sublist sel by_ now l :
  op_name <$> live_rows (update_where sel (op_revoke by_ now) l) `sublist_of` op_name <$> live_rows l.
Proof.
unfold live_rows, jfilter, update_where. induction l as [|o l IH]; [constructor|]. cbn. destruct (sel o); cbn.
- destruct (is_null _); [by constructor|done].
- destruct (is_null (op_revoked_at o)); [by constructor|done].
Qed.
Lemma live_touch sel now l :
  op_name <$> live_rows (update_where sel (λ o, mkOperator (op_id o) (op_name o) (op_hash o) (op_scopes o) (op_created_at o)
    (op_created_by o) (Some now) (op_expires_at o) (op_revoked_at o) (op_revoked_by o)) l) = op_name <$> live_rows l.
Proof.
unfold live_rows, jfilter, update_where. induction l as [|o l IH]; [done|]. cbn. destruct (sel o); cbn; (destruct (is_null (op_revoked_at o)); [cbn; by f_equal|done]).
Qed.

(** An actor of the audit trail names one credential.  Starting from a table whose live names are
    distinct, as the empty one is, whatever mints, revocations and uses happen, two credentials that are
    live under one name are the same credential: the operator a request is recorded under is never
    ambiguous. *)
Theorem live_name_is_one_credential d d' o1 o2 :
  live_names_unique d → steps auth_step d d' →
  o1 ∈ ad_operators d' → o2 ∈ ad_operators d' → op_revoked_at o1 = None → op_revoked_at o2 = None →
  operatorActor (op_name o1) = operatorActor (op_name o2) → o1 = o2.
Proof.
intros Hd Hs H1 H2 Hr1 Hr2 Hname.
assert (live_names_unique d') as Hd'.
{ revert Hs. apply steps_invariant; [|done]. clear. intros d d' Hd Hs.
  destruct Hs; unfold exec, d1_createAccount, d1_linkIdentity, d1_createLoginToken, d1_createOAuthState, d1_createSession,
    d1_recordAupAcceptance, d1_createOperatorCredential; repeat case_match; try exact Hd; unfold live_names_unique in *; cbn.
  - unfold live_rows. rewrite jfilter_app, fmap_app. cbn. apply NoDup_app. split_and!; [done| |apply NoDup_singleton].
    intros y (o & -> & [Ho Hl]%elem_of_jfilter)%list_elem_of_fmap Hy%list_elem_of_singleton.
    match goal with H : existsb (live_name n) _ = false |- _ => rewrite existsb_false_iff in H; specialize (H o Ho); unfold live_name in H;
      by rewrite Hy, String.eqb_refl, Hl in H end.
  - eapply sublist_NoDup; [exact Hd|]. apply live_revoke_sublist.
  - by rewrite live_touch. }
apply (unique_eq op_name (live_rows (ad_operators d'))); [done|by apply elem_of_jfilter; rewrite Hr1|by apply elem_of_jfilter; rewrite Hr2|].
unfold operatorActor in Hname. by apply (inj (String.append "operator:")) in Hname.
Qed.
End attribution.
