(* ===== verification/TokenCrypto.v ===== *)
(** * The studio token at rest (src/token-crypto.ts)

    A tenant's API token is kept encrypted: base64 of a 12-byte nonce and the AES-GCM box of the text,
    under one of up to two installed keys.  AES-GCM itself is a parameter: [seal key iv text] and
    [open key iv box], which answers nothing under another key or on a changed box. *)

From S2P Require Export Text.
From Stdlib Require Import Ascii.
Open Scope string_scope.
Open Scope list_scope.
Open Scope Z_scope.
Open Scope plane_scope.

(** ** [atob]: ASCII whitespace dropped, padding optional *)
Definition base64_value (c : ascii) : option N :=
  let n := Str.code c in
  if ((65 <=? n) && (n <=? 90))%N then Some (n - 65)%N
  else if ((97 <=? n) && (n <=? 122))%N then Some (n - 71)%N
  else if ((48 <=? n) && (n <=? 57))%N then Some (n + 4)%N
  else if (n =? 43)%N then Some 62%N
  else if (n =? 47)%N then Some 63%N
  else None.

Definition byte_of (n : N) : ascii := ascii_of_N (n mod 256).
Fixpoint base64_bytes (l : list N) : option (list ascii) :=
  match l with
  | [] => Some []
  | [_] => None
  | [a; b] => Some [byte_of (a * 4 + b / 16)]
  | [a; b; c] => Some [byte_of (a * 4 + b / 16); byte_of (b * 16 + c / 4)]
  | a :: b :: c :: d :: l =>
      rest ← base64_bytes l;
      Some (byte_of (a * 4 + b / 16) :: byte_of (b * 16 + c / 4) :: byte_of (c * 64 + d) :: rest)
  end%N.

Definition ascii_space (c : ascii) : bool := let n := Str.code c in ((n =? 9) || (n =? 10) || (n =? 12) || (n =? 13) || (n =? 32))%N.
Definition drop_padding (l : list ascii) : list ascii :=
  if (length l mod 4 =? 0)%nat then
    match rev l with
    | p :: q :: r => if Ascii.eqb p "=" then if Ascii.eqb q "=" then rev r else rev (q :: r) else l
    | _ => l
    end
  else l.
Definition atob (s : string) : result string (list ascii) :=
  of_option "InvalidCharacterError"
    (values ← mapM base64_value (drop_padding (jfilter (λ c, negb (ascii_space c)) (Str.chars s))); base64_bytes values).

(** ** The ring *)
Definition IV_BYTES : nat := 12.
Inductive KekSlot := SlotPrimary | SlotNext.
#[export] Instance KekSlot_eq_dec : EqDecision KekSlot.
Proof. solve_decision. Defined.
Record KekRing := mkRing { kr_primary : string; kr_next : option string; kr_encrypt : KekSlot }.

Definition kekRing (primary : string) (next encryptSlot : option string) : KekRing :=
  let cleanedNext := match next with Some n => let t := Str.trim n in if Str.truthy t then Some t else None | None => None end in
  let slot := match encryptSlot with Some s => if Str.trim s =s? "next" then SlotNext else SlotPrimary | None => SlotPrimary end in
  mkRing (Str.trim primary) cleanedNext slot.
Definition rotationWindowOpen (ring : KekRing) : bool := match kr_next ring with Some _ => true | None => false end.

Definition KekRingError : string := "encrypt_slot_unavailable".
Definition encryptionKey (ring : KekRing) : result string string :=
  match kr_encrypt ring with
  | SlotPrimary => Ok (kr_primary ring)
  | SlotNext => match kr_next ring with Some n => if Str.truthy n then Ok n else Err KekRingError | None => Err KekRingError end
  end.

(** The key in a slot, when one is installed there. *)
Definition slot_key (ring : KekRing) (slot : KekSlot) : option string :=
  match slot with
  | SlotPrimary => if Str.truthy (kr_primary ring) then Some (kr_primary ring) else None
  | SlotNext => match kr_next ring with Some n => if Str.truthy n then Some n else None | None => None end
  end.
Definition slot_order (ring : KekRing) : list KekSlot :=
  match kr_encrypt ring with SlotNext => [SlotNext; SlotPrimary] | SlotPrimary => [SlotPrimary; SlotNext] end.

Section crypto.
Variable seal : list ascii → list ascii → string → list ascii.
Variable open : list ascii → list ascii → list ascii → option string.

Definition importKek (kekBase64 : string) : result string (list ascii) :=
  raw ← atob kekBase64;
  if (length raw =? 32)%nat then Ok raw else Err "a studio token KEK must be a base64-encoded 32-byte key".

(** [iv] is what [crypto.getRandomValues] filled in. *)
Definition encryptUnder (iv : list ascii) (kekBase64 plaintext : string) : result string string :=
  key ← importKek kekBase64;
  Ok (btoa (Str.of_chars (iv ++ seal key iv plaintext))).
Definition decryptUnder (kekBase64 blob : string) : result string string :=
  key ← importKek kekBase64;
  raw ← atob blob;
  of_option "OperationError" (open key (firstn IV_BYTES raw) (skipn IV_BYTES raw)).

Definition encryptStudioToken (ring : KekRing) (iv : list ascii) (plaintext : string) : result string string :=
  key ← encryptionKey ring; encryptUnder iv key plaintext.

Fixpoint try_slots (ring : KekRing) (order : list KekSlot) (firstError : option string) (blob : string) : result string (KekSlot * string) :=
  match order with
  | [] => Err (default "no studio token KEK is installed" firstError)
  | slot :: order =>
      match slot_key ring slot with
      | None => try_slots ring order firstError blob
      | Some key =>
          match decryptUnder key blob with
          | Ok plaintext => Ok (slot, plaintext)
          | Err e => try_slots ring order (match firstError with Some f => Some f | None => Some e end) blob
          end
      end
  end.
Definition decryptStudioTokenWithSlot (ring : KekRing) (blob : string) : result string (KekSlot * string) :=
  try_slots ring (slot_order ring) None blob.
Definition decryptStudioToken (ring : KekRing) (blob : string) : result string string :=
  snd <$> decryptStudioTokenWithSlot ring blob.
End crypto.

(** ** [atob] undoes [btoa] *)
Section base64.
Implicit Types (l : list ascii) (n : N).

Lemma base64_value_char n : (n < 64)%N → base64_value (base64_char n) = Some n ∧ ascii_space (base64_char n) = false ∧ base64_char n ≠ "="%char.
Proof.
intros Hn. assert (n ∈ (N.of_nat <$> seq 0 64)) as Hs.
{ apply list_elem_of_fmap. exists (N.to_nat n). split; [lia|]. apply elem_of_seq. lia. }
assert (Forall (λ n, base64_value (base64_char n) = Some n ∧ ascii_space (base64_char n) = false ∧ base64_char n ≠ "="%char) (N.of_nat <$> seq 0 64)) as H.
{ cbn. repeat constructor; vm_compute; congruence. }
rewrite Forall_forall in H. by apply H.
Qed.

(** The six-bit digits of a list of bytes, without the padding. *)
Fixpoint digits64 l : list N :=
  match l with
  | [] => []
  | [a] => let n := (Str.code a * 16)%N in [(n / 64)%N; (n mod 64)%N]
  | [a; b] => let n := ((Str.code a * 256 + Str.code b) * 4)%N in [(n / 4096)%N; (n / 64 mod 64)%N; (n mod 64)%N]
  | a :: b :: c :: l =>
      let n := ((Str.code a * 256 + Str.code b) * 256 + Str.code c)%N in
      (n / 262144)%N :: (n / 4096 mod 64)%N :: (n / 64 mod 64)%N :: (n mod 64)%N :: digits64 l
  end.
Definition padding l : list ascii :=
  match (length l mod 3)%nat with 1%nat => ["="%char; "="%char] | 2%nat => ["="%char] | _ => [] end.

Lemma code_byte (c : ascii) : (Str.code c < 256)%N.
Proof. destruct c as [[] [] [] [] [] [] [] []]; vm_compute; done. Qed.
Lemma byte_of_code (c : ascii) n : (n mod 256 = Str.code c)%N → byte_of n = c.
Proof. intros H. unfold byte_of. rewrite H. apply ascii_N_embedding. Qed.

(** Induction three bytes at a time. *)
Lemma triples (P : list ascii → Prop) :
  P [] → (∀ a, P [a]) → (∀ a b, P [a; b]) → (∀ a b c l, P l → P (a :: b :: c :: l)) → ∀ l, P l.
Proof.
intros H0 H1 H2 H3. assert (∀ l, P l ∧ (∀ a, P (a :: l)) ∧ (∀ a b, P (a :: b :: l))) as H; [|apply H].
induction l as [|c l (IH1 & IH2 & IH3)]; [done|]. split_and!; [apply IH2|intros; apply IH3|intros; by apply H3].
Qed.

Lemma base64_digits l : base64 l = (base64_char <$> digits64 l) ++ padding l.
Proof.
induction l as [|a|a b|a b c l IH] using triples; [done..|]. cbn [base64 digits64 fmap list_fmap app]. rewrite IH.
unfold padding. replace (length (a :: b :: c :: l) mod 3)%nat with (length l mod 3)%nat; [done|].
change (length (a :: b :: c :: l)) with (3 + length l)%nat. replace (3 + length l)%nat with (length l + 1 * 3)%nat by lia.
by rewrite Nat.Div0.mod_add.
Qed.

Ltac byte_goal := apply byte_of_code; repeat match goal with c : ascii |- _ => pose proof (code_byte c); generalize dependent (Str.code c); clear c; intros end;
  zify; Z.to_euclidean_division_equations; lia.

Lemma digits64_small l : Forall (λ n, (n < 64)%N) (digits64 l).
Proof.
induction l as [|a|a b|a b c l IH] using triples; cbn [digits64]; cbv zeta; repeat constructor; try done; try (apply N.mod_lt; done);
  apply N.Div0.div_lt_upper_bound; repeat match goal with c : ascii |- _ => pose proof (code_byte c); generalize dependent (Str.code c); clear c; intros end; lia.
Qed.
Lemma base64_bytes_digits l : base64_bytes (digits64 l) = Some l.
Proof.
induction l as [|a|a b|a b c l IH] using triples; [done| | |]; cbn [digits64 base64_bytes]; cbv zeta.
- do 2 f_equal. byte_goal.
- do 2 f_equal; [byte_goal|f_equal; byte_goal].
- rewrite IH. cbn [mbind option_bind]. do 2 f_equal; [byte_goal|f_equal; [byte_goal|f_equal; byte_goal]].
Qed.

Lemma base64_length l : (length (base64 l) mod 4 = 0)%nat.
Proof.
induction l as [|a|a b|a b c l IH] using triples; [done..|]. cbn [base64 length].
replace (S (S (S (S (length (base64 l)))))) with (length (base64 l) + 1 * 4)%nat by lia. by rewrite Nat.Div0.mod_add.
Qed.
Lemma digits_chars ds : Forall (λ n, (n < 64)%N) ds →
  mapM base64_value (base64_char <$> ds) = Some ds ∧ jfilter (λ c, negb (ascii_space c)) (base64_char <$> ds) = base64_char <$> ds ∧
  Forall (λ c, c ≠ "="%char) (base64_char <$> ds).
Proof.
induction 1 as [|n ds Hn _ (IH1 & IH2 & IH3)]; [done|]. destruct (base64_value_char n Hn) as (Hv & Hs & He).
rewrite fmap_cons. cbn [mapM]. unfold jfilter in *. cbn [List.filter]. rewrite Hv, Hs, IH1. cbn. rewrite IH2. split_and!; [done..|by constructor].
Qed.

Lemma drop_padding_digits cs l : Forall (λ c, c ≠ "="%char) cs → (length (cs ++ padding l) mod 4 = 0)%nat → (l = [] ∨ 2 ≤ length cs)%nat → (l = [] → cs = []) →
  drop_padding (cs ++ padding l) = cs.
Proof.
intros Hcs Hlen H2 H0. unfold drop_padding. rewrite Hlen. cbn [Nat.eqb]. rewrite rev_app_distr.
assert (∀ c, c ≠ "="%char → Ascii.eqb c "=" = false) as Hne by (intros c Hc; by apply Ascii.eqb_neq).
assert (Forall (λ c, c ≠ "="%char) (rev cs)) as Hr by (by apply Forall_rev).
unfold padding. destruct (length l mod 3)%nat as [|[|[|n]]] eqn:E; cbn [rev app]; rewrite ?app_nil_r.
- destruct (rev cs) as [|p [|q r]] eqn:Er; [done..|]. apply Forall_cons in Hr as [Hp _]. by rewrite (Hne p Hp).
- by rewrite Ascii.eqb_refl, rev_involutive.
- destruct (rev cs) as [|q r] eqn:Er; [destruct H2 as [->|H2]; [done|]; apply (f_equal length) in Er; rewrite length_rev in Er; cbn in Er; lia|].
  apply Forall_cons in Hr as [Hq _]. rewrite Ascii.eqb_refl, (Hne q Hq). transitivity (rev (q :: r)); [done|]. by rewrite <- Er, rev_involutive.
- destruct (rev cs) as [|p [|q r]] eqn:Er; [done..|]. apply Forall_cons in Hr as [Hp _]. by rewrite (Hne p Hp).
Qed.

Lemma atob_btoa s : atob (btoa s) = Ok (Str.chars s).
Proof.
unfold atob, btoa. rewrite chars_of_chars, base64_digits. set (l := Str.chars s).
destruct (digits_chars (digits64 l) (digits64_small l)) as (Hm & Hf & He).
rewrite jfilter_app, Hf. assert (jfilter (λ c, negb (ascii_space c)) (padding l) = padding l) as ->.
{ unfold padding. by destruct (length l mod 3)%nat as [|[|[|n]]]. }
rewrite drop_padding_digits; [by rewrite Hm; cbn [mbind option_bind]; rewrite base64_bytes_digits|done|..].
- pose proof (base64_length l) as H. by rewrite base64_digits in H.
- destruct l as [|a [|b [|c l']]]; cbn; rewrite ?length_fmap; auto; right; cbn; lia.
- by intros ->.
Qed.
End base64.

(** ** A stored token is readable throughout a rotation *)
Section ring.
Context (seal : list ascii → list ascii → string → list ascii) (open : list ascii → list ascii → list ascii → option string).
(** AES-GCM: a box opens to its text under the key and nonce that sealed it. *)
Hypothesis open_seal : ∀ key iv text, open key iv (seal key iv text) = Some text.

Lemma decrypt_encrypt iv kek text blob : length iv = IV_BYTES →
  encryptUnder seal iv kek text = Ok blob → decryptUnder open kek blob = Ok text.
Proof.
intros Hiv. unfold encryptUnder, decryptUnder. destruct (importKek kek) as [key|e]; cbn; [|done]. intros [= <-].
rewrite atob_btoa, chars_of_chars. unfold IV_BYTES in *. cbn [mbind result_bind]. rewrite firstn_app, skipn_app, Hiv, Nat.sub_diag, firstn_all2, skipn_all2 by lia.
rewrite take_0, drop_0, app_nil_r. cbn [app]. by rewrite open_seal.
Qed.

Lemma encrypt_slot ring iv text blob : encryptStudioToken seal ring iv text = Ok blob → Str.truthy (kr_primary ring) = true →
  ∃ key, slot_key ring (kr_encrypt ring) = Some key ∧ encryptUnder seal iv key text = Ok blob.
Proof.
unfold encryptStudioToken, encryptionKey, slot_key. intros H Hp. destruct (kr_encrypt ring); [rewrite Hp; eauto|].
destruct (kr_next ring) as [n|]; [|done]. destruct (Str.truthy n); [eauto|done].
Qed.

Lemma own_slot_opens ring iv text blob : Str.truthy (kr_primary ring) = true → length iv = IV_BYTES →
  encryptStudioToken seal ring iv text = Ok blob → decryptStudioTokenWithSlot open ring blob = Ok (kr_encrypt ring, text).
Proof.
intros Hp Hiv He. destruct (encrypt_slot _ _ _ _ He Hp) as (key & Hk & Hu). pose proof (decrypt_encrypt _ _ _ _ Hiv Hu) as Hd.
unfold decryptStudioTokenWithSlot, slot_order. destruct (kr_encrypt ring); cbn [try_slots]; by rewrite Hk, Hd.
Qed.

(** What an installed and well-formed write key encrypts is never empty. *)
Lemma encrypt_total ring key raw iv text : Str.truthy (kr_primary ring) = true → slot_key ring (kr_encrypt ring) = Some key → importKek key = Ok raw →
  length iv = IV_BYTES → ∃ blob, encryptStudioToken seal ring iv text = Ok blob ∧ Str.truthy blob = true.
Proof.
intros Hp Hk Hi Hiv. unfold encryptStudioToken. assert (encryptionKey ring = Ok key) as ->.
{ unfold slot_key, encryptionKey in *. destruct (kr_encrypt ring); [rewrite Hp in Hk; by injection Hk as ->|].
  destruct (kr_next ring) as [n|]; [|done]. destruct (Str.truthy n); [by injection Hk as ->|done]. }
cbn. unfold encryptUnder. rewrite Hi. cbn. eexists. split; [done|].
destruct iv as [|a [|b [|c iv]]]; try done.
Qed.

(** A token once written stays readable through a rotation, and is never written under a key the
    ring does not name.  What is encrypted under a ring decrypts under it, from the slot it was written
    to; it also decrypts after the write slot is flipped or the two keys change places, whenever the
    other installed key does not happen to open the same box; and a ring whose write slot holds no key
    refuses to encrypt at all. *)
Theorem studio_token_roundtrip ring iv text blob :
  Str.truthy (kr_primary ring) = true → length iv = 12%nat →
  (encryptStudioToken seal ring iv text = Ok blob →
     decryptStudioTokenWithSlot open ring blob = Ok (kr_encrypt ring, text) ∧
     ∀ ring' slot other, slot_key ring' slot = slot_key ring (kr_encrypt ring) → slot ≠ other →
       match slot_key ring' other with Some k => is_ok (decryptUnder open k blob) = false | None => True end →
       decryptStudioTokenWithSlot open ring' blob = Ok (slot, text)) ∧
  (slot_key ring (kr_encrypt ring) = None → ∃ e, encryptStudioToken seal ring iv text = Err e).
Proof.
intros Hp Hiv. split.
- intros He. split; [by eapply own_slot_opens|]. destruct (encrypt_slot _ _ _ _ He Hp) as (key & Hk & Hu).
  pose proof (decrypt_encrypt _ _ _ _ Hiv Hu) as Hd.
  { intros ring' slot other Hs Hne Ho. rewrite Hk in Hs. unfold decryptStudioTokenWithSlot.
    assert (slot_order ring' = [slot; other] ∨ slot_order ring' = [other; slot]) as [-> | ->].
    { unfold slot_order. destruct (kr_encrypt ring'), slot, other; auto; done. }
    * cbn [try_slots]. by rewrite Hs, Hd.
    * cbn [try_slots]. destruct (slot_key ring' other) as [k|]; [|by rewrite Hs, Hd].
      destruct (decryptUnder open k blob); [done|]. by rewrite Hs, Hd. }
- unfold slot_key, encryptStudioToken, encryptionKey. destruct (kr_encrypt ring); [by rewrite Hp|].
  destruct (kr_next ring) as [n|]; [destruct (Str.truthy n); [done|]|]; by eexists.
Qed.
End ring.
