(* ===== verification/KekRotation.v ===== *)
(** * Rotating the key of the studio tokens (src/kek-rotation.ts)

    The census that says whether a key may be dropped and the sweep that re-encrypts every stored token
    under the write slot, over the statements of TenantStore.v.  The store runs anybody's statements
    between two of the sweep's. *)

From S2P Require Export TokenCrypto TenantStore.
From Stdlib Require Import Ascii.
Open Scope string_scope.
Open Scope list_scope.
Open Scope Z_scope.
Open Scope plane_scope.

Class TokenStore (W : Type) := {
  token_plane : W → plane_db;
  listTokens : M W string (list EncryptedToken);
  casToken : string → string → string → M W string bool;
}.
Class TokenStoreOk (W : Type) `{TokenStore W} (others : plane_db → plane_db → Prop) : Prop := {
  list_tokens_runs : runs_as others token_plane listTokens (λ _, gets listEncryptedStudioTokens);
  cas_token_runs i old new : runs_as others token_plane (casToken i old new) (λ _, setTenantStudioTokenIfUnchanged i old new);
}.
#[export] Instance d1_token_store : TokenStore plane_db := {
  token_plane := id;
  listTokens := gets listEncryptedStudioTokens;
  casToken := setTenantStudioTokenIfUnchanged;
}.
#[export] Instance d1_tokens_ok others : Reflexive others → TokenStoreOk plane_db others.
Proof. intros Hr. split; intros; match goal with |- runs_as _ _ _ ?d => exact (runs_as_quiet others d Hr) end. Qed.

Record KekCensus := mkCensus {
  kc_window_open : bool;
  kc_encrypt_slot : KekSlot;
  kc_total : nat;
  kc_on_target : nat;
  kc_needs_rotation : nat;
  kc_unreadable : list string;
  kc_safe_to_promote : bool;
}.
Record SweepResult := mkSweep {
  sw_examined : nat;
  sw_skipped_on_target : nat;
  sw_rotated : nat;
  sw_raced : nat;
  sw_unreadable : list string;
  sw_complete : bool;
}.

Section rotation.
Variable seal : list ascii → list ascii → string → list ascii.
Variable open : list ascii → list ascii → list ascii → option string.
Variable ring : KekRing.

(** Where a row stands: [None] when no installed key opens it. *)
Definition slot_of (row : EncryptedToken) : option (KekSlot * string) :=
  match decryptStudioTokenWithSlot open ring (et_enc row) with Ok r => Some r | Err _ => None end.
Definition on_target (row : EncryptedToken) : bool :=
  match slot_of row with Some (slot, _) => bool_decide (slot = kr_encrypt ring) | None => false end.
Definition needs_rotation (row : EncryptedToken) : bool :=
  match slot_of row with Some (slot, _) => negb (bool_decide (slot = kr_encrypt ring)) | None => false end.
Definition is_unreadable (row : EncryptedToken) : bool := match slot_of row with None => true | Some _ => false end.
Definition sorted_slugs (rows : list EncryptedToken) : list string := order_by Str.leb (et_slug <$> rows).

Definition census_of (rows : list EncryptedToken) : KekCensus :=
  let needs := length (jfilter needs_rotation rows) in
  let unreadable := sorted_slugs (jfilter is_unreadable rows) in
  mkCensus (rotationWindowOpen ring) (kr_encrypt ring) (length rows) (length (jfilter on_target rows)) needs unreadable
    ((needs =? 0)%nat && (length unreadable =? 0)%nat).

Section store.
Context {W : Type} `{TokenStore W}.
Variable random : nat → M W string (list ascii).

Definition kekCensus : M W string KekCensus := rows ← listTokens; mret (census_of rows).

(** The counters of the loop: on target, rotated, raced, unreadable. *)
Record tally := mkTally { ty_skipped : nat; ty_rotated : nat; ty_raced : nat; ty_unreadable : list string }.
Definition sweep_row (t : tally) (row : EncryptedToken) : M W string tally :=
  match decryptStudioTokenWithSlot open ring (et_enc row) with
  | Err _ => mret (mkTally (ty_skipped t) (ty_rotated t) (ty_raced t) (ty_unreadable t ++ [et_slug row]))
  | Ok (slot, plaintext) =>
      if bool_decide (slot = kr_encrypt ring) then mret (mkTally (S (ty_skipped t)) (ty_rotated t) (ty_raced t) (ty_unreadable t))
      else
        iv ← random IV_BYTES;
        reencrypted ← lift (encryptStudioToken seal ring iv plaintext);
        wrote ← casToken (et_id row) (et_enc row) reencrypted;
        mret (if wrote : bool then mkTally (ty_skipped t) (S (ty_rotated t)) (ty_raced t) (ty_unreadable t)
              else mkTally (ty_skipped t) (ty_rotated t) (S (ty_raced t)) (ty_unreadable t))
  end.
Fixpoint sweep_rows (t : tally) (batch : list EncryptedToken) : M W string tally :=
  match batch with
  | [] => mret t
  | row :: batch => t ← sweep_row t row; sweep_rows t batch
  end.

Definition NO_WINDOW : string :=
  "no rotation window is open (STUDIO_TOKEN_KEK_NEXT is not installed), so there is no second key to rotate toward; install it and redeploy before sweeping".
Definition SWEEP_LIMIT : nat := 500.
Definition sweepReencrypt (limit : option nat) : M W string SweepResult :=
  if negb (rotationWindowOpen ring) then throw NO_WINDOW
  else
    rows ← listTokens;
    let batch := firstn (default SWEEP_LIMIT limit) rows in
    t ← sweep_rows (mkTally 0 0 0 []) batch;
    mret (mkSweep (length batch) (ty_skipped t) (ty_rotated t) (ty_raced t) (order_by Str.leb (ty_unreadable t))
            (length batch =? length rows)%nat).
End store.
End rotation.

(** ** The list of tokens under one compare-and-set *)
Section listing.
Implicit Types (db : plane_db).

Lemma insert_by_fmap {A} (le : A → A → bool) (f : A → A) x l :
  (∀ a b, le (f a) (f b) = le a b) → insert_by le (f x) (f <$> l) = f <$> insert_by le x l.
Proof. intros Hle. induction l as [|y l IH]; [done|]. cbn. rewrite Hle. destruct (le x y); [done|]. cbn. by f_equal. Qed.
Lemma order_by_fmap {A} (le : A → A → bool) (f : A → A) l :
  (∀ a b, le (f a) (f b) = le a b) → order_by le (f <$> l) = f <$> order_by le l.
Proof. intros Hle. induction l as [|x l IH]; [done|]. cbn. unfold order_by in IH |- *. rewrite IH. by apply insert_by_fmap. Qed.

Definition set_enc (new : string) (e : EncryptedToken) : EncryptedToken := mkEncToken (et_id e) (et_slug e) new.
Definition cas_hits (i old : string) (e : EncryptedToken) : bool := (et_id e =s? i) && (et_enc e =s? old).

Lemma list_cas i old new db : Str.truthy old = true → Str.truthy new = true →
  listEncryptedStudioTokens (exec (setTenantStudioTokenIfUnchanged i old new) db) =
  update_where (cas_hits i old) (set_enc new) (listEncryptedStudioTokens db).
Proof.
intros Ho Hn. set (p := λ t, has_id i t && bool_decide (t_studio_token_enc t = Some old)).
change (exec (setTenantStudioTokenIfUnchanged i old new) db) with (with_tenants (update_where p (set_studio_token_enc (Some new))) db).
unfold listEncryptedStudioTokens, order_asc. cbn [pd_tenants with_tenants]. unfold update_where at 1.
rewrite order_by_fmap by (intros a b; destruct (p a), (p b); done).
generalize (order_by (λ x y : Tenant, desc_le (t_id y, "") (t_id x, "")) (pd_tenants db)). intros l.
induction l as [|t l IH]; [done|]. rewrite fmap_cons. cbn [omap list_omap].
assert (∀ t, t_studio_token_enc (set_studio_token_enc (Some new) t) = Some new) as He by done.
destruct (p t) eqn:Ep; unfold p, has_id in Ep.
- apply andb_true_iff in Ep as [Hi Hd]. apply bool_decide_eq_true in Hd. rewrite He, Hn, Hd, Ho. cbn [et_id].
  unfold update_where. rewrite fmap_cons. unfold cas_hits at 1. cbn. rewrite Hi, String.eqb_refl. cbn. f_equal. exact IH.
- destruct (t_studio_token_enc t) as [e|] eqn:Et; [|exact IH]. destruct (Str.truthy e) eqn:Ht; [|exact IH].
  unfold update_where. rewrite fmap_cons. unfold cas_hits at 1. cbn.
  assert ((t_id t =s? i) && (e =s? old) = false) as ->.
  { apply andb_false_iff in Ep as [-> |Hd]; [done|]. apply bool_decide_eq_false in Hd. apply andb_false_iff. right. apply String.eqb_neq. congruence. }
  f_equal. exact IH.
Qed.

Lemma listed_truthy db e : e ∈ listEncryptedStudioTokens db → Str.truthy (et_enc e) = true.
Proof.
unfold listEncryptedStudioTokens. intros (t & _ & Ht)%list_elem_of_omap. destruct (t_studio_token_enc t) as [x|]; [|done].
destruct (Str.truthy x) eqn:E; [|done]. by injection Ht as <-.
Qed.
Lemma listed_ids db : NoDup (t_id <$> pd_tenants db) → NoDup (et_id <$> listEncryptedStudioTokens db).
Proof.
intros Hn. unfold listEncryptedStudioTokens. assert (NoDup (t_id <$> order_asc (λ t, (t_id t, "")) (pd_tenants db))) as H.
{ by rewrite order_asc_perm. }
revert H. generalize (order_asc (λ t : Tenant, (t_id t, "")) (pd_tenants db)). intros l. induction l as [|t l IH]; [done|].
rewrite fmap_cons. intros [Ht Hl]%NoDup_cons. cbn [omap list_omap]. destruct (t_studio_token_enc t) as [x|]; [|by apply IH].
destruct (Str.truthy x); [|by apply IH]. rewrite fmap_cons. apply NoDup_cons. split; [|by apply IH]. cbn.
intros (e & He & Hin)%list_elem_of_fmap. apply list_elem_of_omap in Hin as (t' & Hin & Ht'). apply Ht. apply list_elem_of_fmap. exists t'.
split; [|done]. destruct (t_studio_token_enc t') as [y|]; [|done]. destruct (Str.truthy y); [|done]. by injection Ht' as <-.
Qed.
(** The write hits exactly when the row is listed with the ciphertext read. *)
Lemma cas_wrote i old new db e : e ∈ listEncryptedStudioTokens db → et_id e = i → et_enc e = old →
  (setTenantStudioTokenIfUnchanged i old new db).1 = Ok true.
Proof.
intros He <- <-. unfold listEncryptedStudioTokens in He. apply list_elem_of_omap in He as (t & Hin & Ht).
destruct (t_studio_token_enc t) as [x|] eqn:Ex; [|done]. destruct (Str.truthy x); [|done]. injection Ht as <-. cbn.
rewrite order_asc_perm in Hin. unfold setTenantStudioTokenIfUnchanged, update_tenant. rewrite bind_run. cbn [et_id et_enc fst].
destruct (List.find (λ t0, has_id (t_id t) t0 && bool_decide (t_studio_token_enc t0 = Some x)) (pd_tenants db)) eqn:E; [done|].
rewrite find_None_elem in E. specialize (E t Hin). cbn in E. unfold has_id in E. by rewrite String.eqb_refl, bool_decide_eq_true_2 in E.
Qed.
End listing.

(** ** The sweep, on a store nobody else writes *)
Section quiet_sweep.
Context (seal : list ascii → list ascii → string → list ascii) (open : list ascii → list ascii → list ascii → option string).
Context (ring : KekRing) (random : nat → M plane_db string (list ascii)) (key : string) (raw : list ascii).
Hypothesis open_seal : ∀ key iv text, open key iv (seal key iv text) = Some text.
Hypothesis random_bytes : ∀ n d, ∃ iv, random n d = (Ok iv, d) ∧ length iv = n.
Hypothesis primary_set : Str.truthy (kr_primary ring) = true.
Hypothesis write_key : slot_key ring (kr_encrypt ring) = Some key.
Hypothesis key_shape : importKek key = Ok raw.
Implicit Types (e row : EncryptedToken) (db : plane_db) (batch : list EncryptedToken).

(** What the sweep makes of a row: the same tenant, the same text, under the write slot. *)
Definition swept e e' : Prop :=
  et_id e' = et_id e ∧ et_slug e' = et_slug e ∧
  match slot_of open ring e with
  | None => e' = e
  | Some (slot, text) => slot_of open ring e' = Some (kr_encrypt ring, text) ∧ (slot = kr_encrypt ring → e' = e)
  end.
Definition tally_row t row : tally :=
  mkTally (ty_skipped t + (if on_target open ring row then 1 else 0)) (ty_rotated t + (if needs_rotation open ring row then 1 else 0))
    (ty_raced t) (ty_unreadable t ++ (if is_unreadable open ring row then [et_slug row] else [])).

Lemma update_one done_ row rest new :
  NoDup (et_id <$> done_ ++ row :: rest) →
  update_where (cas_hits (et_id row) (et_enc row)) (set_enc new) (done_ ++ row :: rest) = done_ ++ set_enc new row :: rest.
Proof.
rewrite fmap_app, fmap_cons. intros (_ & Hd & [Hr _]%NoDup_cons)%NoDup_app. unfold update_where. rewrite fmap_app, fmap_cons.
unfold cas_hits at 2. rewrite !String.eqb_refl. cbn [andb].
assert (∀ l : list EncryptedToken, (∀ e, e ∈ l → et_id e ≠ et_id row) → (λ e, if cas_hits (et_id row) (et_enc row) e then set_enc new e else e) <$> l = l) as Hid.
{ intros l Hl. induction l as [|e l IH]; [done|]. rewrite fmap_cons, IH by (intros e' He'; apply Hl; by right). f_equal.
  unfold cas_hits. assert ((et_id e =s? et_id row) = false) as ->; [|done]. apply String.eqb_neq, Hl. by left. }
rewrite !Hid; [done| |].
- intros e He Heq. apply Hr. rewrite <- Heq. by apply list_elem_of_fmap_2.
- intros e He Heq. apply (Hd (et_id e)); [by apply list_elem_of_fmap_2|rewrite Heq; by left].
Qed.

Lemma rotate_row_quiet t done_ row rest db :
  listEncryptedStudioTokens db = done_ ++ row :: rest → NoDup (et_id <$> done_ ++ row :: rest) →
  ∃ row' db', sweep_row seal open ring random t row db = (Ok (tally_row t row), db') ∧ swept row row' ∧
    listEncryptedStudioTokens db' = done_ ++ row' :: rest.
Proof.
intros Hl Hn. unfold sweep_row, tally_row, swept, on_target, needs_rotation, is_unreadable, slot_of.
destruct (decryptStudioTokenWithSlot open ring (et_enc row)) as [[slot text]|err] eqn:Hd.
2:{ exists row, db. by rewrite !Nat.add_0_r. }
destruct (bool_decide (slot = kr_encrypt ring)) eqn:Hs; cbn [negb].
{ apply bool_decide_eq_true in Hs as ->. exists row, db. rewrite Nat.add_0_r, Nat.add_1_r, app_nil_r. by rewrite Hd. }
destruct (random_bytes IV_BYTES db) as (iv & Hr & Hiv). rewrite bind_run, Hr.
destruct (encrypt_total seal ring key raw iv text primary_set write_key key_shape Hiv) as (blob & Hb & Ht).
rewrite bind_run. unfold lift. rewrite Hb, bind_run. cbn [casToken d1_token_store].
assert (row ∈ listEncryptedStudioTokens db) as Hin by (rewrite Hl; apply elem_of_app; right; by left).
pose proof (cas_wrote (et_id row) (et_enc row) blob db row Hin eq_refl eq_refl) as Hw.
pose proof (list_cas (et_id row) (et_enc row) blob db (listed_truthy _ _ Hin) Ht) as Hc.
unfold exec in Hc. destruct (setTenantStudioTokenIfUnchanged (et_id row) (et_enc row) blob db) as [r db'] eqn:E. cbn in Hw. subst r. cbn [snd] in Hc.
exists (set_enc blob row), db'. rewrite Nat.add_0_r, Nat.add_1_r, app_nil_r. split; [done|]. split.
- split; [done|]. split; [done|]. cbn [et_enc set_enc]. rewrite (own_slot_opens _ _ open_seal _ _ _ _ primary_set Hiv Hb).
  split; [done|]. intros ->. by rewrite bool_decide_eq_true_2 in Hs.
- by rewrite Hc, Hl, update_one.
Qed.

Lemma swept_ids batch batch' : Forall2 swept batch batch' → et_id <$> batch' = et_id <$> batch.
Proof. induction 1 as [|e e' b b' (He & _) _ IH]; [done|]. rewrite !fmap_cons. by rewrite He, IH. Qed.

Lemma rotate_rows_quiet batch : ∀ t done_ rest db,
  listEncryptedStudioTokens db = done_ ++ batch ++ rest → NoDup (et_id <$> done_ ++ batch ++ rest) →
  ∃ batch' db', sweep_rows seal open ring random t batch db = (Ok (foldl tally_row t batch), db') ∧ Forall2 swept batch batch' ∧
    listEncryptedStudioTokens db' = done_ ++ batch' ++ rest.
Proof.
induction batch as [|row batch IH]; intros t done_ rest db Hl Hn; [exists [], db; by split_and!|].
destruct (rotate_row_quiet t done_ row (batch ++ rest) db Hl Hn) as (row' & db1 & Hr & Hs & Hl1).
destruct (IH (tally_row t row) (done_ ++ [row']) rest db1) as (batch' & db' & Hb & HF & Hl').
- by rewrite Hl1, <- app_assoc.
- assert (et_id <$> (done_ ++ [row']) ++ batch ++ rest = et_id <$> done_ ++ (row :: batch) ++ rest) as ->; [|done].
  rewrite <- app_assoc, !fmap_app. destruct Hs as (He & _). cbn. by rewrite He.
- exists (row' :: batch'), db'. cbn [sweep_rows foldl]. rewrite bind_run, Hr, Hb. split_and!; [done|by constructor|].
  by rewrite Hl', <- app_assoc.
Qed.

Lemma foldl_tally batch : ∀ t, foldl tally_row t batch =
  mkTally (ty_skipped t + length (jfilter (on_target open ring) batch)) (ty_rotated t + length (jfilter (needs_rotation open ring) batch))
    (ty_raced t) (ty_unreadable t ++ (et_slug <$> jfilter (is_unreadable open ring) batch)).
Proof.
induction batch as [|row batch IH]; intros t; cbn [foldl].
- cbn. rewrite !Nat.add_0_r, app_nil_r. by destruct t.
- rewrite IH. unfold tally_row, jfilter. cbn. f_equal; [destruct (on_target open ring row)|destruct (needs_rotation open ring row)|destruct (is_unreadable open ring row)];
    cbn; rewrite ?app_nil_r, <- ?app_assoc; done || lia.
Qed.

(** Every row is exactly one of the three. *)
Lemma census_partition rows :
  (length (jfilter (on_target open ring) rows) + length (jfilter (needs_rotation open ring) rows) + length (jfilter (is_unreadable open ring) rows) = length rows)%nat.
Proof.
induction rows as [|e rows IH]; [done|]. unfold jfilter in *. cbn. unfold on_target at 1, needs_rotation at 1, is_unreadable at 1.
destruct (slot_of open ring e) as [[slot text]|]; [destruct (bool_decide _)|]; cbn; lia.
Qed.
Lemma swept_census rows rows' : Forall2 swept rows rows' →
  jfilter (needs_rotation open ring) rows' = [] ∧
  et_slug <$> jfilter (is_unreadable open ring) rows' = et_slug <$> jfilter (is_unreadable open ring) rows.
Proof.
induction 1 as [|e e' rows rows' (Hid & Hsl & Hs) _ [IH1 IH2]]; [done|].
assert (needs_rotation open ring e' = false ∧ is_unreadable open ring e' = is_unreadable open ring e) as [Hn Hu].
{ unfold needs_rotation, is_unreadable. destruct (slot_of open ring e) as [[slot text]|] eqn:E.
  - destruct Hs as [-> _]. by rewrite bool_decide_eq_true_2.
  - subst e'. by rewrite E. }
unfold jfilter in *. cbn [List.filter]. rewrite Hn, Hu. split; [done|]. destruct (is_unreadable open ring e); [|done].
rewrite !fmap_cons. by rewrite Hsl, IH2.
Qed.
Lemma sweep_rows_idle batch : jfilter (needs_rotation open ring) batch = [] → ∀ t db,
  sweep_rows seal open ring random t batch db = (Ok (foldl tally_row t batch), db).
Proof.
intros Hb. induction batch as [|row batch IH]; intros t db; [done|]. rewrite jfilter_nil_iff in Hb.
assert (jfilter (needs_rotation open ring) batch = []) as Hb' by (apply jfilter_nil_iff; intros x Hx; apply Hb; by right).
specialize (Hb row ltac:(by left)). cbn [sweep_rows foldl]. rewrite bind_run. unfold sweep_row.
assert (sweep_row seal open ring random t row db = (Ok (tally_row t row), db)) as Hrow.
{ unfold sweep_row, tally_row, on_target, is_unreadable. unfold needs_rotation in Hb |- *. unfold slot_of in *.
  destruct (decryptStudioTokenWithSlot open ring (et_enc row)) as [[slot text]|err]; [destruct (bool_decide _); [|done]|];
    by rewrite ?Nat.add_0_r, ?Nat.add_1_r, ?app_nil_r. }
unfold sweep_row in Hrow. rewrite Hrow. by apply IH.
Qed.

(** One bounded run: what it answers and what it leaves. *)
Lemma sweep_run limit db :
  rotationWindowOpen ring = true → NoDup (et_id <$> listEncryptedStudioTokens db) →
  let rows := listEncryptedStudioTokens db in
  let batch := firstn (default SWEEP_LIMIT limit) rows in
  ∃ batch' db',
    sweepReencrypt seal open ring random limit db =
      (Ok (mkSweep (length batch) (length (jfilter (on_target open ring) batch)) (length (jfilter (needs_rotation open ring) batch)) 0
             (sorted_slugs (jfilter (is_unreadable open ring) batch)) (length batch =? length rows)%nat), db') ∧
    Forall2 swept batch batch' ∧ listEncryptedStudioTokens db' = batch' ++ skipn (default SWEEP_LIMIT limit) rows.
Proof.
intros Hw Hn rows batch. assert (listEncryptedStudioTokens db = [] ++ batch ++ skipn (default SWEEP_LIMIT limit) rows) as Hsplit.
{ cbn [app]. unfold batch. by rewrite firstn_skipn. }
destruct (rotate_rows_quiet batch (mkTally 0 0 0 []) [] (skipn (default SWEEP_LIMIT limit) rows) db Hsplit) as (batch' & db' & Hr & HF & Hl).
{ by rewrite <- Hsplit. }
exists batch', db'. split; [|done]. unfold sweepReencrypt. rewrite Hw. cbn [negb]. rewrite bind_run. cbn [listTokens d1_token_store]. unfold gets.
fold rows. fold batch. rewrite bind_run, Hr, foldl_tally. done.
Qed.

Lemma swept_all_ids db db' batch' limit :
  Forall2 swept (firstn limit (listEncryptedStudioTokens db)) batch' →
  listEncryptedStudioTokens db' = batch' ++ skipn limit (listEncryptedStudioTokens db) →
  et_id <$> listEncryptedStudioTokens db' = et_id <$> listEncryptedStudioTokens db.
Proof.
intros HF ->. rewrite fmap_app, (swept_ids _ _ HF), <- fmap_app. by rewrite firstn_skipn.
Qed.

(** A sweep that covers the table finishes the rotation and loses no token.  With a window open and
    a well-formed write key the sweep returns; a run that reports itself complete has examined every
    stored token, raced with nobody, and left every tenant's token the text it was, now under the write
    slot, touching none it could not open; the census taken next finds nothing left to rotate, the same
    unreadable tenants, and calls the old key safe to drop exactly when there are none of those; and a
    second sweep writes nothing. *)
Theorem complete_sweep_converges limit db :
  rotationWindowOpen ring = true → NoDup (t_id <$> pd_tenants db) →
  ∃ r db', sweepReencrypt seal open ring random limit db = (Ok r, db') ∧
    (sw_skipped_on_target r + sw_rotated r + length (sw_unreadable r) = sw_examined r)%nat ∧ sw_raced r = 0%nat ∧
    (sw_complete r = true ↔ (length (listEncryptedStudioTokens db) <= default SWEEP_LIMIT limit)%nat) ∧
    (sw_complete r = true →
       sw_examined r = length (listEncryptedStudioTokens db) ∧
       Forall2 swept (listEncryptedStudioTokens db) (listEncryptedStudioTokens db') ∧
       ∃ census, kekCensus open ring db' = (Ok census, db') ∧ kc_needs_rotation census = 0%nat ∧
         kc_unreadable census = sw_unreadable r ∧ kc_safe_to_promote census = bool_decide (sw_unreadable r = []) ∧
       ∃ r2, sweepReencrypt seal open ring random limit db' = (Ok r2, db') ∧ sw_rotated r2 = 0%nat).
Proof.
intros Hw Hids. pose proof (listed_ids db Hids) as Hn. destruct (sweep_run limit db Hw Hn) as (batch' & db' & Hrun & HF & Hl).
set (rows := listEncryptedStudioTokens db) in *. set (lim := default SWEEP_LIMIT limit) in *.
eexists _, db'. split; [exact Hrun|]. cbn [sw_skipped_on_target sw_rotated sw_unreadable sw_examined sw_raced sw_complete].
assert (∀ rs, length (sorted_slugs rs) = length rs) as Hsorted by (intros rs; unfold sorted_slugs; by rewrite order_by_perm, length_fmap).
assert ((length (firstn lim rows) =? length rows)%nat = true ↔ (length rows <= lim)%nat) as Hcomplete.
{ rewrite Nat.eqb_eq, length_firstn. lia. }
split_and!; [rewrite Hsorted; apply census_partition|done|exact Hcomplete|].
intros Hc%Hcomplete. rewrite firstn_all2 in HF |- * by lia. rewrite skipn_all2, app_nil_r in Hl by lia. subst batch'.
split; [done|]. split; [done|]. destruct (swept_census _ _ HF) as [Hnone Hunread].
eexists. split; [reflexivity|]. cbn [kc_needs_rotation kc_unreadable kc_safe_to_promote census_of]. rewrite Hnone. cbn [length Nat.eqb andb].
unfold sorted_slugs. rewrite Hunread. split_and!; [done|done| |].
{ set (u := order_by Str.leb _). by destruct u. }
assert (NoDup (et_id <$> listEncryptedStudioTokens db')) as Hn'.
{ by rewrite (swept_ids _ _ HF). }
eexists. unfold sweepReencrypt. rewrite Hw. cbn [negb]. rewrite bind_run. cbn [listTokens d1_token_store]. unfold gets.
rewrite bind_run, sweep_rows_idle.
2:{ apply jfilter_nil_iff. intros x Hx. rewrite jfilter_nil_iff in Hnone. apply Hnone. rewrite <- (firstn_skipn (default SWEEP_LIMIT limit)). apply elem_of_app. by left. }
rewrite foldl_tally. split; [reflexivity|]. cbn. change (length (jfilter (needs_rotation open ring) (firstn lim (listEncryptedStudioTokens db'))) = 0%nat).
rewrite firstn_all2; [by rewrite Hnone|]. rewrite <- (Forall2_length _ _ _ HF). exact Hc.
Qed.

(** Running a bounded sweep again does not continue it.  The work list of every run is the first
    rows in the order of their ids, so however often a sweep of limit [n] is repeated, the rows after
    the first [n] stay exactly as they were; when one of them still needs rotating no number of runs
    reports the rotation complete or makes the old key safe to drop. *)
Theorem bounded_sweep_never_continues limit k db :
  rotationWindowOpen ring = true → NoDup (t_id <$> pd_tenants db) →
  let after := Nat.iter k (exec (sweepReencrypt seal open ring random (Some limit))) db in
  skipn limit (listEncryptedStudioTokens after) = skipn limit (listEncryptedStudioTokens db) ∧
  (∀ row, row ∈ skipn limit (listEncryptedStudioTokens db) → needs_rotation open ring row = true →
     kc_safe_to_promote (census_of open ring (listEncryptedStudioTokens after)) = false ∧
     ∃ r, (sweepReencrypt seal open ring random (Some limit) after).1 = Ok r ∧ sw_complete r = false).
Proof.
intros Hw Hids after. pose proof (listed_ids db Hids) as Hn.
assert (skipn limit (listEncryptedStudioTokens after) = skipn limit (listEncryptedStudioTokens db) ∧
  et_id <$> listEncryptedStudioTokens after = et_id <$> listEncryptedStudioTokens db) as [Hskip Hid].
{ unfold after. clear after Hids. induction k as [|k [IH1 IH2]]; [done|]. cbn [Nat.iter nat_rect].
  set (d := Nat.iter k (exec (sweepReencrypt seal open ring random (Some limit))) db) in *. change (nat_rect _ _ _ _) with d.
  destruct (sweep_run (Some limit) d Hw) as (batch' & db' & Hrun & HF & Hl); [by rewrite IH2|]. unfold exec. rewrite Hrun. cbn [snd].
  cbn [default from_option] in *. change (id limit) with limit in *. split; [|by rewrite (swept_all_ids _ _ _ _ HF Hl)].
  rewrite Hl, skipn_app. pose proof (Forall2_length _ _ _ HF) as Hlen. rewrite length_firstn in Hlen.
  destruct (Nat.le_gt_cases limit (length (listEncryptedStudioTokens d))) as [Hle|Hgt].
  - rewrite skipn_all2, <- Hlen, Nat.min_l, Nat.sub_diag by lia. cbn. by rewrite IH1.
  - rewrite <- IH1, (skipn_all2 (n:=limit) (listEncryptedStudioTokens d)) by lia. rewrite skipn_nil, skipn_all2 by lia. done. }
split; [done|]. intros row Hin Hneed. rewrite <- Hskip in Hin.
assert (row ∈ listEncryptedStudioTokens after) as Hin' by (rewrite <- (firstn_skipn limit); apply elem_of_app; by right). split.
- cbn. apply andb_false_iff. left. apply Nat.eqb_neq. intros H0%length_zero_iff_nil. rewrite jfilter_nil_iff in H0.
  by rewrite (H0 row Hin') in Hneed.
- destruct (sweep_run (Some limit) after Hw) as (batch' & db' & Hrun & _); [by rewrite Hid|]. rewrite Hrun. eexists. split; [done|].
  cbn. apply Nat.eqb_neq. rewrite length_firstn. change (id limit) with limit.
  assert (0 < length (skipn limit (listEncryptedStudioTokens after)))%nat as Hpos by (destruct (skipn _ _); [by apply elem_of_nil in Hin|cbn; lia]).
  rewrite length_skipn in Hpos. lia.
Qed.
End quiet_sweep.

(** ** The sweep among others *)
Section live_sweep.
Context {W : Type} {others : plane_db → plane_db → Prop} `{TokenStoreOk W others}.
Context (seal : list ascii → list ascii → string → list ascii) (open : list ascii → list ascii → list ascii → option string).
Context (ring : KekRing) (random : nat → M W string (list ascii)).
Hypothesis open_seal : ∀ key iv text, open key iv (seal key iv text) = Some text.
Hypothesis random_length : ∀ n s iv s', random n s = (Ok iv, s') → length iv = n.
Hypothesis primary_set : Str.truthy (kr_primary ring) = true.

(** The one write a sweep makes: a ciphertext replaced, if it is still there, by one of the same text
    under the write slot. *)
Definition reencrypts (d d' : plane_db) : Prop :=
  ∃ i old new slot text,
    decryptStudioTokenWithSlot open ring old = Ok (slot, text) ∧ slot ≠ kr_encrypt ring ∧
    decryptStudioTokenWithSlot open ring new = Ok (kr_encrypt ring, text) ∧
    d' = exec (setTenantStudioTokenIfUnchanged i old new) d.
Definition sweep_step (d d' : plane_db) : Prop := others d d' ∨ reencrypts d d'.

(** Whatever happens around it, a sweep only ever replaces a token by itself.  However its
    statements interleave with anybody's, and whether it returns or throws, all it does to the table is
    to swap a ciphertext it read under the other key for a ciphertext of the same text under the write
    slot, and only where that very ciphertext still stands: a token minted meanwhile is never reverted
    and one it cannot read is never overwritten. *)
Theorem sweep_only_reencrypts limit s :
  (∀ n d0, preserves (λ s, steps sweep_step d0 (token_plane s)) (random n)) →
  steps sweep_step (token_plane s) (token_plane (exec (sweepReencrypt seal open ring random limit) s)).
Proof.
intros Hrandom. set (I := λ d0 (s : W), steps sweep_step d0 (token_plane s)).
assert (∀ d0, preserves (I d0) listTokens) as Hlist.
{ intros d0 s0 Hs. destruct (list_tokens_runs s0) as (mid & dt & Hm & Hr). unfold I, exec in *. eapply steps_trans; [exact Hs|]. apply steps_one. left.
  destruct (listTokens s0) as [[a|e] s']; cbn in *; [by injection Hr as _ <-|]. destruct Hr as [->| ->]; done. }
assert (∀ t row d0, preserves (I d0) (sweep_row seal open ring random t row)) as Hrow.
{ intros t row d0. unfold sweep_row. destruct (decryptStudioTokenWithSlot open ring (et_enc row)) as [[slot text]|] eqn:Hd; [|apply preserves_ret].
  destruct (bool_decide _) eqn:Hs; [apply preserves_ret|]. apply bool_decide_eq_false in Hs.
  intros s0 Hs0. unfold exec. rewrite bind_run. pose proof (Hrandom IV_BYTES d0 s0 Hs0) as Hr. unfold exec in Hr.
  destruct (random IV_BYTES s0) as [[iv|e] s1] eqn:Er; cbn in Hr |- *; [|exact Hr]. apply random_length in Er.
  rewrite bind_run. unfold lift. destruct (encryptStudioToken seal ring iv text) as [blob|e] eqn:He; [|exact Hr].
  rewrite bind_run. destruct (cas_token_runs (et_id row) (et_enc row) blob s1) as (mid & dt & Hm & Hc).
  pose proof (own_slot_opens _ _ open_seal _ _ _ _ primary_set Er He) as Hown.
  assert (reencrypts mid (exec (setTenantStudioTokenIfUnchanged (et_id row) (et_enc row) blob) mid)) as Hre by (by exists (et_id row), (et_enc row), blob, slot, text).
  assert (steps sweep_step d0 mid) as Hmid by (eapply steps_trans; [exact Hr|]; apply steps_one; by left).
  assert (steps sweep_step d0 (exec (setTenantStudioTokenIfUnchanged (et_id row) (et_enc row) blob) mid)) as Hnew
    by (eapply steps_trans; [exact Hmid|]; apply steps_one; by right).
  unfold exec in Hnew, Hc. unfold I. destruct (casToken (et_id row) (et_enc row) blob s1) as [[w|e] s2]; cbn in Hc |- *.
  - by rewrite Hc in Hnew.
  - by destruct Hc as [->| ->]. }
assert (∀ batch t d0, preserves (I d0) (sweep_rows seal open ring random t batch)) as Hrows.
{ induction batch as [|row batch IH]; intros t d0; cbn [sweep_rows]; [apply preserves_ret|]. apply preserves_bind; [apply Hrow|]. intros; apply IH. }
assert (preserves (I (token_plane s)) (sweepReencrypt seal open ring random limit)) as Hp; [|apply Hp; constructor].
unfold sweepReencrypt. destruct (negb _); [apply preserves_throw|]. apply preserves_bind; [apply Hlist|]. intros rows.
apply preserves_bind; [apply Hrows|]. intros; apply preserves_ret.
Qed.
End live_sweep.
