(* ===== verification/Routing.v ===== *)
(** * Which host serves what (src/routing.ts)

    A request to [<slug>.<host>] belongs to that tenant's studio.  Here are the classification of the
    Host header, the refusals of a tenant that may not be served, the request the studio's worker
    receives, and the router that puts them together.  Looking a tenant up, asking the dispatch
    namespace for its script and running that script are parameters. *)

From S2P Require Export Auth TokenCrypto TenantStore.
From Stdlib Require Import Ascii.
Open Scope string_scope.
Open Scope list_scope.
Open Scope Z_scope.
Open Scope plane_scope.

(** ** Hosts *)
Inductive HostRoute := FrontDoor | TenantHost (slug : string) | InvalidTenant (reason : string).

(** [s.replace(/\.$/, "")] *)
Definition drop_final_dot (s : string) : string :=
  match rev (Str.chars s) with c :: r => if Ascii.eqb c "." then Str.of_chars (rev r) else s | [] => s end.
Definition normalizeHost (raw : string) : string :=
  drop_final_dot (default "" (head (Text.split ":" (Str.to_lower (Str.trim raw))))).

(** [host.endsWith(suffix)] and [host.slice(0, host.length - suffix.length)] *)
Definition ends_with (suffix s : string) : bool :=
  (length (Str.chars suffix) <=? length (Str.chars s))%nat &&
  (slice_from (length (Str.chars s) - length (Str.chars suffix)) s =s? suffix).
Definition without_end (n : nat) (s : string) : string := Str.take (length (Str.chars s) - n) s.

Definition classifyHost (hostHeader : option string) (tenantSuffix : string) : HostRoute :=
  if negb (is_set hostHeader) then FrontDoor
  else
    let host := normalizeHost (default "" hostHeader) in
    let suffix := drop_final_dot (Str.to_lower (Str.trim tenantSuffix)) in
    if negb (starts_with "." suffix) || (length (Str.chars suffix) <? 2)%nat then FrontDoor
    else if negb (ends_with suffix host) then FrontDoor
    else
      let label := without_end (length (Str.chars suffix)) host in
      if negb (Str.truthy label) then InvalidTenant "empty tenant label"
      else if has_dot label then InvalidTenant "multi-label host is not certificate-covered"
      else match validateSlug label with
      | None => TenantHost label
      | Some _ => InvalidTenant "invalid tenant slug"
      end.

(** ** Headers, as the runtime keeps them: one entry per name, whatever its case *)
Definition header_is (name : string) (h : string * string) : bool := Str.to_lower h.1 =s? name.
Definition header_get (name : string) (hs : list (string * string)) : option string := snd <$> List.find (header_is name) hs.
Definition header_delete (name : string) (hs : list (string * string)) : list (string * string) := jfilter (λ h, negb (header_is name h)) hs.
Definition header_set (name value : string) (hs : list (string * string)) : list (string * string) := header_delete name hs ++ [(name, value)].

Definition has_body (method : string) : bool := negb (method =s? "GET") && negb (method =s? "HEAD").
Definition fresh (request : HttpRequest) (headers : list (string * string)) : HttpRequest :=
  mkRequest (rq_url request) (rq_method request) headers (if has_body (rq_method request) then rq_body request else BNone).
Definition freshRequest (request : HttpRequest) : HttpRequest := fresh request (rq_headers request).

Definition wantsHtml (request : HttpRequest) : bool :=
  (rq_method request =s? "GET") && includes_text "text/html" (default "" (header_get "accept" (rq_headers request))).

Definition kept_cookies (raw : string) : list string :=
  jfilter (λ c, Str.truthy c && negb (starts_with (SESSION_COOKIE +:+ "=") c)) (Str.trim <$> Text.split ";" raw).
Definition stripSessionCookie (headers : list (string * string)) : list (string * string) :=
  match header_get "cookie" headers with
  | Some raw =>
      if Str.truthy raw then
        match kept_cookies raw with
        | [] => header_delete "cookie" headers
        | kept => header_set "cookie" (Str.join "; " kept) headers
        end
      else headers
  | None => headers
  end.

Definition dispatchRequest (request : HttpRequest) (injectedToken : option string) : HttpRequest :=
  let headers := stripSessionCookie (rq_headers request) in
  fresh request (if is_set injectedToken then header_set "authorization" ("Bearer " +:+ default "" injectedToken) headers else headers).

(** ** Refusals *)
Record Refusal := mkRefusal { rf_status : Z; rf_error : string; rf_retry_after : option string }.
Definition refusal (status : Z) (message : string) : Refusal := mkRefusal status message None.
Definition no_studio : Refusal := refusal 404 "No studio at this address.".

Definition tenantRefusal (tenant : Tenant) : option Refusal :=
  if negb (is_null (t_deleted_at tenant)) then Some no_studio
  else if negb (is_null (t_suspended_at tenant)) then Some (refusal 403 "This studio is suspended. Contact support.")
  else
    let status := t_status tenant in
    if status =s? "live" then None
    else if existsb (String.eqb status) ["pending"; "provisioning"; "awaiting_go_live"; "awaiting_invoke_key"]
    then Some (mkRefusal 503 "This studio is still being set up." (Some "30"))
    else if status =s? "failed" then Some (refusal 503 "This studio failed to finish provisioning.")
    else Some no_studio.

(** ** The router *)
Inductive RouteOutcome :=
| NotATenant
| Refuse (r : Refusal)
| RedirectTo (url : string)
| Dispatch (script : string) (request : HttpRequest).

Record RouterEnv := mkRouterEnv {
  re_host : string;
  re_kek : option string;
  re_kek_next : option string;
  re_kek_slot : option string;
  re_dispatch_bound : bool;
}.
Definition tenantDomainSuffix (env : RouterEnv) : string := "." +:+ re_host env.
Definition studioKekRing (env : RouterEnv) : KekRing := kekRing (default "" (re_kek env)) (re_kek_next env) (re_kek_slot env).

Section router.
Context {W : Type} `{AuthStore W}.
Variable digest : string → list ascii.
Variable open : list ascii → list ascii → list ascii → option string.
Variable lookup_slug : string → M W string (option Tenant).
Variable now : M W string Z.
(** [env.TENANT_DISPATCH.get(name)] does not throw. *)
Variable script_exists : string → M W string bool.

Definition owner_token (env : RouterEnv) (tenant : Tenant) : option string :=
  if is_set (re_kek env) && is_set (t_studio_token_enc tenant) then
    match decryptStudioToken open (studioKekRing env) (default "" (t_studio_token_enc tenant)) with Ok t => Some t | Err _ => None end
  else None.

Definition routeTenantRequest (env : RouterEnv) (request : HttpRequest) : M W string RouteOutcome :=
  match classifyHost (header_get "host" (rq_headers request)) (tenantDomainSuffix env) with
  | FrontDoor => mret NotATenant
  | InvalidTenant _ => mret (Refuse no_studio)
  | TenantHost slug =>
      found ← attempt (lookup_slug slug);
      match found with
      | inl _ => mret (Refuse (mkRefusal 503 "This studio is temporarily unavailable." (Some "5")))
      | inr None => mret (Refuse no_studio)
      | inr (Some tenant) =>
          match tenantRefusal tenant with
          | Some refused => mret (Refuse refused)
          | None =>
              if negb (is_set (t_script_name tenant)) then mret (Refuse (refusal 503 "This studio is not available yet."))
              else if negb (re_dispatch_bound env) then mret (Refuse (refusal 503 "This studio is not available."))
              else
                let script := default "" (t_script_name tenant) in
                t ← now;
                account ← resolveSession digest (header_get "cookie" (rq_headers request)) t;
                let isOwner := match account with Some a => ac_id a =s? t_account_id tenant | None => false end in
                let injected := if isOwner then owner_token env tenant else None in
                if negb isOwner && wantsHtml request then mret (RedirectTo ("https://" +:+ re_host env +:+ "/"))
                else
                  there ← script_exists script;
                  if there : bool then mret (Dispatch script (dispatchRequest request injected))
                  else mret (Refuse (refusal 503 "This studio is not available."))
          end
      end
  end.
End router.

(** ** Headers *)
Section headers.
Implicit Types (hs : list (string * string)) (name value : string).

Lemma header_get_delete name hs : header_get name (header_delete name hs) = None.
Proof.
unfold header_get, header_delete, jfilter. induction hs as [|h hs IH]; [done|]. cbn.
destruct (header_is name h) eqn:E; cbn; [done|]. by rewrite E.
Qed.
Lemma header_get_delete_other name n hs : (∀ h, header_is n h = true → header_is name h = false) →
  header_get n (header_delete name hs) = header_get n hs.
Proof.
unfold header_get, header_delete, jfilter. intros Hn. induction hs as [|h hs IH]; [done|]. cbn.
destruct (header_is n h) eqn:E; [rewrite (Hn _ E); cbn; by rewrite E|]. destruct (header_is name h); cbn; [done|]. by rewrite E.
Qed.
Lemma header_get_app n hs hs' : header_get n (hs ++ hs') = match header_get n hs with Some v => Some v | None => header_get n hs' end.
Proof. unfold header_get. induction hs as [|h hs IH]; [done|]. cbn. by destruct (header_is n h). Qed.
Lemma header_get_set name value hs : Str.to_lower name = name → header_get name (header_set name value hs) = Some value.
Proof.
intros Hl. unfold header_set. rewrite header_get_app, header_get_delete. unfold header_get, header_is. cbn [List.find fst].
by rewrite Hl, String.eqb_refl.
Qed.
Lemma header_get_set_other name n value hs : Str.to_lower name = name → name ≠ n →
  header_get n (header_set name value hs) = header_get n hs.
Proof.
intros Hl Hn. unfold header_set. rewrite header_get_app, header_get_delete_other.
- destruct (header_get n hs); [done|]. unfold header_get, header_is. cbn [List.find fst]. rewrite Hl. by apply String.eqb_neq in Hn as ->.
- unfold header_is. intros h ->%String.eqb_eq. apply String.eqb_neq. congruence.
Qed.
End headers.

(** ** The cookie the studio sees *)
Section stripping.
Lemma find_cookie_none l : Forall (λ p, Str.trim p = p ∧ starts_with (SESSION_COOKIE +:+ "=") p = false) l → find_cookie l = None.
Proof.
induction 1 as [|p l [Ht Hp] _ IH]; [done|]. cbn [find_cookie]. rewrite Ht.
destruct (Text.split "=" p) as [|k v] eqn:E; [done|]. destruct (String.eqb_spec k SESSION_COOKIE) as [->|]; [|done].
destruct (split_parts _ _ _ _ E) as [_ Hs]. destruct v as [|x v]; [done|]. destruct Hs as (s' & -> & _).
exfalso. apply not_true_iff_false in Hp. apply Hp, starts_with_spec. exists s'.
rewrite append_assoc. done.
Qed.
Lemma kept_cookies_ok raw :
  Forall (λ p, no_sep ";" (Str.chars p)) (kept_cookies raw) ∧
  Forall (λ p, Str.trim p = p ∧ starts_with (SESSION_COOKIE +:+ "=") p = false) (kept_cookies raw).
Proof.
unfold kept_cookies. split; apply Forall_forall; intros p [Hp Hk]%elem_of_jfilter; apply list_elem_of_fmap in Hp as (q & -> & Hq).
- apply trim_no_sep. by eapply split_all_no_sep.
- split; [apply trim_trim|]. by bool_hyps.
Qed.
Lemma stripped_cookie hs : readSessionCookie (header_get "cookie" (stripSessionCookie hs)) = None.
Proof.
unfold stripSessionCookie. destruct (header_get "cookie" hs) as [raw|] eqn:E; [|by rewrite E].
destruct (Str.truthy raw) eqn:Ht; [|rewrite E; cbn; by rewrite Ht].
destruct (kept_cookies_ok raw) as [H1 H2]. destruct (kept_cookies raw) as [|w ws] eqn:Ek.
- by rewrite header_get_delete.
- rewrite header_get_set by done. rewrite read_join by done. by apply find_cookie_none.
Qed.
Lemma strip_keeps n hs : n ≠ "cookie" → header_get n (stripSessionCookie hs) = header_get n hs.
Proof.
intros Hn. unfold stripSessionCookie. destruct (header_get "cookie" hs) as [raw|]; [|done]. destruct (Str.truthy raw); [|done].
destruct (kept_cookies raw).
- apply header_get_delete_other. unfold header_is. intros h ->%String.eqb_eq. by apply String.eqb_neq.
- by apply header_get_set_other.
Qed.
End stripping.

(** ** Hosts *)
Section hosts.
Implicit Types (s raw slug base : string) (c : ascii).

Lemma drop_dot_dotted s : drop_final_dot (s +:+ ".") = s.
Proof. unfold drop_final_dot. rewrite chars_append, rev_app_distr. cbn. by rewrite rev_involutive, of_chars_chars. Qed.
Lemma drop_dot_inv s : s = drop_final_dot s ∨ s = drop_final_dot s +:+ ".".
Proof.
unfold drop_final_dot. destruct (rev (Str.chars s)) as [|c r] eqn:E; [by left|]. destruct (Ascii.eqb_spec c "."); [|by left].
right. apply (f_equal (@rev ascii)) in E. rewrite rev_involutive in E. cbn in E. subst c.
apply chars_inj. by rewrite chars_append, chars_of_chars, E.
Qed.
Lemma drop_dot_id s c : head (rev (Str.chars s)) = Some c → c ≠ "."%char → drop_final_dot s = s.
Proof. unfold drop_final_dot. destruct (rev (Str.chars s)) as [|x r]; [done|]. intros [= ->]. by destruct (Ascii.eqb_spec c "."). Qed.

Lemma without_end_app s suffix : without_end (length (Str.chars suffix)) (s +:+ suffix) = s.
Proof.
unfold without_end, Str.take. rewrite !chars_append, length_app, Nat.add_sub, firstn_app, firstn_all, Nat.sub_diag. cbn.
by rewrite app_nil_r, of_chars_chars.
Qed.
Lemma ends_with_spec suffix s : ends_with suffix s = true ↔ ∃ r, s = r +:+ suffix.
Proof.
unfold ends_with, slice_from. split.
- intros [H1%Nat.leb_le H2%String.eqb_eq]%andb_true_iff.
  exists (Str.take (length (Str.chars s) - length (Str.chars suffix)) s). apply chars_inj. unfold Str.take.
  rewrite chars_append, chars_of_chars. apply (f_equal Str.chars) in H2. rewrite chars_of_chars in H2.
  set (n := (_ - _)%nat) in *. clearbody n. by rewrite <- H2, firstn_skipn.
- intros [r ->]. rewrite chars_append, length_app. apply andb_true_intro. split; [apply Nat.leb_le; lia|].
  rewrite Nat.add_sub, skipn_app, skipn_all, Nat.sub_diag, app_nil_l, drop_0, of_chars_chars. apply String.eqb_refl.
Qed.

Definition host_char c : bool := negb (Str.is_space c) && Ascii.eqb (Str.lower_char c) c && negb (Ascii.eqb c ":").
(** A host name as it is configured: lower case, no port, no final dot. *)
Definition host_name s : Prop :=
  forallb host_char (Str.chars s) = true ∧ ∃ c, head (rev (Str.chars s)) = Some c ∧ c ≠ "."%char.
Lemma host_name_lower s : forallb host_char (Str.chars s) = true → Str.to_lower s = s.
Proof.
intros H. apply chars_inj. unfold Str.to_lower. rewrite chars_of_chars. induction (Str.chars s) as [|c l IH]; [done|].
cbn in H. unfold host_char in H at 1. bool_hyps. cbn. f_equal; [by apply Ascii.eqb_eq|by apply IH].
Qed.
Lemma host_name_trim s : forallb host_char (Str.chars s) = true → Str.trim s = s.
Proof.
rewrite forallb_forall. intros H. assert (∀ c, In c (Str.chars s) → Str.is_space c = false) as Hs.
{ intros c Hc%H. unfold host_char in Hc. by bool_hyps. }
apply trim_id.
- destruct s as [|c s]; [done|]. apply Hs. by left.
- destruct (rev (Str.chars s)) as [|c r] eqn:E; [done|]. apply Hs, in_rev. rewrite E. by left.
Qed.
Lemma host_name_no_colon s : forallb host_char (Str.chars s) = true → no_sep ":" (Str.chars s).
Proof. apply forallb_weaken. unfold host_char. by intros c [_ H]%andb_true_iff. Qed.

Definition slug_host_char c : bool := host_char c && negb (Ascii.eqb c ".").
Lemma slug_char_host c : slug_char c = true → slug_host_char c = true.
Proof. by destruct c as [[] [] [] [] [] [] [] []]; vm_compute. Qed.
Lemma slug_hosts slug : validateSlug slug = None → forallb slug_host_char (Str.chars slug) = true ∧ Str.truthy slug = true.
Proof.
unfold validateSlug. destruct (_ <? 3)%nat eqn:Hl; [done|]. destruct (32 <? _)%nat; [done|].
destruct (slug_shape (Str.chars slug)) eqn:E; [|done]. intros _. split; [|by destruct slug].
apply forallb_weaken with (p := slug_char); [apply slug_char_host|].
unfold slug_shape in E. destruct (Str.chars slug) as [|c l]; [done|]. destruct (rev l) as [|e mid] eqn:Er; [done|].
apply (f_equal (@rev ascii)) in Er. rewrite rev_involutive in Er. subst l. bool_hyps.
apply forallb_forall. intros x [<-|[<-|Hx]%in_rev]; unfold slug_char; [by apply orb_true_intro; left..|].
match goal with H : forallb slug_char mid = true |- _ => rewrite forallb_forall in H; by apply H end.
Qed.

(** The ways a client writes a host: in any case, with a port, with the root-zone dot. *)
Definition host_spelling (name raw : string) : Prop :=
  ∃ dot port, (dot = "" ∨ dot = ".") ∧ (port = "" ∨ ∃ p, port = String ":" p) ∧ Str.to_lower (Str.trim raw) = name +:+ dot +:+ port.

Lemma normalize_spelling name raw : no_sep ":" (Str.chars name) → (∃ c, head (rev (Str.chars name)) = Some c ∧ c ≠ "."%char) →
  host_spelling name raw ↔ normalizeHost raw = name.
Proof.
intros Hn (c & Hc & Hd). unfold host_spelling, normalizeHost. set (low := Str.to_lower _). clearbody low. split.
- intros (dot & port & Hdot & Hport & ->). assert (no_sep ":" (Str.chars (name +:+ dot))) as Hnd.
  { unfold no_sep in *. rewrite chars_append, forallb_app, Hn. by destruct Hdot as [->| ->]. }
  assert (Text.split ":" (name +:+ dot +:+ port) = (name +:+ dot) :: match port with EmptyString => [] | String _ p => Text.split ":" p end) as ->.
  { rewrite <- append_assoc. destruct Hport as [->|[p ->]]; [|by apply split_more].
    rewrite append_nil. by apply split_one. }
  cbn [head default]. destruct Hdot as [->| ->]; [|apply drop_dot_dotted].
  rewrite append_nil. by eapply drop_dot_id.
- destruct (Text.split ":" low) as [|a ws] eqn:E; [intros <-; by cbn in Hc|]. intros Ha. change (drop_final_dot a = name) in Ha.
  destruct (split_parts _ _ _ _ E) as [_ Hs]. assert (∃ dot, (dot = "" ∨ dot = ".") ∧ a = name +:+ dot) as (dot & Hdot & ->).
  { destruct (drop_dot_inv a) as [H|H]; rewrite Ha in H; [exists ""|exists "."]; (split; [by auto|]); [by rewrite append_nil|done]. }
  destruct ws as [|w ws].
  + exists dot, "". rewrite append_nil. by auto.
  + destruct Hs as (s' & -> & _). exists dot, (String ":" s'). rewrite append_assoc. by eauto.
Qed.

Lemma slug_in_host slug base : validateSlug slug = None → host_name base →
  no_sep ":" (Str.chars (slug +:+ "." +:+ base)) ∧ ∃ c, head (rev (Str.chars (slug +:+ "." +:+ base))) = Some c ∧ c ≠ "."%char.
Proof.
intros [Hs _]%slug_hosts [Hb (c & Hc & Hd)]. split.
- unfold no_sep. rewrite !chars_append, !forallb_app. apply andb_true_intro. split; [|by apply host_name_no_colon in Hb].
  eapply forallb_weaken, Hs. unfold slug_host_char, host_char. intros x Hx. by repeat apply andb_true_iff in Hx as [Hx ?].
- exists c. split; [|done]. rewrite !chars_append, !rev_app_distr. destruct (rev (Str.chars base)); [done|exact Hc].
Qed.

(** A tenant's address routes to it, whatever the spelling: for a host name [base] the router takes
    [raw] for the tenant [slug] exactly when [slug] is one signup would grant and [raw] spells
    [<slug>.<base>], in any case, with or without a port and the root-zone dot.  Every studio URL the
    portal shows ([https://<slug>.<base>]) therefore reaches its own tenant, and no other host reaches any. *)
Theorem tenant_hosts_are_exact base raw slug : host_name base →
  classifyHost (Some raw) ("." +:+ base) = TenantHost slug ↔
  validateSlug slug = None ∧ host_spelling (slug +:+ "." +:+ base) raw.
Proof.
intros Hb. pose proof Hb as [Hc (d & Hd & Hdot)].
assert (forallb host_char (Str.chars ("." +:+ base)) = true) as Hsc by exact Hc.
assert (drop_final_dot (Str.to_lower (Str.trim ("." +:+ base))) = "." +:+ base) as Hsuf.
{ rewrite host_name_trim, host_name_lower by done. eapply drop_dot_id; [|exact Hdot].
  rewrite chars_append, rev_app_distr. destruct (rev (Str.chars base)); [done|exact Hd]. }
assert ((length (Str.chars ("." +:+ base)) <? 2)%nat = false) as Hlen by (destruct base; done).
assert (starts_with "." ("." +:+ base) = true) as Hst by (apply starts_with_spec; by exists base).
unfold classifyHost. change (default "" (Some raw)) with raw. rewrite Hsuf, Hlen, Hst. cbn [negb orb]. split.
- destruct (is_set (Some raw)); [cbn [negb]|done]. destruct (ends_with _ _) eqn:He; [cbn [negb]|done]. apply ends_with_spec in He as [r He].
  rewrite He, without_end_app. destruct (Str.truthy r); [|done]. destruct (has_dot r); [done|]. cbn [negb].
  destruct (validateSlug r) eqn:Hv; [done|]. intros [= <-]. split; [done|]. by apply normalize_spelling; [apply slug_in_host..|].
- intros [Hv Hs]. apply normalize_spelling in Hs; [|by apply slug_in_host..]. destruct (slug_hosts _ Hv) as [Hsl Ht].
  assert (is_set (Some raw) = true) as ->. { destruct raw; [|done]. by destruct slug. }
  cbn [negb]. rewrite Hs. replace (ends_with _ _) with true by (symmetry; apply ends_with_spec; by exists slug). cbn [negb].
  rewrite without_end_app, Ht. cbn [negb]. replace (has_dot slug) with false; [by rewrite Hv|].
  symmetry. unfold has_dot. apply not_true_iff_false. intros (c & Hin & Hc')%existsb_exists.
  rewrite forallb_forall in Hsl. specialize (Hsl c Hin). unfold slug_host_char in Hsl. apply andb_true_iff in Hsl as [_ Hsl].
  apply Ascii.eqb_eq in Hc'. by subst.
Qed.
End hosts.

(** ** The tenant leg *)
Section tenant_leg.
Context {W : Type} `{AuthStore W}.
Context (digest : string → list ascii) (open : list ascii → list ascii → list ascii → option string).
Context (lookup_slug : string → M W string (option Tenant)) (now : M W string Z) (script_exists : string → M W string bool).

(** [tenantRefusal] lets through what the resolver calls live and the store has not deleted, and nothing else. *)
Lemma tenantRefusal_none t :
  tenantRefusal t = None ↔ t_deleted_at t = None ∧ t_suspended_at t = None ∧ t_status t = "live".
Proof.
unfold tenantRefusal. destruct (t_deleted_at t); cbn [is_null negb]; [naive_solver|]. destruct (t_suspended_at t); cbn [is_null negb]; [naive_solver|].
destruct (String.eqb_spec (t_status t) "live") as [->|Hn]; [done|].
by destruct (existsb (String.eqb (t_status t)) _), (t_status t =s? "failed"); (split; [|intros (_ & _ & ?)]).
Qed.

Lemma dispatched_headers request injected :
  let sent := rq_headers (dispatchRequest request injected) in
  readSessionCookie (header_get "cookie" sent) = None ∧
  header_get "authorization" sent = if is_set injected then Some ("Bearer " +:+ default "" injected) else header_get "authorization" (rq_headers request).
Proof.
unfold dispatchRequest, fresh. cbn [rq_headers]. destruct (is_set injected).
- split; [rewrite header_get_set_other by done; apply stripped_cookie|by apply header_get_set].
- split; [apply stripped_cookie|by apply strip_keeps].
Qed.

(** C11. The kill switch holds and no control-plane credential leaks: a request reaches a tenant's script only
    when the host names a slug whose row, read for this request, is live, not suspended and not deleted,
    and the script is that row's.  What the script receives is the same method, URL and body, never
    carries the control plane's session cookie, and carries the studio token only if the session behind
    the cookie belongs to the tenant's owner and an installed key opens the row's ciphertext; otherwise
    the Authorization header is the client's own. *)
Theorem dispatch_is_guarded env request s script sent s' :
  routeTenantRequest digest open lookup_slug now script_exists env request s = (Ok (Dispatch script sent), s') →
  ∃ slug tenant s1,
    classifyHost (header_get "host" (rq_headers request)) (tenantDomainSuffix env) = TenantHost slug ∧
    lookup_slug slug s = (Ok (Some tenant), s1) ∧
    t_deleted_at tenant = None ∧ t_suspended_at tenant = None ∧ t_status tenant = "live" ∧ t_script_name tenant = Some script ∧
    rq_method sent = rq_method request ∧ rq_url sent = rq_url request ∧
    readSessionCookie (header_get "cookie" (rq_headers sent)) = None ∧
    (header_get "authorization" (rq_headers sent) = header_get "authorization" (rq_headers request) ∨
     ∃ token t s2 owner s3, header_get "authorization" (rq_headers sent) = Some ("Bearer " +:+ token) ∧
       decryptStudioToken open (studioKekRing env) (default "" (t_studio_token_enc tenant)) = Ok token ∧
       resolveSession digest (header_get "cookie" (rq_headers request)) t s2 = (Ok (Some owner), s3) ∧ ac_id owner = t_account_id tenant).
Proof.
unfold routeTenantRequest. destruct (classifyHost _ _) as [|slug|]; [done| |done].
rewrite attempt_bind. destruct (lookup_slug slug s) as [[[tenant|]|e] s1] eqn:Hl; [|done..].
destruct (tenantRefusal tenant) eqn:Hr; [done|]. apply tenantRefusal_none in Hr as (? & ? & ?).
destruct (t_script_name tenant) as [name|] eqn:Hn; [|done]. destruct (is_set (Some name)); [cbn [negb]|done].
destruct (re_dispatch_bound env); [cbn [negb]|done].
intros (t & s2 & _ & Hs)%M_bind_inv. apply M_bind_inv in Hs as (account & s3 & Hacc & Hs).
destruct (negb _ && wantsHtml request); [done|]. apply M_bind_inv in Hs as (there & s4 & _ & Hs). destruct there; [|done].
injection Hs as Hname <- <-. cbn [default] in Hname. subst name.
exists slug, tenant, s1. repeat (split; [done|]).
destruct (dispatched_headers request (if match account with Some a => ac_id a =s? t_account_id tenant | None => false end
  then owner_token open env tenant else None)) as [Hc Ha]. split; [exact Hc|]. rewrite Ha.
destruct account as [a|]; [|by left]. destruct (String.eqb_spec (ac_id a) (t_account_id tenant)); [|by left].
unfold owner_token. destruct (is_set (re_kek env) && _); [|by left].
destruct (decryptStudioToken _ _ _) as [token|] eqn:Hd; [|by left]. destruct (is_set (Some token)) eqn:Hset; [right|by left].
exists token, t, s2, a, s3. done.
Qed.
End tenant_leg.
