(* ===== verification/LlmRollup.v ===== *)
(** * Reading the gateway (src/llm-spend-rollup.ts)

    One roll-up run: the positive control, the page walk from the watermark, and what may be claimed
    of it.  The gateway is a service: [list] and [probe] are parameters, acting on the state [G] of
    the world outside, and a log row is whatever JSON came back. *)

From S2P Require Export BillingPeriod.
From Stdlib Require Import Sorting.Sorted.
Open Scope string_scope.
Open Scope list_scope.
Open Scope Z_scope.
Open Scope plane_scope.

Definition MAX_PER_PAGE : Z := 50.

Definition toMicroUsd (cost : js) : option Num.num :=
  match cost with
  | JNum n =>
      if negb (Num.is_finite n) || Num.is_neg n then None
      else Some (Num.round (Num.scale n 1000000))
  | _ => None
  end.

Record SpendEvent := mkEvent {
  source : string;
  sourceId : string;
  tenantId : option string;
  slug : option string;
  model : option string;
  costMicroUsd : option Num.num;
  tokensIn : option Num.num;
  tokensOut : option Num.num;
  cached : option bool;
  occurredAt : string;
}.

Definition str (v : js) : option string :=
  match v with
  | JStr s => if Str.truthy (Str.trim s) then Some (Str.trim s) else None
  | _ => None
  end.

Definition num (v : js) : option Num.num :=
  match v with
  | JNum n => if Num.is_finite n then Some (Num.trunc n) else None
  | _ => None
  end.

Definition parseLogRow (row : js) : option SpendEvent :=
  match str (js_field row "id"), str (js_field row "created_at") with
  | Some sourceId, Some occurredAt =>
      let metadata := js_field row "metadata" in
      let meta := if js_is_object metadata then Some metadata else None in
      Some (mkEvent "ai_gateway" sourceId
        (m ← meta; str (js_field m "tenant_id"))
        (m ← meta; str (js_field m "slug"))
        (str (js_field row "model"))
        (toMicroUsd (js_field row "cost"))
        (num (js_field row "tokens_in"))
        (num (js_field row "tokens_out"))
        (match js_field row "cached" with JBool b => Some b | _ => None end)
        occurredAt)
  | _, _ => None
  end.

Definition later_of (best : option string) (e : SpendEvent) : option string :=
  match best with
  | None => Some (occurredAt e)
  | Some b => if b <s? occurredAt e then Some (occurredAt e) else best
  end.
Definition newestOccurredAt (events : list SpendEvent) : option string :=
  fold_left later_of events None.

Inductive RollupStatus := Complete | Incomplete | Failed.
#[export] Instance RollupStatus_eq_dec : EqDecision RollupStatus.
Proof. solve_decision. Defined.

Inductive RollupNote :=
| ProbeThrew (message : string)
| PagingFailed (message : string)
| ControlFailed (total : option Num.num)
| PageCapReached (pageCap : nat)
| GapFound (oldest after : string)
| UnpricedRows (n : nat)
| DroppedRows (n : nat)
| UnattributedRows (n : nat).

Record RollupResult := mkRollup {
  status : RollupStatus;
  controlPassed : bool;
  gapDetected : bool;
  events : list SpendEvent;
  rowsSeen : nat;
  rowsDropped : nat;
  newWatermark : option string;
  note : list RollupNote;
}.

Record Collected := mkCollected {
  c_events : list SpendEvent;
  c_rowsSeen : nat;
  c_rowsDropped : nat;
  c_exhausted : bool;
}.

Definition unparseable (r : js) : bool := match parseLogRow r with Some _ => false | None => true end.

(** The rows of one page added to what was collected. *)
Definition add_page (rows : list js) (c : Collected) : Collected :=
  mkCollected (c_events c ++ omap parseLogRow rows) (c_rowsSeen c + length rows)
    (c_rowsDropped c + length (jfilter unparseable rows))
    (c_exhausted c).

Record Probe := mkProbe { total : option Num.num; oldest : option string }.

(** [typeof total === "number" && total > 0] *)
Definition num_positive (n : option Num.num) : bool :=
  match n with
  | Some (Num.NInt z) => 0 <? z
  | Some (Num.NFrac m _) => 0 <? m
  | Some (Num.NInf neg) => negb neg
  | _ => false
  end.

Section reader.
Context {G : Type}.
(** [reader.list({ after, page, perPage })] and [reader.probe()]. *)
Variable list_ : option string → Z → Z → M G string (list js).
Variable probe : M G string Probe.

(** The loop over pages [page .. page + n - 1]. *)
Fixpoint collect_pages (after : option string) (perPage : Z) (n : nat) (page : Z) (c : Collected) : M G string Collected :=
  match n with
  | O => mret c
  | S n =>
      rows ← list_ after page perPage;
      let c' := add_page rows c in
      if Z.of_nat (length rows) <? perPage
      then mret (mkCollected (c_events c') (c_rowsSeen c') (c_rowsDropped c') true)
      else collect_pages after perPage n (page + 1) c'
  end.

Definition collectSince (after : option string) (pageCap : nat) (perPage : Z) : M G string Collected :=
  collect_pages after perPage pageCap 1 (mkCollected [] 0 0 false).

Definition gap (after oldest : option string) : bool :=
  match after, oldest with
  | Some a, Some o => Str.truthy a && Str.truthy o && (a <s? o)
  | _, _ => false
  end.

Definition rollup_notes (probed : Probe) (after : option string) (pageCap : nat)
    (controlPassed gapDetected : bool) (c : Collected) : list RollupNote :=
  (if controlPassed then [] else [ControlFailed (total probed)]) ++
  (if c_exhausted c then [] else [PageCapReached pageCap]) ++
  (if gapDetected then [GapFound (default "null" (oldest probed)) (default "undefined" after)] else []) ++
  (let unpriced := length (jfilter (λ e, bool_decide (costMicroUsd e = None)) (c_events c)) in
   if (0 <? unpriced)%nat then [UnpricedRows unpriced] else []) ++
  (if (0 <? c_rowsDropped c)%nat then [DroppedRows (c_rowsDropped c)] else []) ++
  (let unattributed := length (jfilter (λ e, bool_decide (tenantId e = None)) (c_events c)) in
   if (0 <? unattributed)%nat then [UnattributedRows unattributed] else []).

Definition failed_result (controlPassed gapDetected : bool) (n : RollupNote) : RollupResult :=
  mkRollup Failed controlPassed gapDetected [] 0 0 None [n].

Definition runRollup (after : option string) (pageCap : nat) : M G string RollupResult := λ g,
  match probe g with
  | (Err e, g) => (Ok (failed_result false false (ProbeThrew e)), g)
  | (Ok probed, g) =>
      let controlPassed := num_positive (total probed) in
      let gapDetected := gap after (oldest probed) in
      match collectSince after pageCap MAX_PER_PAGE g with
      | (Err e, g) => (Ok (failed_result controlPassed gapDetected (PagingFailed e)), g)
      | (Ok c, g) =>
          (Ok (mkRollup (if c_exhausted c && negb gapDetected then Complete else Incomplete)
                 controlPassed gapDetected (c_events c) (c_rowsSeen c) (c_rowsDropped c)
                 (newestOccurredAt (c_events c))
                 (rollup_notes probed after pageCap controlPassed gapDetected c)), g)
      end
  end.
End reader.

(** The text of a note; [show] is [String(n)] on a number or null. *)
Definition note_text (show : option Num.num → string) (n : RollupNote) : string :=
  match n with
  | ProbeThrew m => "positive control threw, so nothing read is evidence: " +:+ m
  | PagingFailed m => "paging failed: " +:+ m
  | ControlFailed t =>
      "POSITIVE CONTROL FAILED: an unfiltered probe reported " +:+ show t +:+ ". An empty read " +:+
      "is indistinguishable from wrong-gateway, wrong-account or no-permission, so this period " +:+
      "is UNBILLABLE rather than zero."
  | PageCapReached c =>
      "page cap " +:+ Str.of_int (Z.of_nat c) +:+
      " reached before exhaustion; window is PARTIAL and RESUMABLE."
  | GapFound o a =>
      "GAP: the oldest row still in the gateway (" +:+ o +:+ ") is newer than the " +:+
      "watermark (" +:+ a +:+ "), so rows between them were deleted UNREAD and are gone. " +:+
      "Not resumable; this is retention loss, not an unfinished walk."
  | UnpricedRows k =>
      Str.of_int (Z.of_nat k) +:+
      " row(s) carried no usable cost and were kept with a NULL cost, never 0: a row we " +:+
      "cannot price is recorded and unbillable rather than silently free."
  | DroppedRows k =>
      Str.of_int (Z.of_nat k) +:+ " row(s) unparseable and dropped; that is a gap, not a zero."
  | UnattributedRows k =>
      Str.of_int (Z.of_nat k) +:+
      " row(s) carried no cf-aig-metadata and are UNATTRIBUTED. Written with a null " +:+
      "tenant, never spread: a rising count means the emitter regressed."
  end.

(** ** Money *)
Section money.
Import Num.

Lemma pow_1024 : 2 ^ 54 < 2 ^ 1024.
Proof. apply Z.pow_lt_mono_r; lia. Qed.

Lemma round_lowest m e fuel :
  Num.round (lowest m e fuel) = NInt ((m + 2 ^ (Zpos e - 1)) / 2 ^ Zpos e).
Proof.
  revert m e; induction fuel as [|fuel IH]; intros m e; [done|]. cbn [lowest].
  destruct (Z.even m) eqn:Ev; [|done].
  apply Z.even_spec in Ev as [m' ->].
  assert (2 * m' / 2 = m') as Hm by (rewrite Z.mul_comm; apply Z.div_mul; lia).
  assert (∀ e', Zpos e = Z.succ (Zpos e') →
    (2 * m' + 2 ^ (Zpos e - 1)) / 2 ^ Zpos e = (m' + 2 ^ (Zpos e' - 1)) / 2 ^ Zpos e') as Hstep.
  { intros e' He'. rewrite He', Z.pow_succ_r by lia.
    replace (Z.succ (Zpos e') - 1) with (Z.succ (Zpos e' - 1)) by lia.
    rewrite Z.pow_succ_r by lia. rewrite <- Z.mul_add_distr_l. apply Z.div_mul_cancel_l; lia. }
  destruct e as [e|e|]; cycle 2.
  { rewrite Hm. cbn [Num.round]. f_equal. change (2 ^ (1 - 1)) with 1. change (2 ^ 1) with 2. dm. }
  all: rewrite Hm, IH; f_equal; symmetry; apply Hstep; lia.
Qed.

(** Scaling by an integer and rounding to an integer, for a product below [2^53]: within one unit
    of the exact product. *)
Lemma round_make_error p e :
  0 <= p → 0 < e <= 1074 → p < 2 ^ (53 + e) →
  ∃ r, Num.round (make p e) = NInt r ∧ 0 <= r ∧ Z.abs (r * 2 ^ e - p) <= 2 ^ e.
Proof.
  intros Hp He Hlt. unfold make. rewrite (Z.max_l (excess p)) by (pose proof (excess_nonneg p); lia).
  assert (excess p <= e) as Hk.
  { unfold excess. rewrite Z.abs_eq by done.
    destruct (Z.eq_dec p 0) as [->|Hp0]; [cbn; lia|].
    assert (Z.log2 p < 53 + e) by (apply Z.log2_lt_pow2; lia). lia. }
  set (k := excess p) in *. assert (0 <= k) as Hk0 by apply excess_nonneg.
  set (m' := if k <=? 0 then p else rne p k / 2 ^ k).
  set (e' := if k <=? 0 then e else e - k).
  assert (2 * Z.abs (m' * 2 ^ k - p) <= 2 ^ k ∧ e' = e - k) as [Herr ->].
  { unfold m', e'. destruct (k <=? 0) eqn:E; bool_hyps.
    - assert (k = 0) as -> by lia. split; lia.
    - split; [|done]. pose proof (rne_error p k ltac:(lia)) as H.
      destruct (rne_divide p k) as [q Hq]. rewrite Hq in *. rewrite Z.div_mul by lia. lia. }
  assert (0 <= m') as Hm'.
  { unfold m'. destruct (k <=? 0); [done|]. apply Z.div_pos; [|lia]. unfold rne.
    assert (0 <= p / 2 ^ k) by (apply Z.div_pos; lia). repeat case_match; nia. }
  assert (2 ^ e = 2 ^ (e - k) * 2 ^ k) as Hsplit by (rewrite <- Z.pow_add_r by lia; f_equal; lia).
  destruct (e - k <=? 0) eqn:E; bool_hyps.
  - assert (e - k = 0) as Hz by lia. rewrite Hz in *. change (2 ^ (- 0)) with 1.
    change (2 ^ 0) with 1 in Hsplit. exists m'. unfold finite.
    assert (m' <= 2 ^ 54) as Hm54.
    { assert (k = e) by lia. subst k.
      assert (2 ^ (53 + e) = 2 ^ 53 * 2 ^ e) as H1 by (rewrite <- Z.pow_add_r by lia; done).
      assert (0 < 2 ^ e) by lia.
      replace (2 ^ excess p) with (2 ^ e) in Herr by (f_equal; lia). nia. }
    rewrite Z.mul_1_r, (proj2 (Z.ltb_lt _ _)) by (pose proof pow_1024; lia). split_and!; [done|done|]. rewrite Hsplit. lia.
  - rewrite round_lowest. rewrite Z2Pos.id by lia. eexists. split_and!; [done| |].
    { apply Z.div_pos; lia. }
    set (d := 2 ^ (e - k)) in *.
    assert (2 ^ (e - k) = 2 * 2 ^ (e - k - 1)) as Hd by (rewrite <- Z.pow_succ_r by lia; f_equal; lia).
    fold d in Hd. set (h := 2 ^ (e - k - 1)) in *.
    assert (0 < d) as Hd0 by lia. set (r := (m' + h) / d).
    assert (2 * Z.abs (r * d - m') <= d) as Hr.
    { unfold r. pose proof (Z.div_mod (m' + h) d). pose proof (Z.mod_pos_bound (m' + h) d). lia. }
    rewrite Hsplit. assert (0 < 2 ^ k) by lia. set (t := 2 ^ k) in *. nia.
Qed.
End money.

(** C40. A gateway cost is turned into micro-USD to within one micro-USD, for any amount whose
    micro-USD value is below [2^53]; a missing, negative or non-finite cost has no value at all,
    never zero. *)
Theorem toMicroUsd_accurate v :
  match v with
  | JNum (Num.NInt z) =>
      if z <? 0 then toMicroUsd v = None
      else z * 1000000 <= Num.max_safe → toMicroUsd v = Some (Num.NInt (z * 1000000))
  | JNum (Num.NFrac m e) =>
      if m <? 0 then toMicroUsd v = None
      else Zpos e <= 1074 → m * 1000000 < 2 ^ (53 + Zpos e) →
           ∃ r, toMicroUsd v = Some (Num.NInt r) ∧ 0 <= r ∧
                Z.abs (r * 2 ^ Zpos e - m * 1000000) <= 2 ^ Zpos e
  | _ => toMicroUsd v = None
  end.
Proof.
  destruct v as [| |b|[z|m e|b|]|s|l|l]; try done.
  - unfold toMicroUsd. cbn. destruct (z <? 0) eqn:E; [done|]. intros Hz. bool_hyps. unfold Num.make.
    rewrite excess_small by (unfold Num.max_safe in Hz; lia).
    change (Z.max 0 (0 - 1074)) with 0. cbn. unfold Num.finite. rewrite Z.mul_1_r.
    rewrite (proj2 (Z.ltb_lt _ _)); [done|].
    unfold Num.max_safe in Hz. pose proof pow_1024. lia.
  - unfold toMicroUsd. cbn. destruct (m <? 0) eqn:E; [done|]. intros He Hm. bool_hyps.
    destruct (round_make_error (m * 1000000) (Zpos e)) as (r & -> & Hr & Herr); [lia..|].
    by exists r.
Qed.

(** ** The watermark *)

Lemma later_of_spec b e :
  ∃ w, later_of b e = Some w ∧ (w = occurredAt e ∨ b = Some w) ∧
       (occurredAt e <=s? w) = true ∧ (∀ w0, b = Some w0 → (w0 <=s? w) = true).
Proof.
  unfold later_of. destruct b as [w0|].
  - destruct (w0 <s? occurredAt e) eqn:E; eexists; split_and!; try done; try (by left); try (by right).
    + apply leb_refl.
    + intros w1 [= <-]. by apply ltb_leb.
    + unfold Str.leb. by rewrite E.
    + intros w1 [= <-]. apply leb_refl.
  - eexists. split_and!; [done|by left|apply leb_refl|done].
Qed.

(** The newest timestamp of a batch is one of the batch's, and none is later. *)
Lemma newestOccurredAt_spec l :
  match newestOccurredAt l with
  | None => l = []
  | Some w => (∃ e, e ∈ l ∧ occurredAt e = w) ∧ ∀ e, e ∈ l → (occurredAt e <=s? w) = true
  end.
Proof.
  unfold newestOccurredAt. induction l as [|e l IH] using rev_ind; [done|].
  rewrite fold_left_app. cbn. destruct (later_of_spec (fold_left later_of l None) e) as (w & -> & Hor & He & Hb).
  destruct (fold_left later_of l None) as [w0|].
  - destruct IH as [(e0 & Hin & Heq) Hall]. specialize (Hb w0 eq_refl). split.
    + destruct Hor as [->|[= ->]]; [exists e|exists e0]; (split; [apply elem_of_app|done]).
      * right. by left.
      * by left.
    + intros e' [Hin'|Hin']%elem_of_app; [eapply leb_trans; eauto|].
      by apply list_elem_of_singleton in Hin' as ->.
  - subst l. destruct Hor as [->|?]; [|done]. split; [exists e; split; [left|done]|].
    intros e' Hin'%list_elem_of_singleton. by subst.
Qed.

(** ** The page walk *)

Lemma omap_dropped l :
  (length (omap parseLogRow l) + length (jfilter unparseable l) = length l)%nat.
Proof.
  unfold jfilter. induction l as [|r l IH]; [done|]. cbn. unfold unparseable at 1.
  destruct (parseLogRow r) as [e|]; cbn; lia.
Qed.

Section walk.
Context {G : Type}.
Variable list_ : option string → Z → Z → M G string (list js).

Definition accounted (c : Collected) : Prop := (c_rowsSeen c = length (c_events c) + c_rowsDropped c)%nat.

Lemma add_page_accounted rows c : accounted c → accounted (add_page rows c).
Proof. unfold accounted. cbn. intros ->. rewrite length_app. pose proof (omap_dropped rows). lia. Qed.

Lemma collect_pages_accounted after pp n page c g c' g' :
  accounted c → collect_pages list_ after pp n page c g = (Ok c', g') → accounted c'.
Proof.
  revert page c g; induction n as [|n IH]; intros page c g Hc H; cbn in H.
  - unfold mret, M_ret in H. by simplify_eq.
  - unfold mbind, M_bind in H. destruct (list_ after page pp g) as [[rows|e] g1]; [|done].
    pose proof (add_page_accounted rows c Hc) as Hc1.
    destruct (Z.of_nat (length rows) <? pp); [|by eapply IH].
    unfold mret, M_ret in H. simplify_eq. exact Hc1.
Qed.
End walk.

(** Nothing read is lost from the count: every row a walk saw is either an event or counted as
    dropped, whatever the gateway answers. *)
Theorem collectSince_accounts {G} (list_ : option string → Z → Z → M G string (list js)) after cap pp g c g' :
  collectSince list_ after cap pp g = (Ok c, g') →
  (c_rowsSeen c = length (c_events c) + c_rowsDropped c)%nat.
Proof. intros H. eapply collect_pages_accounted in H; [exact H|done]. Qed.

(** A gateway that holds still during a run: [L after] is what the filter matches, in order, and a
    page is a slice of it (page numbers start at 1). *)
Section static_gateway.
Context {G : Type}.
Variable list_ : option string → Z → Z → M G string (list js).
Variable L : option string → list js.

Definition serves_pages (g : G) : Prop := ∀ after page (pp : nat), 1 <= page →
  list_ after page (Z.of_nat pp) g =
    (Ok (firstn pp (skipn (Z.to_nat (page - 1) * pp) (L after))), g).

Context (g : G) (Hpages : serves_pages g).

Definition walked (after : option string) (n : nat) (c : Collected) : Prop :=
  c_events c = omap parseLogRow (firstn n (L after)) ∧ c_rowsSeen c = n ∧ (n <= length (L after))%nat.

Lemma walked_page after pp n c :
  walked after n c →
  let rows := firstn pp (skipn n (L after)) in
  walked after (n + length rows) (add_page rows c).
Proof.
  intros (He & Hs & Hn) rows. unfold walked, add_page. cbn.
  assert (length rows <= length (L after) - n)%nat as Hlen.
  { unfold rows. rewrite length_firstn, length_skipn. lia. }
  split_and!; [|by rewrite Hs|lia].
  rewrite He, <- omap_app. f_equal. rewrite <- (take_take_drop (L after) n (length rows)). f_equal.
  unfold rows at 2. rewrite length_firstn.
  destruct (Nat.min_spec pp (length (skipn n (L after)))) as [[_ ->]|[Hge ->]]; [done|].
  unfold rows. rewrite !firstn_all2; (done || lia).
Qed.

Lemma collect_pages_walk after pp n page c :
  (0 < pp)%nat → walked after (page * pp) c → c_exhausted c = false →
  ∃ c', collect_pages list_ after (Z.of_nat pp) n (Z.of_nat page + 1) c g = (Ok c', g) ∧
        walked after (c_rowsSeen c') c' ∧
        if c_exhausted c' then c_rowsSeen c' = length (L after)
        else c_rowsSeen c' = ((page + n) * pp)%nat.
Proof.
  intros Hpp. revert page c; induction n as [|n IH]; intros page c Hw Hex.
  - exists c. rewrite Hex. destruct Hw as (He & Hs & Hl). cbn. split_and!; [done|by rewrite Hs|lia].
  - cbn [collect_pages]. unfold mbind, M_bind. rewrite Hpages by lia.
    replace (Z.to_nat (Z.of_nat page + 1 - 1)) with page by lia.
    pose proof (walked_page after pp (page * pp) c Hw) as Hw'. cbn zeta in Hw'.
    set (rows := firstn pp (skipn (page * pp) (L after))) in *.
    assert (length rows = pp `min` (length (L after) - page * pp))%nat as Hlen.
    { unfold rows. by rewrite length_firstn, length_skipn. }
    destruct (Z.of_nat (length rows) <? Z.of_nat pp) eqn:E; bool_hyps.
    + eexists. split; [reflexivity|]. destruct Hw' as (He' & Hs' & Hl').
      split; [|cbn in *; lia]. unfold walked. cbn in *. by rewrite Hs'.
    + assert (length rows = pp) as Heq by lia. rewrite Heq in Hw'.
      destruct (IH (S page) (add_page rows c)) as (c' & Hc' & Hw'' & Hend).
      * by replace (S page * pp)%nat with (page * pp + pp)%nat by lia.
      * done.
      * exists c'. replace (Z.of_nat (S page) + 1) with (Z.of_nat page + 1 + 1) in Hc' by lia.
        rewrite Hc'. split_and!; [done|done|].
        by replace (page + S n)%nat with (S page + n)%nat by lia.
Qed.
End static_gateway.


(** What a finished walk of a still gateway reports, in terms of the list the filter matches. *)
Section run_spec.
Context {G : Type}.
Variable list_ : option string → Z → Z → M G string (list js).
Variable probe : M G string Probe.
Variable L : option string → list js.

Definition ascending (l : list SpendEvent) : Prop :=
  StronglySorted (λ a b, (occurredAt a <=s? occurredAt b) = true) l.

(** What the code relies on of the gateway: a still list served page by page in ascending order,
    whose [gt] filter never leaves out a row at or after the cursor. *)
Record still_gateway (g : G) : Prop := mkStill {
  still_pages : serves_pages list_ L g;
  still_ascending after : ascending (omap parseLogRow (L after));
  still_filter after w r e :
    r ∈ L after → parseLogRow r = Some e → (w <=s? occurredAt e) = true → r ∈ L (Some w);
}.

Lemma ascending_app l1 l2 a b : ascending (l1 ++ l2) → a ∈ l1 → b ∈ l2 → (occurredAt a <=s? occurredAt b) = true.
Proof.
  induction l1 as [|x l1 IH]; cbn; intros Hs Ha Hb; [by apply elem_of_nil in Ha|].
  apply StronglySorted_inv in Hs as [Hs Hx]. apply elem_of_cons in Ha as [->|Ha]; [|by apply IH].
  rewrite List.Forall_forall in Hx. apply Hx. apply in_or_app. right. by apply list_elem_of_In.
Qed.

Lemma collectSince_static g after cap :
  serves_pages list_ L g →
  ∃ c, collectSince list_ after cap MAX_PER_PAGE g = (Ok c, g) ∧
       c_events c = omap parseLogRow (firstn (c_rowsSeen c) (L after)) ∧
       (c_rowsSeen c <= length (L after))%nat ∧
       if c_exhausted c then c_rowsSeen c = length (L after) else c_rowsSeen c = (cap * 50)%nat.
Proof.
  intros Hp. destruct (collect_pages_walk list_ L g Hp after 50 cap 0 (mkCollected [] 0 0 false))
    as (c & Hc & (He & Hs & Hl) & Hend).
  - lia.
  - split_and!; cbn; done || lia.
  - done.
  - exists c. unfold collectSince. change 1 with (Z.of_nat 0 + 1).
    change MAX_PER_PAGE with (Z.of_nat 50). rewrite Hc. split_and!; done.
Qed.

Lemma runRollup_static g after cap p :
  serves_pages list_ L g → probe g = (Ok p, g) →
  ∃ r, runRollup list_ probe after cap g = (Ok r, g) ∧
    events r = omap parseLogRow (firstn (rowsSeen r) (L after)) ∧
    newWatermark r = newestOccurredAt (events r) ∧
    controlPassed r = num_positive (total p) ∧
    gapDetected r = gap after (oldest p) ∧
    (rowsSeen r <= length (L after))%nat ∧
    match status r with
    | Complete => rowsSeen r = length (L after) ∧ gapDetected r = false
    | Incomplete => gapDetected r = true ∨ rowsSeen r = (cap * 50)%nat
    | Failed => False
    end.
Proof.
  intros Hp Hpr. destruct (collectSince_static g after cap Hp) as (c & Hc & He & Hl & Hend).
  unfold runRollup. rewrite Hpr, Hc. eexists. split; [reflexivity|]. cbn. split_and!; try done.
  destruct (c_exhausted c), (gap after (oldest p)); cbn; auto.
Qed.
End run_spec.

(** A run of the meter never leaves a log row behind its own cursor.  Against a gateway that
    holds still during the run, serves its rows page by page in ascending order and whose time filter
    keeps every row at or after the cursor, each row the run could see that parses is either among
    the events it returns or is served again by the next run, from the cursor the run hands over (the
    new watermark when there is one, the old one otherwise); when the run says complete, every row
    was read. *)
Theorem resume_never_skips {G} (list_ : option string → Z → Z → M G string (list js)) (probe : M G string Probe)
    (L : option string → list js) (g : G) after cap p r e :
  still_gateway list_ L g → probe g = (Ok p, g) → r ∈ L after → parseLogRow r = Some e →
  ∃ res, runRollup list_ probe after cap g = (Ok res, g) ∧
    (e ∈ events res ∨
     r ∈ L (match newWatermark res with Some w => Some w | None => after end) ∧ status res ≠ Complete).
Proof.
  intros [Hp Hasc Hf] Hpr Hr He.
  destruct (runRollup_static list_ probe L g after cap p Hp Hpr) as (res & Hrun & Hev & Hw & _ & _ & Hle & Hst).
  exists res. split; [done|]. rewrite <- (take_drop (rowsSeen res) (L after)) in Hr.
  apply elem_of_app in Hr as [Hr|Hr].
  - left. rewrite Hev. apply list_elem_of_omap. eauto.
  - right. split.
    + assert (r ∈ L after) as Hin by (rewrite <- (take_drop (rowsSeen res) (L after)); apply elem_of_app; by right).
      rewrite Hw. pose proof (newestOccurredAt_spec (events res)) as Hnew.
      destruct (newestOccurredAt (events res)) as [w|]; [|done].
      destruct Hnew as [(e0 & He0 & <-) _]. apply (Hf after _ r e Hin He).
      specialize (Hasc after). rewrite <- (take_drop (rowsSeen res) (L after)), omap_app in Hasc.
      eapply (ascending_app _ _ e0 e Hasc); [by rewrite <- Hev|apply list_elem_of_omap; eauto].
    + intros Hs. rewrite Hs in Hst. destruct Hst as [Hlen _]. rewrite Hlen, drop_all in Hr.
      by apply elem_of_nil in Hr.
Qed.
