(* ===== verification/AiGatewayLogs.v ===== *)
(** * The client of the gateway's log endpoint (src/ai-gateway-logs.ts)

    The reader the roll-up runs over in production: the URL it asks for, what it accepts as a page,
    and what it refuses.  The network is a parameter; so is [JSON.stringify] of an arbitrary value,
    which only appears in the text of an error. *)

From S2P Require Export Http LlmRollup.
Open Scope string_scope.
Open Scope list_scope.
Open Scope Z_scope.
Open Scope plane_scope.

Definition PRISM_GATEWAY_ID : string := "skyphusion-llm".
Definition API_ROOT : string := "https://api.cloudflare.com/client/v4".

(** [AiGatewayLogsError]: a message and the HTTP status, when there was one. *)
Record AiGatewayLogsError := mkLogsError {
  ge_message : string;
  ge_status : option Z;
}.

Record AiGatewayLogsConfig := mkLogsConfig {
  lc_accountId : option string;
  lc_gatewayId : option string;
  lc_token : option string;
}.

(** The [filters] value: a one-element JSON array. *)
Definition after_filter (after : string) : string :=
  "[{" +:+ json_string "key" +:+ ":" +:+ json_string "created_at" +:+ "," +:+
  json_string "operator" +:+ ":" +:+ json_string "gt" +:+ "," +:+
  json_string "value" +:+ ":[" +:+ json_string after +:+ "]}]".

Definition buildLogsUrl (accountId gatewayId : string) (page perPage : Z) (after : option string) : string :=
  API_ROOT +:+ "/accounts/" +:+ encodeURIComponent accountId +:+ "/ai-gateway/gateways/" +:+
  encodeURIComponent gatewayId +:+ "/logs?" +:+
  search_params
    ([("page", Str.of_int page); ("per_page", Str.of_int perPage); ("order_by", "created_at");
      ("order_by_direction", "asc")] ++
     match after with
     | Some a => if Str.truthy a then [("filters", after_filter a)] else []
     | None => []
     end).

Record GatewayPage := mkPage {
  gp_rows : list js;
  gp_totalCount : option Num.num;
}.

Section client.
Variable stringify : js → string.

(** [(body ?? {}) as LogsEnvelope]: no field of a null body is set. *)
Definition parseLogsResponse (status : Z) (body : js) : AiGatewayLogsError + GatewayPage :=
  if (status <? 200) || (300 <=? status) then
    inl (mkLogsError ("AI Gateway logs answered HTTP " +:+ Str.of_int status) (Some status))
  else match js_field body "success" with
  | JBool true =>
      match js_field body "result" with
      | JArr rows =>
          inr (mkPage rows
                 (match js_field (js_field body "result_info") "total_count" with
                  | JNum n => if Num.is_finite n then Some n else None
                  | _ => None
                  end))
      | _ => inl (mkLogsError "AI Gateway logs returned no result array" (Some status))
      end
  | _ =>
      inl (mkLogsError
        ("AI Gateway logs refused the request: " +:+
         Str.take 400 (stringify (match js_field body "errors" with JUndef => JNull | e => e end))) (Some status))
  end.

Definition trimmed (o : option string) : string := Str.trim (default "" o).

(** The refusals of the constructor. *)
Definition logs_config_refusal (cfg : AiGatewayLogsConfig) : option string :=
  if negb (Str.truthy (trimmed (lc_accountId cfg))) then Some "AI Gateway logs reader needs an account id"
  else if negb (Str.truthy (trimmed (lc_gatewayId cfg))) then Some "AI Gateway logs reader needs a gateway id"
  else if negb (Str.truthy (default "" (lc_token cfg))) then Some "AI Gateway logs reader needs a read token"
  else if trimmed (lc_gatewayId cfg) =s? PRISM_GATEWAY_ID then
    Some ("refusing to meter gateway " +:+ Str.dq +:+ PRISM_GATEWAY_ID +:+ Str.dq +:+
          ": that is prism, not vivijure. Its logs are non-empty, so the roll-up positive control " +:+
          "would PASS while attributing another product's spend to vivijure tenants. Point " +:+
          "TENANT_AI_GATEWAY_ID at the hosted gateway.")
  else None.

Section reader.
Context {G : Type}.
Variable fetch : HttpRequest → M G string HttpResponse.
Variable cfg : AiGatewayLogsConfig.

Definition logs_request (url : string) : HttpRequest :=
  mkRequest url "GET"
    [("authorization", "Bearer " +:+ default "" (lc_token cfg)); ("accept", "application/json")] BNone.

Definition get_page (url : string) : M G string GatewayPage :=
  res ← fetch (logs_request url);
  match rs_json res with
  | None => throw ("AI Gateway logs answered HTTP " +:+ Str.of_int (rs_status res) +:+ " with a body that is not JSON")
  | Some body =>
      match parseLogsResponse (rs_status res) body with
      | inl e => throw (ge_message e)
      | inr p => mret p
      end
  end.

Definition logs_list (after : option string) (page perPage : Z) : M G string (list js) :=
  if page <? 1 then throw ("page must be a positive integer, got " +:+ Str.of_int page)
  else if (perPage <? 1) || (MAX_PER_PAGE <? perPage) then
    throw ("per_page must be 1.." +:+ Str.of_int MAX_PER_PAGE +:+ ", got " +:+ Str.of_int perPage)
  else
    p ← get_page (buildLogsUrl (trimmed (lc_accountId cfg)) (trimmed (lc_gatewayId cfg)) page perPage after);
    mret (gp_rows p).

Definition logs_probe : M G string Probe :=
  p ← get_page (buildLogsUrl (trimmed (lc_accountId cfg)) (trimmed (lc_gatewayId cfg)) 1 1 None);
  oldest ← (match gp_rows p with
            | [] => mret JUndef
            | r :: _ => lift (match r with JNull | JUndef => Err "TypeError: Cannot read properties of null"
                                         | _ => Ok (js_field r "created_at") end)
            end);
  mret (mkProbe (gp_totalCount p)
          (match oldest with JStr s => if Str.truthy s then Some s else None | _ => None end)).

(** [aiGatewayLogReader(cfg)]: the two functions a roll-up runs over, or the refusal. *)
Definition aiGatewayLogReader : AiGatewayLogsError + (option string → Z → Z → M G string (list js)) * M G string Probe :=
  match logs_config_refusal cfg with
  | Some m => inl (mkLogsError m None)
  | None => inr (logs_list, logs_probe)
  end.
End reader.
End client.

(** ** Lemmas *)

(** A 2xx answer whose body says success and carries a result array. *)
Definition well_formed_page (res : HttpResponse) : Prop :=
  rs_ok res = true ∧ ∃ body rows, rs_json res = Some body ∧ js_field body "success" = JBool true ∧
                                  js_field body "result" = JArr rows.

Section lemmas.
Context (stringify : js → string) {G : Type} (fetch : HttpRequest → M G string HttpResponse) (cfg : AiGatewayLogsConfig).

Lemma get_page_ok url g p g' :
  get_page stringify fetch cfg url g = (Ok p, g') →
  ∃ res, fetch (logs_request cfg url) g = (Ok res, g') ∧ well_formed_page res ∧
    ∃ body, rs_json res = Some body ∧ js_field body "result" = JArr (gp_rows p).
Proof.
  intros (res & g1 & Hf & Hp)%M_bind_inv.
  destruct (rs_json res) as [body|] eqn:Hj; [|done].
  destruct (parseLogsResponse stringify (rs_status res) body) as [e|p'] eqn:Hparse; [done|].
  injection Hp as -> ->. unfold parseLogsResponse in Hparse.
  destruct ((rs_status res <? 200) || (300 <=? rs_status res)) eqn:Hst; [done|].
  destruct (js_field body "success") as [| |[]| | | |] eqn:Hs; try done.
  destruct (js_field body "result") as [| | | | |rows|] eqn:Hr; try done. injection Hparse as <-.
  exists res. split; [done|]. split; [|by exists body].
  split; [|by exists body, rows]. unfold rs_ok. bool_hyps. apply andb_true_iff. split; [by apply Z.leb_le|by apply Z.ltb_lt].
Qed.

Lemma walk_pages_ok after pp n page c g c' g' :
  (0 < n)%nat → collect_pages (logs_list stringify fetch cfg) after pp n page c g = (Ok c', g') →
  ∃ g1 g2 res, fetch (logs_request cfg (buildLogsUrl (trimmed (lc_accountId cfg)) (trimmed (lc_gatewayId cfg)) page pp after)) g1
               = (Ok res, g2) ∧ well_formed_page res ∧ 1 <= pp <= MAX_PER_PAGE.
Proof.
  intros Hn H. destruct n as [|n]; [lia|]. cbn [collect_pages] in H. apply M_bind_inv in H as (rows & g1 & Hl & _).
  unfold logs_list in Hl. destruct (page <? 1); [done|].
  destruct ((pp <? 1) || (MAX_PER_PAGE <? pp)) eqn:Hpp; [done|]. bool_hyps.
  apply M_bind_inv in Hl as (p & g2 & Hg & _). apply get_page_ok in Hg as (res & Hf & Hw & _).
  exists g, g2, res. split_and!; (done || lia).
Qed.
End lemmas.

(** ** Properties *)

(** A gateway that answers anything but a well-formed page is never read as no spend.  If no
    answer of the log endpoint is a 2xx success envelope with a result array (wrong account, refused
    token, HTML, a body that is not JSON), then a roll-up over the live client fails: it reports no
    event, hands over no cursor, and never passes its positive control. *)
Theorem failed_gateway_is_never_zero {G} stringify (fetch : HttpRequest → M G string HttpResponse) cfg after cap (g : G) :
  (∀ rq g1 res g2, fetch rq g1 = (Ok res, g2) → ¬ well_formed_page res) →
  ∃ r g', runRollup (logs_list stringify fetch cfg) (logs_probe stringify fetch cfg) after cap g = (Ok r, g') ∧
    status r = Failed ∧ controlPassed r = false ∧ events r = [] ∧ newWatermark r = None.
Proof.
  intros Hbad. unfold runRollup.
  destruct (logs_probe stringify fetch cfg g) as [[p|e] g1] eqn:Hp; [|by do 2 eexists].
  exfalso. unfold logs_probe in Hp. apply M_bind_inv in Hp as (pg & g2 & Hg & _).
  apply get_page_ok in Hg as (res & Hf & Hw & _). by eapply Hbad.
Qed.

(** Every page a live roll-up counts was really answered.  A run that is complete, or merely
    incomplete, with at least one page allowed, made a request for the first page in ascending order
    with a page size the endpoint accepts, and got a well-formed answer to it as to the probe. *)
Theorem read_pages_were_answered {G} stringify (fetch : HttpRequest → M G string HttpResponse) cfg after cap (g : G) r g' :
  (0 < cap)%nat →
  runRollup (logs_list stringify fetch cfg) (logs_probe stringify fetch cfg) after cap g = (Ok r, g') →
  status r ≠ Failed →
  ∃ g1 g2 res, fetch (logs_request cfg
      (buildLogsUrl (trimmed (lc_accountId cfg)) (trimmed (lc_gatewayId cfg)) 1 MAX_PER_PAGE after)) g1 = (Ok res, g2) ∧
    well_formed_page res.
Proof.
  intros Hcap. unfold runRollup. destruct (logs_probe stringify fetch cfg g) as [[p|e] g1]; [|by intros [= <- _]].
  destruct (collectSince _ after cap MAX_PER_PAGE g1) as [[c|e] g2] eqn:Hc; [|by intros [= <- _]].
  intros _ _. unfold collectSince in Hc. apply walk_pages_ok in Hc as (g3 & g4 & res & Hf & Hw & _); [|done].
  by exists g3, g4, res.
Qed.

(** Prism is refused by name, and so is a client without account, gateway or token: the client
    that can be built always names a gateway other than prism. *)
Theorem prism_never_metered {G} stringify (fetch : HttpRequest → M G string HttpResponse) cfg :
  match aiGatewayLogReader stringify fetch cfg with
  | inr _ => trimmed (lc_gatewayId cfg) ≠ PRISM_GATEWAY_ID ∧ trimmed (lc_gatewayId cfg) ≠ "" ∧
             trimmed (lc_accountId cfg) ≠ "" ∧ lc_token cfg ≠ None
  | inl _ => trimmed (lc_gatewayId cfg) = PRISM_GATEWAY_ID ∨ trimmed (lc_gatewayId cfg) = "" ∨
             trimmed (lc_accountId cfg) = "" ∨ default "" (lc_token cfg) = ""
  end.
Proof.
  unfold aiGatewayLogReader, logs_config_refusal.
  destruct (trimmed (lc_accountId cfg)) as [|a1 a2]; cbn [Str.truthy negb]; [auto|].
  destruct (trimmed (lc_gatewayId cfg)) as [|g1 g2] eqn:Eg; cbn [Str.truthy negb]; [auto|].
  destruct (default "" (lc_token cfg)) as [|t1 t2] eqn:Et; cbn [Str.truthy negb]; [auto|].
  destruct (String g1 g2 =s? PRISM_GATEWAY_ID) eqn:Ep; bool_hyps; [auto|].
  split_and!; try done. intros Hn. by rewrite Hn in Et.
Qed.
