(* ===== verification/Credits.v ===== *)
(** * The prepaid credit core (src/credits.ts)

    Balance arithmetic, the submit-time decision, and the operator knobs, all pure. *)

From S2P Require Export Js.
From Stdlib Require Import Ascii.
Open Scope string_scope.
Open Scope list_scope.
Open Scope Z_scope.
Open Scope plane_scope.

(** Integer micro-USD.  Arithmetic on it goes through [Num.add] and [Num.sub], which round as the
    language's numbers do. *)
Definition MicroUsd : Type := Z.

Definition MICRO_PER_USD : Z := 1000000.

Inductive LedgerKind := Purchase | Debit | Refund | Adjustment.
Inductive HoldStatus := HoldOpen | HoldCaptured | HoldReleased | HoldExpired.

#[export] Instance LedgerKind_eq_dec : EqDecision LedgerKind.
Proof. solve_decision. Defined.
#[export] Instance HoldStatus_eq_dec : EqDecision HoldStatus.
Proof. solve_decision. Defined.

Record LedgerRow := mkLedgerRow {
  l_id : string;
  l_tenant_id : string;
  l_kind : LedgerKind;
  l_delta : MicroUsd;
  l_cost : option MicroUsd;
  l_idem_ref : string;
  l_hold_id : option string;
  l_price_list_id : option string;
  l_external_ref : option string;
  l_note : option string;
  l_created_at : string;
}.

Record HoldRow := mkHoldRow {
  h_id : string;
  h_tenant_id : string;
  h_job_ref : string;
  h_amount : MicroUsd;
  h_status : HoldStatus;
  h_price_list_id : string;
  h_created_at : string;
  h_expires_at : string;
  h_settled_at : option string;
}.

#[export] Instance LedgerRow_eq_dec : EqDecision LedgerRow.
Proof. solve_decision. Defined.
#[export] Instance HoldRow_eq_dec : EqDecision HoldRow.
Proof. solve_decision. Defined.

Record Balance := mkBalance {
  settled_micro_usd : MicroUsd;
  held_micro_usd : MicroUsd;
  available_micro_usd : MicroUsd;
  complete : bool;
}.

Definition balanceFromSums (settled held : MicroUsd) (complete : bool) : Balance :=
  mkBalance settled held (Num.sub settled held) complete.

(** The loops [for (const row of ledger) settled += row.delta] and the same over the holds. *)
Definition computeBalance (ledger : list MicroUsd) (openHolds : list MicroUsd) (complete : bool) : Balance :=
  let settled := fold_left Num.add ledger 0 in
  let held := fold_left Num.add openHolds 0 in
  balanceFromSums settled held complete.

Inductive DenyReason := InsufficientCredit | BalanceUnknown.

Inductive SubmitVerdict :=
| Allow (enforcing : bool) (available required : MicroUsd)
| Deny (reason : DenyReason) (available : option MicroUsd) (required : MicroUsd) (message : string).

(** The number nearest to the quotient [p / q] of two nonnegative integers: the quotient to 54 bits
    with a sticky bit below them, then one rounding. *)
Definition num_quot (p q : Z) : Num.num :=
  let s := Z.max 0 (54 - (Z.log2 p - Z.log2 q)) in
  let d := p * 2 ^ s / q in
  let sticky := if p * 2 ^ s mod q =? 0 then 0 else 1 in
  Num.make (2 * d + sticky) (s + 1).

(** The integer a rounded or floored number stands for. *)
Definition num_int (n : Num.num) : Z := match n with Num.NInt z => z | _ => 0 end.
Definition num_floor (n : Num.num) : Z :=
  match n with Num.NInt z => z | Num.NFrac m e => m / 2 ^ Zpos e | _ => 0 end.

Definition formatUsd (micro : MicroUsd) : string :=
  let neg := micro <? 0 in
  let abs := Z.abs micro in
  let cents := num_int (Num.round (num_quot abs 10000)) in
  let s := Str.of_int (num_floor (num_quot cents 100)) +:+ "." +:+
             Str.pad_start 2 "0"%char (Str.of_int (cents mod 100)) in
  (if neg then "-" else "") +:+ "USD " +:+ s.

Definition decideSubmit (balance : Balance) (required : MicroUsd) (enforcing : bool) : SubmitVerdict :=
  if negb enforcing then Allow false (available_micro_usd balance) required
  else if negb (complete balance) then
    Deny BalanceUnknown None required
      ("credit balance could not be read completely, so this submission cannot be authorized; " +:+
       "no charge was made and nothing was started (fail-closed posture)")
  else if available_micro_usd balance <? required then
    Deny InsufficientCredit (Some (available_micro_usd balance)) required
      ("this job needs " +:+ formatUsd required +:+ " in credit and " +:+
       formatUsd (available_micro_usd balance) +:+ " " +:+
       "is available; top up to continue (nothing was started and nothing was charged)")
  else Allow true (available_micro_usd balance) required.

(** An operator knob: [None] is an unset variable. *)
Definition parseEnforcing (raw : option string) : bool :=
  match raw with
  | None => false
  | Some raw =>
      let v := Str.to_lower (Str.trim raw) in
      (v =s? "1") || (v =s? "true") || (v =s? "enforce") || (v =s? "enforcing")
  end.

Definition SUBMIT_GATE_WIRED : bool := false.

Record EnforcementState := mkEnforcement {
  configured : bool;
  applied : bool;
  reason : option string;
}.

Definition creditsEnforcementState (raw : option string) : EnforcementState :=
  let configured := parseEnforcing raw in
  if negb configured then mkEnforcement false false None
  else if negb SUBMIT_GATE_WIRED then
    mkEnforcement true false (Some
      ("CREDITS_ENFORCING is set, but no submit-time gate consults the balance on this plane: " +:+
       "nothing calls decideSubmit and no hold is ever taken, so nothing is refused and nothing is " +:+
       "debited. The ledger is RECORDING ONLY. Do not read this knob as a spend control."))
  else mkEnforcement true true None.

Definition parseMicroUsd (raw : option string) : option MicroUsd :=
  match raw with
  | None => None
  | Some raw =>
      let t := Str.trim raw in
      if negb (Str.all_digits t) then None
      else let n := Num.rnd (Str.parse_digits t) in
           if negb (Num.is_safe n) then None else Some n
  end.

(** ** Lemmas on quotients *)
Section quotients.
Import Num.

Lemma floor_lowest m e fuel : num_floor (lowest m e fuel) = m / 2 ^ Zpos e.
Proof.
  revert m e; induction fuel as [|fuel IH]; intros m e; [done|]. cbn [lowest].
  destruct (Z.even m) eqn:Ev; [|done]. apply Z.even_spec in Ev as [m' ->].
  assert (2 * m' / 2 = m') as Hm by (rewrite Z.mul_comm; apply Z.div_mul; lia).
  assert (∀ e', Zpos e = Z.succ e' → 0 <= e' → m' / 2 ^ e' = 2 * m' / 2 ^ Zpos e) as Hstep.
  { intros e' -> He'. rewrite Z.pow_succ_r by done. symmetry. apply Z.div_mul_cancel_l; lia. }
  destruct e as [e|e|]; rewrite Hm; [rewrite IH; apply Hstep; lia..|].
  cbn [num_floor]. rewrite <- (Hstep 0) by lia. by rewrite Z.div_1_r.
Qed.

Lemma rne_0 m : rne m 0 = m.
Proof. pose proof (rne_error m 0 ltac:(lia)) as H. change (2 ^ 0) with 1 in H. lia. Qed.

Lemma floor_make m e : 0 <= m < 2 ^ 100 → 0 < e <= 1074 → excess m <= e →
  num_floor (make m e) = rne m (excess m) / 2 ^ excess m / 2 ^ (e - excess m).
Proof.
  intros Hm He Hx. pose proof (excess_nonneg m). unfold make. rewrite Z.max_l by lia.
  destruct (excess m <=? 0) eqn:E; bool_hyps.
  - assert (excess m = 0) as Hz by lia. rewrite !Hz. rewrite (proj2 (Z.leb_gt e 0)) by lia.
    rewrite floor_lowest, Z2Pos.id by lia. rewrite Z.sub_0_r, rne_0. change (2 ^ 0) with 1. by rewrite Z.div_1_r.
  - destruct (e - excess m <=? 0) eqn:E2; bool_hyps; [|by rewrite floor_lowest, Z2Pos.id by lia].
    assert (e - excess m = 0) as Hz by lia. rewrite Hz. change (2 ^ (- 0)) with 1. change (2 ^ 0) with 1.
    unfold finite. rewrite Z.mul_1_r, Z.div_1_r.
    assert (0 <= rne m (excess m) / 2 ^ excess m < 2 ^ 1024) as Hb; [|by rewrite (proj2 (Z.ltb_lt _ _)) by lia].
    pose proof (rne_error m (excess m) ltac:(lia)) as Hr. destruct (rne_divide m (excess m)) as [z Hz'].
    rewrite Hz' in *. rewrite Z.div_mul by lia. set (u := 2 ^ excess m) in *.
    assert (1 < u) by (apply Z.pow_gt_1; lia). assert (2 ^ 101 < 2 ^ 1024) by (apply Z.pow_lt_mono_r; lia). 
    assert (2 ^ 101 = 2 * 2 ^ 100) by done.
    assert (0 <= z) by (apply Z.nlt_ge; intros Hn; assert (z * u <= -1 * u) by (apply Z.mul_le_mono_nonneg_r; lia); lia).
    assert (z <= m + 1); [|lia]. apply Z.nlt_ge; intros Hn. assert ((m + 2) * u <= z * u) by (apply Z.mul_le_mono_nonneg_r; lia). nia.
Qed.

(** [z * 4h] is the multiple of [4h] nearest to [2 d + sticky], where [d + r/q] is the quotient
    scaled by [t] and [2 t = w * 4h]: the rounding does not reach the next integer. *)
Lemma rounded_quot_floor p q t d r sticky h w z :
  0 < q → 0 < t → 0 < h → 0 < w → 0 <= p < 2 ^ 53 →
  p * t = q * d + r → 0 <= r < q → (sticky = 0 ∧ r = 0) ∨ (sticky = 1 ∧ 0 < r) →
  2 * t = w * (4 * h) → 2 * h * 2 ^ 53 <= 2 * d →
  2 * Z.abs (z * (4 * h) - (2 * d + sticky)) <= 4 * h →
  z / w = p / q.
Proof.
  intros Hq Ht0 Hh Hw Hp Hdr Hr Hst Ht Hhalf Herr. set (F := p / q).
  assert (p = q * F + p mod q ∧ 0 <= p mod q < q) as [HF HFr].
  { split; [apply Z.div_mod; lia|apply Z.mod_pos_bound; lia]. }
  assert (F * t <= d).
  { apply Z.lt_succ_r, (Z.mul_lt_mono_pos_l q); [done|].
    assert (q * F * t <= p * t) by (apply Z.mul_le_mono_nonneg_r; lia). lia. }
  assert (p * t <= (q * (F + 1) - 1) * t) as Hgap by (apply Z.mul_le_mono_nonneg_r; lia).
  assert (d < (F + 1) * t) as Hhigh by (apply (Z.mul_lt_mono_pos_l q); [done|]; lia).
  symmetry. apply (Z.div_unique z w F (z - F * w)); [|lia]. left.
  assert (F * w <= z) as Hzlow.
  { apply Z.lt_succ_r, (Z.mul_lt_mono_pos_r (4 * h)); [lia|]. assert (F * (2 * t) = F * w * (4 * h)) by (rewrite Ht; lia). lia. }
  split; [lia|]. assert (z < (F + 1) * w); [|lia].
  apply Z.nle_gt. intros Hge.
  assert ((F + 1) * (2 * t) <= z * (4 * h)) as Hge'.
  { rewrite Ht, Z.mul_assoc. apply Z.mul_le_mono_nonneg_r; lia. }
  assert ((F + 1) * (2 * t) - 2 * d <= 2 * h) as H1.
  { destruct Hst as [[Hst1 Hst2]|[Hst1 Hst2]]; [lia|].
    assert (∃ a, (F + 1) * (2 * t) - (2 * d + sticky) = 2 * a + 1) as [a Ha] by (exists ((F + 1) * t - d - 1); lia). lia. }
  assert (q * ((F + 1) * (2 * t) - 2 * d) <= q * (2 * h)) as Hup by (apply Z.mul_le_mono_nonneg_l; lia).
  assert (q * (2 * h * 2 ^ 53) <= q * (2 * d)) as Hfin by (apply Z.mul_le_mono_nonneg_l; lia).
  assert (p * t < 2 ^ 53 * t) as Hlt by (apply Z.mul_lt_mono_pos_r; lia). lia.
Qed.

(** A quotient of integers of at most 53 bits never rounds up to the next integer. *)
Lemma num_quot_floor p q : 0 <= p < 2 ^ 53 → 0 < q < 2 ^ 53 → num_floor (num_quot p q) = p / q.
Proof.
  intros Hp Hq. assert (0 <= Z.log2 q < 53) as Hlq by (split; [apply Z.log2_nonneg|apply Z.log2_lt_pow2; lia]).
  destruct (Z.eq_dec p 0) as [->|Hp0].
  { unfold num_quot. cbn [Z.log2]. rewrite Z.mul_0_l, Z.div_0_l, Z.mod_0_l by lia. cbn [Z.eqb].
    change (2 * 0 + 0) with 0. assert (excess 0 = 0) as Hx by done.
    rewrite floor_make by lia. rewrite Hx, rne_0. by rewrite !Z.div_0_l by lia. }
  assert (0 <= Z.log2 p < 53) as Hlp by (split; [apply Z.log2_nonneg|apply Z.log2_lt_pow2; lia]).
  pose proof (Z.log2_spec p ltac:(lia)) as Hp2. pose proof (Z.log2_spec q ltac:(lia)) as Hq2.
  unfold num_quot. set (s := Z.max 0 (54 - (Z.log2 p - Z.log2 q))).
  assert (s = 54 - (Z.log2 p - Z.log2 q)) as Hs by lia.
  set (d := p * 2 ^ s / q). set (r := p * 2 ^ s mod q).
  set (sticky := if r =? 0 then 0 else 1). set (m := 2 * d + sticky).
  assert (p * 2 ^ s = q * d + r) as Hdr by (apply Z.div_mod; lia).
  assert (0 <= r < q) as Hr by (apply Z.mod_pos_bound; lia).
  assert ((sticky = 0 ∧ r = 0) ∨ (sticky = 1 ∧ 0 < r)) as Hst.
  { unfold sticky. destruct (r =? 0) eqn:E; bool_hyps; [left|right]; lia. }
  assert (2 ^ 53 <= d < 2 ^ 55) as Hd.
  { assert (2 ^ (54 + Z.log2 q) = 2 ^ Z.log2 p * 2 ^ s) as H1 by (rewrite <- Z.pow_add_r by lia; f_equal; lia).
    assert (2 ^ (54 + Z.log2 q) = 2 ^ 53 * 2 ^ Z.succ (Z.log2 q)) as H2 by (rewrite <- Z.pow_add_r by lia; f_equal; lia).
    assert (2 ^ Z.succ (Z.log2 p) * 2 ^ s = 2 ^ 55 * 2 ^ Z.log2 q) as H3 by (rewrite <- !Z.pow_add_r by lia; f_equal; lia).
    split; [apply Z.div_le_lower_bound; [lia|]|apply Z.div_lt_upper_bound; [lia|]]; nia. }
  assert (54 <= Z.log2 m <= 55) as Hl.
  { split; [apply Z.log2_le_pow2; lia|]. assert (Z.log2 m < 56); [apply Z.log2_lt_pow2; lia|lia]. }
  assert (excess m = Z.log2 m - 52) as Hx by (unfold excess; rewrite Z.abs_eq; lia).
  rewrite floor_make by lia.
  pose proof (rne_error m (excess m) ltac:(lia)) as Herr. destruct (rne_divide m (excess m)) as [z Hz].
  rewrite Hz in *. rewrite Z.div_mul by lia.
  assert (2 ^ excess m = 4 * 2 ^ (excess m - 2)) as Hk4 by (rewrite <- (Z.pow_add_r 2 2) by lia; f_equal; lia).
  apply (rounded_quot_floor p q (2 ^ s) d r sticky (2 ^ (excess m - 2))); try lia.
  - rewrite <- Hk4, <- Z.pow_add_r, <- Z.pow_succ_r by lia. f_equal. lia.
  - assert (2 * 2 ^ (excess m - 2) * 2 ^ 53 = 2 ^ Z.log2 m) as ->.
    { rewrite <- (Z.pow_add_r 2 1), <- Z.pow_add_r by lia. f_equal. lia. }
    assert (2 ^ Z.log2 m <= m) as Hle by (apply Z.log2_spec; lia).
    assert (2 ^ Z.log2 m = 2 * 2 ^ (Z.log2 m - 1)) by (rewrite <- Z.pow_succ_r by lia; f_equal; lia). lia.
Qed.

(** [Math.trunc(p / q)] is the integer quotient. *)
Lemma num_quot_trunc p q : 0 <= p < 2 ^ 53 → 0 < q < 2 ^ 53 → num_int (trunc (num_quot p q)) = p / q.
Proof.
  intros Hp Hq. rewrite <- num_quot_floor by done.
  assert (is_neg (num_quot p q) = false) as Hn.
  { apply make_nonneg. set (s := Z.max 0 _). assert (0 <= p * 2 ^ s / q) by (apply Z.div_pos; lia).
    destruct (_ =? 0); lia. }
  destruct (num_quot p q) as [z|m e|b|]; cbn in *; try done. bool_hyps. rewrite Z.quot_div_nonneg; (done || lia).
Qed.
End quotients.

(** ** Properties *)

Lemma fold_add_exact l acc :
  Z.abs acc + sumZ Z.abs l <= Num.max_safe → fold_left Num.add l acc = acc + sumZ (λ x, x) l.
Proof.
  revert acc; induction l as [|x l IH]; intros acc H; [cbn; lia|].
  rewrite sumZ_cons in *. cbn [fold_left].
  assert (0 <= sumZ Z.abs l) by (apply sumZ_nonneg; lia).
  rewrite add_exact by lia. rewrite IH by lia. lia.
Qed.

(** The loop over rows agrees with exact sums as long as the magnitudes stay within the safe
    integers, whatever the order of the rows. *)
Theorem computeBalance_exact ledger holds c :
  sumZ Z.abs ledger + sumZ Z.abs holds <= Num.max_safe →
  computeBalance ledger holds c =
    mkBalance (sumZ (λ x, x) ledger) (sumZ (λ x, x) holds)
              (sumZ (λ x, x) ledger - sumZ (λ x, x) holds) c.
Proof.
  intros H. unfold computeBalance, balanceFromSums.
  assert (0 <= sumZ Z.abs ledger) by (apply sumZ_nonneg; lia).
  assert (0 <= sumZ Z.abs holds) by (apply sumZ_nonneg; lia).
  rewrite !fold_add_exact by lia.
  assert (∀ l, Z.abs (sumZ (λ x, x) l) <= sumZ Z.abs l) as Habs.
  { induction l as [|x l IH]; [done|]. rewrite !sumZ_cons. lia. }
  pose proof (Habs ledger). pose proof (Habs holds). rewrite sub_exact by lia. done.
Qed.

(** A knob that parses is a run of digits denoting a safe integer, and its value is exact. *)
Theorem parseMicroUsd_spec raw n :
  parseMicroUsd raw = Some n ↔
  ∃ s, raw = Some s ∧ Str.all_digits (Str.trim s) = true ∧
       n = Str.parse_digits (Str.trim s) ∧ n <= Num.max_safe.
Proof.
  split.
  - destruct raw as [s|]; [|done]. cbn. intros H. split_ifs. bool_hyps. exists s.
    assert (0 <= Str.parse_digits (Str.trim s)) as Hnn by (by apply parse_digits_nonneg).
    assert (Num.rnd (Str.parse_digits (Str.trim s)) = Str.parse_digits (Str.trim s)) as Hr.
    { apply rnd_safe; [done|]. unfold Num.is_safe in *. bool_hyps. lia. }
    rewrite Hr in *. split_and!; try done. unfold Num.is_safe in *. bool_hyps. lia.
  - intros (s & -> & Hd & -> & Hle). cbn. rewrite Hd. cbn.
    assert (0 <= Str.parse_digits (Str.trim s)) as Hnn by (by apply parse_digits_nonneg).
    rewrite rnd_exact by lia. unfold Num.is_safe.
    destruct (Z.abs _ <=? Num.max_safe) eqn:E; [done|]. bool_hyps. lia.
Qed.

(** Under enforcement a submission is let through only on a complete balance that covers it, and an
    incomplete balance is reported as unknown, never as a number. *)
Theorem decideSubmit_fail_closed b req :
  match decideSubmit b req true with
  | Allow e a r => e = true ∧ complete b = true ∧ req <= available_micro_usd b ∧
                   a = available_micro_usd b ∧ r = req
  | Deny BalanceUnknown a r _ => complete b = false ∧ a = None ∧ r = req
  | Deny InsufficientCredit a r _ =>
      complete b = true ∧ available_micro_usd b < req ∧ a = Some (available_micro_usd b) ∧ r = req
  end.
Proof. unfold decideSubmit. cbn. split_ifs; bool_hyps; naive_solver lia. Qed.

(** No setting of the knob can report enforcement as applied while no gate is wired. *)
Theorem enforcement_never_claimed raw :
  applied (creditsEnforcementState raw) = false ∧
  (is_Some (reason (creditsEnforcementState raw)) ↔
   configured (creditsEnforcementState raw) ≠ applied (creditsEnforcementState raw)).
Proof. unfold creditsEnforcementState. destruct (parseEnforcing raw); cbn; naive_solver. Qed.
