(* ===== verification/LedgerIface.v ===== *)
(** * What the ledger promises to the code that writes money (src/meter-settle.ts OverageLedger)

    The settlement and the payment rail only append rows.  [OverageLedger] is that slice of the
    store; [OverageLedgerOk] states the idempotency they rely on: one row per tenant and reference,
    and a replay answers with the row already there. *)

From S2P Require Export Credits.
Open Scope string_scope.
Open Scope list_scope.
Open Scope Z_scope.
Open Scope plane_scope.

Record append_args := mkAppend {
  a_id : string;
  a_tenant : string;
  a_kind : LedgerKind;
  a_delta : MicroUsd;
  a_cost : option MicroUsd;
  a_idem : string;
  a_price_list : option string;
  a_external : option string;
  a_note : option string;
  a_now : string;
}.

Definition row_of (a : append_args) : LedgerRow :=
  mkLedgerRow (a_id a) (a_tenant a) (a_kind a) (a_delta a) (a_cost a) (a_idem a) None
              (a_price_list a) (a_external a) (a_note a) (a_now a).

Record append_result := mkAppended { r_applied : bool; r_row : LedgerRow }.

(** The table CHECK of migration 0013: the sign each kind must have. *)
Definition ledger_check (r : LedgerRow) : bool :=
  match l_kind r with
  | Debit => l_delta r <? 0
  | Purchase | Refund => 0 <? l_delta r
  | Adjustment => true
  end.

Definition l_key (r : LedgerRow) : string * string := (l_tenant_id r, l_idem_ref r).
Definition find_ledger (tenant idem : string) (l : list LedgerRow) : option LedgerRow :=
  List.find (λ r, bool_decide (l_key r = (tenant, idem))) l.

Class OverageLedger (S : Type) := {
  ledger_rows : S → list LedgerRow;
  appendLedgerRow : append_args → M S string append_result;
}.

(** A throw leaves the rows as they were; a reference already present answers with its row; a new
    one adds exactly the row asked for. *)
Section append_outcome.
Context {S : Type} `{OverageLedger S} (a : append_args) (s : S).

Inductive append_outcome : result string append_result * S → Prop :=
| append_threw e :
    append_outcome (Err e, s)
| append_replayed row :
    find_ledger (a_tenant a) (a_idem a) (ledger_rows s) = Some row →
    append_outcome (Ok (mkAppended false row), s)
| append_added s' :
    find_ledger (a_tenant a) (a_idem a) (ledger_rows s) = None →
    ledger_check (row_of a) = true →
    ledger_rows s' = ledger_rows s ++ [row_of a] →
    append_outcome (Ok (mkAppended true (row_of a)), s').
End append_outcome.

Class OverageLedgerOk (S : Type) `{OverageLedger S} := {
  append_spec a s : append_outcome a s (appendLedgerRow a s);
  append_replay a s row :
    ledger_check (row_of a) = true →
    find_ledger (a_tenant a) (a_idem a) (ledger_rows s) = Some row →
    appendLedgerRow a s = (Ok (mkAppended false row), s);
}.

Lemma find_ledger_Some t i l r :
  find_ledger t i l = Some r → r ∈ l ∧ l_tenant_id r = t ∧ l_idem_ref r = i.
Proof.
  unfold find_ledger. intros [Hin Hk]%find_some. apply bool_decide_eq_true in Hk.
  rewrite list_elem_of_In. unfold l_key in Hk. naive_solver.
Qed.

Lemma find_ledger_None t i l :
  find_ledger t i l = None ↔ ∀ r, r ∈ l → l_key r ≠ (t, i).
Proof.
  unfold find_ledger. split.
  - intros H r Hr. apply list_elem_of_In in Hr. pose proof (find_none _ _ H _ Hr) as Hk.
    by apply bool_decide_eq_false in Hk.
  - induction l as [|x l IH]; intros H; [done|]. cbn.
    rewrite bool_decide_eq_false_2 by (apply H; left). apply IH. intros r Hr. apply H. by right.
Qed.

Lemma find_ledger_app t i l r :
  find_ledger t i (l ++ [r]) =
    match find_ledger t i l with
    | Some r' => Some r'
    | None => if bool_decide (l_key r = (t, i)) then Some r else None
    end.
Proof.
  unfold find_ledger. induction l as [|x l IH]; cbn; [done|]. destruct (bool_decide (l_key x = (t, i))); [done|exact IH].
Qed.

Section ledger_laws.
Context {S : Type} `{OverageLedgerOk S}.

(** A second append under the same tenant and reference changes nothing, whatever else it asks
    for, and reports the row the first one wrote. *)
Lemma append_then_replay a b s r s' :
  appendLedgerRow a s = (Ok r, s') →
  a_tenant b = a_tenant a → a_idem b = a_idem a → ledger_check (row_of b) = true →
  appendLedgerRow b s' = (Ok (mkAppended false (r_row r)), s').
Proof.
  intros Ha Ht Hi Hc. pose proof (append_spec a s) as Hs. rewrite Ha in Hs.
  inversion Hs as [|row Hf|s2 Hf Hck Hrows]; subst; cbn.
  - apply append_replay; [done|]. by rewrite Ht, Hi.
  - apply append_replay; [done|]. rewrite Ht, Hi, Hrows, find_ledger_app, Hf.
    unfold l_key; cbn. by rewrite bool_decide_eq_true_2.
Qed.
End ledger_laws.
