(* ===== verification/Ledger.v ===== *)
(** * The credit tables and their statements (src/store-d1.ts, migrations/0013)

    [credit_db] is the part of the D1 database the money statements touch: the ids of the [tenants]
    table, [credit_ledger] and [credit_holds], each a list of rows in insertion order.  A statement is
    a state transformer that either completes or throws the constraint error of the engine and leaves
    the tables as they were; a method runs its statements in the order of the code. *)

From S2P Require Export Sql LedgerIface.
From Stdlib Require Import Ascii.
Open Scope string_scope.
Open Scope list_scope.
Open Scope Z_scope.
Open Scope plane_scope.

Record credit_db := mkCreditDb {
  cd_tenants : list string;
  cd_ledger : list LedgerRow;
  cd_holds : list HoldRow;
}.

Definition set_ledger (l : list LedgerRow) (db : credit_db) : credit_db :=
  mkCreditDb (cd_tenants db) l (cd_holds db).
Definition set_holds (l : list HoldRow) (db : credit_db) : credit_db :=
  mkCreditDb (cd_tenants db) (cd_ledger db) l.

(** ** Statements *)

Definition h_key (h : HoldRow) : string * string := (h_tenant_id h, h_job_ref h).

Definition find_hold (tenant job : string) (l : list HoldRow) : option HoldRow :=
  List.find (λ h, bool_decide (h_key h = (tenant, job))) l.

Definition hold_ref_ok (hold : option string) (holds : list HoldRow) : bool :=
  match hold with
  | None => true
  | Some i => existsb (λ h, h_id h =s? i) holds
  end.

(** [INSERT INTO credit_ledger ... ON CONFLICT (tenant_id, idem_ref) DO NOTHING RETURNING *]: the
    CHECK first, then the conflict target, then the primary key, then the foreign keys. *)
Definition insert_ledger (r : LedgerRow) : M credit_db string (option LedgerRow) := λ db,
  if negb (ledger_check r) then (Err "CHECK constraint failed: credit_ledger", db)
  else match find_ledger (l_tenant_id r) (l_idem_ref r) (cd_ledger db) with
  | Some _ => (Ok None, db)
  | None =>
      if existsb (λ r', l_id r' =s? l_id r) (cd_ledger db)
      then (Err "UNIQUE constraint failed: credit_ledger.id", db)
      else if negb (bool_decide (l_tenant_id r ∈ cd_tenants db) && hold_ref_ok (l_hold_id r) (cd_holds db))
      then (Err "FOREIGN KEY constraint failed", db)
      else (Ok (Some r), set_ledger (cd_ledger db ++ [r]) db)
  end.

(** [INSERT INTO credit_holds ... ON CONFLICT (tenant_id, job_ref) DO NOTHING RETURNING *]. *)
Definition insert_hold (h : HoldRow) : M credit_db string (option HoldRow) := λ db,
  if negb (0 <? h_amount h) then (Err "CHECK constraint failed: credit_holds", db)
  else match find_hold (h_tenant_id h) (h_job_ref h) (cd_holds db) with
  | Some _ => (Ok None, db)
  | None =>
      if existsb (λ h', h_id h' =s? h_id h) (cd_holds db)
      then (Err "UNIQUE constraint failed: credit_holds.id", db)
      else if negb (bool_decide (h_tenant_id h ∈ cd_tenants db))
      then (Err "FOREIGN KEY constraint failed", db)
      else (Ok (Some h), set_holds (cd_holds db ++ [h]) db)
  end.

(** ** The methods of D1Store *)

Definition d1_appendLedgerRow (a : append_args) : M credit_db string append_result :=
  inserted ← insert_ledger (row_of a);
  match inserted with
  | Some row => mret (mkAppended true row)
  | None =>
      existing ← gets (λ db, find_ledger (a_tenant a) (a_idem a) (cd_ledger db));
      match existing with
      | None => throw "appendLedgerRow: conflict but no existing row"
      | Some row => mret (mkAppended false row)
      end
  end.

Definition tenant_deltas (tenant : string) (db : credit_db) : list Z :=
  l_delta <$> jfilter (λ r, l_tenant_id r =s? tenant) (cd_ledger db).
Definition is_open (h : HoldRow) : bool := bool_decide (h_status h = HoldOpen).
Definition tenant_open_amounts (tenant : string) (db : credit_db) : list Z :=
  h_amount <$> jfilter (λ h, (h_tenant_id h =s? tenant) && is_open h) (cd_holds db).

Definition readBalanceSums (tenant : string) : M credit_db string (Z * Z) :=
  settled ← query (λ db, sql_sum (tenant_deltas tenant db));
  held ← query (λ db, sql_sum (tenant_open_amounts tenant db));
  mret (settled, held).

Definition listLedger (tenant : string) (limit : nat) (db : credit_db) : list LedgerRow :=
  firstn limit (order_desc (λ r, (l_created_at r, l_id r))
                  (jfilter (λ r, l_tenant_id r =s? tenant) (cd_ledger db))).

Definition listHolds (tenant : string) (limit : nat) (db : credit_db) : list HoldRow :=
  firstn limit (order_desc (λ h, (h_created_at h, h_id h))
                  (jfilter (λ h, h_tenant_id h =s? tenant) (cd_holds db))).

Definition getHoldByJobRef (tenant job : string) (db : credit_db) : option HoldRow :=
  find_hold tenant job (cd_holds db).

Record hold_args := mkHoldArgs {
  t_id : string;
  t_tenant : string;
  t_job : string;
  t_amount : MicroUsd;
  t_price_list : string;
  t_now : string;
  t_expires : string;
}.

Definition hold_of (a : hold_args) : HoldRow :=
  mkHoldRow (t_id a) (t_tenant a) (t_job a) (t_amount a) HoldOpen (t_price_list a) (t_now a)
            (t_expires a) None.

Definition takeHold (a : hold_args) : M credit_db string (bool * HoldRow) :=
  inserted ← insert_hold (hold_of a);
  match inserted with
  | Some h => mret (true, h)
  | None =>
      existing ← gets (getHoldByJobRef (t_tenant a) (t_job a));
      match existing with
      | None => throw "takeHold: conflict but no existing hold"
      | Some h => mret (false, h)
      end
  end.

Definition settle_hold (st : HoldStatus) (now : string) (h : HoldRow) : HoldRow :=
  mkHoldRow (h_id h) (h_tenant_id h) (h_job_ref h) (h_amount h) st (h_price_list_id h)
            (h_created_at h) (h_expires_at h) (Some now).

(** [UPDATE credit_holds SET status = st, settled_at = now WHERE p]. *)
Definition update_holds (p : HoldRow → bool) (st : HoldStatus) (now : string) : M credit_db string nat := λ db,
  (Ok (changes p (cd_holds db)), set_holds (update_where p (settle_hold st now) (cd_holds db)) db).

Definition open_with_id (holdId : string) (h : HoldRow) : bool := (h_id h =s? holdId) && is_open h.

Record capture_args := mkCapture {
  c_hold : string;
  c_row : string;
  c_cost : option MicroUsd;
  c_note : option string;
  c_now : string;
}.

(** The row the [INSERT ... SELECT] of a capture builds from the hold. *)
Definition debit_of (a : capture_args) (h : HoldRow) : LedgerRow :=
  mkLedgerRow (c_row a) (h_tenant_id h) Debit (- h_amount h) (c_cost a) (h_id h) (Some (h_id h))
              (Some (h_price_list_id h)) None (c_note a) (c_now a).

Fixpoint insert_each (l : list LedgerRow) : M credit_db string unit :=
  match l with
  | [] => mret tt
  | r :: l' => _ ← insert_ledger r; insert_each l'
  end.

Definition captured_with_id (holdId : string) (h : HoldRow) : bool :=
  (h_id h =s? holdId) && bool_decide (h_status h = HoldCaptured).

Definition captureHold (a : capture_args) : M credit_db string bool :=
  transaction (
    n ← update_holds (open_with_id (c_hold a)) HoldCaptured (c_now a);
    sel ← gets (λ db, jfilter (captured_with_id (c_hold a)) (cd_holds db));
    _ ← insert_each (debit_of a <$> sel);
    mret (bool_decide (n = 1%nat))).

Definition releaseHold (holdId now : string) : M credit_db string bool :=
  n ← update_holds (open_with_id holdId) HoldReleased now;
  mret (bool_decide (n = 1%nat)).

Definition expireHolds (now : string) : M credit_db string nat :=
  update_holds (λ h, is_open h && (h_expires_at h <=s? now)) HoldExpired now.

Definition capturedHoldsMissingDebit (limit : nat) (db : credit_db) : list HoldRow :=
  firstn limit
    (jfilter (λ h, bool_decide (h_status h = HoldCaptured) &&
                   negb (existsb (λ r, bool_decide (l_hold_id r = Some (h_id h))) (cd_ledger db)))
             (cd_holds db)).

(** ** The store satisfies the interface *)

#[export] Instance d1_ledger : OverageLedger credit_db := {
  ledger_rows := cd_ledger;
  appendLedgerRow := d1_appendLedgerRow;
}.

Lemma d1_append_unfold a db :
  d1_appendLedgerRow a db =
  match insert_ledger (row_of a) db with
  | (Ok (Some row), db') => (Ok (mkAppended true row), db')
  | (Ok None, db') =>
      match find_ledger (a_tenant a) (a_idem a) (cd_ledger db') with
      | Some row => (Ok (mkAppended false row), db')
      | None => (Err "appendLedgerRow: conflict but no existing row", db')
      end
  | (Err e, db') => (Err e, db')
  end.
Proof.
  unfold d1_appendLedgerRow, mbind, M_bind.
  destruct (insert_ledger (row_of a) db) as [[[row|]|e] db']; [done| |done].
  cbn. by destruct (find_ledger _ _ _).
Qed.

#[export] Instance d1_ledger_ok : OverageLedgerOk credit_db.
Proof.
  split.
  - intros a db. change (appendLedgerRow a db) with (d1_appendLedgerRow a db).
    rewrite d1_append_unfold. unfold insert_ledger. cbn [l_tenant_id l_idem_ref l_id l_hold_id row_of].
    destruct (ledger_check (row_of a)) eqn:Hc; cbn [negb]; [|by apply append_threw].
    destruct (find_ledger _ _ _) as [row|] eqn:Hf; cbn [andb].
    + rewrite Hf. by apply append_replayed.
    + destruct (existsb _ _); [by apply append_threw|].
      destruct (negb _); [by apply append_threw|]. by apply append_added.
  - intros a db row Hc Hf. change (appendLedgerRow a db) with (d1_appendLedgerRow a db).
    rewrite d1_append_unfold. unfold insert_ledger. rewrite Hc.
    change (ledger_rows db) with (cd_ledger db) in Hf.
    cbn [negb l_tenant_id l_idem_ref l_id l_hold_id row_of]. rewrite Hf. by rewrite Hf.
Qed.

(** ** The invariant of the tables

    The engine guarantees the keys and checks.  The last three fields are the application's: the
    references the application passes to [appendLedgerRow] carry a colon ([rail:ref] and
    [overage:meter:period]), the ids of holds do not (src/crypto.ts newId), and each hold has the
    debit its status calls for. *)
Definition has_colon (s : string) : bool := existsb (Ascii.eqb ":"%char) (Str.chars s).

Definition debits_of (hold : string) (db : credit_db) : list LedgerRow :=
  jfilter (λ r, bool_decide (l_hold_id r = Some hold)) (cd_ledger db).

Definition pays_for (h : HoldRow) (r : LedgerRow) : Prop :=
  l_tenant_id r = h_tenant_id h ∧ l_delta r = - h_amount h ∧ l_kind r = Debit ∧
  l_idem_ref r = h_id h ∧ l_price_list_id r = Some (h_price_list_id h).

Definition settled_once (db : credit_db) (h : HoldRow) : Prop :=
  if bool_decide (h_status h = HoldCaptured)
  then ∃ r, debits_of (h_id h) db = [r] ∧ pays_for h r
  else debits_of (h_id h) db = [].

Record credit_inv (db : credit_db) : Prop := {
  ci_lids : NoDup (l_id <$> cd_ledger db);
  ci_lkeys : NoDup (l_key <$> cd_ledger db);
  ci_hids : NoDup (h_id <$> cd_holds db);
  ci_hkeys : NoDup (h_key <$> cd_holds db);
  ci_signs r : r ∈ cd_ledger db → ledger_check r = true;
  ci_amounts h : h ∈ cd_holds db → 0 < h_amount h;
  ci_tenants h : h ∈ cd_holds db → h_tenant_id h ∈ cd_tenants db;
  ci_ltenants r : r ∈ cd_ledger db → l_tenant_id r ∈ cd_tenants db;
  ci_colon r : r ∈ cd_ledger db → l_hold_id r = None → has_colon (l_idem_ref r) = true;
  ci_ref r i : r ∈ cd_ledger db → l_hold_id r = Some i →
               l_idem_ref r = i ∧ ∃ h, h ∈ cd_holds db ∧ h_id h = i;
  ci_nocolon h : h ∈ cd_holds db → has_colon (h_id h) = false;
  ci_once h : h ∈ cd_holds db → settled_once db h;
}.

Lemma credit_inv_empty ts : credit_inv (mkCreditDb ts [] []).
Proof. split; cbn; try constructor; intros; by match goal with H : _ ∈ [] |- _ => apply elem_of_nil in H end. Qed.

Lemma debits_of_snoc i db db' r :
  debits_of i (set_ledger (cd_ledger db ++ [r]) db') =
  debits_of i db ++ (if bool_decide (l_hold_id r = Some i) then [r] else []).
Proof. unfold debits_of. cbn. rewrite jfilter_app. cbn. by destruct (bool_decide _). Qed.

Lemma elem_of_debits i db r : r ∈ debits_of i db ↔ r ∈ cd_ledger db ∧ l_hold_id r = Some i.
Proof. unfold debits_of. rewrite elem_of_jfilter. by rewrite bool_decide_eq_true. Qed.

(** What a successful insert knows about its row. *)
Lemma insert_ledger_ok r db o db' :
  insert_ledger r db = (Ok o, db') →
  (o = None ∧ db' = db ∧ is_Some (find_ledger (l_tenant_id r) (l_idem_ref r) (cd_ledger db))) ∨
  (o = Some r ∧ db' = set_ledger (cd_ledger db ++ [r]) db ∧ ledger_check r = true ∧
   (l_key r ∉ l_key <$> cd_ledger db) ∧ (l_id r ∉ l_id <$> cd_ledger db) ∧ l_tenant_id r ∈ cd_tenants db).
Proof.
  unfold insert_ledger. destruct (ledger_check r); cbn; [|done].
  destruct (find_ledger _ _ _) as [row|] eqn:Hf; [intros [= <- <-]; left; eauto|].
  destruct (existsb _ _) eqn:Hid; [done|].
  destruct (bool_decide (l_tenant_id r ∈ cd_tenants db)) eqn:Ht; cbn; [|done].
  destruct (hold_ref_ok _ _); cbn; [|done]. intros [= <- <-]. right. bool_hyps.
  split_and!; try done.
  - intros (r' & Hk & Hr')%list_elem_of_fmap. rewrite find_ledger_None in Hf. by eapply Hf.
  - intros (r' & Hk & Hr')%list_elem_of_fmap. rewrite existsb_false_iff in Hid.
    specialize (Hid _ Hr'). apply String.eqb_neq in Hid. congruence.
Qed.

(** Adding a row that no hold refers to keeps the invariant. *)
Lemma credit_inv_add r db :
  credit_inv db → l_hold_id r = None → has_colon (l_idem_ref r) = true → ledger_check r = true →
  l_key r ∉ (l_key <$> cd_ledger db) → l_id r ∉ (l_id <$> cd_ledger db) → l_tenant_id r ∈ cd_tenants db →
  credit_inv (set_ledger (cd_ledger db ++ [r]) db).
Proof.
  intros [] Hh Hcol Hck Hkey Hid Ht. split; cbn; try done.
  - by apply NoDup_fmap_snoc.
  - by apply NoDup_fmap_snoc.
  - intros r' [?| ->%list_elem_of_singleton]%elem_of_app; eauto.
  - intros r' [?| ->%list_elem_of_singleton]%elem_of_app; eauto.
  - intros r' [?| ->%list_elem_of_singleton]%elem_of_app; eauto.
  - intros r' i [?| ->%list_elem_of_singleton]%elem_of_app; [eauto|congruence].
  - intros h Hin. specialize (ci_once0 h Hin). unfold settled_once in *.
    rewrite debits_of_snoc, Hh. cbn. by rewrite app_nil_r.
Qed.

Lemma append_inv a db :
  credit_inv db → has_colon (a_idem a) = true → credit_inv (exec (d1_appendLedgerRow a) db).
Proof.
  intros Hinv Hcol. unfold exec. rewrite d1_append_unfold.
  destruct (insert_ledger (row_of a) db) as [[o|e] db'] eqn:Hins.
  - apply insert_ledger_ok in Hins as [(-> & -> & Hs)|(-> & -> & Hck & Hk & Hid & Ht)].
    + by destruct (find_ledger (a_tenant a) _ _).
    + by apply credit_inv_add.
  - unfold insert_ledger in Hins. repeat case_match; by simplify_eq/=.
Qed.

Lemma insert_hold_ok h db o db' :
  insert_hold h db = (Ok o, db') →
  (o = None ∧ db' = db) ∨
  (o = Some h ∧ db' = set_holds (cd_holds db ++ [h]) db ∧ 0 < h_amount h ∧
   (h_key h ∉ h_key <$> cd_holds db) ∧ (h_id h ∉ h_id <$> cd_holds db) ∧ h_tenant_id h ∈ cd_tenants db).
Proof.
  unfold insert_hold. destruct (0 <? h_amount h) eqn:Ha; cbn; [|done].
  destruct (find_hold _ _ _) as [row|] eqn:Hf; [intros [= <- <-]; by left|].
  destruct (existsb _ _) eqn:Hid; [done|].
  destruct (bool_decide (h_tenant_id h ∈ cd_tenants db)) eqn:Ht; cbn; [|done].
  intros [= <- <-]. right. bool_hyps. split_and!; try done.
  - intros (h' & Hk & Hh')%list_elem_of_fmap. unfold find_hold in Hf. rewrite find_None_elem in Hf.
    specialize (Hf _ Hh'). apply bool_decide_eq_false in Hf. by rewrite <- Hk in Hf.
  - intros (h' & Hk & Hh')%list_elem_of_fmap. rewrite existsb_false_iff in Hid.
    specialize (Hid _ Hh'). apply String.eqb_neq in Hid. congruence.
Qed.

Lemma take_inv a db :
  credit_inv db → has_colon (t_id a) = false → credit_inv (exec (takeHold a) db).
Proof.
  intros Hinv Hcol. unfold exec, takeHold, mbind, M_bind.
  destruct (insert_hold (hold_of a) db) as [[o|e] db'] eqn:Hins.
  - apply insert_hold_ok in Hins as [(-> & ->)|(-> & -> & Ham & Hk & Hid & Ht)].
    { cbn. by destruct (getHoldByJobRef _ _ _). }
    destruct Hinv. split; cbn; try done.
    + by apply NoDup_fmap_snoc.
    + by apply NoDup_fmap_snoc.
    + intros h [?| ->%list_elem_of_singleton]%elem_of_app; eauto.
    + intros h [?| ->%list_elem_of_singleton]%elem_of_app; eauto.
    + intros r i Hr Hi. destruct (ci_ref0 r i Hr Hi) as [? (h & Hh & ?)].
      split; [done|]. exists h. split; [apply elem_of_app; by left|done].
    + intros h [?| ->%list_elem_of_singleton]%elem_of_app; eauto.
    + intros h [Hin| ->%list_elem_of_singleton]%elem_of_app; [by apply ci_once0|].
      unfold settled_once. cbn. apply jfilter_nil_iff. intros r Hr. apply bool_decide_eq_false.
      intros Hh. destruct (ci_ref0 _ _ Hr Hh) as [_ (h & Hin & Heq)]. cbn in Hid.
      apply Hid. apply list_elem_of_fmap. by exists h.
  - unfold insert_hold in Hins. repeat case_match; by simplify_eq/=.
Qed.

(** Moving holds out of the open state to one without a debit keeps the invariant. *)
Lemma update_inv p st now db :
  credit_inv db → (∀ h, p h = true → h_status h = HoldOpen) → st ≠ HoldCaptured →
  credit_inv (set_holds (update_where p (settle_hold st now) (cd_holds db)) db).
Proof.
  intros [] Hp Hst. split; cbn; try done.
  - by rewrite update_where_column.
  - by rewrite update_where_column.
  - intros h (h0 & Hin & ->)%elem_of_update_where. destruct (p h0); cbn; eauto.
  - intros h (h0 & Hin & ->)%elem_of_update_where. destruct (p h0); cbn; eauto.
  - intros r i Hr Hi. destruct (ci_ref0 r i Hr Hi) as [? (h & Hh & Hid)]. split; [done|].
    exists (if p h then settle_hold st now h else h).
    split; [apply elem_of_update_where; eauto|]. by destruct (p h).
  - intros h (h0 & Hin & ->)%elem_of_update_where. destruct (p h0); cbn; eauto.
  - intros h (h0 & Hin & ->)%elem_of_update_where. specialize (ci_once0 h0 Hin).
    destruct (p h0) eqn:E; [|done]. unfold settled_once in *. cbn.
    rewrite (Hp _ E) in ci_once0. by rewrite bool_decide_eq_false_2.
Qed.

Lemma is_open_status h : is_open h = true → h_status h = HoldOpen.
Proof. apply bool_decide_eq_true. Qed.

Lemma release_inv i now db : credit_inv db → credit_inv (exec (releaseHold i now) db).
Proof.
  intros H. apply update_inv; [done| |done]. unfold open_with_id.
  intros h [_ Hh]%andb_true_iff. by apply is_open_status.
Qed.

Lemma expire_inv now db : credit_inv db → credit_inv (exec (expireHolds now) db).
Proof.
  intros H. apply update_inv; [done| |done]. intros h [Hh _]%andb_true_iff. by apply is_open_status.
Qed.

(** ** Capturing a hold *)

Lemma set_holds_id db : set_holds (cd_holds db) db = db.
Proof. by destruct db. Qed.

(** A predicate on the id selects the one hold with that id, when it holds of it. *)
Lemma jfilter_by_id (q : HoldRow → bool) i l h :
  NoDup (h_id <$> l) → h ∈ l → h_id h = i →
  jfilter (λ x, (h_id x =s? i) && q x) l = if q h then [h] else [].
Proof.
  intros Hnd Hin <-. destruct (unique_split h_id l h Hnd Hin) as (l1 & l2 & -> & H1 & H2).
  assert (∀ k, (∀ y, y ∈ k → h_id y ≠ h_id h) →
    jfilter (λ x, (h_id x =s? h_id h) && q x) k = []) as Hnil.
  { intros k Hk. apply jfilter_nil_iff. intros x Hx.
    by rewrite (proj2 (String.eqb_neq _ _) (Hk x Hx)). }
  change (h :: l2) with ([h] ++ l2). rewrite !jfilter_app, (Hnil l1), (Hnil l2) by done.
  rewrite app_nil_r. cbn. by rewrite String.eqb_refl.
Qed.

Lemma capture_unfold a db :
  captureHold a db =
  let holds' := update_where (open_with_id (c_hold a)) (settle_hold HoldCaptured (c_now a)) (cd_holds db) in
  match insert_each (debit_of a <$> jfilter (captured_with_id (c_hold a)) holds') (set_holds holds' db) with
  | (Ok _, db') => (Ok (bool_decide (changes (open_with_id (c_hold a)) (cd_holds db) = 1%nat)), db')
  | (Err e, _) => (Err e, db)
  end.
Proof. cbn. unfold captureHold, transaction, mbind, M_bind. cbn. by destruct (insert_each _ _) as [[]]. Qed.

(** No open hold of that id: the update matches nothing. *)
Lemma capture_no_update a db :
  (∀ h, h ∈ cd_holds db → open_with_id (c_hold a) h = false) →
  captureHold a db =
  match insert_each (debit_of a <$> jfilter (captured_with_id (c_hold a)) (cd_holds db)) db with
  | (Ok _, db') => (Ok false, db')
  | (Err e, _) => (Err e, db)
  end.
Proof.
  intros H. rewrite capture_unfold. cbn zeta. rewrite update_where_id by done.
  rewrite set_holds_id, changes_0 by done. done.
Qed.

Definition captured_hold (a : capture_args) (h : HoldRow) : HoldRow := settle_hold HoldCaptured (c_now a) h.

Definition capture_holds (a : capture_args) (db : credit_db) : credit_db :=
  set_holds (update_where (open_with_id (c_hold a)) (captured_hold a) (cd_holds db)) db.

Lemma insert_ledger_once r db :
  ledger_check r = true → l_tenant_id r ∈ cd_tenants db → hold_ref_ok (l_hold_id r) (cd_holds db) = true →
  find_ledger (l_tenant_id r) (l_idem_ref r) (cd_ledger db) = None →
  insert_ledger r db =
    if existsb (λ r', l_id r' =s? l_id r) (cd_ledger db)
    then (Err "UNIQUE constraint failed: credit_ledger.id", db)
    else (Ok (Some r), set_ledger (cd_ledger db ++ [r]) db).
Proof.
  intros Hc Ht Hh Hf. unfold insert_ledger. rewrite Hc, Hf. cbn.
  rewrite bool_decide_eq_true_2, Hh by done. done.
Qed.

Lemma debit_key_fresh db h :
  credit_inv db → h ∈ cd_holds db → h_status h ≠ HoldCaptured →
  find_ledger (h_tenant_id h) (h_id h) (cd_ledger db) = None.
Proof.
  intros Hinv Hin Hst. apply find_ledger_None. intros r Hr Hk. unfold l_key in Hk. simplify_eq.
  pose proof (ci_once _ Hinv h Hin) as Ho. unfold settled_once in Ho.
  rewrite bool_decide_eq_false_2 in Ho by done. pose proof (ci_nocolon _ Hinv h Hin) as Hnc.
  destruct (l_hold_id r) as [i|] eqn:Hi.
  - destruct (ci_ref _ Hinv r i Hr Hi) as [Hid _].
    assert (r ∈ debits_of (h_id h) db) as Hd by (apply elem_of_debits; split; congruence).
    rewrite Ho in Hd. by apply elem_of_nil in Hd.
  - pose proof (ci_colon _ Hinv r Hr Hi). congruence.
Qed.

(** Capturing an open hold: either the ledger id is taken and nothing changes, or the hold becomes
    captured and its debit is appended. *)
Lemma capture_open a db h :
  credit_inv db → h ∈ cd_holds db → h_id h = c_hold a → h_status h = HoldOpen →
  captureHold a db =
    if existsb (λ r, l_id r =s? c_row a) (cd_ledger db)
    then (Err "UNIQUE constraint failed: credit_ledger.id", db)
    else (Ok true, set_ledger (cd_ledger db ++ [debit_of a h]) (capture_holds a db)).
Proof.
  intros Hinv Hin Hid Hst. rewrite capture_unfold. cbn zeta.
  assert (changes (open_with_id (c_hold a)) (cd_holds db) = 1%nat) as ->.
  { unfold changes, open_with_id. rewrite (jfilter_by_id is_open _ _ h); [|apply Hinv|done..].
    unfold is_open. by rewrite Hst. }
  set (holds' := update_where _ _ _).
  assert (captured_hold a h ∈ holds') as Hin'.
  { apply elem_of_update_where. exists h. split; [done|]. unfold open_with_id, is_open.
    by rewrite Hid, String.eqb_refl, Hst. }
  assert (jfilter (captured_with_id (c_hold a)) holds' = [captured_hold a h]) as ->.
  { unfold captured_with_id. rewrite (jfilter_by_id _ _ _ (captured_hold a h)); try done.
    unfold holds'. rewrite update_where_column by done. apply Hinv. }
  cbn. unfold mbind, M_bind.
  rewrite insert_ledger_once; cbn.
  - destruct (existsb _ _); [done|]. unfold capture_holds. by destruct h.
  - apply Z.ltb_lt. pose proof (ci_amounts _ Hinv h Hin). lia.
  - by apply (ci_tenants _ Hinv).
  - apply existsb_true_iff. exists (captured_hold a h). split; [done|]. apply String.eqb_refl.
  - apply debit_key_fresh; [done..|]. by rewrite Hst.
Qed.

(** Capturing anything else changes nothing. *)
Lemma capture_other a db :
  credit_inv db → (∀ h, h ∈ cd_holds db → h_id h = c_hold a → h_status h ≠ HoldOpen) →
  captureHold a db = (Ok false, db).
Proof.
  intros Hinv Hno. rewrite capture_no_update; last first.
  { intros h Hin. unfold open_with_id. destruct (h_id h =s? c_hold a) eqn:E; [|done]. bool_hyps.
    apply bool_decide_eq_false_2. eauto. }
  destruct (decide (Exists (λ h, h_id h = c_hold a) (cd_holds db))) as [Hex|Hnex].
  - apply Exists_exists in Hex as (h & Hin & Hid).
    unfold captured_with_id. rewrite (jfilter_by_id _ _ _ h); [|apply Hinv|done..].
    destruct (bool_decide (h_status h = HoldCaptured)) eqn:Hcap; cbn; [|done]. bool_hyps.
    pose proof (ci_once _ Hinv h Hin) as Ho. unfold settled_once in Ho.
    rewrite bool_decide_eq_true_2 in Ho by done. destruct Ho as (r & Hd & Ht & _ & _ & Hi & _).
    assert (r ∈ debits_of (h_id h) db) as Hr by (rewrite Hd; left). apply elem_of_debits in Hr as [Hr _].
    unfold mbind, M_bind, insert_ledger. cbn.
    assert ((- h_amount h <? 0) = true) as ->.
    { apply Z.ltb_lt. pose proof (ci_amounts _ Hinv h Hin). lia. }
    cbn. destruct (find_ledger _ _ _) eqn:Hf; [done|].
    rewrite find_ledger_None in Hf. destruct (Hf r Hr). unfold l_key. congruence.
  - rewrite (proj2 (jfilter_nil_iff _ _)); [done|]. intros h Hin. unfold captured_with_id.
    destruct (h_id h =s? c_hold a) eqn:E; [|done]. bool_hyps. destruct Hnex.
    apply Exists_exists. eauto.
Qed.

Lemma find_open_hold i db :
  match List.find (open_with_id i) (cd_holds db) with
  | Some h => h ∈ cd_holds db ∧ h_id h = i ∧ h_status h = HoldOpen
  | None => ∀ h, h ∈ cd_holds db → h_id h = i → h_status h ≠ HoldOpen
  end.
Proof.
  destruct (List.find _ _) as [h|] eqn:Hf.
  - apply find_Some_elem in Hf as [Hin Hp]. unfold open_with_id, is_open in Hp. bool_hyps. done.
  - rewrite find_None_elem in Hf. intros h Hin Hid Hst. specialize (Hf h Hin).
    unfold open_with_id, is_open in Hf.
    by rewrite Hid, String.eqb_refl, Hst in Hf.
Qed.

Lemma capture_spec a db :
  credit_inv db →
  captureHold a db =
    match List.find (open_with_id (c_hold a)) (cd_holds db) with
    | None => (Ok false, db)
    | Some h =>
        if existsb (λ r, l_id r =s? c_row a) (cd_ledger db)
        then (Err "UNIQUE constraint failed: credit_ledger.id", db)
        else (Ok true, set_ledger (cd_ledger db ++ [debit_of a h]) (capture_holds a db))
    end.
Proof.
  intros Hinv. pose proof (find_open_hold (c_hold a) db) as Hf.
  destruct (List.find _ _) as [h|].
  - destruct Hf as (Hin & Hid & Hst). by apply capture_open.
  - by apply capture_other.
Qed.

Lemma capture_inv a db : credit_inv db → credit_inv (exec (captureHold a) db).
Proof.
  intros Hinv. unfold exec. rewrite capture_spec by done. pose proof (find_open_hold (c_hold a) db) as Hf.
  destruct (List.find _ _) as [h|]; [|done]. destruct Hf as (Hin & Hid & Hst).
  destruct (existsb _ _) eqn:Hfresh; [done|]. rewrite existsb_false_iff in Hfresh.
  pose proof (debit_key_fresh db h Hinv Hin) as Hkey. rewrite Hst in Hkey.
  specialize (Hkey ltac:(done)). rewrite find_ledger_None in Hkey.
  pose proof (ci_once _ Hinv h Hin) as Honce. unfold settled_once in Honce. rewrite Hst in Honce. cbn in Honce.
  pose proof (ci_hids _ Hinv) as Hnd.
  destruct Hinv. split; cbn; try done.
  - apply NoDup_fmap_snoc; [done|]. intros (r & Heq & Hr)%list_elem_of_fmap.
    specialize (Hfresh r Hr). apply String.eqb_neq in Hfresh. cbn in *. congruence.
  - apply NoDup_fmap_snoc; [done|]. intros (r & Heq & Hr)%list_elem_of_fmap. by eapply Hkey.
  - by rewrite update_where_column.
  - by rewrite update_where_column.
  - intros r [?| ->%list_elem_of_singleton]%elem_of_app; [eauto|].
    apply Z.ltb_lt. cbn. specialize (ci_amounts0 h Hin). lia.
  - intros h' (h0 & Hin0 & ->)%elem_of_update_where. destruct (open_with_id _ h0); cbn; eauto.
  - intros h' (h0 & Hin0 & ->)%elem_of_update_where. destruct (open_with_id _ h0); cbn; eauto.
  - intros r [?| ->%list_elem_of_singleton]%elem_of_app; [eauto|]. cbn. eauto.
  - intros r [?| ->%list_elem_of_singleton]%elem_of_app; [eauto|done].
  - intros r i Hr Hi.
    assert (l_idem_ref r = i ∧ ∃ h1, h1 ∈ cd_holds db ∧ h_id h1 = i) as [? (h1 & Hin1 & Hid1)].
    { apply elem_of_app in Hr as [Hr| ->%list_elem_of_singleton]; [eauto|]. cbn in *. simplify_eq. eauto. }
    split; [done|]. exists (if open_with_id (c_hold a) h1 then captured_hold a h1 else h1).
    split; [apply elem_of_update_where; eauto|]. by destruct (open_with_id _ h1).
  - intros h' (h0 & Hin0 & ->)%elem_of_update_where. destruct (open_with_id _ h0); cbn; eauto.
  - intros h' (h0 & Hin0 & ->)%elem_of_update_where. specialize (ci_once0 h0 Hin0).
    unfold settled_once in *. rewrite debits_of_snoc. cbn [l_hold_id debit_of].
    destruct (open_with_id (c_hold a) h0) eqn:Hop; cbn.
    + unfold open_with_id in Hop. apply andb_true_iff in Hop as [Hid0 _]. bool_hyps.
      assert (h0 = h) as -> by (eapply (unique_eq h_id); eauto; congruence).
      rewrite Honce. assert (bool_decide (Some (h_id h) = Some (h_id h)) = true) as ->
        by (by apply bool_decide_eq_true_2). by exists (debit_of a h).
    + assert (h_id h ≠ h_id h0) as Hne.
      { intros Heq. assert (h0 = h) as -> by (eapply (unique_eq h_id); eauto).
        unfold open_with_id, is_open in Hop. by rewrite Hid, String.eqb_refl, Hst in Hop. }
      assert (bool_decide (Some (h_id h) = Some (h_id h0)) = false) as ->
        by (apply bool_decide_eq_false_2; congruence).
      by rewrite app_nil_r.
Qed.

(** ** The credit tables as a transition system *)
Inductive credit_op :=
| OpAppend (a : append_args)
| OpTake (a : hold_args)
| OpCapture (a : capture_args)
| OpRelease (hold now : string)
| OpExpire (now : string).

Definition exec_op (op : credit_op) (db : credit_db) : credit_db :=
  match op with
  | OpAppend a => exec (d1_appendLedgerRow a) db
  | OpTake a => exec (takeHold a) db
  | OpCapture a => exec (captureHold a) db
  | OpRelease i now => exec (releaseHold i now) db
  | OpExpire now => exec (expireHolds now) db
  end.

(** The references the callers build: [overageIdemRef] and [applySettlement] put a colon in theirs,
    [newId] makes ids of letters, hex digits and an underscore. *)
Definition op_ids_ok (op : credit_op) : bool :=
  match op with
  | OpAppend a => has_colon (a_idem a)
  | OpTake a => negb (has_colon (t_id a))
  | _ => true
  end.

Definition credit_step (db db' : credit_db) : Prop :=
  ∃ op, op_ids_ok op = true ∧ db' = exec_op op db.

Lemma credit_step_inv db db' : credit_inv db → credit_step db db' → credit_inv db'.
Proof.
  intros Hinv ([a|a|a|i now|now] & Hok & ->); cbn in *; bool_hyps.
  - by apply append_inv.
  - by apply take_inv.
  - by apply capture_inv.
  - by apply release_inv.
  - by apply expire_inv.
Qed.

Definition credit_reachable (db : credit_db) : Prop :=
  ∃ tenants, steps credit_step (mkCreditDb tenants [] []) db.

Lemma credit_reachable_inv db : credit_reachable db → credit_inv db.
Proof.
  intros [ts Hs]. eapply steps_invariant; [exact credit_step_inv|apply credit_inv_empty|done].
Qed.
#[export] Hint Resolve credit_reachable_inv credit_step_inv : plane.

(** ** What a tenant holds *)

Definition settled_of (t : string) (db : credit_db) : Z := sumZ (λ x, x) (tenant_deltas t db).
Definition held_of (t : string) (db : credit_db) : Z := sumZ (λ x, x) (tenant_open_amounts t db).
Definition available_of (t : string) (db : credit_db) : Z := settled_of t db - held_of t db.

Definition ledger_share (t : string) (r : LedgerRow) : Z := if l_tenant_id r =s? t then l_delta r else 0.
Definition hold_share (t : string) (h : HoldRow) : Z :=
  if (h_tenant_id h =s? t) && is_open h then h_amount h else 0.

Lemma settled_of_share t db : settled_of t db = sumZ (ledger_share t) (cd_ledger db).
Proof. unfold settled_of, tenant_deltas. by rewrite sumZ_map, sumZ_jfilter. Qed.
Lemma held_of_share t db : held_of t db = sumZ (hold_share t) (cd_holds db).
Proof. unfold held_of, tenant_open_amounts. by rewrite sumZ_map, sumZ_jfilter. Qed.

(** Updating the one hold that matches changes a sum by that hold's share. *)
Lemma update_one_sum (F : HoldRow → Z) i f l h :
  NoDup (h_id <$> l) → h ∈ l → open_with_id i h = true →
  sumZ F (update_where (open_with_id i) f l) = sumZ F l - F h + F (f h).
Proof.
  intros Hnd Hin Hop. destruct (unique_split h_id l h Hnd Hin) as (l1 & l2 & -> & H1 & H2).
  assert (∀ k, (∀ y, y ∈ k → h_id y ≠ h_id h) → update_where (open_with_id i) f k = k) as Hid.
  { intros k Hk. apply update_where_id. intros x Hx. unfold open_with_id in *. bool_hyps. subst.
    by rewrite (proj2 (String.eqb_neq _ _) (Hk x Hx)). }
  change (h :: l2) with ([h] ++ l2). rewrite !update_where_app, (Hid l1), (Hid l2) by done.
  rewrite !sumZ_app. cbn. rewrite Hop. cbn. lia.
Qed.

Lemma elem_open_with_id i h : h_id h = i → h_status h = HoldOpen → open_with_id i h = true.
Proof. unfold open_with_id, is_open. intros -> ->. by rewrite String.eqb_refl. Qed.

(** ** Properties *)

(** C1. Exactly one debit per captured hold, ever, and none for a hold in any other state: after any
    sequence of appends, holds, captures, releases and expiries, in any order and with any replays,
    a captured hold has exactly one ledger row, a debit of its amount to its tenant; the view of
    captured holds missing their debit is empty. *)
Theorem credit_exactly_once db :
  credit_reachable db →
  (∀ h, h ∈ cd_holds db → settled_once db h) ∧ (∀ n, capturedHoldsMissingDebit n db = []).
Proof.
  intros Hinv%credit_reachable_inv. split; [by apply ci_once|]. intros n.
  unfold capturedHoldsMissingDebit. rewrite (proj2 (jfilter_nil_iff _ _)); [by destruct n|].
  intros h Hin. pose proof (ci_once _ Hinv h Hin) as Ho. unfold settled_once in Ho.
  destruct (bool_decide (h_status h = HoldCaptured)); [|done]. destruct Ho as (r & Hd & _).
  assert (r ∈ debits_of (h_id h) db) as [Hr Hh]%elem_of_debits by (rewrite Hd; left).
  apply negb_false_iff, existsb_true_iff. exists r. split; [done|]. by apply bool_decide_eq_true_2.
Qed.

(** The functional behaviour of [captureHold] on every branch: with no open hold of that id it
    answers false and writes nothing; with one it either loses to a ledger id already in use, and the
    batch undoes the capture, or it captures the hold and appends the debit. *)
Theorem captureHold_branches a db :
  credit_reachable db →
  captureHold a db =
    match List.find (open_with_id (c_hold a)) (cd_holds db) with
    | None => (Ok false, db)
    | Some h =>
        if existsb (λ r, l_id r =s? c_row a) (cd_ledger db)
        then (Err "UNIQUE constraint failed: credit_ledger.id", db)
        else (Ok true, set_ledger (cd_ledger db ++ [debit_of a h]) (capture_holds a db))
    end.
Proof. intros. apply capture_spec. by apply credit_reachable_inv. Qed.

(** A hold that left the open state is never touched again. *)
Lemma settled_hold_stays db db' h :
  credit_inv db → credit_step db db' → h ∈ cd_holds db → h_status h ≠ HoldOpen → h ∈ cd_holds db'.
Proof.
  intros Hinv ([a|a|a|i now|now] & _ & ->) Hin Hst; cbn.
  - unfold exec. pose proof (append_spec (S := credit_db) a db) as Hs. change appendLedgerRow with d1_appendLedgerRow in Hs.
    rewrite d1_append_unfold in *. unfold insert_ledger in *. by repeat case_match; simplify_eq/=.
  - unfold exec, takeHold, mbind, M_bind.
    destruct (insert_hold (hold_of a) db) as [[o|e] db1] eqn:Hins.
    + apply insert_hold_ok in Hins as [(-> & ->)|(-> & -> & _)]; cbn.
      * by destruct (getHoldByJobRef _ _ _).
      * apply elem_of_app. by left.
    + unfold insert_hold in Hins. by repeat case_match; simplify_eq/=.
  - unfold exec. rewrite capture_spec by done. pose proof (find_open_hold (c_hold a) db) as Hf.
    destruct (List.find _ _) as [h'|]; [|done]. destruct (existsb _ _); [done|]. cbn.
    apply elem_of_update_where. exists h. split; [done|]. unfold open_with_id, is_open.
    by rewrite (bool_decide_eq_false_2 _ Hst), andb_false_r.
  - apply elem_of_update_where. exists h. split; [done|]. unfold open_with_id, is_open.
    by rewrite (bool_decide_eq_false_2 _ Hst), andb_false_r.
  - apply elem_of_update_where. exists h. split; [done|]. unfold is_open.
    by rewrite (bool_decide_eq_false_2 _ Hst).
Qed.

Lemma settled_hold_stays_steps db db' h :
  credit_inv db → steps credit_step db db' → h ∈ cd_holds db → h_status h ≠ HoldOpen → h ∈ cd_holds db'.
Proof.
  intros Hinv Hs. revert Hinv. induction Hs as [|db db1 db2 H1 _ IH]; intros Hinv Hin Hst; [done|].
  apply IH; [by eapply credit_step_inv| |done]. by eapply settled_hold_stays.
Qed.

(** A hold settles once: after it was captured, released or expired, every later capture or
    release of it answers false and changes nothing, whatever ran in between.  A released (failed)
    job can therefore never be charged, and a charged one never refunded its reservation. *)
Theorem settled_hold_is_final db db' h a now :
  credit_reachable db → h ∈ cd_holds db → h_status h ≠ HoldOpen → steps credit_step db db' →
  (c_hold a = h_id h → captureHold a db' = (Ok false, db')) ∧
  releaseHold (h_id h) now db' = (Ok false, db').
Proof.
  intros Hr Hin Hst Hs. pose proof (credit_reachable_inv _ Hr) as Hinv.
  assert (credit_inv db') as Hinv' by (eapply steps_invariant; [exact credit_step_inv|done..]).
  pose proof (settled_hold_stays_steps _ _ _ Hinv Hs Hin Hst) as Hin'.
  assert (∀ x, x ∈ cd_holds db' → open_with_id (h_id h) x = false) as Hnone.
  { intros x Hx. unfold open_with_id. destruct (h_id x =s? h_id h) eqn:E; [|done]. bool_hyps.
    assert (x = h) as -> by (eapply (unique_eq h_id); eauto; apply Hinv').
    by apply bool_decide_eq_false_2. }
  split.
  - intros Hc. apply capture_other; [done|]. intros x Hx Hid Hop. specialize (Hnone x Hx).
    rewrite elem_open_with_id in Hnone; [done| |done]. congruence.
  - unfold releaseHold, update_holds, mbind, M_bind. rewrite changes_0 by done.
    by rewrite update_where_id, set_holds_id by done.
Qed.

(** A capture moves money from held to settled: the captured amount leaves both the tenant's
    reservation and its settled balance, so what is available does not change, and no other tenant's
    position moves. *)
Theorem capture_conserves_available a db db' :
  credit_reachable db → captureHold a db = (Ok true, db') →
  ∃ h, h ∈ cd_holds db ∧ h_id h = c_hold a ∧ h_status h = HoldOpen ∧
    ∀ t, settled_of t db' = settled_of t db - hold_share t h ∧
         held_of t db' = held_of t db - hold_share t h ∧
         available_of t db' = available_of t db.
Proof.
  intros Hr Hcap. pose proof (credit_reachable_inv _ Hr) as Hinv.
  rewrite capture_spec in Hcap by done. pose proof (find_open_hold (c_hold a) db) as Hf.
  destruct (List.find _ _) as [h|]; [|done]. destruct Hf as (Hin & Hid & Hst).
  destruct (existsb _ _); [done|]. injection Hcap as <-. exists h. split_and!; [done..|]. intros t.
  unfold available_of. rewrite !settled_of_share, !held_of_share.
  cbn [cd_ledger cd_holds set_ledger set_holds capture_holds]. rewrite sumZ_snoc.
  rewrite (update_one_sum _ _ _ _ h); [|apply Hinv|done|by apply elem_open_with_id].
  assert (hold_share t (captured_hold a h) = 0) as -> by (unfold hold_share; cbn; by rewrite andb_false_r).
  assert (ledger_share t (debit_of a h) = - hold_share t h) as ->.
  { unfold ledger_share, hold_share, is_open. rewrite Hst. cbn. by destruct (_ =s? _). }
  lia.
Qed.

(** The balance a request reads refines the ledger: as long as the magnitudes stay within the
    safe integers, [readBalanceSums] and [balanceFromSums] report exactly the sum of the tenant's
    rows, the sum of its open holds (expired-but-unswept ones included) and their difference. *)
Theorem readBalance_refines t db :
  sumZ Z.abs (tenant_deltas t db) + sumZ Z.abs (tenant_open_amounts t db) <= Num.max_safe →
  readBalanceSums t db = (Ok (settled_of t db, held_of t db), db) ∧
  balanceFromSums (settled_of t db) (held_of t db) true =
    mkBalance (settled_of t db) (held_of t db) (available_of t db) true.
Proof.
  intros H. assert (0 <= sumZ Z.abs (tenant_deltas t db)) by (apply sumZ_nonneg; lia).
  assert (0 <= sumZ Z.abs (tenant_open_amounts t db)) by (apply sumZ_nonneg; lia).
  unfold readBalanceSums, mbind, M_bind, query.
  rewrite !sql_sum_exact by lia. split; [done|]. unfold balanceFromSums, available_of.
  pose proof (sumZ_abs_bound (tenant_deltas t db)). pose proof (sumZ_abs_bound (tenant_open_amounts t db)).
  rewrite sub_exact; [done|]. unfold settled_of, held_of. lia.
Qed.

(** A sum that overflows the engine's 64-bit integers throws: no balance is ever reported from a
    wrapped sum. *)
Theorem sql_sum_never_wraps l n : sql_sum l = Ok n → n = Num.rnd (sumZ (λ x, x) l) ∧ in_int64 (sumZ (λ x, x) l) = true ∨ l = [].
Proof.
  intros H. destruct (decide (l = [])) as [->|Hne]; [by right|left].
  unfold sql_sum in H. destruct (sql_sum_from 0 l) as [m|e] eqn:E; [|done]. cbn in H. simplify_eq.
  assert (∀ l acc r, l ≠ [] → sql_sum_from acc l = Ok r →
    r = acc + sumZ (λ x, x) l ∧ in_int64 r = true) as Hgen.
  { clear. induction l as [|x l IH]; intros acc r Hne H; [done|]. cbn in H.
    destruct (in_int64 (acc + x)) eqn:Ei; [|done]. destruct l as [|y l].
    - cbn in H. simplify_eq. split; [unfold sumZ; cbn; lia|done].
    - destruct (IH (acc + x) r) as [-> Hr]; [done|done|]. split; [rewrite !sumZ_cons; lia|done]. }
  destruct (Hgen l 0 m Hne E) as [-> Hm]. rewrite Z.add_0_l in *. done.
Qed.
