(* ===== verification/MeterDebit.v ===== *)
(** * Metered overage (src/meter-window.ts, src/meter-debit.ts, src/meter-settle.ts)

    From one metered window to one ledger row, or to an explained refusal to write one. *)

From S2P Require Export LedgerIface.
Open Scope string_scope.
Open Scope list_scope.
Open Scope Z_scope.
Open Scope plane_scope.

(** ** The shared completeness vocabulary *)

(** [mw_complete] is [None] for an object of an older shape that has no such field. *)
Record MeterWindow := mkWindow {
  window_start : string;
  window_end : string;
  mw_complete : option bool;
  mw_reason : option string;
}.

Definition isUnbillable (w : MeterWindow) : bool :=
  negb (match mw_complete w with Some b => b | None => false end).

(** ** The decision *)

Inductive MeterClass := Llm | R2Storage.
#[export] Instance MeterClass_eq_dec : EqDecision MeterClass.
Proof. solve_decision. Defined.

Definition meter_name (m : MeterClass) : string :=
  match m with Llm => "llm" | R2Storage => "r2_storage" end.

Definition OVERAGE_LEDGER_KIND : LedgerKind := Debit.

(** Why a window could not be billed; [reason_text] below renders it as the code does. *)
Inductive UnbillableReason :=
| WindowIncomplete (meter : MeterClass) (w : MeterWindow)
| BadUsage (meter : MeterClass) (used : Num.num)
| NoAllowance (meter : MeterClass)
| BadAllowance (meter : MeterClass) (allowance : Num.num)
| Threw (message : string).

Inductive DebitDecision :=
| DDebit (amount cost : MicroUsd) (idemRef note : string)
| DWithin (used allowance : MicroUsd) (note : string)
| DUnbillable (reason : UnbillableReason).

Definition overageIdemRef (meter : MeterClass) (periodKey : string) : string :=
  "overage:" +:+ meter_name meter +:+ ":" +:+ periodKey.

(** [Number.isInteger(n) && n >= 0], with the integer it denotes. *)
Definition nonneg_integer (n : Num.num) : option Z :=
  match n with
  | Num.NInt z => if z <? 0 then None else Some z
  | _ => None
  end.

Definition decideOverageDebit (meter : MeterClass) (window : MeterWindow) (used : Num.num)
    (allowance : option Num.num) (periodKey : string) : DebitDecision :=
  if isUnbillable window then DUnbillable (WindowIncomplete meter window)
  else match nonneg_integer used with
  | None => DUnbillable (BadUsage meter used)
  | Some u =>
      match allowance with
      | None => DUnbillable (NoAllowance meter)
      | Some al =>
          match nonneg_integer al with
          | None => DUnbillable (BadAllowance meter al)
          | Some a =>
              if u <=? a then
                DWithin u a (Str.of_int u +:+ " of " +:+ Str.of_int a +:+ " micro-USD included " +:+
                  meter_name meter +:+ " allowance used in " +:+ periodKey +:+ "; nothing owed")
              else
                DDebit (Num.sub u a) u (overageIdemRef meter periodKey)
                  (meter_name meter +:+ " overage for " +:+ periodKey +:+ ": " +:+ Str.of_int u +:+
                   " micro-USD used against a " +:+ Str.of_int a +:+ " micro-USD included allowance")
          end
      end
  end.

(** The text of a refusal; [show] is [String(n)] on any number. *)
Definition reason_text (show : Num.num → string) (r : UnbillableReason) : string :=
  match r with
  | WindowIncomplete m w =>
      "the " +:+ meter_name m +:+ " meter did not fully observe " +:+ window_start w +:+ ".." +:+
      window_end w +:+ ", so " +:+ "its total is not a number we may bill from: " +:+
      default "no reason recorded" (mw_reason w)
  | BadUsage m n =>
      "the " +:+ meter_name m +:+ " meter reported a usage of " +:+ show n +:+
      " micro-USD, which is not a " +:+
      "non-negative integer. Refusing to bill from it rather than coercing it to a number that " +:+
      "would be silently wrong"
  | NoAllowance m =>
      "no included allowance is configured for the " +:+ meter_name m +:+
      " meter, so there is nothing to measure " +:+
      "overage against. An unset allowance is the absence of a decision, not a decision of zero, " +:+
      "and billing every micro-USD against an allowance nobody chose would charge the tenant for " +:+
      "our missing config"
  | BadAllowance m n =>
      "the configured " +:+ meter_name m +:+ " allowance " +:+ show n +:+ " is not a non-negative " +:+
      "integer number of micro-USD. A malformed allowance is refused rather than rounded, because " +:+
      Str.dq +:+ "typed it wrong" +:+ Str.dq +:+ " and " +:+ Str.dq +:+ "chose no allowance" +:+ Str.dq +:+
      " must not be the same outcome"
  | Threw e => "settlement threw for this tenant: " +:+ Str.take 200 e
  end.

(** ** The write *)

Inductive SettleOutcome :=
| Debited (amount : MicroUsd) (idemRef ledgerRowId : string)
| AlreadySettled (idemRef ledgerRowId : string)
| SWithin (used allowance : MicroUsd)
| SUnbillable (reason : UnbillableReason).

(** [newId] and [now] are asked when a row is written, afresh for every row. *)
Record settle_args (S : Type) := mkSettle {
  s_tenant : string;
  s_meter : MeterClass;
  s_window : MeterWindow;
  s_used : Num.num;
  s_allowance : option Num.num;
  s_period : string;
  s_newId : M S string string;
  s_now : M S string string;
}.
Arguments mkSettle {S}.
Arguments s_tenant {S}.
Arguments s_meter {S}.
Arguments s_window {S}.
Arguments s_used {S}.
Arguments s_allowance {S}.
Arguments s_period {S}.
Arguments s_newId {S}.
Arguments s_now {S}.

Definition settle_decision {S} (a : settle_args S) : DebitDecision :=
  decideOverageDebit (s_meter a) (s_window a) (s_used a) (s_allowance a) (s_period a).

(** The row a debit decision asks the ledger for, under the id and the instant drawn for it. *)
Definition overage_row {S} (a : settle_args S) (id now : string) (amount cost : MicroUsd) (idemRef note : string) : append_args :=
  mkAppend id (s_tenant a) Debit (- amount) (Some cost) idemRef None None (Some note) now.

Section settle.
Context {S : Type} `{OverageLedger S}.

Definition settleMeterOverage (a : settle_args S) : M S string SettleOutcome :=
  match settle_decision a with
  | DUnbillable r => mret (SUnbillable r)
  | DWithin u al _ => mret (SWithin u al)
  | DDebit amount cost idemRef note =>
      id ← s_newId a;
      now ← s_now a;
      written ← appendLedgerRow (overage_row a id now amount cost idemRef note);
      mret (if r_applied written
            then Debited amount idemRef (l_id (r_row written))
            else AlreadySettled idemRef (l_id (r_row written)))
  end.
(** Drawing an id or reading the clock writes no row. *)
Definition draws_quietly (m : M S string string) : Prop := ∀ s, ledger_rows (exec m s) = ledger_rows s.
End settle.

(** ** Lemmas *)

Lemma decide_debit_inv meter w used al pk amount cost idem note :
  decideOverageDebit meter w used al pk = DDebit amount cost idem note →
  ∃ u a, mw_complete w = Some true ∧ used = Num.NInt u ∧ al = Some (Num.NInt a) ∧ 0 <= a < u ∧
         amount = Num.sub u a ∧ cost = u ∧ idem = overageIdemRef meter pk.
Proof.
  unfold decideOverageDebit, isUnbillable. intros H.
  destruct (mw_complete w) as [[|]|]; cbn in H; try done.
  destruct used as [u| | |]; cbn in H; try done. destruct (u <? 0) eqn:Eu; [done|].
  destruct al as [[a| | |]|]; cbn in H; try done. destruct (a <? 0) eqn:Ea; [done|].
  destruct (u <=? a) eqn:E; [done|]. bool_hyps. injection H as <- <- <- <-.
  exists u, a. split_and!; (done || lia).
Qed.

Lemma debit_amount_pos a u : 0 <= a < u → 0 < Num.sub u a.
Proof. intros H. apply rnd_pos. lia. Qed.

Lemma overage_row_ok {S} (a : settle_args S) id now amount cost idem note :
  settle_decision a = DDebit amount cost idem note →
  ledger_check (row_of (overage_row a id now amount cost idem note)) = true.
Proof.
  intros (u & al & _ & _ & _ & Hr & -> & _)%decide_debit_inv. unfold ledger_check. cbn.
  apply Z.ltb_lt. pose proof (debit_amount_pos al u Hr). lia.
Qed.

Lemma debit_idem {S} (a : settle_args S) amount cost idem note :
  settle_decision a = DDebit amount cost idem note → idem = overageIdemRef (s_meter a) (s_period a).
Proof. by intros (u & al & _ & _ & _ & _ & _ & _ & ->)%decide_debit_inv. Qed.

(** What one settlement does to the rows, by outcome. *)
Section settle_lemmas.
Context {S : Type} `{OverageLedgerOk S}.

Definition settled_as (a : settle_args S) (s s' : S) (o : SettleOutcome) : Prop :=
  let idem := overageIdemRef (s_meter a) (s_period a) in
  match o with
  | Debited amount i _ =>
      i = idem ∧ 0 < amount ∧ find_ledger (s_tenant a) idem (ledger_rows s) = None ∧
      ∃ row, ledger_rows s' = ledger_rows s ++ [row] ∧ l_key row = (s_tenant a, idem) ∧
             l_kind row = Debit ∧ l_delta row = - amount
  | AlreadySettled i _ =>
      i = idem ∧ ledger_rows s' = ledger_rows s ∧
      ∃ row, find_ledger (s_tenant a) idem (ledger_rows s) = Some row
  | _ => ledger_rows s' = ledger_rows s
  end.

(** What a settlement is once a debit is decided: two draws, and one append beside them. *)
Lemma settle_run a amount cost note s :
  settle_decision a = DDebit amount cost (overageIdemRef (s_meter a) (s_period a)) note →
  draws_quietly (s_newId a) → draws_quietly (s_now a) →
  (∃ e s', settleMeterOverage a s = (Err e, s') ∧ ledger_rows s' = ledger_rows s) ∨
  (∃ id now s1, ledger_rows s1 = ledger_rows s ∧
     let '(r, s') := appendLedgerRow (overage_row a id now amount cost (overageIdemRef (s_meter a) (s_period a)) note) s1 in
     settleMeterOverage a s = ((λ w, (if r_applied w then Debited amount else AlreadySettled) (overageIdemRef (s_meter a) (s_period a)) (l_id (r_row w))) <$> r, s')).
Proof.
  intros Hd Hi Hn. unfold settleMeterOverage. rewrite Hd, bind_run. specialize (Hi s). unfold exec in Hi.
  destruct (s_newId a s) as [[id|e] s1]; cbn in Hi; [|left; by exists e, s1].
  rewrite bind_run. specialize (Hn s1). unfold exec in Hn. destruct (s_now a s1) as [[dt|e] s2]; cbn in Hn; [|left; exists e, s2; by rewrite Hn].
  right. exists id, dt, s2. split; [congruence|]. rewrite bind_run. destruct (appendLedgerRow _ s2) as [[w|e] s3]; [|done].
  cbn. by destruct (r_applied w).
Qed.
Lemma settle_settled_as a s : draws_quietly (s_newId a) → draws_quietly (s_now a) →
  match settleMeterOverage a s with
  | (Ok o, s') => settled_as a s s' o
  | (Err _, s') => ledger_rows s' = ledger_rows s
  end.
Proof.
  intros Hi Hn. destruct (settle_decision a) as [amount cost idem note| |] eqn:Hd; [|by unfold settleMeterOverage; rewrite Hd..].
  pose proof (debit_idem _ _ _ _ _ Hd) as ->.
  destruct (settle_run a amount cost note s Hd Hi Hn) as [(e & s' & -> & Hs)|(id & dt & s1 & Hs1 & Hrun)]; [done|].
  pose proof (append_spec (overage_row a id dt amount cost (overageIdemRef (s_meter a) (s_period a)) note) s1) as Hs.
  destruct (appendLedgerRow _ s1) as [[w|e] s']; rewrite Hrun; inversion Hs as [e0|row Hf|s2 Hf Hck Hrows]; subst; cbn; rewrite ?Hs1 in *; try done.
  - split_and!; [done|done|]. by exists row.
  - apply decide_debit_inv in Hd as (u & al & Hc & Hu & Hal & Hr & -> & _ & _).
    split_and!; [done|by apply debit_amount_pos|done|]. eexists. by split_and!.
Qed.
End settle_lemmas.

(** ** Properties *)

(** The decision on every branch.  A debit is only ever drawn from a window flagged complete,
    a usage and an allowance that are nonnegative integers, with the usage above the allowance; it
    charges the (positive) difference, exactly when both are safe integers, and records the whole
    usage as cost.  Usage within the allowance owes nothing.  Anything else is unbillable, an
    incomplete window first of all. *)
Theorem decideOverageDebit_sound meter w used al pk :
  match decideOverageDebit meter w used al pk with
  | DDebit amount cost idem _ =>
      ∃ u a, mw_complete w = Some true ∧ used = Num.NInt u ∧ al = Some (Num.NInt a) ∧ 0 <= a < u ∧
             0 < amount ∧ (u <= Num.max_safe → amount = u - a) ∧ cost = u ∧ idem = overageIdemRef meter pk
  | DWithin u a _ =>
      mw_complete w = Some true ∧ used = Num.NInt u ∧ al = Some (Num.NInt a) ∧ 0 <= u <= a
  | DUnbillable (WindowIncomplete m w') => mw_complete w ≠ Some true ∧ m = meter ∧ w' = w
  | DUnbillable (BadUsage m n) =>
      mw_complete w = Some true ∧ m = meter ∧ n = used ∧ nonneg_integer used = None
  | DUnbillable (NoAllowance m) => mw_complete w = Some true ∧ m = meter ∧ al = None
  | DUnbillable (BadAllowance m n) =>
      mw_complete w = Some true ∧ m = meter ∧ al = Some n ∧ nonneg_integer n = None
  | DUnbillable (Threw _) => False
  end.
Proof.
  unfold decideOverageDebit, isUnbillable.
  destruct (mw_complete w) as [[|]|]; cbn; try done.
  destruct used as [u| | |]; cbn; try done. destruct (u <? 0) eqn:Eu; cbn; [by rewrite ?Eu|].
  destruct al as [[a| | |]|]; cbn; try done. destruct (a <? 0) eqn:Ea; cbn; [by rewrite ?Ea|].
  destruct (u <=? a) eqn:E; bool_hyps; [split_and!; (done || lia)|].
  exists u, a. split_and!; try (done || lia).
  - apply debit_amount_pos. lia.
  - intros Hs. apply sub_exact. lia.
Qed.

(** The idempotency key names one meter and one period: two different obligations of a tenant
    never share it, whatever the period keys are. *)
Theorem overageIdemRef_injective m1 p1 m2 p2 :
  overageIdemRef m1 p1 = overageIdemRef m2 p2 → m1 = m2 ∧ p1 = p2.
Proof. by destruct m1, m2; cbn; intros [=]. Qed.

Section settle_properties.
Context {S : Type} `{OverageLedgerOk S}.

(** A settlement writes at most one row, only from a complete window, and the row charges the
    tenant the overage of that meter and period; every other outcome, an error included, leaves the
    ledger as it was. *)
Theorem settle_writes_only_overage a (s : S) : draws_quietly (s_newId a) → draws_quietly (s_now a) →
  match settleMeterOverage a s with
  | (Ok (Debited amount idem _), s') =>
      ∃ note u al id now, mw_complete (s_window a) = Some true ∧ s_used a = Num.NInt u ∧
        s_allowance a = Some (Num.NInt al) ∧ 0 <= al < u ∧ amount = Num.sub u al ∧
        idem = overageIdemRef (s_meter a) (s_period a) ∧
        ledger_rows s' = ledger_rows s ++ [row_of (overage_row a id now amount u idem note)] ∧
        find_ledger (s_tenant a) idem (ledger_rows s) = None
  | (_, s') => ledger_rows s' = ledger_rows s
  end.
Proof.
  intros Hi Hn. destruct (settle_decision a) as [amount cost idem note| |] eqn:Hd; [|by unfold settleMeterOverage; rewrite Hd..].
  pose proof (debit_idem _ _ _ _ _ Hd) as ->.
  destruct (settle_run a amount cost note s Hd Hi Hn) as [(e & s' & -> & Hs)|(id & dt & s1 & Hs1 & Hrun)]; [done|].
  pose proof (append_spec (overage_row a id dt amount cost (overageIdemRef (s_meter a) (s_period a)) note) s1) as Hs.
  destruct (appendLedgerRow _ s1) as [[w|e] s']; rewrite Hrun; inversion Hs as [e0|row Hf|s2 Hf Hck Hrows]; subst; cbn; rewrite ?Hs1 in *; try done.
  apply decide_debit_inv in Hd as (u & al & Hc & Hu & Hal & Hr & -> & -> & _).
  exists note, u, al, id, dt. split_and!; (done || lia).
Qed.

(** Exactly once per tenant, meter and period: after a settlement that charged, or that found
    the charge already there, every later settlement of the same obligation leaves the ledger's rows
    as they are and never reports a fresh charge, whatever window, usage or allowance it is given and
    whatever ids and instants are drawn for it (the period stays settled at the first figure). *)
Theorem settle_idempotent a b (s s' : S) idem rid :
  draws_quietly (s_newId a) → draws_quietly (s_now a) → draws_quietly (s_newId b) → draws_quietly (s_now b) →
  s_tenant b = s_tenant a → s_meter b = s_meter a → s_period b = s_period a →
  (∃ amount, settleMeterOverage a s = (Ok (Debited amount idem rid), s')) ∨
    settleMeterOverage a s = (Ok (AlreadySettled idem rid), s') →
  ledger_rows (exec (settleMeterOverage b) s') = ledger_rows s' ∧
  (∀ amount idem' rid', eval (settleMeterOverage b) s' ≠ Ok (Debited amount idem' rid')).
Proof.
  intros Hia Hna Hib Hnb Ht Hm Hp Ha.
  assert (find_ledger (s_tenant b) (overageIdemRef (s_meter b) (s_period b)) (ledger_rows s') ≠ None) as Hf.
  { rewrite Ht, Hm, Hp. pose proof (settle_settled_as a s Hia Hna) as Hset.
    destruct Ha as [[amount Ha]|Ha]; rewrite Ha in Hset; cbn in Hset.
    - destruct Hset as (_ & _ & Hn & row & -> & Hk & _). rewrite find_ledger_app, Hn. by rewrite bool_decide_eq_true_2.
    - destruct Hset as (_ & -> & row & ->). done. }
  pose proof (settle_settled_as b s' Hib Hnb) as Hset. unfold exec, eval.
  destruct (settleMeterOverage b s') as [[o|e] s2]; [|by split]. cbn. destruct o as [am i r|i r| |]; cbn in Hset.
  - by destruct Hset as (_ & _ & Hn & _).
  - by destruct Hset as (_ & ? & _).
  - by split.
  - by split.
Qed.
End settle_properties.
