(* ===== verification/LlmStore.v ===== *)
(** * A window of LLM spend, the meter's tables and one run of it

    First what may be claimed of a window (src/llm-spend-window.ts): the roll-up runs assigned to it, and
    the judgement of whether the total over them is the whole truth.  Then the three tables of migration
    0015 ([llm_db]; src/store-d1.ts LlmSpendD1, src/llm-spend-ingest.ts): the ingest half writes them one
    statement (or one 50-row batch) at a time, the read half answers a tenant's spend over a closed
    window. *)

From S2P Require Export Sql MeterDebit LlmRollup.
From stdpp Require Export gmap.
Open Scope string_scope.
Open Scope list_scope.
Open Scope Z_scope.
Open Scope plane_scope.

(** A row of [llm_rollup_periods] as the read sees it; the CHECKs of migration 0015 restrict
    [status] to the three names below and the two flags to 0 and 1. *)
Record RollupPeriodRow := mkPeriodRow {
  p_id : string;
  p_window_start : string;
  p_window_end : string;
  p_status : string;
  p_control_passed : Z;
  p_gap_detected : Z;
  p_finished_at : option string;
}.

Definition status_name (s : RollupStatus) : string :=
  match s with Complete => "complete" | Incomplete => "incomplete" | Failed => "failed" end.

Record LlmSpendWindow := mkSpendWindow {
  sw_window : MeterWindow;
  cost_micro_usd : Num.num;
  sw_requests : Z;
  sw_periods : nat;
  unpriced_requests : Z;
}.

Definition periodBelongsToWindow (period : RollupPeriodRow) (windowStart windowEnd : string) : bool :=
  (windowStart <=s? p_window_end period) && (p_window_end period <s? windowEnd).

Record WindowSums := mkSums {
  sum_costMicroUsd : Num.num;
  sum_requests : Z;
  sum_unpricedRequests : Z;
}.

(** [!p.finished_at]: null or empty. *)
Definition is_unfinished (p : RollupPeriodRow) : bool :=
  match p_finished_at p with Some s => negb (Str.truthy s) | None => true end.
Definition is_not_complete (p : RollupPeriodRow) : bool := negb (p_status p =s? "complete").
Definition control_failed (p : RollupPeriodRow) : bool := negb (p_control_passed p =? 1).
Definition is_gapped (p : RollupPeriodRow) : bool := p_gap_detected p =? 1.

Definition truncated_reason : string :=
  "the period census for this window hit its own row limit, so the periods below are a subset " +:+
  "and every count drawn from them is a floor".
Definition no_period_reason : string :=
  "no roll-up run is assigned to this window, so the meter made no observation of it. That is " +:+
  "NOT the same fact as zero spend, and the zero below must not be billed as one".

(** A reason that names how many runs or requests it is about; nothing when there are none. *)
Definition count_reason (n : Z) (text : string) : list string :=
  if 0 <? n then [Str.of_int n +:+ text] else [].
Definition run_reason (test : RollupPeriodRow → bool) (text : string) (periods : list RollupPeriodRow) : list string :=
  count_reason (Z.of_nat (length (jfilter test periods))) text.

Definition window_reasons (periods : list RollupPeriodRow) (sums : WindowSums) (truncated : bool) : list string :=
  (if truncated then [truncated_reason] else []) ++
  (if (length periods =? 0)%nat then [no_period_reason] else []) ++
  run_reason is_unfinished " assigned run(s) never finished writing, so their event sets are partial" periods ++
  run_reason is_not_complete
    " assigned run(s) did not paginate to exhaustion (status incomplete or failed)" periods ++
  run_reason control_failed
    (" assigned run(s) FAILED their positive control, so what they read is not evidence " +:+
     "(an empty gateway read is indistinguishable from wrong-gateway or no-permission)") periods ++
  run_reason is_gapped
    (" assigned run(s) detected a retention GAP: rows were deleted unread and are gone for good, " +:+
     "so this window under-counts by an unknown amount that will never arrive") periods ++
  count_reason (sum_unpricedRequests sums)
    (" request(s) in this window carried no usable cost from the gateway and are counted but NOT " +:+
     "summed, so the total is a floor").

Definition summariseWindow (periods : list RollupPeriodRow) (windowStart windowEnd : string)
    (sums : WindowSums) (periodCensusTruncated : bool) : LlmSpendWindow :=
  let reasons := window_reasons periods sums periodCensusTruncated in
  mkSpendWindow
    (mkWindow windowStart windowEnd (Some (length reasons =? 0)%nat)
       (if (length reasons =? 0)%nat then None else Some (Str.join "; " reasons)))
    (sum_costMicroUsd sums) (sum_requests sums) (length periods) (sum_unpricedRequests sums).

Definition MAX_PERIODS_PER_WINDOW : nat := Z.to_nat 20000.

(** ** Lemmas *)

(** A run whose rows are the whole truth of what it was to read. *)
Definition is_sound (p : RollupPeriodRow) : bool :=
  negb (is_unfinished p) && negb (is_not_complete p) && negb (control_failed p) && negb (is_gapped p).

Lemma count_reason_nil n text : count_reason n text = [] ↔ n <= 0.
Proof. unfold count_reason. destruct (0 <? n) eqn:E; bool_hyps; split; (done || lia). Qed.

Lemma run_reason_nil test text l : run_reason test text l = [] ↔ ∀ p, p ∈ l → test p = false.
Proof.
  unfold run_reason. rewrite count_reason_nil, <- jfilter_nil_iff. destruct (jfilter test l); cbn; split; (done || lia).
Qed.

Lemma window_reasons_nil periods sums truncated :
  window_reasons periods sums truncated = [] ↔
  truncated = false ∧ periods ≠ [] ∧ (∀ p, p ∈ periods → is_sound p = true) ∧ sum_unpricedRequests sums <= 0.
Proof.
  unfold window_reasons. rewrite !app_nil, !run_reason_nil, count_reason_nil. unfold is_sound. split.
  - intros (Ht & Hp & Hu & Hn & Hc & Hg & Hs). split_and!; [by destruct truncated|by destruct periods| |done].
    intros p Hin. rewrite Hu, Hn, Hc, Hg; done.
  - intros (-> & Hp & Hall & Hs).
    assert (∀ p, p ∈ periods → is_unfinished p = false ∧ is_not_complete p = false ∧
      control_failed p = false ∧ is_gapped p = false) as H by (intros p Hin; specialize (Hall p Hin); by bool_hyps).
    split_and!; try done; try (intros p Hin; by apply H). by destruct periods.
Qed.

Lemma billable_reasons periods ws we sums truncated :
  isUnbillable (sw_window (summariseWindow periods ws we sums truncated)) = false ↔
  window_reasons periods sums truncated = [].
Proof. unfold isUnbillable, summariseWindow. cbn -[window_reasons]. by destruct (window_reasons periods sums truncated). Qed.

(** ** Properties *)

(** A window is complete exactly when every way it could be less than the whole truth is
    excluded: the census of its runs was not cut off, there is at least one run, every run finished
    writing, read to the end, passed its positive control and found no retention gap, and every
    request has a cost.  A window that is not complete always carries a reason and can never be
    billed; a complete one carries none. *)
Theorem complete_iff_whole_truth periods ws we sums truncated :
  let w := sw_window (summariseWindow periods ws we sums truncated) in
  (isUnbillable w = false ↔
    truncated = false ∧ periods ≠ [] ∧
    (∀ p, p ∈ periods →
      p_finished_at p ≠ None ∧ p_finished_at p ≠ Some "" ∧ p_status p = "complete" ∧
      p_control_passed p = 1 ∧ p_gap_detected p ≠ 1) ∧
    sum_unpricedRequests sums <= 0) ∧
  (isUnbillable w = true ↔ ∃ r, mw_reason w = Some r).
Proof.
  assert (∀ p, is_sound p = true ↔ p_finished_at p ≠ None ∧ p_finished_at p ≠ Some "" ∧ p_status p = "complete" ∧
      p_control_passed p = 1 ∧ p_gap_detected p ≠ 1) as Hsound.
  { intros p. unfold is_sound, is_unfinished, is_not_complete, control_failed, is_gapped.
    rewrite !andb_true_iff, !negb_true_iff, negb_false_iff, negb_false_iff, String.eqb_eq, Z.eqb_eq, Z.eqb_neq.
    destruct (p_finished_at p) as [s|]; [|naive_solver]. rewrite negb_false_iff. unfold Str.truthy.
    destruct s; cbn; naive_solver. }
  cbn zeta. setoid_rewrite <- Hsound. rewrite <- window_reasons_nil. unfold isUnbillable, summariseWindow. cbn.
  destruct (window_reasons periods sums truncated); cbn; split; split; try done; naive_solver.
Qed.

(** A run finished at any instant [t] belongs to the window of one billing month, the month
    containing [t], and to no other month's window: consecutive statements neither share a run nor
    lose one. *)
Theorem run_billed_in_one_month t p t' p' row :
  ordinary t → ordinary t' → p_window_end row = Date.to_iso t →
  billingPeriodContaining (Some t) = Ok p → billingPeriodContaining (Some t') = Ok p' →
  periodBelongsToWindow row (windowStart p) (windowEnd p) = true ∧
  (periodBelongsToWindow row (windowStart p') (windowEnd p') = true → p' = p).
Proof.
  intros Ho Ho' Hr Hp Hp'. unfold periodBelongsToWindow. rewrite Hr. split.
  - by apply (instant_in_period t t p).
  - intros H. apply (instant_in_period t' t p') in H; [|done..]. by rewrite Hp in H; apply Ok_inj in H.
Qed.

(** ** The tables *)

Record RollupPeriodWrite := mkPeriodWrite {
  w_id : string;
  w_windowStart : string;
  w_windowEnd : string;
  w_status : RollupStatus;
  w_controlPassed : bool;
  w_gapDetected : bool;
  w_startedAt : string;
}.

(** A stored row of [llm_rollup_periods]: the columns the read selects, and the two it does not. *)
Record PeriodRec := mkPeriodRec {
  pr_row : RollupPeriodRow;
  pr_rows_ingested : Z;
  pr_started_at : string;
}.

(** A stored row of [llm_spend_events]. *)
Record EventRec := mkEventRec {
  ev : SpendEvent;
  ev_inserted_at : string;
  ev_period_id : string;
}.

Record llm_db := mkLlmDb {
  ld_periods : list PeriodRec;
  ld_events : list EventRec;
  ld_watermark : gmap string (string * string);
}.

Definition pr_id (p : PeriodRec) : string := p_id (pr_row p).
Definition pr_end (p : PeriodRec) : string := p_window_end (pr_row p).
Definition ev_key (e : EventRec) : string * string := (source (ev e), sourceId (ev e)).

Definition set_periods (l : list PeriodRec) (db : llm_db) : llm_db :=
  mkLlmDb l (ld_events db) (ld_watermark db).
Definition set_events (l : list EventRec) (db : llm_db) : llm_db :=
  mkLlmDb (ld_periods db) l (ld_watermark db).
Definition set_watermark (m : gmap string (string * string)) (db : llm_db) : llm_db :=
  mkLlmDb (ld_periods db) (ld_events db) m.

(** ** The ingest half *)

Definition readLlmWatermark (source : string) (db : llm_db) : option string :=
  fst <$> ld_watermark db !! source.

Definition readLastPeriodEnd (db : llm_db) : option string :=
  pr_end <$> head (order_desc (λ p, (pr_end p, "")) (ld_periods db)).

Definition bit (b : bool) : Z := if b then 1 else 0.

Definition period_of_write (w : RollupPeriodWrite) : PeriodRec :=
  mkPeriodRec
    (mkPeriodRow (w_id w) (w_windowStart w) (w_windowEnd w) (status_name (w_status w))
       (bit (w_controlPassed w)) (bit (w_gapDetected w)) None)
    0 (w_startedAt w).

Definition openLlmRollupPeriod (w : RollupPeriodWrite) : M llm_db string unit := λ db,
  if existsb (λ p, pr_id p =s? w_id w) (ld_periods db)
  then (Err "UNIQUE constraint failed: llm_rollup_periods.id", db)
  else (Ok tt, set_periods (ld_periods db ++ [period_of_write w]) db).

(** The CHECK on [cost_micro_usd]. *)
Definition cost_check (e : SpendEvent) : bool :=
  match costMicroUsd e with Some n => negb (Num.is_neg n) | None => true end.

(** One [INSERT OR IGNORE INTO llm_spend_events]: a row whose key is taken, or that fails the CHECK,
    is skipped; a foreign key violation is not ignorable and throws.  The answer is the engine's
    count of changes. *)
Definition insert_event (periodId insertedAt : string) (e : SpendEvent) : M llm_db string nat := λ db,
  let r := mkEventRec e insertedAt periodId in
  if existsb (λ r', bool_decide (ev_key r' = ev_key r)) (ld_events db) then (Ok 0%nat, db)
  else if negb (cost_check e) then (Ok 0%nat, db)
  else if negb (existsb (λ p, pr_id p =s? periodId) (ld_periods db))
  then (Err "FOREIGN KEY constraint failed", db)
  else (Ok 1%nat, set_events (ld_events db ++ [r]) db).

Fixpoint insert_events (periodId insertedAt : string) (l : list SpendEvent) : M llm_db string nat :=
  match l with
  | [] => mret 0%nat
  | e :: l' =>
      n ← insert_event periodId insertedAt e;
      m ← insert_events periodId insertedAt l';
      mret (n + m)%nat
  end.

Definition CHUNK : nat := 50.

(** One chunk is one batch, hence one transaction. *)
Definition write_chunk (periodId insertedAt : string) (l : list SpendEvent) : M llm_db string nat :=
  transaction (insert_events periodId insertedAt l).

(** The loop [for (i = 0; i < events.length; i += CHUNK)]; one chunk per unit of fuel, so the number
    of events is fuel enough. *)
Fixpoint write_chunks (periodId insertedAt : string) (fuel : nat) (l : list SpendEvent) (written : nat)
    : M llm_db string nat :=
  match fuel, l with
  | _, [] | O, _ => mret written
  | S fuel, _ =>
      n ← write_chunk periodId insertedAt (firstn CHUNK l);
      write_chunks periodId insertedAt fuel (skipn CHUNK l) (written + n)
  end.

Definition writeLlmSpendEvents (periodId : string) (events : list SpendEvent) (insertedAt : string)
    : M llm_db string nat :=
  write_chunks periodId insertedAt (length events) events 0.

Definition close_period (rowsIngested : Z) (finishedAt : string) (p : PeriodRec) : PeriodRec :=
  let r := pr_row p in
  mkPeriodRec
    (mkPeriodRow (p_id r) (p_window_start r) (p_window_end r) (p_status r) (p_control_passed r)
       (p_gap_detected r) (Some finishedAt))
    rowsIngested (pr_started_at p).

Definition closeLlmRollupPeriod (periodId : string) (rowsIngested : Z) (finishedAt : string)
    : M llm_db string unit :=
  modify (λ db, set_periods
    (update_where (λ p, pr_id p =s? periodId) (close_period rowsIngested finishedAt) (ld_periods db)) db).

(** [MAX(a, b)] on text. *)
Definition text_max (a b : string) : string := if a <s? b then b else a.

Definition advanceLlmWatermark (source lastSeenAt updatedAt : string) : M llm_db string unit :=
  modify (λ db, set_watermark
    (<[source := (match ld_watermark db !! source with
                  | Some (seen, _) => text_max seen lastSeenAt
                  | None => lastSeenAt
                  end, updatedAt)]> (ld_watermark db)) db).

Definition SOURCE : string := "ai_gateway".
Definition DEFAULT_PAGE_CAP : nat := 40.

Record IngestOutcome := mkOutcome {
  o_period : RollupPeriodWrite;
  o_rowsSeen : nat;
  o_rowsDropped : nat;
  o_eventsWritten : nat;
  o_watermarkBefore : option string;
  o_watermarkAfter : option string;
  o_note : list RollupNote;
}.

(** The watermark a result lets the run advance to. *)
Definition earned_watermark (r : RollupResult) : option string :=
  match newWatermark r with
  | Some w => if controlPassed r && Str.truthy w then Some w else None
  | None => None
  end.

Section ingest.
(** The world outside the database: the gateway, the clock ([new Date(deps.now()).toISOString()])
    and the id source. *)
Context {G : Type}.
Variable list_ : option string → Z → Z → M G string (list js).
Variable probe : M G string Probe.
Variable now : M G string string.
Variable newId : M G string string.

Definition on_db {A} (m : M llm_db string A) : M (llm_db * G) string A := λ s,
  let '(r, db) := m s.1 in (r, (db, s.2)).
Definition on_world {A} (m : M G string A) : M (llm_db * G) string A := λ s,
  let '(r, g) := m s.2 in (r, (s.1, g)).

(** The writes, in their order: open, events, close, watermark. *)
Definition record_run (period : RollupPeriodWrite) (result : RollupResult) : M (llm_db * G) string nat :=
  _ ← on_db (openLlmRollupPeriod period);
  eventsWritten ← (if (0 <? length (events result))%nat
                   then on_db (writeLlmSpendEvents (w_id period) (events result) (w_startedAt period))
                   else mret 0%nat);
  finishedAt ← on_world now;
  _ ← on_db (closeLlmRollupPeriod (w_id period) (Z.of_nat eventsWritten) finishedAt);
  _ ← (match earned_watermark result with
       | Some w =>
           updatedAt ← on_world now;
           on_db (advanceLlmWatermark SOURCE w updatedAt)
       | None => mret tt
       end);
  mret eventsWritten.

Definition ingestLlmSpend (pageCap : option nat) : M (llm_db * G) string IngestOutcome :=
  startedAt ← on_world now;
  watermarkBefore ← on_db (gets (readLlmWatermark SOURCE));
  lastEnd ← on_db (gets readLastPeriodEnd);
  result ← on_world (runRollup list_ probe watermarkBefore (default DEFAULT_PAGE_CAP pageCap));
  id ← on_world newId;
  let period := mkPeriodWrite id (default startedAt lastEnd) startedAt (status result)
                  (controlPassed result) (gapDetected result) startedAt in
  eventsWritten ← record_run period result;
  mret (mkOutcome period (rowsSeen result) (rowsDropped result) eventsWritten watermarkBefore
          (match earned_watermark result with Some w => Some w | None => watermarkBefore end)
          (note result)).
End ingest.

(** ** The read half *)

Section read.
(** The engine's floating-point [SUM], used only when some stored cost is not a 64-bit integer. *)
Variable real_sum : list Num.num → Num.num.
(** The [maxPeriodsPerWindow] of the constructor. *)
Variable maxPeriodsPerWindow : nat.

(** [WHERE window_end >= s AND window_end < e ORDER BY window_end, id]. *)
Definition periods_in (ws we : string) (db : llm_db) : list PeriodRec :=
  order_asc (λ p, (pr_end p, pr_id p))
    (jfilter (λ p, (ws <=s? pr_end p) && (pr_end p <s? we)) (ld_periods db)).

Definition int_cell (n : Num.num) : option Z :=
  match n with Num.NInt z => if in_int64 z then Some z else None | _ => None end.
Definition cost_sum (l : list Num.num) : result string Num.num :=
  match mapM int_cell l with
  | Some zs => Num.NInt <$> sql_sum zs
  | None => Ok (real_sum l)
  end.

(** [WHERE tenant_id = t AND period_id IN (...)]. *)
Definition events_of (tenant : string) (ids : list string) (db : llm_db) : list EventRec :=
  jfilter (λ e, bool_decide (tenantId (ev e) = Some tenant) && bool_decide (ev_period_id e ∈ ids)) (ld_events db).

Definition readTenantLlmSpend (tenantId_ ws we : string) (db : llm_db) : result string LlmSpendWindow :=
  let all := firstn (maxPeriodsPerWindow + 1) (periods_in ws we db) in
  let truncated := (maxPeriodsPerWindow <? length all)%nat in
  let periods := if truncated then firstn maxPeriodsPerWindow all else all in
  if (length periods =? 0)%nat
  then Ok (summariseWindow [] ws we (mkSums (Num.NInt 0) 0 0) truncated)
  else
    let matched := events_of tenantId_ (pr_id <$> firstn maxPeriodsPerWindow (periods_in ws we db)) db in
    let costs := omap (λ e, costMicroUsd (ev e)) matched in
    cost ← cost_sum costs;
    Ok (summariseWindow (pr_row <$> periods) ws we
          (mkSums cost (Z.of_nat (length matched))
             (Z.of_nat (length (jfilter (λ e, bool_decide (costMicroUsd (ev e) = None)) matched))))
          truncated).
End read.
