(* ===== verification/LlmRuns.v ===== *)
(** * Overlapping and dying runs of the LLM meter

    A cron tick may start while the previous run is still writing, and an invocation may be killed
    between any two statements.  A [run] is one invocation past its read; [run_step] performs its next
    statement (one batch of events at a time, as the store does); a [world] is the database with the
    runs in flight, and its steps are the statements of any of them in any order, with a run allowed
    to vanish at any point. *)

From S2P Require Export LlmStore.
Open Scope string_scope.
Open Scope list_scope.
Open Scope Z_scope.
Open Scope plane_scope.

Inductive stage :=
| SOpen
| SWrite (rest : list SpendEvent) (written : nat)
| SClose (written : nat)
| SAdvance (lastSeenAt : string).

Record run := mkRun {
  r_write : RollupPeriodWrite;
  r_result : RollupResult;
  r_stage : stage;
}.

Definition r_id (r : run) : string := w_id (r_write r).
Definition at_stage (r : run) (s : stage) : run := mkRun (r_write r) (r_result r) s.

Definition writing (rest : list SpendEvent) (written : nat) : stage :=
  match rest with [] => SClose written | _ => SWrite rest written end.

(** The next statement of a run; [clock] is the time it is stamped with. *)
Definition run_step (clock : string) (r : run) : M llm_db string (option run) :=
  match r_stage r with
  | SOpen =>
      _ ← openLlmRollupPeriod (r_write r);
      mret (Some (at_stage r (writing (events (r_result r)) 0)))
  | SWrite rest written =>
      n ← write_chunk (r_id r) (w_startedAt (r_write r)) (firstn CHUNK rest);
      mret (Some (at_stage r (writing (skipn CHUNK rest) (written + n))))
  | SClose written =>
      _ ← closeLlmRollupPeriod (r_id r) (Z.of_nat written) clock;
      mret (match earned_watermark (r_result r) with
            | Some w => Some (at_stage r (SAdvance w))
            | None => None
            end)
  | SAdvance w =>
      _ ← advanceLlmWatermark SOURCE w clock;
      mret None
  end.

(** A run left to itself: its statements are those of [record_run]. *)
Section alone.
Context {G : Type} (now : M G string string).

Definition stamp (r : run) : M (llm_db * G) string string :=
  match r_stage r with SClose _ | SAdvance _ => on_world now | _ => mret "" end.

Fixpoint run_to_end (fuel : nat) (r : run) : M (llm_db * G) string unit :=
  match fuel with
  | O => throw "out of fuel"
  | S fuel =>
      clock ← stamp r;
      next ← on_db (run_step clock r);
      match next with
      | Some r' => run_to_end fuel r'
      | None => mret tt
      end
  end.

Definition drop_value {A} (m : M (llm_db * G) string A) : M (llm_db * G) string unit := _ ← m; mret tt.

Lemma on_db_bind {A B} (m : M llm_db string A) (f : A → M llm_db string B) s :
  on_db (G:=G) (m ≫= f) s = (x ← on_db m; on_db (f x)) s.
Proof. unfold on_db, mbind, M_bind. destruct s as [db g]. cbn. by destruct (m db) as [[a|e] db']. Qed.

Lemma on_db_ret {A} (a : A) s : on_db (G:=G) (mret a) s = (Ok a, s).
Proof. by destruct s. Qed.

Definition after_close (r : run) (written : nat) : M (llm_db * G) string unit :=
  finishedAt ← on_world now;
  _ ← on_db (closeLlmRollupPeriod (r_id r) (Z.of_nat written) finishedAt);
  match earned_watermark (r_result r) with
  | Some w => updatedAt ← on_world now; on_db (advanceLlmWatermark SOURCE w updatedAt)
  | None => mret tt
  end.

Lemma run_close r written fuel s :
  r_stage r = SClose written → run_to_end (S (S fuel)) r s = after_close r written s.
Proof.
  intros Hr. cbn [run_to_end]. unfold after_close, stamp. rewrite Hr. unfold mbind, M_bind.
  destruct (on_world now s) as [[clock|e] [db g]]; [|done].
  unfold run_step. rewrite Hr. unfold on_db, mbind, M_bind. cbn.
  destruct (earned_watermark (r_result r)) as [w|]; [|done]. cbn.
  unfold on_world. cbn. by destruct (now g) as [[u|e] g'].
Qed.

Lemma run_writes r rest written fuel fuel' s :
  r_stage r = writing rest written → (length rest <= fuel)%nat → (length rest + 2 <= fuel')%nat →
  run_to_end fuel' r s =
  (n ← on_db (write_chunks (r_id r) (w_startedAt (r_write r)) fuel rest written); after_close r n) s.
Proof.
  revert r rest written fuel' s. induction fuel as [|fuel IH]; intros r rest written fuel' s Hr Hf Hf'.
  - destruct rest; [|cbn in *; lia]. destruct fuel' as [|[|fuel']]; [cbn in *; lia..|].
    rewrite (run_close r written) by done. by destruct s.
  - destruct rest as [|e rest].
    { destruct fuel' as [|[|fuel']]; [cbn in *; lia..|]. rewrite (run_close r written) by done. by destruct s. }
    destruct fuel' as [|fuel']; [cbn in *; lia|]. set (l := e :: rest) in *.
    change (write_chunks (r_id r) (w_startedAt (r_write r)) (S fuel) l written) with
      (n ← write_chunk (r_id r) (w_startedAt (r_write r)) (firstn CHUNK l);
       write_chunks (r_id r) (w_startedAt (r_write r)) fuel (skipn CHUNK l) (written + n)).
    cbn [run_to_end]. unfold stamp. rewrite Hr. cbn [writing l]. fold l.
    unfold mbind at 1, M_bind at 1. unfold mret at 1, M_ret at 1.
    unfold run_step. rewrite Hr. cbn [writing l]. fold l.
    unfold mbind at 1 3, M_bind at 1 3. rewrite !on_db_bind. unfold mbind, M_bind.
    destruct (on_db (write_chunk _ _ _) s) as [[n|err] s1]; [|done].
    rewrite on_db_ret. unfold mret, M_ret.
    rewrite (IH (at_stage r (writing (skipn CHUNK l) (written + n))) (skipn CHUNK l) (written + n)%nat).
    + done.
    + done.
    + rewrite length_skipn. unfold CHUNK, l in *. cbn [length] in *. lia.
    + rewrite length_skipn. unfold CHUNK, l in *. cbn [length] in *. lia.
Qed.

(** The persisting half of [ingestLlmSpend] is exactly the statements of [run_step], one after
    the other: the interleavings studied below are interleavings of the code. *)
Theorem record_run_is_its_steps w res s :
  drop_value (record_run now w res) s = run_to_end (length (events res) + 3) (mkRun w res SOpen) s.
Proof.
  replace (length (events res) + 3)%nat with (S (length (events res) + 2)) by lia.
  remember (length (events res) + 2)%nat as fuel eqn:Hfuel.
  transitivity (match on_db (openLlmRollupPeriod w) s with
    | (Ok _, s1) => run_to_end fuel (at_stage (mkRun w res SOpen) (writing (events res) 0)) s1
    | (Err e, s1) => (Err e, s1) end); cycle 1.
  { cbn [run_to_end]. unfold stamp, run_step, mbind, M_bind, mret, M_ret, on_db. cbn.
    by destruct (openLlmRollupPeriod w s.1) as [[[]|]]. }
  unfold drop_value, record_run. unfold mbind at 1 2, M_bind at 1 2.
  destruct (on_db (openLlmRollupPeriod w) s) as [[[]|err] s1]; [|done].
  rewrite (run_writes _ (events res) 0 (length (events res))); [|done|lia|lia].
  unfold at_stage, r_id. cbn [r_write r_result]. unfold writeLlmSpendEvents, after_close. cbn [r_write r_result r_id].
  destruct (events res) as [|e l] eqn:He; cbn [length Nat.ltb Nat.leb].
  - unfold mbind, M_bind, mret, M_ret. cbn. unfold on_db, on_world. destruct s1 as [db g]. cbn.
    destruct (now g) as [[f|e] g']; [|done]. cbn. destruct (earned_watermark res); [|done]. cbn.
    by destruct (now g') as [[u|e] g''].
  - unfold mbind, M_bind, mret, M_ret. destruct (on_db _ s1) as [[n|e'] [db g]]; [|done].
    unfold on_world, on_db. cbn. destruct (now g) as [[f|e'] g']; [|done]. cbn.
    destruct (earned_watermark res); [|done]. cbn. by destruct (now g') as [[u|e'] g''].
Qed.
End alone.

(** ** What one statement does to the tables *)

Definition stored (db : llm_db) (e : SpendEvent) : Prop := ∃ r, r ∈ ld_events db ∧ ev_key r = (source e, sourceId e).
Definition of_period (id : string) (r : EventRec) : bool := ev_period_id r =s? id.
Definition ingested (id : string) (db : llm_db) : nat := length (jfilter (of_period id) (ld_events db)).
Definition other (id : string) (p : PeriodRec) : bool := negb (pr_id p =s? id).

(** [changed id db db']: the periods other than [id] are untouched, and only events of [id] came. *)
Record changed (id : string) (db db' : llm_db) : Prop := mkChanged {
  ch_periods : jfilter (other id) (ld_periods db') = jfilter (other id) (ld_periods db);
  ch_events : ∃ added, ld_events db' = ld_events db ++ added ∧ (∀ r, r ∈ added → ev_period_id r = id);
}.

Lemma changed_refl id db : changed id db db.
Proof. split; [done|]. exists []. rewrite app_nil_r. split; [done|]. intros r Hr. by apply elem_of_nil in Hr. Qed.

Lemma changed_period id db db' p : changed id db db' → pr_id p ≠ id → p ∈ ld_periods db' ↔ p ∈ ld_periods db.
Proof.
  intros [Hp _] Hne. assert (other id p = true) as Ho by (unfold other; by apply negb_true_iff, String.eqb_neq).
  assert (∀ l, p ∈ l ↔ p ∈ jfilter (other id) l) as H by (intros l; rewrite elem_of_jfilter; naive_solver).
  by rewrite (H (ld_periods db')), (H (ld_periods db)), Hp.
Qed.

Lemma changed_stored id db db' e : changed id db db' → stored db e → stored db' e.
Proof. intros [_ (added & He & _)] (r & Hr & Hk). exists r. rewrite He. split; [apply elem_of_app; by left|done]. Qed.

Lemma changed_ingested id id' db db' : changed id db db' → id' ≠ id → ingested id' db' = ingested id' db.
Proof.
  intros [_ (added & He & Hadd)] Hne. unfold ingested. rewrite He, jfilter_app.
  rewrite (proj2 (jfilter_nil_iff (of_period id') added)); [by rewrite app_nil_r|].
  intros r Hr. unfold of_period. rewrite (Hadd r Hr). apply String.eqb_neq. done.
Qed.

(** The events of a batch: what is added, and that each key is there afterwards. *)
Lemma insert_events_spec id ia l db :
  (∃ p, p ∈ ld_periods db ∧ pr_id p = id) → (∀ e, e ∈ l → cost_check e = true) → NoDup (ev_key <$> ld_events db) →
  ∃ n db' added, insert_events id ia l db = (Ok n, db') ∧ ld_periods db' = ld_periods db ∧
    ld_watermark db' = ld_watermark db ∧ ld_events db' = ld_events db ++ added ∧ length added = n ∧
    (∀ r, r ∈ added → ev_period_id r = id) ∧ NoDup (ev_key <$> ld_events db') ∧ (∀ e, e ∈ l → stored db' e).
Proof.
  revert db; induction l as [|e l IH]; intros db Hid Hck Hnd.
  { exists 0%nat, db, []. rewrite app_nil_r. split_and!; try done; intros ? H; by apply elem_of_nil in H. }
  assert (∃ n db1 added, insert_event id ia e db = (Ok n, db1) ∧ ld_periods db1 = ld_periods db ∧
    ld_watermark db1 = ld_watermark db ∧ ld_events db1 = ld_events db ++ added ∧ length added = n ∧
    (∀ r, r ∈ added → ev_period_id r = id) ∧ NoDup (ev_key <$> ld_events db1) ∧ stored db1 e) as
    (n & db1 & a1 & Hi & Hp1 & Hw1 & He1 & Hl1 & Ha1 & Hn1 & Hs1).
  { unfold insert_event. set (r := mkEventRec e ia id).
    destruct (existsb _ (ld_events db)) eqn:Edup.
    - exists 0%nat, db, []. rewrite app_nil_r. split_and!; try done; [intros ? H; by apply elem_of_nil in H|].
      apply existsb_true_iff in Edup as (r' & Hr' & Hk). bool_hyps. by exists r'.
    - rewrite (Hck e) by left. cbn [negb].
      rewrite (proj2 (existsb_true_iff _ _)); [|destruct Hid as (p & Hp & <-); exists p; split; [done|apply String.eqb_refl]].
      cbn [negb]. exists 1%nat, (set_events (ld_events db ++ [r]) db), [r]. split_and!; try done.
      + by intros r' ->%list_elem_of_singleton.
      + cbn. apply NoDup_fmap_snoc; [done|]. intros (r' & Hk & Hr')%list_elem_of_fmap.
        rewrite existsb_false_iff in Edup. specialize (Edup r' Hr'). by bool_hyps.
      + exists r. split; [|done]. cbn. apply elem_of_app. right. by left. }
  destruct (IH db1) as (m & db2 & a2 & Hm & Hp2 & Hw2 & He2 & Hl2 & Ha2 & Hn2 & Hs2).
  - by rewrite Hp1.
  - intros e' He'. apply Hck. by right.
  - done.
  - exists (n + m)%nat, db2, (a1 ++ a2). cbn [insert_events]. unfold mbind, M_bind. rewrite Hi, Hm.
    split_and!; try (congruence || done).
    + by rewrite He2, He1, app_assoc.
    + rewrite length_app. lia.
    + intros r [Hr|Hr]%elem_of_app; auto.
    + intros e' [->|He']%elem_of_cons; [|by apply Hs2]. eapply (changed_stored id); [|exact Hs1].
      split; [by rewrite Hp2|by exists a2].
Qed.

(** ** The invariant *)

Definition finished (p : PeriodRec) : Prop := p_finished_at (pr_row p) ≠ None.

(** The tables: unique keys, no orphan event, and a finished run's count is the number of events
    stored under it. *)
Record db_ok (db : llm_db) : Prop := mkDbOk {
  ok_ids : NoDup (pr_id <$> ld_periods db);
  ok_keys : NoDup (ev_key <$> ld_events db);
  ok_parent r : r ∈ ld_events db → ∃ p, p ∈ ld_periods db ∧ pr_id p = ev_period_id r;
  ok_count p : p ∈ ld_periods db → finished p → pr_rows_ingested p = Z.of_nat (ingested (pr_id p) db);
}.

(** The run's own row is still the one it opened: not finished, no count. *)
Definition opened (db : llm_db) (r : run) : Prop := period_of_write (r_write r) ∈ ld_periods db.

Definition run_ok (db : llm_db) (r : run) : Prop :=
  (∀ e, e ∈ events (r_result r) → cost_check e = true) ∧
  match r_stage r with
  | SOpen => (∀ p, p ∈ ld_periods db → pr_id p ≠ r_id r) ∧ ingested (r_id r) db = 0%nat
  | SWrite rest n => opened db r ∧ ingested (r_id r) db = n ∧
      ∃ done_, events (r_result r) = done_ ++ rest ∧ ∀ e, e ∈ done_ → stored db e
  | SClose n => opened db r ∧ ingested (r_id r) db = n ∧ ∀ e, e ∈ events (r_result r) → stored db e
  | SAdvance w => earned_watermark (r_result r) = Some w ∧ (∃ p, p ∈ ld_periods db ∧ pr_id p = r_id r) ∧
      ∀ e, e ∈ events (r_result r) → stored db e
  end.

Lemma run_ok_frame id db db' r : changed id db db' → r_id r ≠ id → run_ok db r → run_ok db' r.
Proof.
  intros Hch Hne [Hck H]. split; [done|].
  assert (∀ e, stored db e → stored db' e) as Hst by (intros; by eapply changed_stored).
  assert (opened db r → opened db' r) as Hop.
  { unfold opened. intros. by apply (changed_period id db db'). }
  rewrite (changed_ingested id (r_id r) db db') by done.
  destruct (r_stage r).
  - destruct H as [Hp ?]. split; [|done]. intros p Hin Heq.
    apply (Hp p); [|done]. apply (changed_period id db db'); congruence.
  - naive_solver.
  - naive_solver.
  - destruct H as (? & (p & Hin & Heq) & ?). split_and!; [done| |naive_solver].
    exists p. split; [|done]. apply (changed_period id db db'); congruence.
Qed.

Lemma run_ok_writing db r rest n :
  (∀ e, e ∈ events (r_result r) → cost_check e = true) → opened db r → ingested (r_id r) db = n →
  (∃ done_, events (r_result r) = done_ ++ rest ∧ ∀ e, e ∈ done_ → stored db e) →
  run_ok db (at_stage r (writing rest n)).
Proof.
  intros Hck Hop Hn (done_ & Hd & Hs). split; [done|]. destruct rest as [|e rest]; cbn.
  - split_and!; [done|done|]. rewrite Hd, app_nil_r. done.
  - split_and!; [done|done|]. by exists done_.
Qed.

Definition step_kept (r : run) (db : llm_db) (o : option run) (db' : llm_db) : Prop :=
  db_ok db' ∧ changed (r_id r) db db' ∧
  match o with
  | Some r' => r_write r' = r_write r ∧ r_result r' = r_result r ∧ run_ok db' r'
  | None => True
  end.

Lemma step_open clock r db :
  db_ok db → run_ok db r → r_stage r = SOpen →
  ∃ o db', run_step clock r db = (Ok o, db') ∧ step_kept r db o db'.
Proof.
  intros [Hids Hkeys Hpar Hcnt] [Hck Hr] Hst. unfold run_step. rewrite Hst in *. destruct Hr as [Hfresh H0].
  unfold openLlmRollupPeriod, mbind, M_bind.
  rewrite (proj2 (existsb_false_iff _ _)) by (intros p Hp; by apply String.eqb_neq, Hfresh).
  set (db' := set_periods (ld_periods db ++ [period_of_write (r_write r)]) db).
  do 2 eexists. split; [reflexivity|].
  assert (changed (r_id r) db db') as Hch.
  { split; [|exists []; rewrite app_nil_r; split; [done|]; intros ? Hin; by apply elem_of_nil in Hin].
    cbn. rewrite jfilter_app. rewrite (proj2 (jfilter_nil_iff _ [_])); [by rewrite app_nil_r|].
    intros p ->%list_elem_of_singleton. unfold other. change (pr_id (period_of_write (r_write r))) with (r_id r).
    by rewrite String.eqb_refl. }
  split_and!; [|done|done|done|].
  - split; cbn.
    + apply NoDup_fmap_snoc; [done|]. intros (p & Hk & Hp)%list_elem_of_fmap. by apply (Hfresh p Hp).
    + done.
    + intros e He. destruct (Hpar e He) as (p & Hp & ?). exists p. split; [apply elem_of_app; by left|done].
    + intros p [Hp| ->%list_elem_of_singleton]%elem_of_app Hf; [by apply Hcnt|]. done.
  - apply run_ok_writing; [done| | |by exists []; split; [|intros ? Hin; by apply elem_of_nil in Hin]].
    + unfold opened. cbn. apply elem_of_app. right. by left.
    + exact H0.
Qed.

Lemma step_write clock r db rest n :
  db_ok db → run_ok db r → r_stage r = SWrite rest n →
  ∃ o db', run_step clock r db = (Ok o, db') ∧ step_kept r db o db'.
Proof.
  intros [Hids Hkeys Hpar Hcnt] [Hck Hr] Hst. unfold run_step. rewrite Hst in *.
  destruct Hr as (Hop & Hn & done_ & Hd & Hs).
  destruct (insert_events_spec (r_id r) (w_startedAt (r_write r)) (firstn CHUNK rest) db)
    as (m & db' & added & Hi & Hp & Hw & He & Hl & Ha & Hk & Hst').
  - by exists (period_of_write (r_write r)).
  - intros e Hin. apply Hck. rewrite Hd. apply elem_of_app. right.
    rewrite <- (take_drop CHUNK rest). apply elem_of_app. by left.
  - done.
  - unfold write_chunk, mbind, M_bind. rewrite (transaction_ok _ _ _ _ Hi).
    do 2 eexists. split; [reflexivity|].
    assert (changed (r_id r) db db') as Hch by (split; [by rewrite Hp|by exists added]).
    assert (ingested (r_id r) db' = (n + m)%nat) as Hing.
    { unfold ingested in *. rewrite He, jfilter_app, length_app, Hn, <- Hl. f_equal. f_equal.
      clear -Ha. unfold jfilter. induction added as [|x l IH]; [done|]. cbn. unfold of_period at 1.
      rewrite (Ha x) by left. rewrite String.eqb_refl. f_equal. apply IH. intros y Hy. apply Ha. by right. }
    split_and!; [|done|done|done|].
    + split; [by rewrite Hp|done|..]; rewrite Hp.
      * intros x. rewrite He. intros [Hx|Hx]%elem_of_app; [by apply Hpar|].
        exists (period_of_write (r_write r)). split; [done|]. by rewrite (Ha x Hx).
      * intros p Hin Hf. destruct (decide (pr_id p = r_id r)) as [Heq|Hne].
        -- assert (p = period_of_write (r_write r)) as -> by (eapply (unique_eq pr_id); eauto). done.
        -- rewrite (changed_ingested (r_id r) _ db db') by done. by apply Hcnt.
    + apply run_ok_writing; [done|unfold opened; by rewrite Hp|done|].
      exists (done_ ++ firstn CHUNK rest). split.
      * change (events (r_result (at_stage r (writing (skipn CHUNK rest) (n + m))))) with (events (r_result r)).
        by rewrite Hd, <- app_assoc, take_drop.
      * intros e [Hin|Hin]%elem_of_app; [|by apply Hst']. eapply changed_stored; eauto.
Qed.

Lemma step_close clock r db n :
  db_ok db → run_ok db r → r_stage r = SClose n →
  ∃ o db', run_step clock r db = (Ok o, db') ∧ step_kept r db o db'.
Proof.
  intros [Hids Hkeys Hpar Hcnt] [Hck Hr] Hst. unfold run_step. rewrite Hst in *. destruct Hr as (Hop & Hn & Hs).
  unfold closeLlmRollupPeriod, modify, mbind, M_bind. do 2 eexists. split; [reflexivity|].
  set (f := close_period (Z.of_nat n) clock). set (q := λ p, pr_id p =s? r_id r).
  assert (pr_id <$> update_where q f (ld_periods db) = pr_id <$> ld_periods db) as Hcol
    by (by apply update_where_column).
  assert (∃ p, p ∈ update_where q f (ld_periods db) ∧ pr_id p = r_id r) as Hown.
  { exists (f (period_of_write (r_write r))). split; [|done]. apply elem_of_update_where.
    exists (period_of_write (r_write r)). split; [done|]. unfold q.
    change (pr_id (period_of_write (r_write r))) with (r_id r). by rewrite String.eqb_refl. }
  split_and!.
  - split; cbn; [by rewrite Hcol|done|..].
    + intros e He. destruct (Hpar e He) as (p & Hp & Heq).
      assert (pr_id p ∈ pr_id <$> update_where q f (ld_periods db)) as (p' & Hp' & ?)%list_elem_of_fmap
        by (rewrite Hcol; by apply list_elem_of_fmap_2).
      exists p'. split; [done|congruence].
    + intros p (p0 & Hp0 & ->)%elem_of_update_where. unfold q. destruct (pr_id p0 =s? r_id r) eqn:E; bool_hyps.
      * intros _. unfold ingested in *. cbn. rewrite <- Hn, <- E. done.
      * intros Hf. by apply Hcnt.
  - split; [|exists []; rewrite app_nil_r; split; [done|]; intros ? Hin; by apply elem_of_nil in Hin].
    cbn. fold q f. clear. unfold jfilter, update_where. induction (ld_periods db) as [|p l IH]; [done|].
    assert (other (r_id r) p = negb (q p)) as Ho by done.
    assert (other (r_id r) (if q p then f p else p) = negb (q p)) as Ho' by (by destruct (q p)).
    cbn. cbn in Ho'. rewrite Ho, Ho'. destruct (q p); cbn; [exact IH|by f_equal].
  - destruct (earned_watermark (r_result r)) as [w|] eqn:Ew; [|done]. split_and!; [done|done|].
    split; [done|]. cbn. split_and!; done.
Qed.

Lemma step_advance clock r db w :
  db_ok db → run_ok db r → r_stage r = SAdvance w →
  ∃ o db', run_step clock r db = (Ok o, db') ∧ step_kept r db o db'.
Proof.
  intros [Hids Hkeys Hpar Hcnt] _ Hst. unfold run_step. rewrite Hst.
  do 2 eexists. split; [reflexivity|]. split_and!; [by split| |done].
  split; [done|]. exists []. rewrite app_nil_r. split; [done|]. intros ? Hin; by apply elem_of_nil in Hin.
Qed.

(** Every statement of a run in order succeeds and keeps the tables and the run itself in order. *)
Lemma run_step_ok clock r db :
  db_ok db → run_ok db r → ∃ o db', run_step clock r db = (Ok o, db') ∧ step_kept r db o db'.
Proof.
  intros Hdb Hr. destruct (r_stage r) eqn:Hst.
  - by apply step_open.
  - by eapply step_write.
  - by eapply step_close.
  - by eapply step_advance.
Qed.

(** ** Every interleaving *)

Record world := mkWorld { wd_db : llm_db; wd_runs : list run }.

(** A run joins past its read, with a fresh period id and events that came out of [parseLogRow]; any
    run in flight performs its next statement; any run dies. *)
Inductive world_step : world → world → Prop :=
| begin_run db rs r :
    r_stage r = SOpen →
    (∀ p, p ∈ ld_periods db → pr_id p ≠ r_id r) → (∀ r', r' ∈ rs → r_id r' ≠ r_id r) →
    (∀ e, e ∈ events (r_result r) → ∃ row, parseLogRow row = Some e) →
    world_step (mkWorld db rs) (mkWorld db (rs ++ [r]))
| act db db' rs1 r rs2 clock next :
    run_step clock r db = (Ok next, db') →
    world_step (mkWorld db (rs1 ++ r :: rs2)) (mkWorld db' (rs1 ++ option_list next ++ rs2))
| die db rs1 r rs2 :
    world_step (mkWorld db (rs1 ++ r :: rs2)) (mkWorld db (rs1 ++ rs2)).

Definition empty_world : world := mkWorld (mkLlmDb [] [] ∅) [].
Definition world_reachable (w : world) : Prop := steps world_step empty_world w.

Record world_ok (w : world) : Prop := mkWorldOk {
  wok_db : db_ok (wd_db w);
  wok_ids : NoDup (r_id <$> wd_runs w);
  wok_runs r : r ∈ wd_runs w → run_ok (wd_db w) r;
}.

(** What the parser makes always passes the CHECK of the table. *)
Lemma parsed_cost_check row e : parseLogRow row = Some e → cost_check e = true.
Proof.
  unfold parseLogRow. destruct (str _); [|done]. destruct (str _); [|done]. intros [= <-].
  unfold cost_check. cbn [costMicroUsd]. unfold toMicroUsd. destruct (js_field row "cost") as [| | |n| | |]; try done.
  destruct (negb (Num.is_finite n) || Num.is_neg n) eqn:E; [done|]. bool_hyps. apply negb_true_iff.
  apply round_nonneg. destruct n as [z|m e'|b|]; cbn in *; try done; bool_hyps; apply make_nonneg; lia.
Qed.

Lemma world_step_ok w w' : world_ok w → world_step w w' → world_ok w'.
Proof.
  intros [Hdb Hids Hruns] Hs. destruct Hs as [db rs r Hst Hfp Hfr Hpar|db db' rs1 r rs2 clock next Hact|db rs1 r rs2]; cbn in *.
  - split; cbn; [done|..].
    + apply NoDup_fmap_snoc; [done|]. intros (r' & Heq & Hr')%list_elem_of_fmap. by apply (Hfr r' Hr').
    + intros r' [Hr'| ->%list_elem_of_singleton]%elem_of_app; [by apply Hruns|]. split.
      * intros e He. destruct (Hpar e He) as [row Hrow]. by eapply parsed_cost_check.
      * rewrite Hst. split; [done|]. unfold ingested. rewrite (proj2 (jfilter_nil_iff _ _)); [done|].
        intros x Hx. destruct Hdb as [_ _ Hp _]. destruct (Hp x Hx) as (p & Hin & Heq). unfold of_period.
        rewrite <- Heq. by apply String.eqb_neq, Hfp.
  - assert (r ∈ rs1 ++ r :: rs2) as Hin by (apply elem_of_app; right; left).
    destruct (run_step_ok clock r db Hdb (Hruns r Hin)) as (o & db1 & Hrun & Hok & Hch & Hnext).
    rewrite Hact in Hrun. injection Hrun as -> ->.
    rewrite fmap_app in Hids. cbn in Hids. apply NoDup_app in Hids as (Hnd1 & Hd1 & Hnd2).
    apply NoDup_cons in Hnd2 as [Hn2 Hnd2].
    assert (∀ r', r' ∈ rs1 ++ rs2 → run_ok db1 r') as Hothers.
    { intros r' Hr'. eapply run_ok_frame; [exact Hch| |].
      - apply elem_of_app in Hr' as [Hr'|Hr']; intros Heq.
        + apply (Hd1 (r_id r')); [by apply list_elem_of_fmap_2|]. rewrite Heq. left.
        + apply Hn2. rewrite <- Heq. by apply list_elem_of_fmap_2.
      - apply Hruns. apply elem_of_app in Hr' as [?|?]; apply elem_of_app; [by left|right; by right]. }
    destruct o as [r'|]; cbn.
    + destruct Hnext as (Hw & Hr & Hok'). assert (r_id r' = r_id r) as Hid by (unfold r_id; by rewrite Hw).
      split; cbn; [done|..].
      * rewrite fmap_app. cbn. rewrite Hid. apply NoDup_app. split_and!; [done|done|]. by apply NoDup_cons.
      * intros x [Hx|[->|Hx]%elem_of_cons]%elem_of_app; [|done|]; apply Hothers, elem_of_app; auto.
    + split; cbn; [done| |done]. rewrite fmap_app. apply NoDup_app. split_and!; [done| |done].
      intros x Hx Hx2. apply (Hd1 x Hx). by right.
  - split; cbn; [done|..].
    + rewrite fmap_app in *. cbn in Hids. apply NoDup_app in Hids as (Hnd1 & Hd1 & Hnd2).
      apply NoDup_cons in Hnd2 as [_ Hnd2]. apply NoDup_app. split_and!; [done| |done].
      intros x Hx Hx2. apply (Hd1 x Hx). by right.
    + intros x Hx. apply Hruns. apply elem_of_app in Hx as [?|?]; apply elem_of_app; [by left|right; by right].
Qed.

Lemma reachable_ok w : world_reachable w → world_ok w.
Proof.
  intros H. eapply steps_invariant; [intros; by eapply world_step_ok| |exact H].
  split; [split| |]; try apply NoDup_nil_2; intros ? Hx; by apply elem_of_nil in Hx.
Qed.

(** ** Properties *)

(** C15. Whatever the interleaving of overlapping runs and wherever any of them dies, the meter's
    record never claims more than was written: a gateway row is stored at most once, under a run that
    exists, and a run that is marked finished carries as its count exactly the number of rows stored
    under it. *)
Theorem meter_record_is_true w :
  world_reachable w →
  NoDup (ev_key <$> ld_events (wd_db w)) ∧
  (∀ r, r ∈ ld_events (wd_db w) → ∃ p, p ∈ ld_periods (wd_db w) ∧ pr_id p = ev_period_id r) ∧
  (∀ p, p ∈ ld_periods (wd_db w) → p_finished_at (pr_row p) ≠ None →
     pr_rows_ingested p = Z.of_nat (length (jfilter (λ r, ev_period_id r =s? pr_id p) (ld_events (wd_db w))))).
Proof. intros [[Hi Hk Hp Hc] _ _]%reachable_ok. split_and!; [done|done|exact Hc]. Qed.

Definition cursor (db : llm_db) : option string := readLlmWatermark SOURCE db.
Definition cursor_le (a b : option string) : Prop :=
  match a, b with
  | None, _ => True
  | Some x, Some y => (x <=s? y) = true
  | Some _, None => False
  end.

Lemma cursor_le_refl a : cursor_le a a.
Proof. destruct a; cbn; [apply leb_refl|done]. Qed.
Lemma text_max_le a b : (a <=s? text_max a b) = true.
Proof. unfold text_max. destruct (a <s? b) eqn:E; [by apply ltb_leb|apply leb_refl]. Qed.

Lemma cursor_unchanged_step clock r db o db' :
  run_step clock r db = (Ok o, db') → db_ok db → run_ok db r →
  cursor db' = cursor db ∨
  ∃ w, r_stage r = SAdvance w ∧ cursor_le (cursor db) (cursor db') ∧ (cursor db' = Some w ∨ cursor db' = cursor db).
Proof.
  intros Hs Hdb Hr. destruct (r_stage r) as [|rest n|n|w] eqn:Hst.
  - left. unfold run_step in Hs. rewrite Hst in Hs. unfold openLlmRollupPeriod, mbind, M_bind in Hs.
    destruct (existsb _ _); [done|]. by injection Hs as <- <-.
  - left. destruct Hr as [Hck Hr]. rewrite Hst in Hr. destruct Hr as (Hop & Hn & d & Hd & Hdone).
    destruct (insert_events_spec (r_id r) (w_startedAt (r_write r)) (firstn CHUNK rest) db)
      as (m & db1 & added & Hi & _ & Hw & _); [by exists (period_of_write (r_write r))| |apply Hdb|].
    { intros e Hin. apply Hck. rewrite Hd. apply elem_of_app. right.
      rewrite <- (take_drop CHUNK rest). apply elem_of_app. by left. }
    unfold run_step in Hs. rewrite Hst in Hs. unfold write_chunk, mbind, M_bind in Hs.
    rewrite (transaction_ok _ _ _ _ Hi) in Hs. injection Hs as _ <-. unfold cursor, readLlmWatermark. by rewrite Hw.
  - left. unfold run_step in Hs. rewrite Hst in Hs. by injection Hs as _ <-.
  - right. exists w. split; [done|]. unfold run_step in Hs. rewrite Hst in Hs. injection Hs as _ <-.
    unfold cursor, readLlmWatermark. cbn. rewrite lookup_insert_eq.
    destruct (ld_watermark db !! SOURCE) as [[seen upd]|]; cbn; [|auto].
    split; [apply text_max_le|]. unfold text_max. destruct (seen <s? w); auto.
Qed.

(** The ingestion cursor never goes back and never passes a row that is not stored: in every
    reachable state, any step leaves it alone or moves it forward, and a step that moves it is one run
    handing over the newest timestamp of a read that passed its positive control, all of whose events
    are in the table by then. *)
Theorem cursor_never_passes_unstored w w' :
  world_reachable w → world_step w w' →
  cursor_le (cursor (wd_db w)) (cursor (wd_db w')) ∧
  (cursor (wd_db w') ≠ cursor (wd_db w) →
   ∃ r, r ∈ wd_runs w ∧ controlPassed (r_result r) = true ∧
     newWatermark (r_result r) = cursor (wd_db w') ∧
     ∀ e, e ∈ events (r_result r) →
       ∃ x, x ∈ ld_events (wd_db w) ∧ (source (ev x), sourceId (ev x)) = (source e, sourceId e)).
Proof.
  intros [Hdb Hids Hruns]%reachable_ok Hs.
  destruct Hs as [db rs r Hst Hfp Hfr Hpar|db db' rs1 r rs2 clock next Hact|db rs1 r rs2]; cbn in *;
    try (split; [apply cursor_le_refl|done]).
  assert (r ∈ rs1 ++ r :: rs2) as Hin by (apply elem_of_app; right; left).
  pose proof (Hruns r Hin) as Hr.
  destruct (cursor_unchanged_step clock r db next db' Hact Hdb Hr) as [Heq|(w & Hst & Hle & Hor)].
  - rewrite Heq. split; [apply cursor_le_refl|done].
  - split; [done|]. intros Hne. exists r. destruct Hor as [Hw|]; [|done]. rewrite Hw.
    destruct Hr as [_ Hr]. rewrite Hst in Hr. destruct Hr as (He & _ & Hall).
    unfold earned_watermark in He. destruct (newWatermark (r_result r)) as [w0|]; [|done].
    destruct (controlPassed (r_result r)); [|done]. cbn in He. destruct (Str.truthy w0); [|done].
    injection He as ->. split_and!; done.
Qed.
