(* ===== verification/LlmRead.v ===== *)
(** * The windowed read over the meter's record (src/store-d1.ts readTenantLlmSpend)

    What the read answers in terms of the tables, how consecutive windows add up, and when a window
    that was billed stays as it was billed while runs keep coming. *)

From S2P Require Export LlmRuns.
Open Scope string_scope.
Open Scope list_scope.
Open Scope Z_scope.
Open Scope plane_scope.

(** ** The abstract answer: the events whose run ended in the window *)

Definition in_window (ws we : string) (p : PeriodRec) : bool := (ws <=s? pr_end p) && (pr_end p <s? we).
Definition window_runs (ws we : string) (db : llm_db) : list PeriodRec := jfilter (in_window ws we) (ld_periods db).

Definition billed_to (tenant ws we : string) (db : llm_db) (e : EventRec) : bool :=
  bool_decide (tenantId (ev e) = Some tenant) &&
  existsb (λ p, (pr_id p =s? ev_period_id e) && in_window ws we p) (ld_periods db).
Definition billed (tenant ws we : string) (db : llm_db) : list EventRec :=
  jfilter (billed_to tenant ws we db) (ld_events db).

Definition event_cost (e : EventRec) : Z :=
  match costMicroUsd (ev e) with Some (Num.NInt z) => z | _ => 0 end.
Definition unpriced (e : EventRec) : bool := bool_decide (costMicroUsd (ev e) = None).

(** Costs within the money range: nonnegative integers whose sum is a safe integer. *)
Definition priced_sanely (l : list EventRec) : Prop :=
  (∀ e, e ∈ l → match costMicroUsd (ev e) with Some (Num.NInt z) => 0 <= z | Some _ => False | None => True end) ∧
  sumZ event_cost l <= Num.max_safe.

Section read_spec.
Variable real_sum : list Num.num → Num.num.
Variable cap : nat.

Lemma periods_in_perm ws we db : periods_in ws we db ≡ₚ window_runs ws we db.
Proof. apply order_asc_perm. Qed.

Lemma events_of_billed tenant ws we db :
  events_of tenant (pr_id <$> periods_in ws we db) db = billed tenant ws we db.
Proof.
  apply jfilter_ext. intros e _. unfold billed_to. f_equal. apply eq_iff_eq_true.
  rewrite bool_decide_eq_true, existsb_true_iff, list_elem_of_fmap.
  setoid_rewrite periods_in_perm. unfold window_runs. setoid_rewrite elem_of_jfilter.
  setoid_rewrite andb_true_iff. setoid_rewrite String.eqb_eq.
  unfold in_window. setoid_rewrite andb_true_iff.
  split; [intros (p & -> & ? & ?); by exists p|intros (p & ? & <- & ?); by exists p].
Qed.

Lemma cost_sum_sane l :
  priced_sanely l → cost_sum real_sum (omap (λ e, costMicroUsd (ev e)) l) = Ok (Num.NInt (sumZ event_cost l)).
Proof.
  intros [Hint Hsum]. unfold cost_sum.
  assert (∃ zs, mapM int_cell (omap (λ e, costMicroUsd (ev e)) l) = Some zs ∧
    sumZ (λ x, x) zs = sumZ event_cost l ∧ sumZ Z.abs zs = sumZ event_cost l) as (zs & -> & Hs & Ha).
  { induction l as [|e l IH]; [by exists []|].
    assert (0 <= sumZ event_cost l) as H0.
    { apply sumZ_nonneg. intros x Hx. unfold event_cost. specialize (Hint x ltac:(by right)).
      destruct (costMicroUsd (ev x)) as [[| | |]|]; done. }
    pose proof (Hint e ltac:(left)) as He. rewrite sumZ_cons in *.
    destruct IH as (zs & Hm & Hs & Ha);
      [intros; apply Hint; by right|unfold event_cost at 1 in Hsum; destruct (costMicroUsd (ev e)) as [[| | |]|]; (done || lia)|].
    change (omap (λ e0, costMicroUsd (ev e0)) (e :: l)) with
      (match costMicroUsd (ev e) with Some y => y :: omap (λ e0, costMicroUsd (ev e0)) l
                                     | None => omap (λ e0, costMicroUsd (ev e0)) l end).
    unfold event_cost at 1 in Hsum. unfold event_cost at 1 3.
    destruct (costMicroUsd (ev e)) as [[z| | |]|] eqn:Ec; try done; [|exists zs; split_and!; (done || lia)].
    exists (z :: zs). unfold Num.max_safe in Hsum. rewrite !sumZ_cons, Hs, Ha. split_and!; [|lia|lia].
    cbn. unfold in_int64. rewrite (proj2 (Z.leb_le _ _)), (proj2 (Z.ltb_lt _ _)) by lia. cbn. by rewrite Hm. }
  rewrite sql_sum_exact by lia. cbn. by rewrite Hs.
Qed.

(** C27. What the read answers.  As long as the window holds no more runs than the cap, and its
    costs are integers whose total is a safe integer, the answer is the exact sum, the exact count
    and the exact number of unpriced requests of the tenant's events whose run ended in the window;
    and it is complete only when every one of those runs is sound, so that no figure drawn from a
    partial record can be billed. *)
Theorem read_refines_window tenant ws we db :
  (length (window_runs ws we db) <= cap)%nat → priced_sanely (billed tenant ws we db) →
  ∃ w, readTenantLlmSpend real_sum cap tenant ws we db = Ok w ∧
    cost_micro_usd w = Num.NInt (sumZ event_cost (billed tenant ws we db)) ∧
    sw_requests w = Z.of_nat (length (billed tenant ws we db)) ∧
    unpriced_requests w = Z.of_nat (length (jfilter unpriced (billed tenant ws we db))) ∧
    sw_periods w = length (window_runs ws we db) ∧
    (isUnbillable (sw_window w) = false ↔
      window_runs ws we db ≠ [] ∧ (∀ p, p ∈ window_runs ws we db → is_sound (pr_row p) = true) ∧
      jfilter unpriced (billed tenant ws we db) = []).
Proof.
  intros Hcap Hcosts. pose proof (periods_in_perm ws we db) as Hperm.
  assert (length (periods_in ws we db) = length (window_runs ws we db)) as Hlen by (by rewrite Hperm).
  unfold readTenantLlmSpend.
  rewrite (firstn_all2 (n := cap + 1)) by lia. rewrite (firstn_all2 (n := cap)) by lia.
  rewrite (proj2 (Nat.ltb_ge _ _)) by lia. rewrite events_of_billed.
  destruct (length (periods_in ws we db) =? 0)%nat eqn:E0.
  - apply Nat.eqb_eq in E0. assert (window_runs ws we db = []) as Hnil by (apply length_zero_iff_nil; lia).
    assert (billed tenant ws we db = []) as Hb.
    { apply jfilter_nil_iff. intros e He. unfold billed_to. apply andb_false_iff. right.
      apply existsb_false_iff. intros p Hp. unfold window_runs in Hnil. rewrite jfilter_nil_iff in Hnil.
      by rewrite (Hnil p Hp), andb_false_r. }
    eexists. split; [reflexivity|]. cbn. rewrite Hb, Hnil. cbn. split_and!; try done. naive_solver.
  - apply Nat.eqb_neq in E0. rewrite cost_sum_sane by done. eexists. split; [reflexivity|].
    cbn [cost_micro_usd sw_requests unpriced_requests sw_periods summariseWindow sum_costMicroUsd sum_requests sum_unpricedRequests].
    rewrite length_fmap. split_and!; try done.
    rewrite billable_reasons, window_reasons_nil. cbn.
    assert (Z.of_nat (length (jfilter unpriced (billed tenant ws we db))) <= 0 ↔
            jfilter unpriced (billed tenant ws we db) = []) as Hu
      by (destruct (jfilter unpriced (billed tenant ws we db)); cbn; split; (done || lia)).
    fold unpriced. rewrite Hu. split.
    + intros (_ & _ & Hall & ?). split_and!; [destruct (window_runs ws we db); cbn in *; (done || lia)| |done].
      intros p Hp. apply Hall. apply list_elem_of_fmap. exists p. split; [done|]. by rewrite Hperm.
    + intros (? & Hall & ?). split_and!; [done| | |done].
      * destruct (periods_in ws we db); cbn in *; (done || lia).
      * intros x (p & -> & Hp)%list_elem_of_fmap. apply Hall. by rewrite <- Hperm.
Qed.
End read_spec.

(** ** A billed window stays as it was billed *)

Definition ends_in (ws we : string) (r : run) : bool :=
  (ws <=s? w_windowEnd (r_write r)) && (w_windowEnd (r_write r) <s? we).

(** A run that can no longer add to the window: past its events, or ending elsewhere. *)
Definition outside (ws we : string) (r : run) : Prop :=
  (∃ w, r_stage r = SAdvance w) ∨ ends_in ws we r = false.

Section frozen.
Variable real_sum : list Num.num → Num.num.
Variable cap : nat.
Implicit Types (tenant ws we : string) (db : llm_db).

Lemma window_runs_changed id db db' ws we :
  changed id db db' →
  (∀ p, p ∈ ld_periods db ∨ p ∈ ld_periods db' → pr_id p = id → in_window ws we p = false) →
  window_runs ws we db' = window_runs ws we db.
Proof.
  intros [Hp _] Hout.
  assert (∀ l, (∀ p, p ∈ l → pr_id p = id → in_window ws we p = false) →
    jfilter (in_window ws we) l = jfilter (in_window ws we) (jfilter (other id) l)) as H.
  { unfold jfilter. induction l as [|p l IH]; intros Hl; [done|]. cbn.
    rewrite IH by (intros; apply Hl; [by right|done]).
    assert (other id p = negb (pr_id p =s? id)) as -> by done.
    destruct (pr_id p =s? id) eqn:E; cbn; [|done]. bool_hyps. by rewrite (Hl p); [|left|]. }
  unfold window_runs. rewrite (H (ld_periods db')), (H (ld_periods db)), Hp; [done|auto..].
Qed.

Lemma read_changed id db db' tenant ws we :
  changed id db db' →
  (∀ p, p ∈ ld_periods db ∨ p ∈ ld_periods db' → pr_id p = id → in_window ws we p = false) →
  readTenantLlmSpend real_sum cap tenant ws we db' = readTenantLlmSpend real_sum cap tenant ws we db.
Proof.
  intros Hch Hout. unfold readTenantLlmSpend.
  assert (periods_in ws we db' = periods_in ws we db) as ->.
  { unfold periods_in. f_equal. by apply (window_runs_changed id). }
  set (ids := pr_id <$> firstn cap (periods_in ws we db)).
  assert (events_of tenant ids db' = events_of tenant ids db) as ->; [|done].
  destruct Hch as [_ (added & He & Ha)]. unfold events_of. rewrite He, jfilter_app.
  rewrite (proj2 (jfilter_nil_iff _ added)); [by rewrite app_nil_r|].
  intros r Hr. apply andb_false_iff. right. apply bool_decide_eq_false. unfold ids. rewrite (Ha r Hr).
  intros (p & Heq & Hp0)%list_elem_of_fmap.
  assert (p ∈ periods_in ws we db) as Hp
    by (rewrite <- (take_drop cap (periods_in ws we db)); apply elem_of_app; by left).
  rewrite periods_in_perm in Hp. apply elem_of_jfilter in Hp as [Hp Hin].
  by rewrite (Hout p) in Hin; [|left|].
Qed.

(** The row of a run, before and after its next statement, ends when the run says. *)
Lemma own_row_end clock r db o db' p :
  db_ok db → run_ok db r → run_step clock r db = (Ok o, db') → (∀ w, r_stage r ≠ SAdvance w) →
  p ∈ ld_periods db ∨ p ∈ ld_periods db' → pr_id p = r_id r → pr_end p = w_windowEnd (r_write r).
Proof.
  intros Hdb Hr Hs Hna Hin Heq.
  assert (opened db r → p ∈ ld_periods db → p = period_of_write (r_write r)) as Hown.
  { intros Ho Hp. apply (unique_eq pr_id (ld_periods db)); [apply Hdb|done..]. }
  unfold run_step in Hs. destruct Hr as [Hck Hr]. destruct (r_stage r) as [|rest n|n|w]; [| | |by destruct (Hna w)].
  - destruct Hr as [Hf _]. unfold openLlmRollupPeriod, mbind, M_bind in Hs. destruct (existsb _ _); [done|].
    injection Hs as _ <-. destruct Hin as [Hin|[Hin| ->%list_elem_of_singleton]%elem_of_app]; [by destruct (Hf p)..|done].
  - destruct Hr as (Ho & _ & d & Hd & _). destruct Hin as [Hin|Hin]; [by rewrite (Hown Ho Hin)|].
    destruct (insert_events_spec (r_id r) (w_startedAt (r_write r)) (firstn CHUNK rest) db)
      as (m & db1 & added & Hi & Hp & _); [by exists (period_of_write (r_write r))| |apply Hdb|].
    { intros e He. apply Hck. rewrite Hd. apply elem_of_app. right.
      rewrite <- (take_drop CHUNK rest). apply elem_of_app. by left. }
    unfold write_chunk, mbind, M_bind in Hs. rewrite (transaction_ok _ _ _ _ Hi) in Hs. injection Hs as _ <-.
    rewrite Hp in Hin. by rewrite (Hown Ho Hin).
  - destruct Hr as (Ho & _). destruct Hin as [Hin|Hin]; [by rewrite (Hown Ho Hin)|].
    injection Hs as _ <-. apply elem_of_update_where in Hin as (p0 & Hp0 & ->).
    destruct (pr_id p0 =s? r_id r) eqn:E; bool_hyps; [|by rewrite Heq in E].
    assert (p0 = period_of_write (r_write r)) as ->; [|done].
    apply (unique_eq pr_id (ld_periods db)); [apply Hdb|done..].
Qed.

Lemma step_reads clock r db o db' tenant ws we :
  db_ok db → run_ok db r → run_step clock r db = (Ok o, db') → outside ws we r →
  readTenantLlmSpend real_sum cap tenant ws we db' = readTenantLlmSpend real_sum cap tenant ws we db.
Proof.
  intros Hdb Hr Hs Hout. destruct (r_stage r) as [| | |w] eqn:Hst; cycle 3.
  { unfold run_step in Hs. rewrite Hst in Hs. by injection Hs as _ <-. }
  all: destruct Hout as [[w Hw]|Hout]; [congruence|];
    destruct (run_step_ok clock r db Hdb Hr) as (o' & db1 & Hs' & _ & Hch & _);
    rewrite Hs in Hs'; injection Hs' as -> ->; apply (read_changed (r_id r)); [done|];
    intros p Hin Heq; unfold in_window;
    rewrite (own_row_end clock r db o' db1 p) by (done || by rewrite Hst); exact Hout.
Qed.

Lemma complete_read tenant ws we db w :
  readTenantLlmSpend real_sum cap tenant ws we db = Ok w → isUnbillable (sw_window w) = false →
  ∀ p, p ∈ window_runs ws we db → is_sound (pr_row p) = true.
Proof.
  unfold readTenantLlmSpend. intros Hr Hb p Hp. rewrite <- periods_in_perm in Hp.
  set (all := firstn (cap + 1) (periods_in ws we db)) in *. destruct (cap <? length all)%nat eqn:Et.
  - exfalso. destruct (_ =? 0)%nat in Hr.
    + apply Ok_inj in Hr as <-. by apply billable_reasons, window_reasons_nil in Hb as [? _].
    + destruct (cost_sum _ _); [|done]. apply Ok_inj in Hr as <-.
      by apply billable_reasons, window_reasons_nil in Hb as [? _].
  - apply Nat.ltb_ge in Et. unfold all in *. rewrite length_firstn in Et.
    rewrite firstn_all2 in Hr by lia. destruct (_ =? 0)%nat in Hr.
    + apply Ok_inj in Hr as <-. by apply billable_reasons, window_reasons_nil in Hb as (_ & ? & _).
    + destruct (cost_sum _ _); [|done]. apply Ok_inj in Hr as <-.
      apply billable_reasons, window_reasons_nil in Hb as (_ & _ & Hs & _). apply Hs.
      by apply list_elem_of_fmap_2.
Qed.

(** Each run that begins, begins at or after the end of the window. *)
Definition begins_late (we : string) (w w' : world) : Prop :=
  ∀ r, wd_runs w' = wd_runs w ++ [r] → (we <=s? w_windowEnd (r_write r)) = true.
Definition later_step (we : string) (w w' : world) : Prop := world_step w w' ∧ begins_late we w w'.

Lemma later_step_reads tenant ws we w w' :
  world_ok w → (∀ r, r ∈ wd_runs w → outside ws we r) → later_step we w w' →
  readTenantLlmSpend real_sum cap tenant ws we (wd_db w') = readTenantLlmSpend real_sum cap tenant ws we (wd_db w) ∧
  (∀ r, r ∈ wd_runs w' → outside ws we r).
Proof.
  intros [Hdb Hids Hruns] Hout [Hs Hlate].
  destruct Hs as [db rs r Hst Hfp Hfr Hpar|db db' rs1 r rs2 clock next Hact|db rs1 r rs2]; cbn in *.
  - split; [done|]. intros x [Hx| ->%list_elem_of_singleton]%elem_of_app; [by apply Hout|].
    right. specialize (Hlate r eq_refl). unfold ends_in. apply andb_false_iff. right.
    unfold Str.leb in Hlate. by apply negb_true_iff in Hlate.
  - assert (r ∈ rs1 ++ r :: rs2) as Hin by (apply elem_of_app; right; left).
    split; [by eapply step_reads; eauto|].
    destruct (run_step_ok clock r db Hdb (Hruns r Hin)) as (o & db1 & Hrun & _ & _ & Hnext).
    rewrite Hact in Hrun. injection Hrun as -> ->.
    intros x [Hx|[Hx|Hx]%elem_of_app]%elem_of_app; [apply Hout; apply elem_of_app; auto| |apply Hout; apply elem_of_app; right; by right].
    destruct o as [r'|]; [|by apply elem_of_nil in Hx]. cbn in Hx. apply list_elem_of_singleton in Hx as ->.
    destruct Hnext as (Hw & _ & _). destruct (Hout r Hin) as [[w Hsta]|Hr].
    + unfold run_step in Hact. rewrite Hsta in Hact. by injection Hact.
    + right. unfold ends_in. by rewrite Hw.
  - split; [done|]. intros x Hx. apply Hout. apply elem_of_app in Hx as [?|?]; apply elem_of_app; [by left|right; by right].
Qed.

(** C2. Once a window reads complete it reads the same for ever, so a statement cannot be changed
    after it was settled, under every interleaving of runs and deaths: provided the runs that begin
    later begin at or after the window's end, and no run that began inside the window has read but
    not yet opened its period row (such a run is invisible to the read). *)
Theorem settled_window_frozen tenant ws we w w' win :
  world_reachable w →
  readTenantLlmSpend real_sum cap tenant ws we (wd_db w) = Ok win → isUnbillable (sw_window win) = false →
  (∀ r, r ∈ wd_runs w → r_stage r = SOpen → ends_in ws we r = false) →
  steps (later_step we) w w' →
  readTenantLlmSpend real_sum cap tenant ws we (wd_db w') = Ok win.
Proof.
  intros Hw%reachable_ok Hread Hb Hopen Hsteps.
  assert (∀ r, r ∈ wd_runs w → outside ws we r) as Hout.
  { intros r Hr. pose proof (complete_read _ _ _ _ _ Hread Hb) as Hsound.
    assert (opened (wd_db w) r → ends_in ws we r = false) as Hop.
    { intros Ho. destruct (ends_in ws we r) eqn:E; [|done].
      assert (is_sound (pr_row (period_of_write (r_write r))) = true) as Hc; [|done].
      apply Hsound. by apply elem_of_jfilter. }
    destruct Hw as [_ _ Hruns]. destruct (Hruns r Hr) as [_ Hok].
    destruct (r_stage r) eqn:Hst; [right; by apply Hopen|right; apply Hop; naive_solver..|left; eauto]. }
  assert (world_ok w' ∧ (∀ r, r ∈ wd_runs w' → outside ws we r) ∧
    readTenantLlmSpend real_sum cap tenant ws we (wd_db w') = Ok win) as (_ & _ & ?); [|done].
  eapply (steps_invariant (later_step we) (λ x, world_ok x ∧ (∀ r, r ∈ wd_runs x → outside ws we r) ∧
    readTenantLlmSpend real_sum cap tenant ws we (wd_db x) = Ok win)); [|by split_and!|exact Hsteps].
  intros x y (Hx & Hox & Hrx) Hs. destruct (later_step_reads tenant ws we x y Hx Hox Hs) as [Hry Hoy].
  split_and!; [eapply world_step_ok; [done|apply Hs]|done|by rewrite Hry].
Qed.
End frozen.

(** ** Consecutive windows *)

Lemma sumZ_split {A} (h : A → Z) f g1 g2 l :
  (∀ x, x ∈ l → f x = xorb (g1 x) (g2 x) ∧ g1 x && g2 x = false) →
  sumZ h (jfilter f l) = sumZ h (jfilter g1 l) + sumZ h (jfilter g2 l).
Proof.
  intros H. rewrite !sumZ_jfilter. induction l as [|x l IH]; [done|]. rewrite !sumZ_cons, IH.
  - destruct (H x) as [-> Hx]; [left|]. destruct (g1 x), (g2 x); cbn in *; (done || lia).
  - intros y Hy. apply H. by right.
Qed.

Lemma in_window_split ws wm we p :
  (ws <=s? wm) = true → (wm <=s? we) = true →
  in_window ws we p = xorb (in_window ws wm p) (in_window wm we p) ∧ in_window ws wm p && in_window wm we p = false.
Proof.
  intros H1 H2. unfold in_window. destruct (pr_end p <s? wm) eqn:Elt.
  - assert ((wm <=s? pr_end p) = false) as -> by (unfold Str.leb; by rewrite Elt).
    assert ((pr_end p <s? we) = true) as ->.
    { destruct (pr_end p <s? we) eqn:E; [done|]. assert ((we <=s? pr_end p) = true) as E' by (unfold Str.leb; by rewrite E).
      pose proof (leb_trans _ _ _ H2 E') as Hc. unfold Str.leb in Hc. by rewrite Elt in Hc. }
    by destruct (ws <=s? pr_end p).
  - assert ((wm <=s? pr_end p) = true) as Hm by (unfold Str.leb; by rewrite Elt).
    rewrite Hm, (leb_trans _ _ _ H1 Hm). by destruct (pr_end p <s? we).
Qed.

(** Consecutive windows partition the bill: in every state the runs can reach, splitting a window
    at any instant splits its requests and its cost into the two parts exactly, so settling period by
    period charges every stored event once and none twice. *)
Theorem consecutive_windows_partition w tenant ws wm we :
  world_reachable w → (ws <=s? wm) = true → (wm <=s? we) = true →
  let db := wd_db w in
  sumZ event_cost (billed tenant ws we db) =
    sumZ event_cost (billed tenant ws wm db) + sumZ event_cost (billed tenant wm we db) ∧
  Z.of_nat (length (billed tenant ws we db)) =
    Z.of_nat (length (billed tenant ws wm db)) + Z.of_nat (length (billed tenant wm we db)).
Proof.
  intros [[Hids _ Hpar _] _ _]%reachable_ok H1 H2 db.
  assert (∀ e, e ∈ ld_events db →
    billed_to tenant ws we db e = xorb (billed_to tenant ws wm db e) (billed_to tenant wm we db e) ∧
    billed_to tenant ws wm db e && billed_to tenant wm we db e = false) as Hsplit.
  { intros e He. destruct (Hpar e He) as (p & Hp & Hid).
    assert (∀ s t, existsb (λ q, (pr_id q =s? ev_period_id e) && in_window s t q) (ld_periods db) = in_window s t p) as Hex.
    { intros s t. apply eq_iff_eq_true. rewrite existsb_true_iff. split.
      - intros (q & Hq & Hb). bool_hyps. by rewrite (unique_eq pr_id _ p q Hids Hp Hq) by congruence.
      - intros Hin. exists p. split; [done|]. by rewrite Hid, String.eqb_refl, Hin. }
    unfold billed_to. rewrite !Hex. destruct (in_window_split ws wm we p H1 H2) as [-> Hx].
    by destruct (bool_decide _), (in_window ws wm p), (in_window wm we p). }
  assert (∀ l : list EventRec, Z.of_nat (length l) = sumZ (λ _, 1) l) as Hlen.
  { induction l as [|x l IH]; [done|]. rewrite sumZ_cons, <- IH. cbn [length]. lia. }
  rewrite !Hlen. split; apply sumZ_split; done.
Qed.

(** ** A run that straddles the end of the window *)

Definition log_row (id tenant created : string) (cost : Num.num) : js :=
  JObj [("id", JStr id); ("created_at", JStr created); ("cost", JNum cost);
        ("metadata", JObj [("tenant_id", JStr tenant)])].
Definition complete_run (id ended : string) (rows : list js) : run :=
  let evs := omap parseLogRow rows in
  mkRun (mkPeriodWrite id ended ended Complete true false ended)
    (mkRollup Complete true false evs (length rows) 0 (newestOccurredAt evs) []) SOpen.

Definition early_run : run :=
  complete_run "p1" "2026-07-15T00:00:00.000Z" [log_row "a" "t1" "2026-07-14T23:00:00Z" (Num.NInt 3)].
(** Started in the last second of July, still reading when August begins. *)
Definition straddling_run : run :=
  complete_run "p2" "2026-07-31T23:59:59.900Z" [log_row "b" "t1" "2026-07-31T12:00:00Z" (Num.NInt 5)].

Definition step_now (clock : string) (w : world) : world :=
  match wd_runs w with
  | r :: rs =>
      match run_step clock r (wd_db w) with
      | (Ok o, db) => mkWorld db (option_list o ++ rs)
      | _ => w
      end
  | [] => w
  end.

Definition july_settled : world :=
  let w0 := mkWorld (wd_db empty_world) [early_run] in
  let w1 := Nat.iter 4 (step_now "2026-07-15T00:00:01.000Z") w0 in
  mkWorld (wd_db w1) [straddling_run].
Definition july_later : world := Nat.iter 4 (step_now "2026-08-01T00:05:00.000Z") july_settled.

Lemma step_now_later we clock w : step_now clock w = w ∨ later_step we w (step_now clock w).
Proof.
  unfold step_now. destruct w as [db rs]. cbn. destruct rs as [|r rs]; [by left|].
  destruct (run_step clock r db) as [[o|e] db'] eqn:Hs; [|by left]. right. split.
  - exact (act db db' [] r rs clock o Hs).
  - intros r' Heq. cbn in Heq. apply (f_equal length) in Heq.
    exfalso. destruct o; cbn in Heq; rewrite !length_app in Heq; cbn in Heq; lia.
Qed.

Lemma step_now_iter we clock n w : steps (later_step we) w (Nat.iter n (step_now clock) w).
Proof.
  induction n as [|n IH]; [constructor|].
  change (Nat.iter (S n) (step_now clock) w) with (step_now clock (Nat.iter n (step_now clock) w)).
  destruct (step_now_later we clock (Nat.iter n (step_now clock) w)) as [->|H]; [done|].
  eapply steps_trans; [exact IH|]. by apply steps_one.
Qed.

Lemma later_steps_reach we w w' : world_reachable w → steps (later_step we) w w' → world_reachable w'.
Proof. intros Hw Hs. induction Hs as [|x y z Hxy _ IH]; [done|]. apply IH. eapply steps_trans; [exact Hw|]. apply steps_one, Hxy. Qed.

Lemma july_settled_reachable : world_reachable july_settled.
Proof.
  set (w0 := mkWorld (wd_db empty_world) [early_run]).
  assert (world_reachable w0) as H0.
  { apply steps_one, (begin_run _ [] early_run); [done|by intros p Hp%elem_of_nil|by intros p Hp%elem_of_nil|].
    intros e [->|He]%elem_of_cons; [|by apply elem_of_nil in He].
    exists (log_row "a" "t1" "2026-07-14T23:00:00Z" (Num.NInt 3)). reflexivity. }
  pose proof (later_steps_reach "" _ _ H0 (step_now_iter "" "2026-07-15T00:00:01.000Z" 4 w0)) as H1.
  eapply steps_trans; [exact H1|]. apply steps_one.
  assert (wd_runs (Nat.iter 4 (step_now "2026-07-15T00:00:01.000Z") w0) = []) as Hr by (vm_compute; reflexivity).
  unfold july_settled. fold w0. destruct (Nat.iter 4 _ w0) as [db rs] eqn:E. cbn in Hr. subst rs.
  assert (db = wd_db (Nat.iter 4 (step_now "2026-07-15T00:00:01.000Z") w0)) as Hdb by (by rewrite E).
  apply (begin_run db [] straddling_run); [done| |by intros p Hp%elem_of_nil|].
  - subst db. intros p Hp. vm_compute in Hp. apply elem_of_cons in Hp as [->|Hp]; [done|by apply elem_of_nil in Hp].
  - intros e [->|He]%elem_of_cons; [|by apply elem_of_nil in He].
    exists (log_row "b" "t1" "2026-07-31T12:00:00Z" (Num.NInt 5)). reflexivity.
Qed.

(** The side condition of the frozen window is needed, and the code does not enforce it.  A run
    takes its own instant before it reads the gateway and opens its period row after, so a run started
    in the last second of July is invisible to a read made at the start of August: the July window of
    a tenant reads complete at 3000000 micro-USD, is billable, and later, with no other run beginning,
    the same closed window reads complete at 8000000. *)
Theorem straddling_run_changes_settled_window real_sum :
  let read w := readTenantLlmSpend real_sum MAX_PERIODS_PER_WINDOW "t1"
                  "2026-07-01T00:00:00.000Z" "2026-08-01T00:00:00.000Z" (wd_db w) in
  world_reachable july_settled ∧ steps (later_step "2026-08-01T00:00:00.000Z") july_settled july_later ∧
  ∃ before after,
    read july_settled = Ok before ∧ isUnbillable (sw_window before) = false ∧
    cost_micro_usd before = Num.NInt 3000000 ∧
    read july_later = Ok after ∧ isUnbillable (sw_window after) = false ∧
    cost_micro_usd after = Num.NInt 8000000.
Proof.
  cbn zeta. split; [exact july_settled_reachable|]. split; [apply step_now_iter|].
  eexists _, _. split; [vm_compute; reflexivity|]. split; [reflexivity|]. split; [reflexivity|].
  split; [vm_compute; reflexivity|]. split; reflexivity.
Qed.
