(* ===== verification/Settlement.v ===== *)
(** * The monthly settlement sweep (src/meter-settle-run.ts) and its route (src/index.ts, POST
      /api/admin/meter-settle)

    Every live tenant, one period, one meter; the report of what was done; and the guards that decide
    which period may be settled at all. *)

From S2P Require Export MeterDebit LlmStore.
Open Scope string_scope.
Open Scope list_scope.
Open Scope Z_scope.
Open Scope plane_scope.

Record TenantRef := mkTenantRef {
  t_id : string;
  t_slug : option string;
  t_deleted_at : option string;
}.

(** A row keeps the outcome itself; the code copies its name, amount and reason out of it. *)
Record SettlementRow := mkSettlementRow {
  sr_tenantId : string;
  sr_slug : option string;
  sr_outcome : SettleOutcome;
}.

Record SettlementReport := mkReport {
  sp_period : BillingPeriod;
  sp_censusComplete : bool;
  sp_considered : nat;
  sp_debited : nat;
  sp_alreadySettled : nat;
  sp_within : nat;
  sp_unbillable : nat;
  sp_totalDebitedMicroUsd : MicroUsd;
  sp_rows : list SettlementRow;
}.

(** The loop's five counters and its rows. *)
Definition tally (p : BillingPeriod) (census : bool) (considered : nat) : SettlementReport :=
  mkReport p census considered 0 0 0 0 0 [].

Definition count_row (r : SettlementRow) (t : SettlementReport) : SettlementReport :=
  let '(mkReport p c n d a w u total rows) := t in
  match sr_outcome r with
  | Debited amount _ _ => mkReport p c n (d + 1) a w u (Num.add total amount) (rows ++ [r])
  | AlreadySettled _ _ => mkReport p c n d (a + 1) w u total (rows ++ [r])
  | SWithin _ _ => mkReport p c n d a (w + 1) u total (rows ++ [r])
  | SUnbillable _ => mkReport p c n d a w (u + 1) total (rows ++ [r])
  end.

Definition is_live (t : TenantRef) : bool :=
  match t_deleted_at t with Some s => negb (Str.truthy s) | None => true end.

Section sweep.
Context {S : Type} `{OverageLedger S}.
(** [deps.spend.readTenantLlmSpend], [deps.listTenants], the ids and the clock. *)
Variable spend : string → string → string → M S string LlmSpendWindow.
Variable listTenants : M S string (list TenantRef).
Variable censusComplete : nat → bool.
Variable newId now : M S string string.

Definition settle_args_of (allowance : option MicroUsd) (period : BillingPeriod) (t : TenantRef) (w : LlmSpendWindow) : settle_args S :=
  mkSettle (t_id t) Llm (sw_window w) (cost_micro_usd w) (Num.NInt <$> allowance) (key period) newId now.

(** One turn of the loop, its [try]/[catch] included. *)
Definition settle_tenant (allowance : option MicroUsd) (period : BillingPeriod) (t : TenantRef) : M S string SettleOutcome :=
  catch (w ← spend (t_id t) (windowStart period) (windowEnd period);
         settleMeterOverage (settle_args_of allowance period t w))
        (λ e, mret (SUnbillable (Threw e))).

Fixpoint settle_each (allowance : option MicroUsd) (period : BillingPeriod) (l : list TenantRef) (acc : SettlementReport) : M S string SettlementReport :=
  match l with
  | [] => mret acc
  | t :: l' =>
      outcome ← settle_tenant allowance period t;
      settle_each allowance period l' (count_row (mkSettlementRow (t_id t) (t_slug t) outcome) acc)
  end.

Definition runLlmSettlement (allowance : option MicroUsd) (period : BillingPeriod) : M S string SettlementReport :=
  all ← listTenants;
  let live := jfilter is_live all in
  settle_each allowance period live (tally period (censusComplete (length all)) (length live)).
End sweep.

(** ** The route *)

Record http_error := mkHttpError { he_code : string; he_status : Z }.

Definition TENANT_PAGE_LIMIT : nat := 200.

(** Which period the request settles, or the refusal; [Date.now()] is a valid instant. *)
Definition settle_period (requested : option string) (now : Z) : result string (http_error + BillingPeriod) :=
  period ← (match requested with
            | Some r => if Str.truthy r then parseBillingPeriodKey r
                        else Some <$> lastClosedBillingPeriod (new_date now)
            | None => Some <$> lastClosedBillingPeriod (new_date now)
            end);
  Ok (match period with
      | None => inl (mkHttpError "invalid_period" 400)
      | Some p =>
          if negb (billingPeriodIsClosed p (new_date now)) then inl (mkHttpError "period_not_closed" 400)
          else inr p
      end).

(** The allowance knob: a value that is set and unusable refuses the run. *)
Definition settle_allowance (raw : option string) : http_error + option MicroUsd :=
  let parsed := parseMicroUsd raw in
  match raw, parsed with
  | Some r, None => if negb (Str.trim r =s? "") then inl (mkHttpError "invalid_allowance" 400) else inr None
  | _, _ => inr parsed
  end.

Section route.
Context {S : Type} `{OverageLedger S}.
Variable spend : option (string → string → string → M S string LlmSpendWindow).
Variable credits : bool.
Variable listTenants : M S string (list TenantRef).
Variable newId now_of : M S string string.
(** [store.recordAdminAction(actor, "meter.settle_llm", period.key, ..)] with the report. *)
Variable recordAdminAction : string → SettlementReport → M S string unit.

Definition meterSettleRoute (requested : option string) (now : Z) (rawAllowance : option string)
    : M S string (http_error + SettlementReport) :=
  match spend with
  | None => mret (inl (mkHttpError "llm_meter_unavailable" 503))
  | Some spend =>
      if negb credits then mret (inl (mkHttpError "credits_unconfigured" 503))
      else
        p ← lift (settle_period requested now);
        match p with
        | inl e => mret (inl e)
        | inr period =>
            match settle_allowance rawAllowance with
            | inl e => mret (inl e)
            | inr allowance =>
                report ← runLlmSettlement spend listTenants (λ n, (n <? TENANT_PAGE_LIMIT)%nat) newId now_of
                           allowance period;
                _ ← recordAdminAction (key period) report;
                mret (inr report)
            end
        end
  end.
End route.

(** ** Lemmas *)

Definition is_debited (o : SettleOutcome) : bool := match o with Debited _ _ _ => true | _ => false end.
Definition outcome_amount (o : SettleOutcome) : Z := match o with Debited a _ _ => a | _ => 0 end.
Definition charged (o : SettleOutcome) : bool :=
  match o with Debited _ _ _ | AlreadySettled _ _ => true | _ => false end.
Definition overage_key (p : BillingPeriod) : string := overageIdemRef Llm (key p).

(** The counters agree with the rows. *)
Definition tallied (t : SettlementReport) : Prop :=
  let count f := length (jfilter (λ r, f (sr_outcome r)) (sp_rows t)) in
  sp_debited t = count is_debited ∧
  sp_alreadySettled t = count (λ o, match o with AlreadySettled _ _ => true | _ => false end) ∧
  sp_within t = count (λ o, match o with SWithin _ _ => true | _ => false end) ∧
  sp_unbillable t = count (λ o, match o with SUnbillable _ => true | _ => false end) ∧
  sp_totalDebitedMicroUsd t = fold_left Num.add ((λ r, outcome_amount (sr_outcome r)) <$> jfilter (λ r, is_debited (sr_outcome r)) (sp_rows t)) 0.

Lemma tally_tallied p c n : tallied (tally p c n).
Proof. by split_and!. Qed.

Lemma count_row_tallied r t : tallied t → tallied (count_row r t).
Proof.
  destruct t as [p c n d a w u total rows], r as [id slug o]. unfold tallied, count_row. cbn.
  intros (-> & -> & -> & -> & ->).
  destruct o; cbn; rewrite !jfilter_app; cbn; rewrite ?app_nil_r, ?length_app, ?fmap_app, ?fold_left_app; cbn; split_and!; (done || lia).
Qed.

Lemma tallied_total t :
  tallied t → (sp_debited t + sp_alreadySettled t + sp_within t + sp_unbillable t = length (sp_rows t))%nat.
Proof.
  intros (-> & -> & -> & -> & _). unfold jfilter. induction (sp_rows t) as [|[id slug o] l IH]; [done|].
  cbn. destruct o; cbn; lia.
Qed.

Section sweep_lemmas.
Context {S : Type} `{OverageLedgerOk S}.
Variable spend : string → string → string → M S string LlmSpendWindow.
Variable newId now : M S string string.
(** The windowed read writes nothing to the ledger, and neither does drawing an id or an instant. *)
Hypothesis spend_reads : ∀ t a b s, ledger_rows (exec (spend t a b) s) = ledger_rows s.
Hypothesis newId_quiet : draws_quietly newId.
Hypothesis now_quiet : draws_quietly now.
Variable period : BillingPeriod.

Definition row_settled (r : SettlementRow) (s s' : S) : Prop :=
  match sr_outcome r with
  | Debited amount i _ =>
      0 < amount ∧ find_ledger (sr_tenantId r) (overage_key period) (ledger_rows s) = None ∧
      ∃ row, ledger_rows s' = ledger_rows s ++ [row] ∧ l_key row = (sr_tenantId r, overage_key period) ∧
             l_kind row = Debit ∧ l_delta row = - amount
  | AlreadySettled i _ =>
      ledger_rows s' = ledger_rows s ∧
      ∃ row, find_ledger (sr_tenantId r) (overage_key period) (ledger_rows s) = Some row
  | _ => ledger_rows s' = ledger_rows s
  end.

Lemma settle_tenant_spec al t s :
  ∃ o s', settle_tenant spend newId now al period t s = (Ok o, s') ∧
          row_settled (mkSettlementRow (t_id t) (t_slug t) o) s s'.
Proof.
  unfold settle_tenant, catch, mbind, M_bind.
  pose proof (spend_reads (t_id t) (windowStart period) (windowEnd period) s) as Hsp. unfold exec in Hsp.
  destruct (spend _ _ _ s) as [[w|e] s1]; cbn in Hsp; [|by do 2 eexists].
  pose proof (settle_settled_as (settle_args_of newId now al period t w) s1 newId_quiet now_quiet) as Hset.
  destruct (settleMeterOverage _ s1) as [[o|e] s2]; [|do 2 eexists; split; [done|]; cbn; congruence].
  do 2 eexists. split; [done|]. unfold settled_as, row_settled in *. cbn in *. unfold overage_key. rewrite <- Hsp.
  destruct o; cbn in *; naive_solver.
Qed.

(** The rows a list of settlements writes, paired with the debited outcomes. *)
Definition charge_row (r : SettlementRow) (l : LedgerRow) : Prop :=
  l_key l = (sr_tenantId r, overage_key period) ∧ l_kind l = Debit ∧
  0 < outcome_amount (sr_outcome r) ∧ l_delta l = - outcome_amount (sr_outcome r).

Definition has_charge (t : string) (s : S) : Prop :=
  find_ledger t (overage_key period) (ledger_rows s) ≠ None.

Lemma has_charge_mono t s s' added :
  ledger_rows s' = ledger_rows s ++ added → has_charge t s → has_charge t s'.
Proof.
  unfold has_charge. intros ->. induction added as [|x l IH] using rev_ind; [by rewrite app_nil_r|].
  intros Hs. specialize (IH Hs). rewrite app_assoc, find_ledger_app. by destruct (find_ledger _ _ (_ ++ l)).
Qed.

Lemma row_settled_added r s s' :
  row_settled r s s' →
  ∃ added, ledger_rows s' = ledger_rows s ++ added ∧
    Forall2 charge_row (if is_debited (sr_outcome r) then [r] else []) added ∧
    (charged (sr_outcome r) = true → has_charge (sr_tenantId r) s') ∧
    (is_debited (sr_outcome r) = true → ¬ has_charge (sr_tenantId r) s).
Proof.
  unfold row_settled. destruct r as [id slug o]. cbn. destruct o as [amount i rid|i rid|u a|e]; cbn.
  - intros (Hpos & Hf & row & Hs & Hk & Hkind & Hd). exists [row]. split_and!; [done|by repeat constructor| |].
    + intros _. unfold has_charge. rewrite Hs, find_ledger_app, Hf, bool_decide_eq_true_2; done.
    + intros _ Hh. by apply Hh.
  - intros (Hs & row & Hf). exists []. rewrite app_nil_r. split_and!; [done|constructor| |done].
    intros _. unfold has_charge. by rewrite Hs, Hf.
  - intros Hs. exists []. by rewrite app_nil_r.
  - intros Hs. exists []. by rewrite app_nil_r.
Qed.

Lemma settle_each_spec al l acc s :
  ∃ rows rep s' added, settle_each spend newId now al period l acc s = (Ok rep, s') ∧
    rep = fold_left (λ t r, count_row r t) rows acc ∧
    sr_tenantId <$> rows = t_id <$> l ∧
    ledger_rows s' = ledger_rows s ++ added ∧
    Forall2 charge_row (jfilter (λ r, is_debited (sr_outcome r)) rows) added ∧
    (∀ r, r ∈ rows → charged (sr_outcome r) = true → has_charge (sr_tenantId r) s') ∧
    (∀ r, r ∈ rows → is_debited (sr_outcome r) = true → ¬ has_charge (sr_tenantId r) s).
Proof.
  revert acc s. induction l as [|t l IH]; intros acc s.
  { exists [], acc, s, []. rewrite app_nil_r. split_and!; try done; intros r Hr; by apply elem_of_nil in Hr. }
  destruct (settle_tenant_spec al t s) as (o & s1 & Hset & Hrow). set (r := mkSettlementRow (t_id t) (t_slug t) o) in *.
  destruct (row_settled_added r s s1 Hrow) as (a1 & Hs1 & HF1 & Hc1 & Hd1).
  destruct (IH (count_row r acc) s1) as (rows & rep & s' & a2 & Heach & Hrep & Hids & Hs' & HF2 & Hc2 & Hd2).
  exists (r :: rows), rep, s', (a1 ++ a2). cbn [settle_each]. unfold mbind, M_bind. rewrite Hset. fold r. split_and!.
  - exact Heach.
  - done.
  - cbn. by rewrite Hids.
  - by rewrite Hs', Hs1, app_assoc.
  - change (jfilter (λ r, is_debited (sr_outcome r)) (r :: rows)) with
      (if is_debited (sr_outcome r) then r :: jfilter (λ r, is_debited (sr_outcome r)) rows
       else jfilter (λ r, is_debited (sr_outcome r)) rows).
    destruct (is_debited (sr_outcome r)); [|inversion HF1; subst; done].
    inversion HF1 as [|? x ? ? Hx HF1']; subst. inversion HF1'; subst. by constructor.
  - intros x [->|Hx]%elem_of_cons Hch; [|by apply Hc2]. eapply has_charge_mono; [exact Hs'|by apply Hc1].
  - intros x [->|Hx]%elem_of_cons Hdb; [by apply Hd1|]. intros Hh. apply (Hd2 x Hx Hdb).
    eapply has_charge_mono; [exact Hs1|done].
Qed.
End sweep_lemmas.

Lemma fold_count rows acc :
  tallied acc →
  let rep := fold_left (λ t r, count_row r t) rows acc in
  tallied rep ∧ sp_rows rep = sp_rows acc ++ rows ∧ sp_considered rep = sp_considered acc ∧
  sp_period rep = sp_period acc ∧ sp_censusComplete rep = sp_censusComplete acc.
Proof.
  revert acc. induction rows as [|r rows IH]; intros acc Hacc; cbn; [by rewrite app_nil_r|].
  destruct (IH (count_row r acc) (count_row_tallied r acc Hacc)) as (? & Hr & Hc & Hp & Hce).
  split_and!; [done|rewrite Hr|rewrite Hc|rewrite Hp|rewrite Hce]; destruct acc, r as [id slug []]; cbn;
    rewrite <- ?app_assoc; done.
Qed.

Lemma charged_sum period rows added :
  Forall2 (charge_row period) rows added →
  sumZ (λ r, outcome_amount (sr_outcome r)) rows = sumZ (λ l, - l_delta l) added ∧
  sumZ Z.abs ((λ r, outcome_amount (sr_outcome r)) <$> rows) = sumZ (λ l, - l_delta l) added.
Proof.
  induction 1 as [|r l rows added (_ & _ & Hpos & Hd) _ [IH1 IH2]]; [done|].
  rewrite fmap_cons, !sumZ_cons, IH1, IH2, Hd. split; lia.
Qed.

(** ** Properties *)
Section settlement_properties.
Context {S : Type} `{OverageLedgerOk S}.
Variable spend : string → string → string → M S string LlmSpendWindow.
Variable newId now : M S string string.
Hypothesis spend_reads : ∀ t a b s, ledger_rows (exec (spend t a b) s) = ledger_rows s.
Hypothesis newId_quiet : draws_quietly newId.
Hypothesis now_quiet : draws_quietly now.

(** The settlement report tells the truth about the ledger, whatever individual reads or writes
    throw.  A sweep over the tenants it listed always returns; it has one row per live tenant in
    order; the four counters are the rows of each outcome and add up to the tenants considered; the
    ledger has gained exactly one debit row per debited tenant, under that tenant and this period's
    key, and nothing else; and while the charges stay within the safe integers the reported total
    is exactly what was taken. *)
Theorem settlement_report_true listTenants census allowance period all s s0 :
  listTenants s0 = (Ok all, s) → ledger_rows s = ledger_rows s0 →
  ∃ rep s' added,
    runLlmSettlement spend listTenants census newId now allowance period s0 = (Ok rep, s') ∧
    sr_tenantId <$> sp_rows rep = t_id <$> jfilter is_live all ∧
    sp_considered rep = length (jfilter is_live all) ∧
    (sp_debited rep + sp_alreadySettled rep + sp_within rep + sp_unbillable rep = sp_considered rep)%nat ∧
    ledger_rows s' = ledger_rows s0 ++ added ∧
    length added = sp_debited rep ∧
    Forall2 (λ r l, l_key l = (sr_tenantId r, overageIdemRef Llm (key period)) ∧ l_kind l = Debit ∧ l_delta l < 0)
      (jfilter (λ r, is_debited (sr_outcome r)) (sp_rows rep)) added ∧
    (sumZ (λ l, - l_delta l) added <= Num.max_safe →
     sp_totalDebitedMicroUsd rep = sumZ (λ l, - l_delta l) added).
Proof.
  intros Hl Hs0. unfold runLlmSettlement. rewrite (M_bind_ok _ _ _ _ _ Hl). cbn zeta.
  set (live := jfilter is_live all). set (acc := tally period (census (length all)) (length live)).
  destruct (settle_each_spec spend newId now spend_reads newId_quiet now_quiet period allowance live acc s)
    as (rows & rep & s' & added & Hrun & Hrep & Hids & Hs' & HF & _ & _).
  destruct (fold_count rows acc (tally_tallied _ _ _)) as (Ht & Hrows & Hcons & _ & _).
  rewrite <- Hrep in *. cbn in Hrows, Hcons. exists rep, s', added.
  assert (length rows = length live) as Hlen by (by rewrite <- (length_fmap sr_tenantId), Hids, length_fmap).
  destruct Ht as (Hdb & Ha & Hw & Hu & Htot). rewrite <- Hrows in HF.
  split_and!; [exact Hrun|by rewrite Hrows|done| |by rewrite Hs', Hs0|by rewrite Hdb, (Forall2_length _ _ _ HF)| |].
  - rewrite (tallied_total rep) by (by split_and!). by rewrite Hrows, Hcons.
  - eapply Forall2_impl; [exact HF|]. intros r l (Hk & Hkd & Hpos & Hd). split_and!; (done || lia).
  - intros Hsafe. destruct (charged_sum _ _ _ HF) as [Hsum Habs]. rewrite Htot, fold_add_exact by (cbn; lia).
    by rewrite sumZ_map, Z.add_0_l, <- Hsum.
Qed.

(** C14. Settling the same period again charges no tenant twice: whoever a sweep charged, or found
    charged, is never debited by a later sweep of the same period, however the tenants, their
    spend, the allowance or the rest of the ledger have changed in between, and whatever fresh ids and
    instants the later sweep draws. *)
Theorem resettlement_never_recharges listTenants1 listTenants2 census allowance1 allowance2 period
    s0 rep1 s1 s2 rep2 s3 more all1 s0' all2 s2' :
  listTenants1 s0 = (Ok all1, s0') → listTenants2 s2 = (Ok all2, s2') → ledger_rows s2' = ledger_rows s2 →
  runLlmSettlement spend listTenants1 census newId now allowance1 period s0 = (Ok rep1, s1) →
  ledger_rows s2 = ledger_rows s1 ++ more →
  runLlmSettlement spend listTenants2 census newId now allowance2 period s2 = (Ok rep2, s3) →
  ∀ r1 r2, r1 ∈ sp_rows rep1 → r2 ∈ sp_rows rep2 → sr_tenantId r2 = sr_tenantId r1 →
    charged (sr_outcome r1) = true → ∀ amount idem rid, sr_outcome r2 ≠ Debited amount idem rid.
Proof.
  intros Hl1 Hl2 Hs2 H1 Hmore H2 r1 r2 Hr1 Hr2 Hid Hch amount idem rid Ho.
  unfold runLlmSettlement in H1, H2. rewrite (M_bind_ok _ _ _ _ _ Hl1) in H1. rewrite (M_bind_ok _ _ _ _ _ Hl2) in H2.
  cbn zeta in H1, H2.
  set (acc1 := tally period (census (length all1)) (length (jfilter is_live all1))) in H1.
  set (acc2 := tally period (census (length all2)) (length (jfilter is_live all2))) in H2.
  destruct (settle_each_spec spend newId now spend_reads newId_quiet now_quiet period allowance1 (jfilter is_live all1) acc1 s0')
    as (rows1 & rep1' & s1' & ad1 & Hrun1 & Hrep1 & _ & _ & _ & Hc1 & _).
  destruct (settle_each_spec spend newId now spend_reads newId_quiet now_quiet period allowance2 (jfilter is_live all2) acc2 s2')
    as (rows2 & rep2' & s3' & ad2 & Hrun2 & Hrep2 & _ & _ & _ & _ & Hd2).
  rewrite H1 in Hrun1. rewrite H2 in Hrun2. injection Hrun1 as <- <-. injection Hrun2 as <- <-.
  destruct (fold_count rows1 acc1 (tally_tallied _ _ _)) as (_ & Hrows1 & _).
  destruct (fold_count rows2 acc2 (tally_tallied _ _ _)) as (_ & Hrows2 & _).
  rewrite <- Hrep1 in Hrows1. rewrite <- Hrep2 in Hrows2. cbn in Hrows1, Hrows2. rewrite Hrows1 in Hr1. rewrite Hrows2 in Hr2.
  apply (Hd2 r2 Hr2); [by rewrite Ho|]. rewrite Hid. unfold has_charge. rewrite Hs2.
  apply (has_charge_mono period (sr_tenantId r1) s1 s2 more Hmore). by apply Hc1.
Qed.
End settlement_properties.

(** The route never settles a month still accumulating.  Whatever the request asks for, the period
    it settles has ended by now, and when the operator names a period, the key that becomes the ledger
    reference is the name as typed. *)
Theorem settled_period_is_closed requested now p :
  settle_period requested now = Ok (inr p) →
  (∃ e, Date.parse_iso (windowEnd p) = Some e ∧ e <= now) ∧
  (∀ r, requested = Some r → r ≠ "" → key p = Str.trim r).
Proof.
  unfold settle_period. intros Hs.
  destruct (match requested with Some r => _ | None => _ end) as [[q|]|e] eqn:Hq; cbn in Hs; [|done..].
  destruct (billingPeriodIsClosed q (new_date now)) eqn:Hc; cbn in Hs; [|done]. injection Hs as ->. split.
  - unfold billingPeriodIsClosed in Hc. destruct (Date.parse_iso (windowEnd p)) as [e|]; [|done].
    unfold new_date in Hc. destruct (Date.valid now); [|done]. exists e. by bool_hyps.
  - intros r -> Hr. destruct r as [|c r]; [done|]. cbn [Str.truthy] in Hq. by apply parseKey_faithful.
Qed.
