(* ===== verification/PaymentRail.v ===== *)
(** * The payment rail seam (src/payment-rail.ts)

    What a rail promises to the routes, the rail without a processor, the amount checks, and the only
    path by which credit is created. *)

From S2P Require Export LedgerIface.
Open Scope string_scope.
Open Scope list_scope.
Open Scope Z_scope.
Open Scope plane_scope.

Record TopUpIntent := mkIntent {
  checkout_url : option string;
  ti_external_ref : string;
}.

Record ApprovedOrder := mkApproved {
  order_ref : string;
  tenant_ref : string;
}.

Record SettlementEvent := mkSettlement {
  se_tenant_id : string;
  se_amount_micro_usd : MicroUsd;
  se_external_ref : string;
  se_note : option string;
}.

Inductive RailWebhookEvent :=
| Settlement (s : SettlementEvent)
| Approved (o : ApprovedOrder).

Inductive CaptureOutcome :=
| Settled (s : SettlementEvent)
| AlreadyCaptured.

Inductive RailRefusal := Unsupported | NotConfigured | InvalidAmount | Unverified.
#[export] Instance RailRefusal_eq_dec : EqDecision RailRefusal.
Proof. solve_decision. Defined.

Definition refusal_code (r : RailRefusal) : string :=
  match r with
  | Unsupported => "unsupported"
  | NotConfigured => "not_configured"
  | InvalidAmount => "invalid_amount"
  | Unverified => "unverified"
  end.

(** What a rail throws: a [PaymentRailError], or any other error. *)
Inductive rail_error :=
| RailError (code : RailRefusal) (message : string)
| OtherError (message : string).

(** The interface; [X] is the rail's world (its token cache and the network) and [R] the request. *)
Record PaymentRail (X R : Type) := mkRail {
  rail_id : string;
  createTopUp : string → MicroUsd → M X rail_error TopUpIntent;
  parseSettlement : R → M X rail_error (option RailWebhookEvent);
  captureApprovedOrder : ApprovedOrder → M X rail_error CaptureOutcome;
}.
Arguments mkRail {X R}.
Arguments rail_id {X R}.
Arguments createTopUp {X R}.
Arguments parseSettlement {X R}.
Arguments captureApprovedOrder {X R}.

Definition MIN_TENANT_TOPUP_MICRO_USD : MicroUsd := 10000000.
Definition DEFAULT_MANUAL_CREDIT_CEILING_MICRO_USD : MicroUsd := 100000000.

Definition validateCreditAmount (amount : js) (ceilingMicroUsd : MicroUsd) : string + MicroUsd :=
  match amount with
  | JNum (Num.NInt a) =>
      if negb (Num.is_safe a) then inl "amount_micro_usd must be a whole number of micro-USD (1e-6 USD)"
      else if a <=? 0 then inl "amount_micro_usd must be greater than zero"
      else if ceilingMicroUsd <? a then
        inl ("amount_micro_usd " +:+ Str.of_int a +:+ " exceeds the single-credit ceiling of " +:+
             Str.of_int ceilingMicroUsd +:+ "; " +:+
             "raise MANUAL_CREDIT_CEILING_MICRO_USD to do this deliberately")
      else inr a
  | _ => inl "amount_micro_usd must be a whole number of micro-USD (1e-6 USD)"
  end.

(** ** The manual rail: every method refuses *)
Definition ManualRail (X R : Type) : PaymentRail X R :=
  mkRail "manual"
    (λ _ _, throw (RailError Unsupported
       "the manual rail has no checkout surface; an operator credits the tenant directly"))
    (λ _, throw (RailError Unsupported "the manual rail has no webhook; there is nothing to verify"))
    (λ _, throw (RailError Unsupported
       "the manual rail has no order to collect; an operator credit is settled the moment it is written")).

(** ** Applying money *)

Definition settlement_ref (railId externalRef : string) : string := railId +:+ ":" +:+ externalRef.

Definition settlement_row (railId rowId now : string) (e : SettlementEvent) : append_args :=
  mkAppend rowId (se_tenant_id e) Purchase (se_amount_micro_usd e) None
    (settlement_ref railId (se_external_ref e)) None (Some (se_external_ref e)) (se_note e) now.

Section apply.
Context {S : Type} `{OverageLedger S}.

Definition applySettlement (railId rowId now : string) (e : SettlementEvent) : M S string bool :=
  r ← appendLedgerRow (settlement_row railId rowId now e);
  mret (r_applied r).
End apply.

(** ** Lemmas *)

Lemma settlement_ref_inj rail a b : settlement_ref rail a = settlement_ref rail b → a = b.
Proof.
  unfold settlement_ref. induction rail as [|c rail IH]; cbn; [by intros [=]|]. intros [= Heq]. by apply IH.
Qed.

Lemma valid_amount amount ceiling a :
  validateCreditAmount amount ceiling = inr a → amount = JNum (Num.NInt a) ∧ 0 < a <= ceiling ∧ a <= Num.max_safe.
Proof.
  unfold validateCreditAmount, Num.is_safe. destruct amount as [| | |[z| | |]| | |]; try done.
  intros H. split_ifs. bool_hyps. split_and!; (done || lia).
Qed.

Section apply_lemmas.
Context {S : Type} `{OverageLedgerOk S}.

Lemma settlement_replays rail rowId now e (s s' : S) applied rowId' now' e' :
  applySettlement rail rowId now e s = (Ok applied, s') →
  se_tenant_id e' = se_tenant_id e → se_external_ref e' = se_external_ref e → 0 < se_amount_micro_usd e' →
  applySettlement rail rowId' now' e' s' = (Ok false, s').
Proof.
  unfold applySettlement. intros (r & s1 & Ha & Hr)%M_bind_inv Ht Hx Hpos. injection Hr as _ <-.
  assert (ledger_check (row_of (settlement_row rail rowId' now' e')) = true) as Hck
    by (unfold ledger_check; cbn; by apply Z.ltb_lt).
  by rewrite (M_bind_ok _ _ _ _ _
    (append_then_replay _ (settlement_row rail rowId' now' e') s r s1 Ha Ht ltac:(cbn; by rewrite Hx) Hck)).
Qed.
End apply_lemmas.

(** ** Properties *)

(** An amount an operator may credit is exactly a safe integer above zero and at most the ceiling;
    it is then taken unchanged, and anything else, a string of digits or a fraction included, is
    refused. *)
Theorem validateCreditAmount_spec amount ceiling a :
  validateCreditAmount amount ceiling = inr a ↔
  amount = JNum (Num.NInt a) ∧ 0 < a <= ceiling ∧ a <= Num.max_safe.
Proof.
  split; [apply valid_amount|]. unfold validateCreditAmount, Num.is_safe.
  - intros (-> & Hr & Hs). rewrite (proj2 (Z.leb_le (Z.abs a) _)) by lia. cbn [negb].
    by rewrite (proj2 (Z.leb_gt a 0)), (proj2 (Z.ltb_ge ceiling a)) by lia.
Qed.

Section apply_properties.
Context {S : Type} `{OverageLedgerOk S}.

(** Money from outside is credited once per rail and processor reference.  A settlement writes
    exactly one purchase row for the amount and the tenant of the event, or none; and after one that
    went through, a settlement with the same reference for the same tenant, whatever amount or row
    id it carries, changes nothing and still succeeds, so that a processor that retries stops. *)
Theorem settlement_credits_once rail rowId now e (s s' : S) applied :
  applySettlement rail rowId now e s = (Ok applied, s') →
  ledger_rows s' = ledger_rows s ++ (if applied then [row_of (settlement_row rail rowId now e)] else []) ∧
  (∀ rowId' now' e', se_tenant_id e' = se_tenant_id e → se_external_ref e' = se_external_ref e →
     0 < se_amount_micro_usd e' →
     applySettlement rail rowId' now' e' s' = (Ok false, s')).
Proof.
  intros Happ. split; [|intros; by eapply settlement_replays].
  unfold applySettlement in Happ. apply M_bind_inv in Happ as (r & s1 & Ha & Hr). injection Hr as <- <-.
  pose proof (append_spec (settlement_row rail rowId now e) s) as Hs. rewrite Ha in Hs.
  inversion Hs; subst; cbn; [by rewrite app_nil_r|done].
Qed.
End apply_properties.
