(* ===== verification/PayPalRail.v ===== *)
(** * The PayPal rail (src/paypal-rail.ts)

    PayPal and the clock are parameters acting on a world [W]; the rail adds its isolate-local token
    cache.  A webhook arrives as its headers and its body, the body being the JSON it parses to
    ([None] when it is not JSON). *)

From S2P Require Export Http JsDate PaymentRail.
From Stdlib Require Import Ascii.
Open Scope string_scope.
Open Scope list_scope.
Open Scope Z_scope.
Open Scope plane_scope.

Definition SANDBOX_API : string := "https://api-m.sandbox.paypal.com".
Definition LIVE_API : string := "https://api-m.paypal.com".
Definition MICRO_PER_CENT : Z := 10000.
Definition CAPTURE_COMPLETED : string := "PAYMENT.CAPTURE.COMPLETED".
Definition ORDER_APPROVED : string := "CHECKOUT.ORDER.APPROVED".
Definition ALREADY_CAPTURED : string := "ORDER_ALREADY_CAPTURED".

Record PayPalRailConfig := mkPayPalConfig {
  cfg_clientId : string;
  cfg_clientSecret : string;
  cfg_webhookId : string;
  cfg_paypalEnv : option string;
  cfg_returnUrl : option string;
  cfg_cancelUrl : option string;
}.

Record CachedToken := mkToken {
  tk_token : string;
  tk_expiresAtMs : Num.num;
  tk_clientId : string;
}.

Definition paypalApiBase (paypalEnv : option string) : string :=
  match paypalEnv with Some e => if Str.trim e =s? "live" then LIVE_API else SANDBOX_API | None => SANDBOX_API end.

(** [Boolean(v?.trim())] *)
Definition is_set (v : option string) : bool :=
  match v with Some s => Str.truthy (Str.trim s) | None => false end.

Record PayPalEnv := mkPayPalEnv {
  PAYPAL_CLIENT_ID : option string;
  PAYPAL_CLIENT_SECRET : option string;
  PAYPAL_WEBHOOK_ID : option string;
  PAYPAL_ENV : option string;
}.

Definition paypalCredentialsPresent (env : PayPalEnv) : bool :=
  is_set (PAYPAL_CLIENT_ID env) && is_set (PAYPAL_CLIENT_SECRET env).
Definition paypalDoorConfigured (env : PayPalEnv) : bool :=
  paypalCredentialsPresent env && is_set (PAYPAL_WEBHOOK_ID env).

(** ** Amounts *)

Definition microUsdToPayPalValue (micro : MicroUsd) : result rail_error string :=
  if negb (Num.is_safe micro) || (micro <=? 0) || negb (Z.rem micro MICRO_PER_CENT =? 0) then
    Err (RailError InvalidAmount
      "amount_micro_usd must be a positive whole number of cents (1e-2 USD) in micro-USD")
  else
    let dollars := num_int (Num.trunc (num_quot micro MICRO_PER_USD)) in
    let cents := num_int (Num.trunc (num_quot (Z.rem micro MICRO_PER_USD) MICRO_PER_CENT)) in
    Ok (Str.of_int dollars +:+ "." +:+ Str.pad_start 2 "0"%char (Str.of_int cents)).

(** [/^([0-9]+)\.([0-9]{2})$/] and the two numbers it captures. *)
Definition match_value (s : string) : option (Z * Z) :=
  let l := Str.chars s in
  let n := (length l - 3)%nat in
  match skipn n l with
  | [dot; c1; c2] =>
      if Ascii.eqb dot "."%char && Str.is_digit c1 && Str.is_digit c2 &&
         negb (n =? 0)%nat && forallb Str.is_digit (firstn n l)
      then Some (Num.rnd (Str.digits_val (firstn n l)), Str.digits_val [c1; c2])
      else None
  | _ => None
  end.

Definition paypalValueToMicroUsd (value : string) : option MicroUsd :=
  match match_value value with
  | None => None
  | Some (dollars, cents) =>
      let micro := Num.add (Num.mul dollars MICRO_PER_USD) (cents * MICRO_PER_CENT) in
      if Num.is_safe micro then Some micro else None
  end.

(** ** Reading PayPal's JSON *)

(** The first completed capture of a list of captures, then of a list of purchase units. *)
Definition completed_capture (c : js) : bool :=
  js_is_object c && match js_field c "status" with JStr s => s =s? "COMPLETED" | _ => false end.

Definition unit_capture (u : js) : option js :=
  if negb (js_is_object u) then None
  else if negb (js_is_object (js_field u "payments")) then None
  else match js_field (js_field u "payments") "captures" with
       | JArr l => List.find completed_capture l
       | _ => None
       end.

Fixpoint first_some {A B} (f : A → option B) (l : list A) : option B :=
  match l with
  | [] => None
  | x :: l => match f x with Some y => Some y | None => first_some f l end
  end.

Definition completedCaptureFrom (body : js) : option js :=
  if negb (js_is_object body) then None
  else match js_field body "purchase_units" with
       | JArr units => first_some unit_capture units
       | _ => None
       end.

Definition unit_tenant (u : js) : option string :=
  if negb (js_is_object u) then None
  else let tenantRef := js_trimmed (js_field u "custom_id") in
       if Str.truthy tenantRef then Some tenantRef else None.

Definition approvedFromOrderResource (resource : js) : option ApprovedOrder :=
  if negb (js_is_object resource) then None
  else
    let orderRef := js_trimmed (js_field resource "id") in
    if negb (Str.truthy orderRef) then None
    else match js_field resource "purchase_units" with
         | JArr units => mkApproved orderRef <$> first_some unit_tenant units
         | _ => None
         end.

Definition orderIdFromCapture (cap : js) : string :=
  let supp := js_field cap "supplementary_data" in
  if negb (js_is_object supp) then ""
  else let related := js_field supp "related_ids" in
       if negb (js_is_object related) then ""
       else js_string_or_empty (js_field related "order_id").

(** [amountObj] with USD and a text value, as the positive amount it denotes. *)
Definition usd_amount (cap : js) : option MicroUsd :=
  let amountObj := js_field cap "amount" in
  if negb (js_is_object amountObj) then None
  else match js_field amountObj "currency_code", js_field amountObj "value" with
       | JStr cur, JStr value =>
           if negb (cur =s? "USD") then None
           else amount ← paypalValueToMicroUsd value;
                if amount <=? 0 then None else Some amount
       | _, _ => None
       end.

Definition settlementFromVerifiedEvent (event : js) : option SettlementEvent :=
  if negb (js_is_object event) then None
  else match js_field event "event_type" with
  | JStr t =>
      if negb (t =s? CAPTURE_COMPLETED) then None
      else
        let cap := js_field event "resource" in
        if negb (js_is_object cap) then None
        else
          let tenantId := js_trimmed (js_field cap "custom_id") in
          if negb (Str.truthy tenantId) then None
          else
            amount ← usd_amount cap;
            let captureId := js_string_or_empty (js_field cap "id") in
            let externalRef := if Str.truthy captureId then captureId else orderIdFromCapture cap in
            if negb (Str.truthy externalRef) then None
            else Some (mkSettlement tenantId amount externalRef (Some "paypal PAYMENT.CAPTURE.COMPLETED"))
  | _ => None
  end.

Definition railEventFromVerifiedEvent (event : js) : option RailWebhookEvent :=
  if negb (js_is_object event) then None
  else if match js_field event "event_type" with JStr t => t =s? ORDER_APPROVED | _ => false end
  then Approved <$> approvedFromOrderResource (js_field event "resource")
  else Settlement <$> settlementFromVerifiedEvent event.

(** ** The rail *)

Record WebhookRequest := mkWebhook {
  wr_headers : list (string * string);
  wr_body : option js;
}.

Section rail.
Context {W : Type}.
(** The network, [Date.now()] and [crypto.randomUUID()]. *)
Variable fetch : HttpRequest → M W string HttpResponse.
Variable date_now : M W string Z.
Variable random_uuid : M W string string.

Definition X : Type := option CachedToken * W.

(** An error that is not a [PaymentRailError] passes through as it is. *)
Definition plain {A} (r : result string A) : result rail_error A :=
  match r with Ok a => Ok a | Err e => Err (OtherError e) end.
Definition outside {A} (m : M W string A) : M X rail_error A := λ x,
  let '(r, w) := m x.2 in (plain r, (x.1, w)).
Definition rail_throw {A} (e : string) : M X rail_error A := throw (OtherError e).
Definition refuse {A} (code : RailRefusal) (message : string) : M X rail_error A := throw (RailError code message).

(** [await res.json()] *)
Definition body_json (res : HttpResponse) : M X rail_error js :=
  match rs_json res with Some v => mret v | None => rail_throw "SyntaxError: Unexpected token" end.

Variable cfg : PayPalRailConfig.
Definition clientId : string := Str.trim (cfg_clientId cfg).
Definition clientSecret : string := Str.trim (cfg_clientSecret cfg).
Definition webhookId : string := Str.trim (cfg_webhookId cfg).
Definition base : string := paypalApiBase (cfg_paypalEnv cfg).
Definition returnUrl : string := default "" (Str.trim <$> cfg_returnUrl cfg).
Definition cancelUrl : string := default "" (Str.trim <$> cfg_cancelUrl cfg).

Definition accessToken : M X rail_error string :=
  now ← outside date_now;
  cached ← gets fst;
  match (c ← cached;
         if (tk_clientId c =s? clientId) && num_gt (tk_expiresAtMs c) (now + 30000) then Some c else None) with
  | Some c => mret (tk_token c)
  | None =>
      uuid ← outside random_uuid;
      res ← outside (fetch (mkRequest (base +:+ "/v1/oauth2/token") "POST"
        [("authorization", "Basic " +:+ btoa (clientId +:+ ":" +:+ clientSecret));
         ("content-type", "application/x-www-form-urlencoded"); ("paypal-request-id", uuid)]
        (BText "grant_type=client_credentials")));
      if negb (rs_ok res) then rail_throw ("paypal_oauth_failed:" +:+ Str.of_int (rs_status res))
      else
        body ← body_json res;
        access ← lift (plain (js_get body "access_token"));
        match access with
        | JStr token =>
            if negb (Str.truthy token) then rail_throw "paypal_oauth_missing_token"
            else
              let expiresInSec := match js_field body "expires_in" with
                                  | JNum n => if num_gt n 0 then n else Num.NInt 300
                                  | _ => Num.NInt 300
                                  end in
              _ ← modify (λ x, (Some (mkToken token (num_add_int (Num.scale expiresInSec 1000) now) clientId), x.2));
              mret token
        | _ => rail_throw "paypal_oauth_missing_token"
        end
  end.

(** [(body.links ?? []).find((l) => l.rel === "approve" && typeof l.href === "string")]: its href. *)
Fixpoint find_approve (links : list js) : result string (option string) :=
  match links with
  | [] => Ok None
  | l :: rest =>
      rel ← js_get l "rel";
      match rel, js_field l "href" with
      | JStr r, JStr href => if r =s? "approve" then Ok (Some href) else find_approve rest
      | _, _ => find_approve rest
      end
  end.
Definition approve_link (body : js) : result string (option string) :=
  links ← js_get body "links";
  match links with
  | JUndef | JNull => Ok None
  | JArr l => find_approve l
  | _ => Err "TypeError: (body.links ?? []).find is not a function"
  end.

Definition order_body (tenantId value : string) : js :=
  JObj ([("intent", JStr "CAPTURE");
         ("purchase_units", JArr [JObj [
            ("amount", JObj [("currency_code", JStr "USD"); ("value", JStr value)]);
            ("custom_id", JStr tenantId)]])] ++
        (if Str.truthy returnUrl && Str.truthy cancelUrl
         then [("application_context", JObj [
            ("return_url", JStr returnUrl); ("cancel_url", JStr cancelUrl);
            ("user_action", JStr "PAY_NOW"); ("shipping_preference", JStr "NO_SHIPPING")])]
         else [])).

Definition paypal_createTopUp (tenantId : string) (amountMicroUsd : MicroUsd) : M X rail_error TopUpIntent :=
  if negb (Str.truthy clientId) || negb (Str.truthy clientSecret) then
    refuse NotConfigured "PayPal client id and secret are not set"
  else if negb (Num.is_safe amountMicroUsd) || (amountMicroUsd <? MIN_TENANT_TOPUP_MICRO_USD) then
    refuse InvalidAmount
      ("amount_micro_usd must be at least " +:+ Str.of_int MIN_TENANT_TOPUP_MICRO_USD +:+ " (USD 10)")
  else
    value ← lift (microUsdToPayPalValue amountMicroUsd);
    token ← accessToken;
    uuid ← outside random_uuid;
    res ← outside (fetch (mkRequest (base +:+ "/v2/checkout/orders") "POST"
      [("authorization", "Bearer " +:+ token); ("content-type", "application/json"); ("paypal-request-id", uuid)]
      (BJson (order_body tenantId value))));
    if negb (rs_ok res) then rail_throw ("paypal_order_create_failed:" +:+ Str.of_int (rs_status res))
    else
      body ← body_json res;
      id ← lift (plain (js_get body "id"));
      approve ← lift (plain (approve_link body));
      match approve with
      | Some href =>
          if negb (Str.truthy (js_string_or_empty id)) then rail_throw "paypal_order_missing_approve_link"
          else mret (mkIntent (Some href) (js_string_or_empty id))
      | None => rail_throw "paypal_order_missing_approve_link"
      end.

Definition transmission (headers : list (string * string)) : list (string * string) :=
  [("auth_algo", header_or_empty "paypal-auth-algo" headers);
   ("cert_url", header_or_empty "paypal-cert-url" headers);
   ("transmission_id", header_or_empty "paypal-transmission-id" headers);
   ("transmission_sig", header_or_empty "paypal-transmission-sig" headers);
   ("transmission_time", header_or_empty "paypal-transmission-time" headers)].

Definition verify_body (headers : list (string * string)) (event : js) : js :=
  JObj (((λ kv, (kv.1, JStr kv.2)) <$> transmission headers) ++
        [("webhook_id", JStr webhookId); ("webhook_event", event)]).

Definition paypal_parseSettlement (request : WebhookRequest) : M X rail_error (option RailWebhookEvent) :=
  if negb (Str.truthy clientId) || negb (Str.truthy clientSecret) || negb (Str.truthy webhookId) then
    refuse NotConfigured "PayPal webhook verification is not configured"
  else if existsb (λ kv, negb (Str.truthy kv.2)) (transmission (wr_headers request)) then
    refuse Unverified "missing PayPal transmission headers"
  else
    match wr_body request with
    | None => refuse Unverified "webhook body is not JSON"
    | Some event =>
        token ← accessToken;
        uuid ← outside random_uuid;
        verify ← outside (fetch (mkRequest (base +:+ "/v1/notifications/verify-webhook-signature") "POST"
          [("authorization", "Bearer " +:+ token); ("content-type", "application/json"); ("paypal-request-id", uuid)]
          (BJson (verify_body (wr_headers request) event))));
        if negb (rs_ok verify) then
          refuse Unverified ("paypal verify returned " +:+ Str.of_int (rs_status verify))
        else
          verdict ← body_json verify;
          st ← lift (plain (js_get verdict "verification_status"));
          if negb (match st with JStr s => s =s? "SUCCESS" | _ => false end) then
            refuse Unverified "paypal webhook signature was not SUCCESS"
          else mret (railEventFromVerifiedEvent event)
    end.

(** [detail.includes(needle)] *)
Definition includes (needle s : string) : bool :=
  existsb (λ k, Str.take (String.length needle) (Str.of_chars (skipn k (Str.chars s))) =s? needle)
    (seq 0 (S (String.length s))).

Definition settlement_from_capture (order : ApprovedOrder) (cap : js) : result string SettlementEvent :=
  let capTenant := js_trimmed (js_field cap "custom_id") in
  if Str.truthy capTenant && negb (capTenant =s? tenant_ref order) then
    Err ("paypal_capture_tenant_mismatch:order=" +:+ tenant_ref order +:+ ":capture=" +:+ capTenant)
  else match usd_amount cap with
  | None => Err "paypal_capture_bad_amount"
  | Some amount =>
      let captureId := js_trimmed (js_field cap "id") in
      if negb (Str.truthy captureId) then Err "paypal_capture_missing_capture"
      else Ok (mkSettlement (tenant_ref order) amount captureId
                 (Some ("paypal capture of order " +:+ order_ref order)))
  end.

Definition paypal_captureApprovedOrder (order : ApprovedOrder) : M X rail_error CaptureOutcome :=
  if negb (Str.truthy clientId) || negb (Str.truthy clientSecret) then
    refuse NotConfigured "PayPal client id and secret are not set"
  else
    token ← accessToken;
    res ← outside (fetch (mkRequest
      (base +:+ "/v2/checkout/orders/" +:+ encodeURIComponent (order_ref order) +:+ "/capture") "POST"
      [("authorization", "Bearer " +:+ token); ("content-type", "application/json");
       ("paypal-request-id", "capture-" +:+ order_ref order)]
      (BText "{}")));
    if negb (rs_ok res) then
      if (rs_status res =? 422) && includes ALREADY_CAPTURED (rs_text res) then mret AlreadyCaptured
      else rail_throw ("paypal_order_capture_failed:" +:+ Str.of_int (rs_status res))
    else
      body ← body_json res;
      match completedCaptureFrom body with
      | None => rail_throw "paypal_capture_missing_capture"
      | Some cap => s ← lift (plain (settlement_from_capture order cap)); mret (Settled s)
      end.

Definition PayPalRail : PaymentRail X WebhookRequest :=
  mkRail "paypal" paypal_createTopUp paypal_parseSettlement paypal_captureApprovedOrder.
End rail.

(** ** Lemmas *)

Lemma two_digits c : 0 <= c < 100 → Str.pad_start 2 "0"%char (Str.of_int c) = Str.of_chars (Date.digits 2 c).
Proof. intros Hc. apply pad_digits; lia. Qed.

Lemma match_value_printed d c :
  0 <= d → 0 <= c < 100 →
  match_value (Str.of_int d +:+ "." +:+ Str.pad_start 2 "0"%char (Str.of_int c)) = Some (Num.rnd d, c).
Proof.
  intros Hd Hc. rewrite two_digits by done. destruct (of_int_spec d Hd) as [Hall Hval].
  unfold Str.all_digits in Hall. apply andb_true_iff in Hall as [Hne Hall].
  unfold Str.parse_digits in Hval. unfold match_value.
  rewrite !chars_append, chars_of_chars. change (Str.chars ".") with ["."%char].
  pose proof (digits_val_digits 2 c ltac:(cbn; lia)) as Hcv. pose proof (digits_are_digits 2 c) as Hcd.
  pose proof (digits_length 2 c) as Hcl. destruct (Date.digits 2 c) as [|c1 [|c2 [|]]]; try done.
  set (l := Str.chars (Str.of_int d)) in *.
  assert (length (l ++ ["."%char] ++ [c1; c2]) - 3 = length l)%nat as ->.
  { rewrite !length_app. cbn. lia. }
  rewrite drop_app_length, take_app_length. cbn [app]. cbn in Hcd. bool_hyps.
  rewrite Hall. assert ((length l =? 0)%nat = false) as ->.
  { unfold l. by destruct (Str.of_int d). }
  assert (Str.is_digit c1 = true ∧ Str.is_digit c2 = true) as [-> ->] by (split; [done|]; by destruct (Str.is_digit c2)).
  cbn [negb andb]. rewrite Ascii.eqb_refl. cbn [andb]. by rewrite Hval, Hcv.
Qed.

(** ** Properties *)

(** Dollars survive the trip through PayPal's text.  Every amount the rail can ask PayPal for, a
    positive safe number of micro-USD in whole cents, is printed as text that reads back as the same
    amount; anything else is refused before it is sent. *)
Theorem paypal_amount_roundtrip micro :
  match microUsdToPayPalValue micro with
  | Ok v => paypalValueToMicroUsd v = Some micro
  | Err e => e = RailError InvalidAmount
                   "amount_micro_usd must be a positive whole number of cents (1e-2 USD) in micro-USD" ∧
             ¬ (0 < micro <= Num.max_safe ∧ (10000 | micro))
  end.
Proof.
  unfold microUsdToPayPalValue, Num.is_safe.
  destruct (negb (Z.abs micro <=? Num.max_safe) || (micro <=? 0) || negb (Z.rem micro MICRO_PER_CENT =? 0)) eqn:E.
  - split; [done|]. intros [Hr Hdiv]. rewrite !orb_true_iff in E. destruct E as [[E|E]|E]; bool_hyps; [lia..|].
    apply E. apply Z.rem_divide; [done|]. exact Hdiv.
  - bool_hyps. unfold Num.max_safe in *. unfold MICRO_PER_CENT, MICRO_PER_USD in *.
    rewrite !Z.rem_mod_nonneg in * by lia.
    rewrite !num_quot_trunc by dm. unfold paypalValueToMicroUsd.
    rewrite match_value_printed by dm. unfold MICRO_PER_USD, MICRO_PER_CENT.
    assert (micro / 1000000 * 1000000 + micro mod 1000000 / 10000 * 10000 = micro) as Heq by dm.
    unfold Num.mul. rewrite (rnd_exact (micro / 1000000)) by (unfold Num.max_safe; dm).
    rewrite (rnd_exact (_ * 1000000)) by (unfold Num.max_safe; dm).
    rewrite add_exact by (unfold Num.max_safe; dm). rewrite Heq.
    unfold Num.is_safe. by rewrite (proj2 (Z.leb_le _ _)) by (unfold Num.max_safe; lia).
Qed.

Section rail_lemmas.
Context {W : Type}.
Variable fetch : HttpRequest → M W string HttpResponse.
Variable date_now : M W string Z.
Variable random_uuid : M W string string.
Variable cfg : PayPalRailConfig.

(** PayPal answered SUCCESS to a question about exactly this event. *)
Definition paypal_vouched (headers : list (string * string)) (event : js) : Prop :=
  ∃ rq w res w' verdict,
    rq_url rq = base cfg +:+ "/v1/notifications/verify-webhook-signature" ∧
    rq_body rq = BJson (verify_body cfg headers event) ∧
    fetch rq w = (Ok res, w') ∧ rs_ok res = true ∧ rs_json res = Some verdict ∧
    js_field verdict "verification_status" = JStr "SUCCESS".

(** PayPal answered the capture of this order with this completed capture. *)
Definition paypal_collected (order : ApprovedOrder) (cap : js) : Prop :=
  ∃ rq w res w' body,
    rq_url rq = base cfg +:+ "/v2/checkout/orders/" +:+ encodeURIComponent (order_ref order) +:+ "/capture" ∧
    fetch rq w = (Ok res, w') ∧ rs_ok res = true ∧ rs_json res = Some body ∧
    completedCaptureFrom body = Some cap.

Lemma outside_ok {A} (m : M W string A) x a x' : outside m x = (Ok a, x') → ∃ w', m x.2 = (Ok a, w').
Proof. unfold outside, plain. destruct (m x.2) as [[a'|e] w']; [|done]. intros [= -> _]. by eauto. Qed.

Lemma body_json_ok res (x : @X W) v x' : body_json res x = (Ok v, x') → rs_json res = Some v.
Proof. unfold body_json. destruct (rs_json res); [|done]. by intros [= ->]. Qed.

Lemma js_get_ok v k r (x : @X W) x' :
  lift (plain (js_get v k)) x = (Ok r, x') → js_field v k = r.
Proof. unfold lift, plain, js_get. destruct v; by intros [=]. Qed.

Lemma parse_verified req x ev x' :
  paypal_parseSettlement fetch date_now random_uuid cfg req x = (Ok (Some ev), x') →
  ∃ event, wr_body req = Some event ∧ paypal_vouched (wr_headers req) event ∧
           railEventFromVerifiedEvent event = Some ev.
Proof.
  unfold paypal_parseSettlement. destruct (_ || _); [done|]. destruct (existsb _ _); [done|].
  destruct (wr_body req) as [event|]; [|done]. intros H. exists event. split; [done|].
  apply M_bind_inv in H as (token & x1 & _ & H). apply M_bind_inv in H as (uuid & x2 & _ & H).
  apply M_bind_inv in H as (res & x3 & Hf & H). apply outside_ok in Hf as (w' & Hf).
  destruct (rs_ok res) eqn:Hok; [|done]. cbn [negb] in H.
  apply M_bind_inv in H as (verdict & x4 & Hj & H). apply body_json_ok in Hj.
  apply M_bind_inv in H as (st & x5 & Hst & H). apply js_get_ok in Hst.
  destruct st as [| | | |s| |]; try done. destruct (s =? "SUCCESS")%string eqn:Es; [|done]. bool_hyps. subst s.
  cbn [negb] in H. injection H as H _. split; [|done].
  eexists _, _, _, _, _. split_and!; [| |exact Hf|done|exact Hj|done]; done.
Qed.

Lemma capture_collected order x s x' :
  paypal_captureApprovedOrder fetch date_now random_uuid cfg order x = (Ok (Settled s), x') →
  ∃ cap, paypal_collected order cap ∧ settlement_from_capture order cap = Ok s.
Proof.
  unfold paypal_captureApprovedOrder. destruct (_ || _); [done|]. intros H.
  apply M_bind_inv in H as (token & x1 & _ & H).
  apply M_bind_inv in H as (res & x2 & Hf & H). apply outside_ok in Hf as (w' & Hf).
  destruct (rs_ok res) eqn:Hok; cbn [negb] in H; [|by destruct (_ && _)].
  apply M_bind_inv in H as (body & x3 & Hj & H). apply body_json_ok in Hj.
  destruct (completedCaptureFrom body) as [cap|] eqn:Hc; [|done].
  apply M_bind_inv in H as (s' & x4 & Hs & H). injection H as -> _. exists cap. split.
  - eexists _, _, _, _, _. split_and!; [|exact Hf|done|exact Hj|done]; done.
  - unfold lift, plain in Hs. destruct (settlement_from_capture order cap); [|done]. by injection Hs as ->.
Qed.
End rail_lemmas.

Lemma usd_amount_pos cap a : usd_amount cap = Some a → 0 < a.
Proof.
  unfold usd_amount. destruct (js_is_object _); [|done]. cbn [negb].
  destruct (js_field _ "currency_code") as [| | | |cur| |]; try done.
  destruct (js_field _ "value") as [| | | |v| |]; try done. destruct (cur =? "USD")%string; [|done]. cbn [negb].
  destruct (paypalValueToMicroUsd v) as [z|]; [|done]. cbn. destruct (z <=? 0) eqn:E; [done|].
  intros [= ->]. by bool_hyps.
Qed.

Lemma settlement_from_capture_inv order cap s :
  settlement_from_capture order cap = Ok s →
  se_tenant_id s = tenant_ref order ∧ se_external_ref s = js_trimmed (js_field cap "id") ∧
  se_external_ref s ≠ "" ∧ usd_amount cap = Some (se_amount_micro_usd s) ∧
  (js_trimmed (js_field cap "custom_id") = "" ∨ js_trimmed (js_field cap "custom_id") = tenant_ref order).
Proof.
  unfold settlement_from_capture. set (t := js_trimmed (js_field cap "custom_id")).
  destruct (Str.truthy t && negb (t =? tenant_ref order)%string) eqn:E; [done|].
  destruct (usd_amount cap) as [a|]; [|done]. set (cid := js_trimmed (js_field cap "id")).
  destruct (Str.truthy cid) eqn:Et; cbn [negb]; [|done]. intros [= <-].
  cbn [se_tenant_id se_external_ref se_amount_micro_usd].
  split_and!; [done|done|by intros Hz; rewrite Hz in Et|done|].
  destruct (t =? tenant_ref order)%string eqn:Eq; [right; by bool_hyps|left].
  rewrite andb_true_r in E. by destruct t.
Qed.

Lemma settlement_from_event_inv event s :
  settlementFromVerifiedEvent event = Some s →
  let cap := js_field event "resource" in
  js_field event "event_type" = JStr CAPTURE_COMPLETED ∧
  se_tenant_id s = js_trimmed (js_field cap "custom_id") ∧ se_tenant_id s ≠ "" ∧
  usd_amount cap = Some (se_amount_micro_usd s) ∧ se_external_ref s ≠ "" ∧
  (∀ id, js_field cap "id" = JStr id → id ≠ "" → se_external_ref s = id).
Proof.
  unfold settlementFromVerifiedEvent. destruct (js_is_object event); [|done]. cbn [negb].
  destruct (js_field event "event_type") as [| | | |t| |]; try done.
  destruct (t =? CAPTURE_COMPLETED)%string eqn:Et; [|done]. cbn [negb]. bool_hyps. subst t.
  set (cap := js_field event "resource"). destruct (js_is_object cap); [|done]. cbn [negb].
  set (tenant := js_trimmed (js_field cap "custom_id")). destruct (Str.truthy tenant) eqn:Etn; [|done]. cbn [negb].
  destruct (usd_amount cap) as [a|]; [|done]. cbn [mbind option_bind].
  set (r := if Str.truthy _ then _ else _). destruct (Str.truthy r) eqn:Er; [|done]. cbn [negb].
  intros [= <-]. cbn [se_tenant_id se_external_ref se_amount_micro_usd].
  split_and!; [done|done|by intros Hz; rewrite Hz in Etn|done|by intros Hz; rewrite Hz in Er|].
  intros id Hid Hne. unfold r. rewrite Hid. cbn [js_string_or_empty]. by destruct id.
Qed.

(** The two legs of one payment credit it once.  When PayPal reports a capture twice, in the
    answer to our capture call and in the later webhook, under one capture id (with no blanks
    around it) and for one tenant, whichever leg is applied first writes the row and the other
    changes nothing and succeeds. *)
Theorem capture_and_webhook_credit_once {S} `{OverageLedgerOk S} order cap event e1 e2 cid :
  settlement_from_capture order cap = Ok e1 → settlementFromVerifiedEvent event = Some e2 →
  js_field cap "id" = JStr cid → js_field (js_field event "resource") "id" = JStr cid → Str.trim cid = cid →
  js_trimmed (js_field (js_field event "resource") "custom_id") = tenant_ref order →
  ∀ first second, (first, second) = (e1, e2) ∨ (first, second) = (e2, e1) →
  ∀ r1 now1 r2 now2 (s s' : S) applied,
    applySettlement "paypal" r1 now1 first s = (Ok applied, s') →
    applySettlement "paypal" r2 now2 second s' = (Ok false, s').
Proof.
  intros H1 H2 Hc1 Hc2 Htrim Hten first second Hor r1 now1 r2 now2 s s' applied Happ.
  destruct (settlement_from_capture_inv order cap e1 H1) as (Ht1 & Hr1 & Hne & Ha1 & _).
  destruct (settlement_from_event_inv event e2 H2) as (_ & Ht2 & _ & Ha2 & _ & Hid).
  rewrite Hc1 in Hr1. cbn [js_trimmed] in Hr1. rewrite Htrim in Hr1.
  assert (se_external_ref e2 = cid) as Hr2 by (apply Hid; [done|congruence]).
  apply usd_amount_pos in Ha1, Ha2.
  assert (se_tenant_id second = se_tenant_id first ∧ se_external_ref second = se_external_ref first ∧
          0 < se_amount_micro_usd second) as (Ht & Hx & Hpos).
  { destruct Hor as [[= -> ->]|[= -> ->]]; split_and!; congruence || lia. }
  by eapply settlement_replays.
Qed.
