(* ===== verification/PaymentRoutes.v ===== *)
(** * The routes that move money in (src/index.ts)

    The PayPal webhook, the owner's top-up door, the operator's manual credit and the balance read.
    The state is the credit store [S] with the rail's world [Y]. *)

From S2P Require Export PayPalRail Ledger.
Open Scope string_scope.
Open Scope list_scope.
Open Scope Z_scope.
Open Scope plane_scope.

Inductive http_answer (A : Type) :=
| Answer (a : A)
| Refused (code : string) (status : Z).
Arguments Answer {A}.
Arguments Refused {A}.

(** [paypalRailFromEnv]: no rail without both credentials; the redirects derive from the origin. *)
Definition paypalRailFromEnv (env : PayPalEnv) (origin : string) : option PayPalRailConfig :=
  if negb (paypalCredentialsPresent env) then None
  else Some (mkPayPalConfig (default "" (PAYPAL_CLIENT_ID env)) (default "" (PAYPAL_CLIENT_SECRET env))
               (default "" (PAYPAL_WEBHOOK_ID env)) (PAYPAL_ENV env)
               (Some (origin +:+ "/?topup=done")) (Some (origin +:+ "/?topup=cancelled"))).

Section routes.
Context {S Y R : Type} `{OverageLedger S}.

Definition on_store {A} (m : M S string A) : M (S * Y) string A := λ s,
  let '(r, s') := m s.1 in (r, (s', s.2)).
(** A rail call made inside a [try]: the thrown error comes back as a value. *)
Definition try_rail {A} (m : M Y rail_error A) : M (S * Y) string (result rail_error A) := λ s,
  let '(r, y) := m s.2 in (Ok r, (s.1, y)).

Section webhook.
(** [deps.credits] is configured or not; [rowId] is [newId("led")], [now] the time text. *)
Variable rail : option (PaymentRail Y R).
Variable credits : bool.
Variable rowId now : string.

(** The last step of both legs. *)
Definition credit_settlement (id : string) (s : SettlementEvent) : M (S * Y) string (http_answer bool) :=
  catch (applied ← on_store (applySettlement id rowId now s); mret (Answer applied))
        (λ _, mret (Refused "credit_failed" 503)).

Definition paypalWebhook (request : R) : M (S * Y) string (http_answer bool) :=
  match rail with
  | None => mret (Refused "not_configured" 503)
  | Some rail =>
      if negb credits then mret (Refused "credits_unconfigured" 503)
      else
        parsed ← try_rail (parseSettlement rail request);
        match parsed with
        | Err (RailError Unverified _) => mret (Refused "unverified" 400)
        | Err (RailError NotConfigured _) => mret (Refused "not_configured" 503)
        | Err _ => mret (Refused "webhook_failed" 503)
        | Ok None => mret (Answer false)
        | Ok (Some (Settlement s)) => credit_settlement (rail_id rail) s
        | Ok (Some (Approved order)) =>
            captured ← try_rail (captureApprovedOrder rail order);
            match captured with
            | Err _ => mret (Refused "capture_failed" 503)
            | Ok AlreadyCaptured => mret (Answer false)
            | Ok (Settled s) => credit_settlement (rail_id rail) s
            end
        end
  end.
End webhook.

(** ** The owner's top-up door *)
Record TenantOwner := mkOwner { to_id : string; to_account_id : string }.

Definition topupRoute (rail : option (PaymentRail Y R)) (credits : bool)
    (tenant : option TenantOwner) (account : string) (body : js) : M (S * Y) string (http_answer TopUpIntent) :=
  match tenant with
  | None => mret (Refused "not_found" 404)
  | Some t =>
      if negb (to_account_id t =s? account) then mret (Refused "not_found" 404)
      else if negb credits then mret (Refused "credits_unconfigured" 503)
      else match rail with
      | None => mret (Refused "not_configured" 503)
      | Some rail =>
          match js_field body "amount_micro_usd" with
          | JNum (Num.NInt raw) =>
              if negb (Num.is_safe raw) || (raw <? MIN_TENANT_TOPUP_MICRO_USD)
              then mret (Refused "invalid_amount" 400)
              else
                intent ← try_rail (createTopUp rail (to_id t) raw);
                match intent with
                | Ok i => mret (Answer i)
                | Err (RailError code _) =>
                    mret (Refused (refusal_code code) (if bool_decide (code = NotConfigured) then 503 else 400))
                | Err (OtherError _) => mret (Refused "topup_failed" 503)
                end
          | _ => mret (Refused "invalid_amount" 400)
          end
      end
  end.

(** ** The operator's manual credit *)
Record ManualCredit := mkManual {
  mc_applied : bool;
  mc_amount : MicroUsd;
  mc_reference : string;
}.

Section manual.
Variable recordAdminAction : string → string → string → list (string * js) → M S string unit.
Variable credits : bool.
Variable rowId now : string.

Definition or_empty (o : option string) (s : string) : string := match o with Some x => x | None => s end.

Definition manualCreditRoute (actor : string) (authenticated : option string) (ceilingKnob : option string)
    (tenant : option TenantOwner) (body : js) : M S string (http_answer ManualCredit) :=
  if negb credits then mret (Refused "credits_unconfigured" 503)
  else match tenant with
  | None => mret (Refused "not_found" 404)
  | Some t =>
      let ceiling := default DEFAULT_MANUAL_CREDIT_CEILING_MICRO_USD (parseMicroUsd ceilingKnob) in
      match validateCreditAmount (js_field body "amount_micro_usd") ceiling with
      | inl _ => mret (Refused "invalid_amount" 400)
      | inr amount =>
          let claimed := js_trimmed (js_field body "operator") in
          let named := match authenticated with Some a => Str.truthy a | None => false end in
          if named && Str.truthy claimed && negb (claimed =s? or_empty authenticated "")
          then mret (Refused "operator_mismatch" 400)
          else
            let operator := or_empty authenticated claimed in
            let reason := js_trimmed (js_field body "reason") in
            if negb (Str.truthy operator) then mret (Refused "operator_required" 400)
            else if negb (Str.truthy reason) then mret (Refused "reason_required" 400)
            else
              let attribution := (if named then "operator_authenticated" else "operator_claimed", operator) in
              let reference := js_trimmed (js_field body "reference") in
              if negb (Str.truthy reference) then mret (Refused "reference_required" 400)
              else
                applied ← catch (a ← applySettlement "manual" rowId now
                                      (mkSettlement (to_id t) amount reference
                                         (Some (json_texts [attribution; ("reason", reason)])));
                                 mret (Some a))
                                (λ _, mret None);
                match applied with
                | None => mret (Refused "credit_failed" 503)
                | Some a =>
                    _ ← recordAdminAction actor "tenant.credit_manual" (to_id t)
                          [("amount_micro_usd", JNum (Num.NInt amount)); ("reference", JStr reference);
                           (attribution.1, JStr attribution.2); ("reason", JStr reason);
                           ("applied", JBool a); ("rail", JStr "manual")];
                    mret (Answer (mkManual a amount reference))
                end
      end
  end.
End manual.
End routes.

(** ** The balance read *)
Definition CREDIT_ACTIVITY_LIMIT : nat := 50.

Record CreditActivity := mkActivity {
  ca_balance : Balance;
  ca_ledger : list LedgerRow;
  ca_holds : list HoldRow;
  ca_truncated : bool;
}.

Definition readCreditActivity (tenant : string) : M credit_db string CreditActivity :=
  sums ← readBalanceSums tenant;
  ledger ← gets (listLedger tenant CREDIT_ACTIVITY_LIMIT);
  holds ← gets (listHolds tenant CREDIT_ACTIVITY_LIMIT);
  mret (mkActivity (balanceFromSums sums.1 sums.2 true) ledger holds
          ((CREDIT_ACTIVITY_LIMIT <=? length ledger)%nat || (CREDIT_ACTIVITY_LIMIT <=? length holds)%nat)).

(** ** Lemmas *)
Section route_lemmas.
Context {S Y R : Type} `{OverageLedgerOk S}.

Lemma try_rail_run {A} (m : M Y rail_error A) (s : S) y r y' :
  m y = (r, y') → try_rail m (s, y) = (Ok r, (s, y')).
Proof. unfold try_rail. cbn. by intros ->. Qed.

(** What crediting a settlement does, and that it always answers. *)
Lemma credit_settlement_run rowId now id e (s : S) (y : Y) :
  ∃ ans s', credit_settlement rowId now id e (s, y) = (Ok ans, (s', y)) ∧
    match ans with
    | Answer true => ledger_rows s' = ledger_rows s ++ [row_of (settlement_row id rowId now e)]
    | _ => ledger_rows s' = ledger_rows s
    end ∧
    match ans with
    | Answer applied => applySettlement id rowId now e s = (Ok applied, s')
    | Refused _ _ => True
    end.
Proof.
  unfold credit_settlement, catch, on_store, applySettlement, mbind, M_bind. cbn.
  pose proof (append_spec (settlement_row id rowId now e) s) as Hs.
  destruct (appendLedgerRow _ s) as [[r|err] s'] eqn:Ha; inversion Hs; subst; cbn;
    do 2 eexists; (split; [reflexivity|]); cbn; by rewrite ?app_nil_r.
Qed.
End route_lemmas.

(** ** Properties *)

Section paypal_routes.
Context {W S : Type} `{OverageLedgerOk S}.
Variable fetch : HttpRequest → M W string HttpResponse.
Variable date_now : M W string Z.
Variable random_uuid : M W string string.

(** C3. An unverified webhook never credits anybody.  The webhook route always answers; and if the
    ledger is not what it was, then it has gained one purchase row, PayPal answered SUCCESS about
    exactly the event in the body, and the row is either the settlement that event reports or the
    completed capture PayPal answered for the order the event approves, credited to that order's
    own tenant for the (positive) amount PayPal says it took. *)
Theorem webhook_credits_only_verified cfg credits rowId now req (s : S) y :
  let rail := PayPalRail fetch date_now random_uuid cfg in
  ∃ ans s' y', paypalWebhook (Some rail) credits rowId now req (s, y) = (Ok ans, (s', y')) ∧
    (ledger_rows s' = ledger_rows s ∨
     ∃ event e, ledger_rows s' = ledger_rows s ++ [row_of (settlement_row "paypal" rowId now e)] ∧
       wr_body req = Some event ∧ paypal_vouched fetch cfg (wr_headers req) event ∧
       0 < se_amount_micro_usd e ∧
       (settlementFromVerifiedEvent event = Some e ∨
        ∃ order cap, approvedFromOrderResource (js_field event "resource") = Some order ∧
          paypal_collected fetch cfg order cap ∧ settlement_from_capture order cap = Ok e ∧
          se_tenant_id e = tenant_ref order)).
Proof.
  cbn zeta. unfold paypalWebhook. set (rail := PayPalRail _ _ _ cfg).
  destruct (negb credits); [by exists (Refused "credits_unconfigured" 503), s, y; split; [|left]|].
  destruct (parseSettlement rail req y) as [r y1] eqn:Hp.
  rewrite (M_bind_ok _ _ _ _ _ (try_rail_run _ s y r y1 Hp)).
  destruct r as [[ev|]|e]; [|by do 3 eexists; split; [reflexivity|left]|
    by destruct e as [[]|]; do 3 eexists; (split; [reflexivity|left])].
  destruct (parse_verified fetch date_now random_uuid cfg req y ev y1 Hp) as (event & Hb & Hv & Hev).
  unfold railEventFromVerifiedEvent in Hev. destruct (js_is_object event); [|done]. cbn [negb] in Hev.
  destruct ev as [e|order].
  - destruct (credit_settlement_run rowId now "paypal" e s y1) as (ans & s' & Hc & Hrows & _).
    exists ans, s', y1. split; [exact Hc|].
    destruct ans as [[]|]; [|by left..]. right. exists event, e.
    assert (settlementFromVerifiedEvent event = Some e) as Hset.
    { destruct (match js_field event "event_type" with JStr t => _ | _ => _ end); [by destruct (approvedFromOrderResource _)|].
      destruct (settlementFromVerifiedEvent event); [by injection Hev as ->|done]. }
    split_and!; [done|done|done| |by left].
    destruct (settlement_from_event_inv event e Hset) as (_ & _ & _ & Ha & _). by eapply usd_amount_pos.
  - assert (approvedFromOrderResource (js_field event "resource") = Some order) as Happ.
    { destruct (match js_field event "event_type" with JStr t => _ | _ => _ end); [|by destruct (settlementFromVerifiedEvent _)].
      destruct (approvedFromOrderResource _); [by injection Hev as ->|done]. }
    destruct (captureApprovedOrder rail order y1) as [r y2] eqn:Hcap.
    rewrite (M_bind_ok _ _ _ _ _ (try_rail_run _ s y1 r y2 Hcap)).
    destruct r as [[e|]|err]; [|by do 3 eexists; split; [reflexivity|left]..].
    destruct (capture_collected fetch date_now random_uuid cfg order y1 e y2 Hcap) as (cap & Hcol & Hset).
    destruct (credit_settlement_run rowId now "paypal" e s y2) as (ans & s' & Hc & Hrows & _).
    exists ans, s', y2. split; [exact Hc|]. destruct ans as [[]|]; [|by left..]. right. exists event, e.
    destruct (settlement_from_capture_inv order cap e Hset) as (Ht & _ & _ & Ha & _).
    split_and!; [done|done|done|by eapply usd_amount_pos|]. right. by exists order, cap.
Qed.

End paypal_routes.

(** An operator's credit names who issued it and why.  The manual route credits only when the
    amount is within the ceiling and an operator, a reason and a reference are given; a credential
    that authenticates an operator is recorded as authenticated, never as a claim, and a request that
    claims to be somebody else is refused; the row credits the tenant of the path once per
    reference. *)
Theorem manual_credit_attributed {S} `{OverageLedgerOk S} audit credits rowId now actor auth knob tenant body (s : S) ans s' :
  (∀ a b c d s0, ledger_rows (exec (audit a b c d) s0) = ledger_rows s0) →
  manualCreditRoute audit credits rowId now actor auth knob tenant body s = (Ok ans, s') →
  ledger_rows s' = ledger_rows s ∨
  ∃ t a reason reference operator,
    tenant = Some t ∧ js_field body "amount_micro_usd" = JNum (Num.NInt a) ∧
    0 < a <= default DEFAULT_MANUAL_CREDIT_CEILING_MICRO_USD (parseMicroUsd knob) ∧
    reason ≠ "" ∧ reference ≠ "" ∧ operator ≠ "" ∧
    match auth with
    | Some who => operator = who ∧
        (js_trimmed (js_field body "operator") = "" ∨ js_trimmed (js_field body "operator") = who)
    | None => operator = js_trimmed (js_field body "operator")
    end ∧
    find_ledger (to_id t) ("manual:" +:+ reference) (ledger_rows s) = None ∧
    ledger_rows s' = ledger_rows s ++ [row_of (mkAppend rowId (to_id t) Purchase a None ("manual:" +:+ reference)
      None (Some reference)
      (Some (json_texts [(match auth with Some _ => "operator_authenticated" | None => "operator_claimed" end, operator);
                         ("reason", reason)])) now)].
Proof.
  intros Haudit. unfold manualCreditRoute. destruct (negb credits); [by intros [= _ ->]; left|].
  destruct tenant as [t|]; [|by intros [= _ ->]; left].
  destruct (validateCreditAmount _ _) as [m|a] eqn:Hv; [by intros [= _ ->]; left|].
  apply valid_amount in Hv as [Hamt Hr].
  set (claimed := js_trimmed (js_field body "operator")). set (reason := js_trimmed (js_field body "reason")).
  set (reference := js_trimmed (js_field body "reference")).
  set (named := match auth with Some a => Str.truthy a | None => false end).
  destruct (named && Str.truthy claimed && _) eqn:Hmis; [by intros [= _ ->]; left|].
  set (operator := or_empty auth claimed). destruct (Str.truthy operator) eqn:Hop; [|by intros [= _ ->]; left].
  destruct (Str.truthy reason) eqn:Hre; [|by intros [= _ ->]; left].
  destruct (Str.truthy reference) eqn:Href; [|by intros [= _ ->]; left]. cbn [negb].
  match goal with |- context [applySettlement "manual" rowId now ?e] =>
    set (row := settlement_row "manual" rowId now e); set (st := e) end.
  intros Hrun. apply M_bind_inv in Hrun as (applied & s1 & Hcatch & Hbind).
  assert (match appendLedgerRow row s with
          | (Ok w, s1) => (Ok (Some (r_applied w)), s1)
          | (Err _, s1) => (Ok None, s1)
          end = (Ok applied, s1) :> result string (option bool) * S) as Happ.
  { rewrite <- Hcatch. unfold catch, applySettlement, mbind, M_bind, mret, M_ret.
    change (settlement_row "manual" rowId now st) with row.
    by destruct (appendLedgerRow row s) as [[w|e] s2]. }
  pose proof (append_spec row s) as Hs.
  destruct (appendLedgerRow row s) as [[w|e] s1'] eqn:Ha; injection Happ as <- <-;
    [|inversion Hs; subst; injection Hbind as _ <-; by left].
  apply M_bind_inv in Hbind as ([] & s2 & Haud & Hfin). injection Hfin as _ <-.
  assert (ledger_rows s2 = ledger_rows s1') as Hs2.
  { pose proof (f_equal snd Haud) as Hex. cbn in Hex. rewrite <- Hex. apply Haudit. }
  rewrite Hs2. inversion Hs as [|x Hx|s3 Hf Hck Hrows]; subst; [by left|right].
  exists t, a, reason, reference, operator.
  split_and!; try done; try (by intros Hz; first [rewrite Hz in Hop|rewrite Hz in Hre|rewrite Hz in Href]); try lia.
  - unfold operator, named in *. destruct auth as [who|]; cbn [or_empty] in *; [|done]. split; [done|].
    rewrite Hop in Hmis. cbn [andb] in Hmis. destruct (claimed =s? who) eqn:Ec; [right; by bool_hyps|left].
    rewrite andb_true_r in Hmis. by destruct claimed.
  - rewrite Hrows. unfold row, settlement_row, settlement_ref. cbn. unfold operator, named in *.
    destruct auth as [who|]; cbn [or_empty] in *; [by rewrite Hop|done].
Qed.
