(* ===== verification/CreditViews.v ===== *)
(** * The credit statement (src/credits-api.ts)

    The tenant's and the operator's projections of a ledger and its holds, and the two routes of
    src/index.ts that serve them. *)

From S2P Require Export PaymentRoutes.
From Stdlib Require Import Sorting.Sorted.
Open Scope string_scope.
Open Scope list_scope.
Open Scope Z_scope.
Open Scope plane_scope.

Inductive ActivityKind :=
| LinePurchase | LineCharge | LineNoChargeFailed | LineReserved | LineRefund | LineAdjustment.

#[export] Instance ActivityKind_eq_dec : EqDecision ActivityKind.
Proof. solve_decision. Defined.

Record ActivityLine := mkLine {
  al_id : string;
  al_kind : ActivityKind;
  al_delta : MicroUsd;
  al_job_ref : option string;
  al_occurred_at : string;
  al_no_charge_reason : option string;
}.

Record TenantCreditView := mkCreditView {
  credits_apply : bool;
  topup_available : bool;
  view_settled : MicroUsd;
  view_held : MicroUsd;
  view_available : MicroUsd;
  view_complete : bool;
  enforcing : bool;
  enforcement_configured : bool;
  enforcement_reason : option string;
  activity : list ActivityLine;
  activity_truncated : bool;
}.

Record AdminCreditView := mkAdminView {
  av_base : TenantCreditView;
  cost_known_micro_usd : MicroUsd;
  charges_missing_cost : nat;
  price_to_cost : option Num.num;
}.

Definition creditsApplyToTenant (tenant : TenantOwner) : bool := false.

Definition topUpAvailable (env : PayPalEnv) : bool :=
  is_set (PAYPAL_CLIENT_ID env) && is_set (PAYPAL_CLIENT_SECRET env) && is_set (PAYPAL_WEBHOOK_ID env).

(** The argument object both builders take. *)
Record ViewArgs := mkViewArgs {
  va_balance : Balance;
  va_ledger : list LedgerRow;
  va_holds : list HoldRow;
  va_enforcement : EnforcementState;
  va_truncated : bool;
  va_creditsApply : bool;
  va_topUpAvailable : bool;
}.

Definition ledger_line (row : LedgerRow) : ActivityLine :=
  mkLine (l_id row)
    (match l_kind row with Debit => LineCharge | Purchase => LinePurchase | Refund => LineRefund | Adjustment => LineAdjustment end)
    (l_delta row) None (l_created_at row) None.

(** The second loop: nothing for a captured hold. *)
Definition hold_line (hold : HoldRow) : option ActivityLine :=
  match h_status hold with
  | HoldCaptured => None
  | HoldOpen => Some (mkLine (h_id hold) LineReserved 0 (Some (h_job_ref hold)) (h_created_at hold) None)
  | HoldReleased | HoldExpired =>
      Some (mkLine (h_id hold) LineNoChargeFailed 0 (Some (h_job_ref hold))
              (default (h_created_at hold) (h_settled_at hold))
              (Some (match h_status hold with
                     | HoldExpired => "this job never reported back, so the reservation was returned and you were not charged"
                     | _ => "this job did not complete, so you were not charged for it"
                     end)))
  end.

(** The comparator given to [sort], and the sort. *)
Definition activity_cmp (a b : ActivityLine) : Z :=
  if al_occurred_at a =s? al_occurred_at b then (if al_id a <s? al_id b then 1 else -1)
  else if al_occurred_at a <s? al_occurred_at b then 1 else -1.
Definition sort_activity : list ActivityLine → list ActivityLine := order_by (λ a b, activity_cmp a b <=? 0).

Definition activity_lines (ledger : list LedgerRow) (holds : list HoldRow) : list ActivityLine :=
  (ledger_line <$> ledger) ++ omap hold_line holds.

Definition buildTenantCreditView (args : ViewArgs) : TenantCreditView :=
  mkCreditView (va_creditsApply args) (va_topUpAvailable args)
    (settled_micro_usd (va_balance args)) (held_micro_usd (va_balance args)) (available_micro_usd (va_balance args))
    (complete (va_balance args))
    (applied (va_enforcement args)) (configured (va_enforcement args)) (reason (va_enforcement args))
    (sort_activity (activity_lines (va_ledger args) (va_holds args)))
    (va_truncated args).

(** The accumulators of the cost loop: known cost, price over it, debits without cost. *)
Record CostTally := mkTally { ct_cost : MicroUsd; ct_price : MicroUsd; ct_missing : nat }.

Definition tally_cost (t : CostTally) (row : LedgerRow) : CostTally :=
  if negb (bool_decide (l_kind row = Debit)) then t
  else match l_cost row with
  | None => mkTally (ct_cost t) (ct_price t) (S (ct_missing t))
  | Some c => mkTally (Num.add (ct_cost t) c) (Num.add (ct_price t) (Z.abs (l_delta row))) (ct_missing t)
  end.

Definition buildAdminCreditView (args : ViewArgs) : AdminCreditView :=
  let t := fold_left tally_cost (va_ledger args) (mkTally 0 0 0) in
  mkAdminView (buildTenantCreditView args) (ct_cost t) (ct_missing t)
    (if 0 <? ct_cost t then Some (num_quot (ct_price t) (ct_cost t)) else None).

(** ** The routes *)
Definition view_args (read : CreditActivity) (knob : option string) (tenant : TenantOwner) (env : PayPalEnv) : ViewArgs :=
  mkViewArgs (ca_balance read) (ca_ledger read) (ca_holds read) (creditsEnforcementState knob) (ca_truncated read)
    (creditsApplyToTenant tenant) (topUpAvailable env).

(** [GET /api/tenant/:id/credits]: [credits] says whether the store is configured. *)
Definition tenantCreditsRoute (credits : bool) (knob : option string) (env : PayPalEnv)
    (tenant : option TenantOwner) (account : string) : M credit_db string (http_answer TenantCreditView) :=
  match tenant with
  | None => mret (Refused "not_found" 404)
  | Some t =>
      if negb (to_account_id t =s? account) then mret (Refused "not_found" 404)
      else if negb credits then mret (Refused "credits_unconfigured" 503)
      else catch (read ← readCreditActivity (to_id t); mret (Answer (buildTenantCreditView (view_args read knob t env))))
                 (λ _, mret (Refused "balance_unreadable" 503))
  end.

(** [GET /api/admin/tenants/:id/credits]: the read is audited before it is made. *)
Definition adminCreditsRoute (auditTenantRead : string → M credit_db string unit) (credits : bool)
    (knob : option string) (env : PayPalEnv) (tenant : option TenantOwner) :
    M credit_db string (http_answer AdminCreditView) :=
  if negb credits then mret (Refused "credits_unconfigured" 503)
  else match tenant with
  | None => mret (Refused "not_found" 404)
  | Some t =>
      _ ← auditTenantRead (to_id t);
      catch (read ← readCreditActivity (to_id t); mret (Answer (buildAdminCreditView (view_args read knob t env))))
            (λ _, mret (Refused "balance_unreadable" 503))
  end.

(** ** Lemmas *)

(** The comparator's relation: not strictly older. *)
Definition newer_or_same (a b : ActivityLine) : bool := activity_cmp a b <=? 0.
Definition line_key (a : ActivityLine) : string * string := (al_occurred_at a, al_id a).

Lemma newer_or_same_desc a b : newer_or_same a b = desc_le (line_key a) (line_key b).
Proof.
  unfold newer_or_same, activity_cmp, desc_le, line_key. cbn.
  destruct (al_occurred_at a =s? al_occurred_at b) eqn:E.
  - apply String.eqb_eq in E as ->. rewrite ltb_irrefl. cbn.
    unfold Str.leb. by destruct (al_id a <s? al_id b).
  - rewrite orb_false_r. destruct (al_occurred_at a <s? al_occurred_at b) eqn:E1.
    + destruct (al_occurred_at b <s? al_occurred_at a) eqn:E2; [|done].
      pose proof (ltb_trans _ _ _ E1 E2) as H. by rewrite ltb_irrefl in H.
    + destruct (al_occurred_at b <s? al_occurred_at a) eqn:E2; [done|].
      rewrite (ltb_total _ _ E1 E2), String.eqb_refl in E. done.
Qed.

Lemma sort_activity_perm l : sort_activity l ≡ₚ l.
Proof. apply order_by_perm. Qed.

(** The activity lines of a whole feed, ledger and holds in any order. *)
Section feed.
Context (db : credit_db) (t : string) (ledger : list LedgerRow) (holds : list HoldRow).
Hypothesis Hinv : credit_inv db.
Hypothesis Hledger : ledger ≡ₚ jfilter (λ r, l_tenant_id r =s? t) (cd_ledger db).
Hypothesis Hholds : holds ≡ₚ jfilter (λ h, h_tenant_id h =s? t) (cd_holds db).

Lemma feed_sum : sumZ al_delta (sort_activity (activity_lines ledger holds)) = settled_of t db.
Proof.
rewrite (sumZ_perm _ _ _ (sort_activity_perm _)). unfold activity_lines. rewrite sumZ_app, sumZ_map.
replace (sumZ al_delta (omap hold_line holds)) with 0.
- rewrite (sumZ_perm _ _ _ Hledger). unfold settled_of, tenant_deltas. rewrite sumZ_map, Z.add_0_r. by apply sumZ_ext.
- clear. induction holds as [|h l IH]; cbn; [done|]. unfold hold_line at 1. destruct (h_status h); cbn; by rewrite <- ?IH.
Qed.

(** Lines picked by a test that no ledger line passes are hold lines. *)
Lemma feed_job_lines j :
  jfilter (λ x, bool_decide (al_job_ref x = Some j)) (activity_lines ledger holds) =
  omap hold_line (jfilter (λ h, bool_decide (h_job_ref h = j)) holds).
Proof.
unfold activity_lines. rewrite jfilter_app. rewrite (proj2 (jfilter_nil_iff _ (ledger_line <$> ledger))).
- cbn [app]. clear. unfold jfilter. induction holds as [|h l IH]; cbn; [done|].
  assert (∀ x, hold_line h = Some x → al_job_ref x = Some (h_job_ref h)) as Hx.
  { unfold hold_line. destruct (h_status h); by intros x [= <-]. }
  destruct (decide (h_job_ref h = j)) as [Hj|Hj].
  + rewrite (bool_decide_eq_true_2 _ Hj). cbn. destruct (hold_line h) as [x|]; cbn; [|exact IH].
    rewrite bool_decide_eq_true_2 by (rewrite (Hx x); congruence). f_equal. exact IH.
  + rewrite (bool_decide_eq_false_2 _ Hj). destruct (hold_line h) as [x|]; cbn; [|exact IH].
    rewrite bool_decide_eq_false_2; [exact IH|]. rewrite (Hx x); congruence.
- intros x (r & -> & _)%list_elem_of_fmap. done.
Qed.

Lemma feed_job_unique h :
  h ∈ holds → jfilter (λ x, bool_decide (h_job_ref x = h_job_ref h)) holds = [h].
Proof.
intros Hh. apply (jfilter_unique h_job_ref); [|done].
assert (NoDup (h_key <$> holds)) as Hk.
{ rewrite Hholds. apply jfilter_NoDup_fmap, (ci_hkeys _ Hinv). }
assert (∀ x, x ∈ holds → h_tenant_id x = t) as Ht.
{ intros x. rewrite Hholds. intros [_ Hx]%elem_of_jfilter. by bool_hyps. }
clear Hh. revert Hk Ht. clear. induction holds as [|x l IH]; cbn; [constructor|].
intros [Hx Hnd]%NoDup_cons Ht. apply NoDup_cons. split; [|apply IH; [done|intros; apply Ht; by right]].
intros (y & Hy & Hin)%list_elem_of_fmap. apply Hx. apply list_elem_of_fmap. exists y. split; [|done].
unfold h_key. rewrite Hy, (Ht x), (Ht y); [done| |]; [by right|by left].
Qed.

Lemma feed_hold_line h :
  h ∈ cd_holds db → h_tenant_id h = t →
  jfilter (λ x, bool_decide (al_job_ref x = Some (h_job_ref h))) (sort_activity (activity_lines ledger holds)) ≡ₚ
  option_list (hold_line h).
Proof.
intros Hh Ht. assert (h ∈ holds) as Hin by (rewrite Hholds; apply elem_of_jfilter; rewrite Ht, String.eqb_refl; done).
rewrite (jfilter_perm _ _ _ (sort_activity_perm _)), feed_job_lines, (feed_job_unique h Hin). cbn. by destruct (hold_line h).
Qed.
End feed.

(** An activity read that is not truncated holds the tenant's whole feed. *)
Lemma read_activity_whole t db read db' :
  readCreditActivity t db = (Ok read, db') → ca_truncated read = false →
  db' = db ∧ ca_ledger read ≡ₚ jfilter (λ r, l_tenant_id r =s? t) (cd_ledger db) ∧
  ca_holds read ≡ₚ jfilter (λ h, h_tenant_id h =s? t) (cd_holds db).
Proof.
  unfold readCreditActivity, readBalanceSums, query, gets, mbind, M_bind, mret, M_ret.
  generalize CREDIT_ACTIVITY_LIMIT. intros limit.
  destruct (sql_sum (tenant_deltas t db)) as [s|]; [|done]. destruct (sql_sum (tenant_open_amounts t db)) as [o|]; [|done].
  intros [= <- <-]. cbn [ca_truncated ca_ledger ca_holds].
  intros [Hl%Nat.leb_gt Hh%Nat.leb_gt]%orb_false_iff.
  unfold listLedger, listHolds, order_desc in *. rewrite length_firstn in Hl, Hh.
  split_and!; [done| |]; rewrite firstn_all2 by lia; apply order_by_perm.
Qed.

(** The charges, and cost and price of those whose cost is known. *)
Definition charges (ledger : list LedgerRow) : list LedgerRow := jfilter (λ r, bool_decide (l_kind r = Debit)) ledger.
Definition known_costs (ledger : list LedgerRow) : list (Z * Z) :=
  omap (λ r, (λ c, (c, Z.abs (l_delta r))) <$> l_cost r) (charges ledger).

Lemma charges_cons r l : charges (r :: l) = if bool_decide (l_kind r = Debit) then r :: charges l else charges l.
Proof. done. Qed.
Lemma known_costs_cons r l :
  known_costs (r :: l) =
    match (if bool_decide (l_kind r = Debit) then l_cost r else None) with
    | Some c => (c, Z.abs (l_delta r)) :: known_costs l
    | None => known_costs l
    end.
Proof. unfold known_costs. rewrite charges_cons. destruct (bool_decide _); cbn; [|done]. by destruct (l_cost r). Qed.
Lemma known_price_nonneg l : 0 <= sumZ snd (known_costs l).
Proof.
  apply sumZ_nonneg. intros p (x & _ & Hx)%list_elem_of_omap. destruct (l_cost x); [|done]. injection Hx as <-. cbn. lia.
Qed.

Lemma tally_fold l t :
  Z.abs (ct_cost t) + sumZ (λ p, Z.abs p.1) (known_costs l) <= Num.max_safe →
  0 <= ct_price t → ct_price t + sumZ snd (known_costs l) <= Num.max_safe →
  let r := fold_left tally_cost l t in
  ct_cost r = ct_cost t + sumZ fst (known_costs l) ∧ ct_price r = ct_price t + sumZ snd (known_costs l) ∧
  (length (known_costs l) + ct_missing r = ct_missing t + length (charges l))%nat.
Proof.
  revert t. induction l as [|r l IH]; intros t H1 H2 H3; [cbn; split_and!; lia|].
  assert (0 <= sumZ (λ p, Z.abs p.1) (known_costs l)) as Hnn by (apply sumZ_nonneg; lia).
  pose proof (known_price_nonneg l) as Hnp.
  cbn [fold_left]. unfold tally_cost at 2 4 6. rewrite charges_cons, known_costs_cons in *.
  destruct (bool_decide (l_kind r = Debit)); cbn [negb]; [|by apply IH].
  destruct (l_cost r) as [c|]; [rewrite !sumZ_cons in *; cbn [fst snd] in *|].
  - rewrite !add_exact by lia.
    destruct (IH (mkTally (ct_cost t + c) (ct_price t + Z.abs (l_delta r)) (ct_missing t))) as (-> & -> & IH3);
      cbn [ct_cost ct_price ct_missing length] in *; [lia..|]. split_and!; lia.
  - destruct (IH (mkTally (ct_cost t) (ct_price t) (S (ct_missing t)))) as (-> & -> & IH3);
      cbn [ct_cost ct_price ct_missing length] in *; [lia..|]. split_and!; lia.
Qed.

(** ** Properties *)

(** The statement accounts for the money and for every job.  A tenant's activity feed that was
    read whole adds up to its settled balance; a job whose hold was captured appears as one charge of
    exactly the held amount and leaves no reservation line, and any other job appears on exactly one
    line of its own that moves no money, reserved while the hold is open and refunded after. *)
Theorem statement_accounts_for_every_job t db read db' knob owner env :
  credit_reachable db → readCreditActivity t db = (Ok read, db') → ca_truncated read = false →
  let feed := activity (buildTenantCreditView (view_args read knob owner env)) in
  sumZ al_delta feed = settled_of t db ∧
  ∀ h, h ∈ cd_holds db → h_tenant_id h = t →
    let of_job := jfilter (λ x, bool_decide (al_job_ref x = Some (h_job_ref h))) feed in
    if bool_decide (h_status h = HoldCaptured)
    then of_job = [] ∧
         ∃ r, debits_of (h_id h) db = [r] ∧ ledger_line r ∈ feed ∧
              al_kind (ledger_line r) = LineCharge ∧ al_delta (ledger_line r) = - h_amount h
    else ∃ line, of_job = [line] ∧ al_delta line = 0 ∧
         al_kind line = (if bool_decide (h_status h = HoldOpen) then LineReserved else LineNoChargeFailed) ∧
         (al_no_charge_reason line = None ↔ h_status h = HoldOpen).
Proof.
  intros Hr Hread Htr feed. pose proof (credit_reachable_inv _ Hr) as Hinv.
  apply read_activity_whole in Hread as (-> & Hl & Hh); [|done].
  split; [by apply feed_sum|]. intros h Hin Ht of_job.
  pose proof (feed_hold_line db t (ca_ledger read) _ Hinv Hh h Hin Ht) as Hjob. fold feed of_job in Hjob.
  destruct (bool_decide_reflect (h_status h = HoldCaptured)) as [Hc|Hc].
  - unfold hold_line in Hjob. rewrite Hc in Hjob. cbn in Hjob. apply Permutation_nil_r in Hjob. split; [done|].
    pose proof (ci_once _ Hinv h Hin) as Honce. unfold settled_once in Honce.
    rewrite bool_decide_eq_true_2 in Honce by done. destruct Honce as (r & Hd & Hpt & Hpd & Hpk & _).
    exists r. split_and!; [done| |by cbn; rewrite Hpk|done].
    unfold feed. cbn. rewrite sort_activity_perm. unfold activity_lines. apply elem_of_app. left.
    apply list_elem_of_fmap_2. rewrite Hl. apply elem_of_jfilter. rewrite Hpt, Ht, String.eqb_refl. split; [|done].
    assert (r ∈ debits_of (h_id h) db) as Hrin by (rewrite Hd; left). by apply elem_of_debits in Hrin as [? _].
  - unfold hold_line in Hjob. destruct (h_status h); [| |..]; try done; cbn in Hjob; apply Permutation_singleton_r in Hjob;
      (eexists; split; [exact Hjob|]); cbn; done.
Qed.

(** The order of the feed is total.  The feed is the lines of both lists, newest first with ties
    broken on the id, and when no two lines share both it is the only arrangement the comparator
    accepts, whatever sorting algorithm produced it: paging over it drops and repeats nothing. *)
Theorem feed_order_is_total args lines :
  let feed := activity (buildTenantCreditView args) in
  let all := activity_lines (va_ledger args) (va_holds args) in
  feed ≡ₚ all ∧ StronglySorted (λ a b, newer_or_same a b = true) feed ∧
  (NoDup (line_key <$> all) → lines ≡ₚ all → StronglySorted (λ a b, newer_or_same a b = true) lines → lines = feed).
Proof.
  assert (∀ x y : ActivityLine, newer_or_same x y = true ∨ newer_or_same y x = true) as Htot.
  { intros x y. rewrite !newer_or_same_desc. apply desc_le_total. }
  assert (∀ x y z, newer_or_same x y = true → newer_or_same y z = true → newer_or_same x z = true) as Htr.
  { intros x y z. rewrite !newer_or_same_desc. apply desc_le_trans. }
  intros feed all. split_and!; [apply sort_activity_perm|by apply order_by_sorted|].
  intros Hnd Hp Hs. apply (order_by_unique newer_or_same Htot Htr); [|done|done].
  intros x y Hx Hy. rewrite !newer_or_same_desc. intros H1 H2.
  apply (unique_eq line_key all); [done..|]. by apply desc_le_antisym.
Qed.

(** The cost side never flatters.  The ratio of price to cost is given only when some cost is
    known and positive, and then it is the price of exactly the charges whose cost is known over
    that cost; the charges without a cost are counted apart. *)
Theorem price_to_cost_is_of_known_costs args :
  let known := known_costs (va_ledger args) in
  sumZ (λ p, Z.abs p.1) known <= Num.max_safe → sumZ snd known <= Num.max_safe →
  let v := buildAdminCreditView args in
  cost_known_micro_usd v = sumZ fst known ∧
  (length known + charges_missing_cost v = length (charges (va_ledger args)))%nat ∧
  price_to_cost v = (if 0 <? sumZ fst known then Some (num_quot (sumZ snd known) (sumZ fst known)) else None).
Proof.
  intros known Hc Hp v. subst known. destruct (tally_fold (va_ledger args) (mkTally 0 0 0)) as (H1 & H2 & H3); cbn [ct_cost ct_price] in *; [rewrite Z.abs_0; lia|lia|lia|].
  subst v. unfold buildAdminCreditView. cbn [cost_known_micro_usd charges_missing_cost price_to_cost].
  rewrite H1, H2. cbn [ct_cost ct_price] in *. rewrite !Z.add_0_l. split_and!; [done|exact H3|done].
Qed.
