(* ===== verification/RunpodJobs.v ===== *)
(** * The index of RunPod jobs (src/store-d1.ts, src/runpod-job-index.ts)

    The table [runpod_job_index]: one row per job, opened by the proxy at submit, closed by a
    callback or by the sweep, and copied from a tenant's own log by the harvest.  The statements are
    here, the interface the proxy and the sweep use ([JobStore]), and what each statement preserves. *)

From S2P Require Export Sql Http.
Open Scope string_scope.
Open Scope list_scope.
Open Scope Z_scope.
Open Scope plane_scope.

(** ** The table *)
Record JobRow := mkJobRow {
  j_job_id : string;
  j_tenant_id : string;
  j_tenant_slug : string;
  j_module : option string;
  j_outcome : option string;
  j_submitted_at : option Num.num;
  j_terminal_at : option Num.num;
  j_harvested_at : string;
  j_source : option string;
  j_endpoint_id : option string;
  j_webhook_token : option string;
  j_status_raw : option string;
  j_execution_ms : option Num.num;
  j_delay_ms : option Num.num;
  j_closed_at : option string;
}.

#[export] Instance JobRow_eq_dec : EqDecision JobRow.
Proof. solve_decision. Defined.

Record HarvestedJob := mkHarvested {
  hj_job_id : string;
  hj_module : option string;
  hj_outcome : option string;
  hj_submitted_at : option Num.num;
  hj_terminal_at : option Num.num;
}.

Record ProxyJobOpen := mkJobOpen {
  po_job_id : string;
  po_tenant_id : string;
  po_tenant_slug : string;
  po_module : option string;
  po_endpoint_id : string;
  po_submitted_at : Z;
  po_webhook_token_sha256 : string;
}.

Record ProxyJobRef := mkJobRef {
  pr_job_id : string;
  pr_tenant_id : string;
  pr_endpoint_id : option string;
  pr_terminal_at : option Num.num;
}.

Record OpenProxyJob := mkOpenJob {
  oj_job_id : string;
  oj_tenant_id : string;
  oj_endpoint_id : string;
  oj_submitted_at : option Num.num;
}.

Record ProxyJobClose := mkJobClose {
  pc_job_id : string;
  pc_outcome : string;
  pc_status_raw : string;
  pc_execution_ms : option Num.num;
  pc_delay_ms : option Num.num;
  pc_terminal_at : Z;
}.

(** [COALESCE(a, b)] *)
Definition coalesce {A} (a b : option A) : option A := match a with Some _ => a | None => b end.

Definition has_job (i : string) (r : JobRow) : bool := j_job_id r =s? i.
Definition has_token (t : string) (r : JobRow) : bool := bool_decide (j_webhook_token r = Some t).
Definition is_open_row (r : JobRow) : bool := match j_terminal_at r with None => true | Some _ => false end.

(** ** The statements.  [dt] is the text of [datetime('now')]. *)

Definition harvested_row (dt tenantId tenantSlug : string) (r : HarvestedJob) : JobRow :=
  mkJobRow (hj_job_id r) tenantId tenantSlug (hj_module r) (hj_outcome r) (hj_submitted_at r) (hj_terminal_at r)
    dt (Some "harvest") None None None None None None.

(** The [DO UPDATE SET] of the harvest: the fresh value first, the origin kept. *)
Definition refresh_row (dt : string) (r : HarvestedJob) (row : JobRow) : JobRow :=
  mkJobRow (j_job_id row) (j_tenant_id row) (j_tenant_slug row)
    (coalesce (hj_module r) (j_module row)) (coalesce (hj_outcome r) (j_outcome row))
    (coalesce (hj_submitted_at r) (j_submitted_at row)) (coalesce (hj_terminal_at r) (j_terminal_at row))
    dt (coalesce (j_source row) (Some "harvest"))
    (j_endpoint_id row) (j_webhook_token row) (j_status_raw row) (j_execution_ms row) (j_delay_ms row) (j_closed_at row).

Definition index_one (dt tenantId tenantSlug : string) (r : HarvestedJob) (db : list JobRow) : list JobRow :=
  if existsb (has_job (hj_job_id r)) db
  then update_where (has_job (hj_job_id r)) (refresh_row dt r) db
  else db ++ [harvested_row dt tenantId tenantSlug r].

Definition d1_indexRunpodJobs (dt tenantId tenantSlug : string) (rows : list HarvestedJob) : M (list JobRow) string nat :=
  if (length rows =? 0)%nat then mret 0%nat
  else
    _ ← modify (λ db, fold_left (λ db r, index_one dt tenantId tenantSlug r db) rows db);
    mret (length rows).

Definition opened_row (dt : string) (r : ProxyJobOpen) : JobRow :=
  mkJobRow (po_job_id r) (po_tenant_id r) (po_tenant_slug r) (po_module r) (Some "submitted")
    (Some (Num.NInt (po_submitted_at r))) None dt (Some "proxy") (Some (po_endpoint_id r))
    (Some (po_webhook_token_sha256 r)) None None None None.

Definition reopen_row (dt : string) (r : ProxyJobOpen) (row : JobRow) : JobRow :=
  mkJobRow (j_job_id row) (po_tenant_id r) (po_tenant_slug r)
    (coalesce (po_module r) (j_module row)) (j_outcome row)
    (coalesce (j_submitted_at row) (Some (Num.NInt (po_submitted_at r)))) (j_terminal_at row)
    dt (Some "proxy") (Some (po_endpoint_id r)) (Some (po_webhook_token_sha256 r))
    (j_status_raw row) (j_execution_ms row) (j_delay_ms row) (j_closed_at row).

(** The unique index on the token refuses a token some other row holds. *)
Definition d1_openRunpodProxyJob (dt : string) (r : ProxyJobOpen) : M (list JobRow) string unit := λ db,
  if existsb (λ row, has_token (po_webhook_token_sha256 r) row && negb (has_job (po_job_id r) row)) db
  then (Err "UNIQUE constraint failed: runpod_job_index.webhook_token_sha256", db)
  else if existsb (has_job (po_job_id r)) db
  then (Ok tt, update_where (has_job (po_job_id r)) (reopen_row dt r) db)
  else (Ok tt, db ++ [opened_row dt r]).

Definition d1_findRunpodProxyJobByWebhookToken (tokenSha256 : string) : M (list JobRow) string (option ProxyJobRef) :=
  gets (λ db, (λ row, mkJobRef (j_job_id row) (j_tenant_id row) (j_endpoint_id row) (j_terminal_at row))
                <$> List.find (has_token tokenSha256) db).

Definition closes (r : ProxyJobClose) (row : JobRow) : bool := has_job (pc_job_id r) row && is_open_row row.
Definition closed_row (dt : string) (r : ProxyJobClose) (row : JobRow) : JobRow :=
  mkJobRow (j_job_id row) (j_tenant_id row) (j_tenant_slug row) (j_module row) (Some (pc_outcome r))
    (j_submitted_at row) (Some (Num.NInt (pc_terminal_at r))) (j_harvested_at row) (j_source row) (j_endpoint_id row)
    (j_webhook_token row) (Some (pc_status_raw r)) (pc_execution_ms r) (pc_delay_ms r) (Some dt).

Definition d1_closeRunpodProxyJob (dt : string) (r : ProxyJobClose) : M (list JobRow) string nat := λ db,
  (Ok (changes (closes r) db), update_where (closes r) (closed_row dt r) db).

(** [n < z] and [a <= b] on finite numbers, as the database compares them. *)
Definition num_lt_int (n : Num.num) (z : Z) : bool :=
  match n with
  | Num.NInt a => a <? z
  | Num.NFrac m e => m <? z * 2 ^ Zpos e
  | Num.NInf negative => negative
  | Num.NNaN => false
  end.
Definition num_leb (a b : Num.num) : bool :=
  let parts n := match n with Num.NInt z => Some (z, 0) | Num.NFrac m e => Some (m, Zpos e) | _ => None end in
  match parts a, parts b with
  | Some (m1, e1), Some (m2, e2) => m1 * 2 ^ e2 <=? m2 * 2 ^ e1
  | _, _ => false
  end.

(** The sweep's queue: rows the proxy opened, with an endpoint, old enough and not closed. *)
Definition sweepable (before : Z) (row : JobRow) : bool :=
  is_open_row row && bool_decide (j_source row = Some "proxy") && bool_decide (is_Some (j_endpoint_id row)) &&
  match j_submitted_at row with Some n => num_lt_int n before | None => false end.

Definition older_first (a b : JobRow) : bool :=
  match j_submitted_at a, j_submitted_at b with Some x, Some y => num_leb x y | _, _ => true end.

Definition d1_listOpenRunpodProxyJobs (before : Z) (limit : nat) : M (list JobRow) string (list OpenProxyJob) :=
  gets (λ db, (λ row, mkOpenJob (j_job_id row) (j_tenant_id row) (default "null" (j_endpoint_id row)) (j_submitted_at row))
                <$> firstn limit (order_by older_first (jfilter (sweepable before) db))).

Definition d1_countOpenRunpodProxyJobs (before : Z) : M (list JobRow) string nat :=
  gets (λ db, changes (sweepable before) db).

(** ** The harvest of a tenant's log *)
Definition TENANT_JOB_LOG_TABLE : string := "runpod_job_log".
Definition HARVEST_ROW_CAP : nat := 5000.

Record HarvestResult := mkHarvest {
  hr_complete : bool;
  hr_rows : list HarvestedJob;
  hr_tableAbsent : bool;
}.

(** [rowsOf]: the rows of each entry that has a [results] array. *)
Definition rowsOf (raw : js) : list js :=
  match raw with
  | JArr entries => concat ((λ e, match js_field e "results" with JArr rows => rows | _ => [] end) <$> entries)
  | _ => []
  end.

Definition str (v : js) : option string := match v with JStr s => if Str.truthy s then Some s else None | _ => None end.
Definition int (v : js) : option Num.num := match v with JNum n => if Num.is_finite n then Some n else None | _ => None end.

(** The loop over the rows: a row without a job id is skipped, a null row throws (its message here). *)
Fixpoint harvest_rows (l : list js) : result string (list HarvestedJob) :=
  match l with
  | [] => Ok []
  | (JUndef | JNull) as r :: _ => Err (no_properties r "job_id")
  | r :: l =>
      rest ← harvest_rows l;
      Ok (match str (js_field r "job_id") with
          | Some jobId =>
              mkHarvested jobId (str (js_field r "module")) (str (js_field r "outcome"))
                (int (js_field r "submitted_at")) (int (js_field r "terminal_at")) :: rest
          | None => rest
          end)
  end.

Definition TABLE_PROBE : string := "SELECT name FROM sqlite_master WHERE type = ?1 AND name = ?2;".
Definition LOG_READ : string :=
  "SELECT job_id, module, outcome, submitted_at, terminal_at FROM runpod_job_log ORDER BY submitted_at ASC LIMIT ?1;".

Section harvest.
Context {W E : Type}.
(** [cf.queryD1(databaseId, sql, params)]: the cloud's database API, and the errors it throws; the
    reading of a null row throws one of its own. *)
Variable queryD1 : string → string → list js → M W E js.
Variable type_error : string → E.

Definition harvestTenantJobLog (databaseId : string) (cap : nat) : M W E HarvestResult :=
  present ← queryD1 databaseId TABLE_PROBE [JStr "table"; JStr TENANT_JOB_LOG_TABLE];
  if (length (rowsOf present) =? 0)%nat then mret (mkHarvest true [] true)
  else
    answer ← queryD1 databaseId LOG_READ [JNum (Num.NInt (Z.of_nat cap + 1))];
    let raw := rowsOf answer in
    match harvest_rows (firstn cap raw) with
    | Ok rows => mret (mkHarvest (length raw <=? cap)%nat rows false)
    | Err text => throw (type_error text)
    end.
End harvest.

(** ** The interface of the proxy and the sweep

    Everything in this system is concurrent: between two statements of one handler any other handler,
    sweep or teardown may run.  [job_step] is one statement of anybody.  A store operation runs its
    statement on whatever table [others] left, and an operation that throws may or may not have run
    it; [others] is [steps job_step] for the live system and equality for a quiet one. *)
Inductive job_step : list JobRow → list JobRow → Prop :=
| step_open dt r db : job_step db (exec (d1_openRunpodProxyJob dt r) db)
| step_close dt r db : job_step db (exec (d1_closeRunpodProxyJob dt r) db)
| step_harvest dt t s rows db : job_step db (exec (d1_indexRunpodJobs dt t s rows) db).

Class JobStore (S : Type) := {
  job_rows : S → list JobRow;
  openRunpodProxyJob : ProxyJobOpen → M S string unit;
  findRunpodProxyJobByWebhookToken : string → M S string (option ProxyJobRef);
  closeRunpodProxyJob : ProxyJobClose → M S string nat;
  listOpenRunpodProxyJobs : Z → nat → M S string (list OpenProxyJob);
  countOpenRunpodProxyJobs : Z → M S string nat;
}.

Class JobStoreOk (S : Type) `{JobStore S} (others : list JobRow → list JobRow → Prop) : Prop := {
  open_runs r : runs_as others job_rows (openRunpodProxyJob r) (λ dt, d1_openRunpodProxyJob dt r);
  find_runs h : runs_as others job_rows (findRunpodProxyJobByWebhookToken h) (λ _, d1_findRunpodProxyJobByWebhookToken h);
  close_runs r : runs_as others job_rows (closeRunpodProxyJob r) (λ dt, d1_closeRunpodProxyJob dt r);
  list_runs b n : runs_as others job_rows (listOpenRunpodProxyJobs b n) (λ _, d1_listOpenRunpodProxyJobs b n);
  count_runs b : runs_as others job_rows (countOpenRunpodProxyJobs b) (λ _, d1_countOpenRunpodProxyJobs b);
}.

(** The D1 table itself, quiet, with a clock for [datetime('now')]. *)
#[export] Instance d1_jobs : JobStore (list JobRow) := {
  job_rows := id;
  openRunpodProxyJob r := d1_openRunpodProxyJob "now" r;
  findRunpodProxyJobByWebhookToken h := d1_findRunpodProxyJobByWebhookToken h;
  closeRunpodProxyJob r := d1_closeRunpodProxyJob "now" r;
  listOpenRunpodProxyJobs b n := d1_listOpenRunpodProxyJobs b n;
  countOpenRunpodProxyJobs b := d1_countOpenRunpodProxyJobs b;
}.

#[export] Instance d1_jobs_ok others : Reflexive others → JobStoreOk (list JobRow) others.
Proof. intros Hr. split; intros; exact (runs_as_quiet others _ Hr). Qed.
#[export] Instance job_steps_preorder : PreOrder (steps job_step).
Proof. split; [intros s; constructor|intros s t u; apply steps_trans]. Qed.

(** ** Lemmas *)

Definition push_step (db db' : list JobRow) : Prop :=
  (∃ dt r, db' = exec (d1_openRunpodProxyJob dt r) db) ∨ (∃ dt r, db' = exec (d1_closeRunpodProxyJob dt r) db).

(** What only the authoritative close writes, and all a close writes. *)
Definition vendor_facts (r : JobRow) := (j_status_raw r, j_execution_ms r, j_delay_ms r, j_closed_at r).
Definition terminal_facts (r : JobRow) := (vendor_facts r, j_outcome r, j_terminal_at r).

(** A statement maps the rows it finds and may add one: [g] keeps the job id. *)
Definition maps_rows (P : JobRow → JobRow → Prop) (db db' : list JobRow) : Prop :=
  ∃ g new, db' = (g <$> db) ++ new ∧ (∀ r, j_job_id (g r) = j_job_id r ∧ P r (g r)).

Lemma maps_rows_refl (P : JobRow → JobRow → Prop) db : (∀ r, P r r) → maps_rows P db db.
Proof. intros H. exists id, []. by rewrite list_fmap_id, app_nil_r. Qed.

Lemma maps_rows_trans (P : JobRow → JobRow → Prop) db1 db2 db3 :
  (∀ x y z, P x y → P y z → P x z) → maps_rows P db1 db2 → maps_rows P db2 db3 → maps_rows P db1 db3.
Proof.
  intros HP (g1 & n1 & -> & H1) (g2 & n2 & -> & H2). exists (g2 ∘ g1), ((g2 <$> n1) ++ n2). split.
  - by rewrite fmap_app, <- app_assoc, list_fmap_compose.
  - intros r. cbn. destruct (H1 r) as [E1 P1], (H2 (g1 r)) as [E2 P2]. split; [congruence|eauto].
Qed.

Lemma maps_rows_find (P : JobRow → JobRow → Prop) db db' i r :
  maps_rows P db db' → List.find (has_job i) db = Some r → ∃ r', List.find (has_job i) db' = Some r' ∧ P r r'.
Proof.
  intros (g & new & -> & Hg) Hr. exists (g r). split; [|apply Hg].
  assert (List.find (has_job i) (g <$> db) = Some (g r)) as Hf.
  { rewrite find_fmap, Hr; [done|]. intros x. unfold has_job. by rewrite (proj1 (Hg x)). }
  revert Hf. clear. induction (g <$> db) as [|x l IH]; [done|]. cbn. destruct (has_job i x); [done|exact IH].
Qed.

(** A closed row keeps [f] through the step. *)
Definition keeps {A} (f : JobRow → A) (r r' : JobRow) : Prop := is_open_row r = false → is_open_row r' = false ∧ f r' = f r.

Lemma keeps_refl {A} (f : JobRow → A) r : keeps f r r.
Proof. by intros ?. Qed.
Lemma keeps_trans {A} (f : JobRow → A) x y z : keeps f x y → keeps f y z → keeps f x z.
Proof. intros H1 H2 Hx. destruct (H1 Hx) as [Hy <-]. by apply H2. Qed.

Lemma open_maps dt r db : maps_rows (keeps terminal_facts) db (exec (d1_openRunpodProxyJob dt r) db).
Proof.
  unfold exec, d1_openRunpodProxyJob. destruct (existsb _ db); [by apply maps_rows_refl, keeps_refl|].
  destruct (existsb (has_job _) db); cbn [snd].
  - eexists _, []. rewrite app_nil_r. split; [reflexivity|]. intros x. cbn. destruct (has_job _ x); [done|].
    split; [done|apply keeps_refl].
  - exists id, [opened_row dt r]. rewrite list_fmap_id. split; [done|]. intros x. split; [done|apply keeps_refl].
Qed.

Lemma close_maps dt r db : maps_rows (keeps terminal_facts) db (exec (d1_closeRunpodProxyJob dt r) db).
Proof.
  unfold exec, d1_closeRunpodProxyJob. eexists _, []. rewrite app_nil_r. split; [reflexivity|]. intros x. cbn.
  unfold closes. destruct (has_job _ x); cbn; [|split; [done|apply keeps_refl]].
  destruct (is_open_row x) eqn:E; [|split; [done|apply keeps_refl]]. split; [done|]. intros Hx. congruence.
Qed.

Lemma harvest_maps dt t s rows db : maps_rows (keeps vendor_facts) db (exec (d1_indexRunpodJobs dt t s rows) db).
Proof.
  unfold exec, d1_indexRunpodJobs. destruct (length rows =? 0)%nat; [by apply maps_rows_refl, keeps_refl|].
  unfold modify, mbind, M_bind, mret, M_ret. cbn [snd]. revert db. induction rows as [|r rows IH]; intros db.
  - by apply maps_rows_refl, keeps_refl.
  - cbn [fold_left]. eapply maps_rows_trans; [apply keeps_trans| |apply IH]. unfold index_one.
    destruct (existsb _ db).
    + eexists _, []. rewrite app_nil_r. split; [reflexivity|]. intros x. cbn. destruct (has_job _ x); [|split; [done|apply keeps_refl]].
      split; [done|]. intros Hx. split; [|done]. unfold is_open_row in *. cbn.
      destruct (j_terminal_at x); [|done]. by destruct (hj_terminal_at r).
    + exists id, [harvested_row dt t s r]. rewrite list_fmap_id. split; [done|]. intros x. split; [done|apply keeps_refl].
Qed.

Lemma keeps_weaken r r' : keeps terminal_facts r r' → keeps vendor_facts r r'.
Proof. intros H Hx. destruct (H Hx) as [Ho Hf]. split; [done|]. exact (f_equal (λ x, x.1.1) Hf). Qed.
Lemma maps_rows_mono (P Q : JobRow → JobRow → Prop) db db' : (∀ x y, P x y → Q x y) → maps_rows P db db' → maps_rows Q db db'.
Proof. intros HPQ (g & new & -> & Hg). exists g, new. split; [done|]. intros r. destruct (Hg r). eauto. Qed.

Lemma job_step_maps db db' : job_step db db' → maps_rows (keeps vendor_facts) db db'.
Proof.
  intros [dt r|dt r|dt t s rows]; [| |apply harvest_maps].
  - eapply maps_rows_mono; [apply keeps_weaken|apply open_maps].
  - eapply maps_rows_mono; [apply keeps_weaken|apply close_maps].
Qed.
Lemma job_steps_maps db db' : steps job_step db db' → maps_rows (keeps vendor_facts) db db'.
Proof.
  induction 1 as [db|db db1 db2 Hs _ IH]; [by apply maps_rows_refl, keeps_refl|].
  eapply maps_rows_trans; [apply keeps_trans|by apply job_step_maps|done].
Qed.
Lemma push_steps_maps db db' : steps push_step db db' → maps_rows (keeps terminal_facts) db db'.
Proof.
  induction 1 as [db|db db1 db2 Hs _ IH]; [by apply maps_rows_refl, keeps_refl|].
  eapply maps_rows_trans; [apply keeps_trans| |done].
  destruct Hs as [(dt & r & ->)|(dt & r & ->)]; [apply open_maps|apply close_maps].
Qed.

(** The table's keys, and what a row the proxy opened always carries. *)
Definition proxy_row_ok (r : JobRow) : Prop :=
  j_source r = Some "proxy" → is_Some (j_endpoint_id r) ∧ is_Some (j_submitted_at r) ∧ is_Some (j_webhook_token r).
Definition jobs_ok (db : list JobRow) : Prop := NoDup (j_job_id <$> db) ∧ ∀ r, r ∈ db → proxy_row_ok r.

Lemma jobs_ok_update p f db :
  (∀ r, j_job_id (f r) = j_job_id r) → (∀ r, p r = true → proxy_row_ok r → proxy_row_ok (f r)) →
  jobs_ok db → jobs_ok (update_where p f db).
Proof.
  intros Hid Hf [Hnd Hok]. split; [by rewrite update_where_column|].
  intros r (x & Hx & ->)%elem_of_update_where. destruct (p x) eqn:E; [|by apply Hok]. apply Hf; [done|by apply Hok].
Qed.
Lemma jobs_ok_add r db :
  existsb (has_job (j_job_id r)) db = false → proxy_row_ok r → jobs_ok db → jobs_ok (db ++ [r]).
Proof.
  intros Hex Hr [Hnd Hok]. rewrite existsb_false_iff in Hex. split.
  - apply NoDup_fmap_snoc; [done|]. intros (x & Heq & Hx)%list_elem_of_fmap. specialize (Hex x Hx).
    unfold has_job in Hex. bool_hyps. congruence.
  - intros x [Hx| ->%list_elem_of_singleton]%elem_of_app; [by apply Hok|done].
Qed.

Lemma job_step_ok db db' : jobs_ok db → job_step db db' → jobs_ok db'.
Proof.
  intros Hok Hs. revert Hok. destruct Hs as [dt r d|dt r d|dt t s rows d]; intros Hok; unfold exec.
  - unfold d1_openRunpodProxyJob. destruct (existsb _ d); [done|]. destruct (existsb (has_job _) d) eqn:E; cbn [snd].
    + apply jobs_ok_update; [done| |done]. intros x _ _ _. cbn. split_and!; try done. by destruct (j_submitted_at x).
    + apply jobs_ok_add; [done| |done]. intros _. cbn. done.
  - apply jobs_ok_update; [done| |done]. intros x _ Hx. exact Hx.
  - unfold d1_indexRunpodJobs. destruct (length rows =? 0)%nat; [done|].
    unfold modify, mbind, M_bind, mret, M_ret. cbn [snd]. revert d Hok. induction rows as [|r rows IH]; intros d Hok; [done|].
    cbn [fold_left]. apply IH. unfold index_one. destruct (existsb _ d) eqn:E.
    + apply jobs_ok_update; [done| |done]. intros x _ Hx Hs. cbn in *. unfold proxy_row_ok in Hx.
      destruct (j_source x); cbn in Hs; [|done]. destruct (Hx Hs) as (? & ? & ?). split_and!; try done.
      destruct (hj_submitted_at r); [done|]. cbn. done.
    + by apply jobs_ok_add.
Qed.
Lemma job_steps_ok db db' : jobs_ok db → steps job_step db db' → jobs_ok db'.
Proof. apply steps_invariant. exact job_step_ok. Qed.
Lemma jobs_ok_empty : jobs_ok [].
Proof. split; [constructor|by intros r ?%elem_of_nil]. Qed.

Lemma find_job_row db i r : List.find (has_job i) db = Some r → j_job_id r = i ∧ r ∈ db.
Proof. intros [Hin Hi]%find_Some_elem. unfold has_job in Hi. by bool_hyps. Qed.
Lemma only_row db i r : jobs_ok db → List.find (has_job i) db = Some r → ∀ x, x ∈ db → j_job_id x = i → x = r.
Proof. intros [Hnd _] [Hi Hin]%find_job_row x Hx Hxi. apply (unique_eq j_job_id db); [done..|congruence]. Qed.

Lemma close_closed db i r dt c :
  jobs_ok db → List.find (has_job i) db = Some r → is_open_row r = false → pc_job_id c = i →
  d1_closeRunpodProxyJob dt c db = (Ok 0%nat, db).
Proof.
  intros Hok Hr Hcl Hc. assert (∀ x, x ∈ db → closes c x = false) as Hn.
  { intros x Hx. unfold closes, has_job. destruct (j_job_id x =s? pc_job_id c) eqn:E; [|done]. bool_hyps.
    rewrite (only_row db i r Hok Hr x Hx); [done|congruence]. }
  unfold d1_closeRunpodProxyJob. by rewrite changes_0, update_where_id.
Qed.

(** ** Properties *)

(** The first terminal write wins.  A closed job never reopens and is never closed again, whatever
    pushes, sweeps and harvests follow: RunPod's status, the two durations and the time of the close
    stay those of the first authoritative read, and under the proxy's own statements the outcome and
    the end time stay too. *)
Theorem first_terminal_write_wins db i r :
  jobs_ok db → List.find (has_job i) db = Some r → is_open_row r = false →
  (∀ db', steps job_step db db' →
     ∃ r', List.find (has_job i) db' = Some r' ∧ is_open_row r' = false ∧ vendor_facts r' = vendor_facts r ∧
       ∀ dt c, pc_job_id c = i → d1_closeRunpodProxyJob dt c db' = (Ok 0%nat, db')) ∧
  (∀ db', steps push_step db db' → ∃ r', List.find (has_job i) db' = Some r' ∧ terminal_facts r' = terminal_facts r).
Proof.
  intros Hok Hr Hcl. split; intros db' Hs.
  - destruct (maps_rows_find _ _ _ i r (job_steps_maps _ _ Hs) Hr) as (r' & Hr' & Hk). destruct (Hk Hcl) as [Hcl' Hf].
    exists r'. split_and!; [done..|]. intros dt c Hc. by apply (close_closed db' i r'); [apply (job_steps_ok db)|..].
  - destruct (maps_rows_find _ _ _ i r (push_steps_maps _ _ Hs) Hr) as (r' & Hr' & Hk). destruct (Hk Hcl) as [_ Hf].
    by exists r'.
Qed.

(** The sweep misses no open job.  In every state the pushes, sweeps and harvests can reach, each job
    the proxy opened, submitted before the cut-off and not closed, is in the sweep's queue when the
    cap allows, the queue holds nothing else, and the reported count is the size of the whole queue. *)
Theorem sweep_queue_is_complete db before limit :
  steps job_step [] db →
  let due r := j_source r = Some "proxy" ∧ j_terminal_at r = None ∧ ∃ n, j_submitted_at r = Some n ∧ num_lt_int n before = true in
  let queue := jfilter (sweepable before) db in
  (∀ r, r ∈ db → (due r ↔ r ∈ queue)) ∧
  (d1_countOpenRunpodProxyJobs before db).1 = Ok (length queue) ∧
  ∃ jobs, (d1_listOpenRunpodProxyJobs before limit db).1 = Ok jobs ∧ length jobs = Nat.min limit (length queue) ∧
    ((length queue <= limit)%nat → (oj_job_id <$> jobs) ≡ₚ (j_job_id <$> queue)).
Proof.
  intros Hs due queue. pose proof (job_steps_ok [] db jobs_ok_empty Hs) as [_ Hrows]. split_and!.
  - intros r Hr. unfold queue. rewrite elem_of_jfilter. unfold due, sweepable, is_open_row. specialize (Hrows r Hr). split.
    + intros (Hsrc & Hopen & n & Hn & Hlt). split; [done|]. destruct (Hrows Hsrc) as (He & _).
      by rewrite Hopen, Hn, Hlt, !bool_decide_eq_true_2.
    + intros [_ H]. bool_hyps. destruct (j_terminal_at r); [done|]. destruct (j_submitted_at r) as [n|]; [|done].
      split_and!; [done|done|by exists n].
  - done.
  - pose proof (order_by_perm older_first queue) as Hp. pose proof (Permutation_length Hp) as Hl.
    eexists. split; [reflexivity|]. fold queue. rewrite length_fmap, length_firstn, Hl. split; [done|].
    intros Hle. rewrite firstn_all2 by lia. rewrite <- list_fmap_compose. by rewrite Hp.
Qed.

(** A job of tenant A, closed as failed by the proxy's authoritative read, and an open one. *)
Definition two_jobs : list JobRow :=
  exec (d1_closeRunpodProxyJob "t2" (mkJobClose "job1" "failed" "FAILED" (Some (Num.NInt 900)) None 2000))
    (exec (d1_openRunpodProxyJob "t1" (mkJobOpen "job2" "ten_a" "a" None "ep" 1000 "tok2"))
      (exec (d1_openRunpodProxyJob "t1" (mkJobOpen "job1" "ten_a" "a" None "ep" 1000 "tok1")) [])).

(** The harvest is outside that rule.  Copying a tenant's own log rewrites the outcome and the end of
    a job the plane has already closed, even a job of another tenant, and an end time in that log
    closes a job still open, after which the authoritative facts are refused. *)
Theorem harvest_overrides_the_close :
  steps push_step [] two_jobs ∧
  let harvested := exec (d1_indexRunpodJobs "t3" "ten_b" "b"
                           [mkHarvested "job1" None (Some "completed") None (Some (Num.NInt 7));
                            mkHarvested "job2" None (Some "cancelled") None (Some (Num.NInt 7))]) two_jobs in
  ((λ r, (j_tenant_id r, j_outcome r, j_status_raw r)) <$> List.find (has_job "job1") two_jobs)
    = Some ("ten_a", Some "failed", Some "FAILED") ∧
  ((λ r, (j_tenant_id r, j_outcome r, j_terminal_at r)) <$> List.find (has_job "job1") harvested)
    = Some ("ten_a", Some "completed", Some (Num.NInt 7)) ∧
  (d1_closeRunpodProxyJob "t4" (mkJobClose "job2" "completed" "COMPLETED" (Some (Num.NInt 5000)) None 3000) harvested).1 = Ok 0%nat ∧
  ((λ r, (j_outcome r, j_execution_ms r)) <$> List.find (has_job "job2") harvested) = Some (Some "cancelled", None).
Proof.
  split.
  - unfold two_jobs. eapply steps_next; [left; do 2 eexists; reflexivity|]. eapply steps_next; [left; do 2 eexists; reflexivity|].
    apply steps_one. right. do 2 eexists. reflexivity.
  - split_and!; vm_compute; reflexivity.
Qed.
