(* ===== verification/RunpodProxy.v ===== *)
(** * The rules of the RunPod proxy

    What may be forwarded and what a status answer means (src/runpod-proxy.ts), which paths exist
    (src/runpod-proxy-route-match.ts), the URL of a poll (src/runpod-proxy-poll.ts), the tenant's
    credential (src/runpod-proxy-auth.ts) and the comparison it rests on (src/constant-time.ts).  The
    handlers that use them are in RunpodRoutes.v.  Random bytes and the keyed MAC are parameters. *)

From S2P Require Export RunpodJobs Text.
From Stdlib Require Import Ascii.
Open Scope string_scope.
Open Scope list_scope.
Open Scope Z_scope.
Open Scope plane_scope.

(** ** What may be submitted to *)
Definition RUNPOD_HOST : string := "https://api.runpod.ai".
Definition PUBLIC_ENDPOINT_ALLOWLIST : list string :=
  ["wan-2-6-i2v"; "wan-2-2-t2v-720-lora"; "minimax-hailuo-2-3-fast"; "minimax-speech-02-hd"].

Definition includes (l : list string) (s : string) : bool := existsb (String.eqb s) l.
Definition isAllowedEndpoint (endpointId : string) (poolEndpointIds : list string) : bool :=
  if negb (Str.truthy endpointId) then false
  else if includes poolEndpointIds endpointId then true
  else includes PUBLIC_ENDPOINT_ALLOWLIST endpointId.

(** ** Outcomes *)
Definition TERMINAL_STATUSES : list string := ["COMPLETED"; "FAILED"; "CANCELLED"; "TIMED_OUT"].

Inductive JobOutcome := Submitted | Completed | OutcomeFailed | Cancelled | TimedOut | Unknown.
#[export] Instance JobOutcome_eq_dec : EqDecision JobOutcome.
Proof. solve_decision. Defined.
Definition outcome_text (o : JobOutcome) : string :=
  match o with
  | Submitted => "submitted" | Completed => "completed" | OutcomeFailed => "failed"
  | Cancelled => "cancelled" | TimedOut => "timed-out" | Unknown => "unknown"
  end.

Definition outcomeForStatus (status : string) : option JobOutcome :=
  if status =s? "COMPLETED" then Some Completed
  else if status =s? "FAILED" then Some OutcomeFailed
  else if status =s? "CANCELLED" then Some Cancelled
  else if status =s? "TIMED_OUT" then Some TimedOut
  else None.

Definition isBillable (outcome : option JobOutcome) : bool := bool_decide (outcome = Some Completed).

Record TerminalFacts := mkTerminal {
  tf_jobId : string;
  tf_statusRaw : string;
  tf_outcome : JobOutcome;
  tf_executionMs : option Num.num;
  tf_delayMs : option Num.num;
}.

(** The local [num]: a finite number or null. *)
Definition finite_or_null (v : js) : option Num.num :=
  match v with JNum n => if Num.is_finite n then Some n else None | _ => None end.

Definition terminalFactsFromStatus (jobId : string) (status : js) : option TerminalFacts :=
  if negb (js_is_object status) then None
  else
    let statusRaw := js_string_or_empty (js_field status "status") in
    match outcomeForStatus statusRaw with
    | None => None
    | Some outcome =>
        Some (mkTerminal jobId statusRaw outcome
                (finite_or_null (js_field status "executionTime")) (finite_or_null (js_field status "delayTime")))
    end.

(** ** The body sent upstream *)
Inductive ProxyRefusal := EndpointNotAllowed | NotSharedMode | BadBody | UpstreamError | NoJobId.

(** [out.k = v] on a plain object: in place, or at the end. *)
Fixpoint set_field (k : string) (v : js) (l : list (string * js)) : list (string * js) :=
  match l with
  | [] => [(k, v)]
  | (k', v') :: l => if k =s? k' then (k', v) :: l else (k', v') :: set_field k v l
  end.

(** [Math.min(a, z)] *)
Definition num_min (a : Num.num) (z : Z) : Num.num := if num_gt a z then Num.NInt z else a.

Definition buildUpstreamSubmitBody (tenantBody : js) (webhookUrl : string) (clamp : option Z) : result ProxyRefusal js :=
  match tenantBody with
  | JObj src =>
      let out := set_field "webhook" (JStr webhookUrl) src in
      match clamp with
      | None => Ok (JObj out)
      | Some c =>
          let policy := match field_of src "policy" with JObj p => p | _ => [] end in
          let existing := match field_of policy "executionTimeout" with JNum n => Some n | _ => None end in
          let timeout := match existing with None => Num.NInt c | Some n => num_min n c end in
          Ok (JObj (set_field "policy" (JObj (set_field "executionTimeout" (JNum timeout) policy)) out))
      end
  | _ => Err BadBody
  end.

(** ** The callback *)
Definition mintWebhookToken (random32 : list ascii) : string := hex_bytes random32.

Definition trimTrailingSlashes (s : string) : string :=
  Str.of_chars (rev ((fix go l := match l with
                                  | c :: l' => if Ascii.eqb c "/" then go l' else l
                                  | [] => []
                                  end) (rev (Str.chars s)))).
Definition callbackUrlFor (base token : string) : string := trimTrailingSlashes base +:+ "/" +:+ token.

(** ** The paths *)
Definition PROXY_PREFIX : string := "/api/runpod".
Definition PROXY_UPSTREAM_PREFIX : string := PROXY_PREFIX +:+ "/v2".
Definition PROXY_WEBHOOK_PREFIX : string := PROXY_PREFIX +:+ "/webhook".

Inductive PassthroughOp := OpStatus | OpHealth | OpCancel.
Definition op_text (op : PassthroughOp) : string :=
  match op with OpStatus => "status" | OpHealth => "health" | OpCancel => "cancel" end.

Inductive ProxyRoute :=
| RouteSubmit (endpointId : string)
| RoutePoll (op : PassthroughOp) (endpointId : string) (jobId : option string)
| RouteWebhook (token : string)
| RouteUnknown.

(** [/^[A-Za-z0-9_-]+$/] and [/^[0-9a-f]{64}$/] *)
Definition segment_char (c : ascii) : bool :=
  let n := Str.code c in
  ((65 <=? n) && (n <=? 90) || (97 <=? n) && (n <=? 122) || (48 <=? n) && (n <=? 57) || (n =? 95) || (n =? 45))%N.
Definition SEGMENT (s : string) : bool := Str.truthy s && forallb segment_char (Str.chars s).
Definition TOKEN (s : string) : bool := (length (Str.chars s) =? 64)%nat && forallb token_char (Str.chars s).

(** The branch of the upstream prefix: [rest] is the path behind it, split at the slashes. *)
Definition match_upstream (method : string) (rest : list string) : ProxyRoute :=
  match rest with
  | [] => RouteUnknown
  | endpointId :: more =>
      if negb (Str.truthy endpointId) || negb (SEGMENT endpointId) then RouteUnknown
      else match more with
      | [op] =>
          if (op =s? "run") && (method =s? "POST") then RouteSubmit endpointId
          else if (op =s? "health") && (method =s? "GET") then RoutePoll OpHealth endpointId None
          else RouteUnknown
      | [op; jobId] =>
          if Str.truthy jobId && SEGMENT jobId then
            if (op =s? "status") && (method =s? "GET") then RoutePoll OpStatus endpointId (Some jobId)
            else if (op =s? "cancel") && (method =s? "POST") then RoutePoll OpCancel endpointId (Some jobId)
            else RouteUnknown
          else RouteUnknown
      | _ => RouteUnknown
      end
  end.

Definition matchProxyRoute (method path : string) : option ProxyRoute :=
  if negb (path =s? PROXY_PREFIX) && negb (starts_with (PROXY_PREFIX +:+ "/") path) then None
  else if starts_with (PROXY_WEBHOOK_PREFIX +:+ "/") path then
    let token := slice_from (String.length PROXY_WEBHOOK_PREFIX + 1) path in
    if (method =s? "POST") && TOKEN token then Some (RouteWebhook token) else Some RouteUnknown
  else if starts_with (PROXY_UPSTREAM_PREFIX +:+ "/") path then
    Some (match_upstream method (split "/" (slice_from (String.length PROXY_UPSTREAM_PREFIX + 1) path)))
  else Some RouteUnknown.

(** The URLs the plane asks RunPod for. *)
Definition upstreamUrlFor (op : PassthroughOp) (endpointId : string) (jobId : option string) : result string string :=
  let base := "https://api.runpod.ai/v2/" +:+ encodeURIComponent endpointId in
  match op with
  | OpHealth => Ok (base +:+ "/health")
  | _ =>
      match jobId with
      | Some j => if Str.truthy j then Ok (base +:+ "/" +:+ op_text op +:+ "/" +:+ encodeURIComponent j)
                  else Err (op_text op +:+ " requires a job id")
      | None => Err (op_text op +:+ " requires a job id")
      end
  end.
Definition submit_url (endpointId : string) : string :=
  RUNPOD_HOST +:+ "/v2/" +:+ encodeURIComponent endpointId +:+ "/run".
Definition status_url (endpointId jobId : string) : string :=
  RUNPOD_HOST +:+ "/v2/" +:+ encodeURIComponent endpointId +:+ "/status/" +:+ encodeURIComponent jobId.

(** ** The tenant's credential *)
Definition PROXY_TOKEN_PREFIX : string := "vjp1".

Section tokens.
(** [crypto.subtle.sign("HMAC", key, message)] *)
Variable sign : string → string → list ascii.

Definition macInput (tenantId : string) : string := PROXY_TOKEN_PREFIX +:+ "." +:+ tenantId.
Definition hmacHex (signingKey message : string) : string := hex_bytes (sign signingKey message).

Definition mintTenantProxyToken (signingKey : option string) (tenantId : string) : option string :=
  match signingKey with
  | Some k =>
      if negb (Str.truthy k) then None
      else if negb (Str.truthy tenantId) || has_dot tenantId then None
      else Some (PROXY_TOKEN_PREFIX +:+ "." +:+ tenantId +:+ "." +:+ hmacHex k (macInput tenantId))
  | None => None
  end.

Definition verifyTenantProxyToken (signingKey token : option string) : option string :=
  match signingKey, token with
  | Some k, Some t =>
      if negb (Str.truthy k) || negb (Str.truthy t) then None
      else match split "." t with
      | [prefix; tenantId; mac] =>
          if negb (prefix =s? PROXY_TOKEN_PREFIX) || negb (Str.truthy tenantId) || negb (Str.truthy mac) then None
          else if timingSafeEqual mac (hmacHex k (macInput tenantId)) then Some tenantId else None
      | _ => None
      end
  | _, _ => None
  end.
End tokens.

(** ** Lemmas *)
Section text.
Implicit Types (s p r : string) (l w : list ascii).

Lemma segment_no_sep l : forallb segment_char l = true → no_sep "/" l.
Proof. apply forallb_weaken. intros c. destruct c as [[] [] [] [] [] [] [] []]; done. Qed.
Lemma no_dot_no_sep s : has_dot s = false → no_sep "." (Str.chars s).
Proof.
unfold has_dot, no_sep. rewrite existsb_false_iff, forallb_forall. intros H x Hx%list_elem_of_In. specialize (H x Hx).
apply negb_true_iff. by rewrite Ascii.eqb_sym.
Qed.
Lemma no_sep_no_dot s : no_sep "." (Str.chars s) → has_dot s = false.
Proof.
unfold has_dot, no_sep. rewrite existsb_false_iff, forallb_forall. intros H x Hx%list_elem_of_In. specialize (H x Hx).
apply negb_true_iff in H. by rewrite Ascii.eqb_sym.
Qed.

Lemma segment_encoded s : SEGMENT s = true → encodeURIComponent s = s.
Proof.
unfold SEGMENT, encodeURIComponent. intros [_ H]%andb_true_iff. rewrite <- (of_chars_chars s) at 2. f_equal.
induction (Str.chars s) as [|c l IH]; [done|]. cbn in *. apply andb_true_iff in H as [Hc Hl]. rewrite (IH Hl).
assert (encode_char c = [c]) as ->; [|done]. clear -Hc. destruct c as [[] [] [] [] [] [] [] []]; vm_compute in Hc |- *; done.
Qed.
End text.

(** ** The paths the proxy serves *)

(** The request of a route, and its segments. *)
Definition upstream_suffix (r : ProxyRoute) : string :=
  match r with
  | RouteSubmit e => "/" +:+ e +:+ "/run"
  | RoutePoll OpHealth e _ => "/" +:+ e +:+ "/health"
  | RoutePoll op e j => "/" +:+ e +:+ "/" +:+ op_text op +:+ "/" +:+ default "" j
  | _ => ""
  end.
Definition route_method (r : ProxyRoute) : string :=
  match r with RoutePoll OpStatus _ _ | RoutePoll OpHealth _ _ => "GET" | _ => "POST" end.
Definition route_path (r : ProxyRoute) : string :=
  match r with RouteWebhook t => PROXY_WEBHOOK_PREFIX +:+ "/" +:+ t | _ => PROXY_UPSTREAM_PREFIX +:+ upstream_suffix r end.
Definition route_ok (r : ProxyRoute) : bool :=
  match r with
  | RouteSubmit e => SEGMENT e
  | RoutePoll OpHealth e j => SEGMENT e && bool_decide (j = None)
  | RoutePoll _ e j => SEGMENT e && match j with Some j => SEGMENT j | None => false end
  | RouteWebhook t => TOKEN t
  | RouteUnknown => false
  end.

(** The URL the plane builds for a route. *)
Definition upstream_url (r : ProxyRoute) : option string :=
  match r with
  | RouteSubmit e => Some (submit_url e)
  | RoutePoll op e j => match upstreamUrlFor op e j with Ok u => Some u | Err _ => None end
  | _ => None
  end.

Lemma segment_parts s : SEGMENT s = true → Str.truthy s = true ∧ no_sep "/" (Str.chars s).
Proof. unfold SEGMENT. intros [Ht H]%andb_true_iff. split; [done|]. by apply segment_no_sep. Qed.

Lemma op_no_sep op : no_sep "/" (Str.chars op) → ∀ e j, SEGMENT e = true → SEGMENT j = true →
  split "/" (e +:+ String "/" (op +:+ String "/" j)) = [e; op; j] ∧ split "/" (e +:+ String "/" op) = [e; op].
Proof.
  intros Hop e j He Hj. apply segment_parts in He as [_ He]. apply segment_parts in Hj as [_ Hj].
  split; rewrite split_more by done; [rewrite split_more by done|]; by rewrite split_one.
Qed.

Lemma match_webhook_path m t :
  matchProxyRoute m (PROXY_WEBHOOK_PREFIX +:+ "/" +:+ t) =
    Some (if (m =s? "POST") && TOKEN t then RouteWebhook t else RouteUnknown).
Proof.
  unfold matchProxyRoute. assert (∀ p, (∃ r, PROXY_WEBHOOK_PREFIX +:+ "/" +:+ t = p +:+ r) → starts_with p (PROXY_WEBHOOK_PREFIX +:+ "/" +:+ t) = true) as Hs
    by (intros p; apply starts_with_spec).
  rewrite (Hs (PROXY_PREFIX +:+ "/")) by (by exists ("webhook/" +:+ t)). rewrite (Hs (PROXY_WEBHOOK_PREFIX +:+ "/")) by (by exists t).
  rewrite andb_false_r. change (String.length PROXY_WEBHOOK_PREFIX + 1)%nat with (String.length (PROXY_WEBHOOK_PREFIX +:+ "/")).
  rewrite <- append_assoc, slice_from_app. by destruct (_ && _).
Qed.

Lemma match_upstream_path m s :
  matchProxyRoute m (PROXY_UPSTREAM_PREFIX +:+ "/" +:+ s) = Some (match_upstream m (split "/" s)).
Proof.
  unfold matchProxyRoute. assert (∀ p, (∃ r, PROXY_UPSTREAM_PREFIX +:+ "/" +:+ s = p +:+ r) → starts_with p (PROXY_UPSTREAM_PREFIX +:+ "/" +:+ s) = true) as Hs
    by (intros p; apply starts_with_spec).
  rewrite (Hs (PROXY_PREFIX +:+ "/")) by (by exists ("v2/" +:+ s)). rewrite (Hs (PROXY_UPSTREAM_PREFIX +:+ "/")) by (by exists s).
  rewrite andb_false_r. change (String.length PROXY_UPSTREAM_PREFIX + 1)%nat with (String.length (PROXY_UPSTREAM_PREFIX +:+ "/")).
  rewrite <- append_assoc, slice_from_app. destruct (starts_with (PROXY_WEBHOOK_PREFIX +:+ "/") _) eqn:E; [|done].
  apply prefix_false in E; vm_compute in E; done.
Qed.

(** Any other path is refused, or not the proxy's. *)
Lemma match_other_path m path r :
  matchProxyRoute m path = Some r → r ≠ RouteUnknown →
  (∃ t, path = PROXY_WEBHOOK_PREFIX +:+ "/" +:+ t) ∨ (∃ s, path = PROXY_UPSTREAM_PREFIX +:+ "/" +:+ s).
Proof.
  unfold matchProxyRoute. destruct (_ && _); [done|].
  destruct (starts_with (PROXY_WEBHOOK_PREFIX +:+ "/") path) eqn:E1.
  { intros _ _. left. apply starts_with_spec in E1 as [t ->]. exists t. by rewrite append_assoc. }
  destruct (starts_with (PROXY_UPSTREAM_PREFIX +:+ "/") path) eqn:E2; [|by intros [= <-]].
  intros _ _. right. apply starts_with_spec in E2 as [s ->]. exists s. by rewrite append_assoc.
Qed.

Lemma slash_inj a b : "/" +:+ a = "/" +:+ b → a = b.
Proof. intros H. exact (f_equal (λ s, match s with String _ s => s | EmptyString => "" end) H). Qed.
Lemma match_upstream_spec m s r :
  r ≠ RouteUnknown →
  match_upstream m (split "/" s) = r ↔
    route_ok r = true ∧ m = route_method r ∧ (∀ t, r ≠ RouteWebhook t) ∧ "/" +:+ s = upstream_suffix r.
Proof.
  intros Hr. split.
  - unfold match_upstream. destruct (split "/" s) as [|e more] eqn:Hs; [by intros <-|].
    destruct (negb (Str.truthy e) || negb (SEGMENT e)) eqn:He; [by intros <-|]. bool_hyps.
    destruct more as [|op [|j [|]]]; try (by intros <-).
    + apply split_two in Hs as ->. destruct ((op =s? "run") && (m =s? "POST")) eqn:E1.
      { intros <-. bool_hyps. subst. done. }
      destruct ((op =s? "health") && (m =s? "GET")) eqn:E2; [|by intros <-].
      intros <-. bool_hyps. subst. split_and!; try done. cbn. by apply andb_true_intro.
    + apply split_three in Hs as ->. destruct (Str.truthy j && SEGMENT j) eqn:Ej; [|by intros <-]. bool_hyps.
      destruct ((op =s? "status") && (m =s? "GET")) eqn:E1.
      { intros <-. bool_hyps. subst. split_and!; try done. cbn. by apply andb_true_intro. }
      destruct ((op =s? "cancel") && (m =s? "POST")) eqn:E2; [|by intros <-].
      intros <-. bool_hyps. subst. split_and!; try done. cbn. by apply andb_true_intro.
  - intros (Hok & -> & Hw & Hs). destruct r as [e|op e j|t|]; [| |by destruct (Hw t)|done].
    + apply slash_inj in Hs as ->. cbn in Hok. pose proof (segment_parts _ Hok) as [Ht _].
      rewrite (proj2 (op_no_sep "run" eq_refl e e Hok Hok)). unfold match_upstream. by rewrite Ht, Hok.
    + destruct op, j as [j|]; cbn in Hok; rewrite ?andb_false_r in Hok; try done; apply andb_true_iff in Hok as [He Hj]; try done;
        apply slash_inj in Hs as ->; pose proof (segment_parts _ He) as [Ht _];
        match goal with |- match_upstream _ (split "/" ?x) = RoutePoll ?o _ ?w =>
          assert (split "/" x = e :: op_text o :: match w with Some j => [j] | None => [] end) as ->
            by (first [exact (proj1 (op_no_sep (op_text o) eq_refl e j He Hj))|exact (proj2 (op_no_sep (op_text o) eq_refl e e He He))]) end;
        unfold match_upstream; rewrite Ht, He; [|done|];
        pose proof (segment_parts _ Hj) as [-> _]; by rewrite Hj.
Qed.

(** The proxy serves five requests and forwards them unchanged.  A path is a route exactly when its
    method and path are the submit, status, cancel or health of well-formed segments, or the callback
    of a well-formed token; anything else under the prefix is refused by the proxy itself and only a
    path outside it falls through.  The URL asked of RunPod is RunPod's base with the very suffix the
    tenant sent. *)
Theorem proxy_routes_are_closed method path :
  (∀ r, r ≠ RouteUnknown →
     (matchProxyRoute method path = Some r ↔ route_ok r = true ∧ method = route_method r ∧ path = route_path r)) ∧
  (matchProxyRoute method path = None ↔ path ≠ PROXY_PREFIX ∧ ∀ s, path ≠ PROXY_PREFIX +:+ "/" +:+ s) ∧
  (∀ r u, route_ok r = true → upstream_url r = Some u → u = RUNPOD_HOST +:+ "/v2" +:+ upstream_suffix r).
Proof.
  split_and!.
  - intros r Hr. split.
    + intros H. destruct (match_other_path _ _ _ H Hr) as [[t ->]|[s ->]].
      * rewrite match_webhook_path in H. injection H as <-. destruct ((method =s? "POST") && TOKEN t) eqn:E; [|done].
        bool_hyps. by subst.
      * rewrite match_upstream_path in H. injection H as H. apply match_upstream_spec in H as (Hok & Hm & Hw & Hs); [|done].
        split; [done|]. split; [done|]. rewrite Hs. destruct r as [| |t|]; [done|done|by destruct (Hw t)|done].
    + intros (Hok & -> & ->). destruct r as [e|op e j|t|]; cbn [route_path].
      * change (upstream_suffix (RouteSubmit e)) with ("/" +:+ (e +:+ "/run")). rewrite match_upstream_path. f_equal.
        apply match_upstream_spec; [done|]. by split_and!.
      * assert (∃ s, upstream_suffix (RoutePoll op e j) = "/" +:+ s) as [s Hs] by (destruct op; by eexists).
        rewrite Hs, match_upstream_path. f_equal. apply match_upstream_spec; [done|]. by split_and!.
      * rewrite match_webhook_path. cbn in Hok. by rewrite Hok.
      * done.
  - unfold matchProxyRoute. destruct (starts_with (PROXY_PREFIX +:+ "/") path) eqn:E.
    + rewrite andb_false_r. apply starts_with_spec in E as [s ->]. split; [by repeat case_match|].
      intros [_ H]. by destruct (H s).
    + rewrite andb_true_r. destruct (path =s? PROXY_PREFIX) eqn:Ep; cbn [negb]; bool_hyps.
      * split; [by repeat case_match|]. by intros [H _].
      * split; [|done]. intros _. split; [done|]. intros s ->. by rewrite (proj2 (starts_with_spec _ _)) in E by (by exists s).
  - intros r u Hok Hu. destruct r as [e|op e j|t|]; cbn in Hu; [| |done..].
    + injection Hu as <-. unfold submit_url. cbn in Hok. by rewrite (segment_encoded e Hok).
    + destruct op, j as [j|]; cbn in Hok, Hu; rewrite ?andb_false_r in Hok; try done; apply andb_true_iff in Hok as [He Hj];
        rewrite (segment_encoded e He) in Hu; try done; try (rewrite (segment_encoded j Hj) in Hu; destruct (Str.truthy j); [|done]);
        injection Hu as <-; cbn; by rewrite ?append_assoc.
Qed.

Lemma trim_slashes_plain s c l : rev (Str.chars s) = c :: l → Ascii.eqb c "/" = false → trimTrailingSlashes s = s.
Proof. intros H Hc. unfold trimTrailingSlashes. rewrite H, Hc, <- H, rev_involutive. apply of_chars_chars. Qed.

(** RunPod's callback reaches the job it was minted for.  The URL put into a submit body is the
    plane's origin followed by a path that the router reads back as the callback of that very token. *)
Theorem callback_url_roundtrip origin random32 :
  length random32 = 32%nat →
  ∃ path, callbackUrlFor (origin +:+ PROXY_WEBHOOK_PREFIX) (mintWebhookToken random32) = origin +:+ path ∧
    matchProxyRoute "POST" path = Some (RouteWebhook (mintWebhookToken random32)).
Proof.
  intros Hl. exists (PROXY_WEBHOOK_PREFIX +:+ "/" +:+ mintWebhookToken random32). split.
  - unfold callbackUrlFor. rewrite <- (append_assoc origin). f_equal.
    eapply trim_slashes_plain; [rewrite chars_append, rev_app_distr; reflexivity|done].
  - rewrite match_webhook_path. unfold TOKEN, mintWebhookToken. rewrite hex_bytes_token, hex_bytes_length, Hl. done.
Qed.

(** C33. A credential is valid exactly for the tenant it was minted for.  Verification accepts a token
    and names a tenant precisely when minting for that tenant gives that token, so no other text
    authenticates it, two tenants never share a token, and a plane without a key mints nothing and
    accepts nothing. *)
Theorem proxy_token_exact sign key :
  (∀ k m, length (sign k m) = 32%nat) →
  (∀ token tenant, verifyTenantProxyToken sign key (Some token) = Some tenant ↔ mintTenantProxyToken sign key tenant = Some token) ∧
  (∀ t1 t2 token, mintTenantProxyToken sign key t1 = Some token → mintTenantProxyToken sign key t2 = Some token → t1 = t2) ∧
  verifyTenantProxyToken sign key None = None ∧
  (default "" key = "" → ∀ token tenant, verifyTenantProxyToken sign key token = None ∧ mintTenantProxyToken sign key tenant = None).
Proof.
  intros Hsig.
  assert (∀ token tenant, verifyTenantProxyToken sign key (Some token) = Some tenant ↔ mintTenantProxyToken sign key tenant = Some token) as Hiff.
  { intros token tenant. unfold verifyTenantProxyToken, mintTenantProxyToken. destruct key as [k|]; [|done].
    destruct (Str.truthy k) eqn:Hk; cbn [negb orb]; [|done]. split.
    - destruct (negb (Str.truthy token)); [done|]. destruct (split "." token) as [|p [|t [|mac []]]] eqn:Hs; try done.
      destruct (negb (p =s? PROXY_TOKEN_PREFIX) || _ || _) eqn:E; [done|]. bool_hyps. subst p. rewrite timingSafeEqual_eq.
      destruct (mac =s? _) eqn:Em; [|done]. intros [= ->]. bool_hyps.
      destruct (split_parts _ _ _ _ Hs) as (_ & s' & -> & Hs'). destruct (split_parts _ _ _ _ Hs') as (Hdot & s'' & -> & Hs'').
      rewrite (no_sep_no_dot _ Hdot). apply split_end in Hs'' as ->. subst mac.
      match goal with H : Str.truthy tenant = true |- _ => rewrite H end. done.
    - destruct (negb (Str.truthy tenant) || has_dot tenant) eqn:E; [done|]. bool_hyps. intros [= <-]. cbn [Str.truthy negb].
      change (split "." (PROXY_TOKEN_PREFIX +:+ "." +:+ tenant +:+ "." +:+ hmacHex sign k (macInput tenant)))
        with (split "." (PROXY_TOKEN_PREFIX +:+ String "." (tenant +:+ String "." (hmacHex sign k (macInput tenant))))).
      rewrite split_more, split_more, split_one by (done || (by apply no_dot_no_sep) || apply token_no_sep, hex_bytes_token).
      assert (Str.truthy (hmacHex sign k (macInput tenant)) = true) as Hm.
      { pose proof (hex_bytes_length (sign k (macInput tenant))) as Hl. rewrite Hsig in Hl. unfold hmacHex.
        by destruct (hex_bytes _). }
      match goal with H : Str.truthy tenant = true |- _ => rewrite H end. by rewrite Hm, timingSafeEqual_eq, !String.eqb_refl. }
  split_and!; [exact Hiff| |by destruct key|].
  - intros t1 t2 token H1%Hiff H2%Hiff. congruence.
  - intros Hk token tenant. unfold verifyTenantProxyToken, mintTenantProxyToken. destruct key as [k|]; [|done]. cbn in Hk. subst k.
    by destruct token.
Qed.

(** ** Bodies and facts *)
Lemma field_set k v l k' : field_of (set_field k v l) k' = if k' =s? k then v else field_of l k'.
Proof.
  induction l as [|[k0 v0] l IH]; cbn; [reflexivity|]. destruct (String.eqb_spec k k0) as [<-|Hne]; cbn.
  - by destruct (k' =s? k).
  - rewrite IH. destruct (String.eqb_spec k' k0) as [->|]; [|done]. by rewrite (proj2 (String.eqb_neq k0 k)) by congruence.
Qed.

Lemma submit_body_ours_webhook body url :
  match buildUpstreamSubmitBody body url None with Ok out => js_field out "webhook" = JStr url | Err _ => True end.
Proof. destruct body; try done. cbn. by rewrite field_set. Qed.

(** A tenant cannot redirect the terminal signal nor raise the ceiling.  The body sent upstream
    always carries the plane's own callback, whatever the tenant wrote; every other field is the
    tenant's, except that under a ceiling the timeout is the smaller of the two; a body that is not an
    object is refused. *)
Theorem submit_body_is_ours body url clamp :
  match buildUpstreamSubmitBody body url clamp with
  | Ok out =>
      (∃ src, body = JObj src) ∧ js_field out "webhook" = JStr url ∧
      (∀ k, k ≠ "webhook" → (clamp = None ∨ k ≠ "policy") → js_field out k = js_field body k) ∧
      ∀ c, clamp = Some c → ∃ n, js_field (js_field out "policy") "executionTimeout" = JNum n ∧ num_gt n c = false ∧
        (∀ asked, js_field (js_field body "policy") "executionTimeout" = JNum asked → num_gt asked c = false → n = asked)
  | Err e => e = BadBody ∧ ∀ src, body ≠ JObj src
  end.
Proof.
  destruct body as [| | | | | |src]; try (by split). cbn [buildUpstreamSubmitBody]. destruct clamp as [c|].
  - assert (num_gt (Num.NInt c) c = false) as Hc by (cbn; lia).
    split_and!; [by eexists|by cbn; rewrite !field_set| |].
    + intros k Hk [?|Hp]; [done|]. cbn. rewrite !field_set, (proj2 (String.eqb_neq k "policy")), (proj2 (String.eqb_neq k "webhook")) by congruence. done.
    + intros ? [= <-]. cbn. rewrite field_set. cbn. rewrite field_set. cbn. eexists. split; [reflexivity|].
      assert (∀ v, js_field v "executionTimeout" = field_of (match v with JObj p => p | _ => [] end) "executionTimeout") as Hf
        by (intros []; done). rewrite Hf. destruct (field_of _ "executionTimeout") as [| | |n| | |]; try (by split).
      unfold num_min. split; [by destruct (num_gt n c) eqn:E|]. intros asked [= ->] Ha. by rewrite Ha.
  - split_and!; [by eexists|by cbn; rewrite field_set| |done].
    intros k Hk _. cbn. by rewrite field_set, (proj2 (String.eqb_neq k "webhook")) by congruence.
Qed.

Lemma terminal_facts_job jobId status :
  match terminalFactsFromStatus jobId status with Some f => tf_jobId f = jobId | None => True end.
Proof. unfold terminalFactsFromStatus. destruct (negb _); [done|]. by destruct (outcomeForStatus _). Qed.

Lemma outcome_completed s : outcomeForStatus s = Some Completed ↔ s = "COMPLETED".
Proof.
  unfold outcomeForStatus. destruct (String.eqb_spec s "COMPLETED"); [by split|]. split; [|done].
  by repeat case_match.
Qed.

(** Terminal means one of RunPod's four terminal statuses.  A status answer yields facts exactly
    then, under the matching outcome; only a completed job is billable, and a duration RunPod did not
    report as a finite number is recorded as unknown, never as zero. *)
Theorem terminal_facts_sound jobId status :
  match terminalFactsFromStatus jobId status with
  | Some f =>
      tf_jobId f = jobId ∧ js_field status "status" = JStr (tf_statusRaw f) ∧ includes TERMINAL_STATUSES (tf_statusRaw f) = true ∧
      outcomeForStatus (tf_statusRaw f) = Some (tf_outcome f) ∧
      (isBillable (Some (tf_outcome f)) = true ↔ tf_statusRaw f = "COMPLETED") ∧
      (∀ n, tf_executionMs f = Some n ↔ js_field status "executionTime" = JNum n ∧ Num.is_finite n = true) ∧
      (∀ n, tf_delayMs f = Some n ↔ js_field status "delayTime" = JNum n ∧ Num.is_finite n = true)
  | None => ∀ s, js_field status "status" = JStr s → includes TERMINAL_STATUSES s = false
  end.
Proof.
  assert (∀ v n, finite_or_null v = Some n ↔ v = JNum n ∧ Num.is_finite n = true) as Hfin.
  { intros v n. unfold finite_or_null. destruct v as [| | |m| | |]; try (by split; [|intros [[=] _]]).
    destruct (Num.is_finite m) eqn:E; split; [by intros [= <-]|by intros [[= <-] _]|done|intros [[= ->] ?]; congruence]. }
  assert (∀ s, includes TERMINAL_STATUSES s = bool_decide (is_Some (outcomeForStatus s))) as Hterm.
  { intros s. unfold includes, TERMINAL_STATUSES, outcomeForStatus. cbn [existsb]. repeat (destruct (s =s? _); [done|]). done. }
  unfold terminalFactsFromStatus. destruct (js_is_object status) eqn:Ho; cbn [negb].
  - destruct (outcomeForStatus (js_string_or_empty (js_field status "status"))) as [o|] eqn:E.
    + cbn [tf_jobId tf_statusRaw tf_outcome tf_executionMs tf_delayMs].
      assert (js_field status "status" = JStr (js_string_or_empty (js_field status "status"))) as Hs.
      { destruct (js_field status "status"); try (vm_compute in E; discriminate). done. }
      split_and!; [done|done| |done| |by intros; apply Hfin|by intros; apply Hfin].
      * by rewrite Hterm, E, bool_decide_eq_true_2 by (by eexists).
      * unfold isBillable. rewrite bool_decide_eq_true, <- E. apply outcome_completed.
    + intros s Hs. rewrite Hs in E. cbn in E. by rewrite Hterm, E.
  - intros s Hs. by destruct status.
Qed.
