(* ===== verification/RunpodPool.v ===== *)
(** * The shared endpoint pool and the scope of a key

    The plan of capabilities (src/runpod.ts, src/satellite-pins.ts), the reading of the pool variable
    (src/runpod-pool.ts), and the two probes of an invoke key (src/runpod-invoke-key.ts,
    src/shared-pool-scope.ts).  [JSON.parse] and the network are parameters.  A refusal of the pool
    reader keeps what its text names. *)

From S2P Require Export RunpodProxy Tenants.
From Stdlib Require Import Ascii.
Open Scope string_scope.
Open Scope list_scope.
Open Scope Z_scope.
Open Scope plane_scope.

(** ** The plan *)
Inductive SatelliteKey := Backend | Upscale | WanTrain.
#[export] Instance SatelliteKey_eq_dec : EqDecision SatelliteKey.
Proof. solve_decision. Defined.
Definition key_text (k : SatelliteKey) : string :=
  match k with Backend => "backend" | Upscale => "upscale" | WanTrain => "wan-train" end.

Record SatellitePin := mkPin { pin_repo : string; pin_tag : string; pin_mirrors : string * string }.
Definition GHCR_ORG : string := "skyphusion-labs".
Definition SATELLITE_PINS (k : SatelliteKey) : SatellitePin :=
  match k with
  | Backend => mkPin "vivijure-backend" "1.0.13" ("t9wcvlxh8rc5la", "2026-08-03")
  | Upscale => mkPin "vivijure-upscale" "1.0.4" ("4q8idwbk6tyqbq", "2026-07-25")
  | WanTrain => mkPin "vivijure-wan-train" "train-0.2.1" ("zqb7tougbqfkqa", "2026-08-16")
  end.
Definition imageRef (k : SatelliteKey) : string :=
  "ghcr.io/" +:+ GHCR_ORG +:+ "/" +:+ pin_repo (SATELLITE_PINS k) +:+ ":" +:+ pin_tag (SATELLITE_PINS k).

(** A capability is backed by an endpoint we provision or by a door to our own hardware. *)
Inductive Backing :=
| ByRunpod (maxWorkers : Z) (gpuTypeIds : list string) (endpointVar : string)
| ByDoor (doorsUrlVar : string) (tokens : list (string * string)).

Record PlannedCapability := mkCapability {
  cap_key : SatelliteKey;
  cap_label : string;
  cap_imageRepo : string;
  cap_tag : string;
  cap_backing : Backing;
}.
Definition pinned (k : SatelliteKey) (label : string) (b : Backing) : PlannedCapability :=
  mkCapability k label (pin_repo (SATELLITE_PINS k)) (pin_tag (SATELLITE_PINS k)) b.

Definition BACKEND_GPUS : list string := ["NVIDIA H200"; "NVIDIA B200"].
Definition PROVISION_PLAN : list PlannedCapability :=
  [pinned Backend "Render (keyframes, video)" (ByRunpod 2 BACKEND_GPUS "RUNPOD_ENDPOINT_ID");
   pinned Upscale "Video upscale"
     (ByDoor "FINISH_UPSCALE_DOORS" [("FINISH_DOOR_TOKEN", "FINISH_DOOR_TOKEN");
                                     ("FINISH_DOOR_TOKEN_PROPAGANDHI", "FINISH_DOOR_TOKEN_PROPAGANDHI")]);
   pinned WanTrain "Cast LoRA training (Wan)" (ByRunpod 2 BACKEND_GPUS "RUNPOD_WAN_TRAIN_ENDPOINT_ID")].

Definition isEndpointBacked (c : PlannedCapability) : bool := match cap_backing c with ByRunpod _ _ _ => true | _ => false end.
Definition endpointBackedPlan (plan : list PlannedCapability) : list PlannedCapability := jfilter isEndpointBacked plan.
Definition doorBackedPlan (plan : list PlannedCapability) : list PlannedCapability := jfilter (λ c, negb (isEndpointBacked c)) plan.
Definition endpoint_var (c : PlannedCapability) : string := match cap_backing c with ByRunpod _ _ v => v | _ => "" end.
Definition plan_key (c : PlannedCapability) : string := key_text (cap_key c).
Definition requiredPoolKeys : list string := plan_key <$> endpointBackedPlan PROVISION_PLAN.

Record ProvisionPlanRow := mkPlanRow {
  plan_row_key : string; plan_row_label : string; plan_row_runpod : bool;
  plan_row_image : string; plan_row_max_workers : option Z; plan_row_gpu : string;
}.
Definition provisionPlanView (plan : list PlannedCapability) : list ProvisionPlanRow :=
  (λ c, match cap_backing c with
        | ByRunpod w gpus _ => mkPlanRow (plan_key c) (cap_label c) true (imageRef (cap_key c)) (Some w) (Str.join " / " gpus)
        | ByDoor _ _ => mkPlanRow (plan_key c) (cap_label c) false (imageRef (cap_key c)) None "our hardware"
        end) <$> plan.

(** ** The pool *)
Record TenantEndpoint := mkEndpoint {
  te_key : string; te_label : string; te_id : string; te_name : string; te_endpointVar : string;
}.
#[export] Instance TenantEndpoint_eq_dec : EqDecision TenantEndpoint.
Proof. solve_decision. Defined.

(** [ids] and [names] are the sets of the endpoints' ids and names. *)
Record SharedRunPodPool := mkPool { pool_endpoints : list TenantEndpoint }.
Definition pool_ids (p : SharedRunPodPool) : list string := te_id <$> pool_endpoints p.
Definition pool_names (p : SharedRunPodPool) : list string := te_name <$> pool_endpoints p.

Inductive PoolRefusal :=
| PoolNotSet | PoolNotJson | PoolNotObject
| PoolOwnIron (keys : list string) | PoolUnknownKeys (keys : list string)
| PoolEntryIncomplete (key : string) | PoolMissing (keys : list string) | PoolDuplicateId (id first key : string).

(** The loop over the plan: endpoints and missing keys so far, or the entry that refuses. *)
Definition take_entry (byKey : list (string * js)) (acc : result PoolRefusal (list TenantEndpoint * list string))
    (spec : PlannedCapability) : result PoolRefusal (list TenantEndpoint * list string) :=
  '(endpoints, missing) ← acc;
  let entry := field_of byKey (plan_key spec) in
  if negb (js_is_object entry) then Ok (endpoints, missing ++ [plan_key spec])
  else
    let id := js_trimmed (js_field entry "id") in
    let name := js_trimmed (js_field entry "name") in
    if negb (Str.truthy id) || negb (Str.truthy name) then Err (PoolEntryIncomplete (plan_key spec))
    else Ok (endpoints ++ [mkEndpoint (plan_key spec) (cap_label spec) id name (endpoint_var spec)], missing).

(** The loop over [seen]: the ids before, each with its key. *)
Fixpoint first_duplicate (seen : list (string * string)) (l : list TenantEndpoint) : option PoolRefusal :=
  match l with
  | [] => None
  | e :: l =>
      match List.find (λ p, p.1 =s? te_id e) seen with
      | Some p => Some (PoolDuplicateId (te_id e) p.2 (te_key e))
      | None => first_duplicate (seen ++ [(te_id e, te_key e)]) l
      end
  end.

Section pool.
Variable json_parse : string → option js.

Definition parseSharedPool (raw : option string) : result PoolRefusal SharedRunPodPool :=
  let trimmed := Str.trim (default "" raw) in
  if negb (Str.truthy trimmed) then Err PoolNotSet
  else match json_parse trimmed with
  | None => Err PoolNotJson
  | Some (JObj byKey) =>
      let keys := fst <$> byKey in
      let vpcNamed := jfilter (includes keys) (plan_key <$> doorBackedPlan PROVISION_PLAN) in
      if negb (length vpcNamed =? 0)%nat then Err (PoolOwnIron vpcNamed)
      else
        let known := requiredPoolKeys ++ (plan_key <$> doorBackedPlan PROVISION_PLAN) in
        let unknown := jfilter (λ k, negb (includes known k)) keys in
        if negb (length unknown =? 0)%nat then Err (PoolUnknownKeys unknown)
        else
          '(endpoints, missing) ← fold_left (take_entry byKey) (endpointBackedPlan PROVISION_PLAN) (Ok ([], []));
          if negb (length missing =? 0)%nat then Err (PoolMissing missing)
          else match first_duplicate [] endpoints with
               | Some e => Err e
               | None => Ok (mkPool endpoints)
               end
  | Some _ => Err PoolNotObject
  end.
End pool.

(** ** The scope of a key *)
Definition RUNPOD_INVOKE_BASE : string := "https://api.runpod.ai/v2".
Definition RUNPOD_GRAPHQL : string := "https://api.runpod.io/graphql".

Inductive InvokeKeyRejection := BadPrefix | GraphqlCapable | EndpointOutOfScope | EndpointUnreachable | NoEndpoints.
Record InvokeKeyVerdict := mkVerdict {
  iv_ok : bool; iv_reason : option InvokeKeyRejection; iv_inScope : list string; iv_outOfScope : list string;
}.

Definition hasModernKeyPrefix (key : string) : bool := starts_with "rpa_" key.

(** [Boolean(v)] *)
Definition js_truthy (v : js) : bool :=
  match v with
  | JUndef | JNull => false
  | JBool b => b
  | JNum (Num.NInt z) => negb (z =? 0)
  | JNum Num.NNaN => false
  | JNum _ => true
  | JStr s => Str.truthy s
  | JArr _ | JObj _ => true
  end.

Inductive EndpointProbe := InScope | OutOfScope | ProbeError.

Section scope.
Context {W : Type}.
Variable fetchImpl : HttpRequest → M W string HttpResponse.

Definition graphql_request (key : string) : HttpRequest :=
  mkRequest RUNPOD_GRAPHQL "POST" [("authorization", "Bearer " +:+ key); ("content-type", "application/json")]
    (BJson (JObj [("query", JStr "query { myself { id } }")])).
Definition health_request (key id : string) : HttpRequest :=
  mkRequest (RUNPOD_INVOKE_BASE +:+ "/" +:+ id +:+ "/health") "GET" [("authorization", "Bearer " +:+ key)] BNone.

(** [Boolean(body?.data?.myself)] on the body, null when it is not JSON. *)
Definition graphql_granted (res : HttpResponse) : bool :=
  if (rs_status res =? 401) || (rs_status res =? 403) then false
  else if negb (rs_ok res) then false
  else match rs_json res with
       | Some body => js_truthy (js_field (js_field body "data") "myself")
       | None => false
       end.
Definition probeGraphql (key : string) : M W string bool :=
  catch (res ← fetchImpl (graphql_request key); mret (graphql_granted res)) (λ _, mret false).

Definition health_probe (res : HttpResponse) : EndpointProbe :=
  if rs_ok res then InScope
  else if (rs_status res =? 401) || (rs_status res =? 403) then OutOfScope
  else ProbeError.
Definition probeEndpointHealth (key endpointId : string) : M W string EndpointProbe :=
  catch (res ← fetchImpl (health_request key endpointId); mret (health_probe res)) (λ _, mret ProbeError).

(** The loop: in scope, out of scope, and whether some endpoint could not be asked. *)
Fixpoint probe_endpoints (key : string) (ids : list string) (acc : list string * list string * bool) :
    M W string (list string * list string * bool) :=
  match ids with
  | [] => mret acc
  | id :: ids =>
      r ← probeEndpointHealth key id;
      let '(inScope, outOfScope, unreachable) := acc in
      probe_endpoints key ids
        match r with
        | InScope => (inScope ++ [id], outOfScope, unreachable)
        | OutOfScope => (inScope, outOfScope ++ [id], unreachable)
        | ProbeError => (inScope, outOfScope ++ [id], Str.truthy id)
        end
  end.

Definition verifyInvokeKeyScope (key : string) (endpointIds : list string) : M W string InvokeKeyVerdict :=
  if (length endpointIds =? 0)%nat then mret (mkVerdict false (Some NoEndpoints) [] [])
  else if negb (hasModernKeyPrefix key) then mret (mkVerdict false (Some BadPrefix) [] [])
  else
    graphqlReachable ← probeGraphql key;
    if (graphqlReachable : bool) then mret (mkVerdict false (Some GraphqlCapable) [] [])
    else
      '(inScope, outOfScope, unreachable) ← probe_endpoints key endpointIds ([], [], false);
      if (length inScope =? length endpointIds)%nat then mret (mkVerdict true None inScope outOfScope)
      else if unreachable && (length outOfScope =? 1)%nat then mret (mkVerdict false (Some EndpointUnreachable) inScope outOfScope)
      else mret (mkVerdict false (Some EndpointOutOfScope) inScope outOfScope).

Inductive PoolScopeState := NoSharedTier | ScopeVerified | HalfConfigured | PoolUnparseable | KeyOutOfScope.
Record PoolScopeVerdict := mkScope {
  sv_ok : bool; sv_state : PoolScopeState; sv_inScope : list string; sv_outOfScope : list string;
}.

Definition verifySharedPoolScope (json_parse : string → option js) (rawPool invokeKey : option string) : M W string PoolScopeVerdict :=
  let pool := Str.trim (default "" rawPool) in
  let key := Str.trim (default "" invokeKey) in
  if negb (Str.truthy pool) && negb (Str.truthy key) then mret (mkScope true NoSharedTier [] [])
  else if negb (Str.truthy pool) || negb (Str.truthy key) then mret (mkScope false HalfConfigured [] [])
  else match parseSharedPool json_parse (Some pool) with
  | Err _ => mret (mkScope false PoolUnparseable [] [])
  | Ok parsed =>
      verdict ← verifyInvokeKeyScope key (pool_ids parsed);
      if iv_ok verdict then mret (mkScope true ScopeVerified (iv_inScope verdict) [])
      else mret (mkScope false KeyOutOfScope (iv_inScope verdict) (iv_outOfScope verdict))
  end.
End scope.

(** ** Lemmas *)
Lemma truthy_false s : Str.truthy s = false → s = "".
Proof. by destruct s. Qed.
Lemma includes_spec l s : includes l s = true ↔ s ∈ l.
Proof.
  unfold includes. rewrite existsb_true_iff. split; [intros (x & Hx & Heq); by bool_hyps; subst|].
  intros Hs. exists s. split; [done|apply String.eqb_refl].
Qed.

(** One entry of the variable, as the endpoint it yields. *)
Definition pool_entry (byKey : list (string * js)) (spec : PlannedCapability) : option TenantEndpoint :=
  let entry := field_of byKey (plan_key spec) in
  let id := js_trimmed (js_field entry "id") in
  let name := js_trimmed (js_field entry "name") in
  if js_is_object entry && Str.truthy id && Str.truthy name
  then Some (mkEndpoint (plan_key spec) (cap_label spec) id name (endpoint_var spec)) else None.

Lemma take_entries_err byKey specs e : fold_left (take_entry byKey) specs (Err e) = Err e.
Proof. induction specs as [|s specs IH]; [done|exact IH]. Qed.

Definition entries_of (byKey : list (string * js)) : list PlannedCapability → list TenantEndpoint → Prop :=
  Forall2 (λ spec e, pool_entry byKey spec = Some e).

Lemma take_entries byKey specs es ms es' :
  fold_left (take_entry byKey) specs (Ok (es, ms)) = Ok (es', []) ↔
  ms = [] ∧ ∃ l, entries_of byKey specs l ∧ es' = es ++ l.
Proof.
  revert es ms. unfold entries_of. induction specs as [|s specs IH]; intros es ms; cbn [fold_left].
  - split; [intros [= <- ->]; split; [done|exists []; by rewrite app_nil_r]|].
    intros (-> & l & ->%Forall2_nil_inv_l & ->). by rewrite app_nil_r.
  - assert (take_entry byKey (Ok (es, ms)) s =
      if negb (js_is_object (field_of byKey (plan_key s))) then Ok (es, ms ++ [plan_key s])
      else match pool_entry byKey s with Some e => Ok (es ++ [e], ms) | None => Err (PoolEntryIncomplete (plan_key s)) end) as Hs.
    { unfold take_entry, pool_entry, mbind, result_bind. destruct (js_is_object _); cbn [negb andb]; [|done].
      destruct (Str.truthy _); cbn [negb orb andb]; [|done]. by destruct (Str.truthy _). }
    rewrite Hs. clear Hs. destruct (js_is_object _) eqn:Eo; cbn [negb].
    + destruct (pool_entry byKey s) as [e|] eqn:Ee.
      * rewrite IH. split; intros (-> & l & Hl & ->); (split; [done|]).
        -- exists (e :: l). rewrite <- app_assoc. by split; [constructor|].
        -- inversion Hl as [|? e' ? l' He Hl']; subst. rewrite Ee in He. injection He as <-. exists l'. by rewrite <- app_assoc.
      * rewrite take_entries_err. split; [done|]. intros (_ & l & Hl & _). inversion Hl; congruence.
    + assert (pool_entry byKey s = None) as Ee by (unfold pool_entry; by rewrite Eo).
      rewrite IH. split; [intros [Hm _]; by destruct ms|]. intros (_ & l & Hl & _). inversion Hl; congruence.
Qed.

Lemma first_duplicate_none seen l :
  first_duplicate seen l = None ↔ NoDup (te_id <$> l) ∧ ∀ e, e ∈ l → te_id e ∉ fst <$> seen.
Proof.
  revert seen. induction l as [|e l IH]; intros seen; cbn.
  - split; [intros _; split; [constructor|by intros e ?%elem_of_nil]|done].
  - rewrite NoDup_cons. destruct (List.find _ seen) as [p|] eqn:Hf.
    + apply find_Some_elem in Hf as [Hin Hp]. bool_hyps. split; [done|]. intros [_ H]. exfalso. apply (H e); [left|].
      rewrite <- Hp. by apply list_elem_of_fmap_2.
    + rewrite find_None_elem in Hf. rewrite IH.
      assert (te_id e ∉ fst <$> seen) as He.
      { intros (p & Hp & Hin)%list_elem_of_fmap. specialize (Hf p Hin). cbn in Hf. by rewrite <- Hp, String.eqb_refl in Hf. }
      rewrite fmap_app. cbn. split.
      * intros [Hnd H]. split_and!; [|done|].
        -- intros (x & Hx & Hin)%list_elem_of_fmap. apply (H x Hin). rewrite Hx. apply elem_of_app. right. left.
        -- intros x [->|Hx]%elem_of_cons; [done|]. specialize (H x Hx). rewrite elem_of_app in H. tauto.
      * intros [[Hne Hnd] H]. split; [done|]. intros x Hx [Hs|Hs%list_elem_of_singleton]%elem_of_app.
        -- apply (H x); [by right|done].
        -- apply Hne. rewrite <- Hs. by apply list_elem_of_fmap_2.
Qed.

Lemma jfilter_length_0 {A} (f : A → bool) l : (length (jfilter f l) =? 0)%nat = true ↔ ∀ x, x ∈ l → f x = false.
Proof. rewrite Nat.eqb_eq, <- jfilter_nil_iff. destruct (jfilter f l); naive_solver. Qed.

(** ** Properties *)

(** A pool is all or nothing.  The variable is read as a pool exactly when it is a JSON object whose
    keys are plan keys that need an endpoint (no own-iron key, no retired key), with an id and a name
    for every one of them and no id twice; the pool is then those endpoints in the plan's order with
    the plan's labels and bindings.  Anything else refuses, so no tenant rides a partial pool. *)
Theorem pool_all_or_nothing json_parse raw pool :
  parseSharedPool json_parse raw = Ok pool ↔
  Str.truthy (Str.trim (default "" raw)) = true ∧
  ∃ byKey, json_parse (Str.trim (default "" raw)) = Some (JObj byKey) ∧
    (∀ k, k ∈ fst <$> byKey → k ∈ requiredPoolKeys) ∧
    entries_of byKey (endpointBackedPlan PROVISION_PLAN) (pool_endpoints pool) ∧
    NoDup (pool_ids pool).
Proof.
  unfold parseSharedPool. destruct (Str.truthy _); cbn [negb]; [|by split; [|intros [? _]]].
  destruct (json_parse _) as [[| | | | | |byKey]|]; try (by split; [|intros (_ & ? & ? & _)]).
  set (door := plan_key <$> doorBackedPlan PROVISION_PLAN).
  assert ((length (jfilter (includes (fst <$> byKey)) door) =? 0)%nat = true ∧
          (length (jfilter (λ k, negb (includes (requiredPoolKeys ++ door) k)) (fst <$> byKey)) =? 0)%nat = true ↔
          ∀ k, k ∈ fst <$> byKey → k ∈ requiredPoolKeys) as Hkeys.
  { rewrite !jfilter_length_0. split.
    - intros [Hd Hk] k Hin. specialize (Hk k Hin). bool_hyps. apply includes_spec, elem_of_app in Hk as [|Hk]; [done|].
      specialize (Hd k Hk). by rewrite (proj2 (includes_spec _ _) Hin) in Hd.
    - intros H. split.
      + intros k Hk. apply not_true_iff_false. intros Hin%includes_spec%H. revert Hk Hin. clear. subst door. vm_compute. set_solver.
      + intros k Hk. apply negb_false_iff, includes_spec, elem_of_app. left. by apply H. }
  destruct (length (jfilter (includes _) door) =? 0)%nat eqn:E1; cbn [negb].
  2: { split; [done|]. intros (_ & b & [= <-] & H & _). by apply Hkeys in H as [? _]. }
  destruct (length (jfilter _ (fst <$> byKey)) =? 0)%nat eqn:E2; cbn [negb].
  2: { split; [done|]. intros (_ & b & [= <-] & H & _). by apply Hkeys in H as [_ ?]. }
  assert (∀ k, k ∈ fst <$> byKey → k ∈ requiredPoolKeys) as Hk by (by apply Hkeys).
  assert (∀ es', fold_left (take_entry byKey) (endpointBackedPlan PROVISION_PLAN) (Ok ([], [])) = Ok (es', []) ↔
                 entries_of byKey (endpointBackedPlan PROVISION_PLAN) es') as Hfold.
  { intros es'. rewrite take_entries. naive_solver. }
  unfold mbind at 1, result_bind. split.
  - destruct (fold_left _ _ _) as [[es ms]|] eqn:Ef; [|done]. destruct (length ms =? 0)%nat eqn:El; cbn [negb]; [|done].
    apply Nat.eqb_eq, nil_length_inv in El as ->. destruct (first_duplicate [] es) eqn:Ed; [done|]. intros [= <-].
    split; [done|]. exists byKey. split_and!; [done|done|by apply Hfold|]. by apply first_duplicate_none in Ed as [? _].
  - intros (_ & b & [= <-] & _ & Hm%Hfold & Hnd). rewrite Hm. cbn beta iota. cbn [length Nat.eqb negb].
    rewrite (proj2 (first_duplicate_none [] _)); [by destruct pool|]. split; [done|]. intros e _. apply not_elem_of_nil.
Qed.

Section scope_lemmas.
Context {W : Type} (fetchImpl : HttpRequest → M W string HttpResponse) (key : string).

(** The endpoint answered 2xx to its health request under this key. *)
Definition reached (id : string) : Prop :=
  ∃ g g' res, fetchImpl (health_request key id) g = (Ok res, g') ∧ rs_ok res = true.

Lemma health_total id g : ∃ r g', probeEndpointHealth fetchImpl key id g = (Ok r, g') ∧ (r = InScope → reached id).
Proof.
unfold probeEndpointHealth, catch, mbind, M_bind. destruct (fetchImpl (health_request key id) g) as [[res|e] g1] eqn:Hf.
- eexists _, _. split; [reflexivity|]. unfold health_probe. destruct (rs_ok res) eqn:Hok; [|by destruct (_ || _)].
  intros _. by exists g, g1, res.
- by eexists _, _.
Qed.

Lemma probe_endpoints_spec ids i o u g :
  ∃ ins outs u' g', probe_endpoints fetchImpl key ids (i, o, u) g = (Ok (i ++ ins, o ++ outs, u'), g') ∧
    (length ins + length outs = length ids)%nat ∧ (outs = [] → ins = ids) ∧ ∀ id, id ∈ ins → reached id.
Proof.
revert i o u g. induction ids as [|id ids IH]; intros i o u g; cbn [probe_endpoints].
- exists [], [], u, g. rewrite !app_nil_r. split_and!; [done..|]. by intros id ?%elem_of_nil.
- destruct (health_total id g) as (r & g1 & Hp & Hr). rewrite (M_bind_ok _ _ _ _ _ Hp). destruct r.
  + destruct (IH (i ++ [id]) o u g1) as (ins & outs & u' & g' & -> & Hl & He & Hin).
    exists (id :: ins), outs, u', g'. rewrite <- app_assoc. split_and!; [done|cbn; lia|by intros ->%He|].
    intros x [->|Hx]%elem_of_cons; [by apply Hr|by apply Hin].
  + destruct (IH i (o ++ [id]) u g1) as (ins & outs & u' & g' & -> & Hl & _ & Hin).
    exists ins, (id :: outs), u', g'. rewrite <- app_assoc. split_and!; [done|cbn; lia|done|done].
  + destruct (IH i (o ++ [id]) (Str.truthy id) g1) as (ins & outs & u' & g' & -> & Hl & _ & Hin).
    exists ins, (id :: outs), u', g'. rewrite <- app_assoc. split_and!; [done|cbn; lia|done|done].
Qed.

(** The first answer named the key's own account: the key can reach GraphQL. *)
Definition graphql_answered (g : W) : Prop :=
  ∃ res g', fetchImpl (graphql_request key) g = (Ok res, g') ∧ graphql_granted res = true.

Lemma graphql_total g :
  ∃ b g', probeGraphql fetchImpl key g = (Ok b, g') ∧ (b = true ↔ graphql_answered g).
Proof.
unfold probeGraphql, catch, mbind, M_bind, graphql_answered. destruct (fetchImpl (graphql_request key) g) as [[res|e] g1] eqn:Hf.
- eexists _, _. split; [reflexivity|]. split; [by exists res, g1|]. by intros (? & ? & [= <- <-] & ?).
- eexists _, _. split; [reflexivity|]. split; [done|]. by intros (? & ? & [=] & _).
Qed.

Lemma verify_total ids g :
  ∃ v g', verifyInvokeKeyScope fetchImpl key ids g = (Ok v, g') ∧
    (iv_ok v = true → ids ≠ [] ∧ hasModernKeyPrefix key = true ∧ ¬ graphql_answered g ∧
       iv_inScope v = ids ∧ iv_outOfScope v = [] ∧ ∀ id, id ∈ ids → reached id).
Proof.
unfold verifyInvokeKeyScope. destruct (length ids =? 0)%nat eqn:El; [by do 2 eexists|]. apply Nat.eqb_neq in El.
destruct (hasModernKeyPrefix key); cbn [negb]; [|by do 2 eexists].
destruct (graphql_total g) as ([] & g1 & Hg & Hans); rewrite (M_bind_ok _ _ _ _ _ Hg); [by do 2 eexists|].
destruct (probe_endpoints_spec ids [] [] false g1) as (ins & outs & u & g2 & Hp & Hl & He & Hin).
rewrite (M_bind_ok _ _ _ _ _ Hp). cbn [app]. destruct (length ins =? length ids)%nat eqn:E.
- apply Nat.eqb_eq in E. assert (outs = []) as -> by (destruct outs; [done|cbn in Hl; lia]). rewrite (He eq_refl) in *.
  do 2 eexists. split; [reflexivity|]. intros _. split_and!; try done; [by intros ->|].
  intros Ha. by apply Hans in Ha.
- by destruct (u && _); do 2 eexists.
Qed.
End scope_lemmas.

(** A key is accepted only when it reaches every endpoint.  Both checks always answer, whatever the
    network does; the paste-time check accepts only a current key whose GraphQL probe did not answer
    with the account and every endpoint of which answered 2xx to this key; and the deploy gate calls a
    pool verified only when the pool is well formed and the key reaches each of its endpoints, and
    passes otherwise only a plane that sets neither half. *)
Theorem accepted_key_reaches_every_endpoint {W} (fetchImpl : HttpRequest → M W string HttpResponse) json_parse rawPool rawKey g :
  let key := Str.trim (default "" rawKey) in
  (∀ k ids, ∃ v g', verifyInvokeKeyScope fetchImpl k ids g = (Ok v, g') ∧
     (iv_ok v = true → ids ≠ [] ∧ hasModernKeyPrefix k = true ∧ ¬ graphql_answered fetchImpl k g ∧
        iv_inScope v = ids ∧ iv_outOfScope v = [] ∧ ∀ id, id ∈ ids → reached fetchImpl k id)) ∧
  ∃ v g', verifySharedPoolScope fetchImpl json_parse rawPool rawKey g = (Ok v, g') ∧
    if sv_ok v
    then (sv_state v = NoSharedTier ∧ g' = g ∧ Str.trim (default "" rawPool) = "" ∧ key = "") ∨
         (sv_state v = ScopeVerified ∧ ∃ pool, parseSharedPool json_parse (Some (Str.trim (default "" rawPool))) = Ok pool ∧
            sv_inScope v = pool_ids pool ∧ ∀ id, id ∈ pool_ids pool → reached fetchImpl key id)
    else sv_state v ≠ NoSharedTier ∧ sv_state v ≠ ScopeVerified.
Proof.
  intros key. split; [intros k ids; apply verify_total|]. unfold verifySharedPoolScope. fold key.
  destruct (Str.truthy (Str.trim (default "" rawPool))) eqn:Ep, (Str.truthy key) eqn:Ek; cbn [negb andb orb].
  - destruct (parseSharedPool json_parse _) as [pool|e] eqn:Hp; [|by do 2 eexists].
    destruct (verify_total fetchImpl key (pool_ids pool) g) as (v & g' & Hv & Hok). rewrite (M_bind_ok _ _ _ _ _ Hv).
    destruct (iv_ok v) eqn:E; (eexists _, _; split; [reflexivity|]); [|by split].
    right. split; [done|]. exists pool. destruct (Hok eq_refl) as (_ & _ & _ & Hin & _ & Hr). by split_and!.
  - by do 2 eexists.
  - by do 2 eexists.
  - eexists _, _. split; [reflexivity|]. left. split_and!; [done|done|by apply truthy_false..].
Qed.

(** A network that fails the first call and answers every later one, GraphQL included. *)
Definition blip (rq : HttpRequest) : M nat string HttpResponse := λ n,
  match n with
  | O => (Err "network lost", 1%nat)
  | _ => (Ok (mkResponse 200 "" (Some (JObj [("data", JObj [("myself", JObj [("id", JStr "user")])])]))), S n)
  end.

(** A lost GraphQL probe counts as a pass.  When the one request that tells a provisioning key from an
    invoke key fails in transit (or answers any non-2xx), the check goes on and accepts the key on its
    endpoints alone, though the very next probe shows that the key reaches GraphQL. *)
Theorem lost_graphql_probe_accepts_the_key :
  (∃ g', verifyInvokeKeyScope blip "rpa_provisioning" ["ep1"; "ep2"] 0%nat = (Ok (mkVerdict true None ["ep1"; "ep2"] []), g') ∧
     graphql_answered blip "rpa_provisioning" g') ∧
  graphql_granted (mkResponse 500 "" None) = false ∧ graphql_granted (mkResponse 429 "" None) = false.
Proof.
  split; [|by split]. eexists. split; [vm_compute; reflexivity|]. do 2 eexists. split; vm_compute; reflexivity.
Qed.
