(* ===== verification/RunpodRoutes.v ===== *)
(** * The handlers of the RunPod proxy

    The submit and callback handlers (src/runpod-proxy-routes.ts), the poll (src/runpod-proxy-poll.ts,
    src/runpod-proxy-poll-routes.ts), the router's dispatch (src/index.ts) and the sweep that closes
    what no callback closed (src/runpod-job-sweep.ts), over the interface [JobStore].  The network, the
    credential, the clock, random bytes, the tenant read and the two digests are parameters.  Log lines
    are left out. *)

From S2P Require Export RunpodPool.
From Stdlib Require Import Ascii.
Open Scope string_scope.
Open Scope list_scope.
Open Scope Z_scope.
Open Scope plane_scope.

(** ** Requests and answers *)
Record ProxyRequest := mkProxyRequest {
  px_method : string;
  px_path : string;
  px_authorization : option string;
  px_module : option string;
  px_json : option js;
}.

Inductive SubmitRefusal :=
| Unauthorized | UnknownTenant | TenantNotLive | TenantSuspended | NotSharedTenant | NotAllowedEndpoint | BadSubmitBody.

Definition HTTP_FOR (r : SubmitRefusal) : Z :=
  match r with Unauthorized => 401 | BadSubmitBody => 400 | _ => 403 end.

Inductive ProxyAnswer :=
| Refuse (reason : SubmitRefusal)
| PollRefuse (reason : string) (status : Z)
| PlaneUnavailable (reason detail : string)
| UpstreamUnreachable (message : string)
| PassThrough (res : HttpResponse)
| UnknownCallback
| CallbackDone (closed : bool)
| ProxyNotFound.

Definition answer_status (a : ProxyAnswer) : Z :=
  match a with
  | Refuse r => HTTP_FOR r
  | PollRefuse _ s => s
  | PlaneUnavailable _ _ => 503
  | UpstreamUnreachable _ => 502
  | PassThrough res => rs_status res
  | UnknownCallback | ProxyNotFound => 404
  | CallbackDone _ => 200
  end.

Definition submitRefusal (tenant : Tenant) : option SubmitRefusal :=
  match t_deleted_at tenant with Some _ => Some UnknownTenant | None =>
  match t_suspended_at tenant with Some _ => Some TenantSuspended | None =>
    if negb (t_status tenant =s? "live") then Some TenantNotLive
    else if negb (t_runpod_mode tenant =s? "shared") then Some NotSharedTenant
    else None
  end end.

(** [JSON.parse] of the text of the answer, and its [id] when that is a nonempty string. *)
Definition jobIdFrom (res : HttpResponse) : option string :=
  match rs_json res with
  | Some v => match js_field v "id" with JStr s => if Str.truthy s then Some s else None | _ => None end
  | None => None
  end.

Definition bearer (key : string) : string * string := ("authorization", "Bearer " +:+ key).
Definition run_request (key endpointId : string) (body : js) : HttpRequest :=
  mkRequest (submit_url endpointId) "POST" [bearer key; ("content-type", "application/json")] (BJson body).
Definition status_request (key endpointId jobId : string) : HttpRequest :=
  mkRequest (status_url endpointId jobId) "GET" [bearer key] BNone.

Definition close_of (facts : TerminalFacts) (at_ : Z) : ProxyJobClose :=
  mkJobClose (tf_jobId facts) (outcome_text (tf_outcome facts)) (tf_statusRaw facts) (tf_executionMs facts)
    (tf_delayMs facts) at_.

(** ** Constants of the sweep *)
Definition RECONCILER_ADOPT_AFTER_MS : Z := 5 * 60000.
Definition OBSERVED_RESULT_RETENTION_MS : Z := 30 * 60000.
Definition SWEEP_MAX_ROWS_PER_RUN : nat := 50.
Definition SWEEP_CRON_PERIOD_MS : Z := 5 * 60000.
(** [Math.ceil] of a quotient of integers. *)
Definition ceil_div (a b : Z) : Z := - ((- a) / b).
Definition sweep_attempts (adopt retention period : Z) : Z := Z.max 0 (ceil_div (retention - adopt - period) period).
Definition SWEEP_ATTEMPTS_PER_ROW : Z :=
  sweep_attempts RECONCILER_ADOPT_AFTER_MS OBSERVED_RESULT_RETENTION_MS SWEEP_CRON_PERIOD_MS.

Record JobSweepResult := mkSweep {
  sw_ran : bool;
  sw_reason : option string;
  sw_eligible : nat;
  sw_examined : nat;
  sw_closed : nat;
  sw_unknown : nat;
  sw_stillRunning : nat;
  sw_errors : nat;
}.
Definition refused_sweep (reason : string) : JobSweepResult := mkSweep false (Some reason) 0 0 0 0 0 0.

(** The level of the tick's log line: [console.log] when clean. *)
Definition tick_is_clean (r : JobSweepResult) : bool :=
  sw_ran r && (sw_errors r =? 0)%nat && (sw_unknown r =? 0)%nat && (sw_eligible r =? sw_examined r)%nat.

Inductive Probe := ProbeTerminal (status : js) | ProbeRunning | ProbeGone | ProbeFailed (detail : string).

(** [now - submitted] and the age test: a number past the horizon. *)
Definition num_neg (n : Num.num) : Num.num :=
  match n with
  | Num.NInt z => Num.NInt (- z) | Num.NFrac m e => Num.NFrac (- m) e
  | Num.NInf b => Num.NInf (negb b) | Num.NNaN => Num.NNaN
  end.
Definition past_horizon (now : Z) (submitted : option Num.num) : bool :=
  match submitted with
  | None => false
  | Some n => num_gt (num_add_int (num_neg n) now) OBSERVED_RESULT_RETENTION_MS
  end.
Definition unknown_close (jobId : string) (now : Z) : ProxyJobClose := mkJobClose jobId "unknown" "" None None now.

Section handlers.
Context {W : Type} `{JobStore W}.
Variable fetchImpl : HttpRequest → M W string HttpResponse.
Variable runpodApiKey : M W string string.
Variable now : M W string Z.
Variable random32 : M W string (list ascii).
Variable readTenant : string → M W string (option Tenant).
(** [crypto.subtle.sign("HMAC", ..)] and [crypto.subtle.digest("SHA-256", ..)] *)
Variable sign : string → string → list ascii.
Variable digest : string → list ascii.

(** The credential: a throw and an empty key are both refused. *)
Definition with_key (use : string → M W string ProxyAnswer) : M W string ProxyAnswer :=
  key ← attempt runpodApiKey;
  match key with
  | inl e => mret (PlaneUnavailable "credential-unavailable" e)
  | inr k => if Str.truthy k then use k else mret (PlaneUnavailable "credential-unavailable" "no RunPod credential on the proxy")
  end.

(** ** Submit *)
Record ProxyDeps := mkDeps { callbackBase : string; signingKey : option string; poolEndpointIds : list string }.

(** The write after an accepted submit; a store that throws is only logged. *)
Definition record_job (tenant : Tenant) (module_ : option string) (endpointId webhookToken : string) (res : HttpResponse) : M W string unit :=
  match (if rs_ok res then jobIdFrom res else None) with
  | Some jobId =>
      t ← now;
      _ ← attempt (openRunpodProxyJob
            (mkJobOpen jobId (t_id tenant) (t_slug tenant) module_ endpointId t (sha256Hex digest webhookToken)));
      mret tt
  | None => mret tt
  end.

Definition submit_upstream (deps : ProxyDeps) (tenant : Tenant) (module_ : option string) (endpointId : string) (body : js) :
    M W string ProxyAnswer :=
  with_key (λ key,
    bytes ← random32;
    let webhookToken := mintWebhookToken bytes in
    match buildUpstreamSubmitBody body (callbackUrlFor (callbackBase deps) webhookToken) None with
    | Err _ => mret (Refuse BadSubmitBody)
    | Ok upstreamBody =>
        answer ← attempt (fetchImpl (run_request key endpointId upstreamBody));
        match answer with
        | inl e => mret (UpstreamUnreachable e)
        | inr res =>
            _ ← record_job tenant module_ endpointId webhookToken res;
            mret (PassThrough res)
        end
    end).

Definition handleProxySubmit (deps : ProxyDeps) (request : ProxyRequest) (endpointId : string) : M W string ProxyAnswer :=
  match verifyTenantProxyToken sign (signingKey deps) (bearerFrom (px_authorization request)) with
  | None => mret (Refuse Unauthorized)
  | Some tenantId =>
      row ← attempt (readTenant tenantId);
      match row with
      | inl e => mret (PlaneUnavailable "store-unavailable" e)
      | inr None => mret (Refuse UnknownTenant)
      | inr (Some tenant) =>
          match submitRefusal tenant with
          | Some gate => mret (Refuse gate)
          | None =>
              if negb (isAllowedEndpoint endpointId (poolEndpointIds deps)) then mret (Refuse NotAllowedEndpoint)
              else match px_json request with
              | None => mret (Refuse BadSubmitBody)
              | Some body => submit_upstream deps tenant (px_module request) endpointId body
              end
          end
      end
  end.

(** ** The callback *)
Definition close_from_status (ref : ProxyJobRef) (endpointId key : string) : M W string ProxyAnswer :=
  read ← attempt (fetchImpl (status_request key endpointId (pr_job_id ref)));
  match read with
  | inl e => mret (PlaneUnavailable "status-unreachable" e)
  | inr res =>
      if negb (rs_ok res) then mret (PlaneUnavailable "status-read-failed" ("upstream status " +:+ Str.of_int (rs_status res)))
      else match rs_json res with
      | None => mret (PlaneUnavailable "status-unreachable" "SyntaxError: invalid JSON")
      | Some status =>
          match terminalFactsFromStatus (pr_job_id ref) status with
          | None => mret (PlaneUnavailable "not-terminal" "authoritative status is not terminal")
          | Some facts =>
              t ← now;
              changes ← closeRunpodProxyJob (close_of facts t);
              mret (CallbackDone (changes =? 1)%nat)
          end
      end
  end.

Definition handleProxyWebhook (token : string) : M W string ProxyAnswer :=
  found ← attempt (findRunpodProxyJobByWebhookToken (sha256Hex digest token));
  match found with
  | inl e => mret (PlaneUnavailable "store-unavailable" e)
  | inr None => mret UnknownCallback
  | inr (Some ref) =>
      match pr_terminal_at ref with
      | Some _ => mret (CallbackDone false)
      | None =>
          match pr_endpoint_id ref with
          | Some endpointId =>
              if Str.truthy endpointId then with_key (close_from_status ref endpointId)
              else mret (PlaneUnavailable "row-incomplete" "job row carries no endpoint id")
          | None => mret (PlaneUnavailable "row-incomplete" "job row carries no endpoint id")
          end
      end
  end.

(** ** Polls *)
Definition poll_request (key : string) (op : PassthroughOp) (url : string) : HttpRequest :=
  mkRequest url (match op with OpCancel => "POST" | _ => "GET" end) [bearer key] BNone.

Definition passthrough (op : PassthroughOp) (endpointId : string) (jobId : option string) : M W string ProxyAnswer :=
  with_key (λ key,
    answer ← attempt (url ← lift (upstreamUrlFor op endpointId jobId); fetchImpl (poll_request key op url));
    match answer with
    | inl e => mret (UpstreamUnreachable e)
    | inr res => mret (PassThrough res)
    end).

Definition handleProxyPoll (signKey : option string) (isAllowed : string → bool) (request : ProxyRequest)
    (op : PassthroughOp) (endpointId : string) (jobId : option string) : M W string ProxyAnswer :=
  match verifyTenantProxyToken sign signKey (bearerFrom (px_authorization request)) with
  | None => mret (PollRefuse "unauthorized" 401)
  | Some _ =>
      if negb (isAllowed endpointId) then mret (PollRefuse "endpoint_not_allowed" 403)
      else passthrough op endpointId jobId
  end.

(** ** Dispatch (src/index.ts) *)
Record ProxyEnv := mkProxyEnv {
  SHARED_RUNPOD_ENDPOINTS : option string;
  RUNPOD_PROXY_SIGNING_KEY : option string;
  CONTROL_PLANE_HOST : string;
}.
Definition publicOrigin (env : ProxyEnv) : string := "https://" +:+ CONTROL_PLANE_HOST env.

Definition pool_ids_of (json_parse : string → option js) (env : ProxyEnv) : list string :=
  match parseSharedPool json_parse (SHARED_RUNPOD_ENDPOINTS env) with Ok pool => pool_ids pool | Err _ => [] end.

Definition runpodProxyRoutes (json_parse : string → option js) (env : ProxyEnv) (request : ProxyRequest) (route : ProxyRoute) :
    M W string ProxyAnswer :=
  let poolIds := pool_ids_of json_parse env in
  let deps := mkDeps (publicOrigin env +:+ PROXY_WEBHOOK_PREFIX) (RUNPOD_PROXY_SIGNING_KEY env) poolIds in
  match route with
  | RoutePoll op endpointId jobId =>
      handleProxyPoll (RUNPOD_PROXY_SIGNING_KEY env) (λ e, isAllowedEndpoint e poolIds) request op endpointId jobId
  | RouteSubmit endpointId => handleProxySubmit deps request endpointId
  | RouteWebhook token => handleProxyWebhook token
  | RouteUnknown => mret ProxyNotFound
  end.

(** The proxy's part of the router: [None] when the path is not the proxy's. *)
Definition proxyRouter (json_parse : string → option js) (env : ProxyEnv) (request : ProxyRequest) : option (M W string ProxyAnswer) :=
  runpodProxyRoutes json_parse env request <$> matchProxyRoute (px_method request) (px_path request).

(** ** The sweep *)
Definition probeJob (key : string) (job : OpenProxyJob) : M W string Probe :=
  answer ← attempt (fetchImpl (status_request key (oj_endpoint_id job) (oj_job_id job)));
  match answer with
  | inl e => mret (ProbeFailed e)
  | inr res =>
      if rs_status res =? 404 then mret ProbeGone
      else if negb (rs_ok res) then mret (ProbeFailed ("upstream status " +:+ Str.of_int (rs_status res)))
      else match rs_json res with
      | None => mret (ProbeFailed "unreadable body")
      | Some body =>
          match terminalFactsFromStatus (oj_job_id job) body with
          | Some _ => mret (ProbeTerminal body)
          | None => mret ProbeRunning
          end
      end
  end.

(** One row: the counters it moves are closed, unknown, still running, errors. *)
Definition tally (c u r e : nat) (t : nat * nat * nat * nat) : nat * nat * nat * nat :=
  let '(c0, u0, r0, e0) := t in ((c0 + c)%nat, (u0 + u)%nat, (r0 + r)%nat, (e0 + e)%nat).

Definition sweep_row (key : string) (t : Z) (job : OpenProxyJob) (acc : nat * nat * nat * nat) : M W string (nat * nat * nat * nat) :=
  probe ← probeJob key job;
  match probe with
  | ProbeFailed _ => mret (tally 0 0 0 1 acc)
  | ProbeRunning => mret (tally 0 0 1 0 acc)
  | ProbeTerminal status =>
      match terminalFactsFromStatus (oj_job_id job) status with
      | Some facts =>
          changes ← closeRunpodProxyJob (close_of facts t);
          mret (if (changes =? 1)%nat then tally 1 0 0 0 acc else acc)
      | None => throw "TypeError: facts is undefined"
      end
  | ProbeGone =>
      if negb (past_horizon t (oj_submitted_at job)) then mret (tally 0 0 0 1 acc)
      else
        changes ← closeRunpodProxyJob (unknown_close (oj_job_id job) t);
        mret (if (changes =? 1)%nat then tally 0 1 0 0 acc else acc)
  end.

Fixpoint sweep_rows (key : string) (t : Z) (jobs : list OpenProxyJob) (acc : nat * nat * nat * nat) : M W string (nat * nat * nat * nat) :=
  match jobs with
  | [] => mret acc
  | job :: jobs => acc ← sweep_row key t job acc; sweep_rows key t jobs acc
  end.

Definition runRunpodJobSweep : M W string JobSweepResult :=
  key ← attempt runpodApiKey;
  match key with
  | inl e => mret (refused_sweep ("credential_unavailable: " +:+ e))
  | inr k =>
      if negb (Str.truthy k) then mret (refused_sweep "credential_unavailable")
      else
        t ← now;
        let before := t - RECONCILER_ADOPT_AFTER_MS in
        eligible ← countOpenRunpodProxyJobs before;
        rows ← listOpenRunpodProxyJobs before SWEEP_MAX_ROWS_PER_RUN;
        '(c, u, r, e) ← sweep_rows k t rows (0%nat, 0%nat, 0%nat, 0%nat);
        mret (mkSweep true None eligible (length rows) c u r e)
  end.
End handlers.

(** ** What a handler asks of RunPod *)
Inductive upstream_request (poolIds : list string) (base : string) : HttpRequest → Prop :=
| ask_run key e body bytes :
    isAllowedEndpoint e poolIds = true →
    js_field body "webhook" = JStr (callbackUrlFor base (mintWebhookToken bytes)) →
    upstream_request poolIds base (run_request key e body)
| ask_poll key op e j u :
    isAllowedEndpoint e poolIds = true → upstreamUrlFor op e j = Ok u →
    upstream_request poolIds base (poll_request key op u)
| ask_status key e j : upstream_request poolIds base (status_request key e j).

Section requests.
Context {W : Type} `{JobStore W} (I : W → Prop).
Context (fetchImpl : HttpRequest → M W string HttpResponse) (runpodApiKey : M W string string) (now : M W string Z).
Context (random32 : M W string (list ascii)) (readTenant : string → M W string (option Tenant)).
Context (sign : string → string → list ascii) (digest : string → list ascii).
Context (poolIds : list string) (base : string).
Hypothesis Hkey : preserves I runpodApiKey.
Hypothesis Hnow : preserves I now.
Hypothesis Hrandom : preserves I random32.
Hypothesis Htenant : ∀ t, preserves I (readTenant t).
Hypothesis Hopen : ∀ r, preserves I (openRunpodProxyJob r).
Hypothesis Hfind : ∀ h, preserves I (findRunpodProxyJobByWebhookToken h).
Hypothesis Hclose : ∀ r, preserves I (closeRunpodProxyJob r).
Hypothesis Hfetch : ∀ rq, upstream_request poolIds base rq → preserves I (fetchImpl rq).

Lemma with_key_preserves use : (∀ k, preserves I (use k)) → preserves I (with_key runpodApiKey use).
Proof. intros Huse. unfold with_key. preserve. apply Huse. Qed.

Lemma webhook_preserves token : preserves I (handleProxyWebhook fetchImpl runpodApiKey now digest token).
Proof.
unfold handleProxyWebhook. preserve; [apply Hfind|]. apply with_key_preserves. intros k. unfold close_from_status.
preserve; [apply Hfetch, ask_status|apply Hclose].
Qed.

Lemma poll_preserves key isAllowed request op e j :
  (isAllowed e = true → isAllowedEndpoint e poolIds = true) →
  preserves I (handleProxyPoll fetchImpl runpodApiKey sign key isAllowed request op e j).
Proof.
intros Ha. unfold handleProxyPoll. destruct (verifyTenantProxyToken _ _ _) as [tid|]; [|preserve].
destruct (isAllowed e) eqn:E; cbn [negb]; [|preserve]. unfold passthrough. apply with_key_preserves. intros k.
apply preserves_bind; [apply preserves_attempt|intros a; preserve]. intros w Hw. unfold lift, mbind, M_bind, exec. destruct (upstreamUrlFor op e j) as [u|] eqn:Hu; [|exact Hw].
apply (Hfetch (poll_request k op u)); [|done]. apply (ask_poll _ _ _ _ e j); [by apply Ha|done].
Qed.

Lemma submit_preserves key request e :
  preserves I (handleProxySubmit fetchImpl runpodApiKey now random32 readTenant sign digest (mkDeps base key poolIds) request e).
Proof.
unfold handleProxySubmit. cbn [signingKey poolEndpointIds]. destruct (verifyTenantProxyToken _ _ _); [|preserve].
apply preserves_bind; [apply preserves_attempt, Htenant|intros row].
destruct row as [|[tenant|]]; [preserve| |preserve]. destruct (submitRefusal tenant); [preserve|].
destruct (isAllowedEndpoint e poolIds) eqn:E; cbn [negb]; [|preserve]. destruct (px_json request) as [body|]; [|preserve].
unfold submit_upstream. apply with_key_preserves. intros k. apply preserves_bind; [done|intros bytes]. cbn [callbackBase].
pose proof (submit_body_ours_webhook body (callbackUrlFor base (mintWebhookToken bytes))) as Hw.
destruct (buildUpstreamSubmitBody _ _ _) as [out|]; [|preserve]. apply preserves_bind.
- apply preserves_attempt, Hfetch. by apply (ask_run _ _ _ _ _ bytes).
- intros [|res]; [preserve|]. unfold record_job. preserve. apply Hopen.
Qed.
End requests.

(** ** What a handler does to the table *)
Section table.
Context {W : Type} `{JobStoreOk W others} `{!PreOrder others}.
Context (fetchImpl : HttpRequest → M W string HttpResponse) (runpodApiKey : M W string string) (now : M W string Z).
Context (random32 : M W string (list ascii)) (readTenant : string → M W string (option Tenant)).
Context (sign : string → string → list ascii) (digest : string → list ascii).

(** The call leaves the table to the others. *)
Definition leaves_table {A} (m : M W string A) : Prop := ∀ db, preserves (λ s, others db (job_rows s)) m.

Lemma leaves_run {A} (m : M W string A) s r s' : leaves_table m → m s = (r, s') → others (job_rows s) (job_rows s').
Proof. intros Hm Hs. specialize (Hm (job_rows s) s ltac:(cbv beta; reflexivity)). unfold exec in Hm. by rewrite Hs in Hm. Qed.

Lemma find_leaves h : leaves_table (findRunpodProxyJobByWebhookToken h).
Proof.
intros db s Hs. destruct (find_runs h s) as (mid & dt & Hmid & Hrun). unfold exec.
destruct (findRunpodProxyJobByWebhookToken h s) as [[a|e] s1]; cbn in *.
- injection Hrun as _ <-. by etrans.
- destruct Hrun as [->| ->]; by etrans.
Qed.
Lemma count_leaves b : leaves_table (countOpenRunpodProxyJobs b).
Proof.
intros db s Hs. destruct (count_runs b s) as (mid & dt & Hmid & Hrun). unfold exec.
destruct (countOpenRunpodProxyJobs b s) as [[a|e] s1]; cbn in *.
- injection Hrun as _ <-. by etrans.
- destruct Hrun as [->| ->]; by etrans.
Qed.
Lemma list_leaves b n : leaves_table (listOpenRunpodProxyJobs b n).
Proof.
intros db s Hs. destruct (list_runs b n s) as (mid & dt & Hmid & Hrun). unfold exec.
destruct (listOpenRunpodProxyJobs b n s) as [[a|e] s1]; cbn in *.
- injection Hrun as _ <-. by etrans.
- destruct Hrun as [->| ->]; by etrans.
Qed.
Lemma find_answer h s ref s' :
  findRunpodProxyJobByWebhookToken h s = (Ok (Some ref), s') →
  ∃ row, row ∈ job_rows s' ∧ has_token h row = true ∧
    ref = mkJobRef (j_job_id row) (j_tenant_id row) (j_endpoint_id row) (j_terminal_at row).
Proof.
intros Hs. destruct (find_runs h s) as (mid & dt & _ & Hrun). rewrite Hs in Hrun.
unfold d1_findRunpodProxyJobByWebhookToken, gets in Hrun. injection Hrun as Hf ->.
destruct (List.find (has_token h) (job_rows s')) as [row|] eqn:E; [|done]. injection Hf as <-.
apply find_Some_elem in E as [? ?]. by exists row.
Qed.

(** A status RunPod answered, 2xx and readable, to a request of this plane for this job. *)
Definition reported (endpointId jobId : string) (facts : TerminalFacts) : Prop :=
  ∃ key g g' res status, fetchImpl (status_request key endpointId jobId) g = (Ok res, g') ∧
    rs_ok res = true ∧ rs_json res = Some status ∧ terminalFactsFromStatus jobId status = Some facts.
Definition reported_gone (endpointId jobId : string) : Prop :=
  ∃ key g g' res, fetchImpl (status_request key endpointId jobId) g = (Ok res, g') ∧ rs_status res = 404.

(** The table after one close [c], made on what the others left. *)
Definition closes_table (c : ProxyJobClose) (n : nat) (db db' : list JobRow) : Prop :=
  ∃ mid dt, others db mid ∧ d1_closeRunpodProxyJob dt c mid = (Ok n, db').

Lemma close_outcome c db s r s' :
  others db (job_rows s) → closeRunpodProxyJob c s = (r, s') →
  (∃ n, closes_table c n db (job_rows s') ∧ ∀ m, r = Ok m → m = n) ∨ (others db (job_rows s') ∧ ∃ e, r = Err e).
Proof.
intros Hdb Hs. destruct (close_runs c s) as (mid & dt & Hmid & Hrun). rewrite Hs in Hrun.
assert (others db mid) as Hm by (by etrans). destruct r as [n|e].
- left. exists n. split; [by exists mid, dt|congruence].
- destruct Hrun as [->|Hx]; [right; eauto|]. left.
  exists (changes (closes c) mid). split; [|done]. exists mid, dt. split; [done|]. by rewrite Hx.
Qed.

Lemma with_key_run use s r s' :
  leaves_table runpodApiKey → with_key runpodApiKey use s = (r, s') →
  (others (job_rows s) (job_rows s') ∧ ∃ d, r = Ok (PlaneUnavailable "credential-unavailable" d)) ∨
  ∃ k s1, others (job_rows s) (job_rows s1) ∧ use k s1 = (r, s').
Proof.
intros Hk. unfold with_key. rewrite attempt_bind. destruct (runpodApiKey s) as [[k|e] s1] eqn:Hrun;
  pose proof (leaves_run _ _ _ _ Hk Hrun) as H1.
- destruct (Str.truthy k); [right; by exists k, s1|]. intros [= <- <-]. left. eauto.
- intros [= <- <-]. left. eauto.
Qed.

Lemma close_from_status_run ref e key s r s' :
  (∀ rq, leaves_table (fetchImpl rq)) → leaves_table now →
  close_from_status fetchImpl now ref e key s = (r, s') →
  (others (job_rows s) (job_rows s') ∧ r ≠ Ok (CallbackDone true)) ∨
  ∃ facts t n, reported e (pr_job_id ref) facts ∧ closes_table (close_of facts t) n (job_rows s) (job_rows s') ∧
    ∀ b, r = Ok (CallbackDone b) → b = (n =? 1)%nat.
Proof.
intros Hf Hnow. unfold close_from_status. rewrite attempt_bind.
destruct (fetchImpl _ s) as [[res|er] s1] eqn:Hrun; pose proof (leaves_run _ _ _ _ (Hf _) Hrun) as H1; [|intros [= <- <-]; by left].
destruct (rs_ok res) eqn:Hok; cbn [negb]; [|intros [= <- <-]; by left].
destruct (rs_json res) as [status|] eqn:Hj; [|intros [= <- <-]; by left].
destruct (terminalFactsFromStatus _ status) as [facts|] eqn:Ht; [|intros [= <- <-]; by left].
rewrite bind_run. destruct (now s1) as [[t|er] s2] eqn:Hn; pose proof (leaves_run _ _ _ _ Hnow Hn) as H2;
  [|intros [= <- <-]; left; split; [by etrans|done]].
rewrite bind_run. destruct (closeRunpodProxyJob _ s2) as [rc s3] eqn:Hc.
assert (others (job_rows s) (job_rows s2)) as H02 by (by etrans).
destruct (close_outcome _ _ _ _ _ H02 Hc) as [(n & Hcl & Hrc)|[H03 [er ->]]]; [|intros [= <- <-]; by left].
intros Hr. assert (job_rows s' = job_rows s3) as -> by (destruct rc; by injection Hr as <- <-). right. exists facts, t, n.
split; [by exists key, s, s1, res, status|]. split; [done|]. intros b ->. destruct rc as [m|]; [|done].
injection Hr as Hb _. by rewrite (Hrc m eq_refl) in Hb.
Qed.
End table.
#[export] Hint Resolve find_leaves count_leaves list_leaves : plane.

(** A callback closes a job only on RunPod's own word.  Whatever calls the callback route with
    whatever token, and whatever runs in between, the handler either leaves the table to the others
    or closes once, with the terminal facts RunPod itself answered, 2xx, to the plane's own request
    for the open job that holds the hash of this token; and it answers that it closed exactly when
    that statement changed a row. *)
Theorem callback_closes_only_what_runpod_reports {W} `{JobStoreOk W others} `{!PreOrder others}
    (fetchImpl : HttpRequest → M W string HttpResponse) runpodApiKey now digest token s r s' :
  (∀ rq, leaves_table (others := others) (fetchImpl rq)) → leaves_table (others := others) runpodApiKey → leaves_table (others := others) now →
  handleProxyWebhook fetchImpl runpodApiKey now digest token s = (r, s') →
  (others (job_rows s) (job_rows s') ∧ r ≠ Ok (CallbackDone true)) ∨
  ∃ row seen endpointId facts t n,
    others (job_rows s) seen ∧ row ∈ seen ∧ has_token (sha256Hex digest token) row = true ∧
    is_open_row row = true ∧ j_endpoint_id row = Some endpointId ∧
    reported fetchImpl endpointId (j_job_id row) facts ∧
    closes_table (others := others) (close_of facts t) n (job_rows s) (job_rows s') ∧
    ∀ b, r = Ok (CallbackDone b) → b = (n =? 1)%nat.
Proof.
  intros Hf Hk Hnow. unfold handleProxyWebhook. rewrite attempt_bind.
  destruct (findRunpodProxyJobByWebhookToken _ s) as [[found|e] s1] eqn:Hfind;
    pose proof (leaves_run _ _ _ _ (find_leaves _) Hfind) as H1; [|intros [= <- <-]; by left].
  destruct found as [ref|]; [|intros [= <- <-]; by left].
  apply find_answer in Hfind as (row & Hrow & Htok & ->). cbn [pr_terminal_at pr_endpoint_id].
  destruct (j_terminal_at row) eqn:Hopen; [intros [= <- <-]; by left|].
  destruct (j_endpoint_id row) as [ep|] eqn:Hep; [|intros [= <- <-]; by left].
  destruct (Str.truthy ep); [|intros [= <- <-]; by left]. intros Hw.
  destruct (with_key_run _ _ _ _ _ Hk Hw) as [[H2 [d ->]]|(k & s2 & H2 & Hs)]; [left; split; [by etrans|done]|].
  destruct (close_from_status_run _ _ _ _ _ _ _ _ Hf Hnow Hs) as [[H3 Hr]|(facts & t & n & Hrep & Hcl & Hb)].
  - left. split; [|done]. etrans; [exact H1|]. by etrans.
  - right. exists row, (job_rows s1), ep, facts, t, n. split_and!; try done.
    + unfold is_open_row. by rewrite Hopen.
    + destruct Hcl as (mid & dt & Hmid & Hd). exists mid, dt. split; [|done]. etrans; [exact H1|]. by etrans.
Qed.

(** The proxy asks RunPod only for what it serves.  Any assertion that survives the store, the clock
    and the requests of [upstream_request] survives every proxied request: so the plane sends RunPod
    nothing but a run on an allowed endpoint carrying the plane's own callback, a status, cancel or
    health of an allowed endpoint, or the status of a job it recorded; in particular never a
    purge-queue.  A submit or poll without a valid credential is refused without any call at all. *)
Theorem proxy_asks_only_what_it_serves {W} `{JobStore W} (I : W → Prop) fetchImpl runpodApiKey now random32 readTenant sign digest
    json_parse env request handler :
  proxyRouter fetchImpl runpodApiKey now random32 readTenant sign digest json_parse env request = Some handler →
  (preserves I runpodApiKey → preserves I now → preserves I random32 → (∀ t, preserves I (readTenant t)) →
   (∀ r, preserves I (openRunpodProxyJob r)) → (∀ h, preserves I (findRunpodProxyJobByWebhookToken h)) →
   (∀ r, preserves I (closeRunpodProxyJob r)) →
   (∀ rq, upstream_request (pool_ids_of json_parse env) (publicOrigin env +:+ PROXY_WEBHOOK_PREFIX) rq → preserves I (fetchImpl rq)) →
   preserves I handler) ∧
  ((∀ t, matchProxyRoute (px_method request) (px_path request) ≠ Some (RouteWebhook t)) →
   verifyTenantProxyToken sign (RUNPOD_PROXY_SIGNING_KEY env) (bearerFrom (px_authorization request)) = None →
   ∀ s, ∃ a, handler s = (Ok a, s) ∧ (answer_status a = 401 ∨ answer_status a = 404)).
Proof.
  unfold proxyRouter. destruct (matchProxyRoute _ _) as [route|]; [|done]. intros [= <-]. split.
  - intros. destruct route as [e|op e j|t|]; cbn [runpodProxyRoutes].
    + by apply submit_preserves.
    + by eapply poll_preserves.
    + by eapply webhook_preserves.
    + preserve.
  - intros Hw Hv s. destruct route as [e|op e j|t|]; cbn [runpodProxyRoutes].
    + unfold handleProxySubmit. cbn [signingKey]. rewrite Hv. eexists. split; [reflexivity|]. by left.
    + unfold handleProxyPoll. rewrite Hv. eexists. split; [reflexivity|]. by left.
    + by destruct (Hw t).
    + eexists. split; [reflexivity|]. by right.
Qed.

(** A refusal, whatever the network is. *)
Ltac refused := intros [= <- <-]; try done; intros network;
  repeat (first [rewrite attempt_bind | rewrite bind_run | match goal with H : ?m ?s = _ |- context [?m ?s] => rewrite H end
    | rewrite String.eqb_refl]; cbv beta iota; cbn [negb]); try done.

(** C9. Only a live, unsuspended tenant of the shared tier spends.  When a submit gets as far as RunPod,
    the caller holds a credential of this plane, its row was read in this very request and is live,
    not deleted, not suspended and shared, and the endpoint is allowed; the request carries the
    tenant's body under the plane's callback and the plane's key; and once RunPod accepted a job, the
    store was asked to record it for that tenant and endpoint under the hash of the token in that
    callback, which it did unless it failed itself.  Every refusal is made before anything is
    submitted: it is the same whatever the network would have answered. *)
Theorem submit_spends_only_for_live_tenants {W} `{JobStoreOk W others}
    fetchImpl runpodApiKey now random32 readTenant sign digest deps request endpointId s ans s' :
  handleProxySubmit fetchImpl runpodApiKey now random32 readTenant sign digest deps request endpointId s = (Ok ans, s') →
  match ans with
  | PassThrough _ | UpstreamUnreachable _ =>
      ∃ tenantId tenant s1 body key s2 bytes s3 upstream,
        verifyTenantProxyToken sign (signingKey deps) (bearerFrom (px_authorization request)) = Some tenantId ∧
        readTenant tenantId s = (Ok (Some tenant), s1) ∧
        t_deleted_at tenant = None ∧ t_suspended_at tenant = None ∧ t_status tenant = "live" ∧ t_runpod_mode tenant = "shared" ∧
        isAllowedEndpoint endpointId (poolEndpointIds deps) = true ∧
        px_json request = Some body ∧
        runpodApiKey s1 = (Ok key, s2) ∧ Str.truthy key = true ∧ random32 s2 = (Ok bytes, s3) ∧
        buildUpstreamSubmitBody body (callbackUrlFor (callbackBase deps) (mintWebhookToken bytes)) None = Ok upstream ∧
        match ans with
        | UpstreamUnreachable e => fetchImpl (run_request key endpointId upstream) s3 = (Err e, s')
        | PassThrough res => ∃ s4, fetchImpl (run_request key endpointId upstream) s3 = (Ok res, s4) ∧
            match (if rs_ok res then jobIdFrom res else None) with
            | None => s' = s4
            | Some jobId =>
                ∃ t s5 mid dt, now s4 = (Ok t, s5) ∧ others (job_rows s5) mid ∧
                let job := mkJobOpen jobId (t_id tenant) (t_slug tenant) (px_module request) endpointId t
                             (sha256Hex digest (mintWebhookToken bytes)) in
                s' = exec (openRunpodProxyJob job) s5 ∧
                match eval (openRunpodProxyJob job) s5 with
                | Ok _ => d1_openRunpodProxyJob dt job mid = (Ok tt, job_rows s')
                | Err _ => job_rows s' = mid ∨ job_rows s' = exec (d1_openRunpodProxyJob dt job) mid
                end
            end
        | _ => True
        end
  | Refuse _ | PlaneUnavailable _ _ =>
      ∀ network, handleProxySubmit network runpodApiKey now random32 readTenant sign digest deps request endpointId s = (Ok ans, s')
  | _ => False
  end.
Proof.
  unfold handleProxySubmit. destruct (verifyTenantProxyToken _ _ _) as [tid|]; [|refused].
  rewrite attempt_bind. destruct (readTenant tid s) as [[[tenant|]|e] s1] eqn:Ht; [|refused..].
  unfold submitRefusal. destruct (t_deleted_at tenant) eqn:Hd; [refused|].
  destruct (t_suspended_at tenant) eqn:Hsu; [refused|].
  destruct (t_status tenant =s? "live") eqn:Hst; cbn [negb]; [|refused].
  destruct (t_runpod_mode tenant =s? "shared") eqn:Hm; cbn [negb]; [|refused]. bool_hyps.
  destruct (isAllowedEndpoint endpointId _) eqn:Ha; cbn [negb]; [|refused].
  destruct (px_json request) as [body|] eqn:Hb; [|refused].
  unfold submit_upstream, with_key. rewrite attempt_bind.
  destruct (runpodApiKey s1) as [[k|e] s2] eqn:Hk; [|refused]. destruct (Str.truthy k) eqn:Hkt; [|refused].
  rewrite bind_run. destruct (random32 s2) as [[bytes|e] s3] eqn:Hr; [|done].
  destruct (buildUpstreamSubmitBody body _ None) as [up|] eqn:Hup; [|refused].
  rewrite attempt_bind. destruct (fetchImpl _ s3) as [[res|e] s4] eqn:Hf.
  - rewrite bind_run. destruct (record_job now digest tenant (px_module request) endpointId (mintWebhookToken bytes) res s4) as [[[]|e] s5] eqn:Hrec; [|done].
    intros [= <- <-]. exists tid, tenant, s1, body, k, s2, bytes, s3, up. split_and!; try done. exists s4. split; [done|].
    revert Hrec. unfold record_job. destruct (if rs_ok res then jobIdFrom res else None) as [job|]; [|by intros [= <-]].
    rewrite bind_run. destruct (now s4) as [[t|e] s6] eqn:Hn; [|done]. rewrite attempt_bind.
    destruct (open_runs (mkJobOpen job (t_id tenant) (t_slug tenant) (px_module request) endpointId t
      (sha256Hex digest (mintWebhookToken bytes))) s6) as (mid & dt & Hmid & Hrun).
    exists t, s6, mid, dt. cbv zeta. unfold exec, eval in *.
    destruct (openRunpodProxyJob _ s6) as [[[]|e] s7]; match goal with H : _ = (Ok tt, _) |- _ => injection H as <- end; by split_and!.
  - intros [= <- <-]. by exists tid, tenant, s1, body, k, s2, bytes, s3, up.
Qed.

(** ** The sweep *)
Section sweep.
Context {W : Type} `{JobStoreOk W others} `{!PreOrder others}.
Context (fetchImpl : HttpRequest → M W string HttpResponse).
Hypothesis Hfetch : ∀ rq, leaves_table (others := others) (fetchImpl rq).

(** The only two closes of a sweep at [t]. *)
Definition sweep_close (t : Z) (c : ProxyJobClose) : Prop :=
  ∃ job, (∃ facts, reported fetchImpl (oj_endpoint_id job) (oj_job_id job) facts ∧ c = close_of facts t) ∨
         (reported_gone fetchImpl (oj_endpoint_id job) (oj_job_id job) ∧ past_horizon t (oj_submitted_at job) = true ∧
          c = unknown_close (oj_job_id job) t).
Definition sweep_step (t : Z) (db db' : list JobRow) : Prop :=
  others db db' ∨ ∃ c dt, sweep_close t c ∧ db' = exec (d1_closeRunpodProxyJob dt c) db.

Lemma sweep_others t db db' : others db db' → steps (sweep_step t) db db'.
Proof. intros Ho. apply steps_one. by left. Qed.

Lemma probe_run key job s r s' :
  probeJob fetchImpl key job s = (r, s') →
  others (job_rows s) (job_rows s') ∧
  match r with
  | Ok (ProbeTerminal status) => ∃ facts, terminalFactsFromStatus (oj_job_id job) status = Some facts ∧
                                   reported fetchImpl (oj_endpoint_id job) (oj_job_id job) facts
  | Ok ProbeGone => reported_gone fetchImpl (oj_endpoint_id job) (oj_job_id job)
  | Ok _ => True
  | Err _ => False
  end.
Proof.
unfold probeJob. rewrite attempt_bind. destruct (fetchImpl _ s) as [[res|e] s1] eqn:Hf;
  pose proof (leaves_run _ _ _ _ (Hfetch _) Hf) as H1; [|by intros [= <- <-]].
destruct (rs_status res =? 404) eqn:E4.
{ intros [= <- <-]. split; [done|]. exists key, s, s1, res. bool_hyps. done. }
destruct (rs_ok res) eqn:Hok; cbn [negb]; [|by intros [= <- <-]].
destruct (rs_json res) as [status|] eqn:Hj; [|by intros [= <- <-]].
destruct (terminalFactsFromStatus _ status) as [facts|] eqn:Ht; intros [= <- <-]; (split; [done|]); [|done].
exists facts. split; [done|]. by exists key, s, s1, res, status.
Qed.

Lemma close_steps t c s r s' :
  sweep_close t c → closeRunpodProxyJob c s = (r, s') → steps (sweep_step t) (job_rows s) (job_rows s').
Proof.
intros Hc Hs. assert (others (job_rows s) (job_rows s)) as Hrefl by reflexivity.
destruct (close_outcome _ _ _ _ _ Hrefl Hs) as [(n & (mid & dt & Hmid & Hd) & _)|[Ho _]]; [|by apply sweep_others].
eapply steps_next; [left; exact Hmid|]. apply steps_one. right. exists c, dt. split; [done|]. unfold exec. by rewrite Hd.
Qed.

Lemma sweep_row_steps key t job acc s r s' :
  sweep_row fetchImpl key t job acc s = (r, s') → steps (sweep_step t) (job_rows s) (job_rows s').
Proof.
unfold sweep_row. rewrite bind_run. destruct (probeJob _ _ _ s) as [rp s1] eqn:Hp.
destruct (probe_run _ _ _ _ _ Hp) as [Ho Hr]. apply (sweep_others t) in Ho.
destruct rp as [[status| | |d]|e]; [|by intros [= <- <-]| |by intros [= <- <-]|done].
- destruct Hr as (facts & -> & Hrep). rewrite bind_run. destruct (closeRunpodProxyJob _ s1) as [rc s2] eqn:Hc.
  intros Hs. assert (s' = s2) as -> by (destruct rc; by injection Hs). eapply steps_trans; [exact Ho|].
  eapply close_steps; [|exact Hc]. exists job. left. by exists facts.
- destruct (past_horizon _ _) eqn:Hpast; cbn [negb]; [|by intros [= <- <-]]. rewrite bind_run.
  destruct (closeRunpodProxyJob _ s1) as [rc s2] eqn:Hc.
  intros Hs. assert (s' = s2) as -> by (destruct rc; by injection Hs). eapply steps_trans; [exact Ho|].
  eapply close_steps; [|exact Hc]. exists job. by right.
Qed.

Lemma sweep_rows_steps key t jobs acc s r s' :
  sweep_rows fetchImpl key t jobs acc s = (r, s') → steps (sweep_step t) (job_rows s) (job_rows s').
Proof.
revert acc s. induction jobs as [|job jobs IH]; intros acc s; cbn [sweep_rows]; [intros [= <- <-]; constructor|].
rewrite bind_run. destruct (sweep_row _ _ _ _ _ s) as [[acc'|e] s1] eqn:Hrow; pose proof (sweep_row_steps _ _ _ _ _ _ _ Hrow) as H1.
- intros Hs. eapply steps_trans; [exact H1|]. by eapply IH.
- by intros [= <- <-].
Qed.
End sweep.

(** The sweep never invents an outcome.  However a sweep ends, a thrown store error included, the
    table went through the others' steps and closes of two kinds only: with the terminal facts RunPod
    answered to the sweep's own request for that job, or as unknown for a job RunPod answered 404 for
    and whose submission is past the retention horizon at the sweep's instant.  Without a credential
    it asks nothing and reports that it did not run. *)
Theorem sweep_never_invents_an_outcome {W} `{JobStoreOk W others} `{!PreOrder others}
    (fetchImpl : HttpRequest → M W string HttpResponse) runpodApiKey now s r s' :
  (∀ rq, leaves_table (others := others) (fetchImpl rq)) → leaves_table (others := others) runpodApiKey → leaves_table (others := others) now →
  runRunpodJobSweep fetchImpl runpodApiKey now s = (r, s') →
  ∃ t, steps (sweep_step (others := others) fetchImpl t) (job_rows s) (job_rows s') ∧
    match runpodApiKey s with
    | (Ok k, s1) => Str.truthy k = false → r = Ok (refused_sweep "credential_unavailable") ∧ s' = s1
    | (Err e, s1) => r = Ok (refused_sweep ("credential_unavailable: " +:+ e)) ∧ s' = s1
    end.
Proof.
  intros Hf Hk Hn. unfold runRunpodJobSweep. rewrite attempt_bind.
  destruct (runpodApiKey s) as [[k|e] s1] eqn:Hkey; pose proof (leaves_run _ _ _ _ Hk Hkey) as H1.
  2: { intros [= <- <-]. exists 0. split; [by apply sweep_others|done]. }
  destruct (Str.truthy k) eqn:Hkt; cbn [negb]; [|intros [= <- <-]; exists 0; split; [by apply sweep_others|done]].
  rewrite bind_run. destruct (now s1) as [[t|e] s2] eqn:Ht; pose proof (leaves_run _ _ _ _ Hn Ht) as H2;
    [|intros [= <- <-]; exists 0; split; [apply sweep_others; by etrans|done]].
  intros Hs. exists t. split; [|done]. apply (steps_trans _ _ (job_rows s2)); [apply sweep_others; by etrans|].
  revert Hs. rewrite bind_run. destruct (countOpenRunpodProxyJobs _ s2) as [[el|e] s3] eqn:Hc;
    pose proof (leaves_run _ _ _ _ (count_leaves _) Hc) as H3; [|intros [= <- <-]; by apply sweep_others].
  rewrite bind_run. destruct (listOpenRunpodProxyJobs _ _ s3) as [[rows|e] s4] eqn:Hl;
    pose proof (leaves_run _ _ _ _ (list_leaves _ _) Hl) as H4; [|intros [= <- <-]; apply sweep_others; by etrans].
  apply (sweep_others fetchImpl t) in H3, H4.
  rewrite bind_run. destruct (sweep_rows _ _ _ _ _ s4) as [rr s5] eqn:Hr.
  pose proof (sweep_rows_steps fetchImpl Hf _ _ _ _ _ _ _ Hr) as H5.
  intros Hs. assert (s' = s5) as -> by (destruct rr as [[[[? ?] ?] ?]|]; by injection Hs).
  eapply steps_trans; [exact H3|]. by eapply steps_trans.
Qed.

(** ** A quiet sweep: nobody else touches the table while it runs *)
Definition open_count (db : list JobRow) : nat := changes is_open_row db.
Definition open_in (db : list JobRow) (i : string) : Prop := ∃ row, row ∈ db ∧ j_job_id row = i ∧ is_open_row row = true.

Lemma close_one dt c db :
  jobs_ok db → open_in db (pc_job_id c) →
  ∃ db', d1_closeRunpodProxyJob dt c db = (Ok 1%nat, db') ∧ open_count db = S (open_count db') ∧
    (∀ i, i ≠ pc_job_id c → open_in db i → open_in db' i).
Proof.
  intros Hok (row & Hin & Hid & Hopen). destruct Hok as [Hnd _]. pose proof Hin as Hrow.
  destruct (unique_split j_job_id db row Hnd Hin) as (l1 & l2 & -> & H1 & H2).
  assert (∀ l : list JobRow, (∀ y, y ∈ l → j_job_id y ≠ j_job_id row) → ∀ y, y ∈ l → closes c y = false) as Hno.
  { intros l Hl y Hy. unfold closes, has_job. rewrite (proj2 (String.eqb_neq _ _)); [done|]. rewrite <- Hid. by apply Hl. }
  assert (closes c row = true) as Hrc by (unfold closes, has_job; by rewrite Hid, String.eqb_refl, Hopen).
  exists (l1 ++ closed_row dt c row :: l2). unfold d1_closeRunpodProxyJob, open_count, changes. split_and!.
  - rewrite update_where_app, jfilter_app. cbn [update_where fmap list_fmap]. unfold jfilter at 2. cbn [List.filter].
    rewrite Hrc, (proj2 (jfilter_nil_iff _ l1)), (update_where_id _ _ l1) by (by apply Hno).
    change ((λ x, if closes c x then closed_row dt c x else x) <$> l2) with (update_where (closes c) (closed_row dt c) l2).
    change (List.filter (closes c) l2) with (jfilter (closes c) l2).
    by rewrite (proj2 (jfilter_nil_iff _ l2)), (update_where_id _ _ l2) by (by apply Hno).
  - rewrite !jfilter_app, !length_app. unfold jfilter at 2 4. cbn [List.filter is_open_row closed_row j_terminal_at].
    rewrite Hopen. cbn [length]. lia.
  - intros i Hi (x & Hx & Hxi & Hxo). exists x. split; [|done]. apply elem_of_app in Hx as [Hx|[->|Hx]%elem_of_cons].
    + apply elem_of_app. by left.
    + by rewrite Hid in Hxi.
    + apply elem_of_app. right. by right.
Qed.

Section quiet.
Context {W : Type} `{JobStoreOk W eq} (fetchImpl : HttpRequest → M W string HttpResponse).
Hypothesis Hfetch : ∀ rq, leaves_table (others := eq) (fetchImpl rq).

Lemma close_quiet c s n s' :
  jobs_ok (job_rows s) → open_in (job_rows s) (pc_job_id c) → closeRunpodProxyJob c s = (Ok n, s') →
  n = 1%nat ∧ open_count (job_rows s) = S (open_count (job_rows s')) ∧ jobs_ok (job_rows s') ∧
  ∀ i, i ≠ pc_job_id c → open_in (job_rows s) i → open_in (job_rows s') i.
Proof.
intros Hok Hopen Hs. destruct (close_runs c s) as (mid & dt & <- & Hrun). rewrite Hs in Hrun.
destruct (close_one dt c _ Hok Hopen) as (db' & Hc & Hn & Hi). rewrite Hc in Hrun. injection Hrun as <- <-.
split_and!; try done. apply (job_step_ok (job_rows s)); [done|].
assert (db' = exec (d1_closeRunpodProxyJob dt c) (job_rows s)) as -> by (unfold exec; by rewrite Hc). constructor.
Qed.

Definition total (t : nat * nat * nat * nat) : nat := let '(c, u, r, e) := t in (c + u + r + e)%nat.
Definition written (t : nat * nat * nat * nat) : nat := let '(c, u, _, _) := t in (c + u)%nat.

Lemma sweep_row_quiet key t job acc s acc' s' :
  jobs_ok (job_rows s) → open_in (job_rows s) (oj_job_id job) →
  sweep_row fetchImpl key t job acc s = (Ok acc', s') →
  jobs_ok (job_rows s') ∧ total acc' = S (total acc) ∧
  (open_count (job_rows s) + written acc = open_count (job_rows s') + written acc')%nat ∧
  ∀ i, i ≠ oj_job_id job → open_in (job_rows s) i → open_in (job_rows s') i.
Proof.
intros Hok Hopen. unfold sweep_row. rewrite bind_run. destruct acc as [[[c u] r] e].
destruct (probeJob _ _ _ s) as [rp s1] eqn:Hp.
destruct (probe_run (others := eq) fetchImpl Hfetch _ _ _ _ _ Hp) as [Heq Hr].
assert (∀ c', pc_job_id c' = oj_job_id job → ∀ n s2, closeRunpodProxyJob c' s1 = (Ok n, s2) →
  n = 1%nat ∧ open_count (job_rows s) = S (open_count (job_rows s2)) ∧ jobs_ok (job_rows s2) ∧
  ∀ i, i ≠ oj_job_id job → open_in (job_rows s) i → open_in (job_rows s2) i) as Hclose.
{ intros c' Hc' n s2 Hs2. rewrite <- Hc', Heq in *. by apply close_quiet. }
destruct rp as [[status| | |d]|er]; [| | | |done].
- destruct Hr as (facts & Ht & _). rewrite Ht, bind_run. destruct (closeRunpodProxyJob _ s1) as [[n|er] s2] eqn:Hc; [|done].
  assert (tf_jobId facts = oj_job_id job) as Hj.
  { pose proof (terminal_facts_job (oj_job_id job) status) as Hx. by rewrite Ht in Hx. }
  destruct (Hclose (close_of facts t) Hj n s2 Hc) as (-> & Ho & Hok2 & Hi). intros [= <- <-]. cbn [total written tally]. split_and!; try done; lia.
- intros [= <- <-]. rewrite <- Heq. cbn [total written tally]. split_and!; try done; lia.
- destruct (past_horizon _ _); cbn [negb].
  + rewrite bind_run. destruct (closeRunpodProxyJob _ s1) as [[n|er] s2] eqn:Hc; [|done].
    destruct (Hclose (unknown_close (oj_job_id job) t) eq_refl n s2 Hc) as (-> & Ho & Hok2 & Hi). intros [= <- <-].
    cbn [total written tally]. split_and!; try done; lia.
  + intros [= <- <-]. rewrite <- Heq. cbn [total written tally]. split_and!; try done; lia.
- intros [= <- <-]. rewrite <- Heq. cbn [total written tally]. split_and!; try done; lia.
Qed.

Lemma sweep_rows_quiet key t jobs acc s acc' s' :
  jobs_ok (job_rows s) → NoDup (oj_job_id <$> jobs) → (∀ job, job ∈ jobs → open_in (job_rows s) (oj_job_id job)) →
  sweep_rows fetchImpl key t jobs acc s = (Ok acc', s') →
  total acc' = (total acc + length jobs)%nat ∧
  (open_count (job_rows s) + written acc = open_count (job_rows s') + written acc')%nat.
Proof.
revert acc s. induction jobs as [|job jobs IH]; intros acc s Hok Hnd Hopen; cbn [sweep_rows].
- intros [= -> ->]. cbn. lia.
- rewrite bind_run. destruct (sweep_row _ _ _ _ _ s) as [[acc1|er] s1] eqn:Hrow; [|done].
  cbn in Hnd. apply NoDup_cons in Hnd as [Hnin Hnd].
  destruct (sweep_row_quiet _ _ _ _ _ _ _ Hok (Hopen job ltac:(left)) Hrow) as (Hok1 & Ht & Hw & Hi).
  intros Hs. apply IH in Hs as [Ht2 Hw2]; [cbn; lia|done|done|]. intros j Hj. apply Hi; [|apply Hopen; by right].
  intros Heq. apply Hnin. rewrite <- Heq. by apply list_elem_of_fmap_2.
Qed.
End quiet.

Lemma listed_open before limit db jobs db' :
  jobs_ok db → d1_listOpenRunpodProxyJobs before limit db = (Ok jobs, db') →
  NoDup (oj_job_id <$> jobs) ∧ (∀ job, job ∈ jobs → open_in db (oj_job_id job)) ∧
  length jobs = Nat.min limit (changes (sweepable before) db).
Proof.
  intros [Hnd _] [= <- _]. set (queue := jfilter (sweepable before) db).
  pose proof (order_by_perm older_first queue) as Hp. split_and!.
  - rewrite <- list_fmap_compose. apply (NoDup_app _ (j_job_id <$> skipn limit (order_by older_first queue))).
    change (oj_job_id ∘ _) with j_job_id. rewrite <- fmap_app, firstn_skipn, Hp. by apply jfilter_NoDup_fmap.
  - intros job (row & -> & Hrow)%list_elem_of_fmap. apply elem_of_take in Hrow as (i & Hrow & _).
    apply list_elem_of_lookup_2 in Hrow. rewrite Hp in Hrow. apply elem_of_jfilter in Hrow as [Hin Hs].
    exists row. split_and!; [done|done|]. unfold sweepable in Hs. by bool_hyps.
  - rewrite length_fmap, length_firstn, (Permutation_length Hp). done.
Qed.

(** The report of a sweep is true.  When nobody else writes while it runs, a sweep that returns counts
    every open job it could have asked about and asked as many of them as the cap allows; each asked job is
    counted once, as closed, unknown, still running or not learnt; and the jobs it reports closed or
    unknown are exactly the drop in open jobs. *)
Theorem sweep_report_is_true {W} `{JobStoreOk W eq} (fetchImpl : HttpRequest → M W string HttpResponse) runpodApiKey now s res s' :
  (∀ rq, leaves_table (others := eq) (fetchImpl rq)) → leaves_table (others := eq) runpodApiKey → leaves_table (others := eq) now →
  jobs_ok (job_rows s) →
  runRunpodJobSweep fetchImpl runpodApiKey now s = (Ok res, s') →
  (sw_closed res + sw_unknown res + sw_stillRunning res + sw_errors res = sw_examined res)%nat ∧
  (open_count (job_rows s) = open_count (job_rows s') + sw_closed res + sw_unknown res)%nat ∧
  if sw_ran res
  then ∃ t, sw_eligible res = changes (sweepable (t - RECONCILER_ADOPT_AFTER_MS)) (job_rows s) ∧
            sw_examined res = Nat.min SWEEP_MAX_ROWS_PER_RUN (sw_eligible res)
  else job_rows s' = job_rows s ∧ sw_examined res = 0%nat ∧ is_Some (sw_reason res).
Proof.
  intros Hf Hk Hn Hok. unfold runRunpodJobSweep. rewrite attempt_bind.
  destruct (runpodApiKey s) as [[k|e] s1] eqn:Hkey; pose proof (leaves_run (others := eq) _ _ _ _ Hk Hkey) as H1.
  2: { intros [= <- <-]. rewrite H1. cbn. split_and!; try done; lia. }
  destruct (Str.truthy k); cbn [negb]; [|intros [= <- <-]; rewrite H1; cbn; split_and!; try done; lia].
  rewrite bind_run. destruct (now s1) as [[t|e] s2] eqn:Ht; [|done]. pose proof (leaves_run (others := eq) _ _ _ _ Hn Ht) as H2.
  rewrite bind_run. destruct (count_runs (t - RECONCILER_ADOPT_AFTER_MS) s2) as (mid & dt & <- & Hc).
  destruct (countOpenRunpodProxyJobs _ s2) as [[el|e] s3]; [|done]. injection Hc as Hel H3.
  rewrite bind_run. destruct (list_runs (t - RECONCILER_ADOPT_AFTER_MS) SWEEP_MAX_ROWS_PER_RUN s3) as (mid & dt' & <- & Hl).
  destruct (listOpenRunpodProxyJobs _ _ s3) as [[rows|e] s4]; [|done].
  assert (job_rows s3 = job_rows s) as Hs3 by congruence. assert (job_rows s4 = job_rows s3) as Hs4 by (by injection Hl).
  rewrite Hs3 in Hl. destruct (listed_open _ _ _ _ _ Hok Hl) as (Hnd & Hopen & Hlen).
  rewrite bind_run. destruct (sweep_rows _ _ _ _ _ s4) as [[[[[c u] r] er]|e] s5] eqn:Hr; [|done].
  intros [= <- <-]. apply sweep_rows_quiet in Hr as [Htot Hw]; [|done|by rewrite Hs4, Hs3|done|by rewrite Hs4, Hs3].
  rewrite Hs4, Hs3 in Hw. cbn in Htot, Hw |- *. split_and!; [lia|lia|]. exists t.
  rewrite <- Hel, <- H2, <- H1. split; [done|]. by rewrite Hlen.
Qed.

(** C34. Every open job gets its chances.  Whatever the phase of the cron, an open job of the proxy is in
    the sweep's queue and inside the retention horizon at no fewer than [SWEEP_ATTEMPTS_PER_ROW] ticks
    (four, as configured), and in the worst phase at no more: the constant is exactly the number of
    attempts the backstop guarantees, for any delays and period. *)
Theorem every_open_job_gets_its_attempts adopt retention period submitted phase :
  0 < period →
  let inside k := submitted + adopt < phase + k * period ∧ phase + k * period < submitted + retention in
  (∃ ks, NoDup ks ∧ Z.of_nat (length ks) = sweep_attempts adopt retention period ∧ ∀ k, k ∈ ks → inside k) ∧
  (phase = submitted + adopt → ∀ ks, NoDup ks → (∀ k, k ∈ ks → inside k) → Z.of_nat (length ks) <= sweep_attempts adopt retention period) ∧
  SWEEP_ATTEMPTS_PER_ROW = 4 ∧
  (∀ row k, adopt = RECONCILER_ADOPT_AFTER_MS → retention = OBSERVED_RESULT_RETENTION_MS →
     is_open_row row = true → j_source row = Some "proxy" → is_Some (j_endpoint_id row) →
     j_submitted_at row = Some (Num.NInt submitted) → Z.abs (phase + k * period - submitted) <= Num.max_safe → inside k →
     sweepable (phase + k * period - RECONCILER_ADOPT_AFTER_MS) row = true ∧
     past_horizon (phase + k * period) (j_submitted_at row) = false).
Proof.
  intros Hp inside. set (n := sweep_attempts adopt retention period).
  assert (n = Z.max 0 (ceil_div (retention - adopt - period) period)) as Hn by done. unfold ceil_div in Hn.
  pose proof (Z.div_mod (- (retention - adopt - period)) period ltac:(lia)) as Hd.
  pose proof (Z.mod_pos_bound (- (retention - adopt - period)) period Hp) as Hb.
  set (q := - (retention - adopt - period) / period) in *. split_and!.
  - pose proof (Z.div_mod (submitted + adopt - phase) period ltac:(lia)) as Hd0.
    pose proof (Z.mod_pos_bound (submitted + adopt - phase) period Hp) as Hb0.
    set (k0 := (submitted + adopt - phase) / period) in *.
    exists ((λ i, k0 + 1 + Z.of_nat i) <$> seq 0 (Z.to_nat n)). split_and!.
    + apply NoDup_fmap; [intros i j Hij; lia|apply NoDup_seq].
    + rewrite length_fmap, length_seq. lia.
    + intros k (i & -> & Hi%elem_of_seq)%list_elem_of_fmap. unfold inside. split; nia.
  - intros -> ks Hnd Hin. transitivity (Z.of_nat (length ((λ i, 1 + Z.of_nat i) <$> seq 0 (Z.to_nat n)))).
    + apply inj_le, submseteq_length, NoDup_submseteq; [done|]. intros k Hk. specialize (Hin k Hk). unfold inside in Hin.
      apply list_elem_of_fmap. exists (Z.to_nat (k - 1)). assert (0 < k) by nia. split; [lia|]. apply elem_of_seq. nia.
    + rewrite length_fmap, length_seq. lia.
  - done.
  - intros row k -> -> Hopen Hsrc Hep Hsub Hsafe [H1 H2]. split.
    + unfold sweepable. rewrite Hopen, Hsub, !bool_decide_eq_true_2 by done. cbn. apply Z.ltb_lt. lia.
    + rewrite Hsub. cbn. rewrite make_int by (unfold OBSERVED_RESULT_RETENTION_MS in *; lia). cbn. apply Z.ltb_ge. lia.
Qed.
