(* ===== verification/Reconcile.v ===== *)
(** * Comparing the records with a RunPod account (src/reconcile-runpod.ts and its route of src/index.ts)

    An operator brings a snapshot of a RunPod account, the plane its tenant records; the report says
    where they differ, in two layers, and how sure it is.  Nothing is written.  The text of a JSON parse
    error is a parameter, and so is the list of tenants the store returns. *)

From S2P Require Import Settlement.
From S2P Require Export RunpodPool.
From Stdlib Require Import Ascii.
Open Scope string_scope.
Open Scope list_scope.
Open Scope Z_scope.
Open Scope plane_scope.

(** ** Both sides *)
Definition MAX_INVENTORY_RESOURCES : nat := 5000.
Record RunPodResource := mkResource { rr_id : string; rr_name : string }.
#[export] Instance RunPodResource_eq_dec : EqDecision RunPodResource.
Proof. solve_decision. Defined.
Record RunPodInventory := mkInventory {
  iv_account_label : string; iv_read_at : string; iv_complete : bool; iv_endpoints : list RunPodResource; iv_templates : list RunPodResource;
}.
Record TenantCensus := mkTenantCensus { ce_tenants : list Tenant; ce_complete : bool }.

Inductive DriftKind := RecordEndpointMissing | RecordEndpointRenamed | RecordTemplateMissing | OrphanEndpoint | OrphanTemplate | RecordUnreadable.
Inductive Layer := EndpointLayer | TemplateLayer | RecordLayer.
Inductive UnprovenReason := InventoryIncomplete | TenantCensusIncomplete.
(** [None] when proven. *)
Record DriftFinding := mkFinding {
  df_kind : DriftKind; df_layer : Layer; df_unproven : option UnprovenReason; df_tenant_id : option string; df_tenant_slug : option string;
  df_tenant_status : option string; df_resource_id : option string; df_resource_name : option string; df_endpoint_key : option string; df_detail : string;
}.
#[export] Instance DriftKind_eq_dec : EqDecision DriftKind.
Proof. solve_decision. Defined.
#[export] Instance UnprovenReason_eq_dec : EqDecision UnprovenReason.
Proof. solve_decision. Defined.
Inductive Verdict := Clean | Drift | Unproven.
#[export] Instance Verdict_eq_dec : EqDecision Verdict.
Proof. solve_decision. Defined.
Record TenantVerdict := mkTenantVerdict {
  vd_tenant_id : string; vd_slug : string; vd_status : string; vd_endpoints_recorded : nat; vd_endpoints_present : nat; vd_templates_present : nat;
  vd_findings : nat; vd_verdict : Verdict;
}.
Record ReconcileReport := mkReport {
  rp_account_label : string; rp_read_at : string; rp_tenants_complete : bool; rp_inventory_complete : bool; rp_counts : nat * nat * nat;
  rp_verdict : Verdict; rp_tenants : list TenantVerdict; rp_findings : list DriftFinding;
  rp_unattributed_endpoints : list RunPodResource; rp_unattributed_templates : list RunPodResource;
}.
Record RecordedEndpoint := mkRecorded { re_key : string; re_id : string; re_name : string }.

Definition RETIRED_ENDPOINT_KEYS : list string := ["lipsync"; "audio-upscale"].
Definition tenantEndpointName (slug key : string) : string := "vivijure-" +:+ slug +:+ "-" +:+ key.
Definition isTornDown (t : Tenant) : bool := t_status t =s? "deleted".
Definition is_shared (t : Tenant) : bool := match readRunPodMode (Some (t_runpod_mode t)) with Shared => true | Dedicated => false end.

(** A map built from a list: the last entry of a key is the one it keeps. *)
Definition last_of {A} (f : A → string) (k : string) (l : list A) : option A := List.find (λ x, f x =s? k) (rev l).
Definition has {A} (f : A → string) (k : string) (l : list A) : bool := existsb (λ x, f x =s? k) l.
(** [a || b] on texts, and [a || null]. *)
Definition or_text (a b : string) : string := if Str.truthy a then a else b.
Definition or_null (a : string) : option string := if Str.truthy a then Some a else None.

Section reconcile.
Variable json_parse : string → option js.
(** [String(e)] of the error [JSON.parse] throws. *)
Variable parse_error : string → string.

(** ** The record of a tenant *)
Fixpoint read_entries (l : list js) : string + list RecordedEndpoint :=
  match l with
  | [] => inr []
  | e :: l =>
      match js_field e "id" with
      | JStr id =>
          if Str.truthy id then
            match read_entries l with
            | inr rest => inr (mkRecorded (js_string_or_empty (js_field e "key")) id (js_string_or_empty (js_field e "name")) :: rest)
            | inl detail => inl detail
            end
          else inl "an endpoints_json entry carries no id"
      | _ => inl "an endpoints_json entry carries no id"
      end
  end.
Definition parseRecordedEndpoints (t : Tenant) : string + list RecordedEndpoint :=
  match t_endpoints_json t with
  | None => inr []
  | Some text =>
      if negb (Str.truthy text) then inr []
      else match json_parse text with
           | None => inl ("endpoints_json is not JSON: " +:+ Str.of_chars (firstn 120 (Str.chars (parse_error text))))
           | Some (JArr l) => read_entries l
           | Some _ => inl "endpoints_json is not an array"
           end
  end.

Section report.
Variables (census : TenantCensus) (inventory : RunPodInventory) (sharedPool : option SharedRunPodPool).

Definition in_pool_ids (id : string) : bool := match sharedPool with Some p => existsb (String.eqb id) (pool_ids p) | None => false end.
Definition in_pool_names (n : string) : bool := match sharedPool with Some p => existsb (String.eqb n) (pool_names p) | None => false end.
Definition whole : bool := iv_complete inventory && ce_complete census.
Definition absence_unproven : option UnprovenReason := if iv_complete inventory then None else Some InventoryIncomplete.
Definition orphan_unproven : option UnprovenReason := if ce_complete census then None else Some TenantCensusIncomplete.

(** Which tenant would own a resource of a name. *)
Definition attributableKeys : list string := (plan_key <$> PROVISION_PLAN) ++ RETIRED_ENDPOINT_KEYS.
Definition owned_names (t : Tenant) : list (string * (Tenant * string)) :=
  if is_shared t then [] else (λ key, (tenantEndpointName (t_slug t) key, (t, key))) <$> attributableKeys.
Definition owningTenantByName (n : string) : option (Tenant * string) := snd <$> last_of fst n (ce_tenants census ≫= owned_names).
(** What the dedicated tenants' readable records name. *)
Definition claims_of (t : Tenant) : list (Tenant * RecordedEndpoint) :=
  if is_shared t then [] else match parseRecordedEndpoints t with inr l => (λ r, (t, r)) <$> l | inl _ => [] end.
Definition claims : list (Tenant * RecordedEndpoint) := ce_tenants census ≫= claims_of.
Definition claimedEndpoint (id : string) : option (Tenant * RecordedEndpoint) := last_of (λ c, re_id c.2) id claims.
Definition is_live_name (n : string) : bool :=
  existsb (λ c, negb (isTornDown c.1) && Str.truthy (re_name c.2) && (re_name c.2 =s? n)) claims.

(** ** A tenant against the inventory *)
Definition finding_of (t : Tenant) (kind : DriftKind) (layer : Layer) (unproven : option UnprovenReason) (id name key : option string) (detail : string) : DriftFinding :=
  mkFinding kind layer unproven (Some (t_id t)) (Some (t_slug t)) (Some (t_status t)) id name key detail.
Definition expectedName (t : Tenant) (r : RecordedEndpoint) : string := or_text (re_name r) (tenantEndpointName (t_slug t) (re_key r)).
Definition endpoint_drift (t : Tenant) (r : RecordedEndpoint) : list DriftFinding :=
  match last_of rr_id (re_id r) (iv_endpoints inventory) with
  | None =>
      [finding_of t RecordEndpointMissing EndpointLayer absence_unproven (Some (re_id r)) (or_null (re_name r)) (or_null (re_key r))
         ("the record names endpoint " +:+ re_id r +:+ " (" +:+ or_text (re_key r) "unkeyed" +:+ ") and the " +:+ iv_account_label inventory +:+
          " account does not have it: this tenant cannot render that step")]
  | Some live =>
      if Str.truthy (re_name r) && negb (rr_name live =s? re_name r) then
        [finding_of t RecordEndpointRenamed EndpointLayer None (Some (re_id r)) (Some (rr_name live)) (or_null (re_key r))
           ("endpoint " +:+ re_id r +:+ " exists as " +:+ Str.dq +:+ rr_name live +:+ Str.dq +:+ " but the record calls it " +:+
            Str.dq +:+ re_name r +:+ Str.dq +:+ ": provisioning adopts BY NAME, so a re-provision would build a second one")]
      else []
  end.
Definition template_drift (t : Tenant) (r : RecordedEndpoint) : list DriftFinding :=
  if has rr_name (expectedName t r) (iv_templates inventory) then []
  else [finding_of t RecordTemplateMissing TemplateLayer absence_unproven None (Some (expectedName t r)) (or_null (re_key r))
          ("no template named " +:+ Str.dq +:+ expectedName t r +:+ Str.dq +:+ " in the " +:+ iv_account_label inventory +:+
           " account: a re-provision has nowhere to write the fresh R2 credential of this tenant and refuses (409)")].
Definition record_drift (t : Tenant) (r : RecordedEndpoint) : list DriftFinding :=
  if isTornDown t then [] else endpoint_drift t r ++ template_drift t r.
Definition count {A} (p : A → bool) (l : list A) : nat := length (jfilter p l).
Definition tenant_verdict (t : Tenant) (recorded present templates findings : nat) (verdict : Verdict) : TenantVerdict :=
  mkTenantVerdict (t_id t) (t_slug t) (t_status t) recorded present templates findings verdict.
Definition reconcile_tenant (t : Tenant) : list DriftFinding * TenantVerdict :=
  let undrifted := if whole then Clean else Unproven in
  let parsed := parseRecordedEndpoints t in
  if is_shared t then ([], tenant_verdict t (match parsed with inr l => length l | inl _ => 0%nat end) 0 0 0 undrifted)
  else match parsed with
  | inl detail => ([finding_of t RecordUnreadable RecordLayer None None None None detail], tenant_verdict t 0 0 0 1 Drift)
  | inr l =>
      let findings := l ≫= record_drift t in
      (findings, tenant_verdict t (length l) (count (λ r, has rr_id (re_id r) (iv_endpoints inventory)) l)
         (count (λ r, has rr_name (expectedName t r) (iv_templates inventory)) l) (length findings)
         (if (0 <? length findings)%nat then Drift else undrifted))
  end.

(** ** The inventory against the tenants *)
Definition endpoint_fate (e : RunPodResource) : option (RunPodResource + DriftFinding) :=
  if in_pool_ids (rr_id e) || in_pool_names (rr_name e) then None
  else
    let claim := claimedEndpoint (rr_id e) in
    if match claim with Some (t, _) => negb (isTornDown t) | None => false end then None
    else
      let named := owningTenantByName (rr_name e) in
      match match claim with Some (t, _) => Some t | None => fst <$> named end with
      | None => Some (inl e)
      | Some owner =>
          Some (inr (finding_of owner OrphanEndpoint EndpointLayer (match claim with Some _ => None | None => orphan_unproven end)
            (Some (rr_id e)) (Some (rr_name e))
            (match match claim with Some (_, r) => or_null (re_key r) | None => None end with
             | Some k => Some k
             | None => match named with Some (_, k) => or_null k | None => None end
             end)
            (match claim with
             | Some _ => "endpoint survives on the " +:+ iv_account_label inventory +:+ " account after tenant " +:+ t_slug owner +:+ " was " +:+
                 "torn down (the plane holds no credential that could delete it), and its TEMPLATE will still " +:+ "be there after the endpoint is deleted"
             | None => "endpoint is named for tenant " +:+ t_slug owner +:+ " but no record names this id; do not assume it is " +:+
                 "disposable until a record is found or ruled out"
             end)))
      end.
Definition template_fate (e : RunPodResource) : option (RunPodResource + DriftFinding) :=
  if in_pool_names (rr_name e) || is_live_name (rr_name e) then None
  else match owningTenantByName (rr_name e) with
  | None => Some (inl e)
  | Some (t, key) =>
      let halfBuilt := negb (isTornDown t) && match t_endpoints_json t with None => true | Some _ => false end in
      Some (inr (finding_of t OrphanTemplate TemplateLayer orphan_unproven (Some (rr_id e)) (Some (rr_name e)) (Some key)
        (if halfBuilt then "template exists for tenant " +:+ t_slug t +:+ " (" +:+ t_status t +:+ ") whose record names " +:+
           "no endpoints at all: a provision that died between the template and the endpoint"
         else "template survives on the " +:+ iv_account_label inventory +:+ " account with no live endpoint record for " +:+
           "tenant " +:+ t_slug t +:+ " (" +:+ t_status t +:+ "): this is the SECOND debris layer, the " +:+
           "one that stays invisible until the endpoints are cleared")))
  end.
Definition left_of {A B} (x : option (A + B)) : option A := match x with Some (inl a) => Some a | _ => None end.
Definition right_of {A B} (x : option (A + B)) : option B := match x with Some (inr b) => Some b | _ => None end.
Definition is_proven (f : DriftFinding) : bool := match df_unproven f with None => true | Some _ => false end.
Definition reconcileRunPod : ReconcileReport :=
  let findings := (ce_tenants census ≫= λ t, (reconcile_tenant t).1) ++
    omap (λ e, right_of (endpoint_fate e)) (iv_endpoints inventory) ++ omap (λ e, right_of (template_fate e)) (iv_templates inventory) in
  mkReport (iv_account_label inventory) (iv_read_at inventory) (ce_complete census) (iv_complete inventory)
    (length (ce_tenants census), length (iv_endpoints inventory), length (iv_templates inventory))
    (if existsb is_proven findings then Drift else if whole && (length findings =? 0)%nat then Clean else Unproven)
    ((λ t, (reconcile_tenant t).2) <$> ce_tenants census) findings
    (omap (λ e, left_of (endpoint_fate e)) (iv_endpoints inventory)) (omap (λ e, left_of (template_fate e)) (iv_templates inventory)).
End report.

(** ** The snapshot an operator sends *)
Fixpoint read_resources (field : string) (l : list js) : string + list RunPodResource :=
  match l with
  | [] => inr []
  | e :: l =>
      match js_field e "id", js_field e "name" with
      | JStr id, JStr name => match read_resources field l with inr rest => inr (mkResource id name :: rest) | inl detail => inl detail end
      | _, _ => inl ("every " +:+ field +:+ " entry must carry a string id and a string name")
      end
  end.
Definition resources (value : js) (field : string) : string + list RunPodResource :=
  match value with JArr l => read_resources field l | _ => inl (field +:+ " must be an array") end.
Definition parseInventoryBody (body : js) : string + RunPodInventory :=
  if negb (js_is_object body) then inl "body must be a JSON object"
  else
    let label := js_trimmed (js_field body "account_label") in
    let readAt := js_trimmed (js_field body "read_at") in
    if negb (Str.truthy label) || (64 <? String.length label)%nat then inl "account_label must be a non-empty string of at most 64 characters"
    else if negb (Str.truthy readAt) || (40 <? String.length readAt)%nat then inl "read_at must be the ISO time at which the operator read RunPod"
    else match js_field body "complete" with
    | JBool complete =>
        match resources (js_field body "endpoints") "endpoints" with
        | inl detail => inl detail
        | inr endpoints =>
            match resources (js_field body "templates") "templates" with
            | inl detail => inl detail
            | inr templates =>
                if (MAX_INVENTORY_RESOURCES <? length endpoints + length templates)%nat then
                  inl ("inventory exceeds " +:+ Str.of_int (Z.of_nat MAX_INVENTORY_RESOURCES) +:+ " resources")
                else inr (mkInventory label readAt complete endpoints templates)
            end
        end
    | _ => inl ("complete must be an explicit boolean: only the gatherer knows whether it read the whole " +:+
        "list, and an assumed-complete census turns a truncated page into a false absence")
    end.

(** Whether a list payload was whole. *)
Definition is_array (v : js) : bool := match v with JArr _ => true | _ => false end.
Definition listWasWhole (payload : js) : bool :=
  match payload with
  | JArr _ => true
  | JObj _ =>
      negb (existsb (λ cursor, js_truthy (js_field payload cursor)) ["next"; "nextCursor"; "next_cursor"; "cursor"; "paginate"; "pagination"]) &&
      (is_array (js_field payload "endpoints") || is_array (js_field payload "templates") || is_array (js_field payload "data"))
  | _ => false
  end.

(** The route: the tenants of one page of the store, and no pool. *)
Definition reconcileRoute {W} (listTenants : M W string (list Tenant)) (body : js) : M W string (string + ReconcileReport) :=
  match parseInventoryBody body with
  | inl detail => mret (inl detail)
  | inr inventory =>
      tenants ← listTenants;
      mret (inr (reconcileRunPod (mkTenantCensus tenants (length tenants <? TENANT_PAGE_LIMIT)%nat) inventory None))
  end.
End reconcile.

(** ** What a report says *)
Section last_of.
Context {A : Type} (f : A → string).
Implicit Types (l : list A) (k : string).
Lemma last_of_some k l x : last_of f k l = Some x → x ∈ l ∧ f x = k.
Proof.
unfold last_of. intros [Hin Hk]%List.find_some. apply String.eqb_eq in Hk. split; [|done]. apply list_elem_of_In, in_rev. exact Hin.
Qed.
Lemma last_of_none k l : last_of f k l = None ↔ ∀ x, x ∈ l → f x ≠ k.
Proof.
unfold last_of. split.
- intros H x Hx%list_elem_of_In%in_rev Hk. apply (List.find_none _ _ H) in Hx. by rewrite Hk, String.eqb_refl in Hx.
- intros H. destruct (List.find _ _) eqn:E; [|done]. apply List.find_some in E as [Hin%in_rev Hk%String.eqb_eq]. exfalso. eapply H; [by apply list_elem_of_In|done].
Qed.
Lemma has_spec k l : has f k l = true ↔ ∃ x, x ∈ l ∧ f x = k.
Proof.
unfold has. rewrite existsb_exists. setoid_rewrite String.eqb_eq. split; intros (x & Hx & Hk); exists x; (split; [by apply list_elem_of_In|done]).
Qed.
End last_of.
Lemma or_text_some a b : Str.truthy a = true → or_text a b = a.
Proof. unfold or_text. by intros ->. Qed.

Section facts.
Context (json_parse : string → option js) (parse_error : string → string).
Context (census : TenantCensus) (inventory : RunPodInventory) (pool : option SharedRunPodPool).
Implicit Types (t : Tenant) (r : RecordedEndpoint) (e : RunPodResource) (f : DriftFinding).
Abbreviation parsed := (parseRecordedEndpoints json_parse parse_error).
Abbreviation report := (reconcileRunPod json_parse parse_error census inventory pool).

(** A dedicated tenant's readable record names an endpoint. *)
Definition records t r : Prop := t ∈ ce_tenants census ∧ is_shared t = false ∧ ∃ l, parsed t = inr l ∧ r ∈ l.
(** A name the provisioner would have given a resource of a dedicated tenant. *)
Definition named_for t (n : string) : Prop := t ∈ ce_tenants census ∧ is_shared t = false ∧ ∃ key, key ∈ attributableKeys ∧ n = tenantEndpointName (t_slug t) key.
Definition in_pool e : bool := in_pool_ids pool (rr_id e) || in_pool_names pool (rr_name e).

Lemma elem_of_claims t r : (t, r) ∈ claims json_parse parse_error census ↔ records t r.
Proof.
unfold claims, records, claims_of. rewrite list_elem_of_bind. split.
- intros (t' & H & Ht). destruct (is_shared t') eqn:Es; [by apply elem_of_nil in H|]. destruct (parsed t') as [d|l] eqn:Ep; [by apply elem_of_nil in H|].
  apply list_elem_of_fmap in H as (r' & [= -> ->] & Hr). split_and!; [done|done|by exists l].
- intros (Ht & Hs & l & Hl & Hr). exists t. split; [|done]. rewrite Hs, Hl. by apply (list_elem_of_fmap_2 (λ r, (t, r))).
Qed.
Lemma owner_some n t key : owningTenantByName census n = Some (t, key) → named_for t n.
Proof.
unfold owningTenantByName. intros ([n' [t' key']] & [Hin Hn]%last_of_some & E)%fmap_Some. cbn in Hn, E. injection E as -> ->. subst n'.
apply list_elem_of_bind in Hin as (t'' & Hin & Ht). unfold owned_names in Hin. destruct (is_shared t'') eqn:Es; [by apply elem_of_nil in Hin|].
apply list_elem_of_fmap in Hin as (key'' & [= -> -> ->] & Hk). split_and!; [done|done|by exists key''].
Qed.
Lemma owner_none n : owningTenantByName census n = None ↔ ∀ t, ¬ named_for t n.
Proof.
unfold owningTenantByName. rewrite fmap_None, last_of_none. split.
- intros H t (Ht & Hs & key & Hk & ->). eapply (H (tenantEndpointName (t_slug t) key, (t, key))); [|done]. apply list_elem_of_bind. exists t. split; [|done].
  unfold owned_names. rewrite Hs. by apply (list_elem_of_fmap_2 (λ key, (tenantEndpointName (t_slug t) key, (t, key)))).
- intros H [n' [t key]] (t' & Hin & Ht)%list_elem_of_bind Hn. cbn in Hn. subst n'. unfold owned_names in Hin. destruct (is_shared t') eqn:Es; [by apply elem_of_nil in Hin|].
  apply list_elem_of_fmap in Hin as (key'' & [= -> -> ->] & Hk). apply (H t'). split_and!; [done|done|by exists key''].
Qed.
Lemma live_name n : is_live_name json_parse parse_error census n = true ↔ n ≠ "" ∧ ∃ t r, records t r ∧ isTornDown t = false ∧ re_name r = n.
Proof.
unfold is_live_name. rewrite existsb_exists. split.
- intros ([t r] & Hc%list_elem_of_In%elem_of_claims & [[H1%negb_true_iff H2]%andb_true_iff H3%String.eqb_eq]%andb_true_iff). cbn in *. subst n. split.
  + intros E. by rewrite E in H2.
  + by exists t, r.
- intros (Hn & t & r & Hc%elem_of_claims%list_elem_of_In & Ht & Hr). exists (t, r). split; [exact Hc|]. cbn. rewrite Ht, Hr, String.eqb_refl. by destruct n.
Qed.

(** What a finding says, kind by kind, and on what it is called proven. *)
Definition about t f : Prop := df_tenant_id f = Some (t_id t) ∧ df_tenant_slug f = Some (t_slug t) ∧ df_tenant_status f = Some (t_status t).
Definition unproven_unless (ok : bool) (reason : UnprovenReason) f : Prop := df_unproven f = if ok then None else Some reason.
Definition says_true f : Prop :=
  match df_kind f with
  | RecordUnreadable => ∃ t detail, about t f ∧ t ∈ ce_tenants census ∧ is_shared t = false ∧ parsed t = inl detail ∧ df_unproven f = None
  | RecordEndpointMissing => ∃ t r, about t f ∧ records t r ∧ isTornDown t = false ∧ df_resource_id f = Some (re_id r) ∧
      (∀ e, e ∈ iv_endpoints inventory → rr_id e ≠ re_id r) ∧ unproven_unless (iv_complete inventory) InventoryIncomplete f
  | RecordEndpointRenamed => ∃ t r e, about t f ∧ records t r ∧ isTornDown t = false ∧ df_resource_id f = Some (re_id r) ∧
      e ∈ iv_endpoints inventory ∧ rr_id e = re_id r ∧ rr_name e ≠ re_name r ∧ df_unproven f = None
  | RecordTemplateMissing => ∃ t r, about t f ∧ records t r ∧ isTornDown t = false ∧ df_resource_name f = Some (expectedName t r) ∧
      (∀ e, e ∈ iv_templates inventory → rr_name e ≠ expectedName t r) ∧ unproven_unless (iv_complete inventory) InventoryIncomplete f
  | OrphanEndpoint => ∃ t e, about t f ∧ e ∈ iv_endpoints inventory ∧ in_pool e = false ∧ df_resource_id f = Some (rr_id e) ∧
      ((∃ r, records t r ∧ re_id r = rr_id e ∧ isTornDown t = true ∧ df_unproven f = None) ∨
       ((∀ t' r, records t' r → re_id r ≠ rr_id e) ∧ named_for t (rr_name e) ∧ unproven_unless (ce_complete census) TenantCensusIncomplete f))
  | OrphanTemplate => ∃ t e, about t f ∧ e ∈ iv_templates inventory ∧ in_pool_names pool (rr_name e) = false ∧ df_resource_id f = Some (rr_id e) ∧
      named_for t (rr_name e) ∧ (∀ t' r, records t' r → isTornDown t' = false → re_name r = rr_name e → rr_name e = "") ∧
      unproven_unless (ce_complete census) TenantCensusIncomplete f
  end.

Lemma drift_true t r f : records t r → f ∈ record_drift inventory t r → says_true f.
Proof.
intros Hr Hf. unfold record_drift in Hf. destruct (isTornDown t) eqn:Ht; [by apply elem_of_nil in Hf|]. apply elem_of_app in Hf as [Hf|Hf].
- unfold endpoint_drift in Hf. destruct (last_of rr_id (re_id r) (iv_endpoints inventory)) as [live|] eqn:El.
  + apply last_of_some in El as [Hin Hid]. destruct (Str.truthy (re_name r) && _) eqn:En; [|by apply elem_of_nil in Hf]. apply list_elem_of_singleton in Hf as ->.
    apply andb_true_iff in En as [_ Hn%negb_true_iff%String.eqb_neq]. exists t, r, live. by split_and!.
  + apply list_elem_of_singleton in Hf as ->. pose proof (proj1 (last_of_none _ _ _) El) as Hno. exists t, r. by split_and!.
- unfold template_drift in Hf. destruct (has rr_name (expectedName t r) (iv_templates inventory)) eqn:Eh; [by apply elem_of_nil in Hf|].
  apply list_elem_of_singleton in Hf as ->. exists t, r. split_and!; try done. intros e He Hn. assert (has rr_name (expectedName t r) (iv_templates inventory) = true) as H by (apply has_spec; by exists e).
  by rewrite H in Eh.
Qed.
Lemma tenant_findings_true t f : t ∈ ce_tenants census → f ∈ (reconcile_tenant json_parse parse_error census inventory t).1 → says_true f.
Proof.
intros Ht Hf. unfold reconcile_tenant in Hf. destruct (is_shared t) eqn:Es; [by apply elem_of_nil in Hf|]. destruct (parsed t) as [detail|l] eqn:Ep.
- apply list_elem_of_singleton in Hf as ->. exists t, detail. by split_and!.
- cbn [fst] in Hf. apply list_elem_of_bind in Hf as (r & Hf & Hr). apply (drift_true t r); [|done]. split_and!; [done|done|by exists l].
Qed.
Lemma endpoint_fate_true e f : e ∈ iv_endpoints inventory → endpoint_fate json_parse parse_error census inventory pool e = Some (inr f) →
  df_kind f = OrphanEndpoint ∧ says_true f.
Proof.
intros He Hf. unfold endpoint_fate in Hf. destruct (_ || _) eqn:Ep; [done|]. cbv zeta in Hf.
destruct (claimedEndpoint json_parse parse_error census (rr_id e)) as [[t r]|] eqn:Ec.
- apply last_of_some in Ec as [Hin%elem_of_claims Hid]. cbn in Hid. destruct (isTornDown t) eqn:Ht; [|done]. injection Hf as <-. split; [done|].
  exists t, e. split_and!; try done. left. by exists r.
- pose proof (proj1 (last_of_none _ _ _) Ec) as Hno. destruct (owningTenantByName census (rr_name e)) as [[t key]|] eqn:Eo; [|done]. injection Hf as <-. split; [done|].
  exists t, e. split_and!; try done. right. split_and!; [|by eapply owner_some|done].
  intros t' r Hr%elem_of_claims. by apply (Hno (t', r)).
Qed.
Lemma template_fate_true e f : e ∈ iv_templates inventory → template_fate json_parse parse_error census inventory pool e = Some (inr f) →
  df_kind f = OrphanTemplate ∧ says_true f.
Proof.
intros He Hf. unfold template_fate in Hf. destruct (_ || _) eqn:Ep; [done|]. apply orb_false_iff in Ep as [Hpool Hlive].
destruct (owningTenantByName census (rr_name e)) as [[t key]|] eqn:Eo; [|done]. injection Hf as <-. split; [done|].
exists t, e. split_and!; try done; [by eapply owner_some|]. intros t' r Hr Ht Hn. destruct (decide (rr_name e = "")) as [|Hne]; [done|]. exfalso.
assert (is_live_name json_parse parse_error census (rr_name e) = true) as H; [|by rewrite H in Hlive]. apply live_name. split; [done|by exists t', r].
Qed.

(** A reconciliation asserts only what the two lists show.  Every finding names a tenant of the census
    and a discrepancy that is there; an absence from RunPod is called proven only when the inventory was
    whole, and an attribution by name alone only when the tenant census was; an endpoint of the pool, or
    a template under the name of a live record, is never called debris. *)
Theorem every_finding_is_true f : f ∈ rp_findings report → says_true f.
Proof.
cbn [rp_findings reconcileRunPod]. intros [(t & Hf & Ht)%list_elem_of_bind|[(e & He & Hf)%list_elem_of_omap|(e & He & Hf)%list_elem_of_omap]%elem_of_app]%elem_of_app.
- by eapply tenant_findings_true.
- destruct (endpoint_fate _ _ _ _ _ e) as [[x|f']|] eqn:E; try done. cbn in Hf. injection Hf as ->. by eapply endpoint_fate_true.
- destruct (template_fate _ _ _ _ _ e) as [[x|f']|] eqn:E; try done. cbn in Hf. injection Hf as ->. by eapply template_fate_true.
Qed.

Lemma clean_report : rp_verdict report = Clean → iv_complete inventory = true ∧ ce_complete census = true ∧ rp_findings report = [].
Proof.
cbn [rp_verdict rp_findings reconcileRunPod]. destruct (existsb _ _); [done|]. destruct (whole census inventory) eqn:Ew; [|done].
destruct (length _ =? 0)%nat eqn:El; [|done]. intros _. apply Nat.eqb_eq, nil_length_inv in El. by apply andb_true_iff in Ew as [? ?].
Qed.
Lemma no_findings : rp_findings report = [] →
  (∀ t, t ∈ ce_tenants census → (reconcile_tenant json_parse parse_error census inventory t).1 = []) ∧
  (∀ e, e ∈ iv_endpoints inventory → right_of (endpoint_fate json_parse parse_error census inventory pool e) = None) ∧
  (∀ e, e ∈ iv_templates inventory → right_of (template_fate json_parse parse_error census inventory pool e) = None).
Proof.
cbn [rp_findings reconcileRunPod]. intros [H1 [H2 H3]%app_eq_nil]%app_eq_nil.
assert (∀ A (g : RunPodResource → option A) l, omap g l = [] → ∀ e, e ∈ l → g e = None) as Hom.
{ intros A g l H e He. destruct (g e) as [y|] eqn:E; [|done]. assert (y ∈ omap g l) as Hy by (apply list_elem_of_omap; by exists e). rewrite H in Hy. by apply elem_of_nil in Hy. }
split_and!; [|by apply Hom..]. intros t Ht. destruct (reconcile_tenant _ _ _ _ t).1 as [|f l] eqn:E; [done|].
assert (f ∈ ce_tenants census ≫= λ t, (reconcile_tenant json_parse parse_error census inventory t).1) as Hf; [|rewrite H1 in Hf; by apply elem_of_nil in Hf].
apply list_elem_of_bind. exists t. split; [rewrite E; left|done].
Qed.
Lemma no_drift t r : isTornDown t = false → record_drift inventory t r = [] →
  (∃ e, e ∈ iv_endpoints inventory ∧ rr_id e = re_id r ∧ (re_name r = "" ∨ rr_name e = re_name r)) ∧
  ∃ e, e ∈ iv_templates inventory ∧ rr_name e = expectedName t r.
Proof.
unfold record_drift. intros -> [He Ht]%app_eq_nil. split.
- unfold endpoint_drift in He. destruct (last_of _ _ _) as [e|] eqn:El; [|done]. apply last_of_some in El as [Hin Hid]. exists e. split_and!; [done|done|].
  destruct (Str.truthy (re_name r)) eqn:Etr; [right|left; by destruct (re_name r)]. destruct (rr_name e =? re_name r)%string eqn:En; [by apply String.eqb_eq|done].
- unfold template_drift in Ht. destruct (has _ _ _) eqn:Eh; [by apply has_spec|done].
Qed.

Lemma endpoint_unattributed e x : endpoint_fate json_parse parse_error census inventory pool e = Some (inl x) →
  x = e ∧ (∀ t r, records t r → re_id r ≠ rr_id e) ∧ ∀ t, ¬ named_for t (rr_name e).
Proof.
unfold endpoint_fate. destruct (_ || _); [done|]. cbv zeta. destruct (claimedEndpoint _ _ _ _) as [[t r]|] eqn:Ec; [by destruct (negb (isTornDown t))|].
destruct (owningTenantByName _ _) as [[t key]|] eqn:Eo; [done|]. intros [= ->]. split_and!; [done| |by apply owner_none].
intros t r Hr%elem_of_claims. by apply (proj1 (last_of_none _ _ _) Ec (t, r)).
Qed.
Lemma endpoint_passed e : endpoint_fate json_parse parse_error census inventory pool e = None →
  in_pool e = true ∨ ∃ t r, records t r ∧ isTornDown t = false ∧ re_id r = rr_id e.
Proof.
unfold endpoint_fate, in_pool. destruct (_ || _); [by left|right]. cbv zeta in *. destruct (claimedEndpoint _ _ _ _) as [[t r]|] eqn:Ec.
- apply last_of_some in Ec as [Hin%elem_of_claims Hid]. destruct (isTornDown t) eqn:Ht; [done|]. by exists t, r.
- by destruct (owningTenantByName _ _) as [[t key]|].
Qed.
Lemma template_unattributed e x : template_fate json_parse parse_error census inventory pool e = Some (inl x) → x = e ∧ ∀ t, ¬ named_for t (rr_name e).
Proof.
unfold template_fate. destruct (_ || _); [done|]. destruct (owningTenantByName _ _) as [[t key]|] eqn:Eo; [done|]. intros [= ->]. split; [done|by apply owner_none].
Qed.
Lemma template_passed e : template_fate json_parse parse_error census inventory pool e = None →
  in_pool_names pool (rr_name e) = true ∨ ∃ t r, records t r ∧ isTornDown t = false ∧ re_name r = rr_name e.
Proof.
unfold template_fate. destruct (in_pool_names pool (rr_name e)); [by left|]. destruct (is_live_name _ _ _ _) eqn:El.
- apply live_name in El as [_ H]. by right.
- by destruct (owningTenantByName _ _) as [[t key]|].
Qed.

(** C38. A clean report means the two sides agree.  Both lists were whole; every dedicated tenant's record can
    be read; each endpoint a live one names is there under the recorded name and has its template; and
    every endpoint and template of the account is the pool's, or named by a live record, or listed as
    belonging to no tenant, with no record and no tenant's name to claim it. *)
Theorem clean_means_in_step : rp_verdict report = Clean →
  iv_complete inventory = true ∧ ce_complete census = true ∧
  (∀ t, t ∈ ce_tenants census → is_shared t = false → ∃ l, parsed t = inr l) ∧
  (∀ t r, records t r → isTornDown t = false →
     (∃ e, e ∈ iv_endpoints inventory ∧ rr_id e = re_id r ∧ (re_name r = "" ∨ rr_name e = re_name r)) ∧
     ∃ e, e ∈ iv_templates inventory ∧ rr_name e = expectedName t r) ∧
  (∀ e, e ∈ iv_endpoints inventory → in_pool e = true ∨ (∃ t r, records t r ∧ isTornDown t = false ∧ re_id r = rr_id e) ∨
     (e ∈ rp_unattributed_endpoints report ∧ (∀ t r, records t r → re_id r ≠ rr_id e) ∧ ∀ t, ¬ named_for t (rr_name e))) ∧
  (∀ e, e ∈ iv_templates inventory → in_pool_names pool (rr_name e) = true ∨ (∃ t r, records t r ∧ isTornDown t = false ∧ re_name r = rr_name e) ∨
     (e ∈ rp_unattributed_templates report ∧ ∀ t, ¬ named_for t (rr_name e))).
Proof.
intros (Hi & Hc & (Ht & He & Hm)%no_findings)%clean_report. split_and!; [done|done| | | |].
- intros t Hin Hs. specialize (Ht t Hin). unfold reconcile_tenant in Ht. rewrite Hs in Ht. destruct (parsed t) as [d|l]; [done|by exists l].
- intros t r (Hin & Hs & l & Hl & Hr) Hdead. specialize (Ht t Hin). unfold reconcile_tenant in Ht. rewrite Hs, Hl in Ht. cbn [fst] in Ht.
  apply no_drift; [done|]. destruct (record_drift inventory t r) as [|f fs] eqn:E; [done|].
  assert (f ∈ l ≫= record_drift inventory t) as Hf; [|rewrite Ht in Hf; by apply elem_of_nil in Hf]. apply list_elem_of_bind. exists r. split; [rewrite E; left|done].
- intros e Hin. specialize (He e Hin). destruct (endpoint_fate _ _ _ _ _ e) as [[x|f]|] eqn:Ef; [|done|].
  + right. right. apply endpoint_unattributed in Ef as E. destruct E as (-> & H1 & H2). split_and!; [|done|done].
    cbn [rp_unattributed_endpoints reconcileRunPod]. apply list_elem_of_omap. exists e. by rewrite Ef.
  + apply endpoint_passed in Ef as [|]; [by left|by right; left].
- intros e Hin. specialize (Hm e Hin). destruct (template_fate _ _ _ _ _ e) as [[x|f]|] eqn:Ef; [|done|].
  + right. right. apply template_unattributed in Ef as E. destruct E as [-> H1]. split; [|done].
    cbn [rp_unattributed_templates reconcileRunPod]. apply list_elem_of_omap. exists e. by rewrite Ef.
  + apply template_passed in Ef as [|]; [by left|by right; left].
Qed.
End facts.

(** ** The snapshot *)
Section snapshot.
Definition resource_json (e : RunPodResource) : js := JObj [("id", JStr (rr_id e)); ("name", JStr (rr_name e))].
Definition inventory_json (inv : RunPodInventory) : js :=
  JObj [("account_label", JStr (iv_account_label inv)); ("read_at", JStr (iv_read_at inv)); ("complete", JBool (iv_complete inv));
        ("endpoints", JArr (resource_json <$> iv_endpoints inv)); ("templates", JArr (resource_json <$> iv_templates inv))].
Definition short_text (limit : nat) (s : string) : Prop := s ≠ "" ∧ Str.trim s = s ∧ (String.length s <= limit)%nat.
Definition proper (inv : RunPodInventory) : Prop :=
  short_text 64 (iv_account_label inv) ∧ short_text 40 (iv_read_at inv) ∧ (length (iv_endpoints inv) + length (iv_templates inv) <= MAX_INVENTORY_RESOURCES)%nat.

Lemma read_resources_json field l : read_resources field (resource_json <$> l) = inr l.
Proof. induction l as [|[id name] l IH]; [done|]. cbn [fmap list_fmap]. cbn [read_resources resource_json rr_id rr_name]. by rewrite IH. Qed.
Lemma short_text_spec limit s : short_text limit s → Str.truthy s = true ∧ (limit <? String.length s)%nat = false.
Proof. intros (H1 & _ & H2). split; [by destruct s|apply Nat.ltb_ge; lia]. Qed.

(** A snapshot that is accepted is what was sent, and one that is proper is accepted.  Sending a proper
    inventory yields it back; and whatever body is sent, what is accepted is a proper inventory, within
    the limits, whose completeness the sender stated. *)
Theorem inventory_body_exact :
  (∀ inv, proper inv → parseInventoryBody (inventory_json inv) = inr inv) ∧
  (∀ body inv, parseInventoryBody body = inr inv → proper inv ∧ js_field body "complete" = JBool (iv_complete inv)).
Proof.
split.
- intros [label at_ complete es ts] (H1 & H2 & H3). cbn [iv_account_label iv_read_at iv_endpoints iv_templates] in *.
  pose proof (short_text_spec _ _ H1) as [Ht1 Hl1]. pose proof (short_text_spec _ _ H2) as [Ht2 Hl2]. destruct H1 as (_ & H1 & _), H2 as (_ & H2 & _).
  unfold parseInventoryBody, inventory_json. cbn [js_is_object js_field negb iv_account_label iv_read_at iv_complete iv_endpoints iv_templates].
  repeat match goal with |- context [field_of ?l ?k] => let v := eval cbv [field_of String.eqb Ascii.eqb Bool.eqb] in (field_of l k) in change (field_of l k) with v end.
  cbn [js_trimmed resources]. rewrite H1, H2, Ht1, Hl1, Ht2, Hl2, !read_resources_json. cbn [negb orb].
  by rewrite (proj2 (Nat.ltb_ge _ _)) by lia.
- intros body inv. unfold parseInventoryBody. destruct (negb _); [done|]. cbv zeta.
  destruct (negb (Str.truthy (js_trimmed (js_field body "account_label"))) || _) eqn:E1; [done|].
  destruct (negb (Str.truthy (js_trimmed (js_field body "read_at"))) || _) eqn:E2; [done|].
  destruct (js_field body "complete") as [| |complete| | | |]; try done.
  destruct (resources _ "endpoints") as [d|es]; [done|]. destruct (resources _ "templates") as [d|ts]; [done|].
  destruct (MAX_INVENTORY_RESOURCES <? length es + length ts)%nat eqn:E3; [done|]. intros [= <-]. split; [|reflexivity]. apply Nat.ltb_ge in E3.
  assert (∀ v limit, negb (Str.truthy (js_trimmed v)) || (limit <? String.length (js_trimmed v))%nat = false → short_text limit (js_trimmed v)) as Hshort.
  { intros v limit [H1%negb_false_iff H2%Nat.ltb_ge]%orb_false_iff. split_and!; [intros E; by rewrite E in H1| |done].
    destruct v; try done. cbn. apply trim_trim. }
  split_and!; [by apply (Hshort _ 64%nat)|by apply (Hshort _ 40%nat)|exact E3].
Qed.
End snapshot.
