(* ===== verification/Cron.v ===== *)
(** * The cron (runScheduledTick, runLlmMeterTick and runPendingProvisionDrive of src/index.ts,
      src/cron-heartbeat.ts)

    A tick runs three halves, each of which may throw without taking the others along, and leaves one
    row that says how each went; an operator's read judges that row.  What the halves do is modelled in
    LlmStore.v, RunpodRoutes.v and JobDriver.v and comes in here as computations over one state; the
    log lines are left out, and so is the clock, whose reading is a step of its own. *)

From S2P Require Import JsDate LlmStore.
From S2P Require Export RunpodRoutes JobDriver.
From Stdlib Require Import Ascii.
Open Scope string_scope.
Open Scope list_scope.
Open Scope Z_scope.
Open Scope plane_scope.

(** ** The heartbeat row *)
Definition CRON_TICK_INTERVAL_MS : Z := 5 * 60 * 1000.
Definition CRON_STALE_AFTER_MS : Z := 3 * CRON_TICK_INTERVAL_MS.
Definition CRON_HEARTBEAT_KEY : string := "cron.last_tick".
Definition CRON_HEARTBEAT_ACTOR : string := "system:cron".
Inductive TickHalfName := LlmMeterHalf | RunpodSweepHalf | ProvisionDriveHalf.
Definition half_text (h : TickHalfName) : string :=
  match h with LlmMeterHalf => "llm_meter" | RunpodSweepHalf => "runpod_sweep" | ProvisionDriveHalf => "provision_drive" end.
Definition TICK_HALVES : list TickHalfName := [LlmMeterHalf; RunpodSweepHalf; ProvisionDriveHalf].
(** [None] in [th_detail] is an absent field. *)
Record TickHalfRecord := mkHalf { th_ok : bool; th_detail : option string }.
Definition good : TickHalfRecord := mkHalf true None.
Definition bad (detail : string) : TickHalfRecord := mkHalf false (Some detail).
Definition Halves : Type := TickHalfName → TickHalfRecord.
Definition half_json (h : TickHalfRecord) : js :=
  JObj (("ok", JBool (th_ok h)) :: match th_detail h with Some d => [("detail", JStr d)] | None => [] end).
Definition heartbeat_json (at_ : string) (halves : Halves) : js :=
  JObj [("at", JStr at_); ("ok", JBool (forallb (λ h, th_ok (halves h)) TICK_HALVES));
        ("halves", JObj ((λ h, (half_text h, half_json (halves h))) <$> TICK_HALVES))].

(** ** What an operator reads *)
Record CronLiveness := mkLiveness {
  cl_ran : bool; cl_at : option string; cl_age_seconds : option Z; cl_stale : bool; cl_ok : option bool; cl_halves : option js; cl_detail : option string;
}.
Definition never (detail : string) : CronLiveness := mkLiveness false None None true None None (Some detail).
(** [Math.round(ms / 1000)] *)
Definition whole_seconds (ms : Z) : Z := (ms + 500) / 1000.
Definition js_or_null (v : js) : option js := match v with JUndef | JNull => None | v => Some v end.
Section liveness.
Variable json_parse : string → option js.
(** [Date.parse]; [None] is NaN. *)
Variable date_parse : string → option Z.
(** A row that parsed to something with fields to read. *)
Definition row_liveness (row : js) (nowMs : Z) : CronLiveness :=
  match js_field row "at" with
  | JStr at_ =>
      match date_parse at_ with
      | None => never "heartbeat row carries no readable timestamp"
      | Some atMs =>
          let ageMs := nowMs - atMs in
          let halves := js_or_null (js_field row "halves") in
          let ok := match js_field row "ok" with JBool b => Some b | _ => None end in
          if ageMs <? - CRON_TICK_INTERVAL_MS then
            mkLiveness true (Some at_) (Some (whole_seconds ageMs)) true ok halves
              (Some "heartbeat timestamp is in the future: clock skew or a bad write, not a fresh tick")
          else
            let late := CRON_STALE_AFTER_MS <? ageMs in
            mkLiveness true (Some at_) (Some (whole_seconds ageMs)) (late || bool_decide (ok = Some false)) ok halves
              (if late then Some ("last tick is older than " +:+ Str.of_int (CRON_STALE_AFTER_MS / 60000) +:+ " minutes") else None)
      end
  | _ => never "heartbeat row carries no readable timestamp"
  end.
(** Throws where the row is the JSON text [null]. *)
Definition summarizeCronLiveness (raw : option string) (nowMs : Z) : result string CronLiveness :=
  match raw with
  | None => Ok (never "no tick has ever been recorded: the scheduled handler has not run since this heartbeat was deployed")
  | Some raw =>
      if Str.trim raw =s? "" then Ok (never "no tick has ever been recorded: the scheduled handler has not run since this heartbeat was deployed")
      else match json_parse raw with
      | None => Ok (never "heartbeat row is present but unparseable")
      | Some JNull | Some JUndef => Err "Cannot read properties of null (reading 'at')"
      | Some row => Ok (row_liveness row nowMs)
      end
  end.
End liveness.

(** ** A tick *)
Inductive LlmMeterTickResult := MeterRan (status : RollupStatus) (controlPassed gapDetected : bool) (rowsDropped : nat) | MeterRefused (reason : string).
Record ProvisionDriveSummary := mkDriveSummary { ds_tenants_seen : nat; ds_tenants_deferred : nat; ds_drives : nat; ds_drive_errors : nat }.
Definition PROVISION_DRIVE_TICK_BUDGET_MS : Z := 120000.
Definition PROVISION_DRIVE_TENANT_SLICE_MS : Z := 60000.

Section tick.
Context {W : Type}.
(** [deps.now()] *)
Variable now : M W string Z.

Section meter.
(** The reader of the gateway's log and the store of its events, where they are configured. *)
Variables (gatewayLogs llmSpend : bool) (ingest : M W string IngestOutcome).
Definition runLlmMeterTick : M W string LlmMeterTickResult :=
  if negb llmSpend || negb gatewayLogs then mret (MeterRefused (if negb gatewayLogs then "no_gateway_reader" else "no_spend_store"))
  else
    r ← attempt ingest;
    mret match r with
         | inr o => MeterRan (w_status (o_period o)) (w_controlPassed (o_period o)) (w_gapDetected (o_period o)) (o_rowsDropped o)
         | inl _ => MeterRefused "threw"
         end.
End meter.

Section drive.
Variable provisioner : bool.
Variable listTenants : string → M W string (list Tenant).
Variable getLatestJobForTenant : string → M W string (option ProvisionJob).
Variable driveJob : Tenant → ProvisionJob → M W string Drive.
(** The resume that a dispatch started, awaited. *)
Variable work : Tenant → ProvisionJob → M W string unit.

(** One tenant, until its guards or the clock stop it: dispatches, failures, and whether the budget ran out. *)
Definition spent_since (started limit : Z) : M W string bool := at_ ← now; mret (limit <=? at_ - started).
Definition drive_out_of_fuel : string := "out of fuel".
Fixpoint drive_tenant (fuel : nat) (tenant : Tenant) (tickStartedAt sliceStartedAt : Z) (drives errors : nat) : M W string (nat * nat * bool) :=
  match fuel with
  | O => throw drive_out_of_fuel
  | S fuel =>
      over ← spent_since tickStartedAt PROVISION_DRIVE_TICK_BUDGET_MS;
      if over : bool then mret (drives, errors, true)
      else
        slice ← spent_since sliceStartedAt PROVISION_DRIVE_TENANT_SLICE_MS;
        if slice : bool then mret (drives, errors, false)
        else
          latest ← getLatestJobForTenant (t_id tenant);
          match latest with
          | None => mret (drives, errors, false)
          | Some job =>
              driven ← attempt (driveJob tenant job);
              match driven with
              | inl _ => mret (drives, S errors, false)
              | inr LeftAlone => mret (drives, errors, false)
              | inr (Reaped _) => mret (drives, errors, false)
              | inr (Dispatched _) =>
                  done ← attempt (work tenant job);
                  match done with
                  | inl _ => mret (S drives, S errors, false)
                  | inr _ => drive_tenant fuel tenant tickStartedAt sliceStartedAt (S drives) errors
                  end
              end
          end
  end.
Fixpoint drive_each (fuel : nat) (candidates : list Tenant) (tickStartedAt : Z) (deferred drives errors : nat) : M W string (nat * nat * nat) :=
  match candidates with
  | [] => mret (deferred, drives, errors)
  | tenant :: rest =>
      over ← spent_since tickStartedAt PROVISION_DRIVE_TICK_BUDGET_MS;
      if over : bool then drive_each fuel rest tickStartedAt (S deferred) drives errors
      else
        sliceStartedAt ← now;
        '(drives, errors, _) ← drive_tenant fuel tenant tickStartedAt sliceStartedAt drives errors;
        drive_each fuel rest tickStartedAt deferred drives errors
  end.
Definition runPendingProvisionDrive (fuel : nat) : M W string ProvisionDriveSummary :=
  if negb provisioner then mret (mkDriveSummary 0 0 0 0)
  else
    pending ← listTenants "pending";
    provisioning ← listTenants "provisioning";
    let candidates := pending ++ provisioning in
    tickStartedAt ← now;
    '(deferred, drives, errors) ← drive_each fuel candidates tickStartedAt 0 0 0;
    mret (mkDriveSummary (length candidates) deferred drives errors).
End drive.

(** ** The three halves and the row *)
Section scheduled.
Variables (meter : M W string LlmMeterTickResult) (sweep : M W string JobSweepResult) (drive : M W string ProvisionDriveSummary).
Variable setSetting : string → string → string → M W string unit.
Variable json_stringify : js → string.
Definition meter_half (r : string + LlmMeterTickResult) : TickHalfRecord :=
  match r with
  | inl e => bad ("threw: " +:+ e)
  | inr (MeterRan _ _ _ _) => good
  | inr (MeterRefused reason) => bad reason
  end.
Definition sweep_half (r : string + JobSweepResult) : TickHalfRecord :=
  match r with
  | inl e => bad ("threw: " +:+ e)
  | inr s =>
      if sw_ran s then (if (sw_errors s =? 0)%nat then good else bad (Str.of_int (Z.of_nat (sw_errors s)) +:+ " probe errors"))
      else bad (default "refused" (sw_reason s))
  end.
Definition drive_half (r : string + ProvisionDriveSummary) : TickHalfRecord :=
  match r with
  | inl e => bad ("threw: " +:+ e)
  | inr d =>
      if (ds_drive_errors d =? 0)%nat then good
      else bad ("drive_errors=" +:+ Str.of_int (Z.of_nat (ds_drive_errors d)) +:+ " drives=" +:+ Str.of_int (Z.of_nat (ds_drives d)) +:+
                " tenants_seen=" +:+ Str.of_int (Z.of_nat (ds_tenants_seen d)))
  end.
Definition halves_of (m s d : TickHalfRecord) : Halves := λ h, match h with LlmMeterHalf => m | RunpodSweepHalf => s | ProvisionDriveHalf => d end.
Definition recordTickHeartbeat (halves : Halves) : M W string unit :=
  ms ← now;
  at_ ← lift (if Date.valid ms then Ok (Date.to_iso ms) else Err "RangeError: Invalid time value");
  _ ← attempt (setSetting CRON_HEARTBEAT_KEY (json_stringify (heartbeat_json at_ halves)) CRON_HEARTBEAT_ACTOR);
  mret tt.
Definition runScheduledTick : M W string unit :=
  m ← attempt meter;
  s ← attempt sweep;
  d ← attempt drive;
  recordTickHeartbeat (halves_of (meter_half m) (sweep_half s) (drive_half d)).
End scheduled.
End tick.

(** ** What a tick leaves behind *)
Section tick_facts.
Context {W : Type} (now : M W string Z).
Variables (meter : M W string LlmMeterTickResult) (sweep : M W string JobSweepResult) (drive : M W string ProvisionDriveSummary).
Variable setSetting : string → string → string → M W string unit.
Variable json_stringify : js → string.
Abbreviation tick := (runScheduledTick now meter sweep drive setSetting json_stringify).

Lemma attempt_eval {A} (m : M W string A) s : attempt m s = (Ok match eval m s with Ok a => inr a | Err e => inl e end, exec m s).
Proof. unfold attempt, eval, exec. by destruct (m s) as [[a|e] s']. Qed.
Lemma meter_half_ok r : th_ok (meter_half r) = true ↔ ∃ st c g d, r = inr (MeterRan st c g d).
Proof. destruct r as [e|[st c g d|reason]]; cbn; split; [|by intros (?&?&?&?&?)| |done| |by intros (?&?&?&?&?)]; try done. intros _. by eexists _, _, _, _. Qed.
Lemma sweep_half_ok r : th_ok (sweep_half r) = true ↔ ∃ s, r = inr s ∧ sw_ran s = true ∧ sw_errors s = 0%nat.
Proof.
destruct r as [e|s]; cbn.
- split; [done|by intros (?&?&_)].
- split.
  + destruct (sw_ran s) eqn:E1; [|done]. destruct (sw_errors s =? 0)%nat eqn:E2; [|done]. apply Nat.eqb_eq in E2. intros _. by exists s.
  + intros (? & [= <-] & -> & ->). done.
Qed.
Lemma drive_half_ok r : th_ok (drive_half r) = true ↔ ∃ d, r = inr d ∧ ds_drive_errors d = 0%nat.
Proof.
destruct r as [e|d]; cbn.
- split; [done|by intros (?&?&_)].
- split.
  + destruct (ds_drive_errors d =? 0)%nat eqn:E2; [|done]. apply Nat.eqb_eq in E2. intros _. by exists d.
  + intros (? & [= <-] & ->). done.
Qed.

Definition caught {A} (r : result string A) : string + A := match r with Ok a => inr a | Err e => inl e end.
(** A tick whose clock reads never throws, and whatever its halves throw or answer all three run
    and the last thing it does is to write one row; a half of the row is marked well exactly where
    that half returned, was configured and met no error, and the row exactly where all three are. *)
Theorem tick_always_leaves_its_mark s :
  (∀ s', ∃ t s'', now s' = (Ok t, s'') ∧ Date.valid t = true) →
  let s1 := exec meter s in let s2 := exec sweep s1 in let s3 := exec drive s2 in
  ∃ t s4 halves, now s3 = (Ok t, s4) ∧
    tick s = (Ok tt, exec (setSetting CRON_HEARTBEAT_KEY (json_stringify (heartbeat_json (Date.to_iso t) halves)) CRON_HEARTBEAT_ACTOR) s4) ∧
    (th_ok (halves LlmMeterHalf) = true ↔ ∃ st c g d, eval meter s = Ok (MeterRan st c g d)) ∧
    (th_ok (halves RunpodSweepHalf) = true ↔ ∃ w, eval sweep s1 = Ok w ∧ sw_ran w = true ∧ sw_errors w = 0%nat) ∧
    (th_ok (halves ProvisionDriveHalf) = true ↔ ∃ d, eval drive s2 = Ok d ∧ ds_drive_errors d = 0%nat) ∧
    (js_field (heartbeat_json (Date.to_iso t) halves) "ok" = JBool true ↔ ∀ h, th_ok (halves h) = true).
Proof.
intros Hnow s1 s2 s3. destruct (Hnow s3) as (t & s4 & E & Hv).
exists t, s4, (halves_of (meter_half (caught (eval meter s))) (sweep_half (caught (eval sweep s1))) (drive_half (caught (eval drive s2)))).
split_and!; [done| | | | |].
- unfold runScheduledTick. rewrite bind_run, attempt_eval, bind_run, attempt_eval, bind_run, attempt_eval.
  unfold recordTickHeartbeat. fold s1. fold s2. fold s3. rewrite bind_run, E, bind_run, Hv. cbn [lift]. rewrite bind_run, attempt_eval. done.
- cbn [halves_of]. rewrite meter_half_ok. destruct (eval meter s) as [a|e]; cbn.
  + split; intros (st & c & g & d & [= ->]); by eexists _, _, _, _.
  + split; by intros (?&?&?&?&?).
- cbn [halves_of]. rewrite sweep_half_ok. destruct (eval sweep s1) as [a|e]; cbn.
  + split; intros (w & [= ->] & H); by exists w.
  + split; by intros (?&?&_).
- cbn [halves_of]. rewrite drive_half_ok. destruct (eval drive s2) as [a|e]; cbn.
  + split; intros (w & [= ->] & H); by exists w.
  + split; by intros (?&?&_).
- set (hs := halves_of _ _ _). cbn -[hs]. split.
  + intros [= H]. repeat (apply andb_true_iff in H as [? H]). by intros [].
  + intros H. by rewrite !H.
Qed.
End tick_facts.

Section green.
Variable json_parse : string → option js.
Variable date_parse : string → option Z.
Abbreviation summarize := (summarizeCronLiveness json_parse date_parse).
Lemma summarize_ok raw now_ms l : summarize raw now_ms = Ok l →
  (∃ d, l = never d) ∨ ∃ text row, raw = Some text ∧ json_parse text = Some row ∧ l = row_liveness date_parse row now_ms.
Proof.
unfold summarizeCronLiveness. destruct raw as [text|]; [|intros [= <-]; left; by eexists].
destruct (Str.trim text =s? ""); [intros [= <-]; left; by eexists|]. destruct (json_parse text) as [row|] eqn:Ep; [|intros [= <-]; left; by eexists].
intros H. right. exists text, row. split_and!; [done|done|]. destruct row; congruence.
Qed.
(** A row that does not read stale is one that parses, was written at most three intervals ago
    and at most one interval ahead, and does not say that a half failed. *)
Theorem green_is_recent raw now_ms l : summarize raw now_ms = Ok l → cl_stale l = false →
  ∃ text row at_ t, raw = Some text ∧ json_parse text = Some row ∧ js_field row "at" = JStr at_ ∧ date_parse at_ = Some t ∧
    - CRON_TICK_INTERVAL_MS <= now_ms - t <= CRON_STALE_AFTER_MS ∧ js_field row "ok" ≠ JBool false.
Proof.
intros H Hs. apply summarize_ok in H as [[d ->]|(text & row & -> & Ep & ->)]; [done|]. unfold row_liveness in Hs.
destruct (js_field row "at") as [| | | |at_| |] eqn:Ea; try discriminate Hs. destruct (date_parse at_) as [t|] eqn:Ed; [|discriminate Hs].
cbv zeta in Hs. destruct (now_ms - t <? - CRON_TICK_INTERVAL_MS) eqn:E1; [discriminate Hs|]. cbn [cl_stale] in Hs.
apply orb_false_iff in Hs as [E2 E3]. apply Z.ltb_ge in E1, E2. apply bool_decide_eq_false in E3.
exists text, row, at_, t. split_and!; [done|done|done|done|lia|lia|]. intros Eo. apply E3. by rewrite Eo.
Qed.
(** What a tick wrote is what an operator reads: the time, the three halves and whether all of
    them were well, and it is stale exactly where a half failed or the time is out of range. *)
Theorem heartbeat_roundtrip json_stringify t halves now_ms : (∀ v, json_parse (json_stringify v) = Some v) →
  (∀ text, Str.trim text = "" → json_parse text = None) → (∀ text u, Date.parse_iso text = Some u → date_parse text = Some u) →
  Date.valid t = true → four_digit_year t →
  ∃ l, summarize (Some (json_stringify (heartbeat_json (Date.to_iso t) halves))) now_ms = Ok l ∧
    cl_ran l = true ∧ cl_at l = Some (Date.to_iso t) ∧ cl_age_seconds l = Some (whole_seconds (now_ms - t)) ∧
    (cl_ok l = Some true ↔ ∀ h, th_ok (halves h) = true) ∧
    cl_halves l = Some (JObj ((λ h, (half_text h, half_json (halves h))) <$> TICK_HALVES)) ∧
    (cl_stale l = false ↔ cl_ok l = Some true ∧ - CRON_TICK_INTERVAL_MS <= now_ms - t <= CRON_STALE_AFTER_MS).
Proof.
intros Hj Hb Hd Hv Hy. set (row := heartbeat_json (Date.to_iso t) halves).
assert ((Str.trim (json_stringify row) =s? "") = false) as Et.
{ destruct (Str.trim (json_stringify row) =s? "") eqn:E; [|done]. apply String.eqb_eq in E. specialize (Hj row). by rewrite Hb in Hj. }
exists (row_liveness date_parse row now_ms). split; [unfold summarizeCronLiveness; by rewrite Et, Hj|].
pose proof (Hd _ _ (parse_to_iso t Hv Hy)) as Ed. unfold row_liveness.
change (js_field row "at") with (JStr (Date.to_iso t)).
change (js_field row "ok") with (JBool (forallb (λ h, th_ok (halves h)) TICK_HALVES)).
change (js_field row "halves") with (JObj ((λ h, (half_text h, half_json (halves h))) <$> TICK_HALVES)).
cbv beta iota zeta. rewrite Ed. cbv beta iota.
assert (forallb (λ h, th_ok (halves h)) TICK_HALVES = true ↔ ∀ h, th_ok (halves h) = true) as Hall.
{ cbn. rewrite !andb_true_iff. split; [by intros (?&?&?&_) []|by intros H; rewrite !H]. }
revert Hall. generalize (forallb (λ h, th_ok (halves h)) TICK_HALVES). intros all <-.
destruct (Z.ltb_spec (now_ms - t) (- CRON_TICK_INTERVAL_MS)); cbn [cl_ran cl_at cl_age_seconds cl_ok cl_halves cl_stale].
- split_and!; try done; [split; [by intros [= ->]|by intros ->]|]. split; [done|intros [_ ?]; lia].
- split_and!; try done; [split; [by intros [= ->]|by intros ->]|]. rewrite orb_false_iff, Z.ltb_ge.
  destruct all; (split; [intros [? ?]; split; [|lia]|intros [? ?]; split; [lia|]]); done.
Qed.
End green.

(** ** The drive ends *)
Section drive_facts.
Context {W : Type} (now : M W string Z).
Variable listTenants : string → M W string (list Tenant).
Variable getLatestJobForTenant : string → M W string (option ProvisionJob).
Variable driveJob : Tenant → ProvisionJob → M W string Drive.
Variable work : Tenant → ProvisionJob → M W string unit.
(** The time of a state: no step goes back, a reading of the clock lies between the two states around
    it, and a provision that was resumed and came back took a millisecond at least. *)
Variable wall : W → Z.
Definition onward {A} (m : M W string A) : Prop := ∀ s, wall s <= wall (exec m s) ∧ eval m s ≠ Err drive_out_of_fuel.
Definition reads_time : Prop := ∀ s, ∃ t s', now s = (Ok t, s') ∧ wall s <= t <= wall s'.
Definition drives_take_time : Prop :=
  reads_time ∧ (∀ st, onward (listTenants st)) ∧ (∀ id, onward (getLatestJobForTenant id)) ∧ (∀ t j, onward (attempt (driveJob t j))) ∧
  (∀ t j, onward (attempt (work t j))) ∧ (∀ t j s s', work t j s = (Ok tt, s') → wall s + 1 <= wall s').
Context (Htime : drives_take_time).
Definition DRIVE_FUEL : nat := Z.to_nat (PROVISION_DRIVE_TENANT_SLICE_MS + 1).
Lemma drive_fuel_exact : Z.of_nat DRIVE_FUEL = PROVISION_DRIVE_TENANT_SLICE_MS + 1.
Proof. unfold DRIVE_FUEL. by rewrite Z2Nat.id. Qed.
#[local] Opaque DRIVE_FUEL.

(** What a run of the loop may answer, from a state and two counters. *)
Definition drove {A} (s : W) (P : A → W → Prop) (r : result string A * W) : Prop :=
  wall s <= wall r.2 ∧ match r.1 with Ok a => P a r.2 | Err e => e ≠ drive_out_of_fuel end.
Lemma drove_ret {A} s s' (a : A) (P : A → W → Prop) : wall s <= wall s' → P a s' → drove s P ((mret a : M W string A) s').
Proof. intros H HP. by split. Qed.
Lemma drove_bind {A B} s0 s (m : M W string A) (f : A → M W string B) P : wall s0 <= wall s → onward m →
  (∀ a s', m s = (Ok a, s') → wall s <= wall s' → drove s0 P (f a s')) → drove s0 P ((m ≫= f) s).
Proof.
intros H0 Hm Hf. rewrite bind_run. destruct (Hm s) as [H1 H2]. unfold exec, eval in *. destruct (m s) as [[a|e] s'] eqn:E; cbn in *.
- by apply Hf.
- split; cbn; [lia|congruence].
Qed.
Lemma drove_spent {B} s0 s started limit (f : bool → M W string B) P : wall s0 <= wall s →
  (∀ s' t, wall s <= t <= wall s' → drove s0 P (f (limit <=? t - started) s')) → drove s0 P ((spent_since now started limit ≫= f) s).
Proof.
intros H0 Hf. unfold spent_since. destruct (proj1 Htime s) as (t & s' & E & Ht). rewrite bind_run, bind_run, E. by apply Hf.
Qed.
Lemma drive_tenant_ends fuel tenant tick0 slice0 d e s : (0 < fuel)%nat → slice0 + PROVISION_DRIVE_TENANT_SLICE_MS < wall s + Z.of_nat fuel →
  drove s (λ '(d', e', _) _, (d <= d')%nat ∧ (e <= e' <= S e)%nat) (drive_tenant now getLatestJobForTenant driveJob work fuel tenant tick0 slice0 d e s).
Proof.
destruct Htime as (_ & _ & Hget & Hdrive & Hwork & Htake).
revert d s. induction fuel as [|fuel IH]; intros d s Hf Hs; [lia|]. cbn [drive_tenant].
apply drove_spent; [done|]. intros s1 t1 H1. destruct (_ <=? t1 - tick0); [apply drove_ret; [lia|lia]|].
apply drove_spent; [lia|]. intros s2 t2 H2. destruct (Z.leb_spec PROVISION_DRIVE_TENANT_SLICE_MS (t2 - slice0)); [apply drove_ret; [lia|lia]|].
apply drove_bind; [lia|apply Hget|]. intros [job|] s3 _ H3; [|apply drove_ret; [lia|lia]].
apply drove_bind; [lia|apply Hdrive|]. intros [x|[|j|j]] s4 _ H4; try (apply drove_ret; [lia|lia]).
apply drove_bind; [lia|apply Hwork|]. intros [x|[]] s5 E5 H5; [apply drove_ret; [lia|lia]|].
assert (wall s4 + 1 <= wall s5) as H6.
{ unfold attempt in E5. destruct (work tenant job s4) as [[[]|x] s'] eqn:E6; simplify_eq. by eapply Htake. }
destruct (IH (S d) s5) as [H7 H8]; [lia|lia|]. split; [lia|]. destruct (drive_tenant _ _ _ _ _ _ _ _ _ _ s5) as [[[[d' e'] b]|x] s6]; cbn in *; [lia|done].
Qed.
Lemma drive_each_ends cands tick0 s k d e :
  drove s (λ '(k', d', e') s', (e' + k' <= length cands + e + k ∧ k <= k')%nat ∧ ((k < k')%nat → tick0 + PROVISION_DRIVE_TICK_BUDGET_MS <= wall s'))
    (drive_each now getLatestJobForTenant driveJob work DRIVE_FUEL cands tick0 k d e s).
Proof.
revert s k d e. induction cands as [|tenant rest IH]; intros s k d e; cbn [drive_each]; [apply drove_ret; [lia|split; lia]|].
apply drove_spent; [done|]. intros s1 t1 H1. destruct (Z.leb_spec PROVISION_DRIVE_TICK_BUDGET_MS (t1 - tick0)).
- destruct (IH s1 (S k) d e) as [H2 H3]. split; [lia|]. destruct (drive_each _ _ _ _ _ _ _ _ _ _ s1) as [[[[k' d'] e']|x] s2]; cbn in *; [split; [lia|intros _; lia]|done].
- destruct (proj1 Htime s1) as (t2 & s2 & E & H2). rewrite bind_run, E, bind_run.
  destruct (drive_tenant_ends DRIVE_FUEL tenant tick0 t2 d e s2) as [H3 H4];
    [pose proof drive_fuel_exact; unfold PROVISION_DRIVE_TENANT_SLICE_MS in *; lia|rewrite drive_fuel_exact; lia|].
  destruct (drive_tenant _ _ _ _ _ _ _ _ _ _ s2) as [[[[d' e'] b]|x] s3]; cbn in *; [|split; cbn; [lia|done]].
  destruct (IH s3 k d' e') as [H5 H6]. split; [lia|]. destruct (drive_each _ _ _ _ _ _ _ _ _ _ s3) as [[[[k' d''] e'']|x] s4]; cbn in *; [split; [lia|apply H6]|done].
Qed.

End drive_facts.
