(* ===== verification/Trace.v ===== *)
(** * What the provisioner and the routes over it ask of the world (the seams of src/provisioner.ts)

    Provisioning, upgrades and teardown are programs over other people's state: the plane's store,
    Cloudflare's API, the token minter, the release bundles, a tenant's studio and the clock, and so are
    the routes that create, suspend, upgrade and tear down studios.  Each of those is a [call] here.  A program runs against [ask], which answers every call however it likes
    given everything asked before, so a theorem about a run holds whatever the store holds, whatever
    the cloud does and whoever else is at work.  The trace records every call with its answer. *)

From S2P Require Export RunpodPool RunpodJobs TenantStore Text Auth.
Open Scope string_scope.
Open Scope list_scope.
Open Scope Z_scope.
Open Scope plane_scope.

(** ** Steps, errors *)
Inductive step := D1Create | D1Migrate | R2Bucket | R2Token | RunpodEndpoints | WfpUpload | ModulesUpload | ModulesInstall | VerifyStep | BundleFetch
| AssetsUpload.
#[export] Instance step_eq_dec : EqDecision step.
Proof. solve_decision. Defined.
Definition step_text (s : step) : string :=
  match s with
  | D1Create => "d1_create" | D1Migrate => "d1_migrate" | R2Bucket => "r2_bucket" | R2Token => "r2_token"
  | RunpodEndpoints => "runpod_endpoints" | WfpUpload => "wfp_upload" | ModulesUpload => "modules_upload"
  | ModulesInstall => "modules_install" | VerifyStep => "verify" | BundleFetch => "bundle_fetch"
  | AssetsUpload => "assets_upload"
  end.

(** What can be thrown: a refusal of Cloudflare's API, the provisioner's own failures, its signal that
    an invocation is out of time, a studio upgrade's and a binding patch's, and any other [Error]. *)
Inductive exn :=
| ECf (operation : string) (status : Z) (cfErrors : list (option Z * string))
| EProvision (s : step) (message : string)
| EModule (s : step) (message : string)
| EYield (after : step)
| EUpgrade (s : step) (message : string)
| EBinding (code : string) (status : Z) (message : string)
| EError (name message : string).

Definition exn_message (e : exn) : string :=
  match e with
  | ECf op status errors =>
      op +:+ ": " +:+ (if (length errors =? 0)%nat then "HTTP " +:+ Str.of_int status else Str.join "; " (snd <$> errors))
  | EProvision _ m | EModule _ m | EUpgrade _ m | EBinding _ _ m | EError _ m => m
  | EYield after => "provision yielded after " +:+ step_text after
  end.
Definition exn_name (e : exn) : string :=
  match e with
  | ECf _ _ _ => "CfApiError" | EProvision _ _ => "ProvisionFailure" | EModule _ _ => "TenantModuleError"
  | EYield _ => "ProvisionYield" | EUpgrade _ _ => "StudioUpgradeError" | EBinding _ _ _ => "StudioBindingError" | EError n _ => n
  end.
(** [String(e)] *)
Definition exn_text (e : exn) : string :=
  if Str.truthy (exn_message e) then exn_name e +:+ ": " +:+ exn_message e else exn_name e.

Definition CF_SCRIPT_NOT_FOUND : Z := 10007.
Definition CF_VPC_BINDING_UNAUTHORIZED : Z := 10196.
Definition has_code (code : Z) (e : option Z * string) : bool := bool_decide (e.1 = Some code).
Definition isScriptAbsent (e : exn) : bool :=
  match e with ECf _ status errors => (status =? 404) && existsb (has_code CF_SCRIPT_NOT_FOUND) errors | _ => false end.

Inductive VpcBindingFailure := VpcUnrelated | VpcRefused | VpcUnmatched (codes : list (option Z)) (messages : list string).
Definition classifyVpcBindingFailure (e : exn) (attachingVpc : bool) : VpcBindingFailure :=
  match e with
  | ECf _ _ errors =>
      if negb attachingVpc then VpcUnrelated
      else if existsb (has_code CF_VPC_BINDING_UNAUTHORIZED) errors then VpcRefused
      else VpcUnmatched (fst <$> errors) (snd <$> errors)
  | _ => VpcUnrelated
  end.

(** ** What is uploaded *)
Inductive WorkerBinding :=
| BAssets (name : string) | BDispatchNamespace (name namespace : string) | BD1 (name id : string)
| BR2 (name bucket_name : string) | BPlainText (name text : string) | BSecretText (name text : string)
| BRatelimit (name namespace_id : string) (limit period : Z) | BAi (name : string)
| BVpcService (name service_id : string) | BInherit (name : string).
Definition binding_name (b : WorkerBinding) : string :=
  match b with
  | BAssets n | BDispatchNamespace n _ | BD1 n _ | BR2 n _ | BPlainText n _ | BSecretText n _
  | BRatelimit n _ _ _ | BAi n | BVpcService n _ | BInherit n => n
  end.
Definition is_vpc (b : WorkerBinding) : bool := match b with BVpcService _ _ => true | _ => false end.

Record UploadArgs := mkUpload {
  ua_namespace : string; ua_scriptName : string; ua_mainModule : string; ua_moduleText : string;
  ua_compatibilityDate : string; ua_compatibilityFlags : option (list string);
  ua_bindings : list WorkerBinding; ua_assetsJwt : option string; ua_assetsConfig : option js;
}.
Record StudioAsset := mkAsset { as_path : string; as_base64 : string; as_contentType : string; as_hash : string; as_size : Z }.
Record StudioMigration := mkMigration { mg_name : string; mg_sql : string }.
Record StudioBundle := mkStudioBundle {
  sb_mainModule : string; sb_moduleText : string; sb_compatibilityDate : string; sb_compatibilityFlags : option (list string);
  sb_assetsConfig : option js; sb_assets : list StudioAsset; sb_migrations : list StudioMigration; sb_requiredVars : list string;
}.
Record ModuleBundle := mkModuleBundle {
  mb_mainModule : string; mb_moduleText : string; mb_compatibilityDate : string; mb_compatibilityFlags : option (list string);
}.
Record MintedCredential := mkMinted { mc_id : string; mc_value : string }.
Record AssetsSession := mkSession { as_jwt : option string; as_buckets : list (list string) }.

(** A binding as Cloudflare lists it. *)
Record BindingListing := mkListing { bl_type : string; bl_name : string }.

(** ** Preservation holds, as the teardown reads them *)
Record PreservationHold := mkHold {
  ph_id : string; ph_tenant_id : string; ph_kind : string; ph_reason : string; ph_opened_at : string; ph_opened_by : string;
  ph_expires_at : option string; ph_released_at : option string;
}.

(** What the audit log keeps of an operation besides its actor, its verb and its target: a text as it
    was given, or the JSON of a value. *)
Inductive AuditDetail := AuditText (s : string) | AuditJson (v : js) | AuditNone.
(** What [openPreservationHold] is given. *)
Record HoldOpen := mkHoldOpen { ho_id : string; ho_tenant_id : string; ho_kind : string; ho_reason : string; ho_opened_by : string; ho_expires_at : option string }.
(** A provisioner run handed to [waitUntil], which goes on after the answer. *)
Inductive background := StartProvision (job : string) (tenant : Tenant) | UpgradeModules (job : string) (tenant : Tenant)
| UpgradeStudio (job : string) (tenant : Tenant).

(** ** Calls and their answers *)
Inductive call :=
(* the store *)
| SSetJobRunning (job : string) | SSetTenantStatus (id status : string)
| SSetTenantD1 (id uuid : string) | SSetTenantBucket (id bucket : string) | SSetTenantR2Token (id token : string)
| SSetTenantRunPodMode (id : string) (mode : RunPodMode) | SSetTenantEndpoints (id : string) (endpoints : list TenantEndpoint)
| SSetTenantScript (id name release : string) | SSetTenantStudioToken (id enc : string)
| SSetTenantModulesRelease (id : string) (release : option string)
| SUpdateJobProgress (job : string) (s : step) (done : list step)
| SFinishJob (job : string) (succeeded : bool) (s : option step) (message : option string)
| SSetTenantStudioRelease (id : string) (release : option string)
| SSetTenantStorageQuota (id : string) (override : option (option string))
| SSetTenantVideoFinishUnreachable (id : string) (declared : option (string * Z))
| SReleaseJobLease (job : string) | SGetJob (job : string) | SGetTenantById (id : string)
| SListOpenHolds (id : string) | SFindResourceReferrers (id : string) (refs : TenantResourceRefs)
| SGetResourceOwner (kind : TenantResourceKind) (key : string) | SClearTenantResource (id : string) (kind : TenantResourceKind)
| SIndexRunpodJobs (id slug : string) (rows : list HarvestedJob) | SRecordTeardown (id : string) (failures : list (string * string))
(* the store, as the routes use it *)
| SCheckSlugAvailability (slug account : string) | SClaimReclaim (id account : string) (seconds : Z) | SReclaimSlug (id account token : string)
| SGetTenantForAccount (account : string) | SUpsertAccount (email : string) | SCreateTenant (id slug account status : string)
| SCreateProvisionJob (id tenant : string) (mode : RunPodMode) (release : string)
| SCreateModuleUpgradeJob (id tenant : string) (from : option string) (to : string)
| SCreateStudioUpgradeJob (id tenant : string) (from : option string) (to : string)
| SGetLatestJob (tenant : string) | SRecordAdminAction (actor action : string) (target : option string) (detail : AuditDetail)
| SSuspendTenant (id reason : string) | SResumeTenant (id : string)
| SListHolds (id : string) | SOpenHold (hold : HoldOpen) | SReleaseHold (id released_by reason : string)
| SBeginTeardown (id : string) (seconds : Z) | SFinishTeardown (id token : string) (promote : bool)
(* Cloudflare *)
| CCreateD1 (name : string) | CQueryD1 (db sql : string) (params : list js) | CDeleteD1 (db : string)
| CCreateR2Bucket (name : string) | CDeleteR2Bucket (name : string)
| CUploadUserWorker (args : UploadArgs) | CDeleteUserWorker (namespace script : string)
| CCreateAssetsSession (namespace script : string) (manifest : list (string * (string * Z)))
| CUploadAssetBucket (jwt : string) (files : list StudioAsset)
| CListNamespaceScripts (namespace : string) | CCreateDispatchNamespace (namespace : string)
| CPatchScriptSettings (namespace script : string) (bindings : list WorkerBinding)
| CPutScriptSecret (namespace script name value : string)
| CGetScriptBindings (namespace script : string) | CGetScriptSecretNames (namespace script : string)
(* the token minter *)
| TMintBucketToken (name bucket : string) | TMintAigToken (name : string) | TRevoke (id : string) | TRevokeByName (name : string)
(* release bundles *)
| BFetchStudio (release : string) | BFetchModule (release module : string)
(* a tenant's studio and its modules *)
| XCallStudio (script method path token : string) (body : option string) | XCallModule (script path : string)
(* the bucket's S3 endpoint, signed with a credential *)
| XS3 (credential : MintedCredential) (method url : string) (body : option string)
(* any other request, and work left to run after the answer *)
| NFetch (request : HttpRequest) | WaitUntil (work : background)
(* the clock, sleeping, and random bytes *)
| KNow | KSleep (ms : Z) | KRandom (n : nat).

Definition ret (c : call) : Type :=
  match c with
  | SFinishJob _ _ _ _ | SReleaseJobLease _ | TRevokeByName _ => bool
  | SGetJob _ | SGetLatestJob _ => option ProvisionJob
  | SGetTenantById _ | SGetTenantForAccount _ | SReclaimSlug _ _ _ | SFinishTeardown _ _ _ => option Tenant
  | SCheckSlugAvailability _ _ => SlugClaim
  | SClaimReclaim _ _ _ | SBeginTeardown _ _ => option (Tenant * string)
  | SUpsertAccount _ => UpsertResult
  | SCreateTenant _ _ _ _ => Tenant
  | SCreateProvisionJob _ _ _ _ | SCreateModuleUpgradeJob _ _ _ _ | SCreateStudioUpgradeJob _ _ _ _ => ProvisionJob
  | SListHolds _ => list PreservationHold
  | SOpenHold _ => PreservationHold
  | SReleaseHold _ _ _ => option PreservationHold
  | NFetch _ => HttpResponse
  | SListOpenHolds _ => list PreservationHold
  | SFindResourceReferrers _ _ => list ResourceReferrer
  | SGetResourceOwner _ _ => option string
  | SIndexRunpodJobs _ _ _ => nat
  | CCreateD1 _ => string
  | CQueryD1 _ _ _ => js
  | CCreateAssetsSession _ _ _ => AssetsSession
  | CUploadAssetBucket _ _ => option string
  | CListNamespaceScripts _ | CGetScriptSecretNames _ _ => list string
  | CGetScriptBindings _ _ => list BindingListing
  | TMintBucketToken _ _ | TMintAigToken _ => MintedCredential
  | BFetchStudio _ => StudioBundle
  | BFetchModule _ _ => ModuleBundle
  | XCallStudio _ _ _ _ _ | XCallModule _ _ | XS3 _ _ _ _ => Z * string
  | KNow => Z
  | KRandom _ => list Ascii.ascii
  | _ => unit
  end.

Record event := Ev { ev_call : call; ev_answer : result exn (ret ev_call) }.
Definition trace : Type := list event.
Definition world : Type := trace → ∀ c, result exn (ret c).

Definition perform (ask : world) (c : call) : M trace exn (ret c) := λ tr, let a := ask tr c in (a, tr ++ [Ev c a]).
Lemma perform_run ask c tr : perform ask c tr = (ask tr c, tr ++ [Ev c (ask tr c)]).
Proof. done. Qed.

(** An error seen in another way: [as_text] where the caller knows it only by its text. *)
Definition map_err {W E E' A} (f : E → E') (m : M W E A) : M W E' A := λ s,
  match m s with (Ok a, s') => (Ok a, s') | (Err e, s') => (Err (f e), s') end.
Definition as_text {W A} (m : M W exn A) : M W string A := map_err exn_text m.

(** [JSON.stringify] of an [Error]'s text and such: an [Error] thrown with a message. *)
Definition error (message : string) : exn := EError "Error" message.

(** ** Policies

    A policy says which calls are allowed after which trace.  [safe P m Q]: from any obedient trace
    where [P] holds, [m] asks only what is allowed, extends the trace, and where it returns [a], [Q a]
    holds of the trace.  Facts about what has been answered stay true as the trace grows. *)
Definition obeys (allowed : trace → call → Prop) (tr : trace) : Prop :=
  ∀ pre c a post, tr = pre ++ Ev c a :: post → allowed pre c.

Class Stable (P : trace → Prop) : Prop := stable : ∀ tr tr', tr `prefix_of` tr' → P tr → P tr'.
Definition answered (c : call) (a : result exn (ret c)) (tr : trace) : Prop := Ev c a ∈ tr.
#[export] Instance stable_answered c a : Stable (answered c a).
Proof. intros tr tr' [k ->] H. apply elem_of_app. by left. Qed.
#[export] Instance stable_const (P : Prop) : Stable (λ _, P).
Proof. by intros tr tr' _. Qed.
#[export] Instance stable_and P Q : Stable P → Stable Q → Stable (λ tr, P tr ∧ Q tr).
Proof. intros HP HQ tr tr' Ht [H1 H2]. split; [by eapply HP|by eapply HQ]. Qed.
#[export] Instance stable_or P Q : Stable P → Stable Q → Stable (λ tr, P tr ∨ Q tr).
Proof. intros HP HQ tr tr' Ht [H1|H2]; [left; by eapply HP|right; by eapply HQ]. Qed.
#[export] Instance stable_exists {A} (P : A → trace → Prop) : (∀ x, Stable (P x)) → Stable (λ tr, ∃ x, P x tr).
Proof. intros HP tr tr' Ht [x H]. exists x. by eapply HP. Qed.
#[export] Instance stable_forall {A} (P : A → trace → Prop) : (∀ x, Stable (P x)) → Stable (λ tr, ∀ x, P x tr).
Proof. intros HP tr tr' Ht H x. by eapply HP. Qed.
#[export] Instance stable_impl (P : Prop) Q : Stable Q → Stable (λ tr, P → Q tr).
Proof. intros HQ tr tr' Ht H HP. by eapply HQ, H. Qed.

Section policy.
Context (allowed : trace → call → Prop).
Implicit Types (tr : trace) (P : trace → Prop).

Lemma obeys_nil : obeys allowed [].
Proof. by intros [|? ?] c a post. Qed.
Lemma obeys_snoc tr c a : obeys allowed tr → allowed tr c → obeys allowed (tr ++ [Ev c a]).
Proof.
intros Ho Hc pre c' a' post E. destruct post as [|e post] using rev_ind.
- apply app_inj_tail in E as [-> [= -> _]]. exact Hc.
- clear IHpost. change (Ev c' a' :: post ++ [e]) with ((Ev c' a' :: post) ++ [e]) in E. rewrite app_assoc in E.
  apply app_inj_tail in E as [-> _]. by eapply Ho.
Qed.

Definition safe {E A} P (m : M trace E A) (Q : A → trace → Prop) : Prop := ∀ tr, obeys allowed tr → P tr →
  tr `prefix_of` (m tr).2 ∧ obeys allowed (m tr).2 ∧ match (m tr).1 with Ok a => Q a (m tr).2 | Err _ => True end.

Lemma safe_ret {E A} P (a : A) (Q : A → trace → Prop) : (∀ tr, P tr → Q a tr) → safe P (mret a : M trace E A) Q.
Proof. intros H tr Ho HP. split_and!; [done|done|by apply H]. Qed.
Lemma safe_throw {E A} P (e : E) (Q : A → trace → Prop) : safe P (throw e : M trace E A) Q.
Proof. intros tr Ho HP. by split_and!. Qed.
Lemma safe_lift {E A} P (r : result E A) (Q : A → trace → Prop) : (∀ a tr, P tr → r = Ok a → Q a tr) → safe P (lift r) Q.
Proof. intros H tr Ho HP. split_and!; [done|done|]. cbn. destruct r as [a|]; [by apply H|done]. Qed.
Lemma safe_bind {E A B} P (m : M trace E A) (f : A → M trace E B) (Q : A → trace → Prop) R : Stable P →
  safe P m Q → (∀ a, safe (λ tr, P tr ∧ Q a tr) (f a) R) → safe P (m ≫= f) R.
Proof.
intros HP Hm Hf tr Ho Htr. destruct (Hm tr Ho Htr) as (Hpre & Ho' & Hq). rewrite bind_run.
destruct (m tr) as [[a|e] tr']; [|by split_and!]. cbn in *.
destruct (Hf a tr' Ho') as (Hpre2 & Ho2 & Hr); [split; [by eapply HP|done]|]. split_and!; [by etrans|done|done].
Qed.
Lemma safe_bind_lift {E A B} P (r : result E A) (f : A → M trace E B) R :
  (∀ a, r = Ok a → safe P (f a) R) → safe P (lift r ≫= f) R.
Proof.
intros Hf tr Ho Htr. rewrite bind_run. unfold lift. destruct r as [a|e]; [by apply Hf|by split_and!].
Qed.
(** Where only the policy matters. *)
Lemma safe_then {E A B} P (m : M trace E A) (f : A → M trace E B) R : Stable P →
  safe P m (λ _ _, True) → (∀ a, safe P (f a) R) → safe P (m ≫= f) R.
Proof.
intros HP Hm Hf. eapply safe_bind; [done|exact Hm|]. intros a tr Ho [Htr _]. by apply Hf.
Qed.
Lemma safe_attempt {E A} P (m : M trace E A) (Q : A → trace → Prop) : safe P m Q →
  safe P (attempt m) (λ r tr, match r with inr a => Q a tr | inl _ => True end).
Proof.
intros Hm tr Ho Htr. destruct (Hm tr Ho Htr) as (Hpre & Ho' & Hq). unfold attempt.
destruct (m tr) as [[a|e] tr']; by split_and!.
Qed.
Lemma safe_weaken {E A} (P P' : trace → Prop) (m : M trace E A) (Q Q' : A → trace → Prop) :
  safe P' m Q' → (∀ tr, P tr → P' tr) → (∀ a tr, P tr ∨ True → Q' a tr → Q a tr) → safe P m Q.
Proof.
intros Hm HP HQ tr Ho Htr. destruct (Hm tr Ho (HP _ Htr)) as (Hpre & Ho' & Hq). split_and!; [done|done|].
destruct (m tr) as [[a|e] tr']; [apply HQ; [by right|done]|done].
Qed.
(** What held before still holds after. *)
Lemma safe_keep {E A} P (m : M trace E A) (Q : A → trace → Prop) : Stable P → safe P m Q → safe P m (λ a tr, P tr ∧ Q a tr).
Proof.
intros HP Hm tr Ho Htr. destruct (Hm tr Ho Htr) as (Hpre & Ho' & Hq). split_and!; [done|done|].
destruct (m tr) as [[a|e] tr']; [|done]. split; [by eapply HP|done].
Qed.
Lemma safe_map_err {E E' A} P (f : E → E') (m : M trace E A) Q : safe P m Q → safe P (map_err f m) Q.
Proof.
intros H tr Ho HP. destruct (H tr Ho HP) as (H1 & H2 & H3). unfold map_err. by destruct (m tr) as [[a|e] tr'].
Qed.
Context (ask : world).
Lemma safe_perform P c : (∀ tr, P tr → allowed tr c) → safe P (perform ask c) (λ a, answered c (Ok a)).
Proof.
intros H tr Ho Htr. cbn. split_and!; [by eexists|by apply obeys_snoc; [|apply H]|].
destruct (ask tr c) eqn:E; [|done]. unfold answered. rewrite <- E. apply elem_of_app. right. left.
Qed.
Lemma safe_do P c : (∀ tr, P tr → allowed tr c) → safe P (perform ask c) (λ _ _, True).
Proof.
intros H. eapply safe_weaken; [by apply safe_perform|done|done].
Qed.
Lemma safe_try P c : (∀ tr, P tr → allowed tr c) → safe P (attempt (perform ask c)) (λ _ _, True).
Proof.
intros H. eapply safe_weaken; [by apply safe_attempt, safe_perform|done|done].
Qed.
End policy.

(** A program safe under any policy that allows the calls [C] is safe where [K], once true, allows them. *)
Lemma safe_where {X A} (C : trace → call → Prop) (allowed : trace → call → Prop) (P K : trace → Prop) (m : M trace X A) Q :
  (∀ al, (∀ tr c, C tr c → al tr c) → safe al P m Q) → Stable K → (∀ tr c, K tr → C tr c → allowed tr c) →
  safe allowed (λ tr, P tr ∧ K tr) m Q.
Proof.
intros H HK Hal tr Ho [HP Htr]. set (al := λ tr' c, C tr' c ∨ ∃ a k, tr = tr' ++ Ev c a :: k).
destruct (H al (λ tr' c HC, or_introl HC) tr) as (Hpre & Ho' & Hq); [|done|].
{ intros pre c a post ->. right. by exists a, post. }
split_and!; [done| |done]. destruct Hpre as [evs E]. intros pre c a post E'. rewrite E in E', Ho'.
destruct (Nat.lt_ge_cases (length pre) (length tr)) as [Hl|Hl].
- assert (tr = pre ++ Ev c a :: drop (S (length pre)) tr) as Etr; [|by eapply Ho].
  assert (pre ++ [Ev c a] = take (S (length pre)) tr) as E1.
  { apply (f_equal (take (S (length pre)))) in E'. rewrite take_app_le in E' by lia. rewrite E'.
    change (Ev c a :: post) with ([Ev c a] ++ post). rewrite app_assoc, take_app_le by (rewrite length_app; cbn; lia).
    rewrite take_ge; [done|rewrite length_app; cbn; lia]. }
  rewrite <- (take_drop (S (length pre)) tr) at 1. by rewrite <- E1, <- app_assoc.
- assert (tr `prefix_of` pre) as Hpre.
  { exists (take (length pre - length tr) evs). apply (f_equal (take (length pre))) in E'.
    rewrite take_app_length, take_app_ge in E' by lia. symmetry. exact E'. }
  assert (K pre) as HKp by (by eapply HK). specialize (Ho' pre c a post E') as [HC|(a' & k & Et)]; [by apply Hal|].
  apply (f_equal length) in Et. rewrite length_app in Et. cbn in Et. lia.
Qed.

(** A program that asks nothing it is not allowed to. *)
Definition lawful (allowed : trace → call → Prop) {E A} (m : M trace E A) : Prop := safe allowed (λ _, True) m (λ _ _, True).

(** ** The kinds of calls a program makes

    [only ok m]: whatever the answers, [m] adds to the trace calls that satisfy [ok] and nothing else. *)
Definition only (ok : call → bool) {E A} (m : M trace E A) : Prop :=
  ∀ tr, ∃ evs, (m tr).2 = tr ++ evs ∧ Forall (λ e, ok (ev_call e) = true) evs.

Section only.
Context (ok : call → bool).
Lemma only_ret {E A} (a : A) : only ok (mret a : M trace E A).
Proof. intros tr. exists []. by rewrite app_nil_r. Qed.
Lemma only_throw {E A} (e : E) : only ok (throw e : M trace E A).
Proof. intros tr. exists []. by rewrite app_nil_r. Qed.
Lemma only_lift {E A} (r : result E A) : only ok (lift r).
Proof. intros tr. exists []. by rewrite app_nil_r. Qed.
Lemma only_bind {E A B} (m : M trace E A) (f : A → M trace E B) : only ok m → (∀ a, only ok (f a)) → only ok (m ≫= f).
Proof.
intros Hm Hf tr. destruct (Hm tr) as (evs & E1 & H1). rewrite bind_run. destruct (m tr) as [[a|e] tr']; cbn in E1; subst tr'; [|by exists evs].
destruct (Hf a (tr ++ evs)) as (evs2 & E2 & H2). exists (evs ++ evs2). rewrite app_assoc. split; [exact E2|by apply Forall_app].
Qed.
Lemma only_attempt {E A} (m : M trace E A) : only ok m → only ok (attempt m).
Proof. intros Hm tr. destruct (Hm tr) as (evs & E1 & H1). exists evs. unfold attempt. by destruct (m tr) as [[a|e] tr']. Qed.
Lemma only_map_err {E E' A} (f : E → E') (m : M trace E A) : only ok m → only ok (map_err f m).
Proof. intros Hm tr. destruct (Hm tr) as (evs & E1 & H1). exists evs. unfold map_err. by destruct (m tr) as [[a|e] tr']. Qed.
Lemma only_perform ask c : ok c = true → only ok (perform ask c).
Proof. intros Hc tr. exists [Ev c (ask tr c)]. split; [done|by constructor]. Qed.
(** An assertion that such calls keep is kept. *)
Lemma only_preserves {E A} (m : M trace E A) (I : trace → Prop) : only ok m →
  (∀ tr c a, ok c = true → I tr → I (tr ++ [Ev c a])) → preserves I m.
Proof.
intros Hm HI tr Htr. destruct (Hm tr) as (evs & E1 & H1). unfold exec. rewrite E1. clear E1. induction evs as [|[c a] evs IH] using rev_ind.
- by rewrite app_nil_r.
- apply Forall_app in H1 as [H1 H2]. rewrite app_assoc. apply HI; [by inversion H2|by apply IH].
Qed.
End only.
Lemma only_mono (ok ok' : call → bool) {E A} (m : M trace E A) : only ok m → (∀ c, ok c = true → ok' c = true) → only ok' m.
Proof. intros Hm Hok tr. destruct (Hm tr) as (evs & E1 & H1). exists evs. split; [done|]. eapply Forall_impl; [exact H1|]. intros e. apply Hok. Qed.
(** A computation of known kinds is safe where those are allowed. *)
Lemma only_safe {E A} ok (allowed : trace → call → Prop) (P : trace → Prop) (m : M trace E A) : Stable P → only ok m →
  (∀ tr c, P tr → ok c = true → allowed tr c) → safe allowed P m (λ _ _, True).
Proof.
intros HP Hm Hok tr Ho Htr. destruct (Hm tr) as (evs & E1 & H1). rewrite E1. split_and!; [by eexists| |by destruct (m tr).1].
clear E1. induction evs as [|[c a] evs IH] using rev_ind; [by rewrite app_nil_r|]. apply Forall_app in H1 as [H1 H2].
rewrite app_assoc. apply obeys_snoc; [by apply IH|]. apply Hok; [eapply HP; [|exact Htr]; by eexists|by inversion H2].
Qed.
Ltac walk_only :=
  repeat first
    [ simple apply only_ret | simple apply only_throw | simple apply only_lift
    | simple apply only_bind; [|intros ?] | simple apply only_attempt | simple apply only_map_err
    | match goal with |- only ?ok (perform ?ask ?c) => exact (only_perform ok ask c eq_refl) end
    | match goal with |- only _ (match ?x with _ => _ end) => destruct x end
    | assumption ].

(** ** Time

    What a trace slept, and a clock that is honest about it: a later reading is later by at least that. *)
Fixpoint slept (tr : trace) : Z :=
  match tr with
  | [] => 0
  | Ev (KSleep ms) (Ok _) :: tr => ms + slept tr
  | _ :: tr => slept tr
  end.
Lemma slept_app t1 t2 : slept (t1 ++ t2) = slept t1 + slept t2.
Proof. induction t1 as [|[c a] t1 IH]; [done|]. cbn. destruct c; try exact IH. destruct a; [rewrite IH; lia|exact IH]. Qed.
Definition honest_clock (ask : world) : Prop :=
  ∀ pre t1 mid t2, ask (pre ++ Ev KNow (Ok t1) :: mid) KNow = Ok t2 → t1 + slept mid <= t2.

(** The tactics name the call, whose answer type unification cannot guess. *)
Ltac safe_call :=
  lazymatch goal with
  | |- safe ?al ?P (attempt (perform ?ask ?c)) _ =>
      first [refine (safe_try al ask P c _) | refine (safe_attempt al P _ (λ a, answered c (Ok a)) (safe_perform al ask P c _))]
  | |- safe ?al ?P (perform ?ask ?c) _ => first [refine (safe_do al ask P c _) | refine (safe_perform al ask P c _)]
  end.
