(* ===== verification/Migrate.v ===== *)
(** * Migrating a tenant's database (src/migrate.ts)

    Comments are stripped from a migration before it is sent, only the migrations a database has not
    had are applied, and each is recorded once its statements were taken. *)

From S2P Require Export Trace.
From Stdlib Require Import Ascii.
Open Scope string_scope.
Open Scope list_scope.
Open Scope Z_scope.
Open Scope plane_scope.

Definition newline : string := String "010" EmptyString.
Definition char_text (c : ascii) : string := String c EmptyString.

(** ** Comments *)
(** The mark that closes a quotation opened by [c]. *)
Definition closer (c : ascii) : option string :=
  if (c =? "'")%char then Some "'" else if (char_text c =? Str.dq)%string then Some Str.dq
  else if (c =? "`")%char then Some "`" else if (c =? "[")%char then Some "]" else None.

(** The loop of [stripSqlComments]; nothing where it gives the input back untouched. *)
Fixpoint strip (fuel : nat) (sql : string) : option string :=
  match fuel with
  | O => None
  | S fuel =>
      match sql with
      | EmptyString => Some ""
      | String c rest =>
          match closer c with
          | Some mark =>
              '(body, after) ← cut mark rest;
              out ← strip fuel after;
              Some (String c (body +:+ mark +:+ out))
          | None =>
              if starts_with "--" sql then
                match cut newline sql with
                | None => Some ""
                | Some (_, after) => strip fuel (newline +:+ after)
                end
              else if starts_with "/*" sql then
                '(_, after) ← cut "*/" (slice_from 2 sql);
                out ← strip fuel after;
                Some (" " +:+ out)
              else out ← strip fuel rest; Some (String c out)
          end
      end
  end.
Definition stripSqlComments (sql : string) : string :=
  match strip (S (String.length sql)) sql with Some out => Str.trim out | None => sql end.

(** ** Applying *)
Definition TRACKING_DDL : string :=
  "CREATE TABLE IF NOT EXISTS schema_migrations (" +:+ newline +:+ "  name TEXT PRIMARY KEY," +:+ newline +:+
  "  applied_at TEXT NOT NULL DEFAULT (datetime('now'))" +:+ newline +:+ ");".
Definition ADOPTED_PROBE_TABLE : string := "cast_members".
Definition READ_RECORDED : string := "SELECT name FROM schema_migrations;".

Definition sqlString (value : string) : result exn string :=
  if existsb (Ascii.eqb "'") (Str.chars value) then Err (error ("migration name must not contain a quote: " +:+ value))
  else Ok ("'" +:+ value +:+ "'").
Definition record_of (quoted : string) : string := "INSERT OR IGNORE INTO schema_migrations (name) VALUES (" +:+ quoted +:+ ");".
Definition adopt_probe : result exn string :=
  q ← sqlString ADOPTED_PROBE_TABLE; Ok ("SELECT name FROM sqlite_master WHERE type='table' AND name=" +:+ q +:+ ";").
Definition seed_values (migrations : list StudioMigration) : result exn string :=
  quoted ← mapM (λ m, q ← sqlString (mg_name m); Ok ("(" +:+ q +:+ ")")) migrations;
  Ok ("INSERT OR IGNORE INTO schema_migrations (name) VALUES " +:+ Str.join ", " quoted +:+ ";").

Section migrating.
Variable ask : world.
(** [String(n)] on a number. *)
Variable show : Num.num → string.
Variable databaseId : string.

(** [String(row.name)]: a column holds a text, a number or null. *)
Definition name_text (v : js) : string :=
  match v with
  | JStr s => s | JNum n => show n | JNull => "null" | JUndef => "undefined"
  | JBool b => if b then "true" else "false" | JArr _ | JObj _ => "[object Object]"
  end.
Definition row_name (row : js) : result exn string :=
  match row with
  | JNull | JUndef => Err (EError "TypeError" "Cannot read properties of null (reading 'name')")
  | _ => Ok (name_text (js_field row "name"))
  end.

Definition run_sql (sql : string) : M trace exn js := perform ask (CQueryD1 databaseId sql []).

Fixpoint apply_each (already : list string) (migrations : list StudioMigration) : M trace exn (list string) :=
  match migrations with
  | [] => mret []
  | m :: migrations =>
      if bool_decide (mg_name m ∈ already) then apply_each already migrations
      else
        let statements := stripSqlComments (mg_sql m) in
        _ ← (if Str.truthy statements then _ ← run_sql statements; mret tt else mret tt);
        quoted ← lift (sqlString (mg_name m));
        _ ← run_sql (record_of quoted);
        rest ← apply_each already migrations;
        mret (mg_name m :: rest)
  end.

(** Whether the studio's own tables are there although no migration is recorded: then all are seeded. *)
Definition adopt (already : list string) (migrations : list StudioMigration) : M trace exn bool :=
  match already, migrations with
  | [], _ :: _ =>
      probe ← lift adopt_probe;
      found ← run_sql probe;
      if (0 <? length (rowsOf found))%nat then
        seeds ← lift (seed_values migrations);
        _ ← run_sql seeds;
        mret true
      else mret false
  | _, _ => mret false
  end.

(** The names applied and the names seeded. *)
Definition applyStudioMigrations (migrations : list StudioMigration) : M trace exn (list string * list string) :=
  _ ← run_sql TRACKING_DDL;
  recorded ← run_sql READ_RECORDED;
  already ← lift (mapM row_name (rowsOf recorded));
  adopted ← adopt already migrations;
  if adopted : bool then mret ([], mg_name <$> migrations)
  else applied ← apply_each already migrations; mret (applied, []).
End migrating.

(** ** What stripping keeps: a lexer of SQL *)
Section stripping.
Implicit Types (s b m : string) (c : ascii).

(** One piece of a migration: a character outside quotes and comments, a quotation with its marks, a
    comment up to the end of its line, a bracketed comment. *)
Inductive segment := SChar (c : ascii) | SQuoted (c : ascii) (body mark : string) | SLine (body : string) | SBlock (body : string).
Implicit Types (l : list segment).
Definition render_segment (x : segment) : string :=
  match x with
  | SChar c => char_text c | SQuoted c body mark => String c (body +:+ mark)
  | SLine body => "--" +:+ body | SBlock body => "/*" +:+ body +:+ "*/"
  end.
Fixpoint render l : string := match l with [] => "" | x :: l => render_segment x +:+ render l end.
Definition kept_segment (x : segment) : string :=
  match x with SChar _ | SQuoted _ _ _ => render_segment x | SLine _ => "" | SBlock _ => " " end.
Fixpoint kept l : string := match l with [] => "" | x :: l => kept_segment x +:+ kept l end.

(** The first [m] after [b] is where [b] ends. *)
Definition ends_at m b : Prop := cut m (b +:+ m) = Some (b, "").
Definition plain_before c s : Prop := closer c = None ∧ starts_with "--" (String c s) = false ∧ starts_with "/*" (String c s) = false.
Fixpoint lexed l : Prop :=
  match l with
  | [] => True
  | SChar c :: l => plain_before c (render l) ∧ lexed l
  | SQuoted c body mark :: l => closer c = Some mark ∧ ends_at mark body ∧ lexed l
  | SLine body :: l => cut newline body = None ∧ (l = [] ∨ ∃ l', l = SChar "010" :: l') ∧ lexed l
  | SBlock body :: l => ends_at "*/" body ∧ lexed l
  end.
Lemma text_length s b : String.length (s +:+ b) = (String.length s + String.length b)%nat.
Proof. induction s as [|c s IH]; [done|]. exact (f_equal S IH). Qed.
Lemma cut_joins m s b r : cut m s = Some (b, r) → s = b +:+ (m +:+ r).
Proof.
revert b r. induction s as [|c s IH]; intros b r.
- cbn [cut]. destruct (starts_with m "") eqn:E; [|done]. intros [= <- <-]. apply starts_with_spec in E as [r E]. destruct m; [reflexivity|discriminate].
- cbn [cut]. destruct (starts_with m (String c s)) eqn:E.
  + intros [= <- <-]. apply starts_with_spec in E as [r E]. rewrite E. by rewrite slice_from_app.
  + destruct (cut m s) as [[b' r']|]; [|done]. intros [= <- <-]. cbn. by rewrite (IH _ _ eq_refl).
Qed.
Lemma starts_with_longer p s r : starts_with p s = true → starts_with p (s +:+ r) = true.
Proof. rewrite !starts_with_spec. intros [q ->]. exists (q +:+ r). apply append_assoc. Qed.
Lemma starts_with_shorter p s r : starts_with p (s +:+ r) = true → (String.length p <= String.length s)%nat → starts_with p s = true.
Proof.
rewrite !starts_with_spec. revert s. induction p as [|c p IH]; intros s [q Hq] Hl; [by exists s|].
destruct s as [|c' s]; [cbn in Hl; lia|]. cbn in Hq, Hl. injection Hq as -> Hq. destruct (IH s) as [t ->]; [by exists q|lia|]. by exists t.
Qed.
Lemma cut_longer m s b r q : cut m s = Some (b, r) → cut m (s +:+ q) = Some (b, r +:+ q).
Proof.
revert b r. induction s as [|c s IH]; intros b r H.
{ apply cut_joins in H as E. destruct b, m; try discriminate. change ("" = r) in E. subst r.
  destruct q as [|c q]; [reflexivity|]. change (Some ("", Str.of_chars (Str.chars (String c q))) = Some ("", String c q)). by rewrite of_chars_chars. }
assert (String c s = b +:+ (m +:+ r)) as E by by apply cut_joins.
change (String c s +:+ q) with (String c (s +:+ q)). cbn [cut] in H |- *. destruct (starts_with m (String c s)) eqn:Es.
- assert (starts_with m (String c (s +:+ q)) = true) as -> by exact (starts_with_longer _ _ q Es).
  injection H as <- Hr. clear Hr. change ("" +:+ (m +:+ r)) with (m +:+ r) in E.
  change (String c (s +:+ q)) with (String c s +:+ q). by rewrite E, append_assoc, slice_from_app.
- destruct (cut m s) as [[b' r']|] eqn:Ec; [|done]. injection H as <- <-. rewrite (IH _ _ eq_refl).
  destruct (starts_with m (String c (s +:+ q))) eqn:Eq; [|done]. change (String c (s +:+ q)) with (String c s +:+ q) in Eq.
  apply starts_with_shorter in Eq; [by rewrite Eq in Es|]. apply cut_joins in Ec. rewrite Ec. cbn. rewrite !text_length. lia.
Qed.
Lemma ends_cut m b r : ends_at m b → cut m (b +:+ (m +:+ r)) = Some (b, r).
Proof. intros H. rewrite <- append_assoc. by rewrite (cut_longer _ _ _ _ r H). Qed.
(** Before the first mark there is none. *)
Lemma cut_ends m s b r : cut m s = Some (b, r) → ends_at m b.
Proof.
intros H. pose proof (cut_joins _ _ _ _ H) as E. unfold ends_at.
destruct (cut m (b +:+ m)) as [[b' r']|] eqn:Ec.
- pose proof (cut_longer _ _ _ _ r Ec) as H'. rewrite append_assoc, <- E, H in H'. injection H' as <- Hr. do 2 f_equal.
  apply cut_joins in Ec. symmetry. apply (f_equal String.length) in Ec. rewrite !text_length in Ec. destruct r'; [done|cbn in Ec; lia].
- exfalso. assert (∀ x, cut m (x +:+ m) ≠ None) as Hx; [|by apply Hx in Ec].
  intros x. induction x as [|c x IH].
  + change ("" +:+ m) with m. assert (starts_with m m = true) as Es by (apply starts_with_spec; exists ""; by rewrite append_nil).
    destruct m; cbn [cut]; by rewrite Es.
  + change (String c x +:+ m) with (String c (x +:+ m)). cbn [cut]. destruct (starts_with _ _); [done|]. by destruct (cut m (x +:+ m)) as [[? ?]|].
Qed.

Lemma cut_before m s b r : cut m s = Some (b, r) → m ≠ "" → cut m b = None.
Proof.
intros H Hm. destruct (cut m b) as [[b' r']|] eqn:Ec; [|done]. exfalso. apply Hm. pose proof (cut_longer _ _ _ _ (m +:+ r) Ec) as H'.
rewrite <- (cut_joins _ _ _ _ H), H in H'. injection H' as <- _. apply cut_joins, (f_equal String.length) in Ec. rewrite !text_length in Ec.
destruct m; [done|cbn in Ec; lia].
Qed.
Lemma render_line c l : render (SChar c :: l) = String c (render l).
Proof. done. Qed.
Lemma prefix_here p s : starts_with p (p +:+ s) = true.
Proof. apply starts_with_spec. by exists s. Qed.
Lemma newline_first c s : starts_with newline (String c s) = bool_decide (c = "010"%char).
Proof.
unfold starts_with, newline. cbn [String.prefix]. destruct (ascii_dec "010" c) as [<-|]; [by rewrite bool_decide_true; [destruct s|]|rewrite bool_decide_false; [done|congruence]].
Qed.
Lemma strip_line fuel s : strip (S fuel) ("--" +:+ s) =
  match cut newline ("--" +:+ s) with None => Some "" | Some (_, after) => strip fuel (newline +:+ after) end.
Proof.
pose proof (prefix_here "--" s) as H. change ("--" +:+ s) with (String "-" (String "-" s)) in *. cbn [strip]. change (closer "-") with (@None string).
cbv iota. by rewrite H.
Qed.
Lemma strip_block fuel s : strip (S fuel) ("/*" +:+ s) =
  '(_, after) ← cut "*/" (slice_from 2 ("/*" +:+ s)); out ← strip fuel after; Some (" " +:+ out).
Proof.
pose proof (prefix_here "/*" s) as H. change ("/*" +:+ s) with (String "/" (String "*" s)) in *. cbn [strip]. change (closer "/") with (@None string).
cbv iota. rewrite H. done.
Qed.
(** Stripping a lexed text keeps what the lexer keeps, whatever the fuel past its length. *)
Lemma strip_lexed l fuel : lexed l → (String.length (render l) < fuel)%nat → strip fuel (render l) = Some (kept l).
Proof.
revert fuel. induction l as [|x l IH]; intros [|fuel] Hl Hf; try (cbn in Hf; lia); [done|]. destruct x as [c|c body mark|body|body].
- destruct Hl as [(Hc & Hline & Hblock) Hl]. rewrite render_line in *. cbn [strip]. rewrite Hc, Hline, Hblock, IH; [done|done|cbn in Hf; lia].
- destruct Hl as (Hc & Hb & Hl). change (render (SQuoted c body mark :: l)) with (String c ((body +:+ mark) +:+ render l)) in *.
  cbn [strip]. rewrite Hc, append_assoc, (ends_cut _ _ _ Hb). cbn [mbind option_bind]. rewrite IH; [|done|].
  + change (kept (SQuoted c body mark :: l)) with (String c ((body +:+ mark) +:+ kept l)). by rewrite append_assoc.
  + cbn in Hf. rewrite !text_length in Hf. lia.
- destruct Hl as (Hb & Hnext & Hl). change (render (SLine body :: l)) with ("--" +:+ body +:+ render l) in *.
  assert (strip (S fuel) ("--" +:+ body +:+ render l) = match cut newline ("--" +:+ body +:+ render l) with
    None => Some "" | Some (_, after) => strip fuel (newline +:+ after) end) as -> by exact (strip_line fuel _).
  destruct Hnext as [->|[l' ->]].
  + change (render []) with "". rewrite append_nil. change ("--" +:+ body) with (String "-" (String "-" body)). cbn [cut].
    change (starts_with newline (String "-" (String "-" body))) with false. change (starts_with newline (String "-" body)) with false. by rewrite Hb.
  + rewrite render_line in *. change (String "010" (render l')) with (newline +:+ render l') in *.
    assert (cut newline ("--" +:+ body +:+ newline +:+ render l') = Some ("--" +:+ body, render l')) as ->.
    { rewrite <- append_assoc. apply ends_cut. unfold ends_at. change (("--" +:+ body) +:+ newline) with (String "-" (String "-" (body +:+ newline))).
      cbn [cut]. change (starts_with newline (String "-" (String "-" (body +:+ newline)))) with false.
      change (starts_with newline (String "-" (body +:+ newline))) with false.
      assert (cut newline (body +:+ newline) = Some (body, "")) as ->; [|done]. clear -Hb. induction body as [|c b IH]; [done|].
      change (String c b +:+ newline) with (String c (b +:+ newline)). cbn [cut] in Hb |- *.
      rewrite newline_first in Hb |- *. destruct (bool_decide _); [done|]. destruct (cut newline b) as [[? ?]|]; [done|]. by rewrite IH. }
    rewrite (IH fuel Hl); [done|]. rewrite !text_length in Hf. rewrite text_length. change (String.length "--") with 2%nat in Hf. lia.
- destruct Hl as [Hb Hl]. change (render (SBlock body :: l)) with ("/*" +:+ (body +:+ "*/") +:+ render l) in *.
  assert (strip (S fuel) ("/*" +:+ (body +:+ "*/") +:+ render l) = '(_, after) ← cut "*/" (slice_from 2 ("/*" +:+ (body +:+ "*/") +:+ render l));
    out ← strip fuel after; Some (" " +:+ out)) as -> by exact (strip_block fuel _).
  change 2%nat with (String.length "/*"). rewrite slice_from_app, append_assoc, (ends_cut _ _ _ Hb). cbn [mbind option_bind]. rewrite IH; [done|done|].
  rewrite !text_length in Hf. cbn in Hf. lia.
Qed.

(** A text that is stripped is lexed to its end. *)
Lemma strip_lexes fuel s out : strip fuel s = Some out → ∃ l, lexed l ∧ s = render l ∧ out = kept l.
Proof.
revert s out. induction fuel as [|fuel IH]; [done|]. intros [|c s] out H; [injection H as <-; by exists []|]. cbn [strip] in H.
destruct (closer c) as [mark|] eqn:Hc.
{ destruct (cut mark s) as [[body after]|] eqn:Ec; [|done]. cbn [mbind option_bind] in H. destruct (strip fuel after) as [o|] eqn:Es; [|done].
  injection H as <-. destruct (IH _ _ Es) as (l & Hl & -> & ->). exists (SQuoted c body mark :: l). split_and!; [by split_and!; [|eapply cut_ends|]| |].
  - rewrite (cut_joins _ _ _ _ Ec). change (render (SQuoted c body mark :: l)) with (String c ((body +:+ mark) +:+ render l)). by rewrite append_assoc.
  - change (kept (SQuoted c body mark :: l)) with (String c ((body +:+ mark) +:+ kept l)). by rewrite append_assoc. }
destruct (starts_with "--" (String c s)) eqn:Hd.
{ apply starts_with_spec in Hd as [r Hr]. rewrite Hr in H |- *. destruct (cut newline ("--" +:+ r)) as [[b after]|] eqn:Ec.
  - destruct (IH _ _ H) as (l & Hl & E & ->).
    change ("--" +:+ r) with (String "-" (String "-" r)) in Ec. cbn [cut] in Ec. change (starts_with newline (String "-" (String "-" r))) with false in Ec.
    change (starts_with newline (String "-" r)) with false in Ec. destruct (cut newline r) as [[body after']|] eqn:Er; [|done]. injection Ec as <- ->.
    assert (∃ l', l = SChar "010" :: l') as [l' ->].
    { destruct l as [|x l']; [done|]. change (newline +:+ after) with (String "010" after) in E. destruct x as [x|x b m|b|b]; [| |discriminate E|discriminate E].
      - injection E as <- _. by exists l'.
      - injection E as <- _. by destruct Hl as [[=] _]. }
    exists (SLine body :: SChar "010" :: l'). split_and!; [split_and!; [by eapply cut_before|right; by exists l'|done]| |done].
    + rewrite (cut_joins _ _ _ _ Er), E. change (render (SLine body :: SChar "010" :: l')) with (("--" +:+ body) +:+ render (SChar "010" :: l')).
      by rewrite !append_assoc.
  - injection H as <-. exists [SLine r]. split_and!; [split_and!; [|by left|done]| |done].
    + change ("--" +:+ r) with (String "-" (String "-" r)) in Ec. cbn [cut] in Ec. rewrite !newline_first in Ec. cbn in Ec. by destruct (cut newline r) as [[? ?]|].
    + change (render [SLine r]) with (("--" +:+ r) +:+ ""). by rewrite append_nil. }
destruct (starts_with "/*" (String c s)) eqn:Hb.
{ apply starts_with_spec in Hb as [r Hr]. rewrite Hr in H |- *. change 2%nat with (String.length "/*") in H. rewrite slice_from_app in H.
  destruct (cut "*/" r) as [[body after]|] eqn:Ec; [|done]. cbn [mbind option_bind] in H. destruct (strip fuel after) as [o|] eqn:Es; [|done].
  injection H as <-. destruct (IH _ _ Es) as (l & Hl & -> & ->). exists (SBlock body :: l). split_and!; [by split_and!; [eapply cut_ends|]| |done].
  rewrite (cut_joins _ _ _ _ Ec). change (render (SBlock body :: l)) with ("/*" +:+ (body +:+ "*/") +:+ render l). by rewrite append_assoc. }
destruct (strip fuel s) as [o|] eqn:Es; [|done]. injection H as <-. destruct (IH _ _ Es) as (l & Hl & -> & ->).
exists (SChar c :: l). by split_and!.
Qed.

(** Stripping comments takes out exactly the comments.  A migration that reads as characters,
    quotations, line comments and bracketed comments is sent as its characters and quotations, every
    bracketed comment one space and every line comment nothing, ends trimmed; quoted text is never
    touched.  A text that does not read that way, because a quotation or a comment never ends, is sent
    as it is. *)
Theorem only_comments_are_stripped sql :
  (∀ l, lexed l → sql = render l → stripSqlComments sql = Str.trim (kept l)) ∧
  ((∀ l, lexed l → sql ≠ render l) → stripSqlComments sql = sql).
Proof.
unfold stripSqlComments. split.
- intros l Hl ->. rewrite strip_lexed; [done|done|lia].
- intros H. destruct (strip _ sql) as [out|] eqn:E; [|done]. destruct (strip_lexes _ _ _ E) as (l & Hl & -> & _). by destruct (H l).
Qed.
End stripping.

(** ** What a migration run asks, and what it leaves *)
Section guarantee.
Context (ask : world) (show : Num.num → string) (db : string) (migrations : list StudioMigration).
Implicit Types (tr : trace) (m : StudioMigration) (already : list string).

Definition taken (sql : string) tr : Prop := ∃ v, answered (CQueryD1 db sql []) (Ok v) tr.
(** The names the database had recorded when it was read. *)
Definition had already tr : Prop := ∃ v, answered (CQueryD1 db READ_RECORDED []) (Ok v) tr ∧ mapM (row_name show) (rowsOf v) = Ok already.
Definition statements_taken m tr : Prop := stripSqlComments (mg_sql m) = "" ∨ taken (stripSqlComments (mg_sql m)) tr.
Definition recorded m tr : Prop := statements_taken m tr ∧ ∃ q, sqlString (mg_name m) = Ok q ∧ taken (record_of q) tr.
(** Everything before [m] is in the database already or recorded by this run. *)
Definition next_is m already tr : Prop := ∃ before after, migrations = before ++ m :: after ∧ (mg_name m ∉ already) ∧
  ∀ m', m' ∈ before → mg_name m' ∈ already ∨ recorded m' tr.
Definition adoptable already tr : Prop := already = [] ∧ migrations ≠ [] ∧
  ∃ probe v, adopt_probe = Ok probe ∧ answered (CQueryD1 db probe []) (Ok v) tr ∧ rowsOf v ≠ [].

Definition migration_calls tr (c : call) : Prop :=
  match c with
  | CQueryD1 d sql params => d = db ∧ params = [] ∧
      (sql = TRACKING_DDL ∨ sql = READ_RECORDED ∨ adopt_probe = Ok sql ∨
       ∃ already, had already tr ∧
         ((seed_values migrations = Ok sql ∧ adoptable already tr) ∨
          ∃ m, next_is m already tr ∧
            (sql = stripSqlComments (mg_sql m) ∨ ((∃ q, sqlString (mg_name m) = Ok q ∧ sql = record_of q) ∧ statements_taken m tr))))
  | _ => False
  end.
(** What a run that returns has done. *)
Definition migrated (names : list string * list string) tr : Prop := ∃ already, had already tr ∧
  ((names.2 = [] ∧ names.1 = jfilter (λ n, negb (bool_decide (n ∈ already))) (mg_name <$> migrations) ∧
      ∀ m, m ∈ migrations → mg_name m ∈ already ∨ recorded m tr) ∨
   (names = ([], mg_name <$> migrations) ∧ adoptable already tr ∧ ∃ seeds, seed_values migrations = Ok seeds ∧ taken seeds tr)).

(** Under any policy that lets a migration run do that much. *)
Section within.
Context (allowed : trace → call → Prop) (lets : ∀ tr c, migration_calls tr c → allowed tr c).
Lemma run_sql_safe P sql : Stable P → (∀ tr, P tr → migration_calls tr (CQueryD1 db sql [])) →
  safe allowed P (run_sql ask db sql) (λ v, answered (CQueryD1 db sql []) (Ok v)).
Proof using lets. intros HP H. apply safe_perform. intros tr Htr. by apply lets, H. Qed.

Lemma apply_each_safe already before after : migrations = before ++ after →
  safe allowed (λ tr, had already tr ∧ ∀ m, m ∈ before → mg_name m ∈ already ∨ recorded m tr) (apply_each ask db already after)
    (λ applied tr, applied = jfilter (λ n, negb (bool_decide (n ∈ already))) (mg_name <$> after) ∧ ∀ m, m ∈ migrations → mg_name m ∈ already ∨ recorded m tr).
Proof using lets.
revert before. induction after as [|m after IH]; intros before Hm; cbn [apply_each].
{ apply safe_ret. intros tr [_ H]. split; [done|]. rewrite Hm, app_nil_r. exact H. }
rewrite cons_middle, app_assoc in Hm. cbn [fmap list_fmap jfilter List.filter]. destruct (bool_decide _) eqn:Hin; cbn [negb].
{ eapply safe_weaken; [apply (IH (before ++ [m])); exact Hm| |done]. intros tr [Hh Hb]. split; [done|].
  intros m' [Hb'|Hin1%list_elem_of_singleton]%elem_of_app; [by apply Hb|left; subst m'; by apply bool_decide_eq_true in Hin]. }
apply bool_decide_eq_false in Hin.
set (P := λ tr, had already tr ∧ ∀ m', m' ∈ before → mg_name m' ∈ already ∨ recorded m' tr).
assert (Stable P) by apply _. assert (∀ tr, P tr → next_is m already tr) as Hnext.
{ intros tr [_ Hb]. exists before, after. split_and!; [by rewrite Hm, <- app_assoc|done|exact Hb]. }
eapply (safe_bind _ _ _ _ (λ _, statements_taken m)); [done| |intros []].
- destruct (Str.truthy (stripSqlComments (mg_sql m))) eqn:Et.
  + eapply safe_bind; [done|apply run_sql_safe; [done|]|].
    * intros tr Htr. split_and!; [done|done|]. do 3 right. exists already. split; [apply Htr|]. right. exists m. split; [by apply Hnext|by left].
    * intros v. apply safe_ret. intros tr [_ Ha]. right. by exists v.
  + apply safe_ret. intros tr _. left. by destruct (stripSqlComments _).
- apply safe_bind_lift. intros q Hq. eapply safe_bind; [apply _|apply run_sql_safe; [apply _|]|].
  + intros tr [Htr Hs]. split_and!; [done|done|]. do 3 right. exists already. split; [apply Htr|]. right. exists m. split; [by apply Hnext|].
    right. split; [by exists q|done].
  + intros v. eapply safe_bind; [apply _| |].
    * eapply safe_weaken; [apply (IH (before ++ [m])); exact Hm| |intros a tr _ HQ; exact HQ]. intros tr [[[Hh Hb] Hs] Ha]. split; [done|].
      intros m' [Hb'|Hin1%list_elem_of_singleton]%elem_of_app; [by apply Hb|subst m'; right]. split; [done|]. exists q. split; [done|by exists v].
    * intros rest. apply safe_ret. intros tr [_ [-> Hall]]. by split.
Qed.

Lemma migrations_safe : safe allowed (λ _, True) (applyStudioMigrations ask show db migrations) migrated.
Proof using lets.
unfold applyStudioMigrations.
apply safe_then; [apply _|eapply safe_weaken; [apply (run_sql_safe (λ _, True)); [apply _|intros; split_and!; [done|done|by left]]|done|done]|intros _].
eapply safe_bind; [apply _|apply run_sql_safe; [apply _|intros; split_and!; [done|done|by right; left]]|intros v].
apply safe_bind_lift. intros already Hrow. set (P := λ tr, True ∧ answered (CQueryD1 db READ_RECORDED []) (Ok v) tr). assert (Stable P) by apply _.
assert (∀ tr, P tr → had already tr) as Hhad by (intros tr [_ Ha]; by exists v).
eapply (safe_bind _ _ _ _ (λ adopted tr, adopted = true → adoptable already tr ∧ ∃ seeds, seed_values migrations = Ok seeds ∧ taken seeds tr)); [done| |].
- unfold adopt. destruct already as [|n l]; [|by apply safe_ret]. destruct migrations as [|m ms] eqn:Em; [by apply safe_ret|]. rewrite <- Em in *.
  apply safe_bind_lift. intros probe Hprobe. eapply safe_bind; [done|apply run_sql_safe; [done|]|intros found].
  { intros tr _. split_and!; [done|done|by do 2 right; left]. }
  destruct (0 <? _)%nat eqn:Hf; [|by apply safe_ret]. apply safe_bind_lift. intros seeds Hseeds.
  assert (∀ tr, P tr ∧ answered (CQueryD1 db probe []) (Ok found) tr → adoptable [] tr) as Hadopt.
  { intros tr [_ Ha]. split_and!; [done|by rewrite Em|]. exists probe, found. split_and!; [done|done|]. intros E. by rewrite E in Hf. }
  eapply safe_bind; [apply _|apply run_sql_safe; [apply _|]|intros u].
  + intros tr Htr. split_and!; [done|done|]. do 3 right. exists []. split; [apply Hhad, Htr|]. left. split; [done|by apply Hadopt].
  + apply safe_ret. intros tr [Htr Ha] _. split; [by apply Hadopt|]. exists seeds. split; [done|by exists u].
- intros [].
  + apply safe_ret. intros tr [Htr H1]. exists already. split; [by apply Hhad|]. right. by destruct (H1 eq_refl).
  + eapply safe_bind; [apply _|eapply safe_weaken; [apply (apply_each_safe already []); reflexivity| |intros a tr _ HQ; exact HQ]|].
    * intros tr [Htr _]. split; [by apply Hhad|]. by intros m' ?%elem_of_nil.
    * intros applied. apply safe_ret. intros tr [[Htr _] [-> Hall]]. exists already. split; [by apply Hhad|]. left. by split_and!.
Qed.
End within.

(** C28. A migration run applies exactly what the database lacks, in order.  Whatever the database
    answers, a migration's statements are sent only while its name is not recorded there and every
    migration before it is; its name is recorded only after its statements were taken; the names are
    seeded wholesale only where none was recorded and the studio's tables were found.  A run that
    returns names what it applied, and every migration of the release is then recorded. *)
Theorem migrations_apply_what_is_missing :
  let '(r, tr) := applyStudioMigrations ask show db migrations [] in
  obeys migration_calls tr ∧ match r with Ok names => migrated names tr | Err _ => True end.
Proof.
pose proof (migrations_safe migration_calls (λ _ _ H, H)) as H.
destruct (H [] (obeys_nil _) I) as (_ & Ho & Hr). by destruct (applyStudioMigrations ask show db migrations []) as [[names|e] tr].
Qed.
End guarantee.
