(* ===== verification/TenantModules.v ===== *)
(** * The modules of a tenant (src/tenant-modules.ts)

    Thirteen module workers are uploaded for every tenant into one shared namespace, installed into the
    tenant's studio, verified, and torn down by the prefix of their names. *)

From S2P Require Export Trace TokenCrypto RunpodProxy.
From Stdlib Require Import Ascii.
Open Scope string_scope.
Open Scope list_scope.
Open Scope Z_scope.
Open Scope plane_scope.

(** ** The plane's configuration a provision reads *)
Record ResolvedDoor := mkDoor { rd_doorsUrlVar : string; rd_doorsUrl : string; rd_tokens : list (string * string) }.
Record StorageQuotaConfig := mkQuotaConfig {
  sq_bytes : option string; sq_invalid : option string; sq_mode : option string; sq_invalidMode : option string;
}.
Record ProvisionDeps := mkDeps {
  dp_namespace : string;
  dp_moduleNamespace : string;
  dp_release : string;
  dp_r2Endpoint : string;
  dp_sharedPool : option SharedRunPodPool;
  dp_aiGatewayId : option string;
  dp_runpodProxy : option (string * string);
  dp_vpcDoors : list (string * ResolvedDoor);
  dp_mediaDoorUrls : list (string * string);
  dp_spendDailyCeiling : option string;
  dp_storageQuota : StorageQuotaConfig;
  dp_abuseReportUrl : option string;
  dp_kek : KekRing;
}.

Definition opt_set (o : option string) : bool := match o with Some s => Str.truthy s | None => false end.
Definition assoc {A} (k : string) (l : list (string * A)) : option A := snd <$> List.find (λ p, p.1 =s? k) l.

(** ** The catalog *)
Record TenantModuleSpec := mkSpec {
  tm_module : string;
  tm_endpointKey : option string;
  tm_needsAiGateway : bool;
  tm_recordsRunpodJobs : bool;
  tm_publicEndpoint : option string;
  tm_writesTenantRenders : bool;
}.
Definition TENANT_MODULE_CATALOG : list TenantModuleSpec :=
  [ mkSpec "keyframe" (Some "backend") false true None false;
    mkSpec "own-gpu" (Some "backend") false true None false;
    mkSpec "finish-upscale" (Some "upscale") false true None false;
    mkSpec "finish-rife" (Some "backend") false true None false;
    mkSpec "plan-enhance" None true false None false;
    mkSpec "alibaba-wan" None false true (Some "wan-2-6-i2v") true;
    mkSpec "alibaba-wan-lora" None false true (Some "wan-2-2-t2v-720-lora") true;
    mkSpec "minimax-hailuo" None false true (Some "minimax-hailuo-2-3-fast") true;
    mkSpec "narration-gen" None false true (Some "minimax-speech-02-hd") true;
    mkSpec "cf-grok-video" None true false None true;
    mkSpec "cf-seedance" None true false None true;
    mkSpec "cf-flux-3-video" None true false None true;
    mkSpec "cf-hh1-r2v" None true false None true ].

Definition TENANT_MODULE_FORBIDDEN_BINDINGS : list string := ["RUNPOD_WORKERS_MAX"].
Definition names_binding (n : string) (bs : list WorkerBinding) : bool := existsb (λ b, binding_name b =s? n) bs.
Definition assertNoTenantModuleForbiddenBindings (moduleName : string) (bindings : list WorkerBinding) : result exn unit :=
  match List.find (λ n, names_binding n bindings) TENANT_MODULE_FORBIDDEN_BINDINGS with
  | Some forbidden => Err (EModule ModulesUpload ("module " +:+ moduleName +:+ ": binding " +:+ forbidden +:+
      " is forbidden on tenant modules (cf#361: management API reach must stay operator-only; refuse rather than upload)"))
  | None => Ok tt
  end.
Definition reachesRunpod (spec : TenantModuleSpec) : bool := opt_set (tm_endpointKey spec) || opt_set (tm_publicEndpoint spec).

(** ** Names *)
(** [tenantId.replace(/[^a-z0-9]+/gi, "-")]; [in_run] while a run of other characters goes on. *)
Definition alnum (c : ascii) : bool :=
  let n := Str.code c in ((97 <=? n) && (n <=? 122) || (65 <=? n) && (n <=? 90) || (48 <=? n) && (n <=? 57))%N.
Fixpoint dash_runs (in_run : bool) (l : list ascii) : list ascii :=
  match l with
  | [] => []
  | c :: l => if alnum c then c :: dash_runs false l else if in_run then dash_runs true l else "-"%char :: dash_runs true l
  end.
Definition tenantModuleScriptPrefix (tenantId : string) : string :=
  Str.to_lower (Str.of_chars (dash_runs false (Str.chars tenantId))) +:+ "-".
Definition tenantModuleScriptName (tenantId moduleName : string) : string := tenantModuleScriptPrefix tenantId +:+ moduleName.

Definition MODULE_PROXY_BASE_BINDING : string := "RUNPOD_PROXY_BASE".
Definition MODULE_PROXY_TOKEN_BINDING : string := "RUNPOD_PROXY_TOKEN".

Section modules.
Variable ask : world.
Variable sign : string → string → list ascii.
Variable json_parse : string → option js.
Variable json_stringify : js → string.

Definition tenantModuleProxyBinding (mode : RunPodMode) (proxy : option (string * string)) (tenantId : string) : option (string * string) :=
  match mode, proxy with
  | Shared, Some (base, signingKey) => (λ token, (base, token)) <$> mintTenantProxyToken sign (Some signingKey) tenantId
  | _, _ => None
  end.

(** ** Upload *)
Definition uploadModuleScript (module : string) (args : UploadArgs) : M trace exn unit :=
  sent ← attempt (perform ask (CUploadUserWorker args));
  match sent with
  | inr _ => mret tt
  | inl e =>
      match classifyVpcBindingFailure e (existsb is_vpc (ua_bindings args)) with
      | VpcRefused => throw (EModule ModulesUpload ("door binding refused for module " +:+ module +:+
          ": the plane SCRIPT UPLOAD credential is not authorized for Workers VPC (needs Connectivity Directory access). The tenant was NOT provisioned without its doors -- fix the upload credential, or clear the door service ids to run this plane without own-iron doors on purpose."))
      | _ => throw e
      end
  end.

(** The bundles [prefetchModuleBundles] gathered, by module. *)
Definition bundles : Type := list (string * ModuleBundle).
Fixpoint prefetch (release : string) (catalog : list TenantModuleSpec) : M trace exn bundles :=
  match catalog with
  | [] => mret []
  | spec :: catalog =>
      got ← attempt (perform ask (BFetchModule release (tm_module spec)));
      match got with
      | inl e => throw (EModule ModulesUpload ("fetch module bundle " +:+ tm_module spec +:+ " at " +:+ release +:+ ": " +:+ exn_message e))
      | inr bundle => rest ← prefetch release catalog; mret ((tm_module spec, bundle) :: rest)
      end
  end.
Definition prefetchModuleBundles (release : string) : M trace exn bundles := prefetch release TENANT_MODULE_CATALOG.

Record UploadContext := mkUploadContext {
  uc_release : string; uc_tenantId : string; uc_slug : string; uc_endpoints : list TenantEndpoint;
  uc_telemetryD1 : option string; uc_bucket : option string; uc_mode : RunPodMode;
  uc_prefetched : option bundles; uc_aigToken : option string;
}.

Definition door_capability (spec : TenantModuleSpec) : option PlannedCapability :=
  match tm_endpointKey spec with
  | Some k => if Str.truthy k then List.find (λ c, plan_key c =s? k) (doorBackedPlan PROVISION_PLAN) else None
  | None => None
  end.
Definition door_knobs (c : PlannedCapability) : string :=
  match cap_backing c with ByDoor urlVar tokens => Str.join " + " (urlVar :: (snd <$> tokens)) | _ => "" end.

(** The endpoint and the door of a module, or the refusal when it needs one the tenant or the plane has not. *)
Definition module_backing (deps : ProvisionDeps) (uc : UploadContext) (spec : TenantModuleSpec) :
    result exn (option TenantEndpoint * option ResolvedDoor) :=
  let key := default "" (tm_endpointKey spec) in
  match door_capability spec with
  | None =>
      if opt_set (tm_endpointKey spec) then
        match List.find (λ e, te_key e =s? key) (uc_endpoints uc) with
        | Some e => Ok (Some e, None)
        | None => Err (EModule ModulesUpload ("module " +:+ tm_module spec +:+ " needs the " +:+ key +:+ " endpoint, which the tenant does not have"))
        end
      else Ok (None, None)
  | Some c =>
      let refused := EModule ModulesUpload ("module " +:+ tm_module spec +:+
        " is served by our own iron, but this plane configures no HTTPS door for " +:+ plan_key c +:+ ": set " +:+ door_knobs c +:+
        ". Workers VPC is not a fallback.") in
      match assoc (plan_key c) (dp_vpcDoors deps) with
      | Some d => if Str.truthy (rd_doorsUrl d) then Ok (None, Some d) else Err refused
      | None => Err refused
      end
  end.

Definition renders_binding (uc : UploadContext) (spec : TenantModuleSpec) : result exn (list WorkerBinding) :=
  if tm_writesTenantRenders spec then
    if opt_set (uc_bucket uc) then Ok [BR2 "R2_RENDERS" (default "" (uc_bucket uc))]
    else Err (EModule ModulesUpload ("module " +:+ tm_module spec +:+
      " writes tenant renders but the tenant has no R2 bucket recorded; uploading it would write those renders into the operator bucket"))
  else Ok [].

Definition module_bindings (deps : ProvisionDeps) (uc : UploadContext) (spec : TenantModuleSpec)
    (endpoint : option TenantEndpoint) (door : option ResolvedDoor) : result exn (list WorkerBinding) :=
  renders ← renders_binding uc spec;
  let bindings :=
    (match endpoint with Some e => [BPlainText "RUNPOD_ENDPOINT_ID" (te_id e)] | None => [] end) ++
    (match door with
     | Some d => BPlainText (rd_doorsUrlVar d) (rd_doorsUrl d) :: ((λ t, BSecretText t.1 t.2) <$> rd_tokens d)
     | None => [] end) ++
    (if reachesRunpod spec then
       match tenantModuleProxyBinding (uc_mode uc) (dp_runpodProxy deps) (uc_tenantId uc) with
       | Some (base, token) => [BPlainText MODULE_PROXY_BASE_BINDING base; BSecretText MODULE_PROXY_TOKEN_BINDING token]
       | None => [] end
     else []) ++
    renders ++
    (if tm_recordsRunpodJobs spec then [BD1 "TELEMETRY_DB" (default "" (uc_telemetryD1 uc))] else []) ++
    (if tm_needsAiGateway spec then
       [BAi "AI"; BPlainText "TENANT_ID" (uc_tenantId uc); BPlainText "TENANT_SLUG" (uc_slug uc)] ++
       (if opt_set (dp_aiGatewayId deps) && opt_set (uc_aigToken uc)
        then [BPlainText "GATEWAY_ID" (default "" (dp_aiGatewayId deps)); BSecretText "CF_AIG_TOKEN" (default "" (uc_aigToken uc))] else [])
     else []) in
  _ ← assertNoTenantModuleForbiddenBindings (tm_module spec) bindings;
  Ok bindings.

Definition module_bundle (uc : UploadContext) (module : string) : M trace exn ModuleBundle :=
  match match uc_prefetched uc with Some l => assoc module l | None => None end with
  | Some ready => mret ready
  | None =>
      got ← attempt (perform ask (BFetchModule (uc_release uc) module));
      match got with
      | inl e => throw (EModule ModulesUpload ("fetch module bundle " +:+ module +:+ ": " +:+ exn_message e))
      | inr bundle => mret bundle
      end
  end.

Definition upload_module (deps : ProvisionDeps) (uc : UploadContext) (spec : TenantModuleSpec) : M trace exn string :=
  '(endpoint, door) ← lift (module_backing deps uc spec);
  bundle ← module_bundle uc (tm_module spec);
  let scriptName := tenantModuleScriptName (uc_tenantId uc) (tm_module spec) in
  bindings ← lift (module_bindings deps uc spec endpoint door);
  _ ← uploadModuleScript (tm_module spec)
        (mkUpload (dp_moduleNamespace deps) scriptName (mb_mainModule bundle) (mb_moduleText bundle)
           (mb_compatibilityDate bundle) (mb_compatibilityFlags bundle) bindings None None);
  mret scriptName.
Fixpoint upload_each (deps : ProvisionDeps) (uc : UploadContext) (catalog : list TenantModuleSpec) : M trace exn (list string) :=
  match catalog with
  | [] => mret []
  | spec :: catalog => name ← upload_module deps uc spec; names ← upload_each deps uc catalog; mret (name :: names)
  end.
Definition uploadTenantModules (deps : ProvisionDeps) (uc : UploadContext) : M trace exn (list string) :=
  if negb (opt_set (uc_telemetryD1 uc)) then
    throw (EModule ModulesUpload "no tenant D1 id for the TELEMETRY_DB binding; refusing to upload module workers that would record no RunPod job rows (cp#248). Repair tenants.d1_database_id or re-provision")
  else
    _ ← perform ask (CCreateDispatchNamespace (dp_moduleNamespace deps));
    upload_each deps uc TENANT_MODULE_CATALOG.

(** ** Install *)
Definition STUDIO_TOKEN_PROBE_DEADLINE_MS : Z := 15000.
Definition STUDIO_TOKEN_PROBE_BACKOFF_MS : list Z := [250; 500; 1000; 2000].
Definition backoff (attempts : nat) : Z := nth (Nat.min (attempts - 1) 3) STUDIO_TOKEN_PROBE_BACKOFF_MS 0.

(** One probe after another; [fuel] bounds the attempts. *)
Definition out_of_fuel : exn := error "out of fuel".
Fixpoint probe_token (fuel : nat) (script token : string) (deadlineMs started : Z) (attempts : nat) : M trace exn (nat * Z) :=
  match fuel with
  | O => throw out_of_fuel
  | S fuel =>
      let attempts := S attempts in
      '(status, text) ← perform ask (XCallStudio script "GET" "/api/modules/installed" token None);
      at_ ← perform ask KNow;
      let elapsedMs := at_ - started in
      if status =? 200 then mret (attempts, elapsedMs)
      else
        let last := Str.of_int status +:+ ": " +:+ Str.take 200 text in
        if negb (status =? 403) then
          throw (EModule ModulesInstall ("studio token probe -> " +:+ last +:+ " (not retryable; attempts=" +:+
            Str.of_int (Z.of_nat attempts) +:+ ", elapsed=" +:+ Str.of_int elapsedMs +:+ "ms)"))
        else if deadlineMs <=? elapsedMs + backoff attempts then
          throw (EModule ModulesInstall ("studio never served the uploaded STUDIO_API_TOKEN -> " +:+ last +:+ " (gave up after " +:+
            Str.of_int (Z.of_nat attempts) +:+ " attempts, " +:+ Str.of_int elapsedMs +:+ "ms; either propagation is far slower than " +:+
            Str.of_int deadlineMs +:+ "ms or the token is wrong)"))
        else
          _ ← perform ask (KSleep (backoff attempts));
          probe_token fuel script token deadlineMs started attempts
  end.
Definition PROBE_FUEL : nat := 12.
Definition awaitStudioTokenLive (script token : string) : M trace exn (nat * Z) :=
  started ← perform ask KNow;
  probe_token PROBE_FUEL script token STUDIO_TOKEN_PROBE_DEADLINE_MS started 0.

Definition install_module (tenantId script token : string) (spec : TenantModuleSpec) : M trace exn string :=
  let scriptName := tenantModuleScriptName tenantId (tm_module spec) in
  '(status, text) ← perform ask (XCallStudio script "POST" "/api/modules/install" token
                                   (Some (json_stringify (JObj [("script_name", JStr scriptName)]))));
  if negb (status =? 201) then
    throw (EModule ModulesInstall ("install " +:+ tm_module spec +:+ " (" +:+ scriptName +:+ ") -> " +:+ Str.of_int status +:+ ": " +:+ Str.take 300 text))
  else mret (tm_module spec).
Fixpoint install_each (tenantId script token : string) (catalog : list TenantModuleSpec) : M trace exn (list string) :=
  match catalog with
  | [] => mret []
  | spec :: catalog => m ← install_module tenantId script token spec; ms ← install_each tenantId script token catalog; mret (m :: ms)
  end.
Definition installTenantModules (tenantId script token : string) : M trace exn (list string) :=
  _ ← awaitStudioTokenLive script token;
  install_each tenantId script token TENANT_MODULE_CATALOG.

(** [(parsed.modules ?? []).map((m) => m.name).filter(string)]: a body without a list of objects throws. *)
Definition module_names (parsed : js) : result exn (list string) :=
  match js_field parsed "modules" with
  | JUndef | JNull => Ok []
  | JArr ms =>
      if existsb (λ m, match m with JUndef | JNull => true | _ => false end) ms
      then Err (EError "TypeError" "Cannot read properties of null (reading 'name')")
      else Ok (omap (λ m, match js_field m "name" with JStr n => Some n | _ => None end) ms)
  | _ => Err (EError "TypeError" "(parsed.modules ?? []).map is not a function")
  end.
Definition verifyTenantModulesInstalled (script token : string) : M trace exn (list string) :=
  '(status, text) ← perform ask (XCallStudio script "GET" "/api/modules/installed" token None);
  if negb (status =? 200) then throw (EModule VerifyStep ("GET /api/modules/installed -> " +:+ Str.of_int status +:+ ": " +:+ Str.take 200 text))
  else match json_parse text with
  | None => throw (EModule VerifyStep "GET /api/modules/installed returned non-JSON")
  | Some JNull => throw (EError "TypeError" "Cannot read properties of null (reading 'modules')")
  | Some parsed =>
      names ← lift (module_names parsed);
      match names with
      | [] => throw (EModule VerifyStep "tenant studio reports zero installed modules after provisioning")
      | _ => mret names
      end
  end.

(** ** Teardown *)
Definition failure : Type := string * string.
Fixpoint delete_scripts (namespace : string) (scripts : list string) (failures absent : list failure) : M trace exn (list failure * list failure) :=
  match scripts with
  | [] => mret (failures, absent)
  | script :: scripts =>
      deleted ← attempt (perform ask (CDeleteUserWorker namespace script));
      match deleted with
      | inr _ => delete_scripts namespace scripts failures absent
      | inl e =>
          if isScriptAbsent e then delete_scripts namespace scripts failures (absent ++ [("module:" +:+ script, exn_text e)])
          else delete_scripts namespace scripts (failures ++ [("module:" +:+ script, exn_text e)]) absent
      end
  end.
Definition teardownTenantModules (namespace tenantId : string) : M trace exn (list failure * list failure) :=
  let prefix := tenantModuleScriptPrefix tenantId in
  listed ← attempt (perform ask (CListNamespaceScripts namespace));
  match listed with
  | inl e => mret ([("modules_list", exn_text e)], [])
  | inr all =>
      '(failures, absent) ← delete_scripts namespace (jfilter (starts_with prefix) all) [] [];
      again ← attempt (perform ask (CListNamespaceScripts namespace));
      mret (match again with
            | inl e => (failures ++ [("modules_census", exn_text e)], absent)
            | inr all =>
                let remaining := jfilter (starts_with prefix) all in
                if (0 <? length remaining)%nat then
                  (failures ++ [("modules_census", Str.of_int (Z.of_nat (length remaining)) +:+ " module script(s) still resident: " +:+ Str.join ", " remaining)], absent)
                else (failures, absent)
            end)
  end.
End modules.

(** ** Uploads *)
Section uploads.
Context (ask : world) (sign : string → string → list ascii) (deps : ProvisionDeps) (uc : UploadContext).

(** A binding that names nothing but this tenant's own database, bucket and credentials. *)
Definition own_binding (spec : TenantModuleSpec) (b : WorkerBinding) : Prop :=
  (binding_name b ∉ TENANT_MODULE_FORBIDDEN_BINDINGS) ∧
  (match b with
  | BD1 n id => n = "TELEMETRY_DB" ∧ uc_telemetryD1 uc = Some id
  | BR2 n bucket => n = "R2_RENDERS" ∧ uc_bucket uc = Some bucket ∧ tm_writesTenantRenders spec = true
  | BSecretText n v =>
      (n = MODULE_PROXY_TOKEN_BINDING ∧ uc_mode uc = Shared ∧ (∃ base key, dp_runpodProxy deps = Some (base, key) ∧
         mintTenantProxyToken sign (Some key) (uc_tenantId uc) = Some v)) ∨
      (n = "CF_AIG_TOKEN" ∧ uc_aigToken uc = Some v ∧ tm_needsAiGateway spec = true) ∨
      (∃ c d, door_capability spec = Some c ∧ assoc (plan_key c) (dp_vpcDoors deps) = Some d ∧ (n, v) ∈ rd_tokens d)
  | BPlainText _ _ | BAi _ => True
  | _ => False
  end).
Definition own_upload (args : UploadArgs) : Prop :=
  ua_namespace args = dp_moduleNamespace deps ∧ ∃ spec, spec ∈ TENANT_MODULE_CATALOG ∧
    ua_scriptName args = tenantModuleScriptName (uc_tenantId uc) (tm_module spec) ∧ Forall (own_binding spec) (ua_bindings args).

Lemma names_binding_spec n bs : names_binding n bs = true ↔ ∃ b, b ∈ bs ∧ binding_name b = n.
Proof.
unfold names_binding. rewrite existsb_exists. split; intros (b & Hb & Hn); exists b.
- apply String.eqb_eq in Hn. split; [by apply list_elem_of_In|done].
- split; [by apply list_elem_of_In|by apply String.eqb_eq].
Qed.
Lemma assert_forbidden m bs : assertNoTenantModuleForbiddenBindings m bs = Ok tt →
  Forall (λ b, binding_name b ∉ TENANT_MODULE_FORBIDDEN_BINDINGS) bs.
Proof.
unfold assertNoTenantModuleForbiddenBindings. destruct (List.find _ _) eqn:E; [done|]. intros _. apply Forall_forall. intros b Hb Hn.
pose proof (List.find_none _ _ E (binding_name b)) as H. apply list_elem_of_In in Hn. specialize (H Hn). apply not_true_iff_false in H.
apply H, names_binding_spec. by exists b.
Qed.

Lemma module_bindings_own spec endpoint door bs :
  module_backing deps uc spec = Ok (endpoint, door) → module_bindings sign deps uc spec endpoint door = Ok bs →
  opt_set (uc_telemetryD1 uc) = true → Forall (own_binding spec) bs.
Proof.
intros Hback Hbs Ht. unfold module_bindings in Hbs.
destruct (renders_binding uc spec) as [renders|] eqn:Hr; [|done]. cbn [mbind result_bind] in Hbs.
destruct (assertNoTenantModuleForbiddenBindings _ _) as [[]|] eqn:Ha; [|done]. apply assert_forbidden in Ha. injection Hbs as <-.
apply Forall_and. split; [exact Ha|]. clear Ha. unfold renders_binding in Hr. repeat (apply Forall_app; split).
- destruct endpoint; repeat constructor.
- destruct door as [d|]; [|constructor]. constructor; [done|]. apply Forall_forall. intros b ([n v] & -> & Hnv)%list_elem_of_fmap.
  cbn. right. right.
  unfold module_backing in Hback. destruct (door_capability spec) as [c|] eqn:Hc; [|repeat case_match; simplify_eq].
  destruct (assoc (plan_key c) _) as [d'|] eqn:Hd; [|done]. destruct (Str.truthy _); [|done]. injection Hback as _ <-. by exists c, d'.
- destruct (reachesRunpod spec); [|constructor]. unfold tenantModuleProxyBinding. destruct (uc_mode uc) eqn:Hm; [constructor|].
  destruct (dp_runpodProxy deps) as [[base key]|] eqn:Hp; [|constructor]. destruct (mintTenantProxyToken _ _ _) as [tok|] eqn:Hk; [|constructor].
  apply Forall_cons. split; [done|]. apply Forall_cons. split; [|constructor]. left. eauto 10.
- destruct (tm_writesTenantRenders spec) eqn:Hw; [|injection Hr as <-; constructor]. destruct (uc_bucket uc) as [b|] eqn:Hb; [|done].
  destruct (opt_set (Some b)); [|done]. injection Hr as <-. by repeat constructor.
- destruct (tm_recordsRunpodJobs spec); [|constructor]. destruct (uc_telemetryD1 uc); [|done]. by repeat constructor.
- destruct (tm_needsAiGateway spec) eqn:Hn; [|constructor]. repeat (apply Forall_cons; split; [done|]).
  destruct (opt_set (dp_aiGatewayId deps)), (uc_aigToken uc) as [tok|] eqn:Ht'; cbn [andb opt_set]; try constructor.
  destruct (Str.truthy tok); [|constructor]. apply Forall_cons. split; [done|]. apply Forall_cons. split; [|constructor]. right. left. done.
Qed.

(** What an upload of the modules may ask. *)
Definition upload_calls (tr : trace) (c : call) : Prop :=
  match c with
  | CCreateDispatchNamespace ns => ns = dp_moduleNamespace deps
  | BFetchModule release m => release = uc_release uc ∧ m ∈ tm_module <$> TENANT_MODULE_CATALOG
  | CUploadUserWorker args => own_upload args
  | _ => False
  end.
Definition uploaded (spec : TenantModuleSpec) (tr : trace) : Prop :=
  ∃ args, answered (CUploadUserWorker args) (Ok tt) tr ∧ own_upload args ∧
    ua_scriptName args = tenantModuleScriptName (uc_tenantId uc) (tm_module spec).
#[export] Instance stable_uploaded spec : Stable (uploaded spec).
Proof. apply _. Qed.

(** The upload under any policy that lets it do what an upload may; a client uses these. *)
Section upload_client.
Context (allowed : trace → call → Prop) (P0 : trace → Prop).
Hypothesis lets : ∀ tr c, P0 tr → upload_calls tr c → allowed tr c.

Lemma upload_module_safe spec P : Stable P → (∀ tr, P tr → P0 tr) → spec ∈ TENANT_MODULE_CATALOG → opt_set (uc_telemetryD1 uc) = true →
  safe allowed P (upload_module ask sign deps uc spec)
    (λ name tr, name = tenantModuleScriptName (uc_tenantId uc) (tm_module spec) ∧ uploaded spec tr).
Proof using lets.
intros HP HP0 Hspec Ht. unfold upload_module. apply safe_bind_lift. intros [endpoint door] Hback. apply safe_then; [done| |].
- unfold module_bundle. destruct (match uc_prefetched uc with Some l => assoc (tm_module spec) l | None => None end); [by apply safe_ret|].
  eapply safe_bind; [done|apply safe_attempt, safe_perform|].
  + intros tr Htr. apply lets; [by apply HP0|]. split; [done|]. by apply list_elem_of_fmap_2.
  + intros [e|b]; [apply safe_throw|by apply safe_ret].
- intros bundle. apply safe_bind_lift. intros bs Hbs. set (args := mkUpload _ _ _ _ _ _ _ _ _).
  assert (own_upload args) as Hown.
  { split; [done|]. exists spec. split; [done|]. split; [done|]. by eapply module_bindings_own. }
  eapply safe_bind; [done| |].
  + unfold uploadModuleScript. eapply safe_bind; [done|apply safe_attempt, safe_perform; intros tr Htr; apply lets; [by apply HP0|done]|].
    intros [e|[]]; [destruct (classifyVpcBindingFailure _ _); apply safe_throw|].
    apply (safe_ret _ _ _ (λ _, answered (CUploadUserWorker args) (Ok tt))). by intros tr [_ ?].
  + intros []. apply safe_ret. intros tr [_ H1]. split; [done|]. by exists args.
Qed.

Lemma upload_each_safe catalog P : Stable P → (∀ tr, P tr → P0 tr) → (∀ spec, spec ∈ catalog → spec ∈ TENANT_MODULE_CATALOG) → opt_set (uc_telemetryD1 uc) = true →
  safe allowed P (upload_each ask sign deps uc catalog)
    (λ names tr, names = tenantModuleScriptName (uc_tenantId uc) ∘ tm_module <$> catalog ∧ ∀ spec, spec ∈ catalog → uploaded spec tr).
Proof using lets.
revert P. induction catalog as [|spec catalog IH]; intros P HP HP0 Hc Ht; cbn [upload_each].
- apply safe_ret. intros tr _. split; [done|]. by intros ? ?%elem_of_nil.
- eapply safe_bind; [done|apply upload_module_safe; [done|done|apply Hc; left|done]|]. intros name.
  eapply safe_bind; [apply _|apply IH; [apply _|intros tr [Htr _]; by apply HP0|intros ? ?; apply Hc; by right|done]|]. intros names.
  apply safe_ret. intros tr [[_ [-> Hs]] [-> Hall]]. split; [done|]. intros s [->|Hin]%elem_of_cons; [done|by apply Hall].
Qed.
Lemma upload_safe P : Stable P → (∀ tr, P tr → P0 tr) → safe allowed P (uploadTenantModules ask sign deps uc)
  (λ names tr, names = tenantModuleScriptName (uc_tenantId uc) ∘ tm_module <$> TENANT_MODULE_CATALOG ∧
     ∀ spec, spec ∈ TENANT_MODULE_CATALOG → uploaded spec tr).
Proof using lets.
intros HP HP0. unfold uploadTenantModules. destruct (opt_set (uc_telemetryD1 uc)) eqn:Ht; cbn [negb]; [|apply safe_throw].
eapply safe_bind; [done|apply safe_perform; intros tr Htr; apply lets; [by apply HP0|done]|]. intros [].
apply upload_each_safe; [apply _|intros tr [Htr _]; by apply HP0|done|done].
Qed.
End upload_client.

(** A module upload touches nothing of anybody else's.  Whatever the cloud answers, all it asks is the
    module namespace, published bundles of its own release, and scripts in that namespace under this
    tenant's prefix whose bindings name only this tenant's database, bucket, gateway token and proxy
    credential (minted for this tenant alone) and a door the plane configures, never a forbidden one;
    and when it returns, every module of the catalog was uploaded. *)
Theorem module_uploads_are_the_tenants_own :
  let '(r, tr) := uploadTenantModules ask sign deps uc [] in
  obeys upload_calls tr ∧
  match r with
  | Ok names => names = tenantModuleScriptName (uc_tenantId uc) ∘ tm_module <$> TENANT_MODULE_CATALOG ∧
      ∀ spec, spec ∈ TENANT_MODULE_CATALOG → uploaded spec tr
  | Err _ => True
  end.
Proof.
pose proof (upload_safe upload_calls (λ _, True) (λ tr c _ Hc, Hc) (λ _, True) _ (λ _ _, I)) as H.
destruct (H [] (obeys_nil _) I) as (_ & Ho & Hr). by destruct (uploadTenantModules ask sign deps uc []) as [[names|e] tr].
Qed.
End uploads.

(** ** The probe of the studio's token ends *)
Section probing.
Context (ask : world).
Hypothesis honest : honest_clock ask.

(** The time [n] refused attempts have slept. *)
Fixpoint waited (n : nat) : Z := match n with O => 0 | S k => waited k + backoff (S k) end.
Lemma waited_grows n : 10 <= Z.of_nat n → 15000 <= waited n.
Proof.
intros Hn. assert (∀ k, waited (k + 10) = 15750 + 2000 * Z.of_nat k) as H.
{ induction k as [|k IH]; [reflexivity|]. change (waited (S k + 10)) with (waited (k + 10) + backoff (S (k + 10))). rewrite IH.
  unfold backoff. replace (Nat.min (S (k + 10) - 1) 3) with 3%nat by lia. cbn [nth STUDIO_TOKEN_PROBE_BACKOFF_MS]. lia. }
replace n with ((n - 10) + 10)%nat by lia. rewrite H. lia.
Qed.

Definition probed (started : Z) (n : nat) (tr : trace) : Prop :=
  ∃ pre mid, tr = pre ++ Ev KNow (Ok started) :: mid ∧ waited n <= slept mid.

(** More fuel never changes what the probe does, and it makes at most ten attempts. *)
Lemma probe_fuel script token started more fuel n tr :
  (n + fuel = PROBE_FUEL)%nat → probed started n tr → waited n < STUDIO_TOKEN_PROBE_DEADLINE_MS →
  probe_token ask (fuel + more) script token STUDIO_TOKEN_PROBE_DEADLINE_MS started n tr =
  probe_token ask fuel script token STUDIO_TOKEN_PROBE_DEADLINE_MS started n tr ∧
  ∀ attempts elapsed, (probe_token ask fuel script token STUDIO_TOKEN_PROBE_DEADLINE_MS started n tr).1 = Ok (attempts, elapsed) → (attempts <= 10)%nat.
Proof.
revert n tr. induction fuel as [|fuel IH]; intros n tr Hn (pre & mid & -> & Hw) Hlt.
{ unfold PROBE_FUEL in Hn. pose proof (waited_grows n ltac:(lia)). unfold STUDIO_TOKEN_PROBE_DEADLINE_MS in Hlt. lia. }
cbn [probe_token Nat.add]. rewrite !bind_run. set (tr := pre ++ _). set (c := XCallStudio _ _ _ _ _).
destruct (perform ask c tr) as [[[status text]|e] tr1] eqn:E1; [|done].
assert (tr1 = pre ++ Ev KNow (Ok started) :: (mid ++ [Ev c (Ok (status, text))])) as ->.
{ unfold perform in E1. injection E1 as E1 <-. rewrite E1. unfold tr. by rewrite <- app_assoc. }
clear E1. rewrite !bind_run, !perform_run. destruct (ask _ KNow) as [at_|e] eqn:E2; [|done]. pose proof (honest _ _ _ _ E2) as Hnow.
rewrite slept_app in Hnow. cbn [slept c] in Hnow.
destruct (status =? 200) eqn:Hs.
{ split; [done|]. intros attempts elapsed [= <- _]. destruct (Z.le_gt_cases 10 (Z.of_nat n)) as [Hle|]; [|lia].
  pose proof (waited_grows n Hle). unfold STUDIO_TOKEN_PROBE_DEADLINE_MS in Hlt. lia. }
destruct (negb (status =? 403)); [done|]. destruct (STUDIO_TOKEN_PROBE_DEADLINE_MS <=? _) eqn:Hd; [done|]. apply Z.leb_gt in Hd.
rewrite !bind_run, !perform_run. set (tr2 := _ ++ [Ev KNow _]). set (k := KSleep _). destruct (ask tr2 k) as [[]|e] eqn:E3; [|done].
apply IH; [lia| |].
- exists pre, (mid ++ [Ev c (Ok (status, text))] ++ [Ev KNow (Ok at_)] ++ [Ev k (Ok tt)]). split.
  + unfold tr2. rewrite <- !app_assoc. cbn. by rewrite <- app_assoc.
  + rewrite !slept_app. cbn [slept c k waited]. lia.
- cbn [waited]. lia.
Qed.

(** Waiting for a freshly uploaded studio ends.  With a clock that moves at least as far as was
    slept, the probe stops by itself: after at most ten requests, whatever the studio answers, it has
    either seen the token work or thrown, so the bound on its loop is never what ends it. *)
Theorem token_probe_ends script token more tr :
  (started ← perform ask KNow; probe_token ask (PROBE_FUEL + more) script token STUDIO_TOKEN_PROBE_DEADLINE_MS started 0) tr =
    awaitStudioTokenLive ask script token tr ∧
  ∀ attempts elapsed, (awaitStudioTokenLive ask script token tr).1 = Ok (attempts, elapsed) → (attempts <= 10)%nat.
Proof.
unfold awaitStudioTokenLive. rewrite !bind_run, !perform_run. destruct (ask tr KNow) as [started|e] eqn:E; [|done].
apply probe_fuel; [done| |done]. exists tr, []. split; [done|reflexivity].
Qed.
End probing.

(** ** One tenant's scripts are nobody else's *)
Section names.
Implicit Types (t : string) (l : list ascii).

(** What [newId("ten")] makes: the prefix and lower-case hexadecimal digits. *)
Definition tenant_id t : Prop := ∃ hex, t = "ten_" +:+ Str.of_chars hex ∧ forallb lower_alnum hex = true.

Lemma dash_runs_plain l : forallb lower_alnum l = true → dash_runs false l = l.
Proof.
induction l as [|c l IH]; [done|]. cbn. intros [Hc Hl]%andb_true_iff.
assert (alnum c = true) as -> by (revert Hc; by destruct c as [[] [] [] [] [] [] [] []]; vm_compute). by rewrite IH.
Qed.
Lemma lower_plain l : forallb lower_alnum l = true → Str.lower_char <$> l = l.
Proof.
induction l as [|c l IH]; [done|]. cbn. intros [Hc Hl]%andb_true_iff. f_equal; [|by apply IH].
revert Hc. by destruct c as [[] [] [] [] [] [] [] []]; vm_compute.
Qed.
Lemma tenant_prefix hex : forallb lower_alnum hex = true →
  Str.chars (tenantModuleScriptPrefix ("ten_" +:+ Str.of_chars hex)) = Str.chars "ten-" ++ hex ++ ["-"%char].
Proof.
intros H. unfold tenantModuleScriptPrefix, Str.to_lower. rewrite chars_append, !chars_of_chars, !chars_append, chars_of_chars.
assert (∀ l, dash_runs false (Str.chars "ten_" ++ l) = Str.chars "ten-" ++ dash_runs true l) as -> by reflexivity.
assert (dash_runs true hex = hex) as E.
{ destruct hex as [|c l]; [done|]. cbn. cbn in H. apply andb_true_iff in H as [Hc Hl].
  assert (alnum c = true) as -> by (revert Hc; by destruct c as [[] [] [] [] [] [] [] []]; vm_compute). by rewrite dash_runs_plain. }
rewrite E, fmap_app, (lower_plain hex) by done. by rewrite <- app_assoc.
Qed.

Lemma prefix_names_its_tenant t t' m : tenant_id t → tenant_id t' →
  starts_with (tenantModuleScriptPrefix t) (tenantModuleScriptName t' m) = true → t = t'.
Proof.
intros (h & -> & Hh) (h' & -> & Hh') (r & Hr)%starts_with_spec. apply (f_equal Str.chars) in Hr. unfold tenantModuleScriptName in Hr.
rewrite !chars_append, !tenant_prefix in Hr by done. do 2 f_equal. rewrite <- !app_assoc in Hr. apply app_inv_head in Hr.
assert (∀ l, forallb lower_alnum l = true → "-"%char ∉ l) as Hno.
{ intros l Hl Hin. rewrite forallb_forall in Hl. apply list_elem_of_In, Hl in Hin. done. }
apply Hno in Hh, Hh'. clear Hno. revert h' Hh' Hr. induction h as [|c h IH]; intros [|c' h'] Hh' Hr; [done|..].
- injection Hr as Hr _. exfalso. apply Hh'. rewrite Hr. left.
- injection Hr as Hr _. exfalso. apply Hh. rewrite <- Hr. left.
- injection Hr as -> Hr. f_equal. apply IH; [| |exact Hr]; set_solver.
Qed.
End names.

(** ** The sweep of a tenant's modules *)
Section sweep.
Context (ask : world) (ns t : string).
Hypothesis t_id_ok : tenant_id t.

Definition has_prefix (s : string) : bool := starts_with (tenantModuleScriptPrefix t) s.
Definition sweep_calls (tr : trace) (c : call) : Prop :=
  match c with
  | CListNamespaceScripts n => n = ns
  | CDeleteUserWorker n s => n = ns ∧ has_prefix s = true ∧ (∃ all, answered (CListNamespaceScripts ns) (Ok all) tr ∧ s ∈ all) ∧
      ∀ t' m, tenant_id t' → t' ≠ t → s ≠ tenantModuleScriptName t' m
  | _ => False
  end.

(** The sweep under any policy that lets it list and delete; a client of the sweep uses this. *)
Section sweep_client.
Context (allowed : trace → call → Prop).

Lemma delete_scripts_safe P scripts failures absent : Stable P →
  (∀ tr s, P tr → s ∈ scripts → allowed tr (CDeleteUserWorker ns s)) →
  safe allowed P (delete_scripts ask ns scripts failures absent) (λ _ _, True).
Proof using Type.
intros HP. revert failures absent. induction scripts as [|s scripts IH]; intros failures absent Hs; cbn [delete_scripts]; [by apply safe_ret|].
apply safe_then; [done| |].
- apply safe_try. intros tr Htr. apply Hs; [exact Htr|left].
- intros [e|[]]; [destruct (isScriptAbsent e)|]; apply IH; intros tr x Htr Hx; (apply Hs; [done|by right]).
Qed.

Lemma sweep_safe P : Stable P → (∀ tr c, P tr → sweep_calls tr c → allowed tr c) →
  safe allowed P (teardownTenantModules ask ns t) (λ _ _, True).
Proof using t_id_ok.
intros HP lets. unfold teardownTenantModules. eapply safe_bind; [done|apply safe_attempt, safe_perform; intros tr Htr; by apply lets|].
intros [e|all]; [by apply safe_ret|]. apply safe_then; [apply _| |].
- apply delete_scripts_safe; [apply _|]. intros tr s [Htr Hall] [Hin Hs]%elem_of_jfilter. apply lets; [done|]. split; [done|]. split; [done|].
  split; [by exists all|]. intros t' m Ht' Hne ->. apply Hne. symmetry. by eapply prefix_names_its_tenant.
- intros [f a]. apply safe_then; [apply _|eapply (safe_try _ _ _ (CListNamespaceScripts _)); intros tr [Htr _]; by apply lets|].
  intros ?. by apply safe_ret.
Qed.
End sweep_client.

Lemma delete_scripts_total scripts failures absent tr :
  ∃ f a tr', delete_scripts ask ns scripts failures absent tr = (Ok (f, a), tr') ∧ failures `prefix_of` f ∧ tr `prefix_of` tr'.
Proof.
revert failures absent tr. induction scripts as [|s scripts IH]; intros failures absent tr; cbn [delete_scripts].
{ by exists failures, absent, tr. }
rewrite attempt_bind, perform_run. set (c := CDeleteUserWorker ns s).
assert (∀ r f a, ∃ f' a' tr', delete_scripts ask ns scripts f a (tr ++ [Ev c r]) = (Ok (f', a'), tr') ∧ f `prefix_of` f' ∧ tr `prefix_of` tr') as Hnext.
{ intros r f a. destruct (IH f a (tr ++ [Ev c r])) as (f' & a' & tr' & H1 & H2 & H3). exists f', a', tr'. split_and!; [done|done|].
  etrans; [by eexists|exact H3]. }
destruct (ask tr c) as [[]|e]; [apply Hnext|]. destruct (isScriptAbsent e); [apply Hnext|].
edestruct (Hnext (Err e)) as (f & a & tr' & H1 & H2 & H3). exists f, a, tr'. split_and!; [exact H1| |done]. etrans; [|exact H2]. by eexists.
Qed.
(** The sweep always answers, and reports no failure only when the last listing showed nothing left. *)
Lemma sweep_total tr : ∃ f a tr', teardownTenantModules ask ns t tr = (Ok (f, a), tr') ∧ tr `prefix_of` tr' ∧
  (f = [] → ∃ before all, tr' = before ++ [Ev (CListNamespaceScripts ns) (Ok all)] ∧ ∀ s, s ∈ all → has_prefix s = false).
Proof.
unfold teardownTenantModules. rewrite attempt_bind, perform_run. set (c := CListNamespaceScripts ns).
destruct (ask tr c) as [all|e]; [|eexists _, _, _; split; [reflexivity|split; [by eexists|done]]]. rewrite bind_run.
destruct (delete_scripts_total (jfilter (starts_with (tenantModuleScriptPrefix t)) all) [] [] (tr ++ [Ev c (Ok all)])) as (f & a & tr' & Hd & _ & Hp).
rewrite Hd, attempt_bind, perform_run. fold c. assert (∀ r, tr `prefix_of` tr' ++ [Ev c r]) as Hpre by (intros r; etrans; [by eexists|]; etrans; [exact Hp|by eexists]).
destruct (ask tr' c) as [again|e] eqn:Ha; [|eexists _, _, _; split; [reflexivity|split; [apply Hpre|by intros [_ [=]]%app_eq_nil]]].
destruct (0 <? _)%nat eqn:Hl; [eexists _, _, _; split; [reflexivity|split; [apply Hpre|by intros [_ [=]]%app_eq_nil]]|].
eexists f, a, _. split; [reflexivity|]. split; [apply Hpre|]. intros ->. exists tr', again. split; [done|]. apply Nat.ltb_ge in Hl. intros s Hs.
assert (jfilter (starts_with (tenantModuleScriptPrefix t)) again = []) as Hnil by (apply length_zero_iff_nil; lia).
rewrite jfilter_nil_iff in Hnil. by apply Hnil.
Qed.

(** Tearing down one tenant's modules never reaches another's.  Whatever the cloud lists and answers,
    the sweep deletes only scripts it listed under its own tenant's prefix, none of which can be a
    module of another tenant; it always returns, and it reports no failure only when a listing taken
    after the deletions shows nothing left under the prefix. *)
Theorem module_sweep_is_its_own :
  let '(r, tr) := teardownTenantModules ask ns t [] in
  obeys sweep_calls tr ∧ ∃ failures absent, r = Ok (failures, absent) ∧
    (failures = [] → ∃ before all, tr = before ++ [Ev (CListNamespaceScripts ns) (Ok all)] ∧ ∀ s, s ∈ all → has_prefix s = false).
Proof.
pose proof (sweep_safe sweep_calls (λ _, True) _ (λ tr c _ Hc, Hc)) as H.
destruct (H [] (obeys_nil _) I) as (_ & Ho & _). destruct (sweep_total []) as (f & a & tr' & Hr & _ & Hl). rewrite Hr in *.
split; [exact Ho|]. by exists f, a.
Qed.
End sweep.
