(* ===== verification/ModuleReadiness.v ===== *)
(** * Whether a tenant's modules are ready (src/tenant-modules.ts, the probes of [GET /ready])

    What one answer means, the wait that gates a tenant going live on it, and the operator's probe
    that only looks.  [Promise.all] is [gather]: every call is made, in the order of the list; of
    several that fail the first in the list is the one seen. *)

From S2P Require Export TenantModules.
From Stdlib Require Import Ascii.
Open Scope string_scope.
Open Scope list_scope.
Open Scope Z_scope.
Open Scope plane_scope.

(** ** One answer *)
Inductive DoorBacking := NoDoor | Door (token : bool) | DoorUnreadable.
Definition parseDoorBacking (raw : js) : DoorBacking :=
  match raw with
  | JUndef | JNull => NoDoor
  | JObj _ => match js_field raw "token" with JBool token => Door token | _ => DoorUnreadable end
  | _ => DoorUnreadable
  end.

Inductive ModuleReadyVerdict := Ready | NotVisibleYet | Unverifiable | Misconfigured.
#[export] Instance ModuleReadyVerdict_eq_dec : EqDecision ModuleReadyVerdict.
Proof. solve_decision. Defined.

Inductive JobLogReadiness := JobLogOk | JobLogUnavailable | JobLogUnknown.
#[export] Instance JobLogReadiness_eq_dec : EqDecision JobLogReadiness.
Proof. solve_decision. Defined.
Definition job_log_text (r : JobLogReadiness) : string :=
  match r with JobLogOk => "ok" | JobLogUnavailable => "unavailable" | JobLogUnknown => "unknown" end.
Definition JOB_LOG_READINESS_VALUES : list JobLogReadiness := [JobLogOk; JobLogUnavailable; JobLogUnknown].
Definition parseJobLogReadiness (raw : js) : option JobLogReadiness :=
  match raw with
  | JBool b => Some (if b then JobLogOk else JobLogUnavailable)
  | JStr s => List.find (λ r, job_log_text r =s? s) JOB_LOG_READINESS_VALUES
  | _ => None
  end.
Definition isUnrecognisedJobLog (raw : js) : bool :=
  match raw with JUndef => false | _ => match parseJobLogReadiness raw with None => true | Some _ => false end end.

Inductive ModuleReadingState := Said (r : JobLogReadiness) | ReadingAbsent | Unreachable.
#[export] Instance ModuleReadingState_eq_dec : EqDecision ModuleReadingState.
Proof. solve_decision. Defined.

(** What one sample saw of a module. *)
Record ModuleSample := mkSample {
  sm_module : string; sm_script : string; sm_status : Z; sm_ok : option bool; sm_credentials : option (bool * bool);
  sm_door : DoorBacking; sm_job_log : option JobLogReadiness; sm_records_runpod_jobs : bool; sm_detail : option string;
  sm_reading : ModuleReadingState;
}.
Record TenantModuleObservation := mkObservation {
  mo_sample : ModuleSample; mo_readings : list ModuleReadingState; mo_reads : nat; mo_settled : bool;
}.
Definition mo_module (o : TenantModuleObservation) : string := sm_module (mo_sample o).

(** ** Asking many at once *)
Section gather.
Context {A B : Type} (f : A → M trace exn B).
Fixpoint settle_all (l : list A) : M trace exn (list (exn + B)) :=
  match l with
  | [] => mret []
  | x :: l => r ← attempt (f x); rs ← settle_all l; mret (r :: rs)
  end.
Fixpoint all_values (l : list (exn + B)) : result exn (list B) :=
  match l with
  | [] => Ok []
  | inl e :: _ => Err e
  | inr b :: l => bs ← all_values l; Ok (b :: bs)
  end.
Definition gather (l : list A) : M trace exn (list B) := rs ← settle_all l; lift (all_values rs).
End gather.

Section readiness.
Variable ask : world.
Variable json_parse : string → option js.
Variable json_stringify : js → string.

Definition not_an_object : exn := EError "TypeError" "Cannot read properties of null (reading 'module')".
(** A body of [null] parses, and reading a field of it throws. *)
Definition classifyReadyResponse (status : Z) (text expectedModule : string) : result exn ModuleReadyVerdict :=
  if status =? 404 then Ok Unverifiable
  else if negb (status =? 200) then Ok Misconfigured
  else match json_parse text with
  | None => Ok Misconfigured
  | Some JNull => Err not_an_object
  | Some body =>
      if negb (match js_field body "module" with JStr m => m =s? expectedModule | _ => false end) then Ok Misconfigured
      else match parseDoorBacking (js_field body "door") with
      | Door token => Ok (if token then Ready else Misconfigured)
      | _ =>
          let creds := js_field body "credentials" in
          match js_field creds "runpod_api_key" with
          | JBool key =>
              match js_field creds "runpod_endpoint_id" with
              | JUndef => Ok (if key then Ready else NotVisibleYet)
              | JBool endpoint => Ok (if key && endpoint then Ready else if endpoint && negb key then NotVisibleYet else Misconfigured)
              | _ => Ok Misconfigured
              end
          | _ => Ok Misconfigured
          end
      end
  end.

(** ** The operator's probe *)
Definition boolean_of (v : js) : option bool := match v with JBool b => Some b | _ => None end.
Definition bounded_head (text : string) : string := let head := Str.take 200 text in if Str.truthy head then head else "(empty)".
(** The answer of a module as itself: a 200 whose JSON names it. *)
Definition answered_as (name : string) (status : Z) (text : string) : option js :=
  if status =? 200 then
    match json_parse text with
    | Some body => if match js_field body "module" with JStr m => m =s? name | _ => false end then Some body else None
    | None => None
    end
  else None.
Definition sample_of (spec : TenantModuleSpec) (script : string) (status : Z) (text : string) : ModuleSample :=
  match answered_as (tm_module spec) status text with
  | None =>
      mkSample (tm_module spec) script status None None NoDoor None (tm_recordsRunpodJobs spec) (Some (bounded_head text)) Unreachable
  | Some body =>
      let creds := js_field body "credentials" in
      let rawJobLog := js_field (js_field body "telemetry") "job_log" in
      let jobLog := parseJobLogReadiness rawJobLog in
      mkSample (tm_module spec) script status (boolean_of (js_field body "ok"))
        (match boolean_of (js_field creds "runpod_api_key"), boolean_of (js_field creds "runpod_endpoint_id") with
         | Some key, Some endpoint => Some (key, endpoint) | _, _ => None end)
        (parseDoorBacking (js_field body "door")) jobLog (tm_recordsRunpodJobs spec)
        (if isUnrecognisedJobLog rawJobLog
         then Some ("unrecognised telemetry.job_log: " +:+ Str.take 100 (json_stringify rawJobLog)) else None)
        (match jobLog with Some r => Said r | None => ReadingAbsent end)
  end.
Definition observe_one (tenantId : string) (spec : TenantModuleSpec) : M trace exn ModuleSample :=
  let script := tenantModuleScriptName tenantId (tm_module spec) in
  '(status, text) ← perform ask (XCallModule script "/ready");
  mret (sample_of spec script status text).
Definition observeTenantModulesOnce (tenantId : string) : M trace exn (list ModuleSample) :=
  gather (observe_one tenantId) TENANT_MODULE_CATALOG.

Definition is_module (name : string) (s : ModuleSample) : bool := sm_module s =s? name.
(** [rounds] is not empty: its last round is [last_round]. *)
Definition foldModuleSamples (rounds : list (list ModuleSample)) : list TenantModuleObservation :=
  let last_round := List.last rounds [] in
  (λ sample,
     let readings := sm_reading <$> omap (λ round, List.find (is_module (sm_module sample)) round) rounds in
     mkObservation sample readings (length readings)
       ((2 <=? length readings)%nat && forallb (λ r, bool_decide (Some r = hd_error readings)) readings)) <$> last_round.

Definition MODULE_READINESS_PROBE_GAP_MS : Z := 250.
Definition MODULE_READINESS_SAMPLES : nat := 2.
Fixpoint more_rounds (tenantId : string) (gapMs : Z) (n : nat) : M trace exn (list (list ModuleSample)) :=
  match n with
  | O => mret []
  | S n => _ ← perform ask (KSleep gapMs); round ← observeTenantModulesOnce tenantId; rounds ← more_rounds tenantId gapMs n; mret (round :: rounds)
  end.
Definition probeTenantModuleReadiness (tenantId : string) (gapMs : Z) (samples : nat) : M trace exn (list TenantModuleObservation) :=
  first ← observeTenantModulesOnce tenantId;
  rounds ← more_rounds tenantId gapMs (samples - 1);
  mret (foldModuleSamples (first :: rounds)).

Record ModuleReadinessSummary := mkSummary { ms_records_unproven : list string; ms_unsettled : list string }.
Definition records_proven (o : TenantModuleObservation) : bool := bool_decide (sm_job_log (mo_sample o) = Some JobLogOk) && mo_settled o.
Definition summariseModuleReadiness (modules : list TenantModuleObservation) : ModuleReadinessSummary :=
  mkSummary (mo_module <$> jfilter (λ o, sm_records_runpod_jobs (mo_sample o) && negb (records_proven o)) modules)
    (mo_module <$> jfilter (λ o, negb (mo_settled o)) modules).

(** ** The wait before going live *)
Record UnverifiedModule := mkUnverified { uv_module : string; uv_detail : string; uv_script : string }.
Record ModuleReadiness := mkReadiness {
  mr_verified : list string; mr_unverified : list UnverifiedModule; mr_unconfirmed : list string; mr_notProbed : list string;
  mr_attempts : nat; mr_elapsedMs : Z;
}.
Definition unverifiable_detail (script text : string) : string :=
  script +:+ " did not answer GET /ready (404): either the module image predates " +:+
  "/ready, or the probe could not reach it (no module under that script name, or the " +:+
  "control plane cannot dispatch to the module namespace). Credential propagation could " +:+
  "not be verified either way. Response: " +:+ bounded_head text +:+ ". " +:+
  "Check that response first: if it names a missing binding the defect is in the control " +:+
  "plane deploy, not the tenant; otherwise re-provision against a release that carries " +:+
  "/ready, and if it still 404s the script is missing, not stale".

(** One answer of a round: the module, its status and text, and what they mean. *)
Record ReadyResult := mkReady { rr_module : string; rr_script : string; rr_status : Z; rr_text : string; rr_verdict : ModuleReadyVerdict }.
Definition ask_ready (tenantId : string) (name : string) : M trace exn ReadyResult :=
  let script := tenantModuleScriptName tenantId name in
  '(status, text) ← perform ask (XCallModule script "/ready");
  verdict ← lift (classifyReadyResponse status text name);
  mret (mkReady name script status text verdict).

(** The three lists of a wait: verified, unverified, still pending. *)
Record Sorted := mkSorted { so_verified : list string; so_unverified : list UnverifiedModule; so_pending : list string }.
Fixpoint sort_results (attempts : nat) (elapsedMs : Z) (results : list ReadyResult) (acc : Sorted) : result exn Sorted :=
  match results with
  | [] => Ok acc
  | r :: results =>
      match rr_verdict r with
      | Ready => sort_results attempts elapsedMs results (mkSorted (so_verified acc ++ [rr_module r]) (so_unverified acc) (so_pending acc))
      | Unverifiable =>
          sort_results attempts elapsedMs results
            (mkSorted (so_verified acc) (so_unverified acc ++ [mkUnverified (rr_module r) (unverifiable_detail (rr_script r) (rr_text r)) (rr_script r)]) (so_pending acc))
      | Misconfigured =>
          Err (EModule VerifyStep ("module " +:+ rr_module r +:+ " (" +:+ rr_script r +:+ ") /ready -> " +:+ Str.of_int (rr_status r) +:+ ": " +:+
            Str.take 200 (rr_text r) +:+ " (not retryable; attempts=" +:+ Str.of_int (Z.of_nat attempts) +:+ ", elapsed=" +:+ Str.of_int elapsedMs +:+ "ms)"))
      | NotVisibleYet => sort_results attempts elapsedMs results (mkSorted (so_verified acc) (so_unverified acc) (so_pending acc ++ [rr_module r]))
      end
  end.

Definition MODULE_READY_PROBE_DEADLINE_MS : Z := 10000.
Definition MODULE_READY_BACKOFF_MS : list Z := [250; 500; 1000; 2000].
Definition ready_backoff (attempts : nat) : Z := nth (Nat.min (attempts - 1) 3) MODULE_READY_BACKOFF_MS 0.
Fixpoint ready_rounds (fuel : nat) (tenantId : string) (deadlineMs started : Z) (notProbed : list string) (attempts : nat) (acc : Sorted) :
    M trace exn ModuleReadiness :=
  match fuel with
  | O => throw out_of_fuel
  | S fuel =>
      let attempts := S attempts in
      results ← gather (ask_ready tenantId) (so_pending acc);
      at_ ← perform ask KNow;
      let elapsedMs := at_ - started in
      acc ← lift (sort_results attempts elapsedMs results (mkSorted (so_verified acc) (so_unverified acc) []));
      if (length (so_pending acc) =? 0)%nat then mret (mkReadiness (so_verified acc) (so_unverified acc) [] notProbed attempts elapsedMs)
      else if deadlineMs <=? elapsedMs + ready_backoff attempts then
        mret (mkReadiness (so_verified acc) (so_unverified acc) (so_pending acc) notProbed attempts elapsedMs)
      else
        _ ← perform ask (KSleep (ready_backoff attempts));
        ready_rounds fuel tenantId deadlineMs started notProbed attempts acc
  end.
Definition READY_FUEL : nat := 10.
Definition reaching (catalog : list TenantModuleSpec) : list string := tm_module <$> jfilter reachesRunpod catalog.
Definition nothing_to_probe (catalog : list TenantModuleSpec) : exn :=
  EModule VerifyStep ("no RunPod-reaching modules in a catalog of " +:+ Str.of_int (Z.of_nat (length catalog)) +:+ ": refusing to report " +:+
    "readiness for a tenant whose module set was never probed (reachesRunpod excluded every row)").
Definition awaitTenantModulesReady (fuel : nat) (tenantId : string) (deadlineMs : Z) (catalog : list TenantModuleSpec) : M trace exn ModuleReadiness :=
  started ← perform ask KNow;
  if (length (reaching catalog) =? 0)%nat then throw (nothing_to_probe catalog)
  else
    ready_rounds fuel tenantId deadlineMs started (tm_module <$> jfilter (λ spec, negb (reachesRunpod spec)) catalog) 0 (mkSorted [] [] (reaching catalog)).
End readiness.

(** ** What a wait rests on *)
Section evidence.
Context (ask : world) (json_parse : string → option js) (t : string).
Abbreviation classify := (classifyReadyResponse json_parse).

Definition ready_call (name : string) : call := XCallModule (tenantModuleScriptName t name) "/ready".
(** The module answered its probe, and the answer means [v]. *)
Definition said (name : string) (v : ModuleReadyVerdict) (tr : trace) : Prop := ∃ status text,
  answered (ready_call name) (Ok (status, text)) tr ∧ classify status text name = Ok v.
(** A module's answer as a round keeps it. *)
Definition event_of (r : ReadyResult) : event := Ev (ready_call (rr_module r)) (Ok (rr_status r, rr_text r)).
Definition is_verdict (v w : ModuleReadyVerdict) : bool :=
  match v, w with Ready, Ready | NotVisibleYet, NotVisibleYet | Unverifiable, Unverifiable | Misconfigured, Misconfigured => true | _, _ => false end.
Lemma is_verdict_spec v w : is_verdict v w = true ↔ w = v.
Proof. by destruct v, w. Qed.
Definition by_verdict (v : ModuleReadyVerdict) (rs : list ReadyResult) : list ReadyResult := jfilter (λ r, is_verdict v (rr_verdict r)) rs.

Lemma ask_ready_run name tr : ∃ a, (ask_ready ask json_parse t name tr).2 = tr ++ [Ev (ready_call name) a] ∧
  ∀ r, (ask_ready ask json_parse t name tr).1 = Ok r →
    rr_module r = name ∧ a = Ok (rr_status r, rr_text r) ∧ classify (rr_status r) (rr_text r) name = Ok (rr_verdict r).
Proof.
unfold ask_ready. rewrite bind_run, perform_run. fold (ready_call name). destruct (ask tr (ready_call name)) as [[status text]|e] eqn:E.
- rewrite bind_run. unfold lift. exists (Ok (status, text)). destruct (classify status text name) as [v|e] eqn:Ev; cbn [fst snd].
  + split; [done|]. by intros r [= <-].
  + split; [done|]. by intros r [=].
- exists (Err e). split; [done|]. by intros r [=].
Qed.
(** What a round asked and heard. *)
Lemma gather_ready l tr : ∃ evs, (gather (ask_ready ask json_parse t) l tr).2 = tr ++ evs ∧ slept evs = 0 ∧
  ∀ rs, (gather (ask_ready ask json_parse t) l tr).1 = Ok rs →
    evs = event_of <$> rs ∧ rr_module <$> rs = l ∧ Forall (λ r, classify (rr_status r) (rr_text r) (rr_module r) = Ok (rr_verdict r)) rs.
Proof.
unfold gather. rewrite bind_run.
assert (∃ evs vs, settle_all (ask_ready ask json_parse t) l tr = (Ok vs, tr ++ evs) ∧ slept evs = 0 ∧
  ∀ rs, all_values vs = Ok rs → evs = event_of <$> rs ∧ rr_module <$> rs = l ∧ Forall (λ r, classify (rr_status r) (rr_text r) (rr_module r) = Ok (rr_verdict r)) rs) as (evs & vs & E & Hs & H).
{ revert tr. induction l as [|name l IH]; intros tr; cbn [settle_all].
  { exists [], []. split; [by rewrite app_nil_r|]. split; [done|]. intros rs [= <-]. by split_and!. }
  destruct (ask_ready_run name tr) as (a & Htr & Hok). rewrite attempt_bind. destruct (ask_ready ask json_parse t name tr) as [r tr1]. cbn [fst snd] in *. subst tr1.
  destruct (IH (tr ++ [Ev (ready_call name) a])) as (evs & vs & E & Hs & H).
  exists (Ev (ready_call name) a :: evs).
  destruct r as [r|e]; rewrite bind_run, E; eexists; (split; [by rewrite <- app_assoc|]); (split; [done|]).
  - cbn [all_values]. destruct (all_values vs) as [rs|] eqn:Ea; [|done]. intros ? [= <-]. destruct (Hok r eq_refl) as (Hm & -> & Hc). destruct (H rs eq_refl) as (-> & Hl & HF).
    cbn. split_and!; [f_equal; unfold event_of; by rewrite Hm|by rewrite Hm, Hl|]. constructor; [by rewrite Hm|done].
  - by intros ? [=]. }
rewrite E. exists evs. split; [done|]. split; [done|]. exact H.
Qed.

Lemma sort_results_ok attempts elapsed rs acc acc' : sort_results attempts elapsed rs acc = Ok acc' →
  so_verified acc' = so_verified acc ++ (rr_module <$> by_verdict Ready rs) ∧
  uv_module <$> so_unverified acc' = (uv_module <$> so_unverified acc) ++ (rr_module <$> by_verdict Unverifiable rs) ∧
  so_pending acc' = so_pending acc ++ (rr_module <$> by_verdict NotVisibleYet rs) ∧ by_verdict Misconfigured rs = [].
Proof.
revert acc. induction rs as [|r rs IH]; intros acc; cbn [sort_results]; [intros [= <-]; by rewrite !app_nil_r|].
destruct (rr_verdict r) eqn:Ev; [intros (H1 & H2 & H3 & H4)%IH..|done]; cbn [so_verified so_unverified so_pending] in *; unfold by_verdict, jfilter in *; cbn [List.filter];
  rewrite Ev, H1, H2, H3, H4; cbn; rewrite ?fmap_app, <- ?app_assoc; done.
Qed.
Lemma by_verdict_perm rs : by_verdict Misconfigured rs = [] → rs ≡ₚ by_verdict Ready rs ++ by_verdict Unverifiable rs ++ by_verdict NotVisibleYet rs.
Proof.
induction rs as [|r rs IH]; [done|]. unfold by_verdict, jfilter in *. cbn [List.filter]. destruct (rr_verdict r); cbn; intros H; try done.
- by apply perm_skip, IH.
- rewrite app_assoc, <- Permutation_middle, <- app_assoc. by apply perm_skip, IH.
- rewrite <- Permutation_middle. by apply perm_skip, IH.
Qed.

(** What holds between two rounds. *)
Definition sorted_true (asked : list string) (acc : Sorted) (tr : trace) : Prop :=
  so_verified acc ++ (uv_module <$> so_unverified acc) ++ so_pending acc ≡ₚ asked ∧
  (∀ n, n ∈ so_verified acc → said n Ready tr) ∧ (∀ n, n ∈ uv_module <$> so_unverified acc → said n Unverifiable tr).
Definition probes_only (asked : list string) (e : event) : Prop :=
  match ev_call e with
  | KNow | KSleep _ => True
  | _ => ∃ r, e = event_of r ∧ rr_module r ∈ asked ∧ classify (rr_status r) (rr_text r) (rr_module r) = Ok (rr_verdict r) ∧ rr_verdict r ≠ Misconfigured
  end.
Lemma said_grows n v tr evs : said n v tr → said n v (tr ++ evs).
Proof. intros (s & x & H & Hc). exists s, x. split; [|done]. unfold answered in *. by apply elem_of_app; left. Qed.
Lemma by_verdict_said v rs n tr : Forall (λ r, classify (rr_status r) (rr_text r) (rr_module r) = Ok (rr_verdict r)) rs →
  n ∈ rr_module <$> by_verdict v rs → said n v (tr ++ (event_of <$> rs)).
Proof.
intros HF (r & -> & (Hin & Hv%is_verdict_spec)%elem_of_jfilter)%list_elem_of_fmap. exists (rr_status r), (rr_text r).
split; [|rewrite Forall_forall in HF; by rewrite (HF r Hin), Hv]. apply elem_of_app. right. apply list_elem_of_fmap. by exists r.
Qed.

Lemma round_sorted asked acc acc' rs attempts elapsed tr : sorted_true asked acc tr →
  rr_module <$> rs = so_pending acc → Forall (λ r, classify (rr_status r) (rr_text r) (rr_module r) = Ok (rr_verdict r)) rs →
  sort_results attempts elapsed rs (mkSorted (so_verified acc) (so_unverified acc) []) = Ok acc' →
  sorted_true asked acc' (tr ++ (event_of <$> rs)) ∧ (∀ n, n ∈ so_pending acc' → said n NotVisibleYet (tr ++ (event_of <$> rs))) ∧
  Forall (probes_only asked) (event_of <$> rs).
Proof.
intros (Hp & Hv & Hu) Hm HF (H1 & H2 & H3 & H4)%sort_results_ok. cbn [so_verified so_unverified so_pending] in *. split; [split|split].
- rewrite H1, H2, H3, <- Hp, <- Hm. cbn [app]. rewrite (by_verdict_perm rs) at 4 by done. rewrite !fmap_app. solve_Permutation.
- split; intros n; [rewrite H1|rewrite H2]; intros [Hn|Hn]%elem_of_app; [by apply said_grows, Hv|by eapply by_verdict_said|by apply said_grows, Hu|by eapply by_verdict_said].
- intros n. rewrite H3. intros Hn. by eapply by_verdict_said.
- apply Forall_fmap, Forall_forall. intros r Hr. exists r. rewrite Forall_forall in HF. split_and!; [done| |by apply HF|].
  + rewrite <- Hp, <- Hm. apply elem_of_app. right. apply elem_of_app. right. apply list_elem_of_fmap. by exists r.
  + intros Hmis. apply jfilter_nil_iff with (x := r) in H4; [|done]. by rewrite Hmis in H4.
Qed.
(** From any trace; [evs] is what the wait added so far. *)
Lemma rounds_sorted fuel asked deadline started notProbed n acc tr evs r tr' :
  sorted_true asked acc evs → Forall (probes_only asked) evs →
  ready_rounds ask json_parse fuel t deadline started notProbed n acc (tr ++ evs) = (Ok r, tr') → ∃ evs', tr' = tr ++ evs' ∧
  sorted_true asked (mkSorted (mr_verified r) (mr_unverified r) (mr_unconfirmed r)) evs' ∧ (∀ m, m ∈ mr_unconfirmed r → said m NotVisibleYet evs') ∧
  Forall (probes_only asked) evs' ∧ mr_notProbed r = notProbed.
Proof.
revert n acc evs. induction fuel as [|fuel IH]; intros n acc evs Hs Hf; [done|]. cbn [ready_rounds]. rewrite bind_run.
destruct (gather_ready (so_pending acc) (tr ++ evs)) as (round & Htr & _ & Hrs). destruct (gather _ _ (tr ++ evs)) as [[rs|e] tr1]; [|done]. cbn [fst snd] in *. subst tr1.
destruct (Hrs rs eq_refl) as (-> & Hm & HF). rewrite bind_run, perform_run. destruct (ask _ KNow) as [at_|e] eqn:E1; [|done].
rewrite bind_run. unfold lift. destruct (sort_results _ _ _ _) as [acc'|e] eqn:E2; [|done].
destruct (round_sorted _ _ _ _ _ _ _ Hs Hm HF E2) as ((Hp & Hv & Hu) & Hnv & Hfe).
set (evs2 := (evs ++ (event_of <$> rs)) ++ [Ev KNow (Ok at_)]).
assert (((tr ++ evs) ++ (event_of <$> rs)) ++ [Ev KNow (Ok at_)] = tr ++ evs2) as -> by (unfold evs2; by rewrite <- !app_assoc).
assert (sorted_true asked acc' evs2 ∧ Forall (probes_only asked) evs2 ∧ ∀ m, m ∈ so_pending acc' → said m NotVisibleYet evs2) as (Hs2 & Hf2 & Hn2).
{ split_and!; [split_and!; [done|..]|..]; try (intros m Hin; apply said_grows; by auto).
  apply Forall_app; split; [by apply Forall_app|by repeat constructor]. }
destruct (_ =? 0)%nat eqn:E3.
{ intros [= <- <-]. apply Nat.eqb_eq, length_zero_iff_nil in E3. destruct Hs2 as (Hp2 & Hv2 & Hu2). rewrite E3 in Hp2.
  exists evs2. split_and!; [done|by split_and!|by intros m ?%elem_of_nil|done|done]. }
destruct (_ <=? _); [intros [= <- <-]; exists evs2; by split_and!|].
rewrite bind_run, perform_run. destruct (ask (tr ++ evs2) _) as [[]|e] eqn:E4; [|done]. rewrite <- app_assoc. apply IH.
- destruct Hs2 as (? & ? & ?). split_and!; [done|..]; intros m Hin; apply said_grows; auto.
- apply Forall_app; split; [done|by repeat constructor].
Qed.
(** The whole wait, from any trace. *)
Lemma wait_sorted fuel deadline catalog r tr tr' : awaitTenantModulesReady ask json_parse fuel t deadline catalog tr = (Ok r, tr') → ∃ evs, tr' = tr ++ evs ∧
  reaching catalog ≠ [] ∧ sorted_true (reaching catalog) (mkSorted (mr_verified r) (mr_unverified r) (mr_unconfirmed r)) evs ∧
  (∀ m, m ∈ mr_unconfirmed r → said m NotVisibleYet evs) ∧ Forall (probes_only (reaching catalog)) evs ∧
  mr_notProbed r = tm_module <$> jfilter (λ spec, negb (reachesRunpod spec)) catalog.
Proof.
unfold awaitTenantModulesReady. rewrite bind_run, perform_run. destruct (ask tr KNow) as [started|e]; [|done].
destruct (_ =? 0)%nat eqn:E0; [done|]. intros H. apply rounds_sorted with (asked := reaching catalog) in H as (evs & -> & Hs & Hn & Hf & Hnp).
- exists evs. split_and!; try done. by intros E; rewrite E in E0.
- split_and!; [done|by intros n ?%elem_of_nil..].
- by repeat constructor.
Qed.
End evidence.

(** A tenant is called ready on evidence.  Whatever the module namespace answers, a wait asks nothing
    but [GET /ready] of the tenant's own RunPod-reaching modules; when it returns, each of those is in
    exactly one list, verified only if it answered that its credentials are readable, unverified only
    if nothing answered (404), unconfirmed only if it said its key is not visible yet; the rest of the
    catalog is named as not probed; no answer was a misconfiguration, which always throws; and with
    nothing to probe the wait never returns. *)
Theorem readiness_rests_on_answers ask json_parse fuel t deadline catalog r tr :
  awaitTenantModulesReady ask json_parse fuel t deadline catalog [] = (Ok r, tr) →
  reaching catalog ≠ [] ∧ mr_verified r ++ (uv_module <$> mr_unverified r) ++ mr_unconfirmed r ≡ₚ reaching catalog ∧
  mr_notProbed r = tm_module <$> jfilter (λ spec, negb (reachesRunpod spec)) catalog ∧
  (∀ n, n ∈ mr_verified r → said json_parse t n Ready tr) ∧ (∀ n, n ∈ uv_module <$> mr_unverified r → said json_parse t n Unverifiable tr) ∧
  (∀ n, n ∈ mr_unconfirmed r → said json_parse t n NotVisibleYet tr) ∧ Forall (probes_only json_parse t (reaching catalog)) tr.
Proof.
intros H. apply wait_sorted in H as (evs & -> & Hne & (Hp & Hv & Hu) & Hn & Hf & Hnp). by split_and!.
Qed.

(** ** The wait ends *)
Section ending.
Context (ask : world) (json_parse : string → option js) (t : string).
Hypothesis honest : honest_clock ask.

Lemma ready_backoff_backoff n : ready_backoff n = backoff n.
Proof. reflexivity. Qed.
Lemma waited_past n : (8 <= n)%nat → MODULE_READY_PROBE_DEADLINE_MS <= waited n + backoff (S n).
Proof.
intros Hn. assert (∀ k, waited (k + 8) = 11750 + 2000 * Z.of_nat k) as H.
{ induction k as [|k IH]; [reflexivity|]. change (waited (S k + 8)) with (waited (k + 8) + backoff (S (k + 8))). rewrite IH.
  unfold backoff. replace (Nat.min (S (k + 8) - 1) 3) with 3%nat by lia. cbn [nth STUDIO_TOKEN_PROBE_BACKOFF_MS]. lia. }
replace n with ((n - 8) + 8)%nat by lia. rewrite H. unfold backoff. replace (Nat.min _ 3) with 3%nat by lia.
cbn [nth STUDIO_TOKEN_PROBE_BACKOFF_MS]. unfold MODULE_READY_PROBE_DEADLINE_MS. lia.
Qed.

(** More fuel never changes what the wait does, and it makes at most eight rounds. *)
Lemma rounds_fuel started notProbed more fuel n acc tr :
  (n + fuel = READY_FUEL)%nat → probed started n tr → (n <= 7)%nat →
  ready_rounds ask json_parse (fuel + more) t MODULE_READY_PROBE_DEADLINE_MS started notProbed n acc tr =
  ready_rounds ask json_parse fuel t MODULE_READY_PROBE_DEADLINE_MS started notProbed n acc tr ∧
  ∀ r, (ready_rounds ask json_parse fuel t MODULE_READY_PROBE_DEADLINE_MS started notProbed n acc tr).1 = Ok r → (mr_attempts r <= 8)%nat.
Proof.
revert n acc tr. induction fuel as [|fuel IH]; intros n acc tr Hn (pre & mid & -> & Hw) Hle; [unfold READY_FUEL in Hn; lia|].
cbn [ready_rounds Nat.add]. rewrite !bind_run. set (tr := pre ++ _).
destruct (gather_ready ask json_parse t (so_pending acc) tr) as (evs & Htr & Hev & _). destruct (gather _ _ tr) as [[rs|e] tr1]; [|done]. cbn [fst snd] in *. subst tr1.
assert (tr ++ evs = pre ++ Ev KNow (Ok started) :: (mid ++ evs)) as -> by (unfold tr; by rewrite <- app_assoc).
rewrite !bind_run, !perform_run. destruct (ask _ KNow) as [at_|e] eqn:E2; [|done]. pose proof (honest _ _ _ _ E2) as Hnow. rewrite slept_app, Hev in Hnow.
rewrite !bind_run. unfold lift. destruct (sort_results _ _ _ _) as [acc'|e]; [|done].
destruct (_ =? 0)%nat; [split; [done|]; intros r [= <-]; cbn; lia|].
destruct (MODULE_READY_PROBE_DEADLINE_MS <=? _) eqn:Hd; [split; [done|]; intros r [= <-]; cbn; lia|]. apply Z.leb_gt in Hd.
rewrite !bind_run, !perform_run. set (tr2 := _ ++ [Ev KNow _]). set (k := KSleep _). destruct (ask tr2 k) as [[]|e] eqn:E3; [|done].
rewrite ready_backoff_backoff in Hd. apply IH; [lia| |].
- exists pre, (mid ++ evs ++ [Ev KNow (Ok at_)] ++ [Ev k (Ok tt)]). split.
  + unfold tr2. rewrite <- !app_assoc. cbn. by rewrite <- app_assoc.
  + rewrite !slept_app, Hev. cbn [slept k waited]. change (ready_backoff (S n)) with (backoff (S n)). lia.
- destruct (Nat.le_gt_cases (S n) 7) as [|Hgt]; [done|]. assert (n = 7)%nat as -> by lia.
  exfalso. change (waited 7) with 9750 in Hw. change (backoff 8) with 2000 in Hd. unfold MODULE_READY_PROBE_DEADLINE_MS in Hd. lia.
Qed.

(** The wait for a tenant's modules ends within its deadline's rounds.  With a clock that moves at
    least as far as was slept, whatever the modules answer, it stops by itself after at most eight
    rounds, so its bound is never what ends it. *)
Theorem readiness_wait_ends catalog more tr :
  awaitTenantModulesReady ask json_parse (READY_FUEL + more) t MODULE_READY_PROBE_DEADLINE_MS catalog tr =
  awaitTenantModulesReady ask json_parse READY_FUEL t MODULE_READY_PROBE_DEADLINE_MS catalog tr ∧
  ∀ r, (awaitTenantModulesReady ask json_parse READY_FUEL t MODULE_READY_PROBE_DEADLINE_MS catalog tr).1 = Ok r → (mr_attempts r <= 8)%nat.
Proof.
unfold awaitTenantModulesReady. rewrite !bind_run, !perform_run. destruct (ask tr KNow) as [started|e] eqn:E; [|done].
destruct (_ =? 0)%nat; [done|]. apply rounds_fuel; [done| |lia]. exists tr, []. split; [done|reflexivity].
Qed.
End ending.

(** ** The probe that only looks *)
Section looking.
Context (ask : world) (json_parse : string → option js) (json_stringify : js → string) (t : string).

Definition look_call (spec : TenantModuleSpec) : call := XCallModule (tenantModuleScriptName t (tm_module spec)) "/ready".
(** The module answered as itself that it can record a job. *)
Definition records_now (spec : TenantModuleSpec) (answer : result exn (Z * string)) : Prop := ∃ status text body,
  answer = Ok (status, text) ∧ answered_as json_parse (tm_module spec) status text = Some body ∧
  parseJobLogReadiness (js_field (js_field body "telemetry") "job_log") = Some JobLogOk.
Lemma sample_module spec script status text : sm_module (sample_of json_parse json_stringify spec script status text) = tm_module spec.
Proof. unfold sample_of. by destruct (answered_as _ _ _ _). Qed.
Lemma sample_records spec script status text :
  sm_records_runpod_jobs (sample_of json_parse json_stringify spec script status text) = tm_recordsRunpodJobs spec.
Proof. unfold sample_of. by destruct (answered_as _ _ _ _). Qed.
Lemma sample_reading spec script status text : let s := sample_of json_parse json_stringify spec script status text in
  (sm_reading s = Said JobLogOk ↔ records_now spec (Ok (status, text))) ∧ (sm_job_log s = Some JobLogOk ↔ sm_reading s = Said JobLogOk).
Proof.
unfold sample_of, records_now. destruct (answered_as _ _ _ _) as [body|] eqn:E; cbn [sm_reading sm_job_log].
- destruct (parseJobLogReadiness _) as [r|] eqn:Ep; (split; split).
  + intros [= ->]. by exists status, text, body.
  + intros (s & x & b & [= <- <-] & Hb & Hp). rewrite E in Hb. injection Hb as <-. rewrite Ep in Hp. by injection Hp as ->.
  + by intros [= ->].
  + by intros [= ->].
  + done.
  + intros (s & x & b & [= <- <-] & Hb & Hp). rewrite E in Hb. injection Hb as <-. by rewrite Ep in Hp.
  + done.
  + done.
- split; split; try done. intros (s & x & b & [= <- <-] & Hb & _). by rewrite E in Hb.
Qed.

(** One round: a sample of every module of the catalog, in order, each from one answer. *)
Definition sampled (spec : TenantModuleSpec) (s : ModuleSample) (e : event) : Prop := ∃ status text,
  e = Ev (look_call spec) (Ok (status, text)) ∧ s = sample_of json_parse json_stringify spec (tenantModuleScriptName t (tm_module spec)) status text.
Lemma observe_run tr round tr' : observeTenantModulesOnce ask json_parse json_stringify t tr = (Ok round, tr') →
  ∃ evs, tr' = tr ++ evs ∧ Forall3 sampled TENANT_MODULE_CATALOG round evs.
Proof.
unfold observeTenantModulesOnce. generalize TENANT_MODULE_CATALOG as l. intros l. unfold gather. rewrite bind_run.
assert (∃ evs vs, settle_all (observe_one ask json_parse json_stringify t) l tr = (Ok vs, tr ++ evs) ∧
  ∀ rs, all_values vs = Ok rs → Forall3 sampled l rs evs) as (evs & vs & -> & H).
{ revert tr. induction l as [|spec l IH]; intros tr; cbn [settle_all].
  { exists [], []. split; [by rewrite app_nil_r|]. intros rs [= <-]. constructor. }
  rewrite attempt_bind. unfold observe_one at 1. rewrite bind_run, perform_run. fold (look_call spec).
  set (e0 := Ev (look_call spec) (ask tr (look_call spec))). destruct (IH (tr ++ [e0])) as (evs & vs & E & H). exists (e0 :: evs).
  destruct (ask tr (look_call spec)) as [[status text]|e] eqn:Ea; cbn [mret M_ret]; rewrite bind_run; change (tr ++ [Ev (look_call spec) _]) with (tr ++ [e0]);
    rewrite E; eexists; (split; [by rewrite <- app_assoc|]); cbn [all_values]; [|done].
  destruct (all_values vs) as [rs|]; [|done]. intros ? [= <-]. constructor; [by exists status, text|by apply H]. }
unfold lift. intros [= Hr <-]. exists evs. split; [done|by apply H].
Qed.

(** The answers a module gave in a trace. *)
Definition answer_of (spec : TenantModuleSpec) (e : event) : option (result exn (Z * string)) :=
  match e with
  | Ev (XCallModule s p) a => if (s =? tenantModuleScriptName t (tm_module spec)) && (p =? "/ready") then Some a else None
  | _ => None
  end%string.
Definition answers_of (spec : TenantModuleSpec) (tr : trace) : list (result exn (Z * string)) := omap (answer_of spec) tr.
Definition sample_found (spec : TenantModuleSpec) (round : list ModuleSample) (a : result exn (Z * string)) : Prop := ∃ status text,
  a = Ok (status, text) ∧ List.find (is_module (tm_module spec)) round =
    Some (sample_of json_parse json_stringify spec (tenantModuleScriptName t (tm_module spec)) status text).

Lemma script_name_inj m m' : tenantModuleScriptName t m = tenantModuleScriptName t m' → m = m'.
Proof. unfold tenantModuleScriptName. intros H%(f_equal Str.chars). rewrite !chars_append in H. by apply app_inv_head, chars_inj in H. Qed.
Lemma answer_of_look spec spec' a : answer_of spec (Ev (look_call spec') a) = if (tm_module spec' =? tm_module spec)%string then Some a else None.
Proof.
unfold answer_of, look_call. rewrite String.eqb_refl, andb_true_r.
assert ((tenantModuleScriptName t (tm_module spec') =? tenantModuleScriptName t (tm_module spec))%string = (tm_module spec' =? tm_module spec)%string) as ->; [|done].
apply eq_true_iff_eq. rewrite !String.eqb_eq. split; [apply script_name_inj|by intros ->].
Qed.
Lemma others_silent spec l round evs : tm_module spec ∉ tm_module <$> l → Forall3 sampled l round evs → answers_of spec evs = [].
Proof.
intros Hn H. induction H as [|spec' s e l round evs (st & tx & -> & _) H IH]; [done|]. unfold answers_of. cbn [omap list_omap]. rewrite answer_of_look.
destruct (_ =? _)%string eqn:E; [apply String.eqb_eq in E; set_solver|]. apply IH. set_solver.
Qed.
Lemma round_found spec l round evs : NoDup (tm_module <$> l) → spec ∈ l → Forall3 sampled l round evs →
  ∃ a, answers_of spec evs = [a] ∧ sample_found spec round a.
Proof.
intros Hnd Hin H. induction H as [|spec' s e l round evs (st & tx & -> & ->) H IH]; [by apply elem_of_nil in Hin|].
rewrite fmap_cons, NoDup_cons in Hnd. destruct Hnd as [Hno Hnd]. unfold answers_of. cbn [omap list_omap]. rewrite answer_of_look.
apply elem_of_cons in Hin as [->|Hin].
- rewrite String.eqb_refl. exists (Ok (st, tx)). split; [f_equal; by eapply others_silent|]. exists st, tx. split; [done|].
  unfold is_module. cbn [List.find]. by rewrite sample_module, String.eqb_refl.
- destruct (_ =? _)%string eqn:E; [apply String.eqb_eq in E; exfalso; apply Hno; rewrite E; by apply list_elem_of_fmap_2|].
  destruct (IH Hnd Hin) as (a & Ha & st' & tx' & -> & Hf). exists (Ok (st', tx')). split; [done|]. exists st', tx'. split; [done|].
  unfold is_module. cbn [List.find]. rewrite sample_module, E. exact Hf.
Qed.
Lemma round_names l round evs : Forall3 sampled l round evs → sm_module <$> round = tm_module <$> l.
Proof. intros H. induction H as [|spec s e l round evs (st & tx & -> & ->) H IH]; [done|]. cbn. by rewrite sample_module, IH. Qed.
Lemma round_records l round evs : Forall3 sampled l round evs → ∀ s, s ∈ round → ∃ spec, spec ∈ l ∧ sm_module s = tm_module spec ∧ sm_records_runpod_jobs s = tm_recordsRunpodJobs spec.
Proof.
intros H. induction H as [|spec s e l round evs (st & tx & -> & ->) H IH]; [by intros s ?%elem_of_nil|].
intros s [->|Hs]%elem_of_cons; [exists spec; split; [left|by rewrite sample_module, sample_records]|].
destruct (IH s Hs) as (spec' & ? & ?). exists spec'. split; [by right|done].
Qed.

Definition rounds_looked (rounds : list (list ModuleSample)) (tr : trace) : Prop :=
  Forall (λ round, sm_module <$> round = tm_module <$> TENANT_MODULE_CATALOG) rounds ∧
  ∀ spec, spec ∈ TENANT_MODULE_CATALOG → Forall2 (sample_found spec) rounds (answers_of spec tr).
Lemma catalog_nodup : NoDup (tm_module <$> TENANT_MODULE_CATALOG).
Proof. apply (bool_decide_unpack _). by vm_compute. Qed.
Lemma one_round tr round tr' : observeTenantModulesOnce ask json_parse json_stringify t tr = (Ok round, tr') →
  ∃ evs, tr' = tr ++ evs ∧ rounds_looked [round] evs.
Proof.
intros (evs & -> & H)%observe_run. exists evs. split; [done|]. split; [constructor; [by eapply round_names|done]|].
intros spec Hs. destruct (round_found spec _ _ _ catalog_nodup Hs H) as (a & -> & Hf). by repeat constructor.
Qed.
Lemma looked_app r1 r2 t1 t2 : rounds_looked r1 t1 → rounds_looked r2 t2 → rounds_looked (r1 ++ r2) (t1 ++ t2).
Proof.
intros [H1 H2] [H3 H4]. split; [by apply Forall_app|]. intros spec Hs. unfold answers_of. rewrite omap_app. by apply Forall2_app; [apply H2|apply H4].
Qed.
Lemma more_rounds_looked gap n tr rounds tr' : more_rounds ask json_parse json_stringify t gap n tr = (Ok rounds, tr') →
  ∃ evs, tr' = tr ++ evs ∧ rounds_looked rounds evs ∧ length rounds = n.
Proof.
revert tr rounds tr'. induction n as [|n IH]; intros tr rounds tr'; cbn [more_rounds].
{ intros [= <- <-]. exists []. rewrite app_nil_r. split_and!; [done|split; [done|by intros]|done]. }
rewrite bind_run, perform_run. set (k := KSleep gap). destruct (ask tr k) as [[]|e] eqn:Ek; [|done]. rewrite bind_run.
destruct (observeTenantModulesOnce _ _ _ _ _) as [[round|e] tr1] eqn:E1; [|done]. apply one_round in E1 as (e1 & -> & H1). rewrite bind_run.
destruct (more_rounds _ _ _ _ _ _ _) as [[rs|e] tr2] eqn:E2; [|done]. apply IH in E2 as (e2 & -> & H2 & Hl). intros [= <- <-].
exists ([Ev k (Ok tt)] ++ e1 ++ e2). rewrite <- !app_assoc. split; [done|]. split; [|cbn; by rewrite Hl].
apply (looked_app [] _ [_]); [split; [done|by intros]|]. by apply (looked_app [_]).
Qed.

Lemma readings_found spec rounds answers : Forall2 (sample_found spec) rounds answers →
  (∀ r, r ∈ sm_reading <$> omap (λ round, List.find (is_module (tm_module spec)) round) rounds → r = Said JobLogOk) ↔ Forall (records_now spec) answers.
Proof.
intros H. induction H as [|round a rounds answers (st & tx & -> & Hf) H IH]; [split; [done|by intros _ r ?%elem_of_nil]|].
cbn [omap list_omap]. rewrite Hf. cbn [fmap list_fmap]. destruct (sample_reading spec (tenantModuleScriptName t (tm_module spec)) st tx) as [Hr _]. split.
- intros Hall. constructor; [apply Hr, Hall; left|]. apply IH. intros r Hin. apply Hall. by right.
- intros [Ha Hrest]%Forall_cons. intros r [->|Hin]%elem_of_cons; [by apply Hr|by apply IH].
Qed.
Lemma readings_length spec rounds answers : Forall2 (sample_found spec) rounds answers →
  length (omap (λ round, List.find (is_module (tm_module spec)) round) rounds) = length answers.
Proof. intros H. induction H as [|round a rounds answers (st & tx & -> & Hf) H IH]; [done|]. cbn [omap list_omap]. by rewrite Hf; cbn; rewrite IH. Qed.
Lemma settled_ok (l : list ModuleReadingState) : (2 <= length l)%nat → List.last l Unreachable = Said JobLogOk →
  (forallb (λ r, bool_decide (Some r = hd_error l)) l = true ↔ ∀ r, r ∈ l → r = Said JobLogOk).
Proof.
intros Hl Hlast. rewrite forallb_forall. destruct l as [|x l]; [cbn in Hl; lia|]. cbn [hd_error]. split.
- intros H. assert (x = Said JobLogOk) as ->.
  { rewrite <- Hlast. assert (List.In (List.last (x :: l) Unreachable) (x :: l)) as Hin.
    { destruct (exists_last (l := x :: l)) as (l' & y & ->); [done|]. rewrite last_last. apply in_or_app. right. by left. }
    apply H, bool_decide_eq_true in Hin. by injection Hin. }
  intros r Hr%list_elem_of_In%H%bool_decide_eq_true. by injection Hr.
- intros H r Hr%list_elem_of_In. apply bool_decide_eq_true. by rewrite (H r), (H x) by (done || left).
Qed.

Lemma observed_proven spec rounds answers last_round sample :
  Forall2 (sample_found spec) (rounds ++ [last_round]) answers → List.find (is_module (tm_module spec)) last_round = Some sample →
  ∀ o, o ∈ foldModuleSamples (rounds ++ [last_round]) → mo_sample o = sample → sm_module sample = tm_module spec →
  (sm_job_log sample = Some JobLogOk ↔ sm_reading sample = Said JobLogOk) →
  records_proven o = true ↔ (2 <= length answers)%nat ∧ Forall (records_now spec) answers.
Proof.
intros HF Hfind o (s & -> & Hs)%list_elem_of_fmap Ho Hm Hjob. cbn [mo_sample] in Ho. subst s. unfold records_proven. cbn [mo_sample mo_settled]. rewrite Hm.
set (readings := sm_reading <$> _). rewrite <- (readings_found spec _ _ HF). fold readings.
assert (length readings = length answers) as Hlen by (unfold readings; rewrite length_fmap; by apply readings_length).
assert (List.last readings Unreachable = sm_reading sample) as Hlast.
{ unfold readings. rewrite omap_app, fmap_app. cbn [omap list_omap]. rewrite Hfind. apply last_last. }
rewrite Hlen, !andb_true_iff, bool_decide_eq_true, Nat.leb_le, Hjob, <- Hlast. split.
- intros (Hl & H2 & Hall). split; [done|]. apply settled_ok; [by rewrite Hlen|done|done].
- intros (H2 & Hall). assert (List.last readings Unreachable = Said JobLogOk) as Hl.
  { apply Hall. destruct (exists_last (l := readings)) as (l' & y & ->); [intros E; rewrite E in Hlen; cbn in Hlen; lia|]. rewrite last_last. apply elem_of_app. right. left. }
  split_and!; [done|done|]. apply settled_ok; [by rewrite Hlen|done|done].
Qed.

(** "Able to record" is said only of a module that said so every time.  Whatever the module namespace
    answers, the operator's probe asks every module of the catalog as often as there are samples, at
    least once; and of the modules that submit jobs its summary leaves out of the unproven list exactly
    those that were asked twice or more and each time answered as themselves that they can record. *)
Theorem proven_only_by_every_sample gap samples obs tr :
  probeTenantModuleReadiness ask json_parse json_stringify t gap samples [] = (Ok obs, tr) →
  mo_module <$> obs = tm_module <$> TENANT_MODULE_CATALOG ∧
  ∀ spec, spec ∈ TENANT_MODULE_CATALOG → length (answers_of spec tr) = Nat.max 1 samples ∧
    (tm_module spec ∈ ms_records_unproven (summariseModuleReadiness obs) ↔
     tm_recordsRunpodJobs spec = true ∧ ¬ ((2 <= samples)%nat ∧ Forall (records_now spec) (answers_of spec tr))).
Proof.
unfold probeTenantModuleReadiness. rewrite bind_run. destruct (observeTenantModulesOnce _ _ _ _ []) as [[first|e] tr1] eqn:E1; [|done].
apply one_round in E1 as (e1 & -> & H1). rewrite bind_run. destruct (more_rounds _ _ _ _ _ _ _) as [[more|e] tr2] eqn:E2; [|done].
apply more_rounds_looked in E2 as (e2 & -> & H2 & Hl). intros [= <- <-]. cbn [app].
pose proof (looked_app _ _ _ _ H1 H2) as [Hnames Hlook]. cbn [app] in Hnames, Hlook.
destruct (exists_last (l := first :: more)) as (rounds & last_round & Er); [done|]. rewrite Er in *.
assert (length rounds = length more) as Hlr by (apply (f_equal length) in Er; rewrite length_app in Er; cbn in Er; lia).
assert (sm_module <$> last_round = tm_module <$> TENANT_MODULE_CATALOG) as Hlast by (apply Forall_app in Hnames as [_ Hnames]; by inversion Hnames).
assert (mo_module <$> foldModuleSamples (rounds ++ [last_round]) = tm_module <$> TENANT_MODULE_CATALOG) as Hmods.
{ unfold foldModuleSamples. rewrite last_last, <- list_fmap_compose. exact Hlast. }
split; [exact Hmods|]. intros spec Hs. specialize (Hlook spec Hs). assert (length (answers_of spec (e1 ++ e2)) = Nat.max 1 samples) as Hlen.
{ rewrite <- (Forall2_length _ _ _ Hlook), length_app. cbn. lia. }
split; [exact Hlen|]. pose proof Hlook as Hfound. apply Forall2_app_inv_l in Hfound as (l1 & l2 & _ & Hfound & _).
apply Forall2_cons_inv_l in Hfound as (a & ? & (st & tx & -> & Hfind) & _ & _). set (sample := sample_of _ _ _ _ _ _) in Hfind.
assert (∀ o, o ∈ foldModuleSamples (rounds ++ [last_round]) → mo_module o = tm_module spec → mo_sample o = sample) as Honly.
{ unfold foldModuleSamples. rewrite last_last. intros o (s & -> & Hin)%list_elem_of_fmap Hm. cbn in *.
  pose proof (List.find_some _ _ Hfind) as [Hin' Hm']. apply list_elem_of_In in Hin'. unfold is_module in Hm'. apply String.eqb_eq in Hm'.
  apply (unique_eq sm_module last_round); [rewrite Hlast; apply catalog_nodup|done|done|by rewrite Hm']. }
assert (sm_module sample = tm_module spec) as Hms by apply sample_module.
assert (∀ o, o ∈ foldModuleSamples (rounds ++ [last_round]) → mo_module o = tm_module spec → records_proven o = true ↔ (2 <= samples)%nat ∧ Forall (records_now spec) (answers_of spec (e1 ++ e2))) as Hproven.
{ intros o Hin Hm. rewrite (observed_proven spec rounds _ last_round sample Hlook Hfind o Hin (Honly o Hin Hm) Hms (proj2 (sample_reading _ _ _ _))), Hlen. split; intros [? ?]; (split; [lia|done]). }
cbn [ms_records_unproven summariseModuleReadiness]. split.
- intros (o & Hm & (Hin & (Hr & Hn%negb_true_iff)%andb_true_iff)%elem_of_jfilter)%list_elem_of_fmap. symmetry in Hm. split.
  + rewrite (Honly o Hin Hm) in Hr. by rewrite <- (sample_records spec (tenantModuleScriptName t (tm_module spec)) st tx).
  + intros Hok%(Hproven o Hin Hm). by rewrite Hok in Hn.
- intros [Hr Hn]. assert (tm_module spec ∈ mo_module <$> foldModuleSamples (rounds ++ [last_round])) as (o & Hm & Hin)%list_elem_of_fmap
    by (rewrite Hmods; by apply list_elem_of_fmap_2).
  symmetry in Hm. apply list_elem_of_fmap. exists o. split; [done|]. apply elem_of_jfilter. split; [done|]. apply andb_true_iff. split.
  + rewrite (Honly o Hin Hm). unfold sample. by rewrite sample_records.
  + apply negb_true_iff, not_true_iff_false. intros Hok. by apply Hn, (Hproven o Hin Hm).
Qed.
End looking.
