(* ===== verification/TenantStudio.v ===== *)
(** * What a tenant's studio is bound to (src/tenant-studio-env.ts, src/tenant-storage-quota.ts,
      src/tenant-abuse-report.ts, src/video-finish-tier-state.ts: configuration and projections)

    Which variables a studio may have, the storage ceiling a tenant gets from its own record and the
    plane's configuration, and the three projections that every writer of a studio re-derives. *)

From S2P Require Export TenantModules Sql.
Open Scope string_scope.
Open Scope list_scope.
Open Scope Z_scope.
Open Scope plane_scope.

(** ** The variables of a studio *)
Inductive VarDisposition := Provisioned | Conditional | DefaultVar | NotHosted.
#[export] Instance VarDisposition_eq_dec : EqDecision VarDisposition.
Proof. solve_decision. Defined.
Definition TENANT_STUDIO_VAR_DISPOSITION : list (string * VarDisposition) :=
  [ ("AUTH_MODE", Provisioned); ("R2_S3_BUCKET", Provisioned); ("R2_S3_ENDPOINT", Provisioned);
    ("SPEND_DAILY_CEILING", Conditional); ("R2_STORAGE_QUOTA_BYTES", Conditional); ("R2_STORAGE_QUOTA_MODE", Conditional);
    ("ABUSE_REPORT_URL", Conditional); ("ALLOW_UNAUTHENTICATED", DefaultVar); ("SPEND_LIMIT_FAIL_CLOSED", DefaultVar);
    ("FILM_CLIP_DURATION_FLOOR", DefaultVar); ("ACCESS_TEAM_DOMAIN", NotHosted); ("ACCESS_AUD", NotHosted);
    ("PLANNER_AI_MOCK", NotHosted); ("VIDEO_FINISH_URL", Conditional); ("AUDIO_MIX_URL", Conditional);
    ("AUDIO_BEAT_SYNC_URL", Conditional); ("IMAGE_PREP_URL", Conditional); ("AUDIO_MASTER_URL", Conditional);
    ("FINISH_UPSCALE_DOORS", Conditional); ("SPEECH_UPSCALE_DOORS", Conditional); ("FINISH_BLENDER_DOORS", Conditional);
    ("RUNPOD_WAN_TRAIN_ENDPOINT_ID", Conditional); ("SPEND_PRICEBOOK", NotHosted) ].
Definition REQUIRED_TENANT_STUDIO_VARS : list string :=
  order_by Str.leb (fst <$> jfilter (λ kv, bool_decide (kv.2 = Provisioned)) TENANT_STUDIO_VAR_DISPOSITION).
Definition r2S3Endpoint (accountId : string) : string := "https://" +:+ accountId +:+ ".r2.cloudflarestorage.com".
Definition undecided_vars (requiredVars : list string) : list string :=
  jfilter (λ k, negb (existsb (λ kv, kv.1 =s? k) TENANT_STUDIO_VAR_DISPOSITION)) requiredVars.
Definition assertDispositionCoversContract (requiredVars : list string) : result exn unit :=
  match undecided_vars requiredVars with
  | [] => Ok tt
  | undecided => Err (error ("the pinned studio release declares " +:+ Str.of_int (Z.of_nat (length undecided)) +:+
      " var(s) with no disposition in tenant-studio-env.ts: " +:+ Str.join ", " undecided +:+
      ". Add each one with its reason (provisioned / conditional / default / not-hosted) rather than leaving it unbound."))
  end.

(** ** The storage ceiling *)
Definition STORAGE_QUOTA_VAR : string := "R2_STORAGE_QUOTA_BYTES".
Definition STORAGE_QUOTA_MODE_VAR : string := "R2_STORAGE_QUOTA_MODE".
Inductive StorageQuotaOverride := OverrideSet (bytes : string) | OverrideNone.
Inductive QuotaSource := FromTenant | TenantNone | FromPlane | PlaneUnset.
#[export] Instance QuotaSource_eq_dec : EqDecision QuotaSource.
Proof. solve_decision. Defined.
Record ResolvedStorageQuota := mkResolved { rq_bytes : option string; rq_source : QuotaSource; rq_blocked : option string }.
(** The two columns of a tenant's record. *)
Record StorageQuotaRow := mkQuotaRow { qr_override : option string; qr_bytes : option string }.
Definition quota_row (t : Tenant) : StorageQuotaRow := mkQuotaRow (t_r2_storage_quota_override t) (t_r2_storage_quota_bytes t).

Section quota.
(** [Number(s)] on a text and [String(n)] on a number. *)
Variable number : string → Num.num.
Variable show : Num.num → string.

Definition positive_integer (n : Num.num) : bool := match n with Num.NInt z => 0 <? z | _ => false end.
Definition isPositiveIntegerBytes (value : string) : bool :=
  negb (Str.trim value =s? "") && positive_integer (number (Str.trim value)).

Definition tenantStorageQuotaMode (raw : option string) : option string * option string :=
  match raw with
  | None => (None, None)
  | Some raw =>
      if Str.trim raw =s? "" then (None, None)
      else
        let trimmed := Str.to_lower (Str.trim raw) in
        if negb ((trimmed =s? "deny") || (trimmed =s? "meter")) then (None, Some (Str.trim raw))
        else (if trimmed =s? "meter" then Some "meter" else None, None)
  end.
Definition tenantStorageQuota (bytes mode : option string) : StorageQuotaConfig :=
  let '(m, invalidMode) := tenantStorageQuotaMode mode in
  match bytes with
  | None => mkQuotaConfig None None m invalidMode
  | Some raw =>
      let trimmed := Str.trim raw in
      if trimmed =s? "" then mkQuotaConfig None None m invalidMode
      else if negb (isPositiveIntegerBytes trimmed) then mkQuotaConfig None (Some trimmed) m invalidMode
      else mkQuotaConfig (Some (show (number trimmed))) None m invalidMode
  end.

(** [None] is "no decision of the tenant's own", [Err] a record that cannot be read. *)
Definition tenantStorageQuotaOverride (row : StorageQuotaRow) : result unit (option StorageQuotaOverride) :=
  match qr_override row with
  | None => Ok None
  | Some mode =>
      if mode =s? "" then Ok None
      else if mode =s? "none" then Ok (Some OverrideNone)
      else if mode =s? "set" then
        match qr_bytes row with
        | Some bytes => if isPositiveIntegerBytes bytes then Ok (Some (OverrideSet (show (number (Str.trim bytes))))) else Err tt
        | None => Err tt
        end
      else Err tt
  end.

Definition json_opt (s : option string) : string := match s with Some s => json_string s | None => "null" end.
Definition resolveStorageQuota (plane : StorageQuotaConfig) (row : StorageQuotaRow) : ResolvedStorageQuota :=
  match tenantStorageQuotaOverride row with
  | Err _ => mkResolved None FromTenant (Some ("this tenant's storage-quota record is unreadable (mode=" +:+ json_opt (qr_override row) +:+
      ", bytes=" +:+ json_opt (qr_bytes row) +:+
      "); refusing rather than guessing whether it should be capped, because both guesses are wrong in opposite directions"))
  | Ok (Some OverrideNone) => mkResolved None TenantNone None
  | Ok (Some (OverrideSet bytes)) => mkResolved (Some bytes) FromTenant None
  | Ok None =>
      match sq_invalid plane with
      | Some invalid => mkResolved None FromPlane (Some ("this plane configures TENANT_R2_STORAGE_QUOTA_BYTES=" +:+ Str.dq +:+ invalid +:+ Str.dq +:+
          ", which is not a positive integer number of BYTES. The studio would read that as NO ceiling, so this refuses rather than leaving a tenant uncapped while the deploy config says otherwise. Fix the var (bytes only, no units), or record a per-tenant decision on this tenant, and re-run"))
      | None => mkResolved (sq_bytes plane) (match sq_bytes plane with None => PlaneUnset | Some _ => FromPlane end) None
      end
  end.
End quota.

Definition storageQuotaBindings (bytes mode : option string) : list WorkerBinding :=
  (if opt_set bytes then [BPlainText STORAGE_QUOTA_VAR (default "" bytes)] else []) ++
  (if opt_set mode then [BPlainText STORAGE_QUOTA_MODE_VAR (default "" mode)] else []).
Definition without (names : list string) (bs : list WorkerBinding) : list WorkerBinding :=
  jfilter (λ b, negb (existsb (λ n, binding_name b =s? n) names)) bs.
Definition withStorageQuota (carried : list WorkerBinding) (bytes mode : option string) : list WorkerBinding :=
  without [STORAGE_QUOTA_VAR; STORAGE_QUOTA_MODE_VAR] carried ++ storageQuotaBindings bytes mode.

(** ** The abuse-report page and the declared state of the video-finish tier *)
Definition ABUSE_REPORT_URL_VAR : string := "ABUSE_REPORT_URL".
Definition ABUSE_REPORT_PATH : string := "/report-abuse".
Definition hostedAbuseReportUrl (host : option string) : option string :=
  match host with
  | Some h => if Str.trim h =s? "" then None else Some ("https://" +:+ h +:+ ABUSE_REPORT_PATH)
  | None => None
  end.
Definition abuseReportUrlBindings (url : option string) : list WorkerBinding :=
  if opt_set url then [BPlainText ABUSE_REPORT_URL_VAR (default "" url)] else [].
Definition withAbuseReportUrl (carried : list WorkerBinding) (url : option string) : list WorkerBinding :=
  without [ABUSE_REPORT_URL_VAR] carried ++ abuseReportUrlBindings url.

Definition VIDEO_FINISH_TIER_STATE_VAR : string := "VIDEO_FINISH_TIER_STATE".
Definition VIDEO_FINISH_UNPROVISIONABLE : string := "unprovisionable".
Definition isVideoFinishUnreachable (tenant : Tenant) : bool := t_video_finish_unreachable tenant =? 1.
Definition tier_bindings (unreachable : bool) : list WorkerBinding :=
  if unreachable then [BPlainText VIDEO_FINISH_TIER_STATE_VAR VIDEO_FINISH_UNPROVISIONABLE] else [].
Definition videoFinishTierStateBindings (tenant : Tenant) : list WorkerBinding := tier_bindings (isVideoFinishUnreachable tenant).
(** The caller passes a tenant, or the state it is about to declare. *)
Definition with_tier_state (carried : list WorkerBinding) (unreachable : bool) : list WorkerBinding :=
  without [VIDEO_FINISH_TIER_STATE_VAR] carried ++ tier_bindings unreachable.
Definition withVideoFinishTierState (carried : list WorkerBinding) (tenant : Tenant) : list WorkerBinding :=
  with_tier_state carried (isVideoFinishUnreachable tenant).

(** ** What a projection means for a set of bindings *)
(** The texts a set binds a variable to. *)
Definition bound_to (n : string) (bs : list WorkerBinding) : list WorkerBinding := jfilter (λ b, binding_name b =s? n) bs.

Section projections.
Implicit Types (n : string) (bs : list WorkerBinding).

Lemma bound_to_app n bs1 bs2 : bound_to n (bs1 ++ bs2) = bound_to n bs1 ++ bound_to n bs2.
Proof. apply jfilter_app. Qed.
Lemma bound_without n names bs : bound_to n (without names bs) = if existsb (λ x, n =s? x) names then [] else bound_to n bs.
Proof.
unfold bound_to, without, jfilter. induction bs as [|b bs IH]; [by destruct (existsb _ _)|]. cbn [List.filter].
destruct (existsb (λ x, binding_name b =s? x) names) eqn:Eb; cbn [negb List.filter]; rewrite ?IH; destruct (binding_name b =s? n) eqn:En; try done.
- apply String.eqb_eq in En. subst n. by rewrite Eb.
- apply String.eqb_eq in En. subst n. by rewrite Eb.
Qed.
Lemma bound_text n x v : bound_to n [BPlainText x v] = if x =s? n then [BPlainText x v] else [].
Proof. unfold bound_to, jfilter. cbn [List.filter binding_name]. by destruct (x =s? n). Qed.
Lemma bound_opt n x (v : option string) :
  bound_to n (if opt_set v then [BPlainText x (default "" v)] else []) = if x =s? n then (if opt_set v then [BPlainText x (default "" v)] else []) else [].
Proof. destruct (opt_set v); [apply bound_text|by destruct (x =s? n)]. Qed.
End projections.

Section resolved.
Context (number : string → Num.num) (show : Num.num → string).
Implicit Types (plane : StorageQuotaConfig) (row : StorageQuotaRow).

(** The tenant's own decision, if it recorded one that reads. *)
Definition decided row : option (option string) :=
  match tenantStorageQuotaOverride number show row with
  | Ok (Some (OverrideSet b)) => Some (Some b) | Ok (Some OverrideNone) => Some None | _ => None
  end.

(** A tenant's ceiling is never guessed.  A recorded decision of the tenant's own wins over the
    plane's configuration; a record that cannot be read, and a plane value that is no positive integer,
    block instead of leaving the tenant uncapped; and the projection onto a studio then binds exactly
    the resolved ceiling and the plane's mode, once each, whatever the studio carried before, keeping
    every other variable as it was. *)
Theorem ceiling_is_never_guessed plane row carried n :
  let r := resolveStorageQuota number show plane row in
  let bs := withStorageQuota carried (rq_bytes r) (sq_mode plane) in
  match rq_blocked r with
  | Some _ => rq_bytes r = None ∧ (tenantStorageQuotaOverride number show row = Err tt ∨ (decided row = None ∧ sq_invalid plane ≠ None))
  | None => rq_bytes r = match decided row with Some d => d | None => sq_bytes plane end
  end ∧
  bound_to STORAGE_QUOTA_VAR bs = (if opt_set (rq_bytes r) then [BPlainText STORAGE_QUOTA_VAR (default "" (rq_bytes r))] else []) ∧
  bound_to STORAGE_QUOTA_MODE_VAR bs = (if opt_set (sq_mode plane) then [BPlainText STORAGE_QUOTA_MODE_VAR (default "" (sq_mode plane))] else []) ∧
  (n ≠ STORAGE_QUOTA_VAR ∧ n ≠ STORAGE_QUOTA_MODE_VAR → bound_to n bs = bound_to n carried).
Proof.
cbv zeta. set (r := resolveStorageQuota number show plane row).
split.
{ subst r. unfold resolveStorageQuota, decided. destruct (tenantStorageQuotaOverride number show row) as [[[b|]|]|[]]; cbn; try done; [|by split; [|left]].
  destruct (sq_invalid plane) eqn:E; cbn; [split; [done|right; split; [done|]]|]; done. }
clearbody r. unfold withStorageQuota, storageQuotaBindings. rewrite !bound_to_app, !bound_without, !bound_opt. cbn [existsb].
rewrite !String.eqb_refl. change (STORAGE_QUOTA_VAR =s? STORAGE_QUOTA_MODE_VAR) with false. change (STORAGE_QUOTA_MODE_VAR =s? STORAGE_QUOTA_VAR) with false.
split_and!; [by rewrite app_nil_r|done|]. intros [H1 H2].
assert (∀ x, n ≠ x → (n =s? x) = false ∧ (x =s? n) = false) as Hne by (intros x Hx; split; apply String.eqb_neq; congruence).
destruct (Hne _ H1) as [-> ->], (Hne _ H2) as [-> ->]. by rewrite app_nil_r.
Qed.
End resolved.
