(* ===== verification/TenantTypes.v ===== *)
(** * What every row of a tenant is, in every state (TenantLifecycle, ProvisionJob and the tables of src/store.ts)

    SQLite keeps texts: nothing in the schema says which lifecycles exist, that a suspension has a
    reason, or that the two halves of a lease go together.  The code's types say so, and every reader
    relies on it.  Here the types are predicates on rows, the writers' argument types predicates on
    statements, and every history of typed statements keeps every table typed. *)

From S2P Require Export TenantLeases TenantStudio.
Open Scope string_scope.
Open Scope list_scope.
Open Scope Z_scope.
Open Scope plane_scope.

(** [TenantLifecycle]; the second list is what the code still writes, with [deleted] left to the end of
    a teardown. *)
Definition TenantLifecycle : list string :=
  ["pending"; "provisioning"; "awaiting_go_live"; AWAITING_GO_LIVE_LEGACY; "live"; "failed"; "deleting"; "deleted"].
Definition written_lifecycle : list string := ["pending"; "provisioning"; "awaiting_go_live"; "live"; "failed"; "deleting"].

(** Both present or both absent. *)
Definition together {A B} (a : option A) (b : option B) : Prop := a = None ↔ b = None.

Section types.
Variable number : string → Num.num.
Variable show : Num.num → string.

Record tenant_typed (t : Tenant) : Prop := mkTenantTyped {
  tt_lifecycle : t_status t ∈ TenantLifecycle;
  tt_live : t_status t = "live" → t_live_at t ≠ None;
  tt_deleted : t_status t = "deleted" → t_deleted_at t ≠ None;
  tt_suspended : together (t_suspended_at t) (t_suspended_reason t);
  tt_lease : together (t_reclaim_lease_token t) (t_reclaim_lease_until t);
  tt_teardown : together (t_teardown_at t) (t_teardown_failures t);
  tt_mode : t_runpod_mode t ∈ ["shared"; "dedicated"];
  tt_video_finish : t_video_finish_unreachable t = 0 ∧ t_video_finish_unreachable_reason t = None ∧ t_video_finish_unreachable_at t = None ∨
                    t_video_finish_unreachable t = 1 ∧ t_video_finish_unreachable_reason t ≠ None ∧ t_video_finish_unreachable_at t ≠ None;
  tt_quota : tenantStorageQuotaOverride number show (quota_row t) ≠ Err tt;
}.
Record job_typed (j : ProvisionJob) : Prop := mkJobTyped {
  jt_attempts : 0 <= p_attempts j;
  jt_queued : p_status j = JobQueued → p_attempts j = 0;
  jt_finished : unfinished j = false → p_finished_at j ≠ None ∧ p_lease_until j = None;
}.
Record plane_typed (db : plane_db) : Prop := mkPlaneTyped {
  pt_keys : plane_ok db;
  pt_owner_keys : NoDup ((λ o, (ow_kind o, ow_key o)) <$> pd_owners db) ∧ ∀ o, o ∈ pd_owners db → ow_key o ≠ "";
  pt_accounts : ∀ t, t ∈ pd_tenants db → t_account_id t ∈ pd_accounts db;
  pt_jobs_of : ∀ j, j ∈ pd_jobs db → p_tenant_id j ∈ t_id <$> pd_tenants db;
  pt_tenants : ∀ t, t ∈ pd_tenants db → tenant_typed t;
  pt_jobs : ∀ j, j ∈ pd_jobs db → job_typed j;
}.

(** The types of the arguments: a lifecycle the code writes, a ceiling its route has checked, a tenant
    that is not created live. *)
Definition op_typed (op : store_op) : Prop :=
  match op with
  | OpCreateTenant _ _ _ st => st ∈ written_lifecycle ∧ st ≠ "live"
  | OpSetStatus _ st => st ∈ written_lifecycle
  | OpColumn _ (WQuota (Some (QuotaSet b))) => isPositiveIntegerBytes number b = true
  | _ => True
  end.

Lemma written_is_lifecycle st : st ∈ written_lifecycle → st ∈ TenantLifecycle ∧ st ≠ "deleted".
Proof. intros H. repeat (apply elem_of_cons in H as [->|H]; [by split; [repeat constructor|]|]). by apply elem_of_nil in H. Qed.
Lemma together_both {A B} (a : A) (b : B) : together (Some a) (Some b).
Proof. done. Qed.
Lemma together_none {A B} : together (@None A) (@None B).
Proof. done. Qed.

Ltac same_row := intros [???? ? ????]; split; cbn; try done.
Lemma lease_row_typed now s k t : tenant_typed t → tenant_typed (lease_row now s k t).
Proof. by same_row. Qed.
Lemma blank_row_typed t : tenant_typed t → tenant_typed (blank_row t).
Proof. same_row. repeat constructor. Qed.
Lemma teardown_row_typed now s k t : tenant_typed t → tenant_typed (teardown_row now s k t).
Proof.
same_row; unfold teardown_row; cbn.
- destruct (t_status t =s? "deleted"); repeat constructor.
- by destruct (t_status t =s? "deleted").
- destruct (String.eqb_spec (t_status t) "deleted"); [auto|done].
Qed.
Lemma finished_row_typed now reaped t : tenant_typed t → tenant_typed (finished_row now reaped t).
Proof. destruct reaped; same_row. repeat constructor. Qed.
Lemma status_row_typed now st t : st ∈ written_lifecycle → tenant_typed t → tenant_typed (status_row now st t).
Proof.
intros [Hst Hd]%written_is_lifecycle. same_row.
intros ->. cbn. destruct (t_live_at t); by cbn.
Qed.
Lemma new_tenant_typed now i s a st : st ∈ written_lifecycle → st ≠ "live" → tenant_typed (new_tenant now i s a st).
Proof. intros [Hst Hd]%written_is_lifecycle Hl. split; cbn; try done; try (by left). repeat constructor. Qed.
Lemma resource_typed kind key r t : tenant_typed t → tenant_typed (resource_effect kind key r t).
Proof. destruct kind; by same_row. Qed.
Lemma clear_typed kind t : tenant_typed t → tenant_typed (clear_column kind t).
Proof. destruct kind; by same_row. Qed.
Lemma column_typed now i w t : op_typed (OpColumn i w) → tenant_typed t → tenant_typed (column_effect now w t).
Proof.
destruct w as [| m | | | | old new | | mark | q |]; intros Hop; try (by same_row).
- destruct m; same_row; repeat constructor.
- cbn. by destruct (bool_decide _); [same_row|].
- destruct mark; same_row; [by right|by left].
- destruct q as [[b|]|]; same_row. unfold tenantStorageQuotaOverride. cbn. cbn in Hop. by rewrite Hop.
Qed.

Lemma row_effect_typed now op db t : op_typed op → tenant_typed t → tenant_typed (row_effect now op db t).
Proof.
intros Hop Ht. destruct op; cbn; try done; (match goal with |- tenant_typed (if ?b then _ else _) => destruct b; [|done] end);
  eauto using lease_row_typed, blank_row_typed, teardown_row_typed, finished_row_typed, status_row_typed, resource_typed, clear_typed, column_typed.
- by destruct Ht; split.
- by destruct Ht; split.
Qed.
Lemma job_effect_typed now op j : job_typed j → job_typed (job_effect now op j).
Proof.
intros [Ha Hq Hf]. assert (job_typed j) as Hj by done.
destruct op; cbn; try done; destruct (_ && _) eqn:E; try done; split; cbn; try done; try lia; unfold unfinished in *; cbn; bool_hyps; try congruence;
  try (by destruct succeeded); intros Hu; unfold unfinished in Hu; cbn in Hu; unfold unfinished in *; congruence.
Qed.

(** ** The tables *)
Definition owners_typed (l : list Ownership) : Prop := NoDup ((λ o, (ow_kind o, ow_key o)) <$> l) ∧ ∀ o, o ∈ l → ow_key o ≠ "".
Lemma owns_spec kind key o : owns kind key o = true ↔ (ow_kind o, ow_key o) = (kind, key).
Proof.
unfold owns. rewrite andb_true_iff, bool_decide_eq_true, String.eqb_eq. split; [by intros [-> ->]|by intros [= -> ->]].
Qed.
Lemma upsert_typed now kind key i db : key ≠ "" → owners_typed (pd_owners db) → owners_typed (pd_owners (upsert_owner now kind key i db).2).
Proof.
intros Hk [Hn Ht]. unfold upsert_owner, modify, with_owners. cbn. destruct (existsb _ _) eqn:E.
- split.
  + replace ((λ o, (ow_kind o, ow_key o)) <$> update_where _ _ (pd_owners db)) with ((λ o, (ow_kind o, ow_key o)) <$> pd_owners db); [done|].
    unfold update_where. rewrite <- list_fmap_compose. apply list_fmap_ext. intros _ o _. cbn. destruct (owns kind key o) eqn:Ho; [|done].
    by apply owns_spec in Ho.
  + intros o (o' & Ho & ->)%elem_of_update_where. destruct (owns kind key o'); [done|auto].
- rewrite existsb_false_iff in E. split.
  + apply NoDup_fmap_snoc; [done|]. intros (o & Ho & Hin)%list_elem_of_fmap. specialize (E o Hin). cbn in Ho. symmetry in Ho.
    apply owns_spec in Ho. congruence.
  + intros o [Ho| ->%list_elem_of_singleton]%elem_of_app; auto.
Qed.
Lemma claim_typed now kind key i db : owners_typed (pd_owners db) → owners_typed (pd_owners (claimResourceOwnership now kind key i db).2).
Proof.
intros H. unfold claimResourceOwnership. destruct (String.eqb_spec key ""); [done|]. unfold gets, mbind, M_bind. cbn.
destruct (getResourceOwner kind key db) as [p|]; [|by apply upsert_typed]. destruct (_ && _); [|by apply upsert_typed].
destruct (getTenantById p db) as [r|]; [|by apply upsert_typed]. destruct (negb (gone r)); [done|by apply upsert_typed].
Qed.
Lemma exec_owners_typed now op db : owners_typed (pd_owners db) → owners_typed (pd_owners (exec_store now op db)).
Proof.
intros H. destruct op as [| | | |i s a st| | | |kind i key r|i kind|i w| | | | | | |]; cbn [exec_store]; try exact H.
- unfold exec, createTenant. by repeat case_match.
- destruct kind; by apply claim_typed.
- unfold exec, clearTenantResource, gets, mbind, M_bind. cbn.
  destruct (match getTenantById i db with Some t => column_of kind t | None => None end) as [k|]; [|exact H].
  destruct (Str.truthy k); [|exact H]. destruct H as [Hn Ht]. cbn. split; [by apply jfilter_NoDup_fmap|]. intros o [Ho _]%elem_of_jfilter. auto.
- destruct w; exact H.
- unfold exec, insert_job. by repeat case_match.
Qed.
Lemma exec_accounts now op db : pd_accounts (exec_store now op db) = pd_accounts db.
Proof.
destruct op as [| | | |i s a st| | | |kind i key r|i kind|i w| | | | | | |]; cbn [exec_store]; try done.
- unfold exec, createTenant. by repeat case_match.
- apply set_resource_rest.
- apply clear_resource_rest.
- by destruct w.
- unfold exec, insert_job. by repeat case_match.
Qed.

Lemma exec_typed now op db : op_typed op → plane_typed db → plane_typed (exec_store now op db).
Proof.
intros Hop [Hk Ho Ha Hf Ht Hj].
assert (∀ x, x ∈ t_id <$> pd_tenants db → x ∈ t_id <$> pd_tenants (exec_store now op db)) as Hids.
{ intros x Hx. rewrite exec_tenants, fmap_app, elem_of_app. left. by rewrite (row_effect_column t_id) by (intros t; apply row_effect_id). }
split.
- by apply exec_ok.
- by apply exec_owners_typed.
- intros t. rewrite exec_accounts, exec_tenants. intros [(u & -> & Hu)%list_elem_of_fmap|Hn]%elem_of_app.
  + destruct (row_effect_id now db op u) as (_ & _ & -> & _). auto.
  + unfold created_rows in Hn. destruct op; try by apply elem_of_nil in Hn.
    destruct (existsb (String.eqb account) (pd_accounts db)) eqn:E; [|rewrite orb_true_r in Hn; by apply elem_of_nil in Hn].
    destruct (_ || _); [by apply elem_of_nil in Hn|]. apply list_elem_of_singleton in Hn as ->. cbn.
    apply existsb_true_iff in E as (x & Hx & Heq). bool_hyps. congruence.
- intros j. rewrite exec_jobs. intros [(i & -> & Hi)%list_elem_of_fmap|Hn]%elem_of_app.
  + destruct (job_effect_id now op i) as (_ & -> & _). auto.
  + unfold created_jobs in Hn. destruct op; try by apply elem_of_nil in Hn. destruct (existsb (has_id tenant) (pd_tenants db)) eqn:E;
      [|rewrite orb_true_r in Hn; by apply elem_of_nil in Hn]. destruct (_ || _); [by apply elem_of_nil in Hn|].
    apply list_elem_of_singleton in Hn as ->. apply Hids. cbn. apply existsb_true_iff in E as (x & Hx & Heq). unfold has_id in Heq. bool_hyps.
    apply list_elem_of_fmap. by exists x.
- intros t. rewrite exec_tenants. intros [(u & -> & Hu)%list_elem_of_fmap|Hn]%elem_of_app; [by apply row_effect_typed; auto|].
  unfold created_rows in Hn. destruct op; try by apply elem_of_nil in Hn. destruct (_ || _); [by apply elem_of_nil in Hn|].
  apply list_elem_of_singleton in Hn as ->. destruct Hop. by apply new_tenant_typed.
- intros j. rewrite exec_jobs. intros [(i & -> & Hi)%list_elem_of_fmap|Hn]%elem_of_app; [by apply job_effect_typed; auto|].
  unfold created_jobs in Hn. destruct op; try by apply elem_of_nil in Hn. destruct (_ || _); [by apply elem_of_nil in Hn|].
  apply list_elem_of_singleton in Hn as ->. by split.
Qed.

(** C37. The tables stay typed.  Whatever requests, jobs and teardowns do, in any order and at any instants:
    keys stay unique, every tenant's account and every job's tenant exist, and every row is what the
    code's types say: a lifecycle that exists, a live tenant with the day it went live and a deleted one
    with the day it was deleted, a suspension with its reason, both halves of a lease, a tier that is one
    of the two, a storage ceiling that reads back, a finished job with its day and without a lease. *)
Theorem tables_stay_typed (h : history) db :
  Forall (λ e, op_typed e.2) h → plane_typed db → plane_typed (replay h db).
Proof.
intros Hh. revert db. induction Hh as [|[now op] h Hop _ IH]; intros db Hdb; [done|]. cbn. by apply IH, exec_typed.
Qed.

(** What is read from a typed table is a value of its type: the projection of a tenant never shows the
    old name of a lifecycle, and a suspended one always says why. *)
Theorem typed_rows_read_back db t suffix : plane_typed db → t ∈ pd_tenants db →
  let v := tenantView t suffix in
  tv_lifecycle v ∈ TenantLifecycle ∧ tv_lifecycle v ≠ AWAITING_GO_LIVE_LEGACY ∧ (tv_status v = "suspended" → tv_suspended_reason v ≠ None) ∧
  rq_blocked (resolveStorageQuota number show (mkQuotaConfig None None None None) (quota_row t)) = None.
Proof.
intros Hdb Hin. destruct (pt_tenants _ Hdb t Hin) as [Hl ?? Hs ???? Hq]. cbv zeta. unfold tenantView. cbn.
assert (normalizeLifecycle (t_status t) ∈ TenantLifecycle ∧ normalizeLifecycle (t_status t) ≠ AWAITING_GO_LIVE_LEGACY ∧ normalizeLifecycle (t_status t) ≠ "suspended") as (H1 & H2 & H3).
{ repeat (apply elem_of_cons in Hl as [->|Hl]; [by split_and!; [repeat constructor| |]|]). by apply elem_of_nil in Hl. }
split_and!; [done|done| |].
- unfold is_suspended. destruct (t_suspended_at t) eqn:E; [|done]. intros _ Hn. apply Hs in Hn. congruence.
- unfold resolveStorageQuota. destruct (tenantStorageQuotaOverride _ _ _) as [[[b|]|]|[]]; done.
Qed.
End types.
