(* ===== verification/R2Empty.v ===== *)
(** * Emptying a bucket within a budget (src/r2-empty.ts)

    The keys of an S3 listing are read out of its XML, deleted in one request a page, and listed again,
    until a listing shows nothing or the budget is spent.  Signing a request is left to [XS3], which
    carries the credential; the clock only dates the signature there. *)

From S2P Require Export Trace Http.
From Stdlib Require Import Ascii.
Open Scope string_scope.
Open Scope list_scope.
Open Scope Z_scope.
Open Scope plane_scope.

(** ** Texts between marks *)
(** [s.replaceAll(mark, by)], for a mark that is not empty. *)
Fixpoint replace_text (fuel : nat) (mark by_ s : string) : string :=
  match fuel with
  | O => s
  | S fuel => match cut mark s with Some (before, after) => before +:+ by_ +:+ replace_text fuel mark by_ after | None => s end
  end.
Definition replaceAll (mark by_ s : string) : string := replace_text (String.length s) mark by_ s.

(** The bodies of every [<tag>...</tag>], each ended by the nearest closing mark. *)
Fixpoint bodies (fuel : nat) (tag s : string) : list string :=
  match fuel with
  | O => []
  | S fuel =>
      match cut ("<" +:+ tag +:+ ">") s with
      | None => []
      | Some (_, rest) =>
          match cut ("</" +:+ tag +:+ ">") rest with
          | None => []
          | Some (body, rest) => body :: bodies fuel tag rest
          end
      end
  end.
Definition blocks (tag s : string) : list string := bodies (String.length s) tag s.

Definition quote : string := Str.dq.
Definition xmlEscape (s : string) : string :=
  replaceAll "'" "&apos;" (replaceAll quote "&quot;" (replaceAll ">" "&gt;" (replaceAll "<" "&lt;" (replaceAll "&" "&amp;" s)))).
Definition xmlUnescape (s : string) : string :=
  replaceAll "&amp;" "&" (replaceAll "&#39;" "'" (replaceAll "&apos;" "'" (replaceAll "&quot;" quote (replaceAll "&gt;" ">" (replaceAll "&lt;" "<" s))))).
Definition extractAll (xml tag : string) : list string := xmlUnescape <$> blocks tag xml.
Definition extractOne (xml tag : string) : option string := xmlUnescape <$> head (blocks tag xml).
Definition contentsKeys (xml : string) : list string := concat ((λ b, extractAll b "Key") <$> blocks "Contents" xml).

(** ** The cycle *)
Record EmptyBucketResult := mkEmptied { eb_emptied : bool; eb_deleted : nat; eb_more : bool; eb_stalled : option string }.
Record EmptyBucketOptions := mkEmptyOpts {
  eo_endpoint : string; eo_bucket : string; eo_credential : MintedCredential; eo_budgetMs : Z; eo_propagationMs : Z;
}.
Definition PROPAGATION_MS : Z := 30000.
Definition PROPAGATION_SLEEP_MS : Z := 1500.

Section emptying.
Variable ask : world.
Variable opts : EmptyBucketOptions.

Definition bucket_url : string := eo_endpoint opts +:+ "/" +:+ eo_bucket opts.
Definition listUrl (token : option string) : string :=
  bucket_url +:+ "?list-type=2&max-keys=1000" +:+
  match token with Some t => if Str.truthy t then "&continuation-token=" +:+ encodeURIComponent t else "" | None => "" end.
Definition signedFetch (method url : string) (body : option string) : M trace exn (Z * string) :=
  perform ask (XS3 (eo_credential opts) method url body).
Definition stopped (deleted : nat) (why : string) : EmptyBucketResult := mkEmptied false deleted true (Some why).

(** Waiting for the credential: the first listing it can read. *)
Fixpoint await_listing (fuel : nat) (propDeadline : Z) : M trace exn (EmptyBucketResult + string) :=
  match fuel with
  | O => throw (error "out of fuel")
  | S fuel =>
      '(status, text) ← signedFetch "GET" (listUrl None) None;
      if status =? 200 then mret (inr text)
      else if negb (status =? 401) && negb (status =? 403) then mret (inl (stopped 0 ("list failed HTTP " +:+ Str.of_int status)))
      else
        at_ ← perform ask KNow;
        if propDeadline <=? at_ then
          mret (inl (stopped 0 ("credential never became usable within " +:+ Str.of_int (eo_propagationMs opts) +:+ "ms")))
        else
          _ ← perform ask (KSleep PROPAGATION_SLEEP_MS);
          await_listing fuel propDeadline
  end.

Definition delete_body (keys : list string) : string :=
  "<?xml version=" +:+ quote +:+ "1.0" +:+ quote +:+ " encoding=" +:+ quote +:+ "UTF-8" +:+ quote +:+ "?><Delete><Quiet>true</Quiet>" +:+
  Str.join "" ((λ k, "<Object><Key>" +:+ xmlEscape k +:+ "</Key></Object>") <$> keys) +:+ "</Delete>".

(** One page: its keys deleted, or why the cycle stops; [inl] with the answer, [inr] the keys deleted so far. *)
Definition delete_page (deleted : nat) (keys : list string) : M trace exn (EmptyBucketResult + nat) :=
  '(status, text) ← signedFetch "POST" (bucket_url +:+ "?delete=") (Some (delete_body keys));
  if negb (status =? 200) then mret (inl (stopped deleted ("DeleteObjects HTTP " +:+ Str.of_int status +:+ ": " +:+ Str.take 200 text)))
  else
    let errors := extractAll text "Code" in
    if (0 <? length errors)%nat
    then mret (inl (stopped deleted ("DeleteObjects reported " +:+ Str.of_int (Z.of_nat (length errors)) +:+ " key error(s)")))
    else mret (inr (deleted + length keys)%nat).

Fixpoint work (fuel : nat) (workDeadline : Z) (deleted : nat) (xml : string) : M trace exn EmptyBucketResult :=
  match fuel with
  | O => throw (error "out of fuel")
  | S fuel =>
      let keys := contentsKeys xml in
      let truncated := bool_decide (extractOne xml "IsTruncated" = Some "true") in
      let nextToken := extractOne xml "NextContinuationToken" in
      let has_next := match nextToken with Some t => Str.truthy t | None => false end in
      if (length keys =? 0)%nat && (negb truncated || negb has_next) then mret (mkEmptied true deleted false None)
      else
        page ← (if (length keys =? 0)%nat then mret (inr deleted) else delete_page deleted keys);
        match page with
        | inl stop => mret stop
        | inr deleted =>
            at_ ← perform ask KNow;
            if workDeadline <=? at_ then
              mret (mkEmptied false deleted true (if (deleted =? 0)%nat then Some "budget exhausted with zero net progress" else None))
            else
              '(status, text) ← signedFetch "GET" (listUrl nextToken) None;
              if negb (status =? 200) then mret (stopped deleted ("list failed HTTP " +:+ Str.of_int status))
              else work fuel workDeadline deleted text
        end
  end.

Definition AWAIT_FUEL : nat := 24.
Definition emptyBucketBounded (fuel : nat) : M trace exn EmptyBucketResult :=
  started ← perform ask KNow;
  first ← await_listing AWAIT_FUEL (started + eo_propagationMs opts);
  match first with
  | inl stop => mret stop
  | inr xml =>
      begun ← perform ask KNow;
      work fuel (begun + eo_budgetMs opts) 0 xml
  end.
End emptying.

(** ** What a cycle asks, and what [emptied] means *)
Section guarantee.
Context (ask : world) (opts : EmptyBucketOptions).

(** A page of the bucket this credential was shown. *)
Definition listed (text : string) (tr : trace) : Prop :=
  ∃ token, answered (XS3 (eo_credential opts) "GET" (listUrl opts token) None) (Ok (200, text)) tr.
#[export] Instance stable_listed text : Stable (listed text).
Proof. apply _. Qed.
(** A page with no keys on it that announces no further page. *)
Definition last_and_empty (xml : string) : Prop :=
  contentsKeys xml = [] ∧ (extractOne xml "IsTruncated" ≠ Some "true" ∨ ∀ t, extractOne xml "NextContinuationToken" = Some t → Str.truthy t = false).
Definition shown_empty (tr : trace) : Prop := ∃ xml, listed xml tr ∧ last_and_empty xml.

Definition empty_calls (tr : trace) (c : call) : Prop :=
  match c with
  | KNow | KSleep _ => True
  | XS3 cred method url body => cred = eo_credential opts ∧
      ((method = "GET" ∧ body = None ∧ ∃ token, url = listUrl opts token) ∨
       (method = "POST" ∧ url = bucket_url opts +:+ "?delete=" ∧
          ∃ xml, listed xml tr ∧ contentsKeys xml ≠ [] ∧ body = Some (delete_body (contentsKeys xml))))
  | _ => False
  end.

(** The cycle under any policy that lets it list and delete; a client of the cycle uses this. *)
Section client.
Context (allowed : trace → call → Prop) (P : trace → Prop) `{!Stable P}.
Hypothesis lets : ∀ tr c, P tr → empty_calls tr c → allowed tr c.

Lemma list_safe (Q : trace → Prop) token : (∀ tr, Q tr → P tr) →
  safe allowed Q (signedFetch ask opts "GET" (listUrl opts token) None) (λ r tr, r.1 = 200 → listed r.2 tr).
Proof.
intros HQ. unfold signedFetch. eapply safe_weaken; [eapply (safe_perform _ _ Q)|done|].
- intros tr Htr. apply lets; [by apply HQ|]. split; [done|]. left. split_and!; [done|done|by exists token].
- intros [status text] tr _ Ha E. cbn in E. subst status. by exists token.
Qed.

Lemma await_listing_safe fuel deadline :
  safe allowed P (await_listing ask opts fuel deadline) (λ r tr, match r with inl stop => eb_emptied stop = false | inr xml => listed xml tr end).
Proof using All.
induction fuel as [|fuel IH]; cbn [await_listing]; [apply safe_throw|].
eapply safe_bind; [done|by apply list_safe|]. intros [status text]. destruct (status =? 200) eqn:Hs.
{ apply Z.eqb_eq in Hs. apply safe_ret. intros tr [_ H]. by apply H. }
destruct (_ && _); [by apply safe_ret|]. apply safe_then; [apply _| |].
{ eapply (safe_do _ _ _ KNow). intros tr [H _]. by apply lets. }
intros at_. destruct (deadline <=? at_); [by apply safe_ret|]. apply safe_then; [apply _| |].
{ eapply (safe_do _ _ _ (KSleep _)). intros tr [H _]. by apply lets. }
intros []. eapply safe_weaken; [exact IH|by intros tr [? _]|done].
Qed.

Lemma delete_page_safe deleted xml : contentsKeys xml ≠ [] →
  safe allowed (λ tr, P tr ∧ listed xml tr) (delete_page ask opts deleted (contentsKeys xml))
    (λ r _, match r with inl stop => eb_emptied stop = false | inr _ => True end).
Proof using All.
intros Hne. unfold delete_page, signedFetch. apply safe_then; [apply _| |].
{ eapply (safe_do _ _ _ (XS3 _ _ _ _)). intros tr [HP Hl]. apply lets; [done|]. split; [done|]. right. split_and!; [done|done|by exists xml]. }
intros [status text]. destruct (negb (status =? 200)); [by apply safe_ret|]. destruct (0 <? _)%nat; by apply safe_ret.
Qed.

Lemma work_safe fuel deadline deleted xml :
  safe allowed (λ tr, P tr ∧ listed xml tr) (work ask opts fuel deadline deleted xml) (λ r tr, eb_emptied r = true → shown_empty tr).
Proof using All.
revert deleted xml. induction fuel as [|fuel IH]; intros deleted xml; cbn [work]; [apply safe_throw|].
destruct (_ && _) eqn:Hdone.
{ apply safe_ret. intros tr [_ Hl] _. exists xml. split; [done|]. apply andb_true_iff in Hdone as [Hk Hm]. split.
  - by apply length_zero_iff_nil, Nat.eqb_eq.
  - apply orb_true_iff in Hm as [Hm|Hm]; apply negb_true_iff in Hm; [left; by apply bool_decide_eq_false in Hm|right].
    intros t Ht. by rewrite Ht in Hm. }
eapply safe_bind; [apply _| |].
{ instantiate (1 := λ r _, match r with inl stop => eb_emptied stop = false | inr _ => True end). destruct (length _ =? 0)%nat eqn:Hk; [by apply safe_ret|].
  apply delete_page_safe. intros E. by rewrite E in Hk. }
intros [stop|d]; [apply safe_ret; intros tr [_ H]; by rewrite H|]. apply safe_then; [apply _| |].
{ eapply (safe_do _ _ _ KNow). intros tr [[H _] _]. by apply lets. }
intros at_. destruct (deadline <=? at_); [by apply safe_ret|].
eapply safe_bind; [apply _|apply list_safe; by intros tr [[H _] _]|]. intros [status text].
destruct (negb (status =? 200)) eqn:Hs; [by apply safe_ret|]. apply negb_false_iff, Z.eqb_eq in Hs.
eapply safe_weaken; [apply IH| |done]. intros tr [[[HP _] _] H]. split; [done|by apply H].
Qed.

Lemma emptying_safe fuel : safe allowed P (emptyBucketBounded ask opts fuel) (λ r tr, eb_emptied r = true → shown_empty tr).
Proof using All.
unfold emptyBucketBounded. apply safe_then; [done|eapply (safe_do _ _ _ KNow); intros tr H; by apply lets|]. intros started.
eapply safe_bind; [done|apply await_listing_safe|]. intros [stop|xml]; [apply safe_ret; intros tr [_ H]; by rewrite H|].
apply safe_then; [apply _|eapply (safe_do _ _ _ KNow); intros tr [H _]; by apply lets|]. intros begun. apply work_safe.
Qed.
End client.

(** Emptying a bucket deletes what it has just listed and nothing else.  Whatever the bucket
    answers, every request carries the cycle's own credential and goes to this bucket; a deletion names
    exactly the keys of a page the bucket reported; and the cycle says [emptied] only when the bucket
    showed a page without keys and without a next page. *)
Theorem emptying_deletes_only_what_it_lists fuel :
  let '(r, tr) := emptyBucketBounded ask opts fuel [] in
  obeys empty_calls tr ∧ match r with Ok e => eb_emptied e = true → shown_empty tr | Err _ => True end.
Proof.
assert (safe empty_calls (λ _, True) (emptyBucketBounded ask opts fuel) (λ r tr, eb_emptied r = true → shown_empty tr)) as H
  by (apply emptying_safe; [apply _|done]).
destruct (H [] (obeys_nil _) I) as (_ & Ho & Hr). by destruct (emptyBucketBounded ask opts fuel []) as [[e|e] tr].
Qed.
End guarantee.

(** ** The kinds of calls of a cycle *)
Definition empty_kind (c : call) : bool := match c with KNow | KSleep _ | XS3 _ _ _ _ => true | _ => false end.
Lemma emptying_only ask opts fuel : only empty_kind (emptyBucketBounded ask opts fuel).
Proof.
assert (∀ n d, only empty_kind (await_listing ask opts n d)) as Hawait by (induction n; intros; cbn [await_listing]; unfold signedFetch; walk_only; auto).
assert (∀ n d k xml, only empty_kind (work ask opts n d k xml)) as Hwork
  by (induction n; intros; cbn [work]; unfold delete_page, signedFetch; walk_only; auto).
unfold emptyBucketBounded. walk_only; [apply Hawait|apply Hwork].
Qed.
