(* ===== verification/Teardown.v ===== *)
(** * Tearing a tenant down (src/provisioner.ts, [teardownTenant])

    Refused outright under a preservation hold; then the worker, the modules, the credentials and, when
    asked, the database and the bucket, each only past the guard against other rows that still point at
    it.  Failures are collected, never thrown. *)

From S2P Require Export TenantModules R2Empty.
Open Scope string_scope.
Open Scope list_scope.
Open Scope Z_scope.
Open Scope plane_scope.

(** ** Names *)
Definition tenantD1Name (slug : string) : string := "vivijure-tenant-" +:+ slug.
Definition tenantBucketName (slug : string) : string := "vivijure-tenant-" +:+ slug.
Definition tenantR2TokenName (slug : string) : string := "vivijure-tenant-" +:+ slug +:+ "-r2".
Definition tenantAigTokenName (slug : string) : string := "vivijure-tenant-" +:+ slug +:+ "-aig".
Definition tenantStudioAigTokenName (slug : string) : string := "vivijure-tenant-" +:+ slug +:+ "-aig-studio".
Definition tenantR2TeardownTokenName (slug : string) : string := "vivijure-tenant-" +:+ slug +:+ "-teardown".
Definition TEARDOWN_EMPTY_BUDGET_MS : Z := 15000.

Record TeardownOpts := mkTeardownOpts { to_deleteData : bool; to_ignoreTombstoneReferrers : bool }.
Record TeardownOutcome := mkOutcome { td_ok : bool; td_failures : list failure; td_absent : list failure }.

(** The two lists a teardown collects. *)
Record Collected := mkCollected { co_failures : list failure; co_absent : list failure }.
Definition add_failure (resource message : string) (c : Collected) : Collected := mkCollected (co_failures c ++ [(resource, message)]) (co_absent c).
Definition add_absent (resource message : string) (c : Collected) : Collected := mkCollected (co_failures c) (co_absent c ++ [(resource, message)]).

Definition kind_text (k : TenantResourceKind) : string :=
  match k with ResD1 => "d1" | ResBucket => "r2_bucket" | ResToken => "r2_token" | ResWorker => "worker" end.

Section teardown.
Variable ask : world.
Variable digest : string → list Ascii.ascii.
Variable deps : ProvisionDeps.
Variable tenant : Tenant.
Variable opts : TeardownOpts.
(** How many pages one emptying cycle may see. *)
Variable pages : nat.

Definition recordTeardownSafely (failures : list failure) : M trace exn unit :=
  _ ← attempt (perform ask (SRecordTeardown (t_id tenant) failures)); mret tt.

Definition hold_text (h : PreservationHold) : string :=
  ph_id h +:+ " (" +:+ ph_kind h +:+ ", " +:+
  match ph_expires_at h with Some e => if Str.truthy e then "preserve-until " +:+ e else "no clock set" | None => "no clock set" end +:+
  ", opened " +:+ ph_opened_at h +:+ " by " +:+ ph_opened_by h +:+ ": " +:+ ph_reason h +:+ ")".
Definition held_message (held : list PreservationHold) : string :=
  "refused: " +:+ Str.of_int (Z.of_nat (length held)) +:+
  " open preservation hold(s) on this tenant, teardown is NEVER permitted while one is open -- suspend instead, and release the hold explicitly if the duty is genuinely over: " +:+
  Str.join "; " (hold_text <$> held).

(** A pass that touched nothing. *)
Definition refused_pass (resource message : string) : M trace exn TeardownOutcome :=
  _ ← recordTeardownSafely [(resource, message)]; mret (mkOutcome false [(resource, message)] []).

Definition refs : TenantResourceRefs :=
  mkRefs (t_d1_database_id tenant) (t_r2_bucket_name tenant) (t_r2_token_id tenant) (t_script_name tenant).
Definition is_kind (a b : TenantResourceKind) : bool := bool_decide (a = b).

Definition referrer_text (h : ResourceReferrer) : string := rf_tenant_id h +:+ " (" +:+ rf_slug h +:+ ", status=" +:+ rf_status h +:+ ")".
Definition refusal_message (resource : TenantResourceKind) (hits : list ResourceReferrer) (live : bool)
    (recordedOwner : option string) (lookupFailed : bool) : string :=
  "refused: " +:+ kind_text resource +:+ " is still referenced by " +:+ Str.of_int (Z.of_nat (length hits)) +:+ " other tenant row(s): " +:+
  Str.join ", " (referrer_text <$> hits) +:+
  (if live then " -- AT LEAST ONE IS NOT DELETED, this resource is in use"
   else if opt_set recordedOwner && negb (bool_decide (recordedOwner = Some (t_id tenant)))
   then " -- recorded owner is " +:+ default "" recordedOwner +:+ ", not this tenant (i_own cannot override a recorded owner)"
   else if lookupFailed
   then " -- all referrers are tombstones, but the ownership lookup FAILED, so whether this tenant owns the resource is UNKNOWN. i_own is refused on an unknown, not on a legacy row. Retry once the store is reachable (cp#106)"
   else " -- all referrers are tombstones and NO owner is recorded (legacy); re-run with i_own: " +:+ Str.dq +:+ t_id tenant +:+ Str.dq +:+
        " after verifying ownership, or re-provision to record ownership (cp#106)").

(** Whether the guard stops the deletion of [resource]. *)
Definition guarded (referrers : list ResourceReferrer) (resource : TenantResourceKind) (c : Collected) : M trace exn (bool * Collected) :=
  match jfilter (λ r, is_kind resource (rf_resource r)) referrers with
  | [] => mret (false, c)
  | hits =>
      let live := existsb (λ h, negb (rf_status h =s? "deleted")) hits in
      '(recordedOwner, lookupFailed) ←
        match ref_of resource refs with
        | Some key =>
            if Str.truthy key then
              owner ← attempt (perform ask (SGetResourceOwner resource key));
              mret match owner with inr o => (o, false) | inl _ => (None, true) end
            else mret (None, false)
        | None => mret (None, false)
        end;
      if bool_decide (recordedOwner = Some (t_id tenant)) && negb live then mret (false, c)
      else if negb live && negb (opt_set recordedOwner) && negb lookupFailed && to_ignoreTombstoneReferrers opts then mret (false, c)
      else mret (true, add_failure (kind_text resource) (refusal_message resource hits live recordedOwner lookupFailed) c)
  end.

Definition clearColumn (resource : string) (clears : TenantResourceKind) (c : Collected) : M trace exn Collected :=
  cleared ← attempt (perform ask (SClearTenantResource (t_id tenant) clears));
  mret (match cleared with inr _ => c | inl e => add_failure (resource +:+ "_record") (exn_text e) c end).
Definition clear_if (resource : string) (clears : option TenantResourceKind) (c : Collected) : M trace exn Collected :=
  match clears with Some k => clearColumn resource k c | None => mret c end.

(** One deletion, tried: what it does to the collected lists and how it ended. *)
Definition leg : Type := Collected → M trace exn (Collected * option exn).
Definition plain_leg {A} (m : M trace exn A) : leg := λ c,
  r ← attempt m; mret (c, match r with inr _ => None | inl e => Some e end).
Definition tried (resource : string) (fn : leg) (clears : option TenantResourceKind) (absentWhen : exn → bool) (c : Collected) : M trace exn Collected :=
  '(c, failed) ← fn c;
  match failed with
  | None => clear_if resource clears c
  | Some e =>
      if absentWhen e then clear_if resource clears (add_absent resource (exn_text e) c)
      else mret (add_failure resource (exn_text e) c)
  end.
Definition never_absent (e : exn) : bool := false.

(** Mint, empty and delete, revoke: the credential lives within the cycle. *)
Definition not_emptied (r : EmptyBucketResult) : exn :=
  error ("bucket not emptied this cycle (deleted " +:+ Str.of_int (Z.of_nat (eb_deleted r)) +:+ " object(s)" +:+
    match eb_stalled r with Some s => if Str.truthy s then ", stalled: " +:+ s else "" | None => "" end +:+ "); re-run teardown to continue").
Definition empty_and_delete (bucket : string) (cred : MintedCredential) : M trace exn unit :=
  result ← emptyBucketBounded ask (mkEmptyOpts (dp_r2Endpoint deps) bucket (mkMinted (mc_id cred) (sha256Hex digest (mc_value cred)))
             TEARDOWN_EMPTY_BUDGET_MS PROPAGATION_MS) pages;
  if negb (eb_emptied result) then throw (not_emptied result) else perform ask (CDeleteR2Bucket bucket).
(** The [finally]: a credential that could not be revoked is a failure of its own. *)
Definition revoke_credential (cred : MintedCredential) (c : Collected) : M trace exn Collected :=
  revoked ← attempt (perform ask (TRevoke (mc_id cred)));
  mret match revoked with
       | inr _ => c
       | inl e => add_failure "r2_empty_credential"
           ("teardown credential " +:+ mc_id cred +:+ " could NOT be revoked, revoke it by hand: " +:+ exn_text e) c
       end.
Definition emptyThenDeleteBucket (bucket : string) : leg := λ c,
  minted ← attempt (perform ask (TMintBucketToken (tenantR2TeardownTokenName (t_slug tenant)) bucket));
  match minted with
  | inl e => mret (c, Some e)
  | inr cred =>
      worked ← attempt (empty_and_delete bucket cred);
      c ← revoke_credential cred c;
      mret (c, match worked with inr _ => None | inl e => Some e end)
  end.

(** ** The legs *)
Definition script_to_delete : string := default (tenantScriptName (t_slug tenant)) (t_script_name tenant).
Definition worker_leg (referrers : list ResourceReferrer) (c : Collected) : M trace exn Collected :=
  '(stop, c) ← guarded referrers ResWorker c;
  if stop : bool then mret c
  else tried "worker" (plain_leg (perform ask (CDeleteUserWorker (dp_namespace deps) script_to_delete))) (Some ResWorker) isScriptAbsent c.

Definition modules_leg (c : Collected) : M trace exn Collected :=
  '(failures, absent) ← teardownTenantModules ask (dp_moduleNamespace deps) (t_id tenant);
  mret (mkCollected (co_failures c ++ failures) (co_absent c ++ absent)).

(** Revoking the stored token by id; whether that succeeded. *)
Definition revoke_by_id (token : string) (c : Collected) : M trace exn (bool * Collected) :=
  revoked ← attempt (perform ask (TRevoke token));
  match revoked with
  | inl e => mret (false, add_failure "r2_token" (exn_text e) c)
  | inr _ => c ← clearColumn "r2_token" ResToken c; mret (true, c)
  end.
Definition token_legs (referrers : list ResourceReferrer) (c : Collected) : M trace exn Collected :=
  '(stop, c) ← guarded referrers ResToken c;
  if stop : bool then mret c
  else
    '(revokedById, c) ←
      match t_r2_token_id tenant with
      | Some token => if Str.truthy token then revoke_by_id token c else mret (false, c)
      | None => mret (false, c)
      end;
    c ← (if revokedById : bool then mret c
         else tried "r2_token_by_name" (plain_leg (perform ask (TRevokeByName (tenantR2TokenName (t_slug tenant))))) None never_absent c);
    c ← tried "aig_token_by_name" (plain_leg (perform ask (TRevokeByName (tenantAigTokenName (t_slug tenant))))) None never_absent c;
    tried "aig_studio_token_by_name" (plain_leg (perform ask (TRevokeByName (tenantStudioAigTokenName (t_slug tenant))))) None never_absent c.

Definition short_harvest : exn :=
  error "job log exceeded the 5000-row harvest ceiling, so the index would be silently short of the log we are about to delete; paging is needed before this tenant can be torn down".
Definition harvest (database : string) : M trace exn HarvestResult :=
  harvestTenantJobLog (λ db sql params, perform ask (CQueryD1 db sql params)) (EError "TypeError") database HARVEST_ROW_CAP.
Definition harvest_and_index (database : string) : M trace exn unit :=
  harvested ← harvest database;
  if negb (hr_complete harvested) then throw short_harvest
  else _ ← perform ask (SIndexRunpodJobs (t_id tenant) (t_slug tenant) (hr_rows harvested)); mret tt.

Definition database_leg (referrers : list ResourceReferrer) (c : Collected) : M trace exn Collected :=
  match t_d1_database_id tenant with
  | Some database =>
      if Str.truthy database then
        '(stop, c) ← guarded referrers ResD1 c;
        if stop : bool then mret c
        else
          indexed ← attempt (harvest_and_index database);
          match indexed with
          | inl e => mret (add_failure "job_index_harvest" (exn_text e) c)
          | inr _ => tried "d1" (plain_leg (perform ask (CDeleteD1 database))) (Some ResD1) never_absent c
          end
      else mret c
  | None => mret c
  end.
Definition bucket_leg (referrers : list ResourceReferrer) (c : Collected) : M trace exn Collected :=
  match t_r2_bucket_name tenant with
  | Some bucket =>
      if Str.truthy bucket then
        '(stop, c) ← guarded referrers ResBucket c;
        if stop : bool then mret c else tried "r2_bucket" (emptyThenDeleteBucket bucket) (Some ResBucket) never_absent c
      else mret c
  | None => mret c
  end.

Definition data_legs (referrers : list ResourceReferrer) (c : Collected) : M trace exn Collected :=
  if to_deleteData opts then c ← database_leg referrers c; bucket_leg referrers c else mret c.
Definition teardown_legs (referrers : list ResourceReferrer) (c : Collected) : M trace exn Collected :=
  c ← worker_leg referrers c;
  c ← modules_leg c;
  c ← token_legs referrers c;
  data_legs referrers c.
Definition teardown_pass (referrers : list ResourceReferrer) : M trace exn TeardownOutcome :=
  c ← teardown_legs referrers (mkCollected [] []);
  _ ← recordTeardownSafely (co_failures c);
  mret (mkOutcome (length (co_failures c) =? 0)%nat (co_failures c) (co_absent c)).

Definition teardownTenant : M trace exn TeardownOutcome :=
  held ← attempt (perform ask (SListOpenHolds (t_id tenant)));
  match held with
  | inl e => refused_pass "preservation_hold" ("refused: could not determine whether a preservation hold is open, refusing every deletion: " +:+ exn_text e)
  | inr (_ :: _ as held) => refused_pass "preservation_hold" (held_message held)
  | inr [] =>
      found ← attempt (perform ask (SFindResourceReferrers (t_id tenant) refs));
      match found with
      | inl e => refused_pass "guard" ("referential guard could not run, refusing every deletion: " +:+ exn_text e)
      | inr referrers => teardown_pass referrers
      end
  end.
End teardown.

(** ** The harvest under any policy that lets it read the database *)
Section harvesting.
Context (ask : world) (tenant : Tenant) (allowed : trace → call → Prop) (P : trace → Prop) `{!Stable P} (db : string).
Hypothesis reads : ∀ tr sql params, P tr → allowed tr (CQueryD1 db sql params).

Lemma harvest_safe : safe allowed P (harvest ask db) (λ _ _, True).
Proof using All.
intros tr Ho Htr. unfold harvest, harvestTenantJobLog. rewrite !bind_run, !perform_run.
set (c1 := CQueryD1 db TABLE_PROBE _). set (tr1 := tr ++ [Ev c1 (ask tr c1)]).
assert (obeys allowed tr1) as Ho1 by (by apply obeys_snoc; [|apply reads]). assert (tr `prefix_of` tr1) as Ht1 by by eexists. clearbody tr1.
destruct (ask tr c1) as [present|e]; [|exact (conj Ht1 (conj Ho1 I))]. destruct (length (rowsOf present) =? 0)%nat; [exact (conj Ht1 (conj Ho1 I))|].
rewrite !bind_run, !perform_run. set (c2 := CQueryD1 db LOG_READ _). set (tr2 := tr1 ++ [Ev c2 (ask tr1 c2)]).
assert (obeys allowed tr2) as Ho2 by (apply obeys_snoc; [done|apply reads; by eapply stable]).
assert (tr `prefix_of` tr2) as Ht2 by (etrans; [exact Ht1|by eexists]). clearbody tr2.
destruct (ask tr1 c2) as [answer|e]; [|exact (conj Ht2 (conj Ho2 I))]. destruct (harvest_rows _); exact (conj Ht2 (conj Ho2 I)).
Qed.
Lemma harvest_and_index_safe : (∀ tr rows, P tr → allowed tr (SIndexRunpodJobs (t_id tenant) (t_slug tenant) rows)) →
  safe allowed P (harvest_and_index ask tenant db) (λ _ tr, ∃ rows n, answered (SIndexRunpodJobs (t_id tenant) (t_slug tenant) rows) (Ok n) tr).
Proof using All.
intros Hi. unfold harvest_and_index. apply safe_then; [done|apply harvest_safe|].
intros h. destruct (negb (hr_complete h)); [apply safe_throw|].
eapply safe_bind; [done|eapply (safe_perform _ _ P (SIndexRunpodJobs _ _ _)); intros tr Htr; by apply Hi|].
intros n. apply safe_ret. intros tr [_ H]. by exists (hr_rows h), n.
Qed.
End harvesting.

(** ** The kinds of calls of a teardown *)
Section kinds.
Context (ask : world) (digest : string → list Ascii.ascii) (deps : ProvisionDeps) (tenant : Tenant) (opts : TeardownOpts) (pages : nat).
Definition teardown_kind (c : call) : bool :=
  match c with
  | SListOpenHolds _ | SFindResourceReferrers _ _ | SGetResourceOwner _ _ | SRecordTeardown _ _ | SClearTenantResource _ _ | SIndexRunpodJobs _ _ _
  | CListNamespaceScripts _ | CDeleteUserWorker _ _ | TRevoke _ | TRevokeByName _ | CQueryD1 _ _ _ | CDeleteD1 _ | CDeleteR2Bucket _
  | KNow | KSleep _ | XS3 _ _ _ _ => true
  | _ => false
  end.
(** Those, and minting the bucket's teardown credential. *)
Definition teardown_mint_kind (c : call) : bool :=
  match c with TMintBucketToken n _ => n =s? tenantR2TeardownTokenName (t_slug tenant) | c => teardown_kind c end.

Lemma record_only fs : only teardown_kind (recordTeardownSafely ask tenant fs).
Proof. unfold recordTeardownSafely. walk_only. Qed.
Lemma guarded_only rs k c : only teardown_kind (guarded ask tenant opts rs k c).
Proof. unfold guarded. walk_only. Qed.
Lemma clear_only resource k c : only teardown_kind (clear_if ask tenant resource k c).
Proof. unfold clear_if, clearColumn. walk_only. Qed.
Lemma call_only resource cl k absent c : teardown_kind cl = true → only teardown_kind (tried ask tenant resource (plain_leg (perform ask cl)) k absent c).
Proof. intros H. unfold tried, plain_leg. walk_only; first [by apply only_perform|apply clear_only]. Qed.
Lemma worker_only rs c : only teardown_kind (worker_leg ask deps tenant opts rs c).
Proof. unfold worker_leg. walk_only; [apply guarded_only|by apply call_only]. Qed.
Lemma modules_only c : only teardown_kind (modules_leg ask deps tenant c).
Proof.
assert (∀ ns l f a, only teardown_kind (delete_scripts ask ns l f a)) as Hdel by (induction l; intros; cbn [delete_scripts]; walk_only; auto).
unfold modules_leg, teardownTenantModules. walk_only. apply Hdel.
Qed.
Lemma tokens_only rs c : only teardown_kind (token_legs ask tenant opts rs c).
Proof. unfold token_legs, revoke_by_id, clearColumn. walk_only; first [apply guarded_only|by apply call_only]. Qed.
Lemma harvest_only db : only teardown_kind (harvest_and_index ask tenant db).
Proof. unfold harvest_and_index, harvest, harvestTenantJobLog. walk_only. Qed.
Lemma database_only rs c : only teardown_kind (database_leg ask tenant opts rs c).
Proof. unfold database_leg. walk_only; first [apply guarded_only|apply harvest_only|by apply call_only]. Qed.
Lemma bucket_only rs c : only teardown_mint_kind (bucket_leg ask digest deps tenant opts pages rs c).
Proof.
assert (∀ m : M trace exn (bool * Collected), only teardown_kind m → only teardown_mint_kind m) as Hg by (intros m H; eapply only_mono; [exact H|by intros []]).
unfold bucket_leg, tried, emptyThenDeleteBucket, revoke_credential, empty_and_delete. walk_only.
- apply Hg, guarded_only.
- apply only_perform. cbn. by rewrite String.eqb_refl.
- eapply only_mono; [apply emptying_only|by intros []].
- eapply only_mono; [apply clear_only|by intros []].
- eapply only_mono; [apply clear_only|by intros []].
Qed.
Lemma teardown_only : only teardown_mint_kind (teardownTenant ask digest deps tenant opts pages).
Proof.
assert (∀ A (m : M trace exn A), only teardown_kind m → only teardown_mint_kind m) as Hg by (intros A m H; eapply only_mono; [exact H|by intros []]).
unfold teardownTenant, refused_pass, teardown_pass, teardown_legs, data_legs. walk_only;
  first [apply bucket_only | apply Hg; first [apply record_only|apply worker_only|apply modules_only|apply tokens_only|apply database_only]].
Qed.
End kinds.

(** ** What a teardown may ask, and when *)
Section policy.
Context (ask : world) (digest : string → list Ascii.ascii) (deps : ProvisionDeps) (tenant : Tenant) (opts : TeardownOpts) (pages : nat).
Hypothesis t_id_ok : tenant_id (t_id tenant).
Implicit Types (tr : trace) (c : call) (co : Collected) (k : TenantResourceKind).

(** No hold was open, and these rows still point at the tenant's resources. *)
Definition unheld tr : Prop := answered (SListOpenHolds (t_id tenant)) (Ok []) tr.
Definition pointed_at (rs : list ResourceReferrer) tr : Prop :=
  unheld tr ∧ answered (SFindResourceReferrers (t_id tenant) (refs tenant)) (Ok rs) tr.
Definition key_of (k : TenantResourceKind) (key : string) : Prop := ref_of k (refs tenant) = Some key ∧ Str.truthy key = true.
(** The resource is this tenant's to take: nobody else points at it, or only deleted rows do and the
    plane recorded this tenant as its owner, or (with the override) recorded no owner at all. *)
Definition cleared (k : TenantResourceKind) tr : Prop :=
  ∃ rs, pointed_at rs tr ∧
    ((∀ r, r ∈ rs → rf_resource r ≠ k) ∨
     ((∀ r, r ∈ rs → rf_resource r = k → rf_status r = "deleted") ∧
      ((∃ key, key_of k key ∧ answered (SGetResourceOwner k key) (Ok (Some (t_id tenant))) tr) ∨
       (to_ignoreTombstoneReferrers opts = true ∧ ∀ key, key_of k key → ∃ o, answered (SGetResourceOwner k key) (Ok o) tr ∧ opt_set o = false)))).
(** A credential this pass minted for emptying the bucket. *)
Definition minted (m : MintedCredential) (bucket : string) tr : Prop :=
  answered (TMintBucketToken (tenantR2TeardownTokenName (t_slug tenant)) bucket) (Ok m) tr.
Definition empty_opts (m : MintedCredential) (bucket : string) : EmptyBucketOptions :=
  mkEmptyOpts (dp_r2Endpoint deps) bucket (mkMinted (mc_id m) (sha256Hex digest (mc_value m))) TEARDOWN_EMPTY_BUDGET_MS PROPAGATION_MS.
Definition data_leg (k : TenantResourceKind) tr : Prop := to_deleteData opts = true ∧ cleared k tr.
(** The resource is gone: what its column may be cleared on. *)
Definition reaped (k : TenantResourceKind) tr : Prop :=
  match k with
  | ResWorker => ∃ a, answered (CDeleteUserWorker (dp_namespace deps) (script_to_delete tenant)) a tr ∧
      match a with Ok _ => True | Err e => isScriptAbsent e = true end
  | ResToken => ∃ token, t_r2_token_id tenant = Some token ∧ answered (TRevoke token) (Ok tt) tr
  | ResD1 => ∃ db, t_d1_database_id tenant = Some db ∧ answered (CDeleteD1 db) (Ok tt) tr
  | ResBucket => ∃ b, t_r2_bucket_name tenant = Some b ∧ answered (CDeleteR2Bucket b) (Ok tt) tr
  end.

Definition teardown_calls tr c : Prop :=
  match c with
  | KNow | KSleep _ => True
  | SListOpenHolds i | SRecordTeardown i _ => i = t_id tenant
  | SFindResourceReferrers i r => i = t_id tenant ∧ r = refs tenant ∧ unheld tr
  | SGetResourceOwner k key => key_of k key ∧ unheld tr
  | SClearTenantResource i k => i = t_id tenant ∧ cleared k tr ∧ reaped k tr
  | CListNamespaceScripts ns => ns = dp_moduleNamespace deps ∧ unheld tr
  | CDeleteUserWorker ns s =>
      (ns = dp_namespace deps ∧ s = script_to_delete tenant ∧ cleared ResWorker tr) ∨
      (unheld tr ∧ sweep_calls (dp_moduleNamespace deps) (t_id tenant) tr (CDeleteUserWorker ns s))
  | TRevoke id => cleared ResToken tr ∧ t_r2_token_id tenant = Some id ∨ ∃ m b, id = mc_id m ∧ minted m b tr
  | TRevokeByName n => cleared ResToken tr ∧
      n ∈ [tenantR2TokenName (t_slug tenant); tenantAigTokenName (t_slug tenant); tenantStudioAigTokenName (t_slug tenant)]
  | CQueryD1 db _ _ => t_d1_database_id tenant = Some db ∧ data_leg ResD1 tr
  | SIndexRunpodJobs i slug _ => i = t_id tenant ∧ slug = t_slug tenant ∧ data_leg ResD1 tr
  | CDeleteD1 db => t_d1_database_id tenant = Some db ∧ data_leg ResD1 tr ∧
      ∃ rows n, answered (SIndexRunpodJobs (t_id tenant) (t_slug tenant) rows) (Ok n) tr
  | TMintBucketToken name b => name = tenantR2TeardownTokenName (t_slug tenant) ∧ t_r2_bucket_name tenant = Some b ∧ data_leg ResBucket tr
  | XS3 _ _ _ _ => ∃ m b, t_r2_bucket_name tenant = Some b ∧ minted m b tr ∧ empty_calls (empty_opts m b) tr c
  | CDeleteR2Bucket b => t_r2_bucket_name tenant = Some b ∧ data_leg ResBucket tr ∧ ∃ m, minted m b tr ∧ shown_empty (empty_opts m b) tr
  | _ => False
  end.

#[export] Instance stable_pointed_at rs : Stable (pointed_at rs).
Proof. apply _. Qed.
#[export] Instance stable_cleared k : Stable (cleared k).
Proof.
intros tr tr' Ht (rs & Hp & H). exists rs. split; [by eapply (stable_pointed_at rs)|]. destruct H as [H|[H1 [(key & Hk & H)|[Ho H]]]].
- by left.
- right. split; [done|]. left. exists key. split; [done|]. by eapply stable_answered.
- right. split; [done|]. right. split; [done|]. intros key Hk. destruct (H _ Hk) as (o & Ha & Hn). exists o. split; [by eapply stable_answered|done].
Qed.
Lemma cleared_unheld k tr : cleared k tr → unheld tr.
Proof. by intros (rs & [H _] & _). Qed.

(** Under any policy that allows this much. *)
Section allowed.
Context (al : trace → call → Prop) (Hal : ∀ tr c, teardown_calls tr c → al tr c).
Abbreviation safe := (safe al).

Lemma record_safe P fs : safe P (recordTeardownSafely ask tenant fs) (λ _ _, True).
Proof.
unfold recordTeardownSafely. intros tr Ho HP.
destruct (safe_try al ask (λ _, True) (SRecordTeardown (t_id tenant) fs) (λ _ _, Hal _ (SRecordTeardown (t_id tenant) fs) eq_refl) tr Ho I) as (H1 & H2 & _).
rewrite bind_run. by destruct (attempt _ _) as [[?|?] tr'].
Qed.

Lemma guarded_safe P rs k co : Stable P → (∀ tr, P tr → pointed_at rs tr) →
  safe P (guarded ask tenant opts rs k co) (λ r tr, r.1 = false → cleared k tr).
Proof.
intros HP Hrs. unfold guarded. destruct (jfilter _ rs) as [|h hits] eqn:Hf.
{ apply safe_ret. intros tr Htr _. exists rs. split; [by apply Hrs|]. left. intros r Hr E. rewrite jfilter_nil_iff in Hf.
  apply Hf in Hr. unfold is_kind in Hr. by apply bool_decide_eq_false in Hr. }
set (live := existsb _ _). assert (live = false → ∀ r, r ∈ rs → rf_resource r = k → rf_status r = "deleted") as Hlive.
{ intros E r Hr Hk. assert (r ∈ h :: hits) as Hin by (rewrite <- Hf; apply elem_of_jfilter; split; [done|by apply bool_decide_eq_true]).
  destruct (rf_status r =s? "deleted") eqn:Hs; [by apply String.eqb_eq in Hs|]. exfalso.
  assert (live = true) as Hl; [|by rewrite Hl in E]. apply existsb_exists. exists r. split; [by apply list_elem_of_In|by rewrite Hs]. }
eapply (safe_bind _ _ _ _ (λ r tr, (r.1 = Some (t_id tenant) → ∃ key, key_of k key ∧ answered (SGetResourceOwner k key) (Ok (Some (t_id tenant))) tr) ∧
  (opt_set r.1 = false → r.2 = false → ∀ key, key_of k key → ∃ o, answered (SGetResourceOwner k key) (Ok o) tr ∧ opt_set o = false))); [done| |].
- assert (∀ tr : trace, (∀ key, ¬ key_of k key) →
    ((None : option string) = Some (t_id tenant) → ∃ key, key_of k key ∧ answered (SGetResourceOwner k key) (Ok (Some (t_id tenant))) tr) ∧
    (opt_set None = false → false = false → ∀ key, key_of k key → ∃ o, answered (SGetResourceOwner k key) (Ok o) tr ∧ opt_set o = false)) as Hno.
  { intros tr Hno. split; [done|]. intros _ _ key Hkey. by destruct (Hno key). }
  unfold key_of in *. destruct (ref_of k (refs tenant)) as [key|] eqn:Hr.
  2: { apply safe_ret. intros tr _. apply Hno. by intros key [? _]. }
  destruct (Str.truthy key) eqn:Ht.
  2: { apply safe_ret. intros tr _. apply Hno. intros key' [[= <-] E]. by rewrite Ht in E. }
  eapply safe_bind; [done| |].
  + apply (safe_attempt _ _ _ (λ o, answered (SGetResourceOwner k key) (Ok o))). eapply (safe_perform _ _ P). intros tr Htr. apply Hal. split; [done|apply (Hrs _ Htr)].
  + intros [e|o]; apply safe_ret; intros tr [_ H]; cbn; [by split|]. split; [intros ->; by exists key|].
      intros Hopt _ key' [[= <-] _]. by exists o.
- intros [owner failed]. destruct (_ && negb live) eqn:Hown.
  + apply safe_ret. intros tr [Htr [H _]] _. exists rs. split; [by apply Hrs|]. bool_hyps. right. split; [by apply Hlive|]. left. by apply H.
  + destruct (_ && to_ignoreTombstoneReferrers opts) eqn:Hig; [|by apply safe_ret].
    apply safe_ret. intros tr [Htr [_ H]] _. exists rs. split; [by apply Hrs|]. bool_hyps. right. split; [by apply Hlive|]. right. split; [done|].
    by apply H.
Qed.

Lemma clear_safe P resource k co : Stable P → (∀ tr, P tr → cleared k tr ∧ reaped k tr) →
  safe P (clearColumn ask tenant resource k co) (λ _ _, True).
Proof.
intros HP H. unfold clearColumn. apply safe_then; [done|eapply (safe_try _ _ _ (SClearTenantResource _ _)); by intros tr Htr; apply Hal; split; [|apply H]|].
intros ?. by apply safe_ret.
Qed.

(** A leg that clears its column only where the deletion went through, or found nothing there. *)
Lemma tried_safe P resource fn clears absent co (Q : option exn → trace → Prop) : Stable P → (∀ r, Stable (Q r)) →
  (∀ co, safe P (fn co) (λ r, Q r.2)) →
  (∀ k, clears = Some k → ∀ r tr, P tr → Q r tr → match r with None => true | Some e => absent e end = true → cleared k tr ∧ reaped k tr) →
  safe P (tried ask tenant resource fn clears absent co) (λ _ _, True).
Proof.
intros HP HQ Hfn Hk. unfold tried. eapply safe_bind; [done|apply Hfn|]. intros [co' failed]. cbn [snd].
assert (∀ co, match failed with None => true | Some e => absent e end = true →
  safe (λ tr, P tr ∧ Q failed tr) (clear_if ask tenant resource clears co) (λ _ _, True)) as Hclear.
{ intros co1 Hf. destruct clears as [k|]; cbn [clear_if]; [|by apply safe_ret]. apply clear_safe; [apply _|]. intros tr [Htr HQtr]. by eapply Hk. }
destruct failed as [e|]; [|by apply Hclear]. destruct (absent e) eqn:Ha; [by apply Hclear|by apply safe_ret].
Qed.

Lemma plain_leg_safe {A} P (m : M trace exn A) (Q : option exn → trace → Prop) co :
  (∀ tr, obeys al tr → P tr → tr `prefix_of` (m tr).2 ∧ obeys al (m tr).2 ∧
     match (m tr).1 with Ok _ => Q None (m tr).2 | Err e => Q (Some e) (m tr).2 end) →
  safe P (plain_leg m co) (λ r, Q r.2).
Proof.
intros H tr Ho Htr. destruct (H tr Ho Htr) as (H1 & H2 & H3). unfold plain_leg. rewrite attempt_bind. destruct (m tr) as [[a|e] tr']; by split_and!.
Qed.
(** A leg of one call, with its answer. *)
Lemma call_leg_safe P c co : (∀ tr, P tr → teardown_calls tr c) →
  safe P (plain_leg (perform ask c) co)
    (λ r tr, ∃ a, answered c a tr ∧ match r.2, a with None, Ok _ => True | Some e, Err e' => e = e' | _, _ => False end).
Proof.
intros H. apply (plain_leg_safe _ _ (λ r tr, ∃ a, answered c a tr ∧ match r, a with None, Ok _ => True | Some e, Err e' => e = e' | _, _ => False end)).
intros tr Ho Htr. cbn. split_and!; [by eexists|by apply obeys_snoc; [|apply Hal, H]|].
assert (answered c (ask tr c) (tr ++ [Ev c (ask tr c)])) as Ha by (apply elem_of_app; right; left).
destruct (ask tr c) eqn:E; eexists; (split; [exact Ha|done]).
Qed.

(** ** The legs keep the policy *)
Section legs.
Context (rs : list ResourceReferrer).
Implicit Types (P : trace → Prop).

Lemma call_tried_safe P resource c clears absent co : Stable P → (∀ tr, P tr → teardown_calls tr c) →
  (∀ k, clears = Some k → ∀ a tr, P tr → answered c a tr → match a with Ok _ => True | Err e => absent e = true end → cleared k tr ∧ reaped k tr) →
  safe P (tried ask tenant resource (plain_leg (perform ask c)) clears absent co) (λ _ _, True).
Proof using Hal.
intros HP Hc Hk. eapply (tried_safe P _ _ _ _ _ (λ r tr, ∃ a, answered c a tr ∧ match r, a with None, Ok _ => True | Some e, Err e' => e = e' | _, _ => False end)).
- done.
- apply _.
- intros co'. by apply call_leg_safe.
- intros k E r tr Htr (a & Ha & Hr) Habs. eapply Hk; [done|done|exact Ha|]. destruct r as [e|], a as [x|e']; try done. by subst e'.
Qed.

Lemma worker_leg_safe P co : Stable P → (∀ tr, P tr → pointed_at rs tr) →
  safe P (worker_leg ask deps tenant opts rs co) (λ _ _, True).
Proof using Hal.
intros HP Hrs. unfold worker_leg. eapply safe_bind; [done|by apply guarded_safe|]. intros [[] co']; [by apply safe_ret|]. cbn [fst].
eapply safe_weaken; [apply (call_tried_safe (λ tr, P tr ∧ cleared ResWorker tr))|by intros tr [? H]; split; [|apply H]|done].
- apply _.
- intros tr [_ H]. by left.
- intros k [= <-] a tr [_ H] Ha Hr. split; [done|]. by exists a.
Qed.

Lemma modules_leg_safe P co : Stable P → (∀ tr, P tr → unheld tr) → safe P (modules_leg ask deps tenant co) (λ _ _, True).
Proof using Hal t_id_ok.
intros HP Hu. unfold modules_leg. apply safe_then; [done| |intros [f a]; by apply safe_ret].
apply sweep_safe; [done|done|]. intros tr c Htr Hc. apply Hal. pose proof (Hu _ Htr) as Hun. revert Hc. destruct c; cbn -[sweep_calls]; try done. intros Hc. right. by split.
Qed.

Lemma by_name_safe P resource name co : Stable P → (∀ tr, P tr → cleared ResToken tr) →
  name ∈ [tenantR2TokenName (t_slug tenant); tenantAigTokenName (t_slug tenant); tenantStudioAigTokenName (t_slug tenant)] →
  safe P (tried ask tenant resource (plain_leg (perform ask (TRevokeByName name))) None never_absent co) (λ _ _, True).
Proof using Hal.
intros HP Hc Hn. apply call_tried_safe; [done| |done]. intros tr Htr. by split; [apply Hc|].
Qed.
Lemma revoke_by_id_safe P token co : Stable P → (∀ tr, P tr → cleared ResToken tr) → t_r2_token_id tenant = Some token →
  safe P (revoke_by_id ask tenant token co) (λ _ _, True).
Proof using Hal.
intros HP Hc Ht. unfold revoke_by_id. eapply safe_bind; [done|apply safe_attempt, safe_perform; intros tr Htr; apply Hal; left; by split; [apply Hc|]|].
intros [e|[]]; [by apply safe_ret|]. apply safe_then; [apply _| |intros ?; by apply safe_ret].
apply clear_safe; [apply _|]. intros tr [Htr Ha]. split; [by apply Hc|]. by exists token.
Qed.
Lemma token_legs_safe P co : Stable P → (∀ tr, P tr → pointed_at rs tr) → safe P (token_legs ask tenant opts rs co) (λ _ _, True).
Proof using Hal.
intros HP Hrs. unfold token_legs. eapply safe_bind; [done|by apply guarded_safe|]. intros [[] co']; [by apply safe_ret|]. cbn [fst].
set (P' := λ tr, P tr ∧ (false = false → cleared ResToken tr)).
assert (Stable P') by apply _. assert (∀ tr, P' tr → cleared ResToken tr) as Hc by (intros tr [_ H1]; by apply H1).
apply safe_then; [done| |].
- destruct (t_r2_token_id tenant) as [token|] eqn:Et; [|by apply safe_ret]. destruct (Str.truthy token); [by apply revoke_by_id_safe|by apply safe_ret].
- intros [by_id co1]. apply safe_then; [done| |intros co2].
  { destruct by_id; [by apply safe_ret|apply by_name_safe; [done|done|left]]. }
  apply safe_then; [done|apply by_name_safe; [done|done|right; left]|intros co3].
  apply by_name_safe; [done|done|right; right; left].
Qed.

Lemma harvest_and_index_leg_safe P db : Stable P → (∀ tr, P tr → data_leg ResD1 tr) → t_d1_database_id tenant = Some db →
  safe P (harvest_and_index ask tenant db) (λ _ tr, ∃ rows n, answered (SIndexRunpodJobs (t_id tenant) (t_slug tenant) rows) (Ok n) tr).
Proof using Hal.
intros HP Hd Hdb. apply harvest_and_index_safe; [done|..]; intros tr; intros; apply Hal; by split_and!; [..|apply Hd].
Qed.

#[export] Instance stable_data_leg k : Stable (data_leg k).
Proof. apply _. Qed.

Lemma database_leg_safe P co : Stable P → (∀ tr, P tr → pointed_at rs tr) → to_deleteData opts = true →
  safe P (database_leg ask tenant opts rs co) (λ _ _, True).
Proof using Hal.
intros HP Hrs Hdel. unfold database_leg. destruct (t_d1_database_id tenant) as [db|] eqn:Edb; [|by apply safe_ret].
destruct (Str.truthy db); [|by apply safe_ret].
eapply safe_bind; [done|by apply guarded_safe|]. intros [[] co']; [by apply safe_ret|]. cbn [fst].
eapply safe_bind; [apply _|apply safe_attempt, harvest_and_index_leg_safe; [apply _| |done]; intros tr [_ H]; by split; [|apply H]|].
intros [e|[]]; [by apply safe_ret|]. apply call_tried_safe; [apply _| |].
- intros tr [[_ H] Hi]. split; [done|]. split; [by split; [|apply H]|done].
- intros k [= <-] [[]|e] tr [[_ H] _] Ha Hr; [|done]. split; [by apply H|]. by exists db.
Qed.

Lemma empty_then_delete_safe P bucket co : Stable P → (∀ tr, P tr → data_leg ResBucket tr) → t_r2_bucket_name tenant = Some bucket →
  safe P (emptyThenDeleteBucket ask digest deps tenant pages bucket co)
    (λ r tr, match r.2 with None => answered (CDeleteR2Bucket bucket) (Ok tt) tr | Some _ => True end).
Proof using Hal.
intros HP Hd Hb. unfold emptyThenDeleteBucket.
eapply safe_bind; [done|apply safe_attempt, safe_perform; intros tr Htr; apply Hal; by split_and!; [| |apply Hd]|].
intros [e|m]; [by apply safe_ret|]. set (P' := λ tr, P tr ∧ _). assert (Stable P') by apply _.
assert (safe P' (empty_and_delete ask digest deps pages bucket m) (λ _, answered (CDeleteR2Bucket bucket) (Ok tt))) as Hwork.
{ unfold empty_and_delete. eapply safe_bind; [done| |].
  - apply (emptying_safe ask (empty_opts m bucket)); [done|]. intros tr c [_ Hm] Hc. apply Hal. revert Hc. destruct c; cbn -[empty_calls]; try done.
    intros Hc. by exists m, bucket.
  - intros r. destruct (eb_emptied r) eqn:Ee; cbn [negb]; [|apply safe_throw].
    eapply safe_weaken; [eapply (safe_perform _ _ (λ tr, P' tr ∧ (eb_emptied r = true → shown_empty (empty_opts m bucket) tr)))|intros tr HH; exact HH|intros [] tr _ Ha; exact Ha].
    intros tr [[Htr Hm] Hs]. apply Hal. split; [done|]. split; [by apply Hd|]. exists m. by split; [|apply Hs]. }
eapply safe_bind; [done|by apply safe_attempt|]. intros worked.
eapply (safe_bind _ _ _ _ (λ _ _, True)); [destruct worked; apply _| |].
{ unfold revoke_credential. apply safe_then; [destruct worked; apply _|eapply (safe_try _ _ _ (TRevoke _)); intros tr [[_ Hm] _]; apply Hal; right; by exists m, bucket|].
  intros revoked. by apply safe_ret. }
intros co1. apply safe_ret. intros tr [[_ Hw] _]. by destruct worked.
Qed.
Lemma bucket_leg_safe P co : Stable P → (∀ tr, P tr → pointed_at rs tr) → to_deleteData opts = true →
  safe P (bucket_leg ask digest deps tenant opts pages rs co) (λ _ _, True).
Proof using Hal.
intros HP Hrs Hdel. unfold bucket_leg. destruct (t_r2_bucket_name tenant) as [b|] eqn:Eb; [|by apply safe_ret].
destruct (Str.truthy b); [|by apply safe_ret].
eapply safe_bind; [done|by apply guarded_safe|]. intros [[] co']; [by apply safe_ret|]. cbn [fst].
eapply (tried_safe _ _ _ _ _ _ (λ r tr, match r with None => answered (CDeleteR2Bucket b) (Ok tt) tr | Some _ => True end)).
- apply _.
- intros [e|]; apply _.
- intros c. apply empty_then_delete_safe; [apply _| |done]. intros tr [_ H]. by split; [|apply H].
- intros k [= <-] [e|] tr [_ H] Ha Hr; [done|]. split; [by apply H|]. by exists b.
Qed.

Lemma pass_safe : safe (pointed_at rs) (teardown_pass ask digest deps tenant opts pages rs) (λ _ _, True).
Proof using Hal t_id_ok.
unfold teardown_pass. apply safe_then; [apply _| |].
- unfold teardown_legs. apply safe_then; [apply _|by apply worker_leg_safe; [apply _|]|intros c1].
  apply safe_then; [apply _|apply modules_leg_safe; [apply _|by intros tr [? _]]|intros c2].
  apply safe_then; [apply _|by apply token_legs_safe; [apply _|]|intros c3].
  unfold data_legs. destruct (to_deleteData opts) eqn:Hd; [|by apply safe_ret].
  apply safe_then; [apply _|by apply database_leg_safe; [apply _|..]|intros c]. by apply bucket_leg_safe; [apply _|..].
- intros c. apply safe_then; [apply _|apply record_safe|intros []]. by apply safe_ret.
Qed.
End legs.
Lemma teardown_safe : safe (λ _, True) (teardownTenant ask digest deps tenant opts pages) (λ _ _, True).
Proof.
unfold teardownTenant, refused_pass.
eapply safe_bind; [apply _|apply safe_attempt, safe_perform; intros tr _; by apply Hal|]. intros [e|[|h held]].
1,3: apply safe_then; [apply _|apply record_safe|intros []; by apply safe_ret].
eapply safe_bind; [apply _|apply safe_attempt, safe_perform; intros tr [_ ?]; by apply Hal|]. intros [e|rs].
- apply safe_then; [apply _|apply record_safe|intros []; by apply safe_ret].
- eapply safe_weaken; [apply pass_safe|by intros tr [[_ H1] H2]|done].
Qed.
End allowed.

(** C5. A teardown destroys only what is this tenant's to destroy.  Whatever the store, the cloud and the
    bucket answer, with an open preservation hold (or one that could not be read) nothing outside the
    plane is touched; the worker, the stored token, the database and the bucket are each deleted only
    past the guard against other rows that still point at them; module scripts only under the tenant's
    own prefix; the database and the bucket only when the caller asked, the database only after its job
    log was indexed and the bucket only after a listing showed it empty; and a column is cleared only
    when its resource was seen to go. *)
Theorem teardown_is_guarded : obeys teardown_calls (teardownTenant ask digest deps tenant opts pages []).2.
Proof. by apply (teardown_safe teardown_calls (λ _ _ H, H) [] (obeys_nil _) I). Qed.
End policy.

(** ** A teardown always answers, and [ok] means everything was reaped *)
Section outcome.
Context (ask : world) (digest : string → list Ascii.ascii) (deps : ProvisionDeps) (tenant : Tenant) (opts : TeardownOpts) (pages : nat).
Implicit Types (tr : trace) (co : Collected) (k : TenantResourceKind).

(** A step of the pass: it always returns, keeps the failures already collected, and where it adds
    none, [Q] holds of the trace. *)
Definition collects (m : Collected → M trace exn Collected) (Q : trace → Prop) : Prop := ∀ co tr, ∃ co' tr',
  m co tr = (Ok co', tr') ∧ tr `prefix_of` tr' ∧ co_failures co `prefix_of` co_failures co' ∧ (co_failures co' = co_failures co → Q tr').

Lemma collects_ret Q : (∀ tr, Q tr) → collects (λ co, mret co) Q.
Proof. intros H co tr. exists co, tr. by split_and!. Qed.
Lemma collects_fail resource message : collects (λ co, mret (add_failure resource message co)) (λ _, False).
Proof.
intros co tr. eexists _, tr. split; [reflexivity|]. cbn. split_and!; [done|by eexists|]. intros E.
rewrite <- (app_nil_r (co_failures co)) in E at 2. by apply app_inv_head in E.
Qed.
Lemma prefix_antisym {A} (l m : list A) : l `prefix_of` m → m `prefix_of` l → l = m.
Proof.
intros [k ->] [k' E]. rewrite <- app_assoc in E. rewrite <- (app_nil_r l) in E at 1. apply app_inv_head in E.
symmetry in E. apply app_eq_nil in E as [-> _]. by rewrite app_nil_r.
Qed.
Lemma collects_then m f P Q : Stable P → collects m P → collects f Q → collects (λ co, m co ≫= f) (λ tr, P tr ∧ Q tr).
Proof.
intros HP Hm Hf co tr. destruct (Hm co tr) as (co1 & tr1 & E1 & Ht1 & Hc1 & HP1). destruct (Hf co1 tr1) as (co2 & tr2 & E2 & Ht2 & Hc2 & HQ2).
exists co2, tr2. rewrite bind_run, E1. split_and!; [done|by etrans|by etrans|]. intros E. assert (co_failures co1 = co_failures co) as E'.
{ apply prefix_antisym; [|done]. by rewrite <- E. }
split; [eapply HP; [exact Ht2|by apply HP1]|apply HQ2; by rewrite E, E'].
Qed.
Lemma collects_weaken m (P Q : trace → Prop) : collects m P → (∀ tr, P tr → Q tr) → collects m Q.
Proof. intros H HPQ co tr. destruct (H co tr) as (co' & tr' & E & ? & ? & Hq). exists co', tr'. split_and!; [done..|]. intros. by apply HPQ, Hq. Qed.
(** A call whose refusal is collected. *)
Lemma collects_call c (f : exn + ret c → Collected → M trace exn Collected) (Q : result exn (ret c) → trace → Prop) R :
  (∀ a, collects (f (match a with Ok x => inr x | Err e => inl e end)) (Q a)) →
  (∀ a tr, answered c a tr → Q a tr → R tr) →
  collects (λ co, attempt (perform ask c) ≫= λ r, f r co) R.
Proof.
intros Hf HR co tr. rewrite attempt_bind, perform_run. set (a := ask tr c). set (tr0 := tr ++ [Ev c a]).
destruct (Hf a co tr0) as (co' & tr' & E & Ht & Hc & Hq). exists co', tr'. split_and!.
- revert E. unfold tr0. by destruct a.
- etrans; [by eexists|exact Ht].
- done.
- intros HE. apply (HR a); [|by apply Hq]. eapply stable_answered; [exact Ht|]. apply elem_of_app. right. left.
Qed.

(** The column was blanked. *)
Definition blanked k tr : Prop := answered (SClearTenantResource (t_id tenant) k) (Ok tt) tr.
Lemma clear_collects resource k : collects (clearColumn ask tenant resource k) (blanked k).
Proof.
unfold clearColumn. eapply (collects_call _ (λ r co, mret (match r with inr _ => co | inl e => add_failure (resource +:+ "_record") (exn_text e) co end))
  (λ a _, match a with Ok _ => True | Err _ => False end)).
- intros [a|e]; [by apply collects_ret|apply collects_fail].
- by intros [[]|e] tr Ha H.
Qed.

(** A leg that always answers; what it answered, where it collected no failure of its own. *)
Definition leg_answers (fn : leg) (Q : option exn → trace → Prop) : Prop := ∀ co tr, ∃ co' r tr', fn co tr = (Ok (co', r), tr') ∧
  tr `prefix_of` tr' ∧ co_failures co `prefix_of` co_failures co' ∧ (co_failures co' = co_failures co → Q r tr').
Lemma tried_collects resource fn clears absent (Q : option exn → trace → Prop) : (∀ r, Stable (Q r)) → leg_answers fn Q →
  collects (tried ask tenant resource fn clears absent)
    (λ tr, (∃ r, Q r tr ∧ match r with None => True | Some e => absent e = true end) ∧ match clears with Some k => blanked k tr | None => True end).
Proof.
intros HQ Hfn co tr. unfold tried. rewrite bind_run. destruct (Hfn co tr) as (co0 & r & tr0 & -> & Hpre & Hc0 & Hq0).
assert (∀ co1, co_failures co1 = co_failures co0 → match r with None => True | Some e => absent e = true end →
  ∃ co' tr', clear_if ask tenant resource clears co1 tr0 = (Ok co', tr') ∧ tr `prefix_of` tr' ∧ co_failures co `prefix_of` co_failures co' ∧
  (co_failures co' = co_failures co → (∃ r, Q r tr' ∧ match r with None => True | Some e => absent e = true end) ∧
    match clears with Some k => blanked k tr' | None => True end)) as Hclear.
{ intros co1 E1 Hr. rewrite <- E1 in Hc0, Hq0. destruct clears as [k|]; cbn [clear_if].
  - destruct (clear_collects resource k co1 tr0) as (co' & tr' & E & Ht & Hc & Hq). exists co', tr'. split_and!; [done|by etrans|by etrans|].
    intros HE. assert (co_failures co1 = co_failures co) as HE1 by (apply prefix_antisym; [by rewrite <- HE|done]).
    split; [exists r; split; [eapply HQ; [exact Ht|by apply Hq0]|done]|apply Hq; by rewrite HE, HE1].
  - exists co1, tr0. split_and!; [done..|]. intros HE. split; [exists r; split; [by apply Hq0|done]|done]. }
destruct r as [e|]; [|by apply Hclear]. destruct (absent e) eqn:Habs; [by apply Hclear|].
destruct (collects_fail resource (exn_text e) co0 tr0) as (co' & tr' & E & Ht & Hc & Hq). exists co', tr'. split_and!; [exact E|by etrans|by etrans|].
intros HE. assert (co_failures co0 = co_failures co) as HE0 by (apply prefix_antisym; [by rewrite <- HE|done]).
destruct Hq. by rewrite HE, HE0.
Qed.
Lemma call_leg_answers c : leg_answers (plain_leg (perform ask c))
  (λ r tr, ∃ a, answered c a tr ∧ match r, a with None, Ok _ => True | Some e, Err e' => e = e' | _, _ => False end).
Proof.
intros co tr. unfold plain_leg. rewrite attempt_bind, perform_run.
assert (∀ a, answered c a (tr ++ [Ev c a])) as Ha by (intros a; apply elem_of_app; right; left).
destruct (ask tr c) as [x|e]; (eexists co, _, _; split; [reflexivity|]; split_and!; [by eexists|done|]); intros _; eexists; (split; [apply Ha|done]).
Qed.

(** The guard never throws; it collects when it refuses. *)
Lemma guarded_answers rs k co tr : ∃ stop co' tr', guarded ask tenant opts rs k co tr = (Ok (stop, co'), tr') ∧ tr `prefix_of` tr' ∧
  if stop : bool then ∃ message, co' = add_failure (kind_text k) message co else co' = co.
Proof.
unfold guarded. destruct (jfilter _ rs) as [|h hits]; [by exists false, co, tr|]. rewrite bind_run.
set (live := existsb _ _). clearbody live.
assert (∀ (owner : option string) (failed : bool) tr0, tr `prefix_of` tr0 → ∃ stop co' tr',
  (if bool_decide (owner = Some (t_id tenant)) && negb live then mret (false, co)
   else if negb live && negb (opt_set owner) && negb failed && to_ignoreTombstoneReferrers opts then mret (false, co)
   else mret (true, add_failure (kind_text k) (refusal_message tenant k (h :: hits) live owner failed) co) : M trace exn (bool * Collected)) tr0 = (Ok (stop, co'), tr') ∧
  tr `prefix_of` tr' ∧ if stop : bool then ∃ message, co' = add_failure (kind_text k) message co else co' = co) as Hdec.
{ intros owner failed tr0 Ht0. destruct (_ && negb live); [by exists false, co, tr0|]. destruct (_ && to_ignoreTombstoneReferrers opts); [by exists false, co, tr0|].
  eexists true, _, tr0. split_and!; [reflexivity|done|by eexists]. }
destruct (ref_of k (refs tenant)) as [key|]; [|by apply (Hdec None false)]. destruct (Str.truthy key); [|by apply (Hdec None false)].
rewrite attempt_bind, perform_run. destruct (ask tr (SGetResourceOwner k key)) as [o|e]; [apply (Hdec o false)|apply (Hdec None true)]; by eexists.
Qed.
Lemma guarded_collects rs k (f : Collected → M trace exn Collected) Q : collects f Q →
  collects (λ co, '(stop, co) ← guarded ask tenant opts rs k co; if stop : bool then mret co else f co) Q.
Proof.
intros Hf co tr. rewrite bind_run. destruct (guarded_answers rs k co tr) as (stop & co1 & tr1 & E & Ht & Hs). rewrite E. destruct stop.
- destruct Hs as [message ->]. destruct (collects_fail (kind_text k) message co tr1) as (co' & tr' & E' & Ht' & Hc & Hq).
  exists co', tr'. split_and!; [exact E'|by etrans|done|]. intros HE. by destruct (Hq HE).
- subst co1. destruct (Hf co tr1) as (co' & tr' & E' & Ht' & Hc & Hq). exists co', tr'. split_and!; [done|by etrans|done|done].
Qed.

(** A computation whose error is recovered: it only extends the trace. *)
Definition grows {A} (m : M trace exn A) (R : A → trace → Prop) : Prop := safe (λ _ _, True) (λ _, True) m R.
Lemma grows_run {A} (m : M trace exn A) R tr : grows m R →
  tr `prefix_of` (m tr).2 ∧ match (m tr).1 with Ok a => R a (m tr).2 | Err _ => True end.
Proof. intros H. assert (obeys (λ _ _, True) tr) as Ho by done. by destruct (H tr Ho I) as (? & _ & ?). Qed.
Lemma collects_attempt {A} (m : M trace exn A) (R : A → trace → Prop) (f : exn + A → Collected → M trace exn Collected) (Q : exn + A → trace → Prop) Q' :
  grows m R → (∀ a, Stable (R a)) → (∀ r, collects (f r) (Q r)) → (∀ r tr, match r with inr a => R a tr | inl _ => True end → Q r tr → Q' tr) →
  collects (λ co, attempt m ≫= λ r, f r co) Q'.
Proof.
intros Hm HR Hf HQ co tr. rewrite attempt_bind. destruct (grows_run m R tr Hm) as [Ht Hr]. destruct (m tr) as [[a|e] tr0]; cbn in *.
- destruct (Hf (inr a) co tr0) as (co' & tr' & E & Ht' & Hc & Hq). exists co', tr'. split_and!; [done|by etrans|done|].
  intros HE. apply (HQ (inr a)); [by eapply HR|by apply Hq].
- destruct (Hf (inl e) co tr0) as (co' & tr' & E & Ht' & Hc & Hq). exists co', tr'. split_and!; [done|by etrans|done|].
  intros HE. apply (HQ (inl e)); [done|by apply Hq].
Qed.
(** ** The legs' outcomes *)
Section legs_reap.
Context (rs : list ResourceReferrer).

Lemma worker_leg_collects : collects (worker_leg ask deps tenant opts rs) (λ tr, reaped deps tenant ResWorker tr ∧ blanked ResWorker tr).
Proof using Type.
unfold worker_leg. apply guarded_collects. eapply collects_weaken; [apply tried_collects; [|apply call_leg_answers]; apply _|].
intros tr [(r & (a & Ha & Hr) & Habs) Hb]. split; [|done]. exists a. split; [done|]. destruct r, a; try done. by subst.
Qed.

(** A listing taken after the deletions shows nothing of this tenant's. *)
Definition swept tr : Prop := ∃ all, answered (CListNamespaceScripts (dp_moduleNamespace deps)) (Ok all) tr ∧ ∀ s, s ∈ all → has_prefix (t_id tenant) s = false.
Lemma modules_leg_collects : collects (modules_leg ask deps tenant) swept.
Proof using Type.
intros co tr. unfold modules_leg. rewrite bind_run. destruct (sweep_total ask (dp_moduleNamespace deps) (t_id tenant) tr) as (f & a & tr' & E & Ht & Hf).
rewrite E. eexists _, tr'. split; [reflexivity|]. cbn. split_and!; [done|by eexists|]. intros HE.
rewrite <- (app_nil_r (co_failures co)) in HE at 2. apply app_inv_head in HE. destruct (Hf HE) as (before & all & -> & Hall).
exists all. split; [|done]. apply elem_of_app. right. left.
Qed.

(** Revoked under this name, or nothing of that name was found. *)
Definition name_revoked (name : string) tr : Prop := ∃ hit, answered (TRevokeByName name) (Ok hit) tr.
Lemma by_name_collects resource name :
  collects (tried ask tenant resource (plain_leg (perform ask (TRevokeByName name))) None never_absent) (name_revoked name).
Proof using Type.
eapply collects_weaken; [apply tried_collects; [|apply call_leg_answers]; apply _|].
intros tr [(r & (a & Ha & Hr) & Habs) _]. destruct r as [e|]; [done|]. destruct a as [hit|]; [by exists hit|done].
Qed.
(** The stored token is revoked and its column blanked, or there is none and the slug's name is. *)
Definition token_reaped tr : Prop :=
  match t_r2_token_id tenant with
  | Some token => if Str.truthy token then answered (TRevoke token) (Ok tt) tr ∧ blanked ResToken tr else name_revoked (tenantR2TokenName (t_slug tenant)) tr
  | None => name_revoked (tenantR2TokenName (t_slug tenant)) tr
  end.
Definition credentials_reaped tr : Prop :=
  token_reaped tr ∧ name_revoked (tenantAigTokenName (t_slug tenant)) tr ∧ name_revoked (tenantStudioAigTokenName (t_slug tenant)) tr.

#[export] Instance stable_token_reaped : Stable token_reaped.
Proof. unfold token_reaped; destruct (t_r2_token_id tenant) as [token|]; [destruct (Str.truthy token)|]; apply _. Qed.
#[export] Instance stable_credentials_reaped : Stable credentials_reaped.
Proof. unfold credentials_reaped. apply _. Qed.

Lemma stored_token_collects :
  collects (λ co, '(by_id, co) ← match t_r2_token_id tenant with
      | Some token => if Str.truthy token then revoke_by_id ask tenant token co else mret (false, co)
      | None => mret (false, co)
      end;
    if by_id : bool then mret co
    else tried ask tenant "r2_token_by_name" (plain_leg (perform ask (TRevokeByName (tenantR2TokenName (t_slug tenant))))) None never_absent co) token_reaped.
Proof using Type.
unfold token_reaped. destruct (t_r2_token_id tenant) as [token|]; [|apply by_name_collects]. destruct (Str.truthy token); [|apply by_name_collects].
intros co tr. unfold revoke_by_id. rewrite bind_run, attempt_bind, perform_run. set (c := TRevoke token).
assert (∀ a, tr `prefix_of` tr ++ [Ev c a]) as Hpre by (intros a; by eexists). destruct (ask tr c) as [[]|e].
- rewrite !bind_run. match goal with |- context [clearColumn _ _ _ _ _ ?tr1] =>
    destruct (clear_collects "r2_token" ResToken co tr1) as (co' & tr' & E & Ht & Hc & Hq) end. rewrite E.
  exists co', tr'. split_and!; [done|etrans; [apply Hpre|exact Ht]|done|]. intros HE. split; [|by apply Hq]. eapply stable_answered; [exact Ht|]. apply elem_of_app. right. left.
- cbn beta iota. destruct (by_name_collects "r2_token_by_name" (tenantR2TokenName (t_slug tenant)) (add_failure "r2_token" (exn_text e) co) (tr ++ [Ev c (Err e)]))
    as (co' & tr' & E & Ht & Hc & Hq). exists co', tr'. split_and!; [exact E|etrans; [apply Hpre|exact Ht]|etrans; [by eexists|exact Hc]|].
  intros HE. rewrite HE in Hc. cbn in Hc. apply prefix_length in Hc. rewrite length_app in Hc. cbn in Hc. lia.
Qed.
Lemma token_legs_collects : collects (token_legs ask tenant opts rs) credentials_reaped.
Proof using Type.
unfold token_legs. apply guarded_collects.
pose proof (collects_then _ _ _ _ _ stored_token_collects (collects_then _ _ _ _ _
  (by_name_collects "aig_token_by_name" (tenantAigTokenName (t_slug tenant))) (by_name_collects "aig_studio_token_by_name" (tenantStudioAigTokenName (t_slug tenant))))) as Hall.
intros co tr. destruct (Hall co tr) as (co' & tr' & E & Hrest). exists co', tr'. split; [|exact Hrest]. rewrite <- E. rewrite bind_assoc_run.
match goal with |- (?m ≫= _) _ = _ => rewrite !bind_run; by destruct (m tr) as [[[[] co1]|e] tr1] end.
Qed.

(** The database is gone, after its job log was indexed; the bucket is gone. *)
Definition database_reaped tr : Prop := ∀ db, t_d1_database_id tenant = Some db → Str.truthy db = true →
  (∃ rows n, answered (SIndexRunpodJobs (t_id tenant) (t_slug tenant) rows) (Ok n) tr) ∧ answered (CDeleteD1 db) (Ok tt) tr ∧ blanked ResD1 tr.
Definition bucket_reaped tr : Prop := ∀ b, t_r2_bucket_name tenant = Some b → Str.truthy b = true →
  answered (CDeleteR2Bucket b) (Ok tt) tr ∧ blanked ResBucket tr.

Lemma database_leg_collects : collects (database_leg ask tenant opts rs) database_reaped.
Proof using Type.
unfold database_leg, database_reaped. destruct (t_d1_database_id tenant) as [db|]; [|by apply collects_ret].
destruct (Str.truthy db) eqn:Et; [|apply collects_ret; by intros tr db' [= <-] E; rewrite Et in E].
apply guarded_collects.
eapply (collects_attempt _ (λ _ tr, ∃ rows n, answered (SIndexRunpodJobs (t_id tenant) (t_slug tenant) rows) (Ok n) tr)
  (λ r co, match r with inl e => mret (add_failure "job_index_harvest" (exn_text e) co) | inr _ => tried ask tenant "d1" (plain_leg (perform ask (CDeleteD1 db))) (Some ResD1) never_absent co end)
  (λ r tr, match r with inr _ => answered (CDeleteD1 db) (Ok tt) tr ∧ blanked ResD1 tr | inl _ => False end)).
- apply harvest_and_index_safe; [apply _|done|done].
- apply _.
- intros [e|u]; [apply collects_fail|]. eapply collects_weaken; [apply tried_collects; [|apply call_leg_answers]; apply _|].
  intros tr [(r & (a & Ha & Hr) & Habs) Hb]. split; [|done]. destruct r as [e|]; [done|]. by destruct a as [[]|].
- intros [e|u] tr Hi Hq; [done|]. by intros db' [= <-] _.
Qed.

Lemma revoke_collects m : collects (revoke_credential ask m) (λ _, True).
Proof using Type.
unfold revoke_credential. eapply (collects_call _ (λ r co, mret match r with inr _ => co | inl e => add_failure "r2_empty_credential"
  ("teardown credential " +:+ mc_id m +:+ " could NOT be revoked, revoke it by hand: " +:+ exn_text e) co end) (λ _ _, True)); [|done].
intros [x|e]; [by apply collects_ret|]. eapply collects_weaken; [apply collects_fail|done].
Qed.
(** The cycle's credential is revoked whatever happened, and a failure to is collected. *)
Lemma empty_leg_answers bucket : leg_answers (emptyThenDeleteBucket ask digest deps tenant pages bucket)
  (λ r tr, r = None → answered (CDeleteR2Bucket bucket) (Ok tt) tr).
Proof using Type.
intros co tr. unfold emptyThenDeleteBucket. rewrite attempt_bind, perform_run. set (c := TMintBucketToken _ _).
destruct (ask tr c) as [m|e]; [|eexists co, _, _; split; [reflexivity|]; split_and!; [by eexists|done|done]].
set (tr1 := tr ++ [Ev c (Ok m)]). assert (tr `prefix_of` tr1) as Hpre by by eexists. clearbody tr1. rewrite attempt_bind.
assert (grows (empty_and_delete ask digest deps pages bucket m) (λ _, answered (CDeleteR2Bucket bucket) (Ok tt))) as Hg.
{ unfold empty_and_delete. apply safe_then; [apply _|eapply safe_weaken; [by apply (emptying_safe ask _ (λ _ _, True) (λ _, True))|done|done]|].
  intros r. destruct (negb _); [apply safe_throw|]. eapply safe_weaken; [by apply (safe_perform _ _ (λ _, True))|done|]. intros [] tr0 _ Ha; exact Ha. }
destruct (grows_run _ _ tr1 Hg) as [Ht Hr]. destruct (empty_and_delete ask digest deps pages bucket m tr1) as [worked tr2]. cbn in Ht, Hr.
destruct (revoke_collects m co tr2) as (co' & tr' & E & Ht' & Hc & _).
destruct worked as [[]|e]; rewrite bind_run, E; (eexists co', _, tr'; split; [reflexivity|]; split_and!; [by do 2 (etrans; [eassumption|])|done|intros _ Er]); [|done].
by eapply stable_answered.
Qed.
Lemma bucket_leg_collects : collects (bucket_leg ask digest deps tenant opts pages rs) bucket_reaped.
Proof using Type.
unfold bucket_leg, bucket_reaped. destruct (t_r2_bucket_name tenant) as [b|]; [|by apply collects_ret].
destruct (Str.truthy b) eqn:Et; [|apply collects_ret; by intros tr b' [= <-] E; rewrite Et in E].
apply guarded_collects. eapply collects_weaken; [apply tried_collects; [|apply empty_leg_answers]; apply _|].
intros tr [(r & Hr & Habs) Hb] b' [= <-] _. split; [|done]. destruct r; [done|by apply Hr].
Qed.
End legs_reap.

(** Everything the pass was to take is gone, and the row says so. *)
Definition all_reaped tr : Prop :=
  reaped deps tenant ResWorker tr ∧ blanked ResWorker tr ∧ swept tr ∧ credentials_reaped tr ∧
  (to_deleteData opts = true → database_reaped tr ∧ bucket_reaped tr).
Lemma data_legs_collect rs :
  collects (data_legs ask digest deps tenant opts pages rs) (λ tr, to_deleteData opts = true → database_reaped tr ∧ bucket_reaped tr).
Proof.
unfold data_legs. destruct (to_deleteData opts); [|by apply collects_ret].
eapply collects_weaken; [apply collects_then; [|apply database_leg_collects|apply bucket_leg_collects]|by intros tr H _].
unfold database_reaped. apply _.
Qed.

(** The same from any trace. *)
Lemma teardown_run tr : ∃ o tr', teardownTenant ask digest deps tenant opts pages tr = (Ok o, tr') ∧
    (td_ok o = true ↔ td_failures o = []) ∧
    (∃ pre a, tr' = pre ++ [Ev (SRecordTeardown (t_id tenant) (td_failures o)) a]) ∧
    (td_ok o = true → unheld tenant tr' ∧ all_reaped tr').
Proof.
assert (∀ fs trx, recordTeardownSafely ask tenant fs trx = (Ok tt, trx ++ [Ev (SRecordTeardown (t_id tenant) fs) (ask trx (SRecordTeardown (t_id tenant) fs))])) as Hrec.
{ intros fs trx. unfold recordTeardownSafely. rewrite attempt_bind, perform_run. by destruct (ask trx _) as [[]|e]. }
assert (∀ resource message trx, ∃ o tr', refused_pass ask tenant resource message trx = (Ok o, tr') ∧
  (td_ok o = true ↔ td_failures o = []) ∧ (∃ pre a, tr' = pre ++ [Ev (SRecordTeardown (t_id tenant) (td_failures o)) a]) ∧
  (td_ok o = true → unheld tenant tr' ∧ all_reaped tr')) as Hrefused.
{ intros resource message trx. unfold refused_pass. rewrite bind_run, Hrec. eexists _, _. split; [reflexivity|]. cbn. split_and!; [done|by eexists _, _|done]. }
unfold teardownTenant. rewrite attempt_bind, perform_run. destruct (ask tr (SListOpenHolds (t_id tenant))) as [[|h held]|e]; [|apply Hrefused..].
set (tr0 := tr ++ _). assert (unheld tenant tr0) as Hu by (apply elem_of_app; right; left). clearbody tr0.
rewrite attempt_bind, perform_run. set (c := SFindResourceReferrers _ _). destruct (ask tr0 c) as [rs|e]; [|apply Hrefused].
set (tr1 := tr0 ++ [Ev c (Ok rs)]). assert (tr0 `prefix_of` tr1) as Hpre by by eexists. clearbody tr1.
pose proof (collects_then _ _ _ _ _ (worker_leg_collects rs) (collects_then _ _ _ _ _ modules_leg_collects
  (collects_then _ _ _ _ _ (token_legs_collects rs) (data_legs_collect rs)))) as Hpass.
destruct (Hpass (mkCollected [] []) tr1) as (co & tr2 & E & Ht & _ & Hq). unfold teardown_pass. rewrite bind_run. unfold teardown_legs. setoid_rewrite E.
rewrite bind_run, Hrec. eexists _, _. split; [reflexivity|]. cbn. split_and!.
- rewrite Nat.eqb_eq. apply length_zero_iff_nil.
- by eexists _, _.
- intros Hok%Nat.eqb_eq%length_zero_iff_nil. assert (tr0 `prefix_of` tr2) as Hpre' by (etrans; [exact Hpre|exact Ht]).
  split; [eapply stable_answered; [|exact Hu]; etrans; [exact Hpre'|by eexists]|].
  assert (Stable all_reaped) as Hs by (unfold all_reaped, database_reaped, bucket_reaped; apply _).
  eapply Hs; [by eexists|]. destruct (Hq Hok) as ([? ?] & ? & ? & ?). by split_and!.
Qed.
(** A teardown always answers, and [ok] means everything is gone.  Whatever fails underneath, the
    pass returns an outcome instead of throwing and the last thing it does is to record it on the row;
    [ok] is reported exactly when nothing failed, and then no preservation hold was open, the worker was
    deleted (or found absent), no module script was left, every credential was revoked, the data the
    caller asked to delete was deleted, its job log indexed first, and every column was blanked. *)
Theorem teardown_reports_what_it_reaped :
  ∃ o tr, teardownTenant ask digest deps tenant opts pages [] = (Ok o, tr) ∧
    (td_ok o = true ↔ td_failures o = []) ∧
    (∃ pre a, tr = pre ++ [Ev (SRecordTeardown (t_id tenant) (td_failures o)) a]) ∧
    (td_ok o = true → unheld tenant tr ∧ all_reaped tr).
Proof. apply teardown_run. Qed.
#[export] Instance stable_all_reaped : Stable all_reaped.
Proof. unfold all_reaped, database_reaped, bucket_reaped; apply _. Qed.
(** Both halves: within the policy, and what its verdict rests on. *)
Lemma teardown_clean al : tenant_id (t_id tenant) → (∀ tr c, teardown_calls digest deps tenant opts tr c → al tr c) →
  safe al (λ _, True) (teardownTenant ask digest deps tenant opts pages)
    (λ o tr, (td_ok o = true ↔ td_failures o = []) ∧ (td_ok o = true → unheld tenant tr ∧ all_reaped tr)).
Proof.
intros Hid Hal tr Ho _. destruct (teardown_safe ask digest deps tenant opts pages Hid al Hal tr Ho I) as (H1 & H2 & _).
destruct (teardown_run tr) as (o & tr' & E & Hf & _ & Hq). rewrite E in *. by split_and!.
Qed.
End outcome.

(** ** No credential outlives the pass that minted it *)
Section credentials.
Context (ask : world) (digest : string → list Ascii.ascii) (deps : ProvisionDeps) (tenant : Tenant) (opts : TeardownOpts) (pages : nat).

(** The credential an event handed out, unless it has a name that is [spared]. *)
Variable spared : string → bool.
Definition minted_id (e : event) : option string :=
  match e with
  | Ev (TMintBucketToken n _) (Ok m) => if spared n then None else Some (mc_id m)
  | _ => None
  end.
(** Every bucket credential minted so far was asked to be revoked afterwards, [except] perhaps one. *)
Definition settled (except : option string) (tr : trace) : Prop := ∀ pre e post id,
  tr = pre ++ e :: post → minted_id e = Some id → except = Some id ∨ ∃ a, Ev (TRevoke id) a ∈ post.
Definition mints (c : call) : bool := match c with TMintBucketToken _ _ => true | _ => false end.

Lemma split_snoc {A} (l : list A) x pre y post : l ++ [x] = pre ++ y :: post →
  (post = [] ∧ l = pre ∧ x = y) ∨ ∃ post', post = post' ++ [x] ∧ l = pre ++ y :: post'.
Proof.
intros E. destruct post as [|z post _] using rev_ind; [left; by apply app_inj_tail in E as [-> ->]|right].
exists post. rewrite app_comm_cons, app_assoc in E. by apply app_inj_tail in E as [-> ->].
Qed.
Lemma settled_add except except' tr e : settled except tr → (∀ id, minted_id e = Some id → except' = Some id) →
  (∀ id, except = Some id → except' = Some id ∨ ∃ a, Ev (TRevoke id) a = e) → settled except' (tr ++ [e]).
Proof.
intros H He Hid pre e' post id [(-> & -> & ->)|(post' & -> & E)]%split_snoc Hm; [by left; apply He|].
destruct (H _ _ _ _ E Hm) as [Hex|[a Ha]].
- destruct (Hid _ Hex) as [?|[a <-]]; [by left|right]. exists a. apply elem_of_app. right. left.
- right. exists a. apply elem_of_app. by left.
Qed.
Lemma settled_none except tr e : minted_id e = None → settled except tr → settled except (tr ++ [e]).
Proof. intros He H. eapply settled_add; [exact H| |by intros id ->; left]. intros id. by rewrite He. Qed.
Lemma settled_snoc except tr c a : mints c = false → settled except tr → settled except (tr ++ [Ev c a]).
Proof. intros Hc. apply settled_none. by destruct c. Qed.
Lemma only_settled {E A} ok except (m : M trace E A) : only ok m → (∀ c, ok c = true → mints c = false) → preserves (settled except) m.
Proof. intros Hm Hok. eapply only_preserves; [exact Hm|]. intros tr c a Hc. by apply settled_snoc, Hok. Qed.
Lemma ask_settled except c : mints c = false → preserves (settled except) (perform ask c).
Proof. intros Hc tr H. by apply settled_snoc. Qed.
Ltac settle := preserve; try (apply ask_settled; reflexivity).

Lemma emptying_settled except o fuel : preserves (settled except) (emptyBucketBounded ask o fuel).
Proof. eapply only_settled; [apply emptying_only|]. by intros []. Qed.
(** Everything else a teardown asks. *)
Lemma leg_settled {E A} except (m : M trace E A) : only teardown_kind m → preserves (settled except) m.
Proof. intros H. eapply only_settled; [exact H|]. by intros []. Qed.

(** Minted, used, revoked. *)
Lemma bucket_cycle_settled bucket c : preserves (settled None) (emptyThenDeleteBucket ask digest deps tenant pages bucket c).
Proof.
intros tr H. unfold exec, emptyThenDeleteBucket. rewrite attempt_bind, perform_run. set (mint := TMintBucketToken _ _).
destruct (ask tr mint) as [m|e]; [|eapply settled_add; [exact H|done|done]].
assert (settled (Some (mc_id m)) (tr ++ [Ev mint (Ok m)])) as H1.
{ eapply settled_add; [exact H| |done]. cbn. intros id. by destruct (spared _). }
assert (preserves (settled (Some (mc_id m))) (empty_and_delete ask digest deps pages bucket m)) as Hw.
{ unfold empty_and_delete. preserve; [apply emptying_settled|by apply ask_settled]. }
specialize (Hw _ H1). unfold exec in Hw. rewrite attempt_bind.
assert (∀ r : option exn, ∀ tr2, settled (Some (mc_id m)) tr2 → settled None ((c ← revoke_credential ask m c; mret (c, r)) tr2).2) as Hrev.
{ intros r tr2 H2. unfold revoke_credential. rewrite bind_run, attempt_bind, perform_run.
  assert (∀ a, settled None (tr2 ++ [Ev (TRevoke (mc_id m)) a])) as H3 by (intros a; eapply settled_add; [exact H2|done|]; intros id [= <-]; right; by exists a).
  destruct (ask tr2 _); apply H3. }
destruct (empty_and_delete ask digest deps pages bucket m _) as [[[]|e] tr2]; by apply Hrev.
Qed.

Lemma teardown_settled : preserves (settled None) (teardownTenant ask digest deps tenant opts pages).
Proof.
unfold teardownTenant, refused_pass, teardown_pass, teardown_legs, data_legs, bucket_leg, tried.
preserve; try (apply leg_settled; first [apply worker_only|apply modules_only|apply tokens_only|apply database_only|apply guarded_only|apply record_only|apply clear_only]);
  try (by apply ask_settled); apply bucket_cycle_settled.
Qed.
Lemma settled_nil except : settled except [].
Proof. intros [|? ?] ? ? ? [=]. Qed.
End credentials.

(** No credential outlives the pass that minted it.  Whatever the bucket does, every bucket
    credential a teardown mints is asked to be revoked later in the same pass, on every path. *)
Theorem teardown_revokes_what_it_mints ask digest deps tenant opts pages :
  let '(r, tr) := teardownTenant ask digest deps tenant opts pages [] in
  ∀ pre name b m post, tr = pre ++ Ev (TMintBucketToken name b) (Ok m) :: post → ∃ a, Ev (TRevoke (mc_id m)) a ∈ post.
Proof.
pose proof (teardown_settled ask digest deps tenant opts pages (λ _, false) [] (settled_nil _ None)) as H. unfold exec in H.
destruct (teardownTenant ask digest deps tenant opts pages []) as [r tr]. intros pre name b m post E.
by destruct (H _ _ _ (mc_id m) E) as [|?].
Qed.
