(* ===== verification/Provision.v ===== *)
(** * Provisioning a tenant (src/provisioner.ts)

    One invocation runs the steps that are not done yet, recording each before the next; a spent budget
    yields, a failure closes the job, marks the tenant and tears it down again.  The heartbeat that
    renews the lease meanwhile is left to the world.  The last part shows that every database, bucket
    and credential of the bucket a provision creates is written to the tenant's row by the very next
    call (the one its rollback empties the bucket with is revoked instead), and that the progress of a
    job is always a prefix of the step list, the step just finished last. *)

From S2P Require Export TenantStudio Migrate Teardown.
From Stdlib Require Import Ascii.
Open Scope string_scope.
Open Scope list_scope.
Open Scope Z_scope.
Open Scope plane_scope.

(** ** Steps, clock and outcomes *)
Definition PROVISION_STEPS : list step :=
  [D1Create; D1Migrate; R2Bucket; R2Token; RunpodEndpoints; WfpUpload; ModulesUpload; ModulesInstall; VerifyStep].
Definition PROVISION_INVOCATION_BUDGET_MS : Z := 15000.
Definition YIELD_UNSAFE_STEPS : list step := [].
Definition SPEND_RATELIMIT_NAMESPACE : string := "3001".
Definition REPROVISION_DESTROYS : string :=
  "this cannot be continued. POST /api/tenant/provision with the same name again destroys the partial environment and starts over from scratch".

Inductive ProvisionOutcome := AwaitingGoLive | ProvisionFailed (s : step) (message : string) | Yielded (after : step).
Record ProvisionResume := mkResume { pr_done : list step; pr_release : string }.

Definition inferStep (done : list step) : step :=
  nth (Nat.min (length done) (length PROVISION_STEPS - 1)) PROVISION_STEPS VerifyStep.
Definition complete (done : list step) (s : step) : bool := bool_decide (s ∈ done).
(** [JSON.stringify(done)] *)
Definition steps_json (done : list step) : string := "[" +:+ Str.join "," ((λ s, Str.dq +:+ step_text s +:+ Str.dq) <$> done) +:+ "]".

(** A step of a run may throw; what was done by then goes with the error. *)
Definition thrown : Type := exn * list step.
Abbreviation pm := (M trace thrown).
Definition at_done {A} (done : list step) (m : M trace exn A) : pm A := map_err (λ e, (e, done)) m.
Definition fail {A} (done : list step) (s : step) (message : string) : pm A := throw (EProvision s message, done).

(** [try { body } catch]. *)
Definition recovered {A} (body : pm A) (handler : thrown → M trace exn A) : M trace exn A := λ tr,
  match body tr with
  | (Ok a, tr) => (Ok a, tr)
  | (Err e, tr) => handler e tr
  end.

Section provision.
Variable ask : world.
Variable sign : string → string → list ascii.
Variable seal : list ascii → list ascii → string → list ascii.
Variable open : list ascii → list ascii → list ascii → option string.
Variable digest : string → list ascii.
Variable json_parse : string → option js.
Variable json_stringify : js → string.
Variable number : string → Num.num.
Variable show : Num.num → string.
(** How many pages one emptying cycle of a rollback may see. *)
Variable pages : nat.
Variable deps : ProvisionDeps.

Definition readTenantEndpoints (tenant : Tenant) : list TenantEndpoint :=
  match t_endpoints_json tenant with
  | Some raw =>
      if Str.truthy raw then
        match json_parse raw with
        | Some (JArr l) =>
            omap (λ e, match js_field e "id", js_field e "key", js_field e "endpointVar" with
                       | JStr id, JStr key, JStr var =>
                           Some (mkEndpoint key (js_string_or_empty (js_field e "label")) id (js_string_or_empty (js_field e "name")) var)
                       | _, _, _ => None
                       end) l
        | _ => []
        end
      else []
  | None => []
  end.

(** ** Uploading the studio *)
Definition vpc_refused : string :=
  "video-finish binding refused: the plane SCRIPT UPLOAD credential is not authorized for Workers VPC (needs Connectivity Directory access). The tenant was NOT provisioned without the tier -- fix CF_WORKER_UPLOAD_TOKEN, or clear VIDEO_FINISH_VPC_SERVICE_ID to run this plane without video finishing on purpose.".
Definition uploadStudioScript (args : UploadArgs) : M trace exn unit :=
  sent ← attempt (perform ask (CUploadUserWorker args));
  match sent with
  | inr _ => mret tt
  | inl e =>
      match classifyVpcBindingFailure e (existsb is_vpc (ua_bindings args)) with
      | VpcRefused => throw (EProvision WfpUpload vpc_refused)
      | _ => throw e
      end
  end.

(** [o[k] = v] on an object, and the last entry of a map built from a list. *)
Fixpoint put {A} (k : string) (v : A) (l : list (string * A)) : list (string * A) :=
  match l with [] => [(k, v)] | (k', v') :: l => if k' =s? k then (k', v) :: l else (k', v') :: put k v l end.
Definition asset_manifest (assets : list StudioAsset) : list (string * (string * Z)) :=
  fold_left (λ m a, put (as_path a) (as_hash a, as_size a) m) assets [].
Definition asset_of (assets : list StudioAsset) (hash : string) : option StudioAsset :=
  List.find (λ a, as_hash a =s? hash) (rev assets).
Fixpoint upload_buckets (assets : list StudioAsset) (jwt : option string) (buckets : list (list string)) (completion : option string) : M trace exn (option string) :=
  match buckets with
  | [] => mret completion
  | bucket :: buckets =>
      let files := omap (asset_of assets) bucket in
      if (length files =? 0)%nat then upload_buckets assets jwt buckets completion
      else
        res ← perform ask (CUploadAssetBucket (default "" jwt) files);
        upload_buckets assets jwt buckets (if opt_set res then res else completion)
  end.
Definition uploadStudioAssets (slug : string) (assets : list StudioAsset) : M trace exn (option string) :=
  session ← perform ask (CCreateAssetsSession (dp_namespace deps) (tenantScriptName slug) (asset_manifest assets));
  upload_buckets assets (as_jwt session) (as_buckets session) (as_jwt session).

(** A gateway token under a fixed name: the one there is revoked first. *)
Definition fresh_aig_token (name : string) : M trace exn (option string) :=
  if opt_set (dp_aiGatewayId deps) then
    _ ← attempt (perform ask (TRevokeByName name));
    minted ← perform ask (TMintAigToken name);
    mret (Some (mc_value minted))
  else mret None.

(** ** Verifying the studio and its modules *)
Definition required_bindings (endpoints : list TenantEndpoint) : list string :=
  ["DB"; "R2_RENDERS"; "ASSETS"; "SPEND_RATE_LIMITER"] ++ REQUIRED_TENANT_STUDIO_VARS ++ (te_endpointVar <$> endpoints).
Definition required_secrets : list string := ["R2_S3_SECRET_ACCESS_KEY"; "STUDIO_API_TOKEN"].
Definition first_missing (required present : list string) : option string := List.find (λ n, negb (bool_decide (n ∈ present))) required.
Definition verify_studio (script : string) (endpoints : list TenantEndpoint) (studioApiToken : string) : M trace exn unit :=
  bindings ← perform ask (CGetScriptBindings (dp_namespace deps) script);
  match first_missing (required_bindings endpoints) (bl_name <$> bindings) with
  | Some need => throw (EProvision VerifyStep ("tenant worker is missing the " +:+ need +:+ " binding after upload"))
  | None =>
      secrets ← perform ask (CGetScriptSecretNames (dp_namespace deps) script);
      match first_missing required_secrets secrets with
      | Some need => throw (EProvision VerifyStep ("tenant worker is missing the " +:+ need +:+ " secret after upload"))
      | None =>
          '(status, text) ← perform ask (XCallStudio script "GET" "/" studioApiToken None);
          if 500 <=? status then
            throw (EProvision VerifyStep ("tenant studio root returned " +:+ Str.of_int status +:+ "; the worker is not serving"))
          else _ ← verifyTenantModulesInstalled ask json_parse script studioApiToken; mret tt
      end
  end.

(** ** Progress *)
Section run.
Variable jobId : string.
Variable tenant : Tenant.
Variable budgetMs : Z.

(** [yieldUnsafe] is what the caller lets no budget interrupt. *)
Definition mark (startedAt : Z) (yieldUnsafe : step → bool) (done : list step) (s : step) : pm (list step) :=
  let done := if complete done s then done else done ++ [s] in
  _ ← at_done done (perform ask (SUpdateJobProgress jobId s done));
  at_ ← at_done done (perform ask KNow);
  if negb (yieldUnsafe s) && (budgetMs <=? at_ - startedAt) then throw (EYield s, done) else mret done.
Definition unsafe_step (s : step) : bool := bool_decide (s ∈ YIELD_UNSAFE_STEPS).

(** How a run that threw ends. *)
Definition rollbackFailedProvision : M trace exn unit :=
  _ ← attempt (
    fresh ← perform ask (SGetTenantById (t_id tenant));
    match fresh with
    | None => mret tt
    | Some fresh => _ ← teardownTenant ask digest deps fresh (mkTeardownOpts true false) pages; mret tt
    end);
  mret tt.
Definition failed_at (e : exn) (done : list step) : step :=
  match e with EProvision s _ | EModule s _ => s | _ => inferStep done end.
Definition failed_message (e : exn) : string :=
  match e with ECf _ _ _ | EProvision _ _ | EModule _ _ => exn_message e | _ => exn_text e end.
Definition on_failure (thrown : thrown) : M trace exn ProvisionOutcome :=
  let '(e, done) := thrown in
  match e with
  | EYield after => _ ← perform ask (SReleaseJobLease jobId); mret (Yielded after)
  | _ =>
      let s := failed_at e done in
      let message := failed_message e in
      closed ← perform ask (SFinishJob jobId false (Some s) (Some message));
      if negb closed then mret (ProvisionFailed s message)
      else
        _ ← perform ask (SSetTenantStatus (t_id tenant) "failed");
        _ ← rollbackFailedProvision;
        mret (ProvisionFailed s message)
  end.
(** ** A run *)
Section body.
Variable startedAt : Z.
Variable resume : option ProvisionResume.
Definition release : string := match resume with Some r => pr_release r | None => dp_release deps end.
Definition run_mark : list step → step → pm (list step) :=
  mark startedAt (λ s, unsafe_step s || match resume with Some _ => bool_decide (s = R2Token) | None => false end).

(** The bundle, its contract with the studio's variables, and the ceiling: nothing is made before these hold. *)
Definition precondition (done : list step) : pm (StudioBundle * ResolvedStorageQuota) :=
  _ ← at_done done (perform ask (SSetJobRunning jobId));
  _ ← at_done done (perform ask (SSetTenantStatus (t_id tenant) "provisioning"));
  fetched ← at_done done (attempt (perform ask (BFetchStudio release)));
  match fetched with
  | inl e => fail done BundleFetch (exn_message e)
  | inr built =>
      match assertDispositionCoversContract (sb_requiredVars built) with
      | Err e => fail done BundleFetch (exn_message e)
      | Ok _ =>
          let quota := resolveStorageQuota number show (dp_storageQuota deps) (quota_row tenant) in
          match rq_blocked quota with Some why => fail done BundleFetch why | None => mret (built, quota) end
      end
  end.

Definition database_step (done : list step) : pm (string * list step) :=
  if complete done D1Create then mret (default "" (t_d1_database_id tenant), done)
  else
    uuid ← at_done done (perform ask (CCreateD1 (tenantD1Name (t_slug tenant))));
    _ ← at_done done (perform ask (SSetTenantD1 (t_id tenant) uuid));
    done ← run_mark done D1Create;
    mret (uuid, done).
Definition migrate_step (built : StudioBundle) (dbUuid : string) (done : list step) : pm (list step) :=
  if complete done D1Migrate then mret done
  else
    _ ← at_done done (applyStudioMigrations ask show dbUuid (sb_migrations built));
    run_mark done D1Migrate.
Definition bucket : string := tenantBucketName (t_slug tenant).
Definition bucket_step (done : list step) : pm (list step) :=
  if complete done R2Bucket then mret done
  else
    _ ← at_done done (perform ask (CCreateR2Bucket bucket));
    _ ← at_done done (perform ask (SSetTenantBucket (t_id tenant) bucket));
    run_mark done R2Bucket.
(** Minted on every run, a resumed one too: its value is never stored. *)
Definition token_step (done : list step) : pm (MintedCredential * list step) :=
  token ← at_done done (perform ask (TMintBucketToken (tenantR2TokenName (t_slug tenant)) bucket));
  _ ← at_done done (perform ask (SSetTenantR2Token (t_id tenant) (mc_id token)));
  done ← run_mark done R2Token;
  mret (token, done).

(** The pool's endpoints, or those recorded; nothing where the plane offers no pool. *)
Definition unreadable_endpoints : string :=
  "the endpoints recorded for this tenant cannot be read, although the provision got past the step that writes them; " +:+ REPROVISION_DESTROYS.
Definition endpoints_step (done : list step) : pm (option (list TenantEndpoint * RunPodMode * list step)) :=
  if complete done RunpodEndpoints then
    match readTenantEndpoints tenant with
    | [] => fail done RunpodEndpoints unreadable_endpoints
    | endpoints => done ← run_mark done RunpodEndpoints; mret (Some (endpoints, readRunPodMode (Some (t_runpod_mode tenant)), done))
    end
  else match dp_sharedPool deps with
  | Some pool =>
      _ ← at_done done (perform ask (SSetTenantRunPodMode (t_id tenant) Shared));
      _ ← at_done done (perform ask (SSetTenantEndpoints (t_id tenant) (pool_endpoints pool)));
      done ← run_mark done RunpodEndpoints;
      mret (Some (pool_endpoints pool, Shared, done))
  | None => mret None
  end.

Definition studio_bindings (dbUuid : string) (token : MintedCredential) (studioApiToken : string) (aig : option string)
    (endpoints : list TenantEndpoint) (quota : ResolvedStorageQuota) : list WorkerBinding :=
  [BAssets "ASSETS"; BDispatchNamespace "MODULE_DISPATCH" (dp_moduleNamespace deps); BD1 "DB" dbUuid; BR2 "R2_RENDERS" bucket; BR2 "R2" bucket;
   BPlainText "AUTH_MODE" "token"; BPlainText "R2_S3_BUCKET" bucket; BPlainText "R2_S3_ENDPOINT" (dp_r2Endpoint deps)] ++
  ((λ e, BPlainText (te_endpointVar e) (te_id e)) <$> endpoints) ++
  [BSecretText "R2_S3_ACCESS_KEY_ID" (mc_id token); BSecretText "R2_S3_SECRET_ACCESS_KEY" (sha256Hex digest (mc_value token));
   BSecretText "STUDIO_API_TOKEN" studioApiToken; BRatelimit "SPEND_RATE_LIMITER" SPEND_RATELIMIT_NAMESPACE 30 60] ++
  (if opt_set (dp_spendDailyCeiling deps) then [BPlainText "SPEND_DAILY_CEILING" (default "" (dp_spendDailyCeiling deps))] else []) ++
  storageQuotaBindings (rq_bytes quota) (sq_mode (dp_storageQuota deps)) ++
  ((λ kv, BPlainText kv.1 kv.2) <$> dp_mediaDoorUrls deps) ++
  videoFinishTierStateBindings tenant ++
  abuseReportUrlBindings (dp_abuseReportUrl deps) ++
  [BAi "AI"] ++
  (if opt_set (dp_aiGatewayId deps) && opt_set aig
   then [BPlainText "GATEWAY_ID" (default "" (dp_aiGatewayId deps)); BSecretText "CF_AIG_TOKEN" (default "" aig)] else []).

(** The studio uploaded and recorded; the token it will answer to. *)
Definition studio_step (built : StudioBundle) (quota : ResolvedStorageQuota) (dbUuid : string) (token : MintedCredential)
    (endpoints : list TenantEndpoint) (done : list step) : pm (string * list step) :=
  let script := tenantScriptName (t_slug tenant) in
  jwt ← at_done done (match sb_assets built with [] => mret None | assets => uploadStudioAssets (t_slug tenant) assets end);
  bytes ← at_done done (perform ask (KRandom 32));
  let studioApiToken := randomToken bytes in
  aig ← at_done done (fresh_aig_token (tenantStudioAigTokenName (t_slug tenant)));
  _ ← at_done done (uploadStudioScript
        (mkUpload (dp_namespace deps) script (sb_mainModule built) (sb_moduleText built) (sb_compatibilityDate built) (sb_compatibilityFlags built)
           (studio_bindings dbUuid token studioApiToken aig endpoints quota) jwt (sb_assetsConfig built)));
  _ ← at_done done (perform ask (SSetTenantScript (t_id tenant) script release));
  iv ← at_done done (perform ask (KRandom IV_BYTES));
  enc ← at_done done (lift match encryptStudioToken seal (dp_kek deps) iv studioApiToken with Ok enc => Ok enc | Err text => Err (error text) end);
  _ ← at_done done (perform ask (SSetTenantStudioToken (t_id tenant) enc));
  done ← run_mark done WfpUpload;
  mret (studioApiToken, done).
(** The credential a new one has replaced. *)
Definition revoke_previous (token : MintedCredential) (done : list step) : pm unit :=
  match t_r2_token_id tenant with
  | Some previous =>
      if Str.truthy previous && negb (previous =s? mc_id token)
      then _ ← at_done done (attempt (perform ask (TRevoke previous))); mret tt
      else mret tt
  | None => mret tt
  end.

Definition modules_steps (dbUuid studioApiToken : string) (endpoints : list TenantEndpoint) (mode : RunPodMode) (done : list step) : pm (list step) :=
  aig ← at_done done (fresh_aig_token (tenantAigTokenName (t_slug tenant)));
  _ ← at_done done (uploadTenantModules ask sign deps
        (mkUploadContext release (t_id tenant) (t_slug tenant) endpoints (Some dbUuid) (Some bucket) mode None aig));
  done ← run_mark done ModulesUpload;
  _ ← at_done done (installTenantModules ask json_stringify (t_id tenant) (tenantScriptName (t_slug tenant)) studioApiToken);
  run_mark done ModulesInstall.
Definition go_live (studioApiToken : string) (endpoints : list TenantEndpoint) (done : list step) : pm ProvisionOutcome :=
  _ ← at_done done (perform ask (SSetTenantModulesRelease (t_id tenant) (Some release)));
  _ ← at_done done (verify_studio (tenantScriptName (t_slug tenant)) endpoints studioApiToken);
  done ← run_mark done VerifyStep;
  _ ← at_done done (perform ask (SSetTenantStatus (t_id tenant) "awaiting_go_live"));
  _ ← at_done done (perform ask (SFinishJob jobId true None None));
  mret AwaitingGoLive.

Definition run_body : pm ProvisionOutcome :=
  let done := match resume with Some r => pr_done r | None => [] end in
  '(built, quota) ← precondition done;
  '(dbUuid, done) ← database_step done;
  done ← migrate_step built dbUuid done;
  done ← bucket_step done;
  '(token, done) ← token_step done;
  placed ← endpoints_step done;
  match placed with
  | None => mret (ProvisionFailed RunpodEndpoints "runpod_key_required")
  | Some (endpoints, mode, done) =>
      '(studioApiToken, done) ← studio_step built quota dbUuid token endpoints done;
      _ ← revoke_previous token done;
      done ← modules_steps dbUuid studioApiToken endpoints mode done;
      go_live studioApiToken endpoints done
  end.
End body.
Definition runProvisionJob (resume : option ProvisionResume) : M trace exn ProvisionOutcome :=
  startedAt ← perform ask KNow;
  recovered (run_body startedAt resume) on_failure.

(** ** The module steps on a studio that is there *)
Record ModuleStepsArgs := mkModuleArgs {
  ma_script : string; ma_endpoints : list TenantEndpoint; ma_studioApiToken : string; ma_release : string; ma_telemetryD1 : option string;
  ma_bucket : option string; ma_mode : RunPodMode; ma_prefetched : option bundles;
}.
Definition runModuleSteps (args : ModuleStepsArgs) (shouldRun : list step → step → bool) (onDone : list step → step → pm (list step))
    (done : list step) : pm (list step) :=
  done ← (if shouldRun done ModulesUpload then
            aig ← at_done done (fresh_aig_token (tenantAigTokenName (t_slug tenant)));
            _ ← at_done done (uploadTenantModules ask sign deps
                  (mkUploadContext (ma_release args) (t_id tenant) (t_slug tenant) (ma_endpoints args) (ma_telemetryD1 args) (ma_bucket args)
                     (ma_mode args) (ma_prefetched args) aig));
            onDone done ModulesUpload
          else mret done);
  done ← (if shouldRun done ModulesInstall then
            _ ← at_done done (installTenantModules ask json_stringify (t_id tenant) (ma_script args) (ma_studioApiToken args));
            onDone done ModulesInstall
          else mret done);
  if shouldRun done VerifyStep then
    _ ← at_done done (verify_studio (ma_script args) (ma_endpoints args) (ma_studioApiToken args));
    onDone done VerifyStep
  else mret done.

(** ** Continuing an interrupted provision *)
Definition not_contiguous (done : list step) : string :=
  "job progress is not contiguous (" +:+ steps_json done +:+ "), so no step order can be inferred from it; this row cannot be resumed".
Definition database_missing : string :=
  "the job progress record says the database was created but the tenant row has no database id, so this row is inconsistent and cannot be resumed".
Definition job_missing : string := "job " +:+ jobId +:+ " no longer exists; this row cannot be resumed".
Definition mode_unrecorded : string :=
  "this provision was started before the plane recorded which RunPod shape it was for, so there is no way to tell whether it can be finished without the original key; " +:+ REPROVISION_DESTROYS.
Definition mode_dedicated : string :=
  "provisioning was interrupted before the studio was uploaded, and the RunPod key needed to finish it is never stored; " +:+ REPROVISION_DESTROYS.
Definition release_unrecorded : string :=
  "this provision did not record which release it was building, so resuming it could upload a studio that does not match the database schema already created for it; " +:+ REPROVISION_DESTROYS.
Definition mode_unrecognised (mode : string) : string :=
  "this provision records an unrecognised RunPod shape (" +:+ json_string mode +:+ "), so it cannot be resumed; " +:+ REPROVISION_DESTROYS.
Definition token_missing : string :=
  "no studio token is recorded for this tenant, although the provision got past the step that writes it, so its studio cannot be reached; " +:+ REPROVISION_DESTROYS.
Definition pin_missing : string :=
  "no studio release recorded for this tenant, so the modules that pair with its studio cannot be identified; " +:+ REPROVISION_DESTROYS.

(** Before the studio was uploaded: only a pooled provision that recorded its release starts over. *)
Definition resume_early (job : ProvisionJob) (done : list step) : pm ProvisionOutcome :=
  match p_runpod_mode job with
  | None => fail done (inferStep done) mode_unrecorded
  | Some mode =>
      if mode =s? "dedicated" then fail done (inferStep done) mode_dedicated
      else if mode =s? "shared" then
        if negb (opt_set (p_to_release job)) then fail done (inferStep done) release_unrecorded
        else at_done done (runProvisionJob (Some (mkResume done (default "" (p_to_release job)))))
      else fail done (inferStep done) (mode_unrecognised mode)
  end.
(** After it: only the module steps are left, at the release the studio was uploaded from. *)
Definition resume_late (startedAt : Z) (done : list step) : pm ProvisionOutcome :=
  match readTenantEndpoints tenant with
  | [] => fail done RunpodEndpoints unreadable_endpoints
  | endpoints =>
      if negb (opt_set (t_studio_token_enc tenant)) then fail done WfpUpload token_missing
      else
        studioApiToken ← at_done done (lift match decryptStudioToken open (dp_kek deps) (default "" (t_studio_token_enc tenant)) with
                                            | Ok token => Ok token | Err text => Err (error text) end);
        if negb (opt_set (t_studio_release tenant)) then fail done WfpUpload pin_missing
        else
          let pinned := default "" (t_studio_release tenant) in
          done ← runModuleSteps
                (mkModuleArgs (tenantScriptName (t_slug tenant)) endpoints studioApiToken pinned (t_d1_database_id tenant) (t_r2_bucket_name tenant)
                   (readRunPodMode (Some (t_runpod_mode tenant))) None)
                (λ done s, negb (complete done s)) (mark startedAt unsafe_step) done;
          _ ← at_done done (perform ask (SSetTenantModulesRelease (t_id tenant) (Some pinned)));
          _ ← at_done done (perform ask (SSetTenantStatus (t_id tenant) "awaiting_go_live"));
          _ ← at_done done (perform ask (SFinishJob jobId true None None));
          mret AwaitingGoLive
  end.
Definition recorded_steps (stepsDone : list string) : list step := jfilter (λ s, bool_decide (step_text s ∈ stepsDone)) PROVISION_STEPS.
Definition continue_body (startedAt : Z) (done : list step) : pm ProvisionOutcome :=
  if negb (bool_decide (done = firstn (length done) PROVISION_STEPS)) then fail done (inferStep done) (not_contiguous done)
  else if complete done D1Create && match t_d1_database_id tenant with None => true | Some _ => false end then fail done D1Create database_missing
  else
    found ← at_done done (perform ask (SGetJob jobId));
    match found with
    | None => fail done (inferStep done) job_missing
    | Some job => if negb (complete done WfpUpload) then resume_early job done else resume_late startedAt done
    end.
Definition continueProvisionJob (stepsDone : list string) : M trace exn ProvisionOutcome :=
  startedAt ← perform ask KNow;
  recovered (continue_body startedAt (recorded_steps stepsDone)) on_failure.
End run.

(** ** Upgrading the modules of a live tenant *)
Record ModuleUpgradeContext := mkUpgradeContext {
  mx_script : string; mx_endpoints : list TenantEndpoint; mx_studioApiToken : string; mx_release : string; mx_bundles : bundles;
}.
Record Refusal := mkRefusal { rf_code : string; rf_http : Z; rf_message : string }.
Definition missing_endpoints (endpoints : list TenantEndpoint) : list TenantModuleSpec :=
  jfilter (λ spec, match tm_endpointKey spec with Some k => negb (existsb (λ e, te_key e =s? k) endpoints) | None => false end) TENANT_MODULE_CATALOG.
(** What refuses before anything is asked. *)
Definition upgrade_refusal (tenant : Tenant) : option Refusal :=
  if match t_deleted_at tenant with Some _ => true | None => false end then Some (mkRefusal "tenant_deleted" 404 "this tenant no longer exists")
  else if match t_suspended_at tenant with Some _ => true | None => false end
  then Some (mkRefusal "tenant_suspended" 409 "this tenant is suspended; resume it before upgrading modules")
  else if negb (t_status tenant =s? "live")
  then Some (mkRefusal "tenant_not_live" 409 ("module upgrade requires a live tenant; this one is " +:+ t_status tenant +:+
         ". An unfinished provision is resumed through the provision job, not upgraded."))
  else if negb (opt_set (t_script_name tenant)) then Some (mkRefusal "tenant_has_no_studio" 409 "this tenant has no studio script recorded; it cannot be upgraded")
  else match missing_endpoints (readTenantEndpoints tenant) with
  | (_ :: _) as missing => Some (mkRefusal "tenant_endpoints_incomplete" 422
        ("this tenant is missing the endpoint(s) needed by: " +:+ Str.join ", " (tm_module <$> missing)))
  | [] =>
      if negb (opt_set (t_studio_token_enc tenant)) then Some (mkRefusal "tenant_studio_token_missing" 422 "no studio token recorded for this tenant")
      else None
  end.
Definition preflightModuleUpgrade (tenant : Tenant) (release : string) : M trace exn (Refusal + ModuleUpgradeContext) :=
  match upgrade_refusal tenant with
  | Some refusal => mret (inl refusal)
  | None =>
      match decryptStudioToken open (dp_kek deps) (default "" (t_studio_token_enc tenant)) with
      | Err text => mret (inl (mkRefusal "tenant_studio_token_unreadable" 422 ("the stored studio token could not be decrypted: " +:+ exn_text (error text))))
      | Ok studioApiToken =>
          let script := default "" (t_script_name tenant) in
          '(status, text) ← perform ask (XCallStudio script "GET" "/" studioApiToken None);
          if 500 <=? status then
            mret (inl (mkRefusal "tenant_studio_not_serving" 422 ("the tenant studio answered " +:+ Str.of_int status +:+ " before the upgrade started; fix that first")))
          else
            fetched ← attempt (prefetchModuleBundles ask release);
            mret match fetched with
                 | inl e => inl (mkRefusal "module_bundle_unavailable" 422 (match e with EModule _ m => m | _ => exn_text e end))
                 | inr got => inr (mkUpgradeContext script (readTenantEndpoints tenant) studioApiToken release got)
                 end
      end
  end.

Inductive ModuleUpgradeOutcome := ModulesUpgraded (release : string) (modules : list string) | UpgradeFailed (s : step) (message : string).
Definition exhausted_message (after : step) : string :=
  "the upgrade ran out of its invocation budget after " +:+ step_text after +:+
  "; module bytes may be mixed (see steps_done) and the tenant is still serving. Re-run the upgrade to finish it, or re-run at from_release to go back.".
Definition upgrade_body (jobId : string) (tenant : Tenant) (context : ModuleUpgradeContext) (budgetMs startedAt : Z) : pm ModuleUpgradeOutcome :=
  _ ← at_done [] (perform ask (SSetJobRunning jobId));
  _ ← at_done [] (perform ask (SSetTenantModulesRelease (t_id tenant) None));
  done ← runModuleSteps tenant
        (mkModuleArgs (mx_script context) (mx_endpoints context) (mx_studioApiToken context) (mx_release context) (t_d1_database_id tenant)
           (t_r2_bucket_name tenant) (readRunPodMode (Some (t_runpod_mode tenant))) (Some (mx_bundles context)))
        (λ _ _, true) (mark jobId budgetMs startedAt unsafe_step) [];
  _ ← at_done done (perform ask (SSetTenantModulesRelease (t_id tenant) (Some (mx_release context))));
  _ ← at_done done (perform ask (SFinishJob jobId true None None));
  mret (ModulesUpgraded (mx_release context) (tm_module <$> TENANT_MODULE_CATALOG)).
Definition upgrade_failure (jobId : string) (thrown : thrown) : M trace exn ModuleUpgradeOutcome :=
  let '(e, done) := thrown in
  let '(s, message) := match e with EYield after => (after, exhausted_message after) | _ => (failed_at e done, failed_message e) end in
  _ ← perform ask (SFinishJob jobId false (Some s) (Some message));
  mret (UpgradeFailed s message).
Definition upgradeTenantModules (jobId : string) (tenant : Tenant) (context : ModuleUpgradeContext) (budgetMs : Z) : M trace exn ModuleUpgradeOutcome :=
  startedAt ← perform ask KNow;
  recovered (upgrade_body jobId tenant context budgetMs startedAt) (upgrade_failure jobId).
End provision.

(** ** What a provision creates, it records *)

(** ** Calls that create nothing *)
Definition creates (c : call) : bool := match c with CCreateD1 _ | CCreateR2Bucket _ | TMintBucketToken _ _ => true | _ => false end.
Definition plain_kind (c : call) : bool := negb (creates c).

Section plain.
Context (ask : world) (sign : string → string → list ascii) (json_parse : string → option js) (json_stringify : js → string)
  (show : Num.num → string) (deps : ProvisionDeps).

Lemma migrations_plain db ms : only plain_kind (applyStudioMigrations ask show db ms).
Proof.
assert (∀ already l, only plain_kind (apply_each ask db already l)) as H by (induction l; cbn [apply_each]; unfold run_sql; walk_only).
unfold applyStudioMigrations, adopt, run_sql. walk_only; apply H.
Qed.
Lemma assets_plain slug assets : only plain_kind (uploadStudioAssets ask deps slug assets).
Proof.
assert (∀ jwt l c, only plain_kind (upload_buckets ask assets jwt l c)) as H by (induction l; intros; cbn [upload_buckets]; walk_only; auto).
unfold uploadStudioAssets. walk_only. apply H.
Qed.
Lemma aig_plain name : only plain_kind (fresh_aig_token ask deps name).
Proof. unfold fresh_aig_token. walk_only. Qed.
Lemma script_plain args : only plain_kind (uploadStudioScript ask args).
Proof. unfold uploadStudioScript. walk_only. Qed.
Lemma modules_plain uc : only plain_kind (uploadTenantModules ask sign deps uc).
Proof.
assert (∀ l, only plain_kind (upload_each ask sign deps uc l)) as H
  by (induction l; cbn [upload_each]; unfold upload_module, module_bundle, uploadModuleScript; walk_only).
unfold uploadTenantModules. walk_only. apply H.
Qed.
Lemma probe_plain script token : only plain_kind (awaitStudioTokenLive ask script token).
Proof.
assert (∀ n s a, only plain_kind (probe_token ask n script token STUDIO_TOKEN_PROBE_DEADLINE_MS s a)) as H by (induction n; intros; cbn [probe_token]; walk_only; auto).
unfold awaitStudioTokenLive. walk_only. apply H.
Qed.
Lemma install_plain t script token : only plain_kind (installTenantModules ask json_stringify t script token).
Proof.
assert (∀ l, only plain_kind (install_each ask json_stringify t script token l)) as H by (induction l; cbn [install_each]; unfold install_module; walk_only).
unfold installTenantModules. walk_only; [apply probe_plain|apply H].
Qed.
Lemma verify_plain script endpoints token : only plain_kind (verify_studio ask json_parse deps script endpoints token).
Proof. unfold verify_studio, verifyTenantModulesInstalled. walk_only. Qed.
End plain.

(** ** Created, then recorded *)
Section promptly.
Context (ask : world) (sign : string → string → list ascii) (seal : list ascii → list ascii → string → list ascii)
  (open : list ascii → list ascii → list ascii → option string) (digest : string → list ascii) (json_parse : string → option js)
  (json_stringify : js → string) (number : string → Num.num) (show : Num.num → string) (pages : nat) (deps : ProvisionDeps)
  (jobId : string) (tenant : Tenant) (budgetMs : Z).
Implicit Types (tr : trace) (c : call) (e : event).

(** The write a creation has to be followed by. *)
Definition row_write e : option call :=
  match e with
  | Ev (CCreateD1 _) (Ok uuid) => Some (SSetTenantD1 (t_id tenant) uuid)
  | Ev (CCreateR2Bucket b) (Ok _) => Some (SSetTenantBucket (t_id tenant) b)
  | Ev (TMintBucketToken n _) (Ok m) => if n =s? tenantR2TokenName (t_slug tenant) then Some (SSetTenantR2Token (t_id tenant) (mc_id m)) else None
  | _ => None
  end.
(** The credential a teardown names is the rollback's own, for as long as it empties a bucket: it goes to
    no row, and is to be revoked. *)
Definition own_token_name (n : string) : bool := n =s? tenantR2TokenName (t_slug tenant).
Definition recorded tr : Prop := ∀ pre e post c, tr = pre ++ e :: post → row_write e = Some c → ∃ a post', post = Ev c a :: post'.
Definition promptly tr : Prop := recorded tr ∧
  ∀ pre n b m post, tr = pre ++ Ev (TMintBucketToken n b) (Ok m) :: post → own_token_name n = true ∨ ∃ a, Ev (TRevoke (mc_id m)) a ∈ post.
Abbreviation minted e := (minted_id own_token_name e).
Lemma promptly_settled tr : promptly tr ↔ recorded tr ∧ settled own_token_name None tr.
Proof.
split; intros [H1 H2]; (split; [done|]).
- intros pre e post id -> Hm. right. destruct e as [[] [m|]]; try done. cbn in Hm. destruct (own_token_name name) eqn:E; [done|]. injection Hm as <-.
  destruct (H2 _ _ _ _ _ eq_refl) as [Hn|Hr]; [congruence|done].
- intros pre n b m post E. destruct (own_token_name n) eqn:En; [by left|right]. destruct (H2 _ _ _ (mc_id m) E) as [|Hr]; [cbn; by rewrite En|done|done].
Qed.

Lemma recorded_add tr e : row_write e = None → recorded tr → recorded (tr ++ [e]).
Proof.
intros He H pre e' post c [(-> & -> & ->)|(post' & -> & E)]%split_snoc Hc; [by rewrite He in Hc|].
destruct (H _ _ _ _ E Hc) as (a & p & ->). by exists a, (p ++ [e]).
Qed.
Lemma promptly_add tr e : row_write e = None → minted e = None → promptly tr → promptly (tr ++ [e]).
Proof. rewrite !promptly_settled. intros He Hm [H1 H2]. split; [by apply recorded_add|by apply settled_none]. Qed.
Lemma promptly_pair tr e c a : row_write e = Some c → row_write (Ev c a) = None → minted e = None → minted (Ev c a) = None →
  promptly tr → promptly (tr ++ [e] ++ [Ev c a]).
Proof.
rewrite !promptly_settled. intros He Hc Hm Hma [H Hs]. rewrite app_assoc. split; [|apply settled_none; [done|]; by apply settled_none].
intros pre e' post c' [(-> & <- & <-)|(post' & -> & E)]%split_snoc Hc'; [by rewrite Hc in Hc'|].
apply split_snoc in E as [(-> & -> & <-)|(p & -> & E)].
- rewrite He in Hc'. injection Hc' as <-. by exists a, [].
- destruct (H _ _ _ _ E Hc') as (a' & p' & ->). by eexists a', _.
Qed.
Lemma plain_promptly {E A} (m : M trace E A) : only plain_kind m → preserves promptly m.
Proof. intros H. eapply only_preserves; [exact H|]. intros tr c a Hc. apply promptly_add; by destruct c. Qed.
Lemma ask_promptly c : creates c = false → preserves promptly (perform ask c).
Proof. intros Hc tr. apply promptly_add; by destruct c. Qed.
Lemma map_promptly {E E' A} (f : E → E') (m : M trace E A) : preserves promptly m → preserves promptly (map_err f m).
Proof. intros H tr Htr. specialize (H tr Htr). unfold exec, map_err in *. by destruct (m tr) as [[a|e] tr']. Qed.
Lemma at_promptly {A} done (m : M trace exn A) : only plain_kind m → preserves promptly (at_done done m).
Proof. intros H. by apply map_promptly, plain_promptly. Qed.
Lemma perform_promptly done c : creates c = false → preserves promptly (at_done done (perform ask c)).
Proof. intros H. by apply map_promptly, ask_promptly. Qed.

Ltac ask_row :=
  lazymatch goal with
  | |- preserves _ (at_done ?d (perform _ ?c)) => exact (perform_promptly d c eq_refl)
  | |- preserves _ (perform _ ?c) => exact (ask_promptly c eq_refl)
  end.
(** A creation and its write. *)
Lemma created_promptly {A} done c (w : ret c → call) (k : ∀ x, ret (w x) → pm A) :
  (∀ x, row_write (Ev c (Ok x)) = Some (w x) ∧ creates (w x) = false) → (∀ err : exn, row_write (Ev c (Err err)) = None) →
  (∀ r, minted (Ev c r) = None) →
  (∀ x y, preserves promptly (k x y)) →
  preserves promptly (x ← at_done done (perform ask c); y ← at_done done (perform ask (w x)); k x y).
Proof.
intros Hw He Hm Hk tr Htr. unfold exec. rewrite bind_run. unfold at_done at 1, map_err. rewrite perform_run.
destruct (ask tr c) as [x|e]; [|by apply promptly_add]. destruct (Hw x) as [Hx Hp]. rewrite bind_run. unfold at_done, map_err. rewrite perform_run.
assert (∀ a, promptly ((tr ++ [Ev c (Ok x)]) ++ [Ev (w x) a])) as Hpair.
{ intros a. rewrite <- app_assoc. apply promptly_pair; [done| |done| |done]; by destruct (w x). }
destruct (ask _ (w x)) as [y|e]; [apply Hk, Hpair|apply Hpair].
Qed.

Lemma mark_promptly startedAt f done s : preserves promptly (mark ask jobId budgetMs startedAt f done s).
Proof. unfold mark. preserve; ask_row. Qed.
Lemma name_ends (s t : string) : tenantR2TeardownTokenName s ≠ tenantR2TokenName t.
Proof.
unfold tenantR2TeardownTokenName, tenantR2TokenName. intros E. apply (f_equal (λ x, rev (Str.chars x))) in E.
rewrite !chars_append, !rev_app_distr in E. cbn in E. discriminate.
Qed.
Lemma rollback_promptly : preserves promptly (rollbackFailedProvision ask digest pages deps tenant).
Proof.
unfold rollbackFailedProvision. preserve; [ask_row|]. intros tr [H1 H2]%promptly_settled. apply promptly_settled. split; [|by apply teardown_settled].
revert H1. match goal with |- recorded _ → recorded (exec ?m _) => revert tr H2; enough (preserves recorded m) as Hm by (intros tr _; apply Hm) end.
eapply only_preserves; [apply teardown_only|]. intros tr c a Hc. apply recorded_add. destruct c; try done. cbn in *. destruct a as [m|]; [|done].
apply String.eqb_eq in Hc. subst name. destruct (_ =s? _) eqn:E; [|done]. apply String.eqb_eq in E. by apply name_ends in E.
Qed.
Lemma failure_promptly th : preserves promptly (on_failure ask digest pages deps jobId tenant th).
Proof.
destruct th as [e done]. unfold on_failure. destruct e; preserve; first [ask_row|apply rollback_promptly].
Qed.
Lemma recovered_promptly {A} (body : pm A) h : preserves promptly body → (∀ th, preserves promptly (h th)) → preserves promptly (recovered body h).
Proof. intros Hb Hh tr Htr. specialize (Hb tr Htr). unfold exec, recovered in *. destruct (body tr) as [[a|th] tr']; [done|by apply Hh]. Qed.

Lemma body_promptly startedAt resume : preserves promptly
  (run_body ask sign seal digest json_parse json_stringify number show deps jobId tenant budgetMs startedAt resume).
Proof.
unfold run_body. apply preserves_bind.
{ unfold precondition, fail. preserve; try ask_row; apply map_promptly; preserve; ask_row. }
intros [built quota]. apply preserves_bind.
{ unfold database_step. destruct (complete _ _); [apply preserves_ret|].
  apply (created_promptly _ (CCreateD1 _) (λ uuid, SSetTenantD1 (t_id tenant) uuid)); [done..|]. intros uuid []. preserve. apply mark_promptly. }
intros [dbUuid d1]. apply preserves_bind.
{ unfold migrate_step. preserve; [apply at_promptly, migrations_plain|apply mark_promptly]. }
intros d2. apply preserves_bind.
{ unfold bucket_step. destruct (complete _ _); [apply preserves_ret|].
  apply (created_promptly _ (CCreateR2Bucket _) (λ _, SSetTenantBucket (t_id tenant) (bucket tenant))); [done..|]. intros [] []. apply mark_promptly. }
intros d3. apply preserves_bind.
{ unfold token_step. apply (created_promptly _ (TMintBucketToken _ _) (λ m, SSetTenantR2Token (t_id tenant) (mc_id m))); [|done| |].
  - intros m. cbn. by rewrite String.eqb_refl.
  - intros []; [|done]. cbn. unfold own_token_name. by rewrite String.eqb_refl.
  - intros m []. preserve. apply mark_promptly. }
intros [token d4]. apply preserves_bind.
{ unfold endpoints_step, fail. preserve; first [apply mark_promptly|ask_row]. }
intros [[[endpoints mode] d5]|]; [|apply preserves_ret]. apply preserves_bind.
{ unfold studio_step. preserve; try ask_row; try apply mark_promptly; apply at_promptly;
    first [apply assets_plain|apply aig_plain|apply script_plain|walk_only]. apply assets_plain. }
intros [studioApiToken d6]. apply preserves_bind; [unfold revoke_previous; preserve; apply map_promptly; preserve; ask_row|intros []].
apply preserves_bind.
{ unfold modules_steps. preserve; try apply mark_promptly; apply at_promptly; first [apply aig_plain|apply modules_plain|apply install_plain]. }
intros d7. unfold go_live. preserve; try ask_row; first [apply mark_promptly|apply at_promptly, verify_plain].
Qed.
Lemma run_promptly resume : preserves promptly
  (runProvisionJob ask sign seal digest json_parse json_stringify number show pages deps jobId tenant budgetMs resume).
Proof.
unfold runProvisionJob. preserve; [ask_row|]. apply recovered_promptly; [apply body_promptly|apply failure_promptly].
Qed.
Lemma module_steps_promptly args shouldRun startedAt f done : preserves promptly
  (runModuleSteps ask sign json_parse json_stringify deps tenant args shouldRun (mark ask jobId budgetMs startedAt f) done).
Proof.
unfold runModuleSteps. preserve; try apply mark_promptly; apply at_promptly;
  first [apply aig_plain|apply modules_plain|apply install_plain|apply verify_plain].
Qed.

End promptly.
