(* ===== verification/ProvisionPolicy.v ===== *)
(** * What a provision may do, and when (theorems about Provision.v)

    A tenant is offered for go-live only once its studio and modules were verified; a job is closed as
    failed before its tenant is marked and torn down; a recorded database, migration, bucket or choice of
    endpoints is not repeated and a resume works at the release its job recorded; progress is always a
    prefix of the step list. *)

From S2P Require Export Provision.
From Stdlib Require Import Ascii.
Open Scope string_scope.
Open Scope list_scope.
Open Scope Z_scope.
Open Scope plane_scope.

(** ** Progress *)
Section progress.
Implicit Types (done : list step) (s : step).

Definition add_step done s : list step := if complete done s then done else done ++ [s].
(** The first [n] steps at least are done, and nothing out of order. *)
Definition reached (n : nat) done : Prop := done `prefix_of` PROVISION_STEPS ∧ (n <= length done)%nat.

Lemma prefix_firstn done : done `prefix_of` PROVISION_STEPS → ∃ k, (k <= 9)%nat ∧ done = firstn k PROVISION_STEPS.
Proof.
intros [rest E]. exists (length done). split.
- apply (f_equal length) in E. rewrite length_app in E. cbn in E. lia.
- by rewrite E, take_app_length.
Qed.
Lemma add_step_firstn k n s : nth_error PROVISION_STEPS n = Some s → (n <= k)%nat → (k <= 9)%nat →
  add_step (firstn k PROVISION_STEPS) s = firstn (Nat.max k (S n)) PROVISION_STEPS ∧ complete (firstn k PROVISION_STEPS) s = (n <? k)%nat.
Proof.
set (ok := λ k n, match nth_error PROVISION_STEPS n with
  | Some s => bool_decide (add_step (firstn k PROVISION_STEPS) s = firstn (Nat.max k (S n)) PROVISION_STEPS) &&
              bool_decide (complete (firstn k PROVISION_STEPS) s = (n <? k)%nat)
  | None => true end).
assert (forallb (λ k, forallb (ok k) (seq 0 (S k))) (seq 0 10) = true) as H by (vm_compute; reflexivity).
intros Hn Hnk Hk. rewrite forallb_forall in H. specialize (H k). rewrite forallb_forall in H.
assert (ok k n = true) as Hok by (apply H; apply in_seq; lia). unfold ok in Hok. rewrite Hn in Hok. by bool_hyps.
Qed.
Lemma firstn_reached k n : (k <= 9)%nat → (n <= k)%nat → reached n (firstn k PROVISION_STEPS).
Proof. intros Hk Hn. split; [eexists; symmetry; apply take_drop|]. rewrite length_take. cbn [length PROVISION_STEPS]. lia. Qed.
Lemma reached_next n s done : nth_error PROVISION_STEPS n = Some s → reached n done →
  reached (S n) (add_step done s) ∧ (complete done s = false → length done = n).
Proof.
intros Hn [(k & Hk & ->)%prefix_firstn Hl]. rewrite length_take in Hl |- *. cbn [length PROVISION_STEPS] in Hl |- *.
assert (n < 9)%nat by (apply (nth_error_Some PROVISION_STEPS); by rewrite Hn).
destruct (add_step_firstn k n s Hn) as [-> ->]; [lia|lia|]. split; [apply firstn_reached; lia|]. intros ?%Nat.ltb_ge. lia.
Qed.
Lemma add_step_in done s : s ∈ add_step done s.
Proof.
unfold add_step, complete. destruct (bool_decide (s ∈ done)) eqn:E; [by apply bool_decide_eq_true in E|]. apply elem_of_app. right. left.
Qed.
Lemma firstn_next {A} (l : list A) n x : nth_error l n = Some x → firstn (S n) l = firstn n l ++ [x].
Proof. revert n. induction l as [|y l IH]; intros [|n] Hn; try done; [by injection Hn as ->|]. cbn [firstn app]. by rewrite <- IH. Qed.
Lemma reached_le n m done : reached n done → (m <= n)%nat → reached m done.
Proof. intros [H1 H2]. split; [done|lia]. Qed.
Lemma reached_complete n s done : nth_error PROVISION_STEPS n = Some s → reached n done → complete done s = true → reached (S n) done.
Proof.
intros Hn Hr Hc. destruct (reached_next _ _ _ Hn Hr) as (H & _). unfold add_step in H. by rewrite Hc in H.
Qed.
End progress.

(** ** Talking to the studio, under any policy that lets it *)
Section studio_client.
Context (ask : world) (json_parse : string → option js) (json_stringify : js → string) (deps : ProvisionDeps) (tenantId script token : string).
Context (allowed : trace → call → Prop) (P0 : trace → Prop).
Hypothesis lets_call : ∀ tr method path body, P0 tr → allowed tr (XCallStudio script method path token body).
Hypothesis lets_clock : ∀ tr, P0 tr → allowed tr KNow.
Hypothesis lets_sleep : ∀ tr ms, P0 tr → allowed tr (KSleep ms).
Hypothesis lets_bindings : ∀ tr, P0 tr → allowed tr (CGetScriptBindings (dp_namespace deps) script).
Hypothesis lets_secrets : ∀ tr, P0 tr → allowed tr (CGetScriptSecretNames (dp_namespace deps) script).
Implicit Types (P : trace → Prop).

(** The studio took the module. *)
Definition installed (spec : TenantModuleSpec) (tr : trace) : Prop := ∃ text,
  answered (XCallStudio script "POST" "/api/modules/install" token
    (Some (json_stringify (JObj [("script_name", JStr (tenantModuleScriptName tenantId (tm_module spec)))])))) (Ok (201, text)) tr.
(** The studio lists installed modules. *)
Definition lists_modules (tr : trace) : Prop := ∃ text names parsed,
  answered (XCallStudio script "GET" "/api/modules/installed" token None) (Ok (200, text)) tr ∧ json_parse text = Some parsed ∧
  module_names parsed = Ok names ∧ names ≠ [].
(** The studio is bound, has its secrets, serves, and lists its modules. *)
Definition studio_verified (endpoints : list TenantEndpoint) (tr : trace) : Prop := ∃ bindings secrets status text,
  answered (CGetScriptBindings (dp_namespace deps) script) (Ok bindings) tr ∧ (∀ n, n ∈ required_bindings endpoints → n ∈ bl_name <$> bindings) ∧
  answered (CGetScriptSecretNames (dp_namespace deps) script) (Ok secrets) tr ∧ (∀ n, n ∈ required_secrets → n ∈ secrets) ∧
  answered (XCallStudio script "GET" "/" token None) (Ok (status, text)) tr ∧ status < 500 ∧ lists_modules tr.
#[export] Instance stable_lists_modules : Stable lists_modules.
Proof. apply _. Qed.
#[export] Instance stable_studio_verified endpoints : Stable (studio_verified endpoints).
Proof. apply _. Qed.
#[export] Instance stable_installed spec : Stable (installed spec).
Proof. apply _. Qed.

Lemma first_missing_none required present : first_missing required present = None → ∀ n, n ∈ required → n ∈ present.
Proof.
unfold first_missing. intros H n Hn. apply list_elem_of_In in Hn. pose proof (List.find_none _ _ H n Hn) as E.
apply negb_false_iff in E. by apply bool_decide_eq_true in E.
Qed.

Lemma probe_safe P n started attempts : Stable P → (∀ tr, P tr → P0 tr) →
  safe allowed P (probe_token ask n script token STUDIO_TOKEN_PROBE_DEADLINE_MS started attempts) (λ _ _, True).
Proof using lets_call lets_clock lets_sleep.
intros HP HP0. revert attempts. induction n as [|n IH]; intros attempts; cbn [probe_token]; [apply safe_throw|].
apply safe_then; [done|eapply (safe_do _ _ _ (XCallStudio _ _ _ _ _)); intros tr Htr; by apply lets_call, HP0|]. intros [status text].
apply safe_then; [done|eapply (safe_do _ _ _ KNow); intros tr Htr; by apply lets_clock, HP0|]. intros at_.
destruct (status =? 200); [by apply safe_ret|]. destruct (negb (status =? 403)); [apply safe_throw|]. destruct (_ <=? _); [apply safe_throw|].
apply safe_then; [done|eapply (safe_do _ _ _ (KSleep _)); intros tr Htr; by apply lets_sleep, HP0|]. intros []. apply IH.
Qed.
Lemma install_each_safe P catalog : Stable P → (∀ tr, P tr → P0 tr) →
  safe allowed P (install_each ask json_stringify tenantId script token catalog) (λ _ tr, ∀ spec, spec ∈ catalog → installed spec tr).
Proof using lets_call.
revert P. induction catalog as [|spec catalog IH]; intros P HP HP0; cbn [install_each].
{ apply safe_ret. by intros tr _ ? ?%elem_of_nil. }
eapply (safe_bind _ _ _ _ (λ _, installed spec)); [done| |intros m].
- unfold install_module. eapply safe_bind; [done|apply safe_perform; intros tr Htr; by apply lets_call, HP0|]. intros [status text].
  destruct (status =? 201) eqn:Hs; cbn [negb]; [|apply safe_throw]. apply Z.eqb_eq in Hs. subst status. apply safe_ret. intros tr [_ Ha]. by exists text.
- eapply safe_bind; [apply _|apply IH; [apply _|intros tr [Htr _]; by apply HP0]|]. intros ms. apply safe_ret.
  intros tr [[_ H1] H2] s [->|Hs]%elem_of_cons; [done|by apply H2].
Qed.
Lemma install_safe P : Stable P → (∀ tr, P tr → P0 tr) →
  safe allowed P (installTenantModules ask json_stringify tenantId script token) (λ _ tr, ∀ spec, spec ∈ TENANT_MODULE_CATALOG → installed spec tr).
Proof using lets_call lets_clock lets_sleep.
intros HP HP0. unfold installTenantModules, awaitStudioTokenLive. apply safe_then; [done| |intros _; by apply install_each_safe].
apply safe_then; [done|eapply (safe_do _ _ _ KNow); intros tr Htr; by apply lets_clock, HP0|]. intros started. by apply probe_safe.
Qed.
Lemma verify_modules_safe P : Stable P → (∀ tr, P tr → P0 tr) →
  safe allowed P (verifyTenantModulesInstalled ask json_parse script token) (λ _, lists_modules).
Proof using lets_call.
intros HP HP0. unfold verifyTenantModulesInstalled. eapply safe_bind; [done|apply safe_perform; intros tr Htr; by apply lets_call, HP0|].
intros [status text]. destruct (status =? 200) eqn:Hs; cbn [negb]; [|apply safe_throw]. apply Z.eqb_eq in Hs. subst status.
destruct (json_parse text) as [parsed|] eqn:Hp; [|apply safe_throw].
assert (safe allowed (λ tr, P tr ∧ answered (XCallStudio script "GET" "/api/modules/installed" token None) (Ok (200, text)) tr)
  (names ← lift (module_names parsed); match names with [] => throw (EModule VerifyStep "tenant studio reports zero installed modules after provisioning") | _ :: _ => mret names end)
  (λ _, lists_modules)) as H.
{ apply safe_bind_lift. intros [|n names] Hn; [apply safe_throw|]. apply safe_ret. intros tr [_ Ha]. by exists text, (n :: names), parsed. }
destruct parsed; exact H.
Qed.
Lemma verify_safe P endpoints : Stable P → (∀ tr, P tr → P0 tr) →
  safe allowed P (verify_studio ask json_parse deps script endpoints token) (λ _, studio_verified endpoints).
Proof using lets_call lets_bindings lets_secrets.
intros HP HP0. unfold verify_studio.
eapply safe_bind; [done|apply safe_perform; intros tr Htr; by apply lets_bindings, HP0|]. intros bindings.
destruct (first_missing (required_bindings endpoints) _) eqn:Hb; [apply safe_throw|].
eapply safe_bind; [apply _|apply safe_perform; intros tr [Htr _]; by apply lets_secrets, HP0|]. intros secrets.
destruct (first_missing required_secrets _) eqn:Hs; [apply safe_throw|].
eapply safe_bind; [apply _|apply safe_perform; intros tr [[Htr _] _]; by apply lets_call, HP0|]. intros [status text].
destruct (500 <=? status) eqn:Hst; [apply safe_throw|]. apply Z.leb_gt in Hst.
eapply safe_bind; [apply _|apply verify_modules_safe; [apply _|intros tr [[[Htr _] _] _]; by apply HP0]|]. intros names.
apply safe_ret. intros tr [[[[_ H1] H2] H3] H4]. exists bindings, secrets, status, text.
split_and!; [done|by apply first_missing_none|done|by apply first_missing_none|done|done|done].
Qed.
End studio_client.

(** ** The policy of a provision *)
Section policy.
Context (ask : world) (sign : string → string → list ascii) (seal : list ascii → list ascii → string → list ascii)
  (open : list ascii → list ascii → list ascii → option string) (digest : string → list ascii) (json_parse : string → option js)
  (json_stringify : js → string) (number : string → Num.num) (show : Num.num → string) (pages : nat) (deps : ProvisionDeps)
  (jobId : string) (tenant : Tenant) (budgetMs : Z).
(** The steps that were done before this run, and the releases it may build from. *)
Context (done0 : list step) (rel : trace → string → Prop).
Implicit Types (tr : trace) (c : call) (P : trace → Prop).

Definition script : string := tenantScriptName (t_slug tenant).
Definition own_db (db : string) tr : Prop :=
  (D1Create ∈ done0 ∧ t_d1_database_id tenant = Some db) ∨ answered (CCreateD1 (tenantD1Name (t_slug tenant))) (Ok db) tr.
Definition own_endpoints (eps : list TenantEndpoint) : Prop :=
  eps = readTenantEndpoints json_parse tenant ∨ ∃ pool, dp_sharedPool deps = Some pool ∧ eps = pool_endpoints pool.
(** The job was closed as failed by this run. *)
Definition closed tr : Prop := ∃ s m, answered (SFinishJob jobId false s m) (Ok true) tr.
(** What has to hold before anything is made: the bundle is there, every variable it wants is decided on,
    and the tenant's ceiling is known. *)
Definition contract_held tr : Prop := ∃ r built, rel tr r ∧ answered (BFetchStudio r) (Ok built) tr ∧ undecided_vars (sb_requiredVars built) = [] ∧
  rq_blocked (resolveStorageQuota number show (dp_storageQuota deps) (quota_row tenant)) = None.
Definition bucket_token (m : MintedCredential) tr : Prop := answered (TMintBucketToken (tenantR2TokenName (t_slug tenant)) (bucket tenant)) (Ok m) tr.
(** A studio of the release, bound to this tenant's own database, bucket and credential. *)
Definition own_studio (args : UploadArgs) tr : Prop :=
  ua_namespace args = dp_namespace deps ∧ ua_scriptName args = script ∧
  ∃ r built db m api aig eps, rel tr r ∧ answered (BFetchStudio r) (Ok built) tr ∧ ua_moduleText args = sb_moduleText built ∧
    own_db db tr ∧ bucket_token m tr ∧ own_endpoints eps ∧
    ua_bindings args = studio_bindings digest deps tenant db m api aig eps (resolveStorageQuota number show (dp_storageQuota deps) (quota_row tenant)).
Definition own_context (uc : UploadContext) tr : Prop :=
  uc_tenantId uc = t_id tenant ∧ rel tr (uc_release uc) ∧ own_endpoints (uc_endpoints uc) ∧ (∀ db, uc_telemetryD1 uc = Some db → own_db db tr).
Definition studio_up tr : Prop := ∃ args, answered (CUploadUserWorker args) (Ok tt) tr ∧ own_studio args tr.
Definition modules_up tr : Prop := ModulesUpload ∈ done0 ∨ ∃ uc, own_context uc tr ∧ ∀ spec, spec ∈ TENANT_MODULE_CATALOG → uploaded sign deps uc spec tr.
Definition modules_in tr : Prop := ModulesInstall ∈ done0 ∨
  ∃ token, ∀ spec, spec ∈ TENANT_MODULE_CATALOG → installed json_stringify (t_id tenant) script token spec tr.
Definition verified tr : Prop := VerifyStep ∈ done0 ∨ ∃ token eps, own_endpoints eps ∧ studio_verified json_parse deps script token eps tr.
Definition aig_names : list string := [tenantAigTokenName (t_slug tenant); tenantStudioAigTokenName (t_slug tenant)].

(** The rollback of a failed run: only once the job was closed, and only what a teardown asks. *)
Definition rollback_call tr c : Prop := closed tr ∧
  ((c = SGetTenantById (t_id tenant)) ∨ ∃ fresh, answered (SGetTenantById (t_id tenant)) (Ok (Some fresh)) tr ∧ teardown_mint_kind fresh c = true).
Definition step_call tr c : Prop :=
  match c with
  | KNow | KSleep _ | KRandom _ | CUploadAssetBucket _ _ => True
  | SSetJobRunning j | SReleaseJobLease j | SGetJob j => j = jobId
  | SSetTenantStatus i s => i = t_id tenant ∧
      (s = "provisioning" ∨ (s = "awaiting_go_live" ∧ modules_up tr ∧ modules_in tr ∧ verified tr) ∨ (s = "failed" ∧ closed tr))
  | SFinishJob j ok _ _ => j = jobId ∧ (ok = true → answered (SSetTenantStatus (t_id tenant) "awaiting_go_live") (Ok tt) tr)
  | SUpdateJobProgress j s d => j = jobId ∧ d `prefix_of` PROVISION_STEPS ∧ s ∈ d
  | SSetTenantD1 i u => i = t_id tenant ∧ own_db u tr ∧ (D1Create ∉ done0)
  | SSetTenantBucket i b => i = t_id tenant ∧ b = bucket tenant ∧ (R2Bucket ∉ done0)
  | SSetTenantR2Token i t => i = t_id tenant ∧ ∃ m, bucket_token m tr ∧ t = mc_id m
  | SSetTenantRunPodMode i m => i = t_id tenant ∧ m = Shared ∧ (RunpodEndpoints ∉ done0)
  | SSetTenantEndpoints i eps => i = t_id tenant ∧ (RunpodEndpoints ∉ done0) ∧ own_endpoints eps ∧ answered (SSetTenantRunPodMode (t_id tenant) Shared) (Ok tt) tr
  | SSetTenantScript i n r => i = t_id tenant ∧ n = script ∧ rel tr r ∧ studio_up tr
  | SSetTenantStudioToken i _ => i = t_id tenant ∧ studio_up tr
  | SSetTenantModulesRelease i r => i = t_id tenant ∧ modules_in tr ∧ ∃ r', r = Some r' ∧ rel tr r'
  | BFetchStudio r | BFetchModule r _ => rel tr r
  | CCreateD1 n => n = tenantD1Name (t_slug tenant) ∧ (D1Create ∉ done0) ∧ contract_held tr
  | CCreateR2Bucket b => b = bucket tenant ∧ (R2Bucket ∉ done0) ∧ contract_held tr
  | TMintBucketToken n b => n = tenantR2TokenName (t_slug tenant) ∧ b = bucket tenant ∧ contract_held tr
  | TMintAigToken n | TRevokeByName n => n ∈ aig_names
  | TRevoke t => t_r2_token_id tenant = Some t ∧ studio_up tr
  | CUploadUserWorker args => own_studio args tr ∨ ∃ uc, own_context uc tr ∧ own_upload sign deps uc args
  | CCreateDispatchNamespace ns => ns = dp_moduleNamespace deps
  | CCreateAssetsSession ns s _ | CGetScriptBindings ns s | CGetScriptSecretNames ns s => ns = dp_namespace deps ∧ s = script
  | XCallStudio s _ _ _ _ => s = script
  | CQueryD1 db _ _ => own_db db tr ∧ (D1Migrate ∉ done0)
  | _ => False
  end.
Definition provision_calls tr c : Prop := rollback_call tr c ∨ step_call tr c.
Abbreviation safe := (safe provision_calls).

Section steps.
Hypothesis rel_stable : ∀ r, Stable (λ tr, rel tr r).
Hypothesis done0_reached : reached 0 done0.

#[export] Instance stable_rel r : Stable (λ tr, rel tr r).
Proof using rel_stable. apply rel_stable. Qed.
#[export] Instance stable_own_db db : Stable (own_db db).
Proof using Type. apply _. Qed.
#[export] Instance stable_contract : Stable contract_held.
Proof using rel_stable. apply _. Qed.
#[export] Instance stable_bucket_token m : Stable (bucket_token m).
Proof using Type. apply _. Qed.
#[export] Instance stable_own_studio args : Stable (own_studio args).
Proof using rel_stable. apply _. Qed.
#[export] Instance stable_own_context uc : Stable (own_context uc).
Proof using rel_stable. apply _. Qed.
#[export] Instance stable_studio_up : Stable studio_up.
Proof using rel_stable. apply _. Qed.
#[export] Instance stable_closed : Stable closed.
Proof using Type. apply _. Qed.
#[export] Instance stable_modules_up : Stable modules_up.
Proof using rel_stable. unfold modules_up. apply _. Qed.
#[export] Instance stable_modules_in : Stable modules_in.
Proof using Type. unfold modules_in. apply _. Qed.
#[export] Instance stable_verified : Stable verified.
Proof using Type. unfold verified. apply _. Qed.

(** Known before the run goes on: [n] steps are done, those of [done0] among them. *)
Definition at_step (n : nat) (done : list step) : Prop :=
  reached n done ∧ (∀ s, s ∈ done0 → s ∈ done) ∧ ∀ s, s ∈ done → s ∈ done0 ∨ s ∈ firstn n PROVISION_STEPS.
Lemma safe_assume {E A} P (m : M trace E A) Q (φ : Prop) : (∀ tr, P tr → φ) → (φ → safe P m Q) → safe P m Q.
Proof using Type. intros H Hm tr Ho Htr. by apply (Hm (H tr Htr)). Qed.
Lemma call_safe P done c : (∀ tr, P tr → step_call tr c) → safe P (at_done done (perform ask c)) (λ x, answered c (Ok x)).
Proof using Type. intros H. apply safe_map_err, safe_perform. intros tr Htr. right. by apply H. Qed.
Lemma tell_safe P done c : (∀ tr, P tr → step_call tr c) → safe P (at_done done (perform ask c)) (λ _ _, True).
Proof using Type. intros H. eapply safe_weaken; [by apply call_safe|done|done]. Qed.
Lemma known_safe {A} P done ok (m : M trace exn A) : Stable P → only ok m → (∀ tr c, P tr → ok c = true → step_call tr c) →
  safe P (at_done done m) (λ _ _, True).
Proof using Type. intros HP Hm Hok. eapply safe_map_err, only_safe; [done|exact Hm|]. intros tr c Htr Hc. right. by apply Hok. Qed.

(** Recording a step keeps the progress a prefix. *)
Lemma mark_safe P startedAt f done n s : Stable P → nth_error PROVISION_STEPS n = Some s → at_step n done →
  safe P (mark ask jobId budgetMs startedAt f done s) (λ d _, at_step (S n) d).
Proof using Type.
intros HP Hn (Hr & H0 & H1). destruct (reached_next _ _ _ Hn Hr) as [Hr' _]. pose proof (add_step_in done s) as Hin. unfold mark. fold (add_step done s).
assert (at_step (S n) (add_step done s)) as Hat.
{ split; [done|]. pose proof (firstn_next _ _ _ Hn) as Hf. split.
  - intros x Hx%H0. unfold add_step. destruct (complete done s); [done|]. apply elem_of_app. by left.
  - intros x Hx. rewrite Hf. assert (x ∈ done ∨ x = s) as [[?|?]%H1| ->]; [|by left|right; apply elem_of_app; by left|right; apply elem_of_app; right; left].
    unfold add_step in Hx. destruct (complete done s); [by left|]. by apply elem_of_app in Hx as [?|?%list_elem_of_singleton]; [left|right]. }
apply safe_then; [done|apply (tell_safe _ _ (SUpdateJobProgress _ _ _)); intros tr _; by destruct Hr'|intros []].
apply safe_then; [done|by apply (tell_safe _ _ KNow)|intros at_].
destruct (_ && _); [apply safe_throw|by apply safe_ret].
Qed.
Lemma at_step_complete n s done : nth_error PROVISION_STEPS n = Some s → at_step n done → complete done s = true → at_step (S n) done.
Proof using Type.
intros Hn (Hr & H0 & H1) Hc. split; [by eapply reached_complete|]. split; [done|]. intros x [?|?]%H1; [by left|right]. rewrite (firstn_next _ _ _ Hn).
apply elem_of_app. by left.
Qed.
Lemma not_done n s done : nth_error PROVISION_STEPS n = Some s → at_step n done → complete done s = false → s ∉ done0.
Proof using Type. intros Hn (_ & H0 & _) Hc Hin%H0. unfold complete in Hc. by apply bool_decide_eq_false in Hc. Qed.

Section body.
Variable startedAt : Z.
Variable resume : option ProvisionResume.
Let release := release deps resume.
Abbreviation known P := (∀ tr, P tr → rel tr release).
Hypothesis resume_done : done0 = match resume with Some r => pr_done r | None => [] end.
Hypothesis has_database : D1Create ∈ done0 → t_d1_database_id tenant ≠ None.
Let quota := resolveStorageQuota number show (dp_storageQuota deps) (quota_row tenant).

Lemma precondition_safe P : Stable P → known P →
  safe P (precondition ask number show deps jobId tenant resume done0)
    (λ r tr, contract_held tr ∧ answered (BFetchStudio release) (Ok r.1) tr ∧ r.2 = quota).
Proof using Type.
intros HP release_ok. unfold precondition, fail. apply safe_then; [done|by apply (tell_safe _ _ (SSetJobRunning _))|intros []].
apply safe_then; [done|apply (tell_safe _ _ (SSetTenantStatus _ _)); intros tr _; split; [done|by left]|intros []].
eapply safe_bind; [done|apply safe_map_err, safe_attempt, safe_perform; intros tr Htr; right; by apply release_ok|].
intros [e|built]; [apply safe_throw|]. unfold assertDispositionCoversContract.
destruct (undecided_vars (sb_requiredVars built)) eqn:Hu; [|apply safe_throw]. fold quota. destruct (rq_blocked quota) eqn:Hq; [apply safe_throw|].
apply safe_ret. intros tr [Htr Ha]. split; [|by split]. exists release, built. split_and!; [by apply release_ok|done|done|done].
Qed.

Lemma database_safe P : Stable P → (∀ tr, P tr → contract_held tr) →
  safe P (database_step ask jobId tenant budgetMs startedAt resume done0) (λ r tr, own_db r.1 tr ∧ at_step 1 r.2).
Proof using done0_reached has_database.
assert (at_step 0 done0) as Hat0 by (split_and!; auto). intros HP Hcon. unfold database_step. destruct (complete done0 D1Create) eqn:Hc.
- apply safe_ret. intros tr _. assert (D1Create ∈ done0) as Hin by (by apply bool_decide_eq_true in Hc). split.
  + left. split; [done|]. cbn. destruct (t_d1_database_id tenant) eqn:E; [done|]. by destruct (has_database Hin).
  + by eapply (at_step_complete 0).
- eapply safe_bind; [done|apply (call_safe _ _ (CCreateD1 _))|intros uuid].
  + intros tr Htr. split; [done|]. split; [by apply bool_decide_eq_false in Hc|by apply Hcon].
  + apply safe_then; [apply _|apply (tell_safe _ _ (SSetTenantD1 _ _)); intros tr [_ Ha]; split_and!; [done|by right|by apply bool_decide_eq_false in Hc]|intros []].
    eapply safe_bind; [apply _|apply (mark_safe _ _ _ _ 0); [apply _|reflexivity|done]|intros d]. apply safe_ret. intros tr [[_ Ha] Hd]. split; [by right|done].
Qed.
Lemma migrate_safe P built db done : Stable P → (∀ tr, P tr → own_db db tr) → at_step 1 done →
  safe P (migrate_step ask show jobId budgetMs startedAt resume built db done) (λ d _, at_step 2 d).
Proof using Type.
intros HP Hdb Hat. unfold migrate_step. destruct (complete done D1Migrate) eqn:Hc.
- apply safe_ret. intros tr _. by eapply (at_step_complete 1).
- apply safe_then; [done| |intros _; apply (mark_safe _ _ _ _ 1); [apply _|reflexivity|done]].
  apply (known_safe _ _ (λ c, match c with CQueryD1 d _ _ => d =? db | _ => false end)%string); [done| |].
  + assert (∀ already l, only (λ c, match c with CQueryD1 d _ _ => d =? db | _ => false end)%string (apply_each ask db already l)) as He
      by (induction l; cbn [apply_each]; unfold run_sql; walk_only; apply (only_perform _ _ (CQueryD1 _ _ _)), String.eqb_refl).
    unfold applyStudioMigrations, adopt, run_sql. walk_only; first [apply He|apply (only_perform _ _ (CQueryD1 _ _ _)), String.eqb_refl].
  + intros tr c Htr Hk. destruct c; try done. apply String.eqb_eq in Hk. subst. split; [by apply Hdb|by eapply (not_done 1)].
Qed.
Lemma bucket_safe P done : Stable P → (∀ tr, P tr → contract_held tr) → at_step 2 done →
  safe P (bucket_step ask jobId tenant budgetMs startedAt resume done) (λ d _, at_step 3 d).
Proof using Type.
intros HP Hcon Hat. unfold bucket_step. destruct (complete done R2Bucket) eqn:Hc.
- apply safe_ret. intros tr _. by eapply (at_step_complete 2).
- apply safe_then; [done|apply (tell_safe _ _ (CCreateR2Bucket _))|intros []].
  + intros tr Htr. split; [done|]. split; [by eapply (not_done 2)|by apply Hcon].
  + apply safe_then; [done|apply (tell_safe _ _ (SSetTenantBucket _ _)); intros tr _; split_and!; [done|done|by eapply (not_done 2)]|intros []]. apply (mark_safe _ _ _ _ 2); [apply _|reflexivity|done].
Qed.
Lemma token_safe P done : Stable P → (∀ tr, P tr → contract_held tr) → at_step 3 done →
  safe P (token_step ask jobId tenant budgetMs startedAt resume done) (λ r tr, bucket_token r.1 tr ∧ at_step 4 r.2).
Proof using Type.
intros HP Hcon Hat. unfold token_step. eapply safe_bind; [done|apply (call_safe _ _ (TMintBucketToken _ _)); intros tr Htr; by split_and!; [| |apply Hcon]|intros m].
apply safe_then; [apply _|apply (tell_safe _ _ (SSetTenantR2Token _ _)); intros tr [_ Ha]; split; [done|by exists m]|intros []].
eapply safe_bind; [apply _|apply (mark_safe _ _ _ _ 3); [apply _|reflexivity|done]|intros d]. apply safe_ret. by intros tr [[_ Ha] Hd].
Qed.
Lemma endpoints_safe P done : Stable P → at_step 4 done →
  safe P (endpoints_step ask json_parse deps jobId tenant budgetMs startedAt resume done)
    (λ r _, match r with Some (eps, _, d) => own_endpoints eps ∧ at_step 5 d | None => True end).
Proof using Type.
intros HP Hat. unfold endpoints_step, fail. destruct (complete done RunpodEndpoints) eqn:Hc.
- assert (own_endpoints (readTenantEndpoints json_parse tenant)) as Hown by by left.
  destruct (readTenantEndpoints json_parse tenant) as [|e eps]; [apply safe_throw|].
  eapply safe_bind; [done|apply (mark_safe _ _ _ _ 4); [apply _|reflexivity|done]|intros d]. apply safe_ret. by intros tr [_ ?].
- destruct (dp_sharedPool deps) as [pool|] eqn:Ep; [|by apply safe_ret].
  assert (own_endpoints (pool_endpoints pool)) as Hown by (right; by exists pool).
  assert (RunpodEndpoints ∉ done0) as Hnew by (by eapply (not_done 4)).
  eapply safe_bind; [done|by apply (call_safe _ _ (SSetTenantRunPodMode _ _))|intros []].
  apply safe_then; [apply _|apply (tell_safe _ _ (SSetTenantEndpoints _ _)); by intros tr [_ Ha]|intros []].
  eapply safe_bind; [apply _|apply (mark_safe _ _ _ _ 4); [apply _|reflexivity|done]|intros d]. apply safe_ret. by intros tr [_ ?].
Qed.

(** The calls of preparing a studio: its assets, its gateway token, random bytes. *)
Definition studio_kind (c : call) : bool :=
  match c with
  | CCreateAssetsSession ns s _ => (ns =? dp_namespace deps)%string && (s =? script)%string
  | CUploadAssetBucket _ _ | KRandom _ => true
  | TRevokeByName n | TMintAigToken n => bool_decide (n ∈ aig_names)
  | _ => false
  end.
Lemma studio_kind_ok tr c : studio_kind c = true → step_call tr c.
Proof using Type. destruct c; cbn; try done; intros; bool_hyps; done. Qed.
Lemma aig_only name : name ∈ aig_names → only studio_kind (fresh_aig_token ask deps name).
Proof using Type. intros Hn. unfold fresh_aig_token. walk_only; apply only_perform; cbn; by apply bool_decide_eq_true. Qed.
Lemma assets_only assets : only studio_kind (uploadStudioAssets ask deps (t_slug tenant) assets).
Proof using Type.
assert (∀ jwt l completion, only studio_kind (upload_buckets ask assets jwt l completion)) as H by (induction l; intros; cbn [upload_buckets]; walk_only; auto).
unfold uploadStudioAssets. walk_only; [|apply H]. apply only_perform. cbn. by rewrite !String.eqb_refl.
Qed.

Lemma studio_safe P built db m eps done : Stable P → known P →
  (∀ tr, P tr → answered (BFetchStudio release) (Ok built) tr ∧ own_db db tr ∧ bucket_token m tr) → own_endpoints eps → at_step 5 done →
  safe P (studio_step ask seal digest deps jobId tenant budgetMs startedAt resume built quota db m eps done) (λ r tr, studio_up tr ∧ at_step 6 r.2).
Proof using rel_stable.
intros HP release_ok Hk He Hat. unfold studio_step.
apply safe_then; [done|apply (known_safe _ _ studio_kind); [done|walk_only; apply assets_only|intros; by apply studio_kind_ok]|intros jwt].
apply safe_then; [done|by apply (tell_safe _ _ (KRandom _))|intros bytes].
apply safe_then; [done|apply (known_safe _ _ studio_kind); [done|apply aig_only; right; left|intros; by apply studio_kind_ok]|intros aig].
set (args := mkUpload _ _ _ _ _ _ _ _ _).
assert (∀ tr, P tr → own_studio args tr) as Hown.
{ intros tr Htr. destruct (Hk tr Htr) as (Hb & Hdb & Hm). split; [done|]. split; [done|].
  exists release, built, db, m, (randomToken bytes), aig, eps. split_and!; [by apply release_ok|done|done|done|done|done|done]. }
eapply (safe_bind _ _ _ _ (λ _, answered (CUploadUserWorker args) (Ok tt))); [done| |intros []].
- apply safe_map_err. unfold uploadStudioScript. eapply safe_bind; [done|apply safe_attempt, safe_perform; intros tr Htr; right; left; by apply Hown|].
  intros [e|[]]; [destruct (classifyVpcBindingFailure _ _); apply safe_throw|].
  apply (safe_ret _ _ _ (λ _, answered (CUploadUserWorker args) (Ok tt))). by intros tr [_ ?].
- set (P' := λ tr, P tr ∧ answered (CUploadUserWorker args) (Ok tt) tr). assert (Stable P') by apply _.
  assert (∀ tr, P' tr → studio_up tr) as Hup by (intros tr [Htr Ha]; exists args; split; [done|by apply Hown]).
  apply safe_then; [done|apply (tell_safe _ _ (SSetTenantScript _ _ _)); intros tr Htr; split_and!; [done|done|by apply release_ok, Htr|by apply Hup]|intros []].
  apply safe_then; [done|by apply (tell_safe _ _ (KRandom _))|intros iv].
  apply safe_then; [done|by apply safe_map_err, safe_lift|intros enc].
  apply safe_then; [done|apply (tell_safe _ _ (SSetTenantStudioToken _ _)); intros tr Htr; split; [done|by apply Hup]|intros []].
  eapply safe_bind; [done|apply (mark_safe _ _ _ _ 5); [done|reflexivity|done]|intros d]. apply safe_ret. intros tr [Htr Hd]. split; [by apply Hup|done].
Qed.
Lemma revoke_safe P m done : Stable P → (∀ tr, P tr → studio_up tr) → safe P (revoke_previous ask tenant m done) (λ _ _, True).
Proof using Type.
intros HP Hup. unfold revoke_previous. destruct (t_r2_token_id tenant) as [prev|] eqn:Ep; [|by apply safe_ret]. destruct (_ && _); [|by apply safe_ret].
apply safe_then; [done| |intros ?; by apply safe_ret]. apply safe_map_err. eapply (safe_try _ _ _ (TRevoke _)). intros tr Htr. right. split; [done|by apply Hup].
Qed.

(** The modules of any of this plane's contexts for the tenant, uploaded and installed. *)
Lemma upload_modules_safe P uc done : Stable P → (∀ tr, P tr → own_context uc tr) →
  safe P (at_done done (uploadTenantModules ask sign deps uc)) (λ _, modules_up).
Proof using rel_stable.
intros HP Huc. apply safe_map_err. assert (∀ tr c, own_context uc tr → upload_calls sign deps uc tr c → provision_calls tr c) as Hlets.
{ intros tr c Htr Hc. right. destruct c; try done.
  - right. by exists uc.
  - destruct Htr as (_ & Hr & _). destruct Hc as [-> _]. exact Hr. }
pose proof (upload_safe ask sign deps uc provision_calls (own_context uc) Hlets P HP Huc) as H.
eapply safe_weaken; [exact (safe_keep _ _ _ _ HP H)|done|]. intros a tr _ [Htr [_ Hall]]. right. exists uc. split; [by apply Huc|done].
Qed.
Lemma install_modules_safe P token done : Stable P →
  safe P (at_done done (installTenantModules ask json_stringify (t_id tenant) script token)) (λ _, modules_in).
Proof using Type.
intros HP. apply safe_map_err. eapply safe_weaken; [apply (install_safe ask json_stringify (t_id tenant) script token _ P)|done|].
- intros. by right.
- intros. by right.
- intros. by right.
- done.
- done.
- intros a tr _ H. right. by exists token.
Qed.
Lemma verify_studio_safe P token eps done : Stable P → own_endpoints eps →
  safe P (at_done done (verify_studio ask json_parse deps script eps token)) (λ _, verified).
Proof using Type.
intros HP He. apply safe_map_err. eapply safe_weaken; [apply (verify_safe ask json_parse deps script token _ P)|done|].
- intros. by right.
- intros. by right.
- intros. by right.
- done.
- done.
- intros a tr _ H. right. exists token, eps. done.
Qed.
Lemma modules_safe P db token eps mode done : Stable P → known P → (∀ tr, P tr → own_db db tr) → own_endpoints eps → at_step 6 done →
  safe P (modules_steps ask sign json_stringify deps jobId tenant budgetMs startedAt resume db token eps mode done)
    (λ d tr, modules_up tr ∧ modules_in tr ∧ at_step 8 d).
Proof using rel_stable.
intros HP release_ok Hdb He Hat. unfold modules_steps.
apply safe_then; [done|apply (known_safe _ _ studio_kind); [done|apply aig_only; left|intros; by apply studio_kind_ok]|intros aig].
eapply safe_bind; [done|apply upload_modules_safe; [done|]|intros names].
{ intros tr Htr. split_and!; [done|by apply release_ok|done|]. intros db' [= <-]. by apply Hdb. }
eapply safe_bind; [apply _|apply (mark_safe _ _ _ _ 6); [apply _|reflexivity|done]|intros d]. eapply safe_assume; [by intros tr [_ H]|intros Hd].
eapply safe_bind; [apply _|apply install_modules_safe; apply _|intros ms].
eapply safe_weaken; [apply (safe_keep _ _ _ _ _ (mark_safe (λ tr, modules_up tr ∧ modules_in tr) startedAt _ d 7 ModulesInstall _ eq_refl Hd))| |].
- by intros tr [[[_ H1] _] H2].
- by intros a tr _ [[H1 H2] H3].
Qed.
Lemma go_live_safe P token eps done : Stable P → known P → (∀ tr, P tr → modules_up tr ∧ modules_in tr) → own_endpoints eps → at_step 8 done →
  safe P (go_live ask json_parse deps jobId tenant budgetMs startedAt resume token eps done)
    (λ o _, o = AwaitingGoLive).
Proof using Type.
intros HP release_ok Hm He Hat. unfold go_live.
apply safe_then; [done|apply (tell_safe _ _ (SSetTenantModulesRelease _ _))|intros []].
{ intros tr Htr. split; [done|]. split; [by apply Hm|]. exists release. split; [done|by apply release_ok]. }
eapply safe_bind; [done|by apply verify_studio_safe|intros []].
apply safe_then; [apply _|eapply safe_weaken; [apply (mark_safe (λ _, True) _ _ _ 8); [apply _|reflexivity|done]|done|done]|intros d].
eapply safe_bind; [apply _|apply (call_safe _ _ (SSetTenantStatus _ _))|intros []].
{ intros tr [Htr Hv]. split; [done|]. right. left. by destruct (Hm _ Htr). }
apply safe_then; [apply _|apply (tell_safe _ _ (SFinishJob _ _ _ _)); by intros tr [_ Ha]|intros ?]. by apply safe_ret.
Qed.

Lemma run_body_safe P : Stable P → known P →
  safe P (run_body ask sign seal digest json_parse json_stringify number show deps jobId tenant budgetMs startedAt resume) (λ _ _, True).
Proof using rel_stable done0_reached resume_done has_database.
intros HP Hrel. unfold run_body. rewrite <- resume_done.
eapply safe_bind; [done|by apply precondition_safe|intros [built q]]. eapply safe_assume; [by intros tr [_ (_ & _ & Hz)]|cbn; intros ->].
set (P1 := λ tr, P tr ∧ _). assert (Stable P1) by apply _. assert (∀ tr, P1 tr → contract_held tr) as Hcon by by intros tr [_ [Hz _]].
eapply safe_bind; [done|by apply database_safe|intros [db d1]]. eapply safe_assume; [by intros tr [_ [_ Hz]]|cbn; intros Hd1].
set (P2 := λ tr, P1 tr ∧ _). assert (Stable P2) by apply _. assert (∀ tr, P2 tr → own_db db tr) as Hdb by by intros tr [_ [Hz _]].
eapply safe_bind; [done|by apply migrate_safe|intros d2]. eapply safe_assume; [by intros tr [_ Hz]|intros Hd2].
eapply safe_bind; [apply _|apply bucket_safe; [apply _|by intros tr [[Hz _] _]; apply Hcon|done]|intros d3]. eapply safe_assume; [by intros tr [_ Hz]|intros Hd3].
eapply safe_bind; [apply _|apply token_safe; [apply _|by intros tr [[[Hz _] _] _]; apply Hcon|done]|intros [m d4]]. eapply safe_assume; [by intros tr [_ [_ Hz]]|cbn; intros Hd4].
eapply safe_bind; [apply _|apply endpoints_safe; [apply _|done]|intros [[[eps mode] d5]|]]; [|by apply safe_ret].
eapply safe_assume; [by intros tr [_ Hz]|intros [He Hd5]].
eapply safe_bind; [apply _|apply (studio_safe _ built db m eps)|intros [token d6]]; [apply _| | |done|done|].
{ intros tr Hall. unfold P2, P1 in Hall. destruct_and! Hall. by apply Hrel. }
{ intros tr Hall. unfold P2, P1 in Hall. destruct_and! Hall. by split_and!. }
eapply safe_assume; [by intros tr [_ [_ Hz]]|cbn; intros Hd6].
set (P3 := λ tr, (_ ∧ (studio_up tr ∧ _))). assert (Stable P3) by apply _.
apply safe_then; [done|by apply revoke_safe; [|intros tr [_ [Hz _]]]|intros []].
assert (known P3) as Hrel3 by (intros tr Hall; unfold P3, P2, P1 in Hall; destruct_and! Hall; by apply Hrel).
eapply safe_bind; [done|apply modules_safe; [done|done|intros tr Hall; unfold P3, P2, P1 in Hall; by destruct_and! Hall|done|done]|intros d7].
eapply safe_assume; [by intros tr [_ (_ & _ & Hz)]|intros Hd7].
eapply safe_weaken; [apply (go_live_safe (λ tr, rel tr release ∧ modules_up tr ∧ modules_in tr)); [apply _|by intros tr [? _]|by intros tr [_ ?]|done|done]| |done].
intros tr [Htr (? & ? & _)]. split; [by apply Hrel3|done].
Qed.
End body.

(** ** Failures *)
Lemma rollback_safe P : Stable P → (∀ tr, P tr → closed tr) → safe P (rollbackFailedProvision ask digest pages deps tenant) (λ _ _, True).
Proof using Type.
intros HP Hc. unfold rollbackFailedProvision. apply safe_then; [done| |intros ?; by apply safe_ret].
eapply safe_weaken; [eapply (safe_attempt _ P _ (λ _ _, True))|done|done].
eapply safe_bind; [done|apply safe_perform; intros tr Htr; left; split; [by apply Hc|by left]|intros [fresh|]]; [|by apply safe_ret].
apply safe_then; [apply _| |intros ?; by apply safe_ret]. eapply only_safe; [apply _|apply teardown_only|].
intros tr c [Htr Ha] Hk. left. split; [by apply Hc|]. right. by exists fresh.
Qed.
Lemma failure_safe th : safe (λ _, True) (on_failure ask digest pages deps jobId tenant th) (λ _ _, True).
Proof using Type.
destruct th as [e done]. unfold on_failure.
assert (∀ s message, safe (λ _, True) (closed ← perform ask (SFinishJob jobId false (Some s) (Some message));
  if negb closed then mret (ProvisionFailed s message)
  else _ ← perform ask (SSetTenantStatus (t_id tenant) "failed"); _ ← rollbackFailedProvision ask digest pages deps tenant; mret (ProvisionFailed s message))
  (λ _ _, True)) as Hfail.
{ intros s message. eapply safe_bind; [apply _|apply safe_perform; by right|intros [|]; cbn [negb]; [|by apply safe_ret]].
  apply safe_then; [apply _|eapply (safe_do _ _ _ (SSetTenantStatus _ _)); intros tr [_ Ha]; right; split; [done|]|intros []].
  { right. right. split; [done|]. by exists (Some s), (Some message). }
  apply safe_then; [apply _|apply rollback_safe; [apply _|intros tr [_ Ha]; by exists (Some s), (Some message)]|intros []]. by apply safe_ret. }
destruct e; try apply Hfail. apply safe_then; [apply _|eapply (safe_do _ _ _ (SReleaseJobLease _)); by right|intros ?]. by apply safe_ret.
Qed.
Lemma recovered_safe {A} P (body : pm A) h : safe P body (λ _ _, True) → (∀ th, safe (λ _, True) (h th) (λ _ _, True)) → safe P (recovered body h) (λ _ _, True).
Proof using Type.
intros Hb Hh tr Ho Htr. destruct (Hb tr Ho Htr) as (H1 & H2 & _). unfold recovered. destruct (body tr) as [[a|th] tr']; [by split_and!|].
destruct (Hh th tr' H2 I) as (H3 & H4 & H5). split_and!; [by etrans|done|done].
Qed.

Lemma run_safe P resume : Stable P → (∀ tr, P tr → rel tr (Provision.release deps resume)) → done0 = match resume with Some r => pr_done r | None => [] end →
  (D1Create ∈ done0 → t_d1_database_id tenant ≠ None) →
  safe P (runProvisionJob ask sign seal digest json_parse json_stringify number show pages deps jobId tenant budgetMs resume) (λ _ _, True).
Proof using rel_stable done0_reached.
intros HP Hr Hd Hdb. unfold runProvisionJob. apply safe_then; [done|eapply (safe_do _ _ _ KNow); by right|intros startedAt].
apply recovered_safe; [by apply run_body_safe|apply failure_safe].
Qed.

(** ** The module steps on a studio that is there *)
Lemma reached_in n s done : nth_error PROVISION_STEPS n = Some s → reached (S n) done → s ∈ done.
Proof using Type.
intros Hn [(k & Hk & ->)%prefix_firstn Hl]. rewrite length_take in Hl. cbn [length PROVISION_STEPS] in Hl.
destruct (add_step_firstn k n s Hn) as [_ Hc]; [lia|lia|]. unfold complete in Hc. replace (n <? k)%nat with true in Hc by (symmetry; apply Nat.ltb_lt; lia).
by apply bool_decide_eq_true in Hc.
Qed.
(** What is done beyond the first [n] steps was done before. *)
Lemma done_before n s done : at_step n done → s ∉ firstn n PROVISION_STEPS → complete done s = true → s ∈ done0.
Proof using Type. intros (_ & _ & H1) Hs Hc%bool_decide_eq_true. by destruct (H1 _ Hc). Qed.

(** A module step is run, or was done already. *)
Lemma step_or_done {A} P n s done (Q : trace → Prop) (m : pm A) (f : A → pm (list step)) startedAt : Stable P → Stable Q →
  nth_error PROVISION_STEPS n = Some s → s ∉ firstn n PROVISION_STEPS → at_step n done → (∀ tr, s ∈ done0 → Q tr) →
  safe P m (λ _, Q) → (∀ a, f a = mark ask jobId budgetMs startedAt unsafe_step done s) →
  safe P (if negb (complete done s) then m ≫= f else mret done) (λ d tr, Q tr ∧ at_step (S n) d).
Proof using Type.
intros HP HQ Hn Hfresh Hat Hdone Hm Hf. destruct (complete done s) eqn:Hc; cbn [negb].
- apply safe_ret. intros tr _. split; [by eapply Hdone, done_before|by eapply at_step_complete].
- eapply safe_bind; [done|exact Hm|intros a]. rewrite Hf.
  eapply safe_weaken; [apply (safe_keep _ _ _ _ _ (mark_safe Q startedAt _ done n s HQ Hn Hat))|by intros tr [_ ?]|by intros d tr _ [? ?]].
Qed.

Section late.
Variable startedAt : Z.
Hypothesis recorded : reached 6 done0.
Variables (eps : list TenantEndpoint) (token release : string) (db : option string) (b : option string) (mode : RunPodMode).
Lemma late_modules_safe P : Stable P → (∀ tr, P tr → rel tr release) → own_endpoints eps → (∀ tr d, P tr → db = Some d → own_db d tr) →
  safe P (runModuleSteps ask sign json_parse json_stringify deps tenant (mkModuleArgs script eps token release db b mode None)
    (λ done s, negb (complete done s)) (mark ask jobId budgetMs startedAt unsafe_step) done0)
    (λ _ tr, modules_up tr ∧ modules_in tr ∧ verified tr).
Proof using rel_stable recorded.
intros HP Hrel He Hdb. assert (at_step 6 done0) as Hat6 by (split_and!; [done|done|by left]). unfold runModuleSteps. cbn [ma_script ma_endpoints ma_studioApiToken ma_release ma_telemetryD1 ma_bucket ma_mode ma_prefetched].
eapply (safe_bind _ _ _ _ (λ d tr, modules_up tr ∧ at_step 7 d)); [done| |intros d7].
{ destruct (complete done0 ModulesUpload) eqn:Hc; cbn [negb].
  - apply safe_ret. intros tr _. split; [left; eapply (done_before 6); [done|by apply (bool_decide_unpack _)|done]|by eapply (at_step_complete 6)].
  - apply safe_then; [done|apply (known_safe _ _ studio_kind); [done|apply aig_only; left|intros; by apply studio_kind_ok]|intros aig].
    eapply safe_bind; [done|apply upload_modules_safe; [done|]|intros names].
    { intros tr Htr. split_and!; [done|by apply Hrel|done|]. intros d Hd. by eapply Hdb. }
    eapply safe_weaken; [apply (safe_keep _ _ _ _ _ (mark_safe modules_up startedAt _ done0 6 ModulesUpload _ eq_refl Hat6))|by intros tr [_ ?]|by intros d tr _ [? ?]]. }
eapply safe_assume; [by intros tr [_ [_ Hz]]|intros Hat7].
eapply (safe_bind _ _ _ _ (λ d tr, modules_in tr ∧ at_step 8 d)); [apply _| |intros d8].
{ eapply (step_or_done _ 7); [apply _|apply _|done|by apply (bool_decide_unpack _)|done|by intros tr ?; left|apply install_modules_safe; apply _|done]. }
eapply safe_assume; [by intros tr [_ [_ Hz]]|intros Hat8].
eapply safe_weaken; [eapply (safe_keep _ (λ tr, modules_up tr ∧ modules_in tr)); [apply _|]|intros tr Hz; by destruct_and! Hz|].
{ eapply (step_or_done _ 8 _ _ verified); [apply _|apply _|done|by apply (bool_decide_unpack _)|done|by intros tr ?; left|apply verify_studio_safe; [apply _|done]|done]. }
by intros d tr _ [[? ?] [? _]].
Qed.
End late.

Lemma resume_late_safe P startedAt : Stable P → reached 6 done0 → t_d1_database_id tenant ≠ None →
  (∀ tr r, P tr → t_studio_release tenant = Some r → rel tr r) →
  safe P (resume_late ask sign open json_parse json_stringify deps jobId tenant budgetMs startedAt done0) (λ _ _, True).
Proof using rel_stable.
intros HP Hr Hdb Hrel. unfold resume_late, fail. pose proof (or_introl eq_refl : own_endpoints (readTenantEndpoints json_parse tenant)) as Hown.
destruct (readTenantEndpoints json_parse tenant) as [|e eps]; [apply safe_throw|].
destruct (opt_set (t_studio_token_enc tenant)); [|apply safe_throw]. cbn [negb].
apply safe_then; [done|by apply safe_map_err, safe_lift|intros token].
destruct (t_studio_release tenant) as [r|] eqn:Ep; [|apply safe_throw]. destruct (negb (opt_set (Some r))); [apply safe_throw|]. cbn [default].
eapply safe_bind; [done|apply late_modules_safe; [done|done|by intros tr Htr; apply Hrel|done|]|intros d].
{ intros tr db _ Hd. left. split; [|done]. apply (reached_in 0); [done|]. by apply (reached_le 6); [|lia]. }
apply safe_then; [apply _|apply (tell_safe _ _ (SSetTenantModulesRelease _ _))|intros []].
{ intros tr (Htr & _ & Hin & _). split; [done|]. split; [done|]. exists r. split; [done|by apply Hrel]. }
eapply safe_bind; [apply _|apply (call_safe _ _ (SSetTenantStatus _ _))|intros []].
{ intros tr (_ & Hup & Hin & Hv). split; [done|]. right. left. done. }
apply safe_then; [apply _|apply (tell_safe _ _ (SFinishJob _ _ _ _)); by intros tr [_ Ha]|intros ?]. by apply safe_ret.
Qed.
End steps.
End policy.

(** ** The runs *)
Section runs.
Context (ask : world) (sign : string → string → list ascii) (seal : list ascii → list ascii → string → list ascii)
  (open : list ascii → list ascii → list ascii → option string) (digest : string → list ascii) (json_parse : string → option js)
  (json_stringify : js → string) (number : string → Num.num) (show : Num.num → string) (pages : nat) (deps : ProvisionDeps)
  (jobId : string) (tenant : Tenant) (budgetMs : Z).

Definition resumed (resume : option ProvisionResume) : list step := match resume with Some r => pr_done r | None => [] end.
(** What a continued provision may build from: the release its job recorded, or the one its studio is of. *)
Definition resume_release (done : list step) (tr : trace) (r : string) : Prop :=
  if complete done WfpUpload then t_studio_release tenant = Some r
  else ∃ job, answered (SGetJob jobId) (Ok (Some job)) tr ∧ p_runpod_mode job = Some "shared" ∧ p_to_release job = Some r.

(** C4. A provision keeps its policy at every call it makes, whatever the platform answers.  Nothing is
    created before the release's bundle is there, every variable it wants is decided on and the tenant's
    ceiling is known; a database, a migration, a bucket or a choice of endpoints that was recorded
    before is neither repeated nor recorded anew (a bucket credential is: its value is never stored, so
    every run mints one); the studio that is
    uploaded is bound to this tenant's own database, bucket and credential; the old bucket credential is
    revoked only once the new studio is up; the tenant is marked awaiting go-live only after its modules
    were uploaded and installed and its studio was verified, and its job is closed as done only after
    that; progress is always recorded as a prefix of the steps; the tenant is marked failed, and the
    teardown asked for, only after this run itself closed the job as failed. *)
Theorem provision_goes_live_only_verified resume :
  reached 0 (resumed resume) → (D1Create ∈ resumed resume → t_d1_database_id tenant ≠ None) →
  lawful (provision_calls sign digest json_parse json_stringify number show deps jobId tenant (resumed resume) (λ _ r, r = Provision.release deps resume))
    (runProvisionJob ask sign seal digest json_parse json_stringify number show pages deps jobId tenant budgetMs resume).
Proof.
intros Hr Hdb. unfold lawful. apply run_safe; [|exact Hr| | |reflexivity|exact Hdb].
- intros r. apply _.
- apply _.
- by intros tr _.
Qed.

Lemma recorded_contiguous done : done = firstn (length done) PROVISION_STEPS → reached 0 done.
Proof. intros E. split; [|lia]. rewrite E. eexists. symmetry. apply take_drop. Qed.
Lemma uploaded_reaches done : reached 0 done → complete done WfpUpload = true → reached 6 done.
Proof.
intros [(k & Hk & ->)%prefix_firstn _] Hc. apply firstn_reached; [done|]. destruct (decide (6 <= k)%nat) as [|Hlt]; [done|exfalso].
by do 6 (destruct k as [|k]; [by vm_compute in Hc|]); lia.
Qed.
Lemma opt_set_default o : opt_set o = true → o = Some (default "" o).
Proof. by destruct o. Qed.

(** A provision that is picked up again keeps the same policy, with the steps its job recorded taken
    as done: it builds only from the release the job recorded for a pooled provision or, once the studio
    is up, from the release that studio is of; a recorded database, migration, bucket or
    choice of endpoints is not repeated; and the tenant
    is still marked awaiting go-live only when modules and verification are recorded or done by this run. *)
Theorem resume_keeps_to_its_release stepsDone :
  lawful (provision_calls sign digest json_parse json_stringify number show deps jobId tenant (recorded_steps stepsDone) (resume_release (recorded_steps stepsDone)))
    (continueProvisionJob ask sign seal open digest json_parse json_stringify number show pages deps jobId tenant budgetMs stepsDone).
Proof.
set (done := recorded_steps stepsDone). set (rel := resume_release done).
assert (∀ r, Stable (λ tr, rel tr r)) as Hrel by (intros r; unfold rel, resume_release; destruct (complete done WfpUpload); apply _).
unfold continueProvisionJob. apply safe_then; [apply _|eapply (safe_do _ _ _ KNow); by right|intros startedAt]. fold done.
apply recovered_safe; [|apply failure_safe]. unfold continue_body, fail.
destruct (bool_decide _) eqn:Hc; cbn [negb]; [|apply safe_throw]. apply bool_decide_eq_true in Hc.
apply recorded_contiguous in Hc as Hr.
destruct (_ && _) eqn:Hdb; [apply safe_throw|].
assert (D1Create ∈ done → t_d1_database_id tenant ≠ None) as Hid.
{ intros Hin Hn. unfold complete in Hdb. by rewrite Hn, (bool_decide_true _ Hin) in Hdb. }
eapply safe_bind; [apply _|apply safe_map_err, safe_perform; intros tr _; by right|intros [job|]]; [|apply safe_throw].
destruct (complete done WfpUpload) eqn:Hw; cbn [negb].
- apply uploaded_reaches in Hw as H6; [|done]. apply resume_late_safe; [done|apply _|done| |].
  + apply Hid, (reached_in 0); [done|]. by apply (reached_le 6); [|lia].
  + intros tr r _ Hp. unfold rel, resume_release. by rewrite Hw.
- unfold resume_early. destruct (p_runpod_mode job) as [mode|] eqn:Em; [|apply safe_throw]. destruct (mode =? "dedicated")%string; [apply safe_throw|].
  destruct (mode =? "shared")%string eqn:Es; [|apply safe_throw]. destruct (opt_set (p_to_release job)) eqn:Er; [|apply safe_throw]. cbn [negb].
  apply String.eqb_eq in Es. apply opt_set_default in Er. subst mode. apply safe_map_err, run_safe; [exact Hrel|exact Hr|apply _| |reflexivity|exact Hid].
  intros tr [_ Ha]. unfold rel, resume_release. rewrite Hw. by exists job.
Qed.
End runs.
