(* ===== verification/Converge.v ===== *)
(** * Bringing a live studio in line (src/tenant-studio-bindings.ts, src/tenant-storage-quota.ts,
      src/tenant-abuse-report.ts, src/video-finish-tier-state.ts: the operations)

    Each reads what a studio is bound to, patches its settings with everything it carries as [inherit]
    and the projections it is about re-derived, and reads back; two of them then ask the studio itself.
    Which of the plane's two credentials makes a call is not told apart here. *)

From S2P Require Export Provision.
From Stdlib Require Import Ascii.
Open Scope string_scope.
Open Scope list_scope.
Open Scope Z_scope.
Open Scope plane_scope.

(** ** Counting what is there *)
Record Census := mkCensus { cs_bindings : list BindingListing; cs_secrets : list string }.
Definition names (l : list BindingListing) : list string := order_by Str.leb (bl_name <$> l).
Definition has_name (n : string) (c : Census) : bool := bool_decide (n ∈ bl_name <$> cs_bindings c).
(** The names that were there and are not; [but] are those meant to go. *)
Definition missing_bindings (before after : Census) (but : list string) : list string :=
  jfilter (λ n, negb (existsb (String.eqb n) but) && negb (has_name n after)) (names (cs_bindings before)).
Definition missing_secrets (before after : Census) : list string :=
  jfilter (λ n, negb (bool_decide (n ∈ cs_secrets after))) (order_by Str.leb (cs_secrets before)).
Definition inherit_all (l : list BindingListing) : list WorkerBinding := (λ b, BInherit (bl_name b)) <$> l.

(** What every operation reports of its census before and after. *)
Record Readback := mkReadback {
  rb_bindings_before : list string; rb_bindings_after : list string; rb_secrets_before : list string; rb_secrets_after : list string;
  rb_missing_bindings : list string; rb_missing_secrets : list string;
}.
Definition readback (before after : Census) (but : list string) : Readback :=
  mkReadback (names (cs_bindings before)) (names (cs_bindings after)) (order_by Str.leb (cs_secrets before)) (order_by Str.leb (cs_secrets after))
    (missing_bindings before after but) (missing_secrets before after).
Definition nothing_missing (r : Readback) : bool := (length (rb_missing_bindings r) =? 0)%nat && (length (rb_missing_secrets r) =? 0)%nat.

(** ** Asking until the answer is the one bound *)
Section confirm.
Context {A B : Type} (ask : world) (read : M trace exn A) (as_bound : A → bool) (keep : B → A → B) (probeMs budgetMs : Z).
Fixpoint confirm (fuel : nat) (started : Z) (attempts : nat) (acc : B) : M trace exn (A * B * nat) :=
  match fuel with
  | O => throw out_of_fuel
  | S fuel =>
      let attempts := S attempts in
      a ← read;
      let acc := keep acc a in
      if as_bound a then mret (a, acc, attempts)
      else
        at_ ← perform ask KNow;
        if budgetMs <? at_ - started + probeMs then mret (a, acc, attempts)
        else
          _ ← perform ask (KSleep probeMs);
          confirm fuel started attempts acc
  end.
End confirm.
Definition CONFIRM_FUEL : nat := 8.

(** Numbers compared as JavaScript does. *)
Definition num_same (a b : Num.num) : bool := match a with Num.NNaN => false | _ => bool_decide (a = b) end.
Definition num_at_least (a b : Num.num) : bool :=
  match a, b with
  | Num.NNaN, _ | _, Num.NNaN => false
  | Num.NInf na, Num.NInf nb => negb na || nb
  | Num.NInf na, _ => negb na
  | _, Num.NInf nb => nb
  | Num.NInt x, Num.NInt y => y <=? x
  | Num.NInt x, Num.NFrac m e => m <=? x * 2 ^ Zpos e
  | Num.NFrac m e, Num.NInt y => y * 2 ^ Zpos e <=? m
  | Num.NFrac m e, Num.NFrac m' e' => m' * 2 ^ Zpos e <=? m * 2 ^ Zpos e'
  end.
Definition same_number (a b : option Num.num) : bool := match a, b with Some x, Some y => num_same x y | None, None => true | _, _ => false end.

Section converge.
Variable ask : world.
Variable open : list ascii → list ascii → list ascii → option string.
Variable json_parse : string → option js.
Variable number : string → Num.num.
Variable show : Num.num → string.
Variable deps : ProvisionDeps.

Definition census (script : string) : M trace exn Census :=
  bindings ← perform ask (CGetScriptBindings (dp_namespace deps) script);
  secrets ← perform ask (CGetScriptSecretNames (dp_namespace deps) script);
  mret (mkCensus bindings secrets).
Definition patch (script : string) (desired : list WorkerBinding) : M trace exn unit :=
  perform ask (CPatchScriptSettings (dp_namespace deps) script desired).

(** The token of a studio, or the refusal for want of it. *)
Definition studio_token (tenant : Tenant) : Refusal + string :=
  if negb (opt_set (t_studio_token_enc tenant)) then inl (mkRefusal "tenant_studio_token_missing" 422 "no studio token recorded for this tenant")
  else match decryptStudioToken open (dp_kek deps) (default "" (t_studio_token_enc tenant)) with
       | Ok token => inr token
       | Err text => inl (mkRefusal "tenant_studio_token_unreadable" 422 ("the stored studio token could not be decrypted: " +:+ exn_text (error text)))
       end.
Definition is_deleted (tenant : Tenant) : bool := match t_deleted_at tenant with Some _ => true | None => false end.
Definition tenant_deleted : Refusal := mkRefusal "tenant_deleted" 404 "this tenant no longer exists".

(** ** The video-finish binding: refresh and detach *)
Definition VIDEO_FINISH_BINDING : string := "VIDEO_FINISH_VPC".
Record BindingChange := mkChange { bc_ok : bool; bc_script : string; bc_already : bool; bc_readback : Readback }.
Definition preflightStudioBindings (tenant : Tenant) : Refusal + string :=
  if negb (opt_set (t_script_name tenant)) then
    inl (mkRefusal "not_provisioned" 409 ("this tenant has no studio script recorded, so there is nothing to patch; " +:+
      "it needs a provision, not a binding refresh"))
  else if isVideoFinishUnreachable tenant then
    inl (mkRefusal "video_finish_declared" 409 ("this tenant is DECLARED unreachable for the video-finish tier, so attaching the tier " +:+
      "would make that record false. Clear the declaration first " +:+
      "(POST /api/admin/tenants/<id>/video-finish-tier-state with unreachable=false), then re-run"))
  else inr (default "" (t_script_name tenant)).
(** The patch of a binding change, with the refusal of the upload credential named. *)
Definition binding_patch (script : string) (desired : list WorkerBinding) (refused : string) : M trace exn unit :=
  r ← attempt (patch script desired);
  match r with
  | inr _ => mret tt
  | inl e =>
      match classifyVpcBindingFailure e (existsb is_vpc desired) with
      | VpcRefused => throw (EBinding "vpc_binding_unauthorized" 409 refused)
      | _ => throw e
      end
  end.
Definition change_bindings (script : string) (desired : Census → list WorkerBinding) (refused : string) : M trace exn BindingChange :=
  before ← census script;
  _ ← binding_patch script (desired before) refused;
  after ← census script;
  let r := readback before after [VIDEO_FINISH_BINDING] in
  mret (mkChange (nothing_missing r && negb (has_name VIDEO_FINISH_BINDING after)) script (negb (has_name VIDEO_FINISH_BINDING before)) r).
Definition refreshed (before : Census) : list WorkerBinding :=
  inherit_all (jfilter (λ b, negb (bl_name b =s? VIDEO_FINISH_BINDING) && negb (existsb (λ d, d.1 =s? bl_name b) (dp_mediaDoorUrls deps))) (cs_bindings before)) ++
  ((λ d, BPlainText d.1 d.2) <$> dp_mediaDoorUrls deps).
Definition refreshTenantStudioBindings (script : string) : M trace exn BindingChange :=
  change_bindings script refreshed ("video-finish binding refused: the plane SCRIPT UPLOAD credential is not authorized for " +:+
    "Workers VPC (needs Connectivity Directory access). The tenant was NOT changed -- fix " +:+ "CF_WORKER_UPLOAD_TOKEN and re-run.").
Definition preflightStudioBindingDetach (tenant : Tenant) : Refusal + string :=
  if is_deleted tenant then inl tenant_deleted
  else if negb (opt_set (t_script_name tenant)) then
    inl (mkRefusal "not_provisioned" 409 "this tenant has no studio script recorded, so there is no binding set to patch")
  else if isVideoFinishUnreachable tenant then
    inl (mkRefusal "video_finish_declared" 409 ("this tenant is DECLARED unreachable for the video-finish tier. Detaching under a live " +:+
      "declaration mixes two operator statements about the same capability; clear the " +:+
      "declaration first if you are undoing it, or leave it in place if you are not"))
  else inr (default "" (t_script_name tenant)).
Definition detached (tenant : Tenant) (before : Census) : list WorkerBinding :=
  withVideoFinishTierState (inherit_all (jfilter (λ b, negb (bl_name b =s? VIDEO_FINISH_BINDING)) (cs_bindings before))) tenant.
Definition detachTenantStudioBinding (tenant : Tenant) (script : string) : M trace exn BindingChange :=
  change_bindings script (detached tenant) ("video-finish detach refused: the plane SCRIPT UPLOAD credential is not authorized for " +:+
    "Workers VPC (needs Connectivity Directory access). The tenant was NOT changed -- fix " +:+ "CF_WORKER_UPLOAD_TOKEN and re-run.").

(** ** What the studio says of itself *)
(** [GET path] as JSON; [None] when it did not answer usably. *)
Definition studio_json (script token path : string) : M trace exn (option (Z * option js)) :=
  r ← attempt (perform ask (XCallStudio script "GET" path token None));
  mret match r with inl _ => None | inr (status, text) => Some (status, json_parse text) end.
Definition read_json (got : option (Z * option js)) : option js :=
  match got with Some (status, parsed) => if 300 <=? status then None else parsed | None => None end.

(** ** The abuse-report page *)
Definition READBACK_PROBE_MS : Z := 2500.
Definition READBACK_BUDGET_MS : Z := 15000.
(** [None] when the studio could not be read, [Some None] when it names no page. *)
Definition servedAbuseReportUrl (script token : string) : M trace exn (option (option string)) :=
  got ← studio_json script token "/api/modules";
  mret ((λ body, match js_field (js_field body "host") "abuse_report_url" with JStr s => Some s | _ => None end) <$> read_json got).
Record AbuseReportUrlContext := mkAbuseContext { ac_script : string; ac_studioApiToken : string; ac_url : string; ac_servedBefore : option string }.
Definition preflightAbuseReportUrl (tenant : Tenant) : M trace exn (Refusal + AbuseReportUrlContext) :=
  if is_deleted tenant then mret (inl tenant_deleted)
  else if negb (opt_set (t_script_name tenant)) then
    mret (inl (mkRefusal "not_provisioned" 409 ("this tenant has no studio script recorded, so there is no studio to advertise an intake path " +:+
      "on; it needs a provision, not a binding patch")))
  else if negb (opt_set (dp_abuseReportUrl deps)) then
    mret (inl (mkRefusal "plane_has_no_intake_url" 409 ("this plane cannot name its own abuse-report page (CONTROL_PLANE_HOST is unset), so there is " +:+
      "nothing to advertise; fix the deploy config, then re-run")))
  else match studio_token tenant with
  | inl refusal => mret (inl refusal)
  | inr token =>
      let script := default "" (t_script_name tenant) in
      served ← servedAbuseReportUrl script token;
      mret match served with
           | None => inl (mkRefusal "studio_not_serving" 422 ("the tenant studio did not answer GET /api/modules with readable JSON, so what it advertises " +:+
               "cannot be established; fix that before writing to it"))
           | Some url => inr (mkAbuseContext script token (default "" (dp_abuseReportUrl deps)) url)
           end
  end.
Record AbuseReportUrlResult := mkAbuseResult {
  ar_ok : bool; ar_url : string; ar_already_present : bool; ar_var_present_after : bool; ar_readback : Readback;
  ar_served_before : option string; ar_served_after : option string; ar_reader_live : bool; ar_attempts : nat; ar_elapsed : Z;
}.
Definition applyAbuseReportUrl (fuel : nat) (context : AbuseReportUrlContext) : M trace exn AbuseReportUrlResult :=
  let script := ac_script context in
  let url := ac_url context in
  let is_url (raw : option (option string)) := bool_decide (default None raw = Some url) in
  before ← census script;
  _ ← patch script (withAbuseReportUrl (inherit_all (cs_bindings before)) (Some url));
  after ← census script;
  started ← perform ask KNow;
  '(raw, _, attempts) ← confirm ask (servedAbuseReportUrl script (ac_studioApiToken context)) is_url (λ u _, u) READBACK_PROBE_MS READBACK_BUDGET_MS fuel started 0 tt;
  ended ← perform ask KNow;
  let r := readback before after [] in
  mret (mkAbuseResult (nothing_missing r && has_name ABUSE_REPORT_URL_VAR after && is_url raw) url (has_name ABUSE_REPORT_URL_VAR before)
    (has_name ABUSE_REPORT_URL_VAR after) r (ac_servedBefore context) (default None raw) (is_url raw) attempts (ended - started)).

(** ** The declared state of the video-finish tier *)
Definition VIDEO_FINISH_CAPABILITY_KEY : string := "capability:video-finish".
Definition servedCapabilityReason (script token : string) : M trace exn (option (option string)) :=
  got ← studio_json script token "/api/modules";
  mret ((λ body, match js_field (js_field (js_field body "host") "hooks_unavailable") VIDEO_FINISH_CAPABILITY_KEY with JStr s => Some s | _ => None end) <$>
    read_json got).
Record TierStateIntent := mkIntent { ti_unreachable : bool; ti_reason : option string }.
Record TierStateContext := mkTierContext { tc_script : string; tc_studioApiToken : string; tc_servedReasonBefore : option string }.
Definition preflightVideoFinishTierState (tenant : Tenant) (intent : TierStateIntent) : M trace exn (Refusal + TierStateContext) :=
  if is_deleted tenant then mret (inl tenant_deleted)
  else if negb (opt_set (t_script_name tenant)) then
    mret (inl (mkRefusal "not_provisioned" 409 ("this tenant has no studio script recorded, so there is no studio to project the state onto; " +:+
      "it needs a provision, not a tier-state write")))
  else match studio_token tenant with
  | inl refusal => mret (inl refusal)
  | inr token =>
      let script := default "" (t_script_name tenant) in
      served ← servedCapabilityReason script token;
      mret match served with
           | None => inl (mkRefusal "studio_not_serving" 422 ("the tenant studio did not answer GET /api/modules with readable JSON, so what it reads " +:+
               "cannot be established; fix that before declaring anything about it"))
           | Some None =>
               if ti_unreachable intent then
                 inl (mkRefusal "studio_reader_absent" 422 ("this studio does not serve the " +:+ VIDEO_FINISH_CAPABILITY_KEY +:+
                   " key on GET /api/modules, so setting " +:+ VIDEO_FINISH_TIER_STATE_VAR +:+
                   " would reach nobody. Either the video-finish tier is BOUND here (the panel resolves " +:+
                   "available by observation and a label cannot override it), or the studio runs a bundle that " +:+
                   "predates the reader (vivijure-cf v1.9.0). Move the studio bytes first, then re-run."))
               else inr (mkTierContext script token None)
           | Some reason => inr (mkTierContext script token reason)
           end
  end.
Record TierStateResult := mkTierResult {
  tr_ok : bool; tr_unreachable : bool; tr_reason : option string; tr_var_before : bool; tr_var_after : bool; tr_readback : Readback;
  tr_served_before : option string; tr_served_after : option string; tr_served_changed : bool;
}.
Definition applyVideoFinishTierState (tenant : Tenant) (context : TierStateContext) (intent : TierStateIntent) : M trace exn TierStateResult :=
  let script := tc_script context in
  before ← census script;
  record ← (if ti_unreachable intent then at_ ← perform ask KNow; mret (Some (default "" (ti_reason intent), at_)) else mret None);
  _ ← perform ask (SSetTenantVideoFinishUnreachable (t_id tenant) record);
  _ ← patch script (with_tier_state (inherit_all (cs_bindings before)) (ti_unreachable intent));
  after ← census script;
  served ← servedCapabilityReason script (tc_studioApiToken context);
  let r := readback before after [VIDEO_FINISH_TIER_STATE_VAR] in
  let present := has_name VIDEO_FINISH_TIER_STATE_VAR after in
  mret (mkTierResult (nothing_missing r && bool_decide (present = ti_unreachable intent)) (ti_unreachable intent)
    (if ti_unreachable intent then ti_reason intent else None) (has_name VIDEO_FINISH_TIER_STATE_VAR before) present r
    (tc_servedReasonBefore context) (default None served) (negb (bool_decide (tc_servedReasonBefore context = default None served)))).

(** ** The storage ceiling *)
Definition QUOTA_READBACK_PROBE_MS : Z := 2500.
Definition QUOTA_READBACK_BUDGET_MS : Z := 15000.
Definition STORAGE_USAGE_PATH : string := "/api/storage/usage".
Inductive StorageReading := StorageUnreadable | NoReader | StorageRead (quota used : option Num.num).
Definition js_number (v : js) : option Num.num := match v with JNum n => Some n | _ => None end.
Definition readStudioStorage (script token : string) : M trace exn StorageReading :=
  got ← studio_json script token STORAGE_USAGE_PATH;
  mret match got with
       | None => StorageUnreadable
       | Some (status, parsed) =>
           if status =? 404 then NoReader
           else if 300 <=? status then StorageUnreadable
           else match parsed with
                | Some body =>
                    match js_field body "quota_bytes" with
                    | JUndef => StorageUnreadable
                    | quota => StorageRead (js_number quota) (js_number (js_field body "used_bytes"))
                    end
                | None => StorageUnreadable
                end
       end.
Inductive StorageQuotaIntent := IntentInherit | IntentSet (bytes : string) | IntentNone.
(** [qc_override]: the change to the record, [None] when nothing was asked; [Some None] clears it. *)
Record StorageQuotaContext := mkQuotaContext {
  qc_script : string; qc_studioApiToken : string; qc_bytes : option string; qc_source : QuotaSource;
  qc_override : option (option StorageQuotaOverride); qc_servedBefore : option Num.num; qc_usedBefore : option Num.num;
}.
Definition intended_row (tenant : Tenant) (intent : option StorageQuotaIntent) : StorageQuotaRow :=
  match intent with
  | None => quota_row tenant
  | Some IntentInherit => mkQuotaRow None None
  | Some IntentNone => mkQuotaRow (Some "none") None
  | Some (IntentSet bytes) => mkQuotaRow (Some "set") (Some bytes)
  end.
Definition override_asked (intent : option StorageQuotaIntent) : option (option StorageQuotaOverride) :=
  match intent with
  | None => None
  | Some IntentInherit => Some None
  | Some IntentNone => Some (Some OverrideNone)
  | Some (IntentSet bytes) => Some (Some (OverrideSet bytes))
  end.
Definition preflightStorageQuota (tenant : Tenant) (intent : option StorageQuotaIntent) : M trace exn (Refusal + StorageQuotaContext) :=
  if is_deleted tenant then mret (inl tenant_deleted)
  else if negb (opt_set (t_script_name tenant)) then
    mret (inl (mkRefusal "not_provisioned" 409 ("this tenant has no studio script recorded, so there is nothing to bind a ceiling on; it " +:+
      "needs a provision, not a binding patch")))
  else if match intent with Some (IntentSet bytes) => negb (isPositiveIntegerBytes number bytes) | _ => false end then
    mret (inl (mkRefusal "invalid_quota_bytes" 400 ("quota_bytes must be a positive integer number of BYTES, with no unit suffix; got " +:+
      (match intent with Some (IntentSet bytes) => json_string bytes | _ => "" end) +:+ ". 107374182400 = 100 GiB")))
  else
    let resolved := resolveStorageQuota number show (dp_storageQuota deps) (intended_row tenant intent) in
    match rq_blocked resolved with
    | Some blocked =>
        mret (inl (mkRefusal (if bool_decide (rq_source resolved = FromPlane) then "plane_quota_malformed" else "tenant_quota_record_unreadable") 409 blocked))
    | None =>
        match studio_token tenant with
        | inl refusal => mret (inl refusal)
        | inr token =>
            let script := default "" (t_script_name tenant) in
            reading ← readStudioStorage script token;
            mret match reading with
                 | StorageUnreadable =>
                     inl (mkRefusal "studio_not_serving" 422 ("the tenant studio did not answer GET " +:+ STORAGE_USAGE_PATH +:+ " with readable JSON, so what it " +:+
                       "enforces cannot be established; fix that before writing to it"))
                 | NoReader =>
                     inl (mkRefusal "studio_predates_quota_reader" 409 ("this studio answers 404 for " +:+ STORAGE_USAGE_PATH +:+ ", so its bundle predates the vivijure-cf " +:+
                       "v1.11.0 storage-quota reader. Binding the var would be a silent no-op: the tenant would " +:+
                       "carry a ceiling nothing enforces. Move the studio bytes first (POST .../upgrade-studio), " +:+
                       "then re-run this route"))
                 | StorageRead quota used =>
                     inr (mkQuotaContext script token (rq_bytes resolved) (rq_source resolved)
                       (override_asked intent) quota used)
                 end
        end
    end.
Record StorageQuotaResult := mkQuotaResult {
  qr_ok : bool; qr_quota_bytes : option string; qr_source : QuotaSource; qr_record_written : bool; qr_already_present : bool;
  qr_var_present_after : bool; qr_readback : Readback; qr_served_before : option Num.num; qr_served_after : option Num.num;
  qr_used_bytes : option Num.num; qr_over_on_arrival : bool; qr_enforced : bool; qr_attempts : nat; qr_elapsed : Z;
}.
(** The record as the store takes it: nothing, [Some None] for uncapped, [Some (Some bytes)] for a ceiling. *)
Definition override_columns (o : option StorageQuotaOverride) : option (option string) :=
  match o with None => None | Some OverrideNone => Some None | Some (OverrideSet bytes) => Some (Some bytes) end.
Definition served_of (r : StorageReading) : option Num.num := match r with StorageRead quota _ => quota | _ => None end.
Definition applyStorageQuota (fuel : nat) (tenant : Tenant) (context : StorageQuotaContext) : M trace exn StorageQuotaResult :=
  let script := qc_script context in
  _ ← match qc_override context with
      | Some o => perform ask (SSetTenantStorageQuota (t_id tenant) (override_columns o))
      | None => mret tt
      end;
  before ← census script;
  _ ← patch script (withStorageQuota (inherit_all (cs_bindings before)) (qc_bytes context) None);
  after ← census script;
  let target := number <$> qc_bytes context in
  started ← perform ask KNow;
  '(reading, used, attempts) ← confirm ask (readStudioStorage script (qc_studioApiToken context))
    (λ r, match r with StorageRead quota _ => same_number quota target | _ => false end)
    (λ used r, match r with StorageRead _ u => u | _ => used end)
    QUOTA_READBACK_PROBE_MS QUOTA_READBACK_BUDGET_MS fuel started 0 (qc_usedBefore context);
  ended ← perform ask KNow;
  let r := readback before after [] in
  let enforced := same_number (served_of reading) target in
  let present := has_name STORAGE_QUOTA_VAR after in
  mret (mkQuotaResult (nothing_missing r && bool_decide (present = match qc_bytes context with Some _ => true | None => false end) && enforced)
    (qc_bytes context) (qc_source context) (match qc_override context with Some _ => true | None => false end) (has_name STORAGE_QUOTA_VAR before)
    present r (qc_servedBefore context) (served_of reading) used
    (match target, used with Some t, Some u => num_at_least u t | _, _ => false end) enforced attempts (ended - started)).
End converge.
