(* ===== verification/ConvergePolicy.v ===== *)
(** * What bringing a studio in line may do, and what its verdict rests on (theorems about Converge.v)

    Every patch carries what the census before it found; a change reported as taken was read back after
    the patch, from Cloudflare and, where the operation asks it, from the studio itself. *)

From S2P Require Export Converge.
From Stdlib Require Import Ascii.
Open Scope string_scope.
Open Scope list_scope.
Open Scope Z_scope.
Open Scope plane_scope.

(** ** Since a call

    [since c P R]: [c] was answered without an error, [P] held before it and [R] of what came after. *)
Definition since (c : call) (a : ret c) (P R : trace → Prop) (tr : trace) : Prop := ∃ t1 t2, tr = t1 ++ Ev c (Ok a) :: t2 ∧ P t1 ∧ R t2.
Section since.
Context (c : call) (a : ret c) (P : trace → Prop).
Implicit Types (R : trace → Prop).
#[export] Instance stable_since R : Stable R → Stable (since c a P R).
Proof.
intros HR tr tr' [k ->] (t1 & t2 & -> & HP & H). exists t1, (t2 ++ k). rewrite <- app_assoc. split_and!; [done|done|].
eapply HR; [|exact H]. by eexists.
Qed.
Lemma since_weaken R R' tr : (∀ t, R t → R' t) → since c a P R tr → since c a P R' tr.
Proof. intros H (t1 & t2 & E & HP & HR). exists t1, t2. split_and!; [done|done|by apply H]. Qed.
Lemma since_perform allowed ask c' R : Stable R → (∀ tr, since c a P R tr → allowed tr c') →
  safe allowed (since c a P R) (perform ask c') (λ a', since c a P (λ t, R t ∧ answered c' (Ok a') t)).
Proof.
intros HR Hal tr Ho Htr. cbn. split_and!; [by eexists|by apply obeys_snoc; [|apply Hal]|].
destruct (ask tr c') as [a'|e] eqn:E; [|done]. destruct Htr as (t1 & t2 & -> & HP & H).
exists t1, (t2 ++ [Ev c' (Ok a')]). rewrite <- app_assoc. split_and!; [done|done|eapply HR; [|exact H]; by eexists|].
apply elem_of_app. right. left.
Qed.
End since.
Lemma starts_since allowed ask c P : (∀ tr, P tr → allowed tr c) → safe allowed P (perform ask c) (λ a, since c a P (λ _, True)).
Proof.
intros Hal tr Ho Htr. cbn. split_and!; [by eexists|by apply obeys_snoc; [|apply Hal]|].
destruct (ask tr c) as [a|e] eqn:E; [|done]. by exists tr, [].
Qed.
(** Where the first part's own verdict is all that is kept. *)
Lemma safe_seq {E A B} allowed P (m : M trace E A) (f : A → M trace E B) Q R :
  safe allowed P m Q → (∀ a, safe allowed (Q a) (f a) R) → safe allowed P (m ≫= f) R.
Proof.
intros Hm Hf tr Ho Htr. destruct (Hm tr Ho Htr) as (Hpre & Ho' & Hq). rewrite bind_run.
destruct (m tr) as [[a|e] tr']; [|by split_and!]. cbn in *. destruct (Hf a tr' Ho' Hq) as (Hpre2 & Ho2 & Hr).
split_and!; [by etrans|done|done].
Qed.
Lemma safe_post {E A} allowed P (m : M trace E A) (Q Q' : A → trace → Prop) : safe allowed P m Q → (∀ a tr, Q a tr → Q' a tr) → safe allowed P m Q'.
Proof. intros H HQ. eapply safe_weaken; [exact H|done|]. intros a tr _. apply HQ. Qed.

(** ** Counting *)
Lemma elem_of_names n l : n ∈ names l ↔ n ∈ bl_name <$> l.
Proof. unfold names. by rewrite order_by_perm. Qed.
Lemma nothing_missing_spec before after but : nothing_missing (readback before after but) = true ↔
  (∀ n, n ∈ bl_name <$> cs_bindings before → n ∈ but ∨ n ∈ bl_name <$> cs_bindings after) ∧ (∀ n, n ∈ cs_secrets before → n ∈ cs_secrets after).
Proof.
unfold nothing_missing, readback. cbn [rb_missing_bindings rb_missing_secrets]. rewrite andb_true_iff, !Nat.eqb_eq.
assert (∀ (A : Type) (f : A → bool) l, length (jfilter f l) = 0%nat ↔ ∀ x, x ∈ l → f x = false) as Hnil.
{ intros A f l. rewrite <- jfilter_nil_iff. split; [by destruct (jfilter f l)|by intros ->]. }
unfold missing_bindings, missing_secrets. rewrite !Hnil. setoid_rewrite elem_of_names. setoid_rewrite order_by_perm.
unfold has_name. setoid_rewrite andb_false_iff. setoid_rewrite negb_false_iff. setoid_rewrite bool_decide_eq_true.
assert (∀ n, existsb (String.eqb n) but = true ↔ n ∈ but) as Hex.
{ intros n. rewrite existsb_exists. setoid_rewrite String.eqb_eq. rewrite list_elem_of_In. split; [by intros (x & Hx & <-)|by exists n]. }
by setoid_rewrite Hex.
Qed.
Lemma has_name_spec n c : has_name n c = true ↔ n ∈ bl_name <$> cs_bindings c.
Proof. apply bool_decide_eq_true. Qed.

(** What a script was listed with. *)
Section listed.
Context (ask : world) (deps : ProvisionDeps) (script : string) (allowed : trace → call → Prop).
Definition listed (c : Census) (tr : trace) : Prop :=
  answered (CGetScriptBindings (dp_namespace deps) script) (Ok (cs_bindings c)) tr ∧
  answered (CGetScriptSecretNames (dp_namespace deps) script) (Ok (cs_secrets c)) tr.
#[export] Instance stable_listed c : Stable (listed c).
Proof. apply _. Qed.
Lemma count_safe P : Stable P → (∀ tr, P tr → allowed tr (CGetScriptBindings (dp_namespace deps) script)) →
  (∀ tr, P tr → allowed tr (CGetScriptSecretNames (dp_namespace deps) script)) → safe allowed P (census ask deps script) listed.
Proof.
intros HP Hb Hs. unfold census.
eapply safe_bind; [done|by apply (safe_perform _ _ _ (CGetScriptBindings (dp_namespace deps) script))|]. intros bindings.
eapply safe_bind; [apply _|apply (safe_perform _ _ _ (CGetScriptSecretNames (dp_namespace deps) script)); intros tr [H _]; by apply Hs|]. intros secrets.
apply safe_ret. intros tr [[_ H1] H2]. by split.
Qed.
Lemma count_since c a P R : Stable R → (∀ tr, since c a P R tr → allowed tr (CGetScriptBindings (dp_namespace deps) script)) →
  (∀ tr, since c a P R tr → allowed tr (CGetScriptSecretNames (dp_namespace deps) script)) →
  safe allowed (since c a P R) (census ask deps script) (λ cs, since c a P (λ t, R t ∧ listed cs t)).
Proof.
intros HR Hb Hs. unfold census.
eapply safe_seq; [by apply (since_perform _ _ _ _ _ (CGetScriptBindings (dp_namespace deps) script))|]. intros bindings.
eapply safe_seq; [apply (since_perform _ _ _ _ _ (CGetScriptSecretNames (dp_namespace deps) script)); [apply _|]|].
{ intros tr H. apply Hs. eapply since_weaken; [|exact H]. by intros t [Ht _]. }
intros secrets. apply safe_ret. intros tr. apply since_weaken. intros t [[H1 H2] H3]. split; [done|by split].
Qed.
End listed.

(** ** What a patch carries

    Every binding found and not among [projected] goes in as [inherit]; whatever else goes in is the
    text of a projected variable. *)
Definition carries (projected : list string) (found : list BindingListing) (bs : list WorkerBinding) : Prop :=
  (∀ l, l ∈ found → bl_name l ∉ projected → BInherit (bl_name l) ∈ bs) ∧
  (∀ b, b ∈ bs → (∃ l, l ∈ found ∧ b = BInherit (bl_name l)) ∨ ∃ n v, b = BPlainText n v ∧ n ∈ projected).
Definition texts_of (ns : list string) (bs : list WorkerBinding) : Prop := ∀ b, b ∈ bs → ∃ n v, b = BPlainText n v ∧ n ∈ ns.

Section carries.
Implicit Types (found : list BindingListing) (bs : list WorkerBinding) (ns : list string).
Lemma carries_kept ns found (keep : BindingListing → bool) : (∀ l, l ∈ found → keep l = false → bl_name l ∈ ns) →
  carries ns found (inherit_all (jfilter keep found)).
Proof.
intros Hk. split.
- intros l Hl Hn. unfold inherit_all. apply list_elem_of_fmap. exists l. split; [done|]. apply elem_of_jfilter. split; [done|].
  destruct (keep l) eqn:E; [done|]. by apply Hk in E.
- intros b (l & -> & (Hl & _)%elem_of_jfilter)%list_elem_of_fmap. left. by exists l.
Qed.
Lemma carries_all found : carries [] found (inherit_all found).
Proof.
split; [intros l Hl _; by apply (list_elem_of_fmap_2 (λ b, BInherit (bl_name b)))|].
intros b (l & -> & Hl)%list_elem_of_fmap. left. by exists l.
Qed.
Lemma existsb_name n ns : existsb (λ x, n =s? x) ns = true ↔ n ∈ ns.
Proof.
rewrite existsb_exists. setoid_rewrite String.eqb_eq. rewrite list_elem_of_In. split; [by intros (x & Hx & <-)|by exists n].
Qed.
Lemma carries_project ns ps found bs extra : carries ps found bs → texts_of ns extra → carries (ns ++ ps) found (without ns bs ++ extra).
Proof.
intros [H1 H2] He. unfold without. split.
- intros l Hl [Hn Hp]%not_elem_of_app. apply elem_of_app. left. apply elem_of_jfilter. split; [by apply H1|].
  apply negb_true_iff, not_true_iff_false. by rewrite existsb_name.
- intros b [[Hb _]%elem_of_jfilter|Hb]%elem_of_app.
  + apply H2 in Hb as [Hb|(n & v & -> & Hn)]; [by left|]. right. exists n, v. split; [done|]. apply elem_of_app. by right.
  + right. apply He in Hb as (n & v & -> & Hn). exists n, v. split; [done|]. apply elem_of_app. by left.
Qed.
Lemma carries_more ns found bs extra : carries ns found bs → texts_of ns extra → carries ns found (bs ++ extra).
Proof.
intros [H1 H2] He. split; [intros l Hl Hn; apply elem_of_app; left; by apply H1|].
intros b [Hb|Hb]%elem_of_app; [by apply H2|right; by apply He].
Qed.
Lemma texts_if (c : bool) n v : texts_of [n] (if c then [BPlainText n v] else []).
Proof. intros b Hb. destruct c; [|by apply elem_of_nil in Hb]. apply list_elem_of_singleton in Hb as ->. exists n, v. split; [done|left]. Qed.
Lemma texts_app ns bs1 bs2 : texts_of ns bs1 → texts_of ns bs2 → texts_of ns (bs1 ++ bs2).
Proof. intros H1 H2 b [Hb|Hb]%elem_of_app; [by apply H1|by apply H2]. Qed.
Lemma texts_mono ns ns' bs : (∀ n, n ∈ ns → n ∈ ns') → texts_of ns bs → texts_of ns' bs.
Proof. intros Hs H b (n & v & -> & Hn)%H. exists n, v. split; [done|by apply Hs]. Qed.
End carries.

(** ** The operations *)
Inductive Converging :=
| Refresh (script : string) | Detach (tenant : Tenant) (script : string) | ReportUrl (context : AbuseReportUrlContext)
| TierState (tenant : Tenant) (context : TierStateContext) (intent : TierStateIntent)
| Ceiling (tenant : Tenant) (context : StorageQuotaContext).
Definition op_script (op : Converging) : string :=
  match op with
  | Refresh s | Detach _ s => s | ReportUrl c => ac_script c | TierState _ c _ => tc_script c | Ceiling _ c => qc_script c
  end.
Definition op_token (op : Converging) : option string :=
  match op with
  | Refresh _ | Detach _ _ => None | ReportUrl c => Some (ac_studioApiToken c) | TierState _ c _ => Some (tc_studioApiToken c)
  | Ceiling _ c => Some (qc_studioApiToken c)
  end.

Section converge_policy.
Context (ask : world) (json_parse : string → option js) (number : string → Num.num) (deps : ProvisionDeps).
Implicit Types (op : Converging) (tr : trace).

(** Every operation, down to its own verdict on the studio. *)
Definition converge (fuel : nat) op : M trace exn bool :=
  match op with
  | Refresh script => r ← refreshTenantStudioBindings ask deps script; mret (bc_ok r)
  | Detach tenant script => r ← detachTenantStudioBinding ask deps tenant script; mret (bc_ok r)
  | ReportUrl context => r ← applyAbuseReportUrl ask json_parse deps fuel context; mret (ar_ok r)
  | TierState tenant context intent => r ← applyVideoFinishTierState ask json_parse deps tenant context intent; mret (tr_ok r)
  | Ceiling tenant context => r ← applyStorageQuota ask json_parse number deps fuel tenant context; mret (qr_ok r)
  end.
(** The names an operation sets, or takes away, on its own account. *)
Definition projected op : list string :=
  match op with
  | Refresh _ => VIDEO_FINISH_BINDING :: (fst <$> dp_mediaDoorUrls deps)
  | Detach _ _ => [VIDEO_FINISH_TIER_STATE_VAR; VIDEO_FINISH_BINDING]
  | ReportUrl _ => [ABUSE_REPORT_URL_VAR]
  | TierState _ _ _ => [VIDEO_FINISH_TIER_STATE_VAR]
  | Ceiling _ _ => [STORAGE_QUOTA_VAR; STORAGE_QUOTA_MODE_VAR]
  end.

Definition bindings_call op : call := CGetScriptBindings (dp_namespace deps) (op_script op).
Definition secrets_call op : call := CGetScriptSecretNames (dp_namespace deps) (op_script op).
Definition patch_call op (bs : list WorkerBinding) : call := CPatchScriptSettings (dp_namespace deps) (op_script op) bs.
Definition found op : Census → trace → Prop := listed deps (op_script op).

(** The patch of an operation, given what was found. *)
Definition desired op (before : Census) : list WorkerBinding :=
  match op with
  | Refresh _ => refreshed deps before
  | Detach tenant _ => detached tenant before
  | ReportUrl context => withAbuseReportUrl (inherit_all (cs_bindings before)) (Some (ac_url context))
  | TierState _ _ intent => with_tier_state (inherit_all (cs_bindings before)) (ti_unreachable intent)
  | Ceiling _ context => withStorageQuota (inherit_all (cs_bindings before)) (qc_bytes context) None
  end.
Definition patches op before bs : Prop := bs = desired op before ∧ carries (projected op) (cs_bindings before) bs.

(** What an operation may ask: the names bound to its own studio and its own studio's own answer, both
    read only; the tenant's record where it has one to keep; and a patch that carries what was found. *)
Definition converge_allows op (tr : trace) (c : call) : Prop :=
  match c with
  | CGetScriptBindings ns s | CGetScriptSecretNames ns s => ns = dp_namespace deps ∧ s = op_script op
  | CPatchScriptSettings ns s bs => ns = dp_namespace deps ∧ s = op_script op ∧ ∃ before, found op before tr ∧ patches op before bs
  | XCallStudio s method _ token body => s = op_script op ∧ Some token = op_token op ∧ method = "GET" ∧ body = None
  | SSetTenantVideoFinishUnreachable id declared => ∃ tenant context intent, op = TierState tenant context intent ∧ id = t_id tenant ∧
      (declared ≠ None ↔ ti_unreachable intent = true)
  | SSetTenantStorageQuota id columns => ∃ tenant context o, op = Ceiling tenant context ∧ id = t_id tenant ∧
      qc_override context = Some o ∧ columns = override_columns o
  | KNow | KSleep _ => True
  | _ => False
  end.

(** ** The parts, under any policy that allows this much *)
Section allowed.
Context (al : Converging → trace → call → Prop) (Hal : ∀ op tr c, converge_allows op tr c → al op tr c).
Lemma census_safe op P : Stable P → safe (al op) P (census ask deps (op_script op)) (found op).
Proof. intros HP. apply count_safe; [done|intros tr _; by apply Hal..]. Qed.
Lemma census_since op c a P R : Stable R →
  safe (al op) (since c a P R) (census ask deps (op_script op)) (λ cs, since c a P (λ t, R t ∧ found op cs t)).
Proof. intros HR. apply count_since; [done|intros tr _; by apply Hal..]. Qed.
(** The patch starts the account of what happened since. *)
Lemma patch_safe op P bs before : (∀ tr, P tr → found op before tr) → patches op before bs →
  safe (al op) P (patch ask deps (op_script op) bs) (λ _, since (patch_call op bs) tt P (λ _, True)).
Proof.
intros HP Hc. eapply safe_post; [apply (starts_since _ _ (patch_call op bs)); intros tr Htr; apply Hal; split_and!; [done|done|by exists before; split; [apply HP|]]|].
by intros [] tr.
Qed.

(** What a studio answered. *)
Definition answers_json op (path : string) (body : js) (tr : trace) : Prop := ∃ token status text, op_token op = Some token ∧
  answered (XCallStudio (op_script op) "GET" path token None) (Ok (status, text)) tr ∧ status < 300 ∧ json_parse text = Some body.
#[export] Instance stable_answers_json op path body : Stable (answers_json op path body).
Proof. apply _. Qed.
Lemma studio_json_since op token path c a P R : Stable R → op_token op = Some token →
  safe (al op) (since c a P R) (studio_json ask json_parse (op_script op) token path)
    (λ got, since c a P (λ t, R t ∧ ∀ status body, got = Some (status, Some body) → status < 300 → answers_json op path body t)).
Proof.
intros HR Ht. unfold studio_json.
eapply safe_seq; [apply safe_keep; [apply _|]; apply safe_attempt, (since_perform _ _ _ _ _ (XCallStudio (op_script op) "GET" path token None)); [done|]; intros tr _; apply Hal; by split_and!|].
intros [e|[status text]]; apply safe_ret; intros tr [H1 H2]; [by apply (since_weaken _ _ _ R)|].
eapply since_weaken; [|exact H2]. intros t [HRt Ha]. split; [done|]. intros st body [= <- Hb] Hs. by exists token, status, text.
Qed.

(** Asking until the answer is the bound one ends with the last answer given. *)
Lemma confirm_safe {A B} allowed (I : trace → Prop) (read : M trace exn A) (J : A → trace → Prop) as_bound (keep : B → A → B) probeMs budgetMs fuel started attempts acc :
  Stable I → (∀ a, Stable (J a)) → (∀ tr, allowed tr KNow) → (∀ tr ms, allowed tr (KSleep ms)) → safe allowed I read J →
  safe allowed I (confirm ask read as_bound keep probeMs budgetMs fuel started attempts acc) (λ r, J r.1.1).
Proof.
intros HI HJ Hnow Hsleep Hread. assert (safe allowed I read (λ a tr, I tr ∧ J a tr)) as Hkeep by by apply safe_keep.
revert attempts acc. induction fuel as [|fuel IH]; intros attempts acc; cbn [confirm]; [apply safe_throw|].
eapply safe_seq; [exact Hkeep|]. intros a. cbv zeta. destruct (as_bound a); [apply safe_ret; by intros tr [_ H]|].
eapply safe_bind; [apply _|apply (safe_do _ _ _ KNow); by intros tr _|]. intros at_.
destruct (_ <? _); [apply safe_ret; by intros tr [[_ H] _]|].
eapply safe_then; [apply _|apply (safe_do _ _ _ (KSleep probeMs)); by intros tr _|]. intros [].
eapply safe_weaken; [apply IH|by intros tr [[H _] _]|done].
Qed.

(** ** What an operation saw when it says its change took *)
Definition recorded op (tr : trace) : Prop :=
  match op with
  | TierState tenant _ intent => ∃ declared, answered (SSetTenantVideoFinishUnreachable (t_id tenant) declared) (Ok tt) tr ∧
      (fst <$> declared = if ti_unreachable intent then Some (default "" (ti_reason intent)) else None)
  | Ceiling tenant context => ∀ o, qc_override context = Some o → answered (SSetTenantStorageQuota (t_id tenant) (override_columns o)) (Ok tt) tr
  | _ => True
  end.
(** The variable it is about is there, or is gone, as meant. *)
Definition in_place op (after : Census) : Prop :=
  match op with
  | Refresh _ | Detach _ _ => VIDEO_FINISH_BINDING ∉ bl_name <$> cs_bindings after
  | ReportUrl _ => ABUSE_REPORT_URL_VAR ∈ bl_name <$> cs_bindings after
  | TierState _ _ intent => VIDEO_FINISH_TIER_STATE_VAR ∈ bl_name <$> cs_bindings after ↔ ti_unreachable intent = true
  | Ceiling _ context => STORAGE_QUOTA_VAR ∈ bl_name <$> cs_bindings after ↔ qc_bytes context ≠ None
  end.
Definition may_go op : list string :=
  match op with Refresh _ | Detach _ _ => [VIDEO_FINISH_BINDING] | TierState _ _ _ => [VIDEO_FINISH_TIER_STATE_VAR] | _ => [] end.
(** The studio itself says so, where the operation asks it. *)
Definition served op (tr : trace) : Prop :=
  match op with
  | ReportUrl context => ∃ body, answers_json op "/api/modules" body tr ∧ js_field (js_field body "host") "abuse_report_url" = JStr (ac_url context)
  | Ceiling _ context => match qc_bytes context with
      | Some bytes => ∃ body n, answers_json op STORAGE_USAGE_PATH body tr ∧ js_field body "quota_bytes" = JNum n ∧ n = number bytes
      | None => True
      end
  | _ => True
  end.
Definition took op (tr : trace) : Prop := ∃ before after bs,
  since (patch_call op bs) tt (λ t, recorded op t ∧ found op before t) (λ t, found op after t ∧ served op t) tr ∧
  patches op before bs ∧
  (∀ n, n ∈ bl_name <$> cs_bindings before → n ∈ may_go op ∨ n ∈ bl_name <$> cs_bindings after) ∧
  (∀ n, n ∈ cs_secrets before → n ∈ cs_secrets after) ∧ in_place op after.
#[export] Instance stable_recorded op : Stable (recorded op).
Proof. destruct op; unfold recorded; apply _. Qed.
#[export] Instance stable_served op : Stable (served op).
Proof. destruct op as [| | | |? c]; unfold served; try apply _. destruct (qc_bytes c); apply _. Qed.

(** A change of bindings. *)
Lemma binding_patch_safe op P bs refused before : (∀ tr, P tr → found op before tr) → patches op before bs →
  safe (al op) P (binding_patch ask deps (op_script op) bs refused) (λ _, since (patch_call op bs) tt P (λ _, True)).
Proof.
intros HP Hc. unfold binding_patch. eapply safe_seq; [by apply safe_attempt, (patch_safe _ _ _ before)|].
intros [e|[]]; [destruct (classifyVpcBindingFailure _ _); apply safe_throw|by apply safe_ret].
Qed.
Lemma binding_change_safe op script change refused : op_script op = script → recorded op = (λ _, True) → served op = (λ _, True) → may_go op = [VIDEO_FINISH_BINDING] →
  (∀ after, VIDEO_FINISH_BINDING ∉ bl_name <$> cs_bindings after → in_place op after) →
  (∀ before, patches op before (change before)) →
  safe (al op) (λ _, True) (r ← change_bindings ask deps script change refused; mret (bc_ok r)) (λ ok tr, ok = true → took op tr).
Proof.
intros <- Hrec Hser Hgo Hin Hc. unfold change_bindings. eapply safe_seq; [|intros r; apply safe_ret; intros tr H; exact H]. cbv beta.
eapply safe_bind; [done|by apply census_safe|]. intros before.
eapply safe_seq; [apply (binding_patch_safe _ _ _ _ before); [by intros tr [_ H]|apply Hc]|]. intros [].
eapply safe_seq; [by apply census_since|]. intros after. apply safe_ret. intros tr Htr [Hm Hno%negb_true_iff]%andb_true_iff.
apply nothing_missing_spec in Hm as [Hm1 Hm2]. exists before, after, (change before). split_and!; [|apply Hc..|by rewrite Hgo|done|].
- destruct Htr as (t1 & t2 & -> & [_ Hb] & _ & Ha). exists t1, t2. rewrite Hrec, Hser. by split_and!.
- apply Hin. rewrite <- has_name_spec. by rewrite Hno.
Qed.

Lemma refreshed_carries script before : carries (projected (Refresh script)) (cs_bindings before) (refreshed deps before).
Proof.
unfold refreshed. apply carries_more.
- apply carries_kept. intros l _ [H|H]%andb_false_iff; apply negb_false_iff in H.
  + apply String.eqb_eq in H. rewrite H. left.
  + right. apply existsb_exists in H as (d & Hd & <-%String.eqb_eq). by apply list_elem_of_fmap_2, list_elem_of_In.
- intros b (d & -> & Hd)%list_elem_of_fmap. exists d.1, d.2. split; [done|]. right. by apply list_elem_of_fmap_2.
Qed.
Lemma detached_carries tenant script before : carries (projected (Detach tenant script)) (cs_bindings before) (detached tenant before).
Proof.
unfold detached, withVideoFinishTierState, with_tier_state. apply (carries_project [_] [_]); [|apply texts_if].
apply carries_kept. intros l _ H%negb_false_iff%String.eqb_eq. rewrite H. left.
Qed.

(** What a studio says of its page. *)
Definition says_url op (raw : option (option string)) (tr : trace) : Prop := ∀ u, raw = Some (Some u) → ∃ body,
  answers_json op "/api/modules" body tr ∧ js_field (js_field body "host") "abuse_report_url" = JStr u.
#[export] Instance stable_says_url op raw : Stable (says_url op raw).
Proof. apply _. Qed.
Lemma served_url_since op token c a P R : Stable R → op_token op = Some token →
  safe (al op) (since c a P R) (servedAbuseReportUrl ask json_parse (op_script op) token) (λ raw, since c a P (λ t, R t ∧ says_url op raw t)).
Proof.
intros HR Ht. unfold servedAbuseReportUrl. eapply safe_seq; [by apply (studio_json_since op)|]. intros got. apply safe_ret. intros tr.
apply since_weaken. intros t [H1 H2]. split; [done|]. intros u Hu. unfold read_json in Hu.
destruct got as [[status [body|]]|]; [|by destruct (300 <=? status)|done]. destruct (300 <=? status) eqn:Hs; [done|]. apply Z.leb_gt in Hs.
exists body. split; [by eapply H2|]. cbn in Hu. by destruct (js_field _ "abuse_report_url") as [| | | | | |]; simplify_eq.
Qed.
Lemma confirm_since {A B} op c a P R (J : A → trace → Prop) I (read : M trace exn A) as_bound (keep : B → A → B) probeMs budgetMs fuel started attempts acc :
  Stable R → (∀ x, Stable (J x)) → (∀ tr, I tr → since c a P R tr) →
  safe (al op) (since c a P R) read (λ x, since c a P (λ t, R t ∧ J x t)) →
  safe (al op) I (confirm ask read as_bound keep probeMs budgetMs fuel started attempts acc) (λ r, since c a P (λ t, R t ∧ J r.1.1 t)).
Proof.
intros HR HJ HI H. eapply safe_weaken; [|exact HI|intros r tr _ Hr; exact Hr].
apply (confirm_safe _ _ _ (λ x, since c a P (λ t, R t ∧ J x t))); [apply _|apply _|intros tr; by apply Hal|intros tr ms; by apply Hal|exact H].
Qed.
Lemma abuse_report_safe fuel context : safe (al (ReportUrl context)) (λ _, True)
  (r ← applyAbuseReportUrl ask json_parse deps fuel context; mret (ar_ok r)) (λ ok tr, ok = true → took (ReportUrl context) tr).
Proof.
set (op := ReportUrl context). eapply safe_seq; [|intros r; apply safe_ret; intros tr H; exact H]. cbv beta. unfold applyAbuseReportUrl.
eapply safe_bind; [done|by apply (census_safe op)|]. intros before. set (bs := withAbuseReportUrl _ _).
assert (patches op before bs) as Hc by (split; [done|]; apply (carries_project [_] []); [apply carries_all|apply texts_if]).
eapply safe_seq; [apply (patch_safe op _ _ before); [by intros tr [_ H]|exact Hc]|]. intros [].
eapply safe_seq; [by apply (census_since op)|]. intros after.
eapply safe_bind; [apply _|apply (safe_do _ _ _ KNow); intros tr _; by apply Hal|]. intros started.
eapply safe_seq; [apply (confirm_since op (patch_call op bs) tt (λ tr, True ∧ found op before tr) (λ t, True ∧ found op after t) (says_url op)); [apply _|apply _|by intros tr [H _]|exact (served_url_since op (ac_studioApiToken context) _ _ _ _ _ eq_refl)]|].
intros [[raw []] attempts]. cbn [fst]. eapply safe_bind; [apply _|apply (safe_do _ _ _ KNow); intros tr _; by apply Hal|].
intros ended. apply safe_ret. intros tr [Htr _]. cbn [ar_ok fst] in *. intros [[Hm Hin]%andb_true_iff Hurl%bool_decide_eq_true]%andb_true_iff.
apply nothing_missing_spec in Hm as [Hm1 Hm2]. apply has_name_spec in Hin. exists before, after, bs. split_and!; [|done|exact Hm1|done|exact Hin].
destruct Htr as (t1 & t2 & -> & [_ Hb] & [_ Ha] & Hsays). exists t1, t2. split_and!; [done|done|done|done|].
destruct raw as [[u|]|]; try done. cbn in Hurl. simplify_eq. by apply Hsays.
Qed.

Lemma tier_state_safe tenant context intent : let op := TierState tenant context intent in safe (al op) (λ _, True)
  (r ← applyVideoFinishTierState ask json_parse deps tenant context intent; mret (tr_ok r)) (λ ok tr, ok = true → took op tr).
Proof.
intros op. eapply safe_seq; [|intros r; apply safe_ret; intros tr H; exact H]. cbv beta. unfold applyVideoFinishTierState.
eapply safe_bind; [done|by apply (census_safe op)|]. intros before. set (P := λ tr, True ∧ found op before tr).
eapply (safe_bind _ _ _ _ (λ declared _, fst <$> declared = if ti_unreachable intent then Some (default "" (ti_reason intent)) else None)); [apply _| |intros declared].
{ destruct (ti_unreachable intent); [|by apply safe_ret]. eapply safe_then; [apply _|apply (safe_do _ _ _ KNow); intros tr _; by apply Hal|].
  intros at_. by apply safe_ret. }
eapply safe_bind; [apply _|apply (safe_perform _ _ _ (SSetTenantVideoFinishUnreachable (t_id tenant) declared))|intros []].
{ intros tr [_ Hd]. apply Hal. exists tenant, context, intent. split_and!; [done|done|]. destruct declared as [d|], (ti_unreachable intent); done. }
set (bs := with_tier_state _ _). set (P' := λ tr, (P tr ∧ _) ∧ answered _ _ tr).
assert (patches op before bs) as Hc by (split; [done|]; apply (carries_project [_] []); [apply carries_all|apply texts_if]).
eapply safe_seq; [apply (patch_safe op _ _ before); [by intros tr [[[_ H] _] _]|exact Hc]|]. intros [].
eapply safe_seq; [by apply (census_since op)|]. intros after.
eapply (safe_seq _ _ _ _ (λ _, since (patch_call op bs) tt P' (λ t, True ∧ found op after t))).
{ unfold servedCapabilityReason. eapply safe_seq; [apply (studio_json_since op (tc_studioApiToken context)); [apply _|done]|].
  intros got. apply safe_ret. intros tr. apply since_weaken. by intros t [H _]. }
intros reason. apply safe_ret. intros tr Htr [Hm Hin%bool_decide_eq_true]%andb_true_iff.
apply nothing_missing_spec in Hm as [Hm1 Hm2]. exists before, after, bs. split_and!; [|done|exact Hm1|done|].
- destruct Htr as (t1 & t2 & -> & [[[_ Hb] Hd] Hrec] & _ & Ha). exists t1, t2. split_and!; [done|by exists declared|done|done|done].
- cbn [in_place op]. rewrite <- has_name_spec, Hin. by destruct (ti_unreachable intent).
Qed.

(** What a studio says of its ceiling. *)
Definition says_ceiling op (reading : StorageReading) (tr : trace) : Prop := ∀ quota used, reading = StorageRead (Some quota) used → ∃ body,
  answers_json op STORAGE_USAGE_PATH body tr ∧ js_field body "quota_bytes" = JNum quota.
#[export] Instance stable_says_ceiling op reading : Stable (says_ceiling op reading).
Proof. apply _. Qed.
Lemma read_storage_since op token c a P R : Stable R → op_token op = Some token →
  safe (al op) (since c a P R) (readStudioStorage ask json_parse (op_script op) token) (λ r, since c a P (λ t, R t ∧ says_ceiling op r t)).
Proof.
intros HR Ht. unfold readStudioStorage. eapply safe_seq; [by apply (studio_json_since op)|]. intros got. apply safe_ret. intros tr.
apply since_weaken. intros t [H1 H2]. split; [done|]. intros quota used Hq. destruct got as [[status parsed]|]; [|done].
destruct (status =? 404); [done|]. destruct (300 <=? status) eqn:Hs; [done|]. apply Z.leb_gt in Hs. destruct parsed as [body|]; [|done].
exists body. split; [by eapply H2|]. by destruct (js_field body "quota_bytes") as [| | | | | |]; simplify_eq.
Qed.
Lemma num_same_eq x y : num_same x y = true → x = y.
Proof. destruct x; [intros ?%bool_decide_eq_true..|]; done. Qed.
Lemma ceiling_safe fuel tenant context : let op := Ceiling tenant context in safe (al op) (λ _, True)
  (r ← applyStorageQuota ask json_parse number deps fuel tenant context; mret (qr_ok r)) (λ ok tr, ok = true → took op tr).
Proof.
intros op. eapply safe_seq; [|intros r; apply safe_ret; intros tr H; exact H]. cbv beta. unfold applyStorageQuota.
eapply (safe_bind _ _ _ _ (λ _ tr, recorded op tr)); [done| |intros _].
{ unfold recorded, op. destruct (qc_override context) as [o|] eqn:Ho; [|by apply safe_ret].
  eapply safe_post; [apply (safe_perform _ _ _ (SSetTenantStorageQuota (t_id tenant) (override_columns o)))|].
  - intros tr _. apply Hal. by exists tenant, context, o.
  - intros [] tr H o' [= <-]. exact H. }
eapply safe_bind; [apply _|apply (census_safe op); apply _|]. intros before. set (bs := withStorageQuota _ _ _).
assert (patches op before bs) as Hc.
{ split; [done|]. apply (carries_project [_; _] []); [apply carries_all|]. unfold storageQuotaBindings. cbn [opt_set]. rewrite app_nil_r.
  eapply texts_mono; [|apply texts_if]. intros n ->%list_elem_of_singleton. left. }
set (P := λ tr, (True ∧ recorded op tr) ∧ found op before tr).
eapply safe_seq; [apply (patch_safe op P _ before); [by intros tr [_ H]|exact Hc]|]. intros [].
eapply safe_seq; [by apply (census_since op)|]. intros after.
eapply safe_bind; [apply _|apply (safe_do _ _ _ KNow); intros tr _; by apply Hal|]. intros started.
eapply safe_seq; [apply (confirm_since op (patch_call op bs) tt P (λ t, True ∧ found op after t) (says_ceiling op)); [apply _|apply _|by intros tr [H _]|]|].
{ exact (read_storage_since op (qc_studioApiToken context) _ _ _ _ _ eq_refl). }
intros [[reading used] attempts]. cbn [fst]. eapply safe_bind; [apply _|apply (safe_do _ _ _ KNow); intros tr _; by apply Hal|].
intros ended. apply safe_ret. intros tr [Htr _]. cbn [qr_ok]. intros [[Hm Hin%bool_decide_eq_true]%andb_true_iff Hsame]%andb_true_iff.
apply nothing_missing_spec in Hm as [Hm1 Hm2]. exists before, after, bs. split_and!; [|done|by right; apply Hm1 in H as [?%elem_of_nil|]|done|].
- destruct Htr as (t1 & t2 & -> & [[_ Hrec] Hb] & [_ Ha] & Hsays). exists t1, t2. split_and!; [done|done|done|done|].
  unfold served, op. destruct (qc_bytes context) as [bytes|]; [|done]. cbn in Hsame.
  destruct reading as [| |[quota|] u]; try done. apply num_same_eq in Hsame. destruct (Hsays quota u eq_refl) as (body & Hb' & Hf).
  exists body, quota. by split_and!.
- cbn [in_place op]. rewrite <- has_name_spec, Hin. by destruct (qc_bytes context).
Qed.

Lemma converge_safe fuel op : safe (al op) (λ _, True) (converge fuel op) (λ ok tr, ok = true → took op tr).
Proof.
destruct op as [script|tenant script|context|tenant context intent|tenant context]; [| |apply abuse_report_safe|apply tier_state_safe|apply ceiling_safe].
- apply (binding_change_safe (Refresh script)); try done. intros before. split; [done|apply refreshed_carries].
- apply (binding_change_safe (Detach tenant script)); try done. intros before. split; [done|apply detached_carries].
Qed.
End allowed.

(** Bringing a studio in line touches that studio alone and strands nothing on it.  Whatever Cloudflare,
    the store and the studio answer, an operation asks only for the names bound to its own studio and,
    read only and under the tenant's own token, for what that studio says; it writes only its own
    tenant's record; and any patch it sends follows a census and carries each binding found there as
    [inherit], except the variables it is about, setting nothing but those. *)
Theorem converge_keeps_to_its_studio fuel op : lawful (converge_allows op) (converge fuel op).
Proof. eapply safe_weaken; [by apply converge_safe|done|done]. Qed.

(** C16. A change reported as taken was seen to have taken.  When an operation answers ok, the record it
    keeps had been written and the studio's names counted before one patch, and after that patch a
    second count found every binding and secret still there, save the binding the operation takes off,
    the variable present or gone as meant, and, where the studio is asked, its own answer naming the page
    or the ceiling that was bound.  The refresh is the code's, not its comments': the patch states the
    media doors' addresses and leaves the video-finish binding out, and ok is that binding gone. *)
Theorem converged_is_observed fuel op tr : converge fuel op [] = (Ok true, tr) → took op tr.
Proof.
intros H. destruct (converge_safe converge_allows (λ _ _ _ H, H) fuel op [] (obeys_nil _) I) as (_ & _ & Hq). rewrite H in Hq. by apply Hq.
Qed.

(** ** A ceiling that is lifted *)
(** A studio that carried a ceiling is never reported as relieved of it: with no ceiling to bind, the
    patch leaves the variable out, and the count then finds it missing, or still there; whatever is
    answered, the verdict is not ok. *)
Theorem lifted_ceiling_is_never_ok fuel tenant context tr r tr' :
  applyStorageQuota ask json_parse number deps fuel tenant context tr = (Ok r, tr') → qc_bytes context = None → qr_already_present r = true →
  qr_ok r = false ∧ (rb_missing_bindings (qr_readback r) ≠ [] ∨ qr_var_present_after r = true).
Proof.
intros H Hb Hpre. unfold applyStorageQuota in H. rewrite Hb in H. apply M_bind_inv in H as (? & ? & _ & H). apply M_bind_inv in H as (before & ? & _ & H).
apply M_bind_inv in H as (? & ? & _ & H). apply M_bind_inv in H as (after & ? & _ & H).
apply M_bind_inv in H as (? & ? & _ & H). apply M_bind_inv in H as ([[reading used] attempts] & ? & _ & H).
apply M_bind_inv in H as (ended & ? & _ & H). injection H as <- <-. cbn [qr_already_present qr_ok qr_readback qr_var_present_after] in *.
destruct (has_name STORAGE_QUOTA_VAR after) eqn:Ha.
{ split; [|by right]. by rewrite andb_false_r. }
assert (nothing_missing (readback before after []) = false) as Hm.
{ apply not_true_iff_false. rewrite nothing_missing_spec. intros [Hall _]. apply has_name_spec in Hpre. apply Hall in Hpre as [?%elem_of_nil|Hin]; [done|].
  apply has_name_spec in Hin. congruence. }
rewrite Hm. split; [done|]. left. intros E. assert (STORAGE_QUOTA_VAR ∈ rb_missing_bindings (readback before after [])) as Hin; [|rewrite E in Hin; by apply elem_of_nil in Hin].
unfold readback, missing_bindings. cbn [rb_missing_bindings]. apply elem_of_jfilter. rewrite elem_of_names. split; [by apply has_name_spec|]. by rewrite Ha.
Qed.

(** Applying a ceiling forgets what a ceiling means.  The patch states no enforcement mode and inherits
    none, so in a run after which the cloud lists only what the patch gave, an application that answers
    ok was one that found no mode bound: where there was one, it is dropped and the run is not ok. *)
Theorem ceiling_patch_drops_the_mode fuel tenant context tr :
  converge fuel (Ceiling tenant context) [] = (Ok true, tr) →
  (∀ t1 t2 bs l n, tr = t1 ++ Ev (patch_call (Ceiling tenant context) bs) (Ok tt) :: t2 →
     answered (bindings_call (Ceiling tenant context)) (Ok l) t2 → n ∈ bl_name <$> l → n ∈ binding_name <$> bs) →
  ∃ before, found (Ceiling tenant context) before tr ∧ (STORAGE_QUOTA_MODE_VAR ∉ bl_name <$> cs_bindings before) ∧
    (qc_bytes context = None → ¬ (STORAGE_QUOTA_VAR ∈ bl_name <$> cs_bindings before)).
Proof.
intros H Hcloud. set (op := Ceiling tenant context) in *.
destruct (converge_safe converge_allows (λ _ _ _ H, H) fuel op [] (obeys_nil _) I) as (_ & _ & Htook). rewrite H in Htook.
destruct (Htook eq_refl) as (before & after & bs & (t1 & t2 & Etr & [_ Hb] & [Ha _]) & [Hbs _] & Hall & _).
assert (∀ n, n ∈ bl_name <$> cs_bindings before → n ∈ binding_name <$> desired op before) as Hkept.
{ intros n [?%elem_of_nil|Hin]%Hall; [done|]. rewrite <- Hbs. eapply Hcloud; [exact Etr|apply Ha|exact Hin]. }
assert (∀ n, n ∈ [STORAGE_QUOTA_VAR; STORAGE_QUOTA_MODE_VAR] → n ∈ binding_name <$> desired op before → (opt_set (qc_bytes context) = true) ∧ (n = STORAGE_QUOTA_VAR)) as Hno.
{ intros n Hn (b & -> & Hb')%list_elem_of_fmap. cbn [desired op] in Hb'. unfold withStorageQuota, without in Hb'. apply elem_of_app in Hb' as [[_ Hb']%elem_of_jfilter|Hb'].
  - apply negb_true_iff, not_true_iff_false in Hb'. by rewrite existsb_name in Hb'.
  - unfold storageQuotaBindings in Hb'. cbn [opt_set] in Hb'. rewrite app_nil_r in Hb'. destruct (opt_set (qc_bytes context)); [|by apply elem_of_nil in Hb'].
    by apply list_elem_of_singleton in Hb' as ->. }
exists before. split; [eapply (stable_listed _ _ before t1); [by eexists|exact Hb]|]. split.
- intros Hin%Hkept. destruct (Hno STORAGE_QUOTA_MODE_VAR) as [_ E]; [right; left|done|discriminate E].
- intros Hn Hin%Hkept. destruct (Hno STORAGE_QUOTA_VAR) as [E _]; [left|done|]. by rewrite Hn in E.
Qed.
End converge_policy.

(** ** Asking ends *)
Section ending.
Context (ask : world) (clock : honest_clock ask).
Section confirm.
Context {A B : Type} (read : M trace exn A) (as_bound : A → bool) (keep : B → A → B).
(** The reads themselves do not wait. *)
Hypothesis reads : only (λ c, match c with XCallStudio _ _ _ _ _ => true | _ => false end) read.
Lemma slept_none evs : Forall (λ e, (λ c, match c with XCallStudio _ _ _ _ _ => true | _ => false end) (ev_call e) = true) evs → slept evs = 0.
Proof. intros H. induction H as [|[c a] evs Hc H IH]; [done|]. by destruct c. Qed.
Lemma confirm_ends more started fuel n acc tr : (n + fuel = CONFIRM_FUEL)%nat → (n <= 6)%nat →
  (∃ pre mid, tr = pre ++ Ev KNow (Ok started) :: mid ∧ Z.of_nat n * 2500 <= slept mid) →
  confirm ask read as_bound keep 2500 15000 (fuel + more) started n acc tr = confirm ask read as_bound keep 2500 15000 fuel started n acc tr ∧
  ∀ r, (confirm ask read as_bound keep 2500 15000 fuel started n acc tr).1 = Ok r → (r.2 <= 7)%nat.
Proof using clock reads.
revert n acc tr. induction fuel as [|fuel IH]; intros n acc tr Hn Hle (pre & mid & -> & Hw); [unfold CONFIRM_FUEL in Hn; lia|].
cbn [confirm Nat.add]. rewrite !bind_run. set (tr := pre ++ _). destruct (reads tr) as (evs & Htr & Hev%slept_none).
destruct (read tr) as [[a|e] tr1]; [|done]. cbn [snd] in Htr. subst tr1. cbv zeta.
destruct (as_bound a); [split; [done|]; intros r [= <-]; cbn; lia|].
assert (tr ++ evs = pre ++ Ev KNow (Ok started) :: (mid ++ evs)) as -> by (unfold tr; by rewrite <- app_assoc).
rewrite !bind_run, !perform_run. destruct (ask _ KNow) as [at_|e] eqn:E2; [|done]. pose proof (clock _ _ _ _ E2) as Hnow. rewrite slept_app, Hev in Hnow.
destruct (15000 <? _) eqn:Hd; [split; [done|]; intros r [= <-]; cbn; lia|]. apply Z.ltb_ge in Hd.
rewrite !bind_run, !perform_run. set (tr2 := _ ++ [Ev KNow _]). set (k := KSleep 2500). destruct (ask tr2 k) as [[]|e] eqn:E3; [|done].
apply IH; [lia|lia|].
exists pre, (mid ++ evs ++ [Ev KNow (Ok at_)] ++ [Ev k (Ok tt)]). split.
- unfold tr2. rewrite <- !app_assoc. cbn. by rewrite <- app_assoc.
- rewrite !slept_app, Hev. cbn [slept k]. lia.
Qed.
End confirm.

Context (json_parse : string → option js) (number : string → Num.num) (deps : ProvisionDeps).
Lemma studio_json_reads script token path : only (λ c, match c with XCallStudio _ _ _ _ _ => true | _ => false end) (studio_json ask json_parse script token path).
Proof. unfold studio_json. walk_only. Qed.
(** Two computations that do the same, with a verdict that satisfies [Q]. *)
Definition agree {A} (m m' : M trace exn A) (Q : A → Prop) (tr : trace) : Prop := m tr = m' tr ∧ ∀ r, (m' tr).1 = Ok r → Q r.
Lemma agree_bind {A B} (m : M trace exn A) (f f' : A → M trace exn B) Q tr : (∀ a tr', m tr = (Ok a, tr') → agree (f a) (f' a) Q tr') → agree (m ≫= f) (m ≫= f') Q tr.
Proof. intros H. unfold agree. rewrite !bind_run. destruct (m tr) as [[a|e] tr'] eqn:E; [by apply H|done]. Qed.
Lemma agree_asking {A B C} (read : M trace exn A) as_bound (keep : B → A → B) acc (f : Z → A * B * nat → M trace exn C) more (attempts : C → nat) tr :
  only (λ c, match c with XCallStudio _ _ _ _ _ => true | _ => false end) read → (∀ started r tr tr' c, f started r tr = (Ok c, tr') → attempts c = r.2) →
  agree (perform ask KNow ≫= λ started, confirm ask read as_bound keep 2500 15000 (CONFIRM_FUEL + more) started 0 acc ≫= f started)
    (perform ask KNow ≫= λ started, confirm ask read as_bound keep 2500 15000 CONFIRM_FUEL started 0 acc ≫= f started) (λ c, attempts c <= 7)%nat tr.
Proof using clock.
intros Hr Hf. apply agree_bind. intros started tr' E. assert (tr' = tr ++ [Ev KNow (Ok started)]) as ->.
{ rewrite perform_run in E. destruct (ask tr KNow); by simplify_eq. }
unfold agree. rewrite !bind_run.
destruct (confirm_ends read as_bound keep Hr more started CONFIRM_FUEL 0 acc (tr ++ [Ev KNow (Ok started)])) as [-> Hle]; [done|lia|by exists tr, []|].
split; [done|]. intros c. destruct (confirm _ _ _ _ _ _ _ _ _ _ _) as [[r|e] tr1]; [|done]. specialize (Hle r eq_refl).
destruct (f started r tr1) as [[c'|e] tr2] eqn:E'; [|done]. intros [= <-]. by rewrite (Hf _ _ _ _ _ E').
Qed.
Lemma only_as_json {A} (f : option (Z * option js) → A) script token path :
  only (λ c, match c with XCallStudio _ _ _ _ _ => true | _ => false end) (got ← studio_json ask json_parse script token path; mret (f got)).
Proof. apply only_bind; [apply studio_json_reads|]. intros got. apply only_ret. Qed.

(** The wait for the studio's own answer ends within its budget.  With a clock that moves at least as
    far as was slept, whatever the studio answers, asking for its page or its ceiling stops by itself
    after at most seven attempts, so the model's bound is never what ends it. *)
Theorem readback_wait_ends more tr :
  (∀ context, agree (applyAbuseReportUrl ask json_parse deps (CONFIRM_FUEL + more) context) (applyAbuseReportUrl ask json_parse deps CONFIRM_FUEL context)
    (λ r, ar_attempts r <= 7)%nat tr) ∧
  (∀ tenant context, agree (applyStorageQuota ask json_parse number deps (CONFIRM_FUEL + more) tenant context)
    (applyStorageQuota ask json_parse number deps CONFIRM_FUEL tenant context) (λ r, qr_attempts r <= 7)%nat tr).
Proof using clock.
split.
- intros context. apply agree_bind. intros before tr1 _. apply agree_bind. intros [] tr2 _. apply agree_bind. intros after tr3 _.
  apply agree_asking; [apply only_as_json|]. intros started [[raw u] attempts] tr5 tr6 r (ended & ? & _ & E)%M_bind_inv. by injection E as <- _.
- intros tenant context. apply agree_bind. intros _ tr0 _. apply agree_bind. intros before tr1 _. apply agree_bind. intros [] tr2 _.
  apply agree_bind. intros after tr3 _.
  apply agree_asking; [apply only_as_json|]. intros started [[reading used] attempts] tr5 tr6 r (ended & ? & _ & E)%M_bind_inv. by injection E as <- _.
Qed.
End ending.
