(* ===== verification/StudioUpgrade.v ===== *)
(** * Moving a live studio onto another release (src/tenant-studio-upgrade.ts)

    A preflight that writes nothing, then one run: schema, assets, script, and a count of what is left.
    The tenant keeps its status throughout; its recorded release is cleared before the first write and
    set again only when the count came out whole. The digest and the length of the shipped bytes, which
    only go into the answer, are left out. The heartbeat that renews the lease is left to the
    world, and which of the plane's two credentials makes a call is not told apart. *)

From S2P Require Export ConvergePolicy.
From Stdlib Require Import Ascii.
Open Scope string_scope.
Open Scope list_scope.
Open Scope Z_scope.
Open Scope plane_scope.

Definition ASSETS_BINDING : string := "ASSETS".
Record StudioUpgradeContext := mkStudioContext {
  sx_script : string; sx_release : string; sx_fromRelease : option string; sx_bundle : StudioBundle; sx_studioApiToken : string;
  sx_hostBefore : option js;
}.
Record StudioUpgradeResult := mkStudioUpgraded {
  su_ok : bool; su_from_release : option string; su_to_release : string; su_migrations_applied : list string; su_assets_shipped : nat;
  su_readback : Readback; su_missing_required_vars : list string; su_host_keys_before : list string; su_host_keys_after : list string;
  su_served_shape_changed : bool; su_serving_status : Z;
}.
Inductive StudioUpgradeOutcome := StudioUpgraded (result : StudioUpgradeResult) | StudioUpgradeFailed (s : step) (message : string) (result : option StudioUpgradeResult).

(** [Object.keys(host ?? {}).sort()] *)
Definition host_keys (host : option js) : list string :=
  order_by Str.leb match host with
  | Some (JObj fields) => remove_dups (fst <$> fields)
  | Some (JArr l) => (λ i, Str.of_int (Z.of_nat i)) <$> seq 0 (length l)
  | _ => []
  end.

(** A step of a run may throw; the step it was at goes with the error. *)
Abbreviation um := (M trace (exn * step)).
Definition in_step {A} (s : step) (m : M trace exn A) : um A := map_err (λ e, (e, s)) m.

Section studio_upgrade.
Variable ask : world.
Variable open : list ascii → list ascii → list ascii → option string.
Variable json_parse : string → option js.
Variable number : string → Num.num.
Variable show : Num.num → string.
Variable deps : ProvisionDeps.

(** The [host] object a studio serves, [None] when it could not be read. *)
Definition servedHost (script token : string) : M trace exn (option js) :=
  got ← studio_json ask json_parse script token "/api/modules";
  mret match read_json got with
       | Some body => match js_field body "host" with JObj f => Some (JObj f) | JArr l => Some (JArr l) | _ => None end
       | None => None
       end.

(** What refuses before anything is asked. *)
Definition studio_upgrade_refusal (tenant : Tenant) : Refusal + string :=
  if negb (opt_set (t_script_name tenant)) then
    inl (mkRefusal "not_provisioned" 409
      "this tenant has no studio script recorded, so there are no bytes to move; it needs a provision, not an upgrade")
  else if is_deleted tenant then inl tenant_deleted
  else if match t_suspended_at tenant with Some _ => true | None => false end then
    inl (mkRefusal "tenant_suspended" 409 "this tenant is suspended; resume it before upgrading its studio")
  else if negb (t_status tenant =s? "live") then
    inl (mkRefusal "tenant_not_live" 409 ("this tenant is " +:+ t_status tenant +:+ ", not live; an unfinished provision belongs to the resume path"))
  else if negb (opt_set (t_d1_database_id tenant)) then
    inl (mkRefusal "tenant_d1_missing" 422 ("no tenant D1 recorded, so the release's migrations cannot be applied; a bytes move without its " +:+
      "schema is how a studio ends up running code its database cannot serve"))
  else studio_token open deps tenant.
Definition preflightStudioUpgrade (tenant : Tenant) (release : string) : M trace exn (Refusal + StudioUpgradeContext) :=
  match studio_upgrade_refusal tenant with
  | inl refusal => mret (inl refusal)
  | inr token =>
      let script := default "" (t_script_name tenant) in
      '(status, _) ← perform ask (XCallStudio script "GET" "/" token None);
      if 500 <=? status then
        mret (inl (mkRefusal "tenant_studio_not_serving" 422 ("the tenant studio answered " +:+ Str.of_int status +:+ " before the upgrade started; fix that first")))
      else
        fetched ← attempt (perform ask (BFetchStudio release));
        match fetched with
        | inl e => mret (inl (mkRefusal "studio_bundle_unavailable" 422 ("studio bundle " +:+ release +:+ " is not usable: " +:+ exn_message e)))
        | inr bundle =>
            match assertDispositionCoversContract (sb_requiredVars bundle) with
            | Err e => mret (inl (mkRefusal "studio_var_contract_undecided" 422 (exn_message e)))
            | Ok _ =>
                match rq_blocked (resolveStorageQuota number show (dp_storageQuota deps) (quota_row tenant)) with
                | Some blocked => mret (inl (mkRefusal "plane_storage_quota_malformed" 409 blocked))
                | None =>
                    host ← servedHost script token;
                    mret (inr (mkStudioContext script release (t_studio_release tenant) bundle token host))
                end
            end
        end
  end.

(** ** The run *)
(** The bindings of the new script: all that was found as [inherit], new assets, the projections re-derived. *)
Definition assets_name (before : Census) : string :=
  match List.find (λ b, bl_type b =s? "assets") (cs_bindings before) with Some b => bl_name b | None => ASSETS_BINDING end.
Definition upgrade_bindings (tenant : Tenant) (before : Census) : list WorkerBinding :=
  let assets := assets_name before in
  withStorageQuota
    (withAbuseReportUrl
       (withVideoFinishTierState (inherit_all (jfilter (λ b, negb (bl_name b =s? assets)) (cs_bindings before)) ++ [BAssets assets]) tenant)
       (dp_abuseReportUrl deps))
    (rq_bytes (resolveStorageQuota number show (dp_storageQuota deps) (quota_row tenant)))
    (sq_mode (dp_storageQuota deps)).
Definition missing_required_vars (after : Census) : list string :=
  jfilter (λ v, negb (has_name v after || bool_decide (v ∈ cs_secrets after))) REQUIRED_TENANT_STUDIO_VARS.
Definition readback_short (r : Readback) (missing : list string) (status : Z) : string :=
  "post-upgrade readback is short: " +:+
  "missing_bindings=[" +:+ Str.join ", " (rb_missing_bindings r) +:+ "] missing_secrets=[" +:+ Str.join ", " (rb_missing_secrets r) +:+ "] " +:+
  "missing_required_vars=[" +:+ Str.join ", " missing +:+ "] serving_status=" +:+ Str.of_int status.

Section run.
Variables (jobId : string) (tenant : Tenant) (context : StudioUpgradeContext).
Definition mark_step (s : step) (done : list step) : um unit := in_step s (perform ask (SUpdateJobProgress jobId s done)).
(** A part of the run whose failure is that step's own. *)
Definition staged {A} (s : step) (what : string) (m : M trace exn A) : um A :=
  r ← in_step s (attempt m);
  match r with inl e => throw (EUpgrade s (what +:+ exn_message e), s) | inr a => mret a end.
Definition ship (before : Census) : um (list string) :=
  let bundle := sx_bundle context in
  '(applied, _) ← staged D1Migrate "tenant D1 migration failed: " (applyStudioMigrations ask show (default "" (t_d1_database_id tenant)) (sb_migrations bundle));
  _ ← mark_step D1Migrate [D1Migrate];
  jwt ← staged AssetsUpload "studio asset upload failed: "
        (match sb_assets bundle with [] => mret None | assets => uploadStudioAssets ask deps (t_slug tenant) assets end);
  _ ← mark_step AssetsUpload [D1Migrate; AssetsUpload];
  _ ← staged WfpUpload "studio script upload failed: "
        (perform ask (CUploadUserWorker (mkUpload (dp_namespace deps) (sx_script context) (sb_mainModule bundle) (sb_moduleText bundle) (sb_compatibilityDate bundle)
           (sb_compatibilityFlags bundle) (upgrade_bindings tenant before) jwt (sb_assetsConfig bundle))));
  _ ← mark_step WfpUpload [D1Migrate; AssetsUpload; WfpUpload];
  mret applied.
Definition look_back (before : Census) (applied : list string) : um StudioUpgradeResult :=
  after ← in_step WfpUpload (census ask deps (sx_script context));
  '(status, _) ← in_step WfpUpload (perform ask (XCallStudio (sx_script context) "GET" "/" (sx_studioApiToken context) None));
  host ← in_step WfpUpload (servedHost (sx_script context) (sx_studioApiToken context));
  let r := readback before after [] in
  let missing := missing_required_vars after in
  let keysBefore := host_keys (sx_hostBefore context) in
  let keysAfter := host_keys host in
  mret (mkStudioUpgraded (nothing_missing r && (length missing =? 0)%nat && (status <? 500)) (sx_fromRelease context) (sx_release context) applied
    (length (sb_assets (sx_bundle context))) r missing keysBefore keysAfter (negb (bool_decide (keysBefore = keysAfter))) status).
Definition studio_upgrade_body : um StudioUpgradeOutcome :=
  _ ← in_step D1Migrate (perform ask (SSetJobRunning jobId));
  before ← in_step D1Migrate (census ask deps (sx_script context));
  _ ← in_step D1Migrate (perform ask (SSetTenantStudioRelease (t_id tenant) None));
  applied ← ship before;
  result ← look_back before applied;
  _ ← mark_step VerifyStep [D1Migrate; AssetsUpload; WfpUpload; VerifyStep];
  if negb (su_ok result) then
    let message := readback_short (su_readback result) (su_missing_required_vars result) (su_serving_status result) in
    _ ← in_step VerifyStep (perform ask (SFinishJob jobId false (Some VerifyStep) (Some message)));
    mret (StudioUpgradeFailed VerifyStep message (Some result))
  else
    _ ← in_step VerifyStep (perform ask (SSetTenantStudioRelease (t_id tenant) (Some (sx_release context))));
    _ ← in_step VerifyStep (perform ask (SFinishJob jobId true None None));
    mret (StudioUpgraded result).
Definition studio_upgrade_failure (thrown : exn * step) : M trace exn StudioUpgradeOutcome :=
  let '(e, s) := thrown in
  let s := match e with EUpgrade s _ => s | _ => s end in
  _ ← perform ask (SFinishJob jobId false (Some s) (Some (exn_message e)));
  mret (StudioUpgradeFailed s (exn_message e) None).
Definition upgradeTenantStudio : M trace exn StudioUpgradeOutcome := λ tr,
  match studio_upgrade_body tr with
  | (Ok a, tr) => (Ok a, tr)
  | (Err thrown, tr) => studio_upgrade_failure thrown tr
  end.
End run.
End studio_upgrade.

(** ** What a run may do *)
Section upgrade_policy.
Context (ask : world) (json_parse : string → option js) (number : string → Num.num) (show : Num.num → string) (deps : ProvisionDeps).
Context (jobId : string) (tenant : Tenant) (context : StudioUpgradeContext).
Implicit Types (tr : trace) (bs : list WorkerBinding).

(** The four variables a run derives afresh, and what it derives. *)
Definition DERIVED : list string := [STORAGE_QUOTA_VAR; STORAGE_QUOTA_MODE_VAR; ABUSE_REPORT_URL_VAR; VIDEO_FINISH_TIER_STATE_VAR].
Definition ceiling : option string := rq_bytes (resolveStorageQuota number show (dp_storageQuota deps) (quota_row tenant)).
Definition derived (n : string) : list WorkerBinding :=
  bound_to n (storageQuotaBindings ceiling (sq_mode (dp_storageQuota deps)) ++ abuseReportUrlBindings (dp_abuseReportUrl deps) ++
    videoFinishTierStateBindings tenant).
(** The new script's bindings: what was found as [inherit], new assets, and of the four just what is derived. *)
Definition across (found : list BindingListing) bs : Prop :=
  (∀ l, l ∈ found → bl_name l ∉ DERIVED → BInherit (bl_name l) ∈ bs ∨ BAssets (bl_name l) ∈ bs) ∧
  (∀ b, b ∈ bs → binding_name b ∉ DERIVED → (∃ l, l ∈ found ∧ b = BInherit (bl_name l)) ∨ ∃ n, b = BAssets n) ∧
  (∀ n, n ∈ DERIVED → bound_to n bs = derived n).

Lemma elem_of_without n names (b : WorkerBinding) bs : binding_name b = n → n ∉ names → b ∈ without names bs ↔ b ∈ bs.
Proof.
intros <- Hn. unfold without. rewrite elem_of_jfilter, negb_true_iff. split; [by intros [H _]|]. intros H. split; [done|].
apply not_true_iff_false. by rewrite existsb_name.
Qed.
Lemma named_texts bs ns b : texts_of ns bs → b ∈ bs → binding_name b ∈ ns.
Proof. intros H (n & v & -> & Hn)%H. exact Hn. Qed.
Lemma are_derived ns : forallb (λ n, existsb (String.eqb n) DERIVED) ns = true → ∀ n, n ∈ ns → n ∈ DERIVED.
Proof. rewrite forallb_forall. intros H n Hn%list_elem_of_In%H. apply existsb_exists in Hn as (x & Hx & <-%String.eqb_eq). by apply list_elem_of_In. Qed.
Lemma derived_text (c : bool) n v : forallb (λ n, existsb (String.eqb n) DERIVED) [n] = true → texts_of DERIVED (if c then [BPlainText n v] else []).
Proof. intros Hn. eapply texts_mono; [by apply are_derived|apply texts_if]. Qed.
Lemma quota_texts : texts_of DERIVED (storageQuotaBindings ceiling (sq_mode (dp_storageQuota deps))).
Proof. by apply texts_app; apply derived_text. Qed.
Definition carried (before : Census) : list WorkerBinding :=
  inherit_all (jfilter (λ b, negb (bl_name b =? assets_name before)%string) (cs_bindings before)) ++ [BAssets (assets_name before)].
Lemma in_upgrade before b : binding_name b ∉ DERIVED → b ∈ upgrade_bindings number show deps tenant before ↔ b ∈ carried before.
Proof.
intros Hn. unfold upgrade_bindings, withStorageQuota, withAbuseReportUrl, withVideoFinishTierState, with_tier_state. fold ceiling. fold (carried before).
assert (∀ ns bs extra, (∀ n, n ∈ ns → n ∈ DERIVED) → texts_of DERIVED extra → b ∈ without ns bs ++ extra ↔ b ∈ bs) as Hstep.
{ intros ns bs extra Hns Hex. rewrite elem_of_app, (elem_of_without (binding_name b)); [|done|by intros ?%Hns].
  split; [intros [H|H]; [done|by apply (named_texts _ _ _ Hex) in H]|by left]. }
rewrite Hstep; [|by apply are_derived|apply quota_texts]. rewrite Hstep; [|by apply are_derived|by apply derived_text].
by rewrite Hstep; [|apply are_derived|apply derived_text].
Qed.
Lemma bound_if n x v (c : bool) : bound_to n (if c then [BPlainText x v] else []) = if (x =? n)%string then (if c then [BPlainText x v] else []) else [].
Proof. destruct c; [apply bound_text|by destruct (x =? n)%string]. Qed.
Lemma upgrade_across before : across (cs_bindings before) (upgrade_bindings number show deps tenant before).
Proof.
split_and!.
- intros l Hl Hn. destruct (bl_name l =? assets_name before)%string eqn:E.
  + right. apply in_upgrade; [done|]. apply elem_of_app. right. apply String.eqb_eq in E. rewrite E. left.
  + left. apply in_upgrade; [done|]. apply elem_of_app. left. apply (list_elem_of_fmap_2 (λ b, BInherit (bl_name b))), elem_of_jfilter. by rewrite E.
- intros b Hb Hn. apply in_upgrade in Hb; [|done]. apply elem_of_app in Hb as [(l & -> & [Hl _]%elem_of_jfilter)%list_elem_of_fmap| ->%list_elem_of_singleton].
  + left. by exists l.
  + right. by eexists.
- intros n Hn. unfold upgrade_bindings, withStorageQuota, withAbuseReportUrl, withVideoFinishTierState, with_tier_state, derived. fold ceiling.
  unfold storageQuotaBindings, abuseReportUrlBindings, videoFinishTierStateBindings, tier_bindings.
  rewrite !bound_to_app, !bound_without, !bound_to_app, !bound_if, !bound_without, !bound_to_app, !bound_if, !bound_without.
  repeat (apply elem_of_cons in Hn as [->|Hn]); [..|by apply elem_of_nil in Hn]; cbn [existsb];
    repeat match goal with |- context [(?x =? ?y)%string] => let v := eval vm_compute in (x =? y)%string in change (x =? y)%string with v end;
    cbn [orb app]; by rewrite ?app_nil_r.
Qed.

Abbreviation script := (sx_script context).
Abbreviation bundle := (sx_bundle context).
(** The recorded release was cleared; the schema of the new one is in; the new script took over whole. *)
Definition cleared tr : Prop := answered (SSetTenantStudioRelease (t_id tenant) None) (Ok tt) tr.
Definition schema_in tr : Prop := ∃ names, migrated show (default "" (t_d1_database_id tenant)) (sb_migrations bundle) names tr.
Definition shipped (args : UploadArgs) (before : Census) : Prop := ∃ jwt bs,
  args = mkUpload (dp_namespace deps) script (sb_mainModule bundle) (sb_moduleText bundle) (sb_compatibilityDate bundle) (sb_compatibilityFlags bundle) bs jwt
    (sb_assetsConfig bundle) ∧ across (cs_bindings before) bs.
Definition answers (status : Z) tr : Prop := ∃ text, answered (XCallStudio script "GET" "/" (sx_studioApiToken context) None) (Ok (status, text)) tr.
Definition moved_whole tr : Prop := ∃ before args after status,
  since (CUploadUserWorker args) tt (λ t, cleared t ∧ schema_in t ∧ listed deps script before t) (λ t, listed deps script after t ∧ answers status t) tr ∧
  shipped args before ∧ status < 500 ∧
  (∀ n, n ∈ bl_name <$> cs_bindings before → n ∈ bl_name <$> cs_bindings after) ∧ (∀ n, n ∈ cs_secrets before → n ∈ cs_secrets after) ∧
  (∀ v, v ∈ REQUIRED_TENANT_STUDIO_VARS → v ∈ bl_name <$> cs_bindings after ∨ v ∈ cs_secrets after).
Definition recorded_release tr : Prop := answered (SSetTenantStudioRelease (t_id tenant) (Some (sx_release context))) (Ok tt) tr.

Definition UPGRADE_STEPS : list step := [D1Migrate; AssetsUpload; WfpUpload; VerifyStep].
Definition upgrade_allows tr (c : call) : Prop :=
  match c with
  | SSetJobRunning job => job = jobId
  | SUpdateJobProgress job s done => job = jobId ∧ ∃ n, nth_error UPGRADE_STEPS n = Some s ∧ done = firstn (S n) UPGRADE_STEPS
  | SFinishJob job succeeded _ _ => job = jobId ∧ (succeeded = true → recorded_release tr)
  | SSetTenantStudioRelease id release => id = t_id tenant ∧
      match release with None => True | Some r => r = sx_release context ∧ moved_whole tr end
  | CGetScriptBindings ns s | CGetScriptSecretNames ns s => ns = dp_namespace deps ∧ s = script
  | CQueryD1 _ _ _ => cleared tr ∧ migration_calls show (default "" (t_d1_database_id tenant)) (sb_migrations bundle) tr c
  | CCreateAssetsSession ns s _ => ns = dp_namespace deps ∧ s = tenantScriptName (t_slug tenant) ∧ cleared tr ∧ schema_in tr
  | CUploadAssetBucket _ _ => cleared tr ∧ schema_in tr
  | CUploadUserWorker args => cleared tr ∧ schema_in tr ∧ ∃ before, listed deps script before tr ∧ shipped args before
  | XCallStudio s method _ token body => s = script ∧ method = "GET" ∧ token = sx_studioApiToken context ∧ body = None
  | _ => False
  end.
#[export] Instance stable_cleared : Stable cleared.
Proof. apply _. Qed.
#[export] Instance stable_schema_in : Stable schema_in.
Proof. unfold schema_in, migrated. apply _. Qed.
Lemma step_marked_safe P n s done : Stable P → nth_error UPGRADE_STEPS n = Some s → done = firstn (S n) UPGRADE_STEPS →
  safe upgrade_allows P (mark_step ask jobId s done) (λ _ _, True).
Proof. intros HP Hn Hd. apply safe_map_err, (safe_do _ _ _ (SUpdateJobProgress _ _ _)). intros tr _. split; [done|by exists n]. Qed.
Lemma staged_safe {A} P s what (m : M trace exn A) Q : safe upgrade_allows P m Q → safe upgrade_allows P (staged s what m) Q.
Proof.
intros H. unfold staged. eapply safe_seq; [by apply safe_map_err, safe_attempt|]. intros [e|a]; [apply safe_throw|by apply safe_ret].
Qed.
Lemma schema_safe P : Stable P → (∀ tr, P tr → cleared tr) →
  safe upgrade_allows P (applyStudioMigrations ask show (default "" (t_d1_database_id tenant)) (sb_migrations bundle)) (λ _, schema_in).
Proof.
intros HP Hc. eapply safe_weaken; [apply (safe_where (migration_calls show (default "" (t_d1_database_id tenant)) (sb_migrations bundle)) _ (λ _, True) cleared)| |].
- intros al Hal. by apply migrations_safe.
- apply _.
- intros tr c Htr Hm. unfold migration_calls in Hm. destruct c; try done.
- intros tr Htr. split; [done|by apply Hc].
- intros names tr _ H. by exists names.
Qed.
Lemma assets_safe P assets : Stable P → (∀ tr, P tr → cleared tr ∧ schema_in tr) →
  safe upgrade_allows P (match assets with [] => mret None | s :: l => uploadStudioAssets ask deps (t_slug tenant) (s :: l) end) (λ _ _, True).
Proof.
intros HP Hc. destruct assets as [|a assets]; [by apply safe_ret|]. unfold uploadStudioAssets.
apply safe_then; [done|eapply (safe_do _ _ _ (CCreateAssetsSession _ _ _)); intros tr Htr; destruct (Hc _ Htr); by split_and!|]. intros session.
generalize (as_jwt session) at 2. generalize (as_buckets session). intros buckets. induction buckets as [|bucket buckets IH]; intros completion; cbn [upload_buckets]; [by apply safe_ret|].
cbv zeta. destruct (_ =? 0)%nat; [apply IH|].
apply safe_then; [done|eapply (safe_do _ _ _ (CUploadAssetBucket _ _)); intros tr Htr; by apply Hc|]. intros res. apply IH.
Qed.

Lemma ship_safe P before : Stable P → (∀ tr, P tr → cleared tr ∧ listed deps script before tr) →
  safe upgrade_allows P (ship ask number show deps jobId tenant context before)
    (λ _ tr, ∃ args, shipped args before ∧ since (CUploadUserWorker args) tt (λ t, cleared t ∧ schema_in t ∧ listed deps script before t) (λ _, True) tr).
Proof.
intros HP HPc. unfold ship. cbv zeta.
eapply (safe_bind _ _ _ _ (λ _, schema_in)); [done|apply staged_safe, schema_safe; [done|intros tr Htr; by apply HPc]|]. intros [applied ?].
apply safe_then; [apply _|apply (step_marked_safe _ 0); [apply _|done|done]|]. intros [].
apply safe_then; [apply _|apply staged_safe, (assets_safe _ (sb_assets bundle)); [apply _|intros tr [Htr Hs]; split; [by apply HPc|done]]|]. intros jwt.
apply safe_then; [apply _|apply (step_marked_safe _ 1); [apply _|done|done]|]. intros [].
set (args := mkUpload _ _ _ _ _ _ _ _ _). assert (shipped args before) as Hs by (exists jwt, (upgrade_bindings number show deps tenant before); split; [done|apply upgrade_across]).
set (R := λ tr, since (CUploadUserWorker args) tt (λ t, cleared t ∧ schema_in t ∧ listed deps script before t) (λ _, True) tr).
eapply (safe_seq _ _ _ _ (λ _, R)).
- apply staged_safe. eapply safe_weaken; [apply (starts_since _ _ (CUploadUserWorker args) (λ t, cleared t ∧ schema_in t ∧ listed deps script before t))| |].
  + intros tr (H1 & H2 & H3). split_and!; [done|done|]. exists before. by split.
  + intros tr [Htr Hsch]. destruct (HPc _ Htr). by split_and!.
  + intros [] tr _ H. exact H.
- intros []. apply safe_then; [apply _|apply (step_marked_safe _ 2); [apply _|done|done]|]. intros []. apply safe_ret. intros tr H. by exists args.
Qed.
Lemma look_back_safe before applied args : shipped args before →
  safe upgrade_allows (since (CUploadUserWorker args) tt (λ t, cleared t ∧ schema_in t ∧ listed deps script before t) (λ _, True))
    (look_back ask json_parse deps context before applied) (λ r tr, su_ok r = true → moved_whole tr).
Proof.
intros Hs. set (P0 := λ t, cleared t ∧ schema_in t ∧ listed deps script before t). unfold look_back.
eapply safe_seq; [apply safe_map_err, count_since; [apply _|by intros tr _..]|]. intros after.
eapply safe_seq; [apply safe_map_err, (since_perform _ _ _ _ _ (XCallStudio _ _ _ _ _)); [apply _|by intros tr _]|]. intros [status text].
eapply safe_then; [apply _| |].
{ apply safe_map_err. unfold servedHost, studio_json.
  apply safe_then; [apply _|apply safe_then; [apply _|apply (safe_try _ _ _ (XCallStudio _ _ _ _ _)); by intros tr _|intros r; by apply safe_ret]|]. intros got. by apply safe_ret. }
intros host. apply safe_ret. intros tr Htr. cbn [su_ok]. intros [[Hm Hv%Nat.eqb_eq]%andb_true_iff Hst%Z.ltb_lt]%andb_true_iff.
apply nothing_missing_spec in Hm as [Hm1 Hm2]. exists before, args, after, status. split_and!; [|done|done| |done|].
- eapply since_weaken; [|exact Htr]. intros t [[_ Ha] Hx]. split; [done|by exists text].
- intros n Hn. apply Hm1 in Hn as [?%elem_of_nil|]; done.
- intros v Hreq. assert (v ∉ missing_required_vars after) as Hno by (destruct (missing_required_vars after); [by intros ?%elem_of_nil|done]).
  unfold missing_required_vars in Hno. rewrite elem_of_jfilter in Hno. destruct (has_name v after) eqn:Eh; [left; by apply has_name_spec|right].
  destruct (bool_decide (v ∈ cs_secrets after)) eqn:Ed; [by apply bool_decide_eq_true in Ed|]. exfalso. by apply Hno.
Qed.

Definition upgraded (out : StudioUpgradeOutcome) tr : Prop :=
  match out with StudioUpgraded r => su_ok r = true ∧ moved_whole tr ∧ recorded_release tr | StudioUpgradeFailed _ _ _ => True end.
Lemma body_safe : safe upgrade_allows (λ _, True) (studio_upgrade_body ask json_parse number show deps jobId tenant context) upgraded.
Proof.
unfold studio_upgrade_body.
apply safe_then; [apply _|by apply safe_map_err, (safe_do _ _ _ (SSetJobRunning _))|]. intros [].
eapply safe_bind; [apply _|apply safe_map_err, count_safe; [apply _|by intros tr _..]|]. intros before.
eapply safe_bind; [apply _|apply safe_map_err, (safe_perform _ _ _ (SSetTenantStudioRelease (t_id tenant) None)); by intros tr _|]. intros [].
eapply safe_seq; [apply ship_safe; [apply _|]|].
{ intros tr [[_ Hl] Hc]. split; [exact Hc|exact Hl]. }
intros applied. eapply (safe_seq _ _ _ _ (λ r tr, su_ok r = true → moved_whole tr)).
{ intros tr Ho (args & Hs & Hsince). by apply (look_back_safe before applied args Hs). }
intros result. destruct (su_ok result) eqn:Hok; cbn [negb].
- eapply (safe_seq _ _ _ _ (λ _, moved_whole)); [eapply safe_weaken; [apply safe_keep; [|apply (step_marked_safe moved_whole 3); [|done|done]]; apply _|intros tr H; by apply H|by intros [] tr _ [H _]]|].
  intros []. eapply safe_bind; [apply _|apply safe_map_err, (safe_perform _ _ _ (SSetTenantStudioRelease (t_id tenant) (Some (sx_release context)))); intros tr H; by split_and!|].
  intros []. apply safe_then; [apply _|apply safe_map_err, (safe_do _ _ _ (SFinishJob _ _ _ _)); intros tr [_ H]; by split|].
  intros _. apply safe_ret. intros tr [H1 H2]. by split_and!.
- eapply (safe_seq _ _ _ _ (λ _ _, True)); [eapply safe_weaken; [apply (step_marked_safe (λ _, True) 3); [apply _|done|done]|done|done]|]. intros [].
  apply safe_then; [apply _|apply safe_map_err, (safe_do _ _ _ (SFinishJob _ _ _ _)); intros tr _; by split|]. intros _. by apply safe_ret.
Qed.

Lemma upgrade_safe : let '(r, tr) := upgradeTenantStudio ask json_parse number show deps jobId tenant context [] in
  obeys upgrade_allows tr ∧ match r with Ok out => upgraded out tr | Err _ => True end.
Proof.
destruct (body_safe [] (obeys_nil _) I) as (_ & Ho & Hq). unfold upgradeTenantStudio.
destruct (studio_upgrade_body _ _ _ _ _ _ _ _ _) as [[out|[e s]] tr]; [by split|]. cbn [snd] in Ho.
set (s' := match e with EUpgrade s _ => s | _ => s end).
assert (safe upgrade_allows (λ _, True) (_ ← perform ask (SFinishJob jobId false (Some s') (Some (exn_message e))); mret (StudioUpgradeFailed s' (exn_message e) None))
  upgraded) as H by (apply safe_then; [apply _|by apply (safe_do _ _ _ (SFinishJob _ _ _ _)); split|intros _; by apply safe_ret]).
destruct (H tr Ho I) as (_ & Ho' & Hr). fold s' in Hr. unfold studio_upgrade_failure. fold s'.
by destruct ((_ ← perform ask (SFinishJob jobId false (Some s') (Some (exn_message e))); mret _) tr) as [[out|e'] tr'].
Qed.

(** C13. A live studio changes release in place, and is said to be at it only when it moved whole.  Whatever
    the store, Cloudflare and the studio answer, a run writes neither the tenant's status nor anything
    that is another's: it clears the recorded release before it touches the schema, sends new assets and
    the new script only when every migration of the release is in, and puts into that script all it
    found bound as [inherit], with new assets and the four derived variables alone stated; it records the
    release, and closes the job as succeeded, only after a count found every binding, secret and required
    variable there and the studio serving. *)
Theorem studio_moves_whole_or_is_not_recorded :
  let '(r, tr) := upgradeTenantStudio ask json_parse number show deps jobId tenant context [] in
  obeys upgrade_allows tr ∧ match r with Ok out => upgraded out tr | Err _ => True end.
Proof. exact upgrade_safe. Qed.

(** A projection the plane has dropped cannot go.  In a run after which the cloud lists only what the
    new script was given, a studio found with a storage ceiling, an abuse-report page or a declared tier
    state that is no longer derived is never moved successfully: the run takes the variable away, counts
    it missing, and leaves the tenant with no recorded release. *)
Theorem dropped_projection_fails_the_move r tr :
  upgradeTenantStudio ask json_parse number show deps jobId tenant context [] = (Ok (StudioUpgraded r), tr) →
  (∀ t1 t2 args l n, tr = t1 ++ Ev (CUploadUserWorker args) (Ok tt) :: t2 → answered (CGetScriptBindings (dp_namespace deps) script) (Ok l) t2 →
     n ∈ bl_name <$> l → n ∈ binding_name <$> ua_bindings args) →
  ∃ before, listed deps script before tr ∧ ∀ n, n ∈ DERIVED → n ∈ bl_name <$> cs_bindings before → derived n ≠ [].
Proof.
intros E Hcloud. pose proof upgrade_safe as H. rewrite E in H.
destruct H as (_ & _ & (before & args & after & status & (t1 & t2 & Etr & (_ & _ & Hb) & Ha & _) & (jwt & bs & -> & Hacross) & _ & Hall & _) & _).
exists before. split; [eapply (stable_listed _ _ before t1); [by eexists|done]|]. intros n Hn Hin Hd. apply Hall in Hin.
eapply Hcloud in Hin; [|exact Etr|by apply Ha]. cbn [ua_bindings] in Hin. apply list_elem_of_fmap in Hin as (b & -> & Hb').
destruct Hacross as (_ & _ & Hex). assert (b ∈ bound_to (binding_name b) bs) as Hin by (apply elem_of_jfilter; by rewrite String.eqb_refl).
rewrite Hex, Hd in Hin; [by apply elem_of_nil in Hin|done].
Qed.
End upgrade_policy.

(** ** What lets a run begin *)
Section preflight.
Context (ask : world) (open : list ascii → list ascii → list ascii → option string) (json_parse : string → option js).
Context (number : string → Num.num) (show : Num.num → string) (deps : ProvisionDeps) (tenant : Tenant) (release : string).
Implicit Types (tr : trace).

(** A preflight reads the tenant's studio and fetches the release. *)
Definition only_looks (tr : trace) (c : call) : Prop :=
  match c with
  | XCallStudio s method _ token body => t_script_name tenant = Some s ∧ studio_token open deps tenant = inr token ∧ method = "GET" ∧ body = None
  | BFetchStudio r => r = release
  | _ => False
  end.
Definition fit_to_move (context : StudioUpgradeContext) tr : Prop :=
  t_deleted_at tenant = None ∧ t_suspended_at tenant = None ∧ t_status tenant = "live" ∧ opt_set (t_d1_database_id tenant) = true ∧
  t_script_name tenant = Some (sx_script context) ∧ studio_token open deps tenant = inr (sx_studioApiToken context) ∧
  sx_release context = release ∧ sx_fromRelease context = t_studio_release tenant ∧
  answered (BFetchStudio release) (Ok (sx_bundle context)) tr ∧ undecided_vars (sb_requiredVars (sx_bundle context)) = [] ∧
  rq_blocked (resolveStorageQuota number show (dp_storageQuota deps) (quota_row tenant)) = None ∧
  ∃ status text, answered (XCallStudio (sx_script context) "GET" "/" (sx_studioApiToken context) None) (Ok (status, text)) tr ∧ status < 500.
Lemma no_refusal token : studio_upgrade_refusal open deps tenant = inr token →
  t_deleted_at tenant = None ∧ t_suspended_at tenant = None ∧ t_status tenant = "live" ∧ opt_set (t_d1_database_id tenant) = true ∧
  t_script_name tenant = Some (default "" (t_script_name tenant)) ∧ studio_token open deps tenant = inr token.
Proof.
unfold studio_upgrade_refusal, is_deleted. destruct (t_script_name tenant) as [s|]; [|done]. destruct (opt_set (Some s)); [|done]. cbn [negb].
destruct (t_deleted_at tenant); [done|]. destruct (t_suspended_at tenant); [done|]. destruct (t_status tenant =? "live")%string eqn:E; [|done].
apply String.eqb_eq in E. cbn [negb]. destruct (opt_set (t_d1_database_id tenant)); [|done]. cbn [negb]. by intros ->.
Qed.

(** Under any policy that allows this much; a refusal is an error by its status. *)
Lemma studio_refusal_status refusal : studio_upgrade_refusal open deps tenant = inl refusal → 400 <= rf_http refusal.
Proof.
assert (∀ r, studio_token open deps tenant = inl r → 400 <= rf_http r) as Ht.
{ intros r. unfold studio_token. destruct (negb _); [intros [= <-]; cbn; lia|]. by destruct (decryptStudioToken _ _ _); [|intros [= <-]; cbn; lia]. }
unfold studio_upgrade_refusal. repeat first [case_match|intros [= <-]; cbn; lia|by apply Ht].
Qed.
Lemma preflight_safe (al : trace → call → Prop) P : (∀ tr c, P tr → only_looks tr c → al tr c) → Stable P →
  safe al P (preflightStudioUpgrade ask open json_parse number show deps tenant release)
    (λ r tr, match r with inr context => fit_to_move context tr | inl refusal => 400 <= rf_http refusal end).
Proof.
intros Hal HP. unfold preflightStudioUpgrade. destruct (studio_upgrade_refusal open deps tenant) as [refusal|token] eqn:Hr.
{ apply studio_refusal_status in Hr. by apply safe_ret. }
apply no_refusal in Hr as (Hd & Hsu & Hl & Hdb & Hsc & Ht).
assert (∀ path tr, P tr → al tr (XCallStudio (default "" (t_script_name tenant)) "GET" path token None)) as Hx by (intros path tr Htr; by apply Hal).
eapply safe_bind; [done|apply (safe_perform _ _ _ (XCallStudio _ _ _ _ _)); intros tr; apply Hx|]. intros [status text].
destruct (500 <=? status) eqn:Hst; [by apply safe_ret|]. apply Z.leb_gt in Hst.
eapply safe_bind; [apply _|apply safe_attempt, (safe_perform _ _ _ (BFetchStudio release)); intros tr [Htr _]; by apply Hal|]. intros [e|bundle]; [by apply safe_ret|].
destruct (assertDispositionCoversContract _) as [u|e] eqn:Hc; [|by apply safe_ret]. unfold assertDispositionCoversContract in Hc.
destruct (undecided_vars _) eqn:Hu; [|done]. destruct (rq_blocked _) eqn:Hb; [by apply safe_ret|].
eapply safe_then; [apply _| |].
{ unfold servedHost, studio_json. apply safe_then; [apply _| |intros got; by apply safe_ret].
  apply safe_then; [apply _|apply (safe_try _ _ _ (XCallStudio _ _ _ _ _)); intros tr [[Htr _] _]; by apply Hx|intros r; by apply safe_ret]. }
intros host. apply safe_ret. intros tr [[_ Ha] Hf]. split_and!; try done. by exists status, text.
Qed.

(** A studio is moved only from a state that was looked at.  Whatever is answered, the preflight asks only
    the tenant's own studio, read only and under its own token, and for the release's bundle; and it
    lets a run begin only for a tenant that is live, neither suspended nor deleted, with a database, a
    studio that answers, a token that opens and a ceiling that can be read, and for a bundle that was
    fetched and asks for no variable the plane has not decided on. *)
Theorem studio_move_is_preflighted :
  let '(r, tr) := preflightStudioUpgrade ask open json_parse number show deps tenant release [] in
  obeys only_looks tr ∧ match r with Ok (inr context) => fit_to_move context tr | _ => True end.
Proof.
destruct (preflight_safe only_looks (λ _, True) (λ _ _ _ H, H) _ [] (obeys_nil _) I) as (_ & Ho & Hq).
by destruct (preflightStudioUpgrade _ _ _ _ _ _ _ _ []) as [[[refusal|context]|e] tr].
Qed.
End preflight.
