(* ===== verification/SmokeStore.v ===== *)
(** * Settings, the audit trail and the table of smoke renders (src/store-d1.ts)

    platform_settings and admin_audit; and SmokeRender of src/store.ts with its statements.  A smoke
    render spends GPU time on a customer's account of ours, so the statement that opens one is also the
    guard: it inserts nothing while a bound is reached.  [now] is the instant of a statement in seconds
    since the epoch. *)

From S2P Require Export SqlTime TenantStore.
Open Scope string_scope.
Open Scope list_scope.
Open Scope Z_scope.
Open Scope plane_scope.

Record SettingRow := mkSetting { st_key : string; st_value : string; st_updated_at : string; st_updated_by : string }.
(** The id of a row of the trail is its place, counted from 1. *)
Record AdminAuditRow := mkAuditRow {
  aa_actor : string; aa_action : string; aa_target : option string; aa_detail : option string; aa_created_at : string;
}.
Record platform_db := mkPlatform { pf_settings : list SettingRow; pf_audit : list AdminAuditRow }.

Definition d1_getSetting (key : string) : M platform_db string (option string) :=
  gets (λ db, st_value <$> List.find (λ r, st_key r =s? key) (pf_settings db)).
(** [ON CONFLICT (key) DO UPDATE] *)
Definition d1_setSetting (dt key value updatedBy : string) : M platform_db string unit := modify (λ db,
  let row := mkSetting key value dt updatedBy in
  mkPlatform (if existsb (λ r, st_key r =s? key) (pf_settings db) then update_where (λ r, st_key r =s? key) (λ _, row) (pf_settings db)
              else pf_settings db ++ [row]) (pf_audit db)).
Definition d1_recordAdminAction (dt actor action : string) (target detail : option string) : M platform_db string unit := modify (λ db,
  mkPlatform (pf_settings db) (pf_audit db ++ [mkAuditRow actor action target detail dt])).
(** [Math.max(1, Math.min(500, Math.trunc(limit) || 1))] *)
Definition audit_limit (limit : Num.num) : nat :=
  match Num.trunc limit with
  | Num.NInt 0 | Num.NNaN => 1
  | Num.NInt n => Z.to_nat (Z.max 1 (Z.min 500 n))
  | Num.NInf negative => if negative then 1 else 500
  | Num.NFrac _ _ => 1
  end.
(** Ordered by id, the newest first; an empty target is none. *)
Definition d1_listAdminAudit (target : option string) (limit : Num.num) : M platform_db string (list (nat * AdminAuditRow)) := gets (λ db,
  let rows := imap (λ i r, (S i, r)) (pf_audit db) in
  let kept := match target with
              | Some t => if Str.truthy t then jfilter (λ r : nat * AdminAuditRow, bool_decide (aa_target r.2 = Some t)) rows else rows
              | None => rows
              end in
  firstn (audit_limit limit) (reverse kept)).

(** ** The trail only grows *)
Inductive platform_step : platform_db → platform_db → Prop :=
| step_setting dt k v by_ db : platform_step db (exec (d1_setSetting dt k v by_) db)
| step_action dt a act t d db : platform_step db (exec (d1_recordAdminAction dt a act t d) db).
#[export] Instance platform_steps_preorder : PreOrder (steps platform_step).
Proof. split; [intros s; constructor|intros s t u; apply steps_trans]. Qed.
Lemma trail_grows db db' : steps platform_step db db' → ∃ new, pf_audit db' = pf_audit db ++ new.
Proof.
induction 1 as [db|db db1 db2 Hs _ [new IH]]; [exists []; by rewrite app_nil_r|].
destruct Hs; cbn in IH; [by exists new|]. eexists. rewrite IH, <- app_assoc. reflexivity.
Qed.

(** ** Smoke renders *)

Inductive SmokeStatus := SmokeRunning | SmokeSucceeded | SmokeFailed.
#[export] Instance SmokeStatus_eq_dec : EqDecision SmokeStatus.
Proof. solve_decision. Defined.
(** Proof of bytes this worker fetched. *)
Record SmokeRenderArtifact := mkArtifact { sa_key : string; sa_bytes : Z; sa_sha256 : string; sa_content_type : string }.
Record SmokeRender := mkSmoke {
  smk_id : string; smk_tenant_id : string; smk_status : SmokeStatus; smk_modules_release : option string; smk_studio_job_id : option string;
  smk_bundle_key : option string; smk_artifact_key : option string; smk_artifact_bytes : option Z; smk_artifact_sha256 : option string;
  smk_artifact_content_type : option string; smk_error : option string; smk_created_at : string; smk_updated_at : string; smk_finished_at : option string;
}.
Record SmokeRenderBounds := mkBounds { sb_cooldown : Z; sb_daily_cap : Z; sb_in_flight : Z }.
Inductive SmokeOutcome := RenderSucceeded (artifact : SmokeRenderArtifact) | RenderFailed (error : string).
Record smoke_db := mkSmokeDb { sd_tenants : list string; sd_renders : list SmokeRender }.
Definition with_renders (f : list SmokeRender → list SmokeRender) (db : smoke_db) : smoke_db := mkSmokeDb (sd_tenants db) (f (sd_renders db)).

Section statements.
Variable now : Z.
(** [datetime('now', '-n seconds')] *)
Definition ago (n : Z) : string := SqlTime.datetime (now - n).
Definition opened_since (n : Z) (r : SmokeRender) : bool := ago n <s? smk_created_at r.
Definition smoke_of (tenantId : string) (r : SmokeRender) : bool := smk_tenant_id r =s? tenantId.
Definition is_running (r : SmokeRender) : bool := bool_decide (smk_status r = SmokeRunning).
Definition in_flight (tenantId : string) (bounds : SmokeRenderBounds) (r : SmokeRender) : bool :=
  smoke_of tenantId r && is_running r && opened_since (sb_in_flight bounds) r.
Definition cooling (tenantId : string) (bounds : SmokeRenderBounds) (r : SmokeRender) : bool :=
  smoke_of tenantId r && opened_since (sb_cooldown bounds) r.
Definition today (rows : list SmokeRender) : Z := Z.of_nat (length (jfilter (opened_since 86400) rows)).
Definition may_open (tenantId : string) (bounds : SmokeRenderBounds) (rows : list SmokeRender) : bool :=
  negb (existsb (in_flight tenantId bounds) rows) && negb (existsb (cooling tenantId bounds) rows) && (today rows <? sb_daily_cap bounds).
Definition new_smoke (id tenantId : string) (modulesRelease : option string) : SmokeRender :=
  mkSmoke id tenantId SmokeRunning modulesRelease None None None None None None None (sql_now now) (sql_now now) None.
(** One statement: the three bounds are in its WHERE. *)
Definition d1_openSmokeRender (id tenantId : string) (modulesRelease : option string) (bounds : SmokeRenderBounds) : M smoke_db string (option SmokeRender) := λ db,
  if negb (may_open tenantId bounds (sd_renders db)) then (Ok None, db)
  else if existsb (λ r, smk_id r =s? id) (sd_renders db) then (Err "UNIQUE constraint failed: smoke_renders.id", db)
  else if negb (existsb (String.eqb tenantId) (sd_tenants db)) then (Err "FOREIGN KEY constraint failed", db)
  else (Ok (Some (new_smoke id tenantId modulesRelease)), with_renders (λ l, l ++ [new_smoke id tenantId modulesRelease]) db).

(** Which bound, the nearest first; three reads, the row of the first in the table's order. *)
Definition refusal_running (r : SmokeRender) : string := "a smoke render is already running for this tenant (" +:+ smk_id r +:+ ")".
Definition refusal_cooling (bounds : SmokeRenderBounds) (r : SmokeRender) : string :=
  "this tenant had a smoke render at " +:+ smk_created_at r +:+ "; the cooldown is " +:+ Str.of_int (sb_cooldown bounds) +:+ "s and it has not elapsed".
Definition refusal_cap (bounds : SmokeRenderBounds) : string :=
  "the platform-wide smoke-render cap of " +:+ Str.of_int (sb_daily_cap bounds) +:+ " per 24h has been reached".
Definition d1_describeSmokeRenderRefusal (tenantId : string) (bounds : SmokeRenderBounds) : M smoke_db string (option string) := gets (λ db,
  match List.find (in_flight tenantId bounds) (sd_renders db) with
  | Some r => Some (refusal_running r)
  | None =>
      match head (order_desc (λ r, (smk_created_at r, "")) (jfilter (cooling tenantId bounds) (sd_renders db))) with
      | Some r => Some (refusal_cooling bounds r)
      | None => if sb_daily_cap bounds <=? today (sd_renders db) then Some (refusal_cap bounds) else None
      end
  end).
Definition d1_getSmokeRender (id : string) : M smoke_db string (option SmokeRender) := gets (λ db, List.find (λ r, smk_id r =s? id) (sd_renders db)).
Definition submitted_row (studioJobId bundleKey : string) (r : SmokeRender) : SmokeRender :=
  mkSmoke (smk_id r) (smk_tenant_id r) (smk_status r) (smk_modules_release r) (Some studioJobId) (Some bundleKey) (smk_artifact_key r) (smk_artifact_bytes r)
    (smk_artifact_sha256 r) (smk_artifact_content_type r) (smk_error r) (smk_created_at r) (sql_now now) (smk_finished_at r).
Definition d1_setSmokeRenderSubmitted (id studioJobId bundleKey : string) : M smoke_db string unit :=
  modify (with_renders (update_where (λ r, smk_id r =s? id) (submitted_row studioJobId bundleKey))).
Definition finished_smoke (outcome : SmokeOutcome) (r : SmokeRender) : SmokeRender :=
  match outcome with
  | RenderSucceeded artifact =>
      mkSmoke (smk_id r) (smk_tenant_id r) SmokeSucceeded (smk_modules_release r) (smk_studio_job_id r) (smk_bundle_key r) (Some (sa_key artifact))
        (Some (sa_bytes artifact)) (Some (sa_sha256 artifact)) (Some (sa_content_type artifact)) (smk_error r) (smk_created_at r) (sql_now now) (Some (sql_now now))
  | RenderFailed error =>
      mkSmoke (smk_id r) (smk_tenant_id r) SmokeFailed (smk_modules_release r) (smk_studio_job_id r) (smk_bundle_key r) (smk_artifact_key r)
        (smk_artifact_bytes r) (smk_artifact_sha256 r) (smk_artifact_content_type r) (Some error) (smk_created_at r) (sql_now now) (Some (sql_now now))
  end.
Definition d1_finishSmokeRender (id : string) (outcome : SmokeOutcome) : M smoke_db string unit :=
  modify (with_renders (update_where (λ r, (smk_id r =s? id) && is_running r) (finished_smoke outcome))).
End statements.

(** ** Histories of statements *)
Inductive smoke_op :=
| OpOpen (id tenant : string) (modules : option string) (bounds : SmokeRenderBounds)
| OpSubmitted (id job bundle : string)
| OpFinish (id : string) (outcome : SmokeOutcome).
Definition exec_smoke (now : Z) (op : smoke_op) (db : smoke_db) : smoke_db :=
  match op with
  | OpOpen i t m b => exec (d1_openSmokeRender now i t m b) db
  | OpSubmitted i j b => exec (d1_setSmokeRenderSubmitted now i j b) db
  | OpFinish i o => exec (d1_finishSmokeRender now i o) db
  end.
Definition smoke_history : Type := list (Z * smoke_op).
Definition replay_smoke (h : smoke_history) (db : smoke_db) : smoke_db := fold_left (λ db e, exec_smoke e.1 e.2 db) h db.

(** ** When renders were opened, the newest first *)
Section ration.
Context (C K : Z).
Hypothesis cap_nonneg : 0 <= K.
Implicit Types (l : list (string * Z)) (rows : list SmokeRender).

(** A tenant and the instant of its render: apart from the tenant's other renders by the cooldown, and
    from the day before it fewer than the cap. *)
Fixpoint rationed l : Prop :=
  match l with
  | [] => True
  | (tenant, s) :: l =>
      (∀ y, y ∈ l → y.2 <= s) ∧ (∀ y, y ∈ l → y.1 = tenant → y.2 + C <= s) ∧
      Z.of_nat (length (jfilter (λ y, s - 86400 <? y.2) l)) < K ∧ rationed l
  end.
Definition within_day (t : Z) (y : string * Z) : bool := (t - 86400 <? y.2) && (y.2 <=? t).

Lemma jfilter_length_le {A} (p q : A → bool) (l : list A) : (∀ x, x ∈ l → p x = true → q x = true) → (length (jfilter p l) <= length (jfilter q l))%nat.
Proof.
induction l as [|x l IH]; intros Hpq; [done|]. unfold jfilter in *. cbn.
assert (length (List.filter p l) <= length (List.filter q l))%nat by (apply IH; intros y Hy; apply Hpq; by right).
destruct (p x) eqn:Ep; [rewrite (Hpq x) by (done || left); cbn; lia|]. destruct (q x); cbn; lia.
Qed.
(** Any day at all, not only one that ends when a render is opened. *)
Lemma rationed_day l t : rationed l → Z.of_nat (length (jfilter (within_day t) l)) <= K.
Proof.
induction l as [|[i s] l IH]; [intros; cbn; lia|]. cbn [rationed]. intros (_ & _ & Hk & Hl). unfold jfilter in *. cbn [List.filter].
destruct (within_day t (i, s)) eqn:E; [|by apply IH]. unfold within_day in E. cbn in E. bool_hyps. cbn [length].
assert (Z.of_nat (length (jfilter (within_day t) l)) <= Z.of_nat (length (jfilter (λ y, s - 86400 <? y.2) l))).
{ apply Nat2Z.inj_le, jfilter_length_le. intros y _ Hy. unfold within_day in Hy. bool_hyps. apply Z.ltb_lt. lia. }
unfold jfilter in *. lia.
Qed.
Lemma rationed_apart l i j x y : rationed l → l !! i = Some x → l !! j = Some y → (i < j)%nat → x.1 = y.1 → y.2 + C <= x.2.
Proof.
revert i j. induction l as [|[t s] l IH]; [done|]. intros [|i] [|j]; cbn [rationed]; intros (H1 & H2 & H3 & H4) Hx Hy Hij Ht; try lia.
- cbn in Hx, Hy. simplify_eq/=. apply H2; [by eapply list_elem_of_lookup_2|done].
- cbn in Hx, Hy. eapply IH; eauto. lia.
Qed.

(** The rows opened at those instants. *)
Definition opened_at r (y : string * Z) : Prop := smk_tenant_id r = y.1 ∧ smk_created_at r = SqlTime.datetime y.2 ∧ SqlTime.in_range y.2.
Definition opened rows l : Prop := Forall2 opened_at rows (reverse l).

Lemma opened_since_spec now n r y : SqlTime.in_range (now - n) → opened_at r y → opened_since now n r = (now - n <? y.2).
Proof. intros Hr (_ & Hc & Hy). unfold opened_since, ago. rewrite Hc. by apply SqlTime.datetime_ltb. Qed.
Lemma opened_count now rows l : SqlTime.in_range (now - 86400) → opened rows l →
  length (jfilter (opened_since now 86400) rows) = length (jfilter (λ y, now - 86400 <? y.2) l).
Proof.
intros Hr Ho. assert (length (jfilter (λ y, now - 86400 <? y.2) l) = length (jfilter (λ y, now - 86400 <? y.2) (reverse l))) as ->.
{ apply Permutation_length, jfilter_perm. by rewrite reverse_Permutation. }
unfold opened in Ho. induction Ho as [|r y rows' l' Hry _ IH]; [done|]. unfold jfilter in *. cbn. rewrite (opened_since_spec _ _ _ _ Hr Hry).
destruct (now - 86400 <? y.2); cbn; lia.
Qed.
Lemma opened_in rows l y : opened rows l → y ∈ l → ∃ r, r ∈ rows ∧ opened_at r y.
Proof.
intros Ho Hy. apply elem_of_reverse in Hy. unfold opened in Ho. apply list_elem_of_lookup in Hy as [i Hi].
destruct (Forall2_lookup_r _ _ _ _ _ Ho Hi) as (r & Hr & Hry). exists r. split; [by eapply list_elem_of_lookup_2|done].
Qed.
Lemma opened_update rows l p f : (∀ r, smk_tenant_id (f r) = smk_tenant_id r ∧ smk_created_at (f r) = smk_created_at r) →
  opened rows l → opened (update_where p f rows) l.
Proof.
intros Hf Ho. unfold opened, update_where in *. induction Ho as [|r y rows' l' (H1 & H2 & H3) _ IH]; [constructor|]. rewrite fmap_cons. constructor; [|done].
destruct (p r); [|done]. destruct (Hf r) as [E1 E2]. by split_and!; [rewrite E1|rewrite E2|].
Qed.

Definition op_bounded (op : smoke_op) : Prop :=
  match op with OpOpen _ _ _ b => C <= sb_cooldown b ∧ sb_daily_cap b <= K | _ => True end.
(** The instants the statement computes with have years of four digits. *)
Definition op_dated (now : Z) (op : smoke_op) : Prop :=
  SqlTime.in_range now ∧ SqlTime.in_range (now - 86400) ∧ match op with OpOpen _ _ _ b => SqlTime.in_range (now - sb_cooldown b) | _ => True end.

Lemma exec_rationed now op db l : op_bounded op → op_dated now op → (∀ y, y ∈ l → y.2 <= now) → opened (sd_renders db) l → rationed l →
  ∃ l', opened (sd_renders (exec_smoke now op db)) l' ∧ rationed l' ∧ ∀ y, y ∈ l' → y.2 <= now.
Proof.
intros Hb (Hn & Hd & Hc) Hle Ho Hl. destruct op as [i t m b|i j b|i o]; cbn [exec_smoke].
- unfold exec, d1_openSmokeRender. destruct (may_open now t b (sd_renders db)) eqn:Hm; cbn [negb]; [|by exists l].
  destruct (existsb _ _); [by exists l|]. destruct (negb _); [by exists l|]. exists ((t, now) :: l). cbn [snd sd_renders with_renders].
  unfold may_open in Hm. bool_hyps. cbn in Hb. cbn [rationed]. split_and!.
  + unfold opened. rewrite reverse_cons. apply Forall2_app; [exact Ho|]. by constructor; [split_and!|constructor].
  + exact Hle.
  + intros y Hy Ht. destruct (opened_in _ _ _ Ho Hy) as (r & Hr & Hry). pose proof (opened_since_spec now (sb_cooldown b) r y Hc Hry) as Hsi.
    match goal with E : existsb (cooling _ _ _) _ = false |- _ => rewrite existsb_false_iff in E; specialize (E r Hr); unfold cooling, smoke_of in E end.
    destruct Hry as (Hrt & _ & _). rewrite Hrt, Ht, String.eqb_refl, Hsi in *. cbn in *. bool_hyps. lia.
  + unfold today in *. rewrite (opened_count _ _ _ Hd Ho) in *. lia.
  + done.
  + intros y [->|Hy]%elem_of_cons; [cbn; lia|auto].
- exists l. split_and!; [by apply opened_update|done..].
- exists l. split_and!; [apply opened_update; [by destruct o|done]|done..].
Qed.

Fixpoint dated (from : Z) (h : smoke_history) : Prop :=
  match h with [] => True | (now, op) :: h => from <= now ∧ op_dated now op ∧ op_bounded op ∧ dated now h end.

(** C25. Smoke renders are rationed.  Whatever operators ask for at once and however their renders end, while
    the cooldown is at least [C] seconds and the cap at most [K]: two renders of one tenant are opened at
    least [C] seconds apart, and no 24 hours, whenever they begin, see more than [K] renders opened over
    all tenants. *)
Theorem smoke_renders_are_rationed from h tenants : dated from h →
  ∃ l, opened (sd_renders (replay_smoke h (mkSmokeDb tenants []))) l ∧
    (∀ i j x y, l !! i = Some x → l !! j = Some y → (i < j)%nat → x.1 = y.1 → y.2 + C <= x.2) ∧
    (∀ t, Z.of_nat (length (jfilter (within_day t) l)) <= K).
Proof.
intros Hh. assert (∃ l, opened (sd_renders (replay_smoke h (mkSmokeDb tenants []))) l ∧ rationed l) as (l & Ho & Hl).
{ assert (∀ db l, opened (sd_renders db) l → rationed l → (∀ y, y ∈ l → y.2 <= from) →
    ∃ l', opened (sd_renders (replay_smoke h db)) l' ∧ rationed l') as Hgen; [|apply (Hgen _ []); [constructor|done|by intros y ?%elem_of_nil]].
  revert from Hh. induction h as [|[now op] h IH]; intros from Hh db l Ho Hl Hle; [by exists l|]. destruct Hh as (Hf & Hd & Hb & Hh).
  destruct (exec_rationed now op db l Hb Hd) as (l' & Ho' & Hl' & Hle'); [intros y Hy; specialize (Hle y Hy); lia|done..|].
  by eapply IH. }
exists l. split; [done|]. split; [by intros i j x y; apply rationed_apart|by intros t; apply rationed_day].
Qed.
End ration.
