(* ===== verification/Wiring.v ===== *)
(** * What a deployment is wired to (provisionerWiring and resolveVpcDoors of src/deps.ts,
      tenantModuleProxy of src/env.ts)

    The variables of a deployment decide whether it has a provisioner at all, whether it offers the
    shared tier, which doors it names, and what every provisioner run is given.  [env] is the
    environment as the worker finds it; the parser of URLs is a parameter.  The methods a route calls
    are the programs of the other files, composed here as the wiring composes them. *)

From S2P Require Export Converge ModuleReadiness StudioUpgrade Teardown.
From Stdlib Require Import Ascii.
Open Scope string_scope.
Open Scope list_scope.
Open Scope Z_scope.
Open Scope plane_scope.

Definition TENANT_RUNPOD_SECRET : string := "RUNPOD_API_KEY".
Definition SPEND_DAILY_CEILING_DEFAULT : string := "25".

Section wiring.
(** A variable of the environment, and whether the bucket of releases is bound. *)
Variable env : string → option string.
Variable releases : bool.
Variable json_parse : string → option js.
(** [new URL(s)]: its protocol and its origin, or a throw. *)
Variable parse_url : string → option (string * string).
Variable number : string → Num.num.
Variable show : Num.num → string.

(** [env[name]?.trim() || null] *)
Definition trimmed_var (name : string) : option string :=
  match env name with Some v => if Str.truthy (Str.trim v) then Some (Str.trim v) else None | None => None end.
Definition set_var (name : string) : bool := opt_set (env name).

(** ** The doors *)
Definition https_origin (part : string) : option string :=
  let s := Str.trim part in
  if negb (Str.truthy s) then None
  else match parse_url s with Some (protocol, origin) => if protocol =s? "https:" then Some origin else None | None => None end.
Definition parseHttpsDoorList (raw : option string) : list string :=
  match raw with Some s => if Str.truthy s then omap https_origin (Text.split "," s) else [] | None => [] end.
Definition DOOR_TOKEN_FALLBACKS : list string := ["FINISH_DOOR_TOKEN"; "LOCAL_FINISH_TOKEN"; "MEDIA_FINISH_TOKEN"].
Fixpoint first_var (names : list string) : option string :=
  match names with
  | [] => None
  | n :: names => match trimmed_var n with Some v => Some v | None => first_var names end
  end.
Definition read_door_token (preferred : string) : option string :=
  match trimmed_var preferred with Some v => Some v | None => first_var (jfilter (λ n, negb (n =s? preferred)) DOOR_TOKEN_FALLBACKS) end.
(** The tokens of a capability: the fallback names stand in for the first only. *)
Definition door_tokens (tokens : list (string * string)) : list (string * string) :=
  match tokens with
  | [] => []
  | first :: rest =>
      omap (λ '(spec, token), (λ t, (spec.1, t)) <$> token)
        ((first, read_door_token first.2) :: ((λ spec, (spec, trimmed_var spec.2)) <$> rest))
  end.
Definition resolve_door (c : PlannedCapability) : option (string * ResolvedDoor) :=
  match cap_backing c with
  | ByRunpod _ _ _ => None
  | ByDoor urlVar specs =>
      let origins := parseHttpsDoorList (trimmed_var urlVar) in
      let tokens := door_tokens specs in
      if (length origins =? 0)%nat then None
      else if (length tokens =? 0)%nat then None
      else Some (plan_key c, mkDoor urlVar (Str.join "," origins) tokens)
  end.
Definition resolveVpcDoors : list (string * ResolvedDoor) := omap resolve_door (doorBackedPlan PROVISION_PLAN).

(** ** The proxy and the shared tier *)
Definition plane_origin : string := "https://" +:+ default "undefined" (env "CONTROL_PLANE_HOST").
Definition tenantModuleProxy : option (string * string) :=
  match trimmed_var "CONTROL_PLANE_HOST", trimmed_var "RUNPOD_PROXY_SIGNING_KEY" with
  | Some _, Some signingKey => Some (plane_origin +:+ PROXY_UPSTREAM_PREFIX, signingKey)
  | _, _ => None
  end.
Definition pool_requested : bool :=
  match trimmed_var "SHARED_RUNPOD_ENDPOINTS", trimmed_var "SHARED_RUNPOD_INVOKE_KEY" with None, None => false | _, _ => true end.
Definition shared_pool : option SharedRunPodPool :=
  if pool_requested then
    match parseSharedPool json_parse (env "SHARED_RUNPOD_ENDPOINTS"), trimmed_var "SHARED_RUNPOD_INVOKE_KEY", tenantModuleProxy with
    | Ok pool, Some _, Some _ => Some pool
    | _, _, _ => None
    end
  else None.

(** ** The provisioner *)
Definition MEDIA_DOOR_VARS : list string := ["VIDEO_FINISH_URL"; "AUDIO_MIX_URL"; "AUDIO_BEAT_SYNC_URL"; "IMAGE_PREP_URL"; "AUDIO_MASTER_URL"].
Definition REQUIRED_WIRING : list string :=
  ["CF_PROVISIONER_TOKEN"; "CF_ACCOUNT_ID"; "DISPATCH_NAMESPACE"; "TENANT_MODULE_NAMESPACE"; "STUDIO_RELEASE"; "STUDIO_TOKEN_KEK"].
Definition var (name : string) : string := default "" (env name).
Record Wiring := mkWiring { wr_deps : ProvisionDeps; wr_sharedPoolInvokeKey : option string }.
Definition provisionerWiring : option Wiring :=
  if negb (forallb set_var REQUIRED_WIRING && releases) then None
  else
    let pool := shared_pool in
    Some (mkWiring
      (mkDeps (var "DISPATCH_NAMESPACE") (var "TENANT_MODULE_NAMESPACE") (var "STUDIO_RELEASE")
        ("https://" +:+ var "CF_ACCOUNT_ID" +:+ ".r2.cloudflarestorage.com") pool (env "TENANT_AI_GATEWAY_ID") tenantModuleProxy resolveVpcDoors
        (omap (λ name, (λ v, (name, v)) <$> trimmed_var name) MEDIA_DOOR_VARS)
        (Some (default SPEND_DAILY_CEILING_DEFAULT (trimmed_var "TENANT_SPEND_DAILY_CEILING")))
        (tenantStorageQuota number show (env "TENANT_R2_STORAGE_QUOTA_BYTES") (env "TENANT_R2_STORAGE_QUOTA_MODE"))
        (hostedAbuseReportUrl (env "CONTROL_PLANE_HOST"))
        (kekRing (var "STUDIO_TOKEN_KEK") (env "STUDIO_TOKEN_KEK_NEXT") (env "STUDIO_TOKEN_KEK_ENCRYPT_SLOT")))
      (match pool with Some _ => trimmed_var "SHARED_RUNPOD_INVOKE_KEY" | None => None end)).
Definition offersSharedTier (w : Wiring) : bool := match dp_sharedPool (wr_deps w) with Some _ => true | None => false end.
End wiring.

(** ** What the wiring's methods run *)
Section methods.
Variable ask : world.
Variable sign : string → string → list ascii.
Variable open : list ascii → list ascii → list ascii → option string.
Variable json_parse : string → option js.
Variable number : string → Num.num.
Variable show : Num.num → string.
Variable deps : ProvisionDeps.

Fixpoint put_on_modules (tenantId key : string) (catalog : list TenantModuleSpec) : M trace exn unit :=
  match catalog with
  | [] => mret tt
  | spec :: catalog =>
      _ ← perform ask (CPutScriptSecret (dp_moduleNamespace deps) (tenantModuleScriptName tenantId (tm_module spec)) TENANT_RUNPOD_SECRET key);
      put_on_modules tenantId key catalog
  end.
Definition install_key (tenant : Tenant) (key : string) : M trace exn ModuleReadiness :=
  if negb (opt_set (t_script_name tenant)) then throw (error "tenant has no studio worker to install the key on")
  else
    _ ← perform ask (CPutScriptSecret (dp_namespace deps) (default "" (t_script_name tenant)) TENANT_RUNPOD_SECRET key);
    _ ← match tenantModuleProxyBinding sign (readRunPodMode (Some (t_runpod_mode tenant))) (dp_runpodProxy deps) (t_id tenant) with
        | Some _ => mret tt
        | None => put_on_modules (t_id tenant) key TENANT_MODULE_CATALOG
        end;
    awaitTenantModulesReady ask json_parse READY_FUEL (t_id tenant) MODULE_READY_PROBE_DEADLINE_MS TENANT_MODULE_CATALOG.

Definition wired_refresh (tenant : Tenant) : M trace exn (Refusal + BindingChange) :=
  match preflightStudioBindings tenant with
  | inl refusal => mret (inl refusal)
  | inr script => result ← refreshTenantStudioBindings ask deps script; mret (inr result)
  end.
Definition wired_detach (tenant : Tenant) : M trace exn (Refusal + BindingChange) :=
  match preflightStudioBindingDetach tenant with
  | inl refusal => mret (inl refusal)
  | inr script => result ← detachTenantStudioBinding ask deps tenant script; mret (inr result)
  end.
Definition wired_quota (tenant : Tenant) (intent : option StorageQuotaIntent) : M trace exn (Refusal + StorageQuotaResult) :=
  pre ← preflightStorageQuota ask open json_parse number show deps tenant intent;
  match pre with
  | inl refusal => mret (inl refusal)
  | inr context => result ← applyStorageQuota ask json_parse number deps CONFIRM_FUEL tenant context; mret (inr result)
  end.
Definition wired_abuse_url (tenant : Tenant) : M trace exn (Refusal + AbuseReportUrlResult) :=
  pre ← preflightAbuseReportUrl ask open json_parse deps tenant;
  match pre with
  | inl refusal => mret (inl refusal)
  | inr context => result ← applyAbuseReportUrl ask json_parse deps CONFIRM_FUEL context; mret (inr result)
  end.
Definition wired_tier_state (tenant : Tenant) (intent : TierStateIntent) : M trace exn (Refusal + TierStateResult) :=
  pre ← preflightVideoFinishTierState ask open json_parse deps tenant intent;
  match pre with
  | inl refusal => mret (inl refusal)
  | inr context => result ← applyVideoFinishTierState ask json_parse deps tenant context intent; mret (inr result)
  end.
End methods.
