(* ===== verification/Sso.v ===== *)
(** * Sign-in with a provider, and the mail door (src/oauth.ts, and emailStart, beginSso, finishSso,
      safeSameOriginRedirectPath of src/index.ts)

    The redirect to a provider, the callback, and the exchange of its code for an identity the provider
    vouches for, over the interface of AuthStore.v.  The network, the clock, the random bytes, SHA-256,
    [JSON.parse] and the parser of URLs are parameters; [env] is the environment of the worker. *)

From S2P Require Export TokenCrypto Wiring Auth.
From Stdlib Require Import Ascii.
Open Scope string_scope.
Open Scope list_scope.
Open Scope Z_scope.
Open Scope plane_scope.

(** ** Answers *)
Record http_reply := mkHttpReply {
  hr_status : Z;
  hr_headers : list (string * string);
  hr_body : option js;
}.
Definition json_response (body : list (string * js)) (status : Z) : http_reply :=
  mkHttpReply status [("content-type", "application/json; charset=utf-8")] (Some (JObj body)).
Definition err_response (code : string) (status : Z) (extra : list (string * js)) : http_reply :=
  json_response (("error", JStr code) :: extra) status.
Definition redirect_response (location : string) (headers : list (string * string)) : http_reply :=
  mkHttpReply 302 (("location", location) :: headers) None.
(** The session a reply starts. *)
Definition cookie_set (r : http_reply) : option string := snd <$> List.find (λ h, h.1 =s? "set-cookie") (hr_headers r).

(** ** Providers *)
Inductive SsoProvider := Google | Github | Apple.
#[export] Instance SsoProvider_eq_dec : EqDecision SsoProvider.
Proof. solve_decision. Defined.
Definition sso_name (p : SsoProvider) : string := match p with Google => "google" | Github => "github" | Apple => "apple" end.
Definition isSsoProvider (v : string) : option SsoProvider :=
  List.find (λ p, v =s? sso_name p) [Google; Github; Apple].
Definition sso_auth (p : SsoProvider) : AuthProvider := match p with Google => AGoogle | Github => AGithub | Apple => AApple end.

Record VerifiedIdentity := mkVerified { vi_provider : AuthProvider; vi_subject : string; vi_email : string }.

(** ** Encodings *)
Fixpoint drop_equals (l : list ascii) : list ascii :=
  match l with c :: r => if Ascii.eqb c "=" then drop_equals r else l | [] => [] end.
Definition b64url (bytes : list ascii) : string :=
  Str.of_chars (rev (drop_equals (rev (Str.chars (replace_all "/" "_" (replace_all "+" "-" (btoa (Str.of_chars bytes)))))))).

(** [n <= z] of a number and an integer. *)
Definition num_le (n : Num.num) (z : Z) : bool := match n with Num.NNaN => false | n => negb (num_gt n z) end.

(** What [new URL(raw, origin)] parsed. *)
Record Url := mkUrl { u_origin : string; u_pathname : string; u_search : string; u_hash : string }.

Section sso.
Context {W : Type} `{AuthStore W}.
Variable env : string → option string.
Variable digest : string → list ascii.
Variable random : nat → M W string (list ascii).
Variable clock : M W string Z.
Variable fetch : HttpRequest → M W string HttpResponse.
Variable json_parse : string → option js.
(** [String(v)] of a value that is not a text. *)
Variable text_of : js → string.
Variable resolve_url : string → string → option Url.
Variable getSetting : string → M W string (option string).

Definition js_text (v : js) : string := match v with JStr s => s | v => text_of v end.
Definition publicOrigin : string := plane_origin env.

(** ** Where a sign-in may return to *)
Definition safeSameOriginRedirectPath (raw : option string) : option string :=
  match raw with
  | None => None
  | Some raw =>
      if negb (Str.truthy raw) then None
      else if negb (starts_with "/" raw) || includes_text "\" raw || includes_text "//" raw then None
      else match resolve_url raw publicOrigin with
           | Some u => if negb (u_origin u =s? publicOrigin) then None else Some (u_pathname u +:+ u_search u +:+ u_hash u)
           | None => None
           end
  end.
Definition redirectTo (path : string) (headers : list (string * string)) : http_reply := redirect_response (publicOrigin +:+ path) headers.

(** ** The way out *)
Definition configuredProviders : list SsoProvider :=
  (if set_var env "GOOGLE_OAUTH_CLIENT_ID" && set_var env "GOOGLE_OAUTH_CLIENT_SECRET" then [Google] else []) ++
  (if set_var env "GITHUB_OAUTH_CLIENT_ID" && set_var env "GITHUB_OAUTH_CLIENT_SECRET" then [Github] else []) ++
  (if set_var env "APPLE_TEAM_ID" && set_var env "APPLE_SERVICES_ID" && set_var env "APPLE_PRIVATE_KEY" then [Apple] else []).
Definition redirectUri (p : SsoProvider) : string := publicOrigin +:+ "/auth/" +:+ sso_name p +:+ "/callback".
Definition pkceChallenge (verifier : string) : string := b64url (digest verifier).

Definition google_authorize (state verifier : string) : string :=
  "https://accounts.google.com/o/oauth2/v2/auth?" +:+ search_params
    [("client_id", var env "GOOGLE_OAUTH_CLIENT_ID"); ("redirect_uri", redirectUri Google); ("response_type", "code");
     ("scope", "openid email"); ("state", state); ("code_challenge", pkceChallenge verifier); ("code_challenge_method", "S256")].
Definition github_authorize (state : string) : string :=
  "https://github.com/login/oauth/authorize?" +:+ search_params
    [("client_id", var env "GITHUB_OAUTH_CLIENT_ID"); ("redirect_uri", redirectUri Github);
     ("scope", "read:user user:email"); ("state", state)].
(** The URL, the state and the verifier. *)
Definition authorizeUrl (p : SsoProvider) : M W string (string * string * option string) :=
  bytes ← random 32;
  let state := randomToken bytes in
  match p with
  | Google => secret ← random 32; mret (google_authorize state (b64url secret), state, Some (b64url secret))
  | Github => mret (github_authorize state, state, None)
  | Apple => throw "apple sign-in is not implemented yet (Team ID + Services ID + .p8 pending)"
  end.

Definition STATE_TTL_MS : Z := 10 * 60 * 1000.
Definition offered (provider : string) : option SsoProvider :=
  match isSsoProvider provider with
  | Some p => if existsb (λ q, bool_decide (q = p)) configuredProviders then Some p else None
  | None => None
  end.
Definition unknown_provider : http_reply := err_response "unknown_provider" 404 [].
(** [param] is [url.searchParams.get]. *)
Definition beginSso (provider : string) (param : string → option string) : M W string http_reply :=
  match offered provider with
  | None => mret unknown_provider
  | Some p =>
      let redirect := safeSameOriginRedirectPath (param "redirect_to") in
      '(authUrl, state, verifier) ← authorizeUrl p;
      now ← clock;
      expires ← lift (iso (now + STATE_TTL_MS));
      _ ← createOAuthState (mkOAuthState state provider verifier redirect expires None);
      mret (redirect_response authUrl [])
  end.

(** ** The code exchanged for an identity *)
Definition form_headers : list (string * string) := [("content-type", "application/x-www-form-urlencoded")].
Definition google_token_request (code : string) (verifier : option string) : HttpRequest :=
  mkRequest "https://oauth2.googleapis.com/token" "POST" form_headers (BText (search_params (
    [("code", code); ("client_id", var env "GOOGLE_OAUTH_CLIENT_ID"); ("client_secret", var env "GOOGLE_OAUTH_CLIENT_SECRET");
     ("redirect_uri", redirectUri Google); ("grant_type", "authorization_code")] ++
    match verifier with Some v => if Str.truthy v then [("code_verifier", v)] else [] | None => [] end))).

Definition decodeJwtPayload (jwt : string) : option js :=
  match Text.split "." jwt with
  | [_; part; _] =>
      let pad := replace_all "_" "/" (replace_all "-" "+" part) in
      match atob (pad +:+ Str.of_chars (repeat "="%char ((4 - length (Str.chars pad) mod 4) mod 4))) with
      | Ok bytes =>
          match json_parse (Str.of_chars bytes) with
          | Some v => if js_is_object v then Some v else None
          | None => None
          end
      | Err _ => None
      end
  | _ => None
  end.

Definition google_issuers : list string := ["https://accounts.google.com"; "accounts.google.com"].
Definition email_verified (claims : js) : bool :=
  match js_field claims "email_verified" with JBool b => b | JStr s => s =s? "true" | _ => false end.
(** [claims.aud !== env.GOOGLE_OAUTH_CLIENT_ID] *)
Definition audience_is (v : js) (client : option string) : bool :=
  match v, client with JStr a, Some c => a =s? c | JUndef, None => true | _, _ => false end.
Definition google_identity (claims : js) (now : Z) : option VerifiedIdentity :=
  if negb (existsb (String.eqb (js_string_or_empty (js_field claims "iss"))) google_issuers) then None
  else if negb (audience_is (js_field claims "aud") (env "GOOGLE_OAUTH_CLIENT_ID")) then None
  else match js_field claims "exp" with
  | JNum exp =>
      if num_le (Num.scale exp 1000) now then None
      else
        let sub := js_string_or_empty (js_field claims "sub") in
        let email := js_string_or_empty (js_field claims "email") in
        if negb (Str.truthy sub) || negb (Str.truthy email) || negb (email_verified claims) then None
        else Some (mkVerified AGoogle sub email)
  | _ => None
  end.
Definition exchangeGoogle (code : string) (verifier : option string) : M W string (option VerifiedIdentity) :=
  res ← fetch (google_token_request code verifier);
  if negb (rs_ok res) then mret None
  else
    let id_token := js_field (default JNull (rs_json res)) "id_token" in
    if negb (js_truthy id_token) then mret None
    else match id_token with
    | JStr jwt =>
        match decodeJwtPayload jwt with
        | Some claims => now ← clock; mret (google_identity claims now)
        | None => mret None
        end
    | _ => throw "TypeError: jwt.split is not a function"
    end.

Definition github_token_request (code : string) : HttpRequest :=
  mkRequest "https://github.com/login/oauth/access_token" "POST" (form_headers ++ [("accept", "application/json")]) (BText (search_params
    [("code", code); ("client_id", var env "GITHUB_OAUTH_CLIENT_ID"); ("client_secret", var env "GITHUB_OAUTH_CLIENT_SECRET");
     ("redirect_uri", redirectUri Github)])).
Definition github_request (url token : string) : HttpRequest :=
  mkRequest url "GET" [("authorization", "Bearer " +:+ token); ("accept", "application/vnd.github+json"); ("user-agent", "vivijure-control-plane")] BNone.
(** The address of the first entry that is primary, verified and text. *)
Fixpoint primary_email (l : list js) : result string (option string) :=
  match l with
  | [] => Ok None
  | e :: l =>
      primary ← js_get e "primary";
      if js_truthy primary && js_truthy (js_field e "verified") then
        match js_field e "email" with JStr s => Ok (Some s) | _ => primary_email l end
      else primary_email l
  end.
Definition exchangeGithub (code : string) : M W string (option VerifiedIdentity) :=
  tokenRes ← fetch (github_token_request code);
  if negb (rs_ok tokenRes) then mret None
  else
    let token := js_field (default JNull (rs_json tokenRes)) "access_token" in
    if negb (js_truthy token) then mret None
    else
      userRes ← fetch (github_request "https://api.github.com/user" (js_text token));
      if negb (rs_ok userRes) then mret None
      else match js_field (default JNull (rs_json userRes)) "id" with
      | JNum id =>
          emailsRes ← fetch (github_request "https://api.github.com/user/emails" (js_text token));
          if negb (rs_ok emailsRes) then mret None
          else match rs_json emailsRes with
          | Some (JArr emails) =>
              primary ← lift (primary_email emails);
              match primary with
              | Some email => mret (if Str.truthy email then Some (mkVerified AGithub (text_of (JNum id)) email) else None)
              | None => mret None
              end
          | _ => mret None
          end
      | _ => mret None
      end.
Definition exchangeCode (p : SsoProvider) (code : string) (verifier : option string) : M W string (option VerifiedIdentity) :=
  match p with
  | Google => exchangeGoogle code verifier
  | Github => exchangeGithub code
  | Apple => mret None
  end.

(** ** The way back *)
Definition host_domain : option string := sessionCookieDomain (default "" (env "CONTROL_PLANE_HOST")).
Definition finishSso (provider : string) (param : string → option string) : M W string http_reply :=
  match offered provider with
  | None => mret unknown_provider
  | Some p =>
      match param "code", param "state" with
      | Some code, Some state =>
          if negb (Str.truthy code) || negb (Str.truthy state) then mret (redirectTo "/?error=sso_failed" [])
          else
            now ← clock;
            at_ ← lift (iso now);
            found ← consumeOAuthState state at_;
            match found with
            | None => mret (redirectTo "/?error=sso_failed" [])
            | Some row =>
                if negb (oa_provider row =s? provider) then mret (redirectTo "/?error=sso_failed" [])
                else
                  identity ← exchangeCode p code (oa_verifier row);
                  match identity with
                  | None => mret (redirectTo "/?error=sso_unverified_email" [])
                  | Some who =>
                      signups ← getSetting "signups_enabled";
                      result ← upsertAccountForVerifiedEmail random (vi_provider who) (vi_subject who) (vi_email who) (settingEnabled signups);
                      match result with
                      | UpSignupsClosed => mret (redirectTo "/?error=signups_closed" [])
                      | UpUnavailable => mret (redirectTo "/?error=account_unavailable" [])
                      | UpOk account _ =>
                          now ← clock;
                          '(token, maxAge) ← startSession digest random (ac_id account) now;
                          mret (redirectTo (default "/" (oa_redirect_to row)) [("set-cookie", sessionCookie token maxAge host_domain)])
                      end
                  end
            end
      | _, _ => mret (redirectTo "/?error=sso_failed" [])
      end
  end.

(** ** The mail door *)
Variable send : string → string → string → M W string unit.
(** The limiter's binding, when there is one. *)
Variable limit : option (string → M W string bool).
Definition accepted : http_reply := json_response [("ok", JBool true)] 202.
(** Whether the send may be tried at all. *)
Definition send_door (email : string) : M W string bool :=
  match limit with
  | Some limit => limit ("email-start:" +:+ email)
  | None => mret (negb (set_var env "POSTERN_SEND_URL" && set_var env "POSTERN_SEND_TOKEN"))
  end.
(** The reply, and what is left to [waitUntil]. *)
Definition emailStart (body : js) : M W string (http_reply * option (M W string unit)) :=
  let email := normalizeEmail (match js_field body "email" with JUndef | JNull => "" | v => js_text v end) in
  if negb (looksLikeEmail email) then mret (accepted, None)
  else
    passed ← send_door email;
    if negb passed then mret (accepted, None)
    else
      signups ← getSetting "signups_enabled";
      existing ← getAccountByEmail email;
      match existing with
      | None =>
          if negb (settingEnabled signups) then mret (accepted, None)
          else now ← clock; mret (accepted, Some (catch (sendMagicLink digest random send publicOrigin email now) (λ _, mret tt)))
      | Some a =>
          if is_set (ac_suspended_at a) || is_set (ac_deleted_at a) then mret (accepted, None)
          else now ← clock; mret (accepted, Some (catch (sendMagicLink digest random send publicOrigin email now) (λ _, mret tt)))
      end.
End sso.

(** ** What a sign-in rests on *)
Section vouching.
Context {W : Type} `{AuthStore W}.
Context (env : string → option string) (clock : M W string Z) (fetch : HttpRequest → M W string HttpResponse).
Context (json_parse : string → option js) (text_of : js → string).

Definition got (request : HttpRequest) (answer : HttpResponse) : Prop := rs_ok answer = true ∧ ∃ s s', fetch request s = (Ok answer, s').
Definition clock_read (t : Z) : Prop := ∃ s s', clock s = (Ok t, s').

(** The provider itself asserted the address as verified, to this client, in answer to this code. *)
Inductive provider_vouches (code : string) (verifier : option string) : SsoProvider → VerifiedIdentity → Prop :=
| google_vouches answer jwt claims iss client exp now sub email :
    got (google_token_request env code verifier) answer →
    js_field (default JNull (rs_json answer)) "id_token" = JStr jwt → decodeJwtPayload json_parse jwt = Some claims →
    js_field claims "iss" = JStr iss → iss ∈ google_issuers →
    env "GOOGLE_OAUTH_CLIENT_ID" = Some client → js_field claims "aud" = JStr client →
    js_field claims "exp" = JNum exp → clock_read now → num_le (Num.scale exp 1000) now = false →
    js_field claims "sub" = JStr sub → Str.truthy sub = true → js_field claims "email" = JStr email → Str.truthy email = true →
    js_field claims "email_verified" = JBool true ∨ js_field claims "email_verified" = JStr "true" →
    provider_vouches code verifier Google (mkVerified AGoogle sub email)
| github_vouches tokens token user id emails l e email :
    got (github_token_request env code) tokens → js_field (default JNull (rs_json tokens)) "access_token" = token →
    got (github_request "https://api.github.com/user" (js_text text_of token)) user →
    js_field (default JNull (rs_json user)) "id" = JNum id →
    got (github_request "https://api.github.com/user/emails" (js_text text_of token)) emails →
    rs_json emails = Some (JArr l) → e ∈ l → js_truthy (js_field e "primary") = true → js_truthy (js_field e "verified") = true →
    js_field e "email" = JStr email → Str.truthy email = true →
    provider_vouches code verifier Github (mkVerified AGithub (text_of (JNum id)) email).

Lemma offered_spec provider p : offered env provider = Some p → provider = sso_name p ∧ p ∈ configuredProviders env.
Proof.
unfold offered. destruct (isSsoProvider provider) as [q|] eqn:Hq; [|done]. destruct (existsb _ _) eqn:He; [|done]. intros [= ->].
apply find_Some_elem in Hq as [_ Hq]. bool_hyps. split; [done|].
apply existsb_exists in He as (x & Hx & Hd). bool_hyps. subst x. by apply list_elem_of_In.
Qed.

Lemma truthy_text_or_empty v s : js_string_or_empty v = s → Str.truthy s = true → v = JStr s.
Proof. destruct v; cbn; intros <-; by cbn. Qed.

Lemma google_identity_inv claims now who : google_identity env claims now = Some who →
  ∃ iss exp sub email, js_field claims "iss" = JStr iss ∧ iss ∈ google_issuers ∧
    audience_is (js_field claims "aud") (env "GOOGLE_OAUTH_CLIENT_ID") = true ∧
    js_field claims "exp" = JNum exp ∧ num_le (Num.scale exp 1000) now = false ∧
    js_field claims "sub" = JStr sub ∧ Str.truthy sub = true ∧ js_field claims "email" = JStr email ∧ Str.truthy email = true ∧
    email_verified claims = true ∧ who = mkVerified AGoogle sub email.
Proof.
unfold google_identity. destruct (existsb _ _) eqn:Hiss; [|done]. destruct (audience_is _ _) eqn:Haud; [|done].
destruct (js_field claims "exp") as [| | |exp| | |] eqn:Hexp; try done. cbn [negb]. destruct (num_le _ _) eqn:Hnow; [done|].
destruct (negb _ || _ || _) eqn:E; [done|]. intros [= <-]. bool_hyps.
apply existsb_exists in Hiss as (i & Hi & Heq). bool_hyps. exists i, exp. do 2 eexists.
apply list_elem_of_In in Hi. split_and!; try reflexivity; try done.
- apply truthy_text_or_empty; [done|]. repeat (apply elem_of_cons in Hi as [->|Hi]; [done|]). by apply elem_of_nil in Hi.
- by apply truthy_text_or_empty.
- by apply truthy_text_or_empty.
Qed.

Lemma exchangeGoogle_vouched code verifier s who s' : Google ∈ configuredProviders env →
  exchangeGoogle env clock fetch json_parse code verifier s = (Ok (Some who), s') → provider_vouches code verifier Google who.
Proof.
intros Hp. unfold exchangeGoogle. intros (res & s1 & Hf & Hs)%M_bind_inv. destruct (rs_ok res) eqn:Hok; [|done]. cbn [negb] in Hs.
destruct (negb (js_truthy _)); [done|]. destruct (js_field (default JNull (rs_json res)) "id_token") as [| | | |jwt| |] eqn:Hid; try done.
destruct (decodeJwtPayload json_parse jwt) as [claims|] eqn:Hd; [|done]. apply M_bind_inv in Hs as (now & s2 & Hc & Hs).
injection Hs as Hs _. apply google_identity_inv in Hs as (iss & exp & sub & email & H1 & H2 & Haud & H4 & H5 & H6 & H7 & H8 & H9 & Hv & ->).
assert (∃ client, env "GOOGLE_OAUTH_CLIENT_ID" = Some client) as [client Hcl].
{ unfold configuredProviders, set_var, opt_set in Hp. destruct (env "GOOGLE_OAUTH_CLIENT_ID") as [c|]; [by exists c|exfalso].
  cbn in Hp. apply elem_of_app in Hp as [Hp|Hp]; case_match; repeat (apply elem_of_cons in Hp as [Hp|Hp]; [done|]); by apply elem_of_nil in Hp. }
rewrite Hcl in Haud. unfold audience_is in Haud. destruct (js_field claims "aud") eqn:Ha; try done. bool_hyps. subst.
eapply google_vouches; try eassumption; [split; eauto|by do 2 eexists|].
unfold email_verified in Hv. destruct (js_field claims "email_verified") as [| |[]| | | |]; try done; [by left|]. bool_hyps. subst. by right.
Qed.

Lemma primary_email_in l email : primary_email l = Ok (Some email) →
  ∃ e, e ∈ l ∧ js_truthy (js_field e "primary") = true ∧ js_truthy (js_field e "verified") = true ∧ js_field e "email" = JStr email.
Proof.
induction l as [|e l IH]; [done|]. cbn [primary_email].
assert (primary_email l = Ok (Some email) → ∃ e0, e0 ∈ e :: l ∧ js_truthy (js_field e0 "primary") = true ∧ js_truthy (js_field e0 "verified") = true ∧ js_field e0 "email" = JStr email) as Hl.
{ intros (e0 & H0 & Hr)%IH. exists e0. split; [by right|done]. }
destruct (js_get e "primary") as [primary|] eqn:Hg; [|done]. cbn.
assert (primary = js_field e "primary") as -> by (unfold js_get in Hg; destruct e; by simplify_eq/=).
destruct (js_truthy _ && js_truthy _) eqn:E; [|done]. bool_hyps. destruct (js_field e "email") as [| | | |s| |] eqn:Hs; try done. intros [= ->].
exists e. by repeat split; [left|..].
Qed.

Lemma exchangeGithub_vouched code verifier s who s' :
  exchangeGithub env fetch text_of code s = (Ok (Some who), s') → provider_vouches code verifier Github who.
Proof.
unfold exchangeGithub. intros (tokens & s1 & Hf1 & Hs)%M_bind_inv. destruct (rs_ok tokens) eqn:H1; [|done]. cbn [negb] in Hs.
destruct (negb (js_truthy _)); [done|]. apply M_bind_inv in Hs as (user & s2 & Hf2 & Hs). destruct (rs_ok user) eqn:H2; [|done]. cbn [negb] in Hs.
destruct (js_field (default JNull (rs_json user)) "id") as [| | |id| | |] eqn:Hid; try done.
apply M_bind_inv in Hs as (emails & s3 & Hf3 & Hs). destruct (rs_ok emails) eqn:H3; [|done]. cbn [negb] in Hs.
destruct (rs_json emails) as [[| | | | |l|]|] eqn:Hj; try done. apply M_bind_inv in Hs as (primary & s4 & Hp & Hs).
unfold lift in Hp. injection Hp as Hp _. destruct primary as [email|]; [|done]. destruct (Str.truthy email) eqn:He; [|done]. injection Hs as <- _.
apply primary_email_in in Hp as (e & Hin & ? & ? & ?). eapply (github_vouches code verifier tokens _ user id emails l e email); try done; split; eauto.
Qed.

(** An identity comes out of the exchange only when the provider vouched for it. *)
Lemma exchangeCode_vouched p code verifier s who s' : p ∈ configuredProviders env →
  exchangeCode env clock fetch json_parse text_of p code verifier s = (Ok (Some who), s') → provider_vouches code verifier p who.
Proof. destruct p; cbn [exchangeCode]; intros Hp Hs; [by eapply exchangeGoogle_vouched|by eapply exchangeGithub_vouched|done]. Qed.

Lemma vouches_provider code verifier p who : provider_vouches code verifier p who → vi_provider who = sso_auth p.
Proof. by destruct 1. Qed.
End vouching.

(** ** The round trip *)
Section round_trip.
Context {W : Type} `{AuthStoreOk W (steps auth_step)}.
Context (env : string → option string) (digest : string → list ascii) (random : nat → M W string (list ascii)) (clock : M W string Z).
Context (fetch : HttpRequest → M W string HttpResponse) (json_parse : string → option js) (text_of : js → string).
Context (resolve_url : string → string → option Url) (getSetting : string → M W string (option string)).
Hypothesis random_reached : ∀ n d0, preserves (reached d0) (random n).
Hypothesis clock_reached : ∀ d0, preserves (reached d0) clock.
Hypothesis fetch_reached : ∀ rq d0, preserves (reached d0) (fetch rq).
Hypothesis setting_reached : ∀ k d0, preserves (reached d0) (getSetting k).

Abbreviation begin_ := (beginSso env digest random clock resolve_url).
Abbreviation finish_ := (finishSso env digest random clock fetch json_parse text_of getSetting).
Abbreviation exchange_ := (exchangeCode env clock fetch json_parse text_of).

Ltac handler := repeat first [progress preserve | apply random_reached | apply clock_reached | apply fetch_reached | apply setting_reached | auth_op
  | apply upsert_reached; apply random_reached | apply startSession_reached; apply random_reached].

Lemma exchange_reached p code verifier d0 : preserves (reached d0) (exchange_ p code verifier).
Proof. destruct p; cbn [exchangeCode]; unfold exchangeGoogle, exchangeGithub; cbv zeta; handler. Qed.
Lemma finish_reached provider param d0 : preserves (reached d0) (finish_ provider param).
Proof. unfold finishSso. handler. all: try apply exchange_reached. Qed.
Lemma begin_reached provider param d0 : preserves (reached d0) (begin_ provider param).
Proof. unfold beginSso, authorizeUrl. cbv zeta. handler. Qed.

(** Where a begun sign-in sends the browser. *)
Definition authorize_location (p : SsoProvider) (state : string) (verifier : option string) : string :=
  match p with Google => google_authorize env digest state (default "" verifier) | _ => github_authorize env state end.
Lemma begin_writes_state provider param s0 s0' bytes r s1 :
  random 32 s0 = (Ok bytes, s0') → NoDup (oa_state <$> ad_states (auth_tables s0)) → begin_ provider param s0 = (Ok r, s1) → hr_status r = 302 →
  ∃ p verifier t0, offered env provider = Some p ∧ clock_read clock t0 ∧ r = redirect_response (authorize_location p (randomToken bytes) verifier) [] ∧
    state_row (randomToken bytes) (auth_tables s1)
      (mkOAuthState (randomToken bytes) provider verifier (safeSameOriginRedirectPath env resolve_url (param "redirect_to")) (Date.to_iso (t0 + STATE_TTL_MS)) None).
Proof.
intros Hr Hn Hs Hst. unfold beginSso in Hs. destruct (offered env provider) as [p|]; [|by injection Hs as <- _]. cbv zeta in Hs.
apply M_bind_inv in Hs as ([[url state] verifier] & s2 & Hu & Hs).
assert (state = randomToken bytes ∧ url = authorize_location p state verifier ∧ steps auth_step (auth_tables s0) (auth_tables s2)) as (-> & -> & Hm).
{ unfold authorizeUrl in Hu. split; [|split].
  - rewrite (M_bind_ok _ _ _ _ _ Hr) in Hu. destruct p; [|by injection Hu|done]. apply M_bind_inv in Hu as (b2 & s3 & _ & Hu). by injection Hu.
  - rewrite (M_bind_ok _ _ _ _ _ Hr) in Hu. destruct p; [|by injection Hu as <- <- <-|done]. apply M_bind_inv in Hu as (b2 & s3 & _ & Hu). by injection Hu as <- <- <-.
  - eapply reached_by; [|exact Hu]. intros d0. handler. }
apply M_bind_inv in Hs as (t0 & s3 & Hc & Hs). apply M_bind_inv in Hs as (x & s4 & Hx & Hs). unfold lift, iso in Hx.
destruct (Date.valid _); [|done]. injection Hx as <- <-. apply M_bind_inv in Hs as ([] & s5 & Hw & Hs). injection Hs as <- <-.
exists p, verifier, t0. split_and!; [done|by do 2 eexists|done|].
apply (runs_ok _ _ _ _ _ _ _ (create_state_runs _)) in Hw as (mid & dt & Hm2 & Hw). unfold d1_createOAuthState in Hw.
destruct (existsb _ _) eqn:He; [done|]. injection Hw as Hw. rewrite <- Hw. cbn.
assert (NoDup (oa_state <$> ad_states mid)) as Hn'.
{ eapply evolves_NoDup; [|exact Hn]. apply ev_states, auth_steps_evolve. etrans; [exact Hm|]. etrans; [|exact Hm2].
  eapply reached_by; [|exact Hc]. intros; apply clock_reached. }
apply (kept_row_snoc oa_state state_kept _ (mkOAuthState _ provider verifier _ _ None)); [exact Hn'|].
eapply (free_key oa_state); [exact He|]. intros y Hy. unfold state_is. by rewrite Hy, String.eqb_refl.
Qed.

Lemma startSession_bytes account t s token maxAge s' :
  startSession digest random account t s = (Ok (token, maxAge), s') → ∃ bytes s1, random 32 s = (Ok bytes, s1).
Proof. unfold startSession. intros (bytes & s1 & Hb & _)%M_bind_inv. by exists bytes, s1. Qed.

Lemma cookie_of_redirect path c : cookie_set (redirectTo env path [("set-cookie", c)]) = Some c.
Proof. done. Qed.

(** A callback that starts a session, step by step. *)
Record signed_in (provider : string) (param : string → option string) (s : W) (r : http_reply) (s' : W) : Prop := mkSignedIn {
  si_run : ∃ p code state t sa mid row who sb sc sd signups account created se t' sf token maxAge,
    offered env provider = Some p ∧ param "code" = Some code ∧ param "state" = Some state ∧ clock s = (Ok t, sa) ∧
    steps auth_step (auth_tables s) mid ∧ List.find (state_open state (Date.to_iso t)) (ad_states mid) = Some row ∧ oa_provider row = provider ∧
    steps auth_step (exec (d1_consumeOAuthState state (Date.to_iso t)) mid) (auth_tables s') ∧
    exchange_ p code (oa_verifier row) sb = (Ok (Some who), sc) ∧ getSetting "signups_enabled" sc = (Ok signups, sd) ∧
    steps auth_step (exec (d1_consumeOAuthState state (Date.to_iso t)) mid) (auth_tables sd) ∧
    upsertAccountForVerifiedEmail random (vi_provider who) (vi_subject who) (vi_email who) (settingEnabled signups) sd = (Ok (UpOk account created), se) ∧
    steps auth_step (auth_tables se) (auth_tables sf) ∧ startSession digest random (ac_id account) t' sf = (Ok (token, maxAge), s') ∧
    r = redirectTo env (default "/" (oa_redirect_to row)) [("set-cookie", sessionCookie token maxAge (host_domain env))] }.

Lemma finish_signed_in provider param s r s' cookie :
  finish_ provider param s = (Ok r, s') → cookie_set r = Some cookie → signed_in provider param s r s'.
Proof.
intros Hs Hc. unfold finishSso in Hs. destruct (offered env provider) as [p|] eqn:Hp; [|by injection Hs as <- _].
destruct (param "code") as [code|] eqn:Hcode; [|by injection Hs as <- _]. destruct (param "state") as [state|] eqn:Hstate; [|by injection Hs as <- _].
destruct (_ || _); [by injection Hs as <- _|]. apply M_bind_inv in Hs as (t & sa & Ht & Hs). apply M_bind_inv in Hs as (x & s1 & Hx & Hs).
unfold lift, iso in Hx. destruct (Date.valid t); [|done]. injection Hx as <- <-. apply M_bind_inv in Hs as (found & s2 & Hf & Hs).
apply (runs_ok _ _ _ _ _ _ _ (consume_state_runs _ _)) in Hf as (mid & dt & Hm & Hf). unfold d1_consumeOAuthState in Hf. injection Hf as Hf Hd.
destruct (List.find (state_open state (Date.to_iso t)) (ad_states mid)) as [row|] eqn:Hrow; cbn in Hf; subst found; [|by injection Hs as <- _].
cbn [state_spent oa_provider oa_verifier oa_redirect_to] in Hs. destruct (negb _) eqn:Hpr; [by injection Hs as <- _|]. bool_hyps.
assert (steps auth_step (auth_tables s) mid) as Hm1 by (etrans; [eapply reached_by; [|exact Ht]; intros; apply clock_reached|done]).
assert (steps auth_step mid (auth_tables s2)) as Hm2.
{ apply steps_one. rewrite <- Hd. exact (step_consumeState state (Date.to_iso t) mid). }
apply M_bind_inv in Hs as (identity & s3 & He & Hs). destruct identity as [who|]; [|by injection Hs as <- _].
assert (steps auth_step (auth_tables s2) (auth_tables s3)) as Hm3 by (eapply reached_by; [|exact He]; intros; apply exchange_reached).
apply M_bind_inv in Hs as (signups & sd & Hg & Hs).
assert (steps auth_step (auth_tables s3) (auth_tables sd)) as Hm4 by (eapply reached_by; [|exact Hg]; intros; apply setting_reached).
apply M_bind_inv in Hs as (result & se & Hu & Hs).
assert (steps auth_step (auth_tables sd) (auth_tables se)) as Hm5 by (eapply reached_by; [|exact Hu]; intros; apply upsert_reached; apply random_reached).
destruct result as [account created| |]; [|by injection Hs as <- _..]. apply M_bind_inv in Hs as (t' & sf & Ht' & Hs).
assert (steps auth_step (auth_tables se) (auth_tables sf)) as Hm6 by (eapply reached_by; [|exact Ht']; intros; apply clock_reached).
apply M_bind_inv in Hs as ([token maxAge] & sg & Hss & Hs). injection Hs as <- <-.
assert (steps auth_step (auth_tables sf) (auth_tables sg)) as Hm7 by (eapply reached_by; [|exact Hss]; intros; apply startSession_reached; apply random_reached).
split. exists p, code, state, t, sa, mid, row, who, s2, s3, sd, signups, account, created, se, t', sf, token, maxAge.
split_and!; try done.
- unfold exec, d1_consumeOAuthState. cbn [snd]. rewrite Hd. chain.
- unfold exec, d1_consumeOAuthState. cbn [snd]. rewrite Hd. chain.
Qed.

(** C29. A callback signs in only whom the provider vouched for.  Whatever else runs meanwhile, a callback
    that sets a session cookie was handed a code and a state.  At its statement the state's row is in the
    table, names this provider, is not consumed and has not expired, and the callback consumes it.  The
    provider answered the exchange of this very code, with the verifier kept in that row, with an address
    it asserts as verified (for Google in a token addressed to this client, from its issuer and not
    expired).  Only then are the links read: the account is the row in the table that the provider's
    subject is linked to there, or, where it is linked to none, the row that has the asserted address (a
    row it makes only while sign-ups are open), and it is neither suspended nor deleted.  The session
    opened after it, whose token is the cookie, is that account's. *)
Theorem callback_signs_in_only_the_vouched provider param s r s' cookie :
  NoDup (se_hash <$> ad_sessions (auth_tables s)) →
  finish_ provider param s = (Ok r, s') → cookie_set r = Some cookie →
  ∃ p code state t sa opened row who signups links accounts account created token (ends : Z),
    offered env provider = Some p ∧ param "code" = Some code ∧ param "state" = Some state ∧ clock s = (Ok t, sa) ∧
    (steps auth_step (auth_tables s) opened ∧ row ∈ ad_states opened ∧ oa_state row = state ∧ oa_provider row = provider ∧
     oa_consumed_at row = None ∧ (Date.to_iso t <s? oa_expires_at row) = true) ∧
    provider_vouches env clock fetch json_parse text_of code (oa_verifier row) p who ∧
    (steps auth_step (exec (d1_consumeOAuthState state (Date.to_iso t)) opened) links ∧ steps auth_step links accounts ∧
     steps auth_step accounts (auth_tables s')) ∧
    (account ∈ ad_accounts accounts ∧ usable account ∧
     (if is_set (linked_to (sso_auth p) (vi_subject who) links) then linked_to (sso_auth p) (vi_subject who) links = Some (ac_id account)
      else ac_email account = normalizeEmail (vi_email who)) ∧
     (created = true → (∃ sb sc, getSetting "signups_enabled" sb = (Ok signups, sc)) ∧ settingEnabled signups = true)) ∧
    cookie = sessionCookie token 2592000 (host_domain env) ∧
    session_row (sha256Hex digest token) (auth_tables s') (mkSession (sha256Hex digest token) (ac_id account) (Date.to_iso ends) None).
Proof.
intros Hn Hs Hc. pose proof (finish_signed_in _ _ _ _ _ _ Hs Hc) as
  [(p & code & state & t & sa & mid & row & who & sb & sc & sd & signups & account & created & se & t' & sf & token & maxAge &
    Hp & Hcode & Hstate & Ht & Hm & Hrow & Hpr & _ & He & Hg & Hsd & Hu & Hsf & Hss & ->)].
rewrite cookie_of_redirect in Hc. injection Hc as <-.
apply find_Some_elem in Hrow as [Hin Ho]. unfold state_open, state_is in Ho. bool_hyps.
pose proof (offered_spec _ _ _ Hp) as [_ Hconf]. pose proof (exchangeCode_vouched _ _ _ _ _ _ _ _ _ _ _ Hconf He) as Hv.
destruct (sign_in_account random random_reached _ _ _ _ _ _ _ _ Hu) as (links & accounts & Hl1 & Hl2 & Hl3 & Hacc & Hus & Hcr & Hid).
rewrite (vouches_provider _ _ _ _ _ _ _ _ _ Hv) in Hid.
assert (steps auth_step (auth_tables s) (auth_tables sf)) as Hsf'.
{ etrans; [exact Hm|]. etrans; [apply steps_one, (step_consumeState state (Date.to_iso t))|]. etrans; [exact Hsd|]. etrans; [exact Hl1|].
  etrans; [exact Hl2|]. by etrans. }
assert (NoDup (se_hash <$> ad_sessions (auth_tables sf))) as Hn'.
{ eapply evolves_NoDup; [|exact Hn]. by apply ev_sessions, auth_steps_evolve. }
destruct (startSession_bytes _ _ _ _ _ _ Hss) as (bytes & sg & Hb).
destruct (start_writes_session digest random random_reached _ _ _ _ _ _ _ _ Hb Hn' Hss) as (_ & -> & Hses).
exists p, code, state, t, sa, mid, row, who, signups, links, accounts, account, created, token. eexists.
split_and!; try done; [by destruct (oa_consumed_at row)|by etrans| |intros Hc; split; [by exists sc, sd|by apply Hcr]].
etrans; [exact Hl3|]. etrans; [exact Hsf|]. eapply reached_by; [|exact Hss]. intros; apply startSession_reached; apply random_reached.
Qed.

Lemma safe_path raw path :
  (∀ raw base u, resolve_url raw base = Some u → starts_with "https://" (u_origin u) = true → starts_with "/" (u_pathname u) = true) →
  safeSameOriginRedirectPath env resolve_url raw = Some path → starts_with "/" path = true.
Proof.
intros Hu. unfold safeSameOriginRedirectPath. destruct raw as [raw|]; [|done]. destruct (negb _); [done|]. destruct (_ || _ || _); [done|].
destruct (resolve_url raw (publicOrigin env)) as [u|] eqn:Hr; [|done]. destruct (negb _) eqn:Ho; [done|]. bool_hyps. intros [= <-].
assert (starts_with "/" (u_pathname u) = true) as (rest & ->)%starts_with_spec by (eapply Hu; [exact Hr|]; rewrite Ho; apply starts_with_spec; by eexists).
apply starts_with_spec. exists (rest +:+ u_search u +:+ u_hash u). by rewrite append_assoc.
Qed.

(** A sign-in begun here ends here, once, within ten minutes, with what it began with.  Take a redirect
    this plane sent a browser away with: it names a provider, and for Google the challenge of a
    verifier that is kept beside the state.  Whatever else runs, the callback that comes back with its
    state starts a session only at the same provider, only before ten minutes have passed, only after an
    exchange made with that very verifier, and sends the browser to the path asked for at the start,
    under the plane's own origin; and afterwards no callback with this state ever starts a session. *)
Theorem begun_sign_in_ends_once provider param0 s0 s0' bytes r0 s1 :
  (∀ raw base u, resolve_url raw base = Some u → starts_with "https://" (u_origin u) = true → starts_with "/" (u_pathname u) = true) →
  random 32 s0 = (Ok bytes, s0') → NoDup (oa_state <$> ad_states (auth_tables s0)) →
  begin_ provider param0 s0 = (Ok r0, s1) → hr_status r0 = 302 →
  ∃ p verifier t0, offered env provider = Some p ∧ clock_read clock t0 ∧
    r0 = redirect_response (authorize_location p (randomToken bytes) verifier) [] ∧
    ∀ s2 provider' param r cookie s3, steps auth_step (auth_tables s1) (auth_tables s2) → param "state" = Some (randomToken bytes) →
      finish_ provider' param s2 = (Ok r, s3) → cookie_set r = Some cookie →
      provider' = provider ∧
      (∃ t s2', clock s2 = (Ok t, s2') ∧ (four_digit_year t → four_digit_year (t0 + STATE_TTL_MS) → t < t0 + STATE_TTL_MS)) ∧
      (∃ code sb who sc, param "code" = Some code ∧ exchange_ p code verifier sb = (Ok (Some who), sc)) ∧
      (∃ path, r = redirectTo env path [("set-cookie", cookie)] ∧ starts_with "/" path = true ∧
        path = default "/" (safeSameOriginRedirectPath env resolve_url (param0 "redirect_to"))) ∧
      ∀ s4 provider'' param' r' s5, steps auth_step (auth_tables s3) (auth_tables s4) → param' "state" = Some (randomToken bytes) →
        finish_ provider'' param' s4 = (Ok r', s5) → cookie_set r' = None.
Proof.
intros Hurl Hr Hn Hb H302. destruct (begin_writes_state _ _ _ _ _ _ _ Hr Hn Hb H302) as (p & verifier & t0 & Hp & Ht0 & -> & Hrow).
exists p, verifier, t0. repeat (split; [done|]). intros s2 provider' param r cookie s3 H12 Hst Hs Hc.
destruct (finish_signed_in _ _ _ _ _ _ Hs Hc) as
  [(p' & code & state & t & sa & mid & row & who & sb & sc & sd & allow & account & created & se & t' & sf & token & maxAge &
    Hp' & Hcode & Hstate & Ht & Hm & Hfound & Hpr & Hafter & He & _ & _ & _ & _ & _ & ->)].
assert (state = randomToken bytes) as -> by congruence.
apply (state_row_steps _ _ _ _ H12), (state_row_steps _ _ _ _ Hm) in Hrow.
destruct (find_state_row _ _ _ _ _ Hrow Hfound) as ((Hkp & Hkv & Hkr & _) & _ & Hlt). cbn in Hkp, Hkv, Hkr, Hlt.
assert (provider' = provider) as -> by congruence. assert (p' = p) as -> by congruence.
split; [done|]. split.
{ exists t, sa. split; [done|]. intros Hy1 Hy2. rewrite iso_ltb in Hlt by done. by bool_hyps. }
split; [exists code, sb, who, sc; split; [done|by rewrite Hkv]|]. split.
{ exists (default "/" (oa_redirect_to row)). rewrite cookie_of_redirect in Hc. injection Hc as <-. split; [done|]. rewrite <- Hkr. split; [|done].
  destruct (safeSameOriginRedirectPath env resolve_url (param0 "redirect_to")) as [path|] eqn:Hsafe; [|done]. by eapply safe_path. }
intros s4 provider'' param' r' s5 H34 Hst' Hs'. destruct (cookie_set r') as [cookie'|] eqn:Hc'; [exfalso|done].
destruct (finish_signed_in _ _ _ _ _ _ Hs' Hc') as
  [(q & code' & state' & u & sa' & mid' & row' & who' & sb' & sc' & sd' & allow' & account' & created' & se' & u' & sf' & token' & maxAge' &
    _ & _ & Hstate' & _ & Hm' & Hfound' & _)].
assert (state' = randomToken bytes) as -> by congruence.
apply (consumed_state _ _ _ _ (proj1 Hrow)), (state_row_steps _ _ _ _ Hafter), (state_row_steps _ _ _ _ H34), (state_row_steps _ _ _ _ Hm') in Hfound as Hspent.
by destruct (find_state_row _ _ _ _ _ Hspent Hfound') as (_ & Hnone & _).
Qed.

(** ** The mail door *)
Context (send : string → string → string → M W string unit) (limit : option (string → M W string bool)).

(** The mail door tells nobody whether an account exists.  Whatever is asked, a door that answers
    answers the same thing; and a link is mailed only to an address that looks like one, past the
    limiter, whose account is neither suspended nor deleted, or that has none while sign-ups are open.
    Without a limiter nothing is mailed where a send door is configured. *)
Theorem mail_door_tells_nothing body s r mail s' :
  emailStart env digest random clock text_of getSetting send limit body s = (Ok (r, mail), s') →
  r = accepted ∧
  ∀ job, mail = Some job → ∃ email now s1 s2 signups,
    looksLikeEmail email = true ∧ job = catch (sendMagicLink digest random send (publicOrigin env) email now) (λ _, mret tt) ∧
    match limit with
    | Some ask => ask ("email-start:" +:+ email) s = (Ok true, s1)
    | None => set_var env "POSTERN_SEND_URL" && set_var env "POSTERN_SEND_TOKEN" = false
    end ∧
    getSetting "signups_enabled" s1 = (Ok signups, s2) ∧
    ∃ mid, steps auth_step (auth_tables s2) mid ∧
      match List.find (account_email email) (ad_accounts mid) with
      | Some a => usable a
      | None => settingEnabled signups = true
      end.
Proof.
unfold emailStart. cbv zeta. set (email := normalizeEmail _). destruct (looksLikeEmail email) eqn:Hl; cbn [negb]; [|by intros [= <- <- _]].
intros (passed & s1 & Hd & Hs)%M_bind_inv. destruct passed; cbn [negb] in Hs; [|by injection Hs as <- <- _].
apply M_bind_inv in Hs as (signups & s2 & Hg & Hs). apply M_bind_inv in Hs as (existing & s3 & Ha & Hs).
apply (runs_ok _ _ _ _ _ _ _ (account_by_email_runs _)) in Ha as (mid & dt & Hm & Ha). injection Ha as Ha _.
assert (match limit with
    | Some ask => ask ("email-start:" +:+ email) s = (Ok true, s1)
    | None => set_var env "POSTERN_SEND_URL" && set_var env "POSTERN_SEND_TOKEN" = false
    end) as Hdoor by (unfold send_door in Hd; destruct limit; [done|]; injection Hd as Hd _; by bool_hyps).
assert (∃ now, r = accepted ∧ (mail = None ∨ mail = Some (catch (sendMagicLink digest random send (publicOrigin env) email now) (λ _, mret tt)) ∧
  match existing with Some a => usable a | None => settingEnabled signups = true end)) as (now & -> & Hj).
{ destruct existing as [a|].
  - destruct (_ || _) eqn:E; [injection Hs as <- <- _; exists 0; by auto|]. apply M_bind_inv in Hs as (now & s4 & _ & Hs). injection Hs as <- <- _.
    exists now. split; [done|]. right. split; [done|]. bool_hyps. split; [done|].
    apply find_Some_elem in Ha as [_ Hk]. unfold account_email in Hk. bool_hyps. by destruct (ac_deleted_at a).
  - destruct (negb _) eqn:E; [injection Hs as <- <- _; exists 0; by auto|]. apply M_bind_inv in Hs as (now & s4 & _ & Hs). injection Hs as <- <- _.
    bool_hyps. exists now. by auto. }
split; [done|]. intros job ->. destruct Hj as [|[[= ->] Hok]]; [done|].
exists email, now, s1, s2, signups. split_and!; try done. exists mid. split; [done|]. by rewrite Ha.
Qed.
End round_trip.
