(* ===== verification/ApiToken.v ===== *)
(** * A tenant's programmatic studio token (src/tenant-api-token.ts, and the api-token routes of
      src/index.ts)

    The credential is a row of the table [api_tokens] in the tenant's own studio database; the plane
    keeps only the instant of the last rotation.  [token_world] is what the four statements run on: the
    studios' databases by id, and the tenants' rows.  The client of the databases is an interface: an
    operation that answers ran its statement, one that throws may have. *)

From S2P Require Export Sso.
From Stdlib Require Import Ascii.
Open Scope string_scope.
Open Scope list_scope.
Open Scope Z_scope.
Open Scope plane_scope.

Definition PROGRAMMATIC_TOKEN_NAME : string := "programmatic".
Definition STUDIO_OPERATOR_SECRET : string := "STUDIO_API_TOKEN".
Definition SELECT_LIVE_TOKEN : string := "SELECT name, created_at FROM api_tokens WHERE name = ? AND revoked_at IS NULL;".
Definition SELECT_TOKEN : string := "SELECT name FROM api_tokens WHERE name = ?;".
Definition UPSERT_TOKEN : string :=
  "INSERT INTO api_tokens (name, token_hash, created_at, revoked_at) VALUES (?, ?, datetime('now'), NULL) " +:+
  "ON CONFLICT(name) DO UPDATE SET token_hash = excluded.token_hash, created_at = datetime('now'), revoked_at = NULL;".
Definition REVOKE_TOKEN : string := "UPDATE api_tokens SET revoked_at = datetime('now') WHERE name = ?;".

(** ** The studio's table, and what the four statements do to it *)
Record TokenRow := mkTokenRow { tk_name : string; tk_hash : string; tk_created_at : string; tk_revoked_at : option string }.
Definition named (name : string) (r : TokenRow) : bool := tk_name r =s? name.
Definition acting (r : TokenRow) : bool := is_null (tk_revoked_at r).
Definition upsert_token (dt name hash : string) (T : list TokenRow) : list TokenRow :=
  if existsb (named name) T then update_where (named name) (λ r, mkTokenRow (tk_name r) hash dt None) T
  else T ++ [mkTokenRow name hash dt None].
Definition revoke_token (dt name : string) (T : list TokenRow) : list TokenRow :=
  update_where (named name) (λ r, mkTokenRow (tk_name r) (tk_hash r) (tk_created_at r) (Some dt)) T.
Definition d1_result (rows : list js) : js := JArr [JObj [("results", JArr rows); ("success", JBool true)]].
Definition studio_sql (dt sql : string) (params : list js) : M (list TokenRow) string js := λ T,
  match params with
  | [JStr name] =>
      if sql =s? SELECT_LIVE_TOKEN then
        (Ok (d1_result ((λ r, JObj [("name", JStr (tk_name r)); ("created_at", JStr (tk_created_at r))]) <$> jfilter (λ r, named name r && acting r) T)), T)
      else if sql =s? SELECT_TOKEN then (Ok (d1_result ((λ r, JObj [("name", JStr (tk_name r))]) <$> jfilter (named name) T)), T)
      else if sql =s? REVOKE_TOKEN then (Ok (d1_result []), revoke_token dt name T)
      else (Err "SQLITE_ERROR", T)
  | [JStr name; JStr hash] => if sql =s? UPSERT_TOKEN then (Ok (d1_result []), upsert_token dt name hash T) else (Err "SQLITE_ERROR", T)
  | _ => (Err "SQLITE_ERROR", T)
  end.

Record token_world := mkTokenWorld { tw_studios : string → list TokenRow; tw_tenants : list Tenant }.
Definition on_studio {A} (db : string) (m : M (list TokenRow) string A) : M token_world string A := λ w,
  ((m (tw_studios w db)).1,
   mkTokenWorld (λ d, if d =s? db then (m (tw_studios w db)).2 else tw_studios w d) (tw_tenants w)).
Definition d1_setApiTokenRotatedAt (dt id : string) : M token_world string unit := λ w,
  (Ok tt, mkTokenWorld (tw_studios w) (update_where (λ t, t_id t =s? id) (set_api_token_rotated_at (Some dt)) (tw_tenants w))).

(** ** What the operations need *)
Class TokenDoor (W : Type) := {
  token_view : W → token_world;
  queryD1 : string → string → list js → M W string js;
  getScriptSecretNames : string → string → M W string (list string);
  setApiTokenRotatedAt : string → M W string unit;
}.
(** What anybody may do to the view: any of the statements on any studio, and the stamp. *)
Inductive door_step : token_world → token_world → Prop :=
| step_studio_sql db dt sql params w : door_step w (exec (on_studio db (studio_sql dt sql params)) w)
| step_rotated dt id w : door_step w (exec (d1_setApiTokenRotatedAt dt id) w).
#[export] Instance token_steps_preorder : PreOrder (steps door_step).
Proof. split; [intros s; constructor|intros s t u; apply steps_trans]. Qed.
Class TokenDoorOk (W : Type) `{TokenDoor W} : Prop := {
  query_runs db sql params : runs_as (steps door_step) token_view (queryD1 db sql params) (λ dt, on_studio db (studio_sql dt sql params));
  rotated_runs id : runs_as (steps door_step) token_view (setApiTokenRotatedAt id) (λ dt, d1_setApiTokenRotatedAt dt id);
  secrets_keep ns script s : steps door_step (token_view s) (token_view (exec (getScriptSecretNames ns script) s));
}.

(** ** The operations *)
Inductive ApiTokenRefusal := TenantNotLive | NotProvisioned | TenantUnreachable.
#[export] Instance ApiTokenRefusal_eq_dec : EqDecision ApiTokenRefusal.
Proof. solve_decision. Defined.
Definition refusal_text (r : ApiTokenRefusal) : string :=
  match r with TenantNotLive => "tenant_not_live" | NotProvisioned => "not_provisioned" | TenantUnreachable => "tenant_unreachable" end.
(** An [ApiTokenError], or anything else that was thrown. *)
Inductive token_error := ApiTokenError (code : ApiTokenRefusal) (message : string) | OtherError (message : string).
Record ApiTokenState := mkApiTokenState {
  ts_configured : bool; ts_name : option string; ts_created_at : option string; ts_last_rotated_at : option string;
}.
Record MintedApiToken := mkMintedApiToken { mt_token : string; mt_name : string; mt_created_at : string }.

(** The rows of every result of an answer. *)
Definition rowsOf (raw : js) : list js :=
  match raw with JArr l => concat ((λ e, match js_field e "results" with JArr rows => rows | _ => [] end) <$> l) | _ => [] end.

Section operations.
Context {W : Type} `{TokenDoor W}.
Variable digest : string → list ascii.
Variable random : nat → M W string (list ascii).
Variable text_of : js → string.
Variable namespace : string.

Definition require_live (tenant : Tenant) : result token_error (string * string) :=
  if negb (t_status tenant =s? "live") then Err (ApiTokenError TenantNotLive "tenant_not_live")
  else match t_d1_database_id tenant, t_script_name tenant with
  | Some db, Some script =>
      if negb (Str.truthy db) || negb (Str.truthy script) then Err (ApiTokenError NotProvisioned "not_provisioned") else Ok (db, script)
  | _, _ => Err (ApiTokenError NotProvisioned "not_provisioned")
  end.
Definition requireUsableTenant (tenant : Tenant) : M W token_error string :=
  '(db, script) ← lift (require_live tenant);
  secrets ← map_err (ApiTokenError TenantUnreachable) (getScriptSecretNames namespace script);
  if negb (existsb (String.eqb STUDIO_OPERATOR_SECRET) secrets) then
    throw (ApiTokenError NotProvisioned ("tenant studio has no " +:+ STUDIO_OPERATOR_SECRET +:+ "; a named token would be refused by its own gate"))
  else mret db.
Definition token_query (db sql : string) (params : list js) : M W token_error js :=
  map_err (ApiTokenError TenantUnreachable) (queryD1 db sql params).
Definition token_text (v : js) : string := js_text text_of v.

(** The state of the row found, for a tenant whose last rotation is known. *)
Definition token_state (tenant : Tenant) (rows : list js) : ApiTokenState :=
  match rows with
  | row :: _ =>
      if js_truthy row then
        mkApiTokenState true (Some (token_text (js_field row "name")))
          (match js_field row "created_at" with JUndef | JNull => None | v => Some (token_text v) end) (t_api_token_rotated_at tenant)
      else mkApiTokenState false None None None
  | [] => mkApiTokenState false None None None
  end.
Definition readTenantApiToken (tenant : Tenant) : M W token_error ApiTokenState :=
  db ← requireUsableTenant tenant;
  raw ← token_query db SELECT_LIVE_TOKEN [JStr PROGRAMMATIC_TOKEN_NAME];
  mret (token_state tenant (rowsOf raw)).
Definition issueTenantApiToken (tenant : Tenant) : M W token_error MintedApiToken :=
  db ← requireUsableTenant tenant;
  raw ← token_query db SELECT_TOKEN [JStr PROGRAMMATIC_TOKEN_NAME];
  let isRotation := (0 <? length (rowsOf raw))%nat in
  bytes ← map_err OtherError (random 32);
  let token := randomToken bytes in
  _ ← token_query db UPSERT_TOKEN [JStr PROGRAMMATIC_TOKEN_NAME; JStr (sha256Hex digest token)];
  _ ← (if isRotation then map_err OtherError (setApiTokenRotatedAt (t_id tenant)) else mret tt);
  state ← readTenantApiToken tenant;
  mret (mkMintedApiToken token PROGRAMMATIC_TOKEN_NAME (default "" (ts_created_at state))).
Definition revokeTenantApiToken (tenant : Tenant) : M W token_error unit :=
  db ← requireUsableTenant tenant;
  _ ← token_query db REVOKE_TOKEN [JStr PROGRAMMATIC_TOKEN_NAME];
  mret tt.

(** ** The routes *)
Definition token_failure (e : token_error) : M W string http_reply :=
  match e with
  | ApiTokenError code _ => mret (err_response (refusal_text code) (if bool_decide (code = TenantUnreachable) then 503 else 409) [])
  | OtherError message => throw message
  end.
Definition token_answer {A} (m : M W token_error A) (reply : A → http_reply) : M W string http_reply := λ s,
  match m s with
  | (Ok a, s') => (Ok (reply a), s')
  | (Err e, s') => token_failure e s'
  end.
Definition jtext (s : option string) : js := match s with Some s => JStr s | None => JNull end.
Definition state_body (st : ApiTokenState) : list (string * js) :=
  [("configured", JBool (ts_configured st)); ("name", jtext (ts_name st)); ("created_at", jtext (ts_created_at st));
   ("last_rotated_at", jtext (ts_last_rotated_at st))].
Definition minted_body (m : MintedApiToken) : list (string * js) :=
  [("token", JStr (mt_token m)); ("name", JStr (mt_name m)); ("created_at", JStr (mt_created_at m))].
(** [provisioned] is whether this deployment has a provisioner. *)
Definition apiTokenRoute (provisioned : bool) (method : string) (tenant : Tenant) : M W string http_reply :=
  if negb provisioned then mret (err_response "provisioner_unconfigured" 503 [])
  else if method =s? "GET" then token_answer (readTenantApiToken tenant) (λ st, json_response (state_body st) 200)
  else if method =s? "POST" then token_answer (issueTenantApiToken tenant) (λ m, json_response (minted_body m) 201)
  else if method =s? "DELETE" then token_answer (revokeTenantApiToken tenant) (λ _, json_response [("configured", JBool false)] 200)
  else mret (err_response "method_not_allowed" 405 []).
End operations.

(** ** Lemmas *)
Section tables.
Implicit Types (T : list TokenRow) (w : token_world) (name : string).

Definition names_unique w : Prop := ∀ db, NoDup (tk_name <$> tw_studios w db).
Definition programmatic T : list TokenRow := jfilter (named PROGRAMMATIC_TOKEN_NAME) T.
Definition others_rows T : list TokenRow := jfilter (λ r, negb (named PROGRAMMATIC_TOKEN_NAME r)) T.
(** Some programmatic credential acts at the studio's gate. *)
Definition token_acts T : bool := existsb (λ r, named PROGRAMMATIC_TOKEN_NAME r && acting r) T.

Lemma named_column dt h name T :
  tk_name <$> update_where (named name) (λ r, mkTokenRow (tk_name r) h dt None) T = tk_name <$> T.
Proof. by apply update_where_column. Qed.

Lemma studio_sql_names dt sql params T : NoDup (tk_name <$> T) → NoDup (tk_name <$> (studio_sql dt sql params T).2).
Proof.
intros Hn. unfold studio_sql. repeat case_match; cbn; try exact Hn.
- unfold revoke_token. by rewrite update_where_column.
- unfold upsert_token. destruct (existsb _ T) eqn:He; [by rewrite named_column|]. apply NoDup_fmap_snoc; [done|].
  intros (y & Hk & Hy)%list_elem_of_fmap. eapply (free_key tk_name); [exact He| |exact Hy|by rewrite Hk].
  intros z Hz. unfold named. by rewrite Hz, String.eqb_refl.
Qed.
Lemma unique_step w w' : names_unique w → door_step w w' → names_unique w'.
Proof.
intros Hw Hs. destruct Hs; intros d; unfold exec; cbn; [|apply Hw]. destruct (d =s? db); [|apply Hw]. apply studio_sql_names, Hw.
Qed.
Lemma unique_steps w w' : steps door_step w w' → names_unique w → names_unique w'.
Proof. intros Hs Hw. revert Hs. apply steps_invariant; [apply unique_step|done]. Qed.

Lemma jfilter_update_in (p : TokenRow → bool) f T : (∀ r, p (f r) = p r) → jfilter p (update_where p f T) = f <$> jfilter p T.
Proof.
intros Hp. unfold update_where, jfilter. induction T as [|r T IH]; [done|]. cbn. destruct (p r) eqn:E; cbn; rewrite ?Hp, ?E; cbn; by rewrite IH.
Qed.
Lemma jfilter_update_out (p : TokenRow → bool) f T : (∀ r, p (f r) = p r) → jfilter (λ r, negb (p r)) (update_where p f T) = jfilter (λ r, negb (p r)) T.
Proof.
intros Hp. unfold update_where, jfilter. induction T as [|r T IH]; [done|]. cbn. destruct (p r) eqn:E; cbn; rewrite ?Hp, ?E; cbn; by rewrite IH.
Qed.
Lemma one_named name T : NoDup (tk_name <$> T) → existsb (named name) T = true → ∃ r, tk_name r = name ∧ jfilter (named name) T = [r].
Proof.
induction T as [|r T IH]; [done|]. cbn. intros [Hr Hn]%NoDup_cons. unfold named at 1 3. destruct (String.eqb_spec (tk_name r) name) as [<-|Hne].
- intros _. exists r. split; [done|]. f_equal. apply jfilter_nil_iff. intros x Hx. unfold named. apply String.eqb_neq. intros E.
  apply Hr. rewrite <- E. by apply list_elem_of_fmap_2.
- by apply IH.
Qed.

(** After the one statement that installs a hash, it is the only programmatic row; the others stand. *)
Lemma upsert_exact dt hash T : NoDup (tk_name <$> T) →
  programmatic (upsert_token dt PROGRAMMATIC_TOKEN_NAME hash T) = [mkTokenRow PROGRAMMATIC_TOKEN_NAME hash dt None] ∧
  others_rows (upsert_token dt PROGRAMMATIC_TOKEN_NAME hash T) = others_rows T.
Proof.
intros Hn. unfold upsert_token, programmatic, others_rows. destruct (existsb _ T) eqn:He.
- rewrite jfilter_update_in, jfilter_update_out by done. destruct (one_named _ _ Hn He) as (r & Hr & ->). cbn. by rewrite Hr.
- rewrite !jfilter_app. cbn. rewrite app_nil_r. split; [|done].
  assert (jfilter (named PROGRAMMATIC_TOKEN_NAME) T = []) as -> by (apply jfilter_nil_iff; by apply existsb_false_iff). done.
Qed.
Lemma revoke_exact dt T : token_acts (revoke_token dt PROGRAMMATIC_TOKEN_NAME T) = false ∧
  others_rows (revoke_token dt PROGRAMMATIC_TOKEN_NAME T) = others_rows T.
Proof.
split; [|by apply jfilter_update_out]. apply existsb_false_iff. intros r (x & Hx & ->)%elem_of_update_where.
unfold named. destruct (tk_name x =s? PROGRAMMATIC_TOKEN_NAME) eqn:E; cbn; unfold named; by rewrite ?E, ?andb_false_r.
Qed.
End tables.

Section token_theorems.
Context {W : Type} `{TokenDoorOk W}.
Context (digest : string → list ascii) (random : nat → M W string (list ascii)) (text_of : js → string) (namespace : string).
Definition token_reached (w0 : token_world) (s : W) : Prop := steps door_step w0 (token_view s).
Hypothesis random_keeps : ∀ n w0, preserves (token_reached w0) (random n).

Lemma map_err_ok {E E' A} (f : E → E') (m : M W E A) s a s' : map_err f m s = (Ok a, s') → m s = (Ok a, s').
Proof. unfold map_err. destruct (m s) as [[b|e] s1]; intros Hm; by simplify_eq. Qed.
Lemma require_live_spec tenant db script : require_live tenant = Ok (db, script) →
  t_status tenant = "live" ∧ t_d1_database_id tenant = Some db ∧ t_script_name tenant = Some script.
Proof.
unfold require_live. destruct (negb _) eqn:E; [done|]. bool_hyps. destruct (t_d1_database_id tenant) as [d|]; [|done].
destruct (t_script_name tenant) as [c|]; [|done]. destruct (_ || _); [done|]. intros Hq. by simplify_eq.
Qed.
Lemma usable_inv tenant s db s' : requireUsableTenant namespace tenant s = (Ok db, s') →
  ∃ script names, t_status tenant = "live" ∧ t_d1_database_id tenant = Some db ∧ t_script_name tenant = Some script ∧
    getScriptSecretNames namespace script s = (Ok names, s') ∧ STUDIO_OPERATOR_SECRET ∈ names ∧ steps door_step (token_view s) (token_view s').
Proof.
unfold requireUsableTenant. intros ([d script] & s1 & Hl & Hs)%M_bind_inv. unfold lift in Hl. injection Hl as Hl <-.
apply require_live_spec in Hl as (H1 & H2 & H3). apply M_bind_inv in Hs as (names & s2 & Hg & Hs). apply map_err_ok in Hg.
destruct (existsb _ _) eqn:He; [|done]. injection Hs as <- <-. exists script, names. split_and!; try done.
- apply existsb_exists in He as (x & Hx & Hq). bool_hyps. subst. by apply list_elem_of_In.
- pose proof (secrets_keep namespace script s) as Hk. unfold exec in Hk. by rewrite Hg in Hk.
Qed.
Lemma query_inv db sql params s a s' : token_query db sql params s = (Ok a, s') →
  ∃ mid dt, steps door_step (token_view s) mid ∧ on_studio db (studio_sql dt sql params) mid = (Ok a, token_view s') ∧ steps door_step mid (token_view s').
Proof.
intros Hs%map_err_ok. apply (runs_ok _ _ _ _ _ _ _ (query_runs _ _ _)) in Hs as (mid & dt & Hm & Hr). exists mid, dt. split_and!; [done..|].
apply steps_one. pose proof (step_studio_sql db dt sql params mid) as Hst. unfold exec in Hst. by rewrite Hr in Hst.
Qed.
Lemma read_inv tenant s st s' : readTenantApiToken text_of namespace tenant s = (Ok st, s') →
  ∃ db mid, t_d1_database_id tenant = Some db ∧ steps door_step (token_view s) mid ∧ steps door_step mid (token_view s') ∧
    ts_configured st = token_acts (tw_studios mid db) ∧
    ts_last_rotated_at st = (if ts_configured st then t_api_token_rotated_at tenant else None).
Proof.
unfold readTenantApiToken. intros (db & s1 & Hu & Hs)%M_bind_inv. apply usable_inv in Hu as (script & names & _ & Hd & _ & _ & _ & H1).
apply M_bind_inv in Hs as (raw & s2 & Hq & Hs). injection Hs as <- <-. apply query_inv in Hq as (mid & dt & Hm & Hr & H2).
exists db, mid. split; [done|]. split; [by etrans|]. split; [done|]. unfold on_studio in Hr. injection Hr as Hr _. subst raw.
unfold token_acts. generalize (tw_studios mid db). intros T. unfold d1_result, rowsOf. cbn. rewrite app_nil_r.
induction T as [|r T IH]; [done|]. cbn. destruct (named PROGRAMMATIC_TOKEN_NAME r && acting r); [done|]. exact IH.
Qed.

(** C30. A minted token is the studio's one programmatic credential.  Whatever else runs, a mint that
    answers was for a live, provisioned studio whose own gate consults named tokens at all, and the token
    answered is the one it drew.  Its own statement, run on whatever [before] the others left, left
    exactly one row of that name, acting, with the digest of that token, so every token minted before is
    dead; every other consumer's token and every other studio are as they were just before it.  The
    rotation is stamped exactly where the look taken before saw a row to replace. *)
Theorem minted_token_is_the_only_one tenant s m s' :
  names_unique (token_view s) → issueTenantApiToken digest random text_of namespace tenant s = (Ok m, s') →
  ∃ db script names s1 seen s2 bytes s3 before dt answer s4 s5 state,
    (t_status tenant = "live" ∧ t_d1_database_id tenant = Some db ∧ t_script_name tenant = Some script ∧
     getScriptSecretNames namespace script s = (Ok names, s1) ∧ STUDIO_OPERATOR_SECRET ∈ names) ∧
    steps door_step (token_view s1) seen ∧ steps door_step seen (token_view s2) ∧
    random 32 s2 = (Ok bytes, s3) ∧ mt_token m = randomToken bytes ∧
    (let credential := [JStr PROGRAMMATIC_TOKEN_NAME; JStr (sha256Hex digest (mt_token m))] in
     steps door_step (token_view s3) before ∧ queryD1 db UPSERT_TOKEN credential s3 = (Ok answer, s4) ∧
     token_view s4 = exec (on_studio db (studio_sql dt UPSERT_TOKEN credential)) before) ∧
    (let after := token_view s4 in
     programmatic (tw_studios after db) = [mkTokenRow PROGRAMMATIC_TOKEN_NAME (sha256Hex digest (mt_token m)) dt None] ∧
     others_rows (tw_studios after db) = others_rows (tw_studios before db) ∧
     (∀ d, d ≠ db → tw_studios after d = tw_studios before d) ∧ tw_tenants after = tw_tenants before) ∧
    match programmatic (tw_studios seen db) with [] => s5 = s4 | _ => setApiTokenRotatedAt (t_id tenant) s4 = (Ok tt, s5) end ∧
    readTenantApiToken text_of namespace tenant s5 = (Ok state, s').
Proof.
intros Hn. unfold issueTenantApiToken. intros (db & s1 & Hu & Hs)%M_bind_inv.
apply usable_inv in Hu as (script & names & H1 & H2 & H3 & H4 & H5 & Hk1).
apply M_bind_inv in Hs as (raw & s2 & Hq & Hs). apply query_inv in Hq as (seen & dt1 & Hk2 & Hr & Hk3). cbv zeta in Hs.
apply M_bind_inv in Hs as (bytes & s3 & Hb & Hs). apply map_err_ok in Hb.
assert (steps door_step (token_view s2) (token_view s3)) as Hk4.
{ pose proof (random_keeps 32 (token_view s2) s2 (steps_refl _ _)) as Hp. unfold token_reached, exec in Hp. by rewrite Hb in Hp. }
apply M_bind_inv in Hs as (answer & s4 & Hw & Hs). pose proof (map_err_ok _ _ _ _ _ Hw) as Hask. apply query_inv in Hw as (before & dt & Hk5 & Hup & _).
apply M_bind_inv in Hs as ([] & s5 & Hst & Hs). apply M_bind_inv in Hs as (state & s6 & Hread & Hs). injection Hs as <- <-.
destruct (upsert_exact dt (sha256Hex digest (randomToken bytes)) (tw_studios before db)) as [Hone Hoth].
{ apply (unique_steps (token_view s)); [|done]. by chain. }
assert (token_view s4 = exec (on_studio db (studio_sql dt UPSERT_TOKEN [JStr PROGRAMMATIC_TOKEN_NAME; JStr (sha256Hex digest (randomToken bytes))])) before)
  as Hview by (unfold exec; by rewrite Hup).
exists db, script, names, s1, seen, s2, bytes, s3, before, dt, answer, s4, s5, state. cbv zeta. cbn [mt_token].
split_and!; try done.
- rewrite Hview. unfold exec, on_studio. cbn [snd tw_studios]. by rewrite String.eqb_refl.
- rewrite Hview. unfold exec, on_studio. cbn [snd tw_studios]. by rewrite String.eqb_refl.
- intros d Hd%String.eqb_neq. rewrite Hview. unfold exec, on_studio. cbn [snd tw_studios]. by rewrite Hd.
- by rewrite Hview.
- unfold on_studio in Hr. injection Hr as Hr _. subst raw. unfold programmatic. revert Hst. unfold studio_sql, d1_result, rowsOf. cbn.
  rewrite app_nil_r, length_fmap. destruct (jfilter _ _) as [|row rows]; [by intros [= <-]|]. apply map_err_ok.
Qed.

(** What a tenant is told of its credential is the studio's own answer.  Configured means a
    programmatic row acts in its database, and not configured that none does: a studio that could not be
    asked is never read as having none.  An answered revocation left none acting and every other
    consumer's token as it was. *)
Theorem token_state_is_the_studios tenant :
  (∀ s st s', readTenantApiToken text_of namespace tenant s = (Ok st, s') →
     ∃ db mid, t_d1_database_id tenant = Some db ∧ steps door_step (token_view s) mid ∧ steps door_step mid (token_view s') ∧
       (ts_configured st = true ↔ ∃ row, row ∈ tw_studios mid db ∧ tk_name row = PROGRAMMATIC_TOKEN_NAME ∧ tk_revoked_at row = None)) ∧
  (∀ s s', revokeTenantApiToken namespace tenant s = (Ok tt, s') →
     ∃ db before after, t_d1_database_id tenant = Some db ∧ steps door_step (token_view s) before ∧ after = token_view s' ∧
       (∀ row, row ∈ tw_studios after db → tk_name row = PROGRAMMATIC_TOKEN_NAME → tk_revoked_at row ≠ None) ∧
       others_rows (tw_studios after db) = others_rows (tw_studios before db)).
Proof.
assert (∀ T, token_acts T = true ↔ ∃ row, row ∈ T ∧ tk_name row = PROGRAMMATIC_TOKEN_NAME ∧ tk_revoked_at row = None) as Hacts.
{ intros T. unfold token_acts. rewrite existsb_exists. unfold named, acting. split; intros (r & Hr & Hp).
  - exists r. bool_hyps. split_and!; [by apply list_elem_of_In|done|by destruct (tk_revoked_at r)].
  - destruct Hp as [H1 H2]. exists r. rewrite H1, H2. by split; [apply list_elem_of_In|]. }
split.
- intros s st s' Hs. destruct (read_inv _ _ _ _ Hs) as (db & mid & Hd & H1 & H2 & -> & _). exists db, mid. split_and!; try done; apply Hacts.
- intros s s'. unfold revokeTenantApiToken. intros (db & s1 & Hu & Hs)%M_bind_inv. apply usable_inv in Hu as (script & names & _ & Hd & _ & _ & _ & H1).
  apply M_bind_inv in Hs as (raw & s2 & Hq & Hs). injection Hs as <-. apply query_inv in Hq as (before & dt & Hm & Hr & H2).
  exists db, before, (token_view s2). split_and!; [done|by chain|done| |]; unfold on_studio in Hr; injection Hr as _ Hr; rewrite <- Hr; cbn;
    rewrite String.eqb_refl; destruct (revoke_exact dt (tw_studios before db)) as [H3 H4]; [|done].
  intros row Hrow Hn Hnone. assert (token_acts (revoke_token dt PROGRAMMATIC_TOKEN_NAME (tw_studios before db)) = true) as Ht by (apply Hacts; eauto).
  congruence.
Qed.

Lemma api_method method : method ∈ ["GET"; "POST"; "DELETE"] →
  ∀ tenant s e s', requireUsableTenant namespace tenant s = (Err e, s') →
  apiTokenRoute digest random text_of namespace true method tenant s = token_failure e s'.
Proof.
intros Hm tenant s e s' He. unfold apiTokenRoute, token_answer, readTenantApiToken, issueTenantApiToken, revokeTenantApiToken. cbn [negb].
repeat (apply elem_of_cons in Hm as [->|Hm]; [cbn [String.eqb Ascii.eqb Bool.eqb]; by rewrite !(M_bind_err _ _ _ _ _ He)|]). by apply elem_of_nil in Hm.
Qed.

(** The one statement a route of the token makes first. *)
Definition first_statement (method : string) : string :=
  if method =s? "GET" then SELECT_LIVE_TOKEN else if method =s? "POST" then SELECT_TOKEN else REVOKE_TOKEN.

Lemma usable_runs tenant db script s : require_live tenant = Ok (db, script) →
  let run := requireUsableTenant namespace tenant s in
  match getScriptSecretNames namespace script s with
  | (Ok names, s1) => run = if bool_decide (STUDIO_OPERATOR_SECRET ∈ names) then (Ok db, s1) else
      (Err (ApiTokenError NotProvisioned ("tenant studio has no " +:+ STUDIO_OPERATOR_SECRET +:+ "; a named token would be refused by its own gate")), s1)
  | (Err e, s1) => run = (Err (ApiTokenError TenantUnreachable e), s1)
  end.
Proof.
intros Hl. cbv zeta. unfold requireUsableTenant, lift. rewrite !bind_run, Hl. unfold map_err. rewrite bind_run.
destruct (getScriptSecretNames namespace script s) as [[names|e] s1]; [|done].
assert (existsb (String.eqb STUDIO_OPERATOR_SECRET) names = bool_decide (STUDIO_OPERATOR_SECRET ∈ names)) as ->.
{ apply eq_true_iff_eq. rewrite bool_decide_eq_true, existsb_exists. setoid_rewrite String.eqb_eq. rewrite list_elem_of_In.
  split; [by intros (x & Hx & <-)|by eexists]. }
by destruct (bool_decide _).
Qed.
Lemma first_asked method : method ∈ ["GET"; "POST"; "DELETE"] →
  ∀ tenant s db s1, requireUsableTenant namespace tenant s = (Ok db, s1) →
  let answer := apiTokenRoute digest random text_of namespace true method tenant s in
  match queryD1 db (first_statement method) [JStr PROGRAMMATIC_TOKEN_NAME] s1 with
  | (Err _, s2) => answer = (Ok (err_response "tenant_unreachable" 503 []), s2)
  | (Ok raw, s2) =>
      (method = "GET" → answer = (Ok (json_response (state_body (token_state text_of tenant (rowsOf raw))) 200), s2)) ∧
      (method = "DELETE" → answer = (Ok (json_response [("configured", JBool false)] 200), s2))
  end.
Proof.
intros Hm tenant s db s1 Hu. cbv zeta. unfold apiTokenRoute, token_answer, readTenantApiToken, issueTenantApiToken, revokeTenantApiToken, first_statement. cbn [negb].
repeat (apply elem_of_cons in Hm as [->|Hm]; [cbn [String.eqb Ascii.eqb Bool.eqb]; rewrite !(M_bind_ok _ _ _ _ _ Hu);
  unfold token_query, map_err; rewrite !bind_run; by destruct (queryD1 db _ _ s1) as [[raw|e] s2]|]). by apply elem_of_nil in Hm.
Qed.

(** C31. What the token routes refuse for, they refuse before any studio's database is asked, and name.
    A studio that is not live answers 409 tenant_not_live and one that is not provisioned 409
    not_provisioned, with nothing asked of anybody; one whose secrets cannot be listed answers 503
    tenant_unreachable, and one whose gate has no operator secret, so that it would refuse any named
    token, answers 409 not_provisioned, with nothing asked but that list.  Past these the verb's first
    statement is asked of the tenant's own database: where it throws, the answer is 503
    tenant_unreachable and nothing more is asked, and never that there is no token; where it answers, a
    reading and a revocation answer 200 with what it said.  (What a mint asks after it is another
    matter: its last reading can still refuse, when the old digest is already gone.) *)
Theorem token_routes_refuse_up_front method tenant s : method ∈ ["GET"; "POST"; "DELETE"] →
  let answer := apiTokenRoute digest random text_of namespace true method tenant s in
  match t_d1_database_id tenant, t_script_name tenant with
  | Some db, Some script =>
      if negb (t_status tenant =s? "live") then answer = (Ok (err_response "tenant_not_live" 409 []), s)
      else if (db =s? "") || (script =s? "") then answer = (Ok (err_response "not_provisioned" 409 []), s)
      else match getScriptSecretNames namespace script s with
      | (Err _, s1) => answer = (Ok (err_response "tenant_unreachable" 503 []), s1)
      | (Ok names, s1) =>
          if bool_decide (STUDIO_OPERATOR_SECRET ∈ names) then
            match queryD1 db (first_statement method) [JStr PROGRAMMATIC_TOKEN_NAME] s1 with
            | (Err _, s2) => answer = (Ok (err_response "tenant_unreachable" 503 []), s2)
            | (Ok raw, s2) =>
                (method = "GET" → answer = (Ok (json_response (state_body (token_state text_of tenant (rowsOf raw))) 200), s2)) ∧
                (method = "DELETE" → answer = (Ok (json_response [("configured", JBool false)] 200), s2))
            end
          else answer = (Ok (err_response "not_provisioned" 409 []), s1)
      end
  | _, _ => answer = (Ok (err_response (if t_status tenant =s? "live" then "not_provisioned" else "tenant_not_live") 409 []), s)
  end.
Proof.
intros Hm. cbv zeta.
assert (∀ e, require_live tenant = Err e → apiTokenRoute digest random text_of namespace true method tenant s = token_failure e s) as Hearly.
{ intros e He. apply api_method; [done|]. unfold requireUsableTenant, lift. by rewrite bind_run, He. }
unfold require_live in Hearly. destruct (t_status tenant =s? "live") eqn:Hlive; cbn [negb] in *.
2: { destruct (t_d1_database_id tenant); [destruct (t_script_name tenant)|]; by rewrite (Hearly _ eq_refl). }
destruct (t_d1_database_id tenant) as [db|] eqn:Hdb; [|by rewrite (Hearly _ eq_refl)].
destruct (t_script_name tenant) as [script|] eqn:Hsc; [|by rewrite (Hearly _ eq_refl)].
destruct ((db =s? "") || (script =s? "")) eqn:Hempty.
{ rewrite (Hearly (ApiTokenError NotProvisioned "not_provisioned")); [done|]. apply orb_true_iff in Hempty as [?|?]; bool_hyps; subst; [done|by rewrite orb_true_r]. }
assert (require_live tenant = Ok (db, script)) as Hl.
{ unfold require_live. rewrite Hlive, Hdb, Hsc. bool_hyps. by destruct db, script. }
pose proof (usable_runs tenant db script s Hl) as Hu. cbv zeta in Hu.
destruct (getScriptSecretNames namespace script s) as [[names|e] s1] eqn:Hg; [|by rewrite (api_method _ Hm _ _ _ _ Hu)].
destruct (bool_decide (STUDIO_OPERATOR_SECRET ∈ names)) eqn:Hsec; [|by rewrite (api_method _ Hm _ _ _ _ Hu)].
pose proof (first_asked _ Hm _ _ _ _ Hu) as Ha. by destruct (queryD1 db _ _ s1) as [[raw|e] s2].
Qed.
End token_theorems.
