(* ===== verification/SmokeRender.v ===== *)
(** * Verifying a studio by rendering on it (src/smoke-render.ts, tenantStudioSmokeClient of src/deps.ts,
      the smoke-render routes of src/index.ts)

    An operator asks, the plane submits one canonical render through the tenant's own studio with the
    tenant's own token, and what is called verified are bytes the plane fetched back itself.  The studio
    is a parameter: what stands behind the dispatch binding answers as it likes. *)

From S2P Require Export SmokeStore Sso TokenCrypto.
From S2P Require Import Credits RunpodPool ApiToken.
From Stdlib Require Import Ascii.
Open Scope string_scope.
Open Scope list_scope.
Open Scope Z_scope.
Open Scope plane_scope.

(** ** The canonical render *)
Definition SMOKE_SHOT_ID : string := "smoke1".
Definition SMOKE_PROJECT_NAME : string := "control-plane-smoke".
Definition SMOKE_SCENE_SECONDS : Z := 4.
Definition SMOKE_PROMPT : string := "a single red apple on a plain white table, soft daylight, sharp focus".
Definition seconds : js := JNum (Num.NInt SMOKE_SCENE_SECONDS).
Definition canonicalStoryboard : js :=
  JObj [("title", JStr SMOKE_PROJECT_NAME); ("projectName", JStr SMOKE_PROJECT_NAME); ("full_prompt", JStr SMOKE_PROMPT);
        ("duration_seconds", seconds); ("clip_seconds", seconds); ("style_prefix", JStr ""); ("style_category", JStr "");
        ("style_preset", JStr ""); ("use_characters", JArr []); ("cast_rules", JStr "");
        ("scenes", JArr [JObj [("id", JStr SMOKE_SHOT_ID); ("prompt", JStr SMOKE_PROMPT); ("target_seconds", seconds)]])].
Definition SMOKE_RENDER_COVERAGE : js :=
  JObj [("proves", JArr [JStr "this tenant's own studio script accepted an authenticated submit over the dispatch binding";
           JStr "this tenant's own keyframe module ran on RunPod under this tenant's own invoke key";
           JStr "the resulting bytes were FETCHED back through this worker, sized and hashed, not inferred";
           JStr "the pixels came from the module bytes recorded in modules_release on the smoke render row"]);
        ("does_not_prove", JArr [JStr "that any OTHER module renders: this exercises the keyframe hook only";
           JStr "the motion, dialogue, speech, finish, assemble, master or mux stages of a full film";
           JStr "anything about image quality: the artifact is measured (bytes, sha256, mime), never judged";
           JStr "that a tenant's own end-to-end film submit works, which has more moving parts than this"])].

(** ** The bounds *)
Section bounds.
(** [Number(raw)] *)
Variable number : string → Num.num.
Definition DEFAULT_SMOKE_BOUNDS : SmokeRenderBounds := mkBounds (30 * 60) 20 (20 * 60).
(** [Number.isFinite(n) && n >= 0 ? Math.floor(n) : fallback] *)
Definition boundFrom (raw : option string) (fallback : Z) : Z :=
  match raw with
  | None => fallback
  | Some raw =>
      if Str.trim raw =s? "" then fallback
      else match number raw with
      | Num.NInt n => if 0 <=? n then n else fallback
      | Num.NFrac m e => if 0 <=? m then m / 2 ^ Zpos e else fallback
      | _ => fallback
      end
  end.
Definition resolveSmokeRenderBounds (cooldown dailyCap inFlight : option string) : SmokeRenderBounds :=
  mkBounds (boundFrom cooldown (sb_cooldown DEFAULT_SMOKE_BOUNDS)) (boundFrom dailyCap (sb_daily_cap DEFAULT_SMOKE_BOUNDS))
    (boundFrom inFlight (sb_in_flight DEFAULT_SMOKE_BOUNDS)).
End bounds.

(** ** Readers of the studio's answers *)
Record StudioReply := mkStudioReply { sr_status : Z; sr_text : string }.
Record StudioBytes := mkStudioBytes { by_status : Z; by_bytes : option string; by_type : string }.
(** What the dispatch binding answers: status, body, and its content type. *)
Record StubResponse := mkStub { st_status : Z; st_body : string; st_type : option string }.
Definition filled (v : js) : option string := match v with JStr s => if Str.truthy s then Some s else None | _ => None end.
Section readers.
(** [JSON.parse]: [None] when it throws. *)
Variable json_parse : string → option js.
Definition parseJson (text : string) : js := default JNull (json_parse text).
Definition accepted_status (n : Z) : bool := (n =? 201) || (n =? 200).
Definition readBundleKey (reply : StudioReply) : option string :=
  if negb (accepted_status (sr_status reply)) then None
  else
    let body := parseJson (sr_text reply) in
    match js_field body "ok" with JBool true => filled (js_field body "bundleKey") | _ => None end.
Definition readJobId (reply : StudioReply) : option string :=
  if negb (accepted_status (sr_status reply)) then None else filled (js_field (parseJson (sr_text reply)) "jobId").
(** The first frame with a key. *)
Definition readKeyframeKey (output : js) : option string :=
  match js_field output "keyframes" with JArr frames => head (omap (λ f, filled (js_field f "key")) frames) | _ => None end.
End readers.
(** [text.replace(/\s+/g, " ").trim()] *)
Fixpoint squeeze (in_space : bool) (l : list ascii) : list ascii :=
  match l with
  | [] => []
  | c :: l => if Str.is_space c then (if in_space then [] else [" "%char]) ++ squeeze true l else c :: squeeze false l
  end.
Definition truncate (text : string) : string :=
  let flat := Str.trim (Str.of_chars (squeeze false (Str.chars text))) in
  if (400 <? String.length flat)%nat then Str.take 400 flat +:+ "..." else flat.
Definition smokeRefusalStatus (studioStatus : Z) : Z := if (400 <=? studioStatus) && (studioStatus <=? 599) then 422 else 502.

(** The last characters of [/[Tt].*([Zz]|[+-]\d{2}:?\d{2})$/], and a [T] on their line before them. *)
Definition line_end (c : ascii) : bool := let n := Str.code c in ((n =? 10) || (n =? 13))%N.
Fixpoint t_then_line (l : list ascii) : bool :=
  match l with
  | [] => false
  | c :: l => ((Ascii.eqb c "T" || Ascii.eqb c "t") && forallb (λ x, negb (line_end x)) l) || t_then_line l
  end.
Definition zoned_shape (s shape : string) : bool :=
  tail_shaped shape s && t_then_line (firstn (String.length s - String.length shape) (Str.chars s)).
Definition zoned (s : string) : bool := existsb (zoned_shape s) ["Z"; "z"; "+dd:dd"; "-dd:dd"; "+dddd"; "-dddd"].
Section age.
(** [Date.parse]; [None] is NaN. *)
Variable date_parse : string → option Z.
Definition created_ms (createdAt : string) : option Z :=
  match date_parse createdAt with
  | Some t => if zoned createdAt then Some t else date_parse (Str.of_chars (SqlTime.replace_first " " "T" (Str.chars createdAt)) +:+ "Z")
  | None => date_parse (Str.of_chars (SqlTime.replace_first " " "T" (Str.chars createdAt)) +:+ "Z")
  end.
(** [ageSeconds(createdAt) > limit] at [nowMs]. *)
Definition aged (nowMs limit : Z) (createdAt : string) : bool :=
  match created_ms createdAt with Some t => num_gt (num_quot (Z.max 0 (nowMs - t)) 1000) limit | None => num_gt (Num.NInt 0) limit end.
End age.

(** ** The studio's client *)
Section client.
Context {W : Type}.
Variable open : list ascii → list ascii → list ascii → option string.
Variable ring : KekRing.
(** [env.TENANT_DISPATCH.get(name).fetch(request)] *)
Variable stub : string → HttpRequest → M W string StubResponse.

(** No call gives an [accept]. *)
Definition smoke_dispatch (tenant : Tenant) (method path : string) (body : option js) : M W string StubResponse :=
  match t_script_name tenant, t_studio_token_enc tenant with
  | Some script, Some enc =>
      if negb (Str.truthy script) then throw "tenant has no studio script to dispatch to"
      else if negb (Str.truthy enc) then throw "tenant has no stored studio token"
      else
        token ← lift (decryptStudioToken open ring enc);
        stub script (mkRequest ("https://tenant.internal" +:+ path) method
          (("authorization", "Bearer " +:+ token) :: match body with Some _ => [("content-type", "application/json")] | None => [] end)
          (match body with Some v => BJson v | None => BNone end))
  | Some script, None => throw (if Str.truthy script then "tenant has no stored studio token" else "tenant has no studio script to dispatch to")
  | None, _ => throw "tenant has no studio script to dispatch to"
  end.
Definition asReply (res : StubResponse) : StudioReply := mkStudioReply (st_status res) (st_body res).
Definition putCanonicalBundle (tenant : Tenant) : M W string StudioReply :=
  res ← smoke_dispatch tenant "POST" "/api/storyboard/bundle" (Some (JObj [("storyboard", canonicalStoryboard); ("characterRefs", JObj [])]));
  mret (asReply res).
Definition submitKeyframeRender (tenant : Tenant) (bundleKey : string) : M W string StudioReply :=
  res ← smoke_dispatch tenant "POST" "/api/storyboard/render"
    (Some (JObj [("bundleKey", JStr bundleKey); ("keyframesOnly", JBool true); ("project", JStr SMOKE_PROJECT_NAME);
                 ("scenes", JArr [JObj [("shot_id", JStr SMOKE_SHOT_ID); ("prompt", JStr SMOKE_PROMPT); ("seconds", seconds)]])]));
  mret (asReply res).
Definition pollRender (tenant : Tenant) (studioJobId : string) : M W string StudioReply :=
  res ← smoke_dispatch tenant "GET" ("/api/storyboard/render/" +:+ encodeURIComponent studioJobId) None; mret (asReply res).
Definition fetchArtifact (tenant : Tenant) (key : string) : M W string StudioBytes :=
  res ← smoke_dispatch tenant "GET" ("/api/artifact/" +:+ Str.join "/" (encodeURIComponent <$> Text.split "/" key)) None;
  mret (if st_status res =? 200 then mkStudioBytes 200 (Some (st_body res)) (default "application/octet-stream" (st_type res))
        else mkStudioBytes (st_status res) None (default "" (st_type res))).
End client.

(** ** What the operations need of the store *)
Record smoke_world := mkSmokeWorld { sw_renders : smoke_db; sw_platform : platform_db }.
Definition on_renders {A} (m : M smoke_db string A) : M smoke_world string A := λ w,
  ((m (sw_renders w)).1, mkSmokeWorld (m (sw_renders w)).2 (sw_platform w)).
Definition on_platform {A} (m : M platform_db string A) : M smoke_world string A := λ w,
  ((m (sw_platform w)).1, mkSmokeWorld (sw_renders w) (m (sw_platform w)).2).
Class SmokeDoor (W : Type) := {
  smoke_view : W → smoke_world;
  openSmokeRender : string → string → option string → SmokeRenderBounds → M W string (option SmokeRender);
  describeSmokeRenderRefusal : string → SmokeRenderBounds → M W string (option string);
  getSmokeRender : string → M W string (option SmokeRender);
  setSmokeRenderSubmitted : string → string → string → M W string unit;
  finishSmokeRender : string → SmokeOutcome → M W string unit;
  recordAdminAction : string → string → option string → option string → M W string unit;
}.

Inductive SmokeRenderStart :=
| Started (smoke : SmokeRender)
| SpendGuard (message : string)
| StudioRefused (smoke : SmokeRender) (message : string) (studioStatus : Z).
Definition mention (what : string) (status : Z) (text : string) : string :=
  "the tenant studio would not " +:+ what +:+ " (HTTP " +:+ Str.of_int status +:+ "): " +:+ truncate text.
Definition smoke_refusal (message : string) : string := "the tenant studio reported " +:+ message.

Section smoke.
Context {W : Type} `{SmokeDoor W}.
Variable open : list ascii → list ascii → list ascii → option string.
Variable ring : KekRing.
Variable stub : string → HttpRequest → M W string StubResponse.
Variable json_parse : string → option js.
Variable stringify : js → string.
Variable date_parse : string → option Z.
Variable digest : string → list ascii.
(** [Date.now()] *)
Variable clock : M W string Z.
Variable bounds : SmokeRenderBounds.

Definition startSmokeRender (tenant : Tenant) (id : string) : M W string SmokeRenderStart :=
  opened ← openSmokeRender id (t_id tenant) (t_modules_release tenant) bounds;
  match opened with
  | None =>
      why ← describeSmokeRenderRefusal (t_id tenant) bounds;
      mret (SpendGuard (default "the smoke-render spend guard refused this submit" why))
  | Some smoke =>
      bundle ← putCanonicalBundle open ring stub tenant;
      match readBundleKey json_parse bundle with
      | None =>
          let message := mention "build the smoke bundle" (sr_status bundle) (sr_text bundle) in
          _ ← finishSmokeRender (smk_id smoke) (RenderFailed message);
          mret (StudioRefused smoke message (sr_status bundle))
      | Some bundleKey =>
          submit ← submitKeyframeRender open ring stub tenant bundleKey;
          match readJobId json_parse submit with
          | None =>
              let message := mention "accept the smoke render" (sr_status submit) (sr_text submit) in
              _ ← finishSmokeRender (smk_id smoke) (RenderFailed message);
              mret (StudioRefused smoke message (sr_status submit))
          | Some studioJobId =>
              _ ← setSmokeRenderSubmitted (smk_id smoke) studioJobId bundleKey;
              updated ← getSmokeRender (smk_id smoke);
              mret (Started (default smoke updated))
          end
      end
  end.

Definition reread (smoke : SmokeRender) : M W string SmokeRender := found ← getSmokeRender (smk_id smoke); mret (default smoke found).
Definition condemn (smoke : SmokeRender) (message : string) : M W string SmokeRender :=
  _ ← finishSmokeRender (smk_id smoke) (RenderFailed message); reread smoke.
Definition no_artifact_text (key : string) (got : StudioBytes) : string :=
  "the render reported COMPLETED but its artifact could not be fetched (key " +:+ key +:+ ", HTTP " +:+ Str.of_int (by_status got) +:+ ", " +:+
  Str.of_int (Z.of_nat (String.length (default "" (by_bytes got)))) +:+ " bytes). The artifact is the evidence; without it there is nothing verified.".
Definition over_budget_text : string :=
  "the smoke render did not finish within " +:+ Str.of_int (sb_in_flight bounds) +:+ "s; giving up rather than reporting a render nothing observed complete".
Definition artifact_of (key : string) (got : StudioBytes) (bytes : string) : SmokeRenderArtifact :=
  mkArtifact key (Z.of_nat (String.length bytes)) (sha256Hex digest bytes) (by_type got).
Definition advanceSmokeRender (tenant : Tenant) (smoke : SmokeRender) : M W string SmokeRender :=
  if negb (is_running smoke) then mret smoke
  else match smk_studio_job_id smoke with
  | None => condemn smoke "no studio job was ever recorded for this smoke render; the submit did not land"
  | Some job =>
      if negb (Str.truthy job) then condemn smoke "no studio job was ever recorded for this smoke render; the submit did not land"
      else
        now ← clock;
        if aged date_parse now (sb_in_flight bounds) (smk_created_at smoke) then condemn smoke over_budget_text
        else
          poll ← pollRender open ring stub tenant job;
          if negb (sr_status poll =? 200) then mret smoke
          else
            let view := parseJson json_parse (sr_text poll) in
            let status := js_string_or_empty (js_field view "status") in
            if (status =s? "FAILED") || (status =s? "CANCELLED") || (status =s? "TIMED_OUT") then
              condemn smoke (smoke_refusal ("the render " +:+ status +:+ ": " +:+
                truncate (default "no error detail given" (filled (js_field view "error")))))
            else if negb (status =s? "COMPLETED") then mret smoke
            else match readKeyframeKey (js_field view "output") with
            | None => condemn smoke (smoke_refusal "COMPLETED but named no keyframe artifact; a completed job with nothing to look at is not a pass")
            | Some key =>
                got ← fetchArtifact open ring stub tenant key;
                match by_bytes got with
                | Some bytes =>
                    if negb (by_status got =? 200) || (String.length bytes =? 0)%nat then condemn smoke (no_artifact_text key got)
                    else
                      _ ← finishSmokeRender (smk_id smoke) (RenderSucceeded (artifact_of key got bytes));
                      reread smoke
                | None => condemn smoke (no_artifact_text key got)
                end
            end
  end.

(** ** The routes *)
Variable getTenantById : string → M W string (option Tenant).
Variable random : nat → M W string (list ascii).
(** Whether this deployment has a provisioner, and who acts. *)
Variable provisioned : bool.
Variable actor : string.

Definition is_verified (smoke : SmokeRender) : bool :=
  bool_decide (smk_status smoke = SmokeSucceeded) && match smk_artifact_sha256 smoke with Some _ => true | None => false end.
Definition smoke_status_text (st : SmokeStatus) : string :=
  match st with SmokeRunning => "running" | SmokeSucceeded => "succeeded" | SmokeFailed => "failed" end.
Definition artifact_url (smoke : SmokeRender) : string :=
  "/api/admin/tenants/" +:+ smk_tenant_id smoke +:+ "/smoke-render/" +:+ smk_id smoke +:+ "/artifact".
Definition smokeRenderView (smoke : SmokeRender) : list (string * js) :=
  [("smoke_render_id", JStr (smk_id smoke)); ("tenant_id", JStr (smk_tenant_id smoke)); ("status", JStr (smoke_status_text (smk_status smoke)));
   ("verified", JBool (is_verified smoke)); ("modules_release", jtext (smk_modules_release smoke)); ("studio_job_id", jtext (smk_studio_job_id smoke));
   ("artifact", if is_verified smoke then
      JObj [("key", jtext (smk_artifact_key smoke)); ("bytes", match smk_artifact_bytes smoke with Some n => JNum (Num.NInt n) | None => JNull end);
            ("sha256", jtext (smk_artifact_sha256 smoke)); ("content_type", jtext (smk_artifact_content_type smoke)); ("url", JStr (artifact_url smoke))]
    else JNull);
   ("error_message", jtext (smk_error smoke)); ("created_at", JStr (smk_created_at smoke)); ("finished_at", jtext (smk_finished_at smoke));
   ("coverage", SMOKE_RENDER_COVERAGE)].
Definition loadSmokeRender (tenantId smokeId : string) : M W string (option (Tenant * SmokeRender)) :=
  smoke ← getSmokeRender smokeId;
  match smoke with
  | None => mret None
  | Some smoke =>
      if negb (smk_tenant_id smoke =s? tenantId) then mret None
      else tenant ← getTenantById tenantId; mret ((λ t, (t, smoke)) <$> tenant)
  end.
Definition smoke_audit (action : string) (target : string) (detail : js) : M W string unit :=
  recordAdminAction actor action (Some target) (Some (stringify detail)).
Definition smoke_message (text : string) : list (string * js) := [("message", JStr text)].
Definition startSmokeRoute (tenantId : string) : M W string http_reply :=
  if negb provisioned then mret (err_response "provisioner_unconfigured" 503 [])
  else
    found ← getTenantById tenantId;
    match found with
    | None => mret (err_response "not_found" 404 [])
    | Some tenant =>
        match t_suspended_at tenant with
        | Some _ => mret (err_response "tenant_suspended" 409 (smoke_message "this tenant is suspended; nothing may be rendered on it"))
        | None =>
            if negb (t_status tenant =s? "live") then
              mret (err_response "tenant_not_live" 409 (("status", JStr (t_status tenant)) ::
                smoke_message "only a live tenant can render; a tenant that never finished provisioning has nothing to verify"))
            else if negb (Auth.is_set (t_script_name tenant)) || negb (Auth.is_set (t_studio_token_enc tenant)) then
              mret (err_response "tenant_not_addressable" 409
                (smoke_message "this tenant has no studio script or no stored studio token, so it cannot be driven"))
            else
              bytes ← random 12;
              started ← startSmokeRender tenant (newId "smk" bytes);
              match started with
              | SpendGuard message => mret (err_response "smoke_render_rate_limited" 429 (smoke_message message ++
                  [("bounds", JObj [("cooldownSeconds", JNum (Num.NInt (sb_cooldown bounds))); ("dailyCap", JNum (Num.NInt (sb_daily_cap bounds)));
                                    ("inFlightSeconds", JNum (Num.NInt (sb_in_flight bounds)))])]))
              | StudioRefused smoke message studioStatus =>
                  _ ← recordAdminAction actor "tenant.smoke_render_refused" (Some (t_id tenant)) (Some message);
                  mret (err_response "studio_refused" (smokeRefusalStatus studioStatus)
                    (("smoke_render_id", JStr (smk_id smoke)) :: smoke_message message ++
                     [("studio_status", JNum (Num.NInt studioStatus)); ("coverage", SMOKE_RENDER_COVERAGE)]))
              | Started smoke =>
                  _ ← smoke_audit "tenant.smoke_render" (t_id tenant)
                    (JObj [("smoke", JStr (smk_id smoke)); ("studio_job", jtext (smk_studio_job_id smoke)); ("modules_release", jtext (t_modules_release tenant))]);
                  mret (json_response (smokeRenderView smoke) 202)
              end
        end
    end.
Definition pollSmokeRoute (tenantId smokeId : string) : M W string http_reply :=
  if negb provisioned then mret (err_response "provisioner_unconfigured" 503 [])
  else
    found ← loadSmokeRender tenantId smokeId;
    match found with
    | None => mret (err_response "not_found" 404 [])
    | Some (tenant, smoke) =>
        _ ← smoke_audit "tenant.read.smoke_render" (t_id tenant) (JObj [("smoke_id", JStr (smk_id smoke))]);
        advanced ← advanceSmokeRender tenant smoke;
        mret (json_response (smokeRenderView advanced) 200)
    end.
(** Bytes with their headers, or an answer in JSON. *)
Inductive SmokeAnswer := SmokeBytes (bytes : string) (headers : list (string * string)) | SmokeReply (r : http_reply).
Definition artifact_headers (got : StudioBytes) (bytes sha : string) : list (string * string) :=
  [("content-type", by_type got); ("content-length", Str.of_int (Z.of_nat (String.length bytes))); ("x-vivijure-smoke-sha256", sha);
   ("cache-control", "no-store")].
Definition artifactSmokeRoute (tenantId smokeId : string) : M W string SmokeAnswer :=
  if negb provisioned then mret (SmokeReply (err_response "provisioner_unconfigured" 503 []))
  else
    found ← loadSmokeRender tenantId smokeId;
    match found with
    | None => mret (SmokeReply (err_response "not_found" 404 []))
    | Some (tenant, smoke) =>
        _ ← smoke_audit "tenant.read.smoke_render_artifact" (t_id tenant)
              (JObj [("smoke_id", JStr (smk_id smoke)); ("artifact_key", jtext (smk_artifact_key smoke))]);
        match smk_artifact_key smoke with
        | Some key =>
            if negb (bool_decide (smk_status smoke = SmokeSucceeded)) || negb (Str.truthy key) then
              mret (SmokeReply (err_response "no_artifact" 409 (("status", JStr (smoke_status_text (smk_status smoke))) ::
                smoke_message "this smoke render produced no verified artifact")))
            else
              got ← fetchArtifact open ring stub tenant key;
              match by_bytes got with
              | Some bytes =>
                  if negb (by_status got =? 200) then
                    mret (SmokeReply (err_response "artifact_unavailable" 502 (smoke_message
                      ("the tenant studio would not serve the artifact (HTTP " +:+ Str.of_int (by_status got) +:+ ")"))))
                  else
                    let sha := sha256Hex digest bytes in
                    if negb (bool_decide (smk_artifact_sha256 smoke = Some sha)) then
                      mret (SmokeReply (err_response "artifact_changed" 409
                        (smoke_message "the stored artifact no longer matches the bytes that were verified" ++
                         [("verified_sha256", jtext (smk_artifact_sha256 smoke)); ("current_sha256", JStr sha)])))
                    else mret (SmokeBytes bytes (artifact_headers got bytes sha))
              | None =>
                  mret (SmokeReply (err_response "artifact_unavailable" 502 (smoke_message
                    ("the tenant studio would not serve the artifact (HTTP " +:+ Str.of_int (by_status got) +:+ ")"))))
              end
        | None =>
            mret (SmokeReply (err_response "no_artifact" 409 (("status", JStr (smoke_status_text (smk_status smoke))) ::
              smoke_message "this smoke render produced no verified artifact")))
        end
    end.
End smoke.
