(* ===== verification/SmokePolicy.v ===== *)
(** * What a verified smoke render is worth

    The rules of the table and of the routes over every interleaving: a success is only ever recorded
    with bytes the studio served, an outcome is recorded once, and what an operator is handed is what
    was verified, for the tenant the path names, with a row in the trail first. *)

From S2P Require Export SmokeRender.
From Stdlib Require Import Ascii.
Open Scope string_scope.
Open Scope list_scope.
Open Scope Z_scope.
Open Scope plane_scope.

(** A statement of the door runs on whatever table the others left. *)
Definition runs_at {S T A} (others : T → T → Prop) (tbl : S → T) (op : M S string A) (d1 : Z → M T string A) : Prop :=
  ∀ s, ∃ mid now, others (tbl s) mid ∧
    match op s with
    | (Ok a, s') => d1 now mid = (Ok a, tbl s')
    | (Err _, s') => tbl s' = mid ∨ tbl s' = exec (d1 now) mid
    end.
Lemma runs_at_quiet {T A} (others : T → T → Prop) (now : Z) (d1 : Z → M T string A) : Reflexive others → runs_at (S:=T) others id (d1 now) d1.
Proof. intros Hr s. exists s, now. split; [apply Hr|]. unfold exec. destruct (d1 now s) as [[a|e] s']; [done|by right]. Qed.
Class SmokeDoorOk (W : Type) `{SmokeDoor W} (others : smoke_world → smoke_world → Prop) : Prop := {
  open_runs i t m b : runs_at others smoke_view (openSmokeRender i t m b) (λ now, on_renders (d1_openSmokeRender now i t m b));
  describe_runs t b : runs_at others smoke_view (describeSmokeRenderRefusal t b) (λ now, on_renders (d1_describeSmokeRenderRefusal now t b));
  get_runs i : runs_at others smoke_view (getSmokeRender i) (λ _, on_renders (d1_getSmokeRender i));
  submitted_runs i j b : runs_at others smoke_view (setSmokeRenderSubmitted i j b) (λ now, on_renders (d1_setSmokeRenderSubmitted now i j b));
  finish_runs i o : runs_at others smoke_view (finishSmokeRender i o) (λ now, on_renders (d1_finishSmokeRender now i o));
  action_runs a act t d : runs_at others smoke_view (recordAdminAction a act t d) (λ now, on_platform (d1_recordAdminAction (sql_now now) a act t d));
}.

Definition rows_of (w : smoke_world) : list SmokeRender := sd_renders (sw_renders w).
Definition trail_of (w : smoke_world) : list AdminAuditRow := pf_audit (sw_platform w).
(** The four columns. *)
Definition artifact_columns (r : SmokeRender) : option string * option Z * option string * option string :=
  (smk_artifact_key r, smk_artifact_bytes r, smk_artifact_sha256 r, smk_artifact_content_type r).
Definition columns_of (a : SmokeRenderArtifact) : option string * option Z * option string * option string :=
  (Some (sa_key a), Some (sa_bytes a), Some (sa_sha256 a), Some (sa_content_type a)).

(** What never changes in a row, and what no longer does once it has an outcome. *)
Definition row_kept (r r' : SmokeRender) : Prop :=
  smk_tenant_id r' = smk_tenant_id r ∧ smk_modules_release r' = smk_modules_release r ∧ smk_created_at r' = smk_created_at r ∧
  (is_running r = false → smk_status r' = smk_status r ∧ artifact_columns r' = artifact_columns r ∧ smk_error r' = smk_error r ∧
     smk_finished_at r' = smk_finished_at r).
#[export] Instance row_kept_preorder : PreOrder row_kept.
Proof.
split; [by intros r; split_and!|]. intros r1 r2 r3 (A1 & A2 & A3 & A4) (B1 & B2 & B3 & B4). split_and!; [congruence..|].
intros Hr. specialize (A4 Hr) as (C1 & C2 & C3 & C4). unfold is_running in *. rewrite C1 in B4. specialize (B4 Hr) as (D1 & D2 & D3 & D4).
split_and!; congruence.
Qed.

Section policy.
Context {W : Type} `{SmokeDoor W}.
Context (open : list ascii → list ascii → list ascii → option string) (ring : KekRing) (stub : string → HttpRequest → M W string StubResponse).
Context (json_parse : string → option js) (stringify : js → string) (date_parse : string → option Z) (digest : string → list ascii).

(** The tenant's studio reported a job complete and named this key. *)
Definition reported (tenant : Tenant) (job key : string) : Prop :=
  ∃ s poll s', pollRender open ring stub tenant job s = (Ok poll, s') ∧ sr_status poll = 200 ∧
    let view := parseJson json_parse (sr_text poll) in
    js_field view "status" = JStr "COMPLETED" ∧ readKeyframeKey (js_field view "output") = Some key.
(** It served these bytes under it. *)
Definition served_bytes (tenant : Tenant) (key : string) (got : StudioBytes) (bytes : string) : Prop :=
  (∃ s s', fetchArtifact open ring stub tenant key s = (Ok got, s')) ∧ by_status got = 200 ∧ by_bytes got = Some bytes ∧ bytes ≠ "".
Definition evidence (tenantId : string) (a : SmokeRenderArtifact) : Prop :=
  ∃ tenant job got bytes, t_id tenant = tenantId ∧ reported tenant job (sa_key a) ∧ served_bytes tenant (sa_key a) got bytes ∧
    a = artifact_of digest (sa_key a) got bytes.

(** What anybody may do: every statement of the code, a success only with its evidence. *)
Inductive smoke_step : smoke_world → smoke_world → Prop :=
| step_open now i t m b w : smoke_step w (exec (on_renders (d1_openSmokeRender now i t m b)) w)
| step_submitted now i j b w : smoke_step w (exec (on_renders (d1_setSmokeRenderSubmitted now i j b)) w)
| step_failed now i e w : smoke_step w (exec (on_renders (d1_finishSmokeRender now i (RenderFailed e))) w)
| step_succeeded now i a w : (∀ r, r ∈ rows_of w → smk_id r = i → evidence (smk_tenant_id r) a) →
    smoke_step w (exec (on_renders (d1_finishSmokeRender now i (RenderSucceeded a))) w)
| step_platform w db : platform_step (sw_platform w) db → smoke_step w (mkSmokeWorld (sw_renders w) db).
#[export] Instance smoke_steps_preorder : PreOrder (steps smoke_step).
Proof. split; [intros s; constructor|intros s t u; apply steps_trans]. Qed.

(** ** The table *)
Lemma step_evolves w w' : smoke_step w w' → evolves smk_id row_kept (rows_of w) (rows_of w').
Proof.
assert (∀ r : SmokeRender, row_kept r r) as Hrefl by (intros r; reflexivity).
intros [now i t m b v|now i j b v|now i e v|now i a v _|v db _]; unfold rows_of, exec, on_renders; cbn [snd sw_renders].
- unfold d1_openSmokeRender. destruct (negb (may_open _ _ _ _)); [apply evolves_refl; apply _|].
  destruct (existsb (λ r, smk_id r =s? i) _) eqn:E; [apply evolves_refl; apply _|]. destruct (negb _); [apply evolves_refl; apply _|].
  apply evolves_snoc; [apply _|]. intros y Hy Hk. rewrite existsb_false_iff in E. specialize (E y Hy). cbn in Hk. by rewrite Hk, String.eqb_refl in E.
- apply evolves_update; [apply _|]. intros r _. by split; [|split_and!].
- apply evolves_update; [apply _|]. intros r Hr. bool_hyps. split; [done|]. split_and!; [done..|congruence].
- apply evolves_update; [apply _|]. intros r Hr. bool_hyps. split; [done|]. split_and!; [done..|congruence].
- apply evolves_refl. apply _.
Qed.
Lemma steps_evolve w w' : steps smoke_step w w' → evolves smk_id row_kept (rows_of w) (rows_of w').
Proof.
induction 1 as [w|w w1 w2 Hs _ IH]; [apply evolves_refl; apply _|]. eapply evolves_trans; [apply _|by apply step_evolves|exact IH].
Qed.
Lemma smoke_evolves_NoDup l l' : evolves smk_id row_kept l l' → NoDup (smk_id <$> l) → NoDup (smk_id <$> l').
Proof. by intros (g & new & _ & _ & Hn). Qed.

Definition row_proved (r : SmokeRender) : Prop :=
  match smk_status r with
  | SmokeSucceeded => ∃ a, artifact_columns r = columns_of a ∧ evidence (smk_tenant_id r) a
  | _ => artifact_columns r = (None, None, None, None)
  end.
Lemma step_proved w w' : smoke_step w w' → (∀ r, r ∈ rows_of w → row_proved r) → ∀ r, r ∈ rows_of w' → row_proved r.
Proof.
intros Hs Hw r. destruct Hs as [now i t m b v|now i j b v|now i e v|now i a v Hev|v db _]; unfold rows_of, exec, on_renders in *; cbn [snd sw_renders].
- unfold d1_openSmokeRender. destruct (negb (may_open _ _ _ _)); [apply Hw|]. destruct (existsb _ _); [apply Hw|]. destruct (negb _); [apply Hw|].
  intros [Hr| ->%list_elem_of_singleton]%elem_of_app; [by apply Hw|done].
- intros (x & Hx & ->)%elem_of_update_where. specialize (Hw x Hx). by destruct (smk_id x =s? i).
- intros (x & Hx & ->)%elem_of_update_where. pose proof (Hw x Hx) as Hp. destruct (_ && _) eqn:E; [|done]. bool_hyps. unfold is_running in *. bool_hyps.
  unfold row_proved in *. match goal with S : smk_status x = _ |- _ => rewrite S in Hp end. exact Hp.
- intros (x & Hx & ->)%elem_of_update_where. pose proof (Hw x Hx) as Hp. destruct (_ && _) eqn:E; [|done]. bool_hyps.
  exists a. split; [done|]. by apply (Hev x).
- apply Hw.
Qed.
Lemma steps_proved w w' : steps smoke_step w w' → (∀ r, r ∈ rows_of w → row_proved r) → ∀ r, r ∈ rows_of w' → row_proved r.
Proof. induction 1 as [|w w1 w2 Hs _ IH]; [done|]. intros Hw. by apply IH, (step_proved w w1). Qed.
End policy.

(** ** The routes keep to those statements *)
Section routes.
Context {W : Type} `{!SmokeDoor W}.
Context (open : list ascii → list ascii → list ascii → option string) (ring : KekRing) (stub : string → HttpRequest → M W string StubResponse).
Context (json_parse : string → option js) (stringify : js → string) (date_parse : string → option Z) (digest : string → list ascii).
Abbreviation world_step := (smoke_step open ring stub json_parse digest).
Abbreviation proved := (evidence open ring stub json_parse digest).
Context `{!SmokeDoorOk W (steps world_step)}.
Context (clock : M W string Z) (bounds : SmokeRenderBounds) (getTenantById : string → M W string (option Tenant)) (random : nat → M W string (list ascii)).
Context (provisioned : bool) (actor : string).
Definition smoke_reached (w0 : smoke_world) (s : W) : Prop := steps world_step w0 (smoke_view s).
Hypothesis stub_keeps : ∀ script rq w0, preserves (smoke_reached w0) (stub script rq).
Hypothesis clock_keeps : ∀ w0, preserves (smoke_reached w0) clock.
Hypothesis random_keeps : ∀ n w0, preserves (smoke_reached w0) (random n).
Hypothesis tenants_keep : ∀ i w0, preserves (smoke_reached w0) (getTenantById i).
Hypothesis tenants_by_id : ∀ i s t s', getTenantById i s = (Ok (Some t), s') → t_id t = i.

Definition keeps_at {A} (m : M W string A) (s : W) : Prop := steps world_step (smoke_view s) (smoke_view (exec m s)).
Lemma keeps_ret {A} (a : A) s : keeps_at (mret a) s.
Proof. apply steps_refl. Qed.
Lemma keeps_throw {A} e s : keeps_at (throw e : M W string A) s.
Proof. apply steps_refl. Qed.
Lemma keeps_bind {A B} (m : M W string A) (f : A → M W string B) s :
  keeps_at m s → (∀ a s', m s = (Ok a, s') → steps world_step (smoke_view s) (smoke_view s') → keeps_at (f a) s') → keeps_at (m ≫= f) s.
Proof.
unfold keeps_at, exec. intros Hm Hf. rewrite bind_run. destruct (m s) as [[a|e] s'] eqn:E; [|exact Hm].
etrans; [exact Hm|]. by apply Hf.
Qed.
Lemma keeps_preserves {A} (m : M W string A) s : (∀ w0, preserves (smoke_reached w0) m) → keeps_at m s.
Proof. intros Hm. apply (Hm (smoke_view s)). apply steps_refl. Qed.
Lemma keeps_runs {A} (op : M W string A) (d1 : Z → M smoke_world string A) s : runs_at (steps world_step) smoke_view op d1 →
  (∀ now mid, steps world_step (smoke_view s) mid → steps world_step mid (exec (d1 now) mid)) → keeps_at op s.
Proof.
intros Hop Hd. destruct (Hop s) as (mid & now & Hm & Hr). specialize (Hd now mid Hm). unfold keeps_at, exec in *.
destruct (op s) as [[a|e] s']; cbn in *.
- rewrite Hr in Hd. by etrans.
- destruct Hr as [-> | ->]; [done|]. by etrans.
Qed.
Lemma runs_at_ok {A} (op : M W string A) (d1 : Z → M smoke_world string A) s a s' : runs_at (steps world_step) smoke_view op d1 → op s = (Ok a, s') →
  ∃ mid now, steps world_step (smoke_view s) mid ∧ d1 now mid = (Ok a, smoke_view s').
Proof. intros Hop Hs. destruct (Hop s) as (mid & now & Hm & Hr). rewrite Hs in Hr. eauto. Qed.

Lemma keeps_open i t m b s : keeps_at (openSmokeRender i t m b) s.
Proof. eapply keeps_runs; [apply open_runs|]. intros now mid _. apply steps_one, step_open. Qed.
Lemma keeps_describe t b s : keeps_at (describeSmokeRenderRefusal t b) s.
Proof. eapply keeps_runs; [apply describe_runs|]. intros now [r p] _. apply steps_refl. Qed.
Lemma keeps_get i s : keeps_at (getSmokeRender i) s.
Proof. eapply keeps_runs; [apply get_runs|]. intros now [r p] _. apply steps_refl. Qed.
Lemma keeps_submitted i j b s : keeps_at (setSmokeRenderSubmitted i j b) s.
Proof. eapply keeps_runs; [apply submitted_runs|]. intros now mid _. apply steps_one, step_submitted. Qed.
Lemma keeps_failed i e s : keeps_at (finishSmokeRender i (RenderFailed e)) s.
Proof. eapply keeps_runs; [apply finish_runs|]. intros now mid _. apply steps_one, step_failed. Qed.
Lemma keeps_succeeded i a s :
  (∀ mid, steps world_step (smoke_view s) mid → ∀ r, r ∈ rows_of mid → smk_id r = i → proved (smk_tenant_id r) a) →
  keeps_at (finishSmokeRender i (RenderSucceeded a)) s.
Proof. intros Hev. eapply keeps_runs; [apply finish_runs|]. intros now mid Hm. apply steps_one, step_succeeded. by apply Hev. Qed.
Lemma keeps_action a act t d s : keeps_at (recordAdminAction a act t d) s.
Proof.
eapply keeps_runs; [apply action_runs|]. intros now mid _. apply steps_one. unfold exec, on_platform. cbn [snd]. apply step_platform, step_action.
Qed.
Lemma keeps_dispatch tenant method path body s : keeps_at (smoke_dispatch open ring stub tenant method path body) s.
Proof.
apply keeps_preserves. intros w0. unfold smoke_dispatch. repeat (case_match; try by (apply preserves_throw)).
all: try apply preserves_throw. all: apply preserves_bind; [apply preserves_lift|]; intros token; apply stub_keeps.
Qed.
Create HintDb smoke.
Hint Resolve keeps_ret keeps_throw keeps_open keeps_describe keeps_get keeps_submitted keeps_failed keeps_action keeps_dispatch : smoke.
Ltac keep := repeat first [solve [eauto with smoke] | simple apply keeps_bind; [|intros ? ? ? ?] |
  match goal with |- keeps_at (match ?x with _ => _ end) _ => destruct x eqn:? end].
Lemma keeps_poll tenant job s : keeps_at (pollRender open ring stub tenant job) s.
Proof. unfold pollRender. keep. Qed.
Lemma keeps_fetch tenant key s : keeps_at (fetchArtifact open ring stub tenant key) s.
Proof. unfold fetchArtifact. keep. Qed.
Lemma keeps_put tenant s : keeps_at (putCanonicalBundle open ring stub tenant) s.
Proof. unfold putCanonicalBundle. keep. Qed.
Lemma keeps_submit tenant key s : keeps_at (submitKeyframeRender open ring stub tenant key) s.
Proof. unfold submitKeyframeRender. keep. Qed.
Lemma keeps_reread smoke s : keeps_at (reread smoke) s.
Proof. unfold reread. keep. Qed.
Hint Resolve keeps_poll keeps_fetch keeps_put keeps_submit keeps_reread : smoke.
Lemma keeps_condemn smoke message s : keeps_at (condemn smoke message) s.
Proof. unfold condemn. keep. Qed.
Hint Resolve keeps_condemn : smoke.
Lemma keeps_start tenant id s : keeps_at (startSmokeRender open ring stub json_parse bounds tenant id) s.
Proof. unfold startSmokeRender. keep. Qed.

(** A row read earlier still names its tenant. *)
Definition known (smoke : SmokeRender) (w : smoke_world) : Prop := ∃ w1, NoDup (smk_id <$> rows_of w1) ∧ smoke ∈ rows_of w1 ∧ steps world_step w1 w.
Lemma known_later smoke w w' : known smoke w → steps world_step w w' → known smoke w'.
Proof. intros (w1 & Hn & Hin & Hs) Hs'. exists w1. split_and!; [done..|by etrans]. Qed.
Lemma known_tenant smoke w r : known smoke w → r ∈ rows_of w → smk_id r = smk_id smoke → smk_tenant_id r = smk_tenant_id smoke.
Proof.
intros (w1 & Hn & Hin & Hs) Hr Hi. apply steps_evolve in Hs.
destruct (evolves_only smk_id row_kept _ _ smoke r Hn Hs Hin Hr Hi) as (Ht & _). exact Ht.
Qed.

Lemma keeps_advance tenant smoke s : known smoke (smoke_view s) → t_id tenant = smk_tenant_id smoke →
  keeps_at (advanceSmokeRender open ring stub json_parse date_parse digest clock bounds tenant smoke) s.
Proof.
intros Hk Ht. unfold advanceSmokeRender. destruct (negb (is_running smoke)); [keep|]. destruct (smk_studio_job_id smoke) as [job|]; [|keep].
destruct (negb (Str.truthy job)); [keep|]. apply keeps_bind; [by apply keeps_preserves|]. intros now s1 _ H1. destruct (aged _ _ _ _); [keep|].
apply keeps_bind; [keep|]. intros poll s2 Hpoll H2. destruct (negb _) eqn:Hst; [keep|]. cbv zeta. destruct (_ || _); [keep|].
destruct (negb (js_string_or_empty _ =s? "COMPLETED")) eqn:Hc; [keep|]. destruct (readKeyframeKey _) as [key|] eqn:Hkey; [|keep].
apply keeps_bind; [keep|]. intros got s3 Hgot H3. destruct (by_bytes got) as [bytes|] eqn:Hb; [|keep]. destruct (_ || _) eqn:Hbad; [keep|].
apply keeps_bind; [|intros; keep]. apply keeps_succeeded. intros mid Hmid r Hr Hi. bool_hyps.
assert (known smoke mid) as Hk' by (eapply known_later; [exact Hk|]; chain).
rewrite (known_tenant _ _ _ Hk' Hr Hi). exists tenant, job, got, bytes. split_and!; try done.
- exists s1, poll, s2. split_and!; try done. unfold js_string_or_empty in *. by destruct (js_field (parseJson json_parse (sr_text poll)) "status") as [| |?|?|st|?|?]; cbn in Hc; bool_hyps; subst.
- unfold served_bytes. split_and!; [by exists s2, s3|done|done|by intros ->].
Qed.

Definition from_nothing (s : W) : Prop := ∃ w0, rows_of w0 = [] ∧ smoke_reached w0 s.
Lemma nothing_keeps {A} (m : M W string A) s a s' : from_nothing s → keeps_at m s → m s = (Ok a, s') → from_nothing s'.
Proof. intros (w0 & H0 & Hs) Hk Hm. exists w0. split; [done|]. unfold smoke_reached, keeps_at, exec in *. rewrite Hm in Hk. by etrans. Qed.
Lemma nothing_NoDup s : from_nothing s → NoDup (smk_id <$> rows_of (smoke_view s)).
Proof. intros (w0 & H0 & Hs). unfold smoke_reached in Hs. apply steps_evolve in Hs. eapply smoke_evolves_NoDup; [exact Hs|]. rewrite H0. constructor. Qed.
Lemma nothing_proved s r : from_nothing s → r ∈ rows_of (smoke_view s) → row_proved open ring stub json_parse digest r.
Proof. intros (w0 & H0 & Hs). apply (steps_proved _ _ _ _ _ _ _ Hs). rewrite H0. by intros x ?%elem_of_nil. Qed.

Lemma load_inv tenantId smokeId s tenant smoke s' : loadSmokeRender getTenantById tenantId smokeId s = (Ok (Some (tenant, smoke)), s') → from_nothing s →
  t_id tenant = tenantId ∧ smk_tenant_id smoke = tenantId ∧ smk_id smoke = smokeId ∧ known smoke (smoke_view s') ∧ row_proved open ring stub json_parse digest smoke.
Proof.
unfold loadSmokeRender. intros (found & s1 & Hg & Hs)%M_bind_inv H0. destruct found as [r|]; [|done]. destruct (String.eqb_spec (smk_tenant_id r) tenantId) as [Hr|]; [|done].
cbn [negb] in Hs. apply M_bind_inv in Hs as (t & s2 & Ht & Hs). destruct t as [t|]; [|done]. injection Hs as <- <- <-.
pose proof (nothing_keeps _ _ _ _ H0 (keeps_get smokeId s) Hg) as H1.
apply (runs_at_ok _ _ _ _ _ (get_runs _)) in Hg as (mid & now & Hmid & Hd). unfold on_renders, d1_getSmokeRender, gets in Hd. cbn in Hd.
injection Hd as Hf Hv. apply find_Some_elem in Hf as [Hin Hi]. bool_hyps.
assert (r ∈ rows_of (smoke_view s1)) as Hin1 by (by rewrite <- Hv). split_and!; [by eapply tenants_by_id|done|done| |by apply (nothing_proved s1)].
exists (smoke_view s1). split_and!; [by apply nothing_NoDup|done|].
pose proof (tenants_keep (smk_tenant_id r) (smoke_view s1) s1 (steps_refl _ _)) as Hk. unfold smoke_reached, exec in Hk. by rewrite Hr, Ht in Hk.
Qed.
Lemma keeps_load tenantId smokeId s : keeps_at (loadSmokeRender getTenantById tenantId smokeId) s.
Proof. unfold loadSmokeRender. keep. by apply keeps_preserves. Qed.

Abbreviation start_route := (startSmokeRoute open ring stub json_parse stringify bounds getTenantById random provisioned actor).
Abbreviation poll_route := (pollSmokeRoute open ring stub json_parse stringify date_parse digest clock bounds getTenantById provisioned actor).
Abbreviation artifact_route := (artifactSmokeRoute open ring stub stringify digest getTenantById provisioned actor).
Lemma keeps_start_route tenantId s : keeps_at (start_route tenantId) s.
Proof.
unfold startSmokeRoute. destruct (negb provisioned); [keep|]. apply keeps_bind; [by apply keeps_preserves|]. intros found s1 _ _.
destruct found as [tenant|]; [|keep]. destruct (t_suspended_at tenant); [keep|]. destruct (negb _); [keep|]. destruct (_ || _); [keep|].
apply keeps_bind; [by apply keeps_preserves|]. intros bytes s2 _ _. apply keeps_bind; [apply keeps_start|]. intros started s3 _ _. unfold smoke_audit. keep.
Qed.
Lemma keeps_poll_route tenantId smokeId s : from_nothing s → keeps_at (poll_route tenantId smokeId) s.
Proof.
intros H0. unfold pollSmokeRoute. destruct (negb provisioned); [keep|]. apply keeps_bind; [apply keeps_load|]. intros found s1 Hl _.
destruct found as [[tenant smoke]|]; [|keep]. destruct (load_inv _ _ _ _ _ _ Hl H0) as (Ht & Hst & _ & Hk & _). unfold smoke_audit.
apply keeps_bind; [keep|]. intros [] s2 _ H2. apply keeps_bind; [|intros; keep]. apply keeps_advance; [by eapply known_later|congruence].
Qed.
Lemma keeps_artifact_route tenantId smokeId s : keeps_at (artifact_route tenantId smokeId) s.
Proof.
unfold artifactSmokeRoute. destruct (negb provisioned); [keep|]. apply keeps_bind; [apply keeps_load|]. intros found s1 _ _. unfold smoke_audit. keep.
Qed.

Lemma routes_keep_nothing s tenantId smokeId : from_nothing s →
  from_nothing (exec (start_route tenantId) s) ∧ from_nothing (exec (poll_route tenantId smokeId) s) ∧ from_nothing (exec (artifact_route tenantId smokeId) s).
Proof.
intros H0. pose proof H0 as (w0 & Hw0 & Hs). pose proof (keeps_poll_route tenantId smokeId s H0) as Hp.
split_and!; exists w0; (split; [done|]); unfold smoke_reached; (etrans; [exact Hs|]); [apply keeps_start_route|exact Hp|apply keeps_artifact_route].
Qed.

(** C20. Verified means fetched.  Whatever else runs, the three routes only ever add to the table what these
    rules allow, and in every state reached from an empty table a render is shown as verified exactly
    when it succeeded, and then a studio of its tenant reported the job complete, named the key and
    served the very bytes whose length and digest the row has; a render that did not succeed has no
    artifact at all.  And an outcome is recorded once: no later statement of anybody changes it. *)
Theorem verified_means_fetched s : from_nothing s →
  (∀ tenantId smokeId, from_nothing (exec (start_route tenantId) s) ∧ from_nothing (exec (poll_route tenantId smokeId) s) ∧
     from_nothing (exec (artifact_route tenantId smokeId) s)) ∧
  (∀ r, r ∈ rows_of (smoke_view s) →
     (is_verified r = true ↔ smk_status r = SmokeSucceeded) ∧
     (is_verified r = true → ∃ a, artifact_columns r = columns_of a ∧ proved (smk_tenant_id r) a) ∧
     (is_verified r = false → artifact_columns r = (None, None, None, None)) ∧
     (is_running r = false → ∀ w', steps world_step (smoke_view s) w' → ∃ r', r' ∈ rows_of w' ∧ smk_id r' = smk_id r ∧
        smk_status r' = smk_status r ∧ artifact_columns r' = artifact_columns r ∧ smk_error r' = smk_error r ∧ smk_finished_at r' = smk_finished_at r)).
Proof.
intros H0. split; [intros tenantId smokeId; by apply routes_keep_nothing|].
intros r Hr. pose proof (nothing_proved s r H0 Hr) as Hp. unfold row_proved in Hp. unfold is_verified. split_and!.
- destruct (smk_status r) eqn:E; cbn; [done| |done]. destruct Hp as (a & Ha & _). unfold artifact_columns, columns_of in Ha. by simplify_eq/=; destruct (smk_artifact_sha256 r).
- destruct (smk_status r); [done| |done]. by intros _.
- destruct (smk_status r); [done| |done]. destruct Hp as (a & Ha & _). unfold artifact_columns, columns_of in Ha. by destruct (smk_artifact_sha256 r); simplify_eq.
- intros Hrun w' Hs'. apply steps_evolve in Hs'. destruct (evolves_row _ _ _ _ _ Hs' Hr) as (r' & Hr' & Hi & _ & _ & _ & Hk).
  exists r'. destruct (Hk Hrun) as (K1 & K2 & K3 & K4). split_and!; done.
Qed.

(** An operator is handed what was verified.  Bytes are only served for a render of the very tenant the
    path names, once it succeeded; they have the digest of the bytes that were verified and were fetched
    from the tenant's studio just then, under the key of the row, and before that the look was written
    into the trail, where it stays. *)
Theorem smoke_artifact_is_the_verified_one tenantId smokeId s bytes headers s' : from_nothing s →
  artifact_route tenantId smokeId s = (Ok (SmokeBytes bytes headers), s') →
  ∃ tenant smoke a got s1 s2 seen, t_id tenant = tenantId ∧ smk_id smoke = smokeId ∧ smk_tenant_id smoke = tenantId ∧ is_verified smoke = true ∧
    artifact_columns smoke = columns_of a ∧ proved tenantId a ∧ sha256Hex digest bytes = sa_sha256 a ∧
    fetchArtifact open ring stub tenant (sa_key a) s1 = (Ok got, s2) ∧ by_status got = 200 ∧ by_bytes got = Some bytes ∧
    seen ∈ trail_of (smoke_view s1) ∧ aa_actor seen = actor ∧ aa_action seen = "tenant.read.smoke_render_artifact" ∧ aa_target seen = Some tenantId ∧
    seen ∈ trail_of (smoke_view s').
Proof.
intros H0. unfold artifactSmokeRoute. destruct (negb provisioned); [done|]. intros (found & s1 & Hl & Hs)%M_bind_inv.
destruct found as [[tenant smoke]|]; [|done]. destruct (load_inv _ _ _ _ _ _ Hl H0) as (Ht & Hst & Hsid & _ & Hp).
apply M_bind_inv in Hs as ([] & s2 & Ha & Hs). unfold smoke_audit in Ha.
apply (runs_at_ok _ _ _ _ _ (action_runs _ _ _ _)) in Ha as (mid & now & _ & Hd). unfold on_platform, d1_recordAdminAction, modify in Hd. injection Hd as Hv.
destruct (smk_artifact_key smoke) as [key|] eqn:Hkey; [|done]. destruct (_ || _) eqn:Hbad; [done|]. bool_hyps.
unfold row_proved in Hp. match goal with E : smk_status smoke = _ |- _ => rewrite E in Hp end. destruct Hp as (a & Hcol & Hev).
apply M_bind_inv in Hs as (got & s3 & Hf & Hs). destruct (by_bytes got) as [b|] eqn:Hb; [|done]. destruct (negb (by_status got =? 200)) eqn:H200; [done|].
cbv zeta in Hs. destruct (negb (bool_decide _)) eqn:Hsha; [done|]. injection Hs as <- _ <-. bool_hyps.
set (seen := mkAuditRow actor "tenant.read.smoke_render_artifact" (Some (t_id tenant)) _ (sql_now now)) in *.
assert (seen ∈ trail_of (smoke_view s2)) as Hseen by (rewrite <- Hv; unfold trail_of; cbn; apply elem_of_app; right; by left).
pose proof Hcol as Hcol2. unfold artifact_columns, columns_of in Hcol2. injection Hcol2 as Hk1 _ Hk3 _. assert (key = sa_key a) as -> by congruence.
exists tenant, smoke, a, got, s2, s3, seen. split_and!; try done.
- unfold is_verified. match goal with E : smk_status smoke = _ |- _ => rewrite E end. by rewrite Hk3.
- by rewrite <- Hst.
- congruence.
- cbn. congruence.
- pose proof (keeps_fetch tenant (sa_key a) s2) as Hk. unfold keeps_at, exec in Hk. rewrite Hf in Hk. cbn in Hk. clear -Hk Hseen. induction Hk as [|w w1 w2 Hs _ IH]; [done|].
  apply IH. destruct Hs; try exact Hseen. assert (steps platform_step (sw_platform w) db) as [new Hnew]%trail_grows by (by apply steps_one).
  unfold trail_of in *. cbn. rewrite Hnew. apply elem_of_app. by left.
Qed.
End routes.
