(* ===== verification/Entry.v ===== *)
(** * The front door (handle, me and the policy routes of src/index.ts, fetchAupSha256 of src/aup.ts)

    The order in which a request meets the doors: the tenant's own studio, the origin check, the public
    routes, the sign-in routes, the proxy, the webhook, the operators' routes, and behind the session and
    the policy the tenant's routes.  What stands behind a door with a state of its own (the proxy, the
    webhook, the handlers of the operators and of the tenants, the static pages) is an argument: each is
    modelled in its own file, and what is proved here holds whatever they do. *)

From S2P Require Export ApiToken OperatorAuth Routing RunpodProxy.
From Stdlib Require Import Ascii.
Open Scope string_scope.
Open Scope list_scope.
Open Scope Z_scope.
Open Scope plane_scope.

(** ** Requests and answers *)
(** [in_param] is [url.searchParams.get], [in_json] the body as JSON (null where it is none), [in_form]
    the field of its form. *)
Record Incoming := mkIncoming {
  in_request : HttpRequest;
  in_path : string;
  in_param : string → option string;
  in_json : js;
  in_form : result string (option form_value);
}.
(** The confirm page is fixed text around one hidden value. *)
Inductive entry_answer :=
| StudioLeg (outcome : RouteOutcome)
| Plain (r : http_reply)
| ConfirmPage (value : string).

Definition no_content (headers : list (string * string)) : http_reply := mkHttpReply 204 headers None.
Definition internal_error : http_reply := err_response "internal_error" 500 [].
Definition CONTROL_PLANE_VERSION : string := "1.31.0".

(** [/^\/auth\/([a-z]+)\/leg$/] *)
Definition lower_letter (c : ascii) : bool := let n := Str.code c in ((97 <=? n) && (n <=? 122))%N.
Definition sso_path (leg path : string) : option string :=
  match Text.split "/" path with
  | [e; a; p; l] => if (e =s? "") && (a =s? "auth") && (l =s? leg) && Str.truthy p && forallb lower_letter (Str.chars p) then Some p else None
  | _ => None
  end.

(** ** The operator console's document *)
Definition isOperatorConsoleDocument (path : string) : bool := (path =s? "/admin") || (path =s? "/admin.html").
Definition OPERATOR_CONSOLE_CSP : string :=
  Str.join "; " ["default-src 'none'"; "script-src 'self'"; "style-src 'self'"; "img-src 'self' data:"; "connect-src 'self'"; "base-uri 'none'";
                 "form-action 'none'"; "frame-ancestors 'none'"].
Definition withOperatorConsoleHeaders (r : http_reply) : http_reply :=
  mkHttpReply (hr_status r)
    (foldl (λ hs h, header_set h.1 h.2 hs) (hr_headers r)
      [("content-security-policy", OPERATOR_CONSOLE_CSP); ("x-frame-options", "DENY"); ("x-content-type-options", "nosniff");
       ("referrer-policy", "no-referrer"); ("cache-control", "no-store")]) (hr_body r).

Section entry.
Context {W : Type} `{AuthStore W}.
Variable env : string → option string.
Variable router : RouterEnv.
Variable digest : string → list ascii.
Variable open : list ascii → list ascii → list ascii → option string.
Variable random : nat → M W string (list ascii).
Variable clock : M W string Z.
Variable fetch : HttpRequest → M W string HttpResponse.
Variable json_parse : string → option js.
Variable text_of : js → string.
Variable resolve_url : string → string → option Url.
Variable getSetting : string → M W string (option string).
Variable getTenantForAccount : string → M W string (option Tenant).
Variable send : string → string → string → M W string unit.
Variable limit : option (string → M W string bool).
Variable lookup_slug : string → M W string (option Tenant).
Variable script_exists : string → M W string bool.
(** Whether this plane offers the shared tier, and what names its build. *)
Variable shared_tier : bool.
Variable build : option (string * string * string).

Definition AUP_VERSION : string := var env "AUP_VERSION".

(** ** The policy *)
Definition fetchAupSha256 : M W string (option string) :=
  catch (res ← fetch (mkRequest (var env "AUP_URL") "GET" [] BNone); mret (if rs_ok res then Some (sha256Hex digest (rs_text res)) else None))
        (λ _, mret None).
Definition aup_current : M W string http_reply :=
  sha ← fetchAupSha256;
  mret (json_response [("version", JStr AUP_VERSION); ("url", JStr (var env "AUP_URL")); ("sha256", jtext sha)] 200).
Definition aup_accept (rq : Incoming) (account : Account) : M W string http_reply :=
  let headers := rq_headers (in_request rq) in
  let version := match js_field (in_json rq) "version" with JUndef | JNull => "" | v => js_text text_of v end in
  sha ← fetchAupSha256;
  r ← acceptAup digest (ac_id account) version AUP_VERSION (header_get "cf-connecting-ip" headers) (header_get "user-agent" headers) sha;
  mret (match r with
        | AupOk => no_content []
        | AupUnverifiable => err_response "aup_unverifiable" 503 [("message", JStr "we could not verify the policy text; nothing was recorded")]
        | AupStale current => err_response "aup_version_stale" 409 [("current", JStr current)]
        end).

(** ** Who am I *)
Definition jmode (m : option RunPodMode) : js := match m with Some Shared => JStr "shared" | Some Dedicated => JStr "dedicated" | None => JNull end.
Definition tenant_view_js (v : TenantView) : js :=
  JObj [("id", JStr (tv_id v)); ("slug", JStr (tv_slug v)); ("status", JStr (tv_status v)); ("lifecycle", JStr (tv_lifecycle v)); ("url", jtext (tv_url v));
        ("studio_release", jtext (tv_studio_release v)); ("modules_release", jtext (tv_modules_release v)); ("created_at", JStr (tv_created_at v));
        ("live_at", jtext (tv_live_at v)); ("suspended_reason", jtext (tv_suspended_reason v)); ("runpod_mode", jmode (tv_runpod_mode v))].
Definition me (account : Account) : M W string http_reply :=
  tenant ← getTenantForAccount (ac_id account);
  acceptedCurrent ← hasAcceptedCurrent (ac_id account) AUP_VERSION;
  last ← getLastAupAcceptance (ac_id account);
  mret (json_response
    [("account", JObj [("id", JStr (ac_id account)); ("email", JStr (ac_email account)); ("created_at", JStr (ac_created_at account))]);
     ("aup", JObj [("required_version", JStr AUP_VERSION); ("accepted", JBool acceptedCurrent);
        ("last_accepted", match last with Some (v, at_) => JObj [("version", JStr v); ("accepted_at", JStr at_)] | None => JNull end)]);
     ("tenant", match tenant with Some t => tenant_view_js (tenantView t (tenantDomainSuffix router)) | None => JNull end)] 200).

(** ** The public routes *)
Definition platform_config : M W string http_reply :=
  signups ← getSetting "signups_enabled";
  mret (json_response
    [("signups_enabled", JBool (settingEnabled signups)); ("aup_version", JStr AUP_VERSION);
     ("auth_methods", JArr (JStr "email" :: (JStr ∘ sso_name <$> configuredProviders env))); ("shared_tier_available", JBool shared_tier)] 200).
Definition platform_version : http_reply :=
  json_response [("control_plane_version", JStr CONTROL_PLANE_VERSION);
    ("build", match build with
              | Some (id, timestamp, tag) => JObj [("id", JStr id); ("timestamp", JStr timestamp); ("tag", if Str.truthy tag then JStr tag else JNull)]
              | None => JObj [("id", JNull); ("timestamp", JNull); ("tag", JNull)]
              end)] 200.

(** ** Signing in by link, and out *)
Definition bad_origin (rq : Incoming) : bool :=
  match header_get "origin" (rq_headers (in_request rq)) with Some o => Str.truthy o && negb (o =s? publicOrigin env) | None => false end.
Definition link_spend (rq : Incoming) : M W string http_reply :=
  if bad_origin rq then mret (err_response "bad_origin" 403 [])
  else
    let token := magicLinkTokenFromPost (header_get "content-type" (rq_headers (in_request rq))) (in_form rq) in
    if negb (Str.truthy token) then mret (redirectTo env "/?error=link_invalid" [])
    else
      signups ← getSetting "signups_enabled";
      now ← clock;
      result ← redeemMagicLink digest random token (settingEnabled signups) now;
      match result with
      | UpSignupsClosed => mret (redirectTo env "/?error=signups_closed" [])
      | UpUnavailable => mret (redirectTo env "/?error=link_invalid" [])
      | UpOk account _ =>
          now ← clock;
          '(token, maxAge) ← startSession digest random (ac_id account) now;
          mret (redirectTo env "/" [("set-cookie", sessionCookie token maxAge (host_domain env))])
      end.
Definition log_out (rq : Incoming) : M W string http_reply :=
  now ← clock;
  _ ← endSession digest (header_get "cookie" (rq_headers (in_request rq))) now;
  mret (no_content [("set-cookie", clearedSessionCookie (host_domain env))]).

(** ** What stands behind the doors *)
Variable proxyRoutes : ProxyRoute → Incoming → M W string http_reply.
Variable webhook : Incoming → M W string http_reply.
Variable adminHandlers : OperatorPrincipal → Incoming → M W string http_reply.
Variable tenantRoutes : Account → Incoming → M W string http_reply.
Variable assets : Incoming → M W string http_reply.

(** ** The operators' door; the stamp of a credential's last use is left to [waitUntil] and not part of it *)
Definition admin_door (rq : Incoming) : M W string http_reply :=
  now ← clock;
  gate ← adminGate digest (rq_method (in_request rq)) (in_path rq) (header_get "authorization" (rq_headers (in_request rq)))
           (env "CONTROL_PLANE_ADMIN_TOKEN") now;
  match gate with
  | Unauthorized => mret (err_response "unauthorized" 401 [])
  | NoSuchRoute => mret (err_response "not_found" 404 [])
  | RootCredentialRequired => mret (err_response "root_credential_required" 403 [("message", JStr
      ("operator credential lifecycle is reachable only with the shared root credential; a scoped credential " +:+
       "that could mint another one would hold every scope in two requests"))])
  | InsufficientScope required held => mret (err_response "insufficient_scope" 403 [("required", JStr required); ("held", JArr (JStr <$> held))])
  | AdmittedAs principal => adminHandlers principal rq
  end.

(** ** Behind the session *)
Definition session_door (rq : Incoming) : M W string http_reply :=
  now ← clock;
  found ← resolveSession digest (header_get "cookie" (rq_headers (in_request rq))) now;
  match found with
  | None => mret (err_response "unauthorized" 401 [])
  | Some account =>
      let method := rq_method (in_request rq) in
      if (method =s? "GET") && (in_path rq =s? "/api/me") then me account
      else if (method =s? "POST") && (in_path rq =s? "/api/aup/accept") then aup_accept rq account
      else if isAupExempt (in_path rq) then tenantRoutes account rq
      else
        ok ← hasAcceptedCurrent (ac_id account) AUP_VERSION;
        if ok : bool then tenantRoutes account rq else mret (err_response "aup_required" 403 [("version", JStr AUP_VERSION)])
  end.

(** ** The routes, in the order they are tried *)
Definition answered (m : M W string http_reply) : M W string (entry_answer * option (M W string unit)) := r ← m; mret (Plain r, None).
Definition is_route (rq : Incoming) (method path : string) : bool := (rq_method (in_request rq) =s? method) && (in_path rq =s? path).
Definition on_get {A} (rq : Incoming) (o : option A) : option A := if rq_method (in_request rq) =s? "GET" then o else None.
Definition routes (rq : Incoming) : M W string (entry_answer * option (M W string unit)) :=
  if is_route rq "GET" "/api/platform/config" then answered platform_config
  else if is_route rq "GET" "/api/platform/version" then answered (mret platform_version)
  else if is_route rq "GET" "/api/aup/current" then answered aup_current
  else if is_route rq "POST" "/api/auth/email/start" then
    '(r, mail) ← emailStart env digest random clock text_of getSetting send limit (in_json rq); mret (Plain r, mail)
  else if is_route rq "GET" "/auth/email/callback" then
    let token := default "" (in_param rq "token") in
    mret (if negb (Str.truthy token) then Plain (redirectTo env "/?error=link_invalid" []) else ConfirmPage (escapeHtml token), None)
  else if is_route rq "POST" "/auth/email/callback" then answered (link_spend rq)
  else match on_get rq (sso_path "start" (in_path rq)) with
  | Some provider => answered (beginSso env digest random clock resolve_url provider (in_param rq))
  | None =>
  match on_get rq (sso_path "callback" (in_path rq)) with
  | Some provider => answered (finishSso env digest random clock fetch json_parse text_of getSetting provider (in_param rq))
  | None =>
  if is_route rq "POST" "/api/auth/logout" then answered (log_out rq)
  else match matchProxyRoute (rq_method (in_request rq)) (in_path rq) with
  | Some route => answered (proxyRoutes route rq)
  | None =>
  if is_route rq "POST" "/api/webhooks/paypal" then answered (webhook rq)
  else if starts_with "/api/admin/" (in_path rq) then answered (admin_door rq)
  else if starts_with "/api/" (in_path rq) then answered (session_door rq)
  else answered (asset ← assets rq; mret (if isOperatorConsoleDocument (in_path rq) then withOperatorConsoleHeaders asset else asset))
  end end end.

(** A state-changing request to the API from another page's origin. *)
Definition cross_origin (rq : Incoming) : bool :=
  let method := rq_method (in_request rq) in
  negb (method =s? "GET") && negb (method =s? "HEAD") && starts_with "/api/" (in_path rq) && negb (in_path rq =s? "/api/webhooks/paypal") && bad_origin rq.
Definition handle (rq : Incoming) : M W string (entry_answer * option (M W string unit)) :=
  outcome ← routeTenantRequest digest open lookup_slug clock script_exists router (in_request rq);
  match outcome with
  | NotATenant =>
      if cross_origin rq then mret (Plain (err_response "bad_origin" 403 []), None)
      else catch (routes rq) (λ _, mret (Plain internal_error, None))
  | outcome => mret (StudioLeg outcome, None)
  end.
End entry.

(** ** What the doors keep out *)
Section gates.
Context {W : Type} `{AuthStore W}.
Context (env : string → option string) (router : RouterEnv) (digest : string → list ascii) (open : list ascii → list ascii → list ascii → option string).
Context (random : nat → M W string (list ascii)) (clock : M W string Z) (fetch : HttpRequest → M W string HttpResponse).
Context (json_parse : string → option js) (text_of : js → string) (resolve_url : string → string → option Url).
Context (getSetting : string → M W string (option string)) (getTenantForAccount : string → M W string (option Tenant)).
Context (send : string → string → string → M W string unit) (limit : option (string → M W string bool)).
Context (lookup_slug : string → M W string (option Tenant)) (script_exists : string → M W string bool) (shared_tier : bool).
Context (build : option (string * string * string)).
Context (proxyRoutes : ProxyRoute → Incoming → M W string http_reply) (webhook : Incoming → M W string http_reply) (assets : Incoming → M W string http_reply).

Abbreviation door := (handle env router digest open random clock fetch json_parse text_of resolve_url getSetting getTenantForAccount send limit
  lookup_slug script_exists shared_tier build proxyRoutes webhook).
Abbreviation inner := (routes env router digest random clock fetch json_parse text_of resolve_url getSetting getTenantForAccount send limit
  shared_tier build proxyRoutes webhook).
Implicit Types (rq : Incoming) (s : W).

(** The request came to the front door's own host, and not as a forged post. *)
Definition came_in rq s s1 : Prop :=
  routeTenantRequest digest open lookup_slug clock script_exists router (in_request rq) s = (Ok NotATenant, s1) ∧ cross_origin env rq = false.
(** Its session, and the account's acceptance of the current policy. *)
Definition signed_and_accepted rq account s1 s4 : Prop :=
  ∃ now s2 s3, clock s1 = (Ok now, s2) ∧ resolveSession digest (header_get "cookie" (rq_headers (in_request rq))) now s2 = (Ok (Some account), s3) ∧
    if isAupExempt (in_path rq) then s4 = s3 else hasAcceptedAup (ac_id account) (AUP_VERSION env) s3 = (Ok true, s4).
(** An operator the gate admitted to this very method and path. *)
Definition admitted rq p s1 s3 : Prop :=
  ∃ now s2, clock s1 = (Ok now, s2) ∧
    adminGate digest (rq_method (in_request rq)) (in_path rq) (header_get "authorization" (rq_headers (in_request rq))) (env "CONTROL_PLANE_ADMIN_TOKEN") now s2 =
      (Ok (AdmittedAs p), s3).

Lemma answered_ext (m1 m2 : M W string http_reply) s : m1 s = m2 s → answered m1 s = answered m2 s.
Proof. intros E. unfold answered. by rewrite !bind_run, E. Qed.

Abbreviation behind_session := (session_door env router digest clock fetch text_of getTenantForAccount).
Abbreviation behind_gate := (admin_door env digest clock).
Lemma session_door_hides (t1 t2 : Account → Incoming → M W string http_reply) rq s :
  (∀ account s4, signed_and_accepted rq account s s4 → t1 account rq s4 = t2 account rq s4) → behind_session t1 rq s = behind_session t2 rq s.
Proof.
intros Ht. unfold session_door. rewrite !bind_run. destruct (clock s) as [[now|e] s2] eqn:Hc; [|done]. rewrite !bind_run.
destruct (resolveSession _ _ now s2) as [[[account|]|e] s3] eqn:Hr; [|done..]. cbv zeta.
destruct (_ && _); [done|]. destruct (_ && _); [done|]. destruct (isAupExempt (in_path rq)) eqn:Hx.
- apply Ht. exists now, s2, s3. rewrite Hx. done.
- rewrite !bind_run. destruct (hasAcceptedCurrent _ _ s3) as [[[]|e] s4] eqn:Ha; [|done..].
  apply Ht. exists now, s2, s3. rewrite Hx. done.
Qed.
Lemma admin_door_hides (a1 a2 : OperatorPrincipal → Incoming → M W string http_reply) rq s :
  (∀ p s3, admitted rq p s s3 → a1 p rq s3 = a2 p rq s3) → behind_gate a1 rq s = behind_gate a2 rq s.
Proof.
intros Ha. unfold admin_door. rewrite !bind_run. destruct (clock s) as [[now|e] s2] eqn:Hc; [|done]. rewrite !bind_run.
destruct (adminGate _ _ _ _ _ now s2) as [[[| | | |p]|e] s3] eqn:Hg; [done..| |done]. apply Ha. by exists now, s2.
Qed.

(** Nothing reaches the tenants' routes or the operators' but through their doors.  Two sets of handlers
    that agree on the requests let in answer every request alike, in every state: an operator's handler
    is reached only by a request to the front door's own host that is no forged post, under the
    operators' prefix, that the gate admitted for that method and path; a tenant's only by such a request
    under the API's prefix whose cookie resolves to an account, and, save for the four exempt paths, one
    that has accepted the current policy. *)
Theorem doors_let_in_only_their_own (a1 a2 : OperatorPrincipal → Incoming → M W string http_reply) (t1 t2 : Account → Incoming → M W string http_reply) rq s :
  (∀ p s1 s3, came_in rq s s1 → starts_with "/api/admin/" (in_path rq) = true → admitted rq p s1 s3 → a1 p rq s3 = a2 p rq s3) →
  (∀ account s1 s4, came_in rq s s1 → starts_with "/api/" (in_path rq) = true → signed_and_accepted rq account s1 s4 →
     t1 account rq s4 = t2 account rq s4) →
  door a1 t1 assets rq s = door a2 t2 assets rq s.
Proof.
intros Ha Ht. unfold handle. rewrite !bind_run. destruct (routeTenantRequest _ _ _ _ _ _ _ s) as [[o|e] s1] eqn:Hr; [|done].
destruct o; [|reflexivity..]. destruct (cross_origin env rq) eqn:Hx; [reflexivity|].
assert (came_in rq s s1) as Hin by (by split). specialize (λ p s3, Ha p s1 s3 Hin). specialize (λ a s4, Ht a s1 s4 Hin).
assert (inner a1 t1 assets rq s1 = inner a2 t2 assets rq s1) as E; [|unfold catch; by rewrite E].
unfold routes. repeat (match goal with |- (if ?b then _ else _) _ = _ => destruct b end; [reflexivity|]).
destruct (on_get rq (sso_path "start" _)); [reflexivity|]. destruct (on_get rq (sso_path "callback" _)); [reflexivity|].
destruct (is_route rq "POST" "/api/auth/logout"); [reflexivity|]. destruct (matchProxyRoute _ _); [reflexivity|]. destruct (is_route _ _ _); [reflexivity|].
destruct (starts_with "/api/admin/" (in_path rq)) eqn:Hadm.
{ apply answered_ext, admin_door_hides. auto. }
destruct (starts_with "/api/" (in_path rq)) eqn:Hapi; [|done]. apply answered_ext, session_door_hides. auto.
Qed.

(** Past the tenants' own leg a request is always answered, and a handler's failure never says why: the
    answer is then the one fixed text, whatever was thrown and wherever. *)
Theorem failures_are_not_told a t rq s s1 :
  routeTenantRequest digest open lookup_slug clock script_exists router (in_request rq) s = (Ok NotATenant, s1) →
  ∃ r s', door a t assets rq s = (Ok r, s') ∧
    ((∃ e, cross_origin env rq = false ∧ inner a t assets rq s1 = (Err e, s') ∧ r = (Plain internal_error, None)) ∨
     (cross_origin env rq = false ∧ inner a t assets rq s1 = (Ok r, s')) ∨
     (cross_origin env rq = true ∧ s' = s1 ∧ r = (Plain (err_response "bad_origin" 403 []), None))).
Proof.
intros Hr. unfold handle. rewrite bind_run, Hr. destruct (cross_origin env rq) eqn:Hx.
- do 2 eexists. split; [done|]. by right; right.
- unfold catch. destruct (inner a t assets rq s1) as [[r|e] s'] eqn:E.
  + exists r, s'. split; [done|]. by right; left.
  + do 2 eexists. split; [done|]. left. by exists e.
Qed.

(** Opening a mailed link spends nothing: the confirm page leaves everything as it was, whatever follows
    the link, a scanner or a person. *)
Theorem opening_a_link_spends_nothing a t rq s s1 : is_route rq "GET" "/auth/email/callback" = true →
  routeTenantRequest digest open lookup_slug clock script_exists router (in_request rq) s = (Ok NotATenant, s1) →
  ∃ page, door a t assets rq s = (Ok (page, None), s1) ∧
    (page = Plain (redirectTo env "/?error=link_invalid" []) ∨ ∃ token, in_param rq "token" = Some token ∧ page = ConfirmPage (escapeHtml token)).
Proof.
intros Hg Hr. pose proof Hg as Hg'. unfold is_route in Hg'. bool_hyps. unfold handle. rewrite bind_run, Hr.
assert (cross_origin env rq = false) as ->.
{ unfold cross_origin. match goal with E : rq_method _ = _ |- _ => rewrite E end. done. }
unfold catch, routes.
assert (∀ m p, p ≠ "/auth/email/callback" → is_route rq m p = false) as Hno.
{ intros m p Hp. unfold is_route. match goal with E : in_path rq = _ |- _ => rewrite E end. apply andb_false_iff. right. apply String.eqb_neq. congruence. }
rewrite !Hno by done. rewrite Hg. cbv zeta. destruct (in_param rq "token") as [token|]; cbn [default]; [|eexists; split; [done|by left]].
cbn. destruct (Str.truthy token); eexists; (split; [done|]); [right; by exists token|by left].
Qed.
End gates.

(** ** The confirm page cannot be broken out of *)
Lemma replace_char_removes c by_ l : c ∉ by_ → c ∉ replace_char c by_ l.
Proof.
intros Hb. induction l as [|x l IH]; [by intros ?%elem_of_nil|]. cbn. intros [Hx|Hx]%elem_of_app; [|done].
destruct (Ascii.eqb_spec x c); [done|]. apply list_elem_of_singleton in Hx. congruence.
Qed.
Lemma replace_char_keeps_out d c by_ l : d ∉ by_ → d ∉ l → d ∉ replace_char c by_ l.
Proof.
intros Hb Hl. induction l as [|x l IH]; [by intros ?%elem_of_nil|]. cbn. apply not_elem_of_cons in Hl as [Hx Hl].
intros [H|H]%elem_of_app; [|by apply IH]. destruct (Ascii.eqb x c); [done|]. apply list_elem_of_singleton in H. congruence.
Qed.
Theorem escaped_is_inert value c : c ∈ ["<"%char; ">"%char; quote_char; "'"%char] → c ∉ Str.chars (escapeHtml value).
Proof.
unfold escapeHtml, replace_all. rewrite !chars_of_chars. intros Hc.
repeat (apply elem_of_cons in Hc as [->|Hc];
  [repeat first [apply replace_char_removes; vm_compute; set_solver | apply replace_char_keeps_out; [vm_compute; set_solver|]]|]).
by apply elem_of_nil in Hc.
Qed.
