(* ===== verification/AdminDispatch.v ===== *)
(** * Which handler an operator's request reaches (adminRoutes of src/index.ts)

    The gate decides by a table, the handlers by conditions of their own, in a different order and a
    thousand lines away.  Here is the second list, and that the two agree on every method and path: a
    handler the table forgets would be unreachable, and one it listed under another's scope would be
    open to the wrong operators. *)

From S2P Require Export OperatorAuth Entry.
From Stdlib Require Import Ascii.
Open Scope string_scope.
Open Scope list_scope.
Open Scope Z_scope.
Open Scope plane_scope.

Inductive AdminHandler :=
| HWhoami | HListOperators | HMintOperator | HRevokeOperator | HAudit | HListTenants | HTenantUsage | HProvision | HGetSettings | HCron | HSetSettings
| HRunMeter | HLlmSpend | HMeterSettle | HR2Usage | HReconcile | HManualCredit | HCredits | HSuspendResume | HModuleReadiness | HListHolds | HPlaceHold
| HReleaseHold | HTeardown | HUpgradeModules | HUpgradeStudio | HRefreshBindings | HVideoFinishBinding | HTierState | HAbuseReportUrl | HStorageQuota
| HKekStatus | HKekSweep | HStartSmoke | HPollSmoke | HSmokeArtifact.
#[export] Instance AdminHandler_eq_dec : EqDecision AdminHandler.
Proof. solve_decision. Defined.

(** The conditions in the order they are tried. *)
Definition admin_handlers : list (string * list piece * AdminHandler) :=
  [ ("GET", at_ [PText "whoami"], HWhoami); ("GET", at_ [PText "operators"], HListOperators); ("POST", at_ [PText "operators"], HMintOperator);
    ("POST", at_ [PText "operators/"; PId "opc_"; PText "/revoke"], HRevokeOperator); ("GET", at_ [PText "audit"], HAudit);
    ("GET", at_ [PText "tenants"], HListTenants); ("GET", of_tenant [PText "/usage"], HTenantUsage); ("POST", at_ [PText "tenants/provision"], HProvision);
    ("GET", at_ [PText "settings"], HGetSettings); ("GET", at_ [PText "cron"], HCron); ("POST", at_ [PText "settings"], HSetSettings);
    ("POST", at_ [PText "llm-meter/run"], HRunMeter); ("GET", at_ [PText "llm-spend"], HLlmSpend); ("POST", at_ [PText "meter-settle"], HMeterSettle);
    ("GET", at_ [PText "r2-usage"], HR2Usage); ("POST", at_ [PText "reconcile/runpod"], HReconcile);
    ("POST", of_tenant [PText "/credits/manual"], HManualCredit); ("GET", of_tenant [PText "/credits"], HCredits);
    ("POST", of_tenant [PText "/"; PEither "suspend" "resume"], HSuspendResume); ("GET", of_tenant [PText "/module-readiness"], HModuleReadiness);
    ("GET", of_tenant [PText "/preservation-holds"], HListHolds); ("POST", of_tenant [PText "/preservation-holds"], HPlaceHold);
    ("POST", of_tenant [PText "/preservation-holds/"; PId "hold_"; PText "/release"], HReleaseHold); ("POST", of_tenant [PText "/teardown"], HTeardown);
    ("POST", of_tenant [PText "/upgrade-modules"], HUpgradeModules); ("POST", of_tenant [PText "/upgrade-studio"], HUpgradeStudio);
    ("POST", of_tenant [PText "/refresh-studio-bindings"], HRefreshBindings); ("POST", of_tenant [PText "/video-finish-binding"], HVideoFinishBinding);
    ("POST", of_tenant [PText "/video-finish-tier-state"], HTierState); ("POST", of_tenant [PText "/abuse-report-url"], HAbuseReportUrl);
    ("POST", of_tenant [PText "/storage-quota"], HStorageQuota); ("GET", at_ [PText "kek/status"], HKekStatus);
    ("POST", at_ [PText "kek/reencrypt"], HKekSweep); ("POST", of_tenant [PText "/smoke-render"], HStartSmoke);
    ("GET", of_tenant [PText "/smoke-render/"; PId "smk_"], HPollSmoke); ("GET", of_tenant [PText "/smoke-render/"; PId "smk_"; PText "/artifact"], HSmokeArtifact) ].
Definition handles (method path : string) (h : string * list piece * AdminHandler) : bool := (h.1.1 =s? method) && test (pattern_re h.1.2) path.
Definition adminDispatch (method path : string) : option AdminHandler := snd <$> List.find (handles method path) admin_handlers.

(** What each handler does to whom, as the scopes' summaries in src/operator-auth.ts name it. *)
Definition required_for (h : AdminHandler) : AdminRequirement :=
  match h with
  | HWhoami => NeedsAuthentication
  | HListOperators | HMintOperator | HRevokeOperator => NeedsRoot
  | HAudit | HListTenants | HTenantUsage | HGetSettings | HCron | HLlmSpend | HR2Usage | HReconcile | HCredits | HModuleReadiness | HListHolds
  | HPollSmoke | HSmokeArtifact => NeedsScope "tenants:read"
  | HSuspendResume | HPlaceHold | HReleaseHold | HVideoFinishBinding | HTierState | HAbuseReportUrl | HStorageQuota => NeedsScope "tenants:write"
  | HTeardown => NeedsScope "tenants:destroy"
  | HProvision => NeedsScope "tenants:provision"
  | HUpgradeModules | HUpgradeStudio | HRefreshBindings | HStartSmoke => NeedsScope "studio:operate"
  | HManualCredit => NeedsScope "credits:write"
  | HSetSettings => NeedsScope "platform:settings"
  | HRunMeter | HMeterSettle => NeedsScope "meter:operate"
  | HKekStatus | HKekSweep => NeedsScope "keys:rotate"
  end.
Definition satisfies (p : OperatorPrincipal) (r : AdminRequirement) : Prop :=
  match r with NeedsAuthentication => True | NeedsRoot => pr_kind p = PRoot | NeedsScope s => hasScope p s = true end.

(** ** Patterns that have no path in common *)
Inductive atom := AChar (c : ascii) | AHex.
Inductive amatch : list atom → list ascii → Prop :=
| amatch_nil : amatch [] []
| amatch_char c w l : amatch w l → amatch (AChar c :: w) (c :: l)
| amatch_hex w h l : h ≠ [] → forallb hex_char h = true → match l with c :: _ => hex_char c = false | [] => True end →
    amatch w l → amatch (AHex :: w) (h ++ l).
Definition text_atoms (s : string) : list atom := AChar <$> Str.chars s.
Fixpoint expand (ps : list piece) : list (list atom) :=
  match ps with
  | [] => [[]]
  | PText s :: ps => app (text_atoms s) <$> expand ps
  | PId prefix :: ps => app (text_atoms prefix ++ [AHex]) <$> expand ps
  | PEither a b :: ps => (app (text_atoms a) <$> expand ps) ++ (app (text_atoms b) <$> expand ps)
  end.
(** What follows an id begins with no hexadecimal digit. *)
Definition stops (w : list atom) : bool := match w with [] => true | AChar c :: _ => negb (hex_char c) | AHex :: _ => false end.
Fixpoint ids_stop (w : list atom) : bool := match w with [] => true | AHex :: w => stops w && ids_stop w | AChar _ :: w => ids_stop w end.
Fixpoint clash (w1 w2 : list atom) : bool :=
  match w1, w2 with
  | AChar c :: w1, AChar d :: w2 => if Ascii.eqb c d then clash w1 w2 else true
  | AHex :: w1, AHex :: w2 => clash w1 w2
  | AChar c :: _, AHex :: _ | AHex :: _, AChar c :: _ => negb (hex_char c)
  | [], [] => false
  | _, _ => true
  end.
Definition apart (ps qs : list piece) : bool := forallb (λ w, forallb (clash w) (expand qs)) (expand ps).

Section patterns.
Implicit Types (w : list atom) (l h : list ascii).

Lemma hex_split h1 l1 h2 l2 : forallb hex_char h1 = true → forallb hex_char h2 = true →
  match l1 with c :: _ => hex_char c = false | [] => True end → match l2 with c :: _ => hex_char c = false | [] => True end →
  h1 ++ l1 = h2 ++ l2 → h1 = h2 ∧ l1 = l2.
Proof.
revert h2. induction h1 as [|a h1 IH]; intros [|b h2] H1 H2 S1 S2 Heq; cbn in *; [done| | |].
- subst l1. cbn in S1. bool_hyps. congruence.
- subst l2. cbn in S2. bool_hyps. congruence.
- bool_hyps. injection Heq as -> Heq. destruct (IH h2) as [-> ->]; done.
Qed.
Lemma clash_sound w1 w2 l : clash w1 w2 = true → amatch w1 l → amatch w2 l → False.
Proof.
intros Hc H1. revert w2 Hc. induction H1 as [|c w1 l H1 IH|w1 h1 l1 Hn Hh Hs H1 IH]; intros w2 Hc H2.
- inversion H2 as [|d w2' l' H2'|w2' h2 l2 Hn2 Hh2 Hs2 H2' Hw Heq]; subst; [done|]. by destruct h2.
- inversion H2 as [|d w2' l' H2'|w2' h2 l2 Hn2 Hh2 Hs2 H2' Heq]; subst; cbn in Hc.
  + rewrite Ascii.eqb_refl in Hc. by eapply IH.
  + destruct h2 as [|x h2]; [done|]. cbn in *. match goal with E : _ :: _ = _ :: _ |- _ => injection E as -> _ end. bool_hyps. congruence.
- inversion H2 as [E|d w2' l' H2' E|w2' h2 l2 Hn2 Hh2 Hs2 H2' E]; subst; cbn in Hc.
  + by destruct h1.
  + destruct h1 as [|x h1]; [done|]. cbn in *. match goal with E : _ :: _ = _ :: _ |- _ => injection E as <- _ end. bool_hyps. congruence.
  + match goal with E : _ ++ _ = _ ++ _ |- _ => destruct (hex_split _ _ _ _ Hh2 Hh Hs2 Hs E) as [-> ->] end. by eapply IH.
Qed.

Lemma amatch_text t w l : amatch w l → amatch (text_atoms t ++ w) (Str.chars t ++ l).
Proof. intros H. unfold text_atoms. induction (Str.chars t) as [|c k IH]; [done|]. cbn. by constructor. Qed.
Lemma text_ids_stop t w : ids_stop (text_atoms t ++ w) = ids_stop w.
Proof. unfold text_atoms. by induction (Str.chars t). Qed.
Lemma stops_head w l : stops w = true → amatch w l → match l with c :: _ => hex_char c = false | [] => True end.
Proof. intros Hs H. destruct H; cbn in *; bool_hyps; done. Qed.
Lemma expand_spec ps l : forallb ids_stop (expand ps) = true → lang (pattern_re ps) l → ∃ w, w ∈ expand ps ∧ amatch w l.
Proof.
revert l. induction ps as [|p ps IH]; intros l Hi Hl.
- apply lang_empty_inv in Hl as ->. exists []. split; [by left|constructor].
- apply lang_cat_inv in Hl as (l1 & l2 & -> & H1 & H2). rewrite forallb_forall in Hi.
  assert (∀ pre, (∀ w, w ∈ expand ps → ids_stop (pre ++ w) = true → ids_stop w = true) → (∀ w, w ∈ expand ps → pre ++ w ∈ expand (p :: ps)) →
    ∃ w, w ∈ expand ps ∧ pre ++ w ∈ expand (p :: ps) ∧ amatch w l2) as Hrest.
  { intros pre Hpre Hin. destruct (IH l2) as (w & Hw & Hm); [|done|by exists w; auto].
    apply forallb_forall. intros w Hw%list_elem_of_In. apply (Hpre w Hw), Hi, list_elem_of_In, Hin, Hw. }
  destruct p as [t|prefix|a b]; cbn [piece_re] in H1.
  + apply lang_text in H1 as ->. destruct (Hrest (text_atoms t)) as (w & _ & Hw & Hm).
    * intros w _. by rewrite text_ids_stop.
    * intros w Hw. cbn. by apply list_elem_of_fmap_2.
    * exists (text_atoms t ++ w). split; [done|]. by apply amatch_text.
  + apply lang_cat_inv in H1 as (h1 & h2 & -> & H1 & (Hn & Hh)%lang_plus_set). apply lang_text in H1 as ->.
    destruct (Hrest (text_atoms prefix ++ [AHex])) as (w & _ & Hw & Hm).
    * intros w _. rewrite <- app_assoc, text_ids_stop. cbn. intros Hq. by bool_hyps.
    * intros w Hw. cbn. by apply list_elem_of_fmap_2.
    * exists ((text_atoms prefix ++ [AHex]) ++ w). split; [done|]. rewrite <- !app_assoc. apply amatch_text. cbn. constructor; [done..| |done].
      apply (stops_head w); [|done]. apply list_elem_of_In in Hw. apply Hi in Hw. rewrite <- app_assoc, text_ids_stop in Hw. cbn in Hw. by bool_hyps.
  + apply lang_alt_inv in H1 as [->%lang_text| ->%lang_text].
    * destruct (Hrest (text_atoms a)) as (w & _ & Hw & Hm); [intros w _; by rewrite text_ids_stop| |].
      -- intros w Hw. cbn. apply elem_of_app. left. by apply list_elem_of_fmap_2.
      -- exists (text_atoms a ++ w). split; [done|]. by apply amatch_text.
    * destruct (Hrest (text_atoms b)) as (w & _ & Hw & Hm); [intros w _; by rewrite text_ids_stop| |].
      -- intros w Hw. cbn. apply elem_of_app. right. by apply list_elem_of_fmap_2.
      -- exists (text_atoms b ++ w). split; [done|]. by apply amatch_text.
Qed.
Definition id_delimited (ps : list piece) : bool := forallb ids_stop (expand ps).
Lemma apart_sound ps qs path : id_delimited ps = true → id_delimited qs = true → apart ps qs = true →
  test (pattern_re ps) path = true → test (pattern_re qs) path = false.
Proof.
intros Hp Hq Ha Hm. apply not_true_is_false. intros Hm2. unfold test in *. apply rmatch_spec in Hm, Hm2.
destruct (expand_spec _ _ Hp Hm) as (w1 & Hw1 & H1). destruct (expand_spec _ _ Hq Hm2) as (w2 & Hw2 & H2).
unfold apart in Ha. rewrite forallb_forall in Ha. specialize (Ha w1 (proj1 (list_elem_of_In _ _) Hw1)). rewrite forallb_forall in Ha.
specialize (Ha w2 (proj1 (list_elem_of_In _ _) Hw2)). by eapply clash_sound.
Qed.
End patterns.

(** ** The two lists *)
#[export] Instance piece_eq_dec : EqDecision piece.
Proof. solve_decision. Defined.
Fixpoint pairwise {A} (ok : A → A → bool) (l : list A) : bool := match l with [] => true | x :: l => forallb (ok x) l && pairwise ok l end.
Definition rows_apart (a b : AdminRow) : bool := negb (ar_method a =s? ar_method b) || apart (ar_pattern a) (ar_pattern b).
Definition same_route (row : AdminRow) (h : string * list piece * AdminHandler) : bool :=
  (ar_method row =s? h.1.1) && bool_decide (ar_pattern row = h.1.2) && bool_decide (ar_requires row = required_for h.2).
Lemma table_apart : pairwise rows_apart ADMIN_REQUIREMENTS = true.
Proof. vm_compute. reflexivity. Qed.
Lemma table_delimited : forallb (λ r, id_delimited (ar_pattern r)) ADMIN_REQUIREMENTS = true.
Proof. vm_compute. reflexivity. Qed.
Lemma each_handler_listed : forallb (λ h, existsb (λ r, same_route r h) ADMIN_REQUIREMENTS) admin_handlers = true.
Proof. vm_compute. reflexivity. Qed.
Lemma each_row_handled : forallb (λ r, existsb (same_route r) admin_handlers) ADMIN_REQUIREMENTS = true.
Proof. vm_compute. reflexivity. Qed.

Lemma pairwise_find {A} (ok : A → A → bool) (p : A → bool) (l : list A) x :
  pairwise ok l = true → (∀ a b, a ∈ l → b ∈ l → ok a b = true → p a = true → p b = false) → x ∈ l → p x = true → List.find p l = Some x.
Proof.
induction l as [|a l IH]; [by intros _ _ ?%elem_of_nil|]. cbn. intros Hok Hp Hx Hpx. bool_hyps.
apply elem_of_cons in Hx as [->|Hx]; [by rewrite Hpx|]. destruct (p a) eqn:E.
- match goal with F : forallb (ok a) l = true |- _ => rewrite forallb_forall in F; specialize (F x (proj1 (list_elem_of_In _ _) Hx)) as Hax end.
  rewrite (Hp a x) in Hpx; [done|by left|by right|done|done].
- apply IH; [done| |done|done]. intros b c Hb Hc. apply Hp; by right.
Qed.

Theorem table_and_handlers_agree method path : adminRequirement method path = required_for <$> adminDispatch method path.
Proof.
unfold adminRequirement, adminDispatch. destruct (List.find (handles method path) admin_handlers) as [h|] eqn:E.
- apply find_Some_elem in E as [Hin Hh]. pose proof each_handler_listed as Hl. rewrite forallb_forall in Hl.
  specialize (Hl h (proj1 (list_elem_of_In _ _) Hin)). apply existsb_true_iff in Hl as (r & Hr & Hsame). unfold same_route in Hsame. unfold handles in Hh. bool_hyps.
  rewrite (pairwise_find rows_apart _ _ r); [cbn; by f_equal|apply table_apart| |done|].
  + intros a b Ha Hb Hok Hs. pose proof table_delimited as Hd. rewrite forallb_forall in Hd. unfold row_serves, rows_apart in *. bool_hyps.
    destruct (String.eqb_spec (ar_method b) method) as [Hm|]; [|done]. cbn.
    apply (apart_sound (ar_pattern a)); [apply Hd; by apply list_elem_of_In|apply Hd; by apply list_elem_of_In| |done].
    apply orb_true_iff in Hok as [Hok|Hok]; [|done]. bool_hyps. congruence.
  + unfold row_serves. apply andb_true_iff. split; [|by match goal with P : ar_pattern r = _ |- _ => rewrite P end]. apply String.eqb_eq. congruence.
- destruct (List.find (row_serves method path) ADMIN_REQUIREMENTS) as [r|] eqn:F; [|reflexivity]. exfalso.
  apply find_Some_elem in F as [Hin Hs]. pose proof each_row_handled as Hr. rewrite forallb_forall in Hr.
  specialize (Hr r (proj1 (list_elem_of_In _ _) Hin)). apply existsb_true_iff in Hr as (h & Hh & Hsame). unfold same_route in Hsame.
  rewrite find_None_elem in E. specialize (E h Hh). unfold handles in E. unfold row_serves in Hs. bool_hyps.
  match goal with P : ar_pattern r = _, M : ar_method r = h.1.1, M2 : ar_method r = method |- _ => rewrite <- P, <- M, M2, String.eqb_refl in E end. cbn in E. congruence.
Qed.
