(* ===== verification/AdminReads.v ===== *)
(** * Operators' routes over the plane's own state (adminRoutes of src/index.ts)

    Who an operator is, the credentials, the trail, the tenants, the switch for sign-ups, the cron, the
    model meter, a tenant's spend, and the key rotation.  What answers behind them is an argument: the
    store's reads, the meter's tick and the meter's windowed read are modelled in their own files, and
    the census and the sweep are those of KekRotation.v. *)

From S2P Require Export AdminDispatch KekRotation.
From S2P Require Import Cron LlmStore Routing.
From S2P Require Import KekRotation.
From Stdlib Require Import Ascii.
Open Scope string_scope.
Open Scope list_scope.
Open Scope Z_scope.
Open Scope plane_scope.

Definition jcount (n : nat) : js := JNum (Num.NInt (Z.of_nat n)).
Definition jtexts (l : list string) : js := JArr (JStr <$> l).
Definition uncached (body : list (string * js)) : http_reply :=
  mkHttpReply 200 [("content-type", "application/json; charset=utf-8"); ("cache-control", "no-store")] (Some (JObj body)).

(** ** Who am I *)
(** [r.pattern.source]: the slashes escaped, the holes as they are written. *)
Fixpoint escaped_slashes (s : string) : string :=
  match s with EmptyString => EmptyString | String c s => if Ascii.eqb c "/" then "\/" +:+ escaped_slashes s else String c (escaped_slashes s) end.
Definition piece_source (p : piece) : string :=
  match p with
  | PText s => escaped_slashes s
  | PId prefix => prefix +:+ "[a-f0-9]+"
  | PEither a b => "(?:" +:+ a +:+ "|" +:+ b +:+ ")"
  end.
Definition pattern_source (ps : list piece) : string := "^" +:+ foldr (λ p s, piece_source p +:+ s) "$" ps.
Definition requirement_text (r : AdminRequirement) : string :=
  match r with NeedsScope s => s | NeedsAuthentication => "authenticated" | NeedsRoot => "root" end.
Definition requirement_js (row : AdminRow) : js :=
  JObj [("method", JStr (ar_method row)); ("pattern", JStr (pattern_source (ar_pattern row))); ("requires", JStr (requirement_text (ar_requires row)))].
Definition kind_js (k : PrincipalKind) : js := JStr match k with PRoot => "root" | PCredential => "credential" end.
(** The summaries of the catalogue are the argument. *)
Definition whoami (summary : string → string) (p : OperatorPrincipal) : http_reply :=
  uncached [("actor", JStr (pr_actor p)); ("kind", kind_js (pr_kind p)); ("operator", jtext (pr_operator p)); ("credential_id", jtext (pr_credential_id p));
    ("scopes", jtexts (pr_scopes p)); ("catalogue", JArr ((λ s, JObj [("id", JStr s); ("summary", JStr (summary s))]) <$> ALL_SCOPES));
    ("requirements", JArr (requirement_js <$> ADMIN_REQUIREMENTS))].

(** ** Reads *)
Definition operatorView (c : OperatorCredential) : js :=
  JObj [("id", JStr (op_id c)); ("name", JStr (op_name c)); ("scopes", jtexts (parseScopes (op_scopes c))); ("created_at", JStr (op_created_at c));
    ("created_by", JStr (op_created_by c)); ("last_used_at", jtext (op_last_used_at c)); ("expires_at", jtext (op_expires_at c));
    ("revoked_at", jtext (op_revoked_at c)); ("revoked_by", jtext (op_revoked_by c))].

Section reads.
Context {W : Type}.
(** [deps.store.recordAdminAction] *)
Variable record : string → string → option string → AuditDetail → M W string unit.
Variable clock : M W string Z.
(** [Number(text)] *)
Variable number : string → Num.num.

Definition operators_list (listOperatorCredentials : M W string (list OperatorCredential)) : M W string http_reply :=
  rows ← listOperatorCredentials; mret (uncached [("credentials", JArr (operatorView <$> rows))]).
Definition audit_list (listAdminAudit : option string → Num.num → M W string js) (rq : Incoming) : M W string http_reply :=
  let limit := number (default "100" (in_param rq "limit")) in
  rows ← listAdminAudit (in_param rq "target") (if Num.is_finite limit then limit else Num.NInt 100);
  mret (uncached [("audit", rows)]).
Definition tenants_list (listTenants : option string → option string → M W string (list Tenant)) (suffix : string) (rq : Incoming) : M W string http_reply :=
  rows ← listTenants (in_param rq "status") (in_param rq "q");
  mret (json_response [("tenants", JArr ((λ t, tenant_view_js (tenantView t suffix)) <$> rows))] 200).

(** ** The switch and the cron *)
Variable getSetting : string → M W string (option string).
Variable setSetting : string → string → string → M W string unit.
Definition settings_get : M W string http_reply :=
  value ← getSetting "signups_enabled"; mret (json_response [("signups_enabled", JBool (settingEnabled value))] 200).
Definition settings_set (actor : string) (body : js) : M W string http_reply :=
  match js_field body "signups_enabled" with
  | JBool b =>
      let value := if b then "true" else "false" in
      _ ← setSetting "signups_enabled" value actor;
      _ ← record actor "settings.set" (Some "signups_enabled") (AuditText value);
      mret (no_content [])
  | _ => mret (err_response "invalid_body" 400 [])
  end.
Definition liveness_js (l : CronLiveness) : js :=
  JObj [("ran", JBool (cl_ran l)); ("at", jtext (cl_at l)); ("age_seconds", match cl_age_seconds l with Some z => JNum (Num.NInt z) | None => JNull end);
    ("stale", JBool (cl_stale l)); ("ok", match cl_ok l with Some b => JBool b | None => JNull end); ("halves", default JNull (cl_halves l)); ("detail", jtext (cl_detail l))].
Definition cron_read (json_parse : string → option js) (date_parse : string → option Z) : M W string http_reply :=
  raw ← getSetting CRON_HEARTBEAT_KEY;
  now ← clock;
  liveness ← lift (summarizeCronLiveness json_parse date_parse raw now);
  mret (mkHttpReply 200 [("content-type", "application/json; charset=utf-8")] (Some (liveness_js liveness))).

(** ** The meter *)
Definition tick_facts (status : RollupStatus) (control gap : bool) (dropped : nat) : list (string * js) :=
  [("ran", JBool true); ("status", JStr (status_name status)); ("controlPassed", JBool control);
   ("gapDetected", JBool gap); ("rowsDropped", jcount dropped)].
Definition meter_run (actor : string) (runTick : M W string LlmMeterTickResult) : M W string http_reply :=
  outcome ← runTick;
  _ ← record actor "meter.tick_llm" (Some "llm_meter")
        (AuditJson (JObj match outcome with
                         | MeterRan status control gap dropped => tick_facts status control gap dropped
                         | MeterRefused reason => [("ran", JBool false); ("reason", JStr reason)]
                         end));
  mret match outcome with
       | MeterRan status control gap dropped => json_response (tick_facts status control gap dropped) 200
       | MeterRefused reason => err_response "llm_meter_unavailable" 503 [("reason", JStr reason)]
       end.
Definition full_param (rq : Incoming) (name : string) : option string :=
  match in_param rq name with Some s => if Str.truthy s then Some s else None | None => None end.
(** One tenant's spend in a window, compared as texts, so only in the normal form of a time. *)
Definition llm_spend (configured : bool) (date_parse : string → option Z) (readSpend : string → string → string → M W string js) (actor : string) (rq : Incoming) :
    M W string http_reply :=
  if negb configured then mret (err_response "llm_meter_unavailable" 503 [("reason", JStr "no_spend_store")])
  else match full_param rq "tenant", full_param rq "start", full_param rq "end" with
  | Some tenant, Some ws, Some we =>
      _ ← record actor "tenant.read.llm_spend" (Some tenant) (AuditJson (JObj [("start", JStr ws); ("end", JStr we)]));
      match date_parse ws, date_parse we with
      | Some startMs, Some endMs =>
          if endMs <=? startMs then mret (err_response "invalid_window" 400 [("detail", JStr "end must be after start")])
          else
            from ← lift (iso startMs);
            to_ ← lift (iso endMs);
            spend ← readSpend tenant from to_;
            mret (json_response [("spend", spend)] 200)
      | _, _ => mret (err_response "invalid_window" 400 [("detail", JStr "start and end must parse as timestamps")])
      end
  | _, _, _ => mret (err_response "invalid_query" 400 [("need", jtexts ["tenant"; "start"; "end"])])
  end.

(** ** The key rotation *)
Context `{TokenStore W}.
Variable seal : list ascii → list ascii → string → list ascii.
Variable open : list ascii → list ascii → list ascii → option string.
Variable random : nat → M W string (list ascii).
(** The plane's keys, as the router reads them. *)
Variable env : RouterEnv.
Definition slot_js (s : KekSlot) : js := JStr match s with SlotPrimary => "primary" | SlotNext => "next" end.
Definition census_js (c : KekCensus) : js :=
  JObj [("window_open", JBool (kc_window_open c)); ("encrypt_slot", slot_js (kc_encrypt_slot c)); ("total", jcount (kc_total c)); ("on_target", jcount (kc_on_target c));
    ("needs_rotation", jcount (kc_needs_rotation c)); ("unreadable", jtexts (kc_unreadable c)); ("safe_to_promote", JBool (kc_safe_to_promote c))].
Definition sweep_facts (s : SweepResult) : list (string * js) :=
  [("examined", jcount (sw_examined s)); ("rotated", jcount (sw_rotated s)); ("skipped_on_target", jcount (sw_skipped_on_target s)); ("raced", jcount (sw_raced s));
   ("unreadable", jtexts (sw_unreadable s)); ("complete", JBool (sw_complete s))].
Definition kek_unconfigured : http_reply :=
  err_response "kek_unconfigured" 503 [("message", JStr "STUDIO_TOKEN_KEK is not installed on this deploy; there is no key ring to inspect")].
Definition kek_status : M W string http_reply :=
  if negb (is_set (re_kek env)) then mret kek_unconfigured
  else
    census ← kekCensus open (studioKekRing env);
    mret (mkHttpReply 200 [("content-type", "application/json; charset=utf-8")] (Some (census_js census))).
(** [Math.floor(body.limit)] of a positive number, none otherwise; no array is longer than infinity's stand-in. *)
Definition sweep_limit (body : js) : option nat :=
  match js_field body "limit" with
  | JNum (Num.NInt z) => if 0 <? z then Some (Z.to_nat z) else None
  | JNum (Num.NFrac m e) => if 0 <? m then Some (Z.to_nat (m / 2 ^ Zpos e)) else None
  | JNum (Num.NInf false) => Some (Z.to_nat (2 ^ 32))
  | _ => None
  end.
Definition kek_reencrypt (actor : string) (body : js) : M W string http_reply :=
  if negb (is_set (re_kek env)) then mret kek_unconfigured
  else
    swept ← attempt (sweepReencrypt seal open (studioKekRing env) random (sweep_limit body));
    match swept with
    | inl message =>
        if Auth.includes_text "no rotation window is open" message then mret (err_response "rotation_window_closed" 409 [("message", JStr message)])
        else throw message
    | inr sweep =>
        _ ← record actor "kek.reencrypt" None (AuditJson (JObj (("encrypt_slot", slot_js (kr_encrypt (studioKekRing env))) :: sweep_facts sweep)));
        census ← kekCensus open (studioKekRing env);
        mret (json_response [("sweep", JObj (sweep_facts sweep)); ("census", census_js census)] (if kc_safe_to_promote census then 200 else 409))
    end.
End reads.

(** ** The answer to a rotation *)
Section rotation_answer.
Context {W : Type} `{TokenStore W}.
Context (record : string → string → option string → AuditDetail → M W string unit).
Context (seal : list ascii → list ascii → string → list ascii) (open : list ascii → list ascii → list ascii → option string).
Context (random : nat → M W string (list ascii)) (env : RouterEnv).
Abbreviation ring := (Routing.studioKekRing env).

Lemma census_promotes rows : kc_safe_to_promote (census_of open ring rows) = true ↔ Forall (λ row, on_target open ring row = true) rows.
Proof.
unfold census_of. cbn [kc_safe_to_promote]. pose proof (census_partition open ring rows) as Hp.
assert (length (sorted_slugs (jfilter (is_unreadable open ring) rows)) = length (jfilter (is_unreadable open ring) rows)) as Hl.
{ unfold sorted_slugs. by rewrite order_by_perm, length_fmap. }
rewrite Hl, andb_true_iff, !Nat.eqb_eq. assert (length (jfilter (on_target open ring) rows) = length rows ↔ Forall (λ row, on_target open ring row = true) rows) as Hf.
{ clear. induction rows as [|row rows IH]; [by split|]. unfold jfilter in *. cbn [List.filter]. destruct (on_target open ring row) eqn:E.
  - cbn [length]. rewrite Forall_cons, <- IH. split; [intros Heq; split; [done|lia]|intros [_ Heq]; lia].
  - split; [|by intros [? _]%Forall_cons; congruence]. intros Heq. pose proof (filter_length_le (on_target open ring) rows). cbn in *. lia. }
rewrite <- Hf. lia.
Qed.

(** C24. A rotation's answer is what stands in the store.  Without a key the answer is 503 and nothing is
    asked.  Otherwise the sweep runs first.  Outside a window, which is the one refusal it makes of its
    own, the answer is 409 with exactly that refusal, nothing is recorded and no token is read; any error
    that does not say so (as any of the trail, or of the reading) leaves the route as it is, no answer.
    Where it ran, its own figures stand in the trail before the tokens are read again, and the answer is
    those figures and the census of the rows then read, with 200, the leave to drop the other key,
    exactly when every one of them opens under the write slot, and 409 otherwise. *)
Theorem rotation_answer_is_what_stands actor body s :
  let ran := kek_reencrypt record seal open random env actor body s in
  if negb (is_set (re_kek env)) then ran = (Ok kek_unconfigured, s) ∧ hr_status kek_unconfigured = 503
  else if negb (rotationWindowOpen ring) then
    ran = (Ok (err_response "rotation_window_closed" 409 [("message", JStr NO_WINDOW)]), s)
  else
    let '(swept, s1) := sweepReencrypt seal open ring random (sweep_limit body) s in
    match swept with
    | Err message => ran = (if Auth.includes_text "no rotation window is open" message
                            then Ok (err_response "rotation_window_closed" 409 [("message", JStr message)]) else Err message, s1)
    | Ok sweep =>
        let '(recorded, s2) := record actor "kek.reencrypt" None (AuditJson (JObj (("encrypt_slot", slot_js (kr_encrypt ring)) :: sweep_facts sweep))) s1 in
        match recorded with
        | Err message => ran = (Err message, s2)
        | Ok _ =>
            let '(read, s3) := listTokens s2 in
            match read with
            | Err message => ran = (Err message, s3)
            | Ok rows => ∃ status, ran = (Ok (json_response [("sweep", JObj (sweep_facts sweep)); ("census", census_js (census_of open ring rows))] status), s3) ∧
                (status = 200 ↔ Forall (λ row, on_target open ring row = true) rows) ∧ (status = 200 ∨ status = 409)
            end
        end
    end.
Proof.
cbv zeta. unfold kek_reencrypt. destruct (negb (is_set (re_kek env))); [done|]. rewrite attempt_bind.
destruct (negb (rotationWindowOpen ring)) eqn:Hw; [by unfold sweepReencrypt; rewrite Hw|].
destruct (sweepReencrypt _ _ _ _ _ s) as [[sweep|message] s1]; [|by destruct (Auth.includes_text _ message)]. rewrite bind_run.
destruct (record _ _ _ _ s1) as [[[]|message] s2]; [|done]. rewrite bind_run. unfold kekCensus. rewrite bind_run.
destruct (listTokens s2) as [[rows|message] s3]; [|done]. cbn [mret]. eexists. split; [done|]. rewrite <- census_promotes.
by destruct (kc_safe_to_promote _); split; auto.
Qed.
End rotation_answer.
