(* ===== verification/Onboarding.v ===== *)
(** * From a name to a live studio (provision, operatorProvision, installInvokeKey and
      performInvokeKeyInstall of src/index.ts)

    The routes that take a name for an account, with or without an operator, retake a half-built one,
    and make a finished studio live.  They are programs over the world of Trace.v, and the methods of
    the provisioner they call are run in place; what they leave to [waitUntil] is handed to the world.
    A store's id, token and clock are the world's.  Replies are a status and the JSON body. *)

From S2P Require Export Wiring.
From Stdlib Require Import Ascii.
Open Scope string_scope.
Open Scope list_scope.
Open Scope Z_scope.
Open Scope plane_scope.

(** ** Replies and the audit log *)
Definition reply : Type := Z * js.
Definition json_reply (body : list (string * js)) (status : Z) : reply := (status, JObj body).
Definition err_reply (code : string) (status : Z) (extra : list (string * js)) : reply := json_reply (("error", JStr code) :: extra) status.
Definition message_field (text : string) : list (string * js) := [("message", JStr text)].
Definition jopt (s : option string) : js := match s with Some s => JStr s | None => JNull end.
Definition jint (z : Z) : js := JNum (Num.NInt z).
Definition jnat (n : nat) : js := jint (Z.of_nat n).
Definition jstrings (l : list string) : js := JArr (JStr <$> l).
Definition jfailures (l : list failure) : js := JArr ((λ f, JObj [("resource", JStr f.1); ("error", JStr f.2)]) <$> l).
(** [Object.prototype.hasOwnProperty.call(body, k)] on a value that came from JSON. *)
Definition has_own (k : string) (v : js) : bool := match v with JObj l => existsb (λ p, p.1 =s? k) l | _ => false end.

(** The four resource columns of a row, and those a pass emptied. *)
Definition resource_columns : list (string * (Tenant → option string)) :=
  [("script_name", t_script_name); ("d1_database_id", t_d1_database_id); ("r2_bucket_name", t_r2_bucket_name); ("r2_token_id", t_r2_token_id)].
Definition tenantResourceSnapshot (t : Tenant) : list (string * js) := (λ c, (c.1, jopt (c.2 t))) <$> resource_columns.
Definition blanked (c : string * (Tenant → option string)) (before : Tenant) (after : option Tenant) : bool :=
  match c.2 before with Some _ => true | None => false end && match after with Some t => match c.2 t with None => true | Some _ => false end | None => false end.
Definition tenantReapedColumns (before : Tenant) (after : option Tenant) : list string :=
  fst <$> jfilter (λ c, blanked c before after) resource_columns.
Definition is_refusal (f : failure) : bool := starts_with "refused:" f.2.
Definition refused_of (r : TeardownOutcome) : list failure := jfilter is_refusal (td_failures r).
Definition failed_of (r : TeardownOutcome) : list failure := jfilter (λ f, negb (is_refusal f)) (td_failures r).

Section routes.
Variable ask : world.
Variable sign : string → string → list ascii.
Variable digest : string → list ascii.
Variable json_parse : string → option js.
(** [String(v)] of a value that is not a text. *)
Variable text_of : js → string.
(** The words of a rejected key. *)
Variable detail : InvokeKeyVerdict → option string.
(** How many pages one emptying cycle may see. *)
Variable pages : nat.
(** [deps.provisioner] *)
Variable wiring : option Wiring.

Definition audit (actor action : string) (target : option string) (d : AuditDetail) : M trace exn unit :=
  perform ask (SRecordAdminAction actor action target d).
Definition draw_id (prefix : string) : M trace exn string := bytes ← perform ask (KRandom 12); mret (newId prefix bytes).
(** [String(v ?? "")] *)
Definition nullish_text (v : js) : string := match v with JUndef | JNull => "" | JStr s => s | v => text_of v end.
Definition teardown (w : Wiring) (tenant : Tenant) (opts : TeardownOpts) : M trace exn TeardownOutcome :=
  teardownTenant ask digest (wr_deps w) tenant opts pages.

(** ** Taking a name *)
Definition create_job (w : Wiring) (tenant : Tenant) : M trace exn ProvisionJob :=
  id ← draw_id "job";
  perform ask (SCreateProvisionJob id (t_id tenant) Shared (dp_release (wr_deps w))).
Definition dispatch_provision (job : ProvisionJob) (tenant : Tenant) : M trace exn unit := perform ask (WaitUntil (StartProvision (p_id job) tenant)).

Definition reclaim_in_progress : reply :=
  err_reply "slug_reclaim_in_progress" 409 (message_field "that name is being reset right now. Give it a moment and try again; nothing has been lost.").
Definition reclaim_report (row : Tenant) (reaped : TeardownOutcome) (after : option Tenant) : js :=
  JObj [("delete_data", JBool true); ("ok", JBool (td_ok reaped)); ("slug", JStr (t_slug row)); ("targets", JObj (tenantResourceSnapshot row));
    ("reaped", jstrings (tenantReapedColumns row after)); ("refused", jnat (length (refused_of reaped))); ("failed", jnat (length (failed_of reaped)));
    ("absent", jstrings (fst <$> td_absent reaped)); ("failures", jfailures (td_failures reaped))].
(** Retaking a half-built name of one's own: the claim, the teardown, and only then the blanked row. *)
Definition reclaim (w : Wiring) (account : string) (h : ReclaimHandle) : M trace exn reply :=
  claimed ← perform ask (SClaimReclaim (rh_tenant_id h) account RECLAIM_LEASE_SECONDS);
  match claimed with
  | None => mret reclaim_in_progress
  | Some (row, token) =>
      let actor := "account:" +:+ account in
      _ ← audit actor "tenant.reclaim_teardown.intent" (Some (t_id row))
            (AuditJson (JObj ([("delete_data", JBool true); ("slug", JStr (t_slug row))] ++ tenantResourceSnapshot row)));
      reaped ← teardown w row (mkTeardownOpts true false);
      after ← perform ask (SGetTenantById (t_id row));
      _ ← audit actor "tenant.reclaim_teardown" (Some (t_id row)) (AuditJson (reclaim_report row reaped after));
      if negb (td_ok reaped) then
        mret (err_reply "reclaim_teardown_failed" 409
          (message_field ("some of the old studio pieces could not be removed, so the name has not been freed and " +:+
             "nothing has been destroyed. Retrying will not clear this; contact us so we can remove " +:+ "the stuck pieces.") ++
           [("failures", jfailures (td_failures reaped))]))
      else
        reclaimed ← perform ask (SReclaimSlug (rh_tenant_id h) account token);
        match reclaimed with
        | None => mret reclaim_in_progress
        | Some tenant =>
            job ← create_job w tenant;
            _ ← dispatch_provision job tenant;
            mret (json_reply [("tenant_id", JStr (t_id tenant)); ("job_id", JStr (p_id job)); ("reclaimed", JBool true)] 202)
        end
  end.

Definition provision (body : js) (account : string) : M trace exn reply :=
  let slug := Str.to_lower (nullish_text (js_field body "slug")) in
  match validateSlug slug with
  | Some reason => mret (err_reply "invalid_slug" 400 (message_field (slugRejectionMessage reason)))
  | None =>
      claim ← perform ask (SCheckSlugAvailability slug account);
      match claim with
      | Unavailable reason => mret (err_reply "slug_taken" 409 (message_field reason))
      | Available handle =>
          match wiring with
          | None => mret (err_reply "provisioner_unconfigured" 503 [])
          | Some w =>
              if negb (offersSharedTier w) then mret (err_reply "runpod_key_required" 400 [])
              else match handle with
              | Some h => reclaim w account h
              | None =>
                  existing ← perform ask (SGetTenantForAccount account);
                  match existing with
                  | Some _ => mret (err_reply "tenant_exists" 409 [])
                  | None =>
                      id ← draw_id "ten";
                      tenant ← perform ask (SCreateTenant id slug account "pending");
                      job ← create_job w tenant;
                      _ ← dispatch_provision job tenant;
                      mret (json_reply [("tenant_id", JStr (t_id tenant)); ("job_id", JStr (p_id job))] 202)
                  end
              end
          end
      end
  end.

(** ** An operator takes a name for someone *)
Definition operator_refusal (actor email slug reason code : string) (status : Z) (message : string) : M trace exn reply :=
  _ ← audit actor "tenant.operator_provision.refused" (Some email) (AuditJson (JObj [("slug", JStr slug); ("reason", JStr reason)]));
  mret (err_reply code status (message_field message)).
Definition operator_create (w : Wiring) (actor email slug : string) (account : Account) (created : bool) : M trace exn reply :=
  existing ← perform ask (SGetTenantForAccount (ac_id account));
  match existing with
  | Some _ =>
      operator_refusal actor email slug "tenant_exists" "tenant_exists" 409
        ("that account already has a studio. If it is half-built, the owner can retake the name " +:+
         "from their own front door, or an operator holding tenants:destroy can tear it down first.")
  | None =>
      claim ← perform ask (SCheckSlugAvailability slug (ac_id account));
      match claim with
      | Unavailable reason => operator_refusal actor email slug "slug_taken" "slug_taken" 409 reason
      | Available _ =>
          id ← draw_id "ten";
          tenant ← perform ask (SCreateTenant id slug (ac_id account) "pending");
          job ← create_job w tenant;
          let facts := [("account_id", JStr (ac_id account)); ("account_created", JBool created)] in
          _ ← audit actor "tenant.operator_provision" (Some (t_id tenant))
                (AuditJson (JObj ([("email", JStr email); ("slug", JStr slug)] ++ facts ++ [("job_id", JStr (p_id job)); ("runpod_mode", JStr "shared")])));
          _ ← dispatch_provision job tenant;
          mret (json_reply (facts ++ [("tenant_id", JStr (t_id tenant)); ("job_id", JStr (p_id job)); ("runpod_mode", JStr "shared"); ("aup_accepted", JBool false)] ++
            message_field ("The account exists and the studio is being built. It will stop at awaiting_go_live and " +:+
              "stay unreachable until the owner signs in at the front door, accepts the AUP themselves, " +:+
              "and clicks go live. No acceptance has been recorded on their behalf and " +:+ "no RunPod key is involved.")) 202)
      end
  end.
Definition operatorProvision (body : js) (actor : string) : M trace exn reply :=
  let email := normalizeEmail (nullish_text (js_field body "email")) in
  let slug := Str.to_lower (nullish_text (js_field body "slug")) in
  if negb (looksLikeEmail email) then mret (err_reply "invalid_email" 400 [])
  else match validateSlug slug with
  | Some reason => mret (err_reply "invalid_slug" 400 (message_field (slugRejectionMessage reason)))
  | None =>
      if has_own "runpod_api_key" body then
        mret (err_reply "runpod_key_not_accepted" 400 (message_field
          ("an operator-provisioned studio always lands on our shared render capacity and never " +:+
           "receives a RunPod key. Hosted tenants do not bring a RunPod account. Nothing was created.")))
      else match wiring with
      | None => mret (err_reply "provisioner_unconfigured" 503 [])
      | Some w =>
          if negb (offersSharedTier w) then
            mret (err_reply "shared_tier_unavailable" 503 (message_field
              ("this plane does not offer shared render capacity, and this route never accepts a RunPod " +:+
               "key, so it cannot provision here. Nothing was created.")))
          else
            _ ← audit actor "tenant.operator_provision.requested" (Some email) (AuditJson (JObj [("slug", JStr slug)]));
            upserted ← perform ask (SUpsertAccount email);
            match upserted with
            | UpOk account created => operator_create w actor email slug account created
            | UpUnavailable | UpSignupsClosed =>
                operator_refusal actor email slug (match upserted with UpUnavailable => "unavailable" | _ => "signups_closed" end) "account_unavailable" 409
                  ("there is already an account for that address which is suspended or deleted, so nothing " +:+ "was created. Resolve that account first.")
            end
      end
  end.

(** ** Going live *)
Definition rejection_code (r : InvokeKeyRejection) : string :=
  match r with
  | BadPrefix => "bad_prefix" | GraphqlCapable => "graphql_capable" | EndpointOutOfScope => "endpoint_out_of_scope"
  | EndpointUnreachable => "endpoint_unreachable" | NoEndpoints => "no_endpoints"
  end.
Definition unverified_field (r : ModuleReadiness) : list (string * js) :=
  if (length (mr_unverified r) =? 0)%nat then []
  else [("modules_unverified", JArr ((λ u, JObj [("module", JStr (uv_module u)); ("reason", JStr "unverifiable"); ("script", JStr (uv_script u)); ("detail", JStr (uv_detail u))]) <$> mr_unverified r))].
Definition still_propagating (tenant : Tenant) (verdict : InvokeKeyVerdict) (r : ModuleReadiness) : reply :=
  json_reply ([("status", JStr (t_status tenant)); ("verified_endpoints", jnat (length (iv_inScope verdict))); ("modules_ready", JBool false);
      ("modules_verified", jstrings (mr_verified r)); ("modules_unconfirmed", jstrings (mr_unconfirmed r))] ++ unverified_field r ++
    [("readiness", JObj [("attempts", jnat (mr_attempts r)); ("elapsed_ms", jint (mr_elapsedMs r)); ("key_stored", JBool true);
        ("retry_finishes", JBool true); ("repaste_needed", JBool false)])] ++
    message_field ("the shared render key is installed. Your render modules have not finished picking it up yet (checked " +:+
      Str.of_int (Z.of_nat (mr_attempts r)) +:+ " times over " +:+ Str.of_int (mr_elapsedMs r) +:+ "ms). This usually clears in " +:+
      "under a minute: retry this request to finish going live. There is no key for you to send.")) 202.
Definition now_live (verdict : InvokeKeyVerdict) (r : ModuleReadiness) : reply :=
  json_reply ([("status", JStr "live"); ("verified_endpoints", jnat (length (iv_inScope verdict)));
      ("modules_ready", JBool (length (mr_unverified r) =? 0)%nat); ("modules_verified", jstrings (mr_verified r))] ++ unverified_field r) 200.
(** [deps.fetch] *)
Definition fetch (rq : HttpRequest) : M trace string HttpResponse := as_text (perform ask (NFetch rq)).
(** The reply, and whether the studio reached [live]. *)
Definition performInvokeKeyInstall (tenant : Tenant) (key : string) : M trace exn (reply * bool) :=
  let endpoints := tenantEndpointIds json_parse tenant in
  if (length endpoints =? 0)%nat then
    mret (err_reply "no_endpoints" 409 (message_field "your endpoints have not been created yet; there is nothing to scope a key to"), false)
  else if negb (opt_set (t_script_name tenant)) then
    mret (err_reply "not_provisioned" 409 (message_field "your studio was not fully provisioned; retry provisioning before installing a key"), false)
  else match wiring with
  | None => mret (err_reply "provisioner_unconfigured" 503 [], false)
  | Some w =>
      verdict ← map_err error (verifyInvokeKeyScope fetch key endpoints);
      if negb (iv_ok verdict) then
        mret (err_reply "invoke_key_rejected" 400
          (match iv_reason verdict with Some r => [("reason", JStr (rejection_code r))] | None => [] end ++
           match detail verdict with Some d => message_field d | None => [] end), false)
      else
        installed ← attempt (install_key ask sign json_parse (wr_deps w) tenant key);
        match installed with
        | inl (EModule step message) => mret (err_reply "modules_not_ready" 503 (("step", JStr (step_text step)) :: message_field message), false)
        | inl e => throw e
        | inr readiness =>
            if negb (length (mr_unconfirmed readiness) =? 0)%nat then mret (still_propagating tenant verdict readiness, false)
            else
              _ ← perform ask (SSetTenantStatus (t_id tenant) "live");
              mret (now_live verdict readiness, true)
        end
  end.
Definition installInvokeKey (body : js) (tenant : Tenant) : M trace exn reply :=
  if has_own "runpod_invoke_key" body then
    mret (err_reply "invoke_key_not_accepted" 400 (message_field
      ("this studio runs on our shared render capacity. A RunPod key is not accepted. " +:+ "Nothing was stored.")))
  else match readRunPodMode (Some (t_runpod_mode tenant)) with
  | Shared =>
      match wiring with
      | None => mret (err_reply "provisioner_unconfigured" 503 [])
      | Some w =>
          match wr_sharedPoolInvokeKey w with
          | Some poolKey =>
              if Str.truthy poolKey then '(response, _) ← performInvokeKeyInstall tenant poolKey; mret response
              else mret (err_reply "shared_pool_unconfigured" 503 (message_field
                ("this studio is set up to use our shared render capacity, which is not available on " +:+ "this deploy. Nothing was changed; please get in touch.")))
          | None =>
              mret (err_reply "shared_pool_unconfigured" 503 (message_field
                ("this studio is set up to use our shared render capacity, which is not available on " +:+ "this deploy. Nothing was changed; please get in touch.")))
          end
      end
  | Dedicated =>
      mret (err_reply "tenant_not_on_shared_tier" 409 (message_field
        ("this studio predates the shared render tier and cannot be completed on this plane. " +:+ "Nothing was changed; please get in touch.")))
  end.
End routes.
