(* ===== verification/Usage.v ===== *)
(** * What a tenant used and what the buckets hold (src/tenant-usage.ts, src/spend-pricebook.ts,
      src/tenant-r2-usage.ts, their routes in src/index.ts and the reads of src/store-d1.ts behind them)

    Reports over rows the plane already has.  A number that is not known is null, never zero: the price
    of a job nobody priced, the size of a bucket that could not be read.  Numbers are binary64, each
    operation rounded as JavaScript rounds it. *)

From S2P Require Import Settlement.
From S2P Require Export Credits LlmStore RunpodJobs Onboarding.
From Stdlib Require Import Ascii.
Open Scope string_scope.
Open Scope list_scope.
Open Scope Z_scope.
Open Scope plane_scope.

(** ** Arithmetic on numbers *)
Definition num_parts (n : Num.num) : option (Z * Z) :=
  match n with Num.NInt z => Some (z, 0) | Num.NFrac m e => Some (m, Zpos e) | _ => None end.
Definition num_sign (n : Num.num) : Z :=
  match n with Num.NInt z => Z.sgn z | Num.NFrac m _ => Z.sgn m | Num.NInf b => if b then -1 else 1 | Num.NNaN => 0 end.
Definition num_mul (a b : Num.num) : Num.num :=
  match num_parts a, num_parts b with
  | Some (m, e), Some (m', e') => Num.make (m * m') (e + e')
  | _, _ =>
      match a, b with
      | Num.NNaN, _ | _, Num.NNaN => Num.NNaN
      | _, _ => if num_sign a * num_sign b =? 0 then Num.NNaN else Num.NInf (num_sign a * num_sign b <? 0)
      end
  end.
Definition num_plus (a b : Num.num) : Num.num :=
  match num_parts a, num_parts b with
  | Some (m, e), Some (m', e') => let k := Z.max e e' in Num.make (m * 2 ^ (k - e) + m' * 2 ^ (k - e')) k
  | _, _ =>
      match a, b with
      | Num.NNaN, _ | _, Num.NNaN => Num.NNaN
      | Num.NInf x, Num.NInf y => if Bool.eqb x y then a else Num.NNaN
      | Num.NInf _, _ => a
      | _, _ => b
      end
  end.
(** [n / d] for an integer constant [d > 0]. *)
Definition num_over (n : Num.num) (d : Z) : Num.num :=
  match n with Num.NInt z => num_quot z d | Num.NFrac m e => num_quot m (d * 2 ^ Zpos e) | n => n end.
Definition num_sum (l : list Num.num) : Num.num := foldl num_plus (Num.NInt 0) l.

(** ** The price book *)
Record EndpointPrice := mkPrice { ep_per_second : option Num.num; ep_per_job : option Num.num }.
Record SpendPricebook := mkBook { pb_default : option Num.num; pb_endpoints : list (string * EndpointPrice) }.
Definition empty_book : SpendPricebook := mkBook None [].
Definition finite_number (v : js) : option Num.num := match v with JNum n => if Num.is_finite n then Some n else None | _ => None end.
(** A later entry of the same key replaces the earlier. *)
Fixpoint put_key {A} (k : string) (v : A) (l : list (string * A)) : list (string * A) :=
  match l with [] => [(k, v)] | (k', v') :: l => if k' =s? k then (k, v) :: l else (k', v') :: put_key k v l end.
Definition lookup_key {A} (k : string) (l : list (string * A)) : option A := snd <$> List.find (λ p, p.1 =s? k) l.
Definition endpoint_price (v : js) : option EndpointPrice :=
  match v with JObj _ => Some (mkPrice (finite_number (js_field v "usd_per_second")) (finite_number (js_field v "usd_per_job"))) | _ => None end.
Definition parseSpendPricebook (json_parse : string → option js) (raw : option string) : SpendPricebook :=
  match raw with
  | None => empty_book
  | Some raw =>
      if negb (Str.truthy (Str.trim raw)) then empty_book
      else match json_parse raw with
      | None | Some JUndef | Some JNull => empty_book
      | Some parsed =>
          mkBook (finite_number (js_field parsed "default_usd_per_second"))
            (match js_field parsed "endpoints" with
             | JObj entries => foldl (λ l e, match endpoint_price e.2 with Some p => put_key e.1 p l | None => l end) [] entries
             | _ => []
             end)
      end
  end.

Record Priced := mkPriced { pd_cost : option Num.num; pd_priced_as : string }.
Definition failed_outcome (outcome : option string) : bool :=
  match outcome with Some o => Str.truthy o && negb (o =s? "COMPLETED") && negb (o =s? "completed") | None => false end.
Definition priceRunpodJob (book : SpendPricebook) (endpointId outcome : option string) (executionMs : option Num.num) : Priced :=
  let ep := match endpointId with Some e => if Str.truthy e then lookup_key e (pb_endpoints book) else None | None => None end in
  match ep ≫= ep_per_job with
  | Some perJob =>
      if failed_outcome outcome then mkPriced (Some (Num.NInt 0)) "per_job_failed_free"
      else mkPriced (Some (Num.round (Num.scale perJob MICRO_PER_USD))) "per_job"
  | None =>
      match ep ≫= ep_per_second, pb_default book with
      | None, None => mkPriced None "unpriced"
      | Some rate, _ | None, Some rate =>
          match executionMs with
          | None => mkPriced None "unpriced_no_ms"
          | Some ms =>
              mkPriced (Some (Num.round (Num.scale (num_mul (num_over ms 1000) rate) MICRO_PER_USD)))
                (match ep ≫= ep_per_second with Some _ => "per_second_endpoint" | None => "per_second_default" end)
          end
      end
  end.

(** ** A tenant's usage *)
Record TenantRunpodJob := mkTenantJob {
  tj_job_id : string; tj_tenant_slug : string; tj_module : option string; tj_endpoint_id : option string; tj_outcome : option string;
  tj_status_raw : option string; tj_execution_ms : option Num.num; tj_delay_ms : option Num.num; tj_submitted_at : option Num.num;
  tj_terminal_at : option Num.num; tj_source : option string;
}.
Record TenantLlmEvent := mkTenantEvent {
  te_source_id : string; te_model : option string; te_cost : option Num.num; te_tokens_in : option Num.num; te_tokens_out : option Num.num;
  te_occurred_at : string;
}.
Record UsageJob := mkUsageJob {
  uj_job_id : string; uj_module : option string; uj_endpoint_id : option string; uj_outcome : option string; uj_execution_ms : option Num.num;
  uj_cost : option Num.num; uj_priced_as : string; uj_submitted_at : option Num.num; uj_source : option string;
}.
Definition usage_job (book : SpendPricebook) (j : TenantRunpodJob) : UsageJob :=
  let priced := priceRunpodJob book (tj_endpoint_id j) (match tj_status_raw j with Some s => Some s | None => tj_outcome j end) (tj_execution_ms j) in
  mkUsageJob (tj_job_id j) (tj_module j) (tj_endpoint_id j) (tj_outcome j) (tj_execution_ms j) (pd_cost priced) (pd_priced_as priced)
    (tj_submitted_at j) (tj_source j).

Record ModuleRollup := mkRollup { mr_jobs : nat; mr_execution_ms : Num.num; mr_cost : Num.num; mr_unpriced : nat }.
Definition module_key (j : UsageJob) : string := match uj_module j with Some m => if Str.truthy m then m else "(unlabeled)" | None => "(unlabeled)" end.
Definition zero_if_null (n : option Num.num) : Num.num := default (Num.NInt 0) n.
Definition add_job (j : UsageJob) (r : ModuleRollup) : ModuleRollup :=
  mkRollup (S (mr_jobs r)) (num_plus (mr_execution_ms r) (zero_if_null (uj_execution_ms j)))
    (match uj_cost j with Some c => num_plus (mr_cost r) c | None => mr_cost r end)
    (match uj_cost j with Some _ => mr_unpriced r | None => S (mr_unpriced r) end).
Definition no_jobs : ModuleRollup := mkRollup 0 (Num.NInt 0) (Num.NInt 0) 0.
(** The map in the order its keys first came. *)
Definition roll_up (jobs : list UsageJob) : list (string * ModuleRollup) :=
  foldl (λ l j, put_key (module_key j) (add_job j (default no_jobs (lookup_key (module_key j) l))) l) [] jobs.
(** [r.unpriced === r.jobs ? null : r.cost_micro_usd] *)
Definition rollup_cost (r : ModuleRollup) : option Num.num := if (mr_unpriced r =? mr_jobs r)%nat then None else Some (mr_cost r).

Record UsageTotals := mkTotals {
  ut_runpod_jobs : nat; ut_runpod_ms : Num.num; ut_runpod_cost : option Num.num; ut_runpod_unpriced : nat;
  ut_llm_requests : nat; ut_llm_cost : option Num.num; ut_llm_unpriced : nat; ut_cost : option Num.num;
}.
Record TenantUsage := mkUsage {
  us_tenant_id : string; us_runpod : list UsageJob; us_llm : list TenantLlmEvent; us_by_module : list (string * ModuleRollup); us_totals : UsageTotals;
}.
Definition is_unknown {A} (cost : A → option Num.num) (x : A) : bool := match cost x with None => true | Some _ => false end.
Definition assembleTenantUsage (tenantId : string) (jobs : list TenantRunpodJob) (llm : list TenantLlmEvent) (book : SpendPricebook) : TenantUsage :=
  let runpod := usage_job book <$> jobs in
  let rpCost := num_sum (omap uj_cost runpod) in
  let rpUnpriced := length (jfilter (is_unknown uj_cost) runpod) in
  let rpMs := num_sum (zero_if_null ∘ uj_execution_ms <$> runpod) in
  let llmCost := num_sum (omap te_cost llm) in
  let llmUnpriced := length (jfilter (is_unknown te_cost) llm) in
  let some {A} (l : list A) := (0 <? length l)%nat in
  mkUsage tenantId runpod llm (roll_up runpod)
    (mkTotals (length runpod) rpMs (if (length runpod - rpUnpriced =? 0)%nat && some runpod then None else Some rpCost) rpUnpriced
       (length llm) (if (length llm - llmUnpriced =? 0)%nat && some llm then None else Some llmCost) llmUnpriced
       (if (rpUnpriced =? length runpod)%nat && (llmUnpriced =? length llm)%nat && (0 <? length runpod + length llm)%nat then None
        else Some (num_plus rpCost llmCost))).

(** [(micro / MICRO_PER_USD).toFixed(6)]; [show] is the text of a number from 10^21 on. *)
Definition toFixed6 (show : Num.num → string) (n : Num.num) : string :=
  match num_parts n with
  | Some (m, e) =>
      let a := Z.abs m in
      if 10 ^ 21 * 2 ^ e <=? a then show n
      else
        let k := (2 * a * 1000000 + 2 ^ e) / (2 * 2 ^ e) in
        (if (m <? 0) then "-" else "") +:+ Str.of_int (k / 1000000) +:+ "." +:+ Str.pad_start 6 "0"%char (Str.of_int (k mod 1000000))
  | None => show n
  end.
Definition formatUsdFromMicro (show : Num.num → string) (micro : option Num.num) : option string :=
  (λ m, toFixed6 show (num_over m MICRO_PER_USD)) <$> micro.

(** ** The rows behind a tenant's usage *)
Definition num_le_num (a b : Num.num) : bool :=
  match num_parts a, num_parts b with
  | Some (m, e), Some (m', e') => m * 2 ^ e' <=? m' * 2 ^ e
  | _, _ => match a, b with Num.NNaN, _ | _, Num.NNaN => false | _, _ => num_sign a <=? num_sign b end
  end.
(** [LIMIT ?]: the engine refuses a number that is not an integer. *)
Definition limited {A} (cap : Num.num) (l : list A) : result string (list A) :=
  match cap with Num.NInt n => Ok (firstn (Z.to_nat n) l) | _ => Err "datatype mismatch" end.
Definition num_least (a b : Num.num) : Num.num := if num_le_num a b then a else b.
Definition num_most (a b : Num.num) : Num.num := if num_le_num a b then b else a.
Definition read_cap (limit : Num.num) : Num.num := num_most (Num.NInt 1) (num_least limit (Num.NInt 500)).
Definition tenant_job (r : JobRow) : TenantRunpodJob :=
  mkTenantJob (j_job_id r) (j_tenant_slug r) (j_module r) (j_endpoint_id r) (j_outcome r) (j_status_raw r) (j_execution_ms r) (j_delay_ms r)
    (j_submitted_at r) (j_terminal_at r) (j_source r).
(** Rows of equal keys in the table's order. *)
Definition d1_listTenantRunpodJobs (tenantId : string) (limit : Num.num) (rows : list JobRow) : result string (list TenantRunpodJob) :=
  (λ l : list JobRow, tenant_job <$> l) <$> limited (read_cap limit)
    (order_by (λ x y, num_le_num (zero_if_null (j_submitted_at y)) (zero_if_null (j_submitted_at x))) (jfilter (λ r, j_tenant_id r =s? tenantId) rows)).
Definition tenant_event (e : SpendEvent) : TenantLlmEvent :=
  mkTenantEvent (sourceId e) (model e) (costMicroUsd e) (tokensIn e) (tokensOut e) (occurredAt e).
Definition d1_listTenantLlmEvents (tenantId : string) (limit : Num.num) (rows : list EventRec) : result string (list TenantLlmEvent) :=
  (λ l : list EventRec, (tenant_event ∘ ev) <$> l) <$> limited (read_cap limit)
    (order_by (λ x y, occurredAt (ev y) <=s? occurredAt (ev x)) (jfilter (λ r, bool_decide (LlmRollup.tenantId (ev r) = Some tenantId)) rows)).

(** ** What the buckets hold *)
Record TenantBucketUsage := mkBucketUsage {
  bu_tenant_id : string; bu_slug : string; bu_bucket : string; bu_payload : option Num.num; bu_objects : option Num.num; bu_error : option string;
}.
Inductive AlertState := AlertOver | AlertUnder | AlertIndeterminate | AlertNoThreshold.
#[export] Instance AlertState_eq_dec : EqDecision AlertState.
Proof. solve_decision. Defined.
Record R2UsageReport := mkR2Report {
  rr_census_complete : bool; rr_threshold : option Z; rr_total_bytes : Num.num; rr_total_objects : Num.num; rr_buckets_read : nat;
  rr_buckets_unreadable : nat; rr_tenants_without_bucket : nat; rr_total_is_floor : bool; rr_alert : AlertState; rr_tenants : list TenantBucketUsage;
}.
Record TenantLite := mkLite { tl_id : string; tl_slug : string; tl_bucket : option string }.
(** A measurement, or why there is none. *)
Definition measurement : Type := Num.num * Num.num + string.
Definition bucket_of (t : TenantLite) : option string := match tl_bucket t with Some b => if Str.truthy b then Some b else None | None => None end.
Definition bucket_row (measurements : list (string * measurement)) (t : TenantLite) : option TenantBucketUsage :=
  (λ b, match lookup_key b measurements with
        | Some (inl (bytes, objects)) => mkBucketUsage (tl_id t) (tl_slug t) b (Some bytes) (Some objects) None
        | Some (inr e) => mkBucketUsage (tl_id t) (tl_slug t) b None None (Some e)
        | None => mkBucketUsage (tl_id t) (tl_slug t) b None None (Some "no measurement returned")
        end) <$> bucket_of t.
Definition is_read (r : TenantBucketUsage) : bool := match bu_payload r with Some _ => true | None => false end.
Definition biggest_first (rows : list TenantBucketUsage) : list TenantBucketUsage :=
  order_by (λ x y, num_le_num (default (Num.NInt (-1)) (bu_payload y)) (default (Num.NInt (-1)) (bu_payload x))) rows.
Definition buildR2UsageReport (tenants : list TenantLite) (censusComplete : bool) (measurements : list (string * measurement)) (threshold : option Z) :
    R2UsageReport :=
  let rows := omap (bucket_row measurements) tenants in
  let total := num_sum (omap bu_payload rows) in
  let unreadable := length (jfilter (λ r, negb (is_read r)) rows) in
  let floor_ := negb censusComplete || (0 <? unreadable)%nat in
  mkR2Report censusComplete threshold total (num_sum (omap bu_objects rows)) (length (jfilter is_read rows)) unreadable
    (length (jfilter (λ t, match bucket_of t with None => true | Some _ => false end) tenants)) floor_
    (match threshold with
     | None => AlertNoThreshold
     | Some limit => if num_gt total limit then AlertOver else if floor_ then AlertIndeterminate else AlertUnder
     end) (biggest_first rows).
Definition parseThresholdBytes (raw : option string) : option Z :=
  match raw with
  | None => None
  | Some raw =>
      let t := Str.trim raw in
      if (t =s? "") || negb (Str.all_digits t) then None
      else let n := Num.rnd (Str.parse_digits t) in if Num.is_safe n && (0 <? n) then Some n else None
  end.

(** ** The list of tenants (listTenants)

    [LIKE] ignores the case of ASCII letters; [%] stands for any text and [_] for any character. *)
Fixpoint like (pattern : list ascii) : list ascii → bool :=
  match pattern with
  | [] => λ s, match s with [] => true | _ => false end
  | c :: pattern =>
      if Ascii.eqb c "%" then fix any s := like pattern s || match s with [] => false | _ :: s => any s end
      else λ s, match s with [] => false | x :: s => (Ascii.eqb c "_" || Ascii.eqb (Str.lower_char c) (Str.lower_char x)) && like pattern s end
  end.
Definition tenant_listed (status q : option string) (t : Tenant) : bool :=
  match status with
  | Some st => if negb (Str.truthy st) then true
               else if st =s? "suspended" then match t_suspended_at t with Some _ => true | None => false end else t_status t =s? st
  | None => true
  end &&
  match q with Some q => if Str.truthy q then like (Str.chars ("%" +:+ q +:+ "%")) (Str.chars (t_slug t)) else true | None => true end.
(** Rows of one instant in the table's order. *)
Definition d1_listTenants (status q : option string) : M plane_db string (list Tenant) :=
  gets (λ db, firstn TENANT_PAGE_LIMIT (order_by (λ x y, t_created_at y <=s? t_created_at x) (jfilter (tenant_listed status q) (pd_tenants db)))).

(** ** The routes *)
Section usage_routes.
Context {W : Type}.
Variable json_parse : string → option js.
Variable show : Num.num → string.
Variable number : string → Num.num.
(** [deps.store] and [deps.provisioner.r2Usage]. *)
Variable listTenants : M W string (list Tenant).
Variable getTenantById : string → M W string (option Tenant).
Variable listTenantRunpodJobs : string → Num.num → M W string (list TenantRunpodJob).
Variable listTenantLlmEvents : string → Num.num → M W string (list TenantLlmEvent).
Variable r2Usage : string → M W string (Num.num * Num.num).

(** One bucket after the other; a failure is kept by its first 200 characters. *)
Fixpoint measure (buckets : list string) (l : list (string * measurement)) : M W string (list (string * measurement)) :=
  match buckets with
  | [] => mret l
  | b :: buckets =>
      m ← attempt (r2Usage b);
      measure buckets (put_key b (match m with inr v => inl v | inl e => inr (Str.take 200 e) end) l)
  end.
Definition tenant_lite (t : Tenant) : TenantLite := mkLite (t_id t) (t_slug t) (t_r2_bucket_name t).
Definition measured (t : Tenant) : bool := opt_set (t_r2_bucket_name t) && negb (opt_set (t_deleted_at t)).
Definition r2UsageRoute (provisioned : bool) (alertBytes : option string) : M W string (reply + R2UsageReport) :=
  if negb provisioned then mret (inl (err_reply "provisioner_unconfigured" 503 []))
  else
    tenants ← listTenants;
    let kept := jfilter measured tenants in
    measurements ← measure (default "" ∘ t_r2_bucket_name <$> kept) [];
    mret (inr (buildR2UsageReport (tenant_lite <$> kept) (length tenants <? TENANT_PAGE_LIMIT)%nat measurements (parseThresholdBytes alertBytes))).

(** [Math.min(500, Math.max(1, Number(param ?? 200) || 200))] *)
Definition usage_limit (param : option string) : Num.num :=
  let n := number (default "200" param) in
  num_least (Num.NInt 500) (num_most (Num.NInt 1) (match n with Num.NNaN | Num.NInt 0 => Num.NInt 200 | n => n end)).
Record UsageAnswer := mkUsageAnswer { ua_slug : string; ua_usage : TenantUsage; ua_usd : list (string * option string) }.
Definition tenantUsageRoute (pricebook limit : option string) (tenantId : string) : M W string (reply + UsageAnswer) :=
  tenant ← getTenantById tenantId;
  match tenant with
  | None => mret (inl (err_reply "not_found" 404 []))
  | Some tenant =>
      jobs ← listTenantRunpodJobs (t_id tenant) (usage_limit limit);
      llm ← listTenantLlmEvents (t_id tenant) (usage_limit limit);
      let usage := assembleTenantUsage (t_id tenant) jobs llm (parseSpendPricebook json_parse pricebook) in
      let usd := formatUsdFromMicro show in
      mret (inr (mkUsageAnswer (t_slug tenant) usage
        [("runpod", usd (ut_runpod_cost (us_totals usage))); ("llm", usd (ut_llm_cost (us_totals usage))); ("all", usd (ut_cost (us_totals usage)))]))
  end.
End usage_routes.

(** ** Lemmas *)
Section sums.
Implicit Types (l : list Num.num).
Lemma num_plus_int a b : Z.abs (a + b) <= Num.max_safe → num_plus (Num.NInt a) (Num.NInt b) = Num.NInt (a + b).
Proof. intros Hs. unfold num_plus. cbn. rewrite !Z.mul_1_r. by apply make_int. Qed.
Lemma num_sum_from zs : ∀ acc, 0 <= acc → Forall (λ z, 0 <= z) zs → acc + sumZ id zs <= Num.max_safe →
  foldl num_plus (Num.NInt acc) (Num.NInt <$> zs) = Num.NInt (acc + sumZ id zs).
Proof.
induction zs as [|z zs IH]; intros acc Ha Hz Hs; [rewrite sumZ_nil, Z.add_0_r; done|]. apply Forall_cons in Hz as [Hz Hzs].
assert (0 <= sumZ id zs) by (apply sumZ_nonneg; intros x Hx; rewrite Forall_forall in Hzs; by apply Hzs).
rewrite sumZ_cons in Hs |- *. change (id z) with z in *. rewrite fmap_cons. cbn [foldl]. rewrite num_plus_int by lia.
rewrite IH by (done || lia). f_equal. lia.
Qed.
Lemma num_sum_ints zs : Forall (λ z, 0 <= z) zs → sumZ id zs <= Num.max_safe → num_sum (Num.NInt <$> zs) = Num.NInt (sumZ id zs).
Proof. intros Hz Hs. unfold num_sum. by rewrite num_sum_from. Qed.
End sums.

Section r2.
Context {W : Type} (r2Usage : string → M W string (Num.num * Num.num)) (size : string → Z).
Hypothesis size_nonneg : ∀ b, 0 <= size b.
(** What is read of a bucket is what it holds. *)
Hypothesis reads_are_true : ∀ b s bytes objects s', r2Usage b s = (Ok (bytes, objects), s') → bytes = Num.NInt (size b).

Definition truthful (l : list (string * measurement)) : Prop := ∀ b bytes objects, lookup_key b l = Some (inl (bytes, objects)) → bytes = Num.NInt (size b).
Lemma lookup_put_key {A} k k' (v : A) l : lookup_key k (put_key k' v l) = if k' =s? k then Some v else lookup_key k l.
Proof.
unfold lookup_key. induction l as [|[k2 v2] l IH]; cbn; [by destruct (k' =s? k)|].
destruct (String.eqb_spec k2 k') as [->|Hne]; cbn; [by destruct (k' =s? k)|].
destruct (String.eqb_spec k2 k) as [->|Hne2]; [|exact IH]. destruct (String.eqb_spec k' k); [congruence|done].
Qed.
Lemma measure_truthful buckets : ∀ l s r s', truthful l → measure r2Usage buckets l s = (Ok r, s') → truthful r.
Proof.
induction buckets as [|b buckets IH]; intros l s r s' Hl; cbn; [by intros [= <- _]|]. rewrite attempt_bind.
destruct (r2Usage b s) as [[[bytes objects]|e] s1] eqn:Hr; intros Hs; eapply IH; try exact Hs; intros b' x y; rewrite lookup_put_key;
  destruct (String.eqb_spec b b') as [<-|_]; try apply Hl; intros Hq; simplify_eq. by eapply reads_are_true.
Qed.

Definition real_size (t : TenantLite) : Z := match bucket_of t with Some b => size b | None => 0 end.
Definition total_of (tenants : list TenantLite) : Z := sumZ real_size tenants.

Lemma read_rows measurements tenants : truthful measurements →
  ∃ zs, omap bu_payload (omap (bucket_row measurements) tenants) = Num.NInt <$> zs ∧ Forall (λ z, 0 <= z) zs ∧ sumZ id zs <= total_of tenants ∧
    (jfilter (λ r, negb (is_read r)) (omap (bucket_row measurements) tenants) = [] → sumZ id zs = total_of tenants).
Proof.
intros Hm. induction tenants as [|t tenants (zs & Hz & Hn & Hle & Heq)]; [by exists []|].
assert (0 <= real_size t) as Hsize by (unfold real_size; destruct (bucket_of t); [apply size_nonneg|lia]).
unfold total_of in *. rewrite sumZ_cons. cbn [omap list_omap]. destruct (bucket_row measurements t) as [r|] eqn:Hrow.
- assert (match bu_payload r with Some n => n = Num.NInt (real_size t) | None => True end) as Hr.
  { unfold bucket_row, real_size in *. destruct (bucket_of t) as [b|]; [|done]. cbn in Hrow. injection Hrow as <-.
    destruct (lookup_key b measurements) as [[[bytes objects]|e]|] eqn:Hl; [|done..]. by apply Hm in Hl. }
  cbn [omap list_omap jfilter List.filter]. unfold is_read at 1. destruct (bu_payload r) as [n|]; cbn [negb].
  + subst n. exists (real_size t :: zs). rewrite sumZ_cons. change (id (real_size t)) with (real_size t).
    split_and!; [by rewrite fmap_cons, Hz|by constructor|lia|]. intros Hq. by rewrite (Heq Hq).
  + exists zs. split_and!; [done..|lia|done].
- assert (real_size t = 0) as ->. { unfold bucket_row, real_size in *. by destruct (bucket_of t). }
  exists zs. split_and!; [done..|lia|]. intros Hq. by rewrite (Heq Hq).
Qed.

Lemma report_alert tenants complete measurements threshold limit : truthful measurements → total_of tenants <= Num.max_safe →
  threshold = Some limit →
  let r := buildR2UsageReport tenants complete measurements threshold in
  (rr_alert r = AlertOver → limit < total_of tenants) ∧
  (rr_alert r = AlertUnder → complete = true ∧ total_of tenants <= limit) ∧ rr_alert r ≠ AlertNoThreshold.
Proof.
intros Hm Hs ->. destruct (read_rows measurements tenants Hm) as (zs & Hz & Hn & Hle & Heq). cbv zeta. cbn [buildR2UsageReport rr_alert].
rewrite Hz, num_sum_ints by (done || lia). unfold num_gt. destruct (Z.ltb_spec limit (sumZ id zs)).
- split_and!; [lia|done|done].
- destruct (negb complete || _) eqn:Hf; [by split_and!|]. split_and!; [done| |done]. intros _. bool_hyps. split; [done|].
  rewrite <- Heq; [lia|]. match goal with E : (0 <? length ?l)%nat = false |- _ => apply Nat.ltb_ge in E; destruct l; [done|cbn in E; lia] end.
Qed.

(** Every tenant the bill counts: a bucket, and a row that is not deleted. *)
Definition billed (db : plane_db) : list TenantLite := tenant_lite <$> jfilter measured (pd_tenants db).

Lemma order_by_Permutation {A} (le : A → A → bool) l : order_by le l ≡ₚ l.
Proof. unfold order_by. induction l as [|x l IH]; cbn; [done|]. by rewrite insert_by_perm, IH. Qed.
Lemma sumZ_part {A} (f : A → Z) l1 l2 l : (∀ x, 0 <= f x) → l ≡ₚ l1 ++ l2 → sumZ f l1 <= sumZ f l.
Proof. intros Hf Hp. rewrite (sumZ_perm f _ _ Hp), sumZ_app. assert (0 <= sumZ f l2) by (apply sumZ_nonneg; auto). lia. Qed.

(** C35. The storage alert never lies, in either direction.  Over a table of tenants that all fit in exact
    numbers, where a bucket that can be read is read truly, a report that says over is of a bill whose
    real total, unread buckets and unlisted tenants included, is above the threshold; one that says under
    is of a bill whose real total is not, so it is only ever said of a whole census with every bucket
    read.  A deployment without a threshold raises nothing, and one with a threshold always says
    something. *)
Theorem storage_alert_is_sound (listTenants : M W string (list Tenant)) db alertBytes report s s1 s' :
  listTenants s = (eval (d1_listTenants None None) db, s1) →
  total_of (billed db) <= Num.max_safe →
  r2UsageRoute listTenants r2Usage true alertBytes s = (Ok (inr report), s') →
  match parseThresholdBytes alertBytes with
  | None => rr_alert report = AlertNoThreshold
  | Some limit =>
      (rr_alert report = AlertOver → limit < total_of (billed db)) ∧ (rr_alert report = AlertUnder → total_of (billed db) <= limit) ∧
      rr_alert report ≠ AlertNoThreshold
  end.
Proof.
intros Hlist Hsafe. unfold r2UsageRoute. cbn [negb]. rewrite bind_run, Hlist. unfold eval, d1_listTenants, gets. cbn [fst]. cbv zeta.
unfold tenant_listed. change (λ _ : Tenant, true && true) with (λ _ : Tenant, true).
set (all := order_by _ _). assert (all ≡ₚ pd_tenants db) as Hall.
{ unfold all. rewrite order_by_Permutation. unfold jfilter. clear. induction (pd_tenants db) as [|t l IH]; [done|]. cbn. by rewrite IH. }
intros (measurements & s2 & Hm & Hs)%M_bind_inv. injection Hs as <- _.
apply measure_truthful in Hm; [|done]. destruct (parseThresholdBytes alertBytes) as [limit|]; [|done].
assert (∀ x, 0 <= real_size x) as Hreal by (intros x; unfold real_size; destruct (bucket_of x); [apply size_nonneg|lia]).
set (page := tenant_lite <$> jfilter measured (firstn TENANT_PAGE_LIMIT all)).
set (rest := tenant_lite <$> jfilter measured (skipn TENANT_PAGE_LIMIT all)).
assert (billed db ≡ₚ page ++ rest) as Hparts.
{ unfold billed, page, rest. rewrite <- fmap_app, <- jfilter_app, take_drop. apply fmap_Permutation, jfilter_perm. by symmetry. }
assert (total_of page <= total_of (billed db)) as Hle by (by eapply sumZ_part).
destruct (report_alert page (length (firstn TENANT_PAGE_LIMIT all) <? TENANT_PAGE_LIMIT)%nat measurements (Some limit) limit Hm ltac:(lia) eq_refl) as (H1 & H2 & H3).
split_and!; [intros Ho; specialize (H1 Ho); lia| |exact H3]. intros Hu. destruct (H2 Hu) as [Hc Ht].
assert (rest = []) as Hrest.
{ unfold rest. apply Nat.ltb_lt in Hc. rewrite length_take in Hc. rewrite drop_ge by lia. done. }
unfold total_of at 1. rewrite (sumZ_perm real_size (billed db) page); [exact Ht|]. by rewrite Hparts, Hrest, app_nil_r.
Qed.

(** The count of tenants without a bucket is kept by the report and never reached by the route, which
    leaves those tenants out before it asks. *)
Theorem bucketless_tenants_are_never_counted (listTenants : M W string (list Tenant)) alertBytes report s s' :
  r2UsageRoute listTenants r2Usage true alertBytes s = (Ok (inr report), s') → rr_tenants_without_bucket report = 0%nat.
Proof.
unfold r2UsageRoute. cbn [negb]. intros (tenants & s1 & _ & Hs)%M_bind_inv. cbv zeta in Hs. apply M_bind_inv in Hs as (m & s2 & _ & Hs). injection Hs as <- _.
cbn [rr_tenants_without_bucket buildR2UsageReport].
match goal with |- length ?l = _ => assert (l = []) as ->; [|done] end. apply jfilter_nil_iff. intros x (t & -> & Ht)%list_elem_of_fmap.
apply elem_of_jfilter in Ht as [_ Ht]. unfold measured, opt_set in Ht. bool_hyps. unfold bucket_of, tenant_lite. cbn.
destruct (t_r2_bucket_name t) as [b|]; [|done]. by match goal with E : Str.truthy b = true |- _ => rewrite E end.
Qed.
End r2.

(** ** A tenant's usage adds up *)
Section usage.
Implicit Types (jobs : list UsageJob) (k : string).

Definition jobs_of k jobs : list UsageJob := jfilter (λ j, module_key j =s? k) jobs.
Definition rolled jobs : ModuleRollup := foldl (λ r j, add_job j r) no_jobs jobs.

Lemma put_key_NoDup {A} k (v : A) l : NoDup (fst <$> l) → NoDup (fst <$> put_key k v l) ∧ ∀ k', k' ∈ fst <$> put_key k v l ↔ k' = k ∨ k' ∈ fst <$> l.
Proof.
induction l as [|[k2 v2] l IH]; cbn; intros Hn; [split; [by apply NoDup_singleton|intros k'; rewrite list_elem_of_singleton, elem_of_nil; naive_solver]|].
apply NoDup_cons in Hn as [Hk Hn]. destruct (IH Hn) as [Hp Hin]. destruct (String.eqb_spec k2 k) as [->|Hne]; cbn.
- split; [by apply NoDup_cons|]. intros k'. rewrite !elem_of_cons. naive_solver.
- split.
  + apply NoDup_cons. split; [|exact Hp]. rewrite Hin. naive_solver.
  + intros k'. rewrite !elem_of_cons, Hin. naive_solver.
Qed.
Lemma sum_put_key {A} (f : A → Z) k v l : NoDup (fst <$> l) →
  sumZ (f ∘ snd) (put_key k v l) = sumZ (f ∘ snd) l + f v - match lookup_key k l with Some o => f o | None => 0 end.
Proof.
unfold lookup_key. induction l as [|[k2 v2] l IH]; cbn [put_key List.find fmap option_fmap option_map fst]; intros Hn.
- rewrite sumZ_cons, !sumZ_nil. cbn. lia.
- cbn [fmap list_fmap] in Hn. apply NoDup_cons in Hn as [Hk Hn]. destruct (k2 =s? k); rewrite !sumZ_cons; cbn; [lia|]. rewrite (IH Hn). lia.
Qed.

Lemma roll_up_snoc jobs j : roll_up (jobs ++ [j]) = put_key (module_key j) (add_job j (default no_jobs (lookup_key (module_key j) (roll_up jobs)))) (roll_up jobs).
Proof. unfold roll_up. by rewrite foldl_app. Qed.
Lemma roll_up_NoDup jobs : NoDup (fst <$> roll_up jobs).
Proof. induction jobs as [|j jobs IH] using rev_ind; [constructor|]. rewrite roll_up_snoc. by apply put_key_NoDup. Qed.
(** Each module's row is the sum of its own jobs. *)
Lemma roll_up_lookup jobs k : lookup_key k (roll_up jobs) = match jobs_of k jobs with [] => None | l => Some (rolled l) end.
Proof.
induction jobs as [|j jobs IH] using rev_ind; [done|]. rewrite roll_up_snoc, lookup_put_key. unfold jobs_of, rolled in *. rewrite jfilter_app. cbn [jfilter List.filter].
destruct (String.eqb_spec (module_key j) k) as [->|Hne]; [|by rewrite app_nil_r].
rewrite IH. destruct (jfilter _ jobs) as [|x l]; [done|]. cbn [app]. change (x :: l ++ [j]) with ((x :: l) ++ [j]). by rewrite foldl_app.
Qed.

Lemma rolled_from jobs r :
  mr_jobs (foldl (λ r j, add_job j r) r jobs) = (mr_jobs r + length jobs)%nat ∧
  mr_cost (foldl (λ r j, add_job j r) r jobs) = foldl num_plus (mr_cost r) (omap uj_cost jobs) ∧
  mr_unpriced (foldl (λ r j, add_job j r) r jobs) = (mr_unpriced r + length (jfilter (is_unknown uj_cost) jobs))%nat.
Proof.
revert r. induction jobs as [|j jobs IH]; intros r; cbn; [split_and!; lia || done|]. destruct (IH (add_job j r)) as (-> & -> & ->). unfold is_unknown, add_job.
destruct (uj_cost j); cbn; split_and!; lia || done.
Qed.
Lemma rolled_sums jobs : mr_jobs (rolled jobs) = length jobs ∧ mr_cost (rolled jobs) = num_sum (omap uj_cost jobs) ∧
  mr_unpriced (rolled jobs) = length (jfilter (is_unknown uj_cost) jobs).
Proof. destruct (rolled_from jobs no_jobs) as (H1 & H2 & H3). by unfold rolled. Qed.

Lemma modules_partition (f : ModuleRollup → Z) (g : UsageJob → Z) jobs :
  f no_jobs = 0 → (∀ j r, f (add_job j r) = f r + g j) → sumZ (f ∘ snd) (roll_up jobs) = sumZ g jobs.
Proof.
intros H0 Hadd. induction jobs as [|j jobs IH] using rev_ind; [done|]. rewrite roll_up_snoc, sum_put_key by apply roll_up_NoDup.
rewrite Hadd, IH, sumZ_snoc. destruct (lookup_key _ _) as [r|]; cbn; [lia|]. rewrite H0. lia.
Qed.

Lemma price_known book e o ms : pd_cost (priceRunpodJob book e o ms) = None ↔
  let ep := match e with Some e => if Str.truthy e then lookup_key e (pb_endpoints book) else None | None => None end in
  (ep ≫= ep_per_job) = None ∧ (((ep ≫= ep_per_second) = None ∧ pb_default book = None) ∨ ms = None).
Proof.
unfold priceRunpodJob. cbv zeta. set (ep := match e with Some _ => _ | None => _ end).
destruct (ep ≫= ep_per_job) as [p|]; [destruct (failed_outcome o); cbn; naive_solver|].
destruct (ep ≫= ep_per_second) as [r|], (pb_default book) as [d|], ms as [m|]; cbn; naive_solver.
Qed.

(** A tenant's usage adds up, and what is not known is null.  A job is without a price exactly where
    its endpoint has no price per job and either no rate or no running time is known.  The modules of
    the report are distinct, each has exactly the jobs, the costs and the unpriced of its own, and
    together they have every job and every unpriced one.  A total is null exactly where there is
    something to price and nothing of it is priced; otherwise, where the known costs are whole numbers
    that add up exactly, it is their sum. *)
Theorem usage_adds_up tenantId (jobs : list TenantRunpodJob) llm book (zs ws : list Z) :
  let u := assembleTenantUsage tenantId jobs llm book in
  omap uj_cost (us_runpod u) = Num.NInt <$> zs → omap te_cost llm = Num.NInt <$> ws → Forall (λ z, 0 <= z) (zs ++ ws) → sumZ id (zs ++ ws) <= Num.max_safe →
  us_runpod u = usage_job book <$> jobs ∧
  NoDup (fst <$> us_by_module u) ∧
  (∀ k, lookup_key k (us_by_module u) = match jobs_of k (us_runpod u) with [] => None | l => Some (rolled l) end) ∧
  sumZ (λ m, Z.of_nat (mr_jobs m.2)) (us_by_module u) = Z.of_nat (length jobs) ∧
  sumZ (λ m, Z.of_nat (mr_unpriced m.2)) (us_by_module u) = Z.of_nat (ut_runpod_unpriced (us_totals u)) ∧
  ut_runpod_cost (us_totals u) = (if (length zs =? 0)%nat && (0 <? length jobs)%nat then None else Some (Num.NInt (sumZ id zs))) ∧
  ut_llm_cost (us_totals u) = (if (length ws =? 0)%nat && (0 <? length llm)%nat then None else Some (Num.NInt (sumZ id ws))) ∧
  ut_cost (us_totals u) = (if (length zs + length ws =? 0)%nat && (0 <? length jobs + length llm)%nat then None
                           else Some (Num.NInt (sumZ id zs + sumZ id ws))).
Proof.
cbv zeta. intros Hz Hw Hn Hs. cbn [assembleTenantUsage us_runpod us_by_module us_totals ut_runpod_cost ut_llm_cost ut_cost ut_runpod_unpriced] in *.
set (rp := usage_job book <$> jobs) in *. assert (length rp = length jobs) as Hlen by (unfold rp; by rewrite length_fmap).
assert (∀ {A} (cost : A → option Num.num) (l : list A), length l = (length (omap cost l) + length (jfilter (is_unknown cost) l))%nat) as Hsplit.
{ intros A cost l. unfold is_unknown, jfilter. induction l as [|x l IH]; [done|]. change (omap cost (x :: l)) with (match cost x with Some y => y :: omap cost l | None => omap cost l end). cbn [List.filter]. destruct (cost x); cbn [length]; lia. }
pose proof (Hsplit _ uj_cost rp) as H1. pose proof (Hsplit _ te_cost llm) as H2. rewrite Hz, length_fmap in H1. rewrite Hw, length_fmap in H2.
apply Forall_app in Hn as [Hnz Hnw]. rewrite sumZ_app in Hs.
assert (∀ l, Forall (λ z, 0 <= z) l → 0 <= sumZ id l) as Hpos by (intros l Hl; apply sumZ_nonneg; by apply Forall_forall).
pose proof (Hpos zs Hnz). pose proof (Hpos ws Hnw). rewrite Hz, Hw, !num_sum_ints by (done || lia). rewrite num_plus_int by lia.
split_and!; [done|apply roll_up_NoDup|intros k; apply roll_up_lookup| | | | |].
- rewrite <- Hlen. rewrite (modules_partition (λ r, Z.of_nat (mr_jobs r)) (λ _, 1)); [|done|intros; cbn; lia].
  clear. induction rp as [|j l IH]; [done|]. rewrite sumZ_cons, IH. cbn [length]. lia.
- rewrite (modules_partition (λ r, Z.of_nat (mr_unpriced r)) (λ j, if is_unknown uj_cost j then 1 else 0)).
  + clear. induction rp as [|j l IH]; [done|]. rewrite sumZ_cons, IH. unfold jfilter. cbn [List.filter]. destruct (is_unknown uj_cost j); cbn [length]; lia.
  + done.
  + intros j r. unfold add_job, is_unknown. cbn. destruct (uj_cost j); lia.
- replace (length rp - _)%nat with (length zs) by lia. by rewrite Hlen.
- by replace (length llm - _)%nat with (length ws) by lia.
- rewrite Hlen. do 2 f_equal. repeat match goal with |- context [(?a =? ?b)%nat] => destruct (Nat.eqb_spec a b) end; cbn; (done || lia).
Qed.
End usage.
