(* ===== verification/OnboardingPolicy.v ===== *)
(** * What taking a name and going live may do (theorems about Onboarding.v)

    A studio goes live on evidence only, and what a route destroys, creates or starts it has claimed
    and recorded before. *)

From S2P Require Export Onboarding ConvergePolicy.
From Stdlib Require Import Ascii.
Open Scope string_scope.
Open Scope list_scope.
Open Scope Z_scope.
Open Scope plane_scope.

(** ** The probes of a key, call by call *)
Section probes.
Context (ask : world) (allowed : trace → call → Prop) (key : string).
Implicit Types (tr : trace) (P : trace → Prop).

Definition reached (id : string) (tr : trace) : Prop := ∃ res, answered (NFetch (health_request key id)) (Ok res) tr ∧ rs_ok res = true.
(** The account query was made, and what came back did not grant it. *)
Definition declined (tr : trace) : Prop := ∃ a, Ev (NFetch (graphql_request key)) a ∈ tr ∧ match a with Ok res => graphql_granted res = false | Err _ => True end.
#[export] Instance stable_declined : Stable declined.
Proof. intros tr tr' [k ->] (a & H & Ha). exists a. split; [by apply elem_of_app; left|done]. Qed.

Lemma fetch_run rq tr : fetch ask rq tr =
  (match ask tr (NFetch rq) with Ok res => Ok res | Err e => Err (exn_text e) end, tr ++ [Ev (NFetch rq) (ask tr (NFetch rq))]).
Proof. unfold fetch, as_text, map_err. rewrite perform_run. by destruct (ask tr (NFetch rq)). Qed.
(** A request that is allowed and whose failure is caught. *)
Lemma caught_fetch_safe {A} P rq (f : HttpResponse → A) (d : A) (Q : A → trace → Prop) : (∀ tr, P tr → allowed tr (NFetch rq)) →
  (∀ tr a, Ev (NFetch rq) a ∈ tr → Q (match a with Ok res => f res | Err _ => d end) tr) →
  safe allowed P (catch (res ← fetch ask rq; mret (f res)) (λ _, mret d)) Q.
Proof.
intros Hal HQ tr Ho Htr. unfold catch. rewrite bind_run, fetch_run.
assert (Ev (NFetch rq) (ask tr (NFetch rq)) ∈ tr ++ [Ev (NFetch rq) (ask tr (NFetch rq))]) as Hin by (apply elem_of_app; right; left).
specialize (HQ _ _ Hin). assert (obeys allowed (tr ++ [Ev (NFetch rq) (ask tr (NFetch rq))])) as Ho' by (apply obeys_snoc; [done|by apply Hal]).
destruct (ask tr (NFetch rq)) as [res|e]; cbn in *; by split_and!; [eexists| |].
Qed.
Lemma probe_graphql_safe P : (∀ tr, P tr → allowed tr (NFetch (graphql_request key))) →
  safe allowed P (probeGraphql (fetch ask) key) (λ b tr, b = false → declined tr).
Proof. intros Hal. apply caught_fetch_safe; [done|]. intros tr a Hin Hb. exists a. split; [done|]. by destruct a. Qed.
Lemma probe_health_safe P id : (∀ tr, P tr → allowed tr (NFetch (health_request key id))) →
  safe allowed P (probeEndpointHealth (fetch ask) key id) (λ r tr, r = InScope → reached id tr).
Proof.
intros Hal. apply caught_fetch_safe; [done|]. intros tr [res|e] Hin; [|done]. intros H. exists res. split; [done|].
unfold health_probe in H. destruct (rs_ok res); [done|]. by destruct (_ || _).
Qed.
Lemma probe_endpoints_safe P ids i o u : Stable P → (∀ tr id, P tr → id ∈ ids → allowed tr (NFetch (health_request key id))) →
  safe allowed (λ tr, P tr ∧ ∀ id, id ∈ i → reached id tr) (probe_endpoints (fetch ask) key ids (i, o, u))
    (λ r tr, ∃ l, r.1.1 = i ++ l ∧ l `sublist_of` ids ∧ ∀ id, id ∈ r.1.1 → reached id tr).
Proof.
intros HP. revert i o u. induction ids as [|id ids IH]; intros i o u Hal; cbn [probe_endpoints].
{ apply safe_ret. intros tr [_ H]. exists []. by rewrite app_nil_r. }
eapply safe_bind; [apply _|apply probe_health_safe; intros tr [Htr _]; apply Hal; [done|left]|]. cbv beta. intros r.
assert (∀ i' o' u', (∀ tr, ((P tr ∧ (∀ x, x ∈ i → reached x tr)) ∧ (r = InScope → reached id tr)) → ∀ x, x ∈ i' → reached x tr) →
  (∃ l0, i' = i ++ l0 ∧ ∀ l, l `sublist_of` ids → (l0 ++ l) `sublist_of` id :: ids) →
  safe allowed (λ tr, (P tr ∧ (∀ x, x ∈ i → reached x tr)) ∧ (r = InScope → reached id tr)) (probe_endpoints (fetch ask) key ids (i', o', u'))
    (λ r tr, ∃ l, r.1.1 = i ++ l ∧ l `sublist_of` id :: ids ∧ ∀ x, x ∈ r.1.1 → reached x tr)) as Hgo.
{ intros i' o' u' Hi (l0 & -> & Hl0). eapply safe_weaken; [apply IH; intros tr x Htr Hin; apply Hal; [done|by right]| |].
  - intros tr Htr. split; [by apply Htr|by apply Hi].
  - intros a tr _ (l & E & Hl & H). exists (l0 ++ l). rewrite E, <- app_assoc. split_and!; [done|by apply Hl0|by rewrite E, <- app_assoc in H]. }
destruct r; apply Hgo.
- intros tr [[_ Hi] Hr] x [Hx|Hx%list_elem_of_singleton]%elem_of_app; [by apply Hi|subst; by apply Hr].
- exists [id]. split; [done|intros l Hl; by apply sublist_skip].
- by intros tr [[_ Hi] _].
- exists []. rewrite app_nil_r. split; [done|intros l Hl; by apply sublist_cons].
- by intros tr [[_ Hi] _].
- exists []. rewrite app_nil_r. split; [done|intros l Hl; by apply sublist_cons].
Qed.
Lemma sublist_full {A} (l k : list A) : l `sublist_of` k → length l = length k → l = k.
Proof. intros H. induction H as [|x l k H IH|x l k H IH]; [done|intros [= E]; by rewrite IH|]. apply sublist_length in H. cbn. lia. Qed.
(** What an accepted key has shown. *)
Definition key_accepted (ids : list string) (tr : trace) : Prop :=
  ids ≠ [] ∧ hasModernKeyPrefix key = true ∧ declined tr ∧ ∀ id, id ∈ ids → reached id tr.
#[export] Instance stable_key_accepted ids : Stable (key_accepted ids).
Proof. apply _. Qed.
Lemma scope_check_safe P ids : Stable P → (∀ tr, P tr → allowed tr (NFetch (graphql_request key))) →
  (∀ tr id, P tr → id ∈ ids → allowed tr (NFetch (health_request key id))) →
  safe allowed P (verifyInvokeKeyScope (fetch ask) key ids) (λ v tr, iv_ok v = true → key_accepted ids tr).
Proof.
intros HP Hg Hh. unfold verifyInvokeKeyScope. destruct (length ids =? 0)%nat eqn:El; [by apply safe_ret|]. apply Nat.eqb_neq in El.
destruct (hasModernKeyPrefix key) eqn:Epre; cbn [negb]; [|by apply safe_ret].
eapply safe_bind; [done|by apply probe_graphql_safe|]. intros []; [by apply safe_ret|].
eapply safe_bind; [apply _| |].
- eapply safe_weaken; [apply (probe_endpoints_safe P); [done|done]| |].
  + intros tr [Htr _]. split; [done|by intros id ?%elem_of_nil].
  + intros a tr _ H. exact H.
- intros [[i o] u]. cbn [fst]. destruct (length i =? length ids)%nat eqn:E; [|destruct (u && _); by apply safe_ret].
  apply safe_ret. intros tr [[_ Hd] (l & -> & Hl & H)] _. cbn [app] in *. apply Nat.eqb_eq in E. split_and!; [by intros ->|done|by apply Hd|].
  intros id Hid. apply H. by rewrite (sublist_full _ _ Hl E).
Qed.
End probes.

(** ** Going live *)
Definition waiting_kind (t : string) (c : call) : bool :=
  match c with
  | KNow | KSleep _ => true
  | XCallModule script path => starts_with (tenantModuleScriptPrefix t) script && (path =s? "/ready")
  | _ => false
  end.
Lemma gather_only {A B} ok (f : A → M trace exn B) l : (∀ x, only ok (f x)) → only ok (gather f l).
Proof.
intros Hf. unfold gather. apply only_bind; [|intros vs; apply only_lift]. induction l as [|x l IH]; cbn [settle_all]; [apply only_ret|].
apply only_bind; [by apply only_attempt|]. intros v. apply only_bind; [done|intros vs; apply only_ret].
Qed.
Lemma await_only ask json_parse fuel t deadline catalog : only (waiting_kind t) (awaitTenantModulesReady ask json_parse fuel t deadline catalog).
Proof.
unfold awaitTenantModulesReady. apply only_bind; [by apply only_perform|]. intros started. destruct (_ =? 0)%nat; [apply only_throw|].
generalize 0%nat, (mkSorted [] [] (reaching catalog)). induction fuel as [|fuel IH]; intros n acc; cbn [ready_rounds]; [apply only_throw|].
apply only_bind.
{ apply gather_only. intros x. unfold ask_ready. apply only_bind; [|intros [status text]; walk_only].
  apply only_perform. cbn [waiting_kind]. rewrite (proj2 (starts_with_spec (tenantModuleScriptPrefix t) (tenantModuleScriptName t x))) by by eexists. done. }
intros rs. apply only_bind; [by apply only_perform|]. intros at_. apply only_bind; [apply only_lift|]. intros acc'. cbv zeta.
destruct (_ =? 0)%nat; [apply only_ret|]. destruct (_ <=? _); [apply only_ret|]. apply only_bind; [by apply only_perform|]. intros _. apply IH.
Qed.

Section going_live.
Context (ask : world) (sign : string → string → list ascii) (json_parse : string → option js) (detail : InvokeKeyVerdict → option string).
Context (w : Wiring) (tenant : Tenant) (key : string).
Implicit Types (tr : trace) (P : trace → Prop).
Abbreviation ids := (tenantEndpointIds json_parse tenant).
Abbreviation deps := (wr_deps w).
Abbreviation accepted := (key_accepted key ids).
Definition put_studio : call := CPutScriptSecret (dp_namespace deps) (default "" (t_script_name tenant)) TENANT_RUNPOD_SECRET key.
Definition proxied : Prop := tenantModuleProxyBinding sign (readRunPodMode (Some (t_runpod_mode tenant))) (dp_runpodProxy deps) (t_id tenant) ≠ None.
(** Each module that reaches RunPod answered that it can, or could not be asked. *)
Definition modules_answered tr : Prop := ∀ n, n ∈ reaching TENANT_MODULE_CATALOG →
  said json_parse (t_id tenant) n Ready tr ∨ said json_parse (t_id tenant) n Unverifiable tr.
Definition live_allows tr (c : call) : Prop :=
  match c with
  | NFetch rq => rq = graphql_request key ∨ ∃ id, id ∈ ids ∧ rq = health_request key id
  | CPutScriptSecret ns script name value => name = TENANT_RUNPOD_SECRET ∧ value = key ∧ accepted tr ∧
      ((ns = dp_namespace deps ∧ t_script_name tenant = Some script) ∨
       (ns = dp_moduleNamespace deps ∧ ¬ proxied ∧ ∃ spec, spec ∈ TENANT_MODULE_CATALOG ∧ script = tenantModuleScriptName (t_id tenant) (tm_module spec)))
  | SSetTenantStatus id status => id = t_id tenant ∧ status = "live" ∧ t_script_name tenant ≠ None ∧ since put_studio tt accepted modules_answered tr
  | XCallModule _ _ | KNow | KSleep _ => waiting_kind (t_id tenant) c = true
  | _ => False
  end.

Lemma put_on_modules_safe catalog : (∀ spec, spec ∈ catalog → spec ∈ TENANT_MODULE_CATALOG) → ¬ proxied →
  ∀ P, Stable P → (∀ tr, P tr → accepted tr) → safe live_allows P (put_on_modules ask deps (t_id tenant) key catalog) (λ _ _, True).
Proof.
intros Hc Hn P HP Ha. induction catalog as [|spec catalog IH]; cbn [put_on_modules]; [by apply safe_ret|].
apply safe_then; [done| |intros []; apply IH; intros s Hs; apply Hc; by right].
apply (safe_do live_allows ask P (CPutScriptSecret (dp_moduleNamespace deps) (tenantModuleScriptName (t_id tenant) (tm_module spec)) TENANT_RUNPOD_SECRET key)).
intros tr Htr. split_and!; [done|done|by apply Ha|]. right. split_and!; [done|done|]. exists spec. split; [apply Hc; left|done].
Qed.
Lemma since_accepted tr R : since put_studio tt accepted R tr → accepted tr.
Proof. intros (t1 & t2 & -> & H & _). eapply stable_key_accepted; [|exact H]. by eexists. Qed.
(** The wait after the studio has the key. *)
Lemma await_since : safe live_allows (since put_studio tt accepted (λ _, True))
  (awaitTenantModulesReady ask json_parse READY_FUEL (t_id tenant) MODULE_READY_PROBE_DEADLINE_MS TENANT_MODULE_CATALOG)
  (λ r tr, mr_unconfirmed r = [] → since put_studio tt accepted modules_answered tr).
Proof.
intros tr Ho Htr. set (m := awaitTenantModulesReady _ _ _ _ _ _).
destruct (only_safe (waiting_kind (t_id tenant)) live_allows (λ _, True) m (stable_const _) (await_only _ _ _ _ _ _)) with (tr := tr) as (H1 & H2 & _); [|done|done|].
{ intros tr' c _ Hc. by destruct c. }
split_and!; [done|done|]. destruct (m tr) as [[r|e] tr'] eqn:E; [|done]. cbn [fst snd]. intros Hu.
apply wait_sorted in E as (evs & -> & _ & (Hp & Hv & Hun) & _). cbn [so_verified so_unverified so_pending] in *.
destruct Htr as (t1 & t2 & -> & Ha & _). exists t1, (t2 ++ evs). rewrite <- app_assoc. split_and!; [done|done|].
assert (∀ n v, said json_parse (t_id tenant) n v evs → said json_parse (t_id tenant) n v (t2 ++ evs)) as Hg.
{ intros n v (st & x & Hin & Hc). exists st, x. split; [by apply elem_of_app; right|done]. }
intros n Hn. rewrite <- Hp, Hu, app_nil_r in Hn. apply elem_of_app in Hn as [Hn|Hn]; [left|right]; apply Hg; auto.
Qed.
Lemma install_key_safe : safe live_allows accepted (install_key ask sign json_parse deps tenant key)
  (λ r tr, t_script_name tenant ≠ None ∧ (mr_unconfirmed r = [] → since put_studio tt accepted modules_answered tr)).
Proof.
unfold install_key. destruct (opt_set (t_script_name tenant)) eqn:Es; cbn [negb]; [|apply safe_throw].
assert (t_script_name tenant = Some (default "" (t_script_name tenant))) as Et by by destruct (t_script_name tenant).
eapply safe_seq; [apply (starts_since live_allows ask put_studio accepted); intros tr Htr; split_and!; [done|done|done|by left]|]. intros [].
eapply safe_then; [apply _| |].
- destruct (tenantModuleProxyBinding _ _ _ _) eqn:Ep; [by apply safe_ret|].
  apply put_on_modules_safe; [done|unfold proxied; rewrite Ep; intros H; by apply H|apply _|]. intros tr Htr. exact (since_accepted _ _ Htr).
- intros []. eapply safe_post; [apply await_since|]. intros r tr H. split; [by rewrite Et|exact H].
Qed.
Lemma perform_install_safe : safe live_allows (λ _, True) (performInvokeKeyInstall ask sign json_parse detail (Some w) tenant key)
  (λ r tr, r.1.1 = 200 → answered (SSetTenantStatus (t_id tenant) "live") (Ok tt) tr).
Proof.
unfold performInvokeKeyInstall. destruct (length _ =? 0)%nat; [by apply safe_ret|]. destruct (opt_set _); cbn [negb]; [|by apply safe_ret].
eapply safe_seq; [apply safe_map_err, (scope_check_safe ask live_allows key (λ _, True) ids); [apply _|by left|intros tr id _ Hid; right; by exists id]|].
intros verdict. cbv beta. destruct (iv_ok verdict); cbn [negb]; [|by apply safe_ret].
eapply safe_weaken with (P' := accepted); [|intros tr H; by apply H|intros a tr _ H; exact H].
eapply safe_seq; [apply safe_attempt, install_key_safe|]. intros [e|readiness]; [destruct e; by first [apply safe_ret|apply safe_throw]|].
destruct (length (mr_unconfirmed readiness) =? 0)%nat eqn:Eu; cbn [negb]; [|by apply safe_ret].
apply Nat.eqb_eq, length_zero_iff_nil in Eu.
apply (safe_seq _ _ _ _ (λ _, answered (SSetTenantStatus (t_id tenant) "live") (Ok tt))); [|intros []; by apply safe_ret].
eapply safe_post; [apply (safe_perform live_allows ask _ (SSetTenantStatus (t_id tenant) "live"))|by intros [] tr H]. intros tr [Hs Hl]. split_and!; [done|done|done|by apply Hl].
Qed.
End going_live.

Lemma install_obeys ask sign json_parse detail wiring body tenant :
  let '(r, tr) := installInvokeKey ask sign json_parse detail wiring body tenant [] in
  (∀ answer, r = Ok answer → answer.1 = 200 → answered (SSetTenantStatus (t_id tenant) "live") (Ok tt) tr) ∧
  (tr ≠ [] → has_own "runpod_invoke_key" body = false ∧ readRunPodMode (Some (t_runpod_mode tenant)) = Shared ∧
     ∃ w key, wiring = Some w ∧ wr_sharedPoolInvokeKey w = Some key ∧ obeys (live_allows sign json_parse w tenant key) tr).
Proof.
unfold installInvokeKey. destruct (has_own _ body); [by split; [intros a [= <-]|]|]. destruct (readRunPodMode _); [by split; [intros a [= <-]|]|].
destruct wiring as [w|]; [|by split; [intros a [= <-]|]]. destruct (wr_sharedPoolInvokeKey w) as [key|] eqn:Ek; [|by split; [intros a [= <-]|]].
destruct (Str.truthy key); [|by split; [intros a [= <-]|]].
assert (safe (live_allows sign json_parse w tenant key) (λ _, True) ('(response, _) ← performInvokeKeyInstall ask sign json_parse detail (Some w) tenant key; mret response)
  (λ r tr, r.1 = 200 → answered (SSetTenantStatus (t_id tenant) "live") (Ok tt) tr)) as H.
{ eapply safe_seq; [apply perform_install_safe|]. intros [r b]. by apply safe_ret. }
destruct (H [] (obeys_nil _) I) as (_ & Ho & Hp). match goal with Ho : obeys _ (snd ?run) |- _ => destruct run as [r tr] end. cbn [fst snd] in *. split.
- intros a ->. exact Hp.
- intros _. split_and!; [done|done|]. by exists w, key.
Qed.

(** C6. A studio goes live on evidence.  Whatever the store, the cloud, RunPod and the modules answer,
    making a studio live asks only this: the account query and the health of the studio's own
    endpoints, with the plane's pool key; the key as a secret of the studio, and of its modules only
    where they are not proxied, once every endpoint accepted it and the account query did not; the
    readiness of its own modules; and the status [live], once the studio has had the key since and every
    module that reaches RunPod answered that it is ready or could not be asked.  Nothing at all is asked
    for a studio of another shape or where the request brings a key, and the answer is 200 only
    where the status was written. *)
Theorem live_only_on_evidence ask sign json_parse detail wiring body tenant :
  let '(r, tr) := installInvokeKey ask sign json_parse detail wiring body tenant [] in
  (∀ answer, r = Ok answer → answer.1 = 200 → answered (SSetTenantStatus (t_id tenant) "live") (Ok tt) tr) ∧
  (tr ≠ [] → has_own "runpod_invoke_key" body = false ∧ readRunPodMode (Some (t_runpod_mode tenant)) = Shared ∧
     ∃ w key, wiring = Some w ∧ wr_sharedPoolInvokeKey w = Some key ∧ obeys (live_allows sign json_parse w tenant key) tr).
Proof. apply install_obeys. Qed.

(** ** The key of a hosted studio *)
(** A key was put on something other than the studio itself. *)
Definition key_put_elsewhere (w : Wiring) (tenant : Tenant) (e : event) : Prop :=
  match ev_call e with
  | CPutScriptSecret ns script _ _ => ¬ (ns = dp_namespace (wr_deps w) ∧ t_script_name tenant = Some script)
  | _ => False
  end.
Lemma id_without_dot t : tenant_id t → Str.truthy t = true ∧ has_dot t = false.
Proof.
intros (hex & -> & Hx). split; [done|]. apply no_sep_no_dot. unfold no_sep. rewrite chars_append, chars_of_chars, forallb_app. apply andb_true_iff. split; [done|].
rewrite forallb_forall in *. intros c Hc. specialize (Hx c Hc). destruct (Ascii.eqb_spec c ".") as [->|]; [discriminate Hx|done].
Qed.
Section wired.
Context (env : string → option string) (releases : bool) (json_parse : string → option js) (parse_url : string → option (string * string)).
Context (number : string → Num.num) (show : Num.num → string) (w : Wiring).
Hypothesis is_wired : provisionerWiring env releases json_parse parse_url number show = Some w.
Lemma trimmed_truthy name v : trimmed_var env name = Some v → Str.truthy v = true.
Proof. unfold trimmed_var. destruct (env name); [|done]. destruct (Str.truthy _) eqn:E; [|done]. by intros [= <-]. Qed.
(** Where there is a pool there is a key of its own, and a proxy that can mint. *)
Lemma pool_is_proxied key : wr_sharedPoolInvokeKey w = Some key →
  trimmed_var env "SHARED_RUNPOD_INVOKE_KEY" = Some key ∧ ∃ base signing, dp_runpodProxy (wr_deps w) = Some (base, signing) ∧ Str.truthy signing = true.
Proof.
revert is_wired. unfold provisionerWiring. destruct (negb _); [done|]. intros [= <-]. cbn [wr_sharedPoolInvokeKey wr_deps dp_runpodProxy].
destruct (shared_pool env json_parse) as [pool|] eqn:Hp; [|done]. intros Hk. split; [done|]. revert Hp. unfold shared_pool.
destruct (pool_requested env); [|done]. destruct (parseSharedPool _ _); [|done]. rewrite Hk. destruct (tenantModuleProxy env) as [[base signing]|] eqn:Ht; [|done].
intros _. exists base, signing. split; [done|]. revert Ht. unfold tenantModuleProxy. destruct (trimmed_var env "CONTROL_PLANE_HOST"); [|done].
destruct (trimmed_var env "RUNPOD_PROXY_SIGNING_KEY") eqn:Es; [|done]. intros [= _ <-]. by eapply trimmed_truthy.
Qed.
End wired.

(** C18. A hosted studio's modules never hold the plane's key.  On a plane wired from its variables,
    whatever is answered, making a studio live puts no secret on anything but the studio's own script,
    and what it puts is the plane's own pool key: a plane that has the key can mint the proxy's
    tokens, so the modules of a tenant on the pool are proxied and are passed over. *)
Theorem modules_never_hold_the_key ask sign detail env releases json_parse parse_url number show w body tenant :
  provisionerWiring env releases json_parse parse_url number show = Some w → tenant_id (t_id tenant) →
  ∀ e, e ∈ (installInvokeKey ask sign json_parse detail (Some w) body tenant []).2 → ¬ key_put_elsewhere w tenant e ∧
    ∀ ns script name value, ev_call e = CPutScriptSecret ns script name value → trimmed_var env "SHARED_RUNPOD_INVOKE_KEY" = Some value.
Proof.
intros Hw Hid e. pose proof (install_obeys ask sign json_parse detail (Some w) body tenant) as H.
destruct (installInvokeKey _ _ _ _ _ _ _ _) as [r tr]. cbn [snd]. intros He. destruct H as [_ H]. destruct H as (_ & Hm & w' & key & [= <-] & Hk & Ho).
{ intros ->. by apply elem_of_nil in He. }
apply list_elem_of_split in He as (t1 & t2 & ->). destruct e as [c a]. specialize (Ho t1 c a t2 eq_refl).
destruct (pool_is_proxied _ _ _ _ _ _ _ Hw key Hk) as (Hpool & base & signing & Hp & Hs). destruct (id_without_dot _ Hid) as [Hi1 Hi2].
destruct c; try (split; [by intros H; apply H|by intros]); try done. destruct Ho as (-> & -> & _ & [[-> Hscr]|(-> & Hnot & _)]).
- split; [by intros H; apply H|]. by intros ? ? ? ? [= _ _ _ <-].
- destruct Hnot. unfold proxied. rewrite Hm, Hp. unfold tenantModuleProxyBinding, mintTenantProxyToken. rewrite Hs, Hi1, Hi2. done.
Qed.

(** ** Taking a name *)
Section taking.
Context (ask : world) (digest : string → list ascii) (pages : nat) (w : Wiring) (slug account : string).
Implicit Types (tr : trace) (P : trace → Prop) (h : ReclaimHandle) (row : Tenant) (token : string).
Abbreviation deps := (wr_deps w).
Abbreviation actor := ("account:" +:+ account).
Definition checked (claim : SlugClaim) tr : Prop := answered (SCheckSlugAvailability slug account) (Ok claim) tr.
(** The claim on a half-built row was granted. *)
Definition claimed h row token tr : Prop :=
  checked (Available (Some h)) tr ∧ answered (SClaimReclaim (rh_tenant_id h) account RECLAIM_LEASE_SECONDS) (Ok (Some (row, token))) tr.
Definition intended row : AuditDetail := AuditJson (JObj ([("delete_data", JBool true); ("slug", JStr (t_slug row))] ++ tenantResourceSnapshot row)).
Definition intent_recorded row tr : Prop := answered (SRecordAdminAction actor "tenant.reclaim_teardown.intent" (Some (t_id row)) (intended row)) (Ok tt) tr.
(** Everything the claimed row held is gone, with no hold open, and the clean pass is on record. *)
Definition gone_with_data row tr : Prop := unheld row tr ∧ all_reaped deps row (mkTeardownOpts true false) tr.
Definition reaped_clean row tr : Prop := gone_with_data row tr ∧ ∃ reaped after, td_ok reaped = true ∧
  answered (SRecordAdminAction actor "tenant.reclaim_teardown" (Some (t_id row)) (AuditJson (reclaim_report row reaped after))) (Ok tt) tr.
#[export] Instance stable_gone_with_data row : Stable (gone_with_data row).
Proof. apply _. Qed.
Definition created tenant tr : Prop := ∃ id, answered (SCreateTenant id slug account "pending") (Ok tenant) tr.
Definition reset tenant tr : Prop := ∃ h token, answered (SReclaimSlug (rh_tenant_id h) account token) (Ok (Some tenant)) tr.
Definition taken tenant tr : Prop := created tenant tr ∨ reset tenant tr.
Definition job_made tenant (job : string) tr : Prop :=
  ∃ id j, answered (SCreateProvisionJob id (t_id tenant) Shared (dp_release deps)) (Ok j) tr ∧ p_id j = job.
(** Within a pass over a claimed row: the teardown's own calls. *)
Definition reaping tr (c : call) : Prop := ∃ h row token, claimed h row token tr ∧ intent_recorded row tr ∧
  teardown_calls digest deps row (mkTeardownOpts true false) tr c.
Definition taking tr (c : call) : Prop :=
  match c with
  | SCheckSlugAvailability s a => s = slug ∧ a = account ∧ validateSlug slug = None
  | SGetTenantForAccount a => a = account
  | SClaimReclaim id a seconds => a = account ∧ ∃ h, id = rh_tenant_id h ∧ checked (Available (Some h)) tr
  | SRecordAdminAction who _ target _ => who = actor ∧ ∃ h row token, claimed h row token tr ∧ target = Some (t_id row)
  | SGetTenantById id => ∃ h row token, claimed h row token tr ∧ id = t_id row
  | SReclaimSlug id a token => a = account ∧ ∃ h row, id = rh_tenant_id h ∧ claimed h row token tr ∧ intent_recorded row tr ∧ reaped_clean row tr
  | SCreateTenant _ s a status => s = slug ∧ a = account ∧ status = "pending" ∧ checked (Available None) tr ∧ answered (SGetTenantForAccount account) (Ok None) tr
  | SCreateProvisionJob _ t mode release => mode = Shared ∧ release = dp_release deps ∧ ∃ tenant, t = t_id tenant ∧ taken tenant tr
  | WaitUntil (StartProvision job tenant) => taken tenant tr ∧ job_made tenant job tr
  | KRandom _ => True
  | _ => False
  end.
Definition take_allows tr c : Prop := taking tr c ∨ reaping tr c.
Abbreviation safe := (safe take_allows).

Lemma draw_safe P prefix : Stable P → safe P (draw_id ask prefix) (λ _ _, True).
Proof.
intros HP. unfold draw_id. eapply (safe_bind _ _ _ _ (λ _ _, True)); [done|apply (safe_do take_allows ask P (KRandom 12)); intros tr _; by left|].
intros bytes. by apply safe_ret.
Qed.
#[export] Instance stable_taken tenant : Stable (taken tenant).
Proof. apply _. Qed.
Lemma start_safe P tenant (f : ProvisionJob → reply) : Stable P → (∀ tr, P tr → taken tenant tr) →
  safe P (job ← create_job ask w tenant; _ ← dispatch_provision ask job tenant; mret (f job)) (λ _ _, True).
Proof.
intros HP Ht. eapply safe_bind; [done| |].
- unfold create_job. eapply safe_bind; [done|by apply draw_safe|]. intros id.
  eapply safe_post; [apply (safe_perform take_allows ask _ (SCreateProvisionJob id (t_id tenant) Shared (dp_release deps)));
    intros tr [Htr _]; left; split_and!; [done|done|by exists tenant; split; [|apply Ht]]|].
  intros job tr H. exact (ex_intro (λ i, answered (SCreateProvisionJob i (t_id tenant) Shared (dp_release deps)) (Ok job) tr) id H).
- intros job. eapply safe_then; [apply _| |intros []; by apply safe_ret].
  apply (safe_do take_allows ask _ (WaitUntil (StartProvision (p_id job) tenant))). intros tr [Htr [id Hj]]. left. split; [by apply Ht|by exists id, job].
Qed.
Hypothesis row_ids : ∀ tr id seconds row token, ask tr (SClaimReclaim id account seconds) = Ok (Some (row, token)) → tenant_id (t_id row).
Lemma claim_safe P id : (∀ tr, P tr → take_allows tr (SClaimReclaim id account RECLAIM_LEASE_SECONDS)) →
  safe P (perform ask (SClaimReclaim id account RECLAIM_LEASE_SECONDS)) (λ r tr, answered (SClaimReclaim id account RECLAIM_LEASE_SECONDS) (Ok r) tr ∧
    match r with Some (row, _) => tenant_id (t_id row) | None => True end).
Proof.
intros Hal tr Ho Htr. cbn. split_and!; [by eexists|by apply obeys_snoc; [|apply Hal]|].
destruct (ask tr _) as [r|e] eqn:E; [|done]. split; [apply elem_of_app; right; left|]. destruct r as [[row token]|]; [|done]. by eapply row_ids.
Qed.
(** The teardown of the claimed row, within the claim. *)
Lemma reap_safe h row token : tenant_id (t_id row) →
  safe (λ tr, claimed h row token tr ∧ intent_recorded row tr) (teardown ask digest pages w row (mkTeardownOpts true false))
    (λ o tr, td_ok o = true → gone_with_data row tr).
Proof.
intros Hid. eapply safe_weaken; [|intros tr H; exact (conj I H)|intros a tr _ H; exact H]. unfold teardown.
apply (safe_where (teardown_calls digest deps row (mkTeardownOpts true false)) take_allows (λ _, True)); [|apply _|].
- intros al Hal. eapply safe_post; [by apply teardown_clean|]. by intros o tr [_ H].
- intros tr c [Hc Hi] Hcall. right. by exists h, row, token.
Qed.
Lemma reclaim_safe P h : Stable P → (∀ tr, P tr → checked (Available (Some h)) tr) → safe P (reclaim ask digest pages w account h) (λ _ _, True).
Proof.
intros HP Hh. unfold reclaim. eapply safe_bind; [done|apply claim_safe; intros tr Htr; left; split; [done|exists h; split; [done|by apply Hh]]|].
cbv beta. intros [[row token]|]; [|by apply safe_ret]. set (PC := λ tr, P tr ∧ _). assert (Stable PC) as HPC by apply _.
assert (∀ tr, PC tr → claimed h row token tr) as Hc by (intros tr [Htr [Ha _]]; split; [by apply Hh|done]).
unfold audit. eapply safe_bind; [done|apply (safe_perform take_allows ask PC (SRecordAdminAction actor "tenant.reclaim_teardown.intent" (Some (t_id row)) (intended row)));
  intros tr Htr; left; split; [done|exists h, row, token; split; [by apply Hc|done]]|]. intros [].
set (PI := λ tr, PC tr ∧ _). assert (Stable PI) as HPI by apply _. assert (∀ tr, PI tr → intent_recorded row tr) as Hi by by intros tr [_ H].
eapply (safe_bind _ _ _ _ (λ reaped tr, td_ok reaped = true → gone_with_data row tr)); [done| |intros reaped].
{ intros tr Ho Htr. apply (reap_safe h row token); [apply Htr|done|split; [by apply Hc, Htr|by apply Hi]]. }
set (PT := λ tr, PI tr ∧ _). assert (Stable PT) as HPT by apply _.
eapply safe_then; [done|apply (safe_do take_allows ask PT (SGetTenantById (t_id row))); intros tr [[Htr _] _]; left; exists h, row, token; split; [by apply Hc|done]|].
intros after. eapply safe_bind; [done| |].
{ apply (safe_perform take_allows ask PT (SRecordAdminAction actor "tenant.reclaim_teardown" (Some (t_id row)) (AuditJson (reclaim_report row reaped after)))).
  intros tr [[Htr _] _]. left. split; [done|exists h, row, token; split; [by apply Hc|done]]. }
intros []. destruct (td_ok reaped) eqn:Eok; cbn [negb]; [|by apply safe_ret].
eapply safe_bind; [apply _| |].
{ apply (safe_perform take_allows ask _ (SReclaimSlug (rh_tenant_id h) account token)). intros tr [[Htr Hg] Ha]. left. split; [done|].
  exists h, row. split_and!; [done|by apply Hc, Htr|by apply Hi|split; [by apply Hg|by exists reaped, after]]. }
intros [tenant|]; [|by apply safe_ret]. apply start_safe; [apply _|]. intros tr [_ Ha]. right. by exists h, token.
Qed.
End taking.

(** C17. Taking a name destroys and starts only what was claimed and recorded.  Whatever the store and
    the cloud answer, a request for a name asks this and nothing else: whether the name is free to the
    account; the claim on a half-built row of its own; within that claim, once the intent is on record,
    what a guarded teardown of the claimed row asks; the reset of the row, with the claim's token, once
    everything it held was seen to go, with no hold open, and the clean pass is on record; a new row only for a free name of an account with no studio; a job
    for the row so taken, at the plane's release and on the shared pool; and the start of that job.  Where
    the plane offers no shared tier it asks only whether the name is free. *)
Theorem taking_a_name_is_claimed (ask : world) digest text_of pages wiring body account :
  (∀ tr id seconds row token, ask tr (SClaimReclaim id account seconds) = Ok (Some (row, token)) → tenant_id (t_id row)) →
  let slug := Str.to_lower (nullish_text text_of (js_field body "slug")) in
  let tr := (provision ask digest text_of pages wiring body account []).2 in
  match wiring with
  | Some w => obeys (take_allows digest w slug account) tr ∧ (offersSharedTier w = false → (length tr <= 1)%nat)
  | None => (length tr <= 1)%nat
  end.
Proof.
intros Hids slug. unfold provision. fold slug. cbv zeta. destruct (validateSlug slug) as [reason|] eqn:Ev.
{ destruct wiring as [w|]; cbn; [split; [apply obeys_nil|lia]|lia]. }
assert (∀ w, safe (take_allows digest w slug account) (λ _, True) (provision ask digest text_of pages (Some w) body account) (λ _ _, True)) as H.
{ intros w. unfold provision. fold slug. cbv zeta. rewrite Ev.
  eapply safe_bind; [apply _|apply (safe_perform (take_allows digest w slug account) ask _ (SCheckSlugAvailability slug account)); intros tr _; by left|].
  intros [handle|reason]; [|by apply safe_ret]. destruct (offersSharedTier w); cbn [negb]; [|by apply safe_ret].
  destruct handle as [h|]; [apply reclaim_safe; [done|apply _|by intros tr [_ Ha]]|].
  eapply safe_bind; [apply _|apply (safe_perform (take_allows digest w slug account) ask _ (SGetTenantForAccount account)); intros tr _; by left|].
  intros [existing|]; [by apply safe_ret|]. eapply safe_then; [apply _|by apply draw_safe; apply _|]. intros id.
  eapply safe_bind; [apply _|apply (safe_perform (take_allows digest w slug account) ask _ (SCreateTenant id slug account "pending"))|].
  - intros tr [[_ Ha] Hn]. left. by split_and!.
  - intros tenant. apply start_safe; [apply _|]. intros tr [_ Ha]. left. by exists id. }
destruct wiring as [w|].
- split.
  + specialize (H w). unfold provision in H. fold slug in H. cbv zeta in H. rewrite Ev in H. by apply (H [] (obeys_nil _) I).
  + intros Hno. rewrite bind_run, perform_run. destruct (ask [] _) as [[h|r]|e]; cbn; rewrite ?Hno; cbn; lia.
- rewrite bind_run, perform_run. destruct (ask [] _) as [[h|r]|e]; cbn; lia.
Qed.

(** ** An operator takes a name for someone *)
Section operator.
Context (ask : world) (w : Wiring) (actor email slug : string).
Implicit Types (tr : trace) (P : trace → Prop).
Abbreviation deps := (wr_deps w).
Definition requested tr : Prop := answered (SRecordAdminAction actor "tenant.operator_provision.requested" (Some email) (AuditJson (JObj [("slug", JStr slug)]))) (Ok tt) tr.
Definition holder (account : Account) tr : Prop := ∃ created, answered (SUpsertAccount email) (Ok (UpOk account created)) tr.
Definition made_for (account : Account) tenant tr : Prop := ∃ id, answered (SCreateTenant id slug (ac_id account) "pending") (Ok tenant) tr.
(** The row that says what was made, for whom. *)
Definition completed (account : Account) tenant (job : string) tr : Prop := ∃ created, answered (SRecordAdminAction actor "tenant.operator_provision" (Some (t_id tenant))
  (AuditJson (JObj ([("email", JStr email); ("slug", JStr slug)] ++ [("account_id", JStr (ac_id account)); ("account_created", JBool created)] ++
     [("job_id", JStr job); ("runpod_mode", JStr "shared")])))) (Ok tt) tr.
Definition operator_allows tr (c : call) : Prop :=
  match c with
  | SRecordAdminAction who action target detail =>
      who = actor ∧ (action = "tenant.operator_provision.requested" ∧ target = Some email ∧ detail = AuditJson (JObj [("slug", JStr slug)]) ∨ requested tr)
  | SUpsertAccount e => requested tr ∧ e = email
  | SGetTenantForAccount a => requested tr ∧ ∃ account, holder account tr ∧ a = ac_id account
  | SCheckSlugAvailability s a => requested tr ∧ s = slug ∧ ∃ account, holder account tr ∧ a = ac_id account ∧ answered (SGetTenantForAccount a) (Ok None) tr
  | SCreateTenant _ s a status => requested tr ∧ s = slug ∧ status = "pending" ∧ ∃ account h, holder account tr ∧ a = ac_id account ∧
      answered (SGetTenantForAccount a) (Ok None) tr ∧ answered (SCheckSlugAvailability slug a) (Ok (Available h)) tr
  | SCreateProvisionJob _ t mode release => requested tr ∧ mode = Shared ∧ release = dp_release deps ∧ ∃ account tenant, holder account tr ∧ made_for account tenant tr ∧ t = t_id tenant
  | WaitUntil (StartProvision job tenant) => ∃ account, holder account tr ∧ made_for account tenant tr ∧ job_made w tenant job tr ∧ completed account tenant job tr
  | KRandom _ => requested tr
  | _ => False
  end.
Abbreviation safe := (safe operator_allows).

Lemma refusal_safe P reason code status message : Stable P → (∀ tr, P tr → requested tr) →
  safe P (operator_refusal ask actor email slug reason code status message) (λ _ _, True).
Proof.
intros HP Hr. unfold operator_refusal, audit. apply safe_then; [done| |intros []; by apply safe_ret].
eapply (safe_do operator_allows ask P (SRecordAdminAction _ _ _ _)). intros tr Htr. split; [done|right; by apply Hr].
Qed.
Lemma draw_requested P prefix : Stable P → (∀ tr, P tr → requested tr) → safe P (draw_id ask prefix) (λ _ _, True).
Proof.
intros HP Hr. unfold draw_id. eapply (safe_bind _ _ _ _ (λ _ _, True)); [done|apply (safe_do operator_allows ask P (KRandom 12)); intros tr Htr; by apply Hr|].
intros bytes. by apply safe_ret.
Qed.
Lemma create_safe P account created : Stable P → (∀ tr, P tr → requested tr ∧ holder account tr) →
  safe P (operator_create ask w actor email slug account created) (λ _ _, True).
Proof.
intros HP HPr. assert (∀ tr, P tr → requested tr) as Hr by (intros tr H; by apply HPr). assert (∀ tr, P tr → holder account tr) as Hh by (intros tr H; by apply HPr).
unfold operator_create. eapply safe_bind; [done|apply (safe_perform operator_allows ask P (SGetTenantForAccount (ac_id account)));
  intros tr Htr; split; [by apply Hr|exists account; split; [by apply Hh|done]]|].
intros [existing|]; [apply refusal_safe; [apply _|intros tr [H _]; by apply Hr]|].
eapply safe_bind; [apply _|apply (safe_perform operator_allows ask _ (SCheckSlugAvailability slug (ac_id account)));
  intros tr [Htr Hn]; split_and!; [by apply Hr|done|exists account; split_and!; [by apply Hh|done|done]]|].
intros [h|reason]; [|apply refusal_safe; [apply _|intros tr [[H _] _]; by apply Hr]].
eapply safe_then; [apply _|apply draw_requested; [apply _|intros tr [[H _] _]; by apply Hr]|]. intros id.
eapply safe_bind; [apply _|apply (safe_perform operator_allows ask _ (SCreateTenant id slug (ac_id account) "pending"));
  intros tr [[Htr Hn] Ha]; split_and!; [by apply Hr|done|done|exists account, h; split_and!; [by apply Hh|done|done|done]]|].
intros tenant. set (P1 := λ tr, _ ∧ _). assert (Stable P1) as HP1 by apply _.
assert (∀ tr, P1 tr → requested tr ∧ holder account tr ∧ made_for account tenant tr) as H1.
{ intros tr [[[Htr _] _] Hm]. split_and!; [by apply Hr|by apply Hh|by exists id]. }
apply (safe_bind _ _ _ _ (λ job tr, job_made w tenant (p_id job) tr)); [done| |].
{ unfold create_job. eapply safe_then; [done|apply draw_requested; [done|intros tr H; by apply H1]|]. intros jid.
  eapply safe_post; [apply (safe_perform operator_allows ask P1 (SCreateProvisionJob jid (t_id tenant) Shared (dp_release deps)))|].
  - intros tr H. destruct (H1 tr H) as (Hq & Ho & Hm). split_and!; [done|done|done|by exists account, tenant].
  - intros job tr H. by exists jid, job. }
intros job. unfold audit. eapply safe_bind; [apply _| |].
{ eapply (safe_perform operator_allows ask _ (SRecordAdminAction actor "tenant.operator_provision" (Some (t_id tenant)) _)).
  intros tr [H _]. split; [done|right; by apply H1]. }
intros []. eapply safe_then; [apply _| |intros []; by apply safe_ret]. unfold dispatch_provision.
apply (safe_do operator_allows ask _ (WaitUntil (StartProvision (p_id job) tenant))). intros tr [[H Hj] Hc]. destruct (H1 tr H) as (_ & Ho & Hm).
exists account. split_and!; [done|done|done|by exists created].
Qed.
End operator.

(** An operator makes nothing unrecorded.  Whatever the store answers, providing a studio for an
    address asks nothing before the row that names the operator and the address is written: then the
    account of that address, a new row only for an account without a studio and a free name, and a job
    for it on the shared pool; and the provision is started only once a second row says what was made
    for whom.  It never changes the status of any studio; with a key in the request, a bad address or
    name, or no shared tier, nothing at all is asked. *)
Theorem operator_provision_is_audited (ask : world) text_of wiring body actor :
  let email := normalizeEmail (nullish_text text_of (js_field body "email")) in
  let slug := Str.to_lower (nullish_text text_of (js_field body "slug")) in
  let tr := (operatorProvision ask text_of wiring body actor []).2 in
  tr ≠ [] → looksLikeEmail email = true ∧ validateSlug slug = None ∧ has_own "runpod_api_key" body = false ∧
    ∃ w, wiring = Some w ∧ offersSharedTier w = true ∧ obeys (operator_allows w actor email slug) tr.
Proof.
intros email slug. cbv zeta. unfold operatorProvision. fold email slug. destruct (looksLikeEmail email); cbn [negb]; [|done].
destruct (validateSlug slug); [done|]. destruct (has_own _ body); [done|]. destruct wiring as [w|]; [|done]. destruct (offersSharedTier w) eqn:Eo; cbn [negb]; [|done].
intros _. split_and!; [done|done|done|]. exists w. split_and!; [done|done|].
match goal with |- obeys _ (?m []).2 => assert (safe (operator_allows w actor email slug) (λ _, True) m (λ _ _, True)) as H end; [|by apply (H [] (obeys_nil _) I)].
unfold audit. eapply safe_bind; [apply _|apply (safe_perform (operator_allows w actor email slug) ask _
  (SRecordAdminAction actor "tenant.operator_provision.requested" (Some email) (AuditJson (JObj [("slug", JStr slug)])))); intros tr _; by split; [|left]|].
intros []. eapply safe_bind; [apply _|apply (safe_perform (operator_allows w actor email slug) ask _ (SUpsertAccount email)); by intros tr [_ H]|].
intros [account created| |]; [apply create_safe; [apply _|intros tr [[_ H1] H2]; split; [done|by exists created]]|..];
  (apply refusal_safe; [apply _|by intros tr [[_ H1] _]]).
Qed.
