(* ===== verification/AdminStudios.v ===== *)
(** * What an operator does to a studio (adminRoutes of src/index.ts)

    Suspending and resuming, preservation holds, tearing down, upgrading the modules or the studio, and
    bringing a live studio in line: each looks the tenant up, refuses what its guards refuse, runs the
    provisioner's program in place or leaves it to [waitUntil], and records what was done.  The audit
    rows carry the JSON the code writes; a reply that spreads a program's own result carries that result,
    without the tenant's id and slug beside it and the words a 202 adds. *)

From S2P Require Export Onboarding.
From Stdlib Require Import Ascii.
Open Scope string_scope.
Open Scope list_scope.
Open Scope Z_scope.
Open Scope plane_scope.

(** A refusal or plain answer as JSON, or a result with its status. *)
Inductive admin_reply (A : Type) := Replied (r : reply) | Reported (status : Z) (result : A).
Arguments Replied {A}.
Arguments Reported {A}.
Definition replied {A} (r : reply) : M trace exn (admin_reply A) := mret (Replied r).
Definition refuse (r : Refusal) : reply := err_reply (rf_code r) (rf_http r) (message_field (rf_message r)).
Definition not_found : reply := err_reply "not_found" 404 [].
Definition no_provisioner : reply := err_reply "provisioner_unconfigured" 503 [].
(** [typeof v === "string" ? v.trim() : ""] *)
Definition trimmed_text (v : js) : string := match v with JStr s => Str.trim s | _ => "" end.
Definition kind_of_job (k : JobKind) : string :=
  match k with KProvision => "provision" | KDeprovision => "deprovision" | KModuleUpgrade => "module_upgrade" | KStudioUpgrade => "studio_upgrade" end.

Section admin.
Variable ask : world.
Variable sign : string → string → list ascii.
Variable open : list ascii → list ascii → list ascii → option string.
Variable digest : string → list ascii.
Variable json_parse : string → option js.
Variable json_stringify : js → string.
Variable number : string → Num.num.
Variable show : Num.num → string.
Variable text_of : js → string.
Variable pages : nat.
Variable wiring : option Wiring.
(** Who acts, and the tenant id the path names. *)
Variables (actor tenantId : string).

Definition audited (tenant : Tenant) (action : string) (d : AuditDetail) : M trace exn unit :=
  perform ask (SRecordAdminAction actor action (Some (t_id tenant)) d).
Definition auditTenantRead (tenant : Tenant) (what : string) (detail : list (string * js)) : M trace exn unit :=
  audited tenant ("tenant.read." +:+ what) (AuditJson (JObj detail)).
Definition with_tenant {A} (f : Tenant → M trace exn (admin_reply A)) : M trace exn (admin_reply A) :=
  found ← perform ask (SGetTenantById tenantId);
  match found with None => replied not_found | Some tenant => f tenant end.
Definition with_provisioner {A} (f : Wiring → Tenant → M trace exn (admin_reply A)) : M trace exn (admin_reply A) :=
  match wiring with None => replied no_provisioner | Some w => with_tenant (f w) end.
(** One writer at a time on a row. *)
Definition unless_driven {A} (tenant : Tenant) (rest : M trace exn (admin_reply A)) : M trace exn (admin_reply A) :=
  latest ← perform ask (SGetLatestJob (t_id tenant));
  match latest with
  | None => rest
  | Some job =>
      now ← perform ask KNow;
      if jobHasLiveDriver job now then
        replied (err_reply "job_in_progress" 409 [("job_id", JStr (p_id job)); ("kind", JStr (kind_of_job (p_kind job)))])
      else rest
  end.

(** ** Suspending and resuming *)
Definition suspend_studio (body : js) : M trace exn (admin_reply unit) :=
  with_tenant (λ tenant,
    let reason := Str.trim (nullish_text text_of (js_field body "reason")) in
    if negb (Str.truthy reason) then replied (err_reply "reason_required" 400 [])
    else
      _ ← perform ask (SSuspendTenant (t_id tenant) reason);
      _ ← audited tenant "tenant.suspend" (AuditText reason);
      mret (Reported 204 tt)).
Definition resume_studio : M trace exn (admin_reply unit) :=
  with_tenant (λ tenant,
    match t_suspended_at tenant with
    | None => replied (err_reply "not_suspended" 409 [])
    | Some _ =>
        _ ← perform ask (SResumeTenant (t_id tenant));
        _ ← audited tenant "tenant.resume" AuditNone;
        mret (Reported 204 tt)
    end).

(** ** Looking at the modules *)
Definition module_readiness : M trace exn (admin_reply (option string * list TenantModuleObservation * ModuleReadinessSummary)) :=
  with_provisioner (λ w tenant,
    _ ← auditTenantRead tenant "module_readiness" [];
    modules ← probeTenantModuleReadiness ask json_parse json_stringify (t_id tenant) MODULE_READINESS_PROBE_GAP_MS MODULE_READINESS_SAMPLES;
    mret (Reported 200 (t_modules_release tenant, modules, summariseModuleReadiness modules))).

(** ** Preservation holds *)
Definition hold_days (kind : string) : option Z :=
  if kind =s? "ncmec_2258a_h" then Some 365 else if kind =s? "le_2703_f" then Some 90 else None.
Definition DAY_MS : Z := 24 * 60 * 60 * 1000.
Definition list_holds : M trace exn (admin_reply (list PreservationHold)) :=
  with_tenant (λ tenant,
    _ ← auditTenantRead tenant "preservation_holds" [];
    holds ← perform ask (SListHolds (t_id tenant));
    mret (Reported 200 holds)).
(** The end of a hold: the one given, the statute's, or none. *)
Definition hold_end (body : js) (kind : string) : M trace exn (option string) :=
  let given := trimmed_text (js_field body "expires_at") in
  if Str.truthy given then mret (Some given)
  else match hold_days kind with
  | None => mret None
  | Some days =>
      now ← perform ask KNow;
      let at_ := now + days * DAY_MS in
      lift (if Date.valid at_ then Ok (Some (Date.to_iso at_)) else Err (EError "RangeError" "Invalid time value"))
  end.
Definition open_hold (body : js) : M trace exn (admin_reply PreservationHold) :=
  with_tenant (λ tenant,
    let reason := Str.trim (nullish_text text_of (js_field body "reason")) in
    if negb (Str.truthy reason) then replied (err_reply "reason_required" 400 [])
    else
      let kind := Str.trim (nullish_text text_of (js_field body "kind")) in
      if negb ((kind =s? "ncmec_2258a_h") || (kind =s? "le_2703_f") || (kind =s? "internal")) then
        replied (err_reply "invalid_kind" 400 (message_field
          ("kind must be ncmec_2258a_h (our CyberTipline submission, 1 year), le_2703_f (a " +:+
           "governmental preservation request, 90 days renewable), or internal (an open report with " +:+ "no statutory clock yet)")))
      else
        expires ← hold_end body kind;
        id ← draw_id ask "hold";
        hold ← perform ask (SOpenHold (mkHoldOpen id (t_id tenant) kind reason actor expires));
        _ ← audited tenant "tenant.preservation_hold.open"
              (AuditJson (JObj [("hold_id", JStr (ph_id hold)); ("kind", JStr kind); ("expires_at", jopt expires); ("reason", JStr reason)]));
        mret (Reported 201 hold)).
Definition release_hold (holdId : string) (body : js) : M trace exn (admin_reply PreservationHold) :=
  with_tenant (λ tenant,
    let reason := Str.trim (nullish_text text_of (js_field body "reason")) in
    if negb (Str.truthy reason) then replied (err_reply "reason_required" 400 [])
    else
      holds ← perform ask (SListHolds (t_id tenant));
      match List.find (λ h, ph_id h =s? holdId) holds with
      | None => replied not_found
      | Some _ =>
          released ← perform ask (SReleaseHold holdId actor reason);
          match released with
          | None => replied (err_reply "already_released" 409 [("hold_id", JStr holdId)])
          | Some hold =>
              _ ← audited tenant "tenant.preservation_hold.release"
                    (AuditJson (JObj [("hold_id", JStr (ph_id hold)); ("kind", JStr (ph_kind hold)); ("reason", JStr reason)]));
              mret (Reported 200 hold)
          end
      end).

(** ** Tearing down *)
Record TeardownReport := mkTeardownReport {
  rt_status : string; rt_delete_data : bool; rt_i_own : option string; rt_reaped : list string; rt_refused : list failure; rt_failed : list failure;
  rt_absent : list failure; rt_teardown_at : option string;
}.
Definition teardown_audit (deleteData : bool) (own : option string) (reaped : list string) (result : TeardownOutcome) : js :=
  JObj [("delete_data", JBool deleteData); ("i_own", jopt own); ("reaped", jstrings reaped); ("refused", jnat (length (refused_of result)));
    ("failed", jnat (length (failed_of result))); ("absent", jstrings (fst <$> td_absent result))].
(** The assertion of ownership: absent, this tenant's id, or refused. *)
Definition asserted_owner (body : js) (tenant : Tenant) : option (option string) :=
  match js_field body "i_own" with
  | JUndef | JNull => Some None
  | JStr s => if Str.trim s =s? t_id tenant then Some (Some (t_id tenant)) else None
  | _ => None
  end.
Definition teardown_leased (w : Wiring) (tenant row : Tenant) (token : string) (deleteData : bool) (own : option string) : M trace exn (admin_reply TeardownReport) :=
  _ ← audited tenant "tenant.teardown.intent" (AuditJson (JObj ([("delete_data", JBool deleteData); ("i_own", jopt own)] ++ tenantResourceSnapshot row)));
  result ← teardown ask digest pages w row (mkTeardownOpts deleteData (match own with Some _ => true | None => false end));
  after ← perform ask (SGetTenantById (t_id tenant));
  let reaped := tenantReapedColumns row after in
  finished ← perform ask (SFinishTeardown (t_id tenant) token (td_ok result && deleteData));
  _ ← audited tenant "tenant.teardown" (AuditJson (teardown_audit deleteData own reaped result));
  mret (Reported 200 (mkTeardownReport
    (match finished, after with Some f, _ => t_status f | None, Some a => t_status a | None, None => t_status tenant end) deleteData own reaped
    (refused_of result) (failed_of result) (td_absent result)
    (match match finished with Some f => t_teardown_at f | None => None end with
     | Some at_ => Some at_
     | None => match after with Some a => t_teardown_at a | None => None end
     end))).
Definition teardown_studio (body : js) : M trace exn (admin_reply TeardownReport) :=
  with_provisioner (λ w tenant,
    if negb (match js_field body "confirm_slug" with JStr s => Str.trim s =s? t_slug tenant | _ => false end) then
      replied (err_reply "slug_confirmation_required" 400 [("slug", JStr (t_slug tenant))])
    else
      let deleteData := match js_field body "delete_data" with JBool true => true | _ => false end in
      match asserted_owner body tenant with
      | None =>
          replied (err_reply "i_own_mismatch" 400 (message_field
            "i_own must equal this tenant's id (you are asserting ownership of resources this row claims)" ++ [("tenant_id", JStr (t_id tenant))]))
      | Some own =>
          lease ← perform ask (SBeginTeardown (t_id tenant) RECLAIM_LEASE_SECONDS);
          match lease with
          | None =>
              replied (err_reply "teardown_in_progress" 409 (message_field "another destructive pass holds this row, or a provision job is live on it"))
          | Some (row, token) => teardown_leased w tenant row token deleteData own
          end
      end).

(** ** Upgrading *)
Definition upgrade_accepted (job : ProvisionJob) (from : option string) (to : string) : reply :=
  json_reply [("job_id", JStr (p_id job)); ("from_release", jopt from); ("to_release", JStr to)] 202.
Definition upgrade_audit (from : option string) (to job : string) : AuditDetail := AuditJson (JObj [("from", jopt from); ("to", JStr to); ("job", JStr job)]).
Definition upgrade_route {C} (body : js) (preflight : Wiring → Tenant → string → M trace exn (Refusal + C)) (from : Tenant → option string)
    (create : string → Tenant → string → M trace exn ProvisionJob) (action : string) (work : string → Tenant → background) : M trace exn (admin_reply unit) :=
  with_provisioner (λ w tenant,
    let release := trimmed_text (js_field body "release") in
    if negb (Str.truthy release) then replied (err_reply "release_required" 400 [])
    else unless_driven tenant (
      pre ← preflight w tenant release;
      match pre with
      | inl refusal => replied (refuse refusal)
      | inr _ =>
          id ← draw_id ask "job";
          job ← create id tenant release;
          _ ← audited tenant action (upgrade_audit (from tenant) release (p_id job));
          _ ← perform ask (SSetJobRunning (p_id job));
          _ ← perform ask (WaitUntil (work (p_id job) tenant));
          replied (upgrade_accepted job (from tenant) release)
      end)).
Definition upgrade_modules (body : js) : M trace exn (admin_reply unit) :=
  upgrade_route body (λ w tenant release, preflightModuleUpgrade ask open json_parse (wr_deps w) tenant release) t_modules_release
    (λ id tenant release, perform ask (SCreateModuleUpgradeJob id (t_id tenant) (t_modules_release tenant) release)) "tenant.upgrade_modules" UpgradeModules.
Definition upgrade_studio (body : js) : M trace exn (admin_reply unit) :=
  upgrade_route body (λ w tenant release, preflightStudioUpgrade ask open json_parse number show (wr_deps w) tenant release) t_studio_release
    (λ id tenant release, perform ask (SCreateStudioUpgradeJob id (t_id tenant) (t_studio_release tenant) release)) "tenant.upgrade_studio" UpgradeStudio.
(** What [waitUntil] is given: the program, and the job closed where it threw. *)
Definition upgrade_driver {A} (jobId prefix : string) (run : M trace exn A) : M trace exn unit :=
  r ← attempt run;
  match r with
  | inr _ => mret tt
  | inl e => _ ← perform ask (SFinishJob jobId false None (Some (prefix +:+ exn_text e))); mret tt
  end.

(** ** Bringing a live studio in line *)
Definition jnum (n : option Num.num) : js := match n with Some n => JNum n | None => JNull end.
Definition missing_fields (r : Readback) : list (string * js) :=
  [("missing_bindings", jstrings (rb_missing_bindings r)); ("missing_secrets", jstrings (rb_missing_secrets r))].
Definition stranded (r : Readback) : bool := negb (nothing_missing r).
(** The status of an answer that may not have been seen to take yet. *)
Definition settled_status (ok : bool) (r : Readback) : Z := if ok then 200 else if stranded r then 409 else 202.
Definition source_text (s : QuotaSource) : string :=
  match s with FromTenant => "tenant" | TenantNone => "tenant_none" | FromPlane => "plane" | PlaneUnset => "plane_unset" end.
(** A named failure of a binding patch answers as itself. *)
Definition named_failure {A B} (run : M trace exn A) (rest : A → M trace exn (admin_reply B)) : M trace exn (admin_reply B) :=
  r ← attempt run;
  match r with
  | inl (EBinding code status message) => replied (err_reply code status (message_field message))
  | inl e => throw e
  | inr a => rest a
  end.
(** The refusal, or the result with its audit row and its status. *)
Definition concluded {R} (tenant : Tenant) (outcome : Refusal + R) (action : string) (detail : R → list (string * js)) (status : R → Z) : M trace exn (admin_reply R) :=
  match outcome with
  | inl refusal => replied (refuse refusal)
  | inr result =>
      _ ← audited tenant action (AuditJson (JObj (detail result)));
      mret (Reported (status result) result)
  end.
Definition change_status (r : BindingChange) : Z := if bc_ok r then 200 else 409.
Definition refresh_studio_bindings : M trace exn (admin_reply BindingChange) :=
  with_provisioner (λ w tenant, unless_driven tenant (
    named_failure (wired_refresh ask (wr_deps w) tenant) (λ outcome,
      concluded tenant outcome "tenant.refresh_studio_bindings"
        (λ r, [("ok", JBool (bc_ok r)); ("already_present", JBool (bc_already r)); ("service_id", JStr "")] ++ missing_fields (bc_readback r)) change_status))).
Definition video_finish_binding (body : js) : M trace exn (admin_reply BindingChange) :=
  with_provisioner (λ w tenant,
    match js_field body "attached" with
    | JBool attached => unless_driven tenant (
        named_failure (if attached then wired_refresh ask (wr_deps w) tenant else wired_detach ask (wr_deps w) tenant) (λ outcome,
          concluded tenant outcome (if attached then "tenant.attach_video_finish_binding" else "tenant.detach_video_finish_binding")
            (λ r, ("ok", JBool (bc_ok r)) :: missing_fields (bc_readback r)) change_status))
    | _ => replied (err_reply "invalid_body" 400 [])
    end).
Definition tier_detail (r : TierStateResult) : list (string * js) :=
  [("ok", JBool (tr_ok r)); ("unreachable", JBool (tr_unreachable r)); ("reason", jopt (tr_reason r)); ("var_present_before", JBool (tr_var_before r));
   ("var_present_after", JBool (tr_var_after r)); ("served_reason_changed", JBool (tr_served_changed r))] ++ missing_fields (tr_readback r).
Definition video_finish_tier_state (body : js) : M trace exn (admin_reply TierStateResult) :=
  with_provisioner (λ w tenant,
    match js_field body "unreachable" with
    | JBool unreachable =>
        let reason := trimmed_text (js_field body "reason") in
        if unreachable && (reason =s? "") then
          replied (err_reply "reason_required" 400 (message_field
            ("declaring a studio unreachable requires a reason: it makes the panel tell that tenant the " +:+
             "tier can never be turned on for them, and a declaration nobody can explain cannot be reviewed")))
        else unless_driven tenant (
          outcome ← wired_tier_state ask open json_parse (wr_deps w) tenant (mkIntent unreachable (if unreachable then Some reason else None));
          concluded tenant outcome "tenant.set_video_finish_tier_state" tier_detail (λ r, if tr_ok r then 200 else 409))
    | _ => replied (err_reply "invalid_body" 400 [])
    end).
Definition abuse_detail (r : AbuseReportUrlResult) : list (string * js) :=
  [("ok", JBool (ar_ok r)); ("url", JStr (ar_url r)); ("already_present", JBool (ar_already_present r)); ("var_present_after", JBool (ar_var_present_after r));
   ("reader_live", JBool (ar_reader_live r))] ++ missing_fields (ar_readback r).
Definition abuse_report_url : M trace exn (admin_reply AbuseReportUrlResult) :=
  with_provisioner (λ w tenant, unless_driven tenant (
    outcome ← wired_abuse_url ask open json_parse (wr_deps w) tenant;
    concluded tenant outcome "tenant.set_abuse_report_url" abuse_detail (λ r, settled_status (ar_ok r) (ar_readback r)))).

(** What the body of the ceiling's route asks for: nothing, a decision, or a refusal. *)
Definition quota_intent (body : js) : reply + option StorageQuotaIntent :=
  match js_field body "mode" with
  | JUndef => inr None
  | JStr mode =>
      if mode =s? "inherit" then inr (Some IntentInherit)
      else if mode =s? "none" then inr (Some IntentNone)
      else if mode =s? "set" then
        match js_field body "quota_bytes" with
        | JStr raw => inr (Some (IntentSet raw))
        | _ => inl (err_reply "invalid_quota_bytes" 400 (message_field
            ("mode " +:+ json_string "set" +:+ " requires quota_bytes as a STRING of bytes, e.g. " +:+ json_string "107374182400" +:+ " (100 GiB)")))
        end
      else inl (err_reply "invalid_mode" 400 (message_field ("mode must be " +:+ json_string "inherit" +:+ ", " +:+ json_string "set" +:+ " or " +:+
             json_string "none" +:+ "; got " +:+ json_stringify (JStr mode))))
  | mode => inl (err_reply "invalid_mode" 400 (message_field ("mode must be " +:+ json_string "inherit" +:+ ", " +:+ json_string "set" +:+ " or " +:+
             json_string "none" +:+ "; got " +:+ json_stringify mode)))
  end.
Definition intent_text (intent : option StorageQuotaIntent) : string :=
  match intent with None => "converge_only" | Some IntentInherit => "inherit" | Some (IntentSet _) => "set" | Some IntentNone => "none" end.
Definition quota_detail (intent : option StorageQuotaIntent) (r : StorageQuotaResult) : list (string * js) :=
  [("ok", JBool (qr_ok r)); ("intent", JStr (intent_text intent)); ("quota_bytes", jopt (qr_quota_bytes r)); ("quota_source", JStr (source_text (qr_source r)));
   ("record_written", JBool (qr_record_written r)); ("already_present", JBool (qr_already_present r)); ("var_present_after", JBool (qr_var_present_after r));
   ("enforced", JBool (qr_enforced r)); ("served_quota_before", jnum (qr_served_before r)); ("served_quota_after", jnum (qr_served_after r));
   ("used_bytes", jnum (qr_used_bytes r)); ("over_on_arrival", JBool (qr_over_on_arrival r))] ++ missing_fields (qr_readback r).
Definition storage_quota (body : js) : M trace exn (admin_reply StorageQuotaResult) :=
  with_provisioner (λ w tenant, unless_driven tenant (
    match quota_intent body with
    | inl r => replied r
    | inr intent =>
        outcome ← wired_quota ask open json_parse number show (wr_deps w) tenant intent;
        concluded tenant outcome "tenant.set_storage_quota" (quota_detail intent) (λ r, settled_status (qr_ok r) (qr_readback r))
    end)).
End admin.
