(* ===== verification/TenantRoutes.v ===== *)
(** * The routes of a signed-in account (tenantRoutes of src/index.ts), behind the front door

    The name check, the provisioning plan, the job poll, and the gate of ownership in front of every
    route that names a tenant.  The handlers behind it (provisioning, checkout, credits, the studio
    token, going live) are arguments, each modelled in its own file; with the operators' handlers of
    AdminDispatch.v the whole entry of the program is put together here. *)

From S2P Require Export AdminDispatch.
From S2P Require AdminStudios.
From S2P Require Import JobDriver ApiToken.
From Stdlib Require Import Ascii.
Open Scope string_scope.
Open Scope list_scope.
Open Scope Z_scope.
Open Scope plane_scope.

Definition http_not_found : http_reply := err_response "not_found" 404 [].
Definition json_value (body : js) : http_reply := mkHttpReply 200 [("content-type", "application/json; charset=utf-8")] (Some body).

(** ** The paths that name a tenant *)
Definition tenant_id_text (s : string) : bool := test (RCat (RText (Str.chars "ten_")) (RPlus (RSet hex_char))) s.
Definition action_char (c : ascii) : bool := lower_letter c || Ascii.eqb c "-".
(** [/^\/api\/tenant\/(ten_[a-f0-9]+)(?:\/([a-z-]+))?$/] *)
Definition scoped_path (path : string) : option (string * option string) :=
  match Text.split "/" path with
  | [e; a; t; i] => if (e =s? "") && (a =s? "api") && (t =s? "tenant") && tenant_id_text i then Some (i, None) else None
  | [e; a; t; i; act] =>
      if (e =s? "") && (a =s? "api") && (t =s? "tenant") && tenant_id_text i && Str.truthy act && forallb action_char (Str.chars act)
      then Some (i, Some act) else None
  | _ => None
  end.
(** [/^\/api\/tenant\/(ten_[a-f0-9]+)\/credits\/topup$/] *)
Definition topup_path (path : string) : option string :=
  match Text.split "/" path with
  | [e; a; t; i; c; u] =>
      if (e =s? "") && (a =s? "api") && (t =s? "tenant") && tenant_id_text i && (c =s? "credits") && (u =s? "topup") then Some i else None
  | _ => None
  end.

Definition job_status_text (st : JobStatus) : string :=
  match st with JobQueued => "queued" | JobRunning => "running" | JobSucceeded => "succeeded" | JobFailed => "failed" end.

(** What stands behind the gate. *)
Record TenantHandlers (W : Type) := mkTenantHandlers {
  th_provision : Account → Incoming → M W string http_reply;
  th_topup : Tenant → Incoming → M W string http_reply;
  th_credits : Tenant → Incoming → M W string http_reply;
  th_api_token : Tenant → Incoming → M W string http_reply;
  th_go_live : Tenant → Incoming → M W string http_reply;
}.
Arguments th_provision {W}. Arguments th_topup {W}. Arguments th_credits {W}. Arguments th_api_token {W}. Arguments th_go_live {W}.

Section tenant_routes.
Context {W : Type}.
Variable getTenantById : string → M W string (option Tenant).
Variable checkSlugAvailability : string → string → M W string SlugClaim.
Variable getLatestJobForTenant : string → M W string (option ProvisionJob).
Variable driveJobIfNeeded : Tenant → ProvisionJob → M W string Drive.
(** [JSON.parse]: [None] when it throws. *)
Variable json_parse : string → option js.
(** [provisionPlanView()] as JSON. *)
Variable plan : js.
Variable th : TenantHandlers W.

Definition slug_available (account : Account) (rq : Incoming) : M W string http_reply :=
  let slug := Str.to_lower (default "" (in_param rq "slug")) in
  match validateSlug slug with
  | Some reason => mret (json_response [("available", JBool false); ("reason", JStr (slugRejectionMessage reason))] 200)
  | None =>
      claim ← checkSlugAvailability slug (ac_id account);
      mret (json_response match claim with
                          | Available reclaim => [("available", JBool true); ("reclaimable", JBool match reclaim with Some _ => true | None => false end)]
                          | Unavailable reason => [("available", JBool false); ("reason", JStr reason)]
                          end 200)
  end.
Definition job_body (job : ProvisionJob) : result string http_reply :=
  match json_parse (p_steps_done job) with
  | None => Err "SyntaxError"
  | Some steps => Ok (json_response
      [("kind", JStr (AdminStudios.kind_of_job (p_kind job))); ("status", JStr (job_status_text (p_status job))); ("step", jtext (p_step job));
       ("steps_done", steps); ("error_step", jtext (p_error_step job)); ("error_message", jtext (p_error_message job));
       ("from_release", jtext (p_from_release job)); ("to_release", jtext (p_to_release job)); ("finished_at", jtext (p_finished_at job))] 200)
  end.
(** The poll drives the job a little; a reap is told as it was re-read. *)
Definition job_poll (tenant : Tenant) : M W string http_reply :=
  latest ← getLatestJobForTenant (t_id tenant);
  match latest with
  | None => mret http_not_found
  | Some job =>
      driven ← driveJobIfNeeded tenant job;
      lift (job_body match driven with Reaped (Some again) => again | _ => job end)
  end.

(** 404 for somebody else's tenant as for none at all. *)
Definition own_tenant (account : Account) (id : string) (f : Tenant → M W string http_reply) : M W string http_reply :=
  found ← getTenantById id;
  match found with
  | None => mret http_not_found
  | Some tenant => if negb (t_account_id tenant =s? ac_id account) then mret http_not_found else f tenant
  end.
Definition scoped_handler (action : option string) (rq : Incoming) (tenant : Tenant) : M W string http_reply :=
  let method := rq_method (in_request rq) in
  let asks a := bool_decide (action = Some a) in
  if (method =s? "GET") && asks "credits" then th_credits th tenant rq
  else if asks "api-token" then th_api_token th tenant rq
  else if (method =s? "GET") && asks "job" then job_poll tenant
  else if (method =s? "POST") && (asks "go-live" || asks "invoke-key") then th_go_live th tenant rq
  else mret http_not_found.
Definition tenantRoutes (account : Account) (rq : Incoming) : M W string http_reply :=
  if is_route rq "GET" "/api/tenant/slug-available" then slug_available account rq
  else if is_route rq "POST" "/api/tenant/provision" then th_provision th account rq
  else if is_route rq "GET" "/api/tenant/provision-plan" then mret (json_value (JObj [("endpoints", plan)]))
  else match (if rq_method (in_request rq) =s? "POST" then topup_path (in_path rq) else None) with
  | Some id => own_tenant account id (λ tenant, th_topup th tenant rq)
  | None =>
      match scoped_path (in_path rq) with
      | Some (id, action) => own_tenant account id (scoped_handler action rq)
      | None => mret http_not_found
      end
  end.
End tenant_routes.

(** ** The operators' handlers behind the gate *)
Definition adminRoutes {W} (handlers : AdminHandler → OperatorPrincipal → Incoming → M W string http_reply) (principal : OperatorPrincipal) (rq : Incoming) :
    M W string http_reply :=
  match adminDispatch (rq_method (in_request rq)) (in_path rq) with Some h => handlers h principal rq | None => mret http_not_found end.

(** ** Whom each handler serves *)
Section own.
Context {W : Type} `{AuthStore W}.
Context (env : string → option string) (router : RouterEnv) (digest : string → list ascii) (open : list ascii → list ascii → list ascii → option string).
Context (random : nat → M W string (list ascii)) (clock : M W string Z) (fetch : HttpRequest → M W string HttpResponse).
Context (json_parse : string → option js) (text_of : js → string) (resolve_url : string → string → option Url).
Context (getSetting : string → M W string (option string)) (getTenantForAccount : string → M W string (option Tenant)).
Context (send : string → string → string → M W string unit) (limit : option (string → M W string bool)).
Context (lookup_slug : string → M W string (option Tenant)) (script_exists : string → M W string bool) (shared_tier : bool).
Context (build : option (string * string * string)).
Context (proxyRoutes : ProxyRoute → Incoming → M W string http_reply) (webhook : Incoming → M W string http_reply) (assets : Incoming → M W string http_reply).
Context (getTenantById : string → M W string (option Tenant)) (checkSlugAvailability : string → string → M W string SlugClaim).
Context (getLatestJobForTenant : string → M W string (option ProvisionJob)) (driveJob : Tenant → ProvisionJob → M W string Drive) (plan : js).

Abbreviation tenants := (tenantRoutes getTenantById checkSlugAvailability getLatestJobForTenant driveJob json_parse plan).
(** The program's entry: the doors, and behind them the two lists of routes. *)
Definition control_plane (run : AdminHandler → OperatorPrincipal → Incoming → M W string http_reply) (th : TenantHandlers W) (rq : Incoming) :
    M W string (entry_answer * option (M W string unit)) :=
  handle env router digest open random clock fetch json_parse text_of resolve_url getSetting getTenantForAccount send limit
    lookup_slug script_exists shared_tier build proxyRoutes webhook (adminRoutes run) (tenants th) assets rq.

Lemma bind_ext {A B} (m : M W string A) (f g : A → M W string B) s : (∀ a s', m s = (Ok a, s') → f a s' = g a s') → (m ≫= f) s = (m ≫= g) s.
Proof. intros Hfg. rewrite !bind_run. destruct (m s) as [[a|e] s'] eqn:E; [by apply Hfg|done]. Qed.
Lemma own_tenant_hides account id f g s :
  (∀ t s', getTenantById id s = (Ok (Some t), s') → t_account_id t = ac_id account → f t s' = g t s') →
  own_tenant getTenantById account id f s = own_tenant getTenantById account id g s.
Proof.
intros Hfg. unfold own_tenant. apply bind_ext. intros [t|] s' Ht; [|done]. destruct (String.eqb_spec (t_account_id t) (ac_id account)) as [E|]; [|done].
by apply Hfg.
Qed.
(** The tenant a path names, by either form. *)
Definition names_tenant (rq : Incoming) (id : string) : Prop := topup_path (in_path rq) = Some id ∨ ∃ action, scoped_path (in_path rq) = Some (id, action).
Definition agree_on (th1 th2 : TenantHandlers W) (tenant : Tenant) (rq : Incoming) (s : W) : Prop :=
  th_topup th1 tenant rq s = th_topup th2 tenant rq s ∧ th_credits th1 tenant rq s = th_credits th2 tenant rq s ∧
  th_api_token th1 tenant rq s = th_api_token th2 tenant rq s ∧ th_go_live th1 tenant rq s = th_go_live th2 tenant rq s.
Lemma tenant_routes_hide th1 th2 account rq s :
  (is_route rq "POST" "/api/tenant/provision" = true → th_provision th1 account rq s = th_provision th2 account rq s) →
  (∀ id t s', names_tenant rq id → getTenantById id s = (Ok (Some t), s') → t_account_id t = ac_id account → agree_on th1 th2 t rq s') →
  tenants th1 account rq s = tenants th2 account rq s.
Proof.
intros Hp Ht. unfold tenantRoutes. destruct (is_route rq "GET" "/api/tenant/slug-available"); [reflexivity|].
destruct (is_route rq "POST" "/api/tenant/provision") eqn:E0; [by apply Hp|]. destruct (is_route rq "GET" "/api/tenant/provision-plan"); [reflexivity|].
destruct (if rq_method (in_request rq) =s? "POST" then topup_path (in_path rq) else None) as [id|] eqn:E.
- apply own_tenant_hides. intros t s' Hl Ho. destruct (_ =s? _); [|done]. by destruct (Ht id t s' (or_introl E) Hl Ho).
- destruct (scoped_path (in_path rq)) as [[id action]|] eqn:E2; [|done]. apply own_tenant_hides. intros t s' Hl Ho.
  destruct (Ht id t s' ltac:(right; by exists action) Hl Ho) as (_ & H2 & H3 & H4). unfold scoped_handler.
  destruct (_ && _); [done|]. destruct (bool_decide _); [done|]. destruct (_ && _); [done|]. by destruct (_ && _).
Qed.

Lemma gate_admits method path authorization secret now p s s' :
  adminGate digest method path authorization secret now s = (Ok (AdmittedAs p), s') → authorize method path p = AdmittedAs p.
Proof.
unfold adminGate. intros (nowIso & s1 & _ & Hs)%M_bind_inv. apply M_bind_inv in Hs as (found & s2 & _ & Hs). injection Hs as Hs _.
destruct found as [q|]; [|done]. unfold authorize in *. destruct (adminRequirement method path) as [[sc| |]|]; try done; [..|].
all: first [destruct (hasScope q sc) eqn:E|destruct (bool_decide (pr_kind q = PRoot)) eqn:E|idtac]; simplify_eq; by rewrite ?E.
Qed.

(** C12. Every handler serves only those it is for.  Two programs whose handlers agree on the requests
    they are meant for answer every request alike, in every state.  An operator's handler is only ever
    run for a caller the gate admitted who holds what that very handler requires; provisioning only for
    a session whose account has accepted the policy; and a handler of a tenant only for such an account
    and a tenant of its own, under the id the path names: somebody else's tenant is answered like one
    that does not exist. *)
Theorem handlers_serve_only_their_own run1 run2 th1 th2 rq s :
  (∀ h p s1 s3, came_in env router digest open clock lookup_slug script_exists rq s s1 → admitted env digest clock rq p s1 s3 →
     adminDispatch (rq_method (in_request rq)) (in_path rq) = Some h → satisfies p (required_for h) → run1 h p rq s3 = run2 h p rq s3) →
  (∀ account s1 s4, came_in env router digest open clock lookup_slug script_exists rq s s1 → signed_and_accepted env digest clock rq account s1 s4 →
     (is_route rq "POST" "/api/tenant/provision" = true → th_provision th1 account rq s4 = th_provision th2 account rq s4) ∧
     ∀ id t s5, names_tenant rq id → getTenantById id s4 = (Ok (Some t), s5) → t_account_id t = ac_id account → agree_on th1 th2 t rq s5) →
  control_plane run1 th1 rq s = control_plane run2 th2 rq s.
Proof.
intros Ha Ht. apply doors_let_in_only_their_own.
- intros p s1 s3 Hin _ Hadm. unfold adminRoutes. destruct (adminDispatch _ _) as [h|] eqn:Hd; [|done].
  apply (Ha h p s1 s3); [done..|]. destruct Hadm as (now & s2 & _ & Hg). apply gate_admits in Hg.
  pose proof (table_and_handlers_agree (rq_method (in_request rq)) (in_path rq)) as Hq. rewrite Hd in Hq. unfold authorize in Hg. rewrite Hq in Hg.
  cbn in Hg. destruct (required_for h) as [sc| |]; cbn; [|done|].
  + by destruct (hasScope p sc) eqn:?; simplify_eq.
  + by destruct (bool_decide_reflect (pr_kind p = PRoot)); simplify_eq.
- intros account s1 s4 Hin _ Hs. destruct (Ht account s1 s4 Hin Hs) as [Hp Hown]. by apply tenant_routes_hide.
Qed.
End own.
