(* ===== verification/WizardChecks.v ===== *)
(** * What the setup wizard decides (public/onboarding-checks.js)

    The pure half of the page a customer sets a studio up on: what it says of a name, of the plane's
    answers, of a build and of a policy link, and when it lets the customer go on.  The answers are
    dynamically typed values, as they come off the wire. *)

From S2P Require Export Usage RunpodPool Regex OperatorAuth.
From Stdlib Require Import Ascii.
Open Scope string_scope.
Open Scope list_scope.
Open Scope Z_scope.
Open Scope plane_scope.

(** ** Steps of the wizard *)
Definition STEPS : list (string * string) :=
  [("what", "What you get"); ("rules", "The rules"); ("name", "Name it"); ("review", "Review"); ("build", "Building"); ("go-live", "Go live"); ("done", "Done")].
Fixpoint step_from (i : Z) (key : string) (l : list (string * string)) : Z :=
  match l with [] => -1 | (k, _) :: l => if k =s? key then i else step_from (i + 1) key l end.
Definition stepIndex (key : string) : Z := step_from 0 key STEPS.

(** ** Names *)
Inductive Level := LevelEmpty | LevelOk | LevelWarn | LevelBad.
Record Hint := mkHint { hint_level : Level; hint_valid : bool; hint_message : string }.
Definition warn_hint (message : string) : Hint := mkHint LevelWarn false message.
(** [/^[a-z0-9](?:[a-z0-9-]{1,30}[a-z0-9])$/] *)
Definition SLUG_RE : regex :=
  RCat (RSet lower_alnum) (RCat (RSet slug_char) (RCat (RUpTo 29 (RSet slug_char)) (RSet lower_alnum))).
Definition SLUG_RESERVED : list string := ["www"; "api"; "admin"; "demo"; "studio"; "mcp"; "app"; "status"; "mail"].
Definition slugHint (raw : js) : Hint :=
  let slug := Str.to_lower (js_trimmed raw) in
  if negb (Str.truthy slug) then mkHint LevelEmpty false ""
  else if (length (Str.chars slug) <? 3)%nat then warn_hint "A bit longer, please: at least 3 characters."
  else if (32 <? length (Str.chars slug))%nat then warn_hint "That is too long. Keep it to 32 characters or fewer."
  else if existsb (String.eqb slug) SLUG_RESERVED then warn_hint (Str.dq +:+ slug +:+ Str.dq +:+ " is reserved for us. Pick another name.")
  else if negb (test SLUG_RE slug) then warn_hint "Use lowercase letters, numbers, and dashes; start and end with a letter or number."
  else mkHint LevelOk true "".

Definition KEY_PREFIX : string := "rpa_".
Definition keyShapeHint (raw : js) : Level * string :=
  let key := js_trimmed raw in
  if negb (Str.truthy key) then (LevelEmpty, "")
  else if negb (starts_with KEY_PREFIX key) then
    (LevelWarn, "This does not look like a current RunPod key. Newer keys start with " +:+ KEY_PREFIX +:+
       " and are the ones this setup expects. An older key may not have the right permissions. You can try it anyway; we check with RunPod either way.")
  else if (length (Str.chars key) <? 16)%nat then (LevelWarn, "That key looks too short to be complete. Check you copied all of it.")
  else (LevelOk, "Key shape looks right. We check it with RunPod next.").

(** ** Values of the wire *)
(** [v || d] and [v && ...] *)
Definition js_or (v d : js) : js := if js_truthy v then v else d.
Definition is_true (v : js) : bool := match v with JBool true => true | _ => false end.
Definition is_text (s : string) (v : js) : bool := match v with JStr x => x =s? s | _ => false end.
Definition js_elements (v : js) : list js := match v with JArr l => l | _ => [] end.
(** [l.indexOf(s) !== -1] *)
Definition lists_text (s : string) (l : list js) : bool := existsb (is_text s) l.
Definition is_nullish (v : js) : bool := match v with JUndef | JNull => true | _ => false end.

Section checks.
(** [String(v)] of a value that is not a text. *)
Variable text_of : js → string.
(** What a name finds on [Object.prototype], as the text it reads as ([constructor], [toString], ...). *)
Variable inherited : string → option string.

Definition shown (v : js) : string := match v with JStr s => s | v => text_of v end.
(** [table[key]] of an object literal. *)
Definition own_or_inherited (table : list (string * string)) (key : js) : option string :=
  match List.find (λ e, e.1 =s? shown key) table with Some (_, v) => Some v | None => inherited (shown key) end.

(** ** The answer to a name *)
Inductive SlugState := SlugTaken | SlugReclaim | SlugFree.
Record SlugVerdict := mkSlugVerdict { slv_state : SlugState; slv_level : Level; slv_text : string }.
Definition slugVerdict (res : js) (slug : string) : SlugVerdict :=
  let name := json_string slug in
  if negb (is_true (js_field res "available")) then
    mkSlugVerdict SlugTaken LevelWarn
      (name +:+ " is taken" +:+ (if js_truthy (js_field res "reason") then " (" +:+ shown (js_field res "reason") +:+ ")" else "") +:+ ". Try another.")
  else if is_true (js_field res "reclaimable") then
    mkSlugVerdict SlugReclaim LevelBad (name +:+ " is a studio you already have. Continuing DELETES it and builds a new one.")
  else mkSlugVerdict SlugFree LevelOk (name +:+ " is free.").

(** ** Where an arrival belongs *)
Inductive ResumeReason :=
| SignedOut | AupRequired | NoTenant | InProvisioning | AtGoLive | BuildFailed | IsLive | NotInSetup.
(** [None] where the wizard is not the right place. *)
Definition resumeStep (me : js) : option string * ResumeReason :=
  if negb (js_truthy (js_field me "account")) then (Some "what", SignedOut)
  else if negb (is_true (js_field (js_field me "aup") "accepted")) then (Some "what", AupRequired)
  else
    let tenant := js_field me "tenant" in
    if negb (js_truthy tenant) then (Some "what", NoTenant)
    else
      let on s := is_text s (js_field tenant "status") in
      if on "pending" || on "provisioning" then (Some "build", InProvisioning)
      else if on "awaiting_go_live" || on "awaiting_invoke_key" then (Some "go-live", AtGoLive)
      else if on "failed" then (Some "build", BuildFailed)
      else if on "live" then (Some "done", IsLive)
      else (None, NotInSetup).
Definition planCanProvision (config : js) : bool := is_true (js_field config "shared_tier_available").
Inductive InvokeRequirement := Pooled | Unsupported | Undecided.
Definition invokeRequirement (tenant : js) : InvokeRequirement :=
  let mode := js_field tenant "runpod_mode" in
  if is_text "shared" mode then Pooled else if is_text "dedicated" mode then Unsupported else Undecided.

(** ** A provision that was refused *)
Definition PROVISION_FAILURE_HEADLINE : list (string * string) :=
  [("tenant_exists", "You already have a studio"); ("slug_taken", "That name is taken"); ("slug_reclaim_in_progress", "That name is being reset");
   ("reclaim_teardown_failed", "We could not free that name"); ("runpod_key_required", "This deploy cannot build studios right now");
   ("invalid_slug", "That name will not work"); ("provisioner_unconfigured", "We cannot build studios right now")].
Record FailureCopy := mkFailureCopy { fc_code : js; fc_headline : string; fc_detail : js; fc_spoken : bool }.
(** [err] is what the transport threw: its message, its status and the body it came with. *)
Definition provisionFailureCopy (err : js) : FailureCopy :=
  let body := js_field err "body" in
  let code := js_or (js_or (js_field body "error") (js_field err "message")) (JStr "") in
  let message := match js_field body "message" with JStr s => JStr s | _ => JNull end in
  mkFailureCopy code (default "Setup could not finish" (own_or_inherited PROVISION_FAILURE_HEADLINE code))
    (js_or (js_or message code) (JStr "Something went wrong and we were not told what.")) (js_truthy message).

(** ** Going live *)
Definition REJECTION_COPY : list (string * string) :=
  [("graphql_capable", "That key can do more than run your renders: it still has account access. This is the one " +:+
      "thing we will not store, so we have not kept it. Mint a key with api.runpod.io/graphql set " +:+ "to None, and only the invoke surface enabled.");
   ("bad_prefix", "That key was not accepted. This studio uses our render pool; there is no key for you to paste.");
   ("endpoint_out_of_scope", "That key cannot reach all four of your endpoints. Check you gave it Read/Write on exactly " +:+ "the four listed above.");
   ("endpoint_unreachable", "We could not reach your endpoints with that key. This may be RunPod having a moment rather " +:+
      "than anything you did; try again in a minute.");
   ("no_endpoints", "Your endpoints are not there yet, so there is nothing to scope a key to. This is our bug, " +:+ "not yours; please tell us.")].
Definition invokeRejectionCopy (reason detail : js) : js :=
  match own_or_inherited REJECTION_COPY reason with
  | Some known => JStr known
  | None => js_or detail (JStr "That key was not accepted, and we have not stored it.")
  end.
Definition unverifiedNames (list : list js) : Datatypes.list js :=
  jfilter js_truthy ((λ u, if js_is_object u then js_field u "module" else u) <$> list).

Inductive Tone := ToneGood | ToneWarn | TonePending | ToneBad.
Record InvokeVerdict := mkInvokeVerdict {
  ivk_ok : bool; ivk_tone : Tone; ivk_live : bool; ivk_pending : bool; ivk_keyStored : bool; ivk_clearKey : bool;
  ivk_message : js; ivk_notes : list string; ivk_failures : list js;
}.
Definition unproven_note (unverified : list js) : string :=
  "We could not confirm every render module is ready" +:+
  (if (length unverified =? 0)%nat then "" else " (" +:+ Str.join ", " (shown <$> unverifiedNames unverified) +:+ ")") +:+
  ". That usually means those modules run an older image that cannot report " +:+
  "readiness, not that anything is broken. If a render fails on one of them, tell us.".
Definition invokeKeyVerdict (httpStatus : Z) (body : js) : InvokeVerdict :=
  let unverified := js_elements (js_field body "modules_unverified") in
  if httpStatus =? 200 then
    if (match js_field body "modules_ready" with JBool false => true | _ => false end) || negb (length unverified =? 0)%nat then
      mkInvokeVerdict true ToneWarn true false true false (JStr "Your studio is live.") [unproven_note unverified] []
    else mkInvokeVerdict true ToneGood true false true false (JStr "Your studio is live. Every render module is ready.") [] []
  else if httpStatus =? 202 then
    mkInvokeVerdict false TonePending false true true false
      (js_or (js_field body "message") (JStr "The shared render key is installed, but your studio is not live yet.")) [] []
  else
    let reason := js_or (js_or (js_field body "error") (js_field body "reason")) JNull in
    let copy := invokeRejectionCopy reason (js_or (js_field body "message") JNull) in
    mkInvokeVerdict false ToneBad false false false (is_text "invoke_key_rejected" reason || is_text "invoke_key_required" reason) copy [] [copy].

(** ** The policy *)
Definition aupAcceptFailureCopy (res : js) : string :=
  if js_truthy (js_field res "stale") then
    "The policy changed while this page was open" +:+
    (if js_truthy (js_field res "current") then " (it is now version " +:+ shown (js_field res "current") +:+ ")" else "") +:+
    ". We have loaded the new text; please read it and accept again. We will not record you as " +:+ "agreeing to wording you were never shown."
  else if js_truthy (js_field res "error") then
    "We could not record your acceptance: " +:+ shown (js_field res "error") +:+ ". Nothing has been saved; please try again."
  else "We could not record your acceptance. Nothing has been saved; please try again.".

(** ** The plan *)
Definition CONSUMER_ENDPOINT_LABELS : list (string * string) := [("backend", "Render"); ("upscale", "Sharper video")].
Definition consumerEndpointLabel (ep : js) : js :=
  let key := js_field ep "key" in
  match (if js_truthy key then own_or_inherited CONSUMER_ENDPOINT_LABELS key else None) with
  | Some label => JStr label
  | None => js_or (js_or (js_field ep "label") key) (JStr "")
  end.
(** A finite number above zero. *)
Definition positive_number (v : js) : option Num.num :=
  match v with JNum n => if Num.is_finite n && num_gt n 0 then Some n else None | _ => None end.
Definition planWorkerTotal (plan : js) : Num.num :=
  foldl (λ sum ep, num_plus sum (default (Num.NInt 0) (positive_number (js_field ep "max_workers")))) (Num.NInt 0) (js_elements plan).
Definition own_iron (ep : js) : bool := is_text "door" (js_field ep "backing") || is_text "vpc" (js_field ep "backing").
Definition is_one (n : Num.num) : bool := match n with Num.NInt 1 => true | _ => false end.
Definition planRowMeta (ep : js) : js :=
  let gpu := js_field ep "gpu" in
  if own_iron ep then js_or gpu (JStr "our hardware")
  else
    JStr (Str.join " -- "
      ((if js_truthy gpu then [shown gpu] else []) ++
       match positive_number (js_field ep "max_workers") with
       | Some n => ["max " +:+ shown (JNum n) +:+ (if is_one n then " worker" else " workers")]
       | None => []
       end ++ ["scale-to-zero"])).
Definition counted (n : nat) (one many : string) : string := Str.of_int (Z.of_nat n) +:+ (if (n =? 1)%nat then one else many).
Definition planSummaryCopy (plan : js) : string :=
  let rows := js_elements plan in
  if (length rows =? 0)%nat then ""
  else
    let workers := planWorkerTotal (JArr rows) in
    let ours := length (jfilter own_iron rows) in
    let bits :=
      (if num_gt workers 0 then [shown (JNum workers) +:+ (if is_one workers then " worker" else " workers") +:+ " at most on the shared GPU pool, all scale-to-zero"] else []) ++
      (if (0 <? ours)%nat then [counted ours " capability" " capabilities" +:+ " on our own hardware"] else []) in
    if (length bits =? 0)%nat then "Total: " +:+ counted (length rows) " item" " items" +:+ "."
    else "Total: " +:+ Str.join ", plus " bits +:+ ".".

(** ** The build *)
Definition PROVISION_RESUME_BOUNDARY : string := "wfp_upload".
Definition PROVISION_FIRST_POLL_MS : Z := 90000.
Definition PROVISION_PRE_BOUNDARY_POLL_MS : Z := 15000.
Definition PROVISION_POLL_MS : Z := 2500.
Definition PROVISION_WATCH_MS : Z := 600000.
Record PlannedRow := mkPlannedRow { pw_key : string; pw_label : string; pw_steps : list string }.
Definition PROVISION_ROWS : list PlannedRow :=
  (λ r, mkPlannedRow r.1 "Setting up your studio" r.2) <$>
  [("database", ["d1_create"; "d1_migrate"]); ("storage", ["r2_bucket"; "r2_token"]); ("endpoints", ["runpod_endpoints"]); ("studio", ["wfp_upload"]);
   ("modules", ["modules_upload"; "modules_install"]); ("verify", ["verify"])].
Definition provisionStepsDone (job : js) : list js := js_elements (js_field job "steps_done").
Definition pastResumeBoundary (job : js) : bool := lists_text PROVISION_RESUME_BOUNDARY (provisionStepsDone job).
Definition provisionTerminal (job : js) : bool := is_text "succeeded" (js_field job "status") || is_text "failed" (js_field job "status").
Definition provisionPollDelayMs (job : js) : Z :=
  if provisionTerminal job then 0 else if pastResumeBoundary job then PROVISION_POLL_MS else PROVISION_PRE_BOUNDARY_POLL_MS.

Inductive RowStatus := RowTodo | RowRunning | RowDone | RowFailed.
#[export] Instance RowStatus_eq_dec : EqDecision RowStatus.
Proof. solve_decision. Defined.
Record BuildRow := mkBuildRow { br_key : js; br_label : string; br_status : RowStatus; br_error : js }.
(** [row.steps.indexOf(step) !== -1] *)
Definition covers (row : PlannedRow) (step : js) : bool := existsb (λ s, is_text s step) (pw_steps row).
Definition row_status (job : js) (row : PlannedRow) : RowStatus :=
  let done := provisionStepsDone job in
  let step := js_field job "step" in
  if covers row (js_field job "error_step") then RowFailed
  else if forallb (λ s, lists_text s done) (pw_steps row) then RowDone
  else if covers row step then (if is_text "failed" (js_field job "status") then RowFailed else RowRunning)
  else if existsb (λ s, lists_text s done) (pw_steps row) then RowRunning
  else RowTodo.
Definition failure_shown (job : js) : js := js_or (js_field job "error_message") JUndef.
Definition provisionRows (job : js) : list BuildRow :=
  let errorStep := js_field job "error_step" in
  ((λ row, let status := row_status job row in
           mkBuildRow (JStr (pw_key row)) (pw_label row) status (if bool_decide (status = RowFailed) then failure_shown job else JUndef)) <$> PROVISION_ROWS) ++
  (if js_truthy errorStep && negb (existsb (λ row, covers row errorStep) PROVISION_ROWS)
   then [mkBuildRow errorStep ("Setup stopped at " +:+ shown errorStep) RowFailed (failure_shown job)] else []).
(** Whole seconds still to wait, rounded up. *)
Definition provisionWaitCopy (remainingMs : Z) : string :=
  let secs := Z.max 0 (- (- remainingMs / 1000)) in
  if secs =? 0 then "Checking on your studio now"
  else "Building your studio: first check in " +:+ Str.of_int secs +:+ (if secs =? 1 then " second" else " seconds").
Definition provisionWaitNote (totalMs : Z) : string :=
  let ms := if 0 <? totalMs then totalMs else PROVISION_FIRST_POLL_MS in
  "The first stage of setup runs on our side and cannot be hurried along. Checking too " +:+
  "early cannot help it and would cut it short, so we leave it alone for about " +:+
  Str.of_int ((ms + 500) / 1000) +:+ " seconds and then watch it step by step.".
Definition provisionTimeoutCopy : string :=
  "We stopped watching after more than " +:+ Str.of_int ((PROVISION_FIRST_POLL_MS + PROVISION_WATCH_MS) / 60000) +:+ " minutes. Setup may still be " +:+
  "running; reload this page to pick the status back up.".
End checks.

(** ** Is the link to the policy pinned? *)
Definition MOVING_NAMES : list string := ["main"; "master"; "head"; "develop"; "trunk"].
(** A character set under the [i] flag. *)
Definition either_case (p : ascii → bool) (c : ascii) : bool :=
  p c || (let n := Str.code c in ((65 <=? n) && (n <=? 90))%N && p (Str.lower_char c)).
(** [/^[0-9a-f]{7,64}$/i] *)
Definition SHA_RE : regex := RCat (RTimes 7 (RSet (either_case hex_char))) (RUpTo 57 (RSet (either_case hex_char))).
Definition tag_tail (c : ascii) : bool :=
  let n := Str.code c in (Str.is_digit c || (97 <=? n) && (n <=? 122) || (65 <=? n) && (n <=? 90) || (n =? 46) || (n =? 45))%N.
Definition tag_lead (c : ascii) : bool := tag_tail c && negb (Str.is_digit c).
Definition numbers : regex := RPlus (RSet Str.is_digit).
Definition tag_head : regex :=
  RCat (RAlt REmpty (RChar "v")) (RCat numbers (RCat (RChar ".") (RCat numbers (RChar ".")))).
(** A version tag: after its numbers, nothing or a tail that begins with no digit; and the form the
    comment above it retires, whose tail may begin with one. *)
Definition TAG_RE : regex := RCat tag_head (RCat numbers (RAlt REmpty (RCat (RSet tag_lead) (RStar (RSet tag_tail))))).
Definition TAG_RE_BEFORE : regex := RCat tag_head (RCat numbers (RStar (RSet tag_tail))).

Record PolicyRef := mkRef { rf_name : string; rf_alwaysMoving : bool }.
(** The segments of a URL between its slashes; the patterns of [refOf] are read off them. *)
Fixpoint forge_ref (segments : list string) : option string :=
  match segments with
  | a :: rest =>
      match rest with
      | b :: _ :: _ => if existsb (String.eqb a) ["blob"; "raw"; "tree"; "blame"] && Str.truthy b then Some b else forge_ref rest
      | _ => None
      end
  | [] => None
  end.
Definition text_ends (suffix s : string) : bool := starts_with (Str.of_chars (rev (Str.chars suffix))) (Str.of_chars (rev (Str.chars s))).
Definition raw_ref (segments : list string) : option string :=
  match segments with
  | [] => None
  | scheme :: rest =>
      match rest with
      | empty :: host :: owner :: repo :: ref :: _ :: _ =>
          if existsb (String.eqb (Str.to_lower scheme)) ["https:"; "http:"] && (empty =s? "") && (Str.to_lower host =s? "raw.githubusercontent.com")
             && Str.truthy owner && Str.truthy repo && Str.truthy ref
          then Some ref else None
      | _ => None
      end
  end.
Fixpoint branch_ref (segments : list string) : option string :=
  match segments with
  | a :: rest =>
      match rest with
      | b :: c :: _ => if text_ends "refs" (Str.to_lower a) && (Str.to_lower b =s? "heads") && Str.truthy c then Some c else branch_ref rest
      | _ => None
      end
  | [] => None
  end.
Definition refOf (url : string) : option PolicyRef :=
  let segments := Text.split "/" url in
  match forge_ref (tail segments) with
  | Some r => Some (mkRef r false)
  | None =>
      match raw_ref segments with
      | Some r => Some (mkRef r false)
      | None => (λ r, mkRef r true) <$> branch_ref segments
      end
  end.
Inductive Pinning := PinMissing | PinUnverifiable | PinMoving (ref : string) | Pinned.
Definition aupUrlPinning (url : js) : Pinning :=
  let u := js_trimmed url in
  if negb (Str.truthy u) then PinMissing
  else match refOf u with
  | None => PinUnverifiable
  | Some found =>
      if rf_alwaysMoving found then PinMoving (rf_name found)
      else if existsb (String.eqb (Str.to_lower (rf_name found))) MOVING_NAMES then PinMoving (rf_name found)
      else if test SHA_RE (rf_name found) || test TAG_RE (rf_name found) then Pinned
      else PinUnverifiable
  end.
Definition aupPinningRefusalCopy (p : Pinning) : string :=
  match p with
  | PinMoving ref =>
      "We are not going to ask you to accept this policy, because the link we have for it " +:+ "points at a moving target (" +:+ ref +:+
      "), which means the wording could change " +:+ "after you agreed to it. That is our configuration mistake, not yours. It is being fixed; " +:+
      "nothing you do here would be recorded properly until it is."
  | PinMissing => "We cannot show you the policy right now, so we are not going to ask you to accept " +:+ "it. You should never have to agree to something you cannot read."
  | _ => ""
  end.

(** ** May the customer go on? *)
Record WizardState := mkWizard {
  wz_rulesAccepted : bool; wz_confirmed : bool; wz_invokeVerified : bool; wz_slug : string; wz_slugValid : bool; wz_slugAvailable : bool;
  wz_slugReclaimable : bool; wz_slugReclaimConfirmedFor : option string;
}.
Definition canAdvance (key : string) (s : WizardState) : bool :=
  if key =s? "rules" then wz_rulesAccepted s
  else if key =s? "name" then
    if negb (wz_slugValid s && wz_slugAvailable s) then false
    else if negb (wz_slugReclaimable s) then true
    else Str.truthy (wz_slug s) && bool_decide (wz_slugReclaimConfirmedFor s = Some (wz_slug s))
  else if key =s? "review" then wz_confirmed s
  else if key =s? "go-live" then wz_invokeVerified s
  else true.

(** ** The patterns *)
Lemma forallb_rev {A} (p : A → bool) l : forallb p (rev l) = forallb p l.
Proof. induction l as [|x l IH]; [done|]. cbn. rewrite forallb_app, IH. cbn. by rewrite andb_true_r, andb_comm. Qed.
Lemma slug_re_shape l : lang SLUG_RE l ↔ slug_shape l = true.
Proof.
unfold SLUG_RE, slug_shape. rewrite lang_cat_inv. setoid_rewrite lang_set_inv. setoid_rewrite lang_cat_inv.
setoid_rewrite lang_cat_inv. setoid_rewrite lang_set_inv. setoid_rewrite lang_upto_set. split.
- intros (? & ? & -> & (c & -> & Hc) & ? & ? & -> & (d & -> & Hd) & mid & ? & -> & [Hn Hm] & (e & -> & He)). cbn [app].
  replace (rev (d :: mid ++ [e])) with (e :: rev mid ++ [d]) by (cbn; by rewrite rev_app_distr).
  rewrite Hc, He, forallb_app, forallb_rev, Hm, length_app, length_rev. cbn [forallb length]. rewrite Hd. cbn [andb].
  apply andb_true_iff. split; apply Nat.leb_le; lia.
- destruct l as [|c rest]; [done|]. destruct (rev rest) as [|e mid] eqn:E; [done|]. intros H. bool_hyps. rewrite !Nat.leb_le in *.
  assert (rest = rev mid ++ [e]) as -> by (rewrite <- (rev_involutive rest), E; done).
  assert (forallb slug_char (rev mid) = true) as Hm by (by rewrite forallb_rev). pose proof (length_rev mid) as Hl.
  destruct (rev mid) as [|d mid'] eqn:E2; cbn in Hl; [lia|]. cbn in Hm. bool_hyps.
  exists [c], (d :: mid' ++ [e]). split; [done|]. split; [by exists c|]. exists [d], (mid' ++ [e]). split; [done|]. split; [by exists d|].
  exists mid', [e]. split_and!; [done|lia|done|by exists e].
Qed.
Lemma slug_test s : test SLUG_RE s = slug_shape (Str.chars s).
Proof. apply eq_true_iff_eq. unfold test. by rewrite rmatch_spec, slug_re_shape. Qed.

Lemma digit_split (p : ascii → bool) l : ∃ d t, l = d ++ t ∧ forallb p d = true ∧ match t with c :: _ => p c = false | [] => True end.
Proof.
induction l as [|c l (d & t & -> & Hd & Ht)]; [by exists [], []|]. destruct (p c) eqn:E.
- exists (c :: d), t. cbn. by rewrite E.
- by exists [], (c :: d ++ t).
Qed.
Lemma tail_lead_lang l : lang (RAlt REmpty (RCat (RSet tag_lead) (RStar (RSet tag_tail)))) l ↔
  forallb tag_tail l = true ∧ match l with c :: _ => Str.is_digit c = false | [] => True end.
Proof.
rewrite lang_alt_inv, lang_empty_inv, lang_cat_inv. setoid_rewrite lang_set_inv. setoid_rewrite lang_star_set. split.
- intros [->|(? & t & -> & (c & -> & Hc) & Ht)]; [done|]. unfold tag_lead in Hc. bool_hyps. cbn. by split_and!; [apply andb_true_iff|].
- intros [Ht Hh]. destruct l as [|c l]; [by left|]. right. cbn in Ht. bool_hyps. exists [c], l. split_and!; [done| |done].
  exists c. split; [done|]. unfold tag_lead. by rewrite Hh, andb_true_r.
Qed.
(** The tail that may not begin with a digit takes nothing away: the digits it would have begun with
    are read as part of the number. *)
Lemma same_tags s : test TAG_RE s = test TAG_RE_BEFORE s.
Proof.
apply eq_true_iff_eq. unfold test, TAG_RE, TAG_RE_BEFORE. rewrite !rmatch_spec, !lang_cat_inv.
assert (∀ l, lang (RCat numbers (RAlt REmpty (RCat (RSet tag_lead) (RStar (RSet tag_tail))))) l ↔ lang (RCat numbers (RStar (RSet tag_tail))) l) as H.
{ intros l. unfold numbers. rewrite !lang_cat_inv. setoid_rewrite lang_plus_set. setoid_rewrite tail_lead_lang. setoid_rewrite lang_star_set. split.
  - intros (d & t & -> & Hd & Ht & _). by exists d, t.
  - intros (d & t & -> & [Hn Hd] & Ht). destruct (digit_split Str.is_digit t) as (d' & t' & -> & Hd' & Hh). rewrite forallb_app in Ht. bool_hyps.
    exists (d ++ d'), t'. rewrite app_assoc. split_and!; [done|by destruct d| |done|done]. rewrite forallb_app. by apply andb_true_iff. }
by setoid_rewrite H.
Qed.
