(* ===== verification/Console.v ===== *)
(** * The operator console (public/admin-checks.js)

    What the page offers an operator, decided from the plane's answer to who they are: the table the gate
    decides by is served with it, and the page asks that table.  The page's own rule is kept here against
    the gate's. *)

From S2P Require Export AdminReads WizardChecks.
From Stdlib Require Import Ascii.
Open Scope string_scope.
Open Scope list_scope.
Open Scope Z_scope.
Open Scope plane_scope.

(** ** Who is asking *)
Definition isRoot (who : js) : bool := is_text "root" (js_field who "kind").
(** [===] on values that came from JSON: no two objects of an answer are one. *)
Definition strict_eq (a b : js) : bool :=
  match a, b with
  | JStr x, JStr y => x =s? y
  | JBool x, JBool y => Bool.eqb x y
  | JNum x, JNum y => negb (bool_decide (x = Num.NNaN)) && bool_decide (x = y)
  | JNull, JNull | JUndef, JUndef => true
  | _, _ => false
  end.
Definition canDo (who : js) (scope : js) : bool := existsb (strict_eq scope) (js_elements (js_field who "scopes")).
Record ScopeRow := mkScopeRow { sr_id : js; sr_summary : js; sr_held : bool }.
(** [held.has(id)] of the set of the scopes. *)
Definition scopeRows (who : js) : list ScopeRow :=
  (λ s, mkScopeRow (js_field s "id") (js_field s "summary") (canDo who (js_field s "id"))) <$> js_elements (js_field who "catalogue").
Definition principalLabel (text_of : js → string) (who : js) : string :=
  if negb (js_truthy who) then "not signed in"
  else if isRoot who then "shared root credential (names nobody; every action records admin-token)"
  else shown text_of (js_field who "operator") +:+ " (named credential " +:+ shown text_of (js_field who "credential_id") +:+ ")".

Section table.
(** [new RegExp(source)] and its [test]: [None] when the source is none. *)
Variable new_RegExp : string → option (string → bool).
Definition row_matches (method path : string) (row : js) : bool :=
  is_text method (js_field row "method") &&
  match js_field row "pattern" with JStr source => match new_RegExp source with Some re => re path | None => false end | _ => false end.
(** The first row that matches; null where none does. *)
Definition requirementFor (who : js) (method path : string) : js :=
  match List.find (row_matches method path) (js_elements (js_field who "requirements")) with Some row => js_field row "requires" | None => JNull end.
Definition canCall (who : js) (method path : string) : bool :=
  match requirementFor who method path with
  | JNull => false
  | required =>
      if is_text "authenticated" required then js_truthy who else if is_text "root" required then isRoot who else canDo who required
  end.
Record Sections := mkSections { sc_identity : bool; sc_tenants : bool; sc_audit : bool; sc_settings : bool; sc_credentials : bool; sc_breakGlassNotice : bool }.
Definition sectionsFor (who : js) : Sections :=
  let routine := js_truthy who && negb (isRoot who) in
  mkSections (js_truthy who) (routine && canCall who "GET" "/api/admin/tenants") (routine && canCall who "GET" "/api/admin/audit")
    (routine && canCall who "POST" "/api/admin/settings") (canCall who "POST" "/api/admin/operators") (isRoot who).

(** ** The actions on a tenant *)
Definition PROBE_TENANT : string := "ten_0".
Record TenantAction := mkAction { ta_id : string; ta_label : string; ta_method : string; ta_path : option string; ta_needsReason : bool; ta_danger : bool }.
Definition TENANT_ACTIONS : list TenantAction :=
  [mkAction "suspend" "Suspend" "POST" (Some "/suspend") true true; mkAction "resume" "Resume" "POST" (Some "/resume") false false;
   mkAction "credits" "Read credits" "GET" (Some "/credits") false false; mkAction "audit" "Audit trail" "GET" None false false].
Definition actionPath (action : TenantAction) (tenantId : string) : string :=
  match ta_path action with None => "/api/admin/audit" | Some p => "/api/admin/tenants/" +:+ tenantId +:+ p end.
Definition tenantActions (who : js) : list TenantAction := jfilter (λ a, canCall who (ta_method a) (actionPath a PROBE_TENANT)) TENANT_ACTIONS.
End table.

(** ** Minting *)
Inductive MintForm := MintRefused (message : string) | MintPayload (name : string) (scopes : list js) (expires_in_days : option Z).
Definition mintPayload (number : string → Num.num) (name : string) (scopes : list js) (expiresDays : string) : MintForm :=
  let n := Str.trim name in
  if negb (test NAME_RE n) then
    MintRefused ("Name must be 1-32 characters of lowercase letters, digits, underscore or hyphen. " +:+
      "It is an identity that lands in the audit trail, so name a person, not a purpose.")
  else
    let list := jfilter js_truthy scopes in
    if (length list =? 0)%nat then MintRefused "Pick at least one scope. A credential with none can authenticate and do nothing."
    else
      let days := Str.trim expiresDays in
      if negb (Str.truthy days) then MintPayload n list None
      else match number days with
      | Num.NInt z => if Num.is_safe z && (0 <? z) && (z <=? 3650) then MintPayload n list (Some z)
                      else MintRefused "Expiry must be a whole number of days between 1 and 3650, or blank for no expiry."
      | _ => MintRefused "Expiry must be a whole number of days between 1 and 3650, or blank for no expiry."
      end.
Inductive CredentialState := StateUnknown | StateRevoked | StateExpired | StateLive.
(** [date_parse]: [None] is NaN, which is never at most anything. *)
Definition credentialState (date_parse : string → option Z) (text_of : js → string) (credential : js) (nowIso : string) : CredentialState :=
  if negb (js_truthy credential) then StateUnknown
  else if js_truthy (js_field credential "revoked_at") then StateRevoked
  else if js_truthy (js_field credential "expires_at") &&
          match date_parse (shown text_of (js_field credential "expires_at")), date_parse nowIso with Some e, Some now => e <=? now | _, _ => false end
  then StateExpired else StateLive.
Definition tokenShapeHint (token : string) : Level * string :=
  if negb (Str.truthy token) then (LevelEmpty, "")
  else if existsb Str.is_space (Str.chars token) then (LevelWarn, "That contains whitespace; a pasted credential usually should not.")
  else if negb (test (RPlus (RSet (either_case hex_char))) token) || negb (length (Str.chars token) =? 64)%nat then
    (LevelWarn, "A minted operator credential is 64 hexadecimal characters. This may still be the shared root credential, which is a different shape.")
  else (LevelOk, "Shape looks like a minted operator credential. Only the server can say whether it is live.").

(** ** Rows of the trail, and refusals *)
Record TrailRow := mkTrailRow { tr_who : js; tr_attributed : bool; tr_what : js; tr_isTenantRead : bool; tr_target : js; tr_detail : string }.
Definition begins (prefix : string) (v : js) : bool := match v with JStr s => starts_with prefix s | _ => false end.
Section trail.
Variable json_parse : string → option js.
Variable text_of : js → string.
(** [JSON.stringify] of an array or an object. *)
Variable stringify : js → string.
Definition detail_value (v : js) : string := match v with JArr _ | JObj _ | JNull => stringify v | v => shown text_of v end.
(** [Object.entries]; of null it throws. *)
Definition entries (v : js) : option (list (string * js)) :=
  match v with
  | JObj l => Some l
  | JArr l => Some (imap (λ i x, (Str.of_int (Z.of_nat i), x)) l)
  | JStr s => Some (imap (λ i c, (Str.of_int (Z.of_nat i), JStr (String c EmptyString))) (Str.chars s))
  | JBool _ | JNum _ => Some []
  | JNull | JUndef => None
  end.
Definition auditRow (row : js) : TrailRow :=
  let detail := match js_field row "detail" with
                | JStr raw =>
                    if negb (Str.truthy raw) then ""
                    else match json_parse raw ≫= entries with
                         | Some l => Str.join "  " ((λ kv, kv.1 +:+ "=" +:+ detail_value kv.2) <$> l)
                         | None => raw
                         end
                | _ => ""
                end in
  mkTrailRow (js_or (js_field row "actor") (JStr "")) (begins "operator:" (js_field row "actor")) (js_or (js_field row "action") (JStr ""))
    (begins "tenant.read." (js_field row "action")) (js_or (js_field row "target") (JStr "")) detail.
Definition ERRORS : list (string * string) :=
  [("unauthorized", "That credential was refused. It may be revoked, expired, or simply wrong.");
   ("insufficient_scope", "Your credential does not hold the scope this action needs.");
   ("root_credential_required", "Only the shared root credential can create or revoke operator credentials."); ("not_found", "Nothing there.")].
Variable inherited : string → option string.
Definition errorCopy (body : js) (status : Z) : string :=
  let filled v := match v with JStr s => Str.truthy s | _ => false end in
  let message := js_field body "message" in
  let error := js_field body "error" in
  if filled message then shown text_of message
  else match (match error with JStr _ => own_or_inherited text_of inherited ERRORS error | _ => None end) with
  | Some text => text
  | None => if filled error then shown text_of error else "The request failed (HTTP " +:+ Str.of_int status +:+ ")."
  end.
End trail.

(** ** The page and the gate *)
(** A path of a table's row is its row's: no other of the same method serves it. *)
Lemma row_found row path : row ∈ ADMIN_REQUIREMENTS → test (pattern_re (ar_pattern row)) path = true → adminRequirement (ar_method row) path = Some (ar_requires row).
Proof.
intros Hin Ht. unfold adminRequirement. rewrite (pairwise_find rows_apart _ _ row); [done|apply table_apart| |done|].
- intros a b Ha Hb Hok Hs. pose proof table_delimited as Hd. rewrite forallb_forall in Hd. unfold row_serves, rows_apart in *. bool_hyps.
  destruct (String.eqb_spec (ar_method b) (ar_method row)) as [Hm|]; [|done]. cbn.
  apply (apart_sound (ar_pattern a)); [apply Hd; by apply list_elem_of_In|apply Hd; by apply list_elem_of_In| |done].
  apply orb_true_iff in Hok as [Hok|Hok]; [|done]. bool_hyps. congruence.
- unfold row_serves. by rewrite String.eqb_refl.
Qed.
Lemma pattern_cons p ps s t : test (piece_re p) s = true → test (pattern_re ps) t = true → test (pattern_re (p :: ps)) (s +:+ t) = true.
Proof.
unfold test. rewrite !rmatch_spec. intros Hs Ht. rewrite chars_append. apply lang_cat_inv. by exists (Str.chars s), (Str.chars t).
Qed.
Lemma text_matches s : test (piece_re (PText s)) s = true.
Proof. unfold test. rewrite rmatch_spec. by apply lang_text. Qed.
Lemma whole_pattern p s : test (piece_re p) s = true → test (pattern_re [p]) s = true.
Proof.
unfold test. rewrite !rmatch_spec. intros Hs. apply lang_cat_inv. exists (Str.chars s), []. rewrite app_nil_r. split_and!; [done|done|constructor].
Qed.
(** A path of a tenant's row, whatever the id. *)
Lemma tenant_row method last req id s :
  mkAdminRow method (of_tenant [PText "/"; last]) req ∈ ADMIN_REQUIREMENTS → test (piece_re TEN) id = true → test (piece_re last) s = true →
  adminRequirement method ("/api/admin/tenants/" +:+ id +:+ ("/" +:+ s)) = Some req.
Proof.
intros Hin Hid Hs. apply (row_found _ _ Hin). change ("/api/admin/tenants/" +:+ id +:+ ("/" +:+ s)) with ("/api/admin/" +:+ ("tenants/" +:+ (id +:+ ("/" +:+ s)))).
unfold of_tenant, at_. repeat (apply pattern_cons; [first [apply text_matches|assumption]|]). by apply whole_pattern.
Qed.
Lemma tenant_row_text method verb req id :
  mkAdminRow method (of_tenant [PText verb]) req ∈ ADMIN_REQUIREMENTS → test (piece_re TEN) id = true →
  adminRequirement method ("/api/admin/tenants/" +:+ id +:+ verb) = Some req.
Proof.
intros Hin Hid. apply (row_found _ _ Hin). change ("/api/admin/tenants/" +:+ id +:+ verb) with ("/api/admin/" +:+ ("tenants/" +:+ (id +:+ verb))).
unfold of_tenant, at_. repeat (apply pattern_cons; [first [apply text_matches|assumption]|]). apply whole_pattern, text_matches.
Qed.
Definition action_requirement (a : TenantAction) : string := if (ta_id a =s? "suspend") || (ta_id a =s? "resume") then "tenants:write" else "tenants:read".
Ltac in_table := repeat (first [by left|right]).
Lemma action_required a id : a ∈ TENANT_ACTIONS → test (piece_re TEN) id = true →
  adminRequirement (ta_method a) (actionPath a id) = Some (NeedsScope (action_requirement a)).
Proof.
intros Ha Hid. unfold TENANT_ACTIONS in Ha. repeat (apply elem_of_cons in Ha as [->|Ha]); [..|by apply elem_of_nil in Ha]; cbn [ta_method ta_path actionPath].
- change (actionPath _ id) with ("/api/admin/tenants/" +:+ id +:+ ("/" +:+ "suspend")). apply (tenant_row _ (PEither "suspend" "resume")); [in_table|done|reflexivity].
- change (actionPath _ id) with ("/api/admin/tenants/" +:+ id +:+ ("/" +:+ "resume")). apply (tenant_row _ (PEither "suspend" "resume")); [in_table|done|reflexivity].
- apply tenant_row_text; [in_table|done].
- vm_compute. reflexivity.
Qed.

Section served.
Variable new_RegExp : string → option (string → bool).
(** A pattern made anew from the source it was served as is that pattern. *)
Hypothesis sources_are_patterns : ∀ row, row ∈ ADMIN_REQUIREMENTS →
  ∃ re, new_RegExp (pattern_source (ar_pattern row)) = Some re ∧ ∀ path, re path = test (pattern_re (ar_pattern row)) path.
Context (summary : string → string) (p : OperatorPrincipal) (who : js).
Hypothesis served : hr_body (whoami summary p) = Some who.

Lemma served_rows : js_elements (js_field who "requirements") = requirement_js <$> ADMIN_REQUIREMENTS.
Proof. by injection served as <-. Qed.
Lemma served_scopes : js_elements (js_field who "scopes") = JStr <$> pr_scopes p.
Proof. by injection served as <-. Qed.
Lemma served_truthy : js_truthy who = true.
Proof. by injection served as <-. Qed.
Lemma served_root : isRoot who = bool_decide (pr_kind p = PRoot).
Proof. injection served as <-. by destruct p as [[] ? ? ? ?]. Qed.
Lemma served_can s : canDo who (JStr s) = hasScope p s.
Proof. unfold canDo, hasScope, mem. rewrite served_scopes. by induction (pr_scopes p) as [|x l IH]; [|cbn; f_equal]. Qed.
Lemma find_served method path : List.find (row_matches new_RegExp method path) (requirement_js <$> ADMIN_REQUIREMENTS) =
  requirement_js <$> List.find (row_serves method path) ADMIN_REQUIREMENTS.
Proof.
assert (∀ rows, (∀ row, row ∈ rows → row ∈ ADMIN_REQUIREMENTS) → List.find (row_matches new_RegExp method path) (requirement_js <$> rows) =
  requirement_js <$> List.find (row_serves method path) rows) as H; [|by apply H].
induction rows as [|row rows IH]; intros Hrows; [done|]. rewrite fmap_cons. cbn [List.find].
assert (row_matches new_RegExp method path (requirement_js row) = row_serves method path row) as ->.
{ destruct (sources_are_patterns row) as (re & Hre & Heq); [apply Hrows; by left|]. unfold row_matches, row_serves. cbn -[pattern_source]. by rewrite Hre, Heq. }
destruct (row_serves method path row); [done|]. apply IH. intros r Hr. apply Hrows. by right.
Qed.
Lemma can_call_authorized method path : canCall new_RegExp who method path = true ↔ authorize method path p = AdmittedAs p.
Proof.
unfold canCall, requirementFor. rewrite served_rows, find_served. unfold authorize, adminRequirement.
destruct (List.find (row_serves method path) ADMIN_REQUIREMENTS) as [row|] eqn:E; [|by split].
apply find_Some_elem in E as [Hin _]. cbn [fmap option_fmap option_map js_field field_of requirement_js String.eqb Ascii.eqb Bool.eqb].
assert (forallb (λ r, match ar_requires r with NeedsScope s => negb (s =s? "authenticated") && negb (s =s? "root") | _ => true end) ADMIN_REQUIREMENTS = true) as Hall by (vm_compute; reflexivity).
rewrite forallb_forall in Hall. specialize (Hall row (proj1 (list_elem_of_In _ _) Hin)). cbn [is_text]. destruct (ar_requires row) as [s| |]; cbn [requirement_text].
- bool_hyps. destruct (String.eqb_spec s "authenticated"); [done|]. destruct (String.eqb_spec s "root"); [done|]. rewrite served_can. by destruct (hasScope p s).
- cbn. rewrite served_truthy. done.
- cbn. rewrite served_root. by destruct (bool_decide (pr_kind p = PRoot)).
Qed.

(** C23. The console offers what the gate would admit.  To whoever the plane says they are, the page lets
    an operator call exactly the routes the gate would let them through on, on every method and path; an
    action on a tenant is offered exactly when the gate would admit it for a tenant of any id, though the
    page asks with an id no tenant has; and the shared root credential is offered the management of
    credentials and nothing else, though the gate would admit it anywhere. *)
Theorem console_offers_what_the_gate_admits :
  (∀ method path, canCall new_RegExp who method path = true ↔ authorize method path p = AdmittedAs p) ∧
  (∀ a id, a ∈ TENANT_ACTIONS → test (piece_re TEN) id = true → (a ∈ tenantActions new_RegExp who ↔ authorize (ta_method a) (actionPath a id) p = AdmittedAs p)) ∧
  (pr_kind p = PRoot → sectionsFor new_RegExp who = mkSections true false false false true true).
Proof.
split; [exact can_call_authorized|split].
- intros a id Ha Hid. unfold tenantActions. rewrite elem_of_jfilter. assert (test (piece_re TEN) PROBE_TENANT = true) as Hp by (vm_compute; reflexivity).
  rewrite can_call_authorized. unfold authorize. rewrite !action_required by done. tauto.
- intros Hr. unfold sectionsFor. rewrite served_truthy, served_root, (bool_decide_eq_true_2 _ Hr). cbn [negb andb].
  assert (canCall new_RegExp who "POST" "/api/admin/operators" = true) as ->; [|done]. apply can_call_authorized. unfold authorize.
  assert (adminRequirement "POST" "/api/admin/operators" = Some NeedsRoot) as -> by (vm_compute; reflexivity). by rewrite (bool_decide_eq_true_2 _ Hr).
Qed.
End served.

(** What the mint form sends, the plane takes: the page's rules are the plane's. *)
Lemma mint_form_is_taken number name scopes days n l d :
  mintPayload number name scopes days = MintPayload n l d → (∀ v, v ∈ scopes → known_scope_value v = true) →
  isValidOperatorName (JStr n) = true ∧ (∃ held, canonicaliseScopes (JArr l) = ScopesOk held) ∧ expiry_days (match d with Some z => JNum (Num.NInt z) | None => JUndef end) = Some d.
Proof.
unfold mintPayload. destruct (test NAME_RE (Str.trim name)) eqn:Hn; cbn [negb]; [|done]. destruct (length (jfilter js_truthy scopes) =? 0)%nat eqn:Hl; [done|].
intros Hm Hk. assert (n = Str.trim name ∧ l = jfilter js_truthy scopes ∧ expiry_days (match d with Some z => JNum (Num.NInt z) | None => JUndef end) = Some d) as (-> & -> & Hd).
{ destruct (Str.truthy (Str.trim days)); cbn [negb] in Hm; [|by injection Hm as <- <- <-]. destruct (number (Str.trim days)) as [z| | |]; try done.
  destruct (Num.is_safe z && (0 <? z) && (z <=? 3650)) eqn:Hz; [|done]. injection Hm as <- <- <-. split_and!; [done..|]. cbn. by rewrite Hz. }
split; [done|]. split; [|done]. unfold canonicaliseScopes. destruct (jfilter js_truthy scopes) as [|v rest] eqn:E; [done|].
assert (jfilter (λ s, negb (known_scope_value s)) (v :: rest) = []) as ->; [|by eexists]. apply jfilter_nil_iff. intros x Hx. rewrite Hk; [done|].
rewrite <- E in Hx. by apply elem_of_jfilter in Hx as [? _].
Qed.
