(* ===== verification/WizardPage.v ===== *)
(** * The setup wizard as the customer meets it (public/onboarding.js)

    The page is one state and the events that befall it: a key pressed, a box ticked, a button clicked,
    a timer, and the plane's answers, which come when they come.  Each handler is a case of [react],
    with the requests it sends.  An event that the screen does not offer (a box of a hidden step, an
    answer nobody waits for) is [None].  A button's [disabled] mark repeats what [canAdvance] said when
    it was last asked; the handler asks again, and only that is modelled.  What is merely painted is left
    out.  The second half holds the page against the routes it calls: the name it takes and the name the
    plane takes, the go-live it announces and the go-live that happened, the build it shows and the job
    the plane keeps, and where it sends an arrival. *)

From S2P Require Export WizardChecks TenantRoutes.
From S2P Require Import OnboardingPolicy.
From Stdlib Require Import Ascii.
Open Scope string_scope.
Open Scope list_scope.
Open Scope Z_scope.
Open Scope plane_scope.

(** ** The page *)
(** The pause after a key press, the names whose availability is being asked (oldest first), and whether
    the box that admits the destruction is shown. *)
Record SlugCheck := mkSlugCheck { sk_timer : bool; sk_flight : list string; sk_ackShown : bool }.
(** Whether the policy may be ticked, the version it is shown under, and acceptances on their way. *)
Record PolicyGate := mkPolicyGate { pg_boxEnabled : bool; pg_version : string; pg_accepting : nat }.
(** Builds and go-lives the page waits for, and whether [/api/me] was read at the start. *)
Record Errands := mkErrands { er_building : nat; er_goingLive : nat; er_resumed : bool }.
Record Page := mkPage { pa_step : string; pa_wizard : WizardState; pa_check : SlugCheck; pa_policy : PolicyGate; pa_errands : Errands }.

Definition show (step : string) (p : Page) : Page := mkPage step (pa_wizard p) (pa_check p) (pa_policy p) (pa_errands p).
Definition with_wizard (f : WizardState → WizardState) (p : Page) : Page := mkPage (pa_step p) (f (pa_wizard p)) (pa_check p) (pa_policy p) (pa_errands p).
Definition with_check (f : SlugCheck → SlugCheck) (p : Page) : Page := mkPage (pa_step p) (pa_wizard p) (f (pa_check p)) (pa_policy p) (pa_errands p).
Definition with_policy (f : PolicyGate → PolicyGate) (p : Page) : Page := mkPage (pa_step p) (pa_wizard p) (pa_check p) (f (pa_policy p)) (pa_errands p).
Definition with_errands (f : Errands → Errands) (p : Page) : Page := mkPage (pa_step p) (pa_wizard p) (pa_check p) (pa_policy p) (f (pa_errands p)).
Definition set_rules (b : bool) (w : WizardState) : WizardState :=
  mkWizard b (wz_confirmed w) (wz_invokeVerified w) (wz_slug w) (wz_slugValid w) (wz_slugAvailable w) (wz_slugReclaimable w) (wz_slugReclaimConfirmedFor w).
Definition set_confirmed (b : bool) (w : WizardState) : WizardState :=
  mkWizard (wz_rulesAccepted w) b (wz_invokeVerified w) (wz_slug w) (wz_slugValid w) (wz_slugAvailable w) (wz_slugReclaimable w) (wz_slugReclaimConfirmedFor w).
Definition set_verified (b : bool) (w : WizardState) : WizardState :=
  mkWizard (wz_rulesAccepted w) (wz_confirmed w) b (wz_slug w) (wz_slugValid w) (wz_slugAvailable w) (wz_slugReclaimable w) (wz_slugReclaimConfirmedFor w).
Definition set_typed (slug : string) (valid : bool) (w : WizardState) : WizardState :=
  mkWizard (wz_rulesAccepted w) (wz_confirmed w) (wz_invokeVerified w) slug valid false (wz_slugReclaimable w) (wz_slugReclaimConfirmedFor w).
Definition set_reclaim (available reclaimable : bool) (w : WizardState) : WizardState :=
  mkWizard (wz_rulesAccepted w) (wz_confirmed w) (wz_invokeVerified w) (wz_slug w) (wz_slugValid w) available reclaimable (wz_slugReclaimConfirmedFor w).
Definition set_consent (reclaimable : bool) (confirmed : option string) (w : WizardState) : WizardState :=
  mkWizard (wz_rulesAccepted w) (wz_confirmed w) (wz_invokeVerified w) (wz_slug w) (wz_slugValid w) (wz_slugAvailable w) reclaimable confirmed.

Definition start_page : Page :=
  mkPage "what" (mkWizard false false false "" false false false None) (mkSlugCheck false [] false) (mkPolicyGate true "" 0) (mkErrands 0 0 false).

(** ** What befalls it *)
Inductive AcceptOutcome := AcceptRecorded | AcceptStale | AcceptRefused.
Inductive PageEvent :=
| PolicyAnswered (aup : js)
| RulesTicked (b : bool)
| ConfirmTicked (b : bool)
| AckTicked (b : bool)
| Typed (value : string)
| TimerFired
| SlugAnswered (n : nat) (res : option js)
| Continued
| AcceptAnswered (outcome : AcceptOutcome)
| WentBack
| Resumed (me : option js)
| Built (tenant : option js)
| GoLiveClicked
| GoLiveAnswered (answer : option (Z * js)).
(** [AskAccept None] sends the version as null. *)
Inductive PageRequest := AskSlug (slug : string) | AskAccept (version : option string) | AskProvision (slug : string) | AskGoLive | AskPolicy.

Section page.
Variable text_of : js → string.
Variable inherited : string → option string.

(** [loadAup], answered: null when the policy could not be read. *)
Definition policy_closed (aup : js) : bool :=
  negb (js_truthy aup) || match aupUrlPinning (js_field aup "url") with PinMissing | PinMoving _ => true | _ => false end.
Definition policy_answered (aup : js) (p : Page) : Page :=
  if policy_closed aup then with_policy (λ g, mkPolicyGate false (pg_version g) (pg_accepting g)) (with_wizard (set_rules false) p)
  else with_policy (λ g, mkPolicyGate true (shown text_of (js_or (js_field aup "version") (JStr ""))) (pg_accepting g)) p.
(** [onSlugInput] *)
Definition typed (value : string) (p : Page) : Page :=
  let hint := slugHint (JStr value) in
  with_check (λ c, mkSlugCheck (hint_valid hint) (sk_flight c) (sk_ackShown c))
    (with_wizard (set_typed (Str.to_lower (Str.trim value)) (hint_valid hint)) p).
(** [checkSlug], up to its request, and from its answer. *)
Definition check_slug (p : Page) : Page :=
  with_check (λ c, mkSlugCheck false (sk_flight c ++ [wz_slug (pa_wizard p)]) false) (with_wizard (set_consent false None) p).
Definition slug_answered (n : nat) (res : option js) (p : Page) : Page :=
  let arrived := with_check (λ c, mkSlugCheck (sk_timer c) (delete n (sk_flight c)) (sk_ackShown c)) p in
  match res with
  | Some res =>
      if is_nullish res then with_wizard (λ w, set_reclaim false (wz_slugReclaimable w) w) arrived
      else
        let available := is_true (js_field res "available") in
        with_check (λ c, mkSlugCheck (sk_timer c) (sk_flight c)
            (match slv_state (slugVerdict text_of res (wz_slug (pa_wizard p))) with SlugReclaim => true | _ => false end))
          (with_wizard (set_reclaim available (available && is_true (js_field res "reclaimable"))) arrived)
  | None => with_wizard (λ w, set_reclaim false (wz_slugReclaimable w) w) arrived
  end.
Definition next_step (from : string) : option string := fst <$> nth_error STEPS (Z.to_nat (stepIndex from + 1)).
Definition previous_step (from : string) : option string :=
  if stepIndex from - 1 <? 0 then None else fst <$> nth_error STEPS (Z.to_nat (stepIndex from - 1)).
(** What a [data-next] button does once nothing holds it back. *)
Definition advance (from : string) (p : Page) : Page * list PageRequest :=
  match next_step from with
  | None => (p, [])
  | Some next =>
      if next =s? "build" then (with_errands (λ e, mkErrands (S (er_building e)) (er_goingLive e) (er_resumed e)) (show next p), [AskProvision (wz_slug (pa_wizard p))])
      else (show next p, [])
  end.
Definition continued (p : Page) : Page * list PageRequest :=
  let from := pa_step p in
  if negb (from =s? "what") && negb (canAdvance from (pa_wizard p)) then (p, [])
  else if from =s? "rules" then
    let version := pg_version (pa_policy p) in
    (with_policy (λ g, mkPolicyGate (pg_boxEnabled g) (pg_version g) (S (pg_accepting g))) p, [AskAccept (if Str.truthy version then Some version else None)])
  else advance from p.
Definition accept_answered (outcome : AcceptOutcome) (p : Page) : Page * list PageRequest :=
  let arrived := with_policy (λ g, mkPolicyGate (pg_boxEnabled g) (pg_version g) (pg_accepting g - 1)) p in
  match outcome with
  | AcceptRecorded => advance "rules" arrived
  | AcceptStale => (with_wizard (set_rules false) arrived, [AskPolicy])
  | AcceptRefused => (arrived, [])
  end.
(** [resumeFromAccount] *)
Definition resume_at (me : option js) (p : Page) : Page :=
  let p := with_errands (λ e, mkErrands (er_building e) (er_goingLive e) true) p in
  match me with
  | None => p
  | Some me => match (resumeStep me).1 with Some s => if s =s? "what" then p else show s p | None => show "not-in-setup" p end
  end.
(** The end of [runProvision]: the tenant as [/api/me] gives it after a job that succeeded. *)
Definition awaits_go_live (tenant : js) : bool :=
  is_text "awaiting_go_live" (js_field tenant "status") || is_text "awaiting_invoke_key" (js_field tenant "status").
Definition built (tenant : option js) (p : Page) : Page :=
  let p := with_errands (λ e, mkErrands (er_building e - 1) (er_goingLive e) (er_resumed e)) p in
  match tenant with
  | None => p
  | Some t => if awaits_go_live t then show "go-live" p else if is_text "live" (js_field t "status") then show "done" p else p
  end.
(** [runGoLive]: a request that got no answer at all tells nothing. *)
Definition go_live_answered (answer : option (Z * js)) (p : Page) : Page :=
  let p := with_errands (λ e, mkErrands (er_building e) (er_goingLive e - 1) (er_resumed e)) p in
  let live := match answer with Some (status, body) => ivk_live (invokeKeyVerdict text_of inherited status body) | None => false end in
  let p := with_wizard (set_verified live) p in
  if live then show "done" p else p.

Definition on_step (s : string) (p : Page) : bool := pa_step p =s? s.
Definition react (p : Page) (e : PageEvent) : option (Page * list PageRequest) :=
  match e with
  | PolicyAnswered aup => Some (policy_answered aup p, [])
  | RulesTicked b => if on_step "rules" p && pg_boxEnabled (pa_policy p) then Some (with_wizard (set_rules b) p, []) else None
  | ConfirmTicked b => if on_step "review" p then Some (with_wizard (set_confirmed b) p, []) else None
  | AckTicked b =>
      if on_step "name" p && sk_ackShown (pa_check p)
      then Some (with_wizard (λ w, set_consent (wz_slugReclaimable w) (if b then Some (wz_slug w) else None) w) p, []) else None
  | Typed value => if on_step "name" p then Some (typed value p, []) else None
  | TimerFired => if sk_timer (pa_check p) then Some (check_slug p, [AskSlug (wz_slug (pa_wizard p))]) else None
  | SlugAnswered n res => if (n <? length (sk_flight (pa_check p)))%nat then Some (slug_answered n res p, []) else None
  | Continued => if existsb (λ s, on_step s p) ["what"; "rules"; "name"; "review"] then Some (continued p) else None
  | AcceptAnswered outcome => if (0 <? pg_accepting (pa_policy p))%nat then Some (accept_answered outcome p) else None
  | WentBack =>
      if existsb (λ s, on_step s p) ["rules"; "name"; "review"]
      then Some (match previous_step (pa_step p) with Some s => show s p | None => p end, []) else None
  | Resumed me => if er_resumed (pa_errands p) then None else Some (resume_at me p, [])
  | Built tenant => if (0 <? er_building (pa_errands p))%nat then Some (built tenant p, []) else None
  | GoLiveClicked =>
      if on_step "go-live" p
      then Some (with_errands (λ e, mkErrands (er_building e) (S (er_goingLive e)) (er_resumed e)) (with_wizard (set_verified false) p), [AskGoLive]) else None
  | GoLiveAnswered answer => if (0 <? er_goingLive (pa_errands p))%nat then Some (go_live_answered answer p, []) else None
  end.
(** A history, newest event first. *)
Fixpoint page_after (h : list PageEvent) : option Page :=
  match h with [] => Some start_page | e :: h => page_after h ≫= λ p, fst <$> react p e end.

(** ** Names and consent *)
(** The plane's answer to a name, from its own judgement of it. *)
Definition claim_answer (claim : SlugClaim) : js :=
  match claim with
  | Available reclaim => JObj [("available", JBool true); ("reclaimable", JBool match reclaim with Some _ => true | None => false end)]
  | Unavailable reason => JObj [("available", JBool false); ("reason", JStr reason)]
  end.
(** Since the last key press: was the name asked about, what was answered, is the box ticked? *)
Fixpoint fired (h : list PageEvent) : bool := match h with TimerFired :: _ => true | Typed _ :: _ => false | _ :: h => fired h | [] => false end.
Fixpoint told (h : list PageEvent) : option js :=
  match h with
  | SlugAnswered _ res :: _ => match res with Some v => if is_nullish v then None else Some v | None => None end
  | Typed _ :: _ | TimerFired :: _ => None
  | _ :: h => told h
  | [] => None
  end.
Fixpoint ticked (h : list PageEvent) : bool :=
  match h with AckTicked b :: _ => b | Typed _ :: _ | TimerFired :: _ => false | _ :: h => ticked h | [] => false end.
(** An answer that comes while its name still stands in the field, with no question pending. *)
Definition timely (p : Page) (e : PageEvent) : Prop :=
  match e with
  | SlugAnswered n _ => sk_timer (pa_check p) = false ∧ sk_flight (pa_check p) !! n = Some (wz_slug (pa_wizard p))
  | _ => True
  end.
Fixpoint timely_history (h : list PageEvent) : Prop :=
  match h with [] => True | e :: h => timely_history h ∧ ∀ p, page_after h = Some p → timely p e end.
(** The plane said the name may be taken, and where taking it destroys a studio, the box was ticked for it. *)
Definition consented (h : list PageEvent) : Prop :=
  ∃ res, told h = Some res ∧ is_true (js_field res "available") = true ∧ (is_true (js_field res "reclaimable") = true → ticked h = true).
(** The name step was left with this name. *)
Definition passed (h : list PageEvent) (slug : string) : Prop :=
  ∃ later earlier p, h = later ++ Continued :: earlier ∧ page_after earlier = Some p ∧ pa_step p = "name" ∧ wz_slug (pa_wizard p) = slug ∧ consented earlier.

Record page_inv (h : list PageEvent) (p : Page) : Prop := {
  pi_armed : sk_timer (pa_check p) = true → wz_slugAvailable (pa_wizard p) = false;
  pi_asked : wz_slugValid (pa_wizard p) = true → sk_timer (pa_check p) = true ∨ fired h = true;
  pi_consent : fired h = true → wz_slugReclaimConfirmedFor (pa_wizard p) = if ticked h then Some (wz_slug (pa_wizard p)) else None;
  pi_told : wz_slugAvailable (pa_wizard p) = true → wz_slugValid (pa_wizard p) = true →
    ∃ res, told h = Some res ∧ is_true (js_field res "available") = true ∧ wz_slugReclaimable (pa_wizard p) = is_true (js_field res "reclaimable");
  pi_passed : pa_step p = "review" → passed h (wz_slug (pa_wizard p));
}.

Lemma passed_later e h slug : passed h slug → passed (e :: h) slug.
Proof. intros (l & x & p & -> & H). by exists (e :: l), x, p. Qed.
Lemma gate_consents h p : page_inv h p → canAdvance "name" (pa_wizard p) = true → consented h.
Proof.
intros [A B C D _]. unfold canAdvance. cbn. destruct (wz_slugValid (pa_wizard p)) eqn:Hv; [|done]. destruct (wz_slugAvailable (pa_wizard p)) eqn:Ha; [|done].
cbn. destruct (D eq_refl eq_refl) as (res & Ht & Hav & Hr). exists res. split_and!; [done|done|]. intros Hre. rewrite Hr, Hre in *. cbn in *. bool_hyps.
destruct (B eq_refl) as [Hb|Hf]; [by discriminate (A Hb)|]. specialize (C Hf). destruct (ticked h); [done|]. congruence.
Qed.
(** Events that touch neither the name nor its check. *)
Definition same_name (p q : Page) : Prop :=
  pa_check q = pa_check p ∧ wz_slug (pa_wizard q) = wz_slug (pa_wizard p) ∧ wz_slugValid (pa_wizard q) = wz_slugValid (pa_wizard p) ∧
  wz_slugAvailable (pa_wizard q) = wz_slugAvailable (pa_wizard p) ∧ wz_slugReclaimable (pa_wizard q) = wz_slugReclaimable (pa_wizard p) ∧
  wz_slugReclaimConfirmedFor (pa_wizard q) = wz_slugReclaimConfirmedFor (pa_wizard p).
Definition about_names (e : PageEvent) : bool := match e with AckTicked _ | Typed _ | TimerFired | SlugAnswered _ _ => true | _ => false end.
Lemma inv_elsewhere e h p q : about_names e = false → page_inv h p → same_name p q →
  (pa_step q = "review" → pa_step p = "review" ∨ e = Continued ∧ pa_step p = "name" ∧ consented h ∧ page_after h = Some p) → page_inv (e :: h) q.
Proof.
intros He [A B C D E] (Hc & Hs & Hv & Ha & Hr & Hf) Hstep.
assert (fired (e :: h) = fired h ∧ told (e :: h) = told h ∧ ticked (e :: h) = ticked h) as (Ef & Et & Ek) by (by destruct e).
split; rewrite ?Hc, ?Hs, ?Hv, ?Ha, ?Hr, ?Hf, ?Ef, ?Et, ?Ek; [done..|].
intros Hq. destruct (Hstep Hq) as [Hp|(-> & Hp & Hco & Hpa)]; [by apply passed_later, E|]. by exists [], h, p.
Qed.
Lemma next_is_review from : next_step from = Some "review" → from = "name".
Proof.
unfold next_step, stepIndex, STEPS. cbn [step_from].
repeat match goal with |- context [String.eqb ?a from] => destruct (String.eqb_spec a from) as [<-|]; [vm_compute; done|] end. vm_compute. done.
Qed.
Lemma next_is_build from : next_step from = Some "build" → from = "review".
Proof.
unfold next_step, stepIndex, STEPS. cbn [step_from].
repeat match goal with |- context [String.eqb ?a from] => destruct (String.eqb_spec a from) as [<-|]; [vm_compute; done|] end. vm_compute. done.
Qed.
Lemma advance_same from p : same_name p (advance from p).1 ∧ (pa_step (advance from p).1 = "review" → pa_step p = "review" ∨ from = "name").
Proof.
unfold advance. destruct (next_step from) as [n|] eqn:E; [|by split; [|left]]. split; [by destruct (n =s? "build")|].
destruct (String.eqb_spec n "build") as [->|Hn]; [done|]. cbn [fst pa_step show]. intros ->. right. by apply next_is_review.
Qed.
Lemma same_refl p : same_name p p.
Proof. by split_and!. Qed.
Hint Resolve same_refl : core.

Lemma inv_typed value h p : page_inv h p → pa_step p = "name" → page_inv (Typed value :: h) (typed value p).
Proof.
intros _ Hs. split; cbn; [done| |done|done|]; [by left|]. rewrite Hs. done.
Qed.
Lemma inv_fired h p : page_inv h p → sk_timer (pa_check p) = true → page_inv (TimerFired :: h) (check_slug p).
Proof.
intros [A B C D E] Ht. split; cbn; [done|by right|done| |]; [by rewrite (A Ht)|]. intros Hs. by apply passed_later, E.
Qed.
Lemma inv_answered n res h p : page_inv h p → sk_timer (pa_check p) = false → page_inv (SlugAnswered n res :: h) (slug_answered n res p).
Proof.
intros [A B C D E] Ht.
assert (∀ q, pa_step q = pa_step p → sk_timer (pa_check q) = false → wz_slug (pa_wizard q) = wz_slug (pa_wizard p) →
  wz_slugValid (pa_wizard q) = wz_slugValid (pa_wizard p) → wz_slugReclaimConfirmedFor (pa_wizard q) = wz_slugReclaimConfirmedFor (pa_wizard p) →
  (wz_slugAvailable (pa_wizard q) = true → ∃ v, res = Some v ∧ is_nullish v = false ∧ is_true (js_field v "available") = true ∧
     wz_slugReclaimable (pa_wizard q) = is_true (js_field v "reclaimable")) → page_inv (SlugAnswered n res :: h) q) as H.
{ intros q Hst Hq Hs Hv Hc Ha. split; rewrite ?Hq, ?Hs, ?Hv, ?Hc, ?Hst; cbn; [done| |done| |].
  - intros Hval. right. destruct (B Hval) as [Hb|Hb]; [congruence|done].
  - intros Hav _. destruct (Ha Hav) as (v & -> & Hn & Hva & Hr). exists v. by rewrite Hn.
  - intros Hp. by apply passed_later, E. }
unfold slug_answered. destruct res as [v|]; [destruct (is_nullish v) eqn:Hn|]; apply H; try done.
cbn. intros Hav. exists v. by rewrite Hav.
Qed.
Lemma inv_ack b h p : page_inv h p → page_inv (AckTicked b :: h) (with_wizard (λ w, set_consent (wz_slugReclaimable w) (if b then Some (wz_slug w) else None) w) p).
Proof. intros [A B C D E]. split; cbn; [done|done|by destruct b|done|]. intros Hs. by apply passed_later, E. Qed.

(** What the remaining handlers change is neither the name nor, unless a name was consented to, the step. *)
Ltac elsewhere p := eapply (inv_elsewhere _ _ p); [reflexivity|eassumption|by split_and!|cbn; intros Hs; try (left; exact Hs); try discriminate].
Lemma continued_inv h p : page_after h = Some p → page_inv h p → page_inv (Continued :: h) (continued p).1.
Proof.
intros Hp Hi. unfold continued. destruct (negb (pa_step p =s? "what") && negb (canAdvance (pa_step p) (pa_wizard p))) eqn:Hg; [by elsewhere p|].
destruct (pa_step p =s? "rules"); [by elsewhere p|]. destruct (advance_same (pa_step p) p) as [Hsame Hstep].
eapply (inv_elsewhere _ _ p); [reflexivity|done|done|]. intros Hr. destruct (Hstep Hr) as [?|Hn]; [by left|right]. rewrite Hn in Hg.
split_and!; [done|done| |done]. cbn in Hg. apply negb_false_iff in Hg. by eapply gate_consents.
Qed.
Lemma accept_inv outcome h p : page_inv h p → page_inv (AcceptAnswered outcome :: h) (accept_answered outcome p).1.
Proof. intros Hi. destruct outcome; by elsewhere p. Qed.
Lemma resume_step_shows me s : (resumeStep me).1 = Some s → s ≠ "review".
Proof. unfold resumeStep. intros H. repeat case_match; by simplify_eq/=. Qed.
Lemma resume_at_inv me h p : page_inv h p → page_inv (Resumed me :: h) (resume_at me p).
Proof.
intros Hi. unfold resume_at. destruct me as [me|]; [|by elsewhere p]. destruct (resumeStep me).1 as [s|] eqn:E; [|by elsewhere p].
apply resume_step_shows in E. destruct (s =s? "what"); elsewhere p. done.
Qed.
Lemma policy_inv aup h p : page_inv h p → page_inv (PolicyAnswered aup :: h) (policy_answered aup p).
Proof. intros Hi. unfold policy_answered. destruct (policy_closed aup); by elsewhere p. Qed.
Lemma built_inv tenant h p : page_inv h p → page_inv (Built tenant :: h) (built tenant p).
Proof. intros Hi. unfold built. repeat case_match; by elsewhere p. Qed.
Lemma go_live_inv answer h p : page_inv h p → page_inv (GoLiveAnswered answer :: h) (go_live_answered answer p).
Proof. intros Hi. unfold go_live_answered. case_match; by elsewhere p. Qed.
Lemma back_inv h p q rs : page_inv h p → react p WentBack = Some (q, rs) → page_inv (WentBack :: h) q.
Proof.
intros Hi. cbn [react existsb]. unfold on_step. destruct (String.eqb_spec (pa_step p) "rules") as [->|]; [intros [= <- <-]; by elsewhere p|].
destruct (String.eqb_spec (pa_step p) "name") as [->|]; [intros [= <- <-]; by elsewhere p|].
destruct (String.eqb_spec (pa_step p) "review") as [->|]; [intros [= <- <-]; by elsewhere p|done].
Qed.
Lemma react_inv e h p q rs : page_after h = Some p → page_inv h p → timely p e → react p e = Some (q, rs) → page_inv (e :: h) q.
Proof.
intros Hp Hi Ht He. destruct e; try by eapply back_inv.
all: cbn [react] in He; repeat ((case_match; [|discriminate He]) || case_match); simplify_eq; bool_hyps.
all: try (by apply policy_inv); try (by apply inv_ack); try (by apply inv_fired); try (by apply resume_at_inv); try (by apply built_inv); try (by apply go_live_inv).
all: try (by elsewhere p).
- apply inv_typed; [done|]. by apply String.eqb_eq.
- apply inv_answered; [done|]. by destruct Ht.
- match goal with E : continued p = _ |- _ => pose proof (continued_inv h p Hp Hi) as Hc; by rewrite E in Hc end.
- match goal with E : accept_answered _ p = _ |- _ => pose proof (accept_inv outcome h p Hi) as Hc; by rewrite E in Hc end.
Qed.
Lemma history_inv h p : timely_history h → page_after h = Some p → page_inv h p.
Proof.
revert p. induction h as [|e h IH]; cbn; intros q Ht Hq.
- injection Hq as <-. by split.
- destruct Ht as [Hh Ht]. destruct (page_after h) as [p|] eqn:Hp; [|done]. cbn in Hq.
  destruct (react p e) as [[q' rs]|] eqn:He; [|done]. injection Hq as <-. eapply react_inv; [done|by apply IH|by apply Ht|done].
Qed.
Lemma provision_asked p e q rs slug : react p e = Some (q, rs) → AskProvision slug ∈ rs → e = Continued ∧ pa_step p = "review" ∧ slug = wz_slug (pa_wizard p).
Proof.
intros He Hin. assert (∀ from, AskProvision slug ∈ (advance from p).2 → next_step from = Some "build" ∧ slug = wz_slug (pa_wizard p)) as Hadv.
{ intros from. unfold advance. destruct (next_step from) as [n|]; [|by intros ?%elem_of_nil]. destruct (String.eqb_spec n "build") as [->|].
  - by intros [= ->]%list_elem_of_singleton.
  - by intros ?%elem_of_nil. }
destruct e; cbn [react] in He; repeat ((case_match; [|discriminate He]) || case_match); simplify_eq; try (by apply elem_of_nil in Hin); try (by apply list_elem_of_singleton in Hin).
- split; [done|]. revert Hin. match goal with E : continued p = _ |- _ => revert E end. unfold continued.
  destruct (_ && _); [by intros [= <- <-] ?%elem_of_nil|]. destruct (pa_step p =s? "rules"); [by intros [= <- <-] ?%list_elem_of_singleton|].
  intros E Hin. destruct (Hadv (pa_step p)) as [Hn ->]; [by rewrite E|]. split; [|done]. by apply next_is_build.
- exfalso. revert Hin. match goal with E : accept_answered _ p = _ |- _ => revert E end. unfold accept_answered. destruct outcome.
  + cbn. intros [= <- <-] ?%elem_of_nil. done.
  + by intros [= <- <-] ?%list_elem_of_singleton.
  + by intros [= <- <-] ?%elem_of_nil.
Qed.

(** C21. Taking a name destroys only what the customer was shown.  In every history of the page in which
    an answer about a name comes while that name still stands in the field, a build is asked for only
    under the name at which the name step was left, when the plane had answered since the last key press
    that it may be taken; and where the plane's answer was that it is the customer's own unfinished
    studio, the box that admits its destruction was ticked since. *)
Theorem consent_names_what_it_destroys e h p q rs slug :
  timely_history h → page_after h = Some p → react p e = Some (q, rs) → AskProvision slug ∈ rs →
  ∃ later earlier p' res, h = later ++ Continued :: earlier ∧ page_after earlier = Some p' ∧ pa_step p' = "name" ∧ wz_slug (pa_wizard p') = slug ∧
    told earlier = Some res ∧
    ∀ claim, res = claim_answer claim → match claim with Available None => True | Available (Some _) => ticked earlier = true | Unavailable _ => False end.
Proof.
intros Ht Hp He Hin. destruct (provision_asked p e q rs slug He Hin) as (-> & Hs & ->). destruct (pi_passed h p (history_inv h p Ht Hp) Hs) as
  (later & earlier & p' & -> & Hp' & Hn & Hsl & res & Hres & Hav & Hre). exists later, earlier, p', res. split_and!; [done..|].
intros [[handle|]|reason] ->; [by apply Hre|done|done].
Qed.

(** ** An answer that comes too late *)
Fixpoint honest (claims : string → SlugClaim) (h : list PageEvent) : Prop :=
  match h with
  | [] => True
  | e :: h => honest claims h ∧
      match e with SlugAnswered n res => ∀ p s, page_after h = Some p → sk_flight (pa_check p) !! n = Some s → res = Some (claim_answer (claims s)) | _ => True end
  end.
Definition unticked (h : list PageEvent) : Prop := ∀ b, AckTicked b ∉ h.
Definition one_unfinished (handle : ReclaimHandle) (s : string) : SlugClaim := if s =s? "mine" then Available (Some handle) else Available None.
(** A free name is asked about, the name changed to that of one's own studio, and the step left in the
    third of a second between the late answer and the new question. *)
Definition late_history (handle : ReclaimHandle) : list PageEvent :=
  [ConfirmTicked true; SlugAnswered 0 (Some (claim_answer (Available (Some handle)))); TimerFired; Continued; SlugAnswered 0 (Some (claim_answer (Available None)));
   Typed "mine"; TimerFired; Typed "other"; AcceptAnswered AcceptRecorded; Continued; RulesTicked true;
   PolicyAnswered (JObj [("url", JStr "https://example.com/aup"); ("version", JStr "1.0.0")]); Continued].
(** A late answer opens the gate for a name nobody asked about yet: though every answer is true of the
    name it was asked about, a build that destroys the customer's own studio is asked for without the
    box ever having been ticked, even after the page was told what the name is. *)
Theorem late_answer_skips_consent handle :
  honest (one_unfinished handle) (late_history handle) ∧ unticked (late_history handle) ∧
  ∃ p, page_after (late_history handle) = Some p ∧ (snd <$> react p Continued) = Some [AskProvision "mine"] ∧ wz_slugReclaimable (pa_wizard p) = true.
Proof.
assert (∀ P : Page → string → Prop, ∀ h p n s, page_after h = Some p → sk_flight (pa_check p) !! n = Some s → P p s → ∀ p' s', page_after h = Some p' →
  sk_flight (pa_check p') !! n = Some s' → P p' s') as Hone by (intros; congruence).
split; [|split].
- unfold late_history. cbn [honest]. split_and!; try exact I; eapply (Hone (λ _ s, Some _ = Some (claim_answer (one_unfinished handle s)))); vm_compute; reflexivity.
- intros b Hb. unfold late_history in Hb. repeat (apply elem_of_cons in Hb as [Hb|Hb]; [discriminate Hb|]). by apply elem_of_nil in Hb.
- eexists. split; [vm_compute; reflexivity|]. by vm_compute.
Qed.

(** ** The last step *)
(** What makes the wizard say the studio is live. *)
Definition says_live (e : PageEvent) : Prop :=
  match e with
  | GoLiveAnswered (Some (status, _)) => status = 200
  | Built (Some tenant) => is_text "live" (js_field tenant "status") = true
  | Resumed (Some me) => is_text "live" (js_field (js_field me "tenant") "status") = true
  | _ => False
  end.
Lemma live_is_200 status body : ivk_live (invokeKeyVerdict text_of inherited status body) = true → status = 200.
Proof.
unfold invokeKeyVerdict. destruct (Z.eqb_spec status 200); [done|]. by destruct (status =? 202).
Qed.
(** The wizard ends only on the plane's word: its last step is shown only after a go-live was answered
    with 200, or after [/api/me] said the studio is live. *)
Lemma resume_done me : (resumeStep me).1 = Some "done" → is_text "live" (js_field (js_field me "tenant") "status") = true.
Proof. unfold resumeStep. intros H. repeat case_match; by simplify_eq/=. Qed.
Lemma next_is_done from : next_step from = Some "done" → from = "go-live".
Proof.
unfold next_step, stepIndex, STEPS. cbn [step_from].
repeat match goal with |- context [String.eqb ?a from] => destruct (String.eqb_spec a from) as [<-|]; [vm_compute; done|] end. vm_compute. done.
Qed.
Lemma advance_not_done from p : from ≠ "go-live" → pa_step (advance from p).1 = "done" → pa_step p = "done".
Proof.
intros Hf. unfold advance. destruct (next_step from) as [n|] eqn:E; [|done]. destruct (n =s? "build") eqn:En; cbn; intros ->; [done|].
by apply next_is_done in E.
Qed.
Lemma back_done p q rs : react p WentBack = Some (q, rs) → pa_step q = "done" → pa_step p = "done".
Proof.
cbn [react existsb]. unfold on_step. destruct (String.eqb_spec (pa_step p) "rules") as [->|]; [by intros [= <- <-]|].
destruct (String.eqb_spec (pa_step p) "name") as [->|]; [by intros [= <- <-]|]. destruct (String.eqb_spec (pa_step p) "review") as [->|]; [by intros [= <- <-]|done].
Qed.
Lemma react_done e p q rs : react p e = Some (q, rs) → pa_step q = "done" → pa_step p = "done" ∨ says_live e.
Proof.
intros He Hq. destruct e; try (left; by eapply back_done); cbn [react] in He; repeat ((case_match; [|discriminate He]) || case_match); simplify_eq; try (by left).
- unfold policy_answered in Hq. case_match; by left.
- unfold slug_answered in Hq. repeat case_match; by left.
- left. revert Hq. match goal with E : continued p = _, X : existsb _ _ = true |- _ => revert E X end. unfold continued, on_step. cbn [existsb].
  destruct (_ && _); [by intros [= <- <-]|]. destruct (pa_step p =s? "rules"); [by intros [= <- <-]|]. intros E X Hd.
  apply (advance_not_done (pa_step p)); [|by rewrite E]. intros Hg. by rewrite Hg in X.
- left. revert Hq. match goal with E : accept_answered _ p = _ |- _ => revert E end. unfold accept_answered. destruct outcome; cbn; by intros [= <- <-].
- unfold resume_at in Hq. destruct me as [me|]; [|by left]. destruct (resumeStep me).1 as [s|] eqn:E; [|done]. destruct (s =s? "what"); [by left|].
  cbn in Hq. subst s. right. by apply resume_done.
- unfold built in Hq. destruct tenant as [t|]; [|by left]. destruct (awaits_go_live t); [done|]. destruct (is_text "live" (js_field t "status")) eqn:E; [by right|by left].
- unfold go_live_answered in Hq. destruct answer as [[status body]|]; [|by left]. destruct (ivk_live _) eqn:E; [|by left]. right. by eapply live_is_200.
Qed.
Lemma done_only_when_live h p : page_after h = Some p → pa_step p = "done" → ∃ e, e ∈ h ∧ says_live e.
Proof.
revert p. induction h as [|e h IH]; cbn; intros q Hq Hd; [by injection Hq as <-|]. destruct (page_after h) as [p|]; [|done]. cbn in Hq.
destruct (react p e) as [[q' rs]|] eqn:He; [|done]. injection Hq as ->. destruct (react_done e p q rs He Hd) as [Hp|Hl].
- destruct (IH p eq_refl Hp) as (x & Hx & Hl). exists x. split; [by right|done].
- exists e. split; [by left|done].
Qed.
End page.

(** ** What the wizard tells of the plane's answers *)

(** ** Names *)
(** The name the page asks about and builds under. *)
Definition asked_name (value : string) : string := Str.to_lower (Str.trim value).
(** The page and the plane agree about names.  A name the plane would take is never refused on the
    page; and a name the page lets through is refused by the plane only for being reserved, though not
    one of those the page knows, or for spelling an internationalised host name. *)
Theorem page_and_plane_agree_on_names value :
  (validateSlug (asked_name value) = None → hint_valid (slugHint (JStr value)) = true) ∧
  (hint_valid (slugHint (JStr value)) = true →
   match validateSlug (asked_name value) with
   | None => True
   | Some Punycode => starts_with "xn--" (asked_name value) = true
   | Some ReservedName => asked_name value ∈ RESERVED ∧ asked_name value ∉ SLUG_RESERVED
   | Some _ => False
   end).
Proof.
unfold slugHint, validateSlug. cbn [js_trimmed]. fold (asked_name value). set (s := asked_name value). rewrite slug_test.
assert (Str.truthy s = false → (length (Str.chars s) <? 3)%nat = true) as Ht by (destruct s; done).
destruct (Str.truthy s); cbn [negb]; [|by rewrite Ht]. destruct (length (Str.chars s) <? 3)%nat; [done|]. destruct (32 <? length (Str.chars s))%nat; [done|].
assert (forallb (λ x, existsb (String.eqb x) RESERVED) SLUG_RESERVED = true) as Hsub by (vm_compute; reflexivity).
assert (∀ l, existsb (String.eqb s) l = true ↔ s ∈ l) as Hin.
{ intros l. rewrite existsb_exists, list_elem_of_In. split; [intros (x & Hx & ->%String.eqb_eq); done|]. intros H. exists s. by rewrite String.eqb_refl. }
destruct (existsb (String.eqb s) SLUG_RESERVED) eqn:Hr.
- split; [|done]. apply Hin in Hr. rewrite forallb_forall in Hsub. specialize (Hsub s (proj1 (list_elem_of_In _ _) Hr)). rewrite Hsub. by repeat case_match.
- destruct (slug_shape (Str.chars s)); cbn [negb hint_valid warn_hint]; [|done]. split; [done|]. intros _.
  destruct (String.prefix "xn--" s) eqn:Hp; [done|]. destruct (existsb (String.eqb s) RESERVED) eqn:E; [|done]. split; [by apply Hin|].
  intros Hs%Hin. congruence.
Qed.

(** ** Going live *)
Inductive go_live_reply : reply → Prop :=
| reply_live verdict r : go_live_reply (now_live verdict r)
| reply_waiting tenant verdict r : go_live_reply (still_propagating tenant verdict r)
| reply_refused code status extra : 400 <= status → go_live_reply (err_reply code status extra).
#[local] Hint Constructors go_live_reply : core.

Section go_live.
Context (ask : world) (sign : string → string → list ascii) (json_parse : string → option js) (detail : InvokeKeyVerdict → option string) (wiring : option Wiring).

Lemma perform_replies tenant key s a b s' :
  performInvokeKeyInstall ask sign json_parse detail wiring tenant key s = (Ok (a, b), s') → go_live_reply a.
Proof.
unfold performInvokeKeyInstall. destruct (_ =? 0)%nat; [intros [= <- _ _]; constructor; lia|].
destruct (negb (opt_set (t_script_name tenant))); [intros [= <- _ _]; constructor; lia|]. destruct wiring as [w|]; [|intros [= <- _ _]; constructor; lia].
intros (verdict & s1 & _ & H)%M_bind_inv. destruct (negb (iv_ok verdict)); [injection H as <- _ _; constructor; lia|].
apply M_bind_inv in H as (installed & s2 & _ & H). destruct installed as [e|readiness].
- destruct e; first [discriminate H|injection H as <- _ _; constructor; lia].
- destruct (negb _); [by injection H as <- _ _|]. apply M_bind_inv in H as (u & s3 & _ & H). by injection H as <- _ _.
Qed.
Lemma install_replies body tenant s a s' : installInvokeKey ask sign json_parse detail wiring body tenant s = (Ok a, s') → go_live_reply a.
Proof.
unfold installInvokeKey. destruct (has_own _ body); [intros [= <- _]; constructor; lia|]. destruct (readRunPodMode _); [intros [= <- _]; constructor; lia|].
destruct wiring as [w|] eqn:Ew; [|intros [= <- _]; constructor; lia]. destruct (wr_sharedPoolInvokeKey w) as [key|]; [|intros [= <- _]; constructor; lia].
destruct (Str.truthy key); [|intros [= <- _]; constructor; lia]. rewrite <- Ew. intros ([r b] & s1 & Hp & H)%M_bind_inv. injection H as <- _.
by eapply perform_replies.
Qed.
End go_live.

Section screens.
Variable text_of : js → string.
Variable inherited : string → option string.
(** What the page makes of the answer to its go-live request. *)
Definition verdict_of (answer : Z * js) : InvokeVerdict := invokeKeyVerdict text_of inherited answer.1 answer.2.

Lemma or_truthy v s : Str.truthy s = true → js_truthy (js_or v (JStr s)) = true.
Proof. intros Hs. unfold js_or. by destruct (js_truthy v) eqn:E. Qed.

(** C22. The go-live screen tells the truth.  Whatever the store, the cloud and RunPod answer, the page
    says the studio is live exactly when the route answered 200, and then the status was written; that
    every module is ready only where the answer lists none it could not prove; that the key is in and the
    studio not yet live exactly on 202, in the plane's own words; and anything else as a failure.  It
    never shows an empty box. *)
Theorem go_live_screen_tells_the_truth ask sign json_parse detail wiring body tenant :
  (∀ key text, inherited key = Some text → Str.truthy text = true) →
  let '(r, tr) := installInvokeKey ask sign json_parse detail wiring body tenant [] in
  ∀ answer, r = Ok answer →
    (ivk_live (verdict_of answer) = true ↔ answer.1 = 200) ∧
    (ivk_live (verdict_of answer) = true → answered (SSetTenantStatus (t_id tenant) "live") (Ok tt) tr) ∧
    (ivk_tone (verdict_of answer) = ToneGood → answer.1 = 200 ∧ js_field answer.2 "modules_ready" = JBool true ∧ js_elements (js_field answer.2 "modules_unverified") = []) ∧
    (ivk_pending (verdict_of answer) = true ↔ answer.1 = 202) ∧
    (answer.1 = 202 → ivk_message (verdict_of answer) = js_field answer.2 "message") ∧
    (400 <= answer.1 ↔ ivk_tone (verdict_of answer) = ToneBad) ∧
    js_truthy (ivk_message (verdict_of answer)) = true.
Proof.
intros Hin. unfold verdict_of. pose proof (install_obeys ask sign json_parse detail wiring body tenant) as Hob.
destruct (installInvokeKey _ _ _ _ _ _ _ []) as [r tr] eqn:E. intros answer ->. destruct Hob as [H200 _]. specialize (H200 answer eq_refl).
apply install_replies in E. revert H200. destruct E as [verdict rd|t verdict rd|code status extra Hst]; intros H200.
- assert (answered (SSetTenantStatus (t_id tenant) "live") (Ok tt) tr) as Hw by (by apply H200). clear H200. unfold now_live, unverified_field.
  destruct (mr_unverified rd) as [|u l]; cbn; split_and!; try done; try lia; try (split; first [done|lia]).
- unfold still_propagating, unverified_field. destruct (mr_unverified rd) as [|u l]; cbn; split_and!; try done; try lia; try (split; first [done|lia]).
- cbn [fst snd err_reply json_reply] in *. unfold invokeKeyVerdict.
  destruct (Z.eqb_spec status 200); [lia|]. destruct (Z.eqb_spec status 202); [lia|]. cbn [ivk_live ivk_tone ivk_pending ivk_message].
  split_and!; try done; try lia; try (split; [discriminate|lia]). unfold invokeRejectionCopy, own_or_inherited. destruct (List.find _ REJECTION_COPY) as [[k v]|] eqn:Hf.
  + apply find_Some_elem in Hf as [Hk _]. cbn. assert (forallb (λ e, Str.truthy e.2) REJECTION_COPY = true) as Ha by (vm_compute; reflexivity).
    rewrite forallb_forall in Ha. by apply (Ha (k, v)), list_elem_of_In.
  + destruct (inherited _) as [t|] eqn:Ei; [by apply Hin in Ei|]. by apply or_truthy.
Qed.

(** What the page reads of a rejected key is the code of the refusal, never the reason beside it: the
    four sentences it keeps for the reasons are shown to nobody. *)
Theorem rejection_reason_is_not_read reason1 reason2 message :
  invokeKeyVerdict text_of inherited 400 (JObj ([("error", JStr "invoke_key_rejected")] ++ [("reason", reason1)] ++ message)) =
  invokeKeyVerdict text_of inherited 400 (JObj ([("error", JStr "invoke_key_rejected")] ++ [("reason", reason2)] ++ message)).
Proof. reflexivity. Qed.
(** A refusal that comes with a code and no words is told as a key that was not accepted, though no key
    was sent, and the code is not shown. *)
Theorem wordless_refusals_blame_a_key status code :
  400 <= status → inherited code = None → List.find (λ e, e.1 =s? code) REJECTION_COPY = None → Str.truthy code = true →
  ivk_message (invokeKeyVerdict text_of inherited status (JObj [("error", JStr code)])) = JStr "That key was not accepted, and we have not stored it.".
Proof.
intros Hst Hi Hf Ht. unfold invokeKeyVerdict. destruct (Z.eqb_spec status 200); [lia|]. destruct (Z.eqb_spec status 202); [lia|].
assert (js_or (js_or (JStr code) JUndef) JNull = JStr code) as Hc by (unfold js_or; cbn; rewrite Ht; cbn; by rewrite Ht).
cbn [ivk_message js_field field_of]. unfold invokeRejectionCopy, own_or_inherited. cbn -[js_or REJECTION_COPY]. rewrite Hc. cbn [shown]. by rewrite Hf, Hi.
Qed.

(** ** The build *)
Lemma lists_texts s (l : list string) : lists_text s (JStr <$> l) = true ↔ s ∈ l.
Proof.
unfold lists_text. rewrite existsb_exists. split.
- intros (v & Hv & Hs). apply list_elem_of_In, list_elem_of_fmap in Hv as (x & -> & Hx). cbn in Hs. by apply String.eqb_eq in Hs as ->.
- intros Hs. exists (JStr s). split; [by apply list_elem_of_In, list_elem_of_fmap_2|]. cbn. apply String.eqb_refl.
Qed.
(** The rows speak the plane's own steps, each once and in its order. *)
Lemma rows_are_the_steps : concat (pw_steps <$> PROVISION_ROWS) = step_text <$> PROVISION_STEPS.
Proof. reflexivity. Qed.
Definition planned_step (s : string) : bool := existsb (λ row, covers row (JStr s)) PROVISION_ROWS.
Lemma covered_steps s : planned_step s = true ↔ s ∈ step_text <$> PROVISION_STEPS.
Proof.
rewrite <- rows_are_the_steps. unfold planned_step, covers. rewrite existsb_exists. setoid_rewrite existsb_exists. cbn [is_text]. split.
- intros (row & Hr & x & Hx & ->%String.eqb_eq). apply list_elem_of_In, in_concat. exists (pw_steps row). split; [|done].
  by apply list_elem_of_In, list_elem_of_fmap_2, list_elem_of_In.
- intros H. apply list_elem_of_In, in_concat in H as (l & Hl & Hs). apply list_elem_of_In, list_elem_of_fmap in Hl as (row & -> & Hr).
  exists row. split; [by apply list_elem_of_In|]. exists s. split; [done|]. apply String.eqb_refl.
Qed.
Abbreviation rows_of := (provisionRows text_of).

(** The build screen is true of the job.  Of a job as the poll answers it, a recorded failure is
    always on the screen, with the very message the plane recorded, whatever step it names; a row is done
    only once all its steps are recorded; where nothing failed and every step of the provisioner is
    recorded, every row is done; and the page asks again after fifteen seconds, or two and a half once
    the studio itself is recorded, until the job has ended. *)
Theorem build_screen_is_true_of_the_job json_parse job done answer body :
  json_parse (p_steps_done job) = Some (JArr (JStr <$> done)) → job_body json_parse job = Ok answer → hr_body answer = Some body →
  (∀ s, p_error_step job = Some s → Str.truthy s = true →
     ∃ row, row ∈ rows_of body ∧ br_status row = RowFailed ∧
       br_error row = match p_error_message job with Some m => if Str.truthy m then JStr m else JUndef | None => JUndef end) ∧
  (∀ row, row ∈ PROVISION_ROWS → row_status body row = RowDone → ∀ s, s ∈ pw_steps row → s ∈ done) ∧
  (p_error_step job = None → (∀ s, s ∈ step_text <$> PROVISION_STEPS → s ∈ done) → Forall (λ row, br_status row = RowDone) (rows_of body)) ∧
  provisionPollDelayMs body = match p_status job with JobSucceeded | JobFailed => 0 | _ => if bool_decide ("wfp_upload" ∈ done) then 2500 else 15000 end.
Proof.
intros Hd Hj Hb. unfold job_body in Hj. rewrite Hd in Hj. injection Hj as <-. cbn [hr_body json_response] in Hb. injection Hb as <-.
set (body := JObj _). assert (provisionStepsDone body = JStr <$> done) as Hsteps by done.
assert (failure_shown body = match p_error_message job with Some m => if Str.truthy m then JStr m else JUndef | None => JUndef end) as Hshown.
{ unfold failure_shown, js_or. subst body. cbn. destruct (p_error_message job); done. }
split_and!.
- intros s Hs Ht. assert (js_field body "error_step" = JStr s) as He by (subst body; cbn; by rewrite Hs).
  unfold provisionRows. rewrite He. cbn [js_truthy]. rewrite Ht. cbn [andb]. rewrite <- Hshown. destruct (existsb (λ row, covers row (JStr s)) PROVISION_ROWS) eqn:Ec; cbn [negb].
  + apply existsb_exists in Ec as (row & Hr & Hc). eexists. split; [rewrite app_nil_r; by apply list_elem_of_fmap_2, list_elem_of_In|]. cbn [br_status br_error].
    unfold row_status. rewrite He, Hc. split; [done|]. by rewrite bool_decide_eq_true_2.
  + eexists. split; [apply elem_of_app; right; by left|]. done.
- intros row _ Hr s Hs. unfold row_status in Hr. rewrite Hsteps in Hr. destruct (covers _ _); [done|].
  destruct (forallb _ _) eqn:Ef; [|by repeat case_match]. rewrite forallb_forall in Ef. apply lists_texts, Ef. by apply list_elem_of_In.
- intros Hn Hall. assert (js_field body "error_step" = JNull) as He by (subst body; cbn; by rewrite Hn). unfold provisionRows. rewrite He. cbn [js_truthy andb].
  rewrite app_nil_r. apply Forall_fmap, Forall_forall. intros row Hr. cbn. unfold row_status. rewrite He, Hsteps.
  assert (covers row JNull = false) as -> by (unfold covers; by induction (pw_steps row)).
  assert (forallb (λ s, lists_text s (JStr <$> done)) (pw_steps row) = true) as ->; [|done]. apply forallb_forall. intros s Hs. apply lists_texts, Hall.
  rewrite <- rows_are_the_steps. apply list_elem_of_In, in_concat. exists (pw_steps row). split; [|done]. by apply list_elem_of_In, list_elem_of_fmap_2.
- unfold provisionPollDelayMs, provisionTerminal, pastResumeBoundary. rewrite Hsteps.
  assert (lists_text PROVISION_RESUME_BOUNDARY (JStr <$> done) = bool_decide ("wfp_upload" ∈ done)) as ->.
  { apply eq_true_iff_eq. rewrite lists_texts, bool_decide_eq_true. done. }
  subst body. by destruct (p_status job).
Qed.
End screens.
