(* ===== verification/FrontDoor.v ===== *)
(** * The front page (public/front-door.js, front-door-checks.js, credits-checks.js, api-token-checks.js)

    What somebody who arrives is shown: the screen for their account and studio, the balance of a studio
    that is billed, and the panel of its programmatic token.  All of it is read off the plane's answers;
    painting is left out. *)

From S2P Require Export WizardChecks TenantTypes.
From S2P Require Import CreditViews Entry ApiToken.
From Stdlib Require Import Ascii.
Open Scope string_scope.
Open Scope list_scope.
Open Scope Z_scope.
Open Scope plane_scope.

(** ** Ways in *)
Definition METHOD_LABELS : list (string * string) :=
  [("email", "Email me a link"); ("google", "Continue with Google"); ("github", "Continue with GitHub"); ("apple", "Continue with Apple")].
(** [toUpperCase] of one character, on the letters that stay one character. *)
Definition upper_char (c : ascii) : ascii :=
  let n := Str.code c in
  if ((97 <=? n) && (n <=? 122) || (224 <=? n) && (n <=? 254) && negb (n =? 247))%N then ascii_of_N (n - 32)%N else c.
Definition upper_first (s : string) : string := match s with String c s => String (upper_char c) s | EmptyString => EmptyString end.
Definition orderMethods (methods : js) : list string :=
  let named := omap (λ m, match m with JStr s => if Str.truthy s then Some s else None | _ => None end) (js_elements methods) in
  jfilter (λ m, m =s? "email") named ++ jfilter (λ m, negb (m =s? "email")) named.
Definition signupsOpen (config : js) : bool := match js_field config "signups_enabled" with JBool false => false | _ => true end.

(** ** The screen *)
Definition shellRoute (me : js) : string :=
  if negb (js_truthy (js_field me "account")) then "auth"
  else if negb (is_true (js_field (js_field me "aup") "accepted")) then "aup"
  else
    let tenant := js_field me "tenant" in
    if negb (js_truthy tenant) then "onboarding"
    else
      let on s := is_text s (js_field tenant "status") in
      if on "awaiting_go_live" || on "awaiting_invoke_key" then "go-live"
      else if on "live" then "studio"
      else if on "suspended" then "suspended"
      else if on "pending" || on "provisioning" then "building"
      else if on "failed" then "failed"
      else if on "deleting" || on "deleted" then "deleted"
      else "unknown".
Definition shouldWatch (route : string) : bool := (route =s? "building") || (route =s? "failed").
Definition AUTH_ERRORS : list (string * string) :=
  [("link_invalid", "That sign-in link did not work. Links expire after 15 minutes and only work once. Ask for a fresh one.");
   ("signups_closed", "Signups are closed right now, so we could not finish creating your account.");
   ("sso_failed", "That sign-in did not complete. Nothing happened to your account; please try again.");
   ("sso_unverified_email", "That account's email address is not verified with the provider. Verify it there first, or use the email link instead.");
   ("account_unavailable", "That account is not available. If you think this is a mistake, please get in touch.")].
Inductive AupCopy := FirstAcceptance | ReturningOwner.
Definition aupCopyKind (me : js) : AupCopy :=
  let last := js_field (js_field me "aup") "last_accepted" in
  if negb (js_is_object last) then FirstAcceptance
  else if js_truthy (js_field last "version") || js_truthy (js_field last "accepted_at") then ReturningOwner else FirstAcceptance.

Section copy.
Variable text_of : js → string.
Variable inherited : string → option string.
Definition methodLabel (method : string) : string :=
  default ("Continue with " +:+ upper_first method) (own_or_inherited text_of inherited METHOD_LABELS (JStr method)).
Definition authErrorCopy (code : option string) : option string :=
  match code with
  | None => None
  | Some code => if Str.truthy code then Some (default "Something went wrong signing you in. Please try again." (own_or_inherited text_of inherited AUTH_ERRORS (JStr code))) else None
  end.
Definition aupReturningLede (last : js) : string :=
  let ver := if js_truthy (js_field last "version") then shown text_of (js_field last "version") else "a previous version" in
  let day := if js_truthy (js_field last "accepted_at") then Str.take 10 (shown text_of (js_field last "accepted_at")) else "" in
  "The policy changed since you accepted version " +:+ ver +:+ (if Str.truthy day then " on " +:+ day else "") +:+
  ". Your studio keeps running; please review and accept to continue.".
End copy.

(** ** Reading the plane *)
(** A response as the page meets it: nothing at all, or a status and the body as JSON ([{}] where it is
    none).  What is thrown is a status, or [None] where there was no response. *)
Definition api_json (answer : option (Z * js)) : result (option Z) js :=
  match answer with
  | None => Err None
  | Some (status, body) => if status =? 204 then Ok JNull else if (200 <=? status) && (status <? 300) then Ok body else Err (Some status)
  end.
Definition api_me (answer : option (Z * js)) : result (option Z) js :=
  match api_json answer with
  | Err (Some status) => if (status =? 401) || (status =? 403) then Ok JNull else Err (Some status)
  | r => r
  end.
Definition api_credits (answer : option (Z * js)) : js :=
  match api_json answer with
  | Ok payload => payload
  | Err (Some 503) => JObj [("credits_apply", JBool true); ("complete", JBool false)]
  | Err _ => JNull
  end.

(** What one look at the plane makes of the page: the screen, the ways in, whether the policy is put as
    a change, the studio's link, whether the panels of a live studio are mounted, and whether the page
    keeps looking. *)
Record FrontView := mkFrontView {
  fv_route : string; fv_signupsOpen : option bool; fv_methods : list string; fv_returning : bool; fv_link : option js; fv_mounted : bool; fv_watch : bool;
}.
Definition boot (config me : option (Z * js)) : FrontView :=
  match api_json config, api_me me with
  | Ok config, Ok me =>
      let route := shellRoute me in
      let tenant := js_field me "tenant" in
      let studio := (route =s? "studio") && js_truthy tenant in
      mkFrontView route (if route =s? "auth" then Some (signupsOpen config) else None)
        (if route =s? "auth" then orderMethods (js_field config "auth_methods") else [])
        ((route =s? "aup") && match aupCopyKind me with ReturningOwner => true | FirstAcceptance => false end)
        (if studio && js_truthy (js_field tenant "url") then Some (js_field tenant "url") else None) studio (shouldWatch route)
  | _, _ => mkFrontView "unknown" None [] false None false true
  end.

(** ** The balance *)
Definition num_abs (n : Num.num) : Num.num :=
  match n with Num.NInt z => Num.NInt (Z.abs z) | Num.NFrac m e => Num.NFrac (Z.abs m) e | Num.NInf _ => Num.NInf false | Num.NNaN => Num.NNaN end.
Definition panel_usd (micro : js) : option string :=
  match micro with
  | JNum n =>
      if negb (Num.is_finite n) then None
      else
        let cents := num_int (Num.round (num_over (num_abs n) 10000)) in
        let s := Str.of_int (num_floor (num_quot cents 100)) +:+ "." +:+ Str.pad_start 2 "0"%char (Str.of_int (cents mod 100)) in
        Some ((if Num.is_neg n then "-" else "") +:+ "USD " +:+ s)
  | _ => None
  end.
Inductive PanelState := PanelHidden | PanelUnreadable | PanelOk.
Definition panelState (payload : js) : PanelState :=
  if negb (is_true (js_field payload "credits_apply")) then PanelHidden
  else if negb (is_true (js_field payload "complete")) then PanelUnreadable else PanelOk.
Inductive TopUpState := TopUpHidden | TopUpNotOpenYet | TopUpOpen.
Definition topUpState (payload : js) : TopUpState :=
  if negb (is_true (js_field payload "credits_apply")) then TopUpHidden
  else if is_true (js_field payload "topup_available") then TopUpOpen else TopUpNotOpenYet.
Definition KIND_LABELS : list (string * string) :=
  [("purchase", "Credit added"); ("charge", "Film rendered"); ("no_charge_failed", "Not charged"); ("reserved", "Reserved for a job in progress");
   ("refund", "Refunded"); ("adjustment", "Adjustment")].
Record PanelLine := mkPanelLine {
  pn_id : string; pn_label : string; pn_kind : string; pn_amount : option string; pn_job_ref : option string; pn_note : option string; pn_when : option string;
}.
Section panel.
Variable text_of : js → string.
Variable inherited : string → option string.
Definition lineLabel (kind : string) : string := default "Activity" (own_or_inherited text_of inherited KIND_LABELS (JStr kind)).
Definition text_or_null (v : js) : option string := match v with JStr s => Some s | _ => None end.
Definition projectLine (line : js) : option PanelLine :=
  if negb (js_is_object line) then None
  else
    let kind := default "" (text_or_null (js_field line "kind")) in
    let amount := match js_field line "delta_micro_usd" with JNum n => JNum n | _ => JNum (Num.NInt 0) end in
    Some (mkPanelLine (if js_truthy (js_field line "id") then shown text_of (js_field line "id") else "") (lineLabel kind) kind
      (match amount with JNum (Num.NInt 0) => None | a => panel_usd a end) (text_or_null (js_field line "job_ref"))
      (text_or_null (js_field line "no_charge_reason")) (text_or_null (js_field line "occurred_at"))).
Definition projectActivity (payload : js) : list PanelLine := omap projectLine (js_elements (js_field payload "activity")).
End panel.

(** ** The token panel *)
Definition str_or_null (v : js) : option string :=
  match v with JStr s => if Str.truthy (Str.trim s) then Some (Str.trim s) else None | _ => None end.
Inductive TokenState := TokenPresent | TokenAbsent | TokenUnknown.
Record TokenView := mkTokenView { tkv_state : TokenState; tkv_name : option string; tkv_shared : option bool; tkv_created_at : option string; tkv_rotated_at : option string }.
Definition tokenView (payload : js) : TokenView :=
  if negb (js_is_object payload) then mkTokenView TokenUnknown None None None None
  else
    mkTokenView (match js_field payload "configured" with JBool true => TokenPresent | JBool false => TokenAbsent | _ => TokenUnknown end)
      (str_or_null (js_field payload "name"))
      (if is_text "shared" (js_field payload "custody") then Some true else if is_text "separate" (js_field payload "custody") then Some false else None)
      (str_or_null (js_field payload "created_at")) (str_or_null (js_field payload "last_rotated_at")).
(** Which of Create, Rotate and Revoke the panel offers. *)
Definition token_buttons (v : TokenView) : bool * bool * bool :=
  match tkv_state v with TokenAbsent => (true, false, false) | TokenPresent => (false, true, true) | TokenUnknown => (false, false, false) end.
Definition TOKEN_ERRORS : list (string * string) :=
  [("not_found", "We could not find that studio. If you just created it, reload the page.");
   ("tenant_not_live", "Your studio is not live yet, so there is no API token to hand out. Finish setup first, then come back.");
   ("not_provisioned", "Your studio is still being built, so it cannot hold a token yet. Give it a few minutes and reload.");
   ("tenant_unreachable", "We could not reach your studio's database just now, so nothing was changed. That is our problem, not yours; please try again in a minute.");
   ("unauthorized", "Your session expired while this page was open. Sign in again and retry.");
   ("rate_limited", "Too many token requests in a row. Wait a minute and try again.")].
Definition unknown_token_error : string :=
  "Something went wrong talking to the control plane, and we are not going to guess what. Nothing was changed. Please try again, and tell us if it keeps happening.".
Definition tokenErrorCopy (text_of : js → string) (inherited : string → option string) (code : option string) : option string :=
  match code with
  | None => None
  | Some code => if Str.truthy code then Some (default unknown_token_error (own_or_inherited text_of inherited TOKEN_ERRORS (JStr code))) else None
  end.
(** [new URL(raw)]: [None] when it throws. *)
Record ParsedUrl := mkParsedUrl { pu_protocol : string; pu_username : string; pu_password : string; pu_origin : string }.
Definition safeStudioUrl (parse_url : string → option ParsedUrl) (url : js) : option string :=
  match str_or_null url with
  | None => None
  | Some raw =>
      match parse_url raw with
      | None => None
      | Some u =>
          if negb (pu_protocol u =s? "https:") then None
          else if Str.truthy (pu_username u) || Str.truthy (pu_password u) then None else Some (pu_origin u)
      end
  end.

(** ** Everybody has a screen *)
Definition js_step (me : js) : option string := (resumeStep me).1.
(** Which step of the wizard goes with a screen of the front page. *)
Definition wizard_step_of (route : string) : option string :=
  if (route =s? "auth") || (route =s? "aup") || (route =s? "onboarding") then Some "what"
  else if (route =s? "building") || (route =s? "failed") then Some "build"
  else if route =s? "go-live" then Some "go-live"
  else if route =s? "studio" then Some "done" else None.
Lemma text_only s s' v : is_text s v = true → is_text s' v = (s =s? s').
Proof. destruct v; try done. cbn. intros ->%String.eqb_eq. done. Qed.
Lemma pages_agree me : js_step me = wizard_step_of (shellRoute me).
Proof.
unfold js_step, resumeStep, shellRoute. destruct (negb (js_truthy (js_field me "account"))); [reflexivity|].
destruct (negb (is_true _)); [reflexivity|]. destruct (negb (js_truthy (js_field me "tenant"))); [reflexivity|].
set (v := js_field (js_field me "tenant") "status").
destruct (is_text "pending" v) eqn:E1; [by rewrite !(text_only _ _ _ E1)|]. destruct (is_text "provisioning" v) eqn:E2; [by rewrite !(text_only _ _ _ E2)|]. cbn [orb].
destruct (is_text "awaiting_go_live" v || is_text "awaiting_invoke_key" v); [reflexivity|].
destruct (is_text "failed" v) eqn:E3; [by rewrite !(text_only _ _ _ E3)|]. destruct (is_text "live" v); [reflexivity|].
destruct (is_text "suspended" v); [reflexivity|]. by destruct (is_text "deleting" v || is_text "deleted" v).
Qed.
Definition screen_of (accepted : bool) (tenant : option Tenant) : string :=
  if negb accepted then "aup"
  else match tenant with
  | None => "onboarding"
  | Some t =>
      if is_suspended t then "suspended"
      else let st := normalizeLifecycle (t_status t) in
           if st =s? "awaiting_go_live" then "go-live" else if st =s? "live" then "studio"
           else if (st =s? "pending") || (st =s? "provisioning") then "building" else if st =s? "failed" then "failed" else "deleted"
  end.

(** C36. Every account has its screen, and it is the one its studio's row and its acceptance call for.
    What [/api/me] answers a signed-in account is made of the row its account has in this run and of
    whether the acceptance of the policy's current version is in the store at that statement.  Of that
    answer the front page makes the policy's screen until the version is accepted, then the one of the
    studio's state: set up where there is no row, a suspended studio as that whatever else it is, and
    otherwise waiting to go live, live, building, failed or deleted; never the sign-in form and never the
    screen for states nobody knows.  The link is shown exactly for an accepted, live studio that is not
    suspended, the page keeps looking exactly while one is built or has failed, and the setup wizard,
    reading the same answer, opens at the step that goes with that screen. *)
Theorem every_state_has_its_screen {W} `{AuthStoreOk W others} env router (getTenantForAccount : string → M W string (option Tenant)) account s r s' config :
  (∀ s1 t s2, getTenantForAccount (ac_id account) s1 = (Ok (Some t), s2) → t_status t ∈ TenantLifecycle) →
  me env router getTenantForAccount account s = (Ok r, s') →
  ∃ tenant s1 db body, getTenantForAccount (ac_id account) s = (Ok tenant, s1) ∧ others (auth_tables s1) db ∧ hr_body r = Some body ∧
    let accepted := existsb (aup_is (ac_id account) (AUP_VERSION env)) (ad_aup db) in
    let view := boot (Some (200, config)) (Some (hr_status r, body)) in
    fv_route view = screen_of accepted tenant ∧
    fv_link view = match tenant with
                   | Some t => if accepted && (t_status t =s? "live") && negb (is_suspended t)
                               then Some (JStr ("https://" +:+ t_slug t +:+ tenantDomainSuffix router)) else None
                   | None => None
                   end ∧
    fv_watch view = ((fv_route view =s? "building") || (fv_route view =s? "failed")) ∧
    js_step body = wizard_step_of (fv_route view).
Proof.
intros Htyped. unfold me. intros (tenant & s1 & Ht & Hr)%M_bind_inv. apply M_bind_inv in Hr as (accepted & s2 & Ha & Hr).
apply M_bind_inv in Hr as (last & s3 & _ & Hr). injection Hr as <- _.
destruct (accepted_runs (ac_id account) (AUP_VERSION env) s1) as (db & dt & Ho & Hrun). unfold hasAcceptedCurrent in Ha. rewrite Ha in Hrun. injection Hrun as Hrun _.
exists tenant, s1, db. eexists. split; [done|]. split; [done|]. split; [reflexivity|]. cbv zeta. rewrite Hrun. clear Ha Hrun.
cbn [hr_status json_response]. change (api_json (Some (200, config))) with (Ok config : result (option Z) js).
set (body := JObj _). unfold boot. change (api_json (Some (200, config))) with (Ok (E := option Z) config). change (api_me (Some (200, body))) with (Ok (E := option Z) body).
cbn [fv_route fv_link fv_watch]. rewrite pages_agree. split; [|split; [|done]].
all: subst body; destruct accepted; [|by destruct tenant]; destruct tenant as [t|]; [|reflexivity]; apply Htyped in Ht; unfold tenantView, screen_of.
all: unfold shellRoute; cbn [js_field field_of js_truthy is_true negb String.eqb Ascii.eqb Bool.eqb tenant_view_js tv_status tv_url jtext].
all: unfold TenantLifecycle in Ht; repeat (apply elem_of_cons in Ht as [->|Ht]; [by destruct (is_suspended t)|]); by apply elem_of_nil in Ht.
Qed.

(** ** The statement, on the panel *)
Definition credit_kind_text (k : ActivityKind) : string :=
  match k with
  | LinePurchase => "purchase" | LineCharge => "charge" | LineNoChargeFailed => "no_charge_failed" | LineReserved => "reserved" | LineRefund => "refund"
  | LineAdjustment => "adjustment"
  end.
Definition line_js (l : ActivityLine) : js :=
  JObj [("id", JStr (al_id l)); ("kind", JStr (credit_kind_text (al_kind l))); ("delta_micro_usd", JNum (Num.NInt (al_delta l))); ("job_ref", jtext (al_job_ref l));
        ("occurred_at", JStr (al_occurred_at l)); ("no_charge_reason", jtext (al_no_charge_reason l))].
(** [json(view)]. *)
Definition credit_view_js (v : TenantCreditView) : js :=
  JObj [("credits_apply", JBool (credits_apply v)); ("topup_available", JBool (topup_available v)); ("settled_micro_usd", JNum (Num.NInt (view_settled v)));
        ("held_micro_usd", JNum (Num.NInt (view_held v))); ("available_micro_usd", JNum (Num.NInt (view_available v))); ("complete", JBool (view_complete v));
        ("enforcing", JBool (enforcing v)); ("enforcement_configured", JBool (enforcement_configured v)); ("enforcement_reason", jtext (enforcement_reason v));
        ("activity", JArr (line_js <$> activity v)); ("activity_truncated", JBool (activity_truncated v))].
Definition line_said (l : ActivityLine) (p : PanelLine) : Prop :=
  pn_id p = al_id l ∧ (credit_kind_text (al_kind l), pn_label p) ∈ KIND_LABELS ∧ pn_amount p = (if al_delta l =? 0 then None else Some (Credits.formatUsd (al_delta l))) ∧
  pn_job_ref p = al_job_ref l ∧ pn_note p = al_no_charge_reason l ∧ pn_when p = Some (al_occurred_at l).
Lemma panel_usd_integer z : panel_usd (JNum (Num.NInt z)) = Some (Credits.formatUsd z).
Proof. reflexivity. Qed.
Lemma project_line text_of inherited l : ∃ p, projectLine text_of inherited (line_js l) = Some p ∧ line_said l p.
Proof.
eexists. split; [reflexivity|]. unfold line_said. cbn -[Credits.formatUsd KIND_LABELS panel_usd].
split_and!; [by destruct (al_id l)| | |by destruct (al_job_ref l)|by destruct (al_no_charge_reason l)|done].
- unfold lineLabel. destruct (al_kind l); cbn; repeat (first [by left|right]).
- destruct (Z.eqb_spec (al_delta l) 0) as [->|Hz]; [done|]. destruct (al_delta l); [done|..]; apply panel_usd_integer.
Qed.
Lemma project_lines text_of inherited ls : Forall2 line_said ls (omap (projectLine text_of inherited) (line_js <$> ls)).
Proof.
induction ls as [|l ls IH]; [constructor|]. rewrite fmap_cons. cbn [omap list_omap]. destruct (project_line text_of inherited l) as (p & -> & Hp).
by constructor.
Qed.

(** The panel shows the statement and invents nothing.  A statement of a studio that is not billed
    shows no panel and no way to buy; one that could not be computed shows no figure; otherwise every
    line of it is shown in its order, under a name of its kind, with its amount where money moved and
    none where it did not, and with the plane's reason why a job was not charged. *)
Theorem panel_shows_the_statement text_of inherited view :
  let payload := credit_view_js view in
  (panelState payload = if negb (credits_apply view) then PanelHidden else if negb (view_complete view) then PanelUnreadable else PanelOk) ∧
  (topUpState payload = TopUpHidden ↔ credits_apply view = false) ∧ (topUpState payload = TopUpOpen → topup_available view = true) ∧
  Forall2 line_said (activity view) (projectActivity text_of inherited payload) ∧
  panel_usd (js_field payload "available_micro_usd") = Some (Credits.formatUsd (view_available view)).
Proof.
cbv zeta. split; [|split; [|split; [|split; [|reflexivity]]]].
- by destruct view as [[] ? ? ? ? [] ? ? ? ? ?].
- destruct view as [[] [] ? ? ? ? ? ? ? ? ?]; cbn; split; done.
- by destruct view as [[] [] ? ? ? ? ? ? ? ? ?].
- apply project_lines.
Qed.

(** No studio is billed, so no statement the route answers shows a panel; but a route that cannot read
    the ledger, or a plane that has none, answers 503, and of that the page makes a statement that
    credits apply and could not be read. *)
Theorem unbilled_studio_sees_a_broken_panel credits knob env tenant account s s' :
  (∀ view, tenantCreditsRoute credits knob env tenant account s = (Ok (Answer view), s') → panelState (api_credits (Some (200, credit_view_js view))) = PanelHidden) ∧
  (∀ t body, tenant = Some t → to_account_id t = account → credits = false →
     tenantCreditsRoute credits knob env tenant account s = (Ok (Refused "credits_unconfigured" 503), s) ∧
     panelState (api_credits (Some (503, body))) = PanelUnreadable).
Proof.
split.
- intros view Hv. assert (credits_apply view = false) as Ha.
  { unfold tenantCreditsRoute in Hv. destruct tenant as [t|]; [|done]. destruct (negb (to_account_id t =s? account)); [done|]. destruct (negb credits); [done|].
    unfold catch in Hv. rewrite bind_run in Hv. destruct (readCreditActivity (to_id t) s) as [[read|e] s1]; [|done]. by injection Hv as <- _. }
  by destruct view as [[] ? ? ? ? ? ? ? ? ? ?].
- intros t body -> <- ->. split; [|reflexivity]. unfold tenantCreditsRoute. by rewrite String.eqb_refl.
Qed.

(** ** The token panel *)
Lemma token_panel_offers_what_stands st :
  token_buttons (tokenView (JObj (state_body st))) = if ts_configured st then (false, true, true) else (true, false, false).
Proof. by destruct st as [[] ? ? ?]. Qed.
