(* ===== verification/AdminPolicy.v ===== *)
(** * What an operator's hand on a studio may do (theorems about AdminStudios.v)

    Each route, over every world: what it may ask and when, and what its answer rests on. *)

From S2P Require Export AdminStudios ConvergePolicy StudioUpgrade.
From Stdlib Require Import Ascii.
Open Scope string_scope.
Open Scope list_scope.
Open Scope Z_scope.
Open Scope plane_scope.

(** ** The tenant a path names, and nobody else at work on it *)
Section guards.
Context (ask : world) (actor tenantId : string) (allowed : trace → call → Prop).
Implicit Types (t : Tenant) (tr : trace) (P : trace → Prop).
Definition named t tr : Prop := answered (SGetTenantById tenantId) (Ok (Some t)) tr.
Definition idle t tr : Prop := ∃ latest, answered (SGetLatestJob (t_id t)) (Ok latest) tr ∧
  match latest with None => True | Some job => ∃ now, answered KNow (Ok now) tr ∧ jobHasLiveDriver job now = false end.
#[export] Instance stable_idle t : Stable (idle t).
Proof. intros tr tr' Ht (l & H & Hl). exists l. split; [by eapply stable_answered|]. destruct l; [|done]. destruct Hl as (now & H' & Hn). exists now. split; [by eapply stable_answered|done]. Qed.
(** What a route leaves on record of itself. *)
Definition on_record t action (d : AuditDetail) tr : Prop := answered (SRecordAdminAction actor action (Some (t_id t)) d) (Ok tt) tr.

Lemma with_tenant_safe {A} (f : Tenant → M trace exn (admin_reply A)) (Q : admin_reply A → trace → Prop) :
  (∀ tr, allowed tr (SGetTenantById tenantId)) → (∀ tr, Q (Replied not_found) tr) → (∀ t, safe allowed (named t) (f t) Q) →
  safe allowed (λ _, True) (with_tenant ask tenantId f) Q.
Proof.
intros Hal Hr Hf. unfold with_tenant. eapply safe_seq; [apply (safe_perform _ _ _ (SGetTenantById tenantId)); intros tr _; apply Hal|].
intros [t|]; [apply Hf|by apply safe_ret].
Qed.
Lemma unless_driven_safe {A} t P (rest : M trace exn (admin_reply A)) (Q : admin_reply A → trace → Prop) : Stable P →
  (∀ tr, P tr → allowed tr (SGetLatestJob (t_id t)) ∧ allowed tr KNow) → (∀ fields tr, Q (Replied (err_reply "job_in_progress" 409 fields)) tr) →
  safe allowed (λ tr, P tr ∧ idle t tr) rest Q → safe allowed P (unless_driven ask t rest) Q.
Proof.
intros HP Hal Hr Hrest. unfold unless_driven.
eapply safe_bind; [done|apply (safe_perform _ _ _ (SGetLatestJob (t_id t))); intros tr Htr; by apply Hal|]. intros [job|].
- eapply safe_bind; [apply _|apply (safe_perform _ _ _ KNow); intros tr [Htr _]; by apply Hal|]. intros now.
  destruct (jobHasLiveDriver job now) eqn:Hd; [by apply safe_ret|]. eapply safe_weaken; [exact Hrest| |intros a tr _ H; exact H].
  intros tr [[Htr Hl] Hn]. split; [done|]. exists (Some job). split; [done|]. by exists now.
- eapply safe_weaken; [exact Hrest| |intros a tr _ H; exact H]. intros tr [Htr Hl]. split; [done|]. by exists None.
Qed.
Lemma audited_safe t action d P : (∀ tr, P tr → allowed tr (SRecordAdminAction actor action (Some (t_id t)) d)) →
  safe allowed P (audited ask actor t action d) (λ _, on_record t action d).
Proof. intros H. eapply safe_post; [apply (safe_perform allowed ask P (SRecordAdminAction actor action (Some (t_id t)) d)), H|by intros [] tr]. Qed.
End guards.

(** ** What fits an upgrade of the modules *)
Section module_preflight.
Context (ask : world) (open : list ascii → list ascii → list ascii → option string) (json_parse : string → option js).
Context (deps : ProvisionDeps) (tenant : Tenant) (release : string) (al : trace → call → Prop).
Implicit Types (tr : trace) (P : trace → Prop).
Abbreviation script := (default "" (t_script_name tenant)).
(** A preflight reads the studio's front page, under its own token, and fetches bundles of the release. *)
Definition looks_first (c : call) : Prop :=
  match c with
  | XCallStudio s method path token body => t_script_name tenant = Some s ∧ method = "GET" ∧ path = "/" ∧ body = None ∧
      decryptStudioToken open (dp_kek deps) (default "" (t_studio_token_enc tenant)) = Ok token
  | BFetchModule r module => r = release ∧ module ∈ tm_module <$> TENANT_MODULE_CATALOG
  | _ => False
  end.
Definition fetched (catalog : list TenantModuleSpec) (got : bundles) tr : Prop :=
  got.*1 = tm_module <$> catalog ∧ ∀ module b, (module, b) ∈ got → answered (BFetchModule release module) (Ok b) tr.
Definition fit_for_modules (context : ModuleUpgradeContext) tr : Prop :=
  t_deleted_at tenant = None ∧ t_suspended_at tenant = None ∧ t_status tenant = "live" ∧ t_script_name tenant = Some (mx_script context) ∧
  mx_endpoints context = readTenantEndpoints json_parse tenant ∧ missing_endpoints (mx_endpoints context) = [] ∧ mx_release context = release ∧
  decryptStudioToken open (dp_kek deps) (default "" (t_studio_token_enc tenant)) = Ok (mx_studioApiToken context) ∧
  fetched TENANT_MODULE_CATALOG (mx_bundles context) tr ∧
  ∃ status text, answered (XCallStudio (mx_script context) "GET" "/" (mx_studioApiToken context) None) (Ok (status, text)) tr ∧ status < 500.
Lemma no_upgrade_refusal : upgrade_refusal json_parse tenant = None →
  t_deleted_at tenant = None ∧ t_suspended_at tenant = None ∧ t_status tenant = "live" ∧ t_script_name tenant = Some script ∧
  missing_endpoints (readTenantEndpoints json_parse tenant) = [].
Proof.
unfold upgrade_refusal. destruct (t_deleted_at tenant); [done|]. destruct (t_suspended_at tenant); [done|].
destruct (t_status tenant =? "live")%string eqn:E; [|done]. apply String.eqb_eq in E. cbn [negb].
destruct (t_script_name tenant) as [s|]; [|done]. destruct (opt_set (Some s)); [|done]. cbn [negb].
by destruct (missing_endpoints _).
Qed.
Lemma upgrade_refusal_status refusal : upgrade_refusal json_parse tenant = Some refusal → 400 <= rf_http refusal.
Proof. unfold upgrade_refusal. repeat first [case_match|intros [= <-]; cbn; lia|done]. Qed.
Lemma prefetch_safe catalog P : Stable P → (∀ spec, spec ∈ catalog → spec ∈ TENANT_MODULE_CATALOG) → (∀ tr c, P tr → looks_first c → al tr c) →
  safe al P (prefetch ask release catalog) (fetched catalog).
Proof.
intros HP Hc Hal. revert Hc. induction catalog as [|spec catalog IH]; intros Hc; cbn [prefetch].
{ apply safe_ret. intros tr _. split; [done|]. by intros m b ?%elem_of_nil. }
eapply safe_bind; [done|apply safe_attempt, (safe_perform al ask P (BFetchModule release (tm_module spec)))|].
{ intros tr Htr. apply Hal; [done|]. split; [done|]. apply list_elem_of_fmap_2, Hc. left. }
intros [e|b]; [apply safe_throw|]. eapply safe_bind; [apply _| |].
- eapply safe_weaken; [apply IH; intros s Hs; apply Hc; by right|by intros tr [Htr _]|intros a tr _ H; exact H].
- intros got. apply safe_ret. intros tr [[_ Hb] [E Hg]]. split; [cbn; by rewrite E|].
  intros module b' [[= -> ->]|H]%elem_of_cons; [done|by apply Hg].
Qed.
Lemma module_preflight_safe P : Stable P → (∀ tr c, P tr → looks_first c → al tr c) →
  safe al P (preflightModuleUpgrade ask open json_parse deps tenant release)
    (λ r tr, match r with inr context => fit_for_modules context tr | inl refusal => 400 <= rf_http refusal end).
Proof.
intros HP Hal. unfold preflightModuleUpgrade. destruct (upgrade_refusal json_parse tenant) as [refusal|] eqn:Hr.
{ apply upgrade_refusal_status in Hr. by apply safe_ret. }
apply no_upgrade_refusal in Hr as (Hd & Hs & Hl & Hsc & Hm).
destruct (decryptStudioToken _ _ _) as [token|text] eqn:Ht; [|by apply safe_ret].
eapply safe_bind; [done|apply (safe_perform al ask P (XCallStudio script "GET" "/" token None)); intros tr Htr; apply Hal; [done|by split_and!]|].
intros [status text]. destruct (500 <=? status) eqn:Hst; [by apply safe_ret|]. apply Z.leb_gt in Hst.
eapply safe_bind; [apply _|apply safe_attempt, (prefetch_safe TENANT_MODULE_CATALOG); [apply _|done|intros tr c [Htr _]; by apply Hal]|].
intros [e|got]; [by apply safe_ret|]. apply safe_ret. intros tr [[_ Ha] Hg]. split_and!; try done. by exists status, text.
Qed.
End module_preflight.

(** ** Upgrading *)
Inductive Upgrading := OfModules | OfStudio.
Section upgrading.
Context (ask : world) (open : list ascii → list ascii → list ascii → option string) (json_parse : string → option js).
Context (number : string → Num.num) (show : Num.num → string) (w : Wiring) (actor tenantId release : string).
Implicit Types (k : Upgrading) (t : Tenant) (j : ProvisionJob) (tr : trace) (P : trace → Prop).
Abbreviation deps := (wr_deps w).
Abbreviation named := (named tenantId).
Definition from_release k t : option string := match k with OfModules => t_modules_release t | OfStudio => t_studio_release t end.
Definition upgrade_verb k : string := match k with OfModules => "tenant.upgrade_modules" | OfStudio => "tenant.upgrade_studio" end.
Definition upgrade_work k (job : string) t : background := match k with OfModules => UpgradeModules job t | OfStudio => UpgradeStudio job t end.
Definition upgrade_looks k t (c : call) : Prop :=
  match k with OfModules => looks_first open deps t release c | OfStudio => only_looks open deps t release [] c end.
(** The release was found to fit, with nobody at work on the row. *)
Definition fits k t tr : Prop := named t tr ∧ idle t tr ∧
  match k with
  | OfModules => ∃ context, fit_for_modules open json_parse deps t release context tr
  | OfStudio => ∃ context, fit_to_move open number show deps t release context tr
  end.
Definition job_created k t j tr : Prop := fits k t tr ∧
  match k with
  | OfModules => ∃ id, answered (SCreateModuleUpgradeJob id (t_id t) (t_modules_release t) release) (Ok j) tr
  | OfStudio => ∃ id, answered (SCreateStudioUpgradeJob id (t_id t) (t_studio_release t) release) (Ok j) tr
  end.
Definition job_recorded k t j tr : Prop := job_created k t j tr ∧
  on_record actor t (upgrade_verb k) (upgrade_audit (from_release k t) release (p_id j)) tr.
Definition job_held k t j tr : Prop := job_recorded k t j tr ∧ answered (SSetJobRunning (p_id j)) (Ok tt) tr.
Definition upgrade_route_allows k tr (c : call) : Prop :=
  match c with
  | SGetTenantById id => id = tenantId
  | SGetLatestJob id => ∃ t, named t tr ∧ id = t_id t
  | KNow | KRandom _ => True
  | XCallStudio _ _ _ _ _ | BFetchModule _ _ | BFetchStudio _ => ∃ t, named t tr ∧ idle t tr ∧ upgrade_looks k t c
  | SCreateModuleUpgradeJob _ id from to => k = OfModules ∧ ∃ t, fits k t tr ∧ id = t_id t ∧ from = from_release k t ∧ to = release
  | SCreateStudioUpgradeJob _ id from to => k = OfStudio ∧ ∃ t, fits k t tr ∧ id = t_id t ∧ from = from_release k t ∧ to = release
  | SRecordAdminAction who action target d => who = actor ∧ action = upgrade_verb k ∧
      ∃ t j, job_created k t j tr ∧ target = Some (t_id t) ∧ d = upgrade_audit (from_release k t) release (p_id j)
  | SSetJobRunning job => ∃ t j, job_recorded k t j tr ∧ job = p_id j
  | WaitUntil work => ∃ t j, job_held k t j tr ∧ work = upgrade_work k (p_id j) t
  | _ => False
  end.
#[export] Instance stable_fits k t : Stable (fits k t).
Proof. destruct k; apply _. Qed.
#[export] Instance stable_job_created k t j : Stable (job_created k t j).
Proof. destruct k; apply _. Qed.
#[export] Instance stable_job_held k t j : Stable (job_held k t j).
Proof. apply _. Qed.
(** What an acceptance means: the run was handed on. *)
Definition handed_on k (r : admin_reply unit) tr : Prop :=
  match r with
  | Replied answer => answer.1 < 400 → ∃ t j, job_held k t j tr ∧ answered (WaitUntil (upgrade_work k (p_id j) t)) (Ok tt) tr ∧
      answer = upgrade_accepted j (from_release k t) release
  | Reported _ _ => False
  end.
Lemma upgrade_route_safe {C} k body (preflight : Wiring → Tenant → string → M trace exn (Refusal + C)) create :
  trimmed_text (js_field body "release") = release →
  (∀ t, safe (upgrade_route_allows k) (λ tr, named t tr ∧ idle t tr) (preflight w t release)
    (λ r tr, match r with inr _ => fits k t tr | inl refusal => 400 <= rf_http refusal end)) →
  (∀ t id, safe (upgrade_route_allows k) (fits k t) (create id t release) (λ j, job_created k t j)) →
  safe (upgrade_route_allows k) (λ _, True) (upgrade_route ask (Some w) actor tenantId body preflight (from_release k) create (upgrade_verb k) (upgrade_work k)) (handed_on k).
Proof.
intros Hb Hpre Hcreate. unfold upgrade_route, with_provisioner. rewrite Hb. apply with_tenant_safe; [done|intros tr; cbn; lia|]. intros t.
destruct (Str.truthy _); cbn [negb]; [|apply safe_ret; cbn; lia].
apply unless_driven_safe; [apply _|intros tr H; split; [by exists t|done]|intros fields tr; cbn; lia|].
eapply safe_seq; [apply Hpre|]. intros [refusal|context]; [apply safe_ret; intros tr H; cbn; lia|].
eapply safe_then; [apply _|unfold draw_id; eapply safe_then; [apply _|apply (safe_do _ _ _ (KRandom 12)); done|intros bytes; by apply safe_ret]|]. intros id.
eapply safe_seq; [apply Hcreate|]. intros j.
eapply safe_bind; [apply _|apply audited_safe; intros tr H; split_and!; [done|done|by exists t, j]|]. intros [].
eapply safe_bind; [apply _|apply (safe_perform _ _ _ (SSetJobRunning (p_id j))); intros tr H; by exists t, j|]. intros [].
eapply safe_bind; [apply _|apply (safe_perform _ _ _ (WaitUntil (upgrade_work k (p_id j) t))); intros tr H; by exists t, j|]. intros [].
apply safe_ret. intros tr [H Hw] _. by exists t, j.
Qed.
Definition upgrade_of k (body : js) : M trace exn (admin_reply unit) :=
  match k with
  | OfModules => upgrade_modules ask open json_parse (Some w) actor tenantId body
  | OfStudio => upgrade_studio ask open json_parse number show (Some w) actor tenantId body
  end.
Lemma upgrade_of_safe k body : trimmed_text (js_field body "release") = release →
  safe (upgrade_route_allows k) (λ _, True) (upgrade_of k body) (handed_on k).
Proof.
intros Hb. destruct k; [unfold upgrade_of, upgrade_modules|unfold upgrade_of, upgrade_studio].
- apply upgrade_route_safe; [done|intros t|intros t id].
  + eapply safe_post; [apply safe_keep, (module_preflight_safe ask open json_parse deps t release (upgrade_route_allows OfModules) (λ tr, named t tr ∧ idle t tr)); [apply _|apply _|]|].
    * intros tr c [Hn Hi] Hc. destruct c; try done; by exists t.
    * intros [refusal|context] tr [[Hn Hi] H]; [done|]. split_and!; [done|done|by exists context].
  + eapply safe_post; [apply safe_keep, (safe_perform _ ask (fits OfModules t) (SCreateModuleUpgradeJob id (t_id t) (t_modules_release t) release)); [apply _|]|].
    * intros tr H. split; [done|]. by exists t.
    * intros j tr [H Ha]. split; [done|by exists id].
- apply upgrade_route_safe; [done|intros t|intros t id].
  + eapply safe_post; [apply safe_keep, (preflight_safe ask open json_parse number show deps t release (upgrade_route_allows OfStudio) (λ tr, named t tr ∧ idle t tr)); [apply _| |apply _]|].
    * intros tr c [Hn Hi] Hc. destruct c; try done; by exists t.
    * intros [refusal|context] tr [[Hn Hi] H]; [done|]. split_and!; [done|done|by exists context].
  + eapply safe_post; [apply safe_keep, (safe_perform _ ask (fits OfStudio t) (SCreateStudioUpgradeJob id (t_id t) (t_studio_release t) release)); [apply _|]|].
    * intros tr H. split; [done|]. by exists t.
    * intros j tr [H Ha]. split; [done|by exists id].
Qed.
End upgrading.

(** An upgrade starts only what was checked, and leaves its way back.  Whatever is answered, the
    upgrade routes of modules and of studio ask this and nothing else: the tenant, its latest job and
    the clock; with no live driver, the read-only look of the preflight; a job at the named release,
    holding the release it leaves, only for what that look found fit; the audit row of that job; the
    job's lease once the row is written; and the run itself once the lease is held.  An answer that is
    not an error is the acceptance of a run so handed on, and no release is moved that was not named. *)
Theorem upgrade_starts_only_what_was_checked ask open json_parse number show w actor tenantId k body :
  let release := trimmed_text (js_field body "release") in
  let '(r, tr) := upgrade_of ask open json_parse number show w actor tenantId k body [] in
  obeys (upgrade_route_allows open json_parse number show w actor tenantId release k) tr ∧
  (∀ answer, r = Ok answer → handed_on open json_parse number show w actor tenantId release k answer tr) ∧
  (release = "" → (length tr <= 1)%nat).
Proof.
intros release. destruct (upgrade_of_safe ask open json_parse number show w actor tenantId release k body eq_refl [] (obeys_nil _) I) as (_ & Ho & Hp).
assert (release = "" → (length (upgrade_of ask open json_parse number show w actor tenantId k body []).2 <= 1)%nat) as Hl.
{ intros He. unfold upgrade_of, upgrade_modules, upgrade_studio, upgrade_route, with_provisioner, with_tenant. fold release. rewrite He.
  destruct k; rewrite bind_run, perform_run; destruct (ask [] _) as [[t|]|e]; cbn; lia. }
destruct (upgrade_of _ _ _ _ _ _ _ _ _ _ _) as [r tr]. cbn [fst snd] in *. split_and!; [done|by intros a ->|done].
Qed.

(** ** Bringing a live studio in line *)
Inductive ConvergeRoute := RouteRefresh | RouteVideoFinish (body : js) | RouteTierState (body : js) | RouteReportUrl | RouteCeiling (body : js).
Section converging.
Context (ask : world) (open : list ascii → list ascii → list ascii → option string) (json_parse : string → option js) (json_stringify : js → string).
Context (number : string → Num.num) (show : Num.num → string) (w : Wiring) (actor tenantId : string) (route : ConvergeRoute).
Implicit Types (t : Tenant) (op : Converging) (tr : trace) (P : trace → Prop).
Abbreviation deps := (wr_deps w).
Abbreviation named := (named tenantId).
Abbreviation allows := (converge_allows deps).
(** The operation a route stands for, as its path and its body say it: the same two verbs of the binding
    route never stand for each other, and a declaration or a ceiling is the one the body spells. *)
Definition asks_for t op : Prop :=
  match route, op with
  | RouteRefresh, Refresh _ => True
  | RouteVideoFinish body, Refresh _ => js_field body "attached" = JBool true
  | RouteVideoFinish body, Detach _ _ => js_field body "attached" = JBool false
  | RouteTierState body, TierState _ _ intent => js_field body "unreachable" = JBool (ti_unreachable intent) ∧
      ti_reason intent = (if ti_unreachable intent then Some (trimmed_text (js_field body "reason")) else None) ∧ ti_reason intent ≠ Some ""
  | RouteReportUrl, ReportUrl context => dp_abuseReportUrl deps = Some (ac_url context)
  | RouteCeiling body, Ceiling _ context => ∃ intent, quota_intent json_stringify body = inr intent ∧ qc_override context = override_asked intent ∧
      let resolved := resolveStorageQuota number show (dp_storageQuota deps) (intended_row t intent) in
      rq_blocked resolved = None ∧ qc_bytes context = rq_bytes resolved
  | _, _ => False
  end.
(** What each route leaves on record that it did. *)
Definition converge_verb : string :=
  match route with
  | RouteRefresh => "tenant.refresh_studio_bindings"
  | RouteVideoFinish body => match js_field body "attached" with JBool true => "tenant.attach_video_finish_binding" | _ => "tenant.detach_video_finish_binding" end
  | RouteTierState _ => "tenant.set_video_finish_tier_state"
  | RouteReportUrl => "tenant.set_abuse_report_url"
  | RouteCeiling _ => "tenant.set_storage_quota"
  end.
(** That operation, on the studio of that tenant, under the tenant's own token. *)
Definition about t op : Prop := asks_for t op ∧ t_script_name t = Some (op_script op) ∧
  (∀ token, op_token op = Some token → studio_token open deps t = inr token) ∧
  match op with Detach u _ | TierState u _ _ | Ceiling u _ => u = t | Refresh _ | ReportUrl _ => True end.
Definition converge_looks t (c : call) : Prop :=
  match c with
  | XCallStudio s method _ token body => t_script_name t = Some s ∧ studio_token open deps t = inr token ∧ method = "GET" ∧ body = None
  | _ => False
  end.
Definition converge_route_allows tr (c : call) : Prop :=
  match c with
  | SGetTenantById id => id = tenantId
  | SGetLatestJob id => ∃ t, named t tr ∧ id = t_id t
  | KNow => True
  | SRecordAdminAction who action target _ => who = actor ∧ action = converge_verb ∧ ∃ t, named t tr ∧ idle t tr ∧ target = Some (t_id t)
  | c => ∃ t, named t tr ∧ idle t tr ∧ (converge_looks t c ∨ ∃ op, about t op ∧ allows op tr c)
  end.
(** What a report says, down to whether the change took. *)
Definition reported {R} (verdict : R → bool) (a : admin_reply R) : option (Z * bool) :=
  match a with Replied _ => None | Reported status result => Some (status, verdict result) end.
Definition converge_route : M trace exn (option (Z * bool)) :=
  match route with
  | RouteRefresh => a ← refresh_studio_bindings ask (Some w) actor tenantId; mret (reported bc_ok a)
  | RouteVideoFinish body => a ← video_finish_binding ask (Some w) actor tenantId body; mret (reported bc_ok a)
  | RouteTierState body => a ← video_finish_tier_state ask open json_parse (Some w) actor tenantId body; mret (reported tr_ok a)
  | RouteReportUrl => a ← abuse_report_url ask open json_parse (Some w) actor tenantId; mret (reported ar_ok a)
  | RouteCeiling body => a ← storage_quota ask open json_parse json_stringify number show (Some w) actor tenantId body; mret (reported qr_ok a)
  end.
Definition seen_and_recorded (a : option (Z * bool)) tr : Prop := ∀ status ok, a = Some (status, ok) →
  (status = 200 ↔ ok = true) ∧
  ∃ t d, named t tr ∧ idle t tr ∧ on_record actor t converge_verb (AuditJson d) tr ∧ js_field d "ok" = JBool ok ∧
    (ok = true → ∃ op, about t op ∧ took json_parse number deps op tr).

(** An operation runs within the route's allowance. *)
Lemma operation_safe t op : about t op → safe converge_route_allows (λ tr, named t tr ∧ idle t tr)
  (converge ask json_parse number deps CONFIRM_FUEL op) (λ ok tr, ok = true → took json_parse number deps op tr).
Proof.
intros Hop. eapply safe_weaken; [|intros tr H; exact (conj I H)|intros a tr _ H; exact H].
apply (safe_where (allows op) converge_route_allows (λ _, True) (λ tr, named t tr ∧ idle t tr)); [|apply _|].
- intros al Hal. pose proof (converge_safe ask json_parse number deps (λ o tr c, allows o tr c ∨ al tr c) (λ _ _ _ H, or_introl H) CONFIRM_FUEL op) as H.
  intros tr Ho Htr. destruct (H tr) as (H1 & H2 & H3); [|done|].
  + intros pre c a post E. right. by eapply Ho.
  + split_and!; [done| |done]. intros pre c a post E. destruct (H2 _ _ _ _ E); [by apply Hal|done].
- intros tr c [Hn Hi] Hc. destruct c; try done; exists t; split_and!; try done; right; by exists op.
Qed.
Lemma safe_unmap {A B} P (m : M trace exn A) (f : A → B) (Q : B → trace → Prop) :
  safe converge_route_allows P (r ← m; mret (f r)) Q → safe converge_route_allows P m (λ r, Q (f r)).
Proof. intros H tr Ho Htr. specialize (H tr Ho Htr). rewrite bind_run in H. destruct (m tr) as [[a|e] tr']; exact H. Qed.
(** What a program of the provisioner answers: the result is that of an operation, where it took. *)
Definition outcome_seen {R} (verdict : R → bool) t (out : Refusal + R) tr : Prop :=
  match out with inr r => verdict r = true → ∃ op, about t op ∧ took json_parse number deps op tr | inl _ => True end.
Lemma apply_safe {R} (verdict : R → bool) t op (m : M trace exn R) : about t op →
  converge ask json_parse number deps CONFIRM_FUEL op = (r ← m; mret (verdict r)) →
  safe converge_route_allows (λ tr, named t tr ∧ idle t tr) (r ← m; mret (inr r)) (outcome_seen verdict t).
Proof.
intros Hop E. pose proof (operation_safe t op Hop) as H. rewrite E in H. apply safe_unmap in H.
eapply safe_seq; [exact H|]. intros r. apply safe_ret. intros tr Ht Hv. exists op. split; [done|by apply Ht].
Qed.
(** A preflight asks the studio one question, under its own token. *)
Lemma studio_json_safe t token path : t_script_name t = Some (default "" (t_script_name t)) → studio_token open deps t = inr token →
  safe converge_route_allows (λ tr, named t tr ∧ idle t tr) (studio_json ask json_parse (default "" (t_script_name t)) token path) (λ _ _, True).
Proof.
intros Hs Ht. unfold studio_json. apply safe_then; [apply _| |intros r; by apply safe_ret].
apply (safe_try _ _ _ (XCallStudio _ _ _ _ _)). intros tr [Hn Hi]. exists t. split_and!; [done|done|left]. by split_and!.
Qed.
Lemma scripted t : negb (opt_set (t_script_name t)) = false → t_script_name t = Some (default "" (t_script_name t)).
Proof. by destruct (t_script_name t). Qed.
Abbreviation keeps t := (λ tr, named t tr ∧ idle t tr).
Lemma wired_refresh_safe t : (∀ script, asks_for t (Refresh script)) → safe converge_route_allows (keeps t) (wired_refresh ask deps t) (outcome_seen bc_ok t).
Proof.
intros Hr. unfold wired_refresh, preflightStudioBindings. destruct (negb (opt_set _)) eqn:Hs; [by apply safe_ret|]. apply scripted in Hs.
destruct (isVideoFinishUnreachable t); [by apply safe_ret|]. by apply (apply_safe bc_ok t (Refresh (default "" (t_script_name t)))).
Qed.
Lemma wired_detach_safe t : (∀ script, asks_for t (Detach t script)) → safe converge_route_allows (keeps t) (wired_detach ask deps t) (outcome_seen bc_ok t).
Proof.
intros Hr. unfold wired_detach, preflightStudioBindingDetach. destruct (is_deleted t); [by apply safe_ret|]. destruct (negb (opt_set _)) eqn:Hs; [by apply safe_ret|]. apply scripted in Hs.
destruct (isVideoFinishUnreachable t); [by apply safe_ret|]. by apply (apply_safe bc_ok t (Detach t (default "" (t_script_name t)))).
Qed.
(** A preflight that ends in a context of the tenant's own studio and token. *)
Lemma preflighted_safe {C R} (verdict : R → bool) t (pre : M trace exn (Refusal + C)) (op : C → Converging) (apply_ : C → M trace exn R) :
  safe converge_route_allows (keeps t) pre (λ r _, match r with inr context => about t (op context) | inl _ => True end) →
  (∀ context, converge ask json_parse number deps CONFIRM_FUEL (op context) = (r ← apply_ context; mret (verdict r))) →
  safe converge_route_allows (keeps t)
    (p ← pre; match p with inl refusal => mret (inl refusal) | inr context => result ← apply_ context; mret (inr result) end) (outcome_seen verdict t).
Proof.
intros Hp E. eapply safe_bind; [apply _|exact Hp|]. intros [refusal|context]; [by apply safe_ret|].
intros tr Ho [Hk Ha]. exact (apply_safe verdict t (op context) (apply_ context) Ha (E context) tr Ho Hk).
Qed.
Lemma wired_tier_state_safe t intent : (∀ context, asks_for t (TierState t context intent)) → safe converge_route_allows (keeps t) (wired_tier_state ask open json_parse deps t intent) (outcome_seen tr_ok t).
Proof.
intros Hr. apply (preflighted_safe tr_ok t _ (λ context, TierState t context intent)); [|done]. unfold preflightVideoFinishTierState.
destruct (is_deleted t); [by apply safe_ret|]. destruct (negb (opt_set _)) eqn:Hs; [by apply safe_ret|]. apply scripted in Hs.
destruct (studio_token open deps t) as [refusal|token] eqn:Ht; [by apply safe_ret|].
assert (∀ before, about t (TierState t (mkTierContext (default "" (t_script_name t)) token before) intent)) as Ha by (intros before; split_and!; [done|done|by intros ? [= <-]|done]).
eapply safe_then; [apply _|unfold servedCapabilityReason; apply safe_then; [apply _|by apply studio_json_safe|intros got; by apply safe_ret]|].
intros [[reason|]|]; [by apply safe_ret| |by apply safe_ret]. destruct (ti_unreachable intent); by apply safe_ret.
Qed.
Lemma wired_abuse_url_safe t : (∀ context, dp_abuseReportUrl deps = Some (ac_url context) → asks_for t (ReportUrl context)) → safe converge_route_allows (keeps t) (wired_abuse_url ask open json_parse deps t) (outcome_seen ar_ok t).
Proof.
intros Hr. apply (preflighted_safe ar_ok t _ ReportUrl); [|done]. unfold preflightAbuseReportUrl.
destruct (is_deleted t); [by apply safe_ret|]. destruct (negb (opt_set _)) eqn:Hs; [by apply safe_ret|]. apply scripted in Hs.
destruct (negb (opt_set (dp_abuseReportUrl deps))) eqn:Hu; [by apply safe_ret|]. destruct (studio_token open deps t) as [refusal|token] eqn:Ht; [by apply safe_ret|].
eapply safe_then; [apply _|unfold servedAbuseReportUrl; apply safe_then; [apply _|by apply studio_json_safe|intros got; by apply safe_ret]|].
intros [url|]; apply safe_ret; [|done]. intros tr _. split_and!; [apply Hr; by destruct (dp_abuseReportUrl deps)|done|by intros ? [= <-]|done].
Qed.
Lemma wired_quota_safe t intent :
  (∀ context, qc_override context = override_asked intent → (let resolved := resolveStorageQuota number show (dp_storageQuota deps) (intended_row t intent) in
     rq_blocked resolved = None ∧ qc_bytes context = rq_bytes resolved) → asks_for t (Ceiling t context)) → safe converge_route_allows (keeps t) (wired_quota ask open json_parse number show deps t intent) (outcome_seen qr_ok t).
Proof.
intros Hr. apply (preflighted_safe qr_ok t _ (λ context, Ceiling t context)); [|done]. unfold preflightStorageQuota.
destruct (is_deleted t); [by apply safe_ret|]. destruct (negb (opt_set _)) eqn:Hs; [by apply safe_ret|]. apply scripted in Hs.
destruct (match intent with Some (IntentSet bytes) => _ | _ => false end); [by apply safe_ret|]. destruct (rq_blocked _) eqn:Hb; [by apply safe_ret|].
destruct (studio_token open deps t) as [refusal|token] eqn:Ht; [by apply safe_ret|].
eapply safe_then; [apply _|unfold readStudioStorage; apply safe_then; [apply _|by apply studio_json_safe|intros got; by apply safe_ret]|].
intros [| |quota used]; apply safe_ret; try done. intros tr _. split_and!; [by apply Hr|done|by intros ? [= <-]|done].
Qed.

(** The whole of a route, from the tenant's name to the audited report. *)
Lemma reporting_safe {R} (verdict : R → bool) t (run : M trace exn (Refusal + R)) action detail status :
  safe converge_route_allows (keeps t) run (outcome_seen verdict t) → (∀ a, status a = 200 ↔ verdict a = true) →
  action = converge_verb → (∀ a, js_field (JObj (detail a)) "ok" = JBool (verdict a)) →
  safe converge_route_allows (keeps t) (outcome ← run; concluded ask actor t outcome action detail status) (λ a, seen_and_recorded (reported verdict a)).
Proof.
intros Hrun Hst -> Hok. eapply safe_seq; [by apply safe_keep; [apply _|exact Hrun]|]. intros [refusal|result]; cbn [concluded]; [by apply safe_ret|].
assert (Stable (λ tr, keeps t tr ∧ outcome_seen verdict t (inr result) tr)) as HS by (unfold outcome_seen, took; apply _).
eapply safe_bind; [exact HS|apply audited_safe; intros tr [[Hn Hi] _]; split_and!; [done|done|by exists t]|]. intros [].
apply safe_ret. intros tr [[[Hn Hi] Hv] Ha] st ok [= <- <-]. split; [apply Hst|]. exists t, (JObj (detail result)). by split_and!.
Qed.
Lemma named_failure_safe {R} (verdict : R → bool) t (run : M trace exn (Refusal + R)) f :
  safe converge_route_allows (keeps t) (outcome ← run; f outcome) (λ a, seen_and_recorded (reported verdict a)) →
  safe converge_route_allows (keeps t) (named_failure run f) (λ a, seen_and_recorded (reported verdict a)).
Proof.
intros H tr Ho Htr. specialize (H tr Ho Htr). unfold named_failure. rewrite bind_run. rewrite bind_run in H. unfold attempt.
destruct (run tr) as [[a|e] tr']; [exact H|]. destruct H as (H1 & H2 & _). by destruct e.
Qed.
Lemma over_tenant {R} (verdict : R → bool) (f : Wiring → Tenant → M trace exn (admin_reply R)) :
  (∀ t, safe converge_route_allows (named t) (f w t) (λ a, seen_and_recorded (reported verdict a))) →
  safe converge_route_allows (λ _, True) (a ← with_provisioner ask (Some w) tenantId f; mret (reported verdict a)) seen_and_recorded.
Proof.
intros Hf. eapply safe_seq; [|intros a; apply safe_ret; intros tr H; exact H]. unfold with_provisioner. by apply with_tenant_safe.
Qed.
Lemma when_idle {R} (verdict : R → bool) t (m : M trace exn (admin_reply R)) :
  safe converge_route_allows (keeps t) m (λ a, seen_and_recorded (reported verdict a)) →
  safe converge_route_allows (named t) (unless_driven ask t m) (λ a, seen_and_recorded (reported verdict a)).
Proof. apply unless_driven_safe; [apply _|intros tr H; split; [by exists t|done]|done]. Qed.
Lemma ok_status {R} (verdict : R → bool) r : (if verdict r then 200 else 409) = 200 ↔ verdict r = true.
Proof. by destruct (verdict r). Qed.
Lemma settled_ok_status ok r : settled_status ok r = 200 ↔ ok = true.
Proof. unfold settled_status. destruct ok, (stranded r); done. Qed.
Lemma converge_route_safe : safe converge_route_allows (λ _, True) converge_route seen_and_recorded.
Proof.
unfold converge_route.
destruct route as [|body|body| |body] eqn:Er; apply over_tenant; intros t.
- apply when_idle, named_failure_safe, reporting_safe; [apply wired_refresh_safe; intros s|apply (ok_status bc_ok)|unfold converge_verb|]; by rewrite ?Er; unfold asks_for; rewrite ?Er.
- destruct (js_field body "attached") as [| |[]| | | |] eqn:Hb; try by apply safe_ret.
  + apply when_idle, named_failure_safe, reporting_safe; [apply wired_refresh_safe; intros s|apply (ok_status bc_ok)|unfold converge_verb|];
      unfold asks_for; by rewrite ?Er, ?Hb.
  + apply when_idle, named_failure_safe, reporting_safe; [apply wired_detach_safe; intros s|apply (ok_status bc_ok)|unfold converge_verb|];
      unfold asks_for; by rewrite ?Er, ?Hb.
- destruct (js_field body "unreachable") as [| |unreachable| | | |] eqn:Hb; try by apply safe_ret. cbv zeta.
  match goal with |- context [if ?b && ?c then _ else _] => destruct (b && c) eqn:Hn end; [by apply safe_ret|].
  apply when_idle, reporting_safe; [apply wired_tier_state_safe; intros context|apply (ok_status tr_ok)|unfold converge_verb; by rewrite Er|done].
  unfold asks_for. rewrite Er. split_and!; [done|done|]. cbn [ti_reason ti_unreachable]. destruct unreachable; [|done].
  intros [= E]. rewrite E in Hn. done.
- apply when_idle, reporting_safe; [apply wired_abuse_url_safe; intros context H|intros a; apply settled_ok_status|unfold converge_verb; by rewrite Er|done].
  unfold asks_for. by rewrite Er.
- apply when_idle. destruct (quota_intent json_stringify body) as [|intent] eqn:Hq; [by apply safe_ret|].
  apply reporting_safe; [apply wired_quota_safe; intros context H1 H2|intros a; apply settled_ok_status|unfold converge_verb; by rewrite Er|done].
  unfold asks_for. rewrite Er. by exists intent.
Qed.
End converging.

