(* ===== verification/LeverPolicy.v ===== *)
(** * The levers that stop, hold or destroy a studio (theorems about AdminStudios.v) *)

From S2P Require Export OnboardingPolicy AdminPolicy.
From Stdlib Require Import Ascii.
Open Scope string_scope.
Open Scope list_scope.
Open Scope Z_scope.
Open Scope plane_scope.

(** ** Tearing down *)
Section tearing_down.
Context (ask : world) (digest : string → list ascii) (pages : nat) (w : Wiring) (actor tenantId : string) (body : js).
Implicit Types (t row : Tenant) (token : string) (tr : trace) (P : trace → Prop).
Abbreviation deps := (wr_deps w).
Abbreviation named := (named tenantId).
Definition data_asked : bool := match js_field body "delete_data" with JBool true => true | _ => false end.
Definition slug_confirmed t : Prop := ∃ s, js_field body "confirm_slug" = JStr s ∧ Str.trim s = t_slug t.
(** The assertion of ownership is left out, or names this very tenant. *)
Definition owner_of t (own : option string) : Prop := asserted_owner body t = Some own.
Definition asked_for t (own : option string) : TeardownOpts := mkTeardownOpts data_asked (match own with Some _ => true | None => false end).
Definition leased t row token own tr : Prop := named t tr ∧ slug_confirmed t ∧ owner_of t own ∧
  answered (SBeginTeardown (t_id t) RECLAIM_LEASE_SECONDS) (Ok (Some (row, token))) tr.
Definition tear_intended t row own tr : Prop := on_record actor t "tenant.teardown.intent"
  (AuditJson (JObj ([("delete_data", JBool data_asked); ("i_own", jopt own)] ++ tenantResourceSnapshot row))) tr.
Definition begun t row token own tr : Prop := leased t row token own tr ∧ tear_intended t row own tr.
Definition wholly_gone t row (own : option string) tr : Prop := unheld row tr ∧ all_reaped deps row (asked_for t own) tr.
Definition teardown_route_allows tr (c : call) : Prop :=
  match c with
  | SBeginTeardown id seconds => ∃ t own, named t tr ∧ slug_confirmed t ∧ owner_of t own ∧ id = t_id t ∧ seconds = RECLAIM_LEASE_SECONDS
  | SGetTenantById id => id = tenantId ∨ ∃ t row token own, leased t row token own tr ∧ id = t_id t
  | SRecordAdminAction who _ target _ => who = actor ∧ ∃ t row token own, leased t row token own tr ∧ target = Some (t_id t)
  | SFinishTeardown id token promote => ∃ t row own, begun t row token own tr ∧ id = t_id t ∧
      (promote = true → data_asked = true ∧ wholly_gone t row own tr)
  | c => ∃ t row token own, begun t row token own tr ∧ teardown_calls digest deps row (asked_for t own) tr c
  end.
(** What a report rests on. *)
Definition torn_down (r : admin_reply TeardownReport) tr : Prop :=
  match r with
  | Reported _ report => ∃ t row token own finished promote d,
      begun t row token own tr ∧ answered (SFinishTeardown (t_id t) token promote) (Ok finished) tr ∧ on_record actor t "tenant.teardown" d tr ∧
      rt_delete_data report = data_asked ∧ rt_i_own report = own ∧
      (rt_refused report = [] → rt_failed report = [] → wholly_gone t row own tr)
  | Replied _ => True
  end.
#[export] Instance stable_wholly_gone t row own : Stable (wholly_gone t row own).
Proof. apply _. Qed.
Lemma nothing_left (r : TeardownOutcome) : refused_of r = [] → failed_of r = [] → td_failures r = [].
Proof.
unfold refused_of, failed_of. induction (td_failures r) as [|f fs IH]; [done|]. cbn. destruct (is_refusal f); cbn; [done|]. by intros H ?.
Qed.
Hypothesis row_ids : ∀ tr id seconds row token, ask tr (SBeginTeardown id seconds) = Ok (Some (row, token)) → tenant_id (t_id row).
Abbreviation safe := (safe teardown_route_allows).
(** The teardown itself, once begun. *)
Lemma begun_teardown_safe t row token own : tenant_id (t_id row) →
  safe (begun t row token own) (teardown ask digest pages w row (asked_for t own))
    (λ o tr, (td_ok o = true ↔ td_failures o = []) ∧ (td_ok o = true → wholly_gone t row own tr)).
Proof.
intros Hid. eapply safe_weaken; [|intros tr H; exact (conj I H)|intros a tr _ H; exact H]. unfold teardown.
apply (safe_where (teardown_calls digest deps row (asked_for t own)) teardown_route_allows (λ _, True) (begun t row token own)); [|apply _|].
- intros al Hal. by apply teardown_clean.
- intros tr c Hb Hc. destruct c; try done; by exists t, row, token, own.
Qed.
Lemma begin_safe t own : owner_of t own → slug_confirmed t → safe (named t) (perform ask (SBeginTeardown (t_id t) RECLAIM_LEASE_SECONDS))
  (λ r tr, match r with Some (row, token) => leased t row token own tr ∧ tenant_id (t_id row) | None => True end).
Proof.
intros Ho Hs tr Hob Hn. rewrite perform_run. cbn [fst snd].
assert (obeys teardown_route_allows (tr ++ [Ev (SBeginTeardown (t_id t) RECLAIM_LEASE_SECONDS) (ask tr (SBeginTeardown (t_id t) RECLAIM_LEASE_SECONDS))])) as Ho'.
{ apply obeys_snoc; [done|]. by exists t, own. }
split_and!; [by eexists|done|]. destruct (ask tr _) as [[[row token]|]|e] eqn:E; [|done..]. split; [|by eapply row_ids].
split_and!; [eapply stable_answered; [|exact Hn]; by eexists|done|done|]. unfold answered. apply elem_of_app. right. left.
Qed.
Lemma teardown_leased_safe t row token own : tenant_id (t_id row) → owner_of t own →
  safe (leased t row token own) (teardown_leased ask digest pages actor w t row token data_asked own) torn_down.
Proof.
intros Hid Hown. unfold teardown_leased.
eapply safe_bind; [apply _|apply audited_safe; intros tr H; split; [done|by exists t, row, token, own]|]. intros [].
eapply safe_bind; [apply _|eapply safe_weaken; [by apply begun_teardown_safe|intros tr H; exact H|intros a tr _ H; exact H]|]. intros o.
eapply safe_then; [apply _|apply (safe_do _ _ _ (SGetTenantById (t_id t))); intros tr [[H _] _]; right; by exists t, row, token, own|]. intros after.
eapply safe_bind; [apply _|apply (safe_perform _ _ _ (SFinishTeardown (t_id t) token (td_ok o && data_asked)))|].
{ intros tr [H [_ Hq]]. exists t, row, own. split_and!; [exact H|done|]. intros [Hok Hd]%andb_true_iff. split; [done|by apply Hq]. }
intros finished. eapply safe_bind; [apply _|apply audited_safe; intros tr [[[H _] _] _]; split; [done|by exists t, row, token, own]|]. intros [].
apply safe_ret. intros tr [[[Hb [Hf Hq]] Hfin] Haud]. eexists t, row, token, own, finished, _, _. split_and!; [exact Hb|exact Hfin|exact Haud|done|done|].
cbn [rt_refused rt_failed]. intros H1 H2. by apply Hq, Hf, nothing_left.
Qed.
Lemma teardown_studio_safe : safe (λ _, True) (teardown_studio ask digest pages (Some w) actor tenantId body) torn_down.
Proof.
unfold teardown_studio, with_provisioner. apply with_tenant_safe; [by left|done|]. intros t.
destruct (negb _) eqn:Ec; [by apply safe_ret|]. apply negb_false_iff in Ec. cbv zeta. destruct (asserted_owner body t) as [own|] eqn:Eo; [|by apply safe_ret].
assert (slug_confirmed t) as Hs. { unfold slug_confirmed. destruct (js_field body "confirm_slug") as [| | | |s| |]; try done. apply String.eqb_eq in Ec. by exists s. }
eapply safe_seq; [by apply begin_safe|]. intros [[row token]|]; [|by apply safe_ret].
intros tr Ho [Hl Hid]. by apply teardown_leased_safe.
Qed.
End tearing_down.

(** C8. A studio is destroyed only under its lease, with the intent on record.  Whatever the store and
    the cloud answer, the teardown route asks this and nothing else: the tenant; the destructive lease,
    once its slug was typed and any claim of ownership names this very tenant; under the lease, the
    audit row of the intent; after that what a guarded teardown of the leased row asks, with the data
    and the tombstones only as the request said; the read back; and the end of the pass under its own
    token, calling the tenant deleted only where the data was asked for and all of it was seen to go.
    A report with nothing refused and nothing failed means that no hold was open and everything is gone. *)
Theorem nothing_destroyed_without_a_lease (ask : world) digest pages w actor tenantId body :
  (∀ tr id seconds row token, ask tr (SBeginTeardown id seconds) = Ok (Some (row, token)) → tenant_id (t_id row)) →
  let '(r, tr) := teardown_studio ask digest pages (Some w) actor tenantId body [] in
  obeys (teardown_route_allows digest w actor tenantId body) tr ∧
  ∀ answer, r = Ok answer → torn_down w actor tenantId body answer tr.
Proof.
intros Hids. destruct (teardown_studio_safe ask digest pages w actor tenantId body Hids [] (obeys_nil _) I) as (_ & Ho & Hp).
destruct (teardown_studio _ _ _ _ _ _ _ _) as [r tr]. cbn [fst snd] in *. split; [done|by intros a ->].
Qed.

(** ** Stopping, holding and looking *)
Lemma probe_only ask json_parse json_stringify t gap samples : only (waiting_kind t) (probeTenantModuleReadiness ask json_parse json_stringify t gap samples).
Proof.
assert (only (waiting_kind t) (observeTenantModulesOnce ask json_parse json_stringify t)) as Ho.
{ apply gather_only. intros spec. unfold observe_one. apply only_bind; [|intros [status text]; walk_only]. apply only_perform. cbn [waiting_kind].
  by rewrite (proj2 (starts_with_spec (tenantModuleScriptPrefix t) (tenantModuleScriptName t (tm_module spec)))) by by eexists. }
unfold probeTenantModuleReadiness. apply only_bind; [done|]. intros first. apply only_bind; [|intros rounds; apply only_ret].
induction (samples - 1)%nat as [|n IH]; cbn [more_rounds]; [apply only_ret|]. apply only_bind; [by apply only_perform|]. intros _.
apply only_bind; [done|]. intros round. apply only_bind; [exact IH|intros rounds; apply only_ret].
Qed.

Inductive LeverRoute := RouteSuspend (body : js) | RouteResume | RouteReadiness | RouteListHolds | RouteOpenHold (body : js) | RouteReleaseHold (holdId : string) (body : js).
Section levers.
Context (ask : world) (json_parse : string → option js) (json_stringify : js → string) (text_of : js → string) (wiring : option Wiring) (actor tenantId : string).
Implicit Types (t : Tenant) (tr : trace) (P : trace → Prop).
Abbreviation named := (named tenantId).
Definition lever_route (r : LeverRoute) : M trace exn bool :=
  let succeeded {A} (a : admin_reply A) := match a with Reported _ _ => true | Replied _ => false end in
  match r with
  | RouteSuspend body => a ← suspend_studio ask text_of actor tenantId body; mret (succeeded a)
  | RouteResume => a ← resume_studio ask actor tenantId; mret (succeeded a)
  | RouteReadiness => a ← module_readiness ask json_parse json_stringify wiring actor tenantId; mret (succeeded a)
  | RouteListHolds => a ← list_holds ask actor tenantId; mret (succeeded a)
  | RouteOpenHold body => a ← open_hold ask text_of actor tenantId body; mret (succeeded a)
  | RouteReleaseHold holdId body => a ← release_hold ask text_of actor tenantId holdId body; mret (succeeded a)
  end.
Definition reason_in (body : js) (reason : string) : Prop := reason = Str.trim (nullish_text text_of (js_field body "reason")) ∧ Str.truthy reason = true.
(** The end of a hold is the one given, or the statute's from a moment the clock showed, or none. *)
Definition clock_of (body : js) (kind : string) (ends : option string) tr : Prop :=
  let given := trimmed_text (js_field body "expires_at") in
  if Str.truthy given then ends = Some given
  else match hold_days kind with
  | None => ends = None
  | Some days => ∃ now, answered KNow (Ok now) tr ∧ ends = Some (Date.to_iso (now + days * 24 * 60 * 60 * 1000))
  end.
Definition lever_allows (r : LeverRoute) tr (c : call) : Prop :=
  match c with
  | SGetTenantById id => id = tenantId
  | SSuspendTenant id reason => ∃ t body, r = RouteSuspend body ∧ named t tr ∧ id = t_id t ∧ reason_in body reason
  | SResumeTenant id => ∃ t, r = RouteResume ∧ named t tr ∧ id = t_id t ∧ t_suspended_at t ≠ None
  | XCallModule _ _ | KSleep _ => ∃ t d, r = RouteReadiness ∧ named t tr ∧ on_record actor t "tenant.read.module_readiness" d tr ∧ waiting_kind (t_id t) c = true
  | SListHolds id => ∃ t, named t tr ∧ id = t_id t ∧
      ((r = RouteListHolds ∧ ∃ d, on_record actor t "tenant.read.preservation_holds" d tr) ∨ ∃ holdId body, r = RouteReleaseHold holdId body)
  | SOpenHold h => ∃ t body, r = RouteOpenHold body ∧ named t tr ∧ ho_tenant_id h = t_id t ∧ ho_opened_by h = actor ∧ reason_in body (ho_reason h) ∧
      ho_kind h ∈ ["ncmec_2258a_h"; "le_2703_f"; "internal"] ∧ clock_of body (ho_kind h) (ho_expires_at h) tr
  | SReleaseHold id who reason => ∃ t body held, r = RouteReleaseHold id body ∧ who = actor ∧ reason_in body reason ∧
      named t tr ∧ answered (SListHolds (t_id t)) (Ok held) tr ∧ id ∈ ph_id <$> held
  | SRecordAdminAction who _ target _ => who = actor ∧ ∃ t, named t tr ∧ target = Some (t_id t)
  | KNow | KRandom _ => True
  | _ => False
  end.
Definition audited_success (ok : bool) tr : Prop := ok = true → ∃ t action d, named t tr ∧ on_record actor t action d tr.
Lemma lever_over {A} r (m : M trace exn (admin_reply A)) :
  safe (lever_allows r) (λ _, True) m (λ a tr, match a with Reported _ _ => audited_success true tr | Replied _ => True end) →
  safe (lever_allows r) (λ _, True) (a ← m; mret match a with Reported _ _ => true | Replied _ => false end) audited_success.
Proof. intros H. eapply safe_seq; [exact H|]. intros [a|status a]; apply safe_ret; [by intros tr _ ?|done]. Qed.
Lemma audit_ends {A} r t P action d (status : Z) (x : A) : Stable P → (∀ tr, P tr → named t tr) →
  safe (lever_allows r) P (_ ← audited ask actor t action d; mret (Reported status x))
    (λ a tr, match a with Reported _ _ => audited_success true tr | Replied _ => True end).
Proof.
intros HP Hn. eapply safe_bind; [done|apply audited_safe; intros tr Htr; split; [done|exists t; split; [by apply Hn|done]]|]. intros [].
apply safe_ret. intros tr [Htr Ha] _. exists t, action, d. split; [by apply Hn|exact Ha].
Qed.
Lemma suspend_safe body : safe (lever_allows (RouteSuspend body)) (λ _, True) (suspend_studio ask text_of actor tenantId body)
  (λ a tr, match a with Reported _ _ => audited_success true tr | Replied _ => True end).
Proof.
unfold suspend_studio. apply with_tenant_safe; [done|done|]. intros t. cbv zeta. set (reason := Str.trim _). destruct (Str.truthy reason) eqn:Hr; [|by apply safe_ret].
eapply safe_then; [apply _|apply (safe_do _ _ _ (SSuspendTenant (t_id t) reason)); intros tr Hn; by exists t, body|]. intros []. by apply audit_ends; [apply _|].
Qed.
Lemma resume_safe : safe (lever_allows RouteResume) (λ _, True) (resume_studio ask actor tenantId)
  (λ a tr, match a with Reported _ _ => audited_success true tr | Replied _ => True end).
Proof.
unfold resume_studio. apply with_tenant_safe; [done|done|]. intros t. destruct (t_suspended_at t) eqn:Hs; [|by apply safe_ret].
eapply safe_then; [apply _|apply (safe_do _ _ _ (SResumeTenant (t_id t))); intros tr Hn; exists t; by rewrite Hs|]. intros []. by apply audit_ends; [apply _|].
Qed.
Lemma readiness_safe : safe (lever_allows RouteReadiness) (λ _, True) (module_readiness ask json_parse json_stringify wiring actor tenantId)
  (λ a tr, match a with Reported _ _ => audited_success true tr | Replied _ => True end).
Proof.
unfold module_readiness, with_provisioner. destruct wiring as [w|]; [|by apply safe_ret]. apply with_tenant_safe; [done|done|]. intros t. unfold auditTenantRead.
eapply safe_bind; [apply _|apply audited_safe; intros tr Hn; split; [done|by exists t]|]. intros [].
eapply safe_then; [apply _|apply (only_safe (waiting_kind (t_id t))); [apply _|apply probe_only|]|].
{ intros tr c [Hn Ha] Hc. destruct c; try done; by exists t, (AuditJson (JObj [])). }
intros modules. apply safe_ret. intros tr [Hn Ha] _. by eexists t, _, _.
Qed.
Lemma list_holds_safe : safe (lever_allows RouteListHolds) (λ _, True) (list_holds ask actor tenantId)
  (λ a tr, match a with Reported _ _ => audited_success true tr | Replied _ => True end).
Proof.
unfold list_holds. apply with_tenant_safe; [done|done|]. intros t. unfold auditTenantRead.
eapply safe_bind; [apply _|apply audited_safe; intros tr Hn; split; [done|by exists t]|]. intros [].
eapply safe_then; [apply _|apply (safe_do _ _ _ (SListHolds (t_id t)))|].
{ intros tr [Hn Ha]. exists t. split_and!; [done|done|left]. by split; [|eexists]. }
intros l. apply safe_ret. intros tr [Hn Ha] _. by eexists t, _, _.
Qed.
Lemma hold_end_safe r body kind P : Stable P → safe (lever_allows r) P (hold_end ask body kind) (clock_of body kind).
Proof.
intros HP. unfold hold_end, clock_of. cbv zeta. destruct (Str.truthy _); [by apply safe_ret|]. destruct (hold_days kind) as [days|]; [|by apply safe_ret].
eapply safe_bind; [done|apply (safe_perform _ _ _ KNow); done|]. intros now. apply safe_lift. intros a tr [_ Hn]. unfold DAY_MS.
replace (days * (24 * 60 * 60 * 1000)) with (days * 24 * 60 * 60 * 1000) by lia. destruct (Date.valid _); [|done]. intros [= <-]. by exists now.
Qed.
#[export] Instance stable_clock_of body kind ends : Stable (clock_of body kind ends).
Proof. unfold clock_of. cbv zeta. destruct (Str.truthy _); [apply _|]. destruct (hold_days kind); apply _. Qed.
Lemma open_hold_safe body : safe (lever_allows (RouteOpenHold body)) (λ _, True) (open_hold ask text_of actor tenantId body)
  (λ a tr, match a with Reported _ _ => audited_success true tr | Replied _ => True end).
Proof.
unfold open_hold. apply with_tenant_safe; [done|done|]. intros t. cbv zeta. set (reason := Str.trim (nullish_text text_of (js_field body "reason"))).
destruct (Str.truthy reason) eqn:Hr; [|by apply safe_ret]. set (kind := Str.trim (nullish_text text_of (js_field body "kind"))). cbn [negb].
match goal with |- context [if negb ?b then _ else _] => destruct b eqn:Hk end; [|by apply safe_ret].
assert (kind ∈ ["ncmec_2258a_h"; "le_2703_f"; "internal"]) as Hin.
{ apply orb_true_iff in Hk as [[H|H]%orb_true_iff|H]; apply String.eqb_eq in H; rewrite H; by repeat constructor. }
cbn [negb]. eapply safe_bind; [apply _|apply hold_end_safe, _|]. intros ends.
eapply safe_then; [apply _|unfold draw_id; eapply safe_then; [apply _|apply (safe_do _ _ _ (KRandom 12)); done|intros bytes; by apply safe_ret]|]. intros id.
eapply safe_then; [apply _|apply (safe_do _ _ _ (SOpenHold (mkHoldOpen id (t_id t) kind reason actor ends)))|intros hold; by apply audit_ends; [apply _|intros tr [H _]]].
intros tr [Hn Hc]. by exists t, body.
Qed.
Lemma release_hold_safe holdId body : safe (lever_allows (RouteReleaseHold holdId body)) (λ _, True) (release_hold ask text_of actor tenantId holdId body)
  (λ a tr, match a with Reported _ _ => audited_success true tr | Replied _ => True end).
Proof.
unfold release_hold. apply with_tenant_safe; [done|done|]. intros t. cbv zeta. set (reason := Str.trim _).
destruct (Str.truthy reason) eqn:Hr; [|by apply safe_ret]. cbn [negb].
eapply safe_bind; [apply _|apply (safe_perform _ _ _ (SListHolds (t_id t))); intros tr Hn; exists t; split_and!; [done|done|right; by exists holdId, body]|].
intros held. destruct (List.find _ held) as [h|] eqn:Hf; [|by apply safe_ret]. apply find_some in Hf as [Hh Hid%String.eqb_eq].
eapply safe_then; [apply _|apply (safe_do _ _ _ (SReleaseHold holdId actor reason))|].
{ intros tr [Hn Ha]. exists t, body, held. split_and!; try done. rewrite <- Hid. by apply list_elem_of_fmap_2, list_elem_of_In. }
intros [hold|]; [|by apply safe_ret]. by apply audit_ends; [apply _|intros tr [H _]].
Qed.
Lemma lever_safe r : safe (lever_allows r) (λ _, True) (lever_route r) audited_success.
Proof.
destruct r; apply lever_over; [apply suspend_safe|apply resume_safe|apply readiness_safe|apply list_holds_safe|apply open_hold_safe|apply release_hold_safe].
Qed.
End levers.

(** A studio is stopped, held and let go for a reason, and on record.  Whatever is answered, the
    routes that suspend and resume a tenant, open, list and release its preservation holds and look
    at its modules touch only the tenant the path names; they suspend, open and release only for a
    reason given, resume only what is suspended, open a hold of one of the three kinds that ends when the
    request says, else when its statute does, and release only a hold that was listed as that
    tenant's own; they look only with the look on record, and succeed only with their audit row written. *)
Theorem levers_are_reasoned_and_recorded ask json_parse json_stringify text_of wiring actor tenantId r :
  let '(ok, tr) := lever_route ask json_parse json_stringify text_of wiring actor tenantId r [] in
  obeys (lever_allows text_of actor tenantId r) tr ∧ (ok = Ok true → ∃ t action d, named tenantId t tr ∧ on_record actor t action d tr).
Proof.
destruct (lever_safe ask json_parse json_stringify text_of wiring actor tenantId r [] (obeys_nil _) I) as (_ & Ho & Hp).
destruct (lever_route _ _ _ _ _ _ _ _ _) as [ok tr]. cbn [fst snd] in *. split; [done|intros ->; by apply Hp].
Qed.
