(* ===== verification/Witnesses.v ===== *)
(** * Concrete instances of the properties

    Each property with a hypothesis is applied here at a concrete input where its hypotheses hold. *)

From S2P Require Import BillingPeriod Ledger LlmRead Settlement PaymentRoutes.
From Stdlib Require Import Sorting.Sorted.
Open Scope string_scope.
Open Scope list_scope.
Open Scope Z_scope.
Open Scope plane_scope.

(** ** A small credit database: one tenant, a purchase, an open hold *)
Definition db0 : credit_db := mkCreditDb ["t1"] [] [].
Definition op_buy : credit_op :=
  OpAppend (mkAppend "led1" "t1" Purchase 500 None "paypal:x" None (Some "x") None "2026-07-01").
Definition op_take : credit_op := OpTake (mkHoldArgs "hold1" "t1" "job1" 200 "pl1" "2026-07-02" "2026-07-03").
Definition db1 : credit_db := exec_op op_take (exec_op op_buy db0).
Definition cap1 : capture_args := mkCapture "hold1" "led2" (Some 150) None "2026-07-02T01".
Definition db2 : credit_db := exec_op (OpCapture cap1) db1.

Lemma db1_reachable : credit_reachable db1.
Proof.
  exists ["t1"]. eapply steps_next; [exists op_buy; split; reflexivity|]. apply steps_one. exists op_take. by split.
Defined.
Lemma db2_reachable : credit_reachable db2.
Proof.
  destruct db1_reachable as [ts H]. exists ts. eapply steps_trans; [exact H|]. apply steps_one.
  exists (OpCapture cap1). by split.
Defined.
Definition hold1_captured : HoldRow :=
  settle_hold HoldCaptured "2026-07-02T01" (hold_of (mkHoldArgs "hold1" "t1" "job1" 200 "pl1" "2026-07-02" "2026-07-03")).

Lemma credit_exactly_once_witness :
  (∀ h, h ∈ cd_holds db2 → settled_once db2 h) ∧ (∀ n, capturedHoldsMissingDebit n db2 = []).
Proof. apply (credit_exactly_once db2), db2_reachable. Defined.

Lemma captureHold_branches_witness : captureHold cap1 db1 = (Ok true, db2).
Proof. rewrite (captureHold_branches cap1 db1 db1_reachable). vm_compute. reflexivity. Defined.

Lemma settled_hold_is_final_witness :
  (c_hold cap1 = h_id hold1_captured → captureHold cap1 db2 = (Ok false, db2)) ∧
  releaseHold (h_id hold1_captured) "2026-07-04" db2 = (Ok false, db2).
Proof.
  apply (settled_hold_is_final db2 db2 hold1_captured cap1 "2026-07-04").
  - exact db2_reachable.
  - vm_compute. left.
  - done.
  - constructor.
Defined.

Lemma capture_conserves_available_witness :
  ∃ h, h ∈ cd_holds db1 ∧ h_id h = c_hold cap1 ∧ h_status h = HoldOpen ∧
    ∀ t, settled_of t db2 = settled_of t db1 - hold_share t h ∧
         held_of t db2 = held_of t db1 - hold_share t h ∧ available_of t db2 = available_of t db1.
Proof. apply (capture_conserves_available cap1 db1 db2 db1_reachable). vm_compute. reflexivity. Defined.

Lemma readBalance_refines_witness :
  readBalanceSums "t1" db1 = (Ok (500, 200), db1) ∧ available_of "t1" db1 = 300.
Proof.
  destruct (readBalance_refines "t1" db1) as [H1 H2]; [vm_compute; discriminate|].
  split; [exact H1|reflexivity].
Defined.

Lemma computeBalance_exact_witness : computeBalance [500; -200] [100] true = mkBalance 300 100 200 true.
Proof. rewrite (computeBalance_exact [500; -200] [100] true); [reflexivity|vm_compute; discriminate]. Defined.

(** ** Billing periods *)
Definition july15 : Z := 1784073600000.

Definition june : BillingPeriod := mkPeriod "2026-06" "2026-06-01T00:00:00.000Z" "2026-07-01T00:00:00.000Z".
Definition july : BillingPeriod := mkPeriod "2026-07" "2026-07-01T00:00:00.000Z" "2026-08-01T00:00:00.000Z".

Lemma july_ordinary : ordinary july15.
Proof. vm_compute. split; discriminate. Qed.
Lemma july_period : billingPeriodContaining (Some july15) = Ok july.
Proof. vm_compute. reflexivity. Qed.
Lemma june_closed : lastClosedBillingPeriod (Some july15) = Ok june.
Proof. vm_compute. reflexivity. Qed.
Lemma july_month : 1200 < month_index july15.
Proof. vm_compute. reflexivity. Qed.

Lemma lastClosed_adjacent_witness : billingPeriodIsClosed june (Some july15) = true.
Proof. exact (proj1 (lastClosed_adjacent july15 june july_ordinary july_month june_closed)). Defined.

Lemma parseKey_roundtrip_witness : parseBillingPeriodKey (key july) = Ok (Some july).
Proof. exact (parseKey_roundtrip july15 july july_ordinary july_period). Defined.

Lemma two_digit_year_keys_refused_witness :
  ∃ p, billingPeriodContaining (Some (-60000000000000)) = Ok p ∧ parseBillingPeriodKey (key p) = Ok None.
Proof.
  destruct (two_digit_year_keys_refused (-60000000000000)) as (p & H1 & _ & H3); [vm_compute; split; discriminate|].
  exact (ex_intro _ p (conj H1 H3)).
Defined.

Definition row_july : RollupPeriodRow :=
  mkPeriodRow "p1" "2026-07-15T00:00:00.000Z" "2026-07-15T00:00:00.000Z" "complete" 1 0 (Some "2026-07-15T00:00:01.000Z").

Lemma july15_iso : Date.to_iso july15 = "2026-07-15T00:00:00.000Z".
Proof. vm_compute. reflexivity. Qed.

Lemma run_billed_in_one_month_witness :
  periodBelongsToWindow row_july (windowStart july) (windowEnd july) = true.
Proof.
  exact (proj1 (run_billed_in_one_month july15 july july15 july row_july july_ordinary july_ordinary
                  (eq_sym july15_iso) july_period july_period)).
Defined.

(** ** The gateway: two rows, served in pages *)
Definition gw_rows : list js :=
  [log_row "a" "t1" "2026-07-14T23:00:00Z" (Num.NInt 3); log_row "b" "t1" "2026-07-15T01:00:00Z" (Num.NFrac 1 1)].
Definition row_at (r : js) : string := match parseLogRow r with Some e => occurredAt e | None => "" end.
Definition gw_after (after : option string) : list js :=
  match after with None => gw_rows | Some w => jfilter (λ r, w <=s? row_at r) gw_rows end.
Definition gw_list (after : option string) (page perPage : Z) : M unit string (list js) := λ g,
  (Ok (firstn (Z.to_nat perPage) (skipn (Z.to_nat (page - 1) * Z.to_nat perPage) (gw_after after))), g).
Definition gw_probe : M unit string Probe := λ g, (Ok (mkProbe (Some (Num.NInt 2)) (Some "2026-07-14T23:00:00Z")), g).

Lemma gw_still : still_gateway gw_list gw_after tt.
Proof.
  assert (∀ after r, r ∈ gw_after after → r ∈ gw_rows) as Hsub.
  { intros [w|] r; [|done]. by intros [? _]%elem_of_jfilter. }
  split.
  - intros after page pp Hp. unfold gw_list. by rewrite Nat2Z.id.
  - intros after. assert (ascending (omap parseLogRow gw_rows)) as Hall
      by (vm_compute; repeat constructor).
    destruct after as [w|]; [|exact Hall].
    assert (∀ b : js → bool, ascending (omap parseLogRow (jfilter b gw_rows))) as Hf; [|apply Hf].
    intros b. unfold jfilter, gw_rows. cbn [List.filter].
    destruct (b (log_row "a" _ _ _)), (b (log_row "b" _ _ _)); vm_compute; repeat constructor.
  - intros after w r e Hr He Hw. apply elem_of_jfilter. split; [by eapply Hsub|]. unfold row_at. by rewrite He.
Qed.

Lemma resume_never_skips_witness :
  ∃ res, runRollup gw_list gw_probe None 1 tt = (Ok res, tt) ∧ status res = Complete ∧ length (events res) = 2%nat.
Proof.
  destruct (parseLogRow (log_row "a" "t1" "2026-07-14T23:00:00Z" (Num.NInt 3))) as [e|] eqn:He; [|discriminate He].
  destruct (resume_never_skips gw_list gw_probe gw_after tt None 1 _ _ e gw_still eq_refl
              ltac:(cbn; left) He) as (res & Hres & _).
  exists res. split; [exact Hres|]. vm_compute in Hres. injection Hres as <-. split; reflexivity.
Defined.

(** ** The meter's record: the world of [july_settled], with the straddling run in flight *)

Definition no_real_sum (l : list Num.num) : Num.num := Num.NNaN.
Definition july_read (w : world) : result string LlmSpendWindow :=
  readTenantLlmSpend no_real_sum 100 "t1" "2026-07-01T00:00:00.000Z" "2026-08-01T00:00:00.000Z" (wd_db w).

Lemma meter_record_is_true_witness : NoDup (ev_key <$> ld_events (wd_db july_settled)).
Proof. exact (proj1 (meter_record_is_true july_settled july_settled_reachable)). Defined.

Definition july_opened : world := step_now "2026-08-01T00:05:00.000Z" july_settled.
Lemma july_opens : world_step july_settled july_opened.
Proof.
  apply (act (wd_db july_settled) (wd_db july_opened) [] straddling_run [] "2026-08-01T00:05:00.000Z"
           (Some (at_stage straddling_run (writing (events (r_result straddling_run)) 0)))).
  vm_compute. reflexivity.
Qed.

Lemma cursor_never_passes_unstored_witness : cursor_le (cursor (wd_db july_settled)) (cursor (wd_db july_opened)).
Proof. exact (proj1 (cursor_never_passes_unstored july_settled july_opened july_settled_reachable july_opens)). Defined.

Lemma consecutive_windows_partition_witness :
  sumZ event_cost (billed "t1" "2026-07-01" "2026-09-01" (wd_db july_settled)) =
  sumZ event_cost (billed "t1" "2026-07-01" "2026-08-01" (wd_db july_settled)) +
  sumZ event_cost (billed "t1" "2026-08-01" "2026-09-01" (wd_db july_settled)).
Proof.
  exact (proj1 (consecutive_windows_partition july_settled "t1" "2026-07-01" "2026-08-01" "2026-09-01"
                  july_settled_reachable eq_refl eq_refl)).
Defined.

Lemma read_refines_window_witness :
  ∃ w, july_read july_settled = Ok w ∧ cost_micro_usd w = Num.NInt 3000000 ∧ isUnbillable (sw_window w) = false.
Proof.
  destruct (read_refines_window no_real_sum 100 "t1" "2026-07-01T00:00:00.000Z" "2026-08-01T00:00:00.000Z" (wd_db july_settled))
    as (w & Hr & Hc & _ & _ & _ & _).
  - vm_compute. lia.
  - split; [|vm_compute; discriminate]. intros e He. vm_compute in He.
    apply list_elem_of_singleton in He as ->. vm_compute. discriminate.
  - exists w. split; [exact Hr|]. vm_compute in Hr. injection Hr as <-. split; vm_compute; reflexivity.
Defined.

(** July with no run in flight. *)
Definition july_quiet : world := mkWorld (wd_db july_settled) [].
Lemma july_quiet_reachable : world_reachable july_quiet.
Proof.
  eapply steps_trans; [exact july_settled_reachable|]. apply steps_one.
  exact (die (wd_db july_settled) [] straddling_run []).
Qed.
Definition august_run : LlmRuns.run :=
  complete_run "p9" "2026-08-03T00:00:00.000Z" [log_row "z" "t1" "2026-08-02T23:00:00Z" (Num.NInt 7)].
Definition august : world := Nat.iter 3 (step_now "2026-08-03T00:00:01.000Z") (mkWorld (wd_db july_quiet) [august_run]).

Lemma august_steps : steps (later_step "2026-08-01T00:00:00.000Z") july_quiet august.
Proof.
  eapply steps_next; [|apply step_now_iter]. split.
  - apply (begin_run (wd_db july_quiet) [] august_run); [done| |by intros r Hr%elem_of_nil|].
    + intros p Hp. vm_compute in Hp. apply list_elem_of_singleton in Hp as ->. done.
    + intros e [->|He]%elem_of_cons; [|by apply elem_of_nil in He].
      exists (log_row "z" "t1" "2026-08-02T23:00:00Z" (Num.NInt 7)). reflexivity.
  - intros r Hr. assert (r = august_run) as -> by (by injection Hr). reflexivity.
Qed.

Lemma settled_window_frozen_witness :
  ∃ win, july_read july_quiet = Ok win ∧ isUnbillable (sw_window win) = false ∧ july_read august = Ok win.
Proof.
  destruct (july_read july_quiet) as [win|] eqn:Hr; [|vm_compute in Hr; discriminate Hr].
  assert (isUnbillable (sw_window win) = false) as Hb
    by (vm_compute in Hr; injection Hr as <-; vm_compute; reflexivity).
  exists win. split; [reflexivity|]. split; [exact Hb|].
  refine (settled_window_frozen no_real_sum 100 "t1" _ _ july_quiet august win july_quiet_reachable Hr Hb _ august_steps).
  by intros r Hr'%elem_of_nil.
Defined.

(** ** Settling July for one tenant, over the concrete ledger *)
Definition spend_july (t a b : string) : M credit_db string LlmSpendWindow := λ s,
  (july_read july_settled, s).
Definition one_tenant : M credit_db string (list TenantRef) := λ s, (Ok [mkTenantRef "t1" (Some "studio") None], s).
(** Another id for every row, and a clock. *)
Definition led_id : M credit_db string string := gets (λ s, "led_" +:+ Str.of_int (Z.of_nat (length (ledger_rows s)))).
Definition at_now : M credit_db string string := mret "2026-08-01T00:10:00.000Z".
Lemma led_id_quiet : draws_quietly led_id.
Proof. done. Qed.
Lemma at_now_quiet : draws_quietly at_now.
Proof. done. Qed.

Lemma spend_july_reads : ∀ t a b s, ledger_rows (exec (spend_july t a b) s) = ledger_rows s.
Proof. done. Qed.

Lemma settlement_report_true_witness :
  ∃ rep s', runLlmSettlement spend_july one_tenant (λ _, true) led_id at_now (Some 1000000) july db0 = (Ok rep, s') ∧
    sp_debited rep = 1%nat ∧ sp_totalDebitedMicroUsd rep = 2000000.
Proof.
  destruct (settlement_report_true spend_july led_id at_now spend_july_reads led_id_quiet at_now_quiet one_tenant (λ _, true) (Some 1000000) july
              [mkTenantRef "t1" (Some "studio") None] db0 db0 eq_refl eq_refl) as (rep & s' & added & Hrun & _).
  exists rep, s'. split; [exact Hrun|]. vm_compute in Hrun. injection Hrun as <- _. split; reflexivity.
Defined.

Definition july_report : SettlementReport :=
  match eval (runLlmSettlement spend_july one_tenant (λ _, true) led_id at_now (Some 1000000) july) db0 with
  | Ok rep => rep | Err _ => tally july false 0 end.
Definition db_july : credit_db :=
  exec (runLlmSettlement spend_july one_tenant (λ _, true) led_id at_now (Some 1000000) july) db0.
Definition july_report2 : SettlementReport :=
  match eval (runLlmSettlement spend_july one_tenant (λ _, true) led_id at_now (Some 0) july) db_july with
  | Ok rep => rep | Err _ => tally july false 0 end.

Definition row_charged : SettlementRow :=
  mkSettlementRow "t1" (Some "studio") (Debited 2000000 "overage:llm:2026-07" "led_0").
Definition row_again : SettlementRow :=
  mkSettlementRow "t1" (Some "studio") (AlreadySettled "overage:llm:2026-07" "led_0").

Lemma resettlement_never_recharges_witness :
  sp_rows july_report = [row_charged] ∧ sp_rows july_report2 = [row_again] ∧
  (∀ amount idem rid, sr_outcome row_again ≠ Debited amount idem rid).
Proof.
  assert (sp_rows july_report = [row_charged]) as H1 by (vm_compute; reflexivity).
  assert (sp_rows july_report2 = [row_again]) as H2 by (vm_compute; reflexivity).
  split; [exact H1|]. split; [exact H2|].
  refine (resettlement_never_recharges spend_july led_id at_now spend_july_reads led_id_quiet at_now_quiet one_tenant one_tenant (λ _, true)
    (Some 1000000) (Some 0) july db0 july_report db_july db_july july_report2 db_july [] _ db0 _ db_july
    eq_refl eq_refl eq_refl _ _ _ row_charged row_again _ _ eq_refl eq_refl).
  - vm_compute. reflexivity.
  - by rewrite app_nil_r.
  - vm_compute. reflexivity.
  - rewrite H1. left.
  - rewrite H2. left.
Defined.

Lemma settled_period_is_closed_witness :
  ∃ e, Date.parse_iso (windowEnd june) = Some e ∧ e <= july15.
Proof.
  assert (settle_period (Some "2026-06") july15 = Ok (inr june)) as H by (vm_compute; reflexivity).
  exact (proj1 (settled_period_is_closed (Some "2026-06") july15 june H)).
Defined.

Definition settle_july : settle_args credit_db :=
  mkSettle "t1" Llm (mkWindow "a" "b" (Some true) None) (Num.NInt 5) (Some (Num.NInt 2)) "2026-07" led_id at_now.

Lemma settle_writes_only_overage_witness :
  ∃ s', settleMeterOverage settle_july db0 = (Ok (Debited 3 "overage:llm:2026-07" "led_0"), s') ∧
    ∃ note id now, ledger_rows s' = [row_of (overage_row settle_july id now 3 5 "overage:llm:2026-07" note)].
Proof.
  assert (∃ s', settleMeterOverage settle_july db0 = (Ok (Debited 3 "overage:llm:2026-07" "led_0"), s')) as [s' Hs]
    by (eexists; vm_compute; reflexivity).
  pose proof (settle_writes_only_overage settle_july db0 led_id_quiet at_now_quiet) as H. rewrite Hs in H.
  destruct H as (note & u & al & id & now & _ & Hu & _ & _ & _ & _ & Hrows & _).
  exists s'. split; [exact Hs|]. exists note, id, now. injection Hu as <-. exact Hrows.
Defined.

Lemma settle_idempotent_witness :
  ledger_rows (exec (settleMeterOverage settle_july) (exec (settleMeterOverage settle_july) db0)) = ledger_rows (exec (settleMeterOverage settle_july) db0).
Proof.
  refine (proj1 (settle_idempotent settle_july settle_july db0 _ "overage:llm:2026-07" "led_0" led_id_quiet at_now_quiet led_id_quiet at_now_quiet eq_refl eq_refl eq_refl _)).
  left. exists 3. vm_compute. reflexivity.
Defined.

(** ** Payments: a PayPal that vouches for every webhook *)

Definition pp_capture : js :=
  JObj [("status", JStr "COMPLETED"); ("id", JStr "CAP1"); ("custom_id", JStr "t1");
        ("amount", JObj [("currency_code", JStr "USD"); ("value", JStr "10.00")])].
Definition pp_event : js := JObj [("event_type", JStr "PAYMENT.CAPTURE.COMPLETED"); ("resource", pp_capture)].
Definition pp_order : ApprovedOrder := mkApproved "ORD1" "t1".
Definition pp_fetch (rq : HttpRequest) : M unit string HttpResponse := λ w,
  (Ok (mkResponse 200 "" (Some (JObj [("access_token", JStr "tok"); ("verification_status", JStr "SUCCESS")]))), w).
Definition pp_cfg : PayPalRailConfig := mkPayPalConfig "id" "secret" "wh" (Some "live") None None.
Definition pp_headers : list (string * string) :=
  [("PayPal-Auth-Algo", "a"); ("PayPal-Cert-Url", "b"); ("PayPal-Transmission-Id", "c");
   ("PayPal-Transmission-Sig", "d"); ("PayPal-Transmission-Time", "e")].
Definition pp_request : WebhookRequest := mkWebhook pp_headers (Some pp_event).
Definition pp_settlement : SettlementEvent :=
  mkSettlement "t1" 10000000 "CAP1" (Some "paypal PAYMENT.CAPTURE.COMPLETED").

Lemma webhook_credits_only_verified_witness :
  ∃ s' y', paypalWebhook (Some (PayPalRail pp_fetch (λ w, (Ok 0, w)) (λ w, (Ok "uuid", w)) pp_cfg)) true "led1" "now"
             pp_request (db0, (None, tt)) = (Ok (Answer true), (s', y')) ∧
    ledger_rows s' = [row_of (settlement_row "paypal" "led1" "now" pp_settlement)].
Proof.
  destruct (webhook_credits_only_verified pp_fetch (λ w, (Ok 0, w)) (λ w, (Ok "uuid", w)) pp_cfg true "led1" "now"
              pp_request db0 (None, tt)) as (ans & s' & y' & Hrun & _).
  assert (ans = Answer true ∧ ledger_rows s' = [row_of (settlement_row "paypal" "led1" "now" pp_settlement)]) as [-> Hr].
  { vm_compute in Hrun. injection Hrun as <- <- _. split; vm_compute; reflexivity. }
  exists s', y'. split; [exact Hrun|exact Hr].
Defined.

Definition db_paid : credit_db := exec (applySettlement "paypal" "led1" "now" pp_settlement) db0.
Lemma pp_applied : applySettlement "paypal" "led1" "now" pp_settlement db0 = (Ok true, db_paid).
Proof. vm_compute. reflexivity. Qed.

Lemma settlement_credits_once_witness :
  applySettlement "paypal" "led2" "later" pp_settlement db_paid = (Ok false, db_paid).
Proof.
  exact (proj2 (settlement_credits_once "paypal" "led1" "now" pp_settlement db0 db_paid true pp_applied)
           "led2" "later" pp_settlement eq_refl eq_refl eq_refl).
Defined.

Definition pp_from_capture : SettlementEvent :=
  mkSettlement "t1" 10000000 "CAP1" (Some "paypal capture of order ORD1").

Lemma capture_and_webhook_credit_once_witness :
  applySettlement "paypal" "led2" "later" pp_from_capture db_paid = (Ok false, db_paid).
Proof.
  refine (capture_and_webhook_credit_once pp_order pp_capture pp_event pp_from_capture pp_settlement "CAP1"
    _ _ eq_refl eq_refl eq_refl eq_refl pp_settlement pp_from_capture (or_intror eq_refl)
    "led1" "now" "led2" "later" db0 db_paid true pp_applied); vm_compute; reflexivity.
Defined.

Definition no_audit (a b c : string) (d : list (string * js)) : M credit_db string unit := mret tt.
Definition credit_body : js :=
  JObj [("amount_micro_usd", JNum (Num.NInt 3000000)); ("reason", JStr "incident"); ("reference", JStr "inc-7")].

Lemma manual_credit_attributed_witness :
  ∃ s', manualCreditRoute no_audit true "led1" "now" "op:ann" (Some "ann") None (Some (mkOwner "t1" "acc")) credit_body db0
          = (Ok (Answer (mkManual true 3000000 "inc-7")), s') ∧
        find_ledger "t1" "manual:inc-7" (ledger_rows db0) = None.
Proof.
  assert (∃ s', manualCreditRoute no_audit true "led1" "now" "op:ann" (Some "ann") None (Some (mkOwner "t1" "acc")) credit_body db0
          = (Ok (Answer (mkManual true 3000000 "inc-7")), s') ∧ ledger_rows s' ≠ ledger_rows db0) as (s' & Hs & Hne)
    by (eexists; split; [vm_compute; reflexivity|discriminate]).
  exists s'. split; [exact Hs|].
  destruct (manual_credit_attributed no_audit true "led1" "now" "op:ann" (Some "ann") None
              (Some (mkOwner "t1" "acc")) credit_body db0 _ s' (λ _ _ _ _ _, eq_refl) Hs)
    as [Hsame|(t & a & reason & reference & operator & Ht & _ & _ & _ & _ & _ & _ & Hf & Hrows)]; [by destruct Hne|].
  reflexivity.
Defined.
