(* ===== verification/PlaneWitnesses.v ===== *)
(** * Concrete instances of the properties of tenants, jobs and views

    Witnesses.v does this for the money; here are the leases, the job index, the credit statement and
    the log client. *)

From S2P Require Import JobDriver CreditViews RunpodRoutes AiGatewayLogs Witnesses.
From Stdlib Require Import Ascii Sorting.Sorted.
Open Scope string_scope.
Open Scope list_scope.
Open Scope Z_scope.
Open Scope plane_scope.

Ltac at_instant := split; [vm_compute; reflexivity | split; vm_compute; discriminate].

(** ** A stalled provision, its name taken back by the owner *)
Lemma stalled_ok : plane_ok stalled_db.
Proof. apply replay_ok. split; cbn; apply NoDup_nil_2. Qed.
Lemma reclaimed_ok : plane_ok reclaimed_db.
Proof. apply (exec_ok (noon + 100) (OpClaimReclaim "ten_a" "acct_1" RECLAIM_LEASE_SECONDS "tok")), stalled_ok. Qed.

Definition stalled_row : Tenant := default (new_tenant 0 "" "" "" "") (getTenantById "ten_a" stalled_db).
Definition leased_row : Tenant := lease_row (noon + 100) RECLAIM_LEASE_SECONDS "tok" stalled_row.
Definition rivals : history :=
  [(noon + 110, OpBeginTeardown "ten_a" 300 "tok2"); (noon + 120, OpSetStatus "ten_a" "provisioning");
   (noon + 130, OpFinishTeardown "ten_a" "tok2" true)].

Lemma destructive_lease_is_exclusive_witness :
  beginTeardown (noon + 200) "ten_a" 300 "tok3" (replay rivals reclaimed_db) = (Ok None, replay rivals reclaimed_db) ∧
  lease_free (noon + 401) (t_reclaim_lease_until leased_row) = true.
Proof.
  split; [|vm_compute; reflexivity].
  refine (proj1 (proj2 (proj2 (destructive_lease_is_exclusive "ten_a" "tok" (noon + 400) rivals reclaimed_db leased_row
    reclaimed_ok _ _ _ _) (noon + 200) _ _)) 300 "tok3").
  - at_instant.
  - repeat constructor; try (vm_compute; (reflexivity || discriminate)).
  - vm_compute. reflexivity.
  - split; vm_compute; reflexivity.
  - at_instant.
  - vm_compute. discriminate.
Defined.

Definition live_db : plane_db := replay [(noon + 10, OpSetStatus "ten_a" "live")] stalled_db.
Definition torn_down : history :=
  [(noon + 100, OpBeginTeardown "ten_a" 300 "tok"); (noon + 120, OpFinishTeardown "ten_a" "tok" true)].

Lemma ever_live_name_is_gone_witness :
  (t_status <$> getTenantById "ten_a" (replay torn_down live_db)) = Some "deleted" ∧
  ∃ e, createTenant (noon + 900) "ten_b" "studio-a" "acct_1" "pending" (replay torn_down live_db) = (Err e, replay torn_down live_db).
Proof.
  split; [vm_compute; reflexivity|].
  assert (getTenantById "ten_a" live_db = Some (status_row (noon + 10) "live" stalled_row)) as Ht by (vm_compute; reflexivity).
  pose proof (ever_live_name_is_gone "ten_a" (SqlTime.datetime (noon + 10)) torn_down live_db _
    (replay_ok [(noon + 10, OpSetStatus "ten_a" "live")] _ stalled_ok) Ht ltac:(vm_compute; reflexivity)) as (_ & _ & H).
  exact (H (noon + 900) "ten_b" "acct_1" "pending").
Defined.

Lemma check_agrees_with_claim_witness :
  (claimReclaim (noon + 100) "ten_a" "acct_1" RECLAIM_LEASE_SECONDS "tok" stalled_db).1 = Ok (Some leased_row).
Proof.
  refine (proj1 (proj2 (check_agrees_with_claim stalled_db "studio-a" "acct_1" stalled_row (1000 * (noon + 100))
    RECLAIM_LEASE_SECONDS "tok" stalled_ok _ _ _)) (Some (mkReclaim "ten_a" (Some "d1-old") None None None)) _ _).
  - vm_compute. reflexivity.
  - intros u Hu. vm_compute in Hu. discriminate.
  - at_instant.
  - vm_compute. reflexivity.
  - vm_compute. discriminate.
Defined.

Lemma teardown_never_starts_under_a_driver_witness :
  ∃ j, getJob "job_a" stalled_db = Some j ∧ jobHasLiveDriver j (1000 * (noon + 100)) = false.
Proof.
  eexists. split; [vm_compute; reflexivity|].
  refine (proj1 (proj1 (teardown_never_starts_under_a_driver "ten_a" (1000 * (noon + 100)) stalled_db stalled_row
    stalled_ok _ _ _) "acct_1" RECLAIM_LEASE_SECONDS "tok" leased_row _) _ _ _).
  - vm_compute. reflexivity.
  - at_instant.
  - intros j Hj u Hu. vm_compute in Hj. apply list_elem_of_singleton in Hj as ->. exists (noon + 65).
    split; [at_instant|]. injection Hu as <-. vm_compute. reflexivity.
  - vm_compute. reflexivity.
  - vm_compute. left.
  - vm_compute. reflexivity.
Defined.

(** ** A driver at work, and a job that ended *)
Definition driving : history := [(noon + 30, OpRenewLease "job_a" JOB_LEASE_SECONDS); (noon + 31, OpProgress "job_a" "r2_create" "[]")].
Lemma one_driver_per_job_witness :
  claimJob (noon + 59) "job_a" JOB_LEASE_SECONDS (replay driving stalled_db) = (Ok false, replay driving stalled_db).
Proof.
  assert (∃ j, getJob "job_a" stalled_db = Some j ∧ driven_until (noon + JOB_LEASE_SECONDS) j) as (j & Hj & Hd).
  { eexists. split; [vm_compute; reflexivity|]. split; [vm_compute; reflexivity|]. exists (noon + 65).
    split_and!; [at_instant|vm_compute; discriminate|vm_compute; reflexivity]. }
  refine (proj1 (one_driver_per_job "job_a" noon driving stalled_db j stalled_ok Hj Hd _ (noon + 59) _ _) JOB_LEASE_SECONDS).
  - repeat constructor; try (vm_compute; (reflexivity || discriminate)).
  - at_instant.
  - vm_compute. discriminate.
Defined.

Definition finished_db : plane_db := replay [(noon + 40, OpFinishJob "job_a" true None None)] stalled_db.
Definition latecomers : history :=
  [(noon + 41, OpRenewLease "job_a" 60); (noon + 42, OpProgress "job_a" "x" "[]"); (noon + 43, OpFinishJob "job_a" false (Some "x") None)].
Lemma finished_job_is_closed_witness :
  (p_status <$> getJob "job_a" finished_db) = Some JobSucceeded ∧
  getJob "job_a" (replay latecomers finished_db) = getJob "job_a" finished_db.
Proof.
  split; [vm_compute; reflexivity|].
  assert (∃ j, getJob "job_a" finished_db = Some j ∧ unfinished j = false) as (j & Hj & Hu)
    by (eexists; split; [vm_compute; reflexivity|vm_compute; reflexivity]).
  rewrite Hj. refine (proj1 (finished_job_is_closed "job_a" latecomers finished_db j _ Hj Hu _)).
  - exact (replay_ok [(noon + 40, OpFinishJob "job_a" true None None)] _ stalled_ok).
  - repeat constructor; discriminate.
Defined.

Definition stalled_job : ProvisionJob :=
  default (new_job 0 "" "" KProvision None None None) (getJob "job_a" stalled_db).
Lemma drive_writes_only_what_it_won_witness :
  driveJobIfNeeded true (1000 * (noon + 30)) (1000 * (noon + 30)) (1000 * (noon + 30)) (noon + 30) stalled_row stalled_job stalled_db
    = (Ok LeftAlone, stalled_db) ∧
  ∃ db', driveJobIfNeeded true (1000 * (noon + 105)) (1000 * (noon + 105)) (1000 * (noon + 105)) (noon + 105) stalled_row stalled_job stalled_db
    = (Ok (Dispatched stalled_job), db') ∧ claimJob (noon + 105) "job_a" JOB_CLAIM_SECONDS stalled_db = (Ok true, db').
Proof.
  split; [vm_compute; reflexivity|]. eexists. split; [vm_compute; reflexivity|].
  refine (proj2 (proj2 (proj2 (proj2 (proj2 (drive_writes_only_what_it_won true (1000 * (noon + 105)) (1000 * (noon + 105))
    (1000 * (noon + 105)) (noon + 105) stalled_row stalled_job stalled_job stalled_db (Dispatched stalled_job) _ stalled_ok _ _)))))).
  - vm_compute. reflexivity.
  - vm_compute. reflexivity.
Defined.

Definition owned_db : plane_db :=
  replay [(noon + 50, OpCreateTenant "ten_b" "studio-b" "acct_1" "pending")] stalled_db.
Lemma live_owner_keeps_its_resource_witness :
  getResourceOwner ResD1 "d1-old" (exec_store (noon + 51) (OpSetResource ResD1 "ten_b" "d1-old" "") owned_db) = Some "ten_a".
Proof.
  refine (live_owner_keeps_its_resource (noon + 51) (OpSetResource ResD1 "ten_b" "d1-old" "") owned_db ResD1 "d1-old" "ten_a"
    stalled_row _ _ _ _ _ _); try discriminate; vm_compute; reflexivity.
Defined.

(** ** The credit statement *)
Lemma statement_accounts_for_every_job_witness :
  ∃ read, readCreditActivity "t1" db2 = (Ok read, db2) ∧
    sumZ al_delta (activity (buildTenantCreditView (view_args read None (mkOwner "t1" "acc") (mkPayPalEnv None None None None)))) = 300.
Proof.
  eexists. split; [vm_compute; reflexivity|].
  refine (eq_trans (proj1 (statement_accounts_for_every_job "t1" db2 _ db2 None (mkOwner "t1" "acc")
    (mkPayPalEnv None None None None) db2_reachable _ _)) _); vm_compute; reflexivity.
Defined.

Definition no_env : PayPalEnv := mkPayPalEnv None None None None.
Definition views_of_db2 : ViewArgs :=
  view_args (match fst (readCreditActivity "t1" db2) with Ok r => r | Err _ => mkActivity (mkBalance 0 0 0 false) [] [] false end)
    None (mkOwner "t1" "acc") no_env.
Lemma feed_order_is_total_witness :
  sort_activity (activity_lines (va_ledger views_of_db2) (va_holds views_of_db2))
    = activity (buildTenantCreditView views_of_db2) ∧ length (activity (buildTenantCreditView views_of_db2)) = 2%nat.
Proof.
  split; [|vm_compute; reflexivity].
  refine (proj2 (proj2 (feed_order_is_total views_of_db2 (activity (buildTenantCreditView views_of_db2)))) _ _ _).
  - vm_compute. repeat constructor; set_solver.
  - exact (proj1 (feed_order_is_total views_of_db2 [])).
  - exact (proj1 (proj2 (feed_order_is_total views_of_db2 []))).
Defined.
Lemma price_to_cost_is_of_known_costs_witness :
  cost_known_micro_usd (buildAdminCreditView views_of_db2) = 150 ∧ price_to_cost (buildAdminCreditView views_of_db2) ≠ None.
Proof.
  destruct (price_to_cost_is_of_known_costs views_of_db2) as (H1 & _ & H3); [vm_compute; discriminate..|].
  rewrite H1, H3. split; [vm_compute; reflexivity|vm_compute; discriminate].
Defined.

(** ** The job index *)
Lemma two_jobs_ok : jobs_ok two_jobs.
Proof.
  apply (job_steps_ok []); [exact jobs_ok_empty|]. unfold two_jobs.
  eapply steps_next; [apply step_open|]. eapply steps_next; [apply step_open|]. apply steps_one, step_close.
Defined.
Definition late_close : ProxyJobClose := mkJobClose "job1" "completed" "COMPLETED" None None 9000.
Lemma first_terminal_write_wins_witness :
  d1_closeRunpodProxyJob "t9" late_close two_jobs = (Ok 0%nat, two_jobs).
Proof.
  assert (∃ r, List.find (has_job "job1") two_jobs = Some r ∧ is_open_row r = false) as (r & Hr & Ho)
    by (eexists; split; vm_compute; reflexivity).
  destruct (proj1 (first_terminal_write_wins two_jobs "job1" r two_jobs_ok Hr Ho) two_jobs (steps_refl _ _))
    as (_ & _ & _ & _ & H).
  exact (H "t9" late_close eq_refl).
Defined.
Lemma sweep_queue_is_complete_witness :
  (d1_countOpenRunpodProxyJobs 2000 two_jobs).1 = Ok 1%nat ∧
  ∃ jobs, (d1_listOpenRunpodProxyJobs 2000 5 two_jobs).1 = Ok jobs ∧ length jobs = 1%nat.
Proof.
  assert (steps job_step [] two_jobs) as Hs.
  { eapply steps_next; [apply step_open|]. eapply steps_next; [apply step_open|]. apply steps_one, step_close. }
  destruct (sweep_queue_is_complete two_jobs 2000 5 Hs) as (_ & Hc & jobs & Hj & Hl & _).
  split; [exact Hc|]. exists jobs. split; [exact Hj|exact Hl].
Defined.

(** ** The log client: a gateway that answers 403, and one that answers an empty page *)
Definition refusing (rq : HttpRequest) : M unit string HttpResponse := λ w, (Ok (mkResponse 403 "" (Some (JObj []))), w).
Definition empty_page (rq : HttpRequest) : M unit string HttpResponse := λ w,
  (Ok (mkResponse 200 "" (Some (JObj [("success", JBool true); ("result", JArr [])]))), w).
Definition logs_cfg : AiGatewayLogsConfig := mkLogsConfig (Some "acc") (Some "gw") (Some "tok").

Lemma failed_gateway_is_never_zero_witness :
  ∃ r g', runRollup (logs_list (λ _, "") refusing logs_cfg) (logs_probe (λ _, "") refusing logs_cfg) None 10 tt = (Ok r, g') ∧
    status r = Failed ∧ controlPassed r = false ∧ events r = [] ∧ newWatermark r = None.
Proof.
  apply (failed_gateway_is_never_zero (λ _, "") refusing logs_cfg None 10 tt).
  intros rq g1 res g2 [= <- <-] [Hok _]. vm_compute in Hok. discriminate.
Defined.
Lemma read_pages_were_answered_witness :
  ∃ r g', runRollup (logs_list (λ _, "") empty_page logs_cfg) (logs_probe (λ _, "") empty_page logs_cfg) None 10 tt = (Ok r, g') ∧
    ∃ res, well_formed_page res.
Proof.
  do 2 eexists. split; [vm_compute; reflexivity|].
  refine (match read_pages_were_answered (λ _, "") empty_page logs_cfg None 10 tt _ _ _ _ _ with
          | ex_intro _ _ (ex_intro _ _ (ex_intro _ res (conj _ H))) => ex_intro _ res H end);
    [lia|vm_compute; reflexivity|vm_compute; discriminate].
Defined.

(** ** The proxy: a shared tenant, a RunPod that answers every request *)
Definition mac (k m : string) : list ascii := Str.chars "0123456789abcdef0123456789abcdef".
Definition dig (m : string) : list ascii := firstn 32 (Str.chars (m +:+ "................................")).
Definition tok_a : string := default "" (mintTenantProxyToken mac (Some "key") "ten_a").

Lemma proxy_token_exact_witness : verifyTenantProxyToken mac (Some "key") (Some tok_a) = Some "ten_a".
Proof.
  refine (proj2 (proj1 (proxy_token_exact mac (Some "key") _) tok_a "ten_a") _); [intros k m; vm_compute; reflexivity|].
  vm_compute. reflexivity.
Defined.

Definition shared_row : Tenant :=
  set_runpod_mode "shared" (set_status "live" (new_tenant noon "ten_a" "studio-a" "acct_1" "pending")).
Definition completed_body : js := JObj [("id", JStr "job2"); ("status", JStr "COMPLETED"); ("executionTime", JNum (Num.NInt 7))].
Definition rp_fetch (rq : HttpRequest) : M (list JobRow) string HttpResponse := λ w, (Ok (mkResponse 200 "{..}" (Some completed_body)), w).
Definition rp_key : M (list JobRow) string string := mret "rpa_key".
Definition rp_now : M (list JobRow) string Z := mret 400000.
Definition rp_random : M (list JobRow) string (list ascii) := mret (Str.chars "abcdefghijklmnopabcdefghijklmnop").
Definition rp_tenant (i : string) : M (list JobRow) string (option Tenant) :=
  mret (if i =s? "ten_a" then Some shared_row else None).
Definition rp_deps : ProxyDeps := mkDeps "https://plane/api/runpod/webhook" (Some "key") ["ep"].
Definition rp_request : ProxyRequest :=
  mkProxyRequest "POST" "/api/runpod/v2/ep/run" (Some ("Bearer " +:+ tok_a)) (Some "keyframe") (Some (JObj [("input", JObj [])])).

Lemma rp_leaves others : Reflexive others →
  (∀ rq, leaves_table (others := others) (rp_fetch rq)) ∧ leaves_table (others := others) rp_key ∧ leaves_table (others := others) rp_now.
Proof. intros Hr. split_and!; intros; intros db s Hs; exact Hs. Qed.

Lemma submit_spends_only_for_live_tenants_witness :
  ∃ ans s', handleProxySubmit rp_fetch rp_key rp_now rp_random rp_tenant mac dig rp_deps rp_request "ep" [] = (Ok (PassThrough ans), s') ∧
    length s' = 1%nat ∧ ∃ tenantId tenant, verifyTenantProxyToken mac (Some "key") (Some tok_a) = Some tenantId ∧ t_status tenant = "live".
Proof.
  assert (∃ ans s', handleProxySubmit rp_fetch rp_key rp_now rp_random rp_tenant mac dig rp_deps rp_request "ep" []
                      = (Ok (PassThrough ans), s') ∧ length s' = 1%nat) as (ans & s' & Hrun & Hl)
    by (do 2 eexists; split; vm_compute; reflexivity).
  pose proof (submit_spends_only_for_live_tenants (W := list JobRow) (others := eq) rp_fetch rp_key rp_now rp_random rp_tenant mac dig rp_deps
    rp_request "ep" [] (PassThrough ans) s' Hrun) as (tid & tenant & s1 & body & key & s2 & bytes & s3 & up & Hv & _ & _ & _ & Hlive & _).
  exists ans, s'. split; [exact Hrun|]. split; [exact Hl|]. exists tid, tenant. split; [exact Hv|exact Hlive].
Defined.

Lemma callback_closes_only_what_runpod_reports_witness :
  ∃ token s s', handleProxyWebhook rp_fetch rp_key rp_now dig token s = (Ok (CallbackDone true), s') ∧
    ∃ facts t dt, d1_closeRunpodProxyJob dt (close_of facts t) s = (Ok 1%nat, s') ∧ reported rp_fetch "ep" "job2" facts.
Proof.
  set (s := exec (d1_openRunpodProxyJob "t1" (mkJobOpen "job2" "ten_a" "a" None "ep" 1000 (sha256Hex dig "tok"))) []).
  exists "tok", s. eexists. split; [vm_compute; reflexivity|].
  destruct (callback_closes_only_what_runpod_reports (others := eq) rp_fetch rp_key rp_now dig "tok" s _ _
    (proj1 (rp_leaves eq _)) (proj1 (proj2 (rp_leaves eq _))) (proj2 (proj2 (rp_leaves eq _))) ltac:(vm_compute; reflexivity))
    as [[_ H]|(row & seen & ep & facts & t & n & <- & Hin & _ & _ & Hep & Hrep & (mid & dt & <- & Hd) & Hb)]; [by destruct (H eq_refl)|].
  apply list_elem_of_singleton in Hin. subst row. injection Hep as <-.
  assert (n = 1%nat) as -> by (apply Nat.eqb_eq; symmetry; by apply Hb).
  exists facts, t, dt. split; [exact Hd|exact Hrep].
Defined.

Definition gone_fetch (rq : HttpRequest) : M (list JobRow) string HttpResponse := λ w, (Ok (mkResponse 404 "" None), w).
Definition one_open : list JobRow := exec (d1_openRunpodProxyJob "t1" (mkJobOpen "job2" "ten_a" "a" None "ep" 1000 "h")) [].
Definition late : M (list JobRow) string Z := mret 4000000.
Lemma gone_leaves others : Reflexive others →
  (∀ rq, leaves_table (others := others) (gone_fetch rq)) ∧ leaves_table (others := others) late.
Proof. intros Hr. split; intros; intros db s Hs; exact Hs. Qed.

Lemma sweep_never_invents_an_outcome_witness :
  ∃ s', runRunpodJobSweep gone_fetch rp_key late one_open = (Ok (mkSweep true None 1 1 0 1 0 0), s') ∧
    ∃ t, steps (sweep_step (others := eq) gone_fetch t) one_open s'.
Proof.
  eexists. split; [vm_compute; reflexivity|].
  destruct (sweep_never_invents_an_outcome (others := eq) gone_fetch rp_key late one_open _ _ (proj1 (gone_leaves eq _))
    (proj1 (proj2 (rp_leaves eq _))) (proj2 (gone_leaves eq _)) ltac:(vm_compute; reflexivity)) as (t & Ht & _).
  exists t. exact Ht.
Defined.

Lemma one_open_ok : jobs_ok one_open.
Proof. apply (job_step_ok []); [exact jobs_ok_empty|]. apply step_open. Qed.
Lemma sweep_report_is_true_witness :
  ∃ s', runRunpodJobSweep rp_fetch rp_key rp_now one_open = (Ok (mkSweep true None 1 1 1 0 0 0), s') ∧
    (open_count one_open = open_count s' + 1 + 0)%nat.
Proof.
  eexists. split; [vm_compute; reflexivity|].
  exact (proj1 (proj2 (sweep_report_is_true rp_fetch rp_key rp_now one_open (mkSweep true None 1 1 1 0 0 0) _ (proj1 (rp_leaves eq _))
    (proj1 (proj2 (rp_leaves eq _))) (proj2 (proj2 (rp_leaves eq _))) one_open_ok ltac:(vm_compute; reflexivity)))).
Defined.

Lemma every_open_job_gets_its_attempts_witness :
  ∃ ks : list Z, Z.of_nat (length ks) = 4 ∧ ∀ k, k ∈ ks → 7000 + 300000 < 123 + k * 300000.
Proof.
  destruct (every_open_job_gets_its_attempts RECONCILER_ADOPT_AFTER_MS OBSERVED_RESULT_RETENTION_MS SWEEP_CRON_PERIOD_MS 7000 123
    ltac:(reflexivity)) as ((ks & _ & Hl & Hk) & _).
  exists ks. split; [exact Hl|]. intros k Hin. exact (proj1 (Hk k Hin)).
Defined.

Definition rp_env : ProxyEnv := mkProxyEnv None (Some "key") "plane".
Definition purge_request : ProxyRequest := mkProxyRequest "POST" "/api/runpod/v2/ep/purge-queue" (Some ("Bearer " +:+ tok_a)) None None.
Definition submit_stranger : ProxyRequest := mkProxyRequest "POST" "/api/runpod/v2/ep/run" None None (Some (JObj [])).
Lemma proxy_asks_only_what_it_serves_witness :
  proxyRouter rp_fetch rp_key rp_now rp_random rp_tenant mac dig (λ _, None) rp_env purge_request = Some (mret ProxyNotFound) ∧
  ∃ handler, proxyRouter rp_fetch rp_key rp_now rp_random rp_tenant mac dig (λ _, None) rp_env submit_stranger = Some handler ∧
    ∃ a, handler [] = (Ok a, []) ∧ (answer_status a = 401 ∨ answer_status a = 404).
Proof.
  split; [reflexivity|]. eexists. split; [reflexivity|].
  refine (proj2 (proxy_asks_only_what_it_serves (λ _, True) rp_fetch rp_key rp_now rp_random rp_tenant mac dig (λ _, None)
    rp_env submit_stranger _ eq_refl) _ _ []).
  - intros t. vm_compute. discriminate.
  - vm_compute. reflexivity.
Defined.

Lemma callback_url_roundtrip_witness :
  matchProxyRoute "POST" ("/api/runpod/webhook/" +:+ mintWebhookToken (Str.chars "abcdefghijklmnopabcdefghijklmnop"))
    = Some (RouteWebhook (mintWebhookToken (Str.chars "abcdefghijklmnopabcdefghijklmnop"))).
Proof.
  destruct (callback_url_roundtrip "https://plane" (Str.chars "abcdefghijklmnopabcdefghijklmnop") eq_refl) as (path & _ & _).
  vm_compute. reflexivity.
Defined.
