(* ===== verification/AuthWitnesses.v ===== *)
(** * Concrete instances of the properties of sign-in, operators, keys and routing *)

From S2P Require Import OperatorAuth KekRotation Routing JobDriver.
From Stdlib Require Import Ascii.
Open Scope string_scope.
Open Scope list_scope.
Open Scope Z_scope.
Open Scope plane_scope.

(** A box that shows its key, and bytes that are always the same: enough to run every function. *)
Definition clear_digest (s : string) : list ascii := Str.chars s.
Definition clear_seal (key iv : list ascii) (text : string) : list ascii := key ++ Str.chars text.
Definition clear_open (key iv box : list ascii) : option string :=
  if bool_decide (firstn (length key) box = key) then Some (Str.of_chars (skipn (length key) box)) else None.
Lemma clear_open_seal key iv text : clear_open key iv (clear_seal key iv text) = Some text.
Proof. unfold clear_open, clear_seal. by rewrite take_app_length, drop_app_length, bool_decide_true, of_chars_chars. Qed.

Section constant.
Context {W : Type}.
Definition same_bytes (c : ascii) (n : nat) : M W string (list ascii) := mret (repeat c n).
Definition no_mail (to subject text : string) : M W string unit := mret tt.
Definition no_audit (actor action : string) (target : option string) (detail : list (string * js)) : M W string unit := mret tt.
End constant.

Definition july16 : Z := 1784203200000.
Definition empty_auth : auth_db := mkAuth [] [] [] [] [] [] [].
Ltac year := vm_compute; split; discriminate.
Ltac still := intros; by intros ? ?.

(** ** Sign-in *)
Definition mailed_db : auth_db :=
  exec (sendMagicLink clear_digest (same_bytes "a") no_mail "https://studio.example" "ada@x.org" july16) empty_auth.
Definition link_token : string := randomToken (repeat "a"%char 32).
Definition ada : Account := mkAccount "acct_616161616161616161616161" "ada@x.org" "now" None None None.
Definition redeemed_db : auth_db := exec (redeemMagicLink clear_digest (same_bytes "a") link_token true (july16 + 60000)) mailed_db.

Definition second_click : result string UpsertResult :=
  eval (redeemMagicLink clear_digest (same_bytes "a") link_token true (july16 + 120000)) redeemed_db.
Lemma magic_link_works_once_witness :
  redeemMagicLink clear_digest (same_bytes "a") link_token true (july16 + 60000) mailed_db = (Ok (UpOk ada true), redeemed_db) ∧
  ∃ r, second_click = Ok r ∧ r = UpUnavailable.
Proof.
  assert (redeemMagicLink clear_digest (same_bytes "a") link_token true (july16 + 60000) mailed_db = (Ok (UpOk ada true), redeemed_db)) as H1
    by (vm_compute; reflexivity).
  split; [exact H1|]. exists UpUnavailable. split; [vm_compute; reflexivity|].
  assert (sendMagicLink clear_digest (same_bytes "a") no_mail "https://studio.example" "ada@x.org" july16 empty_auth = (Ok tt, mailed_db)) as H0
    by (vm_compute; reflexivity).
  assert (∃ s5, redeemMagicLink clear_digest (same_bytes "a") link_token true (july16 + 120000) redeemed_db = (Ok UpUnavailable, s5)) as [s5 H2]
    by (eexists; vm_compute; reflexivity).
  assert (four_digit_year (july16 + 60000)) as Hy1 by year.
  assert (four_digit_year (july16 + 15 * 60 * 1000)) as Hy2 by year.
  assert (NoDup (lt_hash <$> ad_tokens empty_auth)) as Hn by apply NoDup_nil_2.
  exact (proj2 (magic_link_works_once clear_digest (same_bytes "a") no_mail ltac:(still) ltac:(still) _ _ _ _ _ _ _ _ _ _ _ _ _
    Hn eq_refl H0 (steps_refl _ _) H1 Hy1 Hy2) redeemed_db true (july16 + 120000) UpUnavailable s5 (steps_refl _ _) H2).
Defined.

Definition ada_db : auth_db := mkAuth [ada] [] [] [] [] [] [].
Definition ada_cookie : string := "theme=dark; " +:+ SESSION_COOKIE +:+ "=" +:+ link_token +:+ "; lang=en".
Definition signed_in_db : auth_db := exec (startSession clear_digest (same_bytes "a") (ac_id ada) july16) ada_db.

Lemma session_names_one_account_witness :
  resolveSession clear_digest (Some ada_cookie) (july16 + 60000) signed_in_db = (Ok (Some ada), signed_in_db) ∧
  ac_id ada = ac_id ada ∧ is_set (ac_suspended_at ada) = false ∧ ac_deleted_at ada = None.
Proof.
  assert (resolveSession clear_digest (Some ada_cookie) (july16 + 60000) signed_in_db = (Ok (Some ada), signed_in_db)) as Hr
    by (vm_compute; reflexivity).
  split; [exact Hr|].
  destruct (session_names_one_account clear_digest (same_bytes "a") ltac:(still) (ac_id ada) july16 (repeat "a"%char 32)
    ada_db ada_db link_token 2592000 signed_in_db (Some ada_cookie)
    ltac:(apply NoDup_nil_2) eq_refl ltac:(vm_compute; reflexivity) ltac:(vm_compute; reflexivity)) as [H _].
  destruct (H signed_in_db (july16 + 60000) ada signed_in_db (steps_refl _ _) Hr) as (H1 & H2 & H3 & _).
  exact (conj H1 (conj H2 H3)).
Defined.

Lemma session_cookie_roundtrip_witness :
  resolveSession clear_digest
    (Some (Str.join "; " (["theme=dark"] ++ default "" (head (Text.split ";" (sessionCookie link_token 2592000 (Some "x.org")))) :: ["lang=en"])))
    (july16 + 60000) signed_in_db = (Ok (Some ada), signed_in_db).
Proof.
  apply (session_cookie_roundtrip clear_digest (same_bytes "a") (ac_id ada) ada july16 (repeat "a"%char 32) (Some "x.org")
    ["theme=dark"] ["lang=en"] (july16 + 60000) ada_db).
  - reflexivity.
  - reflexivity.
  - vm_compute. reflexivity.
  - vm_compute. reflexivity.
  - reflexivity.
  - repeat constructor.
  - repeat constructor. vm_compute. discriminate.
  - vm_compute. reflexivity.
  - year.
  - year.
  - reflexivity.
Defined.

Definition signed_up_db : auth_db := exec (upsertAccountForVerifiedEmail (same_bytes "a") AGoogle "g-1" "Ada@X.org " true) empty_auth.
Lemma sign_in_reaches_its_own_account_witness :
  usable ada ∧ ac_email ada = normalizeEmail "Ada@X.org ".
Proof.
  destruct (sign_in_reaches_its_own_account (W := auth_db) (same_bytes "a") ltac:(still) AGoogle "g-1" "Ada@X.org " true empty_auth ada true
    signed_up_db ltac:(vm_compute; reflexivity)) as (H & mid & _ & _ & H2 & _).
  exact (conj H H2).
Defined.

Lemma one_linking_rule_witness :
  ∃ db'', upsertAccountForVerifiedEmail (same_bytes "a") AGoogle "g-1" "Ada@X.org " false signed_up_db = (Ok (UpOk ada false), db'') ∧
    ad_accounts db'' = ad_accounts signed_up_db.
Proof.
  assert (accounts_ok empty_auth) as Hok by (split_and!; [apply NoDup_nil_2|intros ? []%elem_of_nil..]).
  pose proof (one_linking_rule (same_bytes "a") (repeat "a"%char 12) ltac:(done) AGoogle "g-1" "Ada@X.org " true empty_auth Hok) as H.
  destruct (upsertAccountForVerifiedEmail _ _ _ _ _ empty_auth) as [r db'] eqn:E.
  assert (r = Ok (UpOk ada true)) as -> by (apply (f_equal fst) in E; vm_compute in E; exact (eq_sym E)).
  assert (db' = signed_up_db) as -> by (apply (f_equal snd) in E; exact (eq_sym E)).
  destruct H as [(_ & _ & _ & _ & H) _]. exact (H false).
Defined.

(** ** Operators *)
Definition wide : string := "tenants:read  meter:operate bogus:scope tenants:read".
Lemma scopes_roundtrip_witness :
  parseScopes (formatScopes ["tenants:read"; "meter:operate"]) = ["tenants:read"; "meter:operate"] ∧
  ∀ s, s ∈ parseScopes wide → s ∈ ALL_SCOPES ∧ s ∈ words wide.
Proof.
  destruct (scopes_roundtrip (JArr [JStr "tenants:read"; JStr "meter:operate"]) ["tenants:read"; "meter:operate"] wide
    ltac:(vm_compute; reflexivity)) as (H1 & _ & _ & H2).
  exact (conj H1 H2).
Defined.

Definition mint_body : js := JObj [("name", JStr "night-shift"); ("scopes", JArr [JStr "tenants:read"; JStr "meter:operate"]); ("expires_in_days", JNull)].
Definition minted : result string MintAnswer * auth_db :=
  mintOperator clear_digest (same_bytes "a") no_audit "admin-token" mint_body july16 empty_auth.
Definition minted_db : auth_db := minted.2.
Definition opc_id : string := "opc_616161616161616161616161".
Definition night_shift : OperatorPrincipal :=
  mkPrincipal PCredential "operator:night-shift" (Some "night-shift") (Some opc_id) ["tenants:read"; "meter:operate"].

Lemma admin_gate_is_sound_witness :
  ∃ token mid req, bearerFrom (Some ("Bearer " +:+ link_token)) = Some token ∧ steps auth_step minted_db mid ∧
    adminRequirement "GET" "/api/admin/audit" = Some req ∧
    match req with NeedsRoot => night_shift = root_principal | NeedsScope scope => scope ∈ pr_scopes night_shift ∧ scope ∈ ALL_SCOPES | NeedsAuthentication => True end.
Proof.
  assert (∃ s', adminGate clear_digest "GET" "/api/admin/audit" (Some ("Bearer " +:+ link_token)) (Some "root") (july16 + 60000) minted_db
    = (Ok (AdmittedAs night_shift), s')) as [s' H] by (eexists; vm_compute; reflexivity).
  destruct (admin_gate_is_sound clear_digest _ _ _ _ _ _ _ _ H) as (token & mid & req & H1 & H2 & _ & H4 & H5 & _).
  exists token, mid, req. split; [exact H1|]. split; [exact H2|]. split; [exact H4|]. exact H5.
Defined.

Definition revoked_db : auth_db := exec (revokeOperator no_audit "admin-token" opc_id (Date.to_iso (july16 + 120000))) minted_db.
Lemma credential_acts_until_revoked_witness :
  eval (resolveOperator clear_digest (Some link_token) None (Date.to_iso (july16 + 60000))) minted_db = Ok (Some night_shift) ∧
  night_shift = mkPrincipal PCredential (operatorActor "night-shift") (Some "night-shift") (Some opc_id) ["tenants:read"; "meter:operate"] ∧
  eval (resolveOperator clear_digest (Some link_token) None (Date.to_iso (july16 + 180000))) revoked_db = Ok None.
Proof.
  assert (mintOperator clear_digest (same_bytes "a") no_audit "admin-token" mint_body july16 empty_auth =
    (Ok (Minted opc_id "night-shift" ["tenants:read"; "meter:operate"] None link_token), minted_db)) as Hm by (vm_compute; reflexivity).
  destruct (credential_acts_until_revoked clear_digest (same_bytes "a") no_audit ltac:(still) ltac:(still) "admin-token" mint_body july16 empty_auth
    opc_id "night-shift" ["tenants:read"; "meter:operate"] None link_token minted_db None
    ltac:(apply NoDup_nil_2) ltac:(by intros ? ? ?%elem_of_nil) Hm) as [H1 H2].
  assert (∃ s', resolveOperator clear_digest (Some link_token) None (Date.to_iso (july16 + 60000)) minted_db = (Ok (Some night_shift), s')) as [s' Ha]
    by (eexists; vm_compute; reflexivity).
  assert (revokeOperator no_audit "admin-token" opc_id (Date.to_iso (july16 + 120000)) minted_db = (Ok true, revoked_db)) as Hr
    by (vm_compute; reflexivity).
  assert (Str.truthy (Date.to_iso (july16 + 120000)) = true) as Hd by (vm_compute; reflexivity).
  assert (resolveOperator clear_digest (Some link_token) None (Date.to_iso (july16 + 180000)) revoked_db = (Ok None, revoked_db)) as Hb
    by (vm_compute; reflexivity).
  split; [exact (f_equal fst Ha)|]. split; [|exact (f_equal fst Hb)].
  destruct (H2 _ _ _ _ _ _ _ _ _ (steps_refl _ _) Hd Hr (steps_refl _ _) Hb) as [_|Hn]; [|discriminate Hn].
  destruct (H1 _ _ _ _ (steps_refl _ _) Ha) as [Hn|[Hp _]]; [discriminate Hn|exact Hp].
Defined.

Definition retired : OperatorCredential :=
  mkOperator "opc_1" "night-shift" "h1" "tenants:read" "2026-07-01T00:00:00.000Z" "admin-token" None None (Some "2026-07-02T00:00:00.000Z") (Some "admin-token").
Definition serving : OperatorCredential :=
  mkOperator "opc_2" "night-shift" "h2" "tenants:read" "2026-07-03T00:00:00.000Z" "admin-token" None None None None.
Definition renamed_db : auth_db := mkAuth [] [] [] [] [] [] [retired; serving].
Lemma live_name_is_one_credential_witness : serving = serving.
Proof.
  apply (live_name_is_one_credential renamed_db renamed_db).
  - vm_compute. apply NoDup_singleton.
  - apply steps_refl.
  - right. left.
  - right. left.
  - reflexivity.
  - reflexivity.
  - reflexivity.
Defined.

(** ** Keys *)
Definition key_a : string := btoa (Str.of_chars (repeat "k"%char 32)).
Definition key_b : string := btoa (Str.of_chars (repeat "n"%char 32)).
Definition rotating : KekRing := kekRing key_a (Some key_b) (Some " next ").
Definition promoted : KekRing := kekRing key_b None None.
Definition iv12 : list ascii := repeat "v"%char 12.
Definition kept_token : string := match encryptStudioToken clear_seal rotating iv12 "secret" with Ok b => b | Err _ => "" end.

Lemma studio_token_roundtrip_witness :
  decryptStudioTokenWithSlot clear_open rotating kept_token = Ok (SlotNext, "secret") ∧
  decryptStudioTokenWithSlot clear_open promoted kept_token = Ok (SlotPrimary, "secret").
Proof.
  assert (encryptStudioToken clear_seal rotating iv12 "secret" = Ok kept_token) as He by (vm_compute; reflexivity).
  destruct (studio_token_roundtrip clear_seal clear_open clear_open_seal rotating iv12 "secret" kept_token
    ltac:(vm_compute; reflexivity) eq_refl) as [H _].
  destruct (H He) as [H1 H2]. split; [exact H1|].
  apply (H2 promoted SlotPrimary SlotNext); [vm_compute; reflexivity|discriminate|exact I].
Defined.

Definition old_token : string := match encryptUnder clear_seal iv12 key_a "alpha" with Ok b => b | Err _ => "" end.
Definition second_token : string := match encryptUnder clear_seal iv12 key_a "beta" with Ok b => b | Err _ => "" end.
Definition sealed_tenant (i slug blob : string) : Tenant := set_studio_token_enc (Some blob) (new_tenant noon i slug "acct_1" "live").
Definition sealed_db : plane_db :=
  mkPlane ["acct_1"] [sealed_tenant "ten_a" "studio-a" old_token; sealed_tenant "ten_b" "studio-b" second_token] [] [].
Lemma same_bytes_length n (d : plane_db) : ∃ iv, same_bytes "v" n d = (Ok iv, d) ∧ length iv = n.
Proof. exists (repeat "v"%char n). split; [done|]. apply repeat_length. Qed.
Lemma sealed_ids : NoDup (t_id <$> pd_tenants sealed_db).
Proof. cbn. apply NoDup_cons_2; [|apply NoDup_singleton]. by intros H%list_elem_of_singleton. Qed.

Lemma complete_sweep_converges_witness :
  ∃ r db', sweepReencrypt clear_seal clear_open rotating (same_bytes "v") None sealed_db = (Ok r, db') ∧
    (sw_skipped_on_target r + sw_rotated r + length (sw_unreadable r) = sw_examined r)%nat ∧
    (sw_complete r = true ↔ (length (listEncryptedStudioTokens sealed_db) <= 500)%nat).
Proof.
  destruct (complete_sweep_converges clear_seal clear_open rotating (same_bytes "v") key_b (repeat "n"%char 32) clear_open_seal same_bytes_length
    ltac:(vm_compute; reflexivity) ltac:(vm_compute; reflexivity) ltac:(vm_compute; reflexivity) None sealed_db
    ltac:(vm_compute; reflexivity) sealed_ids) as (r & db' & H1 & H2 & _ & H4 & _).
  exists r, db'. exact (conj H1 (conj H2 H4)).
Defined.

Definition second_row : EncryptedToken := mkEncToken "ten_b" "studio-b" second_token.
Lemma bounded_sweep_never_continues_witness :
  kc_safe_to_promote (census_of clear_open rotating (listEncryptedStudioTokens
    (Nat.iter 7 (exec (sweepReencrypt clear_seal clear_open rotating (same_bytes "v") (Some 1%nat))) sealed_db))) = false.
Proof.
  destruct (bounded_sweep_never_continues clear_seal clear_open rotating (same_bytes "v") key_b (repeat "n"%char 32) clear_open_seal same_bytes_length
    ltac:(vm_compute; reflexivity) ltac:(vm_compute; reflexivity) ltac:(vm_compute; reflexivity) 1%nat 7%nat sealed_db
    ltac:(vm_compute; reflexivity) sealed_ids) as [_ H].
  assert (skipn 1 (listEncryptedStudioTokens sealed_db) = [second_row]) as Hskip by (vm_compute; reflexivity).
  refine (proj1 (H second_row _ _)); [rewrite Hskip; left|vm_compute; reflexivity].
Defined.

Lemma sweep_only_reencrypts_witness :
  steps (sweep_step (others := eq) clear_open rotating) sealed_db
    (exec (sweepReencrypt clear_seal clear_open rotating (same_bytes "v") (Some 1%nat)) sealed_db).
Proof.
  refine (sweep_only_reencrypts (others := eq) clear_seal clear_open rotating (same_bytes "v") clear_open_seal _ _ (Some 1%nat) sealed_db _).
  - intros n s iv s' H. injection H as <- _. apply repeat_length.
  - vm_compute. reflexivity.
  - intros n d0 s Hs. exact Hs.
Defined.

(** ** Routing *)
Lemma tenant_hosts_are_exact_witness :
  classifyHost (Some " Studio-A.Studio.Example.:8443") ("." +:+ "studio.example") = TenantHost "studio-a".
Proof.
  apply tenant_hosts_are_exact.
  - split; [reflexivity|]. exists "e"%char. split; [reflexivity|discriminate].
  - split; [vm_compute; reflexivity|]. exists ".", ":8443". split; [by right|]. split; [right; by exists "8443"|vm_compute; reflexivity].
Defined.

Definition router : RouterEnv := mkRouterEnv "studio.example" (Some key_a) (Some key_b) (Some "next") true.
Definition hosted : Tenant := set_script_name (Some "tenant-studio-a-studio") (sealed_tenant "ten_a" "studio-a" old_token).
Definition owners_db : auth_db :=
  exec (startSession clear_digest (same_bytes "a") "acct_1" july16) (mkAuth [mkAccount "acct_1" "ada@x.org" "now" None None None] [] [] [] [] [] []).
Definition owner_request : HttpRequest :=
  mkRequest "https://studio-a.studio.example/" "GET" [("Host", "studio-a.studio.example"); ("Cookie", ada_cookie); ("Authorization", "Bearer mine")] BNone.
Definition studio_request : HttpRequest :=
  mkRequest "https://studio-a.studio.example/" "GET"
    [("Host", "studio-a.studio.example"); ("cookie", "theme=dark; lang=en"); ("authorization", "Bearer alpha")] BNone.

Lemma dispatch_is_guarded_witness :
  routeTenantRequest clear_digest clear_open (λ slug, mret (if slug =s? "studio-a" then Some hosted else None)) (mret july16) (λ _, mret true)
    router owner_request owners_db = (Ok (Dispatch "tenant-studio-a-studio" studio_request), owners_db) ∧
  readSessionCookie (header_get "cookie" (rq_headers studio_request)) = None.
Proof.
  assert (routeTenantRequest clear_digest clear_open (λ slug, mret (if slug =s? "studio-a" then Some hosted else None)) (mret july16) (λ _, mret true)
    router owner_request owners_db = (Ok (Dispatch "tenant-studio-a-studio" studio_request), owners_db)) as H by (vm_compute; reflexivity).
  split; [exact H|].
  destruct (dispatch_is_guarded clear_digest clear_open _ _ _ _ _ _ _ _ _ H) as (slug & t & s1 & _ & _ & _ & _ & _ & _ & _ & _ & Hc & _).
  exact Hc.
Defined.
