(* ===== verification/ProvisionWitnesses.v ===== *)
(** * Concrete instances of the properties of provisioning, teardown, converging and moving a studio

    A cloud that says yes to everything, with a clock that runs as long as was slept; then a cloud that
    does as it is told: a script is listed with the names it was last given. *)

From S2P Require Import StudioUpgrade ModuleReadiness ProvisionPolicy.
From Stdlib Require Import Ascii.
Open Scope string_scope.
Open Scope list_scope.
Open Scope Z_scope.
Open Scope plane_scope.

(** ** The cloud *)
Definition tick (now : Z) (e : event) : Z :=
  match e with
  | Ev KNow (Ok t) => Z.max now t
  | Ev (KSleep ms) (Ok _) => now + ms
  | _ => now
  end.
Definition clock (tr : trace) : Z := fold_left tick tr 0.

Definition release_bundle : StudioBundle :=
  mkStudioBundle "worker.js" "export default {}" "2026-01-01" None None [mkAsset "/index.html" "PGI+" "text/html" "h1" 3]
    [mkMigration "0001_init.sql" "CREATE TABLE projects (id TEXT); -- projects"] ["ABUSE_REPORT_URL"; "SPEND_PRICEBOOK"].
Definition pool : SharedRunPodPool :=
  mkPool [mkEndpoint "backend" "Render" "ep1" "vivijure-render" "RUNPOD_ENDPOINT_ID";
          mkEndpoint "wan-train" "Train" "ep2" "vivijure-train" "RUNPOD_WAN_TRAIN_ENDPOINT_ID"].
Definition bound : list BindingListing := mkListing "plain_text" <$> required_bindings (pool_endpoints pool).
Definition willing : world := λ tr c,
  match c as c return result exn (ret c) with
  | SFinishJob _ _ _ _ | SReleaseJobLease _ | TRevokeByName _ => Ok true
  | SGetJob _ | SGetLatestJob _ => Ok None
  | SGetTenantById _ | SGetTenantForAccount _ | SReclaimSlug _ _ _ | SFinishTeardown _ _ _ => Ok None
  | SCheckSlugAvailability _ _ => Ok (Available None)
  | SClaimReclaim _ _ _ | SBeginTeardown _ _ => Ok None
  | SUpsertAccount email => Ok (UpOk (mkAccount "acct_1" email "2026-07-16T12:00:00.000Z" None None None) true)
  | SCreateTenant id slug account status => Ok (new_tenant 0 id slug account status)
  | SCreateProvisionJob id tenant _ release => Ok (new_job 0 id tenant KProvision None (Some release) (Some "shared"))
  | SCreateModuleUpgradeJob id tenant from to => Ok (new_job 0 id tenant KModuleUpgrade from (Some to) None)
  | SCreateStudioUpgradeJob id tenant from to => Ok (new_job 0 id tenant KStudioUpgrade from (Some to) None)
  | SListHolds _ => Ok []
  | SOpenHold h => Ok (mkHold (ho_id h) (ho_tenant_id h) (ho_kind h) (ho_reason h) "2026-07-16T12:00:00.000Z" (ho_opened_by h) (ho_expires_at h) None)
  | SReleaseHold _ _ _ => Ok None
  | NFetch _ => Ok (mkResponse 200 "{}" None)
  | SListOpenHolds _ => Ok []
  | SFindResourceReferrers _ _ => Ok []
  | SGetResourceOwner _ _ => Ok None
  | SIndexRunpodJobs _ _ rows => Ok (length rows)
  | CCreateD1 name => Ok (name +:+ "-id")
  | CQueryD1 _ _ _ => Ok (JArr [])
  | CCreateAssetsSession _ _ m => Ok (mkSession (Some "jwt") [(λ e, e.2.1) <$> m])
  | CUploadAssetBucket _ _ => Ok (Some "done")
  | CListNamespaceScripts _ => Ok []
  | CGetScriptSecretNames _ _ => Ok required_secrets
  | CGetScriptBindings _ _ => Ok bound
  | TMintBucketToken _ _ | TMintAigToken _ => Ok (mkMinted "tok_1" "value")
  | BFetchStudio _ => Ok release_bundle
  | BFetchModule _ _ => Ok (mkModuleBundle "index.js" "export default {}" "2026-01-01" None)
  | XCallStudio _ method _ _ _ => Ok (if method =s? "POST" then 201 else 200, "{}")
  | XCallModule _ _ => Ok (200, "{}")
  | XS3 _ _ _ _ => Ok (200, "")
  | KNow => Ok (clock tr)
  | KRandom n => Ok (repeat "a"%char n)
  | _ => Ok tt
  end.

Definition plane : ProvisionDeps :=
  mkDeps "tenants" "tenant-modules" "v1.2.3" "https://acct.r2.cloudflarestorage.com" (Some pool) (Some "gateway")
    (Some ("https://plane.example/api/runpod", "signing-key")) [("upscale", mkDoor "FINISH_UPSCALE_DOORS" "https://door.example" [("FINISH_DOOR_TOKEN", "t")])] []
    None (mkQuotaConfig None None None None) None (kekRing "AAAAAAAAAAAAAAAAAAAAAAAAAAAAAAAAAAAAAAAAAAA=" None None).
Definition tenant_with (db endpoints token : option string) : Tenant :=
  mkTenant "ten_ab12" "demo" "acct_1" "pending" None db None endpoints token None None None "2026-07-16T12:00:00.000Z" None None None None None None None None
    None 0 None None None None "shared".
Definition parse (text : string) : option js :=
  if text =s? "{}" then Some (JObj [("modules", JArr [JObj [("name", JStr "keyframe")]])])
  else if text =s? "endpoints" then
    Some (JArr ((λ e, JObj [("id", JStr (te_id e)); ("key", JStr (te_key e)); ("endpointVar", JStr (te_endpointVar e))]) <$> pool_endpoints pool))
  else None.
Definition provision (ask : world) (tenant : Tenant) (resume : option ProvisionResume) : M trace exn ProvisionOutcome :=
  runProvisionJob ask (λ _ _, repeat "s"%char 32) (λ key iv t, key ++ Str.chars t) Str.chars parse (λ _, "{}")
    (λ _, Num.NNaN) (λ _, "NaN") 3 plane "job_1" tenant 15000 resume.
(** The same cloud, taking four seconds for every call. *)
Definition slow : world := λ tr c, match c as c return result exn (ret c) with KNow => Ok (4000 * Z.of_nat (length tr)) | c => willing tr c end.

Lemma clock_honest : honest_clock willing.
Proof.
intros pre t1 mid t2 [= <-]. unfold clock. induction mid as [|e mid IH] using rev_ind.
- rewrite fold_left_app. cbn. lia.
- rewrite app_comm_cons, app_assoc, fold_left_app, slept_app. cbn [fold_left].
  destruct e as [[] a]; try (cbn [slept tick]; lia); destruct a; cbn [slept tick]; lia.
Qed.
Lemma ab12_ok : tenant_id "ten_ab12".
Proof. by exists ["a"; "b"; "1"; "2"]%char. Qed.

(** ** Provisioning *)
Definition half : ProvisionResume := mkResume (firstn 4 PROVISION_STEPS) "v1.2.3".
Lemma half_reached : reached 0 (pr_done half).
Proof. apply firstn_reached; lia. Qed.
Lemma provision_goes_live_only_verified_witness :
  (provision willing (tenant_with (Some "db") None None) (Some half) []).1 = Ok AwaitingGoLive ∧
  obeys (provision_calls (λ _ _, repeat "s"%char 32) Str.chars parse (λ _, "{}") (λ _, Num.NNaN) (λ _, "NaN") plane "job_1"
      (tenant_with (Some "db") None None) (firstn 4 PROVISION_STEPS) (λ _ r, r = "v1.2.3"))
    (provision willing (tenant_with (Some "db") None None) (Some half) []).2.
Proof.
split; [vm_compute; reflexivity|].
refine (proj1 (proj2 (provision_goes_live_only_verified willing _ _ _ _ _ _ _ 3 plane "job_1" (tenant_with (Some "db") None None) 15000 (Some half)
  half_reached (λ _ H, ltac:(discriminate H)) [] (obeys_nil _) I))).
Defined.

(** A tenant whose database was made, and whose first bucket credential is already stored. *)
Definition made : Tenant := tenant_with (Some "db") (Some "endpoints") (Some "tok_0").
Definition after_endpoints : ProvisionResume := mkResume (firstn 5 PROVISION_STEPS) "v1.2.3".
(** What a run recorded, minted, bound and revoked. *)
Definition recorded_in (tr : trace) : list (list step) := omap (λ e, match ev_call e with SUpdateJobProgress _ _ d => Some d | _ => None end) tr.
Definition minted_in (tr : trace) : list string := omap (λ e, match ev_call e with TMintBucketToken n _ => Some n | _ => None end) tr.
Definition rebinds_in (tr : trace) : bool := existsb (λ e, match ev_call e with CUploadUserWorker _ | TRevoke _ => true | _ => false end) tr.

(** A resume can stop between minting a bucket credential and binding it.  A job that had recorded its
    endpoints is resumed in a cloud that takes four seconds a call: the run mints a new credential, does
    not yield there, and yields at the next mark, the endpoints', before the worker that would bind the
    new secret is uploaded and before the old one is revoked; its progress is what it was, so the next
    invocation starts from the same place and mints again. *)
Theorem resume_yields_before_its_rebind :
  let '(r, tr) := provision slow made (Some after_endpoints) [] in
  r = Ok (Yielded RunpodEndpoints) ∧ minted_in tr = [tenantR2TokenName "demo"] ∧ rebinds_in tr = false ∧
  recorded_in tr = [pr_done after_endpoints; pr_done after_endpoints].
Proof. vm_compute. by split_and!. Qed.

(** ** Modules and teardown *)
Lemma token_probe_ends_witness :
  ∃ attempts elapsed, (awaitStudioTokenLive willing "tenant-demo" "token" []).1 = Ok (attempts, elapsed) ∧ (attempts <= 10)%nat.
Proof.
exists 1%nat, 0. split; [vm_compute; reflexivity|].
refine (proj2 (token_probe_ends willing clock_honest "tenant-demo" "token" 0 []) 1%nat 0 _). vm_compute. reflexivity.
Defined.
Lemma module_sweep_is_its_own_witness : obeys (sweep_calls "tenant-modules" "ten_ab12") (teardownTenantModules willing "tenant-modules" "ten_ab12" []).2.
Proof.
pose proof (module_sweep_is_its_own willing "tenant-modules" "ten_ab12" ab12_ok) as H.
destruct (teardownTenantModules willing "tenant-modules" "ten_ab12" []) as [r tr]. exact (proj1 H).
Defined.
Lemma teardown_is_guarded_witness :
  obeys (teardown_calls Str.chars plane made (mkTeardownOpts true false)) (teardownTenant willing Str.chars plane made (mkTeardownOpts true false) 3 []).2.
Proof. exact (teardown_is_guarded willing Str.chars plane made (mkTeardownOpts true false) 3 ab12_ok). Defined.

(** ** Readiness *)
(** Modules that answer with their own script name, and what that text parses to. *)
Definition answering : world := λ tr c, match c as c return result exn (ret c) with XCallModule s _ => Ok (200, s) | c => willing tr c end.
Definition ready_body (m : string) : js :=
  JObj [("module", JStr m); ("ok", JBool true); ("credentials", JObj [("runpod_api_key", JBool true); ("runpod_endpoint_id", JBool true)]);
        ("telemetry", JObj [("job_log", JStr "ok")])].
Definition parse_ready (text : string) : option js :=
  ready_body <$> List.find (λ m, tenantModuleScriptName "ten_ab12" m =s? text) (tm_module <$> TENANT_MODULE_CATALOG).
Lemma answering_honest : honest_clock answering.
Proof. exact clock_honest. Qed.
Definition waited_for : result exn ModuleReadiness * trace :=
  awaitTenantModulesReady answering parse_ready READY_FUEL "ten_ab12" MODULE_READY_PROBE_DEADLINE_MS TENANT_MODULE_CATALOG [].
Definition all_ready : ModuleReadiness := mkReadiness (reaching TENANT_MODULE_CATALOG) [] [] (tm_module <$> jfilter (λ s, negb (reachesRunpod s)) TENANT_MODULE_CATALOG) 1 0.
Lemma readiness_rests_on_answers_witness :
  waited_for.1 = Ok all_ready ∧ ∀ n, n ∈ reaching TENANT_MODULE_CATALOG → said parse_ready "ten_ab12" n Ready waited_for.2.
Proof.
assert (waited_for.1 = Ok all_ready) as E by (vm_compute; reflexivity). split; [exact E|].
assert (waited_for = (Ok all_ready, waited_for.2)) as E2 by (rewrite <- E; apply surjective_pairing).
exact (proj1 (proj2 (proj2 (proj2 (readiness_rests_on_answers answering parse_ready READY_FUEL "ten_ab12" MODULE_READY_PROBE_DEADLINE_MS TENANT_MODULE_CATALOG all_ready
  waited_for.2 E2))))).
Defined.
Lemma readiness_wait_ends_witness : ∃ r, waited_for.1 = Ok r ∧ (mr_attempts r <= 8)%nat.
Proof.
exists all_ready. assert (waited_for.1 = Ok all_ready) as E by (vm_compute; reflexivity). split; [exact E|].
exact (proj2 (readiness_wait_ends answering parse_ready "ten_ab12" answering_honest TENANT_MODULE_CATALOG 0 []) all_ready E).
Defined.
Definition looked_at : result exn (list TenantModuleObservation) * trace :=
  probeTenantModuleReadiness answering parse_ready (λ _, "?") "ten_ab12" MODULE_READINESS_PROBE_GAP_MS MODULE_READINESS_SAMPLES [].
Lemma proven_only_by_every_sample_witness : ∃ obs, looked_at.1 = Ok obs ∧ mo_module <$> obs = tm_module <$> TENANT_MODULE_CATALOG.
Proof.
assert (is_ok looked_at.1 = true) as E by (vm_compute; reflexivity). destruct looked_at as [[obs|e] tr] eqn:H; [|discriminate E].
exists obs. split; [reflexivity|].
exact (proj1 (proven_only_by_every_sample answering parse_ready (λ _, "?") "ten_ab12" MODULE_READINESS_PROBE_GAP_MS MODULE_READINESS_SAMPLES obs tr H)).
Defined.

(** ** Converging and moving *)

(** ** The cloud and a studio *)
Definition given (now : list string) (e : event) : list string :=
  match ev_call e with
  | CPatchScriptSettings _ _ bs => binding_name <$> bs
  | CUploadUserWorker args => binding_name <$> ua_bindings args
  | _ => now
  end.
Definition lists_given (first : list string) (tr : trace) : list string := fold_left given tr first.
(** It starts with the bindings [first] and answers every path with its own text. *)
Definition obliging (first : list string) : world := λ tr c,
  match c as c return result exn (ret c) with
  | CGetScriptBindings _ _ => Ok (mkListing "plain_text" <$> lists_given first tr)
  | XCallStudio _ _ path _ _ => Ok (200, path)
  | c => willing tr c
  end.
Lemma obliging_honest first : honest_clock (obliging first).
Proof. exact clock_honest. Qed.
Definition carried_names : list string := ["DB"; "R2_RENDERS"; "ASSETS"; "AI"; ABUSE_REPORT_URL_VAR] ++ REQUIRED_TENANT_STUDIO_VARS.
Definition read_path (path : string) : option js :=
  if path =s? STORAGE_USAGE_PATH then Some (JObj [("quota_bytes", JNum (Num.NInt 100)); ("used_bytes", JNum (Num.NInt 5))])
  else if path =s? "/api/modules" then Some (JObj [("host", JObj [("abuse_report_url", JStr "https://plane.example/report-abuse")])])
  else None.
Definition hundred (s : string) : Num.num := if s =s? "100" then Num.NInt 100 else Num.NNaN.
Definition reporting : ProvisionDeps :=
  mkDeps "tenants" "tenant-modules" "v1.2.3" "https://acct.r2.cloudflarestorage.com" (Some pool) (Some "gateway") None [] []
    None (mkQuotaConfig None None None None) (Some "https://plane.example/report-abuse") (kekRing "AAAAAAAAAAAAAAAAAAAAAAAAAAAAAAAAAAAAAAAAAAA=" None None).
Definition live : Tenant := tenant_with (Some "db") None None.

(** ** Converging *)
Definition capped : StorageQuotaContext := mkQuotaContext "tenant-demo" "token" (Some "100") FromTenant (Some (Some (OverrideSet "100"))) None (Some (Num.NInt 5)).
Definition lifted : StorageQuotaContext := mkQuotaContext "tenant-demo" "token" None TenantNone (Some (Some OverrideNone)) (Some (Num.NInt 100)) None.
Definition capping : result exn bool * trace := converge (obliging carried_names) read_path hundred reporting CONFIRM_FUEL (Ceiling live capped) [].
Lemma converged_is_observed_witness : capping.1 = Ok true ∧ took read_path hundred reporting (Ceiling live capped) capping.2.
Proof.
assert (capping.1 = Ok true) as E by (vm_compute; reflexivity). split; [exact E|].
apply (converged_is_observed (obliging carried_names) read_path hundred reporting CONFIRM_FUEL (Ceiling live capped)).
fold capping. rewrite <- E. apply surjective_pairing.
Defined.
Definition lifting : result exn StorageQuotaResult * trace :=
  applyStorageQuota (obliging (STORAGE_QUOTA_VAR :: carried_names)) read_path hundred reporting CONFIRM_FUEL live lifted [].
Lemma lifted_ceiling_is_never_ok_witness : ∃ r, lifting.1 = Ok r ∧ qr_ok r = false ∧ rb_missing_bindings (qr_readback r) = [STORAGE_QUOTA_VAR].
Proof.
assert (match lifting.1 with Ok r => qr_already_present r && bool_decide (rb_missing_bindings (qr_readback r) = [STORAGE_QUOTA_VAR]) | Err _ => false end = true) as E
  by (vm_compute; reflexivity).
destruct lifting as [[r|e] tr] eqn:H; [|discriminate E]. apply andb_true_iff in E as [E1 E2]. exists r. split; [reflexivity|]. split; [|by apply bool_decide_eq_true in E2].
exact (proj1 (lifted_ceiling_is_never_ok (obliging (STORAGE_QUOTA_VAR :: carried_names)) read_path hundred reporting CONFIRM_FUEL live lifted [] r tr H eq_refl E1)).
Defined.
Lemma readback_wait_ends_witness : ∃ r, lifting.1 = Ok r ∧ (qr_attempts r <= 7)%nat.
Proof.
assert (is_ok lifting.1 = true) as E by (vm_compute; reflexivity). destruct lifting.1 as [r|e] eqn:H; [|discriminate E]. exists r. split; [reflexivity|].
exact (proj2 (proj2 (readback_wait_ends (obliging (STORAGE_QUOTA_VAR :: carried_names)) (obliging_honest _) read_path hundred reporting 0 []) live lifted) r H).
Defined.

(** What a run patched and listed. *)
Definition listings (tr : trace) : list (list BindingListing) := omap (λ e, match e with Ev (CGetScriptBindings _ _) (Ok l) => Some l | _ => None end) tr.
Lemma listing_in ns s l tr : answered (CGetScriptBindings ns s) (Ok l) tr → l ∈ listings tr.
Proof. intros H. apply list_elem_of_omap. by eexists. Qed.
Definition lists_no_more_than (given : list (list WorkerBinding)) (tr : trace) : bool :=
  forallb (λ bs, forallb (λ l, forallb (λ n, existsb (String.eqb n) (binding_name <$> bs)) (bl_name <$> l)) (listings tr)) given.
Lemma lists_no_more_spec given tr : lists_no_more_than given tr = true → ∀ bs l n, bs ∈ given → l ∈ listings tr → n ∈ bl_name <$> l → n ∈ binding_name <$> bs.
Proof.
intros H bs l n Ha Hl Hn. unfold lists_no_more_than in H. rewrite !forallb_forall in H.
apply list_elem_of_In, H in Ha. rewrite forallb_forall in Ha. apply list_elem_of_In, Ha in Hl. rewrite forallb_forall in Hl.
apply list_elem_of_In, Hl, existsb_exists in Hn as (x & Hx & <-%String.eqb_eq). by apply list_elem_of_In.
Qed.
Definition patched (tr : trace) : list (list WorkerBinding) := omap (λ e, match ev_call e with CPatchScriptSettings _ _ bs => Some bs | _ => None end) tr.
Lemma ceiling_patch_drops_the_mode_witness : capping.1 = Ok true ∧ STORAGE_QUOTA_MODE_VAR ∉ carried_names.
Proof.
assert (capping.1 = Ok true) as E by (vm_compute; reflexivity). split; [exact E|].
assert (lists_no_more_than (patched capping.2) capping.2 && forallb (λ l, bool_decide (carried_names ⊆ bl_name <$> l)) (listings capping.2) = true) as Hl by (vm_compute; reflexivity).
apply andb_true_iff in Hl as [Hl Hsub].
destruct (ceiling_patch_drops_the_mode (obliging carried_names) read_path hundred reporting CONFIRM_FUEL live capped capping.2) as (before & [Hb _] & Hno & _).
- fold capping. rewrite <- E. apply surjective_pairing.
- intros t1 t2 bs l n Et Hin. apply (lists_no_more_spec _ _ Hl).
  + apply list_elem_of_omap. eexists. split; [rewrite Et; apply elem_of_app; right; left|done].
  + apply (listing_in "tenants" "tenant-demo"). unfold answered in *. rewrite Et. apply elem_of_app. right. by right.
- intros Hin. apply Hno. rewrite forallb_forall in Hsub. apply listing_in, list_elem_of_In, Hsub, bool_decide_eq_true in Hb. by apply Hb.
Defined.

(** ** Moving *)
Definition context : StudioUpgradeContext := mkStudioContext "tenant-demo" "v1.2.3" (Some "v1.2.2") release_bundle "token" None.
Definition move (first : list string) : result exn StudioUpgradeOutcome * trace :=
  upgradeTenantStudio (obliging first) read_path hundred (λ _, "NaN") reporting "job_1" live context [].
Definition uploads (tr : trace) : list UploadArgs := omap (λ e, match ev_call e with CUploadUserWorker args => Some args | _ => None end) tr.
Lemma lists_given_spec tr : lists_no_more_than (ua_bindings <$> uploads tr) tr = true → ∀ t1 t2 ns s args l n, tr = t1 ++ Ev (CUploadUserWorker args) (Ok tt) :: t2 →
  answered (CGetScriptBindings ns s) (Ok l) t2 → n ∈ bl_name <$> l → n ∈ binding_name <$> ua_bindings args.
Proof.
intros H t1 t2 ns s args l n E Hl. apply (lists_no_more_spec _ _ H).
- apply list_elem_of_fmap_2, list_elem_of_omap. eexists. split; [rewrite E; apply elem_of_app; right; left|done].
- apply (listing_in ns s). unfold answered in *. rewrite E. apply elem_of_app. right. by right.
Qed.
Lemma dropped_projection_fails_the_move_witness :
  (∃ r before, (move carried_names).1 = Ok (StudioUpgraded r) ∧
    ∀ n, n ∈ DERIVED → n ∈ bl_name <$> cs_bindings before → derived hundred (λ _, "NaN") reporting live n ≠ []) ∧
  ∃ m res, (move (STORAGE_QUOTA_VAR :: carried_names)).1 = Ok (StudioUpgradeFailed VerifyStep m (Some res)) ∧
    rb_missing_bindings (su_readback res) = [STORAGE_QUOTA_VAR].
Proof.
split.
- assert (match (move carried_names).1 with Ok (StudioUpgraded _) => lists_no_more_than (ua_bindings <$> uploads (move carried_names).2) (move carried_names).2 | _ => false end = true) as E by (vm_compute; reflexivity).
  destruct (move carried_names) as [[[r|s m res]|e] tr] eqn:H; [|discriminate E..].
  destruct (dropped_projection_fails_the_move (obliging carried_names) read_path hundred (λ _, "NaN") reporting "job_1" live context r tr H) as (before & _ & Hd).
  { intros t1 t2 args l n. by apply lists_given_spec. }
  by exists r, before.
- assert (match (move (STORAGE_QUOTA_VAR :: carried_names)).1 with
          | Ok (StudioUpgradeFailed VerifyStep _ (Some res)) => bool_decide (rb_missing_bindings (su_readback res) = [STORAGE_QUOTA_VAR]) | _ => false end = true)
    as E by (vm_compute; reflexivity).
  destruct (move (STORAGE_QUOTA_VAR :: carried_names)) as [[[r|s m res]|e] tr]; [discriminate E| |discriminate E]. cbn [fst] in *.
  destruct s; try discriminate E. destruct res as [res|]; [|discriminate E]. exists m, res. split; [reflexivity|]. by apply bool_decide_eq_true in E.
Defined.
