(* ===== verification/RouteWitnesses.v ===== *)
(** * Concrete instances of the properties of the routes and of the doors

    A plane with a shared pool, a tenant live on it, and a cloud that does as it is told; then sign-in
    with a provider, the studio token, the front door and usage. *)

From S2P Require Import LeverPolicy JobDriver ApiToken Entry TenantRoutes Usage TenantTypes AuthWitnesses ProvisionWitnesses.
From Stdlib Require Import Ascii.
Open Scope string_scope.
Open Scope list_scope.
Open Scope Z_scope.
Open Scope plane_scope.

(** ** The plane and a studio on it *)
Definition ring : KekRing := kekRing key_a None None.
Definition stored_token : string := match encryptStudioToken clear_seal ring iv12 "token" with Ok b => b | Err _ => "" end.
Definition offering : ProvisionDeps :=
  mkDeps "tenants" "tenant-modules" "v1.2.3" "https://acct.r2.cloudflarestorage.com" (Some pool) (Some "gateway") (Some ("https://plane.example/api/runpod", "signing-key")) [] []
    None (mkQuotaConfig None None None None) (Some "https://plane.example/report-abuse") ring.
Definition wired : Wiring := mkWiring offering (Some "rpa_pool").
Definition studio_at (status : string) (bucket suspended : option string) : Tenant :=
  mkTenant "ten_ab12" "aurora" "acct_1" status (Some "tenant-aurora") (Some "db") bucket (Some "endpoints") (Some "tok_0") (Some "v1.2.2") (Some "v1.2.2") (Some stored_token)
    "2026-07-16T12:00:00.000Z" None suspended None None None None None None None 0 None None None None "shared".
Definition studio : Tenant := studio_at "live" None None.
(** Texts are read by name: a module says that it can read its key, a studio what it is asked for. *)
Definition read_text (text : string) : option js :=
  match List.find (λ spec, tenantModuleScriptName "ten_ab12" (tm_module spec) =? text)%string TENANT_MODULE_CATALOG with
  | Some spec => Some (JObj [("module", JStr (tm_module spec)); ("credentials", JObj [("runpod_api_key", JBool true)])])
  | None => match parse text with Some v => Some v | None => read_path text end
  end.
(** The cloud knows this studio, lets it be torn down and retaken, and grants the pool's key to the
    endpoints but not to the account. *)
Definition granting (t : Tenant) : world := λ tr c,
  match c as c return result exn (ret c) with
  | SGetTenantById _ => Ok (Some t)
  | SBeginTeardown _ _ => Ok (Some (t, "lease"))
  | SFinishTeardown _ _ _ => Ok (Some t)
  | SCheckSlugAvailability _ _ => Ok (Available (Some (mkReclaim "ten_ab12" (Some "tenant-aurora") (Some "db") None (Some "tok_0"))))
  | SClaimReclaim _ _ _ => Ok (Some (t, "lease"))
  | SReclaimSlug _ _ _ => Ok (Some t)
  | NFetch rq => Ok (mkResponse (if rq_method rq =? "GET" then 200 else 401)%string "{}" None)
  | XCallModule script _ => Ok (200, script)
  | c => obliging carried_names tr c
  end.
Definition answers_ok {A} (p : A → bool) (run : result exn A * trace) : bool := match run.1 with Ok a => p a | Err _ => false end.

(** ** Going live *)
Definition signer : string → string → list ascii := λ _ _, repeat "s"%char 32.
Definition going_live : result exn reply * trace := installInvokeKey (granting (studio_at "awaiting_go_live" None None)) signer read_text (λ _, None) (Some wired) (JObj [])
  (studio_at "awaiting_go_live" None None) [].
Lemma live_only_on_evidence_witness :
  answers_ok (λ a, a.1 =? 200) going_live = true ∧ answered (SSetTenantStatus "ten_ab12" "live") (Ok tt) going_live.2 ∧
  obeys (live_allows signer read_text wired (studio_at "awaiting_go_live" None None) "rpa_pool") going_live.2.
Proof.
assert (answers_ok (λ a, a.1 =? 200) going_live && (0 <? length going_live.2)%nat = true) as [E Hn]%andb_true_iff by (vm_compute; reflexivity).
split; [exact E|]. pose proof (live_only_on_evidence (granting (studio_at "awaiting_go_live" None None)) signer read_text (λ _, None) (Some wired) (JObj [])
  (studio_at "awaiting_go_live" None None)) as H. fold going_live in H. destruct going_live as [r tr]. unfold answers_ok in E. cbn [fst snd] in *.
destruct r as [a|e]; [|discriminate E]. destruct H as [H1 H2]. split.
- apply (H1 a); [reflexivity|lia].
- destruct H2 as (_ & _ & w & key & [= <-] & [= <-] & Ho); [intros ->; discriminate Hn|exact Ho].
Defined.

(** A deployment whose variables offer the shared tier. *)
Definition hosted_vars : list (string * string) :=
  [("CF_PROVISIONER_TOKEN", "cf"); ("CF_ACCOUNT_ID", "acct"); ("DISPATCH_NAMESPACE", "tenants"); ("TENANT_MODULE_NAMESPACE", "tenant-modules");
   ("STUDIO_RELEASE", "v1.2.3"); ("STUDIO_TOKEN_KEK", key_a); ("CONTROL_PLANE_HOST", "plane.example"); ("RUNPOD_PROXY_SIGNING_KEY", " signing-key ");
   ("SHARED_RUNPOD_ENDPOINTS", "pool"); ("SHARED_RUNPOD_INVOKE_KEY", " rpa_pool ")].
Definition hosted_env (name : string) : option string := snd <$> List.find (λ p, p.1 =s? name) hosted_vars.
Definition read_pool (text : string) : option js :=
  if text =s? "pool" then Some (JObj ((λ k, (k, JObj [("id", JStr (k +:+ "-id")); ("name", JStr k)])) <$> requiredPoolKeys)) else read_text text.
Definition wired_plane : option Wiring := provisionerWiring hosted_env true read_pool (λ _, None) (λ _, Num.NNaN) (λ _, "NaN").
Definition hosted_wiring : Wiring := default wired wired_plane.
Definition hosted_live : result exn reply * trace := installInvokeKey (granting (studio_at "awaiting_go_live" None None)) signer read_pool (λ _, None) (Some hosted_wiring) (JObj [])
  (studio_at "awaiting_go_live" None None) [].
Lemma modules_never_hold_the_key_witness :
  wired_plane = Some hosted_wiring ∧ answers_ok (λ a, a.1 =? 200) hosted_live = true ∧
  ∀ e, e ∈ hosted_live.2 → ¬ key_put_elsewhere hosted_wiring (studio_at "awaiting_go_live" None None) e.
Proof.
assert (wired_plane = Some hosted_wiring) as E by (unfold hosted_wiring; vm_compute; reflexivity). split; [exact E|]. split; [vm_compute; reflexivity|].
intros e He. exact (proj1 (modules_never_hold_the_key (granting (studio_at "awaiting_go_live" None None)) signer (λ _, None) hosted_env true read_pool (λ _, None) (λ _, Num.NNaN) (λ _, "NaN")
  hosted_wiring (JObj []) (studio_at "awaiting_go_live" None None) E ab12_ok e He)).
Defined.

(** ** Taking a name *)
Definition half_built : Tenant := studio_at "failed" (Some "vivijure-aurora") None.
Lemma half_built_ids tr id seconds row token : granting half_built tr (SClaimReclaim id "acct_1" seconds) = Ok (Some (row, token)) → tenant_id (t_id row).
Proof. intros [= <- _]. exact ab12_ok. Qed.
Definition retaking : result exn reply * trace := Onboarding.provision (granting half_built) Str.chars (λ _, "") 3 (Some wired) (JObj [("slug", JStr "aurora")]) "acct_1" [].
Lemma taking_a_name_is_claimed_witness :
  answers_ok (λ a, a.1 =? 202) retaking = true ∧ obeys (take_allows Str.chars wired "aurora" "acct_1") retaking.2 ∧
  existsb (λ e, match ev_call e with SReclaimSlug _ _ _ => true | _ => false end) retaking.2 = true.
Proof.
split; [vm_compute; reflexivity|]. split; [|vm_compute; reflexivity].
exact (proj1 (taking_a_name_is_claimed (granting half_built) Str.chars (λ _, "") 3 (Some wired) (JObj [("slug", JStr "aurora")]) "acct_1" half_built_ids)).
Defined.
(** A pass that deletes the worker and then fails on the database answers that nothing was destroyed;
    one whose claim ran out after everything was deleted answers that nothing has been lost. *)
Definition stuck_database : world := λ tr c, match c as c return result exn (ret c) with CDeleteD1 _ => Err (error "busy") | c => granting half_built tr c end.
Definition overrun : world := λ tr c, match c as c return result exn (ret c) with SReclaimSlug _ _ _ => Ok None | c => granting half_built tr c end.
Definition deleted_in (tr : trace) : list string :=
  omap (λ e, match e with Ev (CDeleteUserWorker _ s) (Ok _) => Some s | Ev (CDeleteD1 db) (Ok _) => Some db | _ => None end) tr.
Definition message_of (r : result exn reply) : string := match r with Ok (_, body) => match js_field body "message" with JStr s => s | _ => "" end | Err _ => "" end.
Theorem reclaim_denies_what_it_destroyed :
  let failing := Onboarding.provision stuck_database Str.chars (λ _, "") 3 (Some wired) (JObj [("slug", JStr "aurora")]) "acct_1" [] in
  let late := Onboarding.provision overrun Str.chars (λ _, "") 3 (Some wired) (JObj [("slug", JStr "aurora")]) "acct_1" [] in
  message_of failing.1 = "some of the old studio pieces could not be removed, so the name has not been freed and " +:+
    "nothing has been destroyed. Retrying will not clear this; contact us so we can remove " +:+ "the stuck pieces." ∧
  deleted_in failing.2 = ["tenant-aurora"] ∧
  message_of late.1 = "that name is being reset right now. Give it a moment and try again; nothing has been lost." ∧ deleted_in late.2 = ["tenant-aurora"; "db"].
Proof. vm_compute. by split_and!. Qed.
Definition sponsoring : result exn reply * trace :=
  operatorProvision willing (λ _, "") (Some wired) (JObj [("email", JStr "owner@studio.example"); ("slug", JStr "aurora")]) "op_1" [].
Lemma operator_provision_is_audited_witness :
  answers_ok (λ a, a.1 =? 202) sponsoring = true ∧ obeys (operator_allows wired "op_1" "owner@studio.example" "aurora") sponsoring.2.
Proof.
split; [vm_compute; reflexivity|].
destruct (operator_provision_is_audited willing (λ _, "") (Some wired) (JObj [("email", JStr "owner@studio.example"); ("slug", JStr "aurora")]) "op_1")
  as (_ & _ & _ & w & [= <-] & _ & Ho); [|exact Ho]. intros E. apply (f_equal length) in E. vm_compute in E. discriminate E.
Defined.

(** ** An operator's hand *)
Definition moving : result exn (admin_reply unit) * trace :=
  upgrade_of (granting studio) clear_open read_text hundred (λ _, "NaN") wired "op_1" "ten_ab12" OfStudio (JObj [("release", JStr "v1.3.0")]) [].
Lemma upgrade_starts_only_what_was_checked_witness :
  answers_ok (λ a, match a with Replied r => r.1 =? 202 | Reported _ _ => false end) moving = true ∧
  ∃ t j, job_held clear_open read_text hundred (λ _, "NaN") wired "op_1" "ten_ab12" "v1.3.0" OfStudio t j moving.2.
Proof.
assert (answers_ok (λ a, match a with Replied r => r.1 =? 202 | Reported _ _ => false end) moving = true) as E by (vm_compute; reflexivity). split; [exact E|].
pose proof (upgrade_starts_only_what_was_checked (granting studio) clear_open read_text hundred (λ _, "NaN") wired "op_1" "ten_ab12" OfStudio (JObj [("release", JStr "v1.3.0")])) as H.
fold moving in H. destruct moving as [r tr]. unfold answers_ok in E. cbn [fst snd] in *. destruct r as [[a|s a]|e]; [|discriminate E..].
destruct H as (_ & H & _). destruct (H (Replied a) eq_refl) as (t & j & Hh & _); [lia|]. by exists t, j.
Defined.
Definition capping_route : result exn (option (Z * bool)) * trace :=
  converge_route (granting studio) clear_open read_text (λ _, "") hundred (λ _, "100") wired "op_1" "ten_ab12"
    (RouteCeiling (JObj [("mode", JStr "set"); ("quota_bytes", JStr "100")])) [].
Definition tearing : result exn (admin_reply TeardownReport) * trace :=
  teardown_studio (granting half_built) Str.chars 3 (Some wired) "op_1" "ten_ab12" (JObj [("confirm_slug", JStr "aurora"); ("delete_data", JBool true)]) [].
Lemma half_built_row_ids tr id seconds row token : granting half_built tr (SBeginTeardown id seconds) = Ok (Some (row, token)) → tenant_id (t_id row).
Proof. intros [= <- _]. exact ab12_ok. Qed.
Lemma nothing_destroyed_without_a_lease_witness :
  answers_ok (λ a, match a with Reported 200 report => bool_decide (rt_refused report = [] ∧ rt_failed report = []) | _ => false end) tearing = true ∧
  ∃ t row own, wholly_gone wired (JObj [("confirm_slug", JStr "aurora"); ("delete_data", JBool true)]) t row own tearing.2.
Proof.
assert (answers_ok (λ a, match a with Reported 200 report => bool_decide (rt_refused report = [] ∧ rt_failed report = []) | _ => false end) tearing = true)
  as E by (vm_compute; reflexivity). split; [exact E|].
pose proof (nothing_destroyed_without_a_lease (granting half_built) Str.chars 3 wired "op_1" "ten_ab12" (JObj [("confirm_slug", JStr "aurora"); ("delete_data", JBool true)])
  half_built_row_ids) as H.
fold tearing in H. destruct tearing as [r tr]. unfold answers_ok in E. cbn [fst snd] in *. destruct r as [[a|s a]|e]; [discriminate E| |discriminate E].
destruct H as [_ H]. destruct (H _ eq_refl) as (t & row & token & own & fin & promote & d & _ & _ & _ & _ & _ & Hg). exists t, row, own. apply Hg.
- destruct s as [|p|p]; try discriminate E. do 8 (destruct p as [p|p|]; try discriminate E); apply bool_decide_eq_true in E; apply E.
- destruct s as [|p|p]; try discriminate E. do 8 (destruct p as [p|p|]; try discriminate E); apply bool_decide_eq_true in E; apply E.
Defined.

(** ** The doors *)

(** ** Sign-in with a provider: a quiet store, and a Google that vouches for Ada *)
Definition sso_env (name : string) : option string :=
  snd <$> List.find (λ p, p.1 =s? name)
    [("CONTROL_PLANE_HOST", "studio.example"); ("GOOGLE_OAUTH_CLIENT_ID", "client-1"); ("GOOGLE_OAUTH_CLIENT_SECRET", "shh")].
Definition ada_claims : js :=
  JObj [("iss", JStr "https://accounts.google.com"); ("aud", JStr "client-1"); ("exp", JNum (Num.NInt 1784206800)); ("sub", JStr "g-1");
        ("email", JStr "Ada@X.org"); ("email_verified", JBool true)].
Definition google_answers (rq : HttpRequest) : M auth_db string HttpResponse :=
  mret (mkResponse 200 "" (Some (JObj [("id_token", JStr "aGVhZA.cGF5bG9hZA.c2ln")]))).
Definition plain_paths (raw base : string) : option Url := if starts_with "/" raw then Some (mkUrl base raw "" "") else None.
Lemma plain_paths_law raw base u : plain_paths raw base = Some u → starts_with "https://" (u_origin u) = true → starts_with "/" (u_pathname u) = true.
Proof. unfold plain_paths. destruct (starts_with "/" raw) eqn:E; [|done]. by intros [= <-]. Qed.
Definition open_signups (key : string) : M auth_db string (option string) := mret (Some "true").
Definition sso_clock (ms : Z) : M auth_db string Z := mret ms.
Definition asked_path (name : string) : option string := if name =s? "redirect_to" then Some "/panel" else None.
Definition came_back (name : string) : option string :=
  if name =s? "code" then Some "code-1" else if name =s? "state" then Some link_token else None.
Definition begun : result string http_reply * auth_db :=
  beginSso sso_env clear_digest (same_bytes "a") (sso_clock july16) plain_paths "google" asked_path empty_auth.
Definition callback : M auth_db string http_reply :=
  finishSso sso_env clear_digest (same_bytes "a") (sso_clock july16) google_answers (λ _, Some ada_claims) (λ _, "") open_signups "google" came_back.
Definition reply_of (r : result string http_reply) : http_reply := match r with Ok r => r | Err _ => unknown_provider end.
Definition returned : result string http_reply * auth_db := callback begun.2.

Lemma callback_signs_in_only_the_vouched_witness :
  cookie_set (reply_of returned.1) = Some (sessionCookie link_token 2592000 (Some "studio.example")) ∧
  ∃ verifier who, provider_vouches sso_env (sso_clock july16) google_answers (λ _, Some ada_claims) (λ _, "") "code-1" verifier Google who.
Proof.
  assert (cookie_set (reply_of returned.1) = Some (sessionCookie link_token 2592000 (Some "studio.example"))) as Hc by (vm_compute; reflexivity).
  assert (returned = (Ok (reply_of returned.1), returned.2)) as Hs by (vm_compute; reflexivity).
  split; [exact Hc|].
  assert (NoDup (se_hash <$> ad_sessions (auth_tables begun.2))) as Hn by (vm_compute; constructor).
  destruct (callback_signs_in_only_the_vouched sso_env clear_digest (same_bytes "a") (sso_clock july16) google_answers (λ _, Some ada_claims) (λ _, "")
    open_signups ltac:(still) ltac:(still) ltac:(still) ltac:(still) "google" came_back begun.2 _ _ _ Hn Hs Hc)
    as (p & code & state & t & sa & opened & row & who & signups & links & accounts & account & created & token & ends & Hp & Hcode & Hstate & _ & _ & Hv & _).
  injection Hcode as <-. injection Hstate as <-. assert (p = Google) as -> by (vm_compute in Hp; congruence).
  exists (oa_verifier row), who. exact Hv.
Defined.

Definition replayed : result string http_reply * auth_db := callback returned.2.
Lemma begun_sign_in_ends_once_witness :
  hr_status (reply_of begun.1) = 302 ∧ cookie_set (reply_of returned.1) = Some (sessionCookie link_token 2592000 (Some "studio.example")) ∧
  reply_of returned.1 = redirectTo sso_env "/panel" [("set-cookie", sessionCookie link_token 2592000 (Some "studio.example"))] ∧
  cookie_set (reply_of replayed.1) = None.
Proof.
  assert (hr_status (reply_of begun.1) = 302) as H302 by (vm_compute; reflexivity).
  assert (cookie_set (reply_of returned.1) = Some (sessionCookie link_token 2592000 (Some "studio.example"))) as Hc by (vm_compute; reflexivity).
  assert (begun = (Ok (reply_of begun.1), begun.2)) as Hb by (vm_compute; reflexivity).
  assert (returned = (Ok (reply_of returned.1), returned.2)) as Hs by (vm_compute; reflexivity).
  assert (replayed = (Ok (reply_of replayed.1), replayed.2)) as Hr by (vm_compute; reflexivity).
  split; [exact H302|]. split; [exact Hc|].
  destruct (begun_sign_in_ends_once sso_env clear_digest (same_bytes "a") (sso_clock july16) google_answers (λ _, Some ada_claims) (λ _, "") plain_paths
    open_signups ltac:(still) ltac:(still) ltac:(still) ltac:(still) "google" asked_path empty_auth empty_auth (repeat "a"%char 32) _ _
    plain_paths_law eq_refl ltac:(constructor) Hb H302) as (p & verifier & t0 & _ & _ & _ & H).
  destruct (H begun.2 "google" came_back _ _ _ (steps_refl _ _) eq_refl Hs Hc) as (_ & _ & _ & (path & Hpath & _ & ->) & Hone).
  split; [exact Hpath|]. exact (Hone returned.2 "google" came_back _ _ (steps_refl _ _) eq_refl Hr).
Defined.

Definition knock (email : string) : result string (http_reply * option (M auth_db string unit)) * auth_db :=
  emailStart sso_env clear_digest (same_bytes "a") (sso_clock july16) (λ _, "") open_signups no_mail (Some (λ _, mret true)) (JObj [("email", JStr email)]) ada_db.
Definition mails (k : result string (http_reply * option (M auth_db string unit)) * auth_db) : bool :=
  match k.1 with Ok (_, Some _) => true | _ => false end.
Lemma mail_door_tells_nothing_witness :
  mails (knock "ada@x.org") = true ∧ mails (knock "nobody") = false ∧ ∃ mail, (knock "ada@x.org").1 = Ok (accepted, mail).
Proof.
  split; [vm_compute; reflexivity|]. split; [vm_compute; reflexivity|].
  pose proof (λ r mail s', mail_door_tells_nothing sso_env clear_digest (same_bytes "a") (sso_clock july16) (λ _, "") open_signups
    no_mail (Some (λ _, mret true)) (JObj [("email", JStr "ada@x.org")]) ada_db r mail s') as H.
  assert (mails (knock "ada@x.org") = true) as Hm by (vm_compute; reflexivity).
  fold (knock "ada@x.org") in H. destruct (knock "ada@x.org") as [[[r mail]|e] s']; [|discriminate Hm].
  exists mail. destruct (H r mail s' eq_refl) as [-> _]. reflexivity.
Defined.

(** ** The studio token: one studio, whose database answers *)
#[export] Instance quiet_door : TokenDoor token_world := {
  token_view := id;
  queryD1 := λ db sql params, on_studio db (studio_sql "now" sql params);
  getScriptSecretNames := λ _ _, mret ["RUNPOD_API_KEY"; STUDIO_OPERATOR_SECRET];
  setApiTokenRotatedAt := d1_setApiTokenRotatedAt "now";
}.
#[export] Instance quiet_door_ok : TokenDoorOk token_world.
Proof.
  split.
  - intros db sql params. exact (runs_as_quiet (steps door_step) (λ dt, on_studio db (studio_sql dt sql params)) _).
  - intros tenant. exact (runs_as_quiet (steps door_step) (λ dt, d1_setApiTokenRotatedAt dt tenant) _).
  - intros ns script s. apply steps_refl.
Qed.
Definition token_tenant (status : string) : Tenant := set_d1_database_id (Some "db-1") (set_status status hosted).
Definition old_row : TokenRow := mkTokenRow PROGRAMMATIC_TOKEN_NAME "6f6c64" "then" None.
Definition satellite_row : TokenRow := mkTokenRow "satellite" "736174" "then" None.
Definition studio_world : token_world := mkTokenWorld (λ db, if db =s? "db-1" then [old_row; satellite_row] else []) [token_tenant "live"].
Lemma studio_world_unique : names_unique studio_world.
Proof. intros db. cbn. destruct (db =s? "db-1"); repeat constructor; cbn; rewrite ?elem_of_cons, ?elem_of_nil; naive_solver. Qed.

Definition rotated : result token_error MintedApiToken * token_world :=
  issueTenantApiToken clear_digest (same_bytes "b") (λ _, "") "tenants" (token_tenant "live") studio_world.
Lemma minted_token_is_the_only_one_witness :
  ∃ m after, rotated.1 = Ok m ∧ mt_token m = randomToken (repeat "b"%char 32) ∧
    ∃ dt, programmatic (tw_studios after "db-1") = [mkTokenRow PROGRAMMATIC_TOKEN_NAME (sha256Hex clear_digest (mt_token m)) dt None].
Proof.
  assert (∃ m, rotated.1 = Ok m ∧ mt_token m = randomToken (repeat "b"%char 32)) as (m & Hm & Ht) by (eexists; split; vm_compute; reflexivity).
  pose proof (minted_token_is_the_only_one clear_digest (same_bytes "b") (λ _, "") "tenants" ltac:(intros; by intros ? ?) (token_tenant "live")
    studio_world m rotated.2 studio_world_unique) as H.
  assert (rotated = (Ok m, rotated.2)) as Hr by (destruct rotated; cbn in *; congruence). specialize (H Hr).
  destruct H as (db & script & names & s1 & seen & s2 & bytes & s3 & before & dt & answer & s4 & s5 & state & (_ & Hdb & _) & _ & _ & _ & _ & _ & (H1 & _) & _).
  cbn in Hdb. injection Hdb as <-.
  exists m, (token_view s4). split; [exact Hm|]. split; [exact Ht|]. exists dt. exact H1.
Defined.

Definition revoked_route : result string http_reply * token_world :=
  apiTokenRoute clear_digest (same_bytes "b") (λ _, "") "tenants" true "DELETE" (token_tenant "live") studio_world.
Lemma token_routes_refuse_up_front_witness :
  (∀ method, method ∈ ["GET"; "POST"; "DELETE"] →
    apiTokenRoute clear_digest (same_bytes "b") (λ _, "") "tenants" true method (token_tenant "provisioning") studio_world =
    (Ok (err_response "tenant_not_live" 409 []), studio_world)) ∧
  revoked_route.1 = Ok (json_response [("configured", JBool false)] 200) ∧ token_acts (tw_studios revoked_route.2 "db-1") = false.
Proof.
  split; [|split; vm_compute; reflexivity]. intros method Hm.
  exact (token_routes_refuse_up_front clear_digest (same_bytes "b") (λ _, "") "tenants" method (token_tenant "provisioning") studio_world Hm).
Defined.

(** A rotation whose last read fails: the secrets of the studio's worker can be listed once only. *)
#[export] Instance flaky_door : TokenDoor (token_world * nat) := {
  token_view := fst;
  queryD1 := λ db sql params w, let r := on_studio db (studio_sql "now" sql params) w.1 in (r.1, (r.2, w.2));
  getScriptSecretNames := λ _ _ w, match w.2 with O => (Ok [STUDIO_OPERATOR_SECRET], (w.1, 1%nat)) | _ => (Err "HTTP 500", w) end;
  setApiTokenRotatedAt := λ tenant w, let r := d1_setApiTokenRotatedAt "now" tenant w.1 in (r.1, (r.2, w.2));
}.
(** The answer is a refusal, and yet the credential the tenant held is dead: its digest was replaced by
    that of a token nobody was told. *)
Theorem rotation_lost_on_its_last_read :
  let r := apiTokenRoute clear_digest (same_bytes "b") (λ _, "") "tenants" true "POST" (token_tenant "live") (studio_world, O) in
  r.1 = Ok (err_response "tenant_unreachable" 503 []) ∧
  programmatic (tw_studios studio_world "db-1") = [old_row] ∧
  programmatic (tw_studios r.2.1 "db-1") = [mkTokenRow PROGRAMMATIC_TOKEN_NAME (sha256Hex clear_digest (randomToken (repeat "b"%char 32))) "now" None].
Proof. split; [|split]; vm_compute; reflexivity. Qed.

(** ** The front door: a request without a cookie, before two sets of handlers that agree on nothing *)
Definition stray_request : Incoming :=
  mkIncoming (mkRequest "https://studio.example/api/tenant/provision" "POST" [("Host", "studio.example")] BNone) "/api/tenant/provision" (λ _, None) JNull (Ok None).
Definition all_of (text : string) : M auth_db string http_reply := mret (json_response [("all", JStr text)] 200).
Definition stray_answer (operators : OperatorPrincipal → Incoming → M auth_db string http_reply) (tenants : Account → Incoming → M auth_db string http_reply) :
    result string (entry_answer * option (M auth_db string unit)) * auth_db :=
  handle sso_env router clear_digest clear_open (same_bytes "a") (sso_clock july16) google_answers (λ _, Some ada_claims) (λ _, "") plain_paths
    open_signups (λ _, mret None) no_mail None (λ _, mret None) (λ _, mret true) false None (λ _ _, all_of "proxy") (λ _, all_of "webhook")
    operators tenants (λ _, all_of "page") stray_request owners_db.
Lemma doors_let_in_only_their_own_witness :
  stray_answer (λ _ _, all_of "operator one") (λ _ _, all_of "tenant one") = stray_answer (λ _ _, all_of "operator two") (λ _ _, all_of "tenant two") ∧
  stray_answer (λ _ _, all_of "operator one") (λ _ _, all_of "tenant one") = (Ok (Plain (err_response "unauthorized" 401 []), None), owners_db).
Proof.
  split; [|vm_compute; reflexivity]. apply doors_let_in_only_their_own.
  - intros p s1 s3 _ Ha _. vm_compute in Ha. discriminate Ha.
  - intros account s1 s4 [Hin _] _ (now & s2 & s3 & Hc & Hr & _). vm_compute in Hin. injection Hin as <-. vm_compute in Hc. injection Hc as <- <-.
    vm_compute in Hr. discriminate Hr.
Defined.

(** Ada asks for the credits of somebody else's tenant, and again for the handlers of an operator. *)
Definition accepted_db : auth_db := exec (d1_recordAupAcceptance "now" "acct_1" "" "" None None) owners_db.
Definition nosy_request : Incoming :=
  mkIncoming (mkRequest "https://studio.example/api/tenant/ten_b/credits" "GET" [("Host", "studio.example"); ("Cookie", ada_cookie)] BNone)
    "/api/tenant/ten_b/credits" (λ _, None) JNull (Ok None).
Definition their_tenant : Tenant := new_tenant 0 "ten_b" "studio-b" "acct_2" "live".
Definition all_handlers (text : string) : TenantHandlers auth_db :=
  mkTenantHandlers _ (λ _ _, all_of text) (λ _ _, all_of text) (λ _ _, all_of text) (λ _ _, all_of text) (λ _ _, all_of text).
Definition nosy_answer (operators tenants : string) : result string (entry_answer * option (M auth_db string unit)) * auth_db :=
  control_plane sso_env router clear_digest clear_open (same_bytes "a") (sso_clock july16) google_answers (λ _, Some ada_claims) (λ _, "") plain_paths
    open_signups (λ _, mret None) no_mail None (λ _, mret None) (λ _, mret true) false None (λ _ _, all_of "proxy") (λ _, all_of "webhook")
    (λ _, all_of "page") (λ i, mret (if i =s? "ten_b" then Some their_tenant else None)) (λ _ _, mret (Available None)) (λ _, mret None)
    (λ _ _, mret LeftAlone) (JArr []) (λ _ _ _, all_of operators) (all_handlers tenants) nosy_request accepted_db.
Lemma handlers_serve_only_their_own_witness :
  nosy_answer "operator one" "tenant one" = nosy_answer "operator two" "tenant two" ∧
  nosy_answer "operator one" "tenant one" = (Ok (Plain http_not_found, None), accepted_db).
Proof.
  split; [|vm_compute; reflexivity]. unfold nosy_answer. apply handlers_serve_only_their_own.
  - intros h p s1 s3 _ _ Hd. vm_compute in Hd. discriminate Hd.
  - intros account s1 s4 [Hin _] (now & s2 & s3 & Hc & Hr & Hs). split; [intros Hp; vm_compute in Hp; discriminate Hp|].
    intros id t s5 Hn Hl Ho. exfalso. vm_compute in Hin. injection Hin as <-. vm_compute in Hc. injection Hc as <- <-.
    vm_compute in Hr. injection Hr as <- <-. destruct (id =s? "ten_b"); [injection Hl as <- _|discriminate Hl]. vm_compute in Ho. discriminate Ho.
Defined.

(** ** Storage: two buckets that together pass the threshold, and a third of them out of reach *)
Definition bucket_size (b : string) : Z := if b =s? "b1" then 700 else if b =s? "b2" then 500 else 100.
Definition read_bucket (out_of_reach : string) (b : string) : M plane_db string (Num.num * Num.num) :=
  if b =s? out_of_reach then throw "HTTP 500" else mret (Num.NInt (bucket_size b), Num.NInt 3).
Definition with_bucket (b : string) : Tenant := set_r2_bucket_name (Some b) hosted.
Definition three_buckets : plane_db := mkPlane ["acct_1"] [with_bucket "b1"; with_bucket "b2"; with_bucket "b3"] [] [].
Definition storage_report (out_of_reach limit : string) : result string (reply + R2UsageReport) * plane_db :=
  r2UsageRoute (d1_listTenants None None) (read_bucket out_of_reach) true (Some limit) three_buckets.
Definition alert_of (r : result string (reply + R2UsageReport)) : option AlertState := match r with Ok (inr report) => Some (rr_alert report) | _ => None end.
Lemma storage_alert_is_sound_witness :
  alert_of (storage_report "b3" "1000").1 = Some AlertOver ∧ alert_of (storage_report "b3" "1250").1 = Some AlertIndeterminate ∧
  alert_of (storage_report "" "1300").1 = Some AlertUnder ∧ 1000 < total_of bucket_size (billed three_buckets).
Proof.
  do 3 (split; [vm_compute; reflexivity|]).
  assert (∃ report, storage_report "b3" "1000" = (Ok (inr report), three_buckets) ∧ rr_alert report = AlertOver) as (report & Hr & Ha) by (eexists; split; vm_compute; reflexivity).
  assert (∀ b, 0 <= bucket_size b) as Hn by (intros b; unfold bucket_size; repeat case_match; lia).
  assert (∀ b s bytes objects s', read_bucket "b3" b s = (Ok (bytes, objects), s') → bytes = Num.NInt (bucket_size b)) as Ht.
  { intros b s bytes objects s'. unfold read_bucket. destruct (b =s? "b3"); [discriminate|]. intros Heq. injection Heq as <- _ _. reflexivity. }
  pose proof (storage_alert_is_sound (read_bucket "b3") bucket_size Hn Ht (d1_listTenants None None) three_buckets (Some "1000") report three_buckets three_buckets three_buckets
    eq_refl ltac:(vm_compute; discriminate) Hr) as H.
  exact (proj1 H Ha).
Defined.

(** ** Usage: two priced jobs of one module, one of another that nobody priced, and a call to a model *)
Definition some_book : SpendPricebook := mkBook None [("ep-1", mkPrice None (Some (Num.NInt 2)))].
Definition some_job (id module endpoint outcome : string) : TenantRunpodJob :=
  mkTenantJob id "studio-a" (Some module) (Some endpoint) None (Some outcome) (Some (Num.NInt 1500)) None None None None.
Definition some_jobs : list TenantRunpodJob :=
  [some_job "j1" "render" "ep-1" "COMPLETED"; some_job "j2" "upscale" "ep-2" "COMPLETED"; some_job "j3" "render" "ep-1" "FAILED"].
Definition some_calls : list TenantLlmEvent := [mkTenantEvent "row-1" None (Some (Num.NInt 40)) None None "then"].
Definition some_usage : TenantUsage := assembleTenantUsage "ten_a" some_jobs some_calls some_book.
Lemma usage_adds_up_witness :
  ut_runpod_cost (us_totals some_usage) = Some (Num.NInt 2000000) ∧ ut_cost (us_totals some_usage) = Some (Num.NInt 2000040) ∧
  ut_runpod_unpriced (us_totals some_usage) = 1%nat ∧ rollup_cost <$> lookup_key "upscale" (us_by_module some_usage) = Some None.
Proof.
  destruct (usage_adds_up "ten_a" some_jobs some_calls some_book [2000000; 0] [40] ltac:(vm_compute; reflexivity) ltac:(vm_compute; reflexivity)
    ltac:(repeat constructor; lia) ltac:(vm_compute; discriminate)) as (_ & _ & _ & _ & _ & H1 & _ & H2).
  split; [exact H1|]. split; [exact H2|]. split; vm_compute; reflexivity.
Defined.

(** ** The tables: a tenant's life up to a suspended live studio with a ceiling of its own *)
Definition read_digits (s : string) : Num.num := if Str.all_digits s then Num.NInt (Str.parse_digits s) else Num.NNaN.
Definition show_digits (n : Num.num) : string := match n with Num.NInt z => Str.of_int z | _ => "" end.
Definition noon_s : Z := 1784203200.
Definition a_life : history :=
  [(noon_s, OpCreateTenant "ten_1" "studio-a" "acct_1" "pending"); (noon_s, OpCreateJob KProvision "job_1" "ten_1" None (Some "v1") (Some "shared"));
   (noon_s + 1, OpSetJobRunning "job_1"); (noon_s + 1, OpSetStatus "ten_1" "provisioning"); (noon_s + 2, OpSetResource ResD1 "ten_1" "db-1" "");
   (noon_s + 3, OpColumn "ten_1" (WRunPodMode Shared)); (noon_s + 4, OpSetStatus "ten_1" "live"); (noon_s + 5, OpFinishJob "job_1" true None None);
   (noon_s + 6, OpColumn "ten_1" (WQuota (Some (QuotaSet "1000000")))); (noon_s + 7, OpSuspend "ten_1" "abuse")].
Definition first_day : plane_db := mkPlane ["acct_1"] [] [] [].
Lemma tables_stay_typed_witness :
  plane_typed read_digits show_digits (replay a_life first_day) ∧
  (λ t, (t_status t, is_suspended t, t_runpod_mode t)) <$> pd_tenants (replay a_life first_day) = [("live", true, "shared")].
Proof.
  split; [|vm_compute; reflexivity]. apply tables_stay_typed.
  - unfold a_life. repeat constructor; discriminate.
  - split.
    + split; constructor.
    + split; [constructor|]. intros o Ho. inversion Ho.
    + intros t Ht. inversion Ht.
    + intros j Hj. inversion Hj.
    + intros t Ht. inversion Ht.
    + intros j Hj. inversion Hj.
Defined.
