(* ===== verification/OpsWitnesses.v ===== *)
(** * Concrete instances of the properties of the operators' tools and of smoke renders *)

From S2P Require Import JsDate Reconcile Cron SmokePolicy AuthWitnesses.
From Stdlib Require Import Ascii.
Open Scope string_scope.
Open Scope list_scope.
Open Scope Z_scope.
Open Scope plane_scope.

(** ** Reconciliation *)
Definition tenant_of (id slug status : string) (endpoints : option string) (mode : string) : Tenant :=
  mkTenant id slug "acct_1" status None None None endpoints None None None None "2026-07-16T12:00:00.000Z" None None None None None None None None
    None 0 None None None None mode.
Definition entry (key id name : string) : js := JObj [("key", JStr key); ("id", JStr id); ("name", JStr name)].
Definition parse_records (text : string) : option js :=
  if text =s? "hero" then Some (JArr [entry "backend" "ep_h" "vivijure-hero-backend"])
  else if text =s? "pool" then Some (JArr [entry "backend" "ep_p" "prod-render"])
  else None.
Definition no_error (_ : string) : string := "SyntaxError".
Definition account (endpoints templates : list RunPodResource) : RunPodInventory := mkInventory "prod" "2026-07-16T12:00:00Z" true endpoints templates.
Definition hero : Tenant := tenant_of "ten_1" "hero" "live" (Some "hero") "dedicated".
Definition agreeing : RunPodInventory :=
  account [mkResource "ep_h" "vivijure-hero-backend"; mkResource "ep_x" "other"] [mkResource "tp_h" "vivijure-hero-backend"].
Lemma clean_means_in_step_witness :
  rp_verdict (reconcileRunPod parse_records no_error (mkTenantCensus [hero] true) agreeing None) = Clean ∧
  ∃ e, e ∈ iv_endpoints agreeing ∧ rr_id e = "ep_h".
Proof.
assert (rp_verdict (reconcileRunPod parse_records no_error (mkTenantCensus [hero] true) agreeing None) = Clean) as E by (vm_compute; reflexivity).
split; [exact E|].
destruct (clean_means_in_step parse_records no_error (mkTenantCensus [hero] true) agreeing None E) as (_ & _ & _ & H & _).
destruct (H hero (mkRecorded "backend" "ep_h" "vivijure-hero-backend")) as [(e & He & Hid & _) _]; [|reflexivity|by exists e].
split_and!; [left|reflexivity|]. exists [mkRecorded "backend" "ep_h" "vivijure-hero-backend"]. split; [reflexivity|left].
Defined.
Definition lost : ReconcileReport := reconcileRunPod parse_records no_error (mkTenantCensus [hero] true) (account [] [mkResource "tp_h" "vivijure-hero-backend"]) None.
Lemma every_finding_is_true_witness : ∃ f, f ∈ rp_findings lost ∧ df_kind f = RecordEndpointMissing ∧
  says_true parse_records no_error (mkTenantCensus [hero] true) (account [] [mkResource "tp_h" "vivijure-hero-backend"]) None f.
Proof.
destruct (rp_findings lost) as [|f l] eqn:E; [vm_compute in E; discriminate E|]. exists f. split; [left|]. split.
- assert (df_kind <$> head (rp_findings lost) = Some RecordEndpointMissing) as H by (vm_compute; reflexivity). rewrite E in H. by injection H.
- apply (every_finding_is_true parse_records no_error (mkTenantCensus [hero] true) (account [] [mkResource "tp_h" "vivijure-hero-backend"]) None f).
  fold lost. rewrite E. left.
Defined.
Lemma inventory_body_exact_witness : parseInventoryBody (inventory_json agreeing) = inr agreeing.
Proof.
apply (proj1 inventory_body_exact agreeing). split_and!; try (vm_compute; discriminate); try (vm_compute; reflexivity); apply (bool_decide_unpack _); vm_compute; reflexivity.
Defined.

(** The route leaves the pool out.  A deleted tenant that had a dedicated shape still names an endpoint
    the shared pool serves from: with the pool the comparison is clean, but the route passes none, and
    its report calls the production endpoint proven debris of the deleted tenant. *)
Theorem reconcile_route_leaves_the_pool_out :
  let pool := mkPool [mkEndpoint "backend" "Render" "ep_p" "prod-render" "RUNPOD_ENDPOINT_ID"] in
  let old := tenant_of "ten_2" "old" "deleted" (Some "pool") "dedicated" in
  let inventory := account [mkResource "ep_p" "prod-render"] [mkResource "tp_p" "prod-render"] in
  rp_verdict (reconcileRunPod parse_records no_error (mkTenantCensus [old] true) inventory (Some pool)) = Clean ∧
  ∃ report, (reconcileRoute parse_records no_error (mret [old] : M unit string (list Tenant)) (inventory_json inventory) tt).1 = Ok (inr report) ∧
    rp_verdict report = Drift ∧ (λ f, (df_kind f, df_unproven f, df_resource_id f)) <$> rp_findings report = [(OrphanEndpoint, None, Some "ep_p")].
Proof.
split; [vm_compute; reflexivity|]. eexists. split; [vm_compute; reflexivity|]. split; vm_compute; reflexivity.
Qed.

(** ** The cron *)
Definition noon : Z := 1784203200000.
Definition still_clock : M (list (string * string)) string Z := λ s, (Ok noon, s).
Definition put_setting (k v _ : string) : M (list (string * string)) string unit := λ s, (Ok tt, (k, v) :: s).
Definition one_text (v : js) : string := if js_field v "ok" is JBool true then "well" else "ill".
Definition failing_sweep : M (list (string * string)) string JobSweepResult := throw "boom".
Definition idle_drive : M (list (string * string)) string ProvisionDriveSummary := mret (mkDriveSummary 0 0 0 0).
Definition lone_meter : M (list (string * string)) string LlmMeterTickResult := mret (MeterRefused "no_spend_store").
Lemma tick_always_leaves_its_mark_witness :
  runScheduledTick still_clock lone_meter failing_sweep idle_drive put_setting one_text [] = (Ok tt, [(CRON_HEARTBEAT_KEY, "ill")]).
Proof.
destruct (tick_always_leaves_its_mark still_clock lone_meter failing_sweep idle_drive put_setting one_text []) as (t & s4 & halves & E1 & E2 & _ & H & _ & Hok).
- intros s. exists noon, s. split; [reflexivity|vm_compute; reflexivity].
- injection E1 as <- <-. rewrite E2. unfold put_setting, one_text. cbn [exec]. f_equal.
  assert (js_field (heartbeat_json (Date.to_iso noon) halves) "ok" ≠ JBool true) as Hne.
  { intros E. destruct (proj1 H (proj1 Hok E RunpodSweepHalf)) as (w & E' & _). discriminate E'. }
  change (js_field (heartbeat_json (Date.to_iso noon) halves) "ok") with (JBool (forallb (λ h, th_ok (halves h)) TICK_HALVES)) in *.
  destruct (forallb _ TICK_HALVES); [by destruct Hne|reflexivity].
Defined.
Definition well_row : js := heartbeat_json (Date.to_iso noon) (λ _, good).
Definition parse_row (text : string) : option js :=
  if text =s? "well" then Some well_row else if text =s? "half" then Some (JObj [("at", JStr (Date.to_iso noon))]) else if text =s? "null" then Some JNull else None.
Lemma green_is_recent_witness : ∃ l, summarizeCronLiveness parse_row Date.parse_iso (Some "well") (noon + 1000) = Ok l ∧ cl_stale l = false ∧
  ∃ text row at_ t, Some "well" = Some text ∧ parse_row text = Some row ∧ js_field row "at" = JStr at_ ∧ Date.parse_iso at_ = Some t ∧
    - CRON_TICK_INTERVAL_MS <= noon + 1000 - t <= CRON_STALE_AFTER_MS ∧ js_field row "ok" ≠ JBool false.
Proof.
eexists. split; [vm_compute; reflexivity|]. split; [reflexivity|].
eapply (green_is_recent parse_row Date.parse_iso (Some "well") (noon + 1000)); [vm_compute; reflexivity|reflexivity].
Defined.
(** Comments of the reader say that it reads broken whenever a row cannot vouch for a healthy tick; a
    row without its verdict reads green, and a row that is JSON's [null] makes it throw. *)
Theorem broken_rows_read_green_or_throw :
  (∃ l, summarizeCronLiveness parse_row Date.parse_iso (Some "half") noon = Ok l ∧ cl_stale l = false ∧ cl_ok l = None ∧ cl_halves l = None) ∧
  is_ok (summarizeCronLiveness parse_row Date.parse_iso (Some "null") noon) = false.
Proof. split; [eexists; split_and!; vm_compute; reflexivity|vm_compute; reflexivity]. Qed.

(** The state is the clock; a dispatched provision takes fifteen seconds. *)
Definition clock_now : M Z string Z := λ t, (Ok t, t).
Definition one_pending (status : string) : M Z string (list Tenant) := mret (if status =s? "pending" then [hero] else []).
Definition running_job : ProvisionJob := mkJob "job_1" "ten_1" KProvision JobRunning None "[]" None None 0 None None None None "2026-07-16T12:00:00.000Z" "2026-07-16T12:00:00.000Z" None.
Definition same_job (_ : string) : M Z string (option ProvisionJob) := mret (Some running_job).
Definition always_drive (_ : Tenant) (j : ProvisionJob) : M Z string Drive := mret (Dispatched j).
Definition fifteen_seconds (_ : Tenant) (_ : ProvisionJob) : M Z string unit := λ t, (Ok tt, t + 15000).

(** ** Smoke renders *)

(** ** The ration: two tenants, and a second render of the first that comes too early *)
Definition bounds_c : SmokeRenderBounds := mkBounds 1800 20 1200.
Definition noon_secs : Z := 1784203200.
Definition busy_day : smoke_history :=
  [(noon_secs, OpOpen "smk_1" "ten_a" None bounds_c); (noon_secs + 60, OpOpen "smk_2" "ten_a" None bounds_c);
   (noon_secs + 90, OpOpen "smk_3" "ten_b" None bounds_c); (noon_secs + 120, OpFinish "smk_1" (RenderFailed "no keyframe"));
   (noon_secs + 1800, OpOpen "smk_4" "ten_a" None bounds_c)].
Lemma in_range_of s : (Date.valid (s * 1000) && bool_decide (0 <= Date.utc_year (s * 1000) <= 9999)) = true → SqlTime.in_range s.
Proof. intros H. bool_hyps. split; [done|]. unfold four_digit_year. lia. Qed.
Lemma smoke_renders_are_rationed_witness :
  smk_id <$> sd_renders (replay_smoke busy_day (mkSmokeDb ["ten_a"; "ten_b"] [])) = ["smk_1"; "smk_3"; "smk_4"] ∧
  ∃ l, opened (sd_renders (replay_smoke busy_day (mkSmokeDb ["ten_a"; "ten_b"] []))) l ∧ ∀ t, Z.of_nat (length (jfilter (within_day t) l)) <= 20.
Proof.
  split; [vm_compute; reflexivity|].
  assert (dated 1800 20 noon_secs busy_day) as Hd.
  { repeat (split; [|]); try exact I; try (apply in_range_of; vm_compute; reflexivity); vm_compute; discriminate. }
  destruct (smoke_renders_are_rationed 1800 20 ltac:(lia) noon_secs busy_day ["ten_a"; "ten_b"] Hd) as (l & Ho & _ & Hk).
  exists l. split; [exact Ho|exact Hk].
Defined.

(** ** A quiet plane and a studio that renders one apple *)
#[export] Instance quiet_smoke : SmokeDoor smoke_world := {
  smoke_view := id;
  openSmokeRender := λ i t m b, on_renders (d1_openSmokeRender noon_secs i t m b);
  describeSmokeRenderRefusal := λ t b, on_renders (d1_describeSmokeRenderRefusal noon_secs t b);
  getSmokeRender := λ i, on_renders (d1_getSmokeRender i);
  setSmokeRenderSubmitted := λ i j b, on_renders (d1_setSmokeRenderSubmitted noon_secs i j b);
  finishSmokeRender := λ i o, on_renders (d1_finishSmokeRender noon_secs i o);
  recordAdminAction := λ a act t d, on_platform (d1_recordAdminAction (sql_now noon_secs) a act t d);
}.
#[export] Instance quiet_smoke_ok others : Reflexive others → SmokeDoorOk smoke_world others.
Proof. intros Hr. split; intros; match goal with |- runs_at _ _ _ ?d => exact (runs_at_quiet others noon_secs d Hr) end. Qed.

Definition apple_tenant : Tenant := set_script_name (Some "tenant-studio-a") (sealed_tenant "ten_a" "studio-a" old_token).
Definition find_tenant (i : string) : M smoke_world string (option Tenant) := mret (if i =s? "ten_a" then Some apple_tenant else None).
Definition apple_json (text : string) : option js :=
  if text =s? "bundle" then Some (JObj [("ok", JBool true); ("bundleKey", JStr "bundles/apple.tar.gz")])
  else if text =s? "job" then Some (JObj [("jobId", JStr "job-1")])
  else if text =s? "done" then
    Some (JObj [("status", JStr "COMPLETED"); ("output", JObj [("keyframes", JArr [JNull; JObj [("key", JStr "renders/apple.png")]])])])
  else None.
Definition apple_studio (script : string) (rq : HttpRequest) : M smoke_world string StubResponse :=
  mret (if rq_url rq =s? "https://tenant.internal/api/storyboard/bundle" then mkStub 201 "bundle" None
        else if rq_url rq =s? "https://tenant.internal/api/storyboard/render" then mkStub 201 "job" None
        else if rq_url rq =s? "https://tenant.internal/api/storyboard/render/job-1" then mkStub 200 "done" None
        else if rq_url rq =s? "https://tenant.internal/api/artifact/renders/apple.png" then mkStub 200 "PNG" (Some "image/png")
        else mkStub 404 "" None).
Definition no_dates (s : string) : option Z := None.
Definition plain_text (v : js) : string := "{}".
Definition smoke_clock : M smoke_world string Z := mret (noon_secs * 1000 + 5000).
Definition no_renders : smoke_world := mkSmokeWorld (mkSmokeDb ["ten_a"] []) (mkPlatform [] []).
Definition after_start : result string http_reply * smoke_world :=
  startSmokeRoute clear_open rotating apple_studio apple_json plain_text bounds_c find_tenant (same_bytes "a") true "operator:joan" "ten_a" no_renders.
Definition apple_id : string := newId "smk" (repeat "a"%char 12).
Definition after_poll : result string http_reply * smoke_world :=
  pollSmokeRoute clear_open rotating apple_studio apple_json plain_text no_dates clear_digest smoke_clock bounds_c find_tenant true "operator:joan"
    "ten_a" apple_id after_start.2.
Definition after_look : result string SmokeAnswer * smoke_world :=
  artifactSmokeRoute clear_open rotating apple_studio plain_text clear_digest find_tenant true "operator:joan" "ten_a" apple_id after_poll.2.

Lemma find_tenant_id i s t s' : find_tenant i s = (Ok (Some t), s') → t_id t = i.
Proof. unfold find_tenant. destruct (String.eqb_spec i "ten_a") as [->|]; [|done]. by intros [= <- _]. Qed.
Abbreviation apple_nothing := (from_nothing clear_open rotating apple_studio apple_json clear_digest).
Lemma no_renders_nothing : apple_nothing no_renders.
Proof. exists no_renders. split; [done|]. apply steps_refl. Qed.
Lemma after_poll_nothing : apple_nothing after_poll.2.
Proof.
  assert (∀ s, apple_nothing s → apple_nothing (exec (startSmokeRoute clear_open rotating apple_studio apple_json plain_text bounds_c find_tenant (same_bytes "a") true
    "operator:joan" "ten_a") s) ∧ apple_nothing (exec (pollSmokeRoute clear_open rotating apple_studio apple_json plain_text no_dates clear_digest smoke_clock bounds_c
    find_tenant true "operator:joan" "ten_a" apple_id) s)) as Hk.
  { intros s Hs. destruct (routes_keep_nothing clear_open rotating apple_studio apple_json plain_text no_dates clear_digest smoke_clock bounds_c
      find_tenant (same_bytes "a") true "operator:joan" ltac:(still) ltac:(still) ltac:(still) ltac:(still) find_tenant_id s "ten_a" apple_id Hs) as (H1 & H2 & _).
    by split. }
  exact (proj2 (Hk _ (proj1 (Hk _ no_renders_nothing)))).
Qed.

Lemma verified_means_fetched_witness :
  (is_verified <$> rows_of after_start.2) = [false] ∧ (is_verified <$> rows_of after_poll.2) = [true] ∧
  ∀ r, r ∈ rows_of after_poll.2 → ∃ a, artifact_columns r = columns_of a ∧ evidence clear_open rotating apple_studio apple_json clear_digest (smk_tenant_id r) a.
Proof.
  assert (is_verified <$> rows_of after_poll.2 = [true]) as Hv by (vm_compute; reflexivity).
  split; [vm_compute; reflexivity|]. split; [exact Hv|].
  intros r Hr. destruct (verified_means_fetched clear_open rotating apple_studio apple_json plain_text no_dates clear_digest smoke_clock bounds_c
    find_tenant (same_bytes "a") true "operator:joan" ltac:(still) ltac:(still) ltac:(still) ltac:(still) find_tenant_id _ after_poll_nothing) as [_ H].
  destruct (H r Hr) as (_ & He & _). apply He.
  assert (is_verified r ∈ is_verified <$> rows_of after_poll.2) as Hin by (by apply list_elem_of_fmap_2).
  rewrite Hv in Hin. by apply list_elem_of_singleton in Hin.
Defined.

Lemma smoke_artifact_is_the_verified_one_witness :
  after_look.1 = Ok (SmokeBytes "PNG" (artifact_headers (mkStudioBytes 200 (Some "PNG") "image/png") "PNG" (sha256Hex clear_digest "PNG"))) ∧
  ∃ seen, seen ∈ trail_of after_look.2 ∧ aa_action seen = "tenant.read.smoke_render_artifact" ∧ aa_target seen = Some "ten_a".
Proof.
  assert (after_look.1 = Ok (SmokeBytes "PNG" (artifact_headers (mkStudioBytes 200 (Some "PNG") "image/png") "PNG" (sha256Hex clear_digest "PNG")))) as Hl
    by (vm_compute; reflexivity).
  split; [exact Hl|].
  destruct (smoke_artifact_is_the_verified_one clear_open rotating apple_studio apple_json plain_text clear_digest find_tenant true "operator:joan"
    ltac:(still) ltac:(still) find_tenant_id "ten_a" apple_id after_poll.2 "PNG" _ after_look.2 after_poll_nothing ltac:(rewrite <- Hl; apply surjective_pairing))
    as (tenant & smoke & a & got & s1 & s2 & seen & _ & _ & _ & _ & _ & _ & _ & _ & _ & _ & _ & _ & Hact & Htarget & Hin).
  exists seen. exact (conj Hin (conj Hact Htarget)).
Defined.
