(* ===== verification/FrontWitnesses.v ===== *)
(** * Concrete instances of the properties of the pages and the operators' routes

    A customer who retakes their own half-built studio, a studio that goes live and one on its way, an
    operator who may read and write, and a key rotation that finishes. *)

From S2P Require Import FrontDoor WizardPage Console AuthWitnesses RouteWitnesses.
From Stdlib Require Import Ascii.
Open Scope string_scope.
Open Scope list_scope.
Open Scope Z_scope.
Open Scope plane_scope.

Definition plain_text (v : js) : string := match v with JBool b => if b then "true" else "false" | JNull => "null" | _ => "" end.
Definition object_members (name : string) : option string := if name =s? "constructor" then Some "function Object() { [native code] }" else None.

(** ** Consent *)
Definition own_studio : SlugClaim := Available (Some (mkReclaim "ten_ab12" (Some "db") None None (Some "tenant-aurora"))).
(** The name is typed, asked about, ticked and left; then the build is confirmed. *)
Definition careful_history : list PageEvent :=
  [ConfirmTicked true; Continued; AckTicked true; SlugAnswered 0 (Some (claim_answer own_studio)); TimerFired; Typed " Aurora "; AcceptAnswered AcceptRecorded; Continued;
   RulesTicked true; PolicyAnswered (JObj [("url", JStr "https://example.com/aup"); ("version", JStr "1.0.0")]); Continued].
Lemma careful_page_builds :
  ∃ p q rs, page_after plain_text object_members careful_history = Some p ∧ react plain_text object_members p Continued = Some (q, rs) ∧ AskProvision "aurora" ∈ rs.
Proof.
eexists _, _, _. split; [vm_compute; reflexivity|]. split; [vm_compute; reflexivity|]. left.
Qed.
Lemma careful_is_timely : timely_history plain_text object_members careful_history.
Proof.
unfold careful_history. cbn [timely_history timely]. split_and!; try exact I; intros page Hpage; try exact I. revert page Hpage. vm_compute. intros page [= <-]. split; reflexivity.
Qed.
Lemma consent_names_what_it_destroys_witness :
  ∃ later earlier, careful_history = later ++ Continued :: earlier ∧ ∃ res, told earlier = Some res ∧ (res = claim_answer own_studio → ticked earlier = true).
Proof.
  destruct careful_page_builds as (p & q & rs & Hp & He & Hin).
  destruct (consent_names_what_it_destroys plain_text object_members Continued careful_history p q rs "aurora" careful_is_timely Hp He Hin) as
    (later & earlier & p' & res & Hh & _ & _ & _ & Hres & Hclaim).
  exists later, earlier. split; [exact Hh|]. exists res. split; [exact Hres|]. exact (Hclaim own_studio).
Defined.

(** ** Going live *)
Lemma members_shown key text : object_members key = Some text → Str.truthy text = true.
Proof. unfold object_members. destruct (key =s? "constructor"); [|discriminate]. by intros [= <-]. Qed.
Lemma go_live_screen_tells_the_truth_witness :
  ∃ answer, going_live.1 = Ok answer ∧ ivk_tone (invokeKeyVerdict plain_text object_members answer.1 answer.2) = ToneGood ∧
    answered (SSetTenantStatus "ten_ab12" "live") (Ok tt) going_live.2.
Proof.
  assert (∃ answer, going_live.1 = Ok answer ∧ ivk_tone (invokeKeyVerdict plain_text object_members answer.1 answer.2) = ToneGood ∧
    ivk_live (invokeKeyVerdict plain_text object_members answer.1 answer.2) = true) as (answer & Ha & Ht & Hl) by (eexists; split; [vm_compute; reflexivity|split; vm_compute; reflexivity]).
  exists answer. split; [exact Ha|]. split; [exact Ht|].
  pose proof (go_live_screen_tells_the_truth plain_text object_members (granting (studio_at "awaiting_go_live" None None)) signer read_text (λ _, None) (Some wired) (JObj [])
    (studio_at "awaiting_go_live" None None) members_shown) as H. fold going_live in H. destruct going_live as [r tr]. cbn [fst] in Ha. subst r.
  destruct (H answer eq_refl) as (_ & Hw & _). exact (Hw Hl).
Defined.

(** ** The build *)
Definition some_steps : list string := ["d1_create"; "d1_migrate"; "r2_bucket"].
Definition stopped_job : ProvisionJob :=
  mkJob "job_1" "ten_ab12" KProvision JobFailed (Some "bundle_fetch") "steps" (Some "bundle_fetch") (Some "release v9 is not there") 1 None None (Some "v9") None
    "2026-07-16T12:00:00.000Z" "2026-07-16T12:00:00.000Z" (Some "2026-07-16T12:01:00.000Z").
Definition read_steps (text : string) : option js := if text =s? "steps" then Some (JArr (JStr <$> some_steps)) else None.
Definition stopped_body : js := match job_body read_steps stopped_job with Ok r => default JNull (hr_body r) | Err _ => JNull end.
Lemma build_screen_is_true_of_the_job_witness :
  (∃ row, row ∈ provisionRows plain_text stopped_body ∧ br_status row = RowFailed ∧ br_error row = JStr "release v9 is not there") ∧
  (br_status <$> provisionRows plain_text stopped_body) = [RowDone; RowRunning; RowTodo; RowTodo; RowTodo; RowTodo; RowFailed] ∧ provisionPollDelayMs stopped_body = 0.
Proof.
  assert (∃ answer, job_body read_steps stopped_job = Ok answer ∧ hr_body answer = Some stopped_body) as (answer & Hj & Hb) by (eexists; split; vm_compute; reflexivity).
  destruct (build_screen_is_true_of_the_job plain_text read_steps stopped_job some_steps answer stopped_body eq_refl Hj Hb) as (Hfail & _ & _ & Hdelay).
  split; [exact (Hfail "bundle_fetch" eq_refl eq_refl)|]. split; [vm_compute; reflexivity|exact Hdelay].
Defined.

(** ** Arrivals *)
Definition live_owner (i : string) : M auth_db string (option Tenant) := mret (Some (new_tenant 0 "ten_a" "studio-a" i "live")).
Definition aup_env (name : string) : option string := if name =s? "AUP_VERSION" then Some "v3" else sso_env name.
Definition policy_db : auth_db := exec (recordAupAcceptance (ac_id ada) "v3" "sha" None None) ada_db.
Definition owner_me : result string http_reply * auth_db := me aup_env router live_owner ada policy_db.
Lemma every_state_has_its_screen_witness :
  ∃ r body, owner_me.1 = Ok r ∧ hr_body r = Some body ∧ fv_route (boot (Some (200, JObj [])) (Some (hr_status r, body))) = "studio".
Proof.
  assert (∃ r s', owner_me = (Ok r, s')) as (r & s' & Hr) by (eexists _, _; vm_compute; reflexivity).
  destruct (every_state_has_its_screen (others := eq) aup_env router live_owner ada policy_db r s' (JObj [])) as (tenant & s1 & db & body & Ht & Ho & Hb & Hroute & _).
  - intros s1 t s2 Ht. injection Ht as <- _. do 4 right. left.
  - exact Hr.
  - exists r, body. split; [rewrite Hr; reflexivity|]. split; [exact Hb|]. rewrite Hroute. injection Ht as <- <-. subst db. vm_compute. reflexivity.
Defined.

(** ** The console *)
(** The patterns of the table, by their sources. *)
Definition by_source (source : string) : option (string → bool) :=
  (λ row, test (pattern_re (ar_pattern row))) <$> List.find (λ row, pattern_source (ar_pattern row) =s? source) ADMIN_REQUIREMENTS.
Lemma by_source_reads row : row ∈ ADMIN_REQUIREMENTS →
  ∃ re, by_source (pattern_source (ar_pattern row)) = Some re ∧ ∀ path, re path = test (pattern_re (ar_pattern row)) path.
Proof.
  intros Hin. assert (forallb (λ row, match List.find (λ r, pattern_source (ar_pattern r) =s? pattern_source (ar_pattern row)) ADMIN_REQUIREMENTS with
    Some r => bool_decide (ar_pattern r = ar_pattern row) | None => false end) ADMIN_REQUIREMENTS = true) as Hall by (vm_compute; reflexivity).
  rewrite forallb_forall in Hall. specialize (Hall row (proj1 (list_elem_of_In _ _) Hin)). unfold by_source.
  destruct (List.find _ ADMIN_REQUIREMENTS) as [r|]; [|discriminate Hall]. apply bool_decide_eq_true in Hall. eexists. split; [reflexivity|]. intros path. by rewrite Hall.
Qed.
Definition writer : OperatorPrincipal := mkPrincipal PCredential "operator:rae" (Some "rae") (Some "opc_1") ["tenants:write"].
Definition who_writes : js := default JNull (hr_body (whoami id writer)).
Lemma console_offers_what_the_gate_admits_witness :
  (ta_id <$> tenantActions by_source who_writes) = ["suspend"; "resume"] ∧
  (canCall by_source who_writes "POST" "/api/admin/tenants/ten_ab12/suspend" = true ↔ authorize "POST" "/api/admin/tenants/ten_ab12/suspend" writer = AdmittedAs writer) ∧
  sectionsFor by_source (default JNull (hr_body (whoami id root_principal))) = mkSections true false false false true true.
Proof.
  split; [vm_compute; reflexivity|]. split.
  - exact (proj1 (console_offers_what_the_gate_admits by_source by_source_reads id writer who_writes eq_refl) _ _).
  - exact (proj2 (proj2 (console_offers_what_the_gate_admits by_source by_source_reads id root_principal _ eq_refl)) eq_refl).
Defined.

(** ** The rotation *)
Definition unrecorded (actor action : string) (target : option string) (d : AuditDetail) : M plane_db string unit := mret tt.
Definition rotate_all : result string http_reply * plane_db :=
  kek_reencrypt unrecorded clear_seal clear_open (same_bytes "v") router "operator:rae" JNull sealed_db.
Lemma rotation_answer_is_what_stands_witness :
  ∃ r db, rotate_all = (Ok r, db) ∧ hr_status r = 200 ∧ Forall (λ row, on_target clear_open (Routing.studioKekRing router) row = true) (listEncryptedStudioTokens db).
Proof.
  assert (∃ r db, rotate_all = (Ok r, db) ∧ hr_status r = 200) as (r & db & Hr & Hst) by (eexists _, _; split; [vm_compute; reflexivity|reflexivity]).
  exists r, db. split; [exact Hr|]. split; [exact Hst|].
  pose proof (rotation_answer_is_what_stands unrecorded clear_seal clear_open (same_bytes "v") router "operator:rae" JNull sealed_db) as H.
  cbv zeta in H. unfold rotate_all in *. rewrite Hr in H. change (negb (is_set (re_kek router))) with false in H. cbv iota in H.
  assert (negb (rotationWindowOpen (Routing.studioKekRing router)) = false) as Hw by (vm_compute; reflexivity). rewrite Hw in H.
  destruct (sweepReencrypt _ _ _ _ _ sealed_db) as [[sweep|message] s1].
  - cbn in H. destruct H as (status & H & Hall & _). injection H as -> ->. exact (proj1 Hall Hst).
  - destruct (Auth.includes_text _ _); [|discriminate H]. injection H as -> ->. discriminate Hst.
Defined.
